(* ===== verification/_CoqProject ===== *)
-Q . S2P
Prelude.v
Runtime.v
Heap.v
HeapFacts.v
Interfaces.v
Ownership.v
RamDisk.v
Filesystem.v
FsNames.v
FsFrame.v
FsTree.v
FsData.v
FsVolume.v
FsRefine.v
FsTheorems.v
FsMount.v
Ports.v
Ata.v
Rtc.v
Serial.v
Pci.v
Input.v
Account.v
AccountStore.v
Compiler.v
CompilerFacts.v
Deb.v
DebFacts.v
NicInterface.v
E1000.v
Network.v
NetworkFormats.v
NetworkFacts.v
NetworkStream.v
Libc.v
LibcFacts.v
LibcHeap.v
LibcHeapFacts.v
Vm.v
VmLookup.v
VmFrames.v
VmTables.v
VmSpaces.v
VmOps.v
VmCopy.v
VmMap.v
VmLife.v
VmClone.v
VmShare.v
VmSystem.v
VmSteps.v
VmTheorems.v
Process.v
Descriptors.v
Ipc.v
FileCalls.v
MemCalls.v
Elf.v
ElfLoader.v
Tasks.v
Syscalls.v
ProcessTable.v
Scheduler.v
Rings.v
Paths.v
ProcessTheorems.v
TlsLayout.v
SymbolLookup.v
LoaderFrame.v
ElfFacts.v
ElfTheorems.v
Threads.v
ThreadFacts.v
Graphics.v
GraphicsTheorems.v
Ui.v
DesktopFacts.v
DesktopWire.v
DesktopTheorems.v
DesktopSystem.v
