(* ===== verification/Prelude.v ===== *)
(** * NovaOS, a verification of its C sources

    NovaOS is an operating system for x86-64: a kernel with a heap, a disk file system, virtual
    memory, processes with a Linux system call interface and an ELF loader, drivers, a network
    stack, accounts, a compiler, a package installer and a graphical desktop, and a C library
    and a thread library for the programs that run on it.  This library translates the C code
    into functions and proves that they do what the rest of the system relies on.

    ** The parts and how they work together

    - kernel/heap.c gives memory to everything else: Heap (the blocks as a map from addresses
      to headers, [heap_alloc], [heap_free]), HeapFacts (the invariant of the chain of blocks).
      Interfaces has the contract of an allocator and of a disk as the classes [Allocator] and [BlockDevice], which
      Ownership and RamDisk show to be satisfiable; all clients are proved against the classes.
    - runtime/runtime.c: Runtime (memory and string functions on lists of bytes).
    - kernel/filesystem.c: Filesystem (state [FsState], one definition per call), FsNames and
      FsFrame (names, framing), FsTree (the directory tree invariant), FsData (file contents on
      the disk), FsVolume and FsRefine (consistency of a volume and its abstract view, a map
      from paths to nodes), FsTheorems (the theorems, and two cases in which the code loses
      data), FsMount (mounting what was written).
    - drivers: Ports (port input and output with a trace), Ata, Rtc, Serial, Pci, Input, E1000; the devices are
      parameters.  NicInterface is what the network stack needs of an adapter.
    - kernel/account.c: Account, AccountStore.  kernel/compiler.c: Compiler, CompilerFacts.
      kernel/deb.c: Deb, DebFacts.
    - kernel/network.c: Network (one state, one function per handler), NetworkFormats,
      NetworkFacts, NetworkStream.
    - user/libc.c: Libc, LibcFacts (strings, conversion, sorting), LibcHeap, LibcHeapFacts (malloc).
      user/pthread_compat.c: Threads (functions as programs over atomic steps), ThreadFacts.
    - kernel/vm.c: Vm (frames, page tables, the page lookup table, copy-on-write), VmLookup,
      VmFrames, VmTables, VmSpaces, VmOps, VmCopy, VmMap, VmLife, VmClone, VmShare (lemmas by
      operation), VmSystem and VmSteps (a system of several address spaces and its steps), VmTheorems.
    - kernel/process.c: Process (the state [Kernel] of the process subsystem: processes, address
      spaces, objects behind descriptors, the file system and the console), Descriptors, Ipc,
      FileCalls, MemCalls, Tasks (processes, signals, scheduler), Elf and ElfLoader (the loader
      and linker), Syscalls (the dispatchers).  ProcessTable, Scheduler, Rings, Paths, TlsLayout,
      SymbolLookup, LoaderFrame and ElfFacts have the lemmas, ProcessTheorems and ElfTheorems the theorems.
    - graphics/graphics.c: Graphics, GraphicsTheorems; the font is a parameter.
    - ui/ui.c: Ui (the variables in one record per application; applications, clicks, keys, the
      lines from the internet bridge, and of the drawing what it leaves in variables).  What the
      desktop asks of the rest of the system is the class [Services]; DesktopSystem puts the
      file system, processes, compiler, installer, network, accounts, graphics and ports together
      and shows that they provide it, and has the main loop of kernel/kernel.c.  DesktopFacts, DesktopWire and DesktopTheorems have the proofs.

    ** How the code is translated

    A function that reads and writes file-scope variables is a function of a record of them, in
    the state monad [st] below; early returns are branches that end in [ret].  C integers are
    [Z] with the wrap-around written as [u8], [u32], [s32], [u64] and so on wherever the source can wrap.
    Memory is a list of bytes or a map; a pointer that can be NULL is 0 or [None].  Loops are Fixpoints: on the
    data where the source counts, and otherwise with fuel that is computed from the bound of
    the loop (the bytes left to copy, the slots of a table, 128 objects, 4194304 symbols), so that it
    never runs out; only loops that wait for a device without a limit, and the loop of [gfx_line], which need not
    end when its sums overflow, take the fuel as an argument.  What is proved about them holds for every amount, or
    for every amount from a stated one on.  Theorems that say that a call returns are about the whole call.

    ** What is proved

    - Refinement: the file system implements a map from paths to nodes; address spaces
      implement maps from pages to bytes, and the page tables give the processor the same view; pipes
      implement queues; the compiler's image prints and returns what the program says; the history
      of the browser is a place among visits, with a mark for a move that is not over.
    - Invariants: the heap, the file tree, reference counts of frames, process numbers and
      privileges (until the number, a 32-bit int, ends), the network connection, account sessions.
    - Safety: isolation of address spaces (all but the contents of memory that is shared), seccomp, drawing stays inside the frame, TCP data is
      a prefix of what was sent, mutual exclusion under every interleaving of threads and that no thread is locked out.
    - Round trips: writing and reading files, also after mounting again, allocating and freeing,
      packages, pages of the browser from the bridge, in whatever pieces they arrive.
    - Errors and bounds: what a failed [execve] leaves alone, which ELF files are accepted and
      where their parts end up; the desktop stays within its arrays whatever is typed, clicked and
      received, except for a download with a file name that is too long.
    - Liveness and termination: the scheduler reaches every process that is ready; line drawing and
      package installation end.
    - Equivalence with simpler definitions: symbol lookup by hash and linear search, path normalisation,
      sorting, the lines of the wire.

    ** What is not modelled

    The assembly (boot, interrupt entry, user programs) and the processor: switching to a
    process is the parameter [run] of [process_schedule].  Devices are parameters.  The math library is inline
    x87 assembly on floating-point numbers.  The unwinder and the loader stubs of the user
    libraries return constants.  Of kernel/kernel.c the part before the main loop,
    which calls the initialisation of every component and tests them, is not modelled.  Of the desktop the
    pixels that ui/ui.c draws are not modelled; the font and the tools that run on the host are not
    modelled either.

    This file has the vocabulary that all others share. *)

From Stdlib Require Export ZArith Lia Bool ZifyBool.
From Stdlib Require Ascii String.
From stdpp Require Export base gmap numbers list.
Export String.StringSyntax.
Delimit Scope string_scope with string.

Declare Scope nova_scope.
Delimit Scope nova_scope with nova.
#[global] Open Scope Z_scope.
#[global] Open Scope nova_scope.

(** ** Machine integers

    A [w]-bit C integer is a [Z]; the casts of the source are the functions
    below, and every place of the source that can wrap writes the cast out. *)

Definition wrap (w x : Z) : Z := x mod 2 ^ w.

Definition swrap (w x : Z) : Z := (x + 2 ^ (w - 1)) mod 2 ^ w - 2 ^ (w - 1).

Abbreviation u8 := (wrap 8).
Abbreviation u16 := (wrap 16).
Abbreviation u32 := (wrap 32).
Abbreviation u64 := (wrap 64).
Abbreviation s8 := (swrap 8).
Abbreviation s16 := (swrap 16).
Abbreviation s32 := (swrap 32).
Abbreviation s64 := (swrap 64).

(** A C condition [x & m] on an integer. *)
Definition has (x m : Z) : bool := negb (Z.land x m =? 0).

(** A byte, and a buffer of bytes. *)
Definition is_byte (b : Z) : Prop := 0 <= b < 256.

Definition bytes (l : list Z) : Prop := Forall is_byte l.

(** The characters of a string literal. *)
Definition text (s : String.string) : list Z :=
  (fun c => Z.of_N (Ascii.N_of_ascii c)) <$> String.list_ascii_of_string s.

Arguments text s%_string.

#[global] Instance is_byte_dec b : Decision (is_byte b).
Proof. unfold is_byte. apply _. Defined.

(** ** A state monad

    C functions that read and write file-scope state become functions of the
    state; early returns are branches that end in [ret]. *)

Definition st (S A : Type) : Type := S -> A * S.

Definition ret {S A} (a : A) : st S A := fun s => (a, s).

Definition bind {S A B} (m : st S A) (k : A -> st S B) : st S B :=
  fun s => let '(a, s') := m s in k a s'.

Definition gets {S A} (f : S -> A) : st S A := fun s => (f s, s).

Definition modify {S} (f : S -> S) : st S unit := fun s => (tt, f s).

Notation "x <- m ;; k" := (bind m (fun x => k))
  (at level 100, m at next level, k at level 200, right associativity) : nova_scope.
Notation "'let!' p := m 'in' k" := (bind m (fun x => match x with p => k end))
  (at level 10, p pattern, m at level 200, k at level 200) : nova_scope.
Notation "m ;;; k" := (bind m (fun _ => k))
  (at level 100, k at level 200, right associativity) : nova_scope.

(** Weakest preconditions: [wp m Q s] says that [m] run in [s] ends in a result
    and a state that satisfy [Q]. *)
Definition wp {S A} (m : st S A) (Q : A -> S -> Prop) (s : S) : Prop := Q (m s).1 (m s).2.

Lemma wp_bind {S A B} (m : st S A) (k : A -> st S B) Q s :
  wp m (fun a => wp (k a) Q) s -> wp (bind m k) Q s.
Proof. unfold wp, bind. by destruct (m s). Qed.

Lemma wp_mono {S A} (m : st S A) (P Q : A -> S -> Prop) s :
  wp m P s -> (forall a s', P a s' -> Q a s') -> wp m Q s.
Proof. unfold wp. auto. Qed.

Lemma wp_ret {S A} (a : A) Q (s : S) : Q a s -> wp (ret a) Q s.
Proof. done. Qed.

Lemma wp_gets {S A} (f : S -> A) Q (s : S) : Q (f s) s -> wp (gets f) Q s.
Proof. done. Qed.

Lemma wp_modify {S} (f : S -> S) Q (s : S) : Q tt (f s) -> wp (modify f) Q s.
Proof. done. Qed.

(** The result of a run, from its first component. *)
Lemma pair_fst {A B} (x : A * B) a : x.1 = a -> x = (a, x.2).
Proof. destruct x. by simpl; intros ->. Qed.

(** ** Automation *)

Create HintDb nova discriminated.
Create Rewrite HintDb nova.

(** Turns the booleans of the code into propositions and splits them. *)
Ltac bool_hyps :=
  repeat match goal with
  | H : (_ && _)%bool = true |- _ => apply andb_true_iff in H; destruct H
  | H : (_ || _)%bool = false |- _ => apply orb_false_iff in H; destruct H
  | H : negb _ = true |- _ => apply negb_true_iff in H
  | H : negb _ = false |- _ => apply negb_false_iff in H
  end.

(** Case analysis on the condition of the outermost [if] of the goal. *)
Ltac case_if_as H :=
  match goal with |- context [if ?b then _ else _] => destruct b eqn:H end.

Tactic Notation "case_if" "as" ident(H) := case_if_as H.

(** Steps through the monadic operations at the head of a [wp] goal. *)
Ltac wp_step :=
  match goal with
  | |- wp (bind _ _) _ _ => apply wp_bind
  | |- wp (ret _) _ _ => apply wp_ret
  | |- wp (gets _) _ _ => apply wp_gets
  | |- wp (modify _) _ _ => apply wp_modify
  end; cbn beta.

Ltac wp_steps := repeat wp_step.

(** Uses a lemma about a call at the head of a [wp] goal. *)
Tactic Notation "wp_call" uconstr(H) := eapply wp_mono; [eapply H|cbn beta].

(** ** Words: bounds and casts *)

Lemma wrap_bound w x : 0 <= w -> 0 <= wrap w x < 2 ^ w.
Proof. intros. apply Z.mod_pos_bound. apply Z.pow_pos_nonneg; lia. Qed.

Lemma wrap_small w x : 0 <= x < 2 ^ w -> wrap w x = x.
Proof. apply Z.mod_small. Qed.

Lemma wrap_wrap w x : 0 <= w -> wrap w (wrap w x) = wrap w x.
Proof. intros. apply wrap_small, wrap_bound. done. Qed.

Lemma wrap_add_l w a b : 0 <= w -> wrap w (wrap w a + b) = wrap w (a + b).
Proof. intros. unfold wrap. by rewrite Zplus_mod_idemp_l. Qed.

Lemma swrap_bound w x : 0 < w -> - 2 ^ (w - 1) <= swrap w x < 2 ^ (w - 1).
Proof.
  intros. unfold swrap.
  assert (2 ^ w = 2 * 2 ^ (w - 1)) as Hw.
  { rewrite <- Z.pow_succ_r by lia. f_equal. lia. }
  pose proof (Z.mod_pos_bound (x + 2 ^ (w - 1)) (2 ^ w)).
  assert (0 < 2 ^ (w - 1)) by (apply Z.pow_pos_nonneg; lia). lia.
Qed.

Lemma swrap_small w x : 0 < w -> - 2 ^ (w - 1) <= x < 2 ^ (w - 1) -> swrap w x = x.
Proof.
  intros. unfold swrap.
  assert (2 ^ w = 2 * 2 ^ (w - 1)) as Hw.
  { rewrite <- Z.pow_succ_r by lia. f_equal. lia. }
  rewrite Z.mod_small; lia.
Qed.

Lemma u8_byte x : is_byte (u8 x).
Proof. apply (wrap_bound 8). lia. Qed.

#[export] Hint Resolve u8_byte : nova.

(** Masking with a run of ones is a remainder. *)
Lemma land_ones_mod x k : 0 <= k -> Z.land x (2 ^ k - 1) = x mod 2 ^ k.
Proof. intros. rewrite <- Z.land_ones by lia. f_equal. rewrite Z.ones_equiv. lia. Qed.

(** Clearing the low [k] bits rounds down to a multiple of [2 ^ k]. *)
Lemma land_lnot_ones x k : 0 <= k -> Z.land x (Z.lnot (2 ^ k - 1)) = x - x mod 2 ^ k.
Proof.
  intros. rewrite <- Z.ldiff_land.
  replace (2 ^ k - 1) with (Z.ones k) by (rewrite Z.ones_equiv; lia).
  rewrite Z.ldiff_ones_r, Z.shiftl_mul_pow2, Z.shiftr_div_pow2 by lia.
  pose proof (Z.div_mod x (2 ^ k)). lia.
Qed.

(** The same inside a word of [w] bits, as the [uintN_t] expressions compute it. *)
Lemma wrap_land_lnot_ones w x k :
  0 <= k <= w -> 0 <= x < 2 ^ w ->
  Z.land x (wrap w (Z.lnot (2 ^ k - 1))) = x - x mod 2 ^ k.
Proof.
  intros Hk Hx. unfold wrap. rewrite <- Z.land_ones by lia.
  rewrite (Z.land_comm (Z.lnot _)), Z.land_assoc, (Z.land_ones x w), (Z.mod_small x) by lia.
  apply land_lnot_ones. lia.
Qed.

(** Fields that do not overlap are joined by addition. *)
Lemma lor_add k a b : 0 <= k -> 0 <= b < 2 ^ k -> Z.lor (2 ^ k * a) b = 2 ^ k * a + b.
Proof.
  intros Hk Hb. rewrite <- (Z.mod_small b (2 ^ k)) by done. rewrite <- Z.land_ones by done.
  rewrite Z.mul_comm, <- Z.shiftl_mul_pow2 by done.
  assert (E : Z.land (Z.shiftl a k) (Z.land b (Z.ones k)) = 0).
  { apply Z.bits_inj'. intros n Hn. rewrite !Z.land_spec, Z.bits_0.
    destruct (decide (n < k)).
    - by rewrite Z.shiftl_spec_low.
    - by rewrite (Z.ones_spec_high k n), !andb_false_r by lia. }
  by rewrite <- Z.lxor_lor, <- Z.add_nocarry_lxor.
Qed.

(** A decidable property of all numbers below [n], by evaluation. *)
Definition all_below (n : nat) (P : Z -> bool) : bool := forallb P (Z.of_nat <$> seq 0 n).

Lemma all_below_spec n P x : all_below n P = true -> 0 <= x < Z.of_nat n -> P x = true.
Proof.
  unfold all_below. rewrite forallb_forall. intros H Hx. apply H, in_map_iff.
  exists (Z.to_nat x). split; [lia|]. apply in_seq. lia.
Qed.

(** ** Little-endian fields of packed structures *)

Fixpoint le (n : nat) (x : Z) : list Z :=
  match n with O => [] | S n => x mod 256 :: le n (x / 256) end.

Fixpoint of_le (l : list Z) : Z :=
  match l with [] => 0 | b :: l => b + 256 * of_le l end.

(** [n] bytes of a buffer from offset [off]. *)
Definition slice (off n : nat) (l : list Z) : list Z := take n (drop off l).

(** The integer field of [n] bytes at offset [off]. *)
Definition field (off n : nat) (l : list Z) : Z := of_le (slice off n l).

(** [memcpy(dst + off, src, ...)] into a buffer that is large enough. *)
Definition blit (off : nat) (src dst : list Z) : list Z :=
  take off dst ++ src ++ drop (off + length src) dst.

Lemma length_le n x : length (le n x) = n.
Proof. revert x. induction n as [|n IH]; intros x; simpl; [done|]. by rewrite IH. Qed.

Lemma le_bytes n x : bytes (le n x).
Proof.
  revert x. induction n as [|n IH]; intros x; constructor; [|apply IH].
  apply Z.mod_pos_bound. lia.
Qed.

Lemma of_le_le n x : of_le (le n x) = x mod 2 ^ (8 * Z.of_nat n).
Proof.
  revert x. induction n as [|n IH]; intros x; cbn [le of_le]; [by rewrite Z.mod_1_r|].
  rewrite IH. replace (8 * Z.of_nat (S n)) with (8 + 8 * Z.of_nat n) by lia.
  rewrite Z.pow_add_r by lia. change (2 ^ 8) with 256.
  rewrite Z.rem_mul_r by lia. lia.
Qed.

Lemma of_le_bound l : bytes l -> 0 <= of_le l < 2 ^ (8 * Z.of_nat (length l)).
Proof.
  induction 1 as [|b l Hb Hl IH]; cbn [of_le length]; [lia|].
  replace (8 * Z.of_nat (S (length l))) with (8 + 8 * Z.of_nat (length l)) by lia.
  rewrite Z.pow_add_r by lia. change (2 ^ 8) with 256. unfold is_byte in Hb. lia.
Qed.

Lemma le_of_le l : bytes l -> le (length l) (of_le l) = l.
Proof.
  induction 1 as [|b l Hb Hl IH]; cbn [le of_le length]; [done|]. unfold is_byte in Hb.
  rewrite (Z.mul_comm 256), Z_mod_plus_full, Z.mod_small, Z.div_add, Z.div_small by lia.
  by rewrite Z.add_0_l, IH.
Qed.

Lemma of_le_le_small n x : 0 <= x < 2 ^ (8 * Z.of_nat n) -> of_le (le n x) = x.
Proof. intros. rewrite of_le_le. by apply Z.mod_small. Qed.

Lemma bytes_app l1 l2 : bytes (l1 ++ l2) <-> bytes l1 /\ bytes l2.
Proof. apply Forall_app. Qed.

Lemma bytes_take n l : bytes l -> bytes (take n l).
Proof. apply Forall_take. Qed.

Lemma bytes_drop n l : bytes l -> bytes (drop n l).
Proof. apply Forall_drop. Qed.

Lemma bytes_zeroes n : bytes (replicate n 0).
Proof. apply Forall_replicate. unfold is_byte. lia. Qed.

Lemma bytes_slice off n l : bytes l -> bytes (slice off n l).
Proof. intros. by apply bytes_take, bytes_drop. Qed.

Lemma length_blit off src dst :
  (off + length src <= length dst)%nat -> length (blit off src dst) = length dst.
Proof. intros. unfold blit. rewrite !length_app, length_take, length_drop. lia. Qed.

Lemma bytes_blit off src dst : bytes src -> bytes dst -> bytes (blit off src dst).
Proof.
  intros. unfold blit. rewrite !bytes_app. auto using bytes_take, bytes_drop.
Qed.

Lemma slice_blit_eq off src dst :
  (off + length src <= length dst)%nat -> slice off (length src) (blit off src dst) = src.
Proof.
  intros. unfold slice, blit. rewrite drop_app_length' by (rewrite length_take; lia).
  by rewrite take_app_length.
Qed.

(** Bytes outside the overwritten range keep their value. *)
Lemma lookup_blit off src dst (i : nat) :
  (off + length src <= length dst)%nat ->
  blit off src dst !! i =
    if decide (off <= i < off + length src)%nat then src !! (i - off)%nat else dst !! i.
Proof.
  intros. unfold blit. case_decide.
  - rewrite lookup_app_r by (rewrite length_take; lia).
    rewrite lookup_app_l by (rewrite length_take; lia). f_equal. rewrite length_take. lia.
  - destruct (decide (i < off)%nat).
    + rewrite lookup_app_l by (rewrite length_take; lia). by rewrite lookup_take_lt.
    + rewrite lookup_app_r, length_take by (rewrite length_take; lia).
      rewrite lookup_app_r by lia. rewrite lookup_drop. f_equal. lia.
Qed.

(** Reading a field of a concatenation of fields. *)
Lemma slice_skip off n l1 l2 :
  (length l1 <= off)%nat -> slice off n (l1 ++ l2) = slice (off - length l1) n l2.
Proof.
  intros. unfold slice. f_equal. rewrite drop_app, (drop_ge l1) by lia. done.
Qed.

Lemma slice_head n l1 l2 : length l1 = n -> slice 0 n (l1 ++ l2) = l1.
Proof. intros <-. unfold slice. by rewrite drop_0, take_app_length. Qed.

Lemma slice_whole n l : length l = n -> slice 0 n l = l.
Proof. intros <-. unfold slice. by rewrite drop_0, firstn_all. Qed.

#[export] Hint Resolve le_bytes bytes_take bytes_drop bytes_zeroes bytes_slice bytes_blit : nova.
#[export] Hint Rewrite length_le : nova.

(** Resolves [slice off n (f1 ++ ... ++ fk)] when the lengths of the fields are
    known, to the field at [off]. *)
Ltac slices :=
  repeat match goal with
  | |- context [slice ?off ?n (?l1 ++ ?l2)] =>
      first
        [ rewrite (slice_head n l1 l2) by (rewrite ?length_le; first [done | assumption])
        | rewrite (slice_skip off n l1 l2) by (rewrite ?length_le; lia);
          rewrite ?length_le;
          repeat match goal with H : length ?l = _ |- context [length ?l] => rewrite H end;
          cbn [Nat.sub] ]
  | |- context [slice 0 ?n ?l] => rewrite (slice_whole n l) by (rewrite ?length_le; first [done | assumption])
  end.
