(* ===== verification/Runtime.v ===== *)
(** * runtime/runtime.c: the freestanding memory and string routines

    The four memory routines work on a flat byte memory, because [memmove] is
    about overlapping ranges of one memory.  The string routines work on the
    buffer that holds the string: a list of bytes, read as a NUL beyond its
    end, so a buffer filled to the last byte and a NUL-terminated one behave
    alike. *)

From S2P Require Import Prelude.

(** ** Memory routines *)

(** A flat memory: the byte at each address. *)
Definition mem : Type := Z -> Z.

Definition mem_set (m : mem) (a v : Z) : mem := fun x => if x =? a then v else m x.

(** [while (count--) *bytes++ = (uint8_t)value;] *)
Fixpoint memset (destination value : Z) (count : nat) (m : mem) : mem :=
  match count with
  | O => m
  | S n => memset (destination + 1) value n (mem_set m destination (u8 value))
  end.

(** [while (count--) *out++ = *in++;] *)
Fixpoint memcpy (destination source : Z) (count : nat) (m : mem) : mem :=
  match count with
  | O => m
  | S n => memcpy (destination + 1) (source + 1) n (mem_set m destination (m source))
  end.

(** [while (count--) out[count] = in[count];] *)
Fixpoint memmove_down (destination source : Z) (count : nat) (m : mem) : mem :=
  match count with
  | O => m
  | S n => memmove_down destination source n
             (mem_set m (destination + Z.of_nat n) (m (source + Z.of_nat n)))
  end.

Definition memmove (destination source : Z) (count : nat) (m : mem) : mem :=
  if destination <? source then memcpy destination source count m
  else memmove_down destination source count m.

(** The difference of the first two bytes that differ, 0 if there are none. *)
Fixpoint memcmp (left right : Z) (count : nat) (m : mem) : Z :=
  match count with
  | O => 0
  | S n => if m left =? m right then memcmp (left + 1) (right + 1) n m
           else m left - m right
  end.

(** ** String routines *)

Fixpoint strlen (text : list Z) : nat :=
  match text with
  | [] => O
  | c :: text' => if c =? 0 then O else S (strlen text')
  end.

(** The string a buffer holds. *)
Definition cstr (text : list Z) : list Z := take (strlen text) text.

(** [*text] *)
Definition char_at (text : list Z) : Z := match text with [] => 0 | c :: _ => c end.

Fixpoint strcmp (left right : list Z) : Z :=
  match left with
  | [] => 0 - char_at right
  | a :: left' =>
      if (negb (a =? 0) && (a =? char_at right))%bool then strcmp left' (tail right)
      else a - char_at right
  end.

Fixpoint strncmp (left right : list Z) (count : nat) : Z :=
  match count with
  | O => 0
  | S n =>
      if (negb (char_at left =? 0) && (char_at left =? char_at right))%bool
      then strncmp (tail left) (tail right) n
      else char_at left - char_at right
  end.

(** The bytes [strcpy] stores: the string and its NUL. *)
Definition strcpy (source : list Z) : list Z := cstr source ++ [0].

(** The [count] bytes [strncpy] stores: the string cut at [count], then NULs. *)
Fixpoint strncpy (source : list Z) (count : nat) : list Z :=
  match count with
  | O => []
  | S n => if char_at source =? 0 then replicate count 0
           else char_at source :: strncpy (tail source) n
  end.

(** The [do ... while (number)] loop: the digits of [number], lowest first.
    [fuel] bounds the number of digits. *)
Fixpoint digits_reversed (fuel : nat) (number : Z) : list Z :=
  match fuel with
  | O => []
  | S n => (48 + number mod 10) ::
           (if number / 10 =? 0 then [] else digits_reversed n (number / 10))
  end.

(** A [uint32_t] has at most ten decimal digits. *)
Definition int_to_string (value : Z) : list Z :=
  let negative := value <? 0 in
  let number := if negative then u32 (0 - u32 value) else u32 value in
  let reversed := digits_reversed 10 number in
  let reversed := if negative then reversed ++ [45] else reversed in
  rev reversed ++ [0].

(** ** Facts about the memory routines *)

Lemma mem_set_eq m a v : mem_set m a v a = v.
Proof. unfold mem_set. by rewrite Z.eqb_refl. Qed.

Lemma mem_set_ne m a v x : x <> a -> mem_set m a v x = m x.
Proof. intros. unfold mem_set. by rewrite (proj2 (Z.eqb_neq x a)). Qed.

Lemma memset_spec d v n m x :
  memset d v n m x = if (d <=? x) && (x <? d + Z.of_nat n) then u8 v else m x.
Proof.
  revert d m. induction n as [|n IH]; intros d m; simpl.
  { case_if as H; [lia|done]. }
  rewrite IH. case_if as H1; case_if as H2; try lia; try done.
  - destruct (decide (x = d)) as [->|]; [by rewrite mem_set_eq|lia].
  - rewrite mem_set_ne; [done|lia].
Qed.

(** Copying upwards reads every source byte before it is overwritten when the
    destination starts below the source or past its end. *)
Lemma memcpy_spec d s n m x :
  d <= s \/ s + Z.of_nat n <= d ->
  memcpy d s n m x = if (d <=? x) && (x <? d + Z.of_nat n) then m (s + (x - d)) else m x.
Proof.
  revert d s m. induction n as [|n IH]; intros d s m Hds; simpl.
  { case_if as H; [lia|done]. }
  rewrite IH by lia. case_if as H1; case_if as H2; try lia.
  - rewrite mem_set_ne by lia. f_equal. lia.
  - destruct (decide (x = d)) as [->|]; [|lia].
    rewrite mem_set_eq. f_equal. lia.
  - rewrite mem_set_ne; [done|lia].
Qed.

(** Copying downwards is right when the destination is not below the source. *)
Lemma memmove_down_spec d s n m x :
  s <= d ->
  memmove_down d s n m x =
    if (d <=? x) && (x <? d + Z.of_nat n) then m (s + (x - d)) else m x.
Proof.
  revert m. induction n as [|n IH]; intros m Hds; simpl.
  { case_if as H; [lia|done]. }
  rewrite IH by lia. case_if as H1; case_if as H2; try lia.
  - rewrite mem_set_ne by lia. done.
  - assert (x = d + Z.of_nat n) as -> by lia. rewrite mem_set_eq. f_equal. lia.
  - rewrite mem_set_ne; [done|lia].
Qed.

Lemma memmove_spec d s n m x :
  memmove d s n m x = if (d <=? x) && (x <? d + Z.of_nat n) then m (s + (x - d)) else m x.
Proof.
  unfold memmove. destruct (d <? s) eqn:H.
  - apply memcpy_spec. lia.
  - apply memmove_down_spec. lia.
Qed.

Lemma memcmp_eq_zero a b n m :
  memcmp a b n m = 0 <-> forall i, 0 <= i < Z.of_nat n -> m (a + i) = m (b + i).
Proof.
  revert a b. induction n as [|n IH]; intros a b; simpl.
  { split; [intros _ i Hi; lia|done]. }
  destruct (m a =? m b) eqn:H.
  - rewrite IH. split; intros Hall i Hi.
    + destruct (decide (i = 0)) as [->|]; [rewrite !Z.add_0_r; lia|].
      specialize (Hall (i - 1) ltac:(lia)).
      by replace (a + i) with (a + 1 + (i - 1)) by lia;
        replace (b + i) with (b + 1 + (i - 1)) by lia.
    + specialize (Hall (i + 1) ltac:(lia)).
      by replace (a + 1 + i) with (a + (i + 1)) by lia;
        replace (b + 1 + i) with (b + (i + 1)) by lia.
  - split; [lia|]. intros Hall. specialize (Hall 0 ltac:(lia)).
    rewrite !Z.add_0_r in Hall. lia.
Qed.

(** ** Facts about the string routines *)

Lemma cstr_nil : cstr [] = [].
Proof. done. Qed.

Lemma cstr_cons c l : cstr (c :: l) = if c =? 0 then [] else c :: cstr l.
Proof. unfold cstr. simpl. by destruct (c =? 0). Qed.

Lemma cstr_no_nul l : Forall (fun c => c <> 0) (cstr l).
Proof.
  induction l as [|c l IH]; [constructor|]. rewrite cstr_cons.
  destruct (c =? 0) eqn:H; constructor; [lia|done].
Qed.

Lemma cstr_id l : Forall (fun c => c <> 0) l -> cstr l = l.
Proof.
  induction 1 as [|c l Hc Hl IH]; [done|]. rewrite cstr_cons.
  by rewrite (proj2 (Z.eqb_neq c 0)), IH.
Qed.

Lemma cstr_app_nul l l' : Forall (fun c => c <> 0) l -> cstr (l ++ 0 :: l') = l.
Proof.
  induction 1 as [|c l Hc Hl IH]; [done|]. simpl. rewrite cstr_cons.
  by rewrite (proj2 (Z.eqb_neq c 0)), IH.
Qed.

Lemma length_cstr l : length (cstr l) = strlen l.
Proof.
  induction l as [|c l IH]; [done|]. rewrite cstr_cons. simpl.
  destruct (c =? 0); simpl; congruence.
Qed.

Lemma strlen_le l : (strlen l <= length l)%nat.
Proof. induction l as [|c l IH]; simpl; [lia|]. destruct (c =? 0); lia. Qed.

Lemma char_at_cstr l : char_at (cstr l) = char_at l.
Proof. destruct l as [|c l]; [done|]. rewrite cstr_cons. destruct (c =? 0) eqn:H; simpl; lia. Qed.

Lemma cstr_tail l : char_at l <> 0 -> cstr l = char_at l :: cstr (tail l).
Proof.
  destruct l as [|c l]; simpl; [done|]. intros. rewrite cstr_cons.
  by rewrite (proj2 (Z.eqb_neq c 0)).
Qed.

Lemma cstr_char_zero l : char_at l = 0 -> cstr l = [].
Proof. destruct l as [|c l]; [done|]. simpl. intros ->. done. Qed.

(** [strcmp] returns 0 exactly on equal strings. *)
Lemma strcmp_eq_zero l r : strcmp l r = 0 <-> cstr l = cstr r.
Proof.
  revert r. induction l as [|a l IH]; intros r; simpl.
  - rewrite cstr_nil. destruct (decide (char_at r = 0)) as [H|H].
    + rewrite H, cstr_char_zero by done. done.
    + rewrite (cstr_tail r H). split; [lia|done].
  - rewrite cstr_cons. destruct (a =? 0) eqn:Ha; simpl.
    + destruct (decide (char_at r = 0)) as [H|H].
      * rewrite (cstr_char_zero r H). split; [done|lia].
      * rewrite (cstr_tail r H). split; [lia|done].
    + destruct (a =? char_at r) eqn:Hr.
      * rewrite IH, (cstr_tail r) by lia. split; [intros ->; f_equal; lia|congruence].
      * destruct (decide (char_at r = 0)) as [H|H].
        -- rewrite (cstr_char_zero r H). split; [lia|done].
        -- rewrite (cstr_tail r H). split; [lia|]. intros [= E _]. lia.
Qed.

(** [strncmp] returns 0 exactly when the strings agree on their first bytes. *)
Lemma strncmp_eq_zero n l r : strncmp l r n = 0 <-> take n (cstr l) = take n (cstr r).
Proof.
  revert l r. induction n as [|n IH]; intros l r; cbn [strncmp]; [done|].
  destruct (decide (char_at l = 0)) as [Hl|Hl].
  - rewrite Hl. cbn [negb andb Z.eqb].
    rewrite (cstr_char_zero l Hl). destruct (decide (char_at r = 0)) as [H|H].
    + by rewrite H, (cstr_char_zero r H).
    + rewrite (cstr_tail r H). simpl. split; [lia|done].
  - rewrite (proj2 (Z.eqb_neq _ _) Hl). cbn [negb andb].
    rewrite (cstr_tail l Hl). destruct (char_at l =? char_at r) eqn:Hr.
    + rewrite IH, (cstr_tail r) by lia. simpl.
      split; [intros ->; f_equal; lia|congruence].
    + destruct (decide (char_at r = 0)) as [H|H].
      * rewrite (cstr_char_zero r H). simpl. split; [lia|done].
      * rewrite (cstr_tail r H). simpl. split; [lia|]. intros [= E _]. lia.
Qed.

Lemma length_strncpy l n : length (strncpy l n) = n.
Proof.
  revert l. induction n as [|n IH]; intros l; cbn [strncpy]; [done|].
  destruct (char_at l =? 0); simpl; [by rewrite length_replicate|by rewrite IH].
Qed.

(** A string that fits is stored whole and padded with NULs. *)
Lemma strncpy_fits l n :
  (strlen l <= n)%nat -> strncpy l n = cstr l ++ replicate (n - strlen l) 0.
Proof.
  revert l. induction n as [|n IH]; intros l Hn; cbn [strncpy].
  - destruct l as [|c l]; [done|]. simpl in *. rewrite cstr_cons.
    destruct (c =? 0); [done|lia].
  - destruct l as [|c l]; [done|]. simpl in *. rewrite cstr_cons.
    destruct (c =? 0) eqn:Hc; [done|]. rewrite IH by lia. done.
Qed.

Lemma cstr_strncpy l n l' :
  (strlen l <= n)%nat -> cstr (strncpy l n ++ 0 :: l') = cstr l.
Proof.
  intros. rewrite strncpy_fits by done. rewrite <- app_assoc.
  destruct (n - strlen l)%nat; simpl; apply cstr_app_nul, cstr_no_nul.
Qed.

#[export] Hint Rewrite length_strncpy length_cstr : nova.
