(* ===== verification/Heap.v ===== *)
(** * kernel/heap.c: the first-fit kernel heap

    Block headers live in the heap region itself; the model keeps them in a
    finite map from header address to header.  Payload bytes belong to the
    clients.  [Chain] relates the linked headers to the list of blocks they
    represent, [alloc_list] and [free_list] say what allocation and release do
    to that list, and the refinement lemmas show that the pointer code computes
    them. *)

From S2P Require Import Prelude.

(** ** Data *)

Definition HEAP_START : Z := 0x02000000.
Definition HEAP_END : Z := 0x3E000000.
Definition HEAP_ALIGNMENT : Z := 16.

(** [sizeof(HeapBlock)]: two words, two pointers, and a [bool] padded to eight. *)
Definition HEADER : Z := 32.

Record HeapBlock := mkBlock {
  hb_size : Z;
  hb_previous : Z;
  hb_next : Z;
  hb_free : bool }.

(** The file-scope [first_block] and the headers in memory; 0 is [NULL]. *)
Record Heap := mkHeap { first_block : Z; headers : gmap Z HeapBlock }.

(** Memory never written as a header reads as zeroes. *)
Definition zero_block : HeapBlock := mkBlock 0 0 0 false.

Definition load (h : Heap) (a : Z) : HeapBlock := default zero_block (headers h !! a).

Definition store (a : Z) (b : HeapBlock) (h : Heap) : Heap :=
  mkHeap (first_block h) (<[a := b]> (headers h)).

Definition set_size (v : Z) (b : HeapBlock) := mkBlock v (hb_previous b) (hb_next b) (hb_free b).
Definition set_previous (v : Z) (b : HeapBlock) := mkBlock (hb_size b) v (hb_next b) (hb_free b).
Definition set_next (v : Z) (b : HeapBlock) := mkBlock (hb_size b) (hb_previous b) v (hb_free b).
Definition set_free (v : bool) (b : HeapBlock) := mkBlock (hb_size b) (hb_previous b) (hb_next b) v.

(** [a->field = ...] *)
Definition update (a : Z) (f : HeapBlock -> HeapBlock) (h : Heap) : Heap :=
  store a (f (load h a)) h.

(** ** Operations *)

Definition align_size (size : Z) : Z :=
  Z.land (u64 (size + HEAP_ALIGNMENT - 1)) (u64 (Z.lnot (HEAP_ALIGNMENT - 1))).

Definition heap_init (h : Heap) : Heap :=
  let h := mkHeap HEAP_START (headers h) in
  let h := update HEAP_START (set_size (HEAP_END - HEAP_START - HEADER)) h in
  let h := update HEAP_START (set_previous 0) h in
  let h := update HEAP_START (set_next 0) h in
  update HEAP_START (set_free true) h.

Definition split_block (block size : Z) (h : Heap) : Heap :=
  if hb_size (load h block) <? u64 (size + HEADER + HEAP_ALIGNMENT) then h else
  let remainder := u64 (block + HEADER + size) in
  let h := update remainder (set_size (u64 (hb_size (load h block) - size - HEADER))) h in
  let h := update remainder (set_previous block) h in
  let h := update remainder (set_next (hb_next (load h block))) h in
  let h := update remainder (set_free true) h in
  let h := if hb_next (load h remainder) =? 0 then h
           else update (hb_next (load h remainder)) (set_previous remainder) h in
  let h := update block (set_next remainder) h in
  update block (set_size size) h.

(** The [for] loop of [heap_alloc]: [fuel] bounds the blocks visited. *)
Fixpoint heap_alloc_loop (fuel : nat) (block size : Z) (h : Heap) : Z * Heap :=
  match fuel with
  | O => (0, h)
  | S fuel =>
      if block =? 0 then (0, h)
      else if (negb (hb_free (load h block)) || (hb_size (load h block) <? size))%bool
      then heap_alloc_loop fuel (hb_next (load h block)) size h
      else let h := split_block block size h in
           let h := update block (set_free false) h in
           (block + HEADER, h)
  end.

(** No chain is longer than the number of headers in memory. *)
Definition heap_fuel (h : Heap) : nat := S (size (headers h)).

Definition heap_alloc (size : Z) (h : Heap) : Z * Heap :=
  if ((size =? 0) || (first_block h =? 0))%bool then (0, h)
  else heap_alloc_loop (heap_fuel h) (first_block h) (align_size size) h.

Definition heap_calloc (count size : Z) (h : Heap) : Z * Heap :=
  if (negb (size =? 0) && (u64 (-1) / size <? count))%bool then (0, h)
  else heap_alloc (u64 (count * size)) h.

Definition merge_next (block : Z) (h : Heap) : Heap :=
  let next := hb_next (load h block) in
  if ((next =? 0) || negb (hb_free (load h next)))%bool then h else
  let h := update block
             (set_size (u64 (hb_size (load h block) + (HEADER + hb_size (load h next))))) h in
  let h := update block (set_next (hb_next (load h next))) h in
  if hb_next (load h block) =? 0 then h
  else update (hb_next (load h block)) (set_previous block) h.

Definition heap_free (pointer : Z) (h : Heap) : Heap :=
  if ((pointer =? 0) || (pointer <=? HEAP_START) || (HEAP_END <=? pointer))%bool then h else
  let block := pointer - HEADER in
  if hb_free (load h block) then h else
  let h := update block (set_free true) h in
  let h := merge_next block h in
  if (negb (hb_previous (load h block) =? 0) &&
      hb_free (load h (hb_previous (load h block))))%bool
  then merge_next (hb_previous (load h block)) h else h.

(** The loop of [heap_free_bytes]. *)
Fixpoint free_bytes_loop (fuel : nat) (block total : Z) (h : Heap) : Z :=
  match fuel with
  | O => total
  | S fuel =>
      if block =? 0 then total
      else free_bytes_loop fuel (hb_next (load h block))
             (if hb_free (load h block) then u64 (total + hb_size (load h block)) else total) h
  end.

Definition heap_free_bytes (h : Heap) : Z :=
  free_bytes_loop (heap_fuel h) (first_block h) 0 h.

(** ** The abstract heap: a list of blocks that tile the region *)

Record Blk := mkBlk { b_addr : Z; b_size : Z; b_free : bool }.

Definition addrs (l : list Blk) : list Z := map b_addr l.

Definition head_addr (l : list Blk) (n : Z) : Z :=
  match l with [] => n | b :: _ => b_addr b end.

Definition last_addr (p : Z) (l : list Blk) : Z := default p (list.last (addrs l)).

(** The headers of [l] are linked both ways, [p] before and [n] after. *)
Fixpoint seg (m : gmap Z HeapBlock) (p : Z) (l : list Blk) (n : Z) : Prop :=
  match l with
  | [] => True
  | b :: l' =>
      m !! b_addr b = Some (mkBlock (b_size b) p (head_addr l' n) (b_free b)) /\
      seg m (b_addr b) l' n
  end.

Definition Chain (h : Heap) (l : list Blk) : Prop :=
  first_block h = head_addr l 0 /\ seg (headers h) 0 l 0.

(** The blocks cover [a, e) without gap or overlap, in 16-byte steps, and none
    is empty. *)
Fixpoint tiles (a : Z) (l : list Blk) (e : Z) : Prop :=
  match l with
  | [] => a = e
  | b :: l' => b_addr b = a /\ 16 <= b_size b /\ (16 | b_size b) /\
               tiles (a + HEADER + b_size b) l' e
  end.

(** No two neighbours are both free. *)
Fixpoint coalesced (l : list Blk) : Prop :=
  match l with
  | b :: (c :: _) as l' => (b_free b = true -> b_free c = false) /\ coalesced l'
  | _ => True
  end.

Definition Valid (l : list Blk) : Prop :=
  tiles HEAP_START l HEAP_END /\ coalesced l.

(** The invariant of the heap. *)
Definition heap_ok (h : Heap) : Prop := exists l, Chain h l /\ Valid l.

(** What an allocation does to the block it takes. *)
Definition place (size : Z) (b : Blk) : list Blk :=
  if b_size b <? size + HEADER + HEAP_ALIGNMENT then [mkBlk (b_addr b) (b_size b) false]
  else [mkBlk (b_addr b) size false;
        mkBlk (b_addr b + HEADER + size) (b_size b - size - HEADER) true].

(** First fit. *)
Fixpoint alloc_list (size : Z) (l : list Blk) : option (Z * list Blk) :=
  match l with
  | [] => None
  | b :: l' =>
      if (b_free b && (size <=? b_size b))%bool
      then Some (b_addr b + HEADER, place size b ++ l')
      else match alloc_list size l' with
           | Some (p, l'') => Some (p, b :: l'')
           | None => None
           end
  end.

(** Merge all free neighbours. *)
Fixpoint coalesce (l : list Blk) : list Blk :=
  match l with
  | [] => []
  | b :: l' =>
      match coalesce l' with
      | c :: l'' =>
          if (b_free b && b_free c)%bool
          then mkBlk (b_addr b) (b_size b + (HEADER + b_size c)) true :: l''
          else b :: c :: l''
      | [] => [b]
      end
  end.

(** Release: mark the block of [p] free, then merge. *)
Definition mark_free (p : Z) (l : list Blk) : list Blk :=
  map (fun b => if b_addr b + HEADER =? p then mkBlk (b_addr b) (b_size b) true else b) l.

Definition free_list (p : Z) (l : list Blk) : list Blk := coalesce (mark_free p l).

(** ** Facts about tilings *)

Lemma tiles_app a l1 l2 e :
  tiles a (l1 ++ l2) e <-> exists m, tiles a l1 m /\ tiles m l2 e.
Proof.
  revert a. induction l1 as [|b l1 IH]; intros a; simpl.
  - split; [eauto|]. by intros (m & -> & ?).
  - rewrite IH. naive_solver.
Qed.

Lemma tiles_le a l e : tiles a l e -> a <= e.
Proof.
  revert a. induction l as [|b l IH]; intros a; simpl; [lia|].
  intros (? & ? & _ & H%IH). unfold HEADER in *. lia.
Qed.

Lemma tiles_bounds a l e b :
  tiles a l e -> b ∈ l -> a <= b_addr b /\ 16 <= b_size b /\ b_addr b + HEADER + b_size b <= e.
Proof.
  revert a. induction l as [|c l IH]; intros a; simpl; [by rewrite elem_of_nil|].
  intros (Ha & Hs & _ & Ht) [->|Hb]%elem_of_cons.
  - apply tiles_le in Ht. lia.
  - destruct (IH _ Ht Hb). unfold HEADER in *. lia.
Qed.

Lemma tiles_nodup a l e : tiles a l e -> NoDup (addrs l).
Proof.
  revert a. induction l as [|b l IH]; intros a; simpl; [constructor|].
  intros (Ha & Hs & _ & Ht). constructor; [|eauto].
  intros (c & Hc & Hin)%list_elem_of_fmap.
  destruct (tiles_bounds _ _ _ _ Ht Hin). unfold HEADER in *. lia.
Qed.

Lemma tiles_aligned a l e b :
  tiles a l e -> (16 | a) -> b ∈ l -> (16 | b_addr b).
Proof.
  revert a. induction l as [|c l IH]; intros a; simpl; [by rewrite elem_of_nil|].
  intros (Ha & Hs & Hd & Ht) Hdiv [->|Hb]%elem_of_cons; [by rewrite Ha|].
  eapply IH; [done| |done]. unfold HEADER.
  apply Z.divide_add_r; [apply Z.divide_add_r; [done|by exists 2]|done].
Qed.

(** Two different blocks of a tiling do not overlap. *)
Lemma tiles_disjoint a l e b c :
  tiles a l e -> b ∈ l -> c ∈ l -> b = c \/
  b_addr b + HEADER + b_size b <= b_addr c \/ b_addr c + HEADER + b_size c <= b_addr b.
Proof.
  revert a. induction l as [|x l IH]; intros a; simpl; [by rewrite elem_of_nil|].
  intros (Ha & Hs & _ & Ht) [->|Hb]%elem_of_cons [->|Hc]%elem_of_cons; eauto.
  - destruct (tiles_bounds _ _ _ _ Ht Hc). right; left. lia.
  - destruct (tiles_bounds _ _ _ _ Ht Hb). right; right. lia.
Qed.

(** Replacing a stretch of blocks by another tiling of the same stretch. *)
Lemma tiles_replace a l1 x y l2 e :
  (forall s f, tiles s x f -> tiles s y f) ->
  tiles a (l1 ++ x ++ l2) e -> tiles a (l1 ++ y ++ l2) e.
Proof.
  intros Hxy (m & H1 & (m' & Hx & H2)%tiles_app)%tiles_app.
  apply tiles_app. exists m. split; [done|]. apply tiles_app. eauto.
Qed.
