(* ===== verification/HeapFacts.v ===== *)
(** * kernel/heap.c: refinement and properties

    The pointer code of [Heap] computes [alloc_list] and [free_list]; from that
    follow the invariant, what an allocation promises its caller, release, and
    the size accounting. *)

From S2P Require Import Prelude Heap.

(** ** Headers in memory *)

Lemma load_update_eq a f h : load (update a f h) a = f (load h a).
Proof. unfold load, update, store. simpl. by rewrite lookup_insert_eq. Qed.

Lemma load_update_ne a b f h : a <> b -> load (update a f h) b = load h b.
Proof. intros. unfold load, update, store. simpl. by rewrite lookup_insert_ne. Qed.

Lemma first_block_update a f h : first_block (update a f h) = first_block h.
Proof. done. Qed.

#[export] Hint Rewrite load_update_eq first_block_update : nova.

(** Loads through a tower of updates. *)
Ltac load_simpl :=
  repeat (rewrite load_update_eq || rewrite load_update_ne by (done || lia));
  cbn [set_size set_previous set_next set_free hb_size hb_previous hb_next hb_free].

Lemma update_update a f g h : update a f (update a g h) = update a (fun b => f (g b)) h.
Proof.
  unfold update, store, load. simpl. by rewrite lookup_insert_eq, insert_insert_eq.
Qed.

Lemma update_const a f h b : load h a = b -> update a f h = store a (f b) h.
Proof. by intros <-. Qed.

(** ** Linked segments *)

Lemma head_addr_app l1 l2 n : head_addr (l1 ++ l2) n = head_addr l1 (head_addr l2 n).
Proof. by destruct l1. Qed.

Lemma last_addr_cons p b l : last_addr p (b :: l) = last_addr (b_addr b) l.
Proof. unfold last_addr. cbn [addrs map]. rewrite last_cons. unfold addrs. by destruct (list.last _). Qed.

Lemma last_addr_snoc p l b : last_addr p (l ++ [b]) = b_addr b.
Proof. unfold last_addr, addrs. rewrite map_app. simpl. by rewrite last_snoc. Qed.

Lemma last_addr_app p l1 b l2 : last_addr p (l1 ++ b :: l2) = last_addr (b_addr b) l2.
Proof.
  revert p. induction l1 as [|c l1 IH]; intros p; simpl; rewrite last_addr_cons; [done|].
  apply IH.
Qed.

Lemma seg_app m p l1 l2 n :
  seg m p (l1 ++ l2) n <-> seg m p l1 (head_addr l2 n) /\ seg m (last_addr p l1) l2 n.
Proof.
  revert p. induction l1 as [|b l1 IH]; intros p; simpl.
  - unfold last_addr. simpl. naive_solver.
  - rewrite last_addr_cons, IH, head_addr_app. naive_solver.
Qed.

Lemma seg_agree m m' p l n :
  (forall a, a ∈ addrs l -> m' !! a = m !! a) -> seg m p l n -> seg m' p l n.
Proof.
  revert p. induction l as [|b l IH]; intros p Hag; simpl; [done|].
  intros [Hb Hs]. split.
  - rewrite Hag by (simpl; left). done.
  - apply IH; [|done]. intros a Ha. apply Hag. by right.
Qed.

Lemma seg_lookup m p l n a : seg m p l n -> a ∈ addrs l -> is_Some (m !! a).
Proof.
  revert p. induction l as [|b l IH]; intros p; simpl; [by rewrite elem_of_nil|].
  intros [Hb Hs] [->|Ha]%elem_of_cons; eauto.
Qed.

(** Writing the [previous] field of the head moves the segment behind [q]. *)
Definition relink (q n : Z) (h : Heap) : Heap :=
  if n =? 0 then h else update n (set_previous q) h.

Lemma relink_other q n h a : a <> n -> headers (relink q n h) !! a = headers h !! a.
Proof.
  intros. unfold relink. destruct (n =? 0); [done|].
  unfold update, store. simpl. by rewrite lookup_insert_ne.
Qed.

Lemma seg_relink h p q l :
  NoDup (addrs l) -> 0 ∉ addrs l -> seg (headers h) p l 0 ->
  seg (headers (relink q (head_addr l 0) h)) q l 0.
Proof.
  destruct l as [|b l]; [done|]. simpl. intros [Hn Hnd]%NoDup_cons Hz [Hb Hs].
  assert (b_addr b <> 0) by (intros E; apply Hz; rewrite E; left).
  split.
  - unfold relink. rewrite (proj2 (Z.eqb_neq _ _)) by done.
    unfold update, store, load. simpl. rewrite lookup_insert_eq, Hb. done.
  - eapply seg_agree; [|done]. intros a Ha. apply relink_other. congruence.
Qed.

(** ** Chains *)

Section chain.
Context (h : Heap) (l1 : list Blk) (b : Blk) (l2 : list Blk).
Context (Hc : Chain h (l1 ++ b :: l2)) (Hnd : NoDup (addrs (l1 ++ b :: l2))).

Lemma chain_lookup :
  headers h !! b_addr b = Some (mkBlock (b_size b) (last_addr 0 l1) (head_addr l2 0) (b_free b)).
Proof. destruct Hc as [_ [_ [Hb _]]%seg_app]. done. Qed.

Lemma chain_load :
  load h (b_addr b) = mkBlock (b_size b) (last_addr 0 l1) (head_addr l2 0) (b_free b).
Proof. unfold load. by rewrite chain_lookup. Qed.

Lemma chain_fresh : b_addr b ∉ addrs l1 /\ b_addr b ∉ addrs l2.
Proof.
  unfold addrs in Hnd. rewrite map_app in Hnd. simpl in Hnd.
  apply NoDup_app in Hnd as (_ & Hd & [Hn _]%NoDup_cons). split; [|done].
  intros Hin. apply (Hd _ Hin). left.
Qed.

(** Changing the size and the flag of one block. *)
Lemma chain_store s f :
  Chain (store (b_addr b) (mkBlock s (last_addr 0 l1) (head_addr l2 0) f) h)
        (l1 ++ mkBlk (b_addr b) s f :: l2).
Proof.
  destruct chain_fresh as [Hf1 Hf2]. destruct Hc as [Hfst [H1 [Hb H2]]%seg_app].
  split; [simpl; rewrite Hfst, !head_addr_app; done|].
  apply seg_app. simpl. split; [|split].
  - eapply seg_agree; [|done]. intros a Ha. rewrite lookup_insert_ne; [done|congruence].
  - by rewrite lookup_insert_eq.
  - eapply seg_agree; [|done]. intros a Ha. rewrite lookup_insert_ne; [done|congruence].
Qed.

End chain.

Lemma nodup_head_ne (l1 l2 : list Blk) b :
  NoDup (addrs (l1 ++ b :: l2)) -> 0 ∉ addrs (l1 ++ b :: l2) ->
  b_addr b <> 0 /\ b_addr b <> head_addr l2 0 /\
  NoDup (addrs l2) /\ 0 ∉ addrs l2 /\ (forall a, a ∈ addrs l1 -> a <> head_addr l2 0).
Proof.
  unfold addrs. rewrite map_app. simpl.
  intros (_ & Hd & [Hn Hnd]%NoDup_cons)%NoDup_app Hz.
  rewrite not_elem_of_app, not_elem_of_cons in Hz. destruct Hz as (Hz1 & Hz2 & Hz3).
  split_and!; try done.
  - destruct l2 as [|c l2]; simpl in *; [done|]. set_solver.
  - intros a Ha. destruct l2 as [|c l2]; simpl in *; set_solver.
Qed.

(** ** Allocation refines [alloc_list] *)

(** [split_block] on a block large enough for [size]. *)
Lemma split_block_eq block size h :
  0 <= size -> size + HEADER + HEAP_ALIGNMENT < 2 ^ 64 ->
  0 <= block + HEADER + size < 2 ^ 64 ->
  0 <= hb_size (load h block) < 2 ^ 64 ->
  split_block block size h =
    if hb_size (load h block) <? size + HEADER + HEAP_ALIGNMENT then h else
    let r := block + HEADER + size in
    update block (fun x => set_size size (set_next r x))
      (relink r (hb_next (load h block))
        (store r (mkBlock (hb_size (load h block) - size - HEADER) block
                    (hb_next (load h block)) true) h)).
Proof.
  intros H0 H1 H2 H3. unfold split_block.
  rewrite (wrap_small 64 (size + HEADER + HEAP_ALIGNMENT)), (wrap_small 64 (block + HEADER + size))
    by (unfold HEADER, HEAP_ALIGNMENT in *; lia).
  destruct (_ <? _) eqn:E; [done|]. cbv zeta.
  assert (block + HEADER + size <> block) by (unfold HEADER; lia).
  rewrite wrap_small by (unfold HEADER, HEAP_ALIGNMENT in *; lia).
  load_simpl. rewrite !update_update. unfold relink.
  by destruct (hb_next (load h block) =? 0).
Qed.

Section place.
Context (h : Heap) (l1 : list Blk) (b : Blk) (l2 : list Blk) (size : Z).
Context (Hc : Chain h (l1 ++ b :: l2)).
Context (Ht : tiles HEAP_START (l1 ++ b :: l2) HEAP_END).
Context (Hsize : 0 <= size <= b_size b).

Lemma region_bounds c : c ∈ l1 ++ b :: l2 ->
  HEAP_START <= b_addr c /\ 16 <= b_size c /\ b_addr c + HEADER + b_size c <= HEAP_END.
Proof. apply tiles_bounds. done. Qed.

Lemma addr_nonzero : 0 ∉ addrs (l1 ++ b :: l2).
Proof.
  intros (c & E & Hin)%list_elem_of_fmap. apply region_bounds in Hin.
  unfold HEAP_START in Hin. lia.
Qed.

Lemma place_refines :
  Chain (update (b_addr b) (set_free false) (split_block (b_addr b) size h))
        (l1 ++ place size b ++ l2).
Proof.
  pose proof (tiles_nodup _ _ _ Ht) as Hnd.
  destruct (region_bounds b) as (Hb1 & Hb2 & Hb3); [set_solver|].
  pose proof (chain_load _ _ _ _ Hc) as Hload.
  unfold HEAP_START, HEAP_END in Hb1, Hb3.
  rewrite split_block_eq, Hload by (rewrite ?Hload; simpl; unfold HEADER, HEAP_ALIGNMENT in *; lia).
  cbn [hb_size hb_next]. unfold place. destruct (_ <? _) eqn:E.
  - rewrite (update_const _ _ _ _ Hload). unfold set_free. simpl.
    by apply (chain_store _ _ _ _ Hc Hnd).
  - cbv zeta. rewrite update_update. cbn [app].
    set (r := b_addr b + HEADER + size).
    destruct (nodup_head_ne _ _ _ Hnd addr_nonzero) as (Hz & Hne & Hnd2 & Hz2 & Hl1).
    destruct (chain_fresh _ _ _ Hnd) as [Hf1 Hf2].
    assert (Hr : r ∉ addrs (l1 ++ b :: l2)).
    { intros (c & Ec & Hin)%list_elem_of_fmap.
      pose proof (region_bounds c Hin).
      destruct (tiles_disjoint _ _ _ b c Ht ltac:(set_solver) Hin) as [<-|Hd];
        unfold r, HEADER, HEAP_ALIGNMENT in *; lia. }
    unfold addrs in Hr. rewrite map_app in Hr. simpl in Hr.
    rewrite not_elem_of_app, not_elem_of_cons in Hr. destruct Hr as (Hr1 & Hrb & Hr2).
    change (r ∉ addrs l1) in Hr1. change (r ∉ addrs l2) in Hr2.
    assert (Hrn : head_addr l2 0 <> r).
    { destruct l2; simpl in *; [unfold r, HEADER; lia|set_solver]. }
    destruct Hc as [Hfst [H1 [Hb H2]]%seg_app].
    split; [unfold relink; destruct (head_addr l2 0 =? 0); simpl; rewrite Hfst, !head_addr_app; done|].
    apply seg_app. split; [|split; [|split]]; cbn [head_addr b_addr b_size b_free].
    + eapply seg_agree; [|done]. intros a Ha. unfold update, store at 1. simpl.
      rewrite lookup_insert_ne by congruence. rewrite relink_other by auto.
      unfold store. simpl. rewrite lookup_insert_ne; [done|congruence].
    + unfold update, store at 1. simpl. rewrite lookup_insert_eq.
      unfold load. rewrite relink_other by done. unfold store. simpl.
      rewrite lookup_insert_ne by congruence. rewrite Hb. done.
    + unfold update, store at 1. simpl. rewrite lookup_insert_ne by congruence.
      rewrite relink_other by congruence. unfold store. simpl. by rewrite lookup_insert_eq.
    + eapply (seg_agree (headers (relink r (head_addr l2 0) (store r _ h)))).
      { intros a Ha. unfold update, store at 1. simpl.
        rewrite lookup_insert_ne; [done|congruence]. }
      apply (seg_relink _ (b_addr b)); try done.
      eapply seg_agree; [|done]. intros a Ha. unfold store. simpl.
      rewrite lookup_insert_ne; [done|congruence].
Qed.

End place.

Lemma chain_length h l : Chain h l -> NoDup (addrs l) -> (length l < heap_fuel h)%nat.
Proof.
  intros [_ Hs] Hnd. unfold heap_fuel.
  assert (length l = size (list_to_set (addrs l) : gset Z)) as ->.
  { rewrite size_list_to_set by done. unfold addrs. by rewrite length_map. }
  rewrite <- size_dom. apply Nat.lt_succ_r, subseteq_size.
  intros a Ha%elem_of_list_to_set. apply elem_of_dom. eapply seg_lookup; eauto.
Qed.

Lemma heap_alloc_loop_refines fuel l1 l2 size h :
  Chain h (l1 ++ l2) -> tiles HEAP_START (l1 ++ l2) HEAP_END -> 0 <= size ->
  (length l2 < fuel)%nat ->
  match alloc_list size l2 with
  | None => heap_alloc_loop fuel (head_addr l2 0) size h = (0, h)
  | Some (p, l2') => exists h',
      heap_alloc_loop fuel (head_addr l2 0) size h = (p, h') /\ Chain h' (l1 ++ l2')
  end.
Proof.
  revert l1 fuel. induction l2 as [|b l2 IH]; intros l1 fuel Hc Ht Hs Hf;
    destruct fuel as [|fuel]; simpl in *; try lia; [done|].
  assert (b_addr b <> 0).
  { pose proof (tiles_bounds _ _ _ b Ht ltac:(set_solver)) as Hb.
    unfold HEAP_START in Hb. lia. }
  rewrite (proj2 (Z.eqb_neq _ _)) by done.
  rewrite (chain_load _ _ _ _ Hc). cbn [hb_free hb_size hb_next].
  destruct (b_free b && (size <=? b_size b))%bool eqn:E.
  - replace (negb (b_free b) || (b_size b <? size))%bool with false by lia.
    eexists. split; [done|]. apply place_refines; [done|done|lia].
  - replace (negb (b_free b) || (b_size b <? size))%bool with true by lia.
    specialize (IH (l1 ++ [b]) fuel). rewrite <- app_assoc in IH.
    specialize (IH Hc Ht Hs ltac:(lia)).
    destruct (alloc_list size l2) as [[p l2']|]; [|done].
    destruct IH as (h' & -> & Hc'). exists h'. by rewrite <- app_assoc in Hc'.
Qed.

Lemma align_size_bounds size :
  0 < size <= 2 ^ 64 - 16 ->
  size <= align_size size < size + 16 /\ (16 | align_size size).
Proof.
  intros H. unfold align_size, HEAP_ALIGNMENT.
  rewrite (wrap_small 64 (size + 16 - 1)) by lia.
  change (16 - 1) with (2 ^ 4 - 1). rewrite wrap_land_lnot_ones by lia.
  pose proof (Z.mod_pos_bound (size + 16 - 1) (2 ^ 4)).
  pose proof (Z.div_mod (size + 16 - 1) (2 ^ 4)).
  split; [lia|]. exists ((size + 16 - 1) / 2 ^ 4). lia.
Qed.

Lemma align_size_nonneg size : 0 <= align_size size.
Proof. unfold align_size. apply Z.land_nonneg. left. apply (wrap_bound 64). lia. Qed.

Lemma heap_alloc_refines size h l :
  Chain h l -> Valid l -> size <> 0 ->
  match alloc_list (align_size size) l with
  | None => heap_alloc size h = (0, h)
  | Some (p, l') => exists h', heap_alloc size h = (p, h') /\ Chain h' l'
  end.
Proof.
  intros Hc [Ht Hco] Hs. unfold heap_alloc.
  destruct l as [|b l].
  { exfalso. simpl in Ht. unfold HEAP_START, HEAP_END in Ht. lia. }
  destruct Hc as [Hfst Hseg].
  assert (first_block h <> 0).
  { rewrite Hfst. pose proof (tiles_bounds _ _ _ b Ht ltac:(set_solver)) as Hb.
    unfold HEAP_START in Hb. simpl. lia. }
  replace ((size =? 0) || (first_block h =? 0))%bool with false by lia. rewrite Hfst.
  apply (heap_alloc_loop_refines _ [] (b :: l)); try done.
  - apply align_size_nonneg.
  - apply chain_length; [done|]. by eapply tiles_nodup.
Qed.

(** ** Release refines [free_list] *)

Lemma app_cons_assoc {A} (l1 : list A) b l2 : l1 ++ b :: l2 = (l1 ++ [b]) ++ l2.
Proof. by rewrite <- app_assoc. Qed.

(** [merge_next] with a free successor. *)
Lemma merge_next_refines h l1 b c l2 :
  Chain h (l1 ++ b :: c :: l2) -> tiles HEAP_START (l1 ++ b :: c :: l2) HEAP_END ->
  b_free c = true ->
  Chain (merge_next (b_addr b) h)
        (l1 ++ mkBlk (b_addr b) (b_size b + (HEADER + b_size c)) (b_free b) :: l2).
Proof.
  intros Hc Ht Hfree.
  pose proof (tiles_nodup _ _ _ Ht) as Hnd.
  assert (Hz : 0 ∉ addrs (l1 ++ b :: c :: l2)).
  { intros (d & E & Hin)%list_elem_of_fmap.
    pose proof (tiles_bounds _ _ _ _ Ht Hin) as Hd. unfold HEAP_START in Hd. lia. }
  pose proof (tiles_bounds _ _ _ b Ht ltac:(set_solver)) as Hb.
  pose proof (tiles_bounds _ _ _ c Ht ltac:(set_solver)) as Hcb.
  unfold HEAP_START, HEAP_END in Hb, Hcb.
  destruct (nodup_head_ne _ _ _ Hnd Hz) as (Hbz & Hbc & Hnd2 & Hz2 & Hl1c). simpl in Hbc.
  assert (Hnd' := Hnd). rewrite (app_cons_assoc l1 b (c :: l2)) in Hnd'.
  assert (Hz' := Hz). rewrite (app_cons_assoc l1 b (c :: l2)) in Hz'.
  destruct (nodup_head_ne _ _ _ Hnd' Hz') as (Hcz & Hcn & Hnd3 & Hz3 & Hl1n).
  assert (Hc' := Hc). rewrite (app_cons_assoc l1 b (c :: l2)) in Hc'.
  pose proof (chain_load _ _ _ _ Hc) as Lb. pose proof (chain_load _ _ _ _ Hc') as Lc.
  unfold merge_next. rewrite Lb. cbn [hb_next head_addr]. rewrite Lc.
  cbn [hb_free hb_size hb_next]. rewrite Hfree. cbn [negb orb].
  rewrite (proj2 (Z.eqb_neq _ _)) by done. cbn [orb]. cbv zeta.
  rewrite (load_update_ne (b_addr b) (b_addr c)) by done. rewrite Lc. cbn [hb_next].
  rewrite update_update, load_update_eq, Lb.
  unfold set_next, set_size. cbn [hb_size hb_previous hb_next hb_free].
  rewrite wrap_small by (unfold HEADER in *; lia).
  rewrite (update_const _ _ _ _ Lb).
  destruct (chain_fresh _ _ _ Hnd) as [Hf1 Hf2]. destruct Hc as [Hfst [H1 [Hbk [Hck H2]]]%seg_app].
  change (if head_addr l2 0 =? 0 then ?x else update (head_addr l2 0) (set_previous (b_addr b)) ?x)
    with (relink (b_addr b) (head_addr l2 0) x).
  assert (Hbn : b_addr b <> head_addr l2 0) by (apply Hl1n; unfold addrs; rewrite map_app; set_solver).
  assert (Hf3 : b_addr b ∉ addrs l2) by (unfold addrs in *; set_solver).
  split; [unfold relink; destruct (head_addr l2 0 =? 0); simpl; rewrite Hfst, !head_addr_app; done|].
  apply seg_app. split; [|split]; cbn [head_addr b_addr b_size b_free].
  - eapply seg_agree; [|done]. intros a Ha.
    rewrite relink_other by (apply Hl1n; unfold addrs in *; rewrite map_app; set_solver).
    unfold store. simpl. rewrite lookup_insert_ne; [done|congruence].
  - rewrite relink_other by done. unfold store. simpl. by rewrite lookup_insert_eq.
  - apply (seg_relink _ (b_addr c)); try done.
    eapply seg_agree; [|done]. intros a Ha. unfold store. simpl.
    rewrite lookup_insert_ne; [done|congruence].
Qed.

(** [merge_next] without a free successor does nothing. *)
Lemma merge_next_id h l1 b l2 :
  Chain h (l1 ++ b :: l2) -> match l2 with [] => True | c :: _ => b_free c = false end ->
  merge_next (b_addr b) h = h.
Proof.
  intros Hc Hl2. unfold merge_next. rewrite (chain_load _ _ _ _ Hc). cbn [hb_next].
  destruct l2 as [|c l2]; [done|]. simpl.
  rewrite (app_cons_assoc l1 b (c :: l2)) in Hc. rewrite (chain_load _ _ _ _ Hc).
  simpl. rewrite Hl2. by rewrite orb_true_r.
Qed.

Lemma coalesce_cons b l :
  coalesce (b :: l) =
    match coalesce l with
    | c :: l'' =>
        if (b_free b && b_free c)%bool
        then mkBlk (b_addr b) (b_size b + (HEADER + b_size c)) true :: l''
        else b :: c :: l''
    | [] => [b]
    end.
Proof. done. Qed.

Lemma coalesce_id l : coalesced l -> coalesce l = l.
Proof.
  induction l as [|b l IH]; [done|]. cbn [coalesce]. destruct l as [|c l]; [done|].
  intros [Hb Hl]. rewrite IH by done.
  destruct (b_free b) eqn:E; [|done]. by rewrite Hb.
Qed.

(** Merging stops at a boundary where one side is in use. *)
Lemma coalesce_app l1 l2 :
  coalesced l1 ->
  (forall a c l', list.last l1 = Some a -> coalesce l2 = c :: l' ->
     b_free a = true -> b_free c = false) ->
  coalesce (l1 ++ l2) = l1 ++ coalesce l2.
Proof.
  induction l1 as [|b l1 IH]; [done|]. intros Hco Hlast. cbn [app coalesce].
  rewrite IH.
  - destruct l1 as [|c l1]; simpl.
    + destruct (coalesce l2) as [|c l'] eqn:E; [done|].
      destruct (b_free b) eqn:Eb; [|done].
      by rewrite (Hlast b c l' eq_refl eq_refl Eb).
    + destruct Hco as [Hb _]. destruct (b_free b) eqn:Eb; [|done]. by rewrite Hb.
  - by destruct l1; [|destruct Hco].
  - intros a c l' Ha. apply Hlast. rewrite last_cons. by rewrite Ha.
Qed.

Lemma coalesced_app l1 l2 :
  coalesced (l1 ++ l2) <->
  coalesced l1 /\ coalesced l2 /\
  (forall a c l', list.last l1 = Some a -> l2 = c :: l' -> b_free a = true -> b_free c = false).
Proof.
  induction l1 as [|b l1 IH]; simpl; [naive_solver|].
  destruct l1 as [|d l1]; simpl in *.
  - destruct l2 as [|c l2]; naive_solver.
  - rewrite IH. naive_solver.
Qed.

Lemma mark_free_middle l1 b l2 :
  NoDup (addrs (l1 ++ b :: l2)) ->
  mark_free (b_addr b + HEADER) (l1 ++ b :: l2) =
    l1 ++ mkBlk (b_addr b) (b_size b) true :: l2.
Proof.
  intros Hnd. destruct (chain_fresh _ _ _ Hnd) as [H1 H2].
  unfold mark_free. rewrite map_app. simpl. rewrite Z.eqb_refl. f_equal; [|f_equal].
  all: match goal with |- map _ ?l = _ => rewrite <- (map_id l) at 2 end.
  all: apply map_ext_in; intros c Hc%list_elem_of_In.
  all: destruct (_ =? _) eqn:E; [|done].
  all: exfalso; match goal with H : _ ∉ addrs ?l, Hc : _ ∈ ?l |- _ => apply H end.
  all: apply list_elem_of_fmap; exists c; split; [lia|done].
Qed.

(** The block of a pointer handed out by the heap. *)
Definition block_at (p : Z) (l : list Blk) : Prop :=
  exists b, b ∈ l /\ b_addr b + HEADER = p /\ b_free b = false.

(** The two merges of [heap_free], on the list. *)
Lemma free_list_middle l1 b l2 :
  coalesced (l1 ++ b :: l2) -> b_free b = false -> NoDup (addrs (l1 ++ b :: l2)) ->
  exists b' l2',
    b' :: l2' = coalesce (mkBlk (b_addr b) (b_size b) true :: l2) /\
    b_addr b' = b_addr b /\ b_free b' = true /\
    free_list (b_addr b + HEADER) (l1 ++ b :: l2) =
      match list.last l1 with
      | Some a =>
          if b_free a
          then removelast l1 ++ mkBlk (b_addr a) (b_size a + (HEADER + b_size b')) true :: l2'
          else l1 ++ b' :: l2'
      | None => b' :: l2'
      end.
Proof.
  intros Hco Hb Hnd. unfold free_list. rewrite mark_free_middle by done.
  apply coalesced_app in Hco as (Hco1 & Hco2 & _).
  assert (exists b' l2', b' :: l2' = coalesce (mkBlk (b_addr b) (b_size b) true :: l2) /\
    b_addr b' = b_addr b /\ b_free b' = true) as (b' & l2' & E & Ha & Hf).
  { cbn [coalesce]. destruct (coalesce l2) as [|c l'];
      [|destruct (b_free c) eqn:Ec; simpl]; eauto 10. }
  exists b', l2'. split_and!; try done.
  destruct (list.last l1) as [a|] eqn:El.
  - apply last_Some in El as (l1' & ->). rewrite removelast_last.
    apply coalesced_app in Hco1 as (Hco1 & _ & Hla). destruct (b_free a) eqn:Efa.
    + rewrite <- app_assoc. rewrite coalesce_app; [|done|].
      * cbn [app]. rewrite (coalesce_cons a), <- E, Efa, Hf. done.
      * intros x c l' Hx Hl' Hfx. exfalso. specialize (Hla x a [] Hx eq_refl Hfx). congruence.
    + rewrite coalesce_app.
      * by rewrite <- E.
      * apply coalesced_app. split_and!; [done|done|].
        intros x c l' Hx Hl' Hfx. by simplify_eq.
      * intros x c l' Hx Hl' Hfx. rewrite last_snoc in Hx. congruence.
  - apply last_None in El as ->. exact (eq_sym E).
Qed.

Lemma tiles_merge l1 a b l2 s e f :
  tiles s (l1 ++ a :: b :: l2) e ->
  tiles s (l1 ++ mkBlk (b_addr a) (b_size a + (HEADER + b_size b)) f :: l2) e.
Proof.
  apply (tiles_replace s l1 [a; b] [mkBlk _ _ f] l2 e). simpl.
  intros s' f' (Ea & Ha & Hda & Eb & Hb & Hdb & <-). unfold HEADER in *.
  split_and!; try lia.
  apply Z.divide_add_r; [done|]. apply Z.divide_add_r; [by exists 2|done].
Qed.

Lemma tiles_flag l1 a l2 s e f :
  tiles s (l1 ++ a :: l2) e -> tiles s (l1 ++ mkBlk (b_addr a) (b_size a) f :: l2) e.
Proof. apply (tiles_replace s l1 [a] [mkBlk _ _ f] l2 e). simpl. naive_solver. Qed.

Lemma tiles_coalesce s l e : tiles s l e -> tiles s (coalesce l) e.
Proof.
  revert s. induction l as [|b l IH]; intros s; [done|]. rewrite coalesce_cons.
  intros (Ha & Hs & Hd & Ht%IH). destruct (coalesce l) as [|c l'] eqn:E; [done|].
  assert (tiles s (b :: c :: l') e) by done. destruct (b_free b && b_free c)%bool; [|done].
  by apply (tiles_merge []).
Qed.

Lemma coalesced_coalesce l : coalesced (coalesce l).
Proof.
  induction l as [|b l IH]; [done|]. rewrite coalesce_cons.
  destruct (coalesce l) as [|c l'] eqn:E; [done|].
  destruct (b_free b) eqn:Eb, (b_free c) eqn:Ec; simpl; [|naive_solver..].
  destruct l' as [|d l']; [done|]. destruct IH as [Hc Hl]. split; [by intros _; apply Hc|done].
Qed.

(** The code of [heap_free] after its guards. *)
Lemma heap_free_refines h l1 b l2 :
  Chain h (l1 ++ b :: l2) -> Valid (l1 ++ b :: l2) -> b_free b = false ->
  Chain (heap_free (b_addr b + HEADER) h) (free_list (b_addr b + HEADER) (l1 ++ b :: l2)).
Proof.
  intros Hc [Ht Hco] Hb. pose proof (tiles_nodup _ _ _ Ht) as Hnd.
  pose proof (tiles_bounds _ _ _ b Ht ltac:(set_solver)) as Hbb.
  destruct (free_list_middle _ _ _ Hco Hb Hnd) as (b' & l2' & E & Ha & Hf & ->).
  unfold heap_free.
  replace (_ || _)%bool with false by (unfold HEAP_START, HEAP_END, HEADER in *; lia).
  rewrite Z.add_simpl_r, (chain_load _ _ _ _ Hc). cbn [hb_free]. rewrite Hb. cbv zeta.
  rewrite (update_const _ _ _ _ (chain_load _ _ _ _ Hc)). unfold set_free.
  cbn [hb_size hb_previous hb_next].
  pose proof (chain_store _ _ _ _ Hc Hnd (b_size b) true) as Hc1.
  pose proof (tiles_flag _ _ _ _ _ true Ht) as Ht1.
  set (h1 := store _ _ h) in *.
  (* the first merge *)
  assert (Chain (merge_next (b_addr b) h1) (l1 ++ b' :: l2') /\
          tiles HEAP_START (l1 ++ b' :: l2') HEAP_END) as [Hc2 Ht2].
  { apply coalesced_app in Hco as (_ & Hco2 & _).
    assert (coalesced l2) as Hcl2 by (by destruct l2; [|destruct Hco2]).
    rewrite coalesce_cons, (coalesce_id l2 Hcl2) in E. destruct l2 as [|c l2]; simplify_eq.
    - pose proof (merge_next_id _ _ _ _ Hc1 I) as Hm. cbn [b_addr] in Hm. by rewrite Hm.
    - simpl in E. destruct (b_free c) eqn:Ec; simplify_eq.
      + split; [by apply (merge_next_refines _ _ _ _ _ Hc1 Ht1)|].
        by apply (tiles_merge _ (mkBlk (b_addr b) (b_size b) true)).
      + pose proof (merge_next_id _ _ _ _ Hc1 Ec) as Hm. cbn [b_addr] in Hm. by rewrite Hm. }
  rewrite <- Ha in Hc2 |- *. set (h2 := merge_next _ h1) in *.
  rewrite (chain_load _ _ _ _ Hc2). cbn [hb_previous].
  (* the second merge *)
  destruct (list.last l1) as [a|] eqn:El.
  - apply last_Some in El as (l1' & ->). rewrite last_addr_snoc, removelast_last.
    rewrite <- app_assoc in Hc2, Ht2. cbn [app] in Hc2, Ht2.
    pose proof (tiles_bounds _ _ _ a Ht2 ltac:(set_solver)) as Hab. unfold HEAP_START in Hab.
    rewrite (proj2 (Z.eqb_neq _ _)) by lia. rewrite (chain_load _ _ _ _ Hc2). cbn [hb_free negb andb].
    destruct (b_free a) eqn:Efa.
    + rewrite <- Efa at 1. by apply merge_next_refines.
    + by rewrite <- app_assoc.
  - apply last_None in El as ->. done.
Qed.

(** ** What allocation does to the list *)

Lemma alloc_list_Some size l p l' :
  alloc_list size l = Some (p, l') ->
  exists l1 b l2, l = l1 ++ b :: l2 /\ b_free b = true /\ size <= b_size b /\
    p = b_addr b + HEADER /\ l' = l1 ++ place size b ++ l2.
Proof.
  revert l'. induction l as [|c l IH]; intros l'; simpl; [done|].
  destruct (b_free c && (size <=? b_size c))%bool eqn:E.
  - intros [= <- <-]. exists [], c, l. split_and!; try done; lia.
  - destruct (alloc_list size l) as [[q l'']|]; [|done]. intros [= <- <-].
    destruct (IH _ eq_refl) as (l1 & b & l2 & -> & Hb & Hs & -> & ->).
    by exists (c :: l1), b, l2.
Qed.

Lemma alloc_list_None size l :
  alloc_list size l = None -> forall b, b ∈ l -> b_free b = true -> b_size b < size.
Proof.
  induction l as [|c l IH]; simpl; intros H b; [by rewrite elem_of_nil|].
  destruct (b_free c && (size <=? b_size c))%bool eqn:E; [done|].
  destruct (alloc_list size l) as [[q l'']|]; [done|].
  intros [->|Hb]%elem_of_cons Hf; [lia|auto].
Qed.

(** The block handed out, and the remainder if the block was split. *)
Lemma place_cases size b :
  (exists n, size <= n /\ n = b_size b /\ place size b = [mkBlk (b_addr b) n false]) \/
  (size + HEADER + HEAP_ALIGNMENT <= b_size b /\
   place size b = [mkBlk (b_addr b) size false;
                   mkBlk (b_addr b + HEADER + size) (b_size b - size - HEADER) true]) \/
  b_size b < size.
Proof.
  unfold place. destruct (_ <? _) eqn:E; [|right; left; split; [lia|done]].
  destruct (decide (size <= b_size b)); [left|right; right; lia].
  exists (b_size b). split_and!; [lia|done|done].
Qed.

Lemma place_valid size l1 b l2 :
  Valid (l1 ++ b :: l2) -> b_free b = true -> 16 <= size <= b_size b -> (16 | size) ->
  Valid (l1 ++ place size b ++ l2).
Proof.
  intros [Ht Hco] Hf Hs Hd.
  apply coalesced_app in Hco as (Hco1 & Hco2 & Hco3).
  assert (Hl2 : coalesced l2 /\ forall c l', l2 = c :: l' -> b_free c = false).
  { destruct l2 as [|c l2]; [done|]. destruct Hco2 as [Hb Hl]. naive_solver. }
  unfold Valid, place. destruct (_ <? _) eqn:E.
  - split; [by apply tiles_flag|]. cbn [app].
    apply coalesced_app. split_and!; [done| |naive_solver].
    destruct l2 as [|c l2]; [done|]. split; [done|naive_solver].
  - split.
    + revert Ht. apply (tiles_replace _ l1 [b]). simpl.
      intros s e (Ea & Hb & Hdb & <-). unfold HEADER, HEAP_ALIGNMENT in *.
      split_and!; try done; try lia.
      apply Z.divide_sub_r; [by apply Z.divide_sub_r|by exists 2].
    + cbn [app]. apply coalesced_app. split_and!; [done| |naive_solver].
      split; [done|]. destruct l2 as [|c l2]; [done|]. split; [|naive_solver].
      intros _. naive_solver.
Qed.

(** Releasing the block that [place] took gives the list back. *)
Lemma free_place size l1 b l2 :
  Valid (l1 ++ b :: l2) -> b_free b = true -> 0 <= size <= b_size b ->
  NoDup (addrs (l1 ++ place size b ++ l2)) ->
  free_list (b_addr b + HEADER) (l1 ++ place size b ++ l2) = l1 ++ b :: l2.
Proof.
  intros [Ht Hco] Hf Hs Hnd. destruct b as [a n f]. cbn [b_addr b_size b_free] in *. subst f.
  unfold free_list.
  destruct (place_cases size (mkBlk a n true)) as [(m & Hm & Em & Ep)|[(Hn & Ep)|Hn]];
    cbn [b_addr b_size b_free] in *; [| |lia]; rewrite Ep in *; cbn [app] in *.
  - pose proof (mark_free_middle l1 (mkBlk a m false) l2 Hnd) as Hmark.
    cbn [b_addr b_size] in Hmark. rewrite Hmark. subst m. by apply coalesce_id.
  - pose proof (mark_free_middle l1 (mkBlk a size false) _ Hnd) as Hmark.
    cbn [b_addr b_size] in Hmark. rewrite Hmark.
    rewrite <- (coalesce_id _ Hco). clear Ep Hnd Hmark.
    assert (Hr : forall x, coalesce
      (mkBlk a size true :: mkBlk (a + HEADER + size) (n - size - HEADER) true :: x)
      = coalesce (mkBlk a n true :: x)).
    { intros x. rewrite !coalesce_cons. destruct (coalesce x) as [|c x']; cbn [b_free b_size b_addr andb].
      - do 2 f_equal; lia.
      - destruct (b_free c); cbn [b_free b_size b_addr andb]; do 2 f_equal; lia. }
    clear Ht Hco. induction l1 as [|c l1 IH]; cbn [app]; [apply Hr|].
    rewrite !(coalesce_cons c). by rewrite IH.
Qed.

(** Live blocks of the list after an allocation or a release. *)
Lemma live_place size l1 b l2 c :
  b_free b = true -> b_free c = false -> size <= b_size b ->
  exists n, size <= n /\ (c ∈ l1 ++ place size b ++ l2 <->
                          c ∈ l1 ++ b :: l2 \/ c = mkBlk (b_addr b) n false) /\
            mkBlk (b_addr b) n false ∈ l1 ++ place size b ++ l2 /\ n <= b_size b.
Proof.
  intros Hb Hc Hs. assert (c <> b) by congruence.
  destruct (place_cases size b) as [(n & Hn & En & ->)|[(Hn & ->)|Hn]]; [| |lia].
  - exists n. rewrite !elem_of_app, !elem_of_cons, elem_of_nil.
    split_and!; [done|tauto|tauto|lia].
  - exists size. rewrite !elem_of_app, !elem_of_cons, elem_of_nil.
    assert (c <> mkBlk (b_addr b + HEADER + size) (b_size b - size - HEADER) true)
      by (intros ->; done).
    unfold HEADER, HEAP_ALIGNMENT in *. split_and!; [lia|tauto|tauto|lia].
Qed.

Lemma live_coalesce l c : b_free c = false -> c ∈ coalesce l <-> c ∈ l.
Proof.
  intros Hc. induction l as [|b l IH]; [done|]. rewrite coalesce_cons.
  rewrite (elem_of_cons l c b), <- IH.
  destruct (coalesce l) as [|d l']; [set_solver|].
  destruct (b_free b) eqn:Eb, (b_free d) eqn:Ed; simpl; rewrite ?elem_of_cons; [|tauto..].
  assert (c <> b) by congruence. assert (c <> d) by congruence.
  assert (c <> mkBlk (b_addr b) (b_size b + (HEADER + b_size d)) true) by (intros ->; done).
  tauto.
Qed.

Lemma live_free l1 b l2 c :
  NoDup (addrs (l1 ++ b :: l2)) -> b_free b = false -> b_free c = false ->
  c ∈ free_list (b_addr b + HEADER) (l1 ++ b :: l2) <-> c ∈ l1 ++ b :: l2 /\ c <> b.
Proof.
  intros Hnd Hb Hc. unfold free_list. rewrite live_coalesce by done.
  rewrite mark_free_middle by done. destruct (chain_fresh _ _ _ Hnd) as [H1 H2].
  assert (b ∉ l1 /\ b ∉ l2) as [Hn1 Hn2].
  { split; intros Hin; [apply H1|apply H2]; apply list_elem_of_fmap; eauto. }
  assert (c <> mkBlk (b_addr b) (b_size b) true) by (intros ->; done).
  rewrite !elem_of_app, !elem_of_cons. split.
  - intros [Hin|[?|Hin]]; [|done|]; (split; [tauto|congruence]).
  - tauto.
Qed.

(** ** The theorems *)

(** A block list is what the headers of a chain spell: the chain determines it. *)
Lemma chain_inj h l l' : Chain h l -> Chain h l' -> Valid l -> Valid l' -> l = l'.
Proof.
  intros [Hf Hs] [Hf' Hs'] [Ht _] [Ht' _].
  assert (forall m p l l' s e e', head_addr l 0 = head_addr l' 0 -> 0 < s ->
    seg m p l 0 -> seg m p l' 0 -> tiles s l e -> tiles s l' e' -> l = l') as Hgen.
  { clear. intros m p l. revert p.
    induction l as [|b l IH]; intros p [|b' l'] s e e' Hh Hs Hg Hg' Ht Ht';
      cbn [seg tiles head_addr] in *; [done|lia|lia|].
    destruct Hg as [Hb Hl], Hg' as [Hb' Hl'].
    destruct Ht as (Ea & Hsz & _ & Ht), Ht' as (Ea' & Hsz' & _ & Ht').
    rewrite Hh, Hb' in Hb. injection Hb as Es En Ef.
    assert (b = b') as <- by (destruct b, b'; simpl in *; congruence).
    f_equal. apply (IH (b_addr b) l' (s + HEADER + b_size b) e e'); try done.
    unfold HEADER. lia. }
  eapply Hgen; try done; [congruence|]. unfold HEAP_START. lia.
Qed.

Lemma valid_split l p :
  block_at p l -> exists l1 b l2, l = l1 ++ b :: l2 /\ p = b_addr b + HEADER /\ b_free b = false.
Proof.
  intros (b & (l1 & l2 & ->)%list_elem_of_split & <- & Hf). eauto 10.
Qed.

Lemma alloc_ok h l size p h' :
  Chain h l -> Valid l -> 0 < size <= 2 ^ 64 - 16 -> heap_alloc size h = (p, h') ->
  (p = 0 /\ h' = h /\ forall b, b ∈ l -> b_free b = true -> b_size b < align_size size) \/
  (exists l1 b l2, l = l1 ++ b :: l2 /\ b_free b = true /\ 16 <= align_size size <= b_size b /\
     p = b_addr b + HEADER /\ Chain h' (l1 ++ place (align_size size) b ++ l2) /\
     Valid (l1 ++ place (align_size size) b ++ l2)).
Proof.
  intros Hc Hv Hs Ha. pose proof (align_size_bounds size Hs) as [Hal [k Hk]].
  pose proof (heap_alloc_refines size h l Hc Hv ltac:(lia)) as Hr.
  destruct (alloc_list (align_size size) l) as [[q l']|] eqn:E.
  - right. destruct Hr as (h'' & Hr & Hc'). rewrite Ha in Hr. simplify_eq.
    apply alloc_list_Some in E as (l1 & b & l2 & -> & Hb & Hsz & -> & ->).
    exists l1, b, l2. split_and!; try done; [lia|].
    apply place_valid; try done; [lia|]. by exists k.
  - left. rewrite Ha in Hr. simplify_eq. split_and!; [done|done|]. by apply alloc_list_None.
Qed.

Lemma free_ok h l p :
  Chain h l -> Valid l -> block_at p l ->
  Chain (heap_free p h) (free_list p l) /\ Valid (free_list p l).
Proof.
  intros Hc Hv (l1 & b & l2 & -> & -> & Hf)%valid_split.
  split; [by apply heap_free_refines|]. destruct Hv as [Ht Hco].
  pose proof (tiles_nodup _ _ _ Ht).
  split; [|apply coalesced_coalesce]. unfold free_list. rewrite mark_free_middle by done.
  by apply tiles_coalesce, tiles_flag.
Qed.

Lemma init_ok h :
  let l := [mkBlk HEAP_START (HEAP_END - HEAP_START - HEADER) true] in
  Chain (heap_init h) l /\ Valid l.
Proof.
  cbv zeta. unfold heap_init. rewrite !update_update. split; [split; [done|]|].
  - cbn [seg b_addr b_size b_free head_addr]. split; [|done].
    unfold update, store. simpl. by rewrite lookup_insert_eq.
  - split; [|done]. simpl. unfold HEADER, HEAP_START, HEAP_END.
    split_and!; try lia. by exists 62914558.
Qed.

(** A pointer the heap handed out and that was not released since. *)
Definition live (h : Heap) (p : Z) : Prop :=
  exists l, Chain h l /\ Valid l /\ block_at p l.

(** The heaps the kernel can reach: requests of up to [2^64 - 16] bytes, and
    releases of live pointers or of [NULL]. *)
Inductive heap_reachable : Heap -> Prop :=
| reach_init h : heap_reachable (heap_init h)
| reach_alloc h size : heap_reachable h -> 0 <= size <= 2 ^ 64 - 16 ->
    heap_reachable (heap_alloc size h).2
| reach_calloc h count size : heap_reachable h -> 0 <= count -> 0 <= size ->
    count * size <= 2 ^ 64 - 16 -> heap_reachable (heap_calloc count size h).2
| reach_free h p : heap_reachable h -> p = 0 \/ live h p -> heap_reachable (heap_free p h).

Lemma alloc_heap_ok h size :
  heap_ok h -> 0 <= size <= 2 ^ 64 - 16 -> heap_ok (heap_alloc size h).2.
Proof.
  intros (l & Hc & Hv) Hs. destruct (decide (size = 0)) as [->|].
  { by exists l. }
  destruct (heap_alloc size h) as [p h'] eqn:E.
  destruct (alloc_ok _ _ size _ _ Hc Hv ltac:(lia) E) as [(_ & -> & _)|(l1 & b & l2 & H)].
  - by exists l.
  - eexists. split; apply H.
Qed.

(** [C5] Every heap the kernel can reach from [heap_init] by allocating and
    callocating at most 2^64-16 bytes and releasing live pointers satisfies the invariant: the headers
    form one doubly linked list whose blocks tile the heap region exactly, with
    16-byte granularity and no two adjacent free blocks. *)
Theorem heap_reachable_ok h : heap_reachable h -> heap_ok h.
Proof.
  induction 1 as [h|h size _ IH Hs|h count size _ IH Hcnt Hsz Hs|h p _ IH Hp].
  - eexists. apply init_ok.
  - by apply alloc_heap_ok.
  - unfold heap_calloc. destruct (_ && _)%bool; [done|].
    assert (0 <= count * size) by (by apply Z.mul_nonneg_nonneg).
    rewrite wrap_small by lia. apply alloc_heap_ok; [done|lia].
  - destruct Hp as [->|(l & Hc & Hv & Hb)]; [done|].
    eexists. by apply free_ok.
Qed.

Lemma heap_reachable_ok_witness :
  heap_ok (heap_free 0 (heap_alloc 100 (heap_init (mkHeap 0 ∅))).2).
Proof.
  apply heap_reachable_ok. apply reach_free; [|by left].
  apply reach_alloc; [apply reach_init|]. split; vm_compute; discriminate.
Defined.

(** A successful allocation makes one block live, clear of the blocks live before. *)
Lemma alloc_live h l size p h' :
  Chain h l -> Valid l -> 0 < size <= 2 ^ 64 - 16 -> heap_alloc size h = (p, h') ->
  (p = 0 /\ h' = h /\ forall b, b ∈ l -> b_free b = true -> b_size b < align_size size) \/
  (exists l' n, Chain h' l' /\ Valid l' /\ mkBlk (p - HEADER) n false ∈ l' /\ size <= n /\
     (forall c, b_free c = false -> (c ∈ l' <-> c ∈ l \/ c = mkBlk (p - HEADER) n false)) /\
     (forall c, c ∈ l -> b_free c = false ->
        p + n <= b_addr c \/ b_addr c + HEADER + b_size c <= p - HEADER)).
Proof.
  intros Hc Hv Hs E.
  destruct (alloc_ok _ _ _ _ _ Hc Hv Hs E) as [H|(l1 & b & l2 & -> & Hb & Hsz & -> & Hc' & Hv')];
    [by left|right].
  pose proof (align_size_bounds size Hs) as [Hal _].
  destruct (live_place (align_size size) l1 b l2 (mkBlk 0 0 false) Hb eq_refl ltac:(lia))
    as (n & Hn & _ & Hin & Hnb).
  assert (forall c, b_free c = false ->
    (c ∈ l1 ++ place (align_size size) b ++ l2 <-> c ∈ l1 ++ b :: l2 \/ c = mkBlk (b_addr b) n false))
    as Hlive.
  { intros c Hcf. destruct (live_place (align_size size) l1 b l2 c Hb Hcf ltac:(lia))
      as (n' & _ & Hiff & Hin' & _).
    destruct (tiles_disjoint _ _ _ _ _ (proj1 Hv') Hin Hin') as [[= <-]|Hd]; [done|].
    simpl in Hd. pose proof (tiles_bounds _ _ _ _ (proj1 Hv') Hin).
    pose proof (tiles_bounds _ _ _ _ (proj1 Hv') Hin'). simpl in *. unfold HEADER in *. lia. }
  exists (l1 ++ place (align_size size) b ++ l2), n. rewrite Z.add_simpl_r.
  split_and!; try done; try lia.
  intros c Hcin Hcf.
  assert (c ∈ l1 ++ place (align_size size) b ++ l2) as Hc2 by (apply Hlive; tauto).
  pose proof (tiles_bounds _ _ _ _ (proj1 Hv') Hin) as Hbd. simpl in Hbd.
  destruct (tiles_disjoint _ _ _ b c (proj1 Hv) ltac:(set_solver) Hcin) as [->|Hd]; [congruence|].
  unfold HEADER in *. lia.
Qed.

(** [C6] For requests of 1 to 2^64-16 bytes (beyond that the rounding wraps, see
    [heap_alloc_wraps]): a successful allocation returns a 16-byte aligned pointer to at least
    the requested number of bytes inside the heap region; the new block overlaps
    no live block (header included), and the live blocks afterwards are the old
    ones and the new one.  An allocation fails only when no free block is large
    enough, and then leaves the heap as it was. *)
Theorem heap_alloc_correct h l size :
  Chain h l -> Valid l -> 0 < size <= 2 ^ 64 - 16 ->
  let '(p, h') := heap_alloc size h in
  (p = 0 /\ h' = h /\ forall b, b ∈ l -> b_free b = true -> b_size b < align_size size) \/
  (exists l' n, Chain h' l' /\ Valid l' /\
     size <= n /\ (16 | p) /\ HEAP_START < p /\ p + n <= HEAP_END /\
     (forall c, b_free c = false -> (c ∈ l' <-> c ∈ l \/ c = mkBlk (p - HEADER) n false)) /\
     (forall c, c ∈ l -> b_free c = false ->
        p + n <= b_addr c \/ b_addr c + HEADER + b_size c <= p - HEADER)).
Proof.
  intros Hc Hv Hs. destruct (heap_alloc size h) as [p h'] eqn:E.
  destruct (alloc_live _ _ _ _ _ Hc Hv Hs E) as [H|(l' & n & Hc' & Hv' & Hin & Hn & Hlive & Hclear)];
    [by left|right].
  pose proof (tiles_bounds _ _ _ _ (proj1 Hv') Hin) as Hbd. simpl in Hbd.
  pose proof (tiles_aligned _ _ _ _ (proj1 Hv') ltac:(by exists (HEAP_START / 16)) Hin) as Hal. simpl in Hal.
  exists l', n. split_and!; try done; try (unfold HEADER in *; lia).
  replace p with (p - HEADER + HEADER) by lia. apply Z.divide_add_r; [done|by exists 2].
Qed.

Lemma heap_alloc_correct_witness :
  let h := heap_init (mkHeap 0 ∅) in
  exists l' n, Chain (heap_alloc 100 h).2 l' /\ Valid l' /\ 100 <= n.
Proof.
  cbv zeta. destruct (init_ok (mkHeap 0 ∅)) as [Hc Hv].
  pose proof (heap_alloc_correct _ _ 100 Hc Hv ltac:(lia)) as H.
  destruct (heap_alloc 100 (heap_init (mkHeap 0 ∅))) as [p h'] eqn:E.
  destruct H as [(_ & _ & H)|(l' & n & H1 & H2 & H3 & _)]; [|by exists l', n].
  exfalso. specialize (H _ ltac:(by left) eq_refl). vm_compute in H. done.
Defined.

(** A release ends the life of one block. *)
Lemma free_live h l p :
  Chain h l -> Valid l -> block_at p l ->
  exists l', Chain (heap_free p h) l' /\ Valid l' /\
    forall c, b_free c = false -> (c ∈ l' <-> c ∈ l /\ b_addr c + HEADER <> p).
Proof.
  intros Hc Hv Hb. pose proof (free_ok _ _ _ Hc Hv Hb) as [Hc' Hv'].
  exists (free_list p l). split_and!; [done|done|]. intros c Hcf.
  destruct (valid_split _ _ Hb) as (l1 & b & l2 & -> & -> & Hbf).
  pose proof (tiles_nodup _ _ _ (proj1 Hv)) as Hnd.
  rewrite (live_free _ _ _ _ Hnd Hbf Hcf).
  split; intros [Hin Hne]; (split; [done|]); [|by intros ->].
  intros Heq. apply Hne.
  destruct (tiles_disjoint _ _ _ c b (proj1 Hv) Hin ltac:(set_solver)) as [?|Hd]; [done|].
  pose proof (tiles_bounds _ _ _ _ (proj1 Hv) Hin).
  pose proof (tiles_bounds _ _ _ b (proj1 Hv) ltac:(set_solver)). unfold HEADER in *. lia.
Qed.

(** [C7] Releasing a live pointer keeps the invariant, ends the life of that
    block and of no other, and merges it with its free neighbours; and releasing
    what was just allocated, with a request of 1 to 2^64-16 bytes, gives back exactly the block
    list there was before. *)
Theorem heap_free_correct h l :
  Chain h l -> Valid l ->
  (forall p, block_at p l -> exists l',
     Chain (heap_free p h) l' /\ Valid l' /\
     forall c, b_free c = false -> (c ∈ l' <-> c ∈ l /\ b_addr c + HEADER <> p)) /\
  (forall size p h', 0 < size <= 2 ^ 64 - 16 -> heap_alloc size h = (p, h') ->
     Chain (heap_free p h') l).
Proof.
  intros Hc Hv. split; [intros p; by apply free_live|].
  intros size p h' Hs E.
  destruct (alloc_ok _ _ _ _ _ Hc Hv Hs E) as [(-> & -> & _)|(l1 & b & l2 & -> & Hb & Hsz & -> & Hc' & Hv')];
    [done|].
  pose proof (tiles_nodup _ _ _ (proj1 Hv')) as Hnd.
  rewrite <- (free_place (align_size size) l1 b l2 Hv Hb ltac:(lia) Hnd).
  apply free_ok; [done|done|].
  destruct (live_place (align_size size) l1 b l2 (mkBlk 0 0 false) Hb eq_refl ltac:(lia))
    as (n & _ & _ & Hin & _).
  by exists (mkBlk (b_addr b) n false).
Qed.

Lemma heap_free_correct_witness :
  let h := heap_init (mkHeap 0 ∅) in
  Chain (heap_free (heap_alloc 100 h).1 (heap_alloc 100 h).2)
        [mkBlk HEAP_START (HEAP_END - HEAP_START - HEADER) true].
Proof.
  cbv zeta. destruct (init_ok (mkHeap 0 ∅)) as [Hc Hv].
  destruct (heap_free_correct _ _ Hc Hv) as [_ H].
  apply (H 100); [lia|]. by destruct (heap_alloc 100 _).
Defined.

(** Requests within 15 bytes of [SIZE_MAX] wrap to zero in [align_size]:
    the fresh heap answers a request for [2^64 - 1] bytes with a block of zero
    bytes instead of [NULL]. *)
Theorem heap_alloc_wraps :
  align_size (2 ^ 64 - 1) = 0 /\
  (heap_alloc (2 ^ 64 - 1) (heap_init (mkHeap 0 ∅))).1 = HEAP_START + HEADER.
Proof. split; vm_compute; done. Qed.
