(* ===== verification/Interfaces.v ===== *)
(** * What the lower layers promise to their clients

    [Allocator] is the contract of kernel/heap.c as the rest of the kernel uses
    it, [BlockDevice] the contract of drivers/ata.c as the file system uses it.
    Clients are proved against these classes; [HeapFacts] and [Ata] give the
    instances. *)

From S2P Require Import Prelude Heap HeapFacts.

(** ** The allocator *)

Class Allocator (H : Type) := {
  al_alloc : Z -> H -> Z * H;   (** [heap_alloc]; 0 is [NULL] *)
  al_free : Z -> H -> H;        (** [heap_free] *)
  (** Two intact heaps with the same blocks, free and live. *)
  al_same : H -> H -> Prop;
  al_same_sym h1 h2 : al_same h1 h2 -> al_same h2 h1;
  al_same_trans h1 h2 h3 : al_same h1 h2 -> al_same h2 h3 -> al_same h1 h3;
  (** The answer depends on the blocks only. *)
  al_alloc_same n h1 h2 : 0 < n <= 2 ^ 64 - 16 -> al_same h1 h2 ->
    (al_alloc n h1).1 = (al_alloc n h2).1 /\ al_same (al_alloc n h1).2 (al_alloc n h2).2;
  (** A failed allocation changes nothing. *)
  al_alloc_null n h h' : 0 < n <= 2 ^ 64 - 16 -> al_same h h -> al_alloc n h = (0, h') ->
    al_same h' h;
  (** Releasing what was just allocated undoes the allocation. *)
  al_free_alloc n h p h' : 0 < n <= 2 ^ 64 - 16 -> al_same h h -> al_alloc n h = (p, h') ->
    al_same (al_free p h') h;
}.

Definition heap_same (h1 h2 : Heap) : Prop :=
  exists l, Chain h1 l /\ Chain h2 l /\ Valid l.

Lemma heap_same_ok h : heap_same h h <-> heap_ok h.
Proof. unfold heap_same, heap_ok. naive_solver. Qed.

#[export] Program Instance heap_allocator : Allocator Heap := {|
  al_alloc := heap_alloc; al_free := heap_free; al_same := heap_same |}.
Next Obligation. intros h1 h2 (l & ? & ? & ?). by exists l. Qed.
Next Obligation.
  intros h1 h2 h3 (l & H1 & H2 & Hv) (l' & H2' & H3 & Hv').
  assert (l = l') as <- by (by eapply chain_inj). by exists l.
Qed.
Next Obligation.
  intros n h1 h2 Hn (l & H1 & H2 & Hv).
  pose proof (heap_alloc_refines n h1 l H1 Hv ltac:(lia)) as R1.
  pose proof (heap_alloc_refines n h2 l H2 Hv ltac:(lia)) as R2.
  destruct (alloc_list (align_size n) l) as [[p l']|] eqn:E.
  - destruct R1 as (h1' & -> & C1), R2 as (h2' & -> & C2). split; [done|].
    exists l'. split_and!; try done.
    apply alloc_list_Some in E as (l1 & b & l2 & -> & Hb & Hs & _ & ->).
    pose proof (align_size_bounds n Hn) as [Hal Hdiv].
    destruct (decide (16 <= align_size n)); [by apply place_valid|].
    destruct Hdiv as [k Hk]. lia.
  - rewrite R1, R2. split; [done|]. by exists l.
Qed.
Next Obligation.
  intros n h h' Hn (l & Hc & _ & Hv) E. exists l.
  destruct (alloc_ok _ _ n _ _ Hc Hv Hn E)
    as [(_ & -> & _)|(l1 & b & l2 & -> & Hb & Hsz & Hp & Hc' & Hv')]; [done|].
  exfalso. pose proof (tiles_bounds _ _ _ b (proj1 Hv) ltac:(set_solver)) as Hb'.
  unfold HEAP_START, HEADER in *. lia.
Qed.
Next Obligation.
  intros n h p h' Hn (l & Hc & _ & Hv) E. exists l.
  destruct (alloc_ok _ _ n _ _ Hc Hv Hn E)
    as [(-> & -> & _)|(l1 & b & l2 & -> & Hb & Hsz & -> & Hc' & Hv')]; [done|].
  split_and!; [|done|done].
  rewrite <- (free_place (align_size n) l1 b l2 Hv Hb ltac:(lia) (tiles_nodup _ _ _ (proj1 Hv'))).
  apply free_ok; [done|done|].
  destruct (live_place (align_size n) l1 b l2 (mkBlk 0 0 false) Hb eq_refl ltac:(lia))
    as (m & _ & _ & Hin & _).
  by exists (mkBlk (b_addr b) m false).
Qed.

(** ** The block device *)

Definition SECTOR_SIZE : Z := 512.

(** A sector's worth of bytes. *)
Definition is_sector (data : list Z) : Prop := length data = 512%nat /\ bytes data.

Class BlockDevice (D : Type) := {
  bd_read : Z -> D -> option (list Z) * D;   (** [ata_read_sector] *)
  bd_write : Z -> list Z -> D -> bool * D;   (** [ata_write_sector] *)
  bd_count : D -> Z;                         (** [ata_sector_count] *)
  (** What the disk holds, and whether it answers every request. *)
  bd_sector : D -> Z -> list Z;
  bd_healthy : D -> Prop;
  bd_count_bound d : 0 <= bd_count d < 2 ^ 32;
  bd_sector_ok d lba : is_sector (bd_sector d lba);
  bd_read_frame lba d r d' : bd_read lba d = (r, d') ->
    (forall x, bd_sector d' x = bd_sector d x) /\ bd_count d' = bd_count d /\
    (bd_healthy d -> bd_healthy d') /\
    (forall data, r = Some data -> data = bd_sector d lba /\ 0 <= lba < bd_count d);
  bd_read_ok lba d : bd_healthy d -> 0 <= lba < bd_count d ->
    (bd_read lba d).1 = Some (bd_sector d lba);
  bd_write_frame lba data d ok d' : is_sector data -> bd_write lba data d = (ok, d') ->
    (forall x, x <> lba -> bd_sector d' x = bd_sector d x) /\ bd_count d' = bd_count d /\
    (bd_healthy d -> bd_healthy d') /\
    (ok = true -> bd_sector d' lba = data /\ 0 <= lba < bd_count d);
  bd_write_ok lba data d : bd_healthy d -> is_sector data -> 0 <= lba < bd_count d ->
    (bd_write lba data d).1 = true;
}.
