(* ===== verification/Ownership.v ===== *)
(** * Who owns which heap block

    [Ownership] extends the contract of the allocator with the set of blocks that are
    live, so that a client can account for the blocks it holds: a fresh block overlaps none
    of them, and releasing one leaves the others alone. *)

From S2P Require Import Prelude Heap HeapFacts Interfaces.

Class Ownership (H : Type) `{!Allocator H} := {
  (** The live blocks of an intact heap, from pointer to size. *)
  al_owns : H -> gmap Z Z -> Prop;
  al_owns_range h m p k : al_owns h m -> m !! p = Some k ->
    HEAP_START < p /\ 0 < k /\ p + k <= HEAP_END;
  al_owns_disjoint h m p k q j : al_owns h m -> m !! p = Some k -> m !! q = Some j ->
    p = q \/ p + k <= q \/ q + j <= p;
  al_owns_alloc n h m p h' : 0 < n <= 2 ^ 64 - 16 -> al_owns h m -> al_alloc n h = (p, h') ->
    (p = 0 /\ al_owns h' m) \/
    (exists k, n <= k /\ m !! p = None /\ al_owns h' (<[p := k]> m));
  al_owns_free h m p : al_owns h m -> is_Some (m !! p) -> al_owns (al_free p h) (delete p m) }.

(** ** The kernel heap *)

Definition heap_owns (h : Heap) (m : gmap Z Z) : Prop :=
  exists l, Chain h l /\ Valid l /\
    forall p k, m !! p = Some k <-> mkBlk (p - HEADER) k false ∈ l.

#[export] Program Instance heap_ownership : Ownership Heap := {| al_owns := heap_owns |}.
Next Obligation.
  intros h m p k (l & Hc & Hv & Hm) Hp. apply Hm in Hp.
  pose proof (tiles_bounds _ _ _ _ (proj1 Hv) Hp) as Hb. simpl in Hb. unfold HEADER in *. lia.
Qed.
Next Obligation.
  intros h m p k q j (l & Hc & Hv & Hm) Hp Hq. apply Hm in Hp, Hq.
  destruct (tiles_disjoint _ _ _ _ _ (proj1 Hv) Hp Hq) as [[= ]|Hd]; simpl in *; unfold HEADER in *; lia.
Qed.
Next Obligation.
  intros n h m p h' Hn (l & Hc & Hv & Hm) E.
  destruct (alloc_live _ _ _ _ _ Hc Hv Hn E) as [(-> & -> & _)|(l' & k & Hc' & Hv' & Hin & Hk & Hlive & Hclear)].
  { left. split; [done|]. by exists l. }
  assert (m !! p = None) as Hfresh.
  { destruct (m !! p) as [j|] eqn:Ep; [|done]. apply Hm in Ep.
    pose proof (Hclear _ Ep eq_refl) as Hd. simpl in Hd.
    pose proof (tiles_bounds _ _ _ _ (proj1 Hv) Ep) as Hb. simpl in Hb. unfold HEADER in *. lia. }
  right. exists k. split_and!; [done..|]. exists l'. split_and!; [done..|]. intros q j.
  rewrite lookup_insert_Some, (Hlive (mkBlk (q - HEADER) j false) eq_refl), Hm. split.
  - intros [[<- <-]|[_ ?]]; auto.
  - intros [Hq|[= ? <-]]; [|left; split; [lia|done]].
    right. split; [|done]. intros <-. apply Hm in Hq. congruence.
Qed.
Next Obligation.
  intros h m p (l & Hc & Hv & Hm) [k Hp]. apply Hm in Hp.
  destruct (free_live h l p Hc Hv) as (l' & Hc' & Hv' & Hlive).
  { exists (mkBlk (p - HEADER) k false). simpl. split_and!; [done|lia|done]. }
  exists l'. split_and!; [done..|]. intros q j. rewrite lookup_delete_Some, (Hlive (mkBlk (q - HEADER) j false) eq_refl), Hm. simpl.
  split; intros [Ha Hb]; (split; [first [done|lia]|first [done|lia]]).
Qed.

Lemma heap_owns_init h : heap_owns (heap_init h) ∅.
Proof.
  destruct (init_ok h) as [Hc Hv]. eexists. split_and!; [done..|]. intros p k.
  rewrite lookup_empty, list_elem_of_singleton. split; [done|]. intros [= ]. 
Qed.
