(* ===== verification/RamDisk.v ===== *)
(** * A block device kept in memory

    The smallest instance of [BlockDevice]: a finite map of the sectors written
    so far.  The witnesses of the file system's theorems run on it. *)

From S2P Require Import Prelude Interfaces.

#[global] Instance is_sector_dec data : Decision (is_sector data).
Proof. unfold is_sector, bytes. apply _. Defined.

Record RamDisk := mkRam { rd_count : Z; rd_sectors : gmap Z (list Z) }.

Definition empty_sector : list Z := replicate 512 0.

Definition ram_sector (d : RamDisk) (lba : Z) : list Z :=
  match rd_sectors d !! lba with
  | Some data => if bool_decide (is_sector data) then data else empty_sector
  | None => empty_sector
  end.

Definition ram_count (d : RamDisk) : Z := Z.max 0 (Z.min (rd_count d) (2 ^ 32 - 1)).

Definition ram_in_range (lba : Z) (d : RamDisk) : bool := ((0 <=? lba) && (lba <? ram_count d))%bool.

Definition ram_read (lba : Z) (d : RamDisk) : option (list Z) * RamDisk :=
  (if ram_in_range lba d then Some (ram_sector d lba) else None, d).

Definition ram_write (lba : Z) (data : list Z) (d : RamDisk) : bool * RamDisk :=
  if ram_in_range lba d
  then (true, mkRam (rd_count d) (<[lba := data]> (rd_sectors d)))
  else (false, d).

Lemma empty_sector_ok : is_sector empty_sector.
Proof. split; [done|]. apply (bytes_zeroes 512). Qed.

Lemma ram_sector_ok d lba : is_sector (ram_sector d lba).
Proof.
  unfold ram_sector. destruct (_ !! _) as [data|]; [|apply empty_sector_ok].
  case_bool_decide; [done|apply empty_sector_ok].
Qed.

#[export] Program Instance ram_device : BlockDevice RamDisk := {|
  bd_read := ram_read; bd_write := ram_write; bd_count := ram_count;
  bd_sector := ram_sector; bd_healthy := fun _ => True |}.
Next Obligation. intros d. unfold ram_count. lia. Qed.
Next Obligation. apply ram_sector_ok. Qed.
Next Obligation.
  intros lba d r d' [= <- <-]. split_and!; try done. intros data.
  destruct (ram_in_range lba d) eqn:E; [|done]. unfold ram_in_range in E. intros [= <-]. split; [done|lia].
Qed.
Next Obligation.
  intros lba d _ Hr. unfold ram_read, ram_in_range. simpl. by destruct (_ && _)%bool eqn:E; [|lia].
Qed.
Next Obligation.
  unfold ram_write. intros lba data d ok d' Hs.
  destruct (ram_in_range lba d) eqn:E; intros [= <- <-]; [|done].
  unfold ram_in_range in E. split_and!; try done.
  - intros x Hx. unfold ram_sector. cbn [rd_sectors]. by rewrite lookup_insert_ne.
  - intros _. split; [|lia]. unfold ram_sector. cbn [rd_sectors]. rewrite lookup_insert_eq.
    by rewrite bool_decide_eq_true_2.
Qed.
Next Obligation.
  intros lba data d _ _ Hr. unfold ram_write, ram_in_range. by destruct (_ && _)%bool eqn:E; [|lia].
Qed.
