(* ===== verification/Filesystem.v ===== *)
(** * kernel/filesystem.c: NovaFS

    The in-memory directory, the on-disk layout and every operation of the
    file system, over any [BlockDevice] and any [Allocator].  A C string or
    buffer argument is the list of its bytes; pointers the callers pass are
    not [NULL].  [entries = \[\]] stands for the [NULL] directory pointer
    before [fs_init].  An [int] result of -1 is [None]. *)

From S2P Require Import Prelude Runtime Interfaces.

(** ** Layout of the volume *)

Definition FS_NAME_MAX : nat := 95.
Definition FS_TYPE_FILE : Z := 1.
Definition FS_TYPE_DIRECTORY : Z := 2.
Definition FS_TYPE_SYMLINK : Z := 3.

Definition FS_VERSION : Z := 2.
Definition FS_LEGACY_VERSION : Z := 1.
Definition FS_SUPER_LBA : Z := 4096.
Definition FS_DIRECTORY_LBA : Z := FS_SUPER_LBA + 1.
Definition FS_DIRECTORY_SECTORS : nat := 256.
Definition FS_DATA_LBA : Z := 4608.
Definition FS_MAX_ENTRIES : nat := 1024.
Definition FS_LEGACY_DIRECTORY_SECTORS : nat := 8.
Definition FS_LEGACY_DATA_LBA : Z := 4128.
Definition FS_LEGACY_MAX_ENTRIES : nat := 64.

(** [sizeof(FsEntry)] *)
Definition ENTRY_SIZE : nat := 128.

Record FsSuperblock := mkSuper {
  sb_magic : list Z;
  sb_version : Z;
  sb_directory_lba : Z;
  sb_directory_sectors : Z;
  sb_data_lba : Z;
  sb_max_entries : Z;
  sb_total_sectors : Z;
  sb_reserved : list Z }.

Record FsEntry := mkEntry {
  fe_used : Z;
  fe_type : Z;
  fe_flags : Z;
  fe_owner : Z;
  fe_name : list Z;
  fe_start_lba : Z;
  fe_size : Z;
  fe_capacity_sectors : Z;
  fe_modified : Z;
  fe_reserved : Z }.

Record LegacyFsEntry := mkLegacy {
  lf_used : Z;
  lf_type : Z;
  lf_flags : Z;
  lf_name : list Z;
  lf_start_lba : Z;
  lf_size : Z;
  lf_capacity_sectors : Z;
  lf_modified : Z;
  lf_owner : Z }.

(** What [fs_path_info] and [fs_file_info] fill in. *)
Record FsFileInfo := mkInfo {
  fi_name : list Z;
  fi_size : Z;
  fi_flags : Z;
  fi_owner : Z;
  fi_type : Z }.

(** The packed structures as the bytes of their sectors. *)
Definition encode_super (b : FsSuperblock) : list Z :=
  sb_magic b ++ le 4 (sb_version b) ++ le 4 (sb_directory_lba b) ++
  le 4 (sb_directory_sectors b) ++ le 4 (sb_data_lba b) ++ le 4 (sb_max_entries b) ++
  le 4 (sb_total_sectors b) ++ sb_reserved b.

Definition decode_super (l : list Z) : FsSuperblock :=
  mkSuper (slice 0 8 l) (field 8 4 l) (field 12 4 l) (field 16 4 l) (field 20 4 l)
          (field 24 4 l) (field 28 4 l) (slice 32 480 l).

Definition encode_entry (e : FsEntry) : list Z :=
  le 1 (fe_used e) ++ le 1 (fe_type e) ++ le 2 (fe_flags e) ++ le 4 (fe_owner e) ++
  fe_name e ++ le 4 (fe_start_lba e) ++ le 8 (fe_size e) ++
  le 4 (fe_capacity_sectors e) ++ le 4 (fe_modified e) ++ le 4 (fe_reserved e).

Definition decode_entry (l : list Z) : FsEntry :=
  mkEntry (field 0 1 l) (field 1 1 l) (field 2 2 l) (field 4 4 l) (slice 8 96 l)
          (field 104 4 l) (field 108 8 l) (field 116 4 l) (field 120 4 l) (field 124 4 l).

Definition decode_legacy (l : list Z) : LegacyFsEntry :=
  mkLegacy (field 0 1 l) (field 1 1 l) (field 2 2 l) (slice 4 40 l)
           (field 44 4 l) (field 48 4 l) (field 52 4 l) (field 56 4 l) (field 60 4 l).

(** [memset(&entry, 0, sizeof(entry))] *)
Definition zero_entry : FsEntry := mkEntry 0 0 0 0 (replicate 96 0) 0 0 0 0 0.

Definition zero_super : FsSuperblock := mkSuper (replicate 8 0) 0 0 0 0 0 0 (replicate 480 0).

(** "NOVA64FS" *)
Definition MAGIC : list Z := [78; 79; 86; 65; 54; 52; 70; 83].

(** Field updates. *)
Definition with_type (v : Z) (e : FsEntry) := mkEntry (fe_used e) v (fe_flags e) (fe_owner e)
  (fe_name e) (fe_start_lba e) (fe_size e) (fe_capacity_sectors e) (fe_modified e) (fe_reserved e).
Definition with_flags (v : Z) (e : FsEntry) := mkEntry (fe_used e) (fe_type e) v (fe_owner e)
  (fe_name e) (fe_start_lba e) (fe_size e) (fe_capacity_sectors e) (fe_modified e) (fe_reserved e).
Definition with_owner (v : Z) (e : FsEntry) := mkEntry (fe_used e) (fe_type e) (fe_flags e) v
  (fe_name e) (fe_start_lba e) (fe_size e) (fe_capacity_sectors e) (fe_modified e) (fe_reserved e).
Definition with_extent (start cap : Z) (e : FsEntry) := mkEntry (fe_used e) (fe_type e)
  (fe_flags e) (fe_owner e) (fe_name e) start (fe_size e) cap (fe_modified e) (fe_reserved e).

(** [entry->size = size; entry->modified++;] *)
Definition with_size_modified (v : Z) (e : FsEntry) := mkEntry (fe_used e) (fe_type e)
  (fe_flags e) (fe_owner e) (fe_name e) (fe_start_lba e) v (fe_capacity_sectors e)
  (u32 (fe_modified e + 1)) (fe_reserved e).

(** ** Names *)

Definition SLASH : Z := 47.
Definition DOT : Z := 46.

(** [name[i]] *)
Definition char_of (name : list Z) (i : nat) : Z := nth i name 0.

(** The segment that starts at [segment] and ends before [stop] is "..". *)
Definition dotdot (name : list Z) (segment stop : nat) : bool :=
  (((stop - segment)%nat =? 2)%nat && (char_of name segment =? DOT) &&
   (char_of name (segment + 1) =? DOT))%bool.

(** The loop of [valid_name] from [index] on: the start of the last segment, or
    [None] for its [return false]. *)
Fixpoint valid_name_loop (name rest : list Z) (index segment : nat) : option nat :=
  match rest with
  | [] => Some segment
  | c :: rest =>
      if ((c <? 32) || (126 <? c))%bool then None
      else if c =? SLASH then
        if ((index =? segment)%nat || dotdot name segment index)%bool then None
        else valid_name_loop name rest (S index) (S index)
      else valid_name_loop name rest (S index) segment
  end.

Definition valid_name (name : list Z) : bool :=
  let length := strlen name in
  if ((length =? 0)%nat || (FS_NAME_MAX <? length)%nat)%bool then false
  else match valid_name_loop name (cstr name) 0 0 with
       | None => false
       | Some segment => ((segment <? length)%nat && negb (dotdot name segment length))%bool
       end.

Definition valid_symlink_target (target : list Z) : bool :=
  valid_name (if char_at target =? SLASH then tail target else target).

(** The index of the last '/' of the string, if any. *)
Fixpoint last_slash (name : list Z) (index : nat) (found : option nat) : option nat :=
  match name with
  | [] => found
  | c :: name => last_slash name (S index) (if c =? SLASH then Some index else found)
  end.

Fixpoint path_depth (path : list Z) : Z :=
  match path with
  | [] => 0
  | c :: path => if c =? 0 then 0 else (if c =? SLASH then 1 else 0) + path_depth path
  end.

(** ** Directory entries *)

Definition entry_mode (e : FsEntry) : Z :=
  let mode := Z.land (fe_flags e) 0x1FF in
  if negb (mode =? 0) then mode
  else if ((fe_type e =? FS_TYPE_DIRECTORY) || (fe_type e =? FS_TYPE_SYMLINK))%bool
       then 0x1FF else 0x1B6.

Definition entry_used (e : FsEntry) : bool := negb (fe_used e =? 0).

(** [find_entry]: the first used entry with this name. *)
Fixpoint find_from (entries : list FsEntry) (index : nat) (name : list Z) : option nat :=
  match entries with
  | [] => None
  | e :: entries =>
      if (entry_used e && (strcmp (fe_name e) name =? 0))%bool then Some index
      else find_from entries (S index) name
  end.

Definition find_entry (entries : list FsEntry) (name : list Z) : option nat :=
  find_from entries 0 name.

(** The first free slot. *)
Fixpoint free_from (entries : list FsEntry) (index : nat) : option nat :=
  match entries with
  | [] => None
  | e :: entries => if entry_used e then free_from entries (S index) else Some index
  end.

Definition entry_at (entries : list FsEntry) (index : nat) : FsEntry :=
  default zero_entry (entries !! index).

Definition parent_directory_exists (entries : list FsEntry) (name : list Z) : bool :=
  match last_slash (cstr name) 0 None with
  | None => true
  | Some length =>
      if ((length =? 0)%nat || (FS_NAME_MAX <? length)%nat)%bool then false
      else match find_entry entries (take length name ++ [0]) with
           | None => false
           | Some index => fe_type (entry_at entries index) =? FS_TYPE_DIRECTORY
           end
  end.

(** The first LBA past every extent in use. *)
Fixpoint next_data_from (entries : list FsEntry) (next : Z) : Z :=
  match entries with
  | [] => next
  | e :: entries =>
      let stop := fe_start_lba e + fe_capacity_sectors e in
      next_data_from entries
        (if (entry_used e && (next <? stop) && (stop <=? 0xFFFFFFFF))%bool then stop else next)
  end.

Definition next_data_lba (entries : list FsEntry) : Z := next_data_from entries FS_DATA_LBA.

(** ** The file-scope state *)

Section filesystem.
Context {D H : Type} `{!BlockDevice D} `{!Allocator H}.

Record FsState := mkFs {
  superblock : FsSuperblock;
  entries : list FsEntry;
  mounted : bool;
  current_uid : Z;
  current_privileged : bool;
  disk : D;
  heap : H }.

Definition with_superblock (v : FsSuperblock) (s : FsState) : FsState :=
  mkFs v (entries s) (mounted s) (current_uid s) (current_privileged s) (disk s) (heap s).
Definition with_entries (v : list FsEntry) (s : FsState) : FsState :=
  mkFs (superblock s) v (mounted s) (current_uid s) (current_privileged s) (disk s) (heap s).
Definition with_mounted (v : bool) (s : FsState) : FsState :=
  mkFs (superblock s) (entries s) v (current_uid s) (current_privileged s) (disk s) (heap s).
Definition with_identity (u : Z) (p : bool) (s : FsState) : FsState :=
  mkFs (superblock s) (entries s) (mounted s) u p (disk s) (heap s).
Definition with_disk (v : D) (s : FsState) : FsState :=
  mkFs (superblock s) (entries s) (mounted s) (current_uid s) (current_privileged s) v (heap s).
Definition with_heap (v : H) (s : FsState) : FsState :=
  mkFs (superblock s) (entries s) (mounted s) (current_uid s) (current_privileged s) (disk s) v.

Notation FS := (st FsState).

(** [entries[index].field = ...] *)
Definition edit_entry (index : nat) (f : FsEntry -> FsEntry) : FS unit :=
  modify (fun s => with_entries (<[index := f (entry_at (entries s) index)]> (entries s)) s).

(** The calls into the lower layers. *)
Definition alloc (n : Z) : FS Z :=
  fun s => let '(p, h) := al_alloc n (heap s) in (p, with_heap h s).

Definition free (p : Z) : FS unit := modify (fun s => with_heap (al_free p (heap s)) s).

Definition ata_read_sector (lba : Z) : FS (option (list Z)) :=
  fun s => let '(r, d) := bd_read lba (disk s) in (r, with_disk d s).

Definition ata_write_sector (lba : Z) (data : list Z) : FS bool :=
  fun s => let '(r, d) := bd_write lba data (disk s) in (r, with_disk d s).

Definition sector_count (s : FsState) : Z := bd_count (disk s).

(** ** Permissions *)

Definition may_read (s : FsState) (e : FsEntry) : bool :=
  if current_privileged s then true
  else if current_uid s =? fe_owner e then has (entry_mode e) 0x100 else has (entry_mode e) 0x4.

Definition may_write (s : FsState) (e : FsEntry) : bool :=
  if current_privileged s then true
  else if current_uid s =? fe_owner e then has (entry_mode e) 0x80 else has (entry_mode e) 0x2.

(** ** The directory on disk *)

(** [allocate_entry] fills a free slot; the new name is NUL-padded. *)
Definition allocate_entry (name : list Z) (type mode : Z) : FS (option nat) :=
  fun s =>
    if (negb (valid_name name) ||
        match find_entry (entries s) name with Some _ => true | None => false end ||
        negb (parent_directory_exists (entries s) name))%bool
    then (None, s)
    else match free_from (entries s) 0 with
         | None => (None, s)
         | Some index =>
             let e := mkEntry 1 type (Z.land mode 0x1FF) (current_uid s)
                              (strncpy name 95 ++ [0]) 0 0 0 0 0 in
             (Some index, with_entries (<[index := e]> (entries s)) s)
         end.

(** Four entries per sector: read, patch, write back. *)
Definition save_entry (index : nat) : FS bool :=
  sector <- alloc SECTOR_SIZE ;;
  if sector =? 0 then ret false else
  let per_sector := 4%nat in
  let sector_lba := u32 (FS_DIRECTORY_LBA + Z.of_nat (index / per_sector)) in
  success <- (data <- ata_read_sector sector_lba ;;
              match data with
              | None => ret false
              | Some data =>
                  e <- gets (fun s => entry_at (entries s) index) ;;
                  ata_write_sector sector_lba
                    (blit ((index mod per_sector) * ENTRY_SIZE) (encode_entry e) data)
              end) ;;
  free sector ;;;
  ret success.

(** Write [n] empty directory sectors from [lba] on. *)
Fixpoint clear_sectors (n : nat) (lba : Z) : FS bool :=
  match n with
  | O => ret true
  | S n =>
      ok <- ata_write_sector lba (replicate 512 0) ;;
      if (ok : bool) then clear_sectors n (lba + 1) else ret false
  end.

Definition format_v2 : FS bool :=
  fun s =>
    if (match entries s with [] => true | _ => false end ||
        (sector_count s <=? FS_DATA_LBA + 128))%bool
    then (false, s)
    else
      let block := mkSuper MAGIC FS_VERSION FS_DIRECTORY_LBA (Z.of_nat FS_DIRECTORY_SECTORS)
                     FS_DATA_LBA (Z.of_nat FS_MAX_ENTRIES) (sector_count s) (replicate 480 0) in
      (modify (fun s => with_entries (replicate FS_MAX_ENTRIES zero_entry)
                          (with_superblock block s)) ;;;
       ok <- ata_write_sector FS_SUPER_LBA (encode_super block) ;;
       if negb ok then ret false else
       empty <- alloc SECTOR_SIZE ;;
       if empty =? 0 then ret false else
       success <- clear_sectors FS_DIRECTORY_SECTORS FS_DIRECTORY_LBA ;;
       free empty ;;;
       modify (with_mounted success) ;;;
       ret success) s.

(** ** File contents *)

(** The copy loop of [read_raw_data]: at most one sector per round. *)
Fixpoint read_loop (fuel : nat) (start_lba offset capacity : Z) (buffer : list Z)
  : FS (option (list Z)) :=
  let copied := Z.of_nat (length buffer) in
  if copied <? capacity then
    match fuel with
    | O => ret None
    | S fuel =>
        let position := u64 (offset + copied) in
        data <- ata_read_sector (u32 (start_lba + u32 (position / SECTOR_SIZE))) ;;
        match data with
        | None => ret None
        | Some data =>
            let sector_offset := position mod SECTOR_SIZE in
            let chunk := Z.min (capacity - copied) (SECTOR_SIZE - sector_offset) in
            read_loop fuel start_lba offset capacity
              (buffer ++ slice (Z.to_nat sector_offset) (Z.to_nat chunk) data)
        end
    end
  else ret (Some buffer).

(** Every round but the first and the last copies a whole sector. *)
Definition read_fuel (capacity : Z) : nat := S (S (Z.to_nat (capacity / SECTOR_SIZE))).

Definition read_raw_data (start_lba size offset capacity : Z) : FS (option (list Z)) :=
  if size <=? offset then ret (Some []) else
  let available := size - offset in
  let capacity := Z.min capacity available in
  sector <- alloc SECTOR_SIZE ;;
  if sector =? 0 then ret None else
  data <- read_loop (read_fuel capacity) start_lba offset capacity [] ;;
  free sector ;;;
  ret (match data with
       | Some data => if 0x7FFFFFFF <? Z.of_nat (length data) then None else Some data
       | None => None
       end).

Definition read_entry_data (e : FsEntry) (offset capacity : Z) : FS (option (list Z)) :=
  read_raw_data (fe_start_lba e) (fe_size e) offset capacity.

(** One round of [resolve_entry]'s loop: the name the symlink stands for. *)
Definition link_name (resolved target : list Z) : option (list Z) :=
  if negb (valid_symlink_target target) then None else
  let name :=
    if char_at target =? SLASH then Some (cstr (tail target))
    else
      let directory_length := default O (last_slash resolved 0 None) in
      if (directory_length =? 0)%nat then Some (cstr target)
      else if (FS_NAME_MAX <? directory_length + 1 + strlen target)%nat then None
      else Some (take directory_length resolved ++ [SLASH] ++ cstr target) in
  match name with
  | Some name => if valid_name name then Some name else None
  | None => None
  end.

(** [depth] rounds are left. *)
Fixpoint resolve_loop (depth : nat) (resolved : list Z) : FS (option nat) :=
  match depth with
  | O => ret None
  | S depth =>
      found <- gets (fun s => find_entry (entries s) resolved) ;;
      match found with
      | None => ret None
      | Some index =>
          e <- gets (fun s => entry_at (entries s) index) ;;
          if negb (fe_type e =? FS_TYPE_SYMLINK) then ret (Some index)
          else if ((fe_size e =? 0) || (Z.of_nat FS_NAME_MAX + 1 <? fe_size e))%bool then ret None
          else
            target <- read_entry_data e 0 (fe_size e) ;;
            match target with
            | None => ret None
            | Some target =>
                if negb (Z.of_nat (length target) =? fe_size e) then ret None
                else match link_name resolved target with
                     | None => ret None
                     | Some name => resolve_loop depth name
                     end
            end
      end
  end.

Definition resolve_entry (name : list Z) : FS (option nat) := resolve_loop 8 (cstr name).

(** The block loop of [write_entry_data]: [n] blocks from [lba] on. *)
Fixpoint write_blocks (n : nat) (lba : Z) (data : list Z) : FS bool :=
  match n with
  | O => ret true
  | S n =>
      let chunk := take 512 data in
      ok <- ata_write_sector lba (chunk ++ replicate (512 - length chunk) 0) ;;
      if (ok : bool) then write_blocks n (u32 (lba + 1)) (drop 512 data) else ret false
  end.

(** Sectors needed for [size] bytes, at least one. *)
Definition sectors_for (size : Z) : Z :=
  let required := u64 (size + SECTOR_SIZE - 1) / SECTOR_SIZE in
  if required =? 0 then 1 else required.

Definition write_entry_data (index : nat) (data : list Z) : FS bool :=
  let size := Z.of_nat (length data) in
  let required := sectors_for size in
  if 0xFFFFFFFF <? required then ret false else
  e <- gets (fun s => entry_at (entries s) index) ;;
  (if fe_capacity_sectors e <? required
   then next <- gets (fun s => next_data_lba (entries s)) ;;
        edit_entry index (with_extent next required)
   else ret tt) ;;;
  e <- gets (fun s => entry_at (entries s) index) ;;
  count <- gets sector_count ;;
  if count <? fe_start_lba e + required then ret false else
  sector <- alloc SECTOR_SIZE ;;
  if sector =? 0 then ret false else
  success <- write_blocks (Z.to_nat required) (fe_start_lba e) data ;;
  free sector ;;;
  if negb success then ret false else
  edit_entry index (with_size_modified size) ;;;
  save_entry index.

(** ** Operations *)

Definition fs_format : FS bool := format_v2.

Definition fs_is_ready (s : FsState) : bool := mounted s.

Definition fs_read_at (name : list Z) (offset capacity : Z) : FS (option (list Z)) :=
  ready <- gets mounted ;;
  if (negb ready || negb (valid_name name))%bool then ret None else
  found <- resolve_entry name ;;
  match found with
  | None => ret None
  | Some index =>
      e <- gets (fun s => entry_at (entries s) index) ;;
      readable <- gets (fun s => may_read s e) ;;
      if (negb (fe_type e =? FS_TYPE_FILE) || negb readable)%bool then ret None
      else read_entry_data e offset capacity
  end.

Definition fs_read (name : list Z) (capacity : Z) : FS (option (list Z)) :=
  fs_read_at name 0 capacity.

(** The entry a write goes to: a new one, or the target of a symlink.  [save]
    is whether a new entry is saved before its data ([fs_write_at]). *)
Definition entry_for_write (name : list Z) (save : bool) : FS (option nat) :=
  found <- gets (fun s => find_entry (entries s) name) ;;
  match found with
  | None =>
      index <- allocate_entry name FS_TYPE_FILE 0x1B0 ;;
      match index with
      | None => ret None
      | Some index =>
          if save then saved <- save_entry index ;; ret (if (saved : bool) then Some index else None)
          else ret (Some index)
      end
  | Some index =>
      e <- gets (fun s => entry_at (entries s) index) ;;
      if fe_type e =? FS_TYPE_SYMLINK then resolve_entry name else ret (Some index)
  end.

Definition fs_write (name data : list Z) : FS bool :=
  ready <- gets mounted ;;
  if (negb ready || negb (valid_name name))%bool then ret false else
  found <- entry_for_write name false ;;
  match found with
  | None => ret false
  | Some index =>
      e <- gets (fun s => entry_at (entries s) index) ;;
      writable <- gets (fun s => may_write s e) ;;
      if (negb (fe_type e =? FS_TYPE_FILE) || negb writable)%bool then ret false
      else write_entry_data index data
  end.

(** [fs_write_at] moves a file that outgrew its extent: [n] blocks are left to
    copy, from block [block] on. *)
Fixpoint relocate_blocks (n : nat) (block old_start old_capacity replacement : Z) : FS bool :=
  match n with
  | O => ret true
  | S n =>
      sector <- (if ((block <? old_capacity) && negb (old_start =? 0))%bool
                 then ata_read_sector (u32 (old_start + block))
                 else ret (Some (replicate 512 0))) ;;
      match sector with
      | None => ret false
      | Some sector =>
          ok <- ata_write_sector (u32 (replacement + block)) sector ;;
          if (ok : bool) then relocate_blocks n (block + 1) old_start old_capacity replacement
          else ret false
      end
  end.

(** Zero the bytes between the old end of the file and [offset]. *)
Fixpoint fill_gap (fuel : nat) (start_lba gap offset : Z) : FS bool :=
  if gap <? offset then
    match fuel with
    | O => ret false
    | S fuel =>
        let lba := u32 (start_lba + u32 (gap / SECTOR_SIZE)) in
        let within := gap mod SECTOR_SIZE in
        let chunk := Z.min (offset - gap) (SECTOR_SIZE - within) in
        data <- ata_read_sector lba ;;
        match data with
        | None => ret false
        | Some data =>
            ok <- ata_write_sector lba
                    (blit (Z.to_nat within) (replicate (Z.to_nat chunk) 0) data) ;;
            if (ok : bool) then fill_gap fuel start_lba (u64 (gap + chunk)) offset else ret false
        end
    end
  else ret true.

(** Write [data] at [position], a sector or the part of one per round. *)
Fixpoint write_loop (fuel : nat) (start_lba old_size position : Z) (data : list Z) : FS bool :=
  match data with
  | [] => ret true
  | _ =>
      match fuel with
      | O => ret false
      | S fuel =>
          let lba := u32 (start_lba + u32 (position / SECTOR_SIZE)) in
          let within := position mod SECTOR_SIZE in
          let chunk := Z.min (Z.of_nat (length data)) (SECTOR_SIZE - within) in
          sector <-
            (if (negb (within =? 0) || negb (chunk =? SECTOR_SIZE))%bool
             then old <- ata_read_sector lba ;;
                  ret (match old with
                       | None => None
                       | Some old =>
                           if old_size <? position then
                             let sector_start := position - within in
                             let zero_from :=
                               if sector_start <? old_size then old_size - sector_start else 0 in
                             Some (if zero_from <? within
                                   then blit (Z.to_nat zero_from)
                                          (replicate (Z.to_nat (within - zero_from)) 0) old
                                   else old)
                           else Some old
                       end)
             else ret (Some (replicate 512 0))) ;;
          match sector with
          | None => ret false
          | Some sector =>
              ok <- ata_write_sector lba
                      (blit (Z.to_nat within) (take (Z.to_nat chunk) data) sector) ;;
              if (ok : bool)
              then write_loop fuel start_lba old_size (u64 (position + chunk))
                     (drop (Z.to_nat chunk) data)
              else ret false
          end
      end
  end.

(** Grow the extent of entry [index] to [required] sectors, if it is smaller. *)
Definition grow_extent (index : nat) (required : Z) : FS bool :=
  e <- gets (fun s => entry_at (entries s) index) ;;
  if fe_capacity_sectors e <? required then
    replacement <- gets (fun s => next_data_lba (entries s)) ;;
    count <- gets sector_count ;;
    if count <? replacement + required then ret false else
    moved <- relocate_blocks (Z.to_nat required) 0 (fe_start_lba e)
               (fe_capacity_sectors e) replacement ;;
    if (moved : bool) then edit_entry index (with_extent replacement required) ;;; ret true
    else ret false
  else ret true.

(** [fs_write_at] once the entry is known. *)
Definition write_at_entry (index : nat) (offset : Z) (data : list Z) : FS bool :=
  let size := Z.of_nat (length data) in
  e <- gets (fun s => entry_at (entries s) index) ;;
  let stop := offset + size in
  let new_size := if fe_size e <? stop then stop else fe_size e in
  let required := sectors_for new_size in
  if 0xFFFFFFFF <? required then ret false else
  sector <- alloc SECTOR_SIZE ;;
  if sector =? 0 then ret false else
  ok <- grow_extent index required ;;
  if negb ok then free sector ;;; ret false else
  e <- gets (fun s => entry_at (entries s) index) ;;
  ok <- fill_gap (read_fuel offset) (fe_start_lba e) (fe_size e) offset ;;
  if negb ok then free sector ;;; ret false else
  ok <- write_loop (read_fuel size) (fe_start_lba e) (fe_size e) offset data ;;
  free sector ;;;
  if negb ok then ret false else
  edit_entry index (with_size_modified new_size) ;;;
  save_entry index.

Definition fs_write_at (name : list Z) (offset : Z) (data : list Z) : FS bool :=
  ready <- gets mounted ;;
  if (negb ready || negb (valid_name name) || (u64 (offset + Z.of_nat (length data)) <? offset))%bool
  then ret false else
  found <- entry_for_write name true ;;
  match found with
  | None => ret false
  | Some index =>
      e <- gets (fun s => entry_at (entries s) index) ;;
      writable <- gets (fun s => may_write s e) ;;
      if (negb (fe_type e =? FS_TYPE_FILE) || negb writable)%bool then ret false
      else write_at_entry index offset data
  end.

(** Some other used entry lies under directory [name]. *)
Definition has_child (entries : list FsEntry) (index : nat) (name : list Z) : bool :=
  let length := strlen name in
  existsb (fun '(candidate, e) =>
             (entry_used e && negb (candidate =? index)%nat &&
              (strncmp (fe_name e) name length =? 0) &&
              (char_of (fe_name e) length =? SLASH))%bool)
          (imap (fun i e => (i, e)) entries).

Definition fs_delete (name : list Z) : FS bool :=
  ready <- gets mounted ;;
  if (negb ready || negb (valid_name name))%bool then ret false else
  found <- gets (fun s => find_entry (entries s) name) ;;
  match found with
  | None => ret false
  | Some index =>
      e <- gets (fun s => entry_at (entries s) index) ;;
      writable <- gets (fun s => may_write s e) ;;
      if negb writable then ret false else
      children <- gets (fun s => has_child (entries s) index name) ;;
      if ((fe_type e =? FS_TYPE_DIRECTORY) && children)%bool then ret false else
      edit_entry index (fun _ => zero_entry) ;;;
      save_entry index
  end.

Definition fs_mkdir (name : list Z) (mode : Z) : FS bool :=
  ready <- gets mounted ;;
  if (negb ready || negb (valid_name name) || has mode (Z.lnot 0x1FF))%bool then ret false else
  index <- allocate_entry name FS_TYPE_DIRECTORY (if mode =? 0 then 0x1FF else mode) ;;
  match index with
  | None => ret false
  | Some index => save_entry index
  end.

Definition fs_symlink (target name : list Z) : FS bool :=
  ready <- gets mounted ;;
  found <- gets (fun s => find_entry (entries s) name) ;;
  if (negb ready || negb (valid_symlink_target target) || negb (valid_name name) ||
      match found with Some _ => true | None => false end)%bool then ret false else
  ok <- fs_write name (cstr target) ;;
  if negb ok then ret false else
  found <- gets (fun s => find_entry (entries s) name) ;;
  match found with
  | None => ret false
  | Some index =>
      edit_entry index (fun e => with_flags 0x1FF (with_type FS_TYPE_SYMLINK e)) ;;;
      save_entry index
  end.

Definition fs_readlink (name : list Z) (capacity : Z) : FS (option (list Z)) :=
  ready <- gets mounted ;;
  if (negb ready || (capacity =? 0) || negb (valid_name name))%bool then ret None else
  found <- gets (fun s => find_entry (entries s) name) ;;
  match found with
  | None => ret None
  | Some index =>
      e <- gets (fun s => entry_at (entries s) index) ;;
      readable <- gets (fun s => may_read s e) ;;
      if (negb (fe_type e =? FS_TYPE_SYMLINK) || negb readable)%bool then ret None
      else read_entry_data e 0 capacity
  end.

Definition info_of (e : FsEntry) : FsFileInfo :=
  mkInfo (cstr (fe_name e)) (fe_size e) (entry_mode e) (fe_owner e) (fe_type e).

Definition fs_path_info (name : list Z) (follow_symlink : bool) : FS (option FsFileInfo) :=
  ready <- gets mounted ;;
  if (negb ready || negb (valid_name name))%bool then ret None else
  found <- (if follow_symlink then resolve_entry name
            else gets (fun s => find_entry (entries s) name)) ;;
  match found with
  | None => ret None
  | Some index => e <- gets (fun s => entry_at (entries s) index) ;; ret (Some (info_of e))
  end.

Definition fs_chmod (name : list Z) (mode : Z) : FS bool :=
  ready <- gets mounted ;;
  if (negb ready || negb (valid_name name) || has mode (Z.lnot 0x1FF))%bool then ret false else
  found <- gets (fun s => find_entry (entries s) name) ;;
  match found with
  | None => ret false
  | Some index =>
      e <- gets (fun s => entry_at (entries s) index) ;;
      allowed <- gets (fun s => current_privileged s || (current_uid s =? fe_owner e))%bool ;;
      if negb allowed then ret false else
      edit_entry index (fun e => with_flags (Z.lor (Z.land (fe_flags e) (u16 (Z.lnot 0x1FF))) mode) e) ;;;
      save_entry index
  end.

Definition fs_chown (name : list Z) (owner : Z) : FS bool :=
  ready <- gets mounted ;;
  privileged <- gets current_privileged ;;
  if (negb ready || negb privileged || negb (valid_name name))%bool then ret false else
  found <- gets (fun s => find_entry (entries s) name) ;;
  match found with
  | None => ret false
  | Some index => edit_entry index (with_owner owner) ;;; save_entry index
  end.

Definition fs_set_identity (uid : Z) (privileged : bool) : FS unit :=
  modify (with_identity uid privileged).

Definition fs_current_uid (s : FsState) : Z := current_uid s.

Definition fs_file_count (s : FsState) : Z :=
  if mounted s then Z.of_nat (length (List.filter entry_used (entries s))) else 0.

(** The [visible_index]-th used entry. *)
Definition fs_file_info (visible_index : Z) (s : FsState) : option FsFileInfo :=
  if (negb (mounted s) || (visible_index <? 0))%bool then None
  else info_of <$> List.filter entry_used (entries s) !! Z.to_nat visible_index.

(** ** Mounting, and migration of version 1 volumes *)

(** Read [n] consecutive sectors from [lba] on: success, and the bytes of the
    sectors read. *)
Fixpoint read_sectors (n : nat) (lba : Z) (acc : list Z) : FS (bool * list Z) :=
  match n with
  | O => ret (true, acc)
  | S n =>
      data <- ata_read_sector lba ;;
      match data with
      | None => ret (false, acc)
      | Some data => read_sectors n (lba + 1) (acc ++ data)
      end
  end.

(** [n] records of [width] bytes. *)
Fixpoint records {A} (n width : nat) (decode : list Z -> A) (l : list Z) : list A :=
  match n with
  | O => []
  | S n => decode (take width l) :: records n width decode (drop width l)
  end.

(** A slot of the backup array: the old entry, the buffer and what it holds. *)
Record LegacyBackup := mkBackup { lb_entry : LegacyFsEntry; lb_pointer : Z; lb_data : list Z }.

Definition zero_legacy : LegacyFsEntry := mkLegacy 0 0 0 (replicate 40 0) 0 0 0 0 0.

Definition legacy_used (e : LegacyFsEntry) : bool := negb (lf_used e =? 0).

(** [loaded && index < FS_LEGACY_MAX_ENTRIES]: back the files up in memory. *)
Fixpoint backup_files (legacy : list LegacyFsEntry) : FS (bool * list LegacyBackup) :=
  match legacy with
  | [] => ret (true, [])
  | e :: legacy =>
      if negb (legacy_used e) then
        let! (loaded, rest) := backup_files legacy in
        ret (loaded, mkBackup zero_legacy 0 [] :: rest)
      else if lf_size e =? 0 then
        let! (loaded, rest) := backup_files legacy in
        ret (loaded, mkBackup e 0 [] :: rest)
      else
        pointer <- alloc (lf_size e) ;;
        if pointer =? 0 then ret (false, [mkBackup e 0 []]) else
        data <- read_raw_data (lf_start_lba e) (lf_size e) 0 (lf_size e) ;;
        let count := match data with Some d => Z.of_nat (length d) | None => -1 end in
        if negb (count =? s32 (lf_size e)) then ret (false, [mkBackup e pointer []])
        else
          let! (loaded, rest) := backup_files legacy in
          ret (loaded, mkBackup e pointer (default [] data) :: rest)
  end.

Fixpoint release_buffers (backup : list LegacyBackup) : FS unit :=
  match backup with
  | [] => ret tt
  | b :: backup =>
      (if lb_pointer b =? 0 then ret tt else free (lb_pointer b)) ;;; release_buffers backup
  end.

Definition release_legacy_backup (pointer : Z) (backup : list LegacyBackup) : FS unit :=
  if pointer =? 0 then ret tt else release_buffers backup ;;; free pointer.

Definition restore_attributes (e : LegacyFsEntry) : FS unit :=
  fs_chmod (lf_name e) (Z.land (lf_flags e) 0x1FF) ;;;
  fs_chown (lf_name e) (lf_owner e) ;;;
  ret tt.

(** The directories of one depth. *)
Fixpoint migrate_directories_at (depth : Z) (backup : list LegacyBackup) : FS bool :=
  match backup with
  | [] => ret true
  | b :: backup =>
      let e := lb_entry b in
      if (negb (legacy_used e) || negb (lf_type e =? FS_TYPE_DIRECTORY) ||
          negb (path_depth (lf_name e) =? depth))%bool
      then migrate_directories_at depth backup
      else
        existing <- fs_path_info (lf_name e) false ;;
        ok <- match existing with
              | Some _ => ret true
              | None => fs_mkdir (lf_name e) (lf_flags e)
              end ;;
        if negb ok then ret false else
        restore_attributes e ;;;
        migrate_directories_at depth backup
  end.

(** [depth] from [FS_NAME_MAX - n] to [FS_NAME_MAX - 1]. *)
Fixpoint migrate_directories (n : nat) (backup : list LegacyBackup) : FS bool :=
  match n with
  | O => ret true
  | S n =>
      ok <- migrate_directories_at (Z.of_nat (FS_NAME_MAX - S n)) backup ;;
      if (ok : bool) then migrate_directories n backup else ret false
  end.

(** Files and symlinks; a version 1 symlink target is relative to the root. *)
Fixpoint migrate_files (backup : list LegacyBackup) : FS bool :=
  match backup with
  | [] => ret true
  | b :: backup =>
      let e := lb_entry b in
      if (negb (legacy_used e) || (lf_type e =? FS_TYPE_DIRECTORY))%bool
      then migrate_files backup
      else
        ok <- (if lf_type e =? FS_TYPE_SYMLINK then
                 if ((lf_size e =? 0) || (Z.of_nat FS_NAME_MAX <? lf_size e))%bool then ret false
                 else fs_symlink (SLASH :: lb_data b) (lf_name e)
               else fs_write (lf_name e) (lb_data b)) ;;
        if negb ok then ret false else
        restore_attributes e ;;;
        migrate_files backup
  end.

(** [sizeof(LegacyBackup)] is 72. *)
Definition migrate_legacy : FS bool :=
  backup_pointer <- alloc (64 * 72) ;;
  legacy_pointer <- alloc (64 * 64) ;;
  if ((backup_pointer =? 0) || (legacy_pointer =? 0))%bool
  then free backup_pointer ;;; free legacy_pointer ;;; ret false else
  let! (loaded, table) := read_sectors FS_LEGACY_DIRECTORY_SECTORS FS_DIRECTORY_LBA [] in
  let! (loaded, backup) :=
    (if (loaded : bool) then backup_files (records FS_LEGACY_MAX_ENTRIES 64 decode_legacy table)
     else ret (false, [])) in
  free legacy_pointer ;;;
  formatted <- (if (loaded : bool) then format_v2 else ret false) ;;
  if negb formatted then release_legacy_backup backup_pointer backup ;;; ret false else
  ok <- migrate_directories FS_NAME_MAX backup ;;
  success <- (if (ok : bool) then migrate_files backup else ret false) ;;
  release_legacy_backup backup_pointer backup ;;;
  ret success.

Definition magic_matches (b : FsSuperblock) : bool := bool_decide (sb_magic b = MAGIC).

(** The superblock of a version 1 volume. *)
Definition is_legacy (b : FsSuperblock) : bool :=
  ((sb_version b =? FS_LEGACY_VERSION) && (sb_directory_lba b =? FS_DIRECTORY_LBA) &&
   (sb_directory_sectors b =? Z.of_nat FS_LEGACY_DIRECTORY_SECTORS) &&
   (sb_data_lba b =? FS_LEGACY_DATA_LBA) &&
   (sb_max_entries b =? Z.of_nat FS_LEGACY_MAX_ENTRIES))%bool.

Definition is_current (b : FsSuperblock) : bool :=
  ((sb_version b =? FS_VERSION) && (sb_directory_lba b =? FS_DIRECTORY_LBA) &&
   (sb_directory_sectors b =? Z.of_nat FS_DIRECTORY_SECTORS) &&
   (sb_data_lba b =? FS_DATA_LBA) && (sb_max_entries b =? Z.of_nat FS_MAX_ENTRIES))%bool.

Definition with_total (v : Z) (b : FsSuperblock) : FsSuperblock :=
  mkSuper (sb_magic b) (sb_version b) (sb_directory_lba b) (sb_directory_sectors b)
          (sb_data_lba b) (sb_max_entries b) v (sb_reserved b).

Definition fs_init : FS bool :=
  modify (fun s => with_identity 0 true (with_mounted false s)) ;;;
  pointer <- alloc (Z.of_nat FS_MAX_ENTRIES * Z.of_nat ENTRY_SIZE) ;;
  modify (with_entries (if pointer =? 0 then [] else replicate FS_MAX_ENTRIES zero_entry)) ;;;
  if pointer =? 0 then ret false else
  sector <- ata_read_sector FS_SUPER_LBA ;;
  match sector with
  | None => format_v2
  | Some sector =>
      let block := decode_super sector in
      modify (with_superblock block) ;;;
      if negb (magic_matches block) then format_v2
      else if is_legacy block then migrate_legacy
      else if negb (is_current block) then ret false
      else
        let! (loaded, table) := read_sectors FS_DIRECTORY_SECTORS FS_DIRECTORY_LBA [] in
        let rest := replicate (FS_MAX_ENTRIES * ENTRY_SIZE - length table) 0 in
        modify (with_entries (records FS_MAX_ENTRIES ENTRY_SIZE decode_entry (table ++ rest))) ;;;
        if negb loaded then ret false else
        count <- gets sector_count ;;
        modify (with_superblock (with_total count block)) ;;;
        ata_write_sector FS_SUPER_LBA (encode_super (with_total count block)) ;;;
        modify (with_mounted true) ;;;
        ret true
  end.

End filesystem.
