(* ===== verification/FsNames.v ===== *)
(** * kernel/filesystem.c: names and the directory table

    What [valid_name], [last_slash], [find_entry] and [has_child] compute, in
    terms of paths as lists of segments. *)

From S2P Require Import Prelude Runtime Interfaces Filesystem.

(** ** Paths *)

(** Splitting at every '/'. *)
Fixpoint segments (l : list Z) : list (list Z) :=
  match l with
  | [] => [[]]
  | c :: l =>
      if c =? SLASH then [] :: segments l
      else match segments l with
           | s :: rest => (c :: s) :: rest
           | [] => [[c]]
           end
  end.

(** A segment the file system accepts. *)
Definition good_segment (s : list Z) : Prop := s <> [] /\ s <> [DOT; DOT].

Definition printable (c : Z) : Prop := 32 <= c <= 126.

(** What a NovaFS path is. *)
Definition path_ok (p : list Z) : Prop :=
  (0 < length p <= FS_NAME_MAX)%nat /\ Forall printable p /\ Forall good_segment (segments p).

Lemma segments_nonempty l : segments l <> [].
Proof.
  destruct l as [|c l]; simpl; [done|]. destruct (c =? SLASH); [done|].
  by destruct (segments l).
Qed.

Lemma segments_no_slash l : Forall (fun c => c <> SLASH) l -> segments l = [l].
Proof.
  induction 1 as [|c l Hc Hl IH]; simpl; [done|].
  rewrite (proj2 (Z.eqb_neq _ _) Hc). by rewrite IH.
Qed.

Lemma segments_app_slash l1 l2 :
  segments (l1 ++ SLASH :: l2) = segments l1 ++ segments l2.
Proof.
  induction l1 as [|c l1 IH]; simpl; [done|].
  destruct (c =? SLASH); rewrite IH; [done|].
  pose proof (segments_nonempty l1). by destruct (segments l1).
Qed.

(** The segment between two indices. *)
Definition segment_of (name : list Z) (i j : nat) : list Z := take (j - i) (drop i name).

Lemma dotdot_spec name i j :
  (i <= j <= length name)%nat ->
  dotdot name i j = bool_decide (segment_of name i j = [DOT; DOT]).
Proof.
  intros Hij. unfold dotdot, char_of, segment_of.
  destruct ((j - i)%nat =? 2)%nat eqn:E; simpl.
  - apply Nat.eqb_eq in E. rewrite E.
    destruct (drop i name) as [|a [|b l]] eqn:Ed;
      try (apply (f_equal length) in Ed; rewrite length_drop in Ed; simpl in Ed; lia).
    assert (name !! i = Some a) as Ha by (rewrite <- (Nat.add_0_r i), <- lookup_drop, Ed; done).
    assert (name !! (i + 1)%nat = Some b) as Hb by (rewrite <- lookup_drop, Ed; done).
    rewrite (nth_lookup_Some _ _ _ _ Ha), (nth_lookup_Some _ _ _ _ Hb). simpl.
    rewrite take_0. apply eq_true_iff_eq. rewrite andb_true_iff, !Z.eqb_eq, bool_decide_eq_true.
    split; [intros [-> ->]; done|]. by intros [= -> ->].
  - symmetry. apply bool_decide_eq_false. intros Heq%(f_equal length).
    rewrite length_take, length_drop in Heq. simpl in Heq. lia.
Qed.

(** The loop of [valid_name] with [done ++ rest] the whole name, [done] read. *)
Lemma valid_name_loop_spec name rest index segment :
  (segment <= index)%nat -> drop index name = rest ->
  (forall k c, (segment <= k < index)%nat -> name !! k = Some c -> c <> SLASH) ->
  (index <= length name)%nat ->
  match valid_name_loop name rest index segment with
  | None => ~ (Forall printable rest /\
               Forall good_segment (removelast (segments (drop segment name))))
  | Some last =>
      (segment <= last <= length name)%nat /\ Forall printable rest /\
      Forall good_segment (removelast (segments (drop segment name))) /\
      segments (drop segment name) =
        removelast (segments (drop segment name)) ++ [drop last name]
  end.
Proof.
  revert index segment. induction rest as [|c rest IH]; intros index segment Hsi Hd Hns Hlen.
  - assert (index = length name) as Hi.
    { apply (f_equal length) in Hd. rewrite length_drop in Hd. simpl in Hd. lia. }
    simpl. assert (segments (drop segment name) = [drop segment name]) as ->.
    { apply segments_no_slash. apply Forall_lookup. intros k x Hk.
      rewrite lookup_drop in Hk. apply (Hns (segment + k)%nat); [|done].
      apply lookup_lt_Some in Hk. lia. }
    simpl. split_and!; [lia|lia|done|done|done].
  - assert (name !! index = Some c) as Hc.
    { by rewrite <- (Nat.add_0_r index), <- lookup_drop, Hd. }
    assert (drop (S index) name = rest) as Hd'.
    { replace (S index) with (index + 1)%nat by lia. by rewrite <- drop_drop, Hd. }
    assert (S index <= length name)%nat by (apply lookup_lt_Some in Hc; lia).
    cbn [valid_name_loop].
    destruct ((c <? 32) || (126 <? c))%bool eqn:Ep.
    { intros [Hp _]. apply Forall_cons in Hp as [Hp _]. unfold printable in Hp. lia. }
    assert (Hpc : printable c) by (unfold printable; lia).
    destruct (c =? SLASH) eqn:Es.
    + apply Z.eqb_eq in Es. subst c.
      assert (Hseg : drop segment name = segment_of name segment index ++ SLASH :: rest).
      { unfold segment_of. rewrite <- (take_drop (index - segment) (drop segment name)) at 1.
        f_equal. rewrite drop_drop. replace (segment + (index - segment))%nat with index by lia.
        done. }
      assert (Hns' : Forall (fun c => c <> SLASH) (segment_of name segment index)).
      { apply Forall_lookup. intros k x Hk. unfold segment_of in Hk.
        apply lookup_take_Some in Hk as [Hk Hlt]. rewrite lookup_drop in Hk.
        apply (Hns (segment + k)%nat); [lia|done]. }
      assert (Hsegs : segments (drop segment name) =
                      segment_of name segment index :: segments rest).
      { rewrite Hseg, segments_app_slash, (segments_no_slash _ Hns'). done. }
      assert (Hrl : removelast (segments (drop segment name)) =
                    segment_of name segment index :: removelast (segments rest)).
      { rewrite Hsegs. simpl. pose proof (segments_nonempty rest). by destruct (segments rest). }
      rewrite (dotdot_spec name segment index) by lia.
      destruct ((index =? segment)%nat || bool_decide _)%bool eqn:Eb.
      * intros [_ Hg]. rewrite Hrl in Hg. apply Forall_cons in Hg as [[Hg1 Hg2] _].
        apply orb_true_iff in Eb as [Eb|Eb].
        -- apply Hg1. apply Nat.eqb_eq in Eb. subst. unfold segment_of.
           by rewrite Nat.sub_diag.
        -- apply bool_decide_eq_true in Eb. done.
      * specialize (IH (S index) (S index) ltac:(lia) Hd' ltac:(intros; lia) ltac:(lia)).
        rewrite Hd' in IH. rewrite Hrl.
        assert (Hgs : good_segment (segment_of name segment index)).
        { apply orb_false_iff in Eb as [E1 E2]. apply Nat.eqb_neq in E1.
          apply bool_decide_eq_false in E2. split; [|done].
          intros E%(f_equal length). unfold segment_of in E.
          rewrite length_take, length_drop in E. simpl in E. lia. }
        destruct (valid_name_loop name rest (S index) (S index)) as [lst|].
        -- destruct IH as (Hl & Hp & Hg & Heq). rewrite Hsegs.
           split_and!; [lia|lia|by constructor|by constructor|]. simpl. by rewrite Heq at 1.
        -- intros [Hp Hg]. apply IH. by apply Forall_cons in Hp as [_ ?];
             apply Forall_cons in Hg as [_ ?].
    + apply Z.eqb_neq in Es.
      specialize (IH (S index) segment ltac:(lia) Hd').
      destruct (valid_name_loop name rest (S index) segment) as [lst|].
      * destruct IH as (Hl & Hp & Hg & Heq); [|lia|].
        { intros k x Hk Hx. destruct (decide (k = index)) as [->|]; [congruence|].
          apply (Hns k); [lia|done]. }
        split_and!; try done; try lia. by constructor.
      * intros [Hp Hg]. apply IH; [|lia|].
        { intros k x Hk Hx. destruct (decide (k = index)) as [->|]; [congruence|].
          apply (Hns k); [lia|done]. }
        apply Forall_cons in Hp as [_ ?]. done.
Qed.

(** ** [valid_name] *)

Lemma char_of_cstr name (i : nat) :
  (i < strlen name)%nat -> char_of (cstr name) i = char_of name i.
Proof.
  intros Hi. unfold char_of, cstr. rewrite <- (take_drop (strlen name) name) at 3.
  rewrite app_nth1; [done|]. rewrite length_take. pose proof (strlen_le name). lia.
Qed.

Lemma dotdot_cstr name i j : (j <= strlen name)%nat -> dotdot (cstr name) i j = dotdot name i j.
Proof.
  intros Hj. unfold dotdot. destruct ((j - i)%nat =? 2)%nat eqn:E; simpl; [|done].
  apply Nat.eqb_eq in E. rewrite !char_of_cstr by lia. done.
Qed.

Lemma valid_name_loop_cstr name rest index segment :
  (index + length rest <= strlen name)%nat ->
  valid_name_loop name rest index segment = valid_name_loop (cstr name) rest index segment.
Proof.
  revert index segment. induction rest as [|c rest IH]; intros index segment Hlen; simpl; [done|].
  simpl in Hlen. rewrite dotdot_cstr by lia. by rewrite !IH by lia.
Qed.

(** The name check accepts exactly the well-formed paths: 1 to 95 printable
    characters in non-empty segments none of which is "..". *)
Lemma valid_name_spec name : valid_name name = true <-> path_ok (cstr name).
Proof.
  unfold valid_name, path_ok. rewrite length_cstr.
  destruct ((strlen name =? 0)%nat || (FS_NAME_MAX <? strlen name)%nat)%bool eqn:El.
  { split; [done|]. intros (Hl & _). lia. }
  rewrite valid_name_loop_cstr by (rewrite length_cstr; lia).
  pose proof (valid_name_loop_spec (cstr name) (cstr name) 0 0 ltac:(lia) eq_refl
                ltac:(intros; lia) ltac:(lia)) as Hs.
  rewrite !drop_0 in Hs.
  destruct (valid_name_loop (cstr name) (cstr name) 0 0) as [lst|].
  - destruct Hs as (Hl & Hp & Hg & Heq). rewrite length_cstr in Hl.
    rewrite <- dotdot_cstr, dotdot_spec by (rewrite ?length_cstr; lia).
    assert (segment_of (cstr name) lst (strlen name) = drop lst (cstr name)) as ->.
    { unfold segment_of. apply take_ge. rewrite length_drop, length_cstr. lia. }
    rewrite andb_true_iff, Nat.ltb_lt, negb_true_iff, bool_decide_eq_false.
    rewrite Heq, Forall_app, Forall_singleton. unfold good_segment at 2.
    assert ((lst < strlen name)%nat <-> drop lst (cstr name) <> []) as ->.
    { rewrite <- length_cstr. split; intros Hx.
      - intros E%(f_equal length). rewrite length_drop in E. simpl in E. lia.
      - destruct (decide (lst < length (cstr name))%nat); [done|]. destruct Hx.
        apply drop_ge. lia. }
    split; [|tauto]. intros ?. split; [lia|]. tauto.
  - split; [done|]. intros (_ & Hp & Hg). exfalso. apply Hs. split; [done|].
    destruct (segments (cstr name)) eqn:E using rev_ind; [constructor|].
    rewrite removelast_last. by apply Forall_app in Hg as [? _].
Qed.

(** ** The parent of a path *)

Lemma last_slash_spec l i found :
  match last_slash l i found with
  | None => found = None /\ Forall (fun c => c <> SLASH) l
  | Some n =>
      (found = Some n /\ Forall (fun c => c <> SLASH) l) \/
      (i <= n)%nat /\ exists leaf, l = take (n - i) l ++ SLASH :: leaf /\
                                   (n - i < length l)%nat /\ Forall (fun c => c <> SLASH) leaf
  end.
Proof.
  revert i found. induction l as [|c l IH]; intros i found; simpl.
  { destruct found; [left|]; done. }
  specialize (IH (S i) (if c =? SLASH then Some i else found)).
  destruct (last_slash l (S i) _) as [n|].
  - destruct IH as [[Hf Hl]|(Hi & leaf & Heq & Hlt & Hl)].
    + destruct (c =? SLASH) eqn:Ec.
      * apply Z.eqb_eq in Ec as ->. injection Hf as ->. right. split; [lia|]. exists l.
        rewrite Nat.sub_diag. simpl. split_and!; [done|lia|done].
      * left. split; [done|]. constructor; [lia|done].
    + right. split; [lia|]. exists leaf. replace (n - i)%nat with (S (n - S i)) by lia. simpl.
      split_and!; [by f_equal|lia|done].
  - destruct IH as [Hf Hl]. destruct (c =? SLASH) eqn:Ec; [done|].
    split; [done|]. constructor; [lia|done].
Qed.

(** The directory part of a path, if it has one. *)
Definition parent (p : list Z) : option (list Z) :=
  (fun n => take n p) <$> last_slash p 0 None.

Lemma parent_Some p d :
  parent p = Some d ->
  exists leaf, p = d ++ SLASH :: leaf /\ Forall (fun c => c <> SLASH) leaf.
Proof.
  unfold parent. pose proof (last_slash_spec p 0 None) as Hs.
  destruct (last_slash p 0 None) as [n|]; [|done]. intros [= <-].
  destruct Hs as [[? _]|(_ & leaf & Heq & _ & Hl)]; [done|].
  rewrite Nat.sub_0_r in Heq. exists leaf. done.
Qed.

Lemma parent_shorter p d : parent p = Some d -> (length d < length p)%nat.
Proof. intros (leaf & -> & _)%parent_Some. rewrite length_app. simpl. lia. Qed.

(** ** The directory table *)

(** Entry [i] of the table is in use for path [p]. *)
Definition at_path (es : list FsEntry) (i : nat) (p : list Z) (e : FsEntry) : Prop :=
  es !! i = Some e /\ entry_used e = true /\ cstr (fe_name e) = p.

Definition no_path (es : list FsEntry) (p : list Z) : Prop :=
  forall i e, ~ at_path es i p e.

Lemma find_from_spec es i name :
  match find_from es i name with
  | Some n => (i <= n)%nat /\ exists e, at_path es (n - i) (cstr name) e
  | None => no_path es (cstr name)
  end.
Proof.
  revert i. induction es as [|e es IH]; intros i; simpl.
  { intros j e [Hj _]. done. }
  destruct (entry_used e && (strcmp (fe_name e) name =? 0))%bool eqn:E.
  - split; [done|]. exists e. rewrite Nat.sub_diag. bool_hyps.
    split_and!; [done|done|]. by apply strcmp_eq_zero, Z.eqb_eq.
  - specialize (IH (S i)). destruct (find_from es (S i) name) as [n|].
    + destruct IH as (Hn & e' & He' & Hu & Hp). split; [lia|]. exists e'.
      split_and!; [|done|done]. by replace (n - i)%nat with (S (n - S i)) by lia.
    + intros [|j] e' (Hj & Hu & Hp); simpl in Hj.
      * injection Hj as ->. rewrite Hu in E. apply strcmp_eq_zero in Hp. rewrite Hp in E. done.
      * by apply (IH j e').
Qed.

Lemma find_entry_Some es name n :
  find_entry es name = Some n -> exists e, at_path es n (cstr name) e.
Proof.
  unfold find_entry. pose proof (find_from_spec es 0 name) as Hs. intros E. rewrite E in Hs.
  destruct Hs as [_ Hs]. by rewrite Nat.sub_0_r in Hs.
Qed.

Lemma find_entry_None es name : find_entry es name = None <-> no_path es (cstr name).
Proof.
  unfold find_entry. pose proof (find_from_spec es 0 name) as Hs.
  destruct (find_from es 0 name) as [n|]; [|done].
  split; [done|]. intros Hn. destruct Hs as (_ & e & He). by apply Hn in He.
Qed.

(** Two used entries never have the same path. *)
Definition unique_paths (es : list FsEntry) : Prop :=
  forall i j p e e', at_path es i p e -> at_path es j p e' -> i = j.

Lemma find_entry_at es name n e :
  unique_paths es -> at_path es n (cstr name) e -> find_entry es name = Some n.
Proof.
  intros Hu He. destruct (find_entry es name) as [m|] eqn:E.
  - apply find_entry_Some in E as [e' He']. f_equal. by eapply Hu.
  - apply find_entry_None in E. by apply E in He.
Qed.

Lemma entry_at_lookup es i e : es !! i = Some e -> entry_at es i = e.
Proof. intros H. unfold entry_at. by rewrite H. Qed.

Lemma free_from_spec es i :
  match free_from es i with
  | Some n => (i <= n)%nat /\ exists e, es !! (n - i)%nat = Some e /\ entry_used e = false
  | None => Forall (fun e => entry_used e = true) es
  end.
Proof.
  revert i. induction es as [|e es IH]; intros i; simpl; [done|].
  destruct (entry_used e) eqn:E.
  - specialize (IH (S i)). destruct (free_from es (S i)) as [n|].
    + destruct IH as (Hn & e' & He' & Hf). split; [lia|]. exists e'.
      by replace (n - i)%nat with (S (n - S i)) by lia.
    + by constructor.
  - split; [done|]. exists e. by rewrite Nat.sub_diag.
Qed.

(** A used directory with this path. *)
Definition is_directory (es : list FsEntry) (p : list Z) : Prop :=
  exists i e, at_path es i p e /\ fe_type e = FS_TYPE_DIRECTORY.

Lemma cstr_take_cstr name n : cstr (take n (cstr name)) = take n (cstr name).
Proof. apply cstr_id, Forall_take, cstr_no_nul. Qed.

Lemma parent_directory_exists_spec es name :
  parent_directory_exists es name = true ->
  match parent (cstr name) with None => True | Some d => is_directory es d end.
Proof.
  unfold parent_directory_exists, parent. pose proof (last_slash_spec (cstr name) 0 None) as Hs.
  destruct (last_slash (cstr name) 0 None) as [n|]; simpl; [|done].
  destruct Hs as [[? _]|(_ & leaf & _ & Hlt & _)]; [done|]. rewrite length_cstr in Hlt.
  destruct ((n =? 0)%nat || (FS_NAME_MAX <? n)%nat)%bool; [done|].
  destruct (find_entry es (take n name ++ [0])) as [i|] eqn:E; [|done].
  apply find_entry_Some in E as [e He]. intros Ht. exists i, e.
  destruct He as (He & Hu & Hp). rewrite (entry_at_lookup _ _ _ He) in Ht.
  split; [|lia]. split_and!; [done|done|]. rewrite Hp.
  assert (take n (cstr name) = take n name) as ->.
  { unfold cstr. rewrite take_take. f_equal. lia. }
  apply cstr_app_nul. assert (take n name = take n (cstr name)) as ->.
  { unfold cstr. rewrite take_take. f_equal. lia. }
  apply Forall_take, cstr_no_nul.
Qed.

(** When [has_child] says no, nothing else in the table lies directly under the
    directory. *)
Lemma has_child_false es i name :
  has_child es i name = false ->
  forall j e p, at_path es j p e -> j <> i -> parent p <> Some (cstr name).
Proof.
  unfold has_child. intros Hc j e p (He & Hu & Hp) Hij Hpar.
  apply not_true_iff_false in Hc. apply Hc. apply existsb_exists.
  exists (j, e). split.
  { apply list_elem_of_In, list_elem_of_lookup. exists j. by rewrite list_lookup_imap, He. }
  apply parent_Some in Hpar as (leaf & Hpl & _).
  assert (Hlen : (strlen name < strlen (fe_name e))%nat).
  { rewrite <- !length_cstr, Hp, Hpl, length_app. simpl. lia. }
  rewrite Hu, (proj2 (Nat.eqb_neq _ _) Hij). simpl. apply andb_true_iff; split; apply Z.eqb_eq.
  - apply strncmp_eq_zero. rewrite Hp, Hpl, <- length_cstr, take_app_length.
    by rewrite take_ge by lia.
  - rewrite <- char_of_cstr by done. rewrite Hp, Hpl, <- length_cstr. unfold char_of.
    rewrite app_nth2 by lia. by rewrite Nat.sub_diag.
Qed.

(** ** The first free data sector *)

Lemma next_data_from_spec es next :
  next <= next_data_from es next /\
  Forall (fun e => entry_used e = true ->
                   fe_start_lba e + fe_capacity_sectors e <= 0xFFFFFFFF ->
                   fe_start_lba e + fe_capacity_sectors e <= next_data_from es next) es /\
  (next <= 0xFFFFFFFF -> next_data_from es next <= 0xFFFFFFFF).
Proof.
  revert next. induction es as [|e es IH]; intros next; cbn [next_data_from].
  { split_and!; [lia|constructor|done]. }
  destruct (_ && _)%bool eqn:E.
  - destruct (IH (fe_start_lba e + fe_capacity_sectors e)) as (H1 & H2 & H3). bool_hyps.
    split_and!; [lia| |intros; lia]. constructor; [|done]. intros; lia.
  - destruct (IH next) as (H1 & H2 & H3). split_and!; [lia| |done]. constructor; [|done].
    intros Hu Hle. rewrite Hu in E. simpl in E. lia.
Qed.

Lemma next_data_lba_spec es :
  FS_DATA_LBA <= next_data_lba es <= 0xFFFFFFFF /\
  forall i e, es !! i = Some e -> entry_used e = true ->
    fe_start_lba e + fe_capacity_sectors e <= 0xFFFFFFFF ->
    fe_start_lba e + fe_capacity_sectors e <= next_data_lba es.
Proof.
  destruct (next_data_from_spec es FS_DATA_LBA) as (H1 & H2 & H3).
  unfold next_data_lba. split; [unfold FS_DATA_LBA in *; lia|].
  intros i e He. rewrite Forall_lookup in H2. by apply (H2 i).
Qed.
