(* ===== verification/FsFrame.v ===== *)
(** * kernel/filesystem.c: what each routine leaves alone

    [disk_frame W] and [frame W] say which parts of the state a routine keeps;
    [W] is the set of sectors it may write.  The routines that only move data
    between memory and disk are framed here, once and for all. *)

From S2P Require Import Prelude Runtime Interfaces Filesystem FsNames.

Section frames.
Context {D H : Type} `{!BlockDevice D} `{!Allocator H}.
Implicit Types (s : FsState (D:=D) (H:=H)) (W : Z -> Prop).

(** Everything but the disk and the heap is the same, and the disk only differs
    on [W]. *)
Record core_frame W s s' : Prop := {
  fr_superblock : superblock s' = superblock s;
  fr_entries : entries s' = entries s;
  fr_mounted : mounted s' = mounted s;
  fr_uid : current_uid s' = current_uid s;
  fr_privileged : current_privileged s' = current_privileged s;
  fr_count : bd_count (disk s') = bd_count (disk s);
  fr_healthy : bd_healthy (disk s) -> bd_healthy (disk s');
  fr_sector x : ~ W x -> bd_sector (disk s') x = bd_sector (disk s) x }.

(** The heap is untouched. *)
Definition disk_frame W s s' : Prop := core_frame W s s' /\ heap s' = heap s.

(** The heap holds the same blocks again, if it was intact. *)
Definition frame W s s' : Prop :=
  core_frame W s s' /\ (al_same (heap s) (heap s) -> al_same (heap s') (heap s)).

Definition nowhere : Z -> Prop := fun _ => False.

Lemma core_frame_refl W s : core_frame W s s.
Proof. by constructor. Qed.

Lemma core_frame_trans W s1 s2 s3 : core_frame W s1 s2 -> core_frame W s2 s3 -> core_frame W s1 s3.
Proof.
  intros [] []. constructor; try congruence; auto.
  intros x Hx. transitivity (bd_sector (disk s2) x); auto.
Qed.

Lemma core_frame_mono (W W' : Z -> Prop) s s' :
  (forall x, W x -> W' x) -> core_frame W s s' -> core_frame W' s s'.
Proof. intros Hw []. constructor; auto. Qed.

Lemma disk_frame_refl W s : disk_frame W s s.
Proof. split; [apply core_frame_refl|done]. Qed.

Lemma disk_frame_trans W s1 s2 s3 : disk_frame W s1 s2 -> disk_frame W s2 s3 -> disk_frame W s1 s3.
Proof. intros [? ?] [? ?]. split; [by eapply core_frame_trans|congruence]. Qed.

Lemma disk_frame_mono (W W' : Z -> Prop) s s' :
  (forall x, W x -> W' x) -> disk_frame W s s' -> disk_frame W' s s'.
Proof. intros Hw [? ?]. split; [by eapply core_frame_mono|done]. Qed.

Lemma frame_refl W s : frame W s s.
Proof. split; [apply core_frame_refl|done]. Qed.

Lemma frame_trans W s1 s2 s3 : frame W s1 s2 -> frame W s2 s3 -> frame W s1 s3.
Proof.
  intros [? H1] [? H2]. split; [by eapply core_frame_trans|]. intros Hs.
  specialize (H1 Hs). eapply al_same_trans; [apply H2|done].
  eapply al_same_trans; [done|]. by apply al_same_sym.
Qed.

Lemma frame_mono (W W' : Z -> Prop) s s' :
  (forall x, W x -> W' x) -> frame W s s' -> frame W' s s'.
Proof. intros Hw [? ?]. split; [by eapply core_frame_mono|done]. Qed.

Lemma frame_nowhere W s s' : frame nowhere s s' -> frame W s s'.
Proof. apply frame_mono. done. Qed.

Lemma disk_frame_frame W s s' : disk_frame W s s' -> frame W s s'.
Proof. intros [? E]. split; [done|]. by rewrite E. Qed.

(** ** The lower layers *)

Lemma ata_read_sector_spec lba s :
  wp (ata_read_sector lba)
     (fun r s' => disk_frame nowhere s s' /\
        (forall data, r = Some data -> data = bd_sector (disk s) lba /\ 0 <= lba < sector_count s) /\
        (bd_healthy (disk s) -> 0 <= lba < sector_count s -> r = Some (bd_sector (disk s) lba))) s.
Proof.
  unfold wp, ata_read_sector. destruct (bd_read lba (disk s)) as [r d] eqn:E. simpl.
  pose proof (bd_read_frame _ _ _ _ E) as (H1 & H2 & H3 & H4). split_and!; [|done|].
  - split; [|done]. constructor; auto.
  - intros Hh Hl. pose proof (bd_read_ok lba (disk s) Hh Hl) as Hr. by rewrite E in Hr.
Qed.

Lemma ata_write_sector_spec lba data s :
  is_sector data ->
  wp (ata_write_sector lba data)
     (fun ok s' => disk_frame (eq lba) s s' /\
        (ok = true -> bd_sector (disk s') lba = data /\ 0 <= lba < sector_count s) /\
        (bd_healthy (disk s) -> 0 <= lba < sector_count s -> ok = true)) s.
Proof.
  intros Hd. unfold wp, ata_write_sector. destruct (bd_write lba data (disk s)) as [r d] eqn:E. simpl.
  pose proof (bd_write_frame _ _ _ _ _ Hd E) as (H1 & H2 & H3 & H4). split_and!; [|done|].
  - split; [|done]. constructor; auto.
  - intros Hh Hl. pose proof (bd_write_ok lba data (disk s) Hh Hd Hl) as Hr. by rewrite E in Hr.
Qed.

(** A sector buffer can be had. *)
Definition heap_room s : Prop :=
  al_same (heap s) (heap s) /\ (al_alloc SECTOR_SIZE (heap s)).1 <> 0.

Lemma heap_room_same s s' : al_same (heap s') (heap s) -> heap_room s -> heap_room s'.
Proof.
  intros Hs [H1 H2]. split.
  - eapply al_same_trans; [done|]. by apply al_same_sym.
  - rewrite (proj1 (al_alloc_same SECTOR_SIZE _ _ ltac:(unfold SECTOR_SIZE; lia) Hs)). done.
Qed.

Lemma frame_room W s s' : frame W s s' -> heap_room s -> heap_room s'.
Proof. intros [_ Hs] Hr. apply (heap_room_same s); [|done]. apply Hs, Hr. Qed.

Lemma wp_alloc n s p h Q :
  al_alloc n (heap s) = (p, h) -> Q p (with_heap h s) -> wp (alloc n) Q s.
Proof. intros E HQ. unfold wp, alloc. by rewrite E. Qed.

(** Routines work on a sector buffer between an allocation and its release: the
    [body] in between only moves data, [k] follows. *)
Lemma with_buffer {A B} (body : st FsState A) (fail : B) (k : A -> st FsState B) W
    (Q : A -> D -> Prop) (R : B -> FsState -> Prop) s :
  (forall h, wp body (fun a s' => disk_frame W (with_heap h s) s' /\ Q a (disk s')) (with_heap h s)) ->
  (forall s', frame W s s' -> ~ heap_room s -> R fail s') ->
  (forall a s', frame W s s' -> Q a (disk s') -> wp (k a) R s') ->
  wp (sector <- alloc SECTOR_SIZE ;;
      if sector =? 0 then ret fail else a <- body ;; free sector ;;; k a) R s.
Proof.
  intros Hb Hfail Hk. unfold wp, bind, alloc.
  destruct (al_alloc SECTOR_SIZE (heap s)) as [p h] eqn:E.
  assert (Hn : 0 < SECTOR_SIZE <= 2 ^ 64 - 16) by (unfold SECTOR_SIZE; lia).
  destruct (p =? 0) eqn:Ep.
  - apply Z.eqb_eq in Ep as ->. apply Hfail.
    + split; [by constructor|]. simpl. intros. by eapply al_alloc_null.
    + intros [_ Hr]. by rewrite E in Hr.
  - specialize (Hb h). unfold wp in Hb. destruct (body (with_heap h s)) as [a s1].
    simpl in Hb |- *. destruct Hb as [[Hf Hh] Hq]. apply Hk; [|done].
    split; [destruct Hf; constructor; auto|]. simpl in *. intros Hs. rewrite Hh.
    by eapply al_free_alloc.
Qed.

End frames.

(** Frames of a sequence of steps. *)
Ltac frames :=
  repeat match goal with
  | H : disk_frame nowhere ?a ?b |- disk_frame ?W ?a ?c =>
      apply (disk_frame_trans W a b c); [by apply (disk_frame_mono nowhere)|clear H]
  | H : disk_frame ?V ?a ?b |- disk_frame ?W ?a ?c =>
      apply (disk_frame_trans W a b c); [apply (disk_frame_mono V); [|exact H]|clear H]
  | H : frame nowhere ?a ?b |- frame ?W ?a ?c =>
      apply (frame_trans W a b c); [by apply frame_nowhere|clear H]
  | H : frame ?V ?a ?b |- frame ?W ?a ?c =>
      apply (frame_trans W a b c); [apply (frame_mono V); [|exact H]|clear H]
  | |- disk_frame _ ?a ?a => apply disk_frame_refl
  | |- frame _ ?a ?a => apply frame_refl
  end.
