(* ===== verification/FsTree.v ===== *)
(** * kernel/filesystem.c: the directory tree

    The table of entries always describes a tree: names are valid and unique, the
    parent of every entry is a directory in use.  Every operation keeps this,
    whether it succeeds, is refused or fails half-way for lack of memory, disk
    space or a working disk. *)

From S2P Require Import Prelude Runtime Interfaces Filesystem FsNames.

(** ** Well-formed tables *)

(** Every field fits its C type. *)
Record entry_wf (e : FsEntry) : Prop := {
  wf_used : 0 <= fe_used e < 2 ^ 8;
  wf_type : 0 <= fe_type e < 2 ^ 8;
  wf_flags : 0 <= fe_flags e < 2 ^ 16;
  wf_owner : 0 <= fe_owner e < 2 ^ 32;
  wf_name : length (fe_name e) = 96%nat /\ bytes (fe_name e);
  wf_start : 0 <= fe_start_lba e < 2 ^ 32;
  wf_size : 0 <= fe_size e < 2 ^ 64;
  wf_capacity : 0 <= fe_capacity_sectors e < 2 ^ 32;
  wf_modified : 0 <= fe_modified e < 2 ^ 32;
  wf_reserved : 0 <= fe_reserved e < 2 ^ 32 }.

Record tree_ok (es : list FsEntry) : Prop := {
  t_length : length es = FS_MAX_ENTRIES;
  t_wf : Forall entry_wf es;
  t_path i p e : at_path es i p e -> path_ok p;
  t_unique : unique_paths es;
  t_parent i p e d : at_path es i p e -> parent p = Some d -> is_directory es d }.

Lemma zero_entry_wf : entry_wf zero_entry.
Proof. constructor; simpl; try lia. split; [done|]. apply (bytes_zeroes 96). Qed.

Lemma lookup_wf es i e : Forall entry_wf es -> es !! i = Some e -> entry_wf e.
Proof. intros Hf He. by eapply Forall_lookup_1. Qed.

Lemma entry_at_wf es i : Forall entry_wf es -> entry_wf (entry_at es i).
Proof.
  intros Hf. unfold entry_at. destruct (es !! i) eqn:E; [by eapply lookup_wf|].
  apply zero_entry_wf.
Qed.

(** The table of a freshly formatted volume. *)
Lemma tree_ok_empty : tree_ok (replicate FS_MAX_ENTRIES zero_entry).
Proof.
  assert (Hno : forall i p e, ~ at_path (replicate FS_MAX_ENTRIES zero_entry) i p e).
  { intros i p e (He & Hu & _). apply lookup_replicate_1 in He as [-> _]. done. }
  constructor.
  - by rewrite length_replicate.
  - apply Forall_replicate, zero_entry_wf.
  - intros i p e He. by apply Hno in He.
  - intros i j p e e' He. by apply Hno in He.
  - intros i p e d He. by apply Hno in He.
Qed.

Lemma at_path_insert es i e' j p e :
  (i < length es)%nat ->
  at_path (<[i := e']> es) j p e <->
  (j = i /\ e = e' /\ entry_used e' = true /\ cstr (fe_name e') = p) \/ (j <> i /\ at_path es j p e).
Proof.
  intros Hi. unfold at_path. destruct (decide (j = i)) as [->|Hj].
  - rewrite list_lookup_insert_eq by done. split.
    + intros ([= <-] & ? & ?). left. done.
    + intros [(_ & -> & ? & ?)|[? _]]; [|done]. done.
  - rewrite list_lookup_insert_ne by done. split; [by right|].
    intros [(? & _)|[_ ?]]; [done|]. done.
Qed.

(** Editing an entry in place, keeping its path; only the type of something that
    is no directory may change. *)
Lemma tree_edit es i e e' :
  tree_ok es -> es !! i = Some e -> entry_wf e' ->
  fe_used e' = fe_used e -> fe_name e' = fe_name e ->
  fe_type e' = fe_type e \/ fe_type e <> FS_TYPE_DIRECTORY ->
  tree_ok (<[i := e']> es).
Proof.
  intros Ht Hi Hwf Hu Hn Hty. assert (Hlt : (i < length es)%nat) by by eapply lookup_lt_Some.
  assert (Hold : forall j p x, at_path (<[i := e']> es) j p x ->
    exists y, at_path es j p y /\ (j <> i -> y = x)).
  { intros j p x [(-> & -> & Hx & Hp)|[Hj Hx]]%at_path_insert; [|by exists x|done].
    exists e. split; [|done]. split_and!; [done| |by rewrite <- Hn].
    unfold entry_used in *. by rewrite <- Hu. }
  assert (Hdir : forall d, is_directory es d -> is_directory (<[i := e']> es) d).
  { intros d (j & x & Hx & Hd). destruct (decide (j = i)) as [->|Hj].
    - exists i, e'. destruct Hx as (Hx & Hux & Hpx). simplify_eq.
      split; [apply at_path_insert; [done|left]|].
      + split_and!; [done|done| |by rewrite Hn]. unfold entry_used in *. by rewrite Hu.
      + destruct Hty as [->|]; done.
    - exists j, x. split; [|done]. apply at_path_insert; [done|]. by right. }
  destruct Ht as [Hlen Hf Hpath Huniq Hpar]. constructor.
  - by rewrite length_insert.
  - by apply Forall_insert.
  - intros j p x (y & Hy & _)%Hold. by eapply Hpath.
  - intros j k p x x' (y & Hy & _)%Hold (y' & Hy' & _)%Hold. by eapply Huniq.
  - intros j p x d (y & Hy & _)%Hold Hp. apply Hdir. by eapply Hpar.
Qed.

(** Filling a free slot with a new path whose parent exists. *)
Lemma tree_new es i e e' p :
  tree_ok es -> es !! i = Some e -> entry_used e = false ->
  entry_wf e' -> cstr (fe_name e') = p -> path_ok p -> no_path es p ->
  (forall d, parent p = Some d -> is_directory es d) ->
  tree_ok (<[i := e']> es).
Proof.
  intros [Hlen Hf Hpath Huniq Hpar] Hi Hfree Hwf Hp Hok Hno Hd.
  assert (Hlt : (i < length es)%nat) by by eapply lookup_lt_Some.
  assert (Hdir : forall d, is_directory es d -> is_directory (<[i := e']> es) d).
  { intros d (j & x & Hx & Hxd). exists j, x. split; [|done]. apply at_path_insert; [done|].
    right. split; [|done]. intros ->. destruct Hx as (Hx & Hux & _). simplify_eq. congruence. }
  constructor.
  - by rewrite length_insert.
  - by apply Forall_insert.
  - intros j q x [(-> & -> & _ & <-)|[_ Hx]]%at_path_insert; [by subst|by eapply Hpath|done].
  - intros j k q x x' [(-> & _ & _ & Hq)|[Hj Hx]]%at_path_insert
                      [(-> & _ & _ & Hq')|[Hk Hx']]%at_path_insert; try done.
    + subst q. rewrite Hp in Hx'. by apply Hno in Hx'.
    + subst q. rewrite Hp in Hx. by apply Hno in Hx.
    + by eapply Huniq.
  - intros j q x d [(-> & -> & _ & <-)|[_ Hx]]%at_path_insert Hq; [| |done].
    + apply Hdir, Hd. by rewrite <- Hp.
    + apply Hdir. by eapply Hpar.
Qed.

(** Releasing an entry that has nothing under it. *)
Lemma tree_remove es i e p :
  tree_ok es -> at_path es i p e ->
  (fe_type e = FS_TYPE_DIRECTORY ->
   forall j x q, at_path es j q x -> j <> i -> parent q <> Some p) ->
  tree_ok (<[i := zero_entry]> es).
Proof.
  intros [Hlen Hf Hpath Huniq Hpar] Hi Hc.
  assert (Hlt : (i < length es)%nat) by (destruct Hi; by eapply lookup_lt_Some).
  assert (Hold : forall j q x, at_path (<[i := zero_entry]> es) j q x -> j <> i /\ at_path es j q x).
  { intros j q x [(_ & _ & ? & _)|?]%at_path_insert; done. }
  constructor.
  - by rewrite length_insert.
  - apply Forall_insert; [done|apply zero_entry_wf].
  - intros j q x [_ Hx]%Hold. by eapply Hpath.
  - intros j k q x x' [_ Hx]%Hold [_ Hx']%Hold. by eapply Huniq.
  - intros j q x d [Hj Hx]%Hold Hq. destruct (Hpar _ _ _ _ Hx Hq) as (k & y & Hy & Hd).
    exists k, y. split; [|done]. apply at_path_insert; [done|right]. split; [|done].
    intros ->. destruct Hi as (Hi & Hui & Hpi), Hy as (Hy & Huy & Hpy). simplify_eq.
    by eapply Hc.
Qed.

(** ** Routines that leave the tables alone *)

Section tree.
Context {D H : Type} `{!BlockDevice D} `{!Allocator H}.
Notation FS := (st (FsState (D:=D) (H:=H))).
Implicit Types s : FsState (D:=D) (H:=H).

(** Everything in memory but the heap. *)
Definition tables s :=
  (superblock s, entries s, mounted s, current_uid s, current_privileged s).

Definition quiet {A} (m : FS A) : Prop := forall s, tables (m s).2 = tables s.

Lemma quiet_ret {A} (a : A) : quiet (ret a).
Proof. done. Qed.

Lemma quiet_gets {A} (f : FsState -> A) : quiet (gets f).
Proof. done. Qed.

Lemma quiet_bind {A B} (m : FS A) (k : A -> FS B) :
  quiet m -> (forall a, quiet (k a)) -> quiet (bind m k).
Proof. intros Hm Hk s. unfold bind. specialize (Hm s). destruct (m s) as [a s']. by rewrite Hk. Qed.

Lemma quiet_alloc n : quiet (alloc n).
Proof. intros s. unfold alloc. by destruct (al_alloc n (heap s)). Qed.

Lemma quiet_free p : quiet (free p).
Proof. done. Qed.

Lemma quiet_read lba : quiet (ata_read_sector lba).
Proof. intros s. unfold ata_read_sector. by destruct (bd_read lba (disk s)). Qed.

Lemma quiet_write lba data : quiet (ata_write_sector lba data).
Proof. intros s. unfold ata_write_sector. by destruct (bd_write lba data (disk s)). Qed.

End tree.

#[global] Arguments strncpy : simpl never.

#[export] Hint Resolve quiet_ret quiet_gets quiet_alloc quiet_free quiet_read quiet_write : nova.

(** Closes [quiet] goals by the structure of the routine. *)
Ltac quiet :=
  repeat first
    [ progress intros
    | solve [eauto with nova nocore]
    | apply quiet_bind
    | match goal with
      | |- quiet (if ?b then _ else _) => destruct b
      | |- quiet (match ?x with _ => _ end) => destruct x
      | |- quiet (let _ := _ in _) => cbv zeta
      end ].

Section tree_operations.
Context {D H : Type} `{!BlockDevice D} `{!Allocator H}.
Notation FS := (st (FsState (D:=D) (H:=H))).
Implicit Types s : FsState (D:=D) (H:=H).

Lemma quiet_read_loop fuel a b c l : quiet (read_loop (D:=D) (H:=H) fuel a b c l).
Proof. revert l. induction fuel as [|fuel IH]; intros l; cbn [read_loop]; quiet. Qed.

Hint Resolve quiet_read_loop : nova.

Lemma quiet_read_raw_data a b c d : quiet (read_raw_data (D:=D) (H:=H) a b c d).
Proof. unfold read_raw_data. quiet. Qed.

Hint Resolve quiet_read_raw_data : nova.

Lemma quiet_read_entry_data e a b : quiet (read_entry_data (D:=D) (H:=H) e a b).
Proof. apply quiet_read_raw_data. Qed.

Hint Resolve quiet_read_entry_data : nova.

Lemma quiet_resolve_loop n name : quiet (resolve_loop (D:=D) (H:=H) n name).
Proof. revert name. induction n as [|n IH]; intros name; cbn [resolve_loop]; quiet. Qed.

Lemma quiet_resolve_entry name : quiet (resolve_entry (D:=D) (H:=H) name).
Proof. apply quiet_resolve_loop. Qed.

Lemma quiet_save_entry i : quiet (save_entry (D:=D) (H:=H) i).
Proof. unfold save_entry. quiet. Qed.

Lemma quiet_clear_sectors n lba : quiet (clear_sectors (D:=D) (H:=H) n lba).
Proof. revert lba. induction n as [|n IH]; intros lba; cbn [clear_sectors]; quiet. Qed.

Lemma quiet_write_blocks n lba data : quiet (write_blocks (D:=D) (H:=H) n lba data).
Proof. revert lba data. induction n as [|n IH]; intros lba data; cbn [write_blocks]; quiet. Qed.

Lemma quiet_relocate_blocks n a b c d : quiet (relocate_blocks (D:=D) (H:=H) n a b c d).
Proof. revert a. induction n as [|n IH]; intros a; cbn [relocate_blocks]; quiet. Qed.

Lemma quiet_fill_gap n a b c : quiet (fill_gap (D:=D) (H:=H) n a b c).
Proof. revert b. induction n as [|n IH]; intros b; cbn [fill_gap]; quiet. Qed.

Lemma quiet_write_loop n a b c l : quiet (write_loop (D:=D) (H:=H) n a b c l).
Proof. revert c l. induction n as [|n IH]; intros c l; cbn [write_loop]; quiet. Qed.

Hint Resolve quiet_resolve_entry quiet_save_entry quiet_clear_sectors quiet_write_blocks
  quiet_relocate_blocks quiet_fill_gap quiet_write_loop : nova.

Lemma quiet_fs_read_at name a b : quiet (fs_read_at (D:=D) (H:=H) name a b).
Proof. unfold fs_read_at. quiet. Qed.

Lemma quiet_fs_readlink name a : quiet (fs_readlink (D:=D) (H:=H) name a).
Proof. unfold fs_readlink. quiet. Qed.

Lemma quiet_fs_path_info name b : quiet (fs_path_info (D:=D) (H:=H) name b).
Proof. unfold fs_path_info. quiet. Qed.

Lemma quiet_read_sectors n a l : quiet (read_sectors (D:=D) (H:=H) n a l).
Proof. revert a l. induction n as [|n IH]; intros a l; cbn [read_sectors]; quiet. Qed.

Lemma quiet_backup_files l : quiet (backup_files (D:=D) (H:=H) l).
Proof. induction l as [|e l IH]; cbn [backup_files]; quiet. Qed.

Lemma quiet_release_buffers l : quiet (release_buffers (D:=D) (H:=H) l).
Proof. induction l as [|e l IH]; cbn [release_buffers]; quiet. Qed.

Hint Resolve quiet_release_buffers : nova.

Lemma quiet_release_legacy_backup p l : quiet (release_legacy_backup (D:=D) (H:=H) p l).
Proof. unfold release_legacy_backup. quiet. Qed.

End tree_operations.

#[export] Hint Resolve quiet_read_raw_data quiet_read_entry_data quiet_resolve_entry quiet_save_entry
  quiet_clear_sectors quiet_write_blocks quiet_relocate_blocks quiet_fill_gap quiet_write_loop
  quiet_fs_read_at quiet_fs_readlink quiet_fs_path_info quiet_read_sectors quiet_backup_files
  quiet_release_legacy_backup : nova.

(** ** Every operation keeps the tree *)

Section tree_invariant.
Context {D H : Type} `{!BlockDevice D} `{!Allocator H}.
Notation FS := (st (FsState (D:=D) (H:=H))).
Implicit Types s : FsState (D:=D) (H:=H).

(** A mounted volume has a well-formed directory tree. *)
Definition tree_inv s : Prop :=
  0 <= current_uid s < 2 ^ 32 /\ (mounted s = true -> tree_ok (entries s)).

Definition live s : Prop :=
  0 <= current_uid s < 2 ^ 32 /\ mounted s = true /\ tree_ok (entries s).

Lemma live_inv s : live s -> tree_inv s.
Proof. intros (? & ? & ?). done. Qed.

Lemma inv_live s : tree_inv s -> mounted s = true -> live s.
Proof. intros [? Ht] Hm. split_and!; auto; apply H0. Qed.

Lemma tables_inv s s' : tables s' = tables s -> tree_inv s -> tree_inv s'.
Proof. unfold tables, tree_inv. intros [= _ -> -> -> _]. done. Qed.

Lemma tables_live s s' : tables s' = tables s -> live s -> live s'.
Proof. unfold tables, live. intros [= _ -> -> -> _]. done. Qed.

Lemma tables_entries s s' : tables s' = tables s -> entries s' = entries s.
Proof. unfold tables. by intros [= _ -> _ _ _]. Qed.

Lemma tables_uid s s' : tables s' = tables s -> current_uid s' = current_uid s.
Proof. unfold tables. by intros [= _ _ _ -> _]. Qed.

Lemma wp_quiet {A} (m : FS A) Q s :
  quiet m -> (forall a s', tables s' = tables s -> Q a s') -> wp m Q s.
Proof. intros Hm HQ. apply HQ, Hm. Qed.

Lemma quiet_inv {A} (m : FS A) s : quiet m -> tree_inv s -> tree_inv (m s).2.
Proof. intros Hm. apply tables_inv, Hm. Qed.

(** The entry [allocate_entry] makes. *)
Definition fresh_entry (name : list Z) (type mode uid : Z) : FsEntry :=
  mkEntry 1 type (Z.land mode 0x1FF) uid (strncpy name 95 ++ [0]) 0 0 0 0 0.

Lemma land_0x1FF m : 0 <= Z.land m 0x1FF < 2 ^ 9.
Proof. change 0x1FF with (2 ^ 9 - 1). rewrite land_ones_mod by lia. apply Z.mod_pos_bound. lia. Qed.

Lemma path_ok_bytes p : path_ok p -> bytes p.
Proof.
  intros (_ & Hp & _). eapply Forall_impl; [exact Hp|]. unfold printable, is_byte. intros; lia.
Qed.

Lemma fresh_entry_path name type mode uid :
  valid_name name = true -> cstr (fe_name (fresh_entry name type mode uid)) = cstr name.
Proof.
  intros ((_ & Hl) & _)%valid_name_spec. unfold fresh_entry. cbn [fe_name]. apply cstr_strncpy.
  by rewrite length_cstr in Hl.
Qed.

Lemma fresh_entry_wf name type mode uid :
  valid_name name = true -> 0 <= type < 2 ^ 8 -> 0 <= uid < 2 ^ 32 ->
  entry_wf (fresh_entry name type mode uid).
Proof.
  intros Hv%valid_name_spec Ht Hu. pose proof (land_0x1FF mode). unfold fresh_entry.
  constructor; cbn -[strncpy Z.pow]; try lia.
  split; [by rewrite length_app, length_strncpy|]. apply bytes_app. split.
  - rewrite strncpy_fits.
    + apply bytes_app. split; [by apply path_ok_bytes|apply bytes_zeroes].
    + destruct Hv as ((_ & Hl) & _). by rewrite length_cstr in Hl.
  - repeat constructor; unfold is_byte; lia.
Qed.

Lemma allocate_entry_spec name type mode s :
  wp (allocate_entry name type mode)
     (fun r s' =>
        match r with
        | None => s' = s
        | Some i =>
            valid_name name = true /\ no_path (entries s) (cstr name) /\
            parent_directory_exists (entries s) name = true /\
            (exists e, entries s !! i = Some e /\ entry_used e = false) /\
            s' = with_entries (<[i := fresh_entry name type mode (current_uid s)]> (entries s)) s
        end) s.
Proof.
  unfold wp, allocate_entry. destruct (valid_name name) eqn:Ev; [|done].
  destruct (find_entry (entries s) name) eqn:Ef; [done|].
  destruct (parent_directory_exists (entries s) name) eqn:Ep; [|done]. simpl.
  pose proof (free_from_spec (entries s) 0) as Hs.
  destruct (free_from (entries s) 0) as [i|]; [|done]. simpl.
  rewrite Nat.sub_0_r in Hs. destruct Hs as (_ & e & He & Hu).
  split_and!; [done|by apply find_entry_None|done|by exists e|done].
Qed.

(** A new entry keeps the table a tree. *)
Lemma tree_fresh es i e name type mode uid :
  tree_ok es -> 0 <= type < 2 ^ 8 -> 0 <= uid < 2 ^ 32 ->
  valid_name name = true -> no_path es (cstr name) ->
  parent_directory_exists es name = true ->
  es !! i = Some e -> entry_used e = false ->
  tree_ok (<[i := fresh_entry name type mode uid]> es).
Proof.
  intros Ht Hty Hu Hv Hno Hp Hi Hf.
  apply (tree_new es i e _ (cstr name)); try done.
  - by apply fresh_entry_wf.
  - by apply fresh_entry_path.
  - by apply valid_name_spec.
  - intros d Hd. apply parent_directory_exists_spec in Hp. by rewrite Hd in Hp.
Qed.

Lemma allocate_entry_live name type mode s :
  live s -> 0 <= type < 2 ^ 8 ->
  wp (allocate_entry name type mode)
     (fun r s' => live s' /\
        match r with
        | None => s' = s
        | Some i => at_path (entries s') i (cstr name) (fresh_entry name type mode (current_uid s))
        end) s.
Proof.
  intros (Hu & Hm & Ht) Hty. wp_call allocate_entry_spec. intros [i|] s'.
  2:{ intros ->. split; [exact (conj Hu (conj Hm Ht))|done]. }
  intros (Hv & Hno & Hp & (e & He & Hf) & ->). split.
  - split_and!; [apply Hu|apply Hu|done|]. by eapply tree_fresh.
  - simpl. apply at_path_insert; [by eapply lookup_lt_Some|]. left.
    split_and!; [done|done|done|]. by apply fresh_entry_path.
Qed.

(** What a symlink chain ends in: an entry in use that is no symlink. *)
Lemma resolve_loop_spec n name s :
  wp (resolve_loop n name)
     (fun r s' => tables s' = tables s /\
        forall i, r = Some i -> exists p e, at_path (entries s) i p e /\ fe_type e <> FS_TYPE_SYMLINK) s.
Proof.
  revert name s. induction n as [|n IH]; intros name s; cbn [resolve_loop]; [done|].
  wp_steps. destruct (find_entry (entries s) name) as [i|] eqn:Ef; [|done].
  wp_steps. apply find_entry_Some in Ef as (e & He).
  rewrite (entry_at_lookup _ _ _ (proj1 He)).
  destruct (fe_type e =? FS_TYPE_SYMLINK) eqn:Ety; simpl.
  - destruct (_ || _)%bool; [done|]. apply wp_bind.
    apply wp_quiet; [auto with nova|]. intros [t|] s1 Hs1; [|done].
    destruct (negb _); [done|]. destruct (link_name name t) as [name'|]; [|done].
    wp_call IH. rewrite Hs1. intros r s2 [Hs2 Hr]. split; [done|].
    by rewrite (tables_entries _ _ Hs1) in Hr.
  - apply wp_ret. split; [done|]. intros j [= <-]. exists (cstr name), e. split; [done|lia].
Qed.

Lemma resolve_entry_spec name s :
  wp (resolve_entry name)
     (fun r s' => tables s' = tables s /\
        forall i, r = Some i -> exists p e, at_path (entries s) i p e /\ fe_type e <> FS_TYPE_SYMLINK) s.
Proof. apply resolve_loop_spec. Qed.

(** An edit that keeps the identity of the file. *)
Definition same_file (e e' : FsEntry) : Prop :=
  fe_used e' = fe_used e /\ fe_name e' = fe_name e /\ fe_type e' = fe_type e.

Lemma same_file_path es i p e e' :
  at_path es i p e -> same_file e e' -> at_path (<[i := e']> es) i p e'.
Proof.
  intros (He & Hu & Hp) (Hu' & Hn & _). apply at_path_insert; [by eapply lookup_lt_Some|].
  left. unfold entry_used in *. by rewrite Hu', Hn.
Qed.

Lemma edit_entry_live i f s e :
  live s -> entries s !! i = Some e -> entry_wf (f e) -> fe_used (f e) = fe_used e ->
  fe_name (f e) = fe_name e -> fe_type (f e) = fe_type e \/ fe_type e <> FS_TYPE_DIRECTORY ->
  wp (edit_entry i f)
     (fun _ s' => live s' /\ s' = with_entries (<[i := f e]> (entries s)) s) s.
Proof.
  intros (Hu & Hm & Ht) He Hwf H1 H2 H3. unfold edit_entry. apply wp_modify.
  rewrite (entry_at_lookup _ _ _ He). split; [|done].
  split_and!; [apply Hu|apply Hu|done|]. by eapply tree_edit.
Qed.

Lemma with_size_modified_wf v e : entry_wf e -> 0 <= v < 2 ^ 64 -> entry_wf (with_size_modified v e).
Proof. intros [] Hv. constructor; simpl; try done. apply (wrap_bound 32). lia. Qed.

Lemma with_extent_wf a b e :
  entry_wf e -> 0 <= a < 2 ^ 32 -> 0 <= b < 2 ^ 32 -> entry_wf (with_extent a b e).
Proof. intros [] Ha Hb. by constructor. Qed.

Lemma live_lookup_wf s i e : live s -> entries s !! i = Some e -> entry_wf e.
Proof. intros (_ & _ & Ht) He. eapply lookup_wf; [apply Ht|done]. Qed.

Lemma sectors_for_pos size : 0 <= size -> 0 < sectors_for size.
Proof.
  intros. unfold sectors_for, SECTOR_SIZE. pose proof (wrap_bound 64 (size + 512 - 1) ltac:(lia)).
  destruct (_ =? 0) eqn:E; [lia|]. apply Z.eqb_neq in E.
  pose proof (Z.div_pos (u64 (size + 512 - 1)) 512). lia.
Qed.

End tree_invariant.

Section tree_steps.
Context {D H : Type} `{!BlockDevice D} `{!Allocator H}.
Notation FS := (st (FsState (D:=D) (H:=H))).
Implicit Types s : FsState (D:=D) (H:=H).

(** The table differs from that of [s] in entry [i] at most, which is still the
    same file. *)
Definition touched (i : nat) s s' : Prop :=
  live s' /\ exists e e', entries s !! i = Some e /\ same_file e e' /\
                          entries s' = <[i := e']> (entries s).

Lemma touched_refl i s e : live s -> entries s !! i = Some e -> touched i s s.
Proof.
  intros Hl He. split; [done|]. exists e, e. split_and!; [done|by split_and!|].
  by rewrite list_insert_id.
Qed.

Lemma touched_trans i s1 s2 s3 : touched i s1 s2 -> touched i s2 s3 -> touched i s1 s3.
Proof.
  intros (_ & e & e1 & He & (H1 & H2 & H3) & E1) (Hl & e2 & e3 & He2 & (H4 & H5 & H6) & E3).
  split; [done|]. exists e, e3. assert (e2 = e1) as ->.
  { rewrite E1, list_lookup_insert_eq in He2; [by injection He2|by eapply lookup_lt_Some]. }
  split_and!; [done|unfold same_file; split_and!; congruence|].
  by rewrite E3, E1, list_insert_insert_eq.
Qed.

Lemma touched_lookup i s s' : touched i s s' -> exists e', entries s' !! i = Some e'.
Proof.
  intros (_ & e & e' & He & _ & ->). exists e'. apply list_lookup_insert_eq.
  by eapply lookup_lt_Some.
Qed.

Lemma touched_tables i s s1 s2 : tables s2 = tables s1 -> touched i s s1 -> touched i s s2.
Proof.
  intros Ht (Hl & e & e' & He & Hs & E). split; [by eapply tables_live|].
  exists e, e'. by rewrite (tables_entries _ _ Ht).
Qed.

Lemma touched_path i j s s' p e' :
  touched i s s' -> at_path (entries s') j p e' ->
  exists e, at_path (entries s) j p e /\ fe_type e' = fe_type e.
Proof.
  intros (_ & e & e1 & He & (H1 & H2 & H3) & ->) Hp. apply at_path_insert in Hp;
    [|by eapply lookup_lt_Some].
  destruct Hp as [(-> & -> & Hu & Hp)|[_ Hp]]; [|by exists e'].
  exists e. split; [|done]. split_and!; [done| |congruence]. unfold entry_used in *. congruence.
Qed.

(** Edits that keep the identity of the file. *)
Lemma edit_entry_touched i f s e :
  live s -> entries s !! i = Some e -> entry_wf (f e) -> same_file e (f e) ->
  wp (edit_entry i f) (fun _ s' => touched i s s') s.
Proof.
  intros Hl He Hwf (H1 & H2 & H3). wp_call (edit_entry_live i f s e); auto.
  intros _ s' [Hl' ->]. split; [done|]. exists e, (f e). by split_and!.
Qed.

Lemma write_entry_data_touched i data s e :
  live s -> entries s !! i = Some e -> Z.of_nat (length data) < 2 ^ 64 ->
  wp (write_entry_data i data) (fun _ s' => touched i s s') s.
Proof.
  intros Hl He Hlen. unfold write_entry_data. cbv zeta.
  pose proof (sectors_for_pos (Z.of_nat (length data)) ltac:(lia)) as Hpos.
  destruct (0xFFFFFFFF <? _) eqn:E; [by eapply touched_refl|].
  apply wp_bind, wp_gets, wp_bind. rewrite (entry_at_lookup _ _ _ He).
  eapply (wp_mono _ (fun _ s' => touched i s s')).
  { destruct (fe_capacity_sectors e <? _); [|by eapply touched_refl]. wp_steps.
    apply (edit_entry_touched i _ s e); [done|done| |done].
    apply with_extent_wf; [by eapply live_lookup_wf| |lia].
    destruct (next_data_lba_spec (entries s)) as [Hn _]. unfold FS_DATA_LBA in Hn. lia. }
  intros _ s1 T1. wp_steps. case_if as Ec; [done|].
  wp_step. apply wp_quiet; [auto with nova|]. intros p s2 H2.
  destruct (p =? 0); [by eapply touched_tables|].
  wp_step. apply wp_quiet; [auto with nova|]. intros ok s3 H3.
  wp_step. apply wp_quiet; [auto with nova|]. intros _ s4 H4.
  assert (T4 : touched i s s4) by (do 3 (eapply touched_tables; [done|]); done).
  destruct ok; cbn [negb]; [|done]. wp_step. destruct (touched_lookup _ _ _ T4) as [e4 He4].
  wp_call (edit_entry_touched i _ s4 e4).
  - apply T4.
  - done.
  - apply with_size_modified_wf; [|lia]. eapply live_lookup_wf; [apply T4|done].
  - done.
  - intros _ s5 T5. apply wp_quiet; [auto with nova|]. intros b s6 H6.
    eapply touched_tables; [done|]. by eapply touched_trans.
Qed.

(** The entry a write goes to. *)
Lemma entry_for_write_live name save s :
  live s ->
  wp (entry_for_write name save)
     (fun r s' => live s' /\
        (forall i, r = Some i -> exists e, entries s' !! i = Some e) /\
        (find_entry (entries s) name = None ->
         forall j e, at_path (entries s') j (cstr name) e -> fe_type e = FS_TYPE_FILE)) s.
Proof.
  intros Hl. unfold entry_for_write. wp_steps.
  destruct (find_entry (entries s) name) as [i|] eqn:Ef.
  - apply find_entry_Some in Ef as (e & He & Hu & Hp). wp_steps.
    rewrite (entry_at_lookup _ _ _ He). destruct (_ =? _).
    + wp_call resolve_entry_spec. intros r s' [Ht Hr]. split_and!; [by eapply tables_live| |done].
      intros j ->. destruct (Hr j eq_refl) as (p & e' & (He' & _) & _). exists e'.
      by rewrite (tables_entries _ _ Ht).
    + apply wp_ret. split_and!; [done| |done]. intros j [= <-]. by exists e.
  - apply find_entry_None in Ef. wp_step.
    wp_call allocate_entry_live; [done|unfold FS_TYPE_FILE; lia|].
    intros [i|] s1 [Hl1 Hr].
    2:{ subst s1. apply wp_ret. split_and!; [done|done|].
        intros _ j e He. by apply Ef in He. }
    assert (Hall : forall s2, tables s2 = tables s1 ->
      live s2 /\ (exists e, entries s2 !! i = Some e) /\
      forall j e, at_path (entries s2) j (cstr name) e -> fe_type e = FS_TYPE_FILE).
    { intros s2 Ht. split_and!; [by eapply tables_live| |]; rewrite (tables_entries _ _ Ht).
      - destruct Hr as [Hr _]. by eexists.
      - intros j e Hj. assert (j = i) as ->.
        { destruct Hl1 as (_ & _ & Htr). by eapply (t_unique _ Htr). }
        destruct Hr as [Hr _], Hj as [Hj _]. by simplify_eq. }
    destruct save.
    + wp_step. apply wp_quiet; [auto with nova|]. intros ok s2 Ht. apply wp_ret.
      destruct (Hall s2 Ht) as (? & ? & ?). split_and!; [done| |done].
      intros j Hj. destruct ok; [|done]. by injection Hj as <-.
    + apply wp_ret. destruct (Hall s1 eq_refl) as (? & ? & ?). split_and!; [done| |done].
      intros j [= <-]. done.
Qed.

Lemma fs_write_live name data s :
  live s -> Z.of_nat (length data) < 2 ^ 64 ->
  wp (fs_write name data)
     (fun ok s' => live s' /\
        (ok = true -> find_entry (entries s) name = None ->
         forall j e, at_path (entries s') j (cstr name) e -> fe_type e = FS_TYPE_FILE)) s.
Proof.
  intros Hl Hd. unfold fs_write. wp_steps. destruct (_ || _)%bool; [done|]. wp_step.
  wp_call entry_for_write_live; [done|]. intros [i|] s1 (Hl1 & Hi & Hf); [|done].
  destruct (Hi i eq_refl) as [e He]. wp_steps. destruct (_ || _)%bool; [done|].
  wp_call write_entry_data_touched; [done|done|done|]. intros ok s2 T. split; [apply T|].
  intros _ Hnone j e' He'. destruct (touched_path _ _ _ _ _ _ T He') as (e2 & He2 & ->).
  by eapply Hf.
Qed.

Lemma grow_extent_touched i required s e :
  live s -> entries s !! i = Some e -> 0 <= required < 2 ^ 32 ->
  wp (grow_extent i required) (fun _ s' => touched i s s') s.
Proof.
  intros Hl He Hq. unfold grow_extent. wp_steps. case_if as Ec; [|by eapply touched_refl].
  wp_steps. case_if as El; [by eapply touched_refl|]. wp_step.
  apply wp_quiet; [auto with nova|]. intros moved s3 H3.
  assert (T3 : touched i s s3) by (eapply touched_tables, touched_refl; done).
  destruct moved; [|done]. wp_step. destruct (touched_lookup _ _ _ T3) as [e3 He3].
  wp_call (edit_entry_touched i _ s3 e3); [apply T3|done| |done|].
  - apply with_extent_wf; [eapply live_lookup_wf; [apply T3|done]| |lia].
    destruct (next_data_lba_spec (entries s)) as [Hx _]. unfold FS_DATA_LBA in Hx. lia.
  - intros _ s4 T4. apply wp_ret. by eapply touched_trans.
Qed.

Lemma write_at_entry_touched i offset data s e :
  live s -> entries s !! i = Some e -> 0 <= offset -> offset + Z.of_nat (length data) < 2 ^ 64 ->
  wp (write_at_entry i offset data) (fun _ s' => touched i s s') s.
Proof.
  intros Hl He Ho Hd. unfold write_at_entry. wp_steps. rewrite (entry_at_lookup _ _ _ He).
  set (new_size := if fe_size e <? _ then _ else _).
  assert (Hn : 0 <= new_size < 2 ^ 64).
  { pose proof (wf_size _ (live_lookup_wf _ _ _ Hl He)). unfold new_size. case_if as E; lia. }
  pose proof (sectors_for_pos new_size (proj1 Hn)) as Hq.
  case_if as Er; [by eapply touched_refl|].
  wp_step. apply wp_quiet; [auto with nova|]. intros p s2 H2.
  assert (T2 : touched i s s2) by (eapply touched_tables, touched_refl; done).
  case_if as Ep; [done|]. wp_step. destruct (touched_lookup _ _ _ T2) as [e2 He2].
  wp_call grow_extent_touched; [apply T2|done|lia|]. intros ok s3 T3'.
  assert (T3 : touched i s s3) by (by eapply touched_trans). clear T3'.
  assert (Hfree : forall s4, touched i s s4 ->
    wp (free p ;;; ret false) (fun _ s' => touched i s s') s4).
  { intros s4 T4. wp_step. apply wp_quiet; [auto with nova|]. intros _ s5 H5. by eapply touched_tables. }
  destruct ok; cbn [negb]; [|by apply Hfree].
  wp_steps. apply wp_quiet; [auto with nova|]. intros ok s4 H4.
  assert (T4 : touched i s s4) by (by eapply touched_tables).
  destruct ok; cbn [negb]; [|by apply Hfree].
  wp_step. apply wp_quiet; [auto with nova|]. intros ok s5 H5. wp_step.
  apply wp_quiet; [auto with nova|]. intros _ s6 H6.
  assert (T6 : touched i s s6) by (do 2 (eapply touched_tables; [done|]); done).
  destruct ok; cbn [negb]; [|done]. wp_step. destruct (touched_lookup _ _ _ T6) as [e6 He6].
  wp_call (edit_entry_touched i _ s6 e6); [apply T6|done| |done|].
  - apply with_size_modified_wf; [|done]. eapply live_lookup_wf; [apply T6|done].
  - intros _ s7 T7. apply wp_quiet; [auto with nova|]. intros b s8 H8.
    eapply touched_tables; [done|]. by eapply touched_trans.
Qed.

(** The overflow check of [fs_write_at]. *)
Lemma u64_no_wrap a b : 0 <= a < 2 ^ 64 -> 0 <= b < 2 ^ 64 -> (u64 (a + b) <? a) = false -> a + b < 2 ^ 64.
Proof.
  intros Ha Hb E. unfold wrap in E. destruct (decide (a + b < 2 ^ 64)); [done|].
  assert ((a + b) mod 2 ^ 64 = a + b - 2 ^ 64) by (symmetry; apply (Z.mod_unique _ _ 1); lia). lia.
Qed.

Lemma fs_write_at_live name offset data s :
  live s -> 0 <= offset < 2 ^ 64 -> Z.of_nat (length data) < 2 ^ 64 ->
  wp (fs_write_at name offset data) (fun _ s' => live s') s.
Proof.
  intros Hl Ho Hd. unfold fs_write_at. wp_steps. case_if as Eg; [done|]. wp_step.
  apply orb_false_iff in Eg as [_ Eg]. apply u64_no_wrap in Eg; [|lia|lia].
  wp_call entry_for_write_live; [done|]. intros [i|] s1 (Hl1 & Hi & _); [|done].
  destruct (Hi i eq_refl) as [e He]. wp_steps. case_if as Ety; [done|].
  wp_call (write_at_entry_touched i offset data s1 e); [done|done|lia|done|]. intros ok s2 T. apply T.
Qed.

Lemma fs_delete_live name s : live s -> wp (fs_delete name) (fun _ s' => live s') s.
Proof.
  intros Hl. unfold fs_delete. wp_steps. case_if as Eg; [done|]. wp_steps.
  destruct (find_entry (entries s) name) as [i|] eqn:Ef; [|done]. wp_steps.
  apply find_entry_Some in Ef as (e & He). rewrite (entry_at_lookup _ _ _ (proj1 He)).
  case_if as Ew; [done|]. wp_steps. case_if as Ec; [done|]. wp_steps.
  unfold edit_entry. wp_steps. apply wp_quiet; [auto with nova|]. intros b s1 H1.
  eapply tables_live; [done|]. destruct Hl as (Hu & Hm & Ht). split_and!; [apply Hu|apply Hu|done|].
  apply (tree_remove _ i e (cstr name) Ht He). intros Hty.
  rewrite Hty in Ec. simpl in Ec. by apply has_child_false.
Qed.

Lemma fs_mkdir_live name mode s : live s -> wp (fs_mkdir name mode) (fun _ s' => live s') s.
Proof.
  intros Hl. unfold fs_mkdir. wp_steps. case_if as Eg; [done|]. wp_step.
  wp_call allocate_entry_live; [done|unfold FS_TYPE_DIRECTORY; lia|].
  intros [i|] s1 [Hl1 _]; [|done]. apply wp_quiet; [auto with nova|]. intros b s2 H2.
  by eapply tables_live.
Qed.

Lemma with_flags_wf v e : entry_wf e -> 0 <= v < 2 ^ 16 -> entry_wf (with_flags v e).
Proof. intros [] Hv. by constructor. Qed.

Lemma with_type_wf v e : entry_wf e -> 0 <= v < 2 ^ 8 -> entry_wf (with_type v e).
Proof. intros [] Hv. by constructor. Qed.

Lemma with_owner_wf v e : entry_wf e -> 0 <= v < 2 ^ 32 -> entry_wf (with_owner v e).
Proof. intros [] Hv. by constructor. Qed.

Lemma fs_symlink_live target name s :
  live s -> wp (fs_symlink target name) (fun _ s' => live s') s.
Proof.
  intros Hl. unfold fs_symlink. wp_steps. case_if as Eg; [done|]. wp_step.
  apply orb_false_iff in Eg as [Eg Ef]. apply orb_false_iff in Eg as [Eg _].
  apply orb_false_iff in Eg as [_ Et]. apply negb_false_iff in Et.
  wp_call fs_write_live; [done| |].
  { unfold valid_symlink_target in Et. rewrite length_cstr.
    assert (strlen target <= 96)%nat; [|lia].
    apply valid_name_spec in Et as ((_ & Hlen) & _).
    destruct (char_at target =? SLASH) eqn:Ec.
    - apply Z.eqb_eq in Ec. rewrite <- length_cstr, cstr_tail by (by rewrite Ec).
      simpl. unfold FS_NAME_MAX in Hlen. lia.
    - rewrite length_cstr in Hlen. unfold FS_NAME_MAX in Hlen. lia. }
  intros ok s1 [Hl1 Hf]. destruct ok; cbn [negb]; [|done]. wp_steps.
  destruct (find_entry (entries s1) name) as [i|] eqn:Ef1; [|done].
  apply find_entry_Some in Ef1 as (e & He).
  assert (Hty : fe_type e = FS_TYPE_FILE).
  { eapply Hf; [done| |exact He]. by destruct (find_entry (entries s) name). }
  wp_step. wp_call (edit_entry_live i _ s1 e); [done|apply He| |done|done| |].
  - apply with_flags_wf; [|lia]. apply with_type_wf; [|unfold FS_TYPE_SYMLINK; lia].
    eapply live_lookup_wf; [exact Hl1|apply He].
  - right. by rewrite Hty.
  - intros _ s2 [Hl2 _]. apply wp_quiet; [auto with nova|]. intros b s3 H3. by eapply tables_live.
Qed.

Lemma chmod_bits mode :
  0 <= mode -> has mode (Z.lnot 0x1FF) = false -> mode < 2 ^ 9.
Proof.
  intros Hm Hh. unfold has in Hh. apply negb_false_iff, Z.eqb_eq in Hh.
  change 0x1FF with (2 ^ 9 - 1) in Hh. rewrite land_lnot_ones in Hh by lia.
  pose proof (Z.mod_pos_bound mode (2 ^ 9)). lia.
Qed.

(** The permission bits are replaced, the others kept. *)
Lemma chmod_flags flags mode :
  0 <= flags < 2 ^ 16 -> 0 <= mode < 2 ^ 9 ->
  0 <= Z.lor (Z.land flags (u16 (Z.lnot 0x1FF))) mode < 2 ^ 16.
Proof.
  intros Hf Hm. set (x := Z.lor _ _).
  assert (Hx : 0 <= x) by (apply Z.lor_nonneg; split; [apply Z.land_nonneg; lia|lia]).
  split; [done|]. destruct (decide (x = 0)) as [->|Hnz]; [lia|].
  apply Z.log2_lt_pow2; [lia|]. unfold x. rewrite Z.log2_lor by (try apply Z.land_nonneg; lia).
  apply Z.max_lub_lt.
  - eapply Z.le_lt_trans; [apply Z.log2_land; [lia|apply (wrap_bound 16); lia]|].
    apply Z.min_lt_iff. right. by vm_compute.
  - destruct (decide (mode = 0)) as [->|]; [simpl; lia|]. apply Z.log2_lt_pow2; lia.
Qed.

Lemma fs_chmod_live name mode s :
  live s -> 0 <= mode -> wp (fs_chmod name mode) (fun _ s' => live s') s.
Proof.
  intros Hl Hm. unfold fs_chmod. wp_steps. case_if as Eg; [done|].
  apply orb_false_iff in Eg as [_ Eg]. apply chmod_bits in Eg; [|done]. wp_steps.
  destruct (find_entry (entries s) name) as [i|] eqn:Ef; [|done]. wp_steps.
  apply find_entry_Some in Ef as (e & He). rewrite (entry_at_lookup _ _ _ (proj1 He)).
  case_if as Ea; [done|]. wp_step.
  pose proof (live_lookup_wf s i e Hl (proj1 He)) as Hwf.
  wp_call (edit_entry_live i _ s e); [done|apply He| |done|done|by left|].
  - apply with_flags_wf; [done|]. apply chmod_flags; [apply Hwf|lia].
  - intros _ s2 [Hl2 _]. apply wp_quiet; [auto with nova|]. intros b s3 H3. by eapply tables_live.
Qed.

Lemma fs_chown_live name owner s :
  live s -> 0 <= owner < 2 ^ 32 -> wp (fs_chown name owner) (fun _ s' => live s') s.
Proof.
  intros Hl Ho. unfold fs_chown. wp_steps. case_if as Eg; [done|]. wp_steps.
  destruct (find_entry (entries s) name) as [i|] eqn:Ef; [|done]. wp_steps.
  apply find_entry_Some in Ef as (e & He).
  wp_call (edit_entry_live i _ s e); [done|apply He| |done|done|by left|].
  - apply with_owner_wf; [|done]. eapply live_lookup_wf; [exact Hl|apply He].
  - intros _ s2 [Hl2 _]. apply wp_quiet; [auto with nova|]. intros b s3 H3. by eapply tables_live.
Qed.

(** Formatting starts from an empty tree, and a failed one leaves nothing
    mounted that was not. *)
Lemma format_v2_inv s : tree_inv s -> wp format_v2 (fun ok s' => tree_inv s' /\ (ok = true -> live s')) s.
Proof.
  intros [Hu Hm]. unfold wp, format_v2. case_if as Eg; [done|]. clear Eg.
  match goal with |- context [bind ?m ?k s] => set (body := bind m k) end.
  enough (wp body (fun ok s' => tree_inv s' /\ (ok = true -> live s')) s) by done.
  unfold body. wp_steps. set (s0 := with_entries _ _).
  assert (H0 : tree_inv s0) by (split; [done|intros _; apply tree_ok_empty]).
  assert (He : entries s0 = replicate FS_MAX_ENTRIES zero_entry) by done.
  clearbody s0. apply wp_quiet; [auto with nova|]. intros ok s1 H1.
  destruct ok; cbn [negb]; [|by split; [eapply tables_inv|]].
  wp_step. apply wp_quiet; [auto with nova|]. intros p s2 H2.
  case_if as Ep; [split; [by do 2 (eapply tables_inv; [done|])|done]|].
  wp_step. apply wp_quiet; [auto with nova|]. intros ok s3 H3. wp_steps.
  apply wp_quiet; [auto with nova|]. intros _ s4 H4. wp_steps.
  assert (H04 : tables s4 = tables s0) by congruence.
  assert (Ht : tree_ok (entries s4))
    by (rewrite (tables_entries _ _ H04), He; apply tree_ok_empty).
  apply (tables_inv _ _ H04) in H0 as [Hu4 _].
  split; [done|]. intros ->. done.
Qed.

End tree_steps.

(** ** The theorem *)

(** A call of the file system's interface. *)
Inductive fs_op :=
  | OpFormat
  | OpRead (name : list Z) (offset capacity : Z)
  | OpWrite (name data : list Z)
  | OpWriteAt (name : list Z) (offset : Z) (data : list Z)
  | OpDelete (name : list Z)
  | OpMkdir (name : list Z) (mode : Z)
  | OpSymlink (target name : list Z)
  | OpReadlink (name : list Z) (capacity : Z)
  | OpInfo (name : list Z) (follow : bool)
  | OpChmod (name : list Z) (mode : Z)
  | OpChown (name : list Z) (owner : Z)
  | OpIdentity (uid : Z) (privileged : bool).

(** The arguments are values of their C types. *)
Definition typed_op (op : fs_op) : Prop :=
  match op with
  | OpRead _ offset capacity => 0 <= offset < 2 ^ 64 /\ 0 <= capacity < 2 ^ 64
  | OpReadlink _ capacity => 0 <= capacity < 2 ^ 64
  | OpWrite _ data => Z.of_nat (length data) < 2 ^ 64
  | OpWriteAt _ offset data => 0 <= offset < 2 ^ 64 /\ Z.of_nat (length data) < 2 ^ 64
  | OpMkdir _ mode | OpChmod _ mode => 0 <= mode < 2 ^ 16
  | OpChown _ id | OpIdentity id _ => 0 <= id < 2 ^ 32
  | _ => True
  end.

Section tree_theorem.
Context {D H : Type} `{!BlockDevice D} `{!Allocator H}.
Notation FS := (st (FsState (D:=D) (H:=H))).
Implicit Types s : FsState (D:=D) (H:=H).

(** Runs a call; the result is whether it succeeded. *)
Definition run_op (op : fs_op) : FS bool :=
  match op with
  | OpFormat => fs_format
  | OpRead name offset capacity => r <- fs_read_at name offset capacity ;; ret (bool_decide (is_Some r))
  | OpWrite name data => fs_write name data
  | OpWriteAt name offset data => fs_write_at name offset data
  | OpDelete name => fs_delete name
  | OpMkdir name mode => fs_mkdir name mode
  | OpSymlink target name => fs_symlink target name
  | OpReadlink name capacity => r <- fs_readlink name capacity ;; ret (bool_decide (is_Some r))
  | OpInfo name follow => r <- fs_path_info name follow ;; ret (bool_decide (is_Some r))
  | OpChmod name mode => fs_chmod name mode
  | OpChown name owner => fs_chown name owner
  | OpIdentity uid privileged => fs_set_identity uid privileged ;;; ret true
  end.

(** Operations do nothing on a volume that is not mounted. *)
Lemma unmounted_guard (m : FS bool) k s :
  m = (ready <- gets mounted ;; k ready) -> (mounted s = false -> k false s = (false, s)) ->
  tree_inv s -> (live s -> wp m (fun _ s' => live s') s) -> tree_inv (m s).2.
Proof.
  intros -> Hk Hi Hl. destruct (mounted s) eqn:Em.
  - apply live_inv, Hl. by apply inv_live.
  - unfold bind, gets. rewrite Em, Hk; done.
Qed.

Lemma quiet_op {A} (m : FS A) (f : A -> bool) s :
  quiet m -> tree_inv s -> tree_inv ((r <- m ;; ret (f r)) s).2.
Proof. intros Hm. apply quiet_inv. apply quiet_bind; auto with nova. Qed.

Lemma run_op_inv op s : typed_op op -> tree_inv s -> tree_inv (run_op op s).2.
Proof.
  intros Ht Hi. destruct op; simpl in Ht; cbn [run_op]; try solve [apply quiet_op; auto with nova].
  - by apply format_v2_inv.
  - eapply (unmounted_guard _ _ s eq_refl); [done|done|]. intros Hl.
    by wp_call fs_write_live; [| |intros ok s' [? _]].
  - eapply (unmounted_guard _ _ s eq_refl); [done|done|]. intros Hl. by apply fs_write_at_live; try apply Ht.
  - eapply (unmounted_guard _ _ s eq_refl); [done|done|]. apply fs_delete_live.
  - eapply (unmounted_guard _ _ s eq_refl); [done|done|]. apply fs_mkdir_live.
  - eapply (unmounted_guard _ _ s eq_refl); [done|done|]. apply fs_symlink_live.
  - eapply (unmounted_guard _ _ s eq_refl); [done|done|]. intros Hl. by apply fs_chmod_live; try apply Ht.
  - eapply (unmounted_guard _ _ s eq_refl); [done|done|]. intros Hl. by apply fs_chown_live.
  - destruct Hi as [_ Hm]. done.
Qed.

(** Runs a sequence of calls. *)
Definition run_ops (ops : list fs_op) s : FsState := foldl (fun s op => (run_op op s).2) s ops.

(** [C3] The directory is always a tree: whatever calls are made on a volume, and
    whichever of them are refused or fail half-way for lack of memory, disk space
    or a working disk, the table of a mounted volume has 1024 well-formed entries,
    every entry in use has a valid path that no other entry has, and the parent of
    every path is a directory in use. *)
Theorem fs_tree_invariant ops s :
  Forall typed_op ops -> tree_inv s -> tree_inv (run_ops ops s).
Proof.
  intros Hops. revert s. induction Hops as [|op ops Hop _ IH]; intros s Hi; [done|].
  apply IH. by apply run_op_inv.
Qed.

End tree_theorem.
