(* ===== verification/FsData.v ===== *)
(** * kernel/filesystem.c: file contents on disk

    A file is a run of consecutive sectors; byte [k] of it is byte [k mod 512] of
    sector [k / 512].  The loops of the source that move data a sector or a part
    of one at a time are shown here to read and write exactly the bytes asked
    for. *)

From S2P Require Import Prelude Runtime Interfaces Filesystem FsNames FsFrame FsTree.

(** [lia] with quotients and remainders. *)
#[local] Ltac Zify.zify_post_hook ::= Z.to_euclidean_division_equations.

(** ** Rounds of the transfer loops *)

(** A loop that moves [n] bytes from [position] on, stopping at every sector
    boundary, takes this many rounds. *)
Definition rounds (n position : Z) : Z :=
  if n <=? 0 then 0 else (n + position mod SECTOR_SIZE + 511) / SECTOR_SIZE.

Definition chunk_at (n position : Z) : Z := Z.min n (SECTOR_SIZE - position mod SECTOR_SIZE).

Lemma rounds_step n position :
  0 < n -> rounds (n - chunk_at n position) (position + chunk_at n position) <= rounds n position - 1.
Proof.
  unfold rounds, chunk_at, SECTOR_SIZE. intros Hn.
  destruct (n <=? 0) eqn:E; [lia|]. clear E.
  destruct (Z.min_spec n (512 - position mod 512)) as [[Hm ->]|[Hm ->]].
  - rewrite Z.sub_diag. simpl. lia.
  - assert ((position + (512 - position mod 512)) mod 512 = 0) as -> by lia.
    destruct (_ <=? 0) eqn:E; lia.
Qed.

Lemma rounds_pos n position : 0 < n -> 0 < rounds n position.
Proof. unfold rounds, SECTOR_SIZE. intros. destruct (n <=? 0) eqn:E; lia. Qed.

Lemma rounds_fuel n position : rounds n position <= Z.of_nat (read_fuel n).
Proof. unfold rounds, read_fuel, SECTOR_SIZE. destruct (n <=? 0) eqn:E; lia. Qed.

(** ** Bytes of an extent *)

Section bytes.
Context {D : Type} `{!BlockDevice D}.
Implicit Types d : D.

Definition disk_byte d (start k : Z) : Z :=
  nth (Z.to_nat (k mod SECTOR_SIZE)) (bd_sector d (start + k / SECTOR_SIZE)) 0.

(** [n] bytes of the extent at [start], from byte [offset] on. *)
Definition file_bytes d (start offset n : Z) : list Z := disk_byte d start <$> seqZ offset n.

Lemma length_file_bytes d start offset n : length (file_bytes d start offset n) = Z.to_nat n.
Proof. unfold file_bytes. by rewrite length_fmap, length_seqZ. Qed.

Lemma disk_byte_is_byte d start k : is_byte (disk_byte d start k).
Proof.
  unfold disk_byte. destruct (bd_sector_ok d (start + k / SECTOR_SIZE)) as [Hl Hb].
  destruct (nth_in_or_default (Z.to_nat (k mod SECTOR_SIZE))
              (bd_sector d (start + k / SECTOR_SIZE)) 0) as [Hin| ->].
  - unfold bytes in Hb. rewrite Forall_forall in Hb. apply Hb. by apply list_elem_of_In.
  - unfold is_byte. lia.
Qed.

Lemma file_bytes_bytes d start offset n : bytes (file_bytes d start offset n).
Proof. apply Forall_fmap, Forall_true. intros. apply disk_byte_is_byte. Qed.

Lemma file_bytes_nil d start offset n : n <= 0 -> file_bytes d start offset n = [].
Proof. intros. unfold file_bytes. rewrite seqZ_nil by lia. done. Qed.

Lemma file_bytes_app d start offset n m :
  0 <= n -> 0 <= m ->
  file_bytes d start offset (n + m) = file_bytes d start offset n ++ file_bytes d start (offset + n) m.
Proof. intros. unfold file_bytes. rewrite seqZ_app by lia. apply fmap_app. Qed.

Lemma lookup_file_bytes d start offset n (i : nat) :
  Z.of_nat i < n -> file_bytes d start offset n !! i = Some (disk_byte d start (offset + Z.of_nat i)).
Proof. intros. unfold file_bytes. rewrite list_lookup_fmap, lookup_seqZ_lt by lia. done. Qed.

Lemma file_bytes_ext d d' start start' offset n :
  (forall k, offset <= k < offset + n -> disk_byte d start k = disk_byte d' start' k) ->
  file_bytes d start offset n = file_bytes d' start' offset n.
Proof.
  intros Hk. unfold file_bytes. apply list_fmap_ext. intros i x [-> Hi]%lookup_seqZ.
  apply Hk. lia.
Qed.

Lemma disk_byte_sector d d' start k :
  bd_sector d (start + k / SECTOR_SIZE) = bd_sector d' (start + k / SECTOR_SIZE) ->
  disk_byte d start k = disk_byte d' start k.
Proof. intros E. unfold disk_byte. by rewrite E. Qed.

(** A piece of one sector is a piece of the file. *)
Lemma slice_sector d start position n :
  0 <= n -> position mod SECTOR_SIZE + n <= SECTOR_SIZE ->
  slice (Z.to_nat (position mod SECTOR_SIZE)) (Z.to_nat n)
        (bd_sector d (start + position / SECTOR_SIZE)) = file_bytes d start position n.
Proof.
  unfold SECTOR_SIZE. intros Hn Hle. apply list_eq. intros i.
  destruct (bd_sector_ok d (start + position / 512)) as [Hlen _].
  destruct (decide (Z.of_nat i < n)) as [Hi|Hi].
  - rewrite lookup_file_bytes by done. unfold slice. rewrite lookup_take_lt by lia.
    rewrite lookup_drop. unfold disk_byte, SECTOR_SIZE.
    assert ((position + Z.of_nat i) / 512 = position / 512 /\
            (position + Z.of_nat i) mod 512 = position mod 512 + Z.of_nat i) as [-> ->] by lia.
    replace (Z.to_nat (position mod 512) + i)%nat
      with (Z.to_nat (position mod 512 + Z.of_nat i)) by lia.
    destruct (lookup_lt_is_Some_2 (bd_sector d (start + position / 512))
                (Z.to_nat (position mod 512 + Z.of_nat i)) ltac:(lia)) as [x Hx].
    by rewrite Hx, (nth_lookup_Some _ _ _ _ Hx).
  - rewrite !lookup_ge_None_2; [done|rewrite length_file_bytes; lia|].
    unfold slice. rewrite length_take. lia.
Qed.

(** The sector after [src] was stored in it at [within]. *)
Lemma disk_byte_blit d start position src old k :
  length old = 512%nat ->
  position mod SECTOR_SIZE + Z.of_nat (length src) <= SECTOR_SIZE ->
  bd_sector d (start + position / SECTOR_SIZE) = blit (Z.to_nat (position mod SECTOR_SIZE)) src old ->
  k / SECTOR_SIZE = position / SECTOR_SIZE ->
  disk_byte d start k =
    if decide (position <= k < position + Z.of_nat (length src))
    then nth (Z.to_nat (k - position)) src 0
    else nth (Z.to_nat (k mod SECTOR_SIZE)) old 0.
Proof.
  unfold SECTOR_SIZE. intros Hlen Hle Hs Hk. unfold disk_byte, SECTOR_SIZE. rewrite Hk, Hs.
  rewrite !nth_lookup, lookup_blit by lia.
  case_decide; case_decide; try lia. do 2 f_equal. lia.
Qed.

End bytes.

(** ** Reading *)

Section transfers.
Context {D H : Type} `{!BlockDevice D} `{!Allocator H}.
Implicit Types s : FsState (D:=D) (H:=H).

(** Disks with the same sectors hold the same files. *)
Lemma file_bytes_frame s s' start offset n :
  core_frame nowhere s s' -> file_bytes (disk s') start offset n = file_bytes (disk s) start offset n.
Proof. intros F. apply file_bytes_ext. intros. apply disk_byte_sector.
  apply (fr_sector _ _ _ F). by intros []. Qed.

Lemma frame_count W s s' : disk_frame W s s' -> sector_count s' = sector_count s.
Proof. intros [F _]. apply (fr_count _ _ _ F). Qed.

Lemma read_loop_spec fuel start offset cap buffer s :
  0 <= start -> 0 <= offset -> offset + cap < 2 ^ 63 ->
  start + (offset + cap + 511) / SECTOR_SIZE <= 2 ^ 32 ->
  Z.of_nat (length buffer) <= cap ->
  buffer = file_bytes (disk s) start offset (Z.of_nat (length buffer)) ->
  rounds (cap - Z.of_nat (length buffer)) (offset + Z.of_nat (length buffer)) <= Z.of_nat fuel ->
  wp (read_loop fuel start offset cap buffer)
     (fun r s' => disk_frame nowhere s s' /\
        (forall l, r = Some l -> l = file_bytes (disk s) start offset cap) /\
        (bd_healthy (disk s) -> start + (offset + cap + 511) / SECTOR_SIZE <= sector_count s ->
         is_Some r)) s.
Proof.
  unfold SECTOR_SIZE. intros Hst Hoff Hcap Hend. revert buffer s.
  induction fuel as [|fuel IH]; intros buffer s Hlen Hbuf Hfuel; cbn [read_loop];
    destruct (Z.of_nat (length buffer) <? cap) eqn:E.
  - exfalso. pose proof (rounds_pos (cap - Z.of_nat (length buffer))
                           (offset + Z.of_nat (length buffer))). lia.
  - apply wp_ret. split_and!; [apply disk_frame_refl|intros l [= <-]|done].
    rewrite Hbuf. f_equal. lia.
  - apply wp_bind. set (position := offset + Z.of_nat (length buffer)) in *. unfold SECTOR_SIZE.
    rewrite (wrap_small 64 position) by lia.
    rewrite (wrap_small 32 (position / 512)), (wrap_small 32) by lia.
    wp_call ata_read_sector_spec. intros [data|] s1 (F & Hd & Hok).
    2:{ apply wp_ret. split_and!; [done|done|]. intros Hh Hc. exfalso.
        specialize (Hok Hh ltac:(lia)). done. }
    destruct (Hd data eq_refl) as [-> Hr].
    set (chunk := Z.min (cap - Z.of_nat (length buffer)) (512 - position mod 512)).
    assert (Hs : slice (Z.to_nat (position mod 512)) (Z.to_nat chunk)
                   (bd_sector (disk s) (start + position / 512)) =
                 file_bytes (disk s) start position chunk)
      by (apply slice_sector; unfold SECTOR_SIZE; lia).
    rewrite Hs. set (buffer' := buffer ++ file_bytes (disk s) start position chunk).
    assert (Hl' : Z.of_nat (length buffer') = Z.of_nat (length buffer) + chunk)
      by (unfold buffer'; rewrite length_app, length_file_bytes; lia).
    wp_call (IH buffer' s1).
    + lia.
    + rewrite (file_bytes_frame s) by apply F. rewrite Hl', file_bytes_app by lia.
      unfold buffer'. fold position. by rewrite <- Hbuf.
    + rewrite Hl'. replace (offset + (Z.of_nat (length buffer) + chunk)) with (position + chunk) by lia.
      replace (cap - (Z.of_nat (length buffer) + chunk))
        with (cap - Z.of_nat (length buffer) - chunk) by lia.
      pose proof (rounds_step (cap - Z.of_nat (length buffer)) position ltac:(lia)) as Hst'.
      unfold chunk_at, SECTOR_SIZE in Hst'. fold chunk in Hst'. lia.
    + intros r s2 (F2 & Hr2 & Hok2). rewrite (file_bytes_frame s) in Hr2 by apply F.
      split_and!; [frames; done|done|]. intros Hh Hc. apply Hok2.
      * by apply F.
      * unfold sector_count. by rewrite (fr_count _ _ _ (proj1 F)).
  - apply wp_ret. split_and!; [apply disk_frame_refl|intros l [= <-]|done].
    rewrite Hbuf. f_equal. lia.
Qed.

(** Reading [capacity] bytes at [offset] of a file of [size] bytes. *)
Lemma read_raw_data_spec start size offset cap s :
  0 <= start -> 0 <= offset -> 0 <= cap -> size < 2 ^ 63 ->
  start + (size + 511) / SECTOR_SIZE <= 2 ^ 32 ->
  wp (read_raw_data start size offset cap)
     (fun r s' => frame nowhere s s' /\
        (forall l, r = Some l -> l = file_bytes (disk s) start offset (Z.min cap (size - offset))) /\
        (bd_healthy (disk s) -> heap_room s ->
         size <= offset \/ start + (size + 511) / SECTOR_SIZE <= sector_count s ->
         Z.min cap (size - offset) <= 0x7FFFFFFF -> is_Some r)) s.
Proof.
  unfold SECTOR_SIZE. intros Hst Hoff Hcap Hsize Hend. unfold read_raw_data.
  destruct (size <=? offset) eqn:E.
  { apply wp_ret. split_and!; [apply frame_refl|intros l [= <-]|done].
    rewrite file_bytes_nil by lia. done. }
  set (n := Z.min cap (size - offset)).
  eapply (with_buffer _ _ _ nowhere (fun r _ =>
            (forall l, r = Some l -> l = file_bytes (disk s) start offset n) /\
            (bd_healthy (disk s) -> start + (offset + n + 511) / 512 <= sector_count s ->
             is_Some r))).
  - intros h. wp_call (read_loop_spec _ _ _ n []).
    + done.
    + done.
    + lia.
    + unfold SECTOR_SIZE. lia.
    + simpl. lia.
    + done.
    + simpl. rewrite Z.sub_0_r. apply rounds_fuel.
    + intros r s' (F & Hr & Hok). done.
  - intros s' F Hroom. split_and!; [done|done|]. intros _ Hr. done.
  - intros r s' F [Hr Hok]. apply wp_ret. split_and!; [done| |].
    + intros l. destruct r as [l'|]; [|done].
      destruct (0x7FFFFFFF <? Z.of_nat (length l')); [done|]. intros [= <-]. by apply Hr.
    + intros Hh _ Hc Hn. destruct Hok as [l' ->]; [done|lia|].
      rewrite (Hr l' eq_refl), length_file_bytes.
      destruct (0x7FFFFFFF <? Z.of_nat (Z.to_nat n)) eqn:E2; [lia|]. by eexists.
Qed.

(** ** Writing *)

(** The sectors from [lba] to before [lba + n]. *)
Definition in_run (lba n : Z) : Z -> Prop := fun x => lba <= x < lba + n.

Lemma padded_sector data : bytes data -> is_sector (take 512 data ++ replicate (512 - length (take 512 data)) 0).
Proof.
  intros Hb. split.
  - rewrite length_app, length_replicate, length_take. lia.
  - apply bytes_app. split; [by apply bytes_take|apply bytes_zeroes].
Qed.

Lemma nth_padded data k :
  nth k (take 512 data ++ replicate (512 - length (take 512 data)) 0) 0 =
  if decide (k < 512)%nat then nth k data 0 else 0.
Proof.
  rewrite !nth_lookup. destruct (decide (k < length (take 512 data))%nat) as [Hk|Hk].
  - rewrite lookup_app_l by done. rewrite length_take in Hk. rewrite lookup_take_lt by lia.
    case_decide; [done|lia].
  - rewrite lookup_app_r by lia. rewrite length_take in *.
    destruct (decide (k < 512)%nat).
    + rewrite (lookup_ge_None_2 data) by lia. rewrite lookup_replicate_2 by lia. done.
    + rewrite lookup_ge_None_2; [done|]. rewrite length_replicate. lia.
Qed.

(** [n] blocks get the data, padded with zeroes. *)
Lemma write_blocks_spec n lba data s :
  0 <= lba -> lba + Z.of_nat n <= 2 ^ 32 -> bytes data ->
  wp (write_blocks n lba data)
     (fun ok s' => disk_frame (in_run lba (Z.of_nat n)) s s' /\
        (ok = true -> forall k, 0 <= k < SECTOR_SIZE * Z.of_nat n ->
           disk_byte (disk s') lba k = nth (Z.to_nat k) data 0) /\
        (bd_healthy (disk s) -> lba + Z.of_nat n <= sector_count s -> ok = true)) s.
Proof.
  unfold SECTOR_SIZE. revert lba data s. induction n as [|n IH]; intros lba data s Hl Hend Hb.
  { apply wp_ret. split_and!; [apply disk_frame_refl| |done]. intros _ k Hk. lia. }
  cbn [write_blocks]. wp_step. wp_call ata_write_sector_spec; [by apply padded_sector|].
  intros ok s1 (F & Hs & Hok). destruct ok.
  2:{ apply wp_ret. split_and!; [|done|].
      - eapply disk_frame_mono; [|exact F]. unfold in_run. intros x <-. lia.
      - intros Hh Hc. apply Hok; [done|lia]. }
  destruct (Hs eq_refl) as [Hs1 Hr]. destruct n as [|n].
  - apply wp_ret. split_and!; [| |done].
    + eapply disk_frame_mono; [|exact F]. unfold in_run. intros x <-. lia.
    + intros _ k Hk. unfold disk_byte, SECTOR_SIZE.
      assert (k / 512 = 0 /\ k mod 512 = k) as [-> ->] by lia.
      rewrite Z.add_0_r, Hs1, nth_padded. case_decide; [done|lia].
  - rewrite (wrap_small 32) by lia. wp_call IH; [lia|lia|by apply bytes_drop|].
    intros ok s2 (F2 & Hs2 & Hok2). split_and!.
    + frames; unfold in_run; intros x; [intros <-|]; lia.
    + intros -> k Hk. destruct (decide (k < 512)).
      * transitivity (disk_byte (disk s1) lba k).
        { apply disk_byte_sector. apply (fr_sector _ _ _ (proj1 F2)). unfold in_run, SECTOR_SIZE. lia. }
        unfold disk_byte, SECTOR_SIZE.
        assert (k / 512 = 0 /\ k mod 512 = k) as [-> ->] by lia.
        rewrite Z.add_0_r, Hs1, nth_padded. case_decide; [done|lia].
      * specialize (Hs2 eq_refl (k - 512) ltac:(lia)).
        rewrite nth_lookup, lookup_drop, <- nth_lookup in Hs2.
        replace (512 + Z.to_nat (k - 512))%nat with (Z.to_nat k) in Hs2 by lia.
        rewrite <- Hs2. unfold disk_byte, SECTOR_SIZE. f_equal; [f_equal; lia|].
        f_equal. lia.
    + intros Hh Hc. apply Hok2; [by apply F|].
      unfold sector_count. rewrite (fr_count _ _ _ (proj1 F)). unfold sector_count in Hc. lia.
Qed.

(** The packed entry. *)
Lemma length_encode_entry e : entry_wf e -> length (encode_entry e) = ENTRY_SIZE.
Proof.
  intros []. unfold encode_entry. rewrite !length_app, !length_le. destruct wf_name as [-> _]. done.
Qed.

Lemma bytes_encode_entry e : entry_wf e -> bytes (encode_entry e).
Proof.
  intros []. unfold encode_entry. destruct wf_name as [_ Hn].
  rewrite !bytes_app. auto 20 with nova.
Qed.

(** The directory sector that holds entry [i]. *)
Definition entry_lba (i : nat) : Z := FS_DIRECTORY_LBA + Z.of_nat (i / 4).

Definition entry_offset (i : nat) : nat := ((i mod 4) * ENTRY_SIZE)%nat.

Lemma entry_offset_bound i : (entry_offset i + ENTRY_SIZE <= 512)%nat.
Proof. unfold entry_offset, ENTRY_SIZE. pose proof (Nat.mod_upper_bound i 4). lia. Qed.

Lemma save_entry_spec i s :
  (i < FS_MAX_ENTRIES)%nat -> entry_wf (entry_at (entries s) i) ->
  wp (save_entry i)
     (fun ok s' => frame (eq (entry_lba i)) s s' /\
        (ok = true -> bd_sector (disk s') (entry_lba i) =
           blit (entry_offset i) (encode_entry (entry_at (entries s) i))
                (bd_sector (disk s) (entry_lba i))) /\
        (bd_healthy (disk s) -> heap_room s -> FS_DATA_LBA <= sector_count s -> ok = true)) s.
Proof.
  intros Hi Hwf. unfold save_entry.
  assert (Hlba : 0 <= entry_lba i < FS_DATA_LBA).
  { unfold entry_lba, FS_DIRECTORY_LBA, FS_DATA_LBA, FS_SUPER_LBA. unfold FS_MAX_ENTRIES in Hi.
    pose proof (Nat.Div0.div_lt_upper_bound i 4 256). lia. }
  fold (entry_lba i). rewrite (wrap_small 32) by (unfold FS_DATA_LBA in *; lia).
  set (sector := bd_sector (disk s) (entry_lba i)).
  assert (Hsec : is_sector (blit (entry_offset i) (encode_entry (entry_at (entries s) i)) sector)).
  { destruct (bd_sector_ok (disk s) (entry_lba i)) as [Hl Hb]. pose proof (entry_offset_bound i).
    split; [|apply bytes_blit; [by apply bytes_encode_entry|done]].
    rewrite length_blit; [done|]. rewrite length_encode_entry by done. fold sector in Hl. lia. }
  eapply (with_buffer _ _ _ (eq (entry_lba i)) (fun ok d =>
    (ok = true -> bd_sector d (entry_lba i) =
       blit (entry_offset i) (encode_entry (entry_at (entries s) i)) sector) /\
    (bd_healthy (disk s) -> FS_DATA_LBA <= sector_count s -> ok = true))).
  - intros h. wp_step. wp_call ata_read_sector_spec. intros [data|] s1 (F & Hd & Hok).
    + destruct (Hd data eq_refl) as [-> Hr]. wp_steps.
      rewrite (fr_entries _ _ _ (proj1 F)). simpl.
      wp_call ata_write_sector_spec; [exact Hsec|]. intros ok s2 (F2 & Hs & Hok2).
      split; [frames; done|]. split; [intros ->; by apply Hs|]. intros Hh Hc.
      apply Hok2; [by apply F|]. unfold sector_count.
      rewrite (fr_count _ _ _ (proj1 F)). simpl. unfold sector_count in Hc. lia.
    + apply wp_ret. split; [frames; done|]. split; [done|]. intros Hh Hc.
      by specialize (Hok Hh ltac:(unfold sector_count in *; simpl; lia)).
  - intros s' F Hn. by split_and!.
  - intros ok s' F [Hq1 Hq2]. apply wp_ret. split_and!; [done|done|]. by auto.
Qed.

(** ** Moving and patching extents, as [fs_write_at] does *)

Lemma relocate_blocks_spec n block old_start old_capacity replacement s :
  0 <= block -> 0 <= old_start -> old_start + old_capacity <= 2 ^ 32 ->
  0 <= replacement -> replacement + block + Z.of_nat n <= 2 ^ 32 ->
  old_start + old_capacity <= replacement ->
  wp (relocate_blocks n block old_start old_capacity replacement)
     (fun ok s' => disk_frame (in_run (replacement + block) (Z.of_nat n)) s s' /\
        (ok = true -> forall j, block <= j < block + Z.of_nat n ->
           bd_sector (disk s') (replacement + j) =
             if ((j <? old_capacity) && negb (old_start =? 0))%bool
             then bd_sector (disk s) (old_start + j) else replicate 512 0) /\
        (bd_healthy (disk s) -> replacement + block + Z.of_nat n <= sector_count s -> ok = true)) s.
Proof.
  revert block s. induction n as [|n IH]; intros block s Hb Hos Hoe Hr Hre Hd.
  { apply wp_ret. split_and!; [apply disk_frame_refl|intros; lia|done]. }
  cbn [relocate_blocks]. wp_step.
  set (want := if ((block <? old_capacity) && negb (old_start =? 0))%bool
               then bd_sector (disk s) (old_start + block) else replicate 512 0).
  eapply (wp_mono _ (fun r s1 => disk_frame nowhere s s1 /\
    (forall x, r = Some x -> x = want) /\
    (bd_healthy (disk s) -> replacement + block < sector_count s -> r = Some want))).
  { unfold want. destruct (_ && _)%bool eqn:E.
    - rewrite (wrap_small 32) by lia. wp_call ata_read_sector_spec.
      intros r s1 (F & Hx & Hok). split_and!; [done| |].
      + intros x Hrx. by apply Hx.
      + intros Hh Hc. apply Hok; [done|]. lia.
    - apply wp_ret. split_and!; [apply disk_frame_refl|congruence|done]. }
  intros r s1 (F1 & Hw & Hok1). destruct r as [x|].
  2:{ apply wp_ret. split_and!; [frames; done|done|]. intros Hh Hc.
      specialize (Hok1 Hh ltac:(lia)). done. }
  rewrite (Hw x eq_refl). rewrite (wrap_small 32) by lia. wp_step. wp_call ata_write_sector_spec.
  { unfold want. destruct (_ && _)%bool; [apply bd_sector_ok|]. split; [done|apply (bytes_zeroes 512)]. }
  intros ok s2 (F2 & Hs2 & Hok2). destruct ok.
  2:{ apply wp_ret. split_and!; [|done|].
      - frames. unfold in_run. intros ? <-. lia.
      - intros Hh Hc. apply Hok2; [by apply F1|]. unfold sector_count in *.
        rewrite (fr_count _ _ _ (proj1 F1)). lia. }
  destruct (Hs2 eq_refl) as [Hs2' Hr2]. wp_call IH; try lia.
  intros ok s3 (F3 & Hs3 & Hok3). split_and!.
  - frames; unfold in_run; intros y; [intros <-|]; lia.
  - intros -> j Hj. destruct (decide (j = block)) as [->|Hjb].
    + rewrite (fr_sector _ _ _ (proj1 F3)) by (unfold in_run; lia). done.
    + rewrite (Hs3 eq_refl j ltac:(lia)). case_if as E; [|done].
      rewrite (fr_sector _ _ _ (proj1 F2)) by lia.
      apply (fr_sector _ _ _ (proj1 F1)). by intros [].
  - intros Hh Hc. apply Hok3; [by apply F2, F1|]. unfold sector_count in *.
    rewrite (fr_count _ _ _ (proj1 F2)), (fr_count _ _ _ (proj1 F1)). lia.
Qed.

(** Bytes [position ..] of a file replaced by [src]. *)
Definition overlay (f : Z -> Z) (position : Z) (src : list Z) (k : Z) : Z :=
  if decide (position <= k < position + Z.of_nat (length src))
  then nth (Z.to_nat (k - position)) src 0 else f k.

(** A write to one sector is an overlay of the file. *)
Lemma store_overlay s s' start position src :
  position mod SECTOR_SIZE + Z.of_nat (length src) <= SECTOR_SIZE ->
  disk_frame (eq (start + position / SECTOR_SIZE)) s s' ->
  bd_sector (disk s') (start + position / SECTOR_SIZE) =
    blit (Z.to_nat (position mod SECTOR_SIZE)) src (bd_sector (disk s) (start + position / SECTOR_SIZE)) ->
  forall k, disk_byte (disk s') start k = overlay (disk_byte (disk s) start) position src k.
Proof.
  intros Hle F Hs k. unfold overlay. destruct (bd_sector_ok (disk s) (start + position / SECTOR_SIZE)) as [Hl _].
  destruct (decide (k / SECTOR_SIZE = position / SECTOR_SIZE)) as [Hk|Hk].
  - rewrite (disk_byte_blit _ _ _ _ _ _ Hl Hle Hs Hk). case_decide; [done|].
    unfold disk_byte. by rewrite Hk.
  - case_decide as Hd.
    + exfalso. unfold SECTOR_SIZE in *. lia.
    + apply disk_byte_sector, (fr_sector _ _ _ (proj1 F)). intros E. apply Hk. lia.
Qed.

Lemma overlay_app f position a b k :
  overlay (overlay f position a) (position + Z.of_nat (length a)) b k = overlay f position (a ++ b) k.
Proof.
  unfold overlay. rewrite length_app. case_decide as H1; case_decide as H2; try lia.
  - rewrite app_nth2 by lia. f_equal. lia.
  - case_decide; [|lia]. rewrite app_nth1 by lia. done.
  - case_decide; [lia|done].
Qed.

Lemma overlay_ext f g position src k :
  (forall k, f k = g k) -> overlay f position src k = overlay g position src k.
Proof. intros Hfg. unfold overlay. case_decide; [done|]. apply Hfg. Qed.

(** Zeroing what is zero already. *)
Lemma blit_same_zero off n l :
  (off + n <= length l)%nat -> (forall i, (off <= i < off + n)%nat -> nth i l 0 = 0) ->
  blit off (replicate n 0) l = l.
Proof.
  intros Hle Hz. apply list_eq. intros i. rewrite lookup_blit by (rewrite length_replicate; lia).
  rewrite length_replicate. case_decide as Hi; [|done]. rewrite lookup_replicate_2 by lia.
  specialize (Hz i Hi). rewrite nth_lookup in Hz.
  destruct (lookup_lt_is_Some_2 l i ltac:(lia)) as [x Hx]. rewrite Hx in Hz |- *.
  simpl in Hz. by rewrite Hz.
Qed.

Lemma nth_zeroes n k : nth k (replicate n 0) 0 = 0.
Proof.
  rewrite nth_lookup. destruct (replicate n 0 !! k) eqn:E; [|done].
  by apply lookup_replicate_1 in E as [-> _].
Qed.

(** The bytes between the old end of the file and [offset] become zero. *)
Lemma fill_gap_spec fuel start gap offset s :
  0 <= start -> 0 <= gap -> offset < 2 ^ 63 ->
  start + (offset + 511) / SECTOR_SIZE <= 2 ^ 32 ->
  rounds (offset - gap) gap <= Z.of_nat fuel ->
  wp (fill_gap fuel start gap offset)
     (fun ok s' => disk_frame (fun x => gap < offset /\ start <= x < start + (offset + 511) / SECTOR_SIZE) s s' /\
        (ok = true -> forall k, disk_byte (disk s') start k =
           overlay (disk_byte (disk s) start) gap (replicate (Z.to_nat (offset - gap)) 0) k) /\
        (bd_healthy (disk s) -> start + (offset + 511) / SECTOR_SIZE <= sector_count s -> ok = true)) s.
Proof.
  unfold SECTOR_SIZE. intros Hst Hg Ho Hend. revert gap s Hg.
  induction fuel as [|fuel IH]; intros gap s Hg Hf; cbn [fill_gap];
    destruct (gap <? offset) eqn:E.
  - pose proof (rounds_pos (offset - gap) gap). lia.
  - apply wp_ret. split_and!; [apply disk_frame_refl| |done]. intros _ k.
    replace (Z.to_nat (offset - gap)) with O by lia. unfold overlay. simpl. case_decide; [lia|done].
  - unfold SECTOR_SIZE. set (chunk := Z.min (offset - gap) (512 - gap mod 512)).
    assert (Hc : 0 < chunk <= offset - gap /\ gap mod 512 + chunk <= 512)
      by (unfold chunk; lia).
    rewrite (wrap_small 32 (gap / 512)), (wrap_small 32) by lia.
    assert (Hstep := rounds_step (offset - gap) gap ltac:(lia)).
    unfold chunk_at, SECTOR_SIZE in Hstep. fold chunk in Hstep.
    clearbody chunk. wp_step. wp_call ata_read_sector_spec. intros [data|] s1 (F1 & Hd & Hok).
    2:{ apply wp_ret. split_and!; [frames; done|done|]. intros Hh Hcn.
        by specialize (Hok Hh ltac:(lia)). }
    destruct (Hd data eq_refl) as [-> Hr].
    pose proof (bd_sector_ok (disk s) (start + gap / 512)) as [Hsl Hsb].
    wp_step. wp_call ata_write_sector_spec.
    { split; [rewrite length_blit; [done|]|apply bytes_blit; [apply bytes_zeroes|done]].
      rewrite length_replicate. lia. }
    intros ok s2 (F2 & Hs2 & Hok2).
    assert (F12 : disk_frame (eq (start + gap / 512)) s s2) by (frames; done).
    destruct ok.
    2:{ apply wp_ret. split_and!; [frames; intros; lia|done|].
        intros Hh Hcn. apply Hok2; [by apply F1|].
        rewrite (frame_count _ _ _ F1). lia. }
    destruct (Hs2 eq_refl) as [Hs2' _].
    assert (Hov := store_overlay s s2 start gap (replicate (Z.to_nat chunk) 0)
                     ltac:(rewrite length_replicate; unfold SECTOR_SIZE; lia) F12 Hs2').
    rewrite (wrap_small 64) by lia. wp_call IH; [lia| |].
    { replace (offset - (gap + chunk)) with (offset - gap - chunk) by lia. lia. }
    intros ok s3 (F3 & Hs3 & Hok3). split_and!.
    + apply (disk_frame_trans _ s s2 s3).
      * eapply disk_frame_mono; [|exact F12]. intros; lia.
      * eapply disk_frame_mono; [|exact F3]. cbn beta. intros; lia.
    + intros -> k. rewrite (Hs3 eq_refl k).
      replace (Z.to_nat (offset - gap)) with (Z.to_nat chunk + Z.to_nat (offset - (gap + chunk)))%nat by lia.
      rewrite replicate_add, <- overlay_app, length_replicate, Z2Nat.id by lia.
      by apply overlay_ext.
    + intros Hh Hcn. apply Hok3; [by apply F12|]. by rewrite (frame_count _ _ _ F12).
  - apply wp_ret. split_and!; [apply disk_frame_refl| |done]. intros _ k.
    replace (Z.to_nat (offset - gap)) with O by lia. unfold overlay. simpl. case_decide; [lia|done].
Qed.

(** The data goes to bytes [position ..] of the file.  The bytes before
    [position] that lie past the old end of the file were zeroed before. *)
Lemma write_loop_spec fuel start old_size position data s :
  0 <= start -> 0 <= old_size -> 0 <= position -> bytes data ->
  position + Z.of_nat (length data) < 2 ^ 63 ->
  start + (position + Z.of_nat (length data) + 511) / SECTOR_SIZE <= 2 ^ 32 ->
  data = [] \/ position mod SECTOR_SIZE = 0 \/
    (forall k, old_size <= k < position -> disk_byte (disk s) start k = 0) ->
  rounds (Z.of_nat (length data)) position <= Z.of_nat fuel ->
  wp (write_loop fuel start old_size position data)
     (fun ok s' =>
        disk_frame (fun x => start <= x < start + (position + Z.of_nat (length data) + 511) / SECTOR_SIZE) s s' /\
        (ok = true -> forall k, disk_byte (disk s') start k =
           overlay (disk_byte (disk s) start) position data k) /\
        (bd_healthy (disk s) ->
         start + (position + Z.of_nat (length data) + 511) / SECTOR_SIZE <= sector_count s -> ok = true)) s.
Proof.
  unfold SECTOR_SIZE. intros Hst Hos. revert position data s.
  assert (Hnil : forall position s k, overlay (disk_byte (disk s) start) position [] k = disk_byte (disk s) start k).
  { intros position s k. unfold overlay. simpl. case_decide; [lia|done]. }
  induction fuel as [|fuel IH]; intros position data s Hp Hb Hlen Hend Hz Hf.
  { destruct data as [|c data].
    - apply wp_ret. split_and!; [apply disk_frame_refl| |done]. intros _ k. by rewrite Hnil.
    - pose proof (rounds_pos (Z.of_nat (length (c :: data))) position). simpl length in *. lia. }
  destruct data as [|c data].
  { apply wp_ret. split_and!; [apply disk_frame_refl| |done]. intros _ k. by rewrite Hnil. }
  cbn [write_loop]. set (l := c :: data) in *. unfold SECTOR_SIZE.
  set (n := Z.of_nat (length l)) in *. assert (Hn : 0 < n) by (unfold n, l; simpl; lia).
  assert (Hln : length l = Z.to_nat n) by lia. clearbody n l. clear c data.
  set (chunk := Z.min n (512 - position mod 512)).
  assert (Hstep := rounds_step n position Hn).
  unfold chunk_at, SECTOR_SIZE in Hstep. fold chunk in Hstep.
  assert (Hc : 0 < chunk <= n /\ position mod 512 + chunk <= 512 /\
    (chunk <> n -> (position + chunk) mod 512 = 0)) by (unfold chunk; lia).
  clearbody chunk. rewrite (wrap_small 32 (position / 512)), (wrap_small 32) by lia.
  set (lba := start + position / 512).
  set (src := take (Z.to_nat chunk) l).
  assert (Hsrc : Z.of_nat (length src) = chunk) by (unfold src; rewrite length_take; lia).
  pose proof (bd_sector_ok (disk s) lba) as [Hsl Hsb].
  wp_step.
  eapply (wp_mono _ (fun r s1 => disk_frame nowhere s s1 /\
    (forall x, r = Some x -> is_sector x /\
       blit (Z.to_nat (position mod 512)) src x =
       blit (Z.to_nat (position mod 512)) src (bd_sector (disk s) lba)) /\
    (bd_healthy (disk s) -> lba < sector_count s -> is_Some r))).
  { case_if as Ef.
    - wp_step. wp_call ata_read_sector_spec. intros r s1 (F & Hd & Hok). apply wp_ret.
      split_and!; [done| |].
      2:{ intros Hh Hcn. rewrite (Hok Hh ltac:(lia)). by destruct (old_size <? position). }
      intros x Hx. destruct r as [old|]; [|done]. destruct (Hd old eq_refl) as [-> Hr].
      fold lba in Hx.
      destruct (old_size <? position) eqn:Eo; [|injection Hx as <-; done].
      injection Hx as <-. set (zf := if position - position mod 512 <? old_size then _ else _).
      assert (Hzf : 0 <= zf /\ old_size <= position - position mod 512 + zf) by (unfold zf; case_if as Ez; lia).
      destruct (zf <? position mod 512) eqn:Ez; [|done].
      rewrite blit_same_zero; [done|lia|]. intros i Hi. destruct Hz as [->|[Hz|Hz]]; [simpl in Hln; lia|lia|].
      specialize (Hz (position - position mod 512 + Z.of_nat i) ltac:(lia)).
      unfold disk_byte, SECTOR_SIZE in Hz.
      assert ((position - position mod 512 + Z.of_nat i) / 512 = position / 512 /\
              (position - position mod 512 + Z.of_nat i) mod 512 = Z.of_nat i) as [E1 E2] by lia.
      rewrite E1, E2, Nat2Z.id in Hz. done.
    - apply wp_ret. split_and!; [apply disk_frame_refl| |done]. intros x Hx%(inj Some). rewrite <- Hx.
      split; [split; [done|apply (bytes_zeroes 512)]|].
      apply orb_false_iff in Ef as [E1 E2]. apply negb_false_iff, Z.eqb_eq in E1, E2.
      rewrite E1. unfold blit. rewrite !drop_ge by (rewrite ?length_replicate; lia). done. }
  intros r s1 (F1 & Hx & Hok1). destruct r as [x|].
  2:{ apply wp_ret. split_and!; [frames; done|done|]. intros Hh Hcn.
      by destruct (Hok1 Hh ltac:(unfold lba; lia)). }
  destruct (Hx x eq_refl) as [[Hxl Hxb] Heq].
  wp_step. wp_call ata_write_sector_spec.
  { split; [rewrite length_blit; [done|]; lia|apply bytes_blit; [by apply bytes_take|done]]. }
  intros ok s2 (F2 & Hs2 & Hok2).
  assert (F12 : disk_frame (eq lba) s s2) by (frames; done).
  destruct ok.
  2:{ apply wp_ret. split_and!; [frames; intros y <-; unfold lba; lia|done|].
      intros Hh Hcn. apply Hok2; [by apply F1|]. rewrite (frame_count _ _ _ F1). unfold lba. lia. }
  destruct (Hs2 eq_refl) as [Hs2' _]. rewrite Heq in Hs2'.
  assert (Hov := store_overlay s s2 start position src ltac:(unfold SECTOR_SIZE; lia) F12 Hs2').
  rewrite (wrap_small 64) by lia.
  assert (Hld : Z.of_nat (length (drop (Z.to_nat chunk) l)) = n - chunk) by (rewrite length_drop; lia).
  wp_call IH; [lia|by apply bytes_drop|lia|rewrite Hld; lia| | |].
  - destruct (decide (chunk = n)) as [->|Hne]; [left|right; left; lia].
    apply drop_ge. lia.
  - rewrite Hld. lia.
  - rewrite Hld. intros ok s3 (F3 & Hs3 & Hok3). replace (position + chunk + (n - chunk)) with (position + n) in * by lia.
    split_and!.
    + apply (disk_frame_trans _ s s2 s3).
      * eapply disk_frame_mono; [|exact F12]. intros y <-. unfold lba. lia.
      * done.
    + intros -> k. rewrite (Hs3 eq_refl k). rewrite <- (take_drop (Z.to_nat chunk) l).
      rewrite take_drop at 1. fold src. rewrite <- overlay_app, Hsrc. by apply overlay_ext.
    + intros Hh Hcn. apply Hok3; [by apply F12|]. by rewrite (frame_count _ _ _ F12).
Qed.

End transfers.
