(* ===== verification/FsVolume.v ===== *)
(** * kernel/filesystem.c: a consistent volume

    [volume_ok] ties the table in memory to the disk: the extents of the files lie
    in the data area and do not overlap, the directory sectors hold the table and
    the superblock describes the volume.  [commit] is the one step all operations
    share: one entry changes in memory and on disk, with its data. *)

From S2P Require Import Prelude Runtime Interfaces Filesystem FsNames FsFrame FsTree FsData.

(** [lia] with quotients and remainders. *)
#[local] Ltac Zify.zify_post_hook ::= Z.to_euclidean_division_equations.

(** ** Extents *)

(** The file fits its extent, and the extent lies in the data area. *)
Definition extent_ok (count : Z) (e : FsEntry) : Prop :=
  fe_size e <= SECTOR_SIZE * fe_capacity_sectors e /\
  (fe_capacity_sectors e = 0 \/
   FS_DATA_LBA <= fe_start_lba e /\ fe_start_lba e + fe_capacity_sectors e <= count).

Definition disjoint (e e' : FsEntry) : Prop :=
  fe_capacity_sectors e = 0 \/ fe_capacity_sectors e' = 0 \/
  fe_start_lba e + fe_capacity_sectors e <= fe_start_lba e' \/
  fe_start_lba e' + fe_capacity_sectors e' <= fe_start_lba e.

Lemma disjoint_sym e e' : disjoint e e' -> disjoint e' e.
Proof. unfold disjoint. tauto. Qed.

Record layout_ok (count : Z) (es : list FsEntry) : Prop := {
  l_extent i e : es !! i = Some e -> entry_used e = true -> extent_ok count e;
  l_disjoint i j e e' : es !! i = Some e -> es !! j = Some e' -> i <> j ->
    entry_used e = true -> entry_used e' = true -> disjoint e e' }.

Lemma layout_ok_empty count n : layout_ok count (replicate n zero_entry).
Proof.
  constructor.
  - by intros i e [-> _]%lookup_replicate_1.
  - by intros i j e e' [-> _]%lookup_replicate_1.
Qed.

Lemma layout_insert count es i e' :
  layout_ok count es -> (i < length es)%nat ->
  (entry_used e' = true -> extent_ok count e') ->
  (forall j ej, es !! j = Some ej -> j <> i -> entry_used ej = true -> entry_used e' = true -> disjoint e' ej) ->
  layout_ok count (<[i := e']> es).
Proof.
  intros [He Hd] Hi He' Hd'. constructor.
  - intros j e Hj Hu. destruct (decide (j = i)) as [->|].
    + rewrite list_lookup_insert_eq in Hj by done. injection Hj as <-. by apply He'.
    + rewrite list_lookup_insert_ne in Hj by done. by eapply He.
  - intros j k e e2 Hj Hk Hjk Hu Hu2.
    destruct (decide (j = i)) as [->|]; destruct (decide (k = i)) as [->|]; [done| | |].
    + rewrite list_lookup_insert_eq in Hj by done. rewrite list_lookup_insert_ne in Hk by done.
      injection Hj as <-. by eapply Hd'.
    + rewrite list_lookup_insert_ne in Hj by done. rewrite list_lookup_insert_eq in Hk by done.
      injection Hk as <-. apply disjoint_sym. by eapply Hd'.
    + rewrite list_lookup_insert_ne in Hj, Hk by done. by eapply Hd.
Qed.

(** A fresh extent at [next_data_lba] overlaps nothing. *)
Lemma next_data_disjoint count es j ej cap e :
  count < 2 ^ 32 -> layout_ok count es -> es !! j = Some ej -> entry_used ej = true ->
  disjoint (with_extent (next_data_lba es) cap e) ej.
Proof.
  intros Hc [He _] Hj Hu. destruct (He j ej Hj Hu) as [_ [H0|[H1 H2]]]; [right; left; done|].
  right; right; right. simpl. apply (proj2 (next_data_lba_spec es) j); [done|done|lia].
Qed.

(** ** The packed structures *)

Lemma decode_encode_entry e : entry_wf e -> decode_entry (encode_entry e) = e.
Proof.
  intros [Hu Ht Hf Ho [Hn _] Hs Hz Hc Hm Hr]. destruct e as [us ty fl ow nm st sz cp md rs].
  simpl in *. unfold decode_entry, encode_entry, field. cbn [fe_used fe_type fe_flags fe_owner
    fe_name fe_start_lba fe_size fe_capacity_sectors fe_modified fe_reserved].
  slices. rewrite !of_le_le_small by (simpl; lia). done.
Qed.

(** ** Consistent volumes *)

Section volume.
Context {D H : Type} `{!BlockDevice D} `{!Allocator H}.
Implicit Types s : FsState (D:=D) (H:=H).

(** The directory sectors hold the table. *)
Definition mirror_ok (d : D) (es : list FsEntry) : Prop :=
  forall i e, es !! i = Some e ->
    slice (entry_offset i) ENTRY_SIZE (bd_sector d (entry_lba i)) = encode_entry e.

(** The superblock on disk is that of a version 2 volume. *)
Definition super_ok (d : D) : Prop :=
  let b := decode_super (bd_sector d FS_SUPER_LBA) in
  magic_matches b = true /\ is_current b = true.

Record volume_ok s : Prop := {
  v_live : live s;
  v_count : FS_DATA_LBA < bd_count (disk s);
  v_layout : layout_ok (bd_count (disk s)) (entries s);
  v_mirror : mirror_ok (disk s) (entries s);
  v_super : super_ok (disk s) }.

(** What a commit of [e'] writes: its directory sector and its extent. *)
Definition commit_area (i : nat) (e' : FsEntry) : Z -> Prop := fun x =>
  x = entry_lba i \/ entry_used e' = true /\ in_run (fe_start_lba e') (fe_capacity_sectors e') x.

Lemma entry_lba_bounds i : (i < FS_MAX_ENTRIES)%nat -> FS_SUPER_LBA < entry_lba i < FS_DATA_LBA.
Proof.
  unfold FS_MAX_ENTRIES, entry_lba, FS_DIRECTORY_LBA, FS_DATA_LBA, FS_SUPER_LBA. intros.
  pose proof (Nat.Div0.div_lt_upper_bound i 4 256). lia.
Qed.

(** Two slots of the same directory sector do not overlap. *)
Lemma slice_blit_other (i j : nat) (src dst : list Z) :
  i <> j -> (i / 4 = j / 4)%nat -> length src = ENTRY_SIZE -> length dst = 512%nat ->
  slice (entry_offset j) ENTRY_SIZE (blit (entry_offset i) src dst) =
  slice (entry_offset j) ENTRY_SIZE dst.
Proof.
  intros Hij Hd Hs Hl. apply list_eq. intros k. unfold slice.
  destruct (decide (k < ENTRY_SIZE)%nat) as [Hk|Hk].
  - rewrite !lookup_take_lt, !lookup_drop by done.
    pose proof (entry_offset_bound i) as Hb. unfold ENTRY_SIZE, entry_offset in *.
    rewrite lookup_blit by lia. case_decide as Hc; [|done]. exfalso.
    assert ((i mod 4 <> j mod 4)%nat) as Hmod.
    { pose proof (Nat.div_mod_eq i 4). pose proof (Nat.div_mod_eq j 4). congruence. }
    clear - Hmod Hc Hk Hs. unfold ENTRY_SIZE in Hc. generalize dependent (i mod 4)%nat. generalize (j mod 4)%nat. intros; lia.
  - by rewrite !lookup_take_ge by lia.
Qed.

Context (s s' : FsState (D:=D) (H:=H)) (i : nat) (e e' : FsEntry).
Hypothesis Hvol : volume_ok s.
Hypothesis Hi : entries s !! i = Some e.
Hypothesis Htree : tree_ok (<[i := e']> (entries s)).
Hypothesis Hframe : frame (commit_area i e') (with_entries (<[i := e']> (entries s)) s) s'.
Hypothesis Hsaved : bd_sector (disk s') (entry_lba i) =
  blit (entry_offset i) (encode_entry e') (bd_sector (disk s) (entry_lba i)).
Hypothesis Hextent : entry_used e' = true -> extent_ok (bd_count (disk s)) e'.
Hypothesis Hdisj : forall j ej, entries s !! j = Some ej -> j <> i -> entry_used ej = true ->
  entry_used e' = true -> disjoint e' ej.

Lemma commit_index : (i < FS_MAX_ENTRIES)%nat.
Proof.
  destruct (v_live _ Hvol) as (_ & _ & Ht). rewrite <- (t_length _ Ht). by eapply lookup_lt_Some.
Qed.

Lemma commit_entries : entries s' = <[i := e']> (entries s).
Proof. apply (fr_entries _ _ _ (proj1 Hframe)). Qed.

Lemma commit_wf : entry_wf e'.
Proof.
  eapply lookup_wf; [apply Htree|]. apply list_lookup_insert_eq. by eapply lookup_lt_Some.
Qed.

(** The sectors below the data area other than the entry's own are untouched. *)
Lemma commit_low x : x < FS_DATA_LBA -> x <> entry_lba i -> bd_sector (disk s') x = bd_sector (disk s) x.
Proof.
  intros Hx Hne. apply (fr_sector _ _ _ (proj1 Hframe)). intros [?|[Hu Hr]]; [done|].
  destruct (Hextent Hu) as [_ [H0|[H1 _]]]; unfold in_run in Hr; lia.
Qed.

Lemma commit_mirror : mirror_ok (disk s') (entries s').
Proof.
  rewrite commit_entries. intros j ej Hj. pose proof commit_index as Hi4.
  pose proof commit_wf as Hwf.
  assert (Hil : (i < length (entries s))%nat) by by eapply lookup_lt_Some.
  destruct (bd_sector_ok (disk s) (entry_lba i)) as [Hl _].
  destruct (decide (j = i)) as [->|Hne].
  - rewrite list_lookup_insert_eq in Hj by done. injection Hj as <-. rewrite Hsaved.
    pose proof (entry_offset_bound i).
    rewrite <- (length_encode_entry e') by done. apply slice_blit_eq.
    rewrite length_encode_entry by done. lia.
  - rewrite list_lookup_insert_ne in Hj by done. rewrite <- (v_mirror _ Hvol j ej Hj).
    destruct (decide (entry_lba j = entry_lba i)) as [Hlba|Hlba].
    + rewrite Hlba, Hsaved. apply slice_blit_other; [done| |by apply length_encode_entry|done].
      unfold entry_lba in Hlba. lia.
    + rewrite commit_low; [done| |done].
      destruct (v_live _ Hvol) as (_ & _ & Ht). apply lookup_lt_Some in Hj.
      rewrite (t_length _ Ht) in Hj. by apply entry_lba_bounds.
Qed.

Lemma commit_volume_ok : volume_ok s'.
Proof.
  destruct Hvol as [(Hu & Hm & Ht) Hc Hl Hmir Hs]. destruct Hframe as [F _].
  assert (Hcount : bd_count (disk s') = bd_count (disk s)) by apply (fr_count _ _ _ F).
  constructor.
  - split_and!.
    + rewrite (fr_uid _ _ _ F). apply Hu.
    + rewrite (fr_uid _ _ _ F). apply Hu.
    + by rewrite (fr_mounted _ _ _ F).
    + by rewrite commit_entries.
  - by rewrite Hcount.
  - rewrite Hcount, commit_entries. apply layout_insert; try done. by eapply lookup_lt_Some.
  - apply commit_mirror.
  - unfold super_ok. pose proof (entry_lba_bounds i commit_index).
    rewrite commit_low; [done|unfold FS_SUPER_LBA, FS_DATA_LBA in *; lia|lia].
Qed.

(** The other files keep their bytes. *)
Lemma commit_other j ej :
  entries s !! j = Some ej -> j <> i -> entry_used ej = true ->
  file_bytes (disk s') (fe_start_lba ej) 0 (fe_size ej) =
  file_bytes (disk s) (fe_start_lba ej) 0 (fe_size ej).
Proof.
  intros Hj Hne Hu. apply file_bytes_ext. intros k Hk. apply disk_byte_sector.
  apply (fr_sector _ _ _ (proj1 Hframe)).
  destruct (l_extent _ _ (v_layout _ Hvol) j ej Hj Hu) as [Hsz Hex].
  unfold SECTOR_SIZE in *. pose proof (entry_lba_bounds i commit_index) as Hb.
  unfold FS_DATA_LBA in *. intros [E|[Hu' Hr]]; [lia|].
  unfold in_run in Hr. destruct (Hdisj j ej Hj Hne Hu Hu') as [H0|[H0|[H0|H0]]]; lia.
Qed.

End volume.

(** ** Writing a whole file *)

Section write_entry.
Context {D H : Type} `{!BlockDevice D} `{!Allocator H}.
Implicit Types s : FsState (D:=D) (H:=H).

(** The entry with room for [size] bytes, and after they were written. *)
Definition grown (es : list FsEntry) (size : Z) (e : FsEntry) : FsEntry :=
  if fe_capacity_sectors e <? sectors_for size
  then with_extent (next_data_lba es) (sectors_for size) e else e.

Definition written (es : list FsEntry) (size : Z) (e : FsEntry) : FsEntry :=
  with_size_modified size (grown es size e).

Lemma sectors_for_small size :
  0 <= size < 2 ^ 63 ->
  0 < sectors_for size /\ size <= SECTOR_SIZE * sectors_for size /\
  (size + 511) / SECTOR_SIZE <= sectors_for size.
Proof.
  intros Hs. unfold sectors_for, SECTOR_SIZE. rewrite (wrap_small 64) by lia.
  destruct (_ =? 0) eqn:E; lia.
Qed.

Lemma frame_with_entries W s s' es : frame W s s' -> frame W (with_entries es s) (with_entries es s').
Proof. intros [[] ?]. split; [by constructor|done]. Qed.

Lemma with_entries_id s : with_entries (entries s) s = s.
Proof. by destruct s. Qed.

Lemma with_entries_twice s a b : with_entries a (with_entries b s) = with_entries a s.
Proof. done. Qed.

Lemma edit_entry_eq i f s e :
  entries s !! i = Some e -> edit_entry i f s = (tt, with_entries (<[i := f e]> (entries s)) s).
Proof. intros He. unfold edit_entry, modify. by rewrite (entry_at_lookup _ _ _ He). Qed.

(** The outcome of [write_entry_data] on entry [i]. *)
Definition wrote (i : nat) (e : FsEntry) (data : list Z) s s' : Prop :=
  let size := Z.of_nat (length data) in
  let e' := written (entries s) size e in
  frame (fun x => x = entry_lba i \/ in_run (fe_start_lba e') (sectors_for size) x)
        (with_entries (<[i := e']> (entries s)) s) s' /\
  bd_sector (disk s') (entry_lba i) =
    blit (entry_offset i) (encode_entry e') (bd_sector (disk s) (entry_lba i)) /\
  file_bytes (disk s') (fe_start_lba e') 0 size = data /\
  fe_start_lba e' + sectors_for size <= bd_count (disk s).

Lemma file_bytes_nth (d : D) start data :
  (forall k, 0 <= k < Z.of_nat (length data) -> disk_byte d start k = nth (Z.to_nat k) data 0) ->
  file_bytes d start 0 (Z.of_nat (length data)) = data.
Proof.
  intros Hk. apply list_eq. intros j. destruct (decide (j < length data)%nat) as [Hj|Hj].
  - rewrite lookup_file_bytes by lia. rewrite Z.add_0_l, Hk by lia. rewrite Nat2Z.id.
    destruct (lookup_lt_is_Some_2 data j Hj) as [x Hx]. by rewrite Hx, (nth_lookup_Some _ _ _ _ Hx).
  - rewrite !lookup_ge_None_2; [done|lia|rewrite length_file_bytes; lia].
Qed.

Lemma write_entry_data_spec i data s e :
  (i < FS_MAX_ENTRIES)%nat -> entries s !! i = Some e -> entry_wf e -> bytes data ->
  Z.of_nat (length data) < 2 ^ 63 ->
  fe_capacity_sectors e = 0 \/ FS_DATA_LBA <= fe_start_lba e ->
  FS_DATA_LBA <= sector_count s ->
  let size := Z.of_nat (length data) in
  wp (write_entry_data i data)
     (fun ok s' => (ok = true -> wrote i e data s s') /\
        (bd_healthy (disk s) -> heap_room s ->
         fe_start_lba (grown (entries s) size e) + sectors_for size <= sector_count s -> ok = true)) s.
Proof.
  intros Hi He Hwf Hb Hlen Hex Hcount size. unfold write_entry_data. fold size. cbv zeta.
  destruct (sectors_for_small size ltac:(lia)) as (Hq & Hq2 & Hq3).
  pose proof (bd_count_bound (disk s)) as Hcb. unfold sector_count in *.
  set (e1 := grown (entries s) size e).
  case_if as Ebig.
  { apply wp_ret. split; [done|]. intros _ _ Hc. exfalso. fold e1 in Hc.
    assert (0 <= fe_start_lba e1); [|lia].
    unfold e1, grown. case_if as E; [|apply Hwf].
    simpl. destruct (next_data_lba_spec (entries s)) as [Hn _]. unfold FS_DATA_LBA in Hn. lia. }
  apply wp_bind, wp_gets, wp_bind. rewrite (entry_at_lookup _ _ _ He).
  set (s1 := with_entries (<[i := e1]> (entries s)) s).
  assert (Hi' : (i < length (entries s))%nat) by by eapply lookup_lt_Some.
  assert (He1 : entries s1 !! i = Some e1) by (by apply list_lookup_insert_eq).
  assert (Hstart : FS_DATA_LBA <= fe_start_lba e1).
  { unfold e1, grown. case_if as E.
    - apply (proj1 (next_data_lba_spec (entries s))).
    - destruct Hex as [H0|Hex]; [lia|done]. }
  assert (Hwf1 : entry_wf e1).
  { unfold e1, grown. case_if as E; [|done]. apply with_extent_wf; [done| |lia].
    destruct (next_data_lba_spec (entries s)) as [Hn _]. unfold FS_DATA_LBA in Hn. lia. }
  eapply (wp_mono _ (fun _ s' => s' = s1)).
  { unfold s1, e1, grown. destruct (fe_capacity_sectors e <? _); wp_steps.
    - unfold wp. rewrite (edit_entry_eq _ _ _ e) by done. done.
    - rewrite list_insert_id by done. by rewrite with_entries_id. }
  intros _ s1' ->. wp_steps. rewrite (entry_at_lookup _ _ _ He1).
  unfold sector_count. change (disk s1) with (disk s).
  case_if as Eroom; [apply wp_ret; split; [done|]; intros; lia|].
  set (e' := with_size_modified size e1).
  eapply (with_buffer _ _ _ (in_run (fe_start_lba e1) (sectors_for size))
    (fun ok d => (ok = true -> file_bytes d (fe_start_lba e1) 0 size = data) /\
                 (bd_healthy (disk s) -> ok = true))).
  - intros h. wp_call write_blocks_spec; [unfold FS_DATA_LBA in *; lia|lia|done|].
    rewrite Z2Nat.id by lia. intros ok s2 (F & Hd & Hok). split; [done|]. split.
    + intros ->. apply file_bytes_nth. intros k Hk. apply Hd; [done|]. fold size in Hk. lia.
    + intros Hh. apply Hok; [done|]. unfold sector_count. simpl. lia.
  - intros s2 F Hroom. split; [done|]. intros _ Hr _. by destruct Hroom.
  - intros ok s2 F [Hd Hok]. destruct ok; cbn [negb].
    2:{ apply wp_ret. split; [done|]. intros Hh _ _. by apply Hok. }
    wp_step. unfold wp at 1. assert (He2 : entries s2 !! i = Some e1).
    { by rewrite (fr_entries _ _ _ (proj1 F)). }
    rewrite (edit_entry_eq _ _ _ e1) by done. cbn [fst snd]. fold e'.
    set (s3 := with_entries (<[i := e']> (entries s2)) s2).
    assert (Hes3 : entries s3 = <[i := e']> (entries s)).
    { unfold s3. simpl. rewrite (fr_entries _ _ _ (proj1 F)). unfold s1. simpl.
      by rewrite list_insert_insert_eq. }
    assert (Hat3 : entry_at (entries s3) i = e').
    { apply entry_at_lookup. rewrite Hes3. by apply list_lookup_insert_eq. }
    assert (F3 : frame (in_run (fe_start_lba e1) (sectors_for size))
                   (with_entries (<[i := e']> (entries s)) s) s3).
    { unfold s3. rewrite (fr_entries _ _ _ (proj1 F)). unfold s1 at 1. simpl.
      rewrite list_insert_insert_eq. change (with_entries (<[i := e']> (entries s)) s)
        with (with_entries (<[i := e']> (entries s)) s1). by apply frame_with_entries. }
    wp_call save_entry_spec; [done| |].
    { rewrite Hat3. apply with_size_modified_wf; [done|lia]. }
    rewrite Hat3. intros ok s4 (F4 & Hsave & Hok4).
    pose proof (entry_lba_bounds i Hi) as Hlba. split.
    + intros ->. unfold wrote. fold size. fold e1.
      change (written (entries s) size e) with e'. change (fe_start_lba e') with (fe_start_lba e1).
      split_and!.
      * apply (frame_trans _ _ s3).
        -- eapply frame_mono; [|exact F3]. by right.
        -- eapply frame_mono; [|exact F4]. intros x ->. by left.
      * rewrite Hsave by done. f_equal. rewrite (fr_sector _ _ _ (proj1 F3)); [done|].
        unfold in_run. lia.
      * rewrite <- Hd by done. apply file_bytes_ext. intros k Hk. apply disk_byte_sector.
        apply (fr_sector _ _ _ (proj1 F4)). unfold SECTOR_SIZE, FS_DATA_LBA in *. lia.
      * lia.
    + intros Hh Hr _. apply Hok4.
      * apply (fr_healthy _ _ _ (proj1 F3)), Hh.
      * apply (frame_room _ _ _ F3). exact Hr.
      * unfold sector_count. by rewrite (fr_count _ _ _ (proj1 F3)).
Qed.

End write_entry.
