(* ===== verification/FsRefine.v ===== *)
(** * kernel/filesystem.c: the abstract file system

    To its callers NovaFS is a map from paths to nodes: a type, permission bits,
    an owner and the bytes of the file.  [view] extracts this map from the table
    and the disk; [spec_op] says what each call does to it.  Successful calls
    refine the specification. *)

From S2P Require Import Prelude Runtime Interfaces Filesystem FsNames FsFrame FsTree FsData FsVolume.

(** [lia] with quotients and remainders. *)
#[local] Ltac Zify.zify_post_hook ::= Z.to_euclidean_division_equations.

(** ** Nodes and maps *)

Record Node := mkNode { n_type : Z; n_flags : Z; n_owner : Z; n_data : list Z }.

Definition Volume : Type := list Z -> option Node.

(** [entry_mode], and the permission checks, on nodes. *)
Definition node_mode (n : Node) : Z :=
  entry_mode (mkEntry 0 (n_type n) (n_flags n) 0 [] 0 0 0 0 0).

Definition node_writable (uid : Z) (privileged : bool) (n : Node) : Prop :=
  privileged = true \/ uid = n_owner n /\ has (node_mode n) 0x80 = true \/
  uid <> n_owner n /\ has (node_mode n) 0x2 = true.

Definition node_readable (uid : Z) (privileged : bool) (n : Node) : Prop :=
  privileged = true \/ uid = n_owner n /\ has (node_mode n) 0x100 = true \/
  uid <> n_owner n /\ has (node_mode n) 0x4 = true.

(** One path is changed. *)
Definition update (p : list Z) (n : option Node) (v v' : Volume) : Prop :=
  forall q, v' q = if decide (cstr q = p) then n else v q.

Definition unchanged (v v' : Volume) : Prop := forall q, v' q = v q.

(** Following at most [depth] symlinks. *)
Fixpoint follow (depth : nat) (v : Volume) (p : list Z) : option (list Z) :=
  match depth with
  | O => None
  | S depth =>
      match v p with
      | None => None
      | Some n =>
          if negb (n_type n =? FS_TYPE_SYMLINK) then Some (cstr p)
          else match link_name p (n_data n) with
               | None => None
               | Some q => follow depth v q
               end
      end
  end.

(** The path a write goes to: a new file, or the file the name leads to. *)
Definition write_target (v : Volume) (name p : list Z) : Prop :=
  match v name with
  | Some n => if n_type n =? FS_TYPE_SYMLINK then follow 8 v (cstr name) = Some p else p = cstr name
  | None => p = cstr name
  end.

(** A new node may be put at [p]: the path is free and its parent a directory. *)
Definition can_create (v : Volume) (p : list Z) : Prop :=
  path_ok p /\ v p = None /\
  forall d, parent p = Some d -> exists n, v d = Some n /\ n_type n = FS_TYPE_DIRECTORY.

(** [data] stored at [offset] of [old]; a gap is filled with zeroes. *)
Definition splice (offset : Z) (data old : list Z) : list Z :=
  let o := Z.to_nat offset in
  take o old ++ replicate (o - length old) 0 ++ data ++ drop (o + length data) old.

(** What a successful call does. *)
Definition spec_op (uid : Z) (privileged : bool) (op : fs_op) (v v' : Volume) : Prop :=
  match op with
  | OpFormat => forall q, v' q = None
  | OpRead _ _ _ | OpReadlink _ _ | OpInfo _ _ | OpIdentity _ _ => unchanged v v'
  | OpWrite name data =>
      exists p, write_target v name p /\
      match v p with
      | None => can_create v p /\ update p (Some (mkNode FS_TYPE_FILE 0x1B0 uid data)) v v'
      | Some n => n_type n = FS_TYPE_FILE /\ node_writable uid privileged n /\
                  update p (Some (mkNode FS_TYPE_FILE (n_flags n) (n_owner n) data)) v v'
      end
  | OpWriteAt name offset data =>
      exists p, write_target v name p /\
      match v p with
      | None => can_create v p /\
                update p (Some (mkNode FS_TYPE_FILE 0x1B0 uid (splice offset data []))) v v'
      | Some n => n_type n = FS_TYPE_FILE /\ node_writable uid privileged n /\
                  update p (Some (mkNode FS_TYPE_FILE (n_flags n) (n_owner n)
                                   (splice offset data (n_data n)))) v v'
      end
  | OpDelete name =>
      exists n, v name = Some n /\ node_writable uid privileged n /\
      (n_type n = FS_TYPE_DIRECTORY -> forall q m, v q = Some m -> parent (cstr q) <> Some (cstr name)) /\
      update (cstr name) None v v'
  | OpMkdir name mode =>
      can_create v (cstr name) /\ 0 <= mode < 2 ^ 9 /\
      update (cstr name) (Some (mkNode FS_TYPE_DIRECTORY (if mode =? 0 then 0x1FF else mode) uid [])) v v'
  | OpSymlink target name =>
      can_create v (cstr name) /\
      update (cstr name) (Some (mkNode FS_TYPE_SYMLINK 0x1FF uid (cstr target))) v v'
  | OpChmod name mode =>
      exists n, v name = Some n /\ (privileged = true \/ uid = n_owner n) /\ 0 <= mode < 2 ^ 9 /\
      update (cstr name) (Some (mkNode (n_type n)
        (Z.lor (Z.land (n_flags n) (u16 (Z.lnot 0x1FF))) mode) (n_owner n) (n_data n))) v v'
  | OpChown name owner =>
      exists n, v name = Some n /\ privileged = true /\
      update (cstr name) (Some (mkNode (n_type n) (n_flags n) owner (n_data n))) v v'
  end.

(** ** The view of a state *)

Section view.
Context {D H : Type} `{!BlockDevice D} `{!Allocator H}.
Implicit Types s : FsState (D:=D) (H:=H).

Definition node_of (d : D) (e : FsEntry) : Node :=
  mkNode (fe_type e) (fe_flags e) (fe_owner e) (file_bytes d (fe_start_lba e) 0 (fe_size e)).

Definition view s : Volume := fun p =>
  match find_entry (entries s) p with
  | Some i => Some (node_of (disk s) (entry_at (entries s) i))
  | None => None
  end.

Lemma view_at s q i e :
  unique_paths (entries s) -> at_path (entries s) i (cstr q) e -> view s q = Some (node_of (disk s) e).
Proof.
  intros Hu He. unfold view. rewrite (find_entry_at _ _ _ _ Hu He).
  by rewrite (entry_at_lookup _ _ _ (proj1 He)).
Qed.

Lemma view_none s q : no_path (entries s) (cstr q) -> view s q = None.
Proof. intros Hn. unfold view. by rewrite (proj2 (find_entry_None _ _) Hn). Qed.

Lemma view_Some s q n :
  view s q = Some n -> exists i e, at_path (entries s) i (cstr q) e /\ n = node_of (disk s) e.
Proof.
  unfold view. destruct (find_entry (entries s) q) as [i|] eqn:E; [|done].
  apply find_entry_Some in E as (e & He). intros [= <-]. exists i, e. split; [done|].
  by rewrite (entry_at_lookup _ _ _ (proj1 He)).
Qed.

(** [view] only looks at the string. *)
Lemma view_cstr s q q' : cstr q = cstr q' -> view s q = view s q'.
Proof.
  intros E. unfold view. assert (find_entry (entries s) q = find_entry (entries s) q') as ->; [|done].
  unfold find_entry. generalize O. induction (entries s) as [|e es IH]; intros k; simpl; [done|].
  rewrite IH. assert ((strcmp (fe_name e) q =? 0) = (strcmp (fe_name e) q' =? 0)) as ->; [|done].
  apply eq_true_iff_eq. rewrite !Z.eqb_eq, !strcmp_eq_zero. by rewrite E.
Qed.

Lemma cstr_cstr l : cstr (cstr l) = cstr l.
Proof. apply cstr_id, cstr_no_nul. Qed.

Lemma view_idem s q : view s (cstr q) = view s q.
Proof. apply view_cstr, cstr_cstr. Qed.

(** Reading changes nothing one can see. *)
Lemma view_frame s s' : frame nowhere s s' -> unchanged (view s) (view s').
Proof.
  intros [F _] q. unfold view. rewrite (fr_entries _ _ _ F).
  destruct (find_entry _ q); [|done]. unfold node_of. by rewrite (file_bytes_frame s s') by done.
Qed.

Lemma unique_of s : volume_ok s -> unique_paths (entries s).
Proof. intros Hv. apply (t_unique _ (proj2 (proj2 (v_live _ Hv)))). Qed.

(** The commit of one entry changes one path. *)
Lemma commit_view s s' i e e' p :
  volume_ok s -> entries s !! i = Some e -> tree_ok (<[i := e']> (entries s)) ->
  frame (commit_area i e') (with_entries (<[i := e']> (entries s)) s) s' ->
  bd_sector (disk s') (entry_lba i) =
    blit (entry_offset i) (encode_entry e') (bd_sector (disk s) (entry_lba i)) ->
  (entry_used e' = true -> extent_ok (bd_count (disk s)) e') ->
  (forall j ej, entries s !! j = Some ej -> j <> i -> entry_used ej = true ->
     entry_used e' = true -> disjoint e' ej) ->
  (entry_used e = true -> cstr (fe_name e) = p) ->
  (entry_used e' = true -> cstr (fe_name e') = p) ->
  entry_used e = true \/ entry_used e' = true ->
  volume_ok s' /\
  update p (if entry_used e' then Some (node_of (disk s') e') else None) (view s) (view s').
Proof.
  intros Hv Hi Ht F Hs Hx Hd Hp Hp' Hor. split.
  { by apply (commit_volume_ok s s' i e e'). }
  assert (Hes : entries s' = <[i := e']> (entries s)) by (apply (fr_entries _ _ _ (proj1 F))).
  assert (Hil : (i < length (entries s))%nat) by by eapply lookup_lt_Some.
  assert (Hu' : unique_paths (entries s')) by (rewrite Hes; apply Ht).
  intros q. case_decide as Hq.
  - destruct (entry_used e') eqn:Eu.
    + apply (view_at _ _ i); [done|]. rewrite Hes. apply at_path_insert; [done|left].
      rewrite Hq. by rewrite Hp'.
    + apply view_none. rewrite Hes. intros j x [(_ & _ & ? & _)|[Hj Hx']]%at_path_insert; [congruence| |done].
      destruct Hor as [Hue|Hue]; [|congruence]. apply Hj. symmetry. eapply (unique_of s Hv); [|exact Hx'].
      split_and!; [exact Hi|done|]. rewrite Hq. by apply Hp.
  - destruct (view s q) as [n|] eqn:Ev.
    + apply view_Some in Ev as (j & x & Hj & ->).
      assert (j <> i) as Hne.
      { intros ->. destruct Hj as (Hj & Hux & Hpx). simplify_eq. rewrite Hp in Hpx by done. congruence. }
      rewrite (view_at s' q j x); [|done|].
      * f_equal. unfold node_of. f_equal. destruct Hj as (Hj & Hux & _).
        by eapply (commit_other s s' i e e').
      * rewrite Hes. apply at_path_insert; [done|]. by right.
    + apply view_none. rewrite Hes. intros j x [(_ & _ & Hu & Hpx)|[Hj Hx']]%at_path_insert; [| |done].
      * rewrite Hp' in Hpx by done. congruence.
      * rewrite (view_at s q j x) in Ev; [done|by apply unique_of|done].
Qed.

End view.

(** ** The calls *)

Section calls.
Context {D H : Type} `{!BlockDevice D} `{!Allocator H}.
Implicit Types s : FsState (D:=D) (H:=H).

Lemma may_write_node s e :
  may_write s e = true -> node_writable (current_uid s) (current_privileged s) (node_of (disk s) e).
Proof.
  unfold may_write, node_writable. destruct (current_privileged s); [by left|]. intros Hm. right.
  assert (node_mode (node_of (disk s) e) = entry_mode e) as -> by done. simpl.
  destruct (current_uid s =? fe_owner e) eqn:E; [left|right]; (split; [lia|done]).
Qed.

Lemma may_read_node s e :
  may_read s e = true <-> node_readable (current_uid s) (current_privileged s) (node_of (disk s) e).
Proof.
  unfold may_read, node_readable.
  assert (node_mode (node_of (disk s) e) = entry_mode e) as -> by done. cbn [n_owner node_of].
  destruct (current_privileged s); [tauto|].
  destruct (current_uid s =? fe_owner e) eqn:E; [apply Z.eqb_eq in E|apply Z.eqb_neq in E];
    intuition congruence.
Qed.

Lemma tree_of s : volume_ok s -> tree_ok (entries s).
Proof. intros Hv. apply (proj2 (proj2 (v_live _ Hv))). Qed.

Lemma index_bound s i e : volume_ok s -> entries s !! i = Some e -> (i < FS_MAX_ENTRIES)%nat.
Proof. intros Hv He. rewrite <- (t_length _ (tree_of s Hv)). by eapply lookup_lt_Some. Qed.

Lemma wf_of s i e : volume_ok s -> entries s !! i = Some e -> entry_wf e.
Proof. intros Hv He. eapply lookup_wf; [apply (tree_of s Hv)|done]. Qed.

Lemma extent_of s i e :
  volume_ok s -> entries s !! i = Some e -> entry_used e = true -> extent_ok (bd_count (disk s)) e.
Proof. intros Hv. apply (l_extent _ _ (v_layout _ Hv)). Qed.

(** A frame keeps a volume consistent. *)
Lemma volume_frame s s' : volume_ok s -> frame nowhere s s' -> volume_ok s'.
Proof.
  intros [(Hu & Hm & Ht) Hc Hl Hmir Hs] [F _].
  assert (Hsec : forall x, bd_sector (disk s') x = bd_sector (disk s) x).
  { intros x. apply (fr_sector _ _ _ F). by intros []. }
  constructor.
  - unfold live. rewrite (fr_uid _ _ _ F), (fr_mounted _ _ _ F), (fr_entries _ _ _ F). split_and!; try apply Hu; done.
  - by rewrite (fr_count _ _ _ F).
  - by rewrite (fr_count _ _ _ F), (fr_entries _ _ _ F).
  - intros i e. rewrite (fr_entries _ _ _ F), Hsec. apply Hmir.
  - unfold super_ok. by rewrite Hsec.
Qed.

(** Changing the attributes of entry [i] on disk: same path, same extent. *)
Lemma save_attributes s i e e' p s1 :
  volume_ok s -> at_path (entries s) i p e -> tree_ok (<[i := e']> (entries s)) ->
  fe_used e' = fe_used e -> fe_name e' = fe_name e -> fe_start_lba e' = fe_start_lba e ->
  fe_size e' = fe_size e -> fe_capacity_sectors e' = fe_capacity_sectors e ->
  s1 = with_entries (<[i := e']> (entries s)) s ->
  wp (save_entry i)
     (fun ok s' => ok = true -> volume_ok s' /\
        update p (Some (mkNode (fe_type e') (fe_flags e') (fe_owner e') (n_data (node_of (disk s) e))))
               (view s) (view s')) s1.
Proof.
  intros Hv (He & Hu & Hp) Ht Hus Hn Hst Hsz Hcap ->.
  assert (Hil : (i < length (entries s))%nat) by by eapply lookup_lt_Some.
  assert (Hat : entry_at (<[i := e']> (entries s)) i = e')
    by (apply entry_at_lookup; by apply list_lookup_insert_eq).
  assert (Hwf' : entry_wf e')
    by (eapply lookup_wf; [apply Ht|by apply list_lookup_insert_eq]).
  assert (Hused' : entry_used e' = true) by (unfold entry_used in *; by rewrite Hus).
  wp_call save_entry_spec; [by eapply index_bound|simpl; by rewrite Hat|].
  simpl. rewrite Hat. intros ok s' (F & Hs & _) ->.
  destruct (commit_view s s' i e e' p) as [Hv' Hup]; try done.
  - eapply frame_mono; [|exact F]. intros x <-. by left.
  - by apply Hs.
  - intros _. unfold extent_ok. rewrite Hsz, Hcap, Hst. by eapply extent_of.
  - intros j ej Hj Hne Huj _. unfold disjoint. rewrite Hst, Hcap.
    by eapply (l_disjoint _ _ (v_layout _ Hv) i j).
  - intros _. by rewrite Hn.
  - by left.
  - split; [done|]. rewrite Hused' in Hup. intros q. rewrite Hup. case_decide; [|done].
    unfold node_of. simpl. do 2 f_equal. rewrite Hst, Hsz.
    apply file_bytes_ext. intros k Hk. apply disk_byte_sector, (fr_sector _ _ _ (proj1 F)).
    destruct (extent_of s i e Hv He Hu) as [H1 H2].
    pose proof (entry_lba_bounds i (index_bound s i e Hv He)).
    unfold SECTOR_SIZE, FS_DATA_LBA in *. lia.
Qed.

Lemma mode_low mode : 0 <= mode -> has mode (Z.lnot 0x1FF) = false -> 0 <= mode < 2 ^ 9.
Proof. intros. split; [done|]. by apply chmod_bits. Qed.

(** A successful call leaves a consistent volume and does what is specified. *)
Definition refines (op : fs_op) s : Prop :=
  wp (run_op op) (fun ok s' => ok = true ->
    volume_ok s' /\ spec_op (current_uid s) (current_privileged s) op (view s) (view s')) s.

Lemma chmod_refines name mode s :
  volume_ok s -> 0 <= mode < 2 ^ 16 -> refines (OpChmod name mode) s.
Proof.
  intros Hv Hm. unfold refines. cbn [run_op]. unfold fs_chmod. wp_steps. case_if as Eg; [done|].
  apply orb_false_iff in Eg as [_ Eg]. apply mode_low in Eg; [|lia]. wp_steps.
  destruct (find_entry (entries s) name) as [i|] eqn:Ef; [|done]. wp_steps.
  apply find_entry_Some in Ef as (e & He). rewrite (entry_at_lookup _ _ _ (proj1 He)).
  case_if as Ea; [done|]. apply negb_false_iff in Ea. wp_step. unfold wp at 1.
  rewrite (edit_entry_eq _ _ _ e) by apply He. cbn [fst snd].
  set (e' := with_flags _ e).
  assert (Ht : tree_ok (<[i := e']> (entries s))).
  { pose proof (wf_of s i e Hv (proj1 He)) as Hwf.
    apply (tree_edit _ i e); [by apply tree_of|apply He| |done|done|by left].
    apply with_flags_wf; [done|]. apply chmod_flags; [apply Hwf|lia]. }
  wp_call (save_attributes s i e e' (cstr name) _ Hv He Ht); try done.
  intros ok s2 Hok ->. destruct (Hok eq_refl) as [Hv' Hup]. split; [done|].
  exists (node_of (disk s) e). split_and!; [| |lia|lia|done].
  - apply (view_at _ _ i); [by apply unique_of|done].
  - by rewrite orb_true_iff, Z.eqb_eq in Ea.
Qed.

Lemma chown_refines name owner s :
  volume_ok s -> 0 <= owner < 2 ^ 32 -> refines (OpChown name owner) s.
Proof.
  intros Hv Ho. unfold refines. cbn [run_op]. unfold fs_chown. wp_steps. case_if as Eg; [done|].
  apply orb_false_iff in Eg as [Eg _]. apply orb_false_iff in Eg as [_ Eg]. apply negb_false_iff in Eg.
  wp_steps. destruct (find_entry (entries s) name) as [i|] eqn:Ef; [|done]. wp_steps.
  apply find_entry_Some in Ef as (e & He). unfold wp at 1.
  rewrite (edit_entry_eq _ _ _ e) by apply He. cbn [fst snd].
  set (e' := with_owner owner e).
  assert (Ht : tree_ok (<[i := e']> (entries s))).
  { apply (tree_edit _ i e); [by apply tree_of|apply He| |done|done|by left].
    apply with_owner_wf; [|done]. by eapply wf_of, He. }
  wp_call (save_attributes s i e e' (cstr name) _ Hv He Ht); try done.
  intros ok s2 Hok ->. destruct (Hok eq_refl) as [Hv' Hup]. split; [done|].
  exists (node_of (disk s) e). split_and!; [|done|done].
  apply (view_at _ _ i); [by apply unique_of|done].
Qed.

Lemma delete_refines name s : volume_ok s -> refines (OpDelete name) s.
Proof.
  intros Hv. unfold refines. cbn [run_op]. unfold fs_delete. wp_steps. case_if as Eg; [done|]. wp_steps.
  destruct (find_entry (entries s) name) as [i|] eqn:Ef; [|done]. wp_steps.
  apply find_entry_Some in Ef as (e & He). rewrite (entry_at_lookup _ _ _ (proj1 He)).
  case_if as Ew; [done|]. apply negb_false_iff in Ew. wp_steps. case_if as Ec; [done|]. wp_step.
  unfold wp at 1. rewrite (edit_entry_eq _ _ _ e) by apply He. cbn [fst snd].
  assert (Hc : fe_type e = FS_TYPE_DIRECTORY ->
    forall j x q, at_path (entries s) j q x -> j <> i -> parent q <> Some (cstr name)).
  { intros Hty. rewrite Hty in Ec. simpl in Ec. by apply has_child_false. }
  assert (Ht : tree_ok (<[i := zero_entry]> (entries s)))
    by (by eapply tree_remove; [apply tree_of| |]).
  assert (Hil : (i < length (entries s))%nat) by (destruct He; by eapply lookup_lt_Some).
  assert (Hat : entry_at (<[i := zero_entry]> (entries s)) i = zero_entry)
    by (apply entry_at_lookup; by apply list_lookup_insert_eq).
  wp_call save_entry_spec; [by eapply index_bound, He|simpl; rewrite Hat; apply zero_entry_wf|].
  simpl. rewrite Hat. intros ok s' (F & Hs & _) ->.
  destruct (commit_view s s' i e zero_entry (cstr name)) as [Hv' Hup]; try done; try (left; apply He);
    try (intros; apply He).
  - eapply frame_mono; [|exact F]. intros x <-. by left.
  - by apply Hs.
  - split; [done|]. exists (node_of (disk s) e). split_and!; [|by apply may_write_node| |done].
    + apply (view_at _ _ i); [by apply unique_of|done].
    + intros Hty q m (j & x & Hx & _)%view_Some Hpar.
      destruct (decide (j = i)) as [->|Hj].
      * destruct He as (He & _ & Hpe), Hx as (Hx & _ & Hpx). simplify_eq.
        apply parent_shorter in Hpar. rewrite <- Hpx, Hpe in Hpar. lia.
      * by eapply Hc.
Qed.

(** Reading part of a file, as a piece of its bytes. *)
Lemma file_bytes_piece (d : D) start size offset cap :
  0 <= offset -> 0 <= cap ->
  file_bytes d start offset (Z.min cap (size - offset)) =
  take (Z.to_nat cap) (drop (Z.to_nat offset) (file_bytes d start 0 size)).
Proof.
  intros Ho Hc. apply list_eq. intros k.
  destruct (decide (Z.of_nat k < Z.min cap (size - offset))) as [Hk|Hk].
  - rewrite lookup_file_bytes by done. rewrite lookup_take_lt, lookup_drop by lia.
    rewrite lookup_file_bytes by lia. do 2 f_equal. lia.
  - rewrite !lookup_ge_None_2; [done| |rewrite length_file_bytes; lia].
    rewrite length_take, length_drop, length_file_bytes. lia.
Qed.

Lemma read_entry_spec s i e offset cap :
  volume_ok s -> entries s !! i = Some e -> entry_used e = true -> 0 <= offset -> 0 <= cap ->
  wp (read_entry_data e offset cap)
     (fun r s' => frame nowhere s s' /\
        (forall l, r = Some l ->
           l = take (Z.to_nat cap) (drop (Z.to_nat offset) (n_data (node_of (disk s) e)))) /\
        (bd_healthy (disk s) -> heap_room s -> Z.min cap (fe_size e - offset) <= 0x7FFFFFFF -> is_Some r)) s.
Proof.
  intros Hv He Hu Ho Hc. destruct (extent_of s i e Hv He Hu) as [Hsz Hex].
  pose proof (wf_of s i e Hv He) as Hwf. pose proof (wf_start _ Hwf). pose proof (wf_capacity _ Hwf).
  pose proof (wf_size _ Hwf). pose proof (bd_count_bound (disk s)). pose proof (v_count _ Hv) as Hcount.
  unfold SECTOR_SIZE, FS_DATA_LBA in *.
  unfold read_entry_data. wp_call read_raw_data_spec; unfold SECTOR_SIZE; try lia.
  intros r s' (F & Hr & Hok). split_and!; [done| |].
  - intros l ->. rewrite (Hr l eq_refl). by apply file_bytes_piece.
  - intros Hh Hroom Hmax. apply Hok; [done|done| |done]. unfold sector_count.
    destruct (decide (fe_size e = 0)); [left|right]; lia.
Qed.

(** Symlinks are followed as specified. *)
Lemma resolve_refines n name s :
  volume_ok s ->
  wp (resolve_loop n name)
     (fun r s' => frame nowhere s s' /\
        forall i, r = Some i -> exists p e, at_path (entries s) i p e /\
          follow n (view s) name = Some p /\ fe_type e <> FS_TYPE_SYMLINK) s.
Proof.
  intros Hv. enough (Hgen : forall s1, frame nowhere s s1 ->
    wp (resolve_loop n name)
     (fun r s' => frame nowhere s s' /\
        forall i, r = Some i -> exists p e, at_path (entries s) i p e /\
          follow n (view s) name = Some p /\ fe_type e <> FS_TYPE_SYMLINK) s1)
    by (apply Hgen, frame_refl).
  revert name. induction n as [|n IH]; intros name s1 F1; cbn [resolve_loop]; [done|].
  pose proof (volume_frame _ _ Hv F1) as Hv1.
  wp_steps. rewrite (fr_entries _ _ _ (proj1 F1)).
  destruct (find_entry (entries s) name) as [i|] eqn:Ef; [|done].
  wp_steps. rewrite (fr_entries _ _ _ (proj1 F1)). pose proof Ef as Ef'.
  apply find_entry_Some in Ef as (e & He). rewrite (entry_at_lookup _ _ _ (proj1 He)).
  assert (Hview : view s name = Some (node_of (disk s) e)).
  { unfold view. rewrite Ef'. by rewrite (entry_at_lookup _ _ _ (proj1 He)). }
  cbn [follow]. rewrite Hview. cbn [n_type node_of].
  destruct (fe_type e =? FS_TYPE_SYMLINK) eqn:Ety; cbn [negb].
  - case_if as Esz; [done|]. wp_step. pose proof (wf_size _ (wf_of s i e Hv (proj1 He))).
    wp_call (read_entry_spec s1 i e); [done| |apply He|lia|lia|].
    { rewrite (fr_entries _ _ _ (proj1 F1)). apply He. }
    intros [t|] s2 (F2 & Ht & _).
    2:{ apply wp_ret. split; [by eapply frame_trans|done]. }
    assert (F : frame nowhere s s2) by (by eapply frame_trans).
    case_if as El; [done|].
    assert (t = n_data (node_of (disk s) e)) as ->.
    { rewrite (Ht t eq_refl). simpl. rewrite drop_0, (file_bytes_frame s s1) by apply F1.
      apply take_ge. rewrite length_file_bytes. lia. }
    destruct (link_name name (n_data (node_of (disk s) e))) as [name'|]; [|done].
    by apply IH.
  - apply wp_ret. split; [done|]. intros j [= <-]. exists (cstr name), e. split_and!; [done|done|lia].
Qed.

(** The entry a name leads to. *)
Lemma resolve_entry_refines name s :
  volume_ok s ->
  wp (resolve_entry name)
     (fun r s' => frame nowhere s s' /\
        forall i, r = Some i -> exists p e, at_path (entries s) i p e /\
          follow 8 (view s) (cstr name) = Some p /\ fe_type e <> FS_TYPE_SYMLINK) s.
Proof. apply resolve_refines. Qed.

Lemma can_create_at s name :
  volume_ok s -> valid_name name = true -> no_path (entries s) (cstr name) ->
  parent_directory_exists (entries s) name = true -> can_create (view s) (cstr name).
Proof.
  intros Hv Hn Hno Hp. split_and!.
  - by apply valid_name_spec.
  - apply view_none. by rewrite cstr_cstr.
  - intros d Hd. apply parent_directory_exists_spec in Hp. rewrite Hd in Hp.
    destruct Hp as (i & e & He & Hty). exists (node_of (disk s) e). split; [|done].
    apply (view_at _ _ i); [by apply unique_of|]. destruct He as (He & Hu & <-).
    by rewrite cstr_cstr.
Qed.

Lemma fresh_layout count es i e0 name type mode uid :
  layout_ok count es -> es !! i = Some e0 -> layout_ok count (<[i := fresh_entry name type mode uid]> es).
Proof.
  intros Hl Hi. apply layout_insert; [done|by eapply lookup_lt_Some| |].
  - intros _. split; [simpl; lia|by left].
  - intros j ej _ _ _ _. by left.
Qed.

(** A new entry is saved. *)
Lemma create_commit s i e0 name type mode :
  volume_ok s -> 0 <= type < 2 ^ 8 -> valid_name name = true -> no_path (entries s) (cstr name) ->
  parent_directory_exists (entries s) name = true ->
  entries s !! i = Some e0 -> entry_used e0 = false ->
  let e := fresh_entry name type mode (current_uid s) in
  wp (save_entry i)
     (fun ok s' => ok = true -> volume_ok s' /\
        frame (eq (entry_lba i)) (with_entries (<[i := e]> (entries s)) s) s' /\
        update (cstr name) (Some (mkNode type (Z.land mode 0x1FF) (current_uid s) [])) (view s) (view s'))
     (with_entries (<[i := e]> (entries s)) s).
Proof.
  intros Hv Hty Hn Hno Hp Hi Hf e. destruct (v_live _ Hv) as (Hu & _ & Ht).
  assert (Hil : (i < length (entries s))%nat) by by eapply lookup_lt_Some.
  assert (Hat : entry_at (<[i := e]> (entries s)) i = e)
    by (apply entry_at_lookup; by apply list_lookup_insert_eq).
  wp_call save_entry_spec; [by eapply index_bound|cbn [entries with_entries]; rewrite Hat; by apply fresh_entry_wf|].
  cbn [entries with_entries]. rewrite Hat. intros ok s' (F & Hs & _) ->.
  destruct (commit_view s s' i e0 e (cstr name)) as [Hv' Hup]; try done.
  - by eapply tree_fresh.
  - eapply frame_mono; [|exact F]. intros x <-. by left.
  - by apply Hs.
  - intros _. split; [simpl; lia|by left].
  - intros j ej _ _ _ _. by left.
  - congruence.
  - intros _. by apply fresh_entry_path.
  - by right.
Qed.

Lemma mkdir_refines name mode s :
  volume_ok s -> 0 <= mode < 2 ^ 16 -> refines (OpMkdir name mode) s.
Proof.
  intros Hv Hm. unfold refines. cbn [run_op]. unfold fs_mkdir. wp_steps. case_if as Eg; [done|].
  apply orb_false_iff in Eg as [_ Eg]. apply mode_low in Eg; [|lia]. wp_step.
  wp_call allocate_entry_spec. intros [i|] s1; [|intros ->; done].
  intros (Hn & Hno & Hp & (e0 & He0 & Hf) & ->).
  wp_call (create_commit s i e0); try done.
  intros ok s' Hok ->. destruct (Hok eq_refl) as (Hv' & _ & Hup). split; [done|].
  split_and!; [by apply can_create_at|lia|lia|].
  intros q. rewrite (Hup q). case_decide; [|done]. do 2 f_equal.
  change 0x1FF with (2 ^ 9 - 1) at 2. rewrite land_ones_mod by lia.
  destruct (mode =? 0); apply Z.mod_small; lia.
Qed.

(** *** Writing a whole file *)

Lemma wrote_frame i e data s s1 s' :
  frame nowhere s s1 -> wrote i e data s1 s' -> wrote i e data s s'.
Proof.
  intros F (F' & Hs & Hd & Hc).
  assert (Hsec : forall x, bd_sector (disk s1) x = bd_sector (disk s) x).
  { intros x. apply (fr_sector _ _ _ (proj1 F)). by intros []. }
  rewrite (fr_entries _ _ _ (proj1 F)) in *. rewrite Hsec in Hs. unfold wrote.
  rewrite (fr_count _ _ _ (proj1 F)) in Hc. split_and!; try done.
  eapply frame_trans; [|exact F']. apply frame_nowhere. by apply frame_with_entries.
Qed.

Lemma written_same es size e : same_file e (written es size e).
Proof. unfold written, grown. by destruct (_ <? _). Qed.

Lemma written_attributes es size e :
  fe_type (written es size e) = fe_type e /\ fe_flags (written es size e) = fe_flags e /\
  fe_owner (written es size e) = fe_owner e /\ fe_size (written es size e) = size.
Proof. unfold written, grown. by destruct (_ <? _). Qed.

Lemma written_wf es size e :
  entry_wf e -> 0 <= size < 2 ^ 63 -> sectors_for size < 2 ^ 32 -> entry_wf (written es size e).
Proof.
  intros Hwf Hs Hq. apply with_size_modified_wf; [|lia]. unfold grown. case_if as E; [|done].
  apply with_extent_wf; [done| |].
  - destruct (next_data_lba_spec es) as [Hn _]. unfold FS_DATA_LBA in Hn. lia.
  - destruct (sectors_for_small size Hs). lia.
Qed.

(** The extent of a written file. *)
Lemma written_extent count es i e size :
  layout_ok count es -> es !! i = Some e -> entry_used e = true -> 0 <= size < 2 ^ 63 ->
  count < 2 ^ 32 -> fe_start_lba (written es size e) + sectors_for size <= count ->
  extent_ok count (written es size e) /\
  sectors_for size <= fe_capacity_sectors (written es size e) /\
  forall j ej, es !! j = Some ej -> j <> i -> entry_used ej = true -> disjoint (written es size e) ej.
Proof.
  intros Hl Hi Hu Hs Hc Hend. destruct (sectors_for_small size Hs) as (H1 & H2 & _).
  destruct (l_extent _ _ Hl i e Hi Hu) as [Hsz Hex].
  unfold written, grown in *. destruct (fe_capacity_sectors e <? sectors_for size) eqn:E.
  - cbn [fe_start_lba with_size_modified with_extent] in Hend. split_and!.
    + split; [done|]. right. split; [|done]. apply (proj1 (next_data_lba_spec es)).
    + done.
    + intros j ej Hj Hne Huj. by eapply (next_data_disjoint count es j ej _ (with_size_modified size e)).
  - cbn [fe_start_lba with_size_modified] in Hend. split_and!.
    + unfold extent_ok. cbn [fe_size fe_start_lba fe_capacity_sectors with_size_modified].
      unfold SECTOR_SIZE in *. split; [lia|]. destruct Hex as [H0|Hex]; [lia|by right].
    + simpl. lia.
    + intros j ej Hj Hne Huj. by eapply (l_disjoint _ _ Hl i j e ej).
Qed.

(** The write is committed: the file, new or old, has the data. *)
Lemma write_commit s i e0 e data s' p :
  volume_ok s -> entries s !! i = Some e0 -> (entry_used e0 = true -> cstr (fe_name e0) = p) ->
  tree_ok (<[i := e]> (entries s)) -> layout_ok (bd_count (disk s)) (<[i := e]> (entries s)) ->
  entry_used e = true -> cstr (fe_name e) = p -> Z.of_nat (length data) < 2 ^ 63 ->
  wrote i e data (with_entries (<[i := e]> (entries s)) s) s' ->
  volume_ok s' /\
  update p (Some (mkNode (fe_type e) (fe_flags e) (fe_owner e) data)) (view s) (view s').
Proof.
  intros Hv Hi Hp0 Ht Hl Hu Hp Hlen (F & Hs & Hd & Hend).
  set (size := Z.of_nat (length data)) in *. cbn [entries with_entries disk] in *.
  set (es1 := <[i := e]> (entries s)) in *. set (e' := written es1 size e) in *.
  assert (Hil : (i < length (entries s))%nat) by by eapply lookup_lt_Some.
  assert (Hi1 : es1 !! i = Some e) by (by apply list_lookup_insert_eq).
  assert (Hins : <[i := e']> es1 = <[i := e']> (entries s)) by apply list_insert_insert_eq.
  rewrite with_entries_twice, Hins in F.
  pose proof (bd_count_bound (disk s)) as Hcb.
  destruct (written_same es1 size e) as (Hus & Hnm & Hty). fold e' in Hus, Hnm, Hty.
  assert (Hu' : entry_used e' = true) by (unfold entry_used in *; by rewrite Hus).
  destruct (sectors_for_small size ltac:(lia)) as (Hq & _).
  pose proof (lookup_wf _ _ _ (t_wf _ Ht) Hi1) as Hwf.
  destruct (written_extent (bd_count (disk s)) es1 i e size) as (Hex & Hcap & Hdj); try done; try lia.
  fold e' in Hex, Hcap, Hdj.
  destruct (commit_view s s' i e0 e' p) as [Hv' Hup]; try done.
  - rewrite <- Hins. apply (tree_edit _ i e); try done; [|by left].
    apply written_wf; [done|lia|]. fold e' in Hend.
    assert (0 <= fe_start_lba e'); [|lia].
    unfold e', written, grown. case_if as E; [|apply Hwf].
    simpl. destruct (next_data_lba_spec es1) as [Hn _]. unfold FS_DATA_LBA in Hn. lia.
  - eapply frame_mono; [|exact F]. intros x [->|Hr]; [by left|right]. split; [done|].
    unfold in_run in *. lia.
  - intros j ej Hj Hne Huj _. apply (Hdj j); [|done|done]. unfold es1.
    by rewrite list_lookup_insert_ne.
  - intros _. by rewrite Hnm.
  - by right.
  - split; [done|]. rewrite Hu' in Hup. intros q. rewrite (Hup q). case_decide; [|done].
    destruct (written_attributes es1 size e) as (A1 & A2 & A3 & A4). fold e' in A1, A2, A3, A4.
    unfold node_of. by rewrite A1, A2, A3, A4, Hd.
Qed.

(** The entry chosen for a write, unsaved when new. *)
Definition chosen (name : list Z) s (i : nat) s1 : Prop :=
  exists e0 e p, write_target (view s) name p /\ entries s !! i = Some e0 /\
    frame nowhere (with_entries (<[i := e]> (entries s)) s) s1 /\
    (e = e0 /\ at_path (entries s) i p e \/
     e = fresh_entry name FS_TYPE_FILE 0x1B0 (current_uid s) /\ entry_used e0 = false /\
     p = cstr name /\ can_create (view s) p /\ tree_ok (<[i := e]> (entries s))).

Lemma entry_for_write_chosen name s :
  volume_ok s ->
  wp (entry_for_write name false) (fun r s1 => forall i, r = Some i -> chosen name s i s1) s.
Proof.
  intros Hv. unfold entry_for_write. wp_steps.
  destruct (find_entry (entries s) name) as [i|] eqn:Ef.
  - pose proof Ef as Ef'. apply find_entry_Some in Ef as (e & He). wp_steps.
    rewrite (entry_at_lookup _ _ _ (proj1 He)).
    assert (Hview : view s name = Some (node_of (disk s) e)).
    { apply (view_at _ _ i); [by apply unique_of|done]. }
    case_if as Ety.
    + wp_call resolve_entry_refines; [done|]. intros r s1 [F Hr] j ->.
      destruct (Hr j eq_refl) as (p & e' & He' & Hfo & _). exists e', e', p.
      rewrite list_insert_id by apply He'. rewrite with_entries_id. split_and!; [|apply He'|done|by left].
      unfold write_target. rewrite Hview. cbn [n_type node_of]. by rewrite Ety.
    + apply wp_ret. intros j [= <-]. exists e, e, (cstr name).
      rewrite list_insert_id by apply He. rewrite with_entries_id.
      split_and!; [|apply He|apply frame_refl|by left].
      unfold write_target. rewrite Hview. cbn [n_type node_of]. by rewrite Ety.
  - wp_step. wp_call allocate_entry_spec. intros [i|] s1; [|intros ->; done].
    intros (Hn & Hno & Hp & (e0 & He0 & Hf) & ->). apply wp_ret. intros j [= <-].
    destruct (v_live _ Hv) as (Hu & _ & Ht).
    exists e0, (fresh_entry name FS_TYPE_FILE 0x1B0 (current_uid s)), (cstr name).
    split_and!; [|done|apply frame_refl|right; split_and!; try done].
    + unfold write_target. by rewrite (view_none s name).
    + by apply can_create_at.
    + by eapply tree_fresh.
Qed.

Lemma write_refines name data s :
  volume_ok s -> bytes data -> Z.of_nat (length data) < 2 ^ 63 -> refines (OpWrite name data) s.
Proof.
  intros Hv Hb Hlen. unfold refines. cbn [run_op]. unfold fs_write. wp_steps. case_if as Eg; [done|].
  wp_step. wp_call entry_for_write_chosen; [done|]. intros [i|] s1 Hc; [|done].
  destruct (Hc i eq_refl) as (e0 & e & p & Hwt & Hi & F & Hcase). clear Hc. wp_steps.
  assert (Hil : (i < length (entries s))%nat) by by eapply lookup_lt_Some.
  assert (Hi1 : entries s1 !! i = Some e)
    by (rewrite (fr_entries _ _ _ (proj1 F)); by apply list_lookup_insert_eq).
  rewrite (entry_at_lookup _ _ _ Hi1). case_if as Ety; [done|].
  apply orb_false_iff in Ety as [Ety Ew]. apply negb_false_iff in Ety, Ew.
  apply Z.eqb_eq in Ety.
  assert (Htree : tree_ok (<[i := e]> (entries s))).
  { destruct Hcase as [[-> _]|(_ & _ & _ & _ & ?)]; [|done].
    rewrite list_insert_id by done. by apply tree_of. }
  assert (Hlay : layout_ok (bd_count (disk s)) (<[i := e]> (entries s))).
  { destruct Hcase as [[-> _]|(-> & _)]; [|by eapply fresh_layout, Hi; apply Hv].
    rewrite list_insert_id by done. apply Hv. }
  assert (Hwf : entry_wf e).
  { eapply lookup_wf; [apply Htree|by apply list_lookup_insert_eq]. }
  wp_call (write_entry_data_spec i data s1 e); try done.
  - by eapply index_bound.
  - destruct Hcase as [[-> He]|(-> & _)]; [|by left].
    destruct (extent_of s i e0 Hv Hi (proj1 (proj2 He))) as [_ [H0|[H0 _]]]; [by left|by right].
  - unfold sector_count. rewrite (fr_count _ _ _ (proj1 F)). pose proof (v_count _ Hv). simpl. lia.
  - intros ok s' [Hok _] ->. specialize (Hok eq_refl). apply (wrote_frame _ _ _ _ _ _ F) in Hok.
    destruct (write_commit s i e0 e data s' p) as [Hv' Hup]; try done.
    + destruct Hcase as [[-> He]|(_ & Hf & _)]; [intros _; apply He|congruence].
    + destruct Hcase as [[-> He]|(-> & _)]; [apply He|done].
    + destruct Hcase as [[-> He]|(-> & _ & -> & _)]; [apply He|]. apply fresh_entry_path.
      apply orb_false_iff in Eg as [_ Eg]. by apply negb_false_iff in Eg.
    + split; [done|]. exists p. split; [done|]. rewrite Ety in Hup.
      destruct Hcase as [[-> He]|(-> & Hf & -> & Hcc & _)].
      * rewrite (view_at s p i e0); [|by apply unique_of|].
        2:{ destruct He as (? & ? & <-). by rewrite cstr_cstr. }
        split_and!; [done| |done].
        pose proof (may_write_node s1 e0 Ew) as Hm.
        rewrite (fr_uid _ _ _ (proj1 F)), (fr_privileged _ _ _ (proj1 F)) in Hm. exact Hm.
      * destruct Hcc as (H1 & H2 & H3). rewrite H2. split; [done|]. exact Hup.
Qed.

(** *** Writing at an offset *)

Lemma disk_frame_with_entries W s s' es :
  disk_frame W s s' -> disk_frame W (with_entries es s) (with_entries es s').
Proof. intros [[] ?]. split; [by constructor|done]. Qed.

(** Releasing the buffer after entries were edited in between. *)
Lemma release_frame W s es p h s' :
  al_alloc SECTOR_SIZE (heap s) = (p, h) ->
  disk_frame W (with_entries es (with_heap h s)) s' ->
  frame W (with_entries es s) (with_heap (al_free p (heap s')) s').
Proof.
  intros E [[] Hh]. split; [by constructor|]. simpl in *. intros Hs. rewrite Hh.
  eapply al_free_alloc; [|exact Hs|exact E]. unfold SECTOR_SIZE. lia.
Qed.

(** The file has room for [size] bytes, and its old bytes. *)
Lemma grow_extent_spec i size s e h :
  volume_ok s -> entries s !! i = Some e -> entry_used e = true -> 0 <= size < 2 ^ 63 ->
  sectors_for size < 2 ^ 32 ->
  let e1 := grown (entries s) size e in
  wp (grow_extent i (sectors_for size))
     (fun ok s' => ok = true ->
        disk_frame (in_run (fe_start_lba e1) (sectors_for size))
                   (with_entries (<[i := e1]> (entries s)) (with_heap h s)) s' /\
        fe_start_lba e1 + sectors_for size <= bd_count (disk s) /\
        forall k, 0 <= k < fe_size e ->
          disk_byte (disk s') (fe_start_lba e1) k = disk_byte (disk s) (fe_start_lba e) k)
     (with_heap h s).
Proof.
  intros Hv He Hu Hsize Hq. destruct (extent_of s i e Hv He Hu) as [Hsz Hex].
  destruct (sectors_for_small size Hsize) as (Hq1 & _).
  pose proof (wf_of s i e Hv He) as Hwf. pose proof (wf_start _ Hwf). pose proof (wf_capacity _ Hwf).
  pose proof (bd_count_bound (disk s)) as Hcb. cbv zeta. unfold grown.
  assert (Hid : with_entries (<[i := e]> (entries s)) (with_heap h s) = with_heap h s).
  { rewrite list_insert_id by done. by destruct s. }
  set (required := sectors_for size) in *. clearbody required.
  unfold grow_extent. wp_steps. cbn [entries with_heap]. rewrite (entry_at_lookup _ _ _ He).
  destruct (fe_capacity_sectors e <? required) eqn:Ec.
  2:{ apply wp_ret. intros _. rewrite Hid. split_and!; [apply disk_frame_refl| |done].
      unfold FS_DATA_LBA in *. lia. }
  wp_steps. cbn [entries with_heap]. unfold sector_count. cbn [disk with_heap].
  set (next := next_data_lba (entries s)). case_if as Er; [done|].
  destruct (next_data_lba_spec (entries s)) as [Hn Hpast]. fold next in Hn, Hpast.
  specialize (Hpast i e He Hu). unfold FS_DATA_LBA in Hn.
  wp_step. wp_call relocate_blocks_spec; try lia.
  rewrite Z2Nat.id, Z.add_0_r by lia.
  intros ok s2 (F & Hs & _). destruct ok; [|done]. wp_step. unfold wp at 1.
  assert (He2 : entries s2 !! i = Some e) by (by rewrite (fr_entries _ _ _ (proj1 F))).
  rewrite (edit_entry_eq _ _ _ e) by done. cbn [fst snd]. apply wp_ret. intros _.
  cbn [fe_start_lba with_extent]. split_and!.
  - rewrite (fr_entries _ _ _ (proj1 F)). cbn [entries with_heap]. by apply disk_frame_with_entries.
  - lia.
  - intros k Hk. cbn [disk with_entries]. unfold disk_byte. unfold SECTOR_SIZE in *.
    rewrite (Hs eq_refl (k / 512)) by lia. case_if as Eb; [done|].
    unfold FS_DATA_LBA in Hex. lia.
Qed.

(** [splice], byte by byte. *)
Lemma length_splice offset data old :
  0 <= offset ->
  Z.of_nat (length (splice offset data old)) =
    Z.max (Z.of_nat (length old)) (offset + Z.of_nat (length data)).
Proof.
  intros Ho. unfold splice. rewrite !length_app, length_take, length_replicate, length_drop. lia.
Qed.

Lemma nth_splice offset data old k :
  0 <= offset -> 0 <= k ->
  nth (Z.to_nat k) (splice offset data old) 0 =
    overlay (overlay (fun k => nth (Z.to_nat k) old 0) (Z.of_nat (length old))
               (replicate (Z.to_nat (offset - Z.of_nat (length old))) 0)) offset data k.
Proof.
  intros Ho Hk. unfold splice, overlay. rewrite length_replicate. case_decide as H1.
  - rewrite app_nth2 by (rewrite length_take; lia).
    rewrite app_nth2 by (rewrite length_take, length_replicate; lia).
    rewrite app_nth1 by (rewrite length_take, length_replicate; lia).
    f_equal. rewrite length_take, length_replicate. lia.
  - case_decide as H2.
    + rewrite app_nth2 by (rewrite length_take; lia).
      rewrite app_nth1 by (rewrite length_take, length_replicate; lia). by rewrite !nth_zeroes.
    + destruct (decide (k < offset)) as [H3|H3].
      * rewrite app_nth1 by (rewrite length_take; lia). rewrite !nth_lookup, lookup_take_lt by lia. done.
      * rewrite app_nth2 by (rewrite length_take; lia).
        rewrite app_nth2 by (rewrite length_take, length_replicate; lia).
        rewrite app_nth2 by (rewrite length_take, length_replicate; lia).
        rewrite !nth_lookup, lookup_drop. do 2 f_equal. rewrite length_take, length_replicate. lia.
Qed.

Lemma read_fuel_mono a b : a <= b -> Z.of_nat (read_fuel a) <= Z.of_nat (read_fuel b).
Proof. intros. unfold read_fuel, SECTOR_SIZE. lia. Qed.

(** The old bytes, the gap and the data make up the new contents. *)
Lemma spliced_bytes (d d1 d2 d3 : D) start start1 size offset data :
  0 <= size -> 0 <= offset ->
  (forall k, 0 <= k < size -> disk_byte d1 start1 k = disk_byte d start k) ->
  (forall k, disk_byte d2 start1 k =
     overlay (disk_byte d1 start1) size (replicate (Z.to_nat (offset - size)) 0) k) ->
  (forall k, disk_byte d3 start1 k = overlay (disk_byte d2 start1) offset data k) ->
  let content := splice offset data (file_bytes d start 0 size) in
  file_bytes d3 start1 0 (Z.of_nat (length content)) = content.
Proof.
  intros Hs Ho Hold Hgap Hdata. set (old := file_bytes d start 0 size). cbv zeta.
  assert (Hlo : Z.of_nat (length old) = size) by (unfold old; rewrite length_file_bytes; lia).
  apply file_bytes_nth. rewrite length_splice by lia. intros k Hk.
  rewrite nth_splice, Hdata by lia. unfold overlay at 1 2. case_decide; [done|].
  rewrite Hgap, Hlo. unfold overlay. case_decide; [done|]. rewrite length_replicate in *.
  rewrite Hold by lia. unfold old. rewrite nth_lookup, lookup_file_bytes by lia. simpl. f_equal. lia.
Qed.

(** The last steps of a write: the entry is updated and saved. *)
Lemma finish_write i size content s e s5 :
  volume_ok s -> entries s !! i = Some e -> Z.of_nat (length content) = size -> 0 <= size < 2 ^ 63 ->
  sectors_for size < 2 ^ 32 -> FS_DATA_LBA <= fe_start_lba (grown (entries s) size e) ->
  fe_start_lba (grown (entries s) size e) + sectors_for size <= bd_count (disk s) ->
  frame (in_run (fe_start_lba (grown (entries s) size e)) (sectors_for size))
    (with_entries (<[i := grown (entries s) size e]> (entries s)) s) s5 ->
  file_bytes (disk s5) (fe_start_lba (grown (entries s) size e)) 0 size = content ->
  wp (edit_entry i (with_size_modified size) ;;; save_entry i)
     (fun ok s' => ok = true -> wrote i e content s s') s5.
Proof.
  intros Hv He Hlen Hsize Hq Hst Hend F5 Hc. pose proof (wf_of s i e Hv He) as Hwf.
  set (e1 := grown (entries s) size e) in *. set (e' := written (entries s) size e).
  assert (Hil : (i < length (entries s))%nat) by by eapply lookup_lt_Some.
  assert (Hes5 : entries s5 = <[i := e1]> (entries s)) by apply (fr_entries _ _ _ (proj1 F5)).
  assert (He5 : entries s5 !! i = Some e1) by (rewrite Hes5; by apply list_lookup_insert_eq).
  wp_step. unfold wp at 1. rewrite (edit_entry_eq _ _ _ e1) by done. cbn [fst snd].
  change (with_size_modified size e1) with e'.
  rewrite Hes5, list_insert_insert_eq. set (s6 := with_entries _ s5).
  assert (F6 : frame (in_run (fe_start_lba e1) (sectors_for size))
                 (with_entries (<[i := e']> (entries s)) s) s6).
  { unfold s6. change (with_entries (<[i := e']> (entries s)) s)
      with (with_entries (<[i := e']> (entries s)) (with_entries (<[i := e1]> (entries s)) s)).
    by apply frame_with_entries. }
  assert (Hat6 : entry_at (entries s6) i = e')
    by (apply entry_at_lookup; by apply list_lookup_insert_eq).
  pose proof (entry_lba_bounds i (index_bound s i e Hv He)) as Hlba.
  wp_call save_entry_spec; [by eapply index_bound|rewrite Hat6; by apply written_wf|].
  rewrite Hat6. intros ok s7 (F7 & Hsave & _) ->. unfold wrote. rewrite Hlen. fold e'.
  change (fe_start_lba e') with (fe_start_lba e1). split_and!; [| | |done].
  - apply (frame_trans _ _ s6).
    + eapply frame_mono; [|exact F6]. intros x Hx. by right.
    + eapply frame_mono; [|exact F7]. intros x <-. by left.
  - rewrite Hsave by done. f_equal. apply (fr_sector _ _ _ (proj1 F6)). unfold in_run. lia.
  - rewrite <- Hc. apply file_bytes_ext. intros k Hk. apply disk_byte_sector.
    apply (fr_sector _ _ _ (proj1 F7)). unfold SECTOR_SIZE, FS_DATA_LBA in *. lia.
Qed.

Lemma grown_start s i e size :
  volume_ok s -> entries s !! i = Some e -> entry_used e = true -> 0 <= size < 2 ^ 63 ->
  FS_DATA_LBA <= fe_start_lba (grown (entries s) size e) /\
  fe_size (grown (entries s) size e) = fe_size e.
Proof.
  intros Hv He Hu Hs. destruct (extent_of s i e Hv He Hu) as [_ Hex].
  destruct (sectors_for_small size Hs) as (Hq & _).
  unfold grown. case_if as E; split; try done; [apply (proj1 (next_data_lba_spec (entries s)))|].
  destruct Hex as [H0|[H0 _]]; [lia|done].
Qed.

Lemma write_at_entry_spec i offset data s e :
  volume_ok s -> entries s !! i = Some e -> entry_used e = true -> bytes data -> 0 <= offset ->
  offset + Z.of_nat (length data) < 2 ^ 63 ->
  wp (write_at_entry i offset data)
     (fun ok s' => ok = true -> wrote i e (splice offset data (n_data (node_of (disk s) e))) s s') s.
Proof.
  intros Hv He Hu Hb Ho Hlen. pose proof (wf_of s i e Hv He) as Hwf.
  destruct (extent_of s i e Hv He Hu) as [Hsz _].
  pose proof (wf_size _ Hwf) as Hsize. pose proof (wf_capacity _ Hwf) as Hcap.
  unfold write_at_entry. wp_steps. rewrite (entry_at_lookup _ _ _ He).
  set (stop := offset + Z.of_nat (length data)) in *.
  set (size := if fe_size e <? stop then stop else fe_size e).
  assert (Hns : size = Z.max (fe_size e) stop) by (unfold size; case_if as E; lia).
  assert (Hns2 : 0 <= size < 2 ^ 63) by (unfold SECTOR_SIZE in *; lia). clearbody size.
  destruct (sectors_for_small size Hns2) as (Hq1 & Hq2 & Hq3).
  case_if as Er; [done|]. set (e1 := grown (entries s) size e).
  destruct (grown_start s i e size Hv He Hu Hns2) as [Hst Hsz1]. fold e1 in Hst, Hsz1.
  pose proof (bd_count_bound (disk s)) as Hcb.
  destruct (al_alloc SECTOR_SIZE (heap s)) as [ptr h] eqn:Eal.
  wp_step. eapply wp_alloc; [done|]. case_if as Ep; [done|].
  wp_step. wp_call (grow_extent_spec i size s e h); [done|done|done|done|lia|].
  fold e1. intros ok s2 Hgrow. destruct ok; cbn [negb]; [|done].
  destruct (Hgrow eq_refl) as (F2 & Hend & Hold). clear Hgrow.
  assert (He2 : entries s2 !! i = Some e1).
  { rewrite (fr_entries _ _ _ (proj1 F2)). apply list_lookup_insert_eq. by eapply lookup_lt_Some. }
  wp_steps. rewrite (entry_at_lookup _ _ _ He2), Hsz1.
  assert (Hsec : (offset + 511) / SECTOR_SIZE <= sectors_for size /\
                 (stop + 511) / SECTOR_SIZE <= sectors_for size) by (unfold SECTOR_SIZE in *; lia).
  wp_call fill_gap_spec; [unfold FS_DATA_LBA in *; lia|lia|lia|lia| |].
  { etrans; [apply rounds_fuel|]. apply read_fuel_mono. lia. }
  intros ok s3 (F3 & Hgap & _). destruct ok; cbn [negb]; [|done]. specialize (Hgap eq_refl).
  wp_step. wp_call write_loop_spec; [unfold FS_DATA_LBA in *; lia|lia|lia|done|lia|fold stop; lia| |apply rounds_fuel|].
  { right; right. intros k Hk. rewrite Hgap. unfold overlay. rewrite length_replicate.
    case_decide; [apply nth_zeroes|lia]. }
  fold stop. intros ok s4 (F4 & Hdata & _). wp_step. unfold free. apply wp_modify. cbn beta.
  destruct ok; cbn [negb]; [|done]. specialize (Hdata eq_refl).
  assert (F24 : disk_frame (in_run (fe_start_lba e1) (sectors_for size))
                  (with_entries (<[i := e1]> (entries s)) (with_heap h s)) s4).
  { apply (disk_frame_trans _ _ s2); [done|]. apply (disk_frame_trans _ _ s3).
    - eapply disk_frame_mono; [|exact F3]. unfold in_run. cbn beta. lia.
    - eapply disk_frame_mono; [|exact F4]. unfold in_run. cbn beta. lia. }
  pose proof (release_frame _ s _ ptr h s4 Eal F24) as F5.
  set (content := splice offset data (n_data (node_of (disk s) e))).
  assert (Hcl : Z.of_nat (length content) = size).
  { unfold content. rewrite length_splice by lia. simpl. rewrite length_file_bytes. lia. }
  assert (Hcontent := spliced_bytes _ _ _ _ _ _ _ _ _ (proj1 Hsize) Ho Hold Hgap Hdata).
  cbv zeta in Hcontent. change (splice _ _ _) with content in Hcontent. rewrite Hcl in Hcontent.
  apply (finish_write i size); try done. lia.
Qed.

Lemma update_trans p a b v1 v2 v3 : update p a v1 v2 -> update p b v2 v3 -> update p b v1 v3.
Proof. intros H1 H2 q. rewrite (H2 q), (H1 q). by case_decide. Qed.

Lemma update_unchanged p a v1 v2 v3 : unchanged v1 v2 -> update p a v2 v3 -> update p a v1 v3.
Proof. intros H1 H2 q. by rewrite (H2 q), (H1 q). Qed.

(** The entry [fs_write_at] writes to, saved when new. *)
Lemma entry_for_write_saved name s :
  volume_ok s ->
  wp (entry_for_write name true)
     (fun r s1 => forall i, r = Some i -> exists p e,
        write_target (view s) name p /\ volume_ok s1 /\ at_path (entries s1) i p e /\
        current_uid s1 = current_uid s /\ current_privileged s1 = current_privileged s /\
        (unchanged (view s) (view s1) \/
         e = fresh_entry name FS_TYPE_FILE 0x1B0 (current_uid s) /\ can_create (view s) p /\
         update p (Some (mkNode FS_TYPE_FILE 0x1B0 (current_uid s) [])) (view s) (view s1))) s.
Proof.
  intros Hv. unfold entry_for_write. wp_steps.
  destruct (find_entry (entries s) name) as [i|] eqn:Ef.
  - pose proof Ef as Ef'. apply find_entry_Some in Ef as (e & He). wp_steps.
    rewrite (entry_at_lookup _ _ _ (proj1 He)).
    assert (Hview : view s name = Some (node_of (disk s) e)).
    { apply (view_at _ _ i); [by apply unique_of|done]. }
    case_if as Ety.
    + wp_call resolve_entry_refines; [done|]. intros r s1 [F Hr] j ->.
      destruct (Hr j eq_refl) as (p & e' & He' & Hfo & _). exists p, e'.
      split_and!; [|by eapply volume_frame| |apply F|apply F|left; by apply view_frame].
      * unfold write_target. rewrite Hview. cbn [n_type node_of]. by rewrite Ety.
      * by rewrite (fr_entries _ _ _ (proj1 F)).
    + apply wp_ret. intros j [= <-]. exists (cstr name), e.
      split_and!; [|done|done|done|done|left; by intros q].
      unfold write_target. rewrite Hview. cbn [n_type node_of]. by rewrite Ety.
  - wp_step. wp_call allocate_entry_spec. intros [i|] s1; [|intros ->; done].
    intros (Hn & Hno & Hp & (e0 & He0 & Hf) & ->). wp_step.
    wp_call (create_commit s i e0); try done. intros ok s2 Hok. apply wp_ret. intros j.
    destruct ok; [|done]. intros [= <-]. destruct (Hok eq_refl) as (Hv2 & F & Hup).
    exists (cstr name), (fresh_entry name FS_TYPE_FILE 0x1B0 (current_uid s)).
    split_and!; [|done| |apply F|apply F|right; split_and!; try done; by apply can_create_at].
    + unfold write_target. by rewrite (view_none s name).
    + rewrite (fr_entries _ _ _ (proj1 F)). apply at_path_insert; [by eapply lookup_lt_Some|left].
      split_and!; try done. by apply fresh_entry_path.
Qed.

Lemma write_at_refines name offset data s :
  volume_ok s -> bytes data -> 0 <= offset -> offset + Z.of_nat (length data) < 2 ^ 63 ->
  refines (OpWriteAt name offset data) s.
Proof.
  intros Hv Hb Ho Hlen. unfold refines. cbn [run_op]. unfold fs_write_at. wp_steps. case_if as Eg; [done|].
  wp_step. wp_call entry_for_write_saved; [done|]. intros [i|] s1 Hc; [|done].
  destruct (Hc i eq_refl) as (p & e & Hwt & Hv1 & He & Hu & Hpr & Hcase). clear Hc. wp_steps.
  rewrite (entry_at_lookup _ _ _ (proj1 He)). case_if as Ety; [done|].
  apply orb_false_iff in Ety as [Ety Ew]. apply negb_false_iff in Ety, Ew. apply Z.eqb_eq in Ety.
  pose proof He as (He1 & Hue & Hpe).
  wp_call (write_at_entry_spec i offset data s1 e); try done. intros ok s' Hok ->.
  destruct (write_commit s1 i e e (splice offset data (n_data (node_of (disk s1) e))) s' p)
    as [Hv' Hup]; try done.
  - rewrite list_insert_id by done. by apply tree_of.
  - rewrite list_insert_id by done. apply Hv1.
  - rewrite length_splice by done. simpl. rewrite length_file_bytes.
    destruct (extent_of s1 i e Hv1 He1 Hue) as [Hsz _]. pose proof (wf_of s1 i e Hv1 He1) as Hwf.
    pose proof (wf_capacity _ Hwf). unfold SECTOR_SIZE in Hsz. lia.
  - rewrite list_insert_id by done. rewrite with_entries_id. by apply Hok.
  - split; [done|]. exists p. split; [done|]. rewrite Ety in Hup.
    assert (Hvp : view s1 p = Some (node_of (disk s1) e)).
    { apply (view_at _ _ i); [by apply unique_of|]. split_and!; [done|done|]. rewrite <- Hpe.
      by rewrite cstr_cstr. }
    destruct Hcase as [Hun|(-> & Hcc & Hcr)].
    + rewrite <- (Hun p), Hvp. split_and!; [done| |by eapply update_unchanged].
      pose proof (may_write_node s1 e Ew) as Hm. by rewrite Hu, Hpr in Hm.
    + destruct Hcc as (H1 & H2 & H3). rewrite H2. split; [done|]. by eapply update_trans.
Qed.

(** *** Symlinks, reads and the rest *)

Lemma valid_target target :
  valid_symlink_target target = true -> bytes (cstr target) /\ (length (cstr target) <= 96)%nat.
Proof.
  unfold valid_symlink_target. intros Hv%valid_name_spec.
  pose proof (path_ok_bytes _ Hv) as Hb. destruct Hv as ((_ & Hl) & _). unfold FS_NAME_MAX in Hl.
  destruct (char_at target =? SLASH) eqn:E; [|split; [done|lia]].
  apply Z.eqb_eq in E. rewrite cstr_tail by (by rewrite E). simpl. split; [|lia].
  constructor; [|done]. rewrite E. unfold is_byte, SLASH. lia.
Qed.

Lemma symlink_refines target name s : volume_ok s -> refines (OpSymlink target name) s.
Proof.
  intros Hv. unfold refines. cbn [run_op]. unfold fs_symlink. wp_steps. case_if as Eg; [done|].
  apply orb_false_iff in Eg as [Eg Ef]. apply orb_false_iff in Eg as [Eg _].
  apply orb_false_iff in Eg as [_ Et]. apply negb_false_iff, valid_target in Et as [Htb Htl].
  assert (Hnone : view s name = None) by (unfold view; by destruct (find_entry (entries s) name)).
  wp_step. assert (Hw := write_refines name (cstr target) s Hv Htb ltac:(lia)).
  unfold refines in Hw. cbn [run_op] in Hw. wp_call Hw. intros ok s1 Hok.
  destruct ok; cbn [negb]; [|done]. destruct (Hok eq_refl) as (Hv1 & p & Hwt & Hspec). clear Hok Hw.
  unfold write_target in Hwt. rewrite Hnone in Hwt. subst p. rewrite view_idem, Hnone in Hspec.
  destruct Hspec as [Hcc Hup]. wp_steps.
  destruct (find_entry (entries s1) name) as [i|] eqn:Ef1; [|done].
  apply find_entry_Some in Ef1 as (e & He).
  pose proof (view_at s1 name i e (unique_of s1 Hv1) He) as Hvn. rewrite (Hup name) in Hvn.
  rewrite decide_True in Hvn by done. injection Hvn as Hty Hfl How Hda.
  wp_step. unfold wp at 1. rewrite (edit_entry_eq _ _ _ e) by apply He. cbn [fst snd].
  set (e' := with_flags 0x1FF (with_type FS_TYPE_SYMLINK e)).
  assert (Ht : tree_ok (<[i := e']> (entries s1))).
  { apply (tree_edit _ i e); [by apply tree_of|apply He| |done|done|right; by rewrite <- Hty].
    apply with_flags_wf; [|lia]. apply with_type_wf; [by eapply wf_of, He|unfold FS_TYPE_SYMLINK; lia]. }
  wp_call (save_attributes s1 i e e' (cstr name) _ Hv1 He Ht); try done.
  intros ok s2 Hok ->. destruct (Hok eq_refl) as [Hv2 Hup2]. split; [done|]. split; [done|].
  eapply update_trans; [exact Hup|]. intros q. rewrite (Hup2 q). case_decide; [|done].
  unfold e'. simpl. by rewrite <- How, <- Hda.
Qed.

(** What a read returns: the bytes of the file the name leads to. *)
Lemma fs_read_at_spec name offset cap s :
  volume_ok s -> 0 <= offset -> 0 <= cap ->
  wp (fs_read_at name offset cap)
     (fun r s' => frame nowhere s s' /\
        forall l, r = Some l -> exists p n, follow 8 (view s) (cstr name) = Some p /\ view s p = Some n /\
          n_type n = FS_TYPE_FILE /\ node_readable (current_uid s) (current_privileged s) n /\
          l = take (Z.to_nat cap) (drop (Z.to_nat offset) (n_data n))) s.
Proof.
  intros Hv Ho Hc. unfold fs_read_at. wp_steps. case_if as Eg.
  { apply wp_ret. split; [apply frame_refl|done]. }
  wp_step. wp_call resolve_entry_refines; [done|]. intros [i|] s1 [F Hr]; [|done].
  destruct (Hr i eq_refl) as (p & e & He & Hfo & _). clear Hr.
  assert (He1 : entries s1 !! i = Some e) by (rewrite (fr_entries _ _ _ (proj1 F)); apply He).
  wp_steps. rewrite (entry_at_lookup _ _ _ He1). case_if as Ety; [done|].
  apply orb_false_iff in Ety as [Ety Er]. apply negb_false_iff in Ety, Er. apply Z.eqb_eq in Ety.
  wp_call (read_entry_spec s1 i e); [by eapply volume_frame|done|apply He|done|done|].
  intros r s2 (F2 & Hl & _). split; [by eapply frame_trans|]. intros l ->.
  exists p, (node_of (disk s) e). split_and!; [done| |done| |].
  - apply (view_at _ _ i); [by apply unique_of|]. destruct He as (? & ? & <-). by rewrite cstr_cstr.
  - pose proof (proj1 (may_read_node s1 e) Er) as Hm.
    rewrite (fr_uid _ _ _ (proj1 F)), (fr_privileged _ _ _ (proj1 F)) in Hm. exact Hm.
  - rewrite (Hl l eq_refl). simpl. by rewrite (file_bytes_frame s s1) by apply F.
Qed.

Lemma reads_refine {A} (m : st FsState (option A)) s :
  volume_ok s -> wp m (fun _ s' => frame nowhere s s') s ->
  wp (r <- m ;; ret (bool_decide (is_Some r)))
     (fun ok s' => ok = true -> volume_ok s' /\ unchanged (view s) (view s')) s.
Proof.
  intros Hv Hm. wp_step. eapply wp_mono; [exact Hm|]. intros r s' F. apply wp_ret.
  intros _. split; [by eapply volume_frame|by apply view_frame].
Qed.

Lemma readlink_frame name cap s :
  volume_ok s -> 0 <= cap -> wp (fs_readlink name cap) (fun _ s' => frame nowhere s s') s.
Proof.
  intros Hv Hc. unfold fs_readlink. wp_steps. case_if as Eg; [apply frame_refl|]. wp_steps.
  destruct (find_entry (entries s) name) as [i|] eqn:Ef; [|apply frame_refl].
  apply find_entry_Some in Ef as (e & He). wp_steps. rewrite (entry_at_lookup _ _ _ (proj1 He)).
  case_if as Et; [apply frame_refl|].
  wp_call (read_entry_spec s i e); [done|apply He|apply He|lia|done|]. intros r s' (F & _). done.
Qed.

Lemma path_info_frame name follow s :
  volume_ok s -> wp (fs_path_info name follow) (fun _ s' => frame nowhere s s') s.
Proof.
  intros Hv. unfold fs_path_info. wp_steps. case_if as Eg; [apply frame_refl|]. wp_step.
  eapply (wp_mono _ (fun _ s' => frame nowhere s s')).
  - destruct follow; [|apply frame_refl]. wp_call resolve_entry_refines; [done|]. by intros r s' [F _].
  - intros [i|] s' F; [|done]. done.
Qed.

(** *** Formatting *)

Lemma clear_sectors_spec n lba s :
  0 <= lba ->
  wp (clear_sectors n lba)
     (fun ok s' => disk_frame (in_run lba (Z.of_nat n)) s s' /\
        (ok = true -> forall x, lba <= x < lba + Z.of_nat n -> bd_sector (disk s') x = replicate 512 0)) s.
Proof.
  revert lba s. induction n as [|n IH]; intros lba s Hl.
  { apply wp_ret. split; [apply disk_frame_refl|]. intros; lia. }
  cbn [clear_sectors]. wp_step. wp_call ata_write_sector_spec.
  { split; [done|apply (bytes_zeroes 512)]. }
  intros ok s1 (F & Hs & _). destruct ok.
  2:{ apply wp_ret. split; [|done]. eapply disk_frame_mono; [|exact F]. unfold in_run. intros x <-. lia. }
  wp_call IH; [lia|]. intros ok s2 (F2 & Hs2). split.
  - frames; unfold in_run; intros x; [intros <-|]; lia.
  - intros -> x Hx. destruct (decide (x = lba)) as [->|Hne].
    + rewrite (fr_sector _ _ _ (proj1 F2)) by (unfold in_run; lia). by apply Hs.
    + apply Hs2; [done|lia].
Qed.

Record super_wf (b : FsSuperblock) : Prop := {
  sw_magic : length (sb_magic b) = 8%nat /\ bytes (sb_magic b);
  sw_version : 0 <= sb_version b < 2 ^ 32;
  sw_directory_lba : 0 <= sb_directory_lba b < 2 ^ 32;
  sw_directory_sectors : 0 <= sb_directory_sectors b < 2 ^ 32;
  sw_data_lba : 0 <= sb_data_lba b < 2 ^ 32;
  sw_max_entries : 0 <= sb_max_entries b < 2 ^ 32;
  sw_total_sectors : 0 <= sb_total_sectors b < 2 ^ 32;
  sw_reserved : length (sb_reserved b) = 480%nat /\ bytes (sb_reserved b) }.

Lemma decode_encode_super b : super_wf b -> decode_super (encode_super b) = b.
Proof.
  intros [[Hm _] Hv Hd Hs Hda Hx Ht [Hr _]]. destruct b as [mg ve dl ds da mx tt rs]. simpl in *.
  unfold decode_super, encode_super, field. cbn [sb_magic sb_version sb_directory_lba
    sb_directory_sectors sb_data_lba sb_max_entries sb_total_sectors sb_reserved].
  slices. rewrite !of_le_le_small by (simpl; lia). done.
Qed.

Lemma encode_super_sector b : super_wf b -> is_sector (encode_super b).
Proof.
  intros [[Hm Hmb] _ _ _ _ _ _ [Hr Hrb]]. unfold encode_super. split.
  - rewrite !length_app, !length_le, Hm, Hr. done.
  - rewrite !bytes_app. auto 20 with nova.
Qed.

Lemma format_super_wf count :
  0 <= count < 2 ^ 32 ->
  super_wf (mkSuper MAGIC FS_VERSION FS_DIRECTORY_LBA (Z.of_nat FS_DIRECTORY_SECTORS)
              FS_DATA_LBA (Z.of_nat FS_MAX_ENTRIES) count (replicate 480 0)).
Proof.
  intros Hc. unfold FS_VERSION, FS_DIRECTORY_LBA, FS_SUPER_LBA, FS_DIRECTORY_SECTORS, FS_DATA_LBA, FS_MAX_ENTRIES.
  constructor; cbn [sb_magic sb_version sb_directory_lba sb_directory_sectors sb_data_lba
    sb_max_entries sb_total_sectors sb_reserved]; try lia.
  - split; [done|]. unfold MAGIC. repeat constructor; unfold is_byte; lia.
  - split; [apply length_replicate|apply bytes_zeroes].
Qed.

Lemma format_refines s : 0 <= current_uid s < 2 ^ 32 -> refines OpFormat s.
Proof.
  intros Hu. unfold refines. cbn [run_op]. unfold wp, fs_format, format_v2. case_if as Eg; [done|].
  apply orb_false_iff in Eg as [_ Eg]. unfold sector_count in *.
  pose proof (bd_count_bound (disk s)) as Hcb.
  set (block := mkSuper _ _ _ _ _ _ _ _).
  pose proof (format_super_wf _ Hcb) as Hwf. fold block in Hwf.
  match goal with |- context [bind ?m ?k s] => set (body := bind m k) end.
  enough (Hw : wp body (fun ok s' => ok = true -> volume_ok s' /\
    spec_op (current_uid s) (current_privileged s) OpFormat (view s) (view s')) s) by exact Hw.
  unfold body. wp_steps. set (s0 := with_entries _ _).
  wp_call ata_write_sector_spec; [by apply encode_super_sector|]. intros ok s1 (F1 & Hs1 & _).
  destruct ok; cbn [negb]; [|done]. destruct (Hs1 eq_refl) as [Hsup _]. clear Hs1.
  eapply (with_buffer _ _ _ (in_run FS_DIRECTORY_LBA (Z.of_nat FS_DIRECTORY_SECTORS))
    (fun ok d => ok = true -> forall x, FS_DIRECTORY_LBA <= x < FS_DIRECTORY_LBA + Z.of_nat FS_DIRECTORY_SECTORS ->
       bd_sector d x = replicate 512 0)).
  { intros h. wp_call clear_sectors_spec; [unfold FS_DIRECTORY_LBA, FS_SUPER_LBA; lia|]. done. }
  { done. }
  intros ok s2 F2 Hclr. wp_steps. intros ->. specialize (Hclr eq_refl).
  assert (Hes : entries s2 = replicate FS_MAX_ENTRIES zero_entry).
  { rewrite (fr_entries _ _ _ (proj1 F2)). apply (fr_entries _ _ _ (proj1 F1)). }
  assert (Hcount : bd_count (disk s2) = bd_count (disk s)).
  { rewrite (fr_count _ _ _ (proj1 F2)). apply (fr_count _ _ _ (proj1 F1)). }
  split.
  - constructor; cbn [entries with_mounted disk].
    + unfold live. cbn [current_uid mounted with_mounted entries].
      rewrite Hes, (fr_uid _ _ _ (proj1 F2)), (fr_uid _ _ _ (proj1 F1)).
      split_and!; [apply Hu|apply Hu|done|apply tree_ok_empty].
    + rewrite Hcount. lia.
    + rewrite Hes. apply layout_ok_empty.
    + rewrite Hes. intros i e [-> Hi]%lookup_replicate_1. rewrite Hclr.
      * unfold slice. rewrite drop_replicate, take_replicate. pose proof (entry_offset_bound i).
        replace (ENTRY_SIZE `min` (512 - entry_offset i))%nat with ENTRY_SIZE by lia. by vm_compute.
      * unfold entry_lba, FS_DIRECTORY_SECTORS. unfold FS_MAX_ENTRIES in Hi.
        pose proof (Nat.Div0.div_lt_upper_bound i 4 256). lia.
    + unfold super_ok. rewrite (fr_sector _ _ _ (proj1 F2)).
      * by rewrite Hsup, decode_encode_super.
      * unfold in_run, FS_DIRECTORY_LBA. lia.
  - intros q. apply view_none. cbn [entries with_mounted]. rewrite Hes.
    intros i e (He & Hue & _). by apply lookup_replicate_1 in He as [-> _].
Qed.

End calls.
