(* ===== verification/FsTheorems.v ===== *)
(** * kernel/filesystem.c: the theorems

    Successful calls refine the abstract file system; reads return what was
    written; with a working disk, memory and space the calls do succeed. *)

From S2P Require Import Prelude Runtime Heap HeapFacts Interfaces RamDisk.
From S2P Require Import Filesystem FsNames FsFrame FsTree FsData FsVolume FsRefine.

Section theorems.
Context {D H : Type} `{!BlockDevice D} `{!Allocator H}.
Implicit Types s : FsState (D:=D) (H:=H).

(** Arguments of their C types; buffers hold bytes and do not reach past 2^63. *)
Definition sane_op (op : fs_op) : Prop :=
  typed_op op /\
  match op with
  | OpWrite _ data => bytes data /\ Z.of_nat (length data) < 2 ^ 63
  | OpWriteAt _ offset data => bytes data /\ offset + Z.of_nat (length data) < 2 ^ 63
  | _ => True
  end.

Lemma run_op_refines op s : volume_ok s -> sane_op op -> refines op s.
Proof.
  intros Hv [Ht Hs]. destruct op; cbn [typed_op] in Ht.
  - apply format_refines. apply Hv.
  - apply (reads_refine _ s Hv). wp_call fs_read_at_spec; [done|apply Ht|apply Ht|]. by intros r s' [F _].
  - by apply write_refines; try apply Hs.
  - by apply write_at_refines; try apply Hs; try apply Ht.
  - by apply delete_refines.
  - by apply mkdir_refines.
  - by apply symlink_refines.
  - apply (reads_refine _ s Hv). apply readlink_frame; [done|apply Ht].
  - apply (reads_refine _ s Hv). by apply path_info_frame.
  - by apply chmod_refines.
  - by apply chown_refines.
  - unfold refines. cbn [run_op]. unfold fs_set_identity. wp_steps. intros _.
    destruct Hv as [(_ & Hm & Htr) Hc Hl Hmir Hsup]. split; [|done].
    by constructor.
Qed.

(** [C1] Refinement: every successful call on a consistent volume leaves a
    consistent volume - a directory tree, disjoint extents inside the data area,
    the table mirrored on disk - and changes the map from paths to nodes exactly
    as the abstract specification says: one path is created, rewritten, spliced,
    removed or given new attributes, subject to the permission rules, and no other
    path changes. *)
Theorem fs_refines op s s' :
  volume_ok s -> sane_op op -> run_op op s = (true, s') ->
  volume_ok s' /\ spec_op (current_uid s) (current_privileged s) op (view s) (view s').
Proof.
  intros Hv Hs E. pose proof (run_op_refines op s Hv Hs) as Hr.
  unfold refines, wp in Hr. rewrite E in Hr. by apply Hr.
Qed.

(** [C25] What a read returns: if [fs_read_at] returns bytes, the name leads,
    through at most seven symlinks, to a regular file the caller may read, the bytes are
    the requested piece of that file, and the read changes nothing. *)
Theorem fs_read_at_correct name offset capacity s l s' :
  volume_ok s -> 0 <= offset -> 0 <= capacity ->
  fs_read_at name offset capacity s = (Some l, s') ->
  unchanged (view s) (view s') /\ volume_ok s' /\
  exists p n, follow 8 (view s) (cstr name) = Some p /\ view s p = Some n /\
    n_type n = FS_TYPE_FILE /\ node_readable (current_uid s) (current_privileged s) n /\
    l = take (Z.to_nat capacity) (drop (Z.to_nat offset) (n_data n)).
Proof.
  intros Hv Ho Hc E. pose proof (fs_read_at_spec name offset capacity s Hv Ho Hc) as Hw.
  unfold wp in Hw. rewrite E in Hw. destruct Hw as [F Hl]. split_and!.
  - by apply view_frame.
  - by eapply volume_frame.
  - by apply Hl.
Qed.

(** ** Calls that succeed *)

(** The machine can serve a request. *)
Definition working s : Prop := bd_healthy (disk s) /\ heap_room s.

Lemma working_frame W s s' : frame W s s' -> working s -> working s'.
Proof.
  intros F [Hh Hr]. split; [by apply (fr_healthy _ _ _ (proj1 F))|by eapply frame_room].
Qed.

Lemma next_data_fresh es i e0 name type mode uid next :
  es !! i = Some e0 -> entry_used e0 = false -> 0 <= next ->
  next_data_from (<[i := fresh_entry name type mode uid]> es) next = next_data_from es next.
Proof.
  revert i next. induction es as [|e es IH]; intros [|i] next Hi Hf Hn; try done.
  - injection Hi as ->. cbn [insert list_insert next_data_from]. rewrite Hf. unfold fresh_entry.
    cbn [fe_start_lba fe_capacity_sectors andb]. assert ((next <? 0 + 0) = false) as -> by lia.
    by rewrite andb_false_r.
  - cbn [insert list_insert next_data_from]. apply IH; [done|done|].
    destruct (_ && _)%bool eqn:E; [|done]. bool_hyps. lia.
Qed.

(** [name] can be written directly: a new file, or a regular file. *)
Definition can_write s (name : list Z) : Prop :=
  match find_entry (entries s) name with
  | None => parent_directory_exists (entries s) name = true /\ is_Some (free_from (entries s) 0)
  | Some i => fe_type (entry_at (entries s) i) = FS_TYPE_FILE /\ may_write s (entry_at (entries s) i) = true
  end.

Lemma may_write_fresh s name : may_write s (fresh_entry name FS_TYPE_FILE 0x1B0 (current_uid s)) = true.
Proof. unfold may_write. destruct (current_privileged s); [done|]. simpl. by rewrite Z.eqb_refl. Qed.

Lemma may_read_fresh s name : may_read s (fresh_entry name FS_TYPE_FILE 0x1B0 (current_uid s)) = true.
Proof. unfold may_read. destruct (current_privileged s); [done|]. simpl. by rewrite Z.eqb_refl. Qed.

(** The entry a direct write goes to, in the table it is written from. *)
Lemma direct_entry name s :
  volume_ok s -> valid_name name = true -> can_write s name ->
  exists i e0 e, entries s !! i = Some e0 /\ fe_type e = FS_TYPE_FILE /\ may_write s e = true /\
    entry_for_write name false s = (Some i, with_entries (<[i := e]> (entries s)) s) /\
    entry_wf e /\ next_data_lba (<[i := e]> (entries s)) = next_data_lba (entries s) /\
    (fe_capacity_sectors e = 0 \/ FS_DATA_LBA <= fe_start_lba e /\
       fe_start_lba e + fe_capacity_sectors e <= bd_count (disk s)) /\
    (e = e0 /\ find_entry (entries s) name = Some i \/
     e = fresh_entry name FS_TYPE_FILE 0x1B0 (current_uid s) /\ find_entry (entries s) name = None).
Proof.
  intros Hv Hn Hc. unfold can_write in Hc. unfold entry_for_write, bind, gets.
  destruct (find_entry (entries s) name) as [i|] eqn:Ef.
  - pose proof Ef as Ef'. apply find_entry_Some in Ef as (e & He & Hu & Hp).
    rewrite (entry_at_lookup _ _ _ He) in *. destruct Hc as [Hty Hw]. exists i, e, e.
    rewrite list_insert_id by done. rewrite Hty. cbn -[Z.pow].
    split_and!; try done; [by rewrite with_entries_id|by eapply wf_of| |by left].
    apply (extent_of s i e Hv He Hu).
  - destruct Hc as [Hp [i Hi]]. unfold allocate_entry. rewrite Hn, Ef, Hp, Hi. cbn [negb orb].
    pose proof (free_from_spec (entries s) 0) as Hs. rewrite Hi, Nat.sub_0_r in Hs.
    destruct Hs as (_ & e0 & He0 & Hf).
    exists i, e0, (fresh_entry name FS_TYPE_FILE 0x1B0 (current_uid s)).
    split_and!; try done; [apply may_write_fresh| | |by left|by right].
    + apply fresh_entry_wf; [done|unfold FS_TYPE_FILE; lia|apply Hv].
    + unfold next_data_lba. eapply next_data_fresh; [done|done|unfold FS_DATA_LBA; lia].
Qed.

Lemma fs_write_total name data s :
  volume_ok s -> working s -> valid_name name = true -> can_write s name ->
  bytes data -> Z.of_nat (length data) < 2 ^ 63 ->
  next_data_lba (entries s) + sectors_for (Z.of_nat (length data)) <= bd_count (disk s) ->
  wp (fs_write name data) (fun ok s' => ok = true /\ working s' /\
    current_uid s' = current_uid s /\ current_privileged s' = current_privileged s) s.
Proof.
  intros Hv [Hh Hr] Hn Hc Hb Hlen Hspace.
  destruct (direct_entry name s Hv Hn Hc) as (i & e0 & e & Hi & Hty & Hw & Hent & Hwf & Hnext & Hex & _).
  unfold fs_write. wp_steps. destruct (v_live _ Hv) as (_ & Hm & _). rewrite Hm, Hn. cbn [negb orb].
  wp_step. unfold wp at 1. rewrite Hent. cbn [fst snd]. set (s1 := with_entries _ s).
  assert (Hil : (i < length (entries s))%nat) by by eapply lookup_lt_Some.
  assert (Hi1 : entries s1 !! i = Some e) by (by apply list_lookup_insert_eq).
  wp_steps. rewrite (entry_at_lookup _ _ _ Hi1), Hty. cbn [negb orb Z.eqb Pos.eqb FS_TYPE_FILE].
  change (may_write s1 e) with (may_write s e). rewrite Hw. cbn [negb orb].
  destruct (sectors_for_small (Z.of_nat (length data)) ltac:(lia)) as (Hq & _).
  wp_call (write_entry_data_spec i data s1 e); try done.
  - by eapply index_bound.
  - destruct Hex as [?|[? _]]; [by left|by right].
  - unfold sector_count. pose proof (v_count _ Hv). simpl. lia.
  - intros ok s' [Hwr Hok].
    assert (ok = true) as ->.
    { apply Hok; [done|done|]. unfold sector_count, grown. cbn [entries s1 with_entries disk].
      case_if as E; [cbn [fe_start_lba with_extent]; by rewrite Hnext|].
      destruct Hex as [?|[? ?]]; lia. }
    destruct (Hwr eq_refl) as (F & _). split_and!; [done| |apply F|apply F].
    by eapply (working_frame _ _ _ F).
Qed.

(** Reading a regular file by its own name. *)
Lemma fs_read_total name capacity s i e :
  volume_ok s -> working s -> valid_name name = true -> at_path (entries s) i (cstr name) e ->
  fe_type e = FS_TYPE_FILE -> may_read s e = true -> 0 <= capacity <= 0x7FFFFFFF ->
  exists s', fs_read name capacity s =
    (Some (take (Z.to_nat capacity) (n_data (node_of (disk s) e))), s').
Proof.
  intros Hv [Hh Hr] Hn He Hty Hrd Hc.
  assert (Hw : wp (fs_read name capacity)
    (fun r _ => r = Some (take (Z.to_nat capacity) (n_data (node_of (disk s) e)))) s).
  { unfold fs_read, fs_read_at. wp_steps. destruct (v_live _ Hv) as (_ & Hm & _).
    rewrite Hm, Hn. cbn [negb orb]. wp_step. unfold resolve_entry. cbn [resolve_loop]. wp_steps.
    assert (Hfind : find_entry (entries s) (cstr name) = Some i).
    { apply (find_entry_at _ _ _ e); [by apply unique_of|by rewrite cstr_cstr]. }
    rewrite Hfind. wp_steps. rewrite (entry_at_lookup _ _ _ (proj1 He)), Hty.
    cbn [negb orb Z.eqb Pos.eqb FS_TYPE_FILE FS_TYPE_SYMLINK]. wp_steps.
    rewrite (entry_at_lookup _ _ _ (proj1 He)), Hty, Hrd. cbn [negb orb Z.eqb Pos.eqb FS_TYPE_FILE].
    wp_call (read_entry_spec s i e); [done|apply He|apply He|lia|lia|].
    intros r s' (_ & Hl & Hok). destruct Hok as [l ->]; [done|done|lia|].
    by rewrite (Hl l eq_refl), drop_0. }
  unfold wp in Hw. destruct (fs_read name capacity s) as [r s']. simpl in Hw. exists s'. by rewrite Hw.
Qed.

(** What a direct write leaves at [name]. *)
Lemma direct_view name data s s1 :
  valid_name name = true -> volume_ok s -> can_write s name ->
  (forall i, find_entry (entries s) name = Some i -> may_read s (entry_at (entries s) i) = true) ->
  spec_op (current_uid s) (current_privileged s) (OpWrite name data) (view s) (view s1) ->
  exists n, view s1 name = Some n /\ n_data n = data /\ n_type n = FS_TYPE_FILE /\
    node_readable (current_uid s) (current_privileged s) n.
Proof.
  intros Hn Hv Hc Hrd (p & Hwt & Hspec). unfold write_target, can_write in *.
  destruct (view s name) as [n|] eqn:Evn.
  - pose proof Evn as Evn'. unfold view in Evn'.
    destruct (find_entry (entries s) name) as [i|]; [|done]. injection Evn' as <-.
    destruct Hc as [Hty _]. cbn [n_type node_of] in Hwt. rewrite Hty in Hwt. cbn in Hwt. subst p.
    rewrite view_idem, Evn in Hspec. destruct Hspec as (Ht & _ & Hup).
    eexists. rewrite (Hup name), decide_True by done. split_and!; [done|done|done|].
    specialize (Hrd i eq_refl). apply may_read_node in Hrd.
    unfold node_readable, node_mode in *. cbn [n_type n_flags n_owner node_of] in *.
    by rewrite Hty in Hrd.
  - subst p. rewrite view_idem, Evn in Hspec. destruct Hspec as (_ & Hup). eexists.
    rewrite (Hup name), decide_True by done. split_and!; [done|done|done|].
    unfold node_readable. destruct (current_privileged s); [by left|]. right. left.
    split; [done|]. by vm_compute.
Qed.

(** [C2] Round trip: on a consistent volume with a working disk, memory for a
    sector buffer and space after the last extent, writing a new file, or a regular
    file the caller may write and read, succeeds, and reading it back returns
    exactly the bytes written. *)
Theorem fs_write_read_roundtrip name data capacity s :
  volume_ok s -> working s -> valid_name name = true -> can_write s name ->
  (forall i, find_entry (entries s) name = Some i -> may_read s (entry_at (entries s) i) = true) ->
  bytes data -> Z.of_nat (length data) <= capacity <= 0x7FFFFFFF ->
  next_data_lba (entries s) + sectors_for (Z.of_nat (length data)) <= bd_count (disk s) ->
  exists s1 s2, fs_write name data s = (true, s1) /\ fs_read name capacity s1 = (Some data, s2).
Proof.
  intros Hv Hwk Hn Hc Hrd Hb Hlen Hspace.
  pose proof (fs_write_total name data s Hv Hwk Hn Hc Hb ltac:(lia) Hspace) as Hw. unfold wp in Hw.
  destruct (fs_write name data s) as [ok s1] eqn:E. simpl in Hw. destruct Hw as (-> & Hwk1 & Hu & Hpr).
  pose proof (write_refines name data s Hv Hb ltac:(lia)) as Href.
  unfold refines, wp in Href. cbn [run_op] in Href. rewrite E in Href.
  destruct (Href eq_refl) as (Hv1 & Hspec). clear Href.
  destruct (direct_view name data s s1 Hn Hv Hc Hrd Hspec) as (n & Hvn & Hd & Hty & Hrn).
  apply view_Some in Hvn as (i & e & He & ->). cbn [n_data n_type node_of] in *.
  destruct (fs_read_total name capacity s1 i e) as [s2 Hrt]; try done; [|lia|].
  - apply may_read_node. by rewrite Hu, Hpr.
  - exists s1, s2. split; [done|]. rewrite Hrt. cbn [n_data node_of]. rewrite Hd.
    rewrite take_ge by lia. done.
Qed.

End theorems.

(** ** A volume to try the theorems on *)

Definition fresh_heap : Heap := heap_init (mkHeap 0 ∅).

(** A blank disk of 8192 sectors, and the volume formatted on it. *)
Definition blank_fs : FsState (D:=RamDisk) (H:=Heap) :=
  mkFs zero_super (replicate FS_MAX_ENTRIES zero_entry) false 0 true (mkRam 8192 ∅) fresh_heap.

Definition empty_fs : FsState (D:=RamDisk) (H:=Heap) := (run_op OpFormat blank_fs).2.

Definition path_a : list Z := [97].       (** "a" *)
Definition path_ab : list Z := [97; 47; 98].   (** "a/b" *)

Lemma empty_fs_ok : volume_ok empty_fs.
Proof.
  pose proof (format_refines blank_fs) as H. unfold refines, wp in H. apply H.
  - simpl. lia.
  - by vm_compute.
Qed.

Lemma empty_fs_heap :
  heap empty_fs = al_free (al_alloc SECTOR_SIZE fresh_heap).1 (al_alloc SECTOR_SIZE fresh_heap).2.
Proof. vm_compute. reflexivity. Qed.

Lemma fresh_heap_same : al_same fresh_heap fresh_heap.
Proof. destruct (init_ok (mkHeap 0 ∅)) as [Hc Hv]. by eexists. Qed.

Lemma empty_fs_working : working empty_fs.
Proof.
  split; [done|]. apply (heap_room_same blank_fs).
  - rewrite empty_fs_heap. eapply (al_free_alloc SECTOR_SIZE).
    + unfold SECTOR_SIZE. lia.
    + apply fresh_heap_same.
    + apply surjective_pairing.
  - split; [apply fresh_heap_same|]. by vm_compute.
Qed.

Lemma fs_refines_witness :
  spec_op 0 true (OpMkdir path_a 0) (view empty_fs) (view (run_op (OpMkdir path_a 0) empty_fs).2).
Proof.
  apply (fs_refines (OpMkdir path_a 0) empty_fs).
  - apply empty_fs_ok.
  - split; [simpl; lia|done].
  - apply pair_fst. by vm_compute.
Defined.

Lemma fs_write_read_roundtrip_witness :
  exists s1 s2, fs_write path_a [1; 2; 3] empty_fs = (true, s1) /\
                fs_read path_a 3 s1 = (Some [1; 2; 3], s2).
Proof.
  apply fs_write_read_roundtrip.
  - apply empty_fs_ok.
  - apply empty_fs_working.
  - by vm_compute.
  - vm_compute. split; [done|by eexists].
  - intros i. by vm_compute.
  - repeat constructor; by vm_compute.
  - by vm_compute.
  - by vm_compute.
Defined.

Lemma fs_read_at_correct_witness :
  let s := (run_op (OpWrite path_a [1; 2; 3]) empty_fs).2 in
  exists p n, follow 8 (view s) (cstr path_a) = Some p /\ view s p = Some n /\
    [2; 3] = take (Z.to_nat 2) (drop (Z.to_nat 1) (n_data n)).
Proof.
  cbv zeta. set (s := (run_op (OpWrite path_a [1; 2; 3]) empty_fs).2).
  assert (Hv : volume_ok s).
  { apply (run_op_refines (OpWrite path_a [1; 2; 3]) empty_fs empty_fs_ok).
    - split; [simpl; lia|]. split; [repeat constructor; by vm_compute|simpl; lia].
    - by vm_compute. }
  destruct (fs_read_at_correct path_a 1 2 s [2; 3] (fs_read_at path_a 1 2 s).2 Hv)
    as (_ & _ & p & n & Hf & Hn & _ & _ & Hl).
  - lia.
  - lia.
  - apply pair_fst. by vm_compute.
  - exact (ex_intro _ p (ex_intro _ n (conj Hf (conj Hn Hl)))).
Defined.

(** ** Two writes that destroy data

    Both are computed on a small volume: 132 data sectors, file "a" of user 1000
    and file "b" of root that nobody else may read or write. *)

Definition small_blank : FsState (D:=RamDisk) (H:=Heap) :=
  mkFs zero_super (replicate FS_MAX_ENTRIES zero_entry) false 0 true (mkRam 4740 ∅)
       (heap_init (mkHeap 0 ∅)).

Definition name_a : list Z := [97].
Definition name_b : list Z := [98].

Definition small_fs : FsState (D:=RamDisk) (H:=Heap) :=
  run_ops [OpFormat; OpWrite name_a [7]; OpChown name_a 1000; OpWrite name_b [1; 2; 3];
           OpChmod name_b 0x180; OpIdentity 1000 false] small_blank.

Definition as_root (s : FsState (D:=RamDisk) (H:=Heap)) : FsState (D:=RamDisk) (H:=Heap) :=
  with_identity 0 true s.

(** A failed write loses the file: [write_entry_data] moves the entry to its
    new extent before it checks that the extent fits the disk.  Here the
    overwriting of "b" with more data than the disk has room for is refused, and
    afterwards "b" reads as zeroes instead of its old contents. *)
Theorem fs_write_failure_loses_data :
  let s := as_root small_fs in
  let r := fs_write name_b (replicate 70000 5) s in
  (fs_read name_b 3 s).1 = Some [1; 2; 3] /\
  r.1 = false /\
  (fs_read name_b 3 r.2).1 = Some [0; 0; 0].
Proof. vm_compute. auto. Qed.

(** The gap-filling loop of a write near 2^64 has more than enough rounds. *)
Lemma huge_fuel : exists f, read_fuel (2 ^ 64 - 2) = (200 + f)%nat.
Proof.
  exists (read_fuel (2 ^ 64 - 2) - 200)%nat. unfold read_fuel, SECTOR_SIZE.
  assert (200 <= Z.to_nat ((2 ^ 64 - 2) / 512))%nat; [|lia].
  apply Nat2Z.inj_le. rewrite Z2Nat.id by (apply Z.div_pos; lia). by vm_compute.
Qed.

(** A write near 2^64 wipes the disk: the number of sectors [fs_write_at]
    needs wraps to one, so nothing is refused, and the loop that zeroes the gap up
    to the offset runs past the extent of the file to the end of the disk.  Here
    user 1000 writes one byte at offset 2^64 - 2 of "a"; the call fails, and root's
    file "b", which the user may neither read nor write, is overwritten. *)
Theorem fs_write_at_wraps :
  let r := fs_write_at name_a (2 ^ 64 - 2) [9] small_fs in
  (fs_read name_b 3 small_fs).1 = None /\
  (fs_write name_b [0; 0; 0] small_fs).1 = false /\
  (fs_read name_b 3 (as_root small_fs)).1 = Some [1; 2; 3] /\
  r.1 = false /\
  (fs_read name_b 3 (as_root r.2)).1 = Some [0; 0; 0].
Proof.
  cbv zeta. unfold fs_write_at, write_at_entry.
  destruct huge_fuel as [f Hf]. rewrite Hf. generalize f. clear f Hf. intros f.
  vm_compute. auto 10.
Qed.
