(* ===== verification/FsMount.v ===== *)
(** * kernel/filesystem.c: mounting

    [fs_init] reads back the table a consistent volume has on disk, and builds a
    well-formed tree when it formats a blank disk or migrates a version 1 volume. *)

From S2P Require Import Prelude Runtime Heap HeapFacts Interfaces RamDisk.
From S2P Require Import Filesystem FsNames FsFrame FsTree FsData FsVolume FsRefine FsTheorems.

(** [lia] with quotients and remainders. *)
#[local] Ltac Zify.zify_post_hook ::= Z.to_euclidean_division_equations.

(** ** Runs of sectors and records *)

Lemma lookup_records {A} n width (decode : list Z -> A) l (i : nat) :
  (i < n)%nat -> records n width decode l !! i = Some (decode (slice (i * width) width l)).
Proof.
  revert l i. induction n as [|n IH]; intros l i Hi; [lia|]. destruct i as [|i]; cbn [records].
  - unfold slice. by rewrite drop_0.
  - rewrite lookup_cons, IH by lia. unfold slice. rewrite drop_drop. do 3 f_equal.
Qed.

Lemma length_records {A} n width (decode : list Z -> A) l : length (records n width decode l) = n.
Proof. revert l. induction n as [|n IH]; intros l; cbn [records length]; [done|]. by rewrite IH. Qed.

Section mount.
Context {D H : Type} `{!BlockDevice D} `{!Allocator H}.
Implicit Types s : FsState (D:=D) (H:=H).

(** The bytes of [n] sectors from [lba] on. *)
Fixpoint sector_run (d : D) (lba : Z) (n : nat) : list Z :=
  match n with O => [] | S n => bd_sector d lba ++ sector_run d (lba + 1) n end.

Lemma length_sector_run d lba n : length (sector_run d lba n) = (512 * n)%nat.
Proof.
  revert lba. induction n as [|n IH]; intros lba; cbn [sector_run]; [done|].
  rewrite length_app, IH. destruct (bd_sector_ok d lba) as [-> _]. lia.
Qed.

(** A piece of one sector of a run. *)
Lemma slice_sector_run d lba n j off len :
  (j < n)%nat -> (off + len <= 512)%nat ->
  slice (512 * j + off) len (sector_run d lba n) = slice off len (bd_sector d (lba + Z.of_nat j)).
Proof.
  revert lba j. induction n as [|n IH]; intros lba j Hj Hle; [lia|]. cbn [sector_run].
  destruct (bd_sector_ok d lba) as [Hl _]. destruct j as [|j].
  - rewrite Z.add_0_r. unfold slice. rewrite drop_app_le by lia.
    by rewrite take_app_le by (rewrite length_drop; lia).
  - rewrite slice_skip by lia. rewrite Hl.
    replace (512 * S j + off - 512)%nat with (512 * j + off)%nat by lia.
    rewrite IH by lia. do 2 f_equal. lia.
Qed.

Lemma sector_run_ext d d' lba n :
  (forall x, lba <= x < lba + Z.of_nat n -> bd_sector d' x = bd_sector d x) ->
  sector_run d' lba n = sector_run d lba n.
Proof.
  revert lba. induction n as [|n IH]; intros lba Hx; cbn [sector_run]; [done|].
  rewrite Hx by lia. f_equal. apply IH. intros x Hr. apply Hx. lia.
Qed.

Lemma read_sectors_spec n lba acc s :
  0 <= lba ->
  wp (read_sectors n lba acc)
     (fun r s' => disk_frame nowhere s s' /\
        (r.1 = true -> r.2 = acc ++ sector_run (disk s) lba n) /\
        (bd_healthy (disk s) -> lba + Z.of_nat n <= sector_count s -> r.1 = true)) s.
Proof.
  revert lba acc s. induction n as [|n IH]; intros lba acc s Hl; cbn [read_sectors].
  { apply wp_ret. split_and!; [apply disk_frame_refl| |done]. by rewrite app_nil_r. }
  wp_step. wp_call ata_read_sector_spec. intros [data|] s1 (F & Hd & Hok).
  - destruct (Hd data eq_refl) as [-> _]. wp_call IH; [lia|]. intros r s2 (F2 & Hr & Hok2).
    assert (Hsec : forall x, bd_sector (disk s1) x = bd_sector (disk s) x).
    { intros x. apply (fr_sector _ _ _ (proj1 F)). by intros []. }
    split_and!; [frames; done| |].
    + intros Hr1. rewrite (Hr Hr1). cbn [sector_run]. rewrite <- app_assoc. do 2 f_equal.
      apply sector_run_ext. intros x _. apply Hsec.
    + intros Hh Hc. apply Hok2; [by apply F|]. rewrite (frame_count _ _ _ F). lia.
  - apply wp_ret. split_and!; [done|done|]. intros Hh Hc.
    by specialize (Hok Hh ltac:(lia)).
Qed.

(** The table stored in the directory sectors. *)
Definition stored_table (d : D) : list FsEntry :=
  records FS_MAX_ENTRIES ENTRY_SIZE decode_entry (sector_run d FS_DIRECTORY_LBA FS_DIRECTORY_SECTORS).

(** Reading back the table gives the table that is mirrored on disk. *)
Lemma stored_table_mirror d es :
  length es = FS_MAX_ENTRIES -> Forall entry_wf es -> mirror_ok d es -> stored_table d = es.
Proof.
  intros Hlen Hwf Hm. apply list_eq. intros i. unfold stored_table.
  destruct (decide (i < FS_MAX_ENTRIES)%nat) as [Hi|Hi].
  - rewrite lookup_records by done.
    destruct (lookup_lt_is_Some_2 es i ltac:(lia)) as [e He]. rewrite He. f_equal.
    assert ((i * ENTRY_SIZE)%nat = (512 * (i / 4) + entry_offset i)%nat) as ->.
    { unfold ENTRY_SIZE, entry_offset, ENTRY_SIZE. pose proof (Nat.div_mod_eq i 4). lia. }
    rewrite slice_sector_run.
    + fold (entry_lba i). rewrite (Hm i e He). apply decode_encode_entry. by eapply lookup_wf.
    + unfold FS_MAX_ENTRIES, FS_DIRECTORY_SECTORS in *. pose proof (Nat.Div0.div_lt_upper_bound i 4 256). lia.
    + apply entry_offset_bound.
  - rewrite !lookup_ge_None_2; [done|lia|]. rewrite length_records. lia.
Qed.

Lemma decode_super_wf data : is_sector data -> super_wf (decode_super data).
Proof.
  intros [Hl Hb]. assert (Hf : forall off n, (off + n <= 512)%nat ->
    0 <= field off n data < 2 ^ (8 * Z.of_nat n)).
  { intros off n Hle. pose proof (of_le_bound (slice off n data) ltac:(by apply bytes_slice)) as Hbd.
    unfold slice in Hbd at 2 3. rewrite length_take, length_drop, Hl in Hbd.
    replace (n `min` (512 - off))%nat with n in Hbd by lia. done. }
  constructor; cbn [decode_super sb_magic sb_version sb_directory_lba sb_directory_sectors sb_data_lba
    sb_max_entries sb_total_sectors sb_reserved]; try (apply (Hf _ 4%nat); lia).
  - split; [|by apply bytes_slice]. unfold slice. rewrite length_take, length_drop, Hl. done.
  - split; [|by apply bytes_slice]. unfold slice. rewrite length_take, length_drop, Hl. done.
Qed.

Lemma with_total_wf v b : super_wf b -> 0 <= v < 2 ^ 32 -> super_wf (with_total v b).
Proof. intros [] Hv. by constructor. Qed.

Lemma current_not_legacy b : is_current b = true -> is_legacy b = false.
Proof.
  unfold is_current, is_legacy, FS_VERSION, FS_LEGACY_VERSION. intros Hc. bool_hyps.
  destruct (sb_version b =? 1) eqn:E; [lia|done].
Qed.

(** Enough memory for the table. *)
Definition table_room s : Prop :=
  (al_alloc (Z.of_nat FS_MAX_ENTRIES * Z.of_nat ENTRY_SIZE) (heap s)).1 <> 0.

(** [fs_init] on a disk with a consistent version 2 volume. *)
Lemma fs_init_current s :
  bd_healthy (disk s) -> table_room s -> super_ok (disk s) -> FS_DATA_LBA < bd_count (disk s) ->
  wp fs_init
     (fun ok s' => ok = true /\ entries s' = stored_table (disk s) /\ mounted s' = true /\
        current_uid s' = 0 /\ current_privileged s' = true /\
        bd_count (disk s') = bd_count (disk s) /\ super_ok (disk s') /\
        forall x, x <> FS_SUPER_LBA -> bd_sector (disk s') x = bd_sector (disk s) x) s.
Proof.
  intros Hh Hroom [Hmag Hcur] Hcount. pose proof (bd_count_bound (disk s)) as Hcb.
  unfold fs_init. wp_steps. set (s0 := with_identity 0 true (with_mounted false s)).
  destruct (al_alloc (Z.of_nat FS_MAX_ENTRIES * Z.of_nat ENTRY_SIZE) (heap s0)) as [ptr h] eqn:Eal.
  eapply wp_alloc; [exact Eal|]. wp_steps.
  assert ((ptr =? 0) = false) as Hptr.
  { apply Z.eqb_neq. intros ->. apply Hroom. change (heap s) with (heap s0). by rewrite Eal. }
  rewrite Hptr. set (s1 := with_entries _ _).
  wp_step. wp_call ata_read_sector_spec. intros r s2 (F2 & _ & Hok2).
  rewrite Hok2; [|done|]. 2:{ unfold sector_count, FS_SUPER_LBA, FS_DATA_LBA in *. simpl. lia. }
  clear Hok2. change (disk s1) with (disk s) in *.
  set (block := decode_super (bd_sector (disk s) FS_SUPER_LBA)) in *.
  wp_steps. rewrite Hmag, (current_not_legacy _ Hcur), Hcur. cbn [negb].
  set (s3 := with_superblock block s2).
  wp_step. wp_call read_sectors_spec; [unfold FS_DIRECTORY_LBA, FS_SUPER_LBA; lia|].
  intros [loaded table] s4 (F4 & Ht & Hok4). cbn [fst snd] in *.
  assert (Hs2 : forall x, bd_sector (disk s2) x = bd_sector (disk s) x).
  { intros x. apply (fr_sector _ _ _ (proj1 F2)). by intros []. }
  assert (loaded = true) as ->.
  { apply Hok4; [by apply F2|]. unfold sector_count, s3. cbn [disk with_superblock].
    rewrite (fr_count _ _ _ (proj1 F2)). unfold FS_DIRECTORY_LBA, FS_SUPER_LBA, FS_DATA_LBA, FS_DIRECTORY_SECTORS in *.
    simpl disk. lia. }
  rewrite (Ht eq_refl). cbn [app]. clear Ht Hok4. change (disk s3) with (disk s2).
  rewrite (sector_run_ext (disk s) (disk s2)) by (intros; apply Hs2).
  set (run := sector_run (disk s) FS_DIRECTORY_LBA FS_DIRECTORY_SECTORS).
  assert (Hrest : (FS_MAX_ENTRIES * ENTRY_SIZE - length run)%nat = O).
  { unfold run. rewrite length_sector_run. done. }
  rewrite Hrest, app_nil_r. unfold run. clear run Hrest. fold (stored_table (disk s)).
  wp_step. apply wp_modify. cbn [negb]. wp_steps.
  assert (Hc4 : bd_count (disk s4) = bd_count (disk s)).
  { rewrite (fr_count _ _ _ (proj1 F4)). unfold s3. cbn [disk with_superblock].
    by rewrite (fr_count _ _ _ (proj1 F2)). }
  assert (sector_count (with_entries (stored_table (disk s)) s4) = bd_count (disk s)) as -> by exact Hc4.
  assert (Hwf : super_wf (with_total (bd_count (disk s)) block)).
  { apply with_total_wf; [|done]. apply decode_super_wf, bd_sector_ok. }
  wp_call ata_write_sector_spec; [by apply encode_super_sector|].
  intros ok s5 (F5 & Hw & Hok5). wp_steps. cbn [entries with_mounted disk current_uid current_privileged mounted].
  assert (ok = true) as ->.
  { apply Hok5.
    - cbn [disk with_superblock with_entries]. by apply F4, F2.
    - unfold sector_count. cbn [disk with_superblock with_entries]. rewrite Hc4.
      unfold FS_SUPER_LBA, FS_DATA_LBA in *. lia. }
  destruct (Hw eq_refl) as [Hsup _]. split_and!; try done.
  - apply (fr_entries _ _ _ (proj1 F5)).
  - rewrite (fr_uid _ _ _ (proj1 F5)). cbn. rewrite (fr_uid _ _ _ (proj1 F4)). cbn.
    by rewrite (fr_uid _ _ _ (proj1 F2)).
  - rewrite (fr_privileged _ _ _ (proj1 F5)). cbn. rewrite (fr_privileged _ _ _ (proj1 F4)). cbn.
    by rewrite (fr_privileged _ _ _ (proj1 F2)).
  - rewrite (fr_count _ _ _ (proj1 F5)). done.
  - unfold super_ok. rewrite Hsup, decode_encode_super by done. split; [exact Hmag|exact Hcur].
  - intros x Hx. rewrite (fr_sector _ _ _ (proj1 F5)) by done.
    cbn [disk with_superblock with_entries]. rewrite (fr_sector _ _ _ (proj1 F4)) by (by intros []).
    apply Hs2.
Qed.

(** ** Migration of a version 1 volume *)

(** An entry read from the old directory, and its backup. *)
Definition legacy_wf (e : LegacyFsEntry) : Prop := 0 <= lf_owner e < 2 ^ 32.

Definition backup_wf (b : LegacyBackup) : Prop :=
  legacy_wf (lb_entry b) /\ Z.of_nat (length (lb_data b)) < 2 ^ 31.

Lemma field_4_bound off l : bytes l -> 0 <= field off 4 l < 2 ^ 32.
Proof.
  intros Hb. unfold field. pose proof (of_le_bound (slice off 4 l) ltac:(by apply bytes_slice)) as Hx.
  assert (length (slice off 4 l) <= 4)%nat by (unfold slice; rewrite length_take; lia).
  pose proof (Z.pow_le_mono_r 2 (8 * Z.of_nat (length (slice off 4 l))) 32). lia.
Qed.

Lemma records_legacy_wf n l : bytes l -> Forall legacy_wf (records n 64 decode_legacy l).
Proof.
  revert l. induction n as [|n IH]; intros l Hb; cbn [records]; constructor; [|by apply IH, bytes_drop].
  unfold legacy_wf. cbn [lf_owner decode_legacy]. by apply field_4_bound, bytes_take.
Qed.

Lemma sector_run_bytes d lba n : bytes (sector_run d lba n).
Proof.
  revert lba. induction n as [|n IH]; intros lba; cbn [sector_run]; [constructor|].
  apply bytes_app. split; [apply bd_sector_ok|apply IH].
Qed.

Lemma backup_files_wf legacy s :
  Forall legacy_wf legacy ->
  wp (backup_files legacy) (fun r s' => tables s' = tables s /\ Forall backup_wf r.2) s.
Proof.
  intros Hl. revert s. induction Hl as [|e legacy He Hl IH]; intros s; cbn [backup_files].
  { apply wp_ret. split; [done|constructor]. }
  assert (Hcons : forall b (s1 : FsState), backup_wf b -> tables s1 = tables s ->
    wp (let! (loaded, rest) := backup_files legacy in ret (loaded, b :: rest))
       (fun r s' => tables s' = tables s /\ Forall backup_wf r.2) s1).
  { intros b s1 Hb Hs1. wp_step. wp_call IH. intros [loaded rest] s2 [Hs2 Hr]. apply wp_ret.
    split; [congruence|]. by constructor. }
  case_if as Eu.
  { apply Hcons; [|done]. split; cbn; unfold legacy_wf; cbn; lia. }
  case_if as Ez.
  { apply Hcons; [|done]. split; [done|cbn; lia]. }
  wp_step. apply wp_quiet; [auto with nova|]. intros p s1 Hs1. case_if as Ep.
  { apply wp_ret. split; [done|]. apply Forall_singleton. split; [done|cbn; lia]. }
  wp_step. apply wp_quiet; [auto with nova|]. intros data s2 Hs2. case_if as Ec.
  { apply wp_ret. split; [congruence|]. apply Forall_singleton. split; [done|cbn; lia]. }
  apply Hcons; [|congruence]. split; [done|]. cbn [lb_data].
  pose proof (swrap_bound 32 (lf_size e) ltac:(lia)). destruct data as [d|]; cbn in *; lia.
Qed.

(** [m] keeps the invariant. *)
Definition keeps {A} (m : st (FsState (D:=D) (H:=H)) A) : Prop :=
  forall s, tree_inv s -> wp m (fun _ s' => tree_inv s') s.

Lemma keeps_quiet {A} (m : st (FsState (D:=D) (H:=H)) A) : quiet m -> keeps m.
Proof. intros Hq s Hi. by apply (quiet_inv m s Hq). Qed.

Lemma keeps_op (op : fs_op) : typed_op op -> keeps (run_op op).
Proof. intros Ht s Hi. by apply run_op_inv. Qed.

Lemma keeps_bind {A B} (m : st (FsState (D:=D) (H:=H)) A) (k : A -> st FsState B) :
  keeps m -> (forall a, keeps (k a)) -> keeps (bind m k).
Proof. intros Hm Hk s Hi. wp_step. wp_call Hm; [done|]. intros a s' Hi'. by apply Hk. Qed.

Lemma keeps_ret {A} (a : A) : keeps (ret a).
Proof. by intros s Hi. Qed.

Lemma keeps_restore e : legacy_wf e -> keeps (restore_attributes e).
Proof.
  intros He. unfold restore_attributes. apply keeps_bind.
  - apply (keeps_op (OpChmod (lf_name e) _)). simpl. pose proof (land_0x1FF (lf_flags e)). lia.
  - intros _. apply keeps_bind; [|intros; apply keeps_ret].
    by apply (keeps_op (OpChown (lf_name e) (lf_owner e))).
Qed.

Lemma keeps_mkdir name mode : keeps (fs_mkdir name mode).
Proof.
  intros s Hi. eapply (unmounted_guard (fs_mkdir name mode) _ s eq_refl); [done|done|]. apply fs_mkdir_live.
Qed.

Lemma keeps_migrate_directories_at depth backup :
  Forall backup_wf backup -> keeps (migrate_directories_at depth backup).
Proof.
  induction 1 as [|b backup [Hb _] Hf IH]; cbn [migrate_directories_at]; [apply keeps_ret|].
  case_if as E; [done|]. apply keeps_bind; [apply keeps_quiet; auto with nova|]. intros existing.
  apply keeps_bind; [destruct existing; [apply keeps_ret|apply keeps_mkdir]|]. intros [|]; cbn [negb].
  - apply keeps_bind; [by apply keeps_restore|]. by intros.
  - apply keeps_ret.
Qed.

Lemma keeps_migrate_directories n backup :
  Forall backup_wf backup -> keeps (migrate_directories n backup).
Proof.
  intros Hb. induction n as [|n IH]; cbn [migrate_directories]; [apply keeps_ret|].
  apply keeps_bind; [by apply keeps_migrate_directories_at|]. intros [|]; [done|apply keeps_ret].
Qed.

Lemma keeps_migrate_files backup : Forall backup_wf backup -> keeps (migrate_files backup).
Proof.
  induction 1 as [|b backup [Hb Hd] Hf IH]; cbn [migrate_files]; [apply keeps_ret|].
  case_if as E; [done|]. apply keeps_bind.
  - case_if as Es; [case_if as Ez; [apply keeps_ret|]|].
    + by apply (keeps_op (OpSymlink (SLASH :: lb_data b) (lf_name (lb_entry b)))).
    + apply (keeps_op (OpWrite (lf_name (lb_entry b)) (lb_data b))). simpl. lia.
  - intros [|]; cbn [negb]; [|apply keeps_ret]. apply keeps_bind; [by apply keeps_restore|]. by intros.
Qed.

Lemma migrate_legacy_inv s : tree_inv s -> wp migrate_legacy (fun _ s' => tree_inv s') s.
Proof.
  intros Hi. unfold migrate_legacy. wp_step. apply wp_quiet; [auto with nova|]. intros p1 s1 H1.
  wp_step. apply wp_quiet; [auto with nova|]. intros p2 s2 H2.
  assert (Hi2 : tree_inv s2) by (by do 2 (eapply tables_inv; [done|])). clear H1 H2 Hi s1.
  case_if as Ep.
  { apply (keeps_bind (free p1)); [apply keeps_quiet; auto with nova| |done]. intros _.
    apply keeps_bind; [apply keeps_quiet; auto with nova|]. intros. apply keeps_ret. }
  wp_step. wp_call read_sectors_spec; [unfold FS_DIRECTORY_LBA, FS_SUPER_LBA; lia|].
  intros [loaded table] s3 (F3 & Ht & _). cbn [fst snd] in Ht.
  assert (Hi3 : tree_inv s3).
  { destruct F3 as [F3 _]. unfold tree_inv in *.
    by rewrite (fr_uid _ _ _ F3), (fr_mounted _ _ _ F3), (fr_entries _ _ _ F3). }
  wp_step. eapply (wp_mono _ (fun r s' => tree_inv s' /\ Forall backup_wf r.2)).
  { destruct loaded; [|by apply wp_ret; split; [|constructor]].
    wp_call backup_files_wf.
    - apply records_legacy_wf. rewrite (Ht eq_refl). apply sector_run_bytes.
    - intros r s4 [Hs4 Hr]. split; [by eapply tables_inv|done]. }
  intros [loaded' backup] s4 [Hi4 Hb]. cbn [snd] in Hb.
  enough (Hk : keeps (free p2 ;;;
    formatted <- (if (loaded' : bool) then format_v2 else ret false) ;;
    if negb formatted then release_legacy_backup p1 backup ;;; ret false else
    ok <- migrate_directories FS_NAME_MAX backup ;;
    success <- (if (ok : bool) then migrate_files backup else ret false) ;;
    release_legacy_backup p1 backup ;;; ret success)) by (by apply Hk).
  assert (Hrel : keeps (release_legacy_backup p1 backup)) by (apply keeps_quiet; auto with nova).
  apply keeps_bind; [apply keeps_quiet; auto with nova|]. intros _. apply keeps_bind.
  { destruct loaded'; [|apply keeps_ret]. apply (keeps_op OpFormat). done. }
  intros [|]; cbn [negb].
  - apply keeps_bind; [by apply keeps_migrate_directories|]. intros ok.
    apply keeps_bind; [destruct ok; [by apply keeps_migrate_files|apply keeps_ret]|]. intros success.
    apply keeps_bind; [done|]. intros. apply keeps_ret.
  - apply keeps_bind; [done|]. intros. apply keeps_ret.
Qed.

(** Mounting yields a tree: whatever is on the disk, after [fs_init] a mounted
    volume - formatted because the disk was blank, migrated from a version 1 volume
    with any contents, or read back - has a well-formed directory tree.  For a
    volume that is read back this needs the table stored on disk to be one. *)
Theorem fs_init_tree s :
  (super_ok (disk s) -> tree_ok (stored_table (disk s))) -> tree_inv (fs_init s).2.
Proof.
  intros Hdisk. enough (Hw : wp fs_init (fun _ s' => tree_inv s') s) by exact Hw.
  unfold fs_init. wp_steps. set (s0 := with_identity 0 true (with_mounted false s)).
  destruct (al_alloc (Z.of_nat FS_MAX_ENTRIES * Z.of_nat ENTRY_SIZE) (heap s0)) as [ptr h] eqn:Eal.
  eapply wp_alloc; [exact Eal|]. wp_steps. set (s1 := with_entries _ _).
  assert (Hi1 : tree_inv s1) by (split; [simpl; lia|done]).
  case_if as Ep; [done|]. wp_step. wp_call ata_read_sector_spec. intros r s2 (F2 & Hr & _).
  assert (Hi2 : tree_inv s2).
  { destruct F2 as [F2 _]. unfold tree_inv in *.
    by rewrite (fr_uid _ _ _ F2), (fr_mounted _ _ _ F2), (fr_entries _ _ _ F2). }
  assert (Hformat : wp format_v2 (fun _ s' => tree_inv s') s2) by (by apply (keeps_op OpFormat)).
  destruct r as [sector|]; [|done]. destruct (Hr sector eq_refl) as [-> _]. clear Hr.
  change (disk s1) with (disk s) in *. wp_steps. set (block := decode_super _).
  set (s3 := with_superblock block s2). assert (Hi3 : tree_inv s3) by done.
  destruct (magic_matches block) eqn:Em; cbn [negb]; [|by apply (keeps_op OpFormat)].
  case_if as El; [by apply migrate_legacy_inv|].
  destruct (is_current block) eqn:Ec; cbn [negb]; [|done].
  wp_step. wp_call read_sectors_spec; [unfold FS_DIRECTORY_LBA, FS_SUPER_LBA; lia|].
  intros [loaded table] s4 (F4 & Ht & _). cbn [fst snd] in Ht.
  assert (Hum : mounted s4 = false /\ current_uid s4 = 0).
  { destruct F4 as [F4 _], F2 as [F2 _]. rewrite (fr_mounted _ _ _ F4), (fr_uid _ _ _ F4). cbn.
    by rewrite (fr_mounted _ _ _ F2), (fr_uid _ _ _ F2). }
  destruct Hum as [Hm Hu]. wp_step. apply wp_modify. destruct loaded; cbn [negb].
  2:{ apply wp_ret. split; cbn [current_uid with_entries mounted]; [lia|]. by rewrite Hm. }
  rewrite (Ht eq_refl). cbn [app]. change (disk s3) with (disk s2).
  rewrite (sector_run_ext (disk s) (disk s2))
    by (intros; apply (fr_sector _ _ _ (proj1 F2)); by intros []).
  rewrite length_sector_run. replace (FS_MAX_ENTRIES * ENTRY_SIZE - _)%nat with O by done.
  rewrite app_nil_r. fold (stored_table (disk s)). wp_steps.
  apply wp_quiet; [auto with nova|]. intros ok s5 H5. wp_steps.
  pose proof (tables_entries _ _ H5) as Hes. pose proof (tables_uid _ _ H5) as Hu5.
  split; cbn [current_uid with_mounted entries].
  - rewrite Hu5. cbn [current_uid with_superblock with_entries]. lia.
  - intros _. rewrite Hes. cbn [with_superblock with_entries entries]. apply Hdisk. by split.
Qed.

(** [C4] Persistence: a consistent volume survives a reboot.  Whatever the state of
    memory, mounting the disk of a consistent volume with a working disk and enough
    memory for the table succeeds, yields the very table that was in memory before
    and the same files, and the volume is consistent again. *)
Theorem fs_remount s s0 :
  volume_ok s -> disk s0 = disk s -> bd_healthy (disk s) -> table_room s0 ->
  exists s1, fs_init s0 = (true, s1) /\ entries s1 = entries s /\ volume_ok s1 /\
             unchanged (view s) (view s1).
Proof.
  intros Hv Hd Hh Hroom. pose proof (v_count _ Hv) as Hc.
  assert (Hw := fs_init_current s0). rewrite Hd in Hw. specialize (Hw Hh Hroom (v_super _ Hv) Hc).
  unfold wp in Hw. destruct (fs_init s0) as [ok s1]. cbn [fst snd] in Hw.
  destruct Hw as (-> & Hes & Hm & Hu & Hp & Hcount & Hsup & Hsec). exists s1.
  destruct (v_live _ Hv) as (_ & _ & Htree).
  rewrite (stored_table_mirror _ (entries s)) in Hes; [|apply Htree|apply Htree|apply Hv].
  split_and!; [done|done| |].
  - constructor.
    + unfold live. rewrite Hu, Hm, Hes. split_and!; [lia|lia|done|done].
    + by rewrite Hcount.
    + rewrite Hcount, Hes. apply Hv.
    + rewrite Hes. intros i e He. rewrite Hsec; [by apply (v_mirror _ Hv)|].
      apply lookup_lt_Some in He. rewrite (t_length _ Htree) in He.
      pose proof (entry_lba_bounds i He). lia.
    + done.
  - intros q. unfold view. rewrite Hes. destruct (find_entry (entries s) q) as [i|] eqn:Ef; [|done].
    apply find_entry_Some in Ef as (e & He & Hue & _). rewrite (entry_at_lookup _ _ _ He).
    f_equal. unfold node_of. f_equal. apply file_bytes_ext. intros k Hk. apply disk_byte_sector, Hsec.
    destruct (extent_of s i e Hv He Hue) as [H1 H2]. unfold SECTOR_SIZE, FS_DATA_LBA, FS_SUPER_LBA in *. lia.
Qed.

End mount.

(** ** Witnesses *)

(** A volume with a directory "a", as another session left it on disk. *)
Definition used_fs : FsState (D:=RamDisk) (H:=Heap) := (run_op (OpMkdir path_a 0) empty_fs).2.

Definition rebooted (s : FsState (D:=RamDisk) (H:=Heap)) : FsState (D:=RamDisk) (H:=Heap) :=
  mkFs zero_super [] false 1000 false (disk s) fresh_heap.

Lemma used_fs_ok : volume_ok used_fs.
Proof.
  apply (run_op_refines (OpMkdir path_a 0) empty_fs empty_fs_ok).
  - split; [simpl; lia|done].
  - by vm_compute.
Qed.

Lemma fs_remount_witness :
  exists s1, fs_init (rebooted used_fs) = (true, s1) /\ entries s1 = entries used_fs.
Proof.
  destruct (fs_remount used_fs (rebooted used_fs) used_fs_ok eq_refl) as (s1 & H1 & H2 & _).
  - exact I.
  - unfold table_room. by vm_compute.
  - exact (ex_intro _ s1 (conj H1 H2)).
Defined.

Lemma fs_init_tree_witness : tree_inv (fs_init blank_fs).2.
Proof. apply fs_init_tree. intros [H _]. vm_compute in H. discriminate H. Defined.

Lemma fs_tree_invariant_witness :
  tree_inv (run_ops [OpMkdir path_a 0; OpWrite path_ab [1; 2]; OpDelete path_a] empty_fs).
Proof.
  apply fs_tree_invariant.
  - repeat constructor; simpl; lia.
  - apply live_inv, empty_fs_ok.
Defined.
