(* ===== verification/Ports.v ===== *)
(** * include/io.h: port input and output

    The hardware behind the ports is a parameter: any type with a function for
    reading and for writing a port.  The model keeps the trace of all accesses, so
    that what a driver says to its device can be stated. *)

From S2P Require Import Prelude.

(** The hardware: a read may change it. *)
Class Bus (B : Type) := {
  bus_in : Z -> Z -> B -> Z * B;        (** width in bytes, port *)
  bus_out : Z -> Z -> Z -> B -> B;      (** width in bytes, port, value *)
}.

Inductive PortEvent :=
  | In (width port value : Z)
  | Out (width port value : Z).

(** A machine whose ports can be accessed, with the trace of the accesses, the
    latest last. *)
Record Machine (B : Type) := mkMachine { bus : B; trace : list PortEvent }.
Arguments mkMachine {B}.
Arguments bus {B}.
Arguments trace {B}.

Section ports.
Context {B : Type} `{!Bus B}.

Definition port_in (width port : Z) : st (Machine B) Z := fun m =>
  let '(v, b) := bus_in width port (bus m) in
  let v := wrap (8 * width) v in
  (v, mkMachine b (trace m ++ [In width port v])).

Definition port_out (width port value : Z) : st (Machine B) unit := fun m =>
  let v := wrap (8 * width) value in
  (tt, mkMachine (bus_out width port v (bus m)) (trace m ++ [Out width port v])).

Definition inb (port : Z) : st (Machine B) Z := port_in 1 port.
Definition inw (port : Z) : st (Machine B) Z := port_in 2 port.
Definition inl (port : Z) : st (Machine B) Z := port_in 4 port.
Definition outb (port value : Z) : st (Machine B) unit := port_out 1 port value.
Definition outw (port value : Z) : st (Machine B) unit := port_out 2 port value.
Definition outl (port value : Z) : st (Machine B) unit := port_out 4 port value.
Definition io_wait : st (Machine B) unit := outb 0x80 0.

Lemma port_in_bound width port m : 0 <= width -> 0 <= (port_in width port m).1 < 2 ^ (8 * width).
Proof. intros. unfold port_in. destruct (bus_in width port (bus m)). apply wrap_bound. lia. Qed.

Lemma wp_port_in width port Q m :
  (forall v b, 0 <= width -> 0 <= v < 2 ^ (8 * width) ->
     Q v (mkMachine b (trace m ++ [In width port v]))) -> 0 <= width -> wp (port_in width port) Q m.
Proof.
  intros HQ Hw. unfold wp, port_in. destruct (bus_in width port (bus m)) as [v b]. cbn.
  apply HQ; [done|]. apply wrap_bound. lia.
Qed.

End ports.

(** The outputs of a trace. *)
Definition outputs (l : list PortEvent) : list (Z * Z) :=
  omap (fun e => match e with Out _ port value => Some (port, value) | In _ _ _ => None end) l.

Lemma outputs_app l1 l2 : outputs (l1 ++ l2) = outputs l1 ++ outputs l2.
Proof. apply omap_app. Qed.
