(* ===== verification/Ata.v ===== *)
(** * drivers/ata.c: the ATA disk driver (PIO, 28-bit LBA) *)

From S2P Require Import Prelude Interfaces Ports.

Definition ATA_DATA : Z := 0x1F0.
Definition ATA_ERROR : Z := 0x1F1.
Definition ATA_SECTOR_CNT : Z := 0x1F2.
Definition ATA_LBA_LOW : Z := 0x1F3.
Definition ATA_LBA_MID : Z := 0x1F4.
Definition ATA_LBA_HIGH : Z := 0x1F5.
Definition ATA_DRIVE : Z := 0x1F6.
Definition ATA_STATUS : Z := 0x1F7.
Definition ATA_COMMAND : Z := 0x1F7.
Definition ATA_ALT_STATUS : Z := 0x3F6.

Definition STATUS_ERROR : Z := 0x01.
Definition STATUS_DRQ : Z := 0x08.
Definition STATUS_FAULT : Z := 0x20.
Definition STATUS_BUSY : Z := 0x80.

(** A count of loop rounds too large for unary numbers to be computed. *)
Definition TIMEOUT : nat := Z.to_nat 1000000.

Section ata.
Context {B : Type} `{!Bus B}.

(** The two file-scope variables, and the machine. *)
Record AtaState := mkAta { total_sectors : Z; ready : bool; machine : Machine B }.

Notation ATA := (st AtaState).

(** Port accesses of the driver. *)
Definition lift {A} (m : st (Machine B) A) : ATA A := fun s =>
  let '(a, m') := m (machine s) in (a, mkAta (total_sectors s) (ready s) m').

Definition delay_400ns : ATA unit :=
  lift (inb ATA_ALT_STATUS) ;;; lift (inb ATA_ALT_STATUS) ;;;
  lift (inb ATA_ALT_STATUS) ;;; lift (inb ATA_ALT_STATUS) ;;; ret tt.

Fixpoint wait_not_busy_loop (timeout : nat) : ATA bool :=
  match timeout with
  | O => ret false
  | S timeout =>
      status <- lift (inb ATA_STATUS) ;;
      if negb (has status STATUS_BUSY) then ret (negb (status =? 0xFF))
      else wait_not_busy_loop timeout
  end.

Definition wait_not_busy : ATA bool := wait_not_busy_loop TIMEOUT.

Fixpoint wait_drq_loop (timeout : nat) : ATA bool :=
  match timeout with
  | O => ret false
  | S timeout =>
      status <- lift (inb ATA_STATUS) ;;
      if has status (Z.lor STATUS_ERROR STATUS_FAULT) then ret false
      else if (negb (has status STATUS_BUSY) && has status STATUS_DRQ)%bool then ret true
      else wait_drq_loop timeout
  end.

Definition wait_drq : ATA bool := wait_drq_loop TIMEOUT.

(** [n] words from the data port, as the bytes of the buffer. *)
Fixpoint read_words (n : nat) : ATA (list Z) :=
  match n with
  | O => ret []
  | S n =>
      w <- lift (inw ATA_DATA) ;;
      rest <- read_words n ;;
      ret (le 2 w ++ rest)
  end.

(** The buffer to the data port, a word at a time. *)
Fixpoint write_words (n : nat) (buffer : list Z) : ATA unit :=
  match n with
  | O => ret tt
  | S n => lift (outw ATA_DATA (of_le (take 2 buffer))) ;;; write_words n (drop 2 buffer)
  end.

Definition ata_init : ATA bool :=
  modify (fun s => mkAta 0 false (machine s)) ;;;
  lift (outb ATA_DRIVE 0xA0) ;;;
  delay_400ns ;;;
  lift (outb ATA_SECTOR_CNT 0) ;;;
  lift (outb ATA_LBA_LOW 0) ;;;
  lift (outb ATA_LBA_MID 0) ;;;
  lift (outb ATA_LBA_HIGH 0) ;;;
  lift (outb ATA_COMMAND 0xEC) ;;;
  status <- lift (inb ATA_STATUS) ;;
  if ((status =? 0) || (status =? 0xFF))%bool then ret false else
  idle <- wait_not_busy ;;
  if negb idle then ret false else
  mid <- lift (inb ATA_LBA_MID) ;;
  if negb (mid =? 0) then ret false else
  high <- lift (inb ATA_LBA_HIGH) ;;
  if negb (high =? 0) then ret false else
  drq <- wait_drq ;;
  if negb drq then ret false else
  identify <- read_words 256 ;;
  let total := Z.lor (field 120 2 identify) (u32 (Z.shiftl (field 122 2 identify) 16)) in
  modify (fun s => mkAta total (0 <? total) (machine s)) ;;;
  ret (0 <? total).

Definition select_lba (lba command : Z) : ATA bool :=
  ok <- gets (fun s => ready s && negb (total_sectors s <=? lba) && negb (0x10000000 <=? lba))%bool ;;
  if negb ok then ret false else
  idle <- wait_not_busy ;;
  if negb idle then ret false else
  lift (outb ATA_DRIVE (u8 (Z.lor 0xE0 (Z.land (Z.shiftr lba 24) 0x0F)))) ;;;
  delay_400ns ;;;
  lift (outb ATA_ERROR 0) ;;;
  lift (outb ATA_SECTOR_CNT 1) ;;;
  lift (outb ATA_LBA_LOW (u8 lba)) ;;;
  lift (outb ATA_LBA_MID (u8 (Z.shiftr lba 8))) ;;;
  lift (outb ATA_LBA_HIGH (u8 (Z.shiftr lba 16))) ;;;
  lift (outb ATA_COMMAND command) ;;;
  wait_drq.

Definition ata_read_sector (lba : Z) : ATA (option (list Z)) :=
  selected <- select_lba lba 0x20 ;;
  if negb selected then ret None else
  buffer <- read_words 256 ;;
  delay_400ns ;;;
  ret (Some buffer).

Definition ata_write_sector (lba : Z) (buffer : list Z) : ATA bool :=
  selected <- select_lba lba 0x30 ;;
  if negb selected then ret false else
  write_words 256 buffer ;;;
  idle <- wait_not_busy ;;
  if negb idle then ret false else
  lift (outb ATA_COMMAND 0xE7) ;;;
  idle <- wait_not_busy ;;
  if negb idle then ret false else
  status <- lift (inb ATA_STATUS) ;;
  ret (negb (has status (Z.lor STATUS_ERROR STATUS_FAULT))).

Definition ata_sector_count (s : AtaState) : Z := total_sectors s.

End ata.

(** ** What the driver says to the drive *)

Section protocol.
Context {B : Type} `{!Bus B}.
Implicit Types s : AtaState (B:=B).

(** The writes to ports between [s] and [s'] are [l]; the driver's own variables
    are the same. *)
Definition said (l : list (Z * Z)) s s' : Prop :=
  outputs (trace (machine s')) = outputs (trace (machine s)) ++ l /\
  total_sectors s' = total_sectors s /\ ready s' = ready s.

Lemma said_nil s : said [] s s.
Proof. split_and!; [by rewrite app_nil_r|done|done]. Qed.

Lemma said_app l1 l2 s1 s2 s3 : said l1 s1 s2 -> said l2 s2 s3 -> said (l1 ++ l2) s1 s3.
Proof.
  intros (H1 & H2 & H3) (H4 & H5 & H6). split_and!; [|congruence|congruence].
  by rewrite H4, H1, app_assoc.
Qed.

Lemma lift_in port Q s :
  (forall v s', 0 <= v < 2 ^ 8 -> said [] s s' -> Q v s') -> wp (lift (inb port)) Q s.
Proof.
  intros HQ. unfold wp, lift, inb, port_in. destruct (bus_in 1 port (bus (machine s))) as [v b]. cbn.
  apply HQ; [apply (wrap_bound 8); lia|]. split_and!; [|done|done]. cbn.
  by rewrite outputs_app.
Qed.

Lemma lift_inw port Q s :
  (forall v s', 0 <= v < 2 ^ 16 -> said [] s s' -> Q v s') -> wp (lift (inw port)) Q s.
Proof.
  intros HQ. unfold wp, lift, inw, port_in. destruct (bus_in 2 port (bus (machine s))) as [v b]. cbn.
  apply HQ; [apply (wrap_bound 16); lia|]. split_and!; [|done|done]. cbn.
  by rewrite outputs_app.
Qed.

Lemma lift_out port v Q s :
  (forall s', said [(port, u8 v)] s s' -> Q tt s') -> wp (lift (outb port v)) Q s.
Proof. intros HQ. apply HQ. split_and!; [|done|done]. cbn. by rewrite outputs_app. Qed.

Lemma lift_outw port v Q s :
  (forall s', said [(port, u16 v)] s s' -> Q tt s') -> wp (lift (outw port v)) Q s.
Proof. intros HQ. apply HQ. split_and!; [|done|done]. cbn. by rewrite outputs_app. Qed.

Lemma delay_said s : wp delay_400ns (fun _ s' => said [] s s') s.
Proof.
  unfold delay_400ns. wp_step; apply lift_in; intros _ s1 _ H1. wp_step; apply lift_in; intros _ s2 _ H2.
  wp_step; apply lift_in; intros _ s3 _ H3. wp_step; apply lift_in; intros _ s4 _ H4.
  apply wp_ret. exact (said_app [] [] _ _ _ (said_app [] [] _ _ _ (said_app [] [] _ _ _ H1 H2) H3) H4).
Qed.

Lemma wait_not_busy_said n s : wp (wait_not_busy_loop n) (fun _ s' => said [] s s') s.
Proof.
  revert s. induction n as [|n IH]; intros s; cbn [wait_not_busy_loop]; [apply said_nil|].
  wp_step. apply lift_in. intros v s1 _ H1. case_if as E; [done|].
  wp_call IH. intros b s2 H2. by eapply (said_app [] []).
Qed.

Lemma wait_drq_said n s : wp (wait_drq_loop n) (fun _ s' => said [] s s') s.
Proof.
  revert s. induction n as [|n IH]; intros s; cbn [wait_drq_loop]; [apply said_nil|].
  wp_step. apply lift_in. intros v s1 _ H1. case_if as E1; [done|]. case_if as E2; [done|].
  wp_call IH. intros b s2 H2. by eapply (said_app [] []).
Qed.

(** The register writes of a command for sector [lba]. *)
Definition command_words (lba command : Z) : list (Z * Z) :=
  [(ATA_DRIVE, u8 (u8 (Z.lor 0xE0 (Z.land (Z.shiftr lba 24) 0x0F)))); (ATA_ERROR, u8 0);
   (ATA_SECTOR_CNT, u8 1); (ATA_LBA_LOW, u8 (u8 lba)); (ATA_LBA_MID, u8 (u8 (Z.shiftr lba 8)));
   (ATA_LBA_HIGH, u8 (u8 (Z.shiftr lba 16))); (ATA_COMMAND, u8 command)].

(** The sector number a drive takes from its registers (28-bit LBA). *)
Definition drive_lba (drive low mid high : Z) : Z :=
  low + 2 ^ 8 * mid + 2 ^ 16 * high + 2 ^ 24 * Z.land drive 0x0F.

(** The last value written to a port. *)
Definition last_write (port : Z) (l : list (Z * Z)) : Z :=
  fold_left (fun acc '(p, v) => if p =? port then v else acc) l 0.

Definition commanded_lba (l : list (Z * Z)) : Z :=
  drive_lba (last_write ATA_DRIVE l) (last_write ATA_LBA_LOW l)
            (last_write ATA_LBA_MID l) (last_write ATA_LBA_HIGH l).

Lemma low_nibble x : Z.land (u8 (u8 (Z.lor 0xE0 (Z.land x 0x0F)))) 0x0F = x mod 2 ^ 4.
Proof.
  rewrite wrap_wrap by lia. unfold wrap. rewrite <- Z.land_ones by lia.
  rewrite <- Z.land_assoc, Z.land_lor_distr_l. change (Z.land (Z.ones 8) 0x0F) with 0x0F.
  rewrite <- Z.land_assoc. change (Z.land 0xE0 0x0F) with 0. change (Z.land 0x0F 0x0F) with (2 ^ 4 - 1).
  by rewrite Z.lor_0_l, land_ones_mod by lia.
Qed.

Lemma command_words_lba lba command :
  0 <= lba < 2 ^ 28 -> commanded_lba (command_words lba command) = lba.
Proof.
  intros Hl. unfold commanded_lba, drive_lba, command_words. cbn [last_write fold_left].
  cbn -[Z.pow u8 Z.shiftr Z.land Z.lor Z.add Z.mul].
  rewrite low_nibble, !wrap_wrap by lia. unfold wrap. rewrite !Z.shiftr_div_pow2 by lia.
  change (2 ^ 16) with (2 ^ 8 * 2 ^ 8). change (2 ^ 24) with (2 ^ 8 * 2 ^ 8 * 2 ^ 8).
  rewrite <- !Z.div_div by lia.
  set (a := lba / 2 ^ 8). set (b := a / 2 ^ 8). set (c := b / 2 ^ 8).
  pose proof (Z.div_mod lba (2 ^ 8) ltac:(lia)). pose proof (Z.div_mod a (2 ^ 8) ltac:(lia)).
  pose proof (Z.div_mod b (2 ^ 8) ltac:(lia)).
  fold a in H. fold b in H0. fold c in H1.
  assert (c mod 2 ^ 4 = c) as ->; [|lia]. apply Z.mod_small. unfold c, b, a.
  rewrite !Z.div_div by lia. split; [apply Z.div_pos; lia|]. apply Z.div_lt_upper_bound; lia.
Qed.

Lemma select_lba_said lba command s :
  wp (select_lba lba command)
     (fun ok s' => said [] s s' /\ ok = false \/
        said (command_words lba command) s s' /\ ready s = true /\ lba < total_sectors s /\ lba < 2 ^ 28) s.
Proof.
  unfold select_lba. wp_steps. case_if as E; [left; split; [apply said_nil|done]|].
  apply negb_false_iff in E. apply andb_true_iff in E as [E E3]. apply andb_true_iff in E as [Er E2].
  wp_step. unfold wait_not_busy. wp_call wait_not_busy_said.
  intros idle s1 H1. case_if as Ei; [by left|].
  wp_step. apply lift_out. intros s2 H2. wp_step. wp_call delay_said. intros _ s3 H3.
  wp_step. apply lift_out. intros s4 H4. wp_step. apply lift_out. intros s5 H5.
  wp_step. apply lift_out. intros s6 H6. wp_step. apply lift_out. intros s7 H7.
  wp_step. apply lift_out. intros s8 H8. wp_step. apply lift_out. intros s9 H9.
  unfold wait_drq. wp_call wait_drq_said. intros ok s10 H10. right. split_and!; [|done|lia|lia].
  pose proof (said_app _ _ _ _ _ (said_app _ _ _ _ _ (said_app _ _ _ _ _ H1 H2) H3)
    (said_app _ _ _ _ _ H4 (said_app _ _ _ _ _ H5 (said_app _ _ _ _ _ H6 (said_app _ _ _ _ _ H7
    (said_app _ _ _ _ _ H8 (said_app _ _ _ _ _ H9 H10))))))) as Hall. exact Hall.
Qed.

Lemma read_words_said n s :
  wp (read_words n) (fun l s' => said [] s s' /\ length l = (2 * n)%nat /\ bytes l) s.
Proof.
  revert s. induction n as [|n IH]; intros s; cbn [read_words].
  { apply wp_ret. split_and!; [apply said_nil|done|constructor]. }
  wp_step. apply lift_inw. intros w s1 Hw H1. wp_step. wp_call IH. intros rest s2 (H2 & Hl & Hb).
  apply wp_ret. split_and!; [by eapply (said_app [] [])| |].
  - rewrite length_app, length_le, Hl. lia.
  - apply bytes_app. split; [apply le_bytes|done].
Qed.


Lemma write_words_said n buffer s :
  bytes buffer -> length buffer = (2 * n)%nat ->
  wp (write_words n buffer)
     (fun _ s' => exists ws, said ((fun w => (ATA_DATA, w)) <$> ws) s s' /\ concat (le 2 <$> ws) = buffer) s.
Proof.
  revert buffer s. induction n as [|n IH]; intros buffer s Hb Hl; cbn [write_words].
  { apply wp_ret. exists []. split; [apply said_nil|]. by destruct buffer. }
  destruct buffer as [|a [|b buffer]]; cbn in Hl; try lia.
  apply Forall_cons in Hb as [Ha Hb]. apply Forall_cons in Hb as [Hb Hbuf].
  assert (Hab : bytes [a; b]) by (apply Forall_cons; split; [done|by apply Forall_singleton]).
  wp_step. apply lift_outw. intros s1 H1. change (drop 2 (a :: b :: buffer)) with buffer.
  wp_call IH; [done|lia|]. intros _ s2 (ws & H2 & Hc).
  exists (of_le [a; b] :: ws). split.
  - pose proof (said_app _ _ _ _ _ H1 H2) as H12. cbn [fmap list_fmap].
    assert (u16 (of_le (take 2 (a :: b :: buffer))) = of_le [a; b]) as E.
    { change (take 2 (a :: b :: buffer)) with [a; b]. apply wrap_small.
      by apply (of_le_bound [a; b]). }
    rewrite E in H12. exact H12.
  - cbn [fmap list_fmap concat]. rewrite Hc. change 2%nat with (length [a; b]) at 1.
    by rewrite le_of_le by exact Hab.
Qed.

(** A write: the command, the words of the buffer and, unless the drive stays
    busy, the cache flush. *)
Lemma ata_write_sector_said lba buffer s :
  is_sector buffer ->
  wp (ata_write_sector lba buffer)
     (fun ok s' => exists sent, said sent s s' /\
        (sent = [] /\ ok = false \/
         ready s = true /\ lba < total_sectors s /\ lba < 2 ^ 28 /\
         (sent = command_words lba 0x30 /\ ok = false \/
          exists ws, concat (le 2 <$> ws) = buffer /\
            let body := command_words lba 0x30 ++ ((fun w => (ATA_DATA, w)) <$> ws) in
            (sent = body /\ ok = false \/ sent = body ++ [(ATA_COMMAND, 0xE7)])))) s.
Proof.
  intros [Hl Hb]. unfold ata_write_sector. wp_step. wp_call select_lba_said.
  intros sel s1 [[H1 ->]|(H1 & Hr & Ht & H28)].
  { exists []. split; [done|]. by left. }
  destruct sel; cbn [negb].
  2:{ exists (command_words lba 0x30). split; [done|]. right. split_and!; try done. by left. }
  wp_step. wp_call write_words_said; [done|by rewrite Hl|]. intros _ s2 (ws & H2 & Hc).
  pose proof (said_app _ _ _ _ _ H1 H2) as H12.
  wp_step. unfold wait_not_busy. wp_call wait_not_busy_said. intros idle s3 H3.
  pose proof (said_app _ _ _ _ _ H12 H3) as H13. rewrite app_nil_r in H13. case_if as Ei.
  { eexists. split; [exact H13|]. right. split_and!; try done. right. exists ws. split; [done|]. by left. }
  wp_step. apply lift_out. intros s4 H4. pose proof (said_app _ _ _ _ _ H13 H4) as H14.
  wp_step. wp_call wait_not_busy_said. intros idle2 s5 H5.
  pose proof (said_app _ _ _ _ _ H14 H5) as H15. rewrite app_nil_r in H15. case_if as Ei2.
  { eexists. split; [exact H15|]. right. split_and!; try done. right. exists ws. split; [done|]. by right. }
  wp_step. apply lift_in. intros v s6 _ H6. pose proof (said_app _ _ _ _ _ H15 H6) as H16.
  rewrite app_nil_r in H16. apply wp_ret. eexists. split; [exact H16|].
  right. split_and!; try done. right. exists ws. split; [done|]. by right.
Qed.

(** The driver never addresses a sector outside the drive and never sends
    wrong data.  For any drive behind the ports: the port writes of an
    [ata_write_sector] call are none at all (not ready, sector out of range, or the
    drive is busy), or the command registers of that very sector, followed in a
    successful call by exactly the 512 bytes of the buffer and the cache flush; the
    registers spell the sector number back, which is below the sector count of the
    drive and below the 28-bit limit. *)
Theorem ata_write_protocol lba buffer s ok s' :
  0 <= lba -> is_sector buffer -> ata_write_sector lba buffer s = (ok, s') ->
  exists sent, outputs (trace (machine s')) = outputs (trace (machine s)) ++ sent /\
    (sent = [] /\ ok = false \/
     lba < total_sectors s /\ lba < 2 ^ 28 /\
     exists data tail, sent = command_words lba 0x30 ++ ((fun w => (ATA_DATA, w)) <$> data) ++ tail /\
       commanded_lba (command_words lba 0x30) = lba /\
       (ok = true -> concat (le 2 <$> data) = buffer /\ tail = [(ATA_COMMAND, 0xE7)])).
Proof.
  intros Hlba Hb E. pose proof (ata_write_sector_said lba buffer s Hb) as Hw.
  unfold wp in Hw. rewrite E in Hw. cbn [fst snd] in Hw. destruct Hw as (sent & [Hs _] & Hcase). exists sent. split; [done|].
  destruct Hcase as [?|(Hr & Ht & H28 & Hcase)]; [by left|right]. split_and!; [done|done|].
  pose proof (command_words_lba lba 0x30 ltac:(lia)) as Hc.
  destruct Hcase as [[-> ->]| (ws & Hws & [[-> ->]| ->])].
  - exists [], []. by rewrite app_nil_r.
  - exists ws, []. by rewrite app_nil_r.
  - exists ws, [(ATA_COMMAND, 0xE7)]. split_and!; [by rewrite app_assoc|done|done].
Qed.

(** A successful [ata_read_sector] delivers 512 bytes and has addressed
    exactly the sector asked for; the port writes are the command registers of that
    sector and nothing else. *)
Theorem ata_read_protocol lba s r s' :
  0 <= lba -> ata_read_sector lba s = (r, s') ->
  exists sent, outputs (trace (machine s')) = outputs (trace (machine s)) ++ sent /\
    (forall data, r = Some data -> is_sector data /\ lba < total_sectors s /\ lba < 2 ^ 28) /\
    (sent = [] /\ r = None \/
     sent = command_words lba 0x20 /\ commanded_lba sent = lba /\ lba < total_sectors s).
Proof.
  intros Hlba E. assert (Hw : wp (ata_read_sector lba) (fun r s' => exists sent, said sent s s' /\
    (forall data, r = Some data -> is_sector data /\ lba < total_sectors s /\ lba < 2 ^ 28) /\
    (sent = [] /\ r = None \/ sent = command_words lba 0x20 /\ lba < total_sectors s /\ lba < 2 ^ 28)) s).
  { unfold ata_read_sector. wp_step. wp_call select_lba_said.
    intros sel s1 [[H1 ->]|(H1 & Hr & Ht & H28)].
    { exists []. split_and!; [done|done|by left]. }
    destruct sel; cbn [negb].
    2:{ exists (command_words lba 0x20). split_and!; [done|done|by right]. }
    wp_step. wp_call read_words_said. intros l s2 (H2 & Hl & Hb). wp_step. wp_call delay_said.
    intros _ s3 H3. apply wp_ret. exists (command_words lba 0x20).
    pose proof (said_app _ _ _ _ _ (said_app _ _ _ _ _ H1 H2) H3) as H13. rewrite !app_nil_r in H13.
    split_and!; [done| |by right]. intros data [= <-]. done. }
  unfold wp in Hw. rewrite E in Hw. cbn [fst snd] in Hw. destruct Hw as (sent & [Hs _] & Hd & Hcase). exists sent.
  split_and!; [done|done|]. destruct Hcase as [?|(-> & Ht & H28)]; [by left|right].
  split_and!; [done| |done]. apply command_words_lba. lia.
Qed.

End protocol.

(** ** A drive that is always ready *)

(** Reads of the status port answer "data requested", every other port 0. *)
Definition ReadyDrive : Type := unit.

#[export] Instance ready_drive : Bus ReadyDrive := {|
  bus_in := fun _ port b => (if port =? ATA_STATUS then STATUS_DRQ else 0, b);
  bus_out := fun _ _ _ b => b |}.

Definition ready_ata : AtaState (B:=ReadyDrive) := mkAta 1000 true (mkMachine tt []).

Lemma ata_write_protocol_witness :
  exists sent, outputs (trace (machine (ata_write_sector 999 (replicate 512 7) ready_ata).2)) = sent /\
               sent <> [].
Proof.
  destruct (ata_write_protocol 999 (replicate 512 7) ready_ata
              (ata_write_sector 999 (replicate 512 7) ready_ata).1
              (ata_write_sector 999 (replicate 512 7) ready_ata).2) as (sent & H1 & H2).
  - lia.
  - split; [apply length_replicate|]. apply Forall_replicate. unfold is_byte. lia.
  - apply surjective_pairing.
  - exists sent. split; [exact H1|]. destruct H2 as [[_ H]|(_ & _ & d & tl & -> & _)]; [|done].
    exfalso. revert H. unfold ata_write_sector, select_lba, wait_not_busy, wait_drq.
    replace TIMEOUT with (S (TIMEOUT - 1)) by (unfold TIMEOUT; lia). generalize (TIMEOUT - 1)%nat. by vm_compute.
Defined.

Lemma ata_read_protocol_witness :
  exists sent, outputs (trace (machine (ata_read_sector 5 ready_ata).2)) = sent.
Proof.
  destruct (ata_read_protocol 5 ready_ata (ata_read_sector 5 ready_ata).1 (ata_read_sector 5 ready_ata).2)
    as (sent & H1 & _); [lia|apply surjective_pairing|]. by exists sent.
Defined.
