(* ===== verification/Rtc.v ===== *)
(** * drivers/rtc.c: the real-time clock *)

From S2P Require Import Prelude Ports.

Record RtcTime := mkTime { hour : Z; minute : Z; second : Z }.

Definition from_bcd (value : Z) : Z := u8 (Z.land value 0x0F + Z.shiftr value 4 * 10).

(** What [rtc_time] makes of a stable reading: BCD and 12-hour values are
    converted according to status register B. *)
Definition rtc_decode (status_b : Z) (time : RtcTime) : RtcTime :=
  let is_pm := negb (Z.land (hour time) 0x80 =? 0) in
  let time :=
    if negb (has status_b 0x04)
    then mkTime (from_bcd (Z.land (hour time) 0x7F)) (from_bcd (minute time)) (from_bcd (second time))
    else time in
  if negb (has status_b 0x02)
  then let h := hour time mod 12 in
       mkTime (if is_pm then u8 (h + 12) else h) (minute time) (second time)
  else time.

Section rtc.
Context {B : Type} `{!Bus B}.
Notation IO := (st (Machine B)).

Definition cmos_read (index : Z) : IO Z := outb 0x70 index ;;; inb 0x71.

(** [while (cmos_read(0x0A) & 0x80) { }]; [None] when still updating after [fuel]
    polls. *)
Fixpoint wait_update (fuel : nat) : IO (option unit) :=
  match fuel with
  | O => ret None
  | S fuel =>
      a <- cmos_read 0x0A ;;
      if has a 0x80 then wait_update fuel else ret (Some tt)
  end.

Definition read_clock : IO RtcTime :=
  s <- cmos_read 0x00 ;; m <- cmos_read 0x02 ;; h <- cmos_read 0x04 ;; ret (mkTime h m s).

Definition same_time (a b : RtcTime) : bool :=
  ((second a =? second b) && (minute a =? minute b) && (hour a =? hour b))%bool.

(** Two equal readings in a row; [None] when there were none in [fuel] rounds. *)
Fixpoint stable_time (fuel polls : nat) : IO (option RtcTime) :=
  match fuel with
  | O => ret None
  | S fuel =>
      idle <- wait_update polls ;;
      match idle with
      | None => ret None
      | Some _ =>
          time <- read_clock ;;
          idle <- wait_update polls ;;
          match idle with
          | None => ret None
          | Some _ =>
              verify <- read_clock ;;
              if same_time time verify then ret (Some time) else stable_time fuel polls
          end
      end
  end.

Definition rtc_time (fuel polls : nat) : IO (option RtcTime) :=
  time <- stable_time fuel polls ;;
  match time with
  | None => ret None
  | Some time => status_b <- cmos_read 0x0B ;; ret (Some (rtc_decode status_b time))
  end.

(** ** A clock that stands still *)

(** Reading CMOS register [index] answers [cmos index], and writes to the index
    port are all the clock notices. *)
Class StillClock (cmos : Z -> Z) := {
  clock_selected : B -> Z;
  clock_byte index : 0 <= cmos index < 256;
  clock_select value b : clock_selected (bus_out 1 0x70 value b) = value;
  clock_read b : bus_in 1 0x71 b = (cmos (clock_selected b), b) }.

Context (cmos : Z -> Z) `{!StillClock cmos}.

Lemma cmos_read_spec index m :
  0 <= index < 256 -> wp (cmos_read index) (fun v _ => v = cmos index) m.
Proof.
  intros Hi. unfold wp, cmos_read, bind, outb, inb, port_out, port_in. cbn [bus].
  rewrite clock_read, clock_select. cbn [fst]. rewrite (wrap_small _ index) by lia.
  apply wrap_small. apply clock_byte.
Qed.

Lemma wait_update_spec n m :
  has (cmos 0x0A) 0x80 = false -> wp (wait_update (S n)) (fun r _ => r = Some tt) m.
Proof.
  intros Hu. cbn [wait_update]. wp_step. wp_call (cmos_read_spec 0x0A); [lia|]. intros v m' ->.
  by rewrite Hu.
Qed.

Lemma read_clock_spec m :
  wp read_clock (fun t _ => t = mkTime (cmos 0x04) (cmos 0x02) (cmos 0x00)) m.
Proof.
  unfold read_clock. wp_step. wp_call (cmos_read_spec 0x00); [lia|]. intros s m1 ->.
  wp_step. wp_call (cmos_read_spec 0x02); [lia|]. intros mi m2 ->.
  wp_step. wp_call (cmos_read_spec 0x04); [lia|]. by intros h m3 ->.
Qed.

Lemma rtc_time_spec n p m :
  has (cmos 0x0A) 0x80 = false ->
  wp (rtc_time (S n) (S p))
     (fun r _ => r = Some (rtc_decode (cmos 0x0B) (mkTime (cmos 0x04) (cmos 0x02) (cmos 0x00)))) m.
Proof.
  intros Hu. unfold rtc_time. wp_step. cbn [stable_time]. wp_step.
  wp_call wait_update_spec; [done|]. intros _ m1 ->. wp_step. wp_call read_clock_spec. intros t m2 ->.
  wp_step. wp_call wait_update_spec; [done|]. intros _ m3 ->. wp_step. wp_call read_clock_spec.
  intros t m4 ->. unfold same_time. rewrite !Z.eqb_refl. cbn [andb]. wp_steps.
  wp_call (cmos_read_spec 0x0B); [lia|]. by intros b m5 ->.
Qed.

End rtc.

(** ** Decoding *)

(** A two-digit number in BCD. *)
Definition bcd (n : Z) : Z := 16 * (n / 10) + n mod 10.

Lemma from_bcd_bcd n : 0 <= n < 100 -> from_bcd (bcd n) = n.
Proof.
  intros Hn. unfold from_bcd, bcd. rewrite Z.shiftr_div_pow2 by lia.
  change 0x0F with (2 ^ 4 - 1). rewrite land_ones_mod by lia.
  pose proof (Z.div_mod n 10). pose proof (Z.mod_pos_bound n 10).
  assert ((16 * (n / 10) + n mod 10) mod 2 ^ 4 = n mod 10) as ->.
  { rewrite Z.add_comm, Z.mul_comm. change (2 ^ 4) with 16. rewrite Z_mod_plus_full. apply Z.mod_small. lia. }
  assert ((16 * (n / 10) + n mod 10) / 2 ^ 4 = n / 10) as ->.
  { rewrite Z.add_comm, Z.mul_comm. change (2 ^ 4) with 16. rewrite Z.div_add by lia. rewrite Z.div_small; lia. }
  rewrite wrap_small; lia.
Qed.

(** The hour register for hour [h] of the day, as the four register formats
    store it. *)
Definition hour_register (binary twentyfour : bool) (h : Z) : Z :=
  let h12 := if h mod 12 =? 0 then 12 else h mod 12 in
  let digits x := if binary then x else bcd x in
  if twentyfour then digits h
  else digits h12 + (if 12 <=? h then 0x80 else 0).

(** Status register B for the four formats. *)
Definition status_register (binary twentyfour : bool) : Z :=
  (if binary then 0x04 else 0) + (if twentyfour then 0x02 else 0).

(** All hours of the day, computed. *)
Definition hours_ok (binary twentyfour : bool) : bool :=
  forallb (fun h =>
      hour (rtc_decode (status_register binary twentyfour)
              (mkTime (hour_register binary twentyfour h) 0 0)) =? h)
    [0;1;2;3;4;5;6;7;8;9;10;11;12;13;14;15;16;17;18;19;20;21;22;23].

(** The clock is decoded correctly in the three formats PC firmware uses: for
    every hour, minute and second of the day, the register values of BCD 24-hour,
    BCD 12-hour and binary 24-hour clocks are turned back into that time. *)
Theorem rtc_decode_correct binary twentyfour h m s :
  binary = false \/ twentyfour = true ->
  0 <= h < 24 -> 0 <= m < 60 -> 0 <= s < 60 ->
  let digits x := if binary then x else bcd x in
  rtc_decode (status_register binary twentyfour)
             (mkTime (hour_register binary twentyfour h) (digits m) (digits s)) = mkTime h m s.
Proof.
  intros Hf Hh Hm Hs digits.
  assert (Hhour : hour (rtc_decode (status_register binary twentyfour)
            (mkTime (hour_register binary twentyfour h) (digits m) (digits s))) = h).
  { assert (Hok : hours_ok binary twentyfour = true).
    { destruct binary, twentyfour; try (by vm_compute). by destruct Hf. }
    unfold hours_ok in Hok. rewrite forallb_forall in Hok.
    transitivity (hour (rtc_decode (status_register binary twentyfour)
                    (mkTime (hour_register binary twentyfour h) 0 0))).
    - unfold rtc_decode. cbn [hour]. by destruct (negb (has _ 0x04)), (negb (has _ 0x02)).
    - apply Z.eqb_eq, Hok. cbn [List.In]. lia. }
  assert (Hm' : from_bcd (bcd m) = m) by (apply from_bcd_bcd; lia).
  assert (Hs' : from_bcd (bcd s) = s) by (apply from_bcd_bcd; lia).
  destruct (rtc_decode _ _) as [h' m' s'] eqn:E. cbn [hour] in Hhour. subst h'.
  pose proof (f_equal minute E) as Em. pose proof (f_equal second E) as Es. clear E.
  assert (H4 : has (status_register binary twentyfour) 0x04 = binary) by (by destruct binary, twentyfour).
  assert (H2 : has (status_register binary twentyfour) 0x02 = twentyfour) by (by destruct binary, twentyfour).
  unfold rtc_decode, digits in Em, Es. rewrite H4, H2 in Em, Es.
  destruct binary, twentyfour; cbn [negb minute second] in Em, Es; congruence.
Qed.

Lemma rtc_decode_correct_witness :
  rtc_decode 0 (mkTime 0x92 0x30 0x59) = mkTime 12 30 59.
Proof.
  apply (rtc_decode_correct false false 12 30 59).
  - by left.
  - lia.
  - lia.
  - lia.
Defined.

(** In the fourth format - binary, 12 hours - every afternoon hour is decoded
    wrongly: the PM bit is left in the value whose remainder by 12 is taken. *)
Theorem rtc_binary_pm_wrong :
  forall h, 12 <= h < 24 ->
  hour (rtc_decode (status_register true false) (mkTime (hour_register true false h) 0 0)) =
    12 + (h + 8) mod 12 /\
  12 + (h + 8) mod 12 <> h.
Proof.
  intros h Hh. split.
  - assert (Hall : forallb (fun h =>
      hour (rtc_decode (status_register true false) (mkTime (hour_register true false h) 0 0)) =?
        12 + (h + 8) mod 12) [12;13;14;15;16;17;18;19;20;21;22;23] = true) by (by vm_compute).
    rewrite forallb_forall in Hall. apply Z.eqb_eq, Hall. cbn [List.In]. lia.
  - assert (Hall : forallb (fun h => negb (12 + (h + 8) mod 12 =? h))
      [12;13;14;15;16;17;18;19;20;21;22;23] = true) by (by vm_compute).
    rewrite forallb_forall in Hall. specialize (Hall h ltac:(cbn [List.In]; lia)).
    apply negb_true_iff in Hall. lia.
Qed.

Lemma rtc_binary_pm_wrong_witness :
  hour (rtc_decode (status_register true false) (mkTime (hour_register true false 13) 0 0)) = 21.
Proof. destruct (rtc_binary_pm_wrong 13) as [H _]; [lia|]. exact H. Defined.
