(* ===== verification/Serial.v ===== *)
(** * drivers/serial.c: the serial console *)

From S2P Require Import Prelude Runtime Ports.

Definition COM1 : Z := 0x3F8.

(** "0123456789ABCDEF" *)
Definition alphabet : list Z := [48;49;50;51;52;53;54;55;56;57;65;66;67;68;69;70].

(** The text [serial_write_hex] builds: [digits] clamped to 1..8. *)
Definition hex_text (value digits : Z) : list Z :=
  let digits := if digits <? 1 then 1 else digits in
  let digits := if 8 <? digits then 8 else digits in
  map (fun index => let shift := (digits - Z.of_nat index - 1) * 4 in
                    nth (Z.to_nat (Z.land (Z.shiftr value shift) 0x0F)) alphabet 0)
      (seq 0 (Z.to_nat digits)).

(** The do-while loop of [serial_write_dec]: at most ten digits, lowest first. *)
Fixpoint dec_digits (room : nat) (value : Z) : list Z :=
  match room with
  | O => []
  | S room => (48 + value mod 10) :: (if value / 10 =? 0 then [] else dec_digits room (value / 10))
  end.

(** The swap loop reverses the digits. *)
Definition dec_text (value : Z) : list Z := rev (dec_digits 10 value).

Section serial.
Context {B : Type} `{!Bus B}.
Notation IO := (st (Machine B)).

Definition serial_init : IO unit :=
  outb (COM1 + 1) 0x00 ;;; outb (COM1 + 3) 0x80 ;;; outb (COM1 + 0) 0x03 ;;; outb (COM1 + 1) 0x00 ;;;
  outb (COM1 + 3) 0x03 ;;; outb (COM1 + 2) 0xC7 ;;; outb (COM1 + 4) 0x0B.

(** Wait for the transmitter; false when it is not free after [fuel] polls. *)
Fixpoint wait_transmit (fuel : nat) : IO bool :=
  match fuel with
  | O => ret false
  | S fuel =>
      status <- inb (COM1 + 5) ;;
      if has status 0x20 then ret true else wait_transmit fuel
  end.

(** Each character of the string, once the transmitter is free. *)
Fixpoint write_chars (fuel : nat) (text : list Z) : IO bool :=
  match text with
  | [] => ret true
  | c :: text =>
      free <- wait_transmit fuel ;;
      if (free : bool) then outb COM1 (u8 c) ;;; write_chars fuel text else ret false
  end.

Definition serial_write (fuel : nat) (text : list Z) : IO bool := write_chars fuel (cstr text).

Definition serial_write_hex (fuel : nat) (value digits : Z) : IO bool :=
  serial_write fuel (hex_text value digits ++ [0]).

Definition serial_write_dec (fuel : nat) (value : Z) : IO bool :=
  serial_write fuel (dec_text value ++ [0]).

(** ** What is transmitted *)

Lemma wait_transmit_outputs n m :
  wp (wait_transmit n) (fun _ m' => outputs (trace m') = outputs (trace m)) m.
Proof.
  revert m. induction n as [|n IH]; intros m; cbn [wait_transmit]; [done|].
  wp_step. apply wp_port_in; [|lia]. intros v b _ _. case_if as E.
  - apply wp_ret. cbn [trace]. by rewrite outputs_app, app_nil_r.
  - wp_call IH. intros r m' ->. cbn [trace]. by rewrite outputs_app, app_nil_r.
Qed.

Lemma write_chars_outputs n text m :
  bytes text ->
  wp (write_chars n text)
     (fun ok m' => exists k, (ok = true -> k = length text) /\
        outputs (trace m') = outputs (trace m) ++ ((fun c => (COM1, c)) <$> take k text)) m.
Proof.
  intros Hb. revert m. induction Hb as [|c text Hc Hb IH]; intros m; cbn [write_chars].
  { apply wp_ret. exists O. by rewrite app_nil_r. }
  wp_step. wp_call wait_transmit_outputs. intros free m1 H1. destruct free.
  - wp_step. unfold wp at 1. cbn [outb port_out fst snd].
    wp_call IH. intros ok m2 (k & Hk & H2). exists (S k). split; [intros E; cbn; by rewrite (Hk E)|].
    assert (Hu : wrap (8 * 1) (u8 c) = c).
    { change (8 * 1) with 8. rewrite wrap_wrap by lia. by apply wrap_small. }
    rewrite H2. cbn [trace]. by rewrite outputs_app, H1, Hu, <- app_assoc.
  - apply wp_ret. exists O. split; [done|]. by rewrite H1, app_nil_r.
Qed.

End serial.

(** ** Numbers *)

(** The value a text of digits stands for, in base [b]. *)
Definition digit_value (c : Z) : Z := if c <? 58 then c - 48 else c - 55.

Definition text_value (b : Z) (text : list Z) : Z :=
  fold_left (fun acc c => acc * b + digit_value c) text 0.

Lemma text_value_snoc b l c : text_value b (l ++ [c]) = text_value b l * b + digit_value c.
Proof. unfold text_value. by rewrite fold_left_app. Qed.

Lemma dec_digits_value room value :
  0 <= value < 10 ^ Z.of_nat room -> text_value 10 (rev (dec_digits room value)) = value.
Proof.
  revert value. induction room as [|room IH]; intros value Hv; [cbn in *; lia|].
  assert (Hd : digit_value (48 + value mod 10) = value mod 10).
  { pose proof (Z.mod_pos_bound value 10). unfold digit_value. case_if as E; lia. }
  pose proof (Z.div_mod value 10). cbn [dec_digits rev]. rewrite text_value_snoc, Hd.
  destruct (value / 10 =? 0) eqn:E.
  - cbn. lia.
  - rewrite IH; [lia|]. split; [apply Z.div_pos; lia|]. apply Z.div_lt_upper_bound; [lia|].
    rewrite Nat2Z.inj_succ, Z.pow_succ_r in Hv by lia. lia.
Qed.

Lemma dec_digits_chars room value : Forall (fun c => 48 <= c <= 57) (dec_digits room value).
Proof.
  revert value. induction room as [|room IH]; intros value; cbn [dec_digits]; constructor.
  - pose proof (Z.mod_pos_bound value 10). lia.
  - destruct (_ =? 0); [constructor|apply IH].
Qed.

Lemma nth_alphabet x :
  0 <= x < 16 -> digit_value (nth (Z.to_nat x) alphabet 0) = x /\ 48 <= nth (Z.to_nat x) alphabet 0 <= 70.
Proof.
  intros Hx. assert (Hall : forallb (fun x => ((digit_value (nth (Z.to_nat x) alphabet 0) =? x) &&
     (48 <=? nth (Z.to_nat x) alphabet 0) && (nth (Z.to_nat x) alphabet 0 <=? 70))%bool)
     [0;1;2;3;4;5;6;7;8;9;10;11;12;13;14;15] = true) by (by vm_compute).
  rewrite forallb_forall in Hall. specialize (Hall x ltac:(cbn [List.In]; lia)). bool_hyps. lia.
Qed.

(** The digits from position [k] on, for a number of [n] digits. *)
Lemma hex_value value n :
  0 <= value ->
  text_value 16 (map (fun index => nth (Z.to_nat (Z.land (Z.shiftr value
      ((Z.of_nat n - Z.of_nat index - 1) * 4)) 0x0F)) alphabet 0) (seq 0 n)) = value mod 16 ^ Z.of_nat n.
Proof.
  intros Hv.
  assert (Hgen : forall k, (k <= n)%nat ->
    text_value 16 (map (fun index => nth (Z.to_nat (Z.land (Z.shiftr value
      ((Z.of_nat n - Z.of_nat index - 1) * 4)) 0x0F)) alphabet 0) (seq 0 k)) =
    value / 16 ^ (Z.of_nat n - Z.of_nat k) mod 16 ^ Z.of_nat k).
  { induction k as [|k IH]; intros Hk; [cbn; by rewrite Z.mod_1_r|].
    rewrite seq_S, map_app, Nat.add_0_l. cbn [map]. rewrite text_value_snoc, IH by lia.
    set (d := Z.of_nat n - Z.of_nat k - 1).
    assert (Hland : Z.land (Z.shiftr value (d * 4)) 0x0F = value / 16 ^ d mod 16).
    { rewrite Z.shiftr_div_pow2 by lia. change 0x0F with (2 ^ 4 - 1). rewrite land_ones_mod by lia.
      rewrite Z.mul_comm, Z.pow_mul_r by lia. done. }
    rewrite Hland. destruct (nth_alphabet (value / 16 ^ d mod 16)) as [-> _]; [apply Z.mod_pos_bound; lia|].
    replace (Z.of_nat n - Z.of_nat k) with (d + 1) by lia.
    replace (Z.of_nat n - Z.of_nat (S k)) with d by lia.
    rewrite Nat2Z.inj_succ, Z.pow_succ_r, Z.pow_add_r by lia. change (16 ^ 1) with 16.
    rewrite <- Z.div_div by (try apply Z.pow_pos_nonneg; lia).
    rewrite Z.rem_mul_r by (try apply Z.pow_pos_nonneg; lia). lia. }
  rewrite Hgen by lia. by rewrite Z.sub_diag, Z.div_1_r.
Qed.

Lemma hex_text_clamp value digits :
  let d := Z.max 1 (Z.min digits 8) in
  hex_text value digits =
  map (fun index => nth (Z.to_nat (Z.land (Z.shiftr value ((d - Z.of_nat index - 1) * 4)) 0x0F)) alphabet 0)
      (seq 0 (Z.to_nat d)).
Proof.
  cbv zeta. unfold hex_text. replace (if 8 <? _ then _ else _) with (Z.max 1 (Z.min digits 8)); [done|].
  destruct (digits <? 1) eqn:E1; [cbn; lia|]. destruct (8 <? digits) eqn:E2; lia.
Qed.

(** Numbers are printed faithfully: the decimal text of any 32-bit value reads
    back as that value and consists of digits, and the hexadecimal text of [digits]
    (clamped to 1..8) digits reads back as the value modulo [16 ^ digits]. *)
Theorem serial_numbers_roundtrip value digits :
  0 <= value < 2 ^ 32 ->
  text_value 10 (dec_text value) = value /\
  Forall (fun c => 48 <= c <= 57) (dec_text value) /\
  let d := Z.max 1 (Z.min digits 8) in
  length (hex_text value digits) = Z.to_nat d /\
  text_value 16 (hex_text value digits) = value mod 16 ^ d.
Proof.
  intros Hv. cbv zeta. split_and!.
  - apply dec_digits_value. lia.
  - apply Forall_rev, dec_digits_chars.
  - by rewrite hex_text_clamp, length_map, length_seq.
  - rewrite hex_text_clamp. set (n := Z.to_nat (Z.max 1 (Z.min digits 8))).
    replace (Z.max 1 (Z.min digits 8)) with (Z.of_nat n) by (unfold n; lia). apply hex_value. lia.
Qed.

Lemma serial_numbers_roundtrip_witness :
  text_value 10 (dec_text 4294967295) = 4294967295 /\ text_value 16 (hex_text 48879 4) = 48879.
Proof.
  destruct (serial_numbers_roundtrip 4294967295 8) as (H1 & _); [lia|].
  destruct (serial_numbers_roundtrip 48879 4) as (_ & _ & _ & H2); [lia|].
  split; [exact H1|exact H2].
Defined.
