(* ===== verification/Pci.v ===== *)
(** * drivers/pci.c: PCI configuration space *)

From S2P Require Import Prelude Ports.

Record PciDevice := mkPci {
  pci_bus : Z; pci_slot : Z; pci_function : Z; pci_vendor : Z; pci_device : Z }.

Definition config_address (device : PciDevice) (offset : Z) : Z :=
  Z.lor (Z.lor (Z.lor (Z.lor 0x80000000 (Z.shiftl (pci_bus device) 16))
                      (Z.shiftl (pci_slot device) 11))
               (Z.shiftl (pci_function device) 8))
        (Z.land offset 0xFC).

Definition with_function (f : Z) (d : PciDevice) : PciDevice :=
  mkPci (pci_bus d) (pci_slot d) f (pci_vendor d) (pci_device d).

Section pci.
Context {B : Type} `{!Bus B}.
Notation IO := (st (Machine B)).

Definition pci_read32 (device : PciDevice) (offset : Z) : IO Z :=
  outl 0xCF8 (config_address device offset) ;;; inl 0xCFC.

Definition pci_write32 (device : PciDevice) (offset value : Z) : IO unit :=
  outl 0xCF8 (config_address device offset) ;;; outl 0xCFC value.

(** Functions [function ..] of a slot, [n] of them. *)
Fixpoint find_function (n : nat) (function : Z) (vendor device_id : Z) (device : PciDevice)
  : IO (option PciDevice) :=
  match n with
  | O => ret None
  | S n =>
      let device := with_function function device in
      identity <- pci_read32 device 0 ;;
      if ((u16 identity =? vendor) && (u16 (Z.shiftr identity 16) =? device_id))%bool
      then ret (Some (mkPci (pci_bus device) (pci_slot device) function vendor device_id))
      else find_function n (function + 1) vendor device_id device
  end.

(** Slots [slot ..] of a bus, [n] of them. *)
Fixpoint find_slot (n : nat) (bus slot : Z) (vendor device_id : Z) : IO (option PciDevice) :=
  match n with
  | O => ret None
  | S n =>
      let device := mkPci (u8 bus) slot 0 0 0 in
      identity <- pci_read32 device 0 ;;
      if u16 identity =? 0xFFFF then find_slot n bus (slot + 1) vendor device_id else
      header <- pci_read32 device 0x0C ;;
      found <- find_function (if has header 0x00800000 then 8 else 1) 0 vendor device_id device ;;
      match found with
      | Some d => ret (Some d)
      | None => find_slot n bus (slot + 1) vendor device_id
      end
  end.

(** Buses [bus ..], [n] of them. *)
Fixpoint find_bus (n : nat) (bus : Z) (vendor device_id : Z) : IO (option PciDevice) :=
  match n with
  | O => ret None
  | S n =>
      found <- find_slot 32 bus 0 vendor device_id ;;
      match found with
      | Some d => ret (Some d)
      | None => find_bus n (bus + 1) vendor device_id
      end
  end.

Definition pci_find (vendor device_id : Z) : IO (option PciDevice) := find_bus 256 0 vendor device_id.

Definition pci_enable_memory_bus_master (device : PciDevice) : IO unit :=
  command <- pci_read32 device 0x04 ;;
  pci_write32 device 0x04 (Z.lor command 0x00000006).

(** ** A machine with a configuration space *)

(** Port 0xCFC shows the configuration word whose address was last written to port
    0xCF8; reading it changes nothing. *)
Class ConfigSpace (config : Z -> Z) := {
  cs_selected : B -> Z;
  cs_word address : 0 <= config address < 2 ^ 32;
  cs_select address b : cs_selected (bus_out 4 0xCF8 address b) = address;
  cs_read b : (bus_in 4 0xCFC b).1 = config (cs_selected b) }.

Context (config : Z -> Z) `{!ConfigSpace config}.

(** The configuration word of a function of a slot. *)
Definition config_word (bus slot function offset : Z) : Z :=
  config (u32 (config_address (mkPci bus slot function 0 0) offset)).

Lemma config_address_word d offset :
  config (u32 (config_address d offset)) = config_word (pci_bus d) (pci_slot d) (pci_function d) offset.
Proof. by destruct d. Qed.

Lemma pci_read32_spec d offset m :
  wp (pci_read32 d offset)
     (fun v _ => v = config_word (pci_bus d) (pci_slot d) (pci_function d) offset) m.
Proof.
  unfold wp, pci_read32, bind, outl, inl, port_out, port_in. cbn [bus fst snd].
  change (8 * 4) with 32.
  pose proof (cs_read (bus_out 4 0xCF8 (u32 (config_address d offset)) (bus m))) as E.
  rewrite cs_select, config_address_word in E.
  destruct (bus_in 4 0xCFC _) as [v b]. cbn [fst snd] in E |- *. subst v.
  unfold config_word. apply wrap_small, cs_word.
Qed.

(** Function [f] of the slot is the device looked for. *)
Definition is_match (vendor device_id bus slot f : Z) : Prop :=
  u16 (config_word bus slot f 0) = vendor /\ u16 (Z.shiftr (config_word bus slot f 0) 16) = device_id.

(** The functions the driver looks at in a slot. *)
Definition visible (bus slot f : Z) : Prop :=
  u16 (config_word bus slot 0 0) <> 0xFFFF /\
  0 <= f < (if has (config_word bus slot 0 0x0C) 0x00800000 then 8 else 1).

Lemma find_function_spec n f vendor device_id d m :
  wp (find_function n f vendor device_id d)
     (fun r _ =>
        match r with
        | Some d' => exists f', f <= f' < f + Z.of_nat n /\
            is_match vendor device_id (pci_bus d) (pci_slot d) f' /\
            d' = mkPci (pci_bus d) (pci_slot d) f' vendor device_id /\
            forall g, f <= g < f' -> ~ is_match vendor device_id (pci_bus d) (pci_slot d) g
        | None => forall g, f <= g < f + Z.of_nat n -> ~ is_match vendor device_id (pci_bus d) (pci_slot d) g
        end) m.
Proof.
  revert f d m. induction n as [|n IH]; intros f d m; cbn [find_function].
  { apply wp_ret. intros; lia. }
  wp_step. wp_call pci_read32_spec. cbn [pci_bus pci_slot pci_function with_function]. intros v m1 ->.
  case_if as E.
  - apply wp_ret. exists f. split_and!; [lia|lia|unfold is_match; lia|done|intros; lia].
  - assert (Hno : ~ is_match vendor device_id (pci_bus d) (pci_slot d) f) by (unfold is_match; lia).
    wp_call IH. cbn [pci_bus pci_slot with_function]. intros [d'|] m2.
    + intros (f' & Hf & Hm & Hd & Hg). exists f'. split_and!; [lia|lia|done|done|].
      intros g Hgr. destruct (decide (g = f)) as [->|]; [done|]. apply Hg. lia.
    + intros Hg g Hgr. destruct (decide (g = f)) as [->|]; [done|]. apply Hg. lia.
Qed.

Lemma find_slot_spec n bus slot vendor device_id m :
  0 <= bus < 256 ->
  wp (find_slot n bus slot vendor device_id)
     (fun r _ =>
        match r with
        | Some d => exists sl f, slot <= sl < slot + Z.of_nat n /\ visible bus sl f /\
            is_match vendor device_id bus sl f /\ d = mkPci bus sl f vendor device_id /\
            forall sl' g, (slot <= sl' < sl \/ sl' = sl /\ g < f) -> visible bus sl' g ->
              ~ is_match vendor device_id bus sl' g
        | None => forall sl g, slot <= sl < slot + Z.of_nat n -> visible bus sl g ->
            ~ is_match vendor device_id bus sl g
        end) m.
Proof.
  intros Hb. revert slot m. induction n as [|n IH]; intros slot m; cbn [find_slot].
  { apply wp_ret. intros; lia. }
  rewrite (wrap_small 8 bus) by lia.
  wp_step. wp_call pci_read32_spec. cbn [pci_bus pci_slot pci_function]. intros v m1 ->.
  assert (Hrest : forall m2, (forall g, visible bus slot g -> ~ is_match vendor device_id bus slot g) ->
    wp (find_slot n bus (slot + 1) vendor device_id)
     (fun r _ =>
        match r with
        | Some d => exists sl f, slot <= sl < slot + Z.of_nat (S n) /\ visible bus sl f /\
            is_match vendor device_id bus sl f /\ d = mkPci bus sl f vendor device_id /\
            forall sl' g, (slot <= sl' < sl \/ sl' = sl /\ g < f) -> visible bus sl' g ->
              ~ is_match vendor device_id bus sl' g
        | None => forall sl g, slot <= sl < slot + Z.of_nat (S n) -> visible bus sl g ->
            ~ is_match vendor device_id bus sl g
        end) m2).
  { intros m2 Hno. wp_call IH. intros [d|] m3.
    - intros (sl & f & Hs & Hv & Hm & Hd & Hg). exists sl, f. split_and!; [lia|lia|exact Hv|exact Hm|done|].
      intros sl' g Hr Hvis. destruct (decide (sl' = slot)) as [->|]; [by apply Hno|]. apply Hg; [lia|done].
    - intros Hg sl g Hr Hvis. destruct (decide (sl = slot)) as [->|]; [by apply Hno|]. apply Hg; [lia|done]. }
  case_if as E1.
  { apply Hrest. intros g [Hx _]. lia. }
  wp_step. wp_call pci_read32_spec. cbn [pci_bus pci_slot pci_function]. intros hd m2 ->.
  wp_step. wp_call find_function_spec. cbn [pci_bus pci_slot].
  assert (Hn : Z.of_nat (if has (config_word bus slot 0 0x0C) 0x00800000 then 8 else 1) =
               (if has (config_word bus slot 0 0x0C) 0x00800000 then 8 else 1)) by (by case_if as E).
  rewrite Hn. clear Hn. intros [d|] m3.
  - intros (f & Hf & Hm & Hd & Hg). apply wp_ret. exists slot, f.
    split_and!; [lia|lia|unfold visible; lia|exact Hm|done|]. intros sl' g [Hr|[-> Hr]] [_ Hvis]; [lia|].
    apply Hg. lia.
  - intros Hg. apply Hrest. intros g [_ Hvis]. apply Hg. lia.
Qed.

(** [pci_find] is complete and finds the first match: it returns the device
    with the given vendor and device identity that comes first in the order of bus,
    slot and function, among the functions of the slots that are occupied (all
    eight only when function 0 says the device has several), and nothing exactly
    when there is none. *)
Theorem pci_find_first vendor device_id m :
  match (pci_find vendor device_id m).1 with
  | Some d => exists bus slot f, 0 <= bus < 256 /\ 0 <= slot < 32 /\ visible bus slot f /\
      is_match vendor device_id bus slot f /\ d = mkPci bus slot f vendor device_id /\
      forall bus' slot' g, 0 <= slot' < 32 ->
        (0 <= bus' < bus \/ bus' = bus /\ slot' < slot \/ bus' = bus /\ slot' = slot /\ g < f) ->
        visible bus' slot' g -> ~ is_match vendor device_id bus' slot' g
  | None => forall bus slot g, 0 <= bus < 256 -> 0 <= slot < 32 -> visible bus slot g ->
      ~ is_match vendor device_id bus slot g
  end.
Proof.
  assert (Hgen : forall n bus m, 0 <= bus -> bus + Z.of_nat n <= 256 ->
    wp (find_bus n bus vendor device_id) (fun r _ =>
      match r with
      | Some d => exists b slot f, bus <= b < bus + Z.of_nat n /\ 0 <= slot < 32 /\ visible b slot f /\
          is_match vendor device_id b slot f /\ d = mkPci b slot f vendor device_id /\
          forall b' slot' g, 0 <= slot' < 32 ->
            (bus <= b' < b \/ b' = b /\ slot' < slot \/ b' = b /\ slot' = slot /\ g < f) ->
            visible b' slot' g -> ~ is_match vendor device_id b' slot' g
      | None => forall b slot g, bus <= b < bus + Z.of_nat n -> 0 <= slot < 32 -> visible b slot g ->
          ~ is_match vendor device_id b slot g
      end) m).
  { clear m. induction n as [|n IH]; intros bus m Hb Hle; cbn [find_bus]; [apply wp_ret; intros; lia|].
    wp_step. wp_call find_slot_spec; [lia|]. intros [d|] m1.
    - intros (sl & f & Hs & Hv & Hm & Hd & Hg). apply wp_ret. exists bus, sl, f.
      split_and!; try done; try lia.
      intros b' sl' g Hsl [Hr|[[-> Hr]|(-> & -> & Hr)]] Hvis; [lia| |]; (apply Hg; [lia|done]).
    - intros Hg. wp_call IH; [lia|lia|]. intros [d|] m2.
      + intros (b & sl & f & Hbr & Hs & Hv & Hm & Hd & Hgg). exists b, sl, f.
        split_and!; try done; try lia.
        intros b' sl' g Hsl Hr Hvis. destruct (decide (b' = bus)) as [->|].
        * apply Hg; [lia|done].
        * apply Hgg; [done|lia|done].
      + intros Hgg b sl g Hbr Hsl Hvis. destruct (decide (b = bus)) as [->|].
        * apply Hg; [lia|done].
        * apply (Hgg b sl g); [lia|done|done]. }
  unfold pci_find. generalize (Hgen 256%nat 0 m ltac:(lia) ltac:(lia)). unfold wp.
  change (0 + Z.of_nat 256) with 256.
  generalize (find_bus 256 0 vendor device_id m). intros [[d|] m']; cbn [fst snd]; exact id.
Qed.

End pci.

(** ** Configuration addresses *)

Lemma register_mask x : 0 <= x < 2 ^ 8 -> Z.land x 0xFC = x - x mod 4.
Proof. intros Hx. exact (wrap_land_lnot_ones 8 x 2 ltac:(lia) Hx). Qed.

Lemma config_address_sum d offset :
  0 <= pci_bus d < 2 ^ 8 -> 0 <= pci_slot d < 2 ^ 5 -> 0 <= pci_function d < 2 ^ 3 -> 0 <= offset < 2 ^ 8 ->
  config_address d offset =
    2 ^ 31 + 2 ^ 16 * pci_bus d + 2 ^ 11 * pci_slot d + 2 ^ 8 * pci_function d + Z.land offset 0xFC.
Proof.
  intros Hb Hs Hf Ho. unfold config_address.
  assert (Hlow : 0 <= Z.land offset 0xFC < 2 ^ 8).
  { rewrite register_mask by done. pose proof (Z.mod_pos_bound offset 4). pose proof (Z.mod_le offset 4). lia. }
  rewrite !Z.shiftl_mul_pow2, <- !Z.lor_assoc by lia.
  rewrite (Z.mul_comm (pci_function d)), (lor_add 8) by lia.
  rewrite (Z.mul_comm (pci_slot d)), (lor_add 11) by lia.
  rewrite (Z.mul_comm (pci_bus d)), (lor_add 16) by lia.
  change 0x80000000 with (2 ^ 31 * 1). rewrite (lor_add 31) by lia. lia.
Qed.

(** Configuration addresses do not collide: different functions or different
    aligned registers have different addresses, so a read or write of one never
    reaches another. *)
Theorem config_address_injective d d' offset offset' :
  0 <= pci_bus d < 2 ^ 8 -> 0 <= pci_slot d < 2 ^ 5 -> 0 <= pci_function d < 2 ^ 3 -> 0 <= offset < 2 ^ 8 ->
  0 <= pci_bus d' < 2 ^ 8 -> 0 <= pci_slot d' < 2 ^ 5 -> 0 <= pci_function d' < 2 ^ 3 -> 0 <= offset' < 2 ^ 8 ->
  config_address d offset = config_address d' offset' ->
  pci_bus d = pci_bus d' /\ pci_slot d = pci_slot d' /\ pci_function d = pci_function d' /\
  offset / 4 = offset' / 4.
Proof.
  intros Hb Hs Hf Ho Hb' Hs' Hf' Ho' E.
  rewrite !config_address_sum in E by done.
  rewrite !register_mask in E by done.
  pose proof (Z.div_mod offset 4). pose proof (Z.div_mod offset' 4).
  pose proof (Z.mod_pos_bound offset 4). pose proof (Z.mod_pos_bound offset' 4). lia.
Qed.

Lemma config_address_injective_witness :
  config_address (mkPci 0 3 1 0 0) 4 = config_address (mkPci 0 3 1 0x8086 0x100E) 6 /\ 4 / 4 = 6 / 4.
Proof.
  split; [reflexivity|].
  apply (config_address_injective (mkPci 0 3 1 0 0) (mkPci 0 3 1 0x8086 0x100E) 4 6); cbn; try lia.
  reflexivity.
Defined.

(** A machine whose only device, at bus 0 slot 3, is an Intel 82540EM. *)
Definition OneNic : Type := Z.

#[export] Instance one_nic_bus : Bus OneNic := {|
  bus_in := fun _ _ b =>
    (if b =? 0x80001800 then 0x100E8086 else if b =? 0x8000180C then 0 else 0xFFFFFFFF, b);
  bus_out := fun _ port value b => if port =? 0xCF8 then value else b |}.

Definition nic_config (a : Z) : Z :=
  if a =? 0x80001800 then 0x100E8086 else if a =? 0x8000180C then 0 else 0xFFFFFFFF.

#[export] Program Instance one_nic_config : ConfigSpace (B:=OneNic) nic_config := {|
  cs_selected := fun b => b |}.
Next Obligation. intros a. unfold nic_config. destruct (_ =? _); [lia|]. destruct (_ =? _); lia. Qed.
Next Obligation. done. Qed.
Next Obligation. done. Qed.

Lemma pci_find_first_witness :
  exists bus slot f, is_match nic_config 0x8086 0x100E bus slot f /\
    (pci_find (B:=OneNic) 0x8086 0x100E (mkMachine 0 [])).1 = Some (mkPci bus slot f 0x8086 0x100E).
Proof.
  pose proof (pci_find_first (B:=OneNic) nic_config 0x8086 0x100E (mkMachine 0 [])) as H.
  assert (E : (pci_find (B:=OneNic) 0x8086 0x100E (mkMachine 0 [])).1 = Some (mkPci 0 3 0 0x8086 0x100E))
    by (by vm_compute).
  rewrite E in H. destruct H as (bus & slot & f & _ & _ & _ & Hm & Hd & _).
  exists bus, slot, f. split; [exact Hm|]. rewrite E. f_equal. exact Hd.
Defined.
