(* ===== verification/Input.v ===== *)
(** * drivers/input.c: the PS/2 keyboard and mouse *)

From S2P Require Import Prelude Ports.

Inductive InputEventType := INPUT_NONE | INPUT_MOUSE | INPUT_KEY.

Inductive SpecialKey :=
  | KEY_NONE | KEY_ESCAPE | KEY_BACKSPACE | KEY_TAB | KEY_ENTER | KEY_UP | KEY_DOWN
  | KEY_LEFT | KEY_RIGHT | KEY_DELETE | KEY_HOME | KEY_END.

#[export] Instance SpecialKey_eq_dec : EqDecision SpecialKey.
Proof. solve_decision. Defined.

Record InputEvent := mkEvent {
  ev_type : InputEventType; ev_mouse_x : Z; ev_mouse_y : Z; ev_mouse_buttons : Z;
  ev_character : Z; ev_key : SpecialKey }.

(** The file-scope variables of the driver. *)
Record Input := mkInput {
  pointer_x : Z; pointer_y : Z; pointer_limit_x : Z; pointer_limit_y : Z; pointer_buttons : Z;
  mouse_packet : list Z; mouse_index : Z;
  left_shift : bool; right_shift : bool; caps_lock : bool; extended_key : bool }.

(** The variables before [input_init]: all zero. *)
Definition input_zero : Input := mkInput 0 0 0 0 0 [0; 0; 0] 0 false false false false.

Definition set_pointer (i : Input) x y buttons packet index : Input :=
  mkInput x y (pointer_limit_x i) (pointer_limit_y i) buttons packet index
    (left_shift i) (right_shift i) (caps_lock i) (extended_key i).

Definition set_keys (i : Input) left right caps ext : Input :=
  mkInput (pointer_x i) (pointer_y i) (pointer_limit_x i) (pointer_limit_y i) (pointer_buttons i)
    (mouse_packet i) (mouse_index i) left right caps ext.

(** The designated initialisers of the two tables; the other elements are zero. *)
Definition normal_keys : list (Z * Z) :=
  [(0x02, 49); (0x03, 50); (0x04, 51); (0x05, 52); (0x06, 53); (0x07, 54);
   (0x08, 55); (0x09, 56); (0x0A, 57); (0x0B, 48); (0x0C, 45); (0x0D, 61);
   (0x10, 113); (0x11, 119); (0x12, 101); (0x13, 114); (0x14, 116); (0x15, 121);
   (0x16, 117); (0x17, 105); (0x18, 111); (0x19, 112); (0x1A, 91); (0x1B, 93);
   (0x1E, 97); (0x1F, 115); (0x20, 100); (0x21, 102); (0x22, 103); (0x23, 104);
   (0x24, 106); (0x25, 107); (0x26, 108); (0x27, 59); (0x28, 39); (0x29, 96);
   (0x2B, 92); (0x2C, 122); (0x2D, 120); (0x2E, 99); (0x2F, 118); (0x30, 98);
   (0x31, 110); (0x32, 109); (0x33, 44); (0x34, 46); (0x35, 47); (0x39, 32)].

Definition shifted_keys : list (Z * Z) :=
  [(0x02, 33); (0x03, 64); (0x04, 35); (0x05, 36); (0x06, 37); (0x07, 94);
   (0x08, 38); (0x09, 42); (0x0A, 40); (0x0B, 41); (0x0C, 95); (0x0D, 43);
   (0x10, 81); (0x11, 87); (0x12, 69); (0x13, 82); (0x14, 84); (0x15, 89);
   (0x16, 85); (0x17, 73); (0x18, 79); (0x19, 80); (0x1A, 123); (0x1B, 125);
   (0x1E, 65); (0x1F, 83); (0x20, 68); (0x21, 70); (0x22, 71); (0x23, 72);
   (0x24, 74); (0x25, 75); (0x26, 76); (0x27, 58); (0x28, 34); (0x29, 126);
   (0x2B, 124); (0x2C, 90); (0x2D, 88); (0x2E, 67); (0x2F, 86); (0x30, 66);
   (0x31, 78); (0x32, 77); (0x33, 60); (0x34, 62); (0x35, 63); (0x39, 32)].

Definition table (keys : list (Z * Z)) (code : Z) : Z :=
  match list_find (fun p => p.1 = code) keys with Some (_, p) => p.2 | None => 0 end.

Definition normal_map : Z -> Z := table normal_keys.
Definition shifted_map : Z -> Z := table shifted_keys.

(** ** The mouse *)

(** [if (p < 0) p = 0; if (p >= limit) p = limit - 1;] *)
Definition clamp (p limit : Z) : Z :=
  let p := if p <? 0 then 0 else p in if limit <=? p then limit - 1 else p.

Definition process_mouse (data : Z) (i : Input) (event : InputEvent) : bool * Input * InputEvent :=
  if ((mouse_index i =? 0) && negb (has data 0x08))%bool then (false, i, event) else
  let packet := <[Z.to_nat (mouse_index i) := data]> (mouse_packet i) in
  let index := u8 (mouse_index i + 1) in
  let i := set_pointer i (pointer_x i) (pointer_y i) (pointer_buttons i) packet index in
  if negb (index =? 3) then (false, i, event) else
  let i := set_pointer i (pointer_x i) (pointer_y i) (pointer_buttons i) packet 0 in
  if has (nth 0 packet 0) 0xC0 then (false, i, event) else
  let x := clamp (s32 (pointer_x i + s8 (nth 1 packet 0))) (pointer_limit_x i) in
  let y := clamp (s32 (pointer_y i - s8 (nth 2 packet 0))) (pointer_limit_y i) in
  let buttons := Z.land (nth 0 packet 0) 0x07 in
  (true, set_pointer i x y buttons packet 0,
   mkEvent INPUT_MOUSE x y buttons (ev_character event) (ev_key event)).

(** ** The keyboard *)

Definition extended_special (code : Z) : SpecialKey :=
  match code with
  | 0x47 => KEY_HOME
  | 0x4B => KEY_LEFT
  | 0x4D => KEY_RIGHT
  | 0x4F => KEY_END
  | 0x48 => KEY_UP
  | 0x50 => KEY_DOWN
  | 0x53 => KEY_DELETE
  | _ => KEY_NONE
  end.

(** The character of a key: the table, then caps lock swaps the case of letters. *)
Definition key_character (shifted caps : bool) (code : Z) : Z :=
  let character := if shifted then shifted_map code else normal_map code in
  if ((97 <=? character) && (character <=? 122) && caps)%bool then character - 32
  else if ((65 <=? character) && (character <=? 90) && caps)%bool then character + 32
  else character.

Definition key_event (event : InputEvent) (character : Z) (key : SpecialKey) : InputEvent :=
  mkEvent INPUT_KEY (ev_mouse_x event) (ev_mouse_y event) (ev_mouse_buttons event) character key.

Definition process_keyboard (data : Z) (i : Input) (event : InputEvent) : bool * Input * InputEvent :=
  let keys left right caps ext := set_keys i left right caps ext in
  if data =? 0xE0 then (false, keys (left_shift i) (right_shift i) (caps_lock i) true, event) else
  let released := has data 0x80 in
  let code := Z.land data 0x7F in
  if code =? 0x2A then (false, keys (negb released) (right_shift i) (caps_lock i) false, event) else
  if code =? 0x36 then (false, keys (left_shift i) (negb released) (caps_lock i) false, event) else
  if released then (false, keys (left_shift i) (right_shift i) (caps_lock i) false, event) else
  if code =? 0x3A then (false, keys (left_shift i) (right_shift i) (negb (caps_lock i)) false, event) else
  if extended_key i then
    let key := extended_special code in
    (bool_decide (key <> KEY_NONE), keys (left_shift i) (right_shift i) (caps_lock i) false,
     key_event event 0 key)
  else
  if code =? 0x01 then (true, i, key_event event 0 KEY_ESCAPE) else
  if code =? 0x0E then (true, i, key_event event 0 KEY_BACKSPACE) else
  if code =? 0x0F then (true, i, key_event event 0 KEY_TAB) else
  if code =? 0x1C then (true, i, key_event event 0 KEY_ENTER) else
  let character := key_character (left_shift i || right_shift i) (caps_lock i) code in
  if character =? 0 then (false, i, key_event event 0 KEY_NONE)
  else (true, i, key_event event character KEY_NONE).

(** ** The controller *)

(** The machine together with the driver's variables. *)
Record Console (B : Type) := mkConsole { machine : Machine B; input : Input }.
Arguments mkConsole {B}.
Arguments machine {B}.
Arguments input {B}.

Section console.
Context {B : Type} `{!Bus B}.
Notation IO := (st (Machine B)).
Notation C := (st (Console B)).

(** A port access from the driver. *)
Definition on_machine {A} (op : IO A) : C A := fun c =>
  let '(a, m) := op (machine c) in (a, mkConsole m (input c)).

Fixpoint wait_to_write_loop (timeout : nat) : IO bool :=
  match timeout with
  | O => ret false
  | S timeout =>
      status <- inb 0x64 ;;
      if negb (has status 0x02) then ret true else wait_to_write_loop timeout
  end.

Definition wait_to_write : IO bool := wait_to_write_loop (Z.to_nat 100000).

Fixpoint wait_to_read_loop (timeout : nat) : IO bool :=
  match timeout with
  | O => ret false
  | S timeout =>
      status <- inb 0x64 ;;
      if has status 0x01 then ret true else wait_to_read_loop timeout
  end.

Definition wait_to_read : IO bool := wait_to_read_loop (Z.to_nat 100000).

Definition controller_command (command : Z) : IO unit :=
  ready <- wait_to_write ;; if (ready : bool) then outb 0x64 command else ret tt.

Definition controller_data (value : Z) : IO unit :=
  ready <- wait_to_write ;; if (ready : bool) then outb 0x60 value else ret tt.

Fixpoint mouse_attempts (attempts : nat) (command : Z) : IO bool :=
  match attempts with
  | O => ret false
  | S attempts =>
      controller_command 0xD4 ;;;
      controller_data command ;;;
      ready <- wait_to_read ;;
      if negb ready then mouse_attempts attempts command else
      response <- inb 0x60 ;;
      if response =? 0xFA then ret true
      else if negb (response =? 0xFE) then ret false
      else mouse_attempts attempts command
  end.

Definition mouse_command (command : Z) : IO bool := mouse_attempts 3 command.

(** [while (inb(0x64) & 0x01) (void)inb(0x60);]; false when [fuel] bytes did not
    empty the controller, where the code goes on polling. *)
Fixpoint drain (fuel : nat) : IO bool :=
  status <- inb 0x64 ;;
  if has status 0x01 then
    match fuel with
    | O => ret false
    | S fuel => inb 0x60 ;;; drain fuel
    end
  else ret true.

Definition input_init (fuel : nat) (width height : Z) : C bool := fun c =>
  let i := input c in
  let i := mkInput (Z.quot width 2) (Z.quot height 2) width height (pointer_buttons i)
             (mouse_packet i) (mouse_index i) (left_shift i) (right_shift i) (caps_lock i) (extended_key i) in
  on_machine
    (controller_command 0xAD ;;;
     controller_command 0xA7 ;;;
     drained <- drain fuel ;;
     if negb drained then ret false else
     controller_command 0x20 ;;;
     ready <- wait_to_read ;;
     configuration <- (if (ready : bool) then inb 0x60 else ret 0) ;;
     let configuration := Z.land configuration (u8 (Z.lnot 0x03)) in
     let configuration := Z.lor configuration 0x40 in
     let configuration := Z.land configuration (u8 (Z.lnot 0x20)) in
     controller_command 0x60 ;;;
     controller_data configuration ;;;
     controller_command 0xAE ;;;
     controller_command 0xA8 ;;;
     mouse_command 0xF6 ;;;
     mouse_command 0xF4 ;;;
     drain fuel) (mkConsole (machine c) i).

(** One byte from the controller. *)
Definition process (status data : Z) (i : Input) (event : InputEvent) : bool * Input * InputEvent :=
  if has status 0x20 then process_mouse data i event else process_keyboard data i event.

Fixpoint poll_loop (bytes : nat) (event : InputEvent) : C (bool * InputEvent) :=
  match bytes with
  | O => ret (false, event)
  | S bytes =>
      status <- on_machine (inb 0x64) ;;
      if negb (has status 0x01) then ret (false, event) else
      data <- on_machine (inb 0x60) ;;
      i <- gets input ;;
      let '(complete, i, event) := process status data i event in
      modify (fun c => mkConsole (machine c) i) ;;;
      if (complete : bool) then ret (true, event) else poll_loop bytes event
  end.

Definition input_poll (event : InputEvent) : C (bool * InputEvent) :=
  poll_loop 32 (mkEvent INPUT_NONE (ev_mouse_x event) (ev_mouse_y event) (ev_mouse_buttons event)
                  (ev_character event) (ev_key event)).

End console.

(** ** The pointer stays on the screen *)

(** The state between two bytes: the pointer is on the screen, and the index into
    the three-byte packet is 0, 1 or 2. *)
Record input_ok (i : Input) : Prop := {
  io_x : 0 <= pointer_x i < pointer_limit_x i;
  io_y : 0 <= pointer_y i < pointer_limit_y i;
  io_width : pointer_limit_x i < 2 ^ 31 - 128;
  io_height : pointer_limit_y i < 2 ^ 31 - 128;
  io_buttons : 0 <= pointer_buttons i < 8;
  io_index : 0 <= mouse_index i < 3;
  io_packet : length (mouse_packet i) = 3%nat }.

(** A complete event: the pointer position is on the screen of the driver, and a key
    is a special key or a printable ASCII character, not both. *)
Definition event_ok (i : Input) (e : InputEvent) : Prop :=
  match ev_type e with
  | INPUT_NONE => False
  | INPUT_MOUSE => 0 <= ev_mouse_x e < pointer_limit_x i /\ 0 <= ev_mouse_y e < pointer_limit_y i /\
                   0 <= ev_mouse_buttons e < 8
  | INPUT_KEY => ev_key e = KEY_NONE /\ 32 <= ev_character e < 127 \/
                 ev_key e <> KEY_NONE /\ ev_character e = 0
  end.

Definition same_screen (i i' : Input) : Prop :=
  pointer_limit_x i' = pointer_limit_x i /\ pointer_limit_y i' = pointer_limit_y i.

Lemma clamp_bound p limit : 0 < limit -> 0 <= clamp p limit < limit.
Proof. intros. unfold clamp. destruct (p <? 0) eqn:E; cbv zeta; case_if as E2; lia. Qed.

Lemma land_7 x : 0 <= Z.land x 0x07 < 8.
Proof. change 0x07 with (2 ^ 3 - 1). rewrite land_ones_mod by lia. apply Z.mod_pos_bound. lia. Qed.

Lemma process_mouse_ok data i e :
  input_ok i -> forall b i' e', process_mouse data i e = (b, i', e') ->
  input_ok i' /\ same_screen i i' /\ (b = true -> event_ok i' e').
Proof.
  intros [Hx Hy Hw Hh Hbt Hi Hp] b i' e'. unfold process_mouse, same_screen.
  rewrite (wrap_small 8) by lia.
  case_if as E1; [intros [= <- <- <-]; by split_and!|].
  set (packet := <[_ := _]> _).
  assert (Hl : length packet = 3%nat) by (unfold packet; by rewrite length_insert).
  case_if as E2; [|case_if as E3].
  - intros [= <- <- <-]. split_and!; try done; split; cbn -[packet]; try done; lia.
  - intros [= <- <- <-]. split_and!; try done; split; cbn -[packet]; try done; lia.
  - cbn [pointer_x pointer_y pointer_limit_x pointer_limit_y set_pointer].
    intros [= <- <- <-].
    pose proof (clamp_bound (s32 (pointer_x i + s8 (nth 1 packet 0))) (pointer_limit_x i)).
    pose proof (clamp_bound (s32 (pointer_y i - s8 (nth 2 packet 0))) (pointer_limit_y i)).
    pose proof (land_7 (nth 0 packet 0)).
    split_and!; try done; [|cbn -[packet]; intros _; lia]. split; cbn -[packet]; try done; lia.
Qed.

Lemma key_character_printable shifted caps code :
  0 <= code < 128 -> key_character shifted caps code = 0 \/ 32 <= key_character shifted caps code < 127.
Proof.
  intros Hc.
  assert (H : all_below 128 (fun code => let c := key_character shifted caps code in
    ((c =? 0) || (32 <=? c) && (c <? 127))%bool) = true) by (by destruct shifted, caps; vm_compute).
  pose proof (all_below_spec _ _ _ H Hc) as Hk. cbv beta zeta in Hk. lia.
Qed.

Lemma land_7F x : 0 <= Z.land x 0x7F < 128.
Proof. change 0x7F with (2 ^ 7 - 1). rewrite land_ones_mod by lia. apply Z.mod_pos_bound. lia. Qed.

Lemma set_keys_ok i left right caps ext : input_ok i -> input_ok (set_keys i left right caps ext).
Proof. intros [? ? ? ? ? ? ?]. by split. Qed.

Lemma process_keyboard_ok data i e :
  input_ok i -> forall b i' e', process_keyboard data i e = (b, i', e') ->
  input_ok i' /\ same_screen i i' /\ (b = true -> event_ok i' e').
Proof.
  intros Hi b i' e' E.
  pose proof (key_character_printable (left_shift i || right_shift i) (caps_lock i) (Z.land data 0x7F)
                (land_7F data)) as Hk.
  unfold process_keyboard in E. cbv zeta in E.
  repeat match type of E with context [if ?b then _ else _] => destruct b eqn:? end;
    injection E as <- <- <-;
    (split_and!; [auto using set_keys_ok|done|]); intros Hb; try discriminate Hb;
    unfold event_ok, key_event; cbn [ev_type ev_key ev_character]; try (by right).
  - right. split; [by apply bool_decide_eq_true in Hb|done].
  - left. split; [done|]. lia.
Qed.

Lemma process_ok status data i e :
  input_ok i -> forall b i' e', process status data i e = (b, i', e') ->
  input_ok i' /\ same_screen i i' /\ (b = true -> event_ok i' e').
Proof. unfold process. case_if as E; eauto using process_mouse_ok, process_keyboard_ok. Qed.

Section poll.
Context {B : Type} `{!Bus B}.

Lemma wp_on_machine {A} (op : st (Machine B) A) Q c :
  (forall a m, Q a (mkConsole m (input c))) -> wp (on_machine op) Q c.
Proof. intros H. unfold wp, on_machine. destruct (op (machine c)). apply H. Qed.

Lemma poll_loop_ok n event c :
  input_ok (input c) ->
  wp (poll_loop n event)
     (fun r c' => input_ok (input c') /\ same_screen (input c) (input c') /\
                  (r.1 = true -> event_ok (input c') r.2)) c.
Proof.
  revert event c. induction n as [|n IH]; intros event c Hc; cbn [poll_loop]; [by apply wp_ret|].
  wp_step. apply wp_on_machine. intros status m. case_if as E; [by apply wp_ret|].
  wp_step. apply wp_on_machine. intros data m2. cbn [input]. wp_steps. cbn [input].
  destruct (process status data (input c) event) as [[b i'] e'] eqn:Ep.
  destruct (process_ok _ _ _ _ Hc _ _ _ Ep) as (Hi & Hs & He). wp_steps. cbn [machine input].
  destruct b; [apply wp_ret; by split_and!|].
  wp_call IH; [done|]. intros r c' (H1 & [H2 H3] & H4). cbn [input] in *. destruct Hs.
  split_and!; [done|split; congruence|done].
Qed.

(** Whatever bytes the controller delivers, polling keeps the pointer on the
    screen and the packet index inside the three-byte packet, and every event it
    reports is well formed: a pointer position on the screen with three button
    bits, a special key, or a printable ASCII character. *)
Theorem input_poll_bounds event c :
  input_ok (input c) ->
  let '(r, c') := input_poll event c in
  input_ok (input c') /\ same_screen (input c) (input c') /\ (r.1 = true -> event_ok (input c') r.2).
Proof.
  intros Hc.
  pose proof (poll_loop_ok 32 (mkEvent INPUT_NONE (ev_mouse_x event) (ev_mouse_y event)
    (ev_mouse_buttons event) (ev_character event) (ev_key event)) c Hc) as H.
  unfold wp in H. unfold input_poll. by destruct (poll_loop 32 _ c).
Qed.

(** [input_init] establishes the state polling keeps. *)
Lemma input_init_ok fuel width height m :
  0 < width < 2 ^ 31 - 128 -> 0 < height < 2 ^ 31 - 128 ->
  input_ok (input (input_init fuel width height (mkConsole m input_zero)).2).
Proof.
  intros Hw Hh. unfold input_init, on_machine. cbn [machine input].
  match goal with |- context [let '(a, m) := ?x in _] => destruct x end. cbn [snd input].
  pose proof (Z.quot_pos width 2). pose proof (Z.quot_lt width 2).
  pose proof (Z.quot_pos height 2). pose proof (Z.quot_lt height 2).
  split; cbn; try lia.
Qed.

End poll.

(** ** Typing *)

(** The keyboard bytes [l] processed in order, events ignored. *)
Definition after_keys (l : list Z) (i : Input) : Input :=
  foldl (fun i d => (process_keyboard d i (mkEvent INPUT_NONE 0 0 0 0 KEY_NONE)).1.2) i l.

(** What the bytes say of the keys: the key with make code [make] is held. *)
Definition held (make : Z) (l : list Z) : bool :=
  foldl (fun b d => if d =? make then true else if d =? make + 0x80 then false else b) false l.

(** Caps lock was pressed an odd number of times. *)
Definition capsed (l : list Z) : bool := foldl (fun b d => if d =? 0x3A then negb b else b) false l.

(** The last byte was the prefix of an extended key. *)
Definition prefixed (l : list Z) : bool := foldl (fun _ d => d =? 0xE0) false l.

Lemma scan_code d (make : Z) :
  is_byte d -> 0 <= make < 128 ->
  (Z.land d 0x7F =? make) = ((d =? make) || (d =? make + 0x80))%bool /\
  has d 0x80 = (0x80 <=? d).
Proof.
  intros Hd Hm. change 0x7F with (2 ^ 7 - 1). rewrite land_ones_mod by lia. split.
  - pose proof (Z.div_mod d (2 ^ 7)). pose proof (Z.mod_pos_bound d (2 ^ 7)).
    unfold is_byte in Hd. lia.
  - apply eqb_prop, (all_below_spec 256 (fun d => eqb (has d 0x80) (0x80 <=? d))); [done|exact Hd].
Qed.

(** What one byte does to the modifiers. *)
Lemma process_keyboard_modifiers d i e :
  is_byte d ->
  let i' := (process_keyboard d i e).1.2 in
  left_shift i' = (if d =? 0x2A then true else if d =? 0x2A + 0x80 then false else left_shift i) /\
  right_shift i' = (if d =? 0x36 then true else if d =? 0x36 + 0x80 then false else right_shift i) /\
  caps_lock i' = (if d =? 0x3A then negb (caps_lock i) else caps_lock i) /\
  extended_key i' = (d =? 0xE0).
Proof.
  intros Hd.
  destruct (scan_code d 0x2A Hd ltac:(lia)) as [Ea Er]. destruct (scan_code d 0x36 Hd ltac:(lia)) as [Eb _].
  destruct (scan_code d 0x3A Hd ltac:(lia)) as [Ec _].
  destruct (d =? 0xE0) eqn:E0.
  { apply Z.eqb_eq in E0 as ->. done. }
  destruct (decide (d = 0x2A \/ d = 0x2A + 0x80)) as [[-> | ->]|N1]; [done|done|].
  destruct (decide (d = 0x36 \/ d = 0x36 + 0x80)) as [[-> | ->]|N2]; [done|done|].
  destruct (decide (d = 0x3A)) as [-> |N3]; [done|].
  assert (d =? 0x2A = false /\ d =? 0x2A + 0x80 = false) as [F1 F2] by lia.
  assert (d =? 0x36 = false /\ d =? 0x36 + 0x80 = false) as [F3 F4] by lia.
  assert (F5 : d =? 0x3A = false) by lia.
  unfold process_keyboard. cbv zeta. rewrite E0, Ea, Eb, Ec, F1, F2, F3, F4, F5. cbn [orb].
  destruct (has d 0x80) eqn:Eh; [done|].
  assert (F6 : d =? 0x3A + 0x80 = false) by lia. rewrite F6.
  destruct (extended_key i) eqn:Ex; [done|].
  repeat match goal with |- context [if ?b then _ else _] => destruct b end; done.
Qed.

(** The driver's variables after some bytes are what the bytes say. *)
Lemma after_keys_state l i :
  bytes l -> i = after_keys l input_zero ->
  left_shift i = held 0x2A l /\ right_shift i = held 0x36 l /\
  caps_lock i = capsed l /\ extended_key i = prefixed l.
Proof.
  intros Hb ->. induction l as [|d l IH] using rev_ind; [done|].
  apply bytes_app in Hb as [Hb Hd]. unfold bytes in Hd; rewrite Forall_singleton in Hd.
  destruct (IH Hb) as (H1 & H2 & H3 & H4). clear IH.
  unfold after_keys, held, capsed, prefixed in *. rewrite !foldl_app. cbn [foldl].
  rewrite <- H1, <- H2, <- H3. by apply process_keyboard_modifiers.
Qed.

Definition is_letter (c : Z) : bool := (97 <=? c) && (c <=? 122).

(** Typing works whatever was typed before: after any bytes from the keyboard
    that do not end in an extended prefix, pressing a character key reports the
    character its key stands for, where a letter is a capital exactly when one of
    shift (either key held, as the makes and breaks so far say) and caps lock
    (pressed an odd number of times) is on, and the other keys follow shift only. *)
Theorem keyboard_typing l code event :
  bytes l -> prefixed l = false -> 0 <= code < 128 -> normal_map code <> 0 ->
  let i := after_keys l input_zero in
  let shift := (held 0x2A l || held 0x36 l)%bool in
  let character :=
    if is_letter (normal_map code)
    then (if xorb shift (capsed l) then normal_map code - 32 else normal_map code)
    else (if shift then shifted_map code else normal_map code) in
  process_keyboard code i event = (true, i, key_event event character KEY_NONE).
Proof.
  intros Hb Hp Hc Hn i shift character.
  destruct (after_keys_state l i Hb eq_refl) as (H1 & H2 & H3 & H4).
  assert (Hall : all_below 128 (fun code => ((normal_map code =? 0) ||
      negb ((code =? 0x2A) || (code =? 0x36) || (code =? 0x3A) || (code =? 1) || (code =? 0x0E) ||
            (code =? 0x0F) || (code =? 0x1C)) &&
      (Z.land code 0x7F =? code) && negb (has code 0x80) &&
      forallb (fun sh => forallb (fun caps =>
        let k := key_character sh caps code in negb (k =? 0) &&
        (k =? (if is_letter (normal_map code)
               then (if xorb sh caps then normal_map code - 32 else normal_map code)
               else (if sh then shifted_map code else normal_map code))))
        [true; false]) [true; false])%bool) = true) by (by vm_compute).
  pose proof (all_below_spec _ _ _ Hall Hc) as Hk. cbv beta in Hk. clear Hall.
  rewrite (proj2 (Z.eqb_neq (normal_map code) 0) Hn) in Hk. cbn [orb] in Hk.
  rewrite !andb_true_iff, forallb_forall in Hk. destruct Hk as (((Hcodes & Hland) & Hhas) & Hk).
  specialize (Hk shift ltac:(destruct shift; cbn; auto)). rewrite forallb_forall in Hk.
  specialize (Hk (capsed l) ltac:(destruct (capsed l); cbn; auto)). cbv zeta in Hk.
  apply andb_true_iff in Hk as [Hk0 Hk]. apply Z.eqb_eq in Hland, Hk.
  apply negb_true_iff in Hcodes, Hhas, Hk0.
  rewrite !orb_false_iff in Hcodes. destruct Hcodes as ((((((C1 & C2) & C3) & C4) & C5) & C6) & C7).
  unfold process_keyboard. cbv zeta. rewrite Hland, Hhas, C1, C2, C3, C4, C5, C6, C7.
  destruct (code =? 0xE0) eqn:E; [lia|]. clear E.
  rewrite H4, Hp, H1, H2, H3. fold shift. rewrite Hk0, Hk. done.
Qed.

Lemma keyboard_typing_witness :
  process_keyboard 0x1E (after_keys [0x2A; 0x3A; 0xBA; 0xAA] input_zero) (mkEvent INPUT_NONE 0 0 0 0 KEY_NONE)
  = (true, after_keys [0x2A; 0x3A; 0xBA; 0xAA] input_zero, mkEvent INPUT_KEY 0 0 0 65 KEY_NONE).
Proof.
  apply (keyboard_typing [0x2A; 0x3A; 0xBA; 0xAA] 0x1E (mkEvent INPUT_NONE 0 0 0 0 KEY_NONE)).
  - repeat (apply Forall_cons; split; [unfold is_byte; lia|]). constructor.
  - reflexivity.
  - lia.
  - vm_compute. discriminate.
Defined.

(** A controller with one mouse packet waiting. *)
#[export] Instance packet_bus : Bus (list Z) := {|
  bus_in := fun _ port b =>
    if port =? 0x64 then (if b is [] then 0 else 0x21, b) else (nth 0 b 0, tail b);
  bus_out := fun _ _ _ b => b |}.

Definition packet_console : Console (list Z) :=
  mkConsole (mkMachine [0x09; 5; 0xFF] []) (mkInput 700 0 1024 768 0 [0; 0; 0] 0 false false false false).

Lemma input_poll_bounds_witness :
  input_ok (input (input_poll (mkEvent INPUT_NONE 0 0 0 0 KEY_NONE) packet_console).2) /\
  (input_poll (mkEvent INPUT_NONE 0 0 0 0 KEY_NONE) packet_console).1 =
    (true, mkEvent INPUT_MOUSE 705 1 1 0 KEY_NONE).
Proof.
  split; [|vm_compute; reflexivity].
  pose proof (input_poll_bounds (mkEvent INPUT_NONE 0 0 0 0 KEY_NONE) packet_console) as H.
  destruct (input_poll (mkEvent INPUT_NONE 0 0 0 0 KEY_NONE) packet_console) as [r c'].
  apply H. split; cbn; try lia.
Defined.
