(* ===== verification/Account.v ===== *)
(** * kernel/account.c: users, passwords and the session

    The account database is one 400-byte file of the volume, [users.db]; the
    session is an index into it together with the identity the file system checks
    permissions against. *)

From S2P Require Import Prelude Runtime Heap Interfaces RamDisk Filesystem.
From S2P Require Import FsNames FsFrame FsTree FsData FsVolume FsRefine FsTheorems.

Definition ACCOUNT_MAX : nat := 8.
Definition ACCOUNT_ADMIN : Z := 1.
Definition ACCOUNT_NAME_MAX : Z := 23.

(** "NOVAUSR1" *)
Definition ACCOUNT_MAGIC : list Z := [78; 79; 86; 65; 85; 83; 82; 49].

(** "users.db", "root", "nova", "eunseokyang" and "none", NUL-terminated. *)
Definition USERS_DB : list Z := [117; 115; 101; 114; 115; 46; 100; 98; 0].
Definition ROOT : list Z := [114; 111; 111; 116; 0].
Definition NOVA : list Z := [110; 111; 118; 97; 0].
Definition EUNSEOKYANG : list Z := [101; 117; 110; 115; 101; 111; 107; 121; 97; 110; 103; 0].
Definition NONE : list Z := [110; 111; 110; 101; 0].

Record AccountRecord := mkRecord {
  ar_name : list Z; ar_uid : Z; ar_flags : Z; ar_salt : Z; ar_password_hash : Z }.

Record AccountDatabase := mkDatabase {
  ad_magic : list Z; ad_version : Z; ad_count : Z; ad_records : list AccountRecord }.

Record AccountInfo := mkAccountInfo { ai_name : list Z; ai_uid : Z; ai_administrator : bool }.

(** The packed layouts: 48 bytes a record, 400 bytes in all. *)
Definition RECORD_SIZE : nat := 48.
Definition DATABASE_SIZE : Z := 400.

Definition encode_record (r : AccountRecord) : list Z :=
  ar_name r ++ le 4 (ar_uid r) ++ le 4 (ar_flags r) ++ le 8 (ar_salt r) ++ le 8 (ar_password_hash r).

Definition decode_record (l : list Z) : AccountRecord :=
  mkRecord (slice 0 24 l) (field 24 4 l) (field 28 4 l) (field 32 8 l) (field 40 8 l).

Definition encode_database (d : AccountDatabase) : list Z :=
  ad_magic d ++ le 4 (ad_version d) ++ le 4 (ad_count d) ++ mjoin (encode_record <$> ad_records d).

Definition decode_database (l : list Z) : AccountDatabase :=
  mkDatabase (slice 0 8 l) (field 8 4 l) (field 12 4 l)
    ((fun i => decode_record (slice (16 + RECORD_SIZE * i) RECORD_SIZE l)) <$> seq 0 ACCOUNT_MAX).

Definition zero_record : AccountRecord := mkRecord (replicate 24 0) 0 0 0 0.

Definition zero_database : AccountDatabase :=
  mkDatabase (replicate 8 0) 0 0 (replicate ACCOUNT_MAX zero_record).

(** FNV-1a over the password, seeded and finished with the salt. *)
Definition hash_step (hash c : Z) : Z := u64 (Z.lxor hash c * 1099511628211).

Definition password_hash (password : list Z) (salt : Z) : Z :=
  hash_step (foldl (fun hash c => hash_step hash (u8 c)) (Z.lxor 1469598103934665603 salt) (cstr password))
            (Z.shiftr salt 32).

Definition account_character (c : Z) : bool :=
  ((97 <=? c) && (c <=? 122) || (65 <=? c) && (c <=? 90) || (48 <=? c) && (c <=? 57) ||
   (c =? 95) || (c =? 45))%bool.

Definition valid_account_name (name : list Z) : bool :=
  let length := Z.of_nat (strlen name) in
  if ((length =? 0) || (ACCOUNT_NAME_MAX <? length))%bool then false
  else forallb account_character (cstr name).

(** [&database.records[index]] *)
Definition record_at (d : AccountDatabase) (index : Z) : AccountRecord :=
  nth (Z.to_nat index) (ad_records d) zero_record.

(** The C string at [database.records[index].name]: it ends at the first NUL, which
    a database from disk may have only after the 24 bytes of the field. *)
Definition name_at (d : AccountDatabase) (index : Z) : list Z :=
  cstr (drop (16 + RECORD_SIZE * Z.to_nat index) (encode_database d)).

Definition set_record (index : Z) (r : AccountRecord) (d : AccountDatabase) : AccountDatabase :=
  mkDatabase (ad_magic d) (ad_version d) (ad_count d) (<[Z.to_nat index := r]> (ad_records d)).

Definition set_count (n : Z) (d : AccountDatabase) : AccountDatabase :=
  mkDatabase (ad_magic d) (ad_version d) n (ad_records d).

Definition is_admin (r : AccountRecord) : bool := has (ar_flags r) ACCOUNT_ADMIN.

Definition add_default (index : Z) (name : list Z) (uid : Z) (password : list Z) (administrator : bool)
  (d : AccountDatabase) : AccountDatabase :=
  let record := record_at d index in
  let salt := Z.lxor (Z.lxor 0x4E4F564100000000 (u64 (Z.shiftl uid 17))) (Z.of_nat (strlen name)) in
  set_record index
    (mkRecord (blit 0 (strncpy name 23) (ar_name record)) uid
       (if administrator then ACCOUNT_ADMIN else 0) salt (password_hash password salt)) d.

(** The database [account_init] starts from when there is none on disk. *)
Definition default_database : AccountDatabase :=
  add_default 1 EUNSEOKYANG 1000 [0] false
    (add_default 0 ROOT 0 NOVA true
       (mkDatabase ACCOUNT_MAGIC 1 2 (replicate ACCOUNT_MAX zero_record))).

(** Lines 104-108 of [account_create]: the record after the last is cleared, filled
    in, and counted. *)
Definition new_account (name password : list Z) (administrator : bool) (d : AccountDatabase)
  : AccountDatabase :=
  let index := ad_count d in
  let uid := u32 (1000 + index) in
  let d := add_default index name uid password administrator (set_record index zero_record d) in
  set_count (u32 (ad_count d + 1)) d.

(** The tests [account_init] makes on what it read. *)
Definition database_valid (d : AccountDatabase) : bool :=
  (bool_decide (ad_magic d = ACCOUNT_MAGIC) && (ad_version d =? 1) && (2 <=? ad_count d) &&
   (ad_count d <=? Z.of_nat ACCOUNT_MAX))%bool.

Section account.
Context {D H : Type} `{!BlockDevice D} `{!Allocator H}.

Record Accounts := mkAccounts {
  database : AccountDatabase; current_index : Z; volume : FsState (D:=D) (H:=H) }.

Notation ACC := (st Accounts).

(** A call into the file system. *)
Definition on_volume {A} (op : st (FsState (D:=D) (H:=H)) A) : ACC A := fun a =>
  let '(r, s) := op (volume a) in (r, mkAccounts (database a) (current_index a) s).

Definition set_database (d : AccountDatabase) : ACC unit :=
  modify (fun a => mkAccounts d (current_index a) (volume a)).

Definition save_database : ACC bool :=
  d <- gets database ;;
  saved <- on_volume (fs_write USERS_DB (encode_database d)) ;;
  if (saved : bool) then on_volume (fs_chmod USERS_DB 0x180) else ret false.

Definition account_current_is_admin (a : Accounts) : bool :=
  ((0 <=? current_index a) && is_admin (record_at (database a) (current_index a)))%bool.

(** The search of [account_login]: records [index ..], [n] of them. *)
Fixpoint login_search (n : nat) (index : Z) (name password : list Z) (d : AccountDatabase) : option Z :=
  match n with
  | O => None
  | S n =>
      if ((strcmp (name_at d index) name =? 0) &&
          (ar_password_hash (record_at d index) =? password_hash password (ar_salt (record_at d index))))%bool
      then Some index else login_search n (index + 1) name password d
  end.

Definition account_login (name password : list Z) : ACC bool :=
  d <- gets database ;;
  match login_search (Z.to_nat (ad_count d)) 0 name password d with
  | None => ret false
  | Some index =>
      modify (fun a => mkAccounts (database a) index (volume a)) ;;;
      on_volume (fs_set_identity (ar_uid (record_at d index)) (is_admin (record_at d index))) ;;;
      ret true
  end.

Definition account_init : ACC bool :=
  on_volume (fs_set_identity 0 true) ;;;
  loaded <- on_volume (fs_read USERS_DB DATABASE_SIZE) ;;
  let fresh :=
    set_database default_database ;;;
    saved <- save_database ;;
    if negb saved then ret false else account_login EUNSEOKYANG [0] in
  match loaded with
  | None => fresh
  | Some l =>
      if ((Z.of_nat (length l) =? DATABASE_SIZE) && database_valid (decode_database l))%bool
      then set_database (decode_database l) ;;; account_login EUNSEOKYANG [0]
      else fresh
  end.

(** A record below [n] has the name. *)
Fixpoint name_taken (n : nat) (index : Z) (name : list Z) (d : AccountDatabase) : bool :=
  match n with
  | O => false
  | S n => if strcmp (name_at d index) name =? 0 then true else name_taken n (index + 1) name d
  end.

Definition account_create (name password : list Z) (administrator : bool) : ACC bool :=
  a <- gets id ;;
  let d := database a in
  if ((current_index a <? 0) || negb (account_current_is_admin a) || negb (valid_account_name name) ||
      (Z.of_nat ACCOUNT_MAX <=? ad_count d))%bool then ret false else
  if name_taken (Z.to_nat (ad_count d)) 0 name d then ret false else
  set_database (new_account name password administrator d) ;;;
  saved <- save_database ;;
  if negb saved then
    d <- gets database ;;
    set_database (set_count (u32 (ad_count d - 1)) d) ;;;
    ret false
  else ret true.

Definition account_current_name (a : Accounts) : list Z :=
  if 0 <=? current_index a then name_at (database a) (current_index a) else cstr NONE.

Definition account_current_uid (a : Accounts) : Z :=
  if 0 <=? current_index a then ar_uid (record_at (database a) (current_index a)) else 0.

Definition account_count (a : Accounts) : Z := s32 (ad_count (database a)).

Definition account_info (index : Z) (a : Accounts) : option AccountInfo :=
  if ((index <? 0) || (s32 (ad_count (database a)) <=? index))%bool then None
  else Some (mkAccountInfo (name_at (database a) index) (ar_uid (record_at (database a) index))
               (is_admin (record_at (database a) index))).

End account.

(** ** Nothing but a login changes the identity *)

Section identity.
Context {D H : Type} `{!BlockDevice D} `{!Allocator H}.
Notation FS := (st (FsState (D:=D) (H:=H))).
Implicit Types s : FsState (D:=D) (H:=H).

Definition ident s : Z * bool := (current_uid s, current_privileged s).

Definition keeps {A} (m : FS A) : Prop := forall s, ident (m s).2 = ident s.

Lemma kept_quiet {A} (m : FS A) : quiet m -> keeps m.
Proof. intros Hq s. specialize (Hq s). unfold tables in Hq. unfold ident. congruence. Qed.

Lemma kept_ret {A} (a : A) : keeps (ret a).
Proof. done. Qed.

Lemma kept_gets {A} (f : FsState -> A) : keeps (gets f).
Proof. done. Qed.

Lemma kept_bind {A B} (m : FS A) (k : A -> FS B) :
  keeps m -> (forall a, keeps (k a)) -> keeps (bind m k).
Proof. intros Hm Hk s. unfold bind. specialize (Hm s). destruct (m s) as [a s']. by rewrite Hk. Qed.

Lemma keeps_edit_entry i f : keeps (edit_entry i f).
Proof. done. Qed.

Lemma keeps_allocate_entry name type mode : keeps (allocate_entry name type mode).
Proof. intros s. unfold allocate_entry. case_if as E; [done|]. by destruct (free_from _ _). Qed.

End identity.

#[export] Hint Resolve kept_ret kept_gets keeps_edit_entry keeps_allocate_entry : nova.
#[export] Hint Resolve quiet_save_entry quiet_resolve_entry quiet_write_blocks quiet_fs_read_at
  quiet_fs_path_info : nova.

(** Closes [keeps] goals by the structure of the routine. *)
Ltac keeps :=
  repeat first
    [ progress intros
    | solve [eauto with nova nocore]
    | solve [apply kept_quiet; eauto with nova nocore]
    | apply kept_bind
    | match goal with
      | |- keeps (if ?b then _ else _) => destruct b
      | |- keeps (match ?x with _ => _ end) => destruct x
      | |- keeps (let _ := _ in _) => cbv zeta
      end ].

Section session.
Context {D H : Type} `{!BlockDevice D} `{!Allocator H}.
Implicit Types (s : FsState (D:=D) (H:=H)) (a : Accounts (D:=D) (H:=H)).

Lemma keeps_fs_write name data : keeps (fs_write (D:=D) (H:=H) name data).
Proof. unfold fs_write, entry_for_write, write_entry_data. keeps. Qed.

Lemma keeps_fs_chmod name mode : keeps (fs_chmod (D:=D) (H:=H) name mode).
Proof. unfold fs_chmod. keeps. Qed.

Lemma keeps_fs_read name capacity : keeps (fs_read (D:=D) (H:=H) name capacity).
Proof. unfold fs_read. keeps. Qed.

Lemma wp_on_volume {A} (op : st (FsState (D:=D) (H:=H)) A) Q a :
  wp op (fun r s => Q r (mkAccounts (database a) (current_index a) s)) (volume a) -> wp (on_volume op) Q a.
Proof. unfold wp, on_volume. by destruct (op (volume a)). Qed.

Lemma wp_keeps {A} (op : st (FsState (D:=D) (H:=H)) A) Q s :
  keeps op -> (forall r s', ident s' = ident s -> Q r s') -> wp op Q s.
Proof. intros Hk HQ. apply HQ, Hk. Qed.

(** Saving the database changes neither it nor the session. *)
Lemma save_database_frame a :
  wp save_database (fun _ a' => database a' = database a /\ current_index a' = current_index a /\
                                ident (volume a') = ident (volume a)) a.
Proof.
  unfold save_database. wp_steps. apply wp_on_volume, wp_keeps; [apply keeps_fs_write|].
  intros ok s' E. case_if as Eok; [|by apply wp_ret].
  apply wp_on_volume, wp_keeps; [apply keeps_fs_chmod|]. intros ok' s'' E'. cbn [database current_index volume].
  split_and!; [done|done|]. cbn [volume] in E'. by rewrite E', E.
Qed.

Lemma login_search_spec n index name password d :
  match login_search n index name password d with
  | Some i => index <= i < index + Z.of_nat n /\ strcmp (name_at d i) name = 0 /\
      ar_password_hash (record_at d i) = password_hash password (ar_salt (record_at d i)) /\
      forall j, index <= j < i -> ~ (strcmp (name_at d j) name = 0 /\
        ar_password_hash (record_at d j) = password_hash password (ar_salt (record_at d j)))
  | None => forall j, index <= j < index + Z.of_nat n -> ~ (strcmp (name_at d j) name = 0 /\
        ar_password_hash (record_at d j) = password_hash password (ar_salt (record_at d j)))
  end.
Proof.
  revert index. induction n as [|n IH]; intros index; cbn [login_search]; [intros; lia|].
  case_if as E; [split_and!; try lia; intros; lia|].
  specialize (IH (index + 1)). destruct (login_search n _ _ _ _) as [i|].
  - destruct IH as (Hi & H1 & H2 & Hf). split_and!; [lia|lia|done|done|]. intros j Hj.
    destruct (decide (j = index)) as [-> |]; [lia|]. apply Hf. lia.
  - intros j Hj. destruct (decide (j = index)) as [-> |]; [lia|]. apply IH. lia.
Qed.

(** The session matches the database: the current index is below the number of
    accounts, and the identity of the file system is that of the current account. *)
Record session_ok a : Prop := {
  so_count : 2 <= ad_count (database a) <= 8;
  so_records : length (ad_records (database a)) = 8%nat;
  so_index : 0 <= current_index a < ad_count (database a);
  so_identity : ident (volume a) =
    (ar_uid (record_at (database a) (current_index a)), is_admin (record_at (database a) (current_index a))) }.

Lemma account_login_spec name password a :
  wp (account_login name password)
     (fun ok a' => database a' = database a /\
        (ok = false -> a' = a) /\
        (ok = true -> 0 <= current_index a' < ad_count (database a) /\
           strcmp (name_at (database a) (current_index a')) name = 0 /\
           ar_password_hash (record_at (database a) (current_index a')) =
             password_hash password (ar_salt (record_at (database a) (current_index a'))) /\
           ident (volume a') = (ar_uid (record_at (database a) (current_index a')),
                                is_admin (record_at (database a) (current_index a'))))) a.
Proof.
  unfold account_login. wp_steps.
  pose proof (login_search_spec (Z.to_nat (ad_count (database a))) 0 name password (database a)) as Hs.
  destruct (login_search _ _ _ _ _) as [i|]; [|by apply wp_ret]. destruct Hs as (Hi & H1 & H2 & _).
  wp_steps. apply wp_on_volume. unfold fs_set_identity. wp_steps.
  cbn [database current_index volume]. split_and!; [done|done|]. intros _. split_and!; try done; lia.
Qed.

Lemma account_login_session name password a :
  session_ok a -> wp (account_login name password) (fun _ a' => session_ok a') a.
Proof.
  intros [Hc Hr Hi Hid]. wp_call account_login_spec. intros ok a' (Hd & Hf & Ht).
  destruct ok; [|by rewrite Hf]. destruct (Ht eq_refl) as (Hi' & _ & _ & Hid').
  by split; rewrite Hd.
Qed.

Lemma record_at_set_ne index i r d :
  0 <= i -> 0 <= index -> i <> index -> record_at (set_record index r d) i = record_at d i.
Proof.
  intros. unfold record_at, set_record. cbn [ad_records].
  rewrite !nth_lookup. f_equal. apply list_lookup_insert_ne. lia.
Qed.

Lemma record_at_set_eq index r d :
  0 <= index < Z.of_nat (length (ad_records d)) -> record_at (set_record index r d) index = r.
Proof.
  intros. unfold record_at, set_record. cbn [ad_records].
  rewrite nth_lookup, list_lookup_insert_eq by lia. done.
Qed.

(** What [new_account] does to the records. *)
Lemma new_account_facts name password administrator d :
  0 <= ad_count d < 8 -> length (ad_records d) = 8%nat ->
  let d' := new_account name password administrator d in
  ad_count d' = ad_count d + 1 /\ length (ad_records d') = 8%nat /\ ad_magic d' = ad_magic d /\
  ad_version d' = ad_version d /\
  (forall i, 0 <= i -> i <> ad_count d -> record_at d' i = record_at d i) /\
  let r := record_at d' (ad_count d) in
  ar_name r = blit 0 (strncpy name 23) (replicate 24 0) /\ ar_uid r = 1000 + ad_count d /\
  ar_flags r = (if administrator then ACCOUNT_ADMIN else 0) /\
  ar_password_hash r = password_hash password (ar_salt r) /\
  ar_salt r = Z.lxor (Z.lxor 0x4E4F564100000000 (u64 (Z.shiftl (1000 + ad_count d) 17))) (Z.of_nat (strlen name)).
Proof.
  intros Hc Hl d'.
  assert (Hr : forall i, record_at d' i = record_at (add_default (ad_count d) name
    (u32 (1000 + ad_count d)) password administrator (set_record (ad_count d) zero_record d)) i) by done.
  split_and!.
  - unfold d', new_account, set_count, add_default, set_record. cbn [ad_count]. apply wrap_small. lia.
  - unfold d', new_account, set_count, add_default, set_record. cbn [ad_records]. by rewrite !length_insert.
  - done.
  - done.
  - intros i Hi Hne. rewrite Hr. unfold add_default. by rewrite !record_at_set_ne by lia.
  - cbv zeta. rewrite Hr. unfold add_default.
    rewrite (record_at_set_eq _ zero_record) by lia.
    rewrite record_at_set_eq by (unfold set_record; cbn [ad_records]; rewrite length_insert; lia).
    cbn [ar_name ar_uid ar_flags ar_password_hash ar_salt zero_record].
    rewrite (wrap_small 32 (1000 + ad_count d)) by lia. done.
Qed.

Lemma account_create_spec name password administrator a :
  0 <= ad_count (database a) -> length (ad_records (database a)) = 8%nat ->
  wp (account_create name password administrator)
     (fun ok a' => current_index a' = current_index a /\ ident (volume a') = ident (volume a) /\
       (ok = true -> account_current_is_admin a = true /\ valid_account_name name = true /\
          ad_count (database a) < 8 /\ name_taken (Z.to_nat (ad_count (database a))) 0 name (database a) = false /\
          database a' = new_account name password administrator (database a)) /\
       (account_current_is_admin a = false -> ok = false /\ a' = a) /\
       (ok = false -> ad_count (database a') = ad_count (database a) /\
          length (ad_records (database a')) = 8%nat /\
          forall i, 0 <= i < ad_count (database a) -> record_at (database a') i = record_at (database a) i)) a.
Proof.
  intros Hc0 Hl. unfold account_create. wp_steps. unfold id. cbv zeta.
  destruct (_ || (Z.of_nat ACCOUNT_MAX <=? _))%bool eqn:E1; [by apply wp_ret|].
  destruct (name_taken _ _ _ _) eqn:E2; [by apply wp_ret|].
  rewrite !orb_false_iff, !negb_false_iff in E1. destruct E1 as (((_ & Ea) & En) & Ec).
  unfold ACCOUNT_MAX in Ec.
  destruct (new_account_facts name password administrator (database a)) as (F1 & F2 & _ & _ & F3 & _); [lia|done|].
  unfold set_database. wp_steps. wp_call save_database_frame. cbn [database current_index volume].
  intros ok a' (Hd & Hi & Hid). destruct ok; cbn [negb]; wp_steps; cbn [database current_index volume].
  - split_and!; try done; [|by rewrite Ea]. intros _. split_and!; try done. lia.
  - rewrite Hd. split_and!; try done; [by rewrite Ea|]. intros _. unfold set_count. cbn [ad_count ad_records].
    split_and!; [|done|].
    + rewrite F1. rewrite wrap_small by lia. lia.
    + intros i Hir. rewrite <- F3 by lia. done.
Qed.

Lemma account_create_session name password administrator a :
  session_ok a -> wp (account_create name password administrator) (fun _ a' => session_ok a') a.
Proof.
  intros [Hc Hr Hi Hid]. wp_call account_create_spec; [lia|done|].
  intros ok a' (Hci & Hid' & Ht & _ & Hf). destruct ok.
  - destruct (Ht eq_refl) as (_ & _ & H8 & _ & Hd).
    destruct (new_account_facts name password administrator (database a)) as (F1 & F2 & _ & _ & F3 & _); [lia|done|].
    split; rewrite ?Hd, ?Hci, ?F1; try lia; try done. rewrite Hid', Hid, F3 by lia. done.
  - destruct (Hf eq_refl) as (F1 & F2 & F3).
    split; rewrite ?Hci, ?F1; try lia; try done. rewrite Hid', Hid, F3 by lia. done.
Qed.

(** The calls the terminal makes. *)
Inductive account_op :=
  | Login (name password : list Z)
  | Create (name password : list Z) (administrator : bool).

Definition run_account (op : account_op) : st (Accounts (D:=D) (H:=H)) bool :=
  match op with
  | Login name password => account_login name password
  | Create name password administrator => account_create name password administrator
  end.

Definition run_accounts (ops : list account_op) a : Accounts :=
  foldl (fun a op => (run_account op a).2) a ops.

Lemma run_accounts_session ops a : session_ok a -> session_ok (run_accounts ops a).
Proof.
  revert a. induction ops as [|op ops IH]; intros a Ha; [done|]. cbn [run_accounts foldl]. apply IH.
  destruct op; cbn [run_account]; [by apply account_login_session|by apply account_create_session].
Qed.

Lemma decode_database_records l : length (ad_records (decode_database l)) = 8%nat.
Proof. done. Qed.

Lemma account_init_session a a' : account_init a = (true, a') -> session_ok a'.
Proof.
  intros E. cut (wp account_init (fun ok a' => ok = true -> session_ok a') a).
  { unfold wp. rewrite E. cbn [fst snd]. auto. }
  clear E. unfold account_init. wp_step. apply wp_on_volume. unfold fs_set_identity. wp_steps.
  apply wp_on_volume, wp_keeps; [apply keeps_fs_read|]. intros loaded s' _.
  assert (Hfin : forall a, 2 <= ad_count (database a) <= 8 -> length (ad_records (database a)) = 8%nat ->
            wp (account_login EUNSEOKYANG [0]) (fun ok a' => ok = true -> session_ok a') a).
  { intros b Hc Hl. wp_call account_login_spec. intros ok b' (Hd & _ & Ht) Hok.
    destruct (Ht Hok) as (Hi & _ & _ & Hid). split; rewrite ?Hd; try done; lia. }
  assert (Hfresh : forall a, wp (set_database default_database ;;; saved <- save_database ;;
            if negb saved then ret false else account_login EUNSEOKYANG [0])
            (fun ok a' => ok = true -> session_ok a') a).
  { intros b. unfold set_database. wp_steps. wp_call save_database_frame. cbn [database].
    intros ok b' (Hd & _ & _). destruct ok; cbn [negb]; [|by apply wp_ret].
    apply Hfin; rewrite Hd; [cbn; lia|done]. }
  destruct loaded as [l|]; [|apply Hfresh]. case_if as E; [|apply Hfresh].
  unfold set_database. wp_steps. apply Hfin; [|done]. cbn [database].
  unfold database_valid, ACCOUNT_MAX in E. lia.
Qed.

(** [C27] The session is always that of an account: after a boot in which
    [account_init] succeeded, and after any logins and account creations,
    successful or not, the current index is one of the accounts, and the user and
    the privilege the file system checks are exactly those of that account. *)
Theorem account_session_sound ops a a' :
  account_init a = (true, a') -> session_ok (run_accounts ops a').
Proof. intros E. by apply run_accounts_session, (account_init_session a). Qed.


(** ** Creating an account and logging in to it *)

(** Names end inside their field, as in every database the kernel writes. *)
Record database_wf (d : AccountDatabase) : Prop := {
  wf_magic : length (ad_magic d) = 8%nat;
  wf_records : length (ad_records d) = 8%nat;
  wf_names : Forall (fun r => length (ar_name r) = 24%nat /\ (strlen (ar_name r) < 24)%nat) (ad_records d) }.

(** No two accounts share a name or a user id. *)
Definition distinct_accounts (d : AccountDatabase) : Prop :=
  (forall i j, 0 <= i < ad_count d -> 0 <= j < ad_count d -> name_at d i = name_at d j -> i = j) /\
  (forall i j, 0 <= i < ad_count d -> 0 <= j < ad_count d ->
     ar_uid (record_at d i) = ar_uid (record_at d j) -> i = j) /\
  (forall i, 0 <= i < ad_count d -> ar_uid (record_at d i) < 1000 + ad_count d).

Lemma cstr_app_terminated l l' : (strlen l < length l)%nat -> cstr (l ++ l') = cstr l.
Proof.
  induction l as [|c l IH]; intros Hl; [cbn in Hl; lia|]. cbn [app]. rewrite !cstr_cons.
  cbn [strlen length] in Hl. destruct (c =? 0); [done|]. f_equal. apply IH. lia.
Qed.

Lemma encode_record_length r : length (ar_name r) = 24%nat -> length (encode_record r) = 48%nat.
Proof. intros Hr. unfold encode_record. by rewrite !length_app, !length_le, Hr. Qed.

Lemma drop_records k (l : list AccountRecord) :
  Forall (fun r => length (ar_name r) = 24%nat) l ->
  drop (48 * k) (mjoin (encode_record <$> l)) = mjoin (encode_record <$> drop k l).
Proof.
  intros Hl. revert k. induction Hl as [|r l Hr Hl IH]; intros [|k]; try done.
  cbn [fmap list_fmap mjoin list_join drop]. rewrite drop_app_ge by (rewrite encode_record_length by done; lia).
  rewrite encode_record_length by done. replace (48 * S k - 48)%nat with (48 * k)%nat by lia. apply IH.
Qed.

Lemma name_at_wf d i :
  database_wf d -> 0 <= i < 8 -> name_at d i = cstr (ar_name (record_at d i)).
Proof.
  intros [Hm Hl Hn] Hi. unfold name_at, encode_database, RECORD_SIZE.
  rewrite !app_assoc, drop_app_ge by (rewrite !length_app, !length_le; lia).
  rewrite !length_app, !length_le, Hm.
  replace (16 + 48 * Z.to_nat i - (8 + 4 + 4))%nat with (48 * Z.to_nat i)%nat by lia.
  rewrite drop_records by (eapply Forall_impl; [exact Hn|]; cbn; tauto).
  destruct (lookup_lt_is_Some_2 (ad_records d) (Z.to_nat i)) as [r Hr]; [lia|].
  unfold record_at. rewrite nth_lookup, Hr. cbn [default].
  rewrite (drop_S _ _ _ Hr). cbn [fmap list_fmap mjoin list_join]. unfold encode_record.
  rewrite <- !app_assoc. apply cstr_app_terminated. rewrite Forall_forall in Hn.
  destruct (Hn r) as [H1 H2]; [by eapply list_elem_of_lookup_2|]. unfold id. lia.
Qed.

Lemma name_taken_spec n index name d :
  name_taken n index name d = false ->
  forall j, index <= j < index + Z.of_nat n -> cstr (name_at d j) <> cstr name.
Proof.
  revert index. induction n as [|n IH]; intros index Ht j Hj; [lia|]. cbn [name_taken] in Ht.
  destruct (strcmp (name_at d index) name =? 0) eqn:E; [done|].
  destruct (decide (j = index)) as [-> |]; [|apply (IH _ Ht); lia].
  rewrite <- strcmp_eq_zero. lia.
Qed.

Lemma new_name name :
  (strlen name <= 23)%nat ->
  let field := blit 0 (strncpy name 23) (replicate 24 0) in
  length field = 24%nat /\ (strlen field < 24)%nat /\ cstr field = cstr name.
Proof.
  intros Hn field. assert (E : field = strncpy name 23 ++ [0]).
  { unfold field, blit. rewrite length_strncpy. done. }
  rewrite E. assert (Hc : cstr (strncpy name 23 ++ [0]) = cstr name) by (by apply cstr_strncpy).
  rewrite length_app, length_strncpy. split_and!; [done| |done].
  rewrite <- length_cstr, Hc, length_cstr. lia.
Qed.

Lemma new_account_wf name password administrator d :
  database_wf d -> 0 <= ad_count d < 8 -> (strlen name <= 23)%nat ->
  database_wf (new_account name password administrator d).
Proof.
  intros Hwf Hc Hn. pose proof Hwf as [Hm Hl Hnm].
  destruct (new_account_facts name password administrator d) as (F1 & F2 & F3 & F4 & F5 & F6 & _); [lia|done|].
  split; [by rewrite F3|done|]. apply Forall_lookup. intros i r Hr.
  assert (Hi : (i < 8)%nat) by (apply lookup_lt_Some in Hr; lia).
  assert (Er : record_at (new_account name password administrator d) (Z.of_nat i) = r).
  { unfold record_at. by rewrite Nat2Z.id, nth_lookup, Hr. }
  destruct (decide (Z.of_nat i = ad_count d)) as [E|E].
  - rewrite <- Er, E, F6. destruct (new_name name Hn) as (? & ? & _). done.
  - rewrite <- Er, F5 by lia. unfold record_at. rewrite Nat2Z.id, nth_lookup.
    destruct (lookup_lt_is_Some_2 (ad_records d) i) as [r' Hr']; [lia|]. rewrite Hr'. cbn.
    by apply (Forall_lookup_1 _ _ _ _ Hnm Hr').
Qed.

Lemma new_account_names name password administrator d :
  database_wf d -> 0 <= ad_count d < 8 -> (strlen name <= 23)%nat ->
  let d' := new_account name password administrator d in
  name_at d' (ad_count d) = cstr name /\ forall i, 0 <= i < ad_count d -> name_at d' i = name_at d i.
Proof.
  intros Hwf Hc Hn d'. pose proof (new_account_wf name password administrator d Hwf Hc Hn) as Hwf'.
  destruct (new_account_facts name password administrator d) as (F1 & F2 & F3 & F4 & F5 & F6 & _); [lia|apply Hwf|].
  split.
  - unfold d'. rewrite name_at_wf, F6 by (try done; lia). by apply new_name.
  - intros i Hi. unfold d'. rewrite !name_at_wf, F5 by (try done; lia). done.
Qed.

Lemma new_account_distinct name password administrator d :
  database_wf d -> 0 <= ad_count d < 8 -> (strlen name <= 23)%nat -> distinct_accounts d ->
  name_taken (Z.to_nat (ad_count d)) 0 name d = false ->
  distinct_accounts (new_account name password administrator d).
Proof.
  intros Hwf Hc Hn (Hd1 & Hd2 & Hd3) Ht.
  destruct (new_account_facts name password administrator d) as (F1 & F2 & F3 & F4 & F5 & F6 & F7 & _); [lia|apply Hwf|].
  destruct (new_account_names name password administrator d Hwf Hc Hn) as [N1 N2].
  assert (Hfresh : forall j, 0 <= j < ad_count d -> name_at d j <> cstr name).
  { intros j Hj E. apply (name_taken_spec _ _ _ _ Ht j); [lia|]. rewrite E. apply cstr_cstr. }
  unfold distinct_accounts. rewrite F1. split_and!.
  - intros i j Hi Hj E. destruct (decide (i = ad_count d)) as [-> |Ni], (decide (j = ad_count d)) as [-> |Nj]; [done| | |].
    + rewrite N1, N2 in E by lia. by destruct (Hfresh j ltac:(lia)).
    + rewrite N1, N2 in E by lia. by destruct (Hfresh i ltac:(lia)).
    + rewrite !N2 in E by lia. apply Hd1; [lia|lia|done].
  - intros i j Hi Hj E. destruct (decide (i = ad_count d)) as [-> |Ni], (decide (j = ad_count d)) as [-> |Nj]; [done| | |].
    + rewrite F7, F5 in E by lia. specialize (Hd3 j). lia.
    + rewrite F7, F5 in E by lia. specialize (Hd3 i). lia.
    + rewrite !F5 in E by lia. apply Hd2; [lia|lia|done].
  - intros i Hi. destruct (decide (i = ad_count d)) as [-> |Ni]; [lia|]. rewrite F5 by lia. specialize (Hd3 i). lia.
Qed.

(** Creating an account: it is refused, with nothing changed, unless the
    current account is an administrator's; when it succeeds, the existing accounts
    are untouched, names and user ids stay pairwise different, and logging in with
    the new name and password succeeds and gives the file system the new user id
    and exactly the privilege asked for. *)
Theorem account_create_login name password administrator a ok a' :
  database_wf (database a) -> 0 <= ad_count (database a) -> distinct_accounts (database a) ->
  account_create name password administrator a = (ok, a') ->
  (account_current_is_admin a = false -> ok = false /\ a' = a) /\
  (ok = true -> distinct_accounts (database a') /\ database_wf (database a') /\
     ad_count (database a') = ad_count (database a) + 1 /\
     (forall i, 0 <= i < ad_count (database a) ->
        record_at (database a') i = record_at (database a) i /\ name_at (database a') i = name_at (database a) i) /\
     exists a'', account_login name password a' = (true, a'') /\ account_current_name a'' = cstr name /\
       ident (volume a'') = (1000 + ad_count (database a), administrator)).
Proof.
  intros Hwf Hc Hd E.
  pose proof (account_create_spec name password administrator a Hc ltac:(apply Hwf)) as Hs.
  unfold wp in Hs. rewrite E in Hs. cbn [fst snd] in Hs. destruct Hs as (_ & _ & Ht & Hna & _).
  split; [done|]. intros Hok. destruct (Ht Hok) as (_ & Hvn & H8 & Htk & Hda). clear Ht Hna E.
  assert (Hn : (strlen name <= 23)%nat).
  { unfold valid_account_name, ACCOUNT_NAME_MAX in Hvn. destruct (_ || _)%bool eqn:E in Hvn; [done|]. lia. }
  set (d := database a) in *.
  destruct (new_account_facts name password administrator d) as (F1 & F2 & F3 & F4 & F5 & F6 & F7 & F8 & F9 & _); [lia|apply Hwf|].
  destruct (new_account_names name password administrator d Hwf ltac:(lia) Hn) as [N1 N2].
  pose proof (new_account_distinct name password administrator d Hwf ltac:(lia) Hn Hd Htk) as Hd'.
  rewrite Hda. split_and!; try done; [by apply new_account_wf|intros i Hi; split; [apply F5; lia|by apply N2]|].
  pose proof (account_login_spec name password a') as Hl. unfold wp in Hl.
  destruct (account_login name password a') as [ok2 a2] eqn:El. cbn [fst snd] in Hl. destruct Hl as (Hdb & Hf & Hs).
  rewrite Hda in Hs. destruct ok2.
  - destruct (Hs eq_refl) as (Hi & Hnm & _ & Hid). rewrite F1 in Hi.
    assert (Hidx : current_index a2 = ad_count d).
    { apply strcmp_eq_zero in Hnm. apply (proj1 Hd'); [by rewrite F1|rewrite F1; lia|].
      rewrite N1. rewrite <- Hnm. unfold name_at at 2. by rewrite cstr_cstr. }
    exists a2. split_and!; [done| |].
    + unfold account_current_name. rewrite (proj2 (Z.leb_le 0 (current_index a2))) by lia.
      by rewrite Hdb, Hda, Hidx.
    + rewrite Hid, Hidx, F7. unfold is_admin. rewrite F8. by destruct administrator.
  - exfalso. unfold account_login, bind, gets in El. rewrite Hda in El.
    pose proof (login_search_spec (Z.to_nat (ad_count (new_account name password administrator d))) 0 name password
      (new_account name password administrator d)) as Hls.
    destruct (login_search _ _ _ _ _) as [i|].
    + by destruct a'.
    + apply (Hls (ad_count d)); [rewrite F1; lia|]. split; [|done]. apply strcmp_eq_zero. rewrite N1. apply cstr_cstr.
Qed.

End session.
