(* ===== verification/AccountStore.v ===== *)
(** * kernel/account.c: the database on disk

    What [account_create] saves is what [account_init] loads after the next boot,
    and what happens to the identity when [account_init] fails. *)

From S2P Require Import Prelude Runtime Heap Interfaces RamDisk Filesystem.
From S2P Require Import FsNames FsFrame FsTree FsData FsVolume FsRefine FsTheorems Account.

(** ** The packed format *)

(** The fields fit their C types. *)
Definition record_sized (r : AccountRecord) : Prop :=
  length (ar_name r) = 24%nat /\ bytes (ar_name r) /\ 0 <= ar_uid r < 2 ^ 32 /\ 0 <= ar_flags r < 2 ^ 32 /\
  0 <= ar_salt r < 2 ^ 64 /\ 0 <= ar_password_hash r < 2 ^ 64.

Record database_sized (d : AccountDatabase) : Prop := {
  sz_magic : ad_magic d = ACCOUNT_MAGIC;
  sz_version : ad_version d = 1;
  sz_count : 0 <= ad_count d < 2 ^ 32;
  sz_length : length (ad_records d) = 8%nat;
  sz_records : Forall record_sized (ad_records d) }.

Lemma decode_encode_record r : record_sized r -> decode_record (encode_record r) = r.
Proof.
  intros (Hn & _ & Hu & Hf & Hs & Hp). unfold decode_record, encode_record, field. slices.
  rewrite !of_le_le_small by (cbn; lia). by destruct r.
Qed.

Lemma join_records_cons r l :
  mjoin (encode_record <$> r :: l) = encode_record r ++ mjoin (encode_record <$> l).
Proof. done. Qed.

Lemma length_account_records (l : list AccountRecord) :
  Forall record_sized l -> length (mjoin (encode_record <$> l)) = (48 * length l)%nat.
Proof.
  induction 1 as [|r l Hr Hl IH]; [done|].
  rewrite join_records_cons, length_app, IH, encode_record_length by apply Hr. cbn [length]. lia.
Qed.

Lemma encode_database_length d : database_sized d -> length (encode_database d) = 400%nat.
Proof.
  intros [Hm _ _ Hl Hr]. unfold encode_database.
  rewrite !length_app, !length_le, length_account_records, Hl, Hm by done. done.
Qed.

Lemma encode_record_bytes r : record_sized r -> bytes (encode_record r).
Proof. intros (_ & Hb & _). unfold encode_record. rewrite !bytes_app. auto with nova. Qed.

Lemma encode_database_bytes d : database_sized d -> bytes (encode_database d).
Proof.
  intros [Hm _ _ _ Hr]. unfold encode_database. rewrite !bytes_app. split_and!; auto with nova.
  - rewrite Hm. repeat (apply Forall_cons; split; [unfold is_byte; lia|]). constructor.
  - induction Hr as [|r l Hr Hl IH]; [constructor|]. rewrite join_records_cons.
    apply bytes_app. split; [by apply encode_record_bytes|exact IH].
Qed.

(** What is written is what is read. *)
Lemma decode_encode_database d : database_sized d -> decode_database (encode_database d) = d.
Proof.
  intros [Hm Hv Hc Hl Hr].
  assert (H24 : Forall (fun r => length (ar_name r) = 24%nat) (ad_records d)).
  { eapply Forall_impl; [exact Hr|]. intros r Hr'. apply Hr'. }
  assert (Hrec : forall i r, ad_records d !! i = Some r ->
            decode_record (slice (16 + RECORD_SIZE * i) RECORD_SIZE (encode_database d)) = r).
  { intros i r Hi. unfold slice, encode_database, RECORD_SIZE.
    rewrite !app_assoc, drop_app_ge by (rewrite !length_app, !length_le, Hm; cbn; lia).
    rewrite !length_app, !length_le, Hm.
    replace (16 + 48 * i - (length ACCOUNT_MAGIC + 4 + 4))%nat with (48 * i)%nat by (cbn; lia).
    rewrite drop_records, (drop_S _ _ _ Hi) by done. rewrite join_records_cons.
    pose proof (Forall_lookup_1 _ _ _ _ Hr Hi) as Hs.
    rewrite take_app_length' by (symmetry; apply encode_record_length, Hs). by apply decode_encode_record. }
  unfold decode_database. destruct d as [magic version count records]. cbn [ad_magic ad_version ad_count ad_records] in *.
  assert (Lm : length magic = 8%nat) by (by rewrite Hm).
  f_equal.
  - unfold encode_database. cbn [ad_magic]. by slices.
  - unfold encode_database, field. cbn [ad_magic ad_version]. slices. by rewrite of_le_le_small by (cbn; lia).
  - unfold encode_database, field. cbn [ad_magic ad_version ad_count]. slices. by rewrite of_le_le_small by (cbn; lia).
  - apply list_eq_same_length with (n:=8%nat); [done|by rewrite length_fmap, length_seq|].
    intros i x y Hi Hx Hy. rewrite list_lookup_fmap in Hx. rewrite lookup_seq_lt in Hx by (unfold ACCOUNT_MAX; lia).
    cbn [fmap option_fmap option_map] in Hx. injection Hx as <-. by apply Hrec.
Qed.

(** ** Saving and loading *)

Section store.
Context {D H : Type} `{!BlockDevice D} `{!Allocator H}.
Implicit Types (s : FsState (D:=D) (H:=H)) (a : Accounts (D:=D) (H:=H)).

(** [users.db] is not a symbolic link. *)
Definition plain_database s : Prop :=
  forall n, view s USERS_DB = Some n -> n_type n <> FS_TYPE_SYMLINK.

(** The volume holds the database [d] in [users.db]. *)
Definition stored (d : AccountDatabase) (v : Volume) : Prop :=
  exists n, v USERS_DB = Some n /\ n_type n = FS_TYPE_FILE /\ n_data n = encode_database d.

Lemma save_database_stored a :
  volume_ok (volume a) -> plain_database (volume a) -> database_sized (database a) ->
  wp save_database (fun ok a' => ok = true -> volume_ok (volume a') /\ stored (database a) (view (volume a'))) a.
Proof.
  intros Hv Hp Hd. unfold save_database. wp_steps. apply wp_on_volume.
  pose proof (write_refines USERS_DB (encode_database (database a)) (volume a) Hv (encode_database_bytes _ Hd)) as Hw.
  rewrite encode_database_length in Hw by done. specialize (Hw ltac:(lia)).
  unfold refines in Hw. cbn [run_op] in Hw. eapply wp_mono; [exact Hw|]. cbn beta. clear Hw.
  intros ok s1 Hok. case_if as E; [|by apply wp_ret]. subst ok. destruct (Hok eq_refl) as (Hv1 & p & Ht & Hspec).
  assert (Hs1 : stored (database a) (view s1)).
  { assert (p = cstr USERS_DB) as ->.
    { unfold write_target in Ht. destruct (view (volume a) USERS_DB) as [n|] eqn:En; [|done].
      specialize (Hp n En). destruct (n_type n =? FS_TYPE_SYMLINK) eqn:Et; [lia|done]. }
    destruct (view (volume a) (cstr USERS_DB)) as [n|].
    - destruct Hspec as (_ & _ & Hup). eexists. rewrite (Hup USERS_DB), decide_True by done. done.
    - destruct Hspec as (_ & Hup). eexists. rewrite (Hup USERS_DB), decide_True by done. done. }
  apply wp_on_volume. cbn [volume].
  pose proof (chmod_refines USERS_DB 0x180 s1 Hv1 ltac:(lia)) as Hc. unfold refines in Hc. cbn [run_op] in Hc.
  eapply wp_mono; [exact Hc|]. cbn beta. intros ok s2 Hok2 E. destruct (Hok2 E) as (Hv2 & n & Hn & _ & _ & Hup).
  split; [done|]. destruct Hs1 as (n' & Hn' & Hty & Hdt). assert (n' = n) as -> by congruence.
  eexists. cbn [volume]. rewrite (Hup USERS_DB), decide_True by done. split_and!; try done.
Qed.

(** Loading: with the privileges [account_init] gives itself, the file is read back. *)
Lemma load_database d a :
  volume_ok (volume a) -> working (volume a) -> database_sized d -> stored d (view (volume a)) ->
  2 <= ad_count d <= 8 ->
  wp account_init (fun _ a' => database a' = d) a.
Proof.
  intros Hv Hwk Hd (n & Hn & Hty & Hdt) Hc. unfold account_init. wp_step. apply wp_on_volume.
  unfold fs_set_identity. wp_steps. apply wp_on_volume. cbn [database current_index volume].
  apply view_Some in Hn as (i & e & He & ->). cbn [n_type n_data node_of] in Hty, Hdt.
  set (s := with_identity 0 true (volume a)).
  destruct (fs_read_total USERS_DB DATABASE_SIZE s i e) as [s' Hr]; try done.
  { destruct Hv as [(_ & Hm & Htr) Hcn Hl Hmir Hsup]. constructor; try done. }
  unfold wp at 1. rewrite Hr. cbn [fst snd n_data node_of]. change (disk s) with (disk (volume a)). rewrite Hdt.
  rewrite take_ge by (rewrite encode_database_length by done; unfold DATABASE_SIZE; lia).
  rewrite encode_database_length, decode_encode_database by done.
  assert (Hval : database_valid d = true).
  { unfold database_valid, ACCOUNT_MAX. rewrite (sz_magic _ Hd), (sz_version _ Hd).
    rewrite bool_decide_true by done. lia. }
  rewrite Hval. change (Z.of_nat 400 =? DATABASE_SIZE) with true. cbn [andb].
  unfold set_database. wp_steps. wp_call account_login_spec. cbn [database]. tauto.
Qed.

Lemma hash_step_bound h c : 0 <= hash_step h c < 2 ^ 64.
Proof. apply (wrap_bound 64). lia. Qed.

Lemma salt_bound uid n : 0 <= uid -> 0 <= n < 2 ^ 64 ->
  0 <= Z.lxor (Z.lxor 0x4E4F564100000000 (u64 (Z.shiftl uid 17))) n < 2 ^ 64.
Proof.
  intros Hu Hn. assert (Hlx : forall x y, 0 <= x < 2 ^ 64 -> 0 <= y < 2 ^ 64 -> 0 <= Z.lxor x y < 2 ^ 64).
  { intros x y Hx Hy. split; [apply Z.lxor_nonneg; lia|].
    destruct (decide (Z.lxor x y = 0)) as [-> |]; [lia|].
    assert (0 <= Z.lxor x y) by (apply Z.lxor_nonneg; lia).
    apply Z.log2_lt_pow2; [lia|]. eapply Z.le_lt_trans; [apply Z.log2_lxor; lia|].
    apply Z.max_lub_lt; (destruct (decide (x = 0)) as [-> |], (decide (y = 0)) as [-> |];
      cbn [Z.log2]; try lia; apply Z.log2_lt_pow2; lia). }
  apply Hlx; [apply Hlx; [lia|apply (wrap_bound 64); lia]|done].
Qed.

Lemma bytes_strncpy l n : bytes l -> bytes (strncpy l n).
Proof.
  revert l. induction n as [|n IH]; intros l Hl; [constructor|].
  change (strncpy l (S n)) with (if char_at l =? 0 then replicate (S n) 0 else char_at l :: strncpy (tail l) n).
  case_if as E; [apply bytes_zeroes|]. destruct l as [|c l]; [done|]. apply Forall_cons in Hl as [Hc Hl].
  constructor; [done|by apply IH].
Qed.

Lemma new_account_sized name password administrator d :
  database_sized d -> 0 <= ad_count d < 8 -> bytes name -> (strlen name <= 23)%nat ->
  database_sized (new_account name password administrator d).
Proof.
  intros Hd Hc Hb Hn. pose proof Hd as [Hm Hv _ Hl Hr].
  destruct (new_account_facts name password administrator d) as (F1 & F2 & F3 & F4 & F5 & F6 & F7 & F8 & F9 & F10); [lia|done|].
  split; [congruence|congruence|lia|done|]. apply Forall_lookup. intros i r Hi.
  assert (H8 : (i < 8)%nat) by (apply lookup_lt_Some in Hi; lia).
  assert (Er : record_at (new_account name password administrator d) (Z.of_nat i) = r).
  { unfold record_at. by rewrite Nat2Z.id, nth_lookup, Hi. }
  destruct (decide (Z.of_nat i = ad_count d)) as [E|E].
  - rewrite E in Er. rewrite Er in *. destruct (new_name name Hn) as (L1 & _).
    assert (Hsalt : 0 <= ar_salt r < 2 ^ 64).
    { rewrite F10. apply salt_bound; lia. }
    unfold record_sized. rewrite F6, F7, F8, F9. split_and!; try done; try lia.
    + apply bytes_blit; [by apply bytes_strncpy|apply bytes_zeroes].
    + destruct administrator; unfold ACCOUNT_ADMIN; lia.
    + destruct administrator; unfold ACCOUNT_ADMIN; lia.
    + apply hash_step_bound.
    + apply hash_step_bound.
  - rewrite <- Er, F5 by lia. unfold record_at. rewrite Nat2Z.id, nth_lookup.
    destruct (lookup_lt_is_Some_2 (ad_records d) i) as [r' Hr']; [lia|]. rewrite Hr'. cbn.
    by apply (Forall_lookup_1 _ _ _ _ Hr Hr').
Qed.

(** A successful creation leaves the new database on a consistent volume. *)
Lemma account_create_stored name password administrator a a' :
  volume_ok (volume a) -> plain_database (volume a) -> database_sized (database a) ->
  0 <= ad_count (database a) -> bytes name ->
  account_create name password administrator a = (true, a') ->
  volume_ok (volume a') /\ stored (database a') (view (volume a')) /\ database_sized (database a') /\
  ad_count (database a') = ad_count (database a) + 1 /\ ad_count (database a') <= 8.
Proof.
  intros Hv Hp Hd Hc Hb E.
  pose proof (account_create_spec name password administrator a Hc ltac:(apply Hd)) as Hs.
  unfold wp in Hs. rewrite E in Hs. cbn [fst snd] in Hs. destruct Hs as (_ & _ & Ht & _ & _).
  destruct (Ht eq_refl) as (_ & Hvn & H8 & _ & Hda).
  assert (Hn : (strlen name <= 23)%nat).
  { unfold valid_account_name, ACCOUNT_NAME_MAX in Hvn. destruct (_ || _)%bool eqn:E' in Hvn; [done|]. lia. }
  destruct (new_account_facts name password administrator (database a)) as (F1 & _); [lia|apply Hd|].
  pose proof (new_account_sized name password administrator (database a) Hd ltac:(lia) Hb Hn) as Hd'.
  rewrite Hda, F1. cut (volume_ok (volume a') /\
    stored (new_account name password administrator (database a)) (view (volume a'))).
  { intros [? ?]. split_and!; try done. lia. }
  unfold account_create, bind at 1, gets in E. unfold id in E. cbv zeta in E.
  destruct (_ || (Z.of_nat ACCOUNT_MAX <=? _))%bool in E; [discriminate E|].
  destruct (name_taken _ _ _ _) in E; [discriminate E|].
  unfold bind at 1, set_database at 1, modify in E.
  set (a1 := mkAccounts _ _ _) in E.
  pose proof (save_database_stored a1 Hv Hp Hd') as Hsv. unfold wp in Hsv. unfold bind at 1 in E.
  destruct (save_database a1) as [ok a2]. cbn [fst snd] in Hsv. destruct ok; cbn [negb] in E.
  - injection E as <-. by apply Hsv.
  - discriminate E.
Qed.

(** Accounts survive a reboot: when [account_create] succeeds on a consistent
    volume, any later boot that mounts a volume with the same files, with a working
    disk and memory, loads exactly the database the kernel had, new account
    included, whatever was in memory before. *)
Theorem account_persistent name password administrator a a' a0 :
  volume_ok (volume a) -> plain_database (volume a) -> database_sized (database a) ->
  2 <= ad_count (database a) -> bytes name ->
  account_create name password administrator a = (true, a') ->
  volume_ok (volume a0) -> working (volume a0) -> unchanged (view (volume a')) (view (volume a0)) ->
  database (account_init a0).2 = database a' /\ ad_count (database a') = ad_count (database a) + 1.
Proof.
  intros Hv Hp Hd Hc Hb E Hv0 Hw0 Hun.
  destruct (account_create_stored name password administrator a a') as (_ & (n & Hn & Hty & Hdt) & Hd' & Hcnt & H8);
    try done; [lia|].
  split; [|done]. apply (load_database _ a0); try done; [|lia]. exists n. by rewrite (Hun USERS_DB).
Qed.

End store.

(** ** When [account_init] fails *)

(** A failed [account_init] leaves root behind: when the database on disk is
    valid but has no account "eunseokyang" with the empty password, [account_init]
    returns false with the file system identity still user 0, privileged, which it
    took to read the file, and with no current account. *)
Theorem account_init_failure_root {D H} `{!BlockDevice D} `{!Allocator H} (a : Accounts (D:=D) (H:=H)) l s' :
  fs_read USERS_DB DATABASE_SIZE (with_identity 0 true (volume a)) = (Some l, s') ->
  Z.of_nat (length l) = DATABASE_SIZE -> database_valid (decode_database l) = true ->
  login_search (Z.to_nat (ad_count (decode_database l))) 0 EUNSEOKYANG [0] (decode_database l) = None ->
  exists a', account_init a = (false, a') /\ ident (volume a') = (0, true) /\ current_index a' = current_index a.
Proof.
  intros Hr Hl Hv Hs.
  assert (Hid : ident s' = (0, true)).
  { pose proof (keeps_fs_read (D:=D) (H:=H) USERS_DB DATABASE_SIZE (with_identity 0 true (volume a))) as Hk.
    by rewrite Hr in Hk. }
  exists (mkAccounts (decode_database l) (current_index a) s'). split_and!; [|done|done].
  unfold account_init, bind, on_volume, fs_set_identity, modify. cbn [volume database current_index].
  rewrite Hr, Hv, (proj2 (Z.eqb_eq _ _) Hl). cbn [andb]. unfold set_database, modify, account_login, bind, gets.
  cbn [database]. by rewrite Hs.
Qed.

(** A volume whose database has the accounts "root" and "guest" only. *)
Definition guest_database : AccountDatabase :=
  add_default 1 [103; 117; 101; 115; 116; 0] 1000 [0] false
    (add_default 0 ROOT 0 NOVA true (mkDatabase ACCOUNT_MAGIC 1 2 (replicate ACCOUNT_MAX zero_record))).

Definition boot (s : FsState (D:=RamDisk) (H:=Heap)) : Accounts := mkAccounts zero_database (-1) s.

Definition guest_fs : FsState (D:=RamDisk) (H:=Heap) :=
  (fs_write USERS_DB (encode_database guest_database) empty_fs).2.

Lemma account_init_failure_root_witness :
  exists a', account_init (boot guest_fs) = (false, a') /\ ident (volume a') = (0, true) /\ current_index a' = -1.
Proof.
  apply (account_init_failure_root (boot guest_fs) (encode_database guest_database)
    (fs_read USERS_DB DATABASE_SIZE (with_identity 0 true guest_fs)).2).
  - apply pair_fst. by vm_compute.
  - by vm_compute.
  - by vm_compute.
  - by vm_compute.
Defined.

(** ** Witnesses *)

(** The first boot on an empty volume, and root logged in after it. *)
Definition first_boot : Accounts := (account_init (boot empty_fs)).2.
Definition root_session : Accounts := (account_login ROOT NOVA first_boot).2.
Definition alice : list Z := [97; 108; 105; 99; 101; 0].

Lemma account_session_sound_witness : session_ok (run_accounts [Login ROOT NOVA; Create alice alice false] first_boot).
Proof.
  unfold first_boot.
  apply (account_session_sound [Login ROOT NOVA; Create alice alice false] (boot empty_fs)).
  apply pair_fst. by vm_compute.
Defined.

Lemma first_boot_database : database root_session = default_database.
Proof. vm_compute. reflexivity. Qed.

Lemma default_wf : database_wf default_database.
Proof. split; [done|done|]. apply Forall_forall. vm_compute. intros r Hr. set_unfold. naive_solver lia. Qed.

Lemma default_distinct : distinct_accounts default_database.
Proof.
  assert (H2 : forall i, 0 <= i < ad_count default_database -> i = 0 \/ i = 1) by (cbn; lia).
  split_and!.
  - intros i j Hi Hj. destruct (H2 i Hi) as [-> | ->], (H2 j Hj) as [-> | ->]; try done; by vm_compute.
  - intros i j Hi Hj. destruct (H2 i Hi) as [-> | ->], (H2 j Hj) as [-> | ->]; try done; by vm_compute.
  - intros i Hi. destruct (H2 i Hi) as [-> | ->]; by vm_compute.
Qed.

Lemma account_create_login_witness :
  exists a'', account_login alice alice (account_create alice alice false root_session).2 = (true, a'') /\
    account_current_name a'' = cstr alice /\ ident (volume a'') = (1002, false).
Proof.
  destruct (account_create_login alice alice false root_session true (account_create alice alice false root_session).2)
    as [_ Hok].
  - rewrite first_boot_database. apply default_wf.
  - rewrite first_boot_database. by vm_compute.
  - rewrite first_boot_database. apply default_distinct.
  - apply pair_fst. by vm_compute.
  - destruct (Hok eq_refl) as (_ & _ & _ & _ & a'' & H1 & H2 & H3). exists a''. split_and!; [exact H1|exact H2|].
    rewrite H3, first_boot_database. reflexivity.
Defined.

(** Root creates an account on an empty volume; the machine is then restarted. *)
Definition root_on_empty : Accounts := mkAccounts default_database 0 empty_fs.
Definition with_alice : Accounts := (account_create alice alice false root_on_empty).2.

Lemma default_sized : database_sized default_database.
Proof.
  split; [done|done|cbn; lia|done|]. apply Forall_forall. intros r Hr.
  assert (Hb : forallb (fun r => ((length (ar_name r) =? 24)%nat && forallb (fun c => (0 <=? c) && (c <? 256)) (ar_name r) &&
      (0 <=? ar_uid r) && (ar_uid r <? 2 ^ 32) && (0 <=? ar_flags r) && (ar_flags r <? 2 ^ 32) &&
      (0 <=? ar_salt r) && (ar_salt r <? 2 ^ 64) && (0 <=? ar_password_hash r) && (ar_password_hash r <? 2 ^ 64))%bool)
    (ad_records default_database) = true) by (by vm_compute).
  rewrite forallb_forall in Hb. specialize (Hb r ltac:(by apply list_elem_of_In)).
  rewrite !andb_true_iff in Hb. unfold record_sized. destruct_and! Hb. split_and!; try lia.
  apply Forall_forall. intros c Hc. rewrite list_elem_of_In in Hc.
  match goal with H : forallb _ _ = true |- _ => rewrite forallb_forall in H; specialize (H c Hc) end.
  unfold is_byte. lia.
Qed.

Lemma with_alice_created : account_create alice alice false root_on_empty = (true, with_alice).
Proof. unfold with_alice. apply pair_fst. by vm_compute. Qed.

Lemma with_alice_heap : heap (volume with_alice) = heap empty_fs.
Proof. vm_compute. reflexivity. Qed.

Lemma plain_empty : plain_database empty_fs.
Proof. intros n. vm_compute. discriminate. Qed.

Lemma alice_bytes : bytes alice.
Proof. repeat (apply Forall_cons; split; [unfold is_byte; lia|]). constructor. Qed.

Lemma with_alice_ok : volume_ok (volume with_alice).
Proof.
  exact (proj1 (account_create_stored alice alice false root_on_empty with_alice empty_fs_ok plain_empty
    default_sized ltac:(cbn; lia) alice_bytes with_alice_created)).
Qed.

Lemma boot_volume s : volume (boot s) = s.
Proof. done. Qed.

Lemma account_persistent_witness :
  database (account_init (boot (volume with_alice))).2 = database with_alice /\ ad_count (database with_alice) = 3.
Proof.
  apply (account_persistent alice alice false root_on_empty with_alice (boot (volume with_alice))).
  - apply empty_fs_ok.
  - apply plain_empty.
  - apply default_sized.
  - by vm_compute.
  - apply alice_bytes.
  - apply with_alice_created.
  - rewrite boot_volume. exact with_alice_ok.
  - destruct empty_fs_working as [Hh Hr]. rewrite boot_volume. split; [done|].
    unfold heap_room. rewrite with_alice_heap. exact Hr.
  - rewrite boot_volume. intros p. reflexivity.
Defined.
