(* ===== verification/Compiler.v ===== *)
(** * kernel/compiler.c: NovaCC, the built-in compiler

    The compiler accepts programs with at most one [print] statement and one
    [return] statement, and writes an ELF executable to the volume. *)

From S2P Require Import Prelude Runtime Interfaces Filesystem.

Definition USER_ENTRY : Z := 0x40001000.
Definition ELF_CODE_OFFSET : Z := 4096.

Record ElfHeader := mkElf {
  eh_magic : list Z; eh_type : Z; eh_machine : Z; eh_version : Z; eh_entry : Z;
  eh_program_header_offset : Z; eh_section_header_offset : Z; eh_flags : Z; eh_header_size : Z;
  eh_program_header_size : Z; eh_program_header_count : Z; eh_section_header_size : Z;
  eh_section_header_count : Z; eh_section_name_index : Z }.

Record ProgramHeader := mkProgram {
  ph_type : Z; ph_flags : Z; ph_offset : Z; ph_virtual_address : Z; ph_physical_address : Z;
  ph_file_size : Z; ph_memory_size : Z; ph_alignment : Z }.

(** [sizeof(ElfHeader)] and [sizeof(ProgramHeader)] *)
Definition ELF_HEADER_SIZE : Z := 64.
Definition PROGRAM_HEADER_SIZE : Z := 56.

Definition encode_elf_header (h : ElfHeader) : list Z :=
  eh_magic h ++ le 2 (eh_type h) ++ le 2 (eh_machine h) ++ le 4 (eh_version h) ++ le 8 (eh_entry h) ++
  le 8 (eh_program_header_offset h) ++ le 8 (eh_section_header_offset h) ++ le 4 (eh_flags h) ++
  le 2 (eh_header_size h) ++ le 2 (eh_program_header_size h) ++ le 2 (eh_program_header_count h) ++
  le 2 (eh_section_header_size h) ++ le 2 (eh_section_header_count h) ++ le 2 (eh_section_name_index h).

Definition encode_program_header (p : ProgramHeader) : list Z :=
  le 4 (ph_type p) ++ le 4 (ph_flags p) ++ le 8 (ph_offset p) ++ le 8 (ph_virtual_address p) ++
  le 8 (ph_physical_address p) ++ le 8 (ph_file_size p) ++ le 8 (ph_memory_size p) ++ le 8 (ph_alignment p).

(** ** The parser

    A pointer into the source is the list of the characters from there on; past the
    last one there is the NUL. *)

Fixpoint find_text (source needle : list Z) : option (list Z) :=
  match source with
  | [] => None
  | c :: rest =>
      if c =? 0 then None
      else if strncmp source needle (strlen needle) =? 0 then Some source
      else find_text rest needle
  end.

(** [while ( *position == ' ' || *position == '\t') position++;] *)
Fixpoint skip_blanks (position : list Z) : list Z :=
  match position with
  | c :: rest => if ((c =? 32) || (c =? 9))%bool then skip_blanks rest else position
  | [] => []
  end.

Definition is_digit (c : Z) : bool := ((48 <=? c) && (c <=? 57))%bool.

(** The loop over the digits: the number and the position after it, or [None] for
    its [return false]. *)
Fixpoint parse_digits (position : list Z) (result : Z) : option (Z * list Z) :=
  match position with
  | c :: rest =>
      if is_digit c then
        if 100000000 <? result then None else parse_digits rest (s32 (result * 10 + (c - 48)))
      else Some (result, position)
  | [] => Some (result, [])
  end.

Definition parse_return (source : list Z) : option Z :=
  match find_text source (text "return") with
  | None => None
  | Some position =>
      let position := skip_blanks (drop 6 position) in
      let negative := char_at position =? 45 in
      let position := if negative then tail position else position in
      if negb (is_digit (char_at position)) then None else
      match parse_digits position 0 with
      | None => None
      | Some (result, position) =>
          if negb (char_at (skip_blanks position) =? 59) then None
          else Some (if negative then s32 (- result) else result)
      end
  end.

(** The loop over the characters of the literal: the message and the position of
    the closing quote or the NUL, or [None] for a [return false]. *)
Fixpoint print_chars (position : list Z) (capacity : Z) (message : list Z) : option (list Z * list Z) :=
  match position with
  | [] => Some (message, [])
  | c :: rest =>
      if ((c =? 0) || (c =? 34))%bool then Some (message, position) else
      if c =? 92 then
        match rest with
        | e :: rest =>
            if e =? 110 then
              if capacity <=? Z.of_nat (length message) + 1 then None
              else print_chars rest capacity (message ++ [10])
            else if ((e =? 34) || (e =? 92))%bool then
              if capacity <=? Z.of_nat (length message) + 1 then None
              else print_chars rest capacity (message ++ [e])
            else None
        | [] => None
        end
      else if capacity <=? Z.of_nat (length message) + 1 then None
      else print_chars rest capacity (message ++ [c])
  end.

Definition parse_print (source : list Z) (capacity : Z) : option (list Z) :=
  match find_text source (text "print") with
  | None => Some []
  | Some position =>
      let position := skip_blanks (drop 5 position) in
      if negb (char_at position =? 40) then None else
      let position := skip_blanks (tail position) in
      if negb (char_at position =? 34) then None else
      match print_chars (tail position) capacity [] with
      | None => None
      | Some (message, position) =>
          if negb (char_at position =? 34) then None else
          let position := skip_blanks (tail position) in
          if negb (char_at position =? 41) then None else
          let position := skip_blanks (tail position) in
          if negb (char_at position =? 59) then None else Some message
      end
  end.

(** ** The code *)

Definition emit_u64 (code : list Z) (value : Z) : list Z :=
  code ++ map (fun byte => u8 (Z.shiftr value (Z.of_nat byte * 8))) (seq 0 8).

Definition emit_mov_imm64 (code : list Z) (register_opcode value : Z) : list Z :=
  emit_u64 (code ++ [0x48] ++ [register_opcode]) value.

(** The machine code, and where the address of the message is patched in. *)
Definition emit_program (message : list Z) (return_value : Z) : list Z :=
  let message_length := Z.of_nat (length message) in
  let '(code, message_address_patch) :=
    if negb (message_length =? 0) then
      let code := emit_mov_imm64 [] 0xB8 1 in
      let message_address_patch := (length code + 2)%nat in
      let code := emit_mov_imm64 code 0xBF 0 in
      let code := emit_mov_imm64 code 0xBE message_length in
      (code ++ [0xCD] ++ [0x80], message_address_patch)
    else ([], 0%nat) in
  let code := emit_mov_imm64 code 0xB8 3 in
  let code := emit_mov_imm64 code 0xBF (u64 return_value) in
  let code := code ++ [0xCD] ++ [0x80] ++ [0xEB] ++ [0xFE] in
  if negb (message_length =? 0) then
    let message_address := u64 (USER_ENTRY + Z.of_nat (length code)) in
    blit message_address_patch (emit_u64 [] message_address) code ++ message
  else code.

(** The [file_size] bytes of the image that are written: the headers, zeroes up to
    [ELF_CODE_OFFSET], and the segment. *)
Definition elf_image (message : list Z) (return_value : Z) : list Z :=
  let segment := emit_program message return_value in
  let segment_size := Z.of_nat (length segment) in
  let header := mkElf ([0x7F; 69; 76; 70; 2; 1; 1] ++ replicate 9 0) 2 0x3E 1 USER_ENTRY ELF_HEADER_SIZE 0 0
                      ELF_HEADER_SIZE PROGRAM_HEADER_SIZE 1 0 0 0 in
  let program := mkProgram 1 5 ELF_CODE_OFFSET USER_ENTRY USER_ENTRY segment_size segment_size 4096 in
  encode_elf_header header ++ encode_program_header program ++
  replicate (Z.to_nat (ELF_CODE_OFFSET - ELF_HEADER_SIZE - PROGRAM_HEADER_SIZE)) 0 ++ segment.

(** The size of the buffer the image is built in. *)
Definition image_capacity (message : list Z) : Z := ELF_CODE_OFFSET + 256 + Z.of_nat (length message).

(** ** The driver *)

Section compiler.
Context {D H : Type} `{!BlockDevice D} `{!Allocator H}.
Notation FS := (st (FsState (D:=D) (H:=H))).

(** [strncpy(diagnostic, message, diagnostic_size - 1)] and the NUL after it. *)
Definition bounded (message : list Z) (diagnostic_size : Z) : list Z :=
  strncpy message (Z.to_nat (diagnostic_size - 1)) ++ [0].

(** The result, and what is stored in the caller's diagnostic buffer. *)
Definition compiler_compile (source output_name : list Z) (diagnostic_size : Z)
  : FS (bool * option (list Z)) :=
  ready <- gets fs_is_ready ;;
  if ((diagnostic_size <? 32) || negb ready)%bool then ret (false, None) else
  match find_text source (text "int main"), find_text source (text "{"), find_text source (text "}") with
  | Some _, Some _, Some _ =>
      match parse_return source with
      | None => ret (false, Some (bounded (text "error: expected return <integer>;") diagnostic_size))
      | Some return_value =>
          match parse_print source 512 with
          | None =>
              ret (false, Some (bounded (text "error: invalid print(" ++ [34] ++ text "text" ++ [34] ++ text ");")
                                        diagnostic_size))
          | Some message =>
              image <- alloc (image_capacity message) ;;
              if image =? 0 then ret (false, Some (strcpy (text "error: compiler out of memory"))) else
              saved <- fs_write output_name (elf_image message return_value) ;;
              free image ;;;
              if negb saved then ret (false, Some (strcpy (text "error: could not write ELF to NovaFS")))
              else ret (true, Some (strcpy (text "build succeeded: x86-64 ELF written to NovaFS")))
          end
      end
  | _, _, _ => ret (false, Some (bounded (text "error: expected int main() { ... }") diagnostic_size))
  end.

End compiler.
