(* ===== verification/CompilerFacts.v ===== *)
(** * kernel/compiler.c: the programs it writes do what their source says *)

From S2P Require Import Prelude Runtime Interfaces RamDisk Filesystem.
From S2P Require Import FsNames FsFrame FsTree FsData FsVolume FsRefine FsTheorems Compiler.

(** ** A machine that runs the output

    The instructions the compiler uses, and the native system calls of
    process_handle_syscall in kernel/process.c (number in rax, arguments in rdi and
    rsi). *)

Record Cpu := mkCpu { rip : Z; rax : Z; rdi : Z; rsi : Z }.

Inductive Event := Wrote (bytes : list Z) | Exited (code : Z).

Definition NOVA_SYS_WRITE : Z := 1.
Definition NOVA_SYS_YIELD : Z := 2.
Definition NOVA_SYS_EXIT : Z := 3.

(** [n] bytes of memory from [address] on, for a segment loaded at [base]. *)
Definition fetch (base : Z) (segment : list Z) (address : Z) (n : nat) : list Z :=
  slice (Z.to_nat (address - base)) n segment.

(** Runs until the program exits; [None] when an instruction is unknown or the
    [fuel] is spent. *)
Fixpoint run (fuel : nat) (base : Z) (segment : list Z) (c : Cpu) : option (list Event) :=
  match fuel with
  | O => None
  | S fuel =>
      let op := fetch base segment (rip c) 2 in
      let imm := of_le (fetch base segment (rip c + 2) 8) in
      if decide (op = [0x48; 0xB8]) then run fuel base segment (mkCpu (rip c + 10) imm (rdi c) (rsi c))
      else if decide (op = [0x48; 0xBF]) then run fuel base segment (mkCpu (rip c + 10) (rax c) imm (rsi c))
      else if decide (op = [0x48; 0xBE]) then run fuel base segment (mkCpu (rip c + 10) (rax c) (rdi c) imm)
      else if decide (op = [0xEB; 0xFE]) then run fuel base segment c
      else if decide (op = [0xCD; 0x80]) then
        if rax c =? NOVA_SYS_EXIT then Some [Exited (s32 (rdi c))]
        else if rax c =? NOVA_SYS_WRITE then
          cons (Wrote (fetch base segment (rdi c) (Z.to_nat (rsi c)))) <$>
            run fuel base segment (mkCpu (rip c + 2) (rsi c) (rdi c) (rsi c))
        else run fuel base segment (mkCpu (rip c + 2) 0 (rdi c) (rsi c))
      else None
  end.

(** The tests that the loader makes of a file ([valid_elf] and [map_elf_object] in kernel/process.c), for a
    file with one program header: magic number and class, type of a program at fixed addresses, machine,
    size and number of program headers, and a segment to be loaded that lies in the file and in the range
    for programs, may be read and executed and holds the entry. *)
Definition loadable (image : list Z) : bool :=
  let size := Z.of_nat (length image) in
  let entry := field 24 8 image in
  let program := Z.to_nat (field 32 8 image) in
  let offset := field (program + 8) 8 image in
  let address := field (program + 16) 8 image in
  let file_size := field (program + 32) 8 image in
  (64 <=? size) && bool_decide (slice 0 6 image = [0x7F; 69; 76; 70; 2; 1]) && (field 16 2 image =? 2) && (field 18 2 image =? 0x3E) &&
  (field 54 2 image =? 56) && (field 56 2 image =? 1) && (field 32 8 image + 56 <=? size) &&
  (field program 4 image =? 1) && (Z.land (field (program + 4) 4 image) 5 =? 5) && (file_size <=? field (program + 40) 8 image) &&
  (offset <=? size) && (file_size <=? size - offset) && (0x40000000 <=? address) &&
  (address + field (program + 40) 8 image <=? 0xE00000000) && (address <=? entry) && (entry <? address + file_size).

(** Loads the segment of an ELF image where its program header says, and runs
    it from the entry point. *)
Definition execute (fuel : nat) (image : list Z) : option (list Event) :=
  if negb (loadable image) then None else
  let entry := field 24 8 image in
  let program := Z.to_nat (field 32 8 image) in
  let offset := field (program + 8) 8 image in
  let address := field (program + 16) 8 image in
  let size := field (program + 32) 8 image in
  run fuel address (slice (Z.to_nat offset) (Z.to_nat size) image) (mkCpu entry 0 0 0).

(** ** The code *)

Lemma shifted_bytes n k v :
  0 <= v -> map (fun byte => u8 (Z.shiftr v (Z.of_nat byte * 8))) (seq k n) = le n (v / 2 ^ (Z.of_nat k * 8)).
Proof.
  intros Hv. revert k. induction n as [|n IH]; intros k; cbn [seq map le]; [done|].
  rewrite IH, Z.shiftr_div_pow2 by lia. f_equal. f_equal.
  rewrite Z.div_div by lia. f_equal. rewrite Nat2Z.inj_succ.
  replace (Z.succ (Z.of_nat k) * 8) with (Z.of_nat k * 8 + 8) by lia. by rewrite Z.pow_add_r by lia.
Qed.

Lemma emit_u64_le code value : 0 <= value -> emit_u64 code value = code ++ le 8 value.
Proof. intros Hv. unfold emit_u64. rewrite shifted_bytes by done. by rewrite Z.div_1_r. Qed.

(** [mov register, value] *)
Definition mov (register value : Z) : list Z := [0x48; register] ++ le 8 value.

Lemma emit_mov_eq code r v : 0 <= v -> emit_mov_imm64 code r v = code ++ mov r v.
Proof. intros Hv. unfold emit_mov_imm64, mov. rewrite emit_u64_le by done. rewrite <- !app_assoc. reflexivity. Qed.

Lemma length_mov r v : length (mov r v) = 10%nat.
Proof. done. Qed.

Definition exit_code (v : Z) : list Z := mov 0xB8 3 ++ mov 0xBF (u64 v) ++ [0xCD; 0x80] ++ [0xEB; 0xFE].

Definition print_code (address size : Z) : list Z :=
  mov 0xB8 1 ++ mov 0xBF address ++ mov 0xBE size ++ [0xCD; 0x80].

Lemma blit_middle (a b c s : list Z) : length s = length b -> blit (length a) s (a ++ b ++ c) = a ++ s ++ c.
Proof.
  intros Hl. unfold blit. rewrite take_app_length, Hl. do 2 f_equal.
  by rewrite (app_assoc a b c), <- length_app, drop_app_length.
Qed.

Lemma emit_program_eq message v :
  emit_program message v =
    if decide (message = []) then exit_code v
    else print_code (USER_ENTRY + 56) (Z.of_nat (length message)) ++ exit_code v ++ message.
Proof.
  pose proof (wrap_bound 64 v ltac:(lia)) as Hv. unfold emit_program. cbv zeta.
  destruct (decide (message = [])) as [-> |Hne].
  { change (negb (Z.of_nat (@length Z []) =? 0)) with false. cbv iota beta. rewrite !emit_mov_eq by lia. unfold exit_code. rewrite <- !app_assoc. reflexivity. }
  destruct (Z.of_nat (length message) =? 0) eqn:E; [destruct message; [done|cbn in E; lia]|].
  cbn [negb]. cbv iota beta. rewrite !emit_mov_eq by lia.
  rewrite emit_u64_le by (apply (wrap_bound 64); lia).
  set (rest := mov 0xBE (Z.of_nat (length message)) ++ [0xCD; 0x80] ++ mov 0xB8 3 ++ mov 0xBF (u64 v) ++
               [0xCD; 0x80] ++ [0xEB; 0xFE]).
  match goal with |- context [blit _ _ ?c] =>
    replace c with ((mov 0xB8 1 ++ [0x48; 0xBF]) ++ le 8 0 ++ rest)
      by (unfold rest, mov; rewrite <- !app_assoc; reflexivity)
  end.
  change (length ([] ++ mov 0xB8 1) + 2)%nat with (length (mov 0xB8 1 ++ [0x48; 0xBF])).
  rewrite blit_middle by done.
  replace (length ((mov 0xB8 1 ++ [0x48; 0xBF]) ++ le 8 0 ++ rest)) with 56%nat
    by (unfold rest; rewrite !length_app, !length_mov, !length_le; done).
  rewrite (wrap_small 64) by (unfold USER_ENTRY; lia).
  unfold print_code, exit_code, rest, mov. rewrite <- !app_assoc. reflexivity.
Qed.

Lemma length_exit_code v : length (exit_code v) = 24%nat.
Proof. done. Qed.

(** Instructions in the middle of a segment. *)
Lemma fetch_middle base pre x post address :
  address = base + Z.of_nat (length pre) -> fetch base (pre ++ x ++ post) address (length x) = x.
Proof.
  intros ->. unfold fetch, slice. replace (Z.to_nat (base + Z.of_nat (length pre) - base)) with (length pre) by lia.
  by rewrite drop_app_length, take_app_length.
Qed.

Lemma run_mov fuel base pre r v post c :
  0 <= v < 2 ^ 64 -> rip c = base + Z.of_nat (length pre) ->
  run (S fuel) base (pre ++ mov r v ++ post) c =
    let c' := if decide (r = 0xB8) then mkCpu (rip c + 10) v (rdi c) (rsi c)
              else if decide (r = 0xBF) then mkCpu (rip c + 10) (rax c) v (rsi c)
              else mkCpu (rip c + 10) (rax c) (rdi c) v in
    if decide (r = 0xB8 \/ r = 0xBF \/ r = 0xBE) then run fuel base (pre ++ mov r v ++ post) c'
    else None.
Proof.
  intros Hv Hr.
  assert (Hop : fetch base (pre ++ mov r v ++ post) (rip c) 2 = [0x48; r]).
  { unfold mov. rewrite <- (app_assoc [0x48; r]). by apply (fetch_middle base pre [0x48; r]). }
  assert (Himm : of_le (fetch base (pre ++ mov r v ++ post) (rip c + 2) 8) = v).
  { unfold mov. rewrite <- (app_assoc [0x48; r]), (app_assoc pre).
    pose proof (fetch_middle base (pre ++ [0x48; r]) (le 8 v) post (rip c + 2)) as Hf.
    rewrite length_le in Hf. rewrite Hf by (rewrite length_app; cbn [length]; lia).
    by apply of_le_le_small. }
  cbn [run]. rewrite Hop, Himm. cbv zeta.
  destruct (decide (r = 0xB8)) as [-> |N1]; [by rewrite !decide_True by auto|].
  rewrite (decide_False (P := [72; r] = [72; 184])) by congruence.
  destruct (decide (r = 0xBF)) as [-> |N2]; [by rewrite !decide_True by auto|].
  rewrite (decide_False (P := [72; r] = [72; 191])) by congruence.
  destruct (decide (r = 0xBE)) as [-> |N3]; [by rewrite !decide_True by auto|].
  rewrite !decide_False by (first [congruence|tauto]). done.
Qed.

Lemma run_mov_rax fuel base pre v post c :
  0 <= v < 2 ^ 64 -> rip c = base + Z.of_nat (length pre) ->
  run (S fuel) base (pre ++ mov 0xB8 v ++ post) c =
    run fuel base (pre ++ mov 0xB8 v ++ post) (mkCpu (rip c + 10) v (rdi c) (rsi c)).
Proof. intros Hv Hr. by rewrite run_mov. Qed.

Lemma run_mov_rdi fuel base pre v post c :
  0 <= v < 2 ^ 64 -> rip c = base + Z.of_nat (length pre) ->
  run (S fuel) base (pre ++ mov 0xBF v ++ post) c =
    run fuel base (pre ++ mov 0xBF v ++ post) (mkCpu (rip c + 10) (rax c) v (rsi c)).
Proof. intros Hv Hr. by rewrite run_mov. Qed.

Lemma run_mov_rsi fuel base pre v post c :
  0 <= v < 2 ^ 64 -> rip c = base + Z.of_nat (length pre) ->
  run (S fuel) base (pre ++ mov 0xBE v ++ post) c =
    run fuel base (pre ++ mov 0xBE v ++ post) (mkCpu (rip c + 10) (rax c) (rdi c) v).
Proof. intros Hv Hr. by rewrite run_mov. Qed.

Lemma run_int80 fuel base pre post c :
  rip c = base + Z.of_nat (length pre) ->
  run (S fuel) base (pre ++ [0xCD; 0x80] ++ post) c =
    (if rax c =? NOVA_SYS_EXIT then Some [Exited (s32 (rdi c))]
     else if rax c =? NOVA_SYS_WRITE then
       cons (Wrote (fetch base (pre ++ [0xCD; 0x80] ++ post) (rdi c) (Z.to_nat (rsi c)))) <$>
         run fuel base (pre ++ [0xCD; 0x80] ++ post) (mkCpu (rip c + 2) (rsi c) (rdi c) (rsi c))
     else run fuel base (pre ++ [0xCD; 0x80] ++ post) (mkCpu (rip c + 2) 0 (rdi c) (rsi c))).
Proof.
  intros Hr. cbn [run]. rewrite (fetch_middle base pre [0xCD; 0x80] post (rip c) Hr : fetch _ _ _ 2 = _).
  rewrite !(decide_False (P := [205; 128] = _)) by congruence. by rewrite decide_True.
Qed.

(** [(int)(uint64_t)value] *)
Lemma s32_u64 v : - 2 ^ 31 <= v < 2 ^ 31 -> s32 (u64 v) = v.
Proof.
  intros Hv. destruct (decide (0 <= v)).
  { rewrite wrap_small by lia. apply swrap_small; lia. }
  assert (u64 v = v + 2 ^ 64) as -> by (unfold wrap; symmetry; apply (Z.mod_unique_pos v (2 ^ 64) (-1)); lia).
  unfold swrap. change (2 ^ (32 - 1)) with (2 ^ 31).
  replace (v + 2 ^ 64 + 2 ^ 31) with (v + 2 ^ 31 + 2 ^ 32 * 2 ^ 32) by lia.
  rewrite Z_mod_plus_full, Z.mod_small by lia. lia.
Qed.

(** [exit_code] exits, whatever was in the registers. *)
Lemma run_exit fuel base pre v post c :
  - 2 ^ 31 <= v < 2 ^ 31 -> rip c = base + Z.of_nat (length pre) ->
  run (S (S (S fuel))) base (pre ++ exit_code v ++ post) c = Some [Exited v].
Proof.
  intros Hv Hr. unfold exit_code. rewrite <- !app_assoc.
  rewrite run_mov_rax by (try done; lia).
  rewrite (app_assoc pre). rewrite run_mov_rdi; [|apply (wrap_bound 64); lia|rewrite length_app; cbn [rip length mov le app]; lia].
  rewrite (app_assoc (pre ++ _)). rewrite run_int80 by (rewrite !length_app; cbn [rip length mov le app]; lia).
  cbn [rax rdi]. change (3 =? NOVA_SYS_EXIT) with true. cbv iota. do 3 f_equal.
  by apply s32_u64.
Qed.

(** The whole program. *)
Lemma run_program fuel message v :
  - 2 ^ 31 <= v < 2 ^ 31 -> Z.of_nat (length message) < 2 ^ 64 ->
  run (7 + fuel) USER_ENTRY (emit_program message v) (mkCpu USER_ENTRY 0 0 0) =
    Some ((if decide (message = []) then [] else [Wrote message]) ++ [Exited v]).
Proof.
  intros Hv Hl. rewrite emit_program_eq. destruct (decide (message = [])) as [-> |Hne].
  { rewrite <- (app_nil_l (exit_code v)), <- (app_nil_r (exit_code v)). apply run_exit; [done|cbn; lia]. }
  assert (Hmsg : fetch USER_ENTRY (print_code (USER_ENTRY + 56) (Z.of_nat (length message)) ++ exit_code v ++ message)
                   (USER_ENTRY + 56) (length message) = message).
  { rewrite (app_assoc (print_code _ _)), <- (app_nil_r (_ ++ message)), <- app_assoc.
    apply fetch_middle. by rewrite length_app. }
  unfold print_code in *. rewrite <- !app_assoc in *.
  set (segment := mov 0xB8 1 ++ _) in *.
  assert (S1 : segment = [] ++ mov 0xB8 1 ++ (mov 0xBF (USER_ENTRY + 56) ++ mov 0xBE (Z.of_nat (length message)) ++
     [0xCD; 0x80] ++ exit_code v ++ message)) by done.
  cbn [Nat.add].
  rewrite S1, run_mov_rax by (try done; cbn; lia). rewrite <- S1.
  assert (S2 : segment = mov 0xB8 1 ++ mov 0xBF (USER_ENTRY + 56) ++ (mov 0xBE (Z.of_nat (length message)) ++
     [0xCD; 0x80] ++ exit_code v ++ message)) by done.
  rewrite S2, run_mov_rdi by (try done; unfold USER_ENTRY; cbn; lia). rewrite <- S2. cbn [rip rax rdi rsi].
  assert (S3 : segment = (mov 0xB8 1 ++ mov 0xBF (USER_ENTRY + 56)) ++ mov 0xBE (Z.of_nat (length message)) ++
     ([0xCD; 0x80] ++ exit_code v ++ message)) by (by rewrite <- app_assoc).
  rewrite S3, run_mov_rsi by (try (rewrite length_app); unfold USER_ENTRY; cbn [rip length mov le app]; lia).
  rewrite <- S3. cbn [rip rax rdi rsi].
  set (pre := mov 0xB8 1 ++ mov 0xBF (USER_ENTRY + 56) ++ mov 0xBE (Z.of_nat (length message))).
  assert (S4 : segment = pre ++ [0xCD; 0x80] ++ (exit_code v ++ message))
    by (unfold pre; by rewrite <- !app_assoc).
  rewrite S4, run_int80 by (unfold pre; rewrite !length_app; cbn [rip length mov le app]; lia).
  rewrite <- S4. cbn [rip rax rdi rsi]. change (1 =? NOVA_SYS_EXIT) with false.
  change (1 =? NOVA_SYS_WRITE) with true. cbv iota. rewrite Nat2Z.id, Hmsg.
  rewrite S4, (app_assoc pre). rewrite run_exit; [done|done|].
  unfold pre. rewrite !length_app. cbn [rip length mov le app]. lia.
Qed.

Lemma length_emit_program message v :
  Z.of_nat (length (emit_program message v)) <= 56 + Z.of_nat (length message).
Proof.
  rewrite emit_program_eq. destruct (decide _) as [-> |]; [done|].
  rewrite !length_app, length_exit_code. unfold print_code. rewrite !length_app, !length_mov. cbn [length]. lia.
Qed.

Lemma emit_program_pos message v : (0 < length (emit_program message v))%nat.
Proof.
  rewrite emit_program_eq. destruct (decide _); rewrite ?length_app, ?length_exit_code; lia.
Qed.

Lemma emit_program_bytes message v : bytes message -> bytes (emit_program message v).
Proof.
  intros Hm.
  assert (Hmov : forall r x, is_byte r -> bytes (mov r x)).
  { intros r x Hr. unfold mov. apply bytes_app. split; [|apply le_bytes].
    apply Forall_cons; split; [unfold is_byte; lia|]. by apply Forall_singleton. }
  assert (H2 : forall a b, is_byte a -> is_byte b -> bytes [a; b]).
  { intros a b Ha Hb. apply Forall_cons; split; [done|]. by apply Forall_singleton. }
  rewrite emit_program_eq. destruct (decide _).
  all: unfold print_code, exit_code; rewrite !bytes_app; split_and!; try done;
    first [apply Hmov|apply H2]; unfold is_byte; lia.
Qed.

Lemma execute_image fuel message v :
  - 2 ^ 31 <= v < 2 ^ 31 -> Z.of_nat (length message) < 2 ^ 32 ->
  execute (7 + fuel) (elf_image message v) =
    Some ((if decide (message = []) then [] else [Wrote message]) ++ [Exited v]).
Proof.
  intros Hv Hl. pose proof (length_emit_program message v) as Hs.
  rewrite <- (run_program fuel message v) by lia. unfold execute, elf_image. cbv zeta.
  set (segment := emit_program message v) in *.
  set (header := encode_elf_header _). set (program := encode_program_header _).
  assert (Lh : length header = 64%nat) by done. assert (Lp : length program = 56%nat) by done.
  set (zeroes := replicate _ 0). assert (Lz : length zeroes = 3976%nat) by (unfold zeroes; apply length_replicate).
  assert (Hin : forall off n rest, (off + n <= 64)%nat -> field off n (header ++ rest) = field off n header).
  { intros off n rest Hon. unfold field, slice. rewrite drop_app_le, take_app_le by (rewrite ?length_drop; lia). done. }
  assert (Hin2 : forall off n rest, (off + n <= 56)%nat -> field (64 + off) n (header ++ program ++ rest) = field off n program).
  { intros off n rest Hon. unfold field, slice. rewrite drop_app_ge by lia.
    replace (64 + off - length header)%nat with off by lia.
    rewrite drop_app_le, take_app_le by (rewrite ?length_drop; lia). done. }
  assert (Hsz : field 32 8 program = Z.of_nat (length segment) /\ field 40 8 program = Z.of_nat (length segment)).
  { unfold program, encode_program_header, field.
    cbn [ph_type ph_flags ph_offset ph_virtual_address ph_physical_address ph_file_size ph_memory_size ph_alignment].
    split; slices; apply of_le_le_small; cbn; lia. }
  destruct Hsz as [Hsz Hmem]. assert (loadable (header ++ program ++ zeroes ++ segment) = true) as ->.
  { unfold loadable. cbv zeta. rewrite !length_app, Lh, Lp, Lz.
    rewrite !(Hin 24%nat), !(Hin 32%nat), !(Hin 16%nat), !(Hin 18%nat), !(Hin 54%nat), !(Hin 56%nat) by lia. change (Z.to_nat (field 32 8 header)) with 64%nat.
    replace (field 64 4 _) with (field 0 4 program) by (symmetry; apply (Hin2 0%nat); lia).
    rewrite !Hin2, Hsz, Hmem by lia. change (field 24 8 header) with USER_ENTRY. change (field 8 8 program) with ELF_CODE_OFFSET.
    change (field 16 8 program) with USER_ENTRY. change (field 32 8 header) with 64. change (field 0 4 program) with 1.
    change (field 4 4 program) with 5. change (field 16 2 header) with 2. change (field 18 2 header) with 0x3E.
    change (field 54 2 header) with 56. change (field 56 2 header) with 1. pose proof (emit_program_pos message v : (0 < length segment)%nat).
    rewrite bool_decide_true by done. unfold USER_ENTRY, ELF_CODE_OFFSET. change (Z.land 5 5) with 5. lia. }
  cbn [negb]. rewrite !(Hin 24%nat), !(Hin 32%nat) by lia.
  change (field 24 8 header) with USER_ENTRY. change (Z.to_nat (field 32 8 header)) with 64%nat.
  rewrite !Hin2 by lia. change (field 8 8 program) with ELF_CODE_OFFSET. change (field 16 8 program) with USER_ENTRY.
  rewrite Hsz, Nat2Z.id. f_equal. unfold slice.
  rewrite (app_assoc header), (app_assoc (header ++ program)), drop_app_length'
    by (rewrite !length_app, Lh, Lp, Lz; reflexivity).
  by rewrite firstn_all.
Qed.

(** ** The results of parsing are in range *)

Lemma parse_digits_bound position result r :
  0 <= result <= 1000000009 -> parse_digits position result = Some r -> 0 <= r.1 <= 1000000009.
Proof.
  revert result. induction position as [|c position IH]; intros result Hr; cbn [parse_digits]; [by intros [= <-]|].
  destruct (is_digit c) eqn:Ed; [|by intros [= <-]]. case_if as E; [done|]. apply IH.
  unfold is_digit in Ed. rewrite swrap_small; lia.
Qed.

Lemma parse_return_bound source v : parse_return source = Some v -> -1000000009 <= v <= 1000000009.
Proof.
  unfold parse_return. destruct (find_text _ _) as [position|]; [|done]. cbv zeta.
  case_if as E1; [done|]. destruct (parse_digits _ 0) as [[r rest]|] eqn:Ep; [|done].
  case_if as E2; [done|]. apply parse_digits_bound in Ep; [|lia]. cbn [fst] in Ep. intros [= <-].
  case_if as E3; [rewrite swrap_small; lia|lia].
Qed.

Lemma print_chars_bound position capacity message r :
  Z.of_nat (length message) < capacity -> print_chars position capacity message = Some r ->
  Z.of_nat (length r.1) < capacity.
Proof.
  remember (length position) as n eqn:En. assert (Hn : (length position <= n)%nat) by lia. clear En.
  revert position message Hn. induction n as [|n IH]; intros position message Hn Hm.
  { destruct position; [|cbn in Hn; lia]. cbn. by intros [= <-]. }
  destruct position as [|c rest]; cbn [print_chars length] in *; [by intros [= <-]|].
  case_if as E1; [by intros [= <-]|]. case_if as E2.
  - destruct rest as [|e rest]; [done|]. cbn [length] in Hn.
    destruct (e =? 110).
    { case_if as E3; [done|]. apply IH; [lia|]. rewrite length_app. cbn [length]. lia. }
    case_if as E4; [|done].
    case_if as E3; [done|]. apply IH; [lia|]. rewrite length_app. cbn [length]. lia.
  - case_if as E3; [done|]. apply IH; [lia|]. rewrite length_app. cbn [length]. lia.
Qed.

Lemma parse_print_bound source message : parse_print source 512 = Some message -> Z.of_nat (length message) < 512.
Proof.
  unfold parse_print. destruct (find_text _ _) as [position|]; [|by intros [= <-]]. cbv zeta.
  case_if as E1; [done|]. case_if as E2; [done|]. destruct (print_chars _ 512 []) as [[m rest]|] eqn:Ep; [|done].
  repeat (case_if as E; [done|]; clear E). intros [= <-]. by apply print_chars_bound in Ep; [|cbn; lia].
Qed.

Lemma print_chars_bytes position capacity message r :
  bytes position -> bytes message -> print_chars position capacity message = Some r -> bytes r.1.
Proof.
  assert (Hsnoc : forall l x, bytes l -> is_byte x -> bytes (l ++ [x])).
  { intros l x Hl Hx. apply bytes_app. split; [done|]. by apply Forall_singleton. }
  remember (length position) as n eqn:En. assert (Hn : (length position <= n)%nat) by lia. clear En.
  revert position message Hn. induction n as [|n IH]; intros position message Hn Hp Hm.
  { destruct position; [|cbn in Hn; lia]. cbn. by intros [= <-]. }
  destruct position as [|c rest]; cbn [print_chars length] in *; [by intros [= <-]|].
  apply Forall_cons in Hp as [Hc Hp].
  case_if as E1; [by intros [= <-]|]. case_if as E2.
  - destruct rest as [|e rest]; [done|]. cbn [length] in Hn. apply Forall_cons in Hp as [He Hp].
    destruct (e =? 110).
    { case_if as E3; [done|]. apply IH; [lia|done|]. apply Hsnoc; [done|unfold is_byte; lia]. }
    case_if as E4; [|done]. case_if as E3; [done|]. apply IH; [lia|done|by apply Hsnoc].
  - case_if as E3; [done|]. apply IH; [lia|done|by apply Hsnoc].
Qed.

Lemma find_text_suffix source needle p : find_text source needle = Some p -> exists k, p = drop k source.
Proof.
  induction source as [|c source IH]; cbn [find_text]; [done|]. case_if as E1; [done|].
  case_if as E2; [intros [= <-]; by exists 0%nat|]. intros Hp. destruct (IH Hp) as [k ->]. by exists (S k).
Qed.

Lemma skip_blanks_suffix l : exists k, skip_blanks l = drop k l.
Proof.
  induction l as [|c l [k IH]]; [by exists 0%nat|]. cbn [skip_blanks]. case_if as E; [by exists (S k)|by exists 0%nat].
Qed.

Lemma parse_print_bytes source message : bytes source -> parse_print source 512 = Some message -> bytes message.
Proof.
  intros Hb. unfold parse_print. destruct (find_text _ _) as [position|] eqn:Ef; [|intros [= <-]; constructor].
  apply find_text_suffix in Ef as [k ->]. cbv zeta. case_if as E1; [done|]. case_if as E2; [done|].
  destruct (print_chars _ 512 []) as [[m rest]|] eqn:Ep; [|done].
  repeat (case_if as E; [done|]; clear E). intros [= <-]. apply print_chars_bytes in Ep; [done| |constructor].
  destruct (skip_blanks_suffix (drop 5 (drop k source))) as [k1 ->].
  destruct (skip_blanks_suffix (tail (drop k1 (drop 5 (drop k source))))) as [k2 ->].
  assert (Ht : forall l, bytes l -> bytes (tail l)) by (intros l; destruct 1; [constructor|done]).
  by repeat first [apply Ht|apply bytes_drop].
Qed.

(** ** What a successful compilation leaves on the volume *)

Lemma elf_image_bytes message v : bytes message -> bytes (elf_image message v).
Proof.
  intros Hm. unfold elf_image, encode_elf_header, encode_program_header. cbv zeta. rewrite !bytes_app.
  split_and!; auto using le_bytes, bytes_zeroes, emit_program_bytes.
  cbn [eh_magic]. apply bytes_app. split; [|apply bytes_zeroes].
  repeat (apply Forall_cons; split; [unfold is_byte; lia|]). constructor.
Qed.

Lemma length_elf_image message v :
  Z.of_nat (length (elf_image message v)) <= 4152 + Z.of_nat (length message).
Proof.
  pose proof (length_emit_program message v). unfold elf_image. cbv zeta. rewrite !length_app, length_replicate.
  change (length (encode_elf_header _)) with 64%nat. change (length (encode_program_header _)) with 56%nat.
  unfold ELF_CODE_OFFSET, ELF_HEADER_SIZE, PROGRAM_HEADER_SIZE. lia.
Qed.

Lemma follow_cstr depth v p q : follow depth v p = Some q -> cstr q = q.
Proof.
  revert p. induction depth as [|depth IH]; intros p; cbn [follow]; [done|].
  destruct (v p) as [n|]; [|done]. case_if as E; [intros [= <-]; apply cstr_cstr|].
  destruct (link_name p (n_data n)) as [r|]; [|done]. apply IH.
Qed.

Section compile.
Context {D H : Type} `{!BlockDevice D} `{!Allocator H}.
Implicit Types s : FsState (D:=D) (H:=H).

Lemma volume_ok_with_heap h s : volume_ok s -> volume_ok (with_heap h s).
Proof. intros [? ? ? ? ?]. by constructor. Qed.

(** [C26] Compiler correctness: when [compiler_compile] reports success, the source
    has a [return] statement with a value and at most one message, the image fits
    the buffer it was built in, and the file the output name leads to holds an ELF
    executable that, loaded where its program header says and run from its entry
    point, writes exactly the message with one system call (none if there is no
    message) and exits with exactly the value. *)
Theorem compiler_correct source name size s d s' :
  volume_ok s -> bytes source -> compiler_compile source name size s = ((true, d), s') ->
  exists message v p n,
    parse_return source = Some v /\ parse_print source 512 = Some message /\
    Z.of_nat (length (elf_image message v)) <= image_capacity message /\
    volume_ok s' /\ write_target (view s) name p /\ view s' p = Some n /\ n_type n = FS_TYPE_FILE /\
    execute 7 (n_data n) = Some ((if decide (message = []) then [] else [Wrote message]) ++ [Exited v]).
Proof.
  intros Hv Hb E. unfold compiler_compile, bind at 1, gets in E.
  destruct (_ || _)%bool in E; [discriminate E|].
  destruct (find_text source (text "int main")); [|discriminate E].
  destruct (find_text source (text "{")); [|discriminate E].
  destruct (find_text source (text "}")); [|discriminate E].
  destruct (parse_return source) as [v|] eqn:Er; [|discriminate E].
  destruct (parse_print source 512) as [message|] eqn:Ep; [|discriminate E].
  pose proof (parse_return_bound _ _ Er) as Hr. pose proof (parse_print_bound _ _ Ep) as Hl.
  pose proof (parse_print_bytes _ _ Hb Ep) as Hm. pose proof (length_elf_image message v) as Hsz.
  unfold bind at 1, alloc in E. destruct (al_alloc (image_capacity message) (heap s)) as [image h].
  destruct (image =? 0) in E; [discriminate E|]. unfold bind at 1 in E.
  pose proof (write_refines name (elf_image message v) (with_heap h s) (volume_ok_with_heap h s Hv)
                (elf_image_bytes _ _ Hm) ltac:(lia)) as Hw.
  unfold refines, wp in Hw. cbn [run_op] in Hw.
  destruct (fs_write name (elf_image message v) (with_heap h s)) as [saved s1]. cbn [fst snd] in Hw.
  unfold bind, free, modify in E. destruct saved; [|discriminate E]. cbn [negb] in E.
  apply pair_equal_spec in E as [_ <-].
  destruct (Hw eq_refl) as (Hv1 & p & Ht & Hspec).
  change (view (with_heap h s)) with (view s) in Ht, Hspec.
  exists message, v, p.
  assert (Hview : exists n, view s1 p = Some n /\ n_type n = FS_TYPE_FILE /\ n_data n = elf_image message v).
  { assert (Hp : cstr p = p).
    { unfold write_target in Ht. destruct (view s name) as [n|]; [|subst p; apply cstr_cstr].
      destruct (n_type n =? FS_TYPE_SYMLINK); [|subst p; apply cstr_cstr]. by eapply follow_cstr. }
    destruct (view s p) as [n|].
    - destruct Hspec as (_ & _ & Hup). eexists. rewrite (Hup p), decide_True by done. done.
    - destruct Hspec as (_ & Hup). eexists. rewrite (Hup p), decide_True by done. done. }
  destruct Hview as (n & Hn & Hty & Hd). exists n. split_and!; try done.
  - unfold image_capacity, ELF_CODE_OFFSET. lia.
  - by apply volume_ok_with_heap.
  - rewrite Hd. apply (execute_image 0); lia.
Qed.

End compile.

(** ** Programs it accepts *)

(** A character of a message as it is written in a literal. *)
Definition quote (c : Z) : list Z :=
  if c =? 10 then [92; 110] else if ((c =? 34) || (c =? 92))%bool then [92; c] else [c].

(** The characters of a literal with this message. *)
Definition quoted (message : list Z) : list Z := mjoin (quote <$> message).

(** The program that prints [message] and returns [v]. *)
Definition program_text (message : list Z) (v : Z) : list Z :=
  text "int main() { print(" ++ [34] ++ quoted message ++ [34] ++ text "); return " ++
  cstr (int_to_string v) ++ text "; }" ++ [0].

Lemma print_chars_quoted message capacity acc rest :
  Forall (fun c => c <> 0) message ->
  Z.of_nat (length acc) + Z.of_nat (length message) < capacity ->
  print_chars (quoted message ++ 34 :: rest) capacity acc = Some (acc ++ message, 34 :: rest).
Proof.
  intros Hm. revert acc. induction Hm as [|c message Hc Hm IH]; intros acc Hl.
  { cbn. by rewrite app_nil_r. }
  change (quoted (c :: message)) with (quote c ++ quoted message). rewrite <- app_assoc. cbn [length] in Hl.
  assert (Hgo : print_chars (quoted message ++ 34 :: rest) capacity (acc ++ [c]) = Some (acc ++ c :: message, 34 :: rest)).
  { rewrite IH by (rewrite length_app; cbn [length]; lia). by rewrite <- app_assoc. }
  assert (Hroom : (capacity <=? Z.of_nat (length acc) + 1) = false) by lia.
  unfold quote. destruct (c =? 10) eqn:E1.
  { apply Z.eqb_eq in E1 as ->. cbn [app print_chars]. by rewrite Hroom. }
  destruct ((c =? 34) || (c =? 92))%bool eqn:E2.
  - cbn [app print_chars]. assert ((c =? 110) = false) as -> by lia. by rewrite E2, Hroom.
  - cbn [app print_chars]. assert (((c =? 0) || (c =? 34))%bool = false) as -> by lia.
    assert ((c =? 92) = false) as -> by lia. by rewrite Hroom.
Qed.

Lemma parse_digits_number fuel n rest :
  0 <= n <= 1000000009 -> n < 10 ^ Z.of_nat fuel ->
  parse_digits (rev (digits_reversed fuel n) ++ rest) 0 = parse_digits rest n.
Proof.
  revert n rest. induction fuel as [|fuel IH]; intros n rest Hn Hf; [cbn in *; assert (n = 0) as -> by lia; done|].
  pose proof (Z.div_mod n 10). pose proof (Z.mod_pos_bound n 10).
  cbn [digits_reversed rev]. rewrite <- app_assoc.
  assert (Hlast : forall r, r = n / 10 -> parse_digits ([48 + n mod 10] ++ rest) r = parse_digits rest n).
  { intros r ->. cbn [app parse_digits]. unfold is_digit.
    assert (((48 <=? 48 + n mod 10) && (48 + n mod 10 <=? 57))%bool = true) as -> by lia.
    assert ((100000000 <? n / 10) = false) as -> by lia.
    f_equal. rewrite swrap_small; lia. }
  destruct (n / 10 =? 0) eqn:E; [cbn [rev app]; apply Hlast; lia|].
  rewrite IH; [by apply Hlast|lia|].
  rewrite Nat2Z.inj_succ, Z.pow_succ_r in Hf by lia. lia.
Qed.

Lemma digits_reversed_chars fuel n : 0 <= n -> Forall (fun c => 48 <= c <= 57) (digits_reversed fuel n).
Proof.
  revert n. induction fuel as [|fuel IH]; intros n Hn; cbn [digits_reversed]; constructor.
  - pose proof (Z.mod_pos_bound n 10). lia.
  - destruct (n / 10 =? 0); [constructor|apply IH, Z.div_pos; lia].
Qed.

(** [int_to_string] without the NUL. *)
Lemma cstr_int_to_string v :
  -1000000009 <= v <= 1000000009 ->
  cstr (int_to_string v) = (if v <? 0 then [45] else []) ++ rev (digits_reversed 10 (Z.abs v)).
Proof.
  intros Hv. unfold int_to_string. cbv zeta.
  assert (Habs : (if v <? 0 then u32 (0 - u32 v) else u32 v) = Z.abs v).
  { case_if as E; [|rewrite wrap_small; lia]. unfold wrap. rewrite Zminus_mod_idemp_r.
    rewrite Z.mod_small; lia. }
  rewrite Habs.
  assert (Hd : Forall (fun c => c <> 0) (rev (digits_reversed 10 (Z.abs v)))).
  { apply Forall_rev. eapply Forall_impl; [apply digits_reversed_chars; lia|]. cbn. lia. }
  destruct (v <? 0).
  - rewrite rev_app_distr. cbn [rev app]. rewrite cstr_cons. cbn [Z.eqb]. f_equal. by apply cstr_app_nul.
  - cbn [app]. by apply cstr_app_nul.
Qed.

Lemma cstr_app_no_nul l l' : Forall (fun c => c <> 0) l -> cstr (l ++ l') = l ++ cstr l'.
Proof.
  induction 1 as [|c l Hc Hl IH]; [done|]. cbn [app]. rewrite cstr_cons, IH.
  by rewrite (proj2 (Z.eqb_neq c 0) Hc).
Qed.

Lemma strlen_no_nul l : Forall (fun c => c <> 0) l -> strlen l = length l.
Proof. intros Hl. by rewrite <- length_cstr, cstr_id. Qed.

(** A search passes over a text without the needle up to a character the needle
    does not have. *)
Lemma find_text_skip p needle c rest :
  Forall (fun c => c <> 0) p -> Forall (fun c => c <> 0) needle -> needle <> [] -> c ∉ needle -> c <> 0 ->
  find_text p needle = None -> find_text (p ++ c :: rest) needle = find_text rest needle.
Proof.
  intros Hp Hn Hne Hc Hc0.
  assert (Hdiff : forall w, Forall (fun c => c <> 0) w ->
            (strncmp (w ++ c :: rest) needle (strlen needle) =? 0) = true ->
            (strncmp w needle (strlen needle) =? 0) = true).
  { intros w Hw E. apply Z.eqb_eq in E. apply Z.eqb_eq. rewrite strncmp_eq_zero in E |- *.
    rewrite cstr_app_no_nul, (cstr_id needle), strlen_no_nul in E by done. rewrite (cstr_id w), (cstr_id needle), strlen_no_nul by done.
    rewrite (take_ge needle) in E |- * by lia. rewrite cstr_cons, (proj2 (Z.eqb_neq c 0) Hc0) in E.
    destruct (decide (length needle <= length w)%nat) as [Hle|Hgt].
    - by rewrite take_app_le in E.
    - exfalso. apply Hc. rewrite <- E. apply list_elem_of_lookup. exists (length w).
      rewrite lookup_take_lt by lia. by rewrite lookup_app_r, Nat.sub_diag by lia. }
  induction Hp as [|x p Hx Hp IH]; intros Hf.
  - cbn [app find_text]. rewrite (proj2 (Z.eqb_neq c 0) Hc0).
    destruct (strncmp (c :: rest) needle (strlen needle) =? 0) eqn:E; [|done].
    apply (Hdiff []) in E; [|constructor]. exfalso. apply Z.eqb_eq in E. rewrite strncmp_eq_zero in E.
    rewrite (cstr_id needle), strlen_no_nul, (take_ge needle) in E by (done || lia). rewrite cstr_nil, take_nil in E. by subst.
  - cbn [app find_text] in *. rewrite (proj2 (Z.eqb_neq x 0) Hx) in *.
    destruct (strncmp (x :: p ++ c :: rest) needle (strlen needle) =? 0) eqn:E.
    + apply (Hdiff (x :: p)) in E; [|by constructor]. rewrite E in Hf. done.
    + destruct (strncmp (x :: p) needle (strlen needle) =? 0); [done|]. by apply IH.
Qed.

Lemma quoted_no_nul message : Forall (fun c => c <> 0) message -> Forall (fun c => c <> 0) (quoted message).
Proof.
  induction 1 as [|c message Hc Hm IH]; [constructor|].
  change (quoted (c :: message)) with (quote c ++ quoted message). apply Forall_app. split; [|done].
  unfold quote. destruct (c =? 10); [|destruct (_ || _)%bool]; repeat constructor; lia.
Qed.

Lemma number_digits fuel n : 0 <= n ->
  exists d ds, rev (digits_reversed (S fuel) n) = d :: ds /\ is_digit d = true.
Proof.
  intros Hn. pose proof (Forall_rev (digits_reversed_chars (S fuel) n Hn)) as Hf.
  destruct (rev (digits_reversed (S fuel) n)) as [|d ds] eqn:E.
  - apply (f_equal length) in E. rewrite length_rev in E. done.
  - exists d, ds. split; [done|]. apply Forall_cons in Hf as [Hd _]. unfold is_digit. lia.
Qed.

Lemma parse_return_number v rest position :
  -1000000009 <= v <= 1000000009 ->
  position = skip_blanks (32 :: cstr (int_to_string v) ++ 59 :: rest) ->
  let negative := char_at position =? 45 in
  let position := if negative then tail position else position in
  is_digit (char_at position) = true /\ negative = (v <? 0) /\
  parse_digits position 0 = Some (Z.abs v, 59 :: rest).
Proof.
  intros Hv ->. rewrite cstr_int_to_string by done. destruct (number_digits 9 (Z.abs v) ltac:(lia)) as (d & ds & Ed & Hd).
  assert (Hpd : parse_digits ((d :: ds) ++ 59 :: rest) 0 = Some (Z.abs v, 59 :: rest)).
  { rewrite <- Ed, parse_digits_number; [done|lia|]. cbn. lia. }
  rewrite Ed. cbn [skip_blanks Z.eqb orb]. destruct (v <? 0).
  - cbn. by split_and!.
  - cbn [app] in *. assert (Hnb : ((d =? 32) || (d =? 9))%bool = false) by (unfold is_digit in Hd; lia).
    cbn [skip_blanks]. rewrite Hnb. cbv zeta. change ((32 =? 32)%positive || (32 =? 9)%positive)%bool with true. cbv iota. cbn [char_at]. assert (d =? 45 = false) as -> by (unfold is_digit in Hd; lia).
    by split_and!.
Qed.

(** A decidable fact about constants. *)
Ltac closed := apply (bool_decide_unpack _); vm_compute; exact I.

(** The front end accepts what it should: for every message of at most 511
    characters that does not contain the word of a return statement, and every
    value up to 1000000009 in size, parsing the program that prints the message and
    returns the value gives back exactly that message and that value, escapes and
    sign included. *)
Theorem compiler_parses_program message v :
  Forall (fun c => c <> 0) message -> (length message < 512)%nat ->
  find_text (quoted message) (text "return") = None -> -1000000009 <= v <= 1000000009 ->
  parse_return (program_text message v) = Some v /\ parse_print (program_text message v) 512 = Some message.
Proof.
  intros Hm Hl Hf Hv. unfold program_text.
  set (tail_text := cstr (int_to_string v) ++ text "; }" ++ [0]). split.
  - unfold parse_return.
    assert (Hfind : find_text (text "int main() { print(" ++ [34] ++ quoted message ++ [34] ++ text "); return " ++ tail_text)
              (text "return") = Some (text "return " ++ tail_text)).
    { cbn [app]. rewrite find_text_skip; [|closed|closed|done|closed|lia|by vm_compute].
      rewrite find_text_skip; [reflexivity|by apply quoted_no_nul|closed|done|closed|lia|done]. }
    rewrite Hfind. cbv zeta.
    change (drop 6 (text "return " ++ tail_text)) with (32 :: tail_text).
    change tail_text with (cstr (int_to_string v) ++ 59 :: text " }" ++ [0]).
    destruct (parse_return_number v (text " }" ++ [0]) _ Hv eq_refl) as (Hd & Hneg & Hp).
    cbv zeta in Hd, Hneg, Hp. rewrite Hd, Hp, Hneg. cbn [negb skip_blanks Z.eqb Pos.eqb orb char_at].
    f_equal. case_if as E; [rewrite swrap_small; lia|lia].
  - unfold parse_print.
    change (find_text _ (text "print")) with (Some (text "print(" ++ [34] ++ quoted message ++ [34] ++ text "); return " ++ tail_text)).
    set (rest := text "); return " ++ tail_text). cbv beta iota zeta.
    assert (E1 : skip_blanks (drop 5 (text "print(" ++ [34] ++ quoted message ++ [34] ++ rest)) =
                 40 :: 34 :: quoted message ++ 34 :: rest) by reflexivity.
    rewrite E1. cbn [char_at tail]. change (negb (40 =? 40)) with false. cbv iota.
    assert (E2 : skip_blanks (34 :: quoted message ++ 34 :: rest) = 34 :: quoted message ++ 34 :: rest) by reflexivity.
    rewrite E2. cbn [char_at tail]. change (negb (34 =? 34)) with false. cbv iota.
    rewrite print_chars_quoted by (try done; cbn [length]; lia). reflexivity.
Qed.

(** ** Programs it should accept *)

(** The compiler does not skip string literals when it looks for the return
    statement: a program that only differs in what it prints, the word "return", is
    rejected although it has a valid return statement. *)
Theorem compiler_literal_return :
  parse_return (program_text (text "done") 0) = Some 0 /\
  parse_return (program_text (text "return home") 0) = None.
Proof. by vm_compute. Qed.

(** The check of the diagnostic buffer is too weak: with the smallest buffer it
    accepts, 32 bytes, a successful compilation stores 46 bytes in it. *)
Theorem compiler_diagnostic_overflow :
  exists d s', compiler_compile (program_text (text "hi") 7) (text "a" ++ [0]) 32 empty_fs = ((true, Some d), s') /\
    length d = 46%nat.
Proof.
  exists (strcpy (text "build succeeded: x86-64 ELF written to NovaFS")),
    (compiler_compile (program_text (text "hi") 7) (text "a" ++ [0]) 32 empty_fs).2.
  split; [|by vm_compute]. apply pair_fst. by vm_compute.
Qed.

Lemma compiler_parses_program_witness :
  parse_return (program_text (text "NovaCC") (-7)) = Some (-7) /\
  parse_print (program_text (text "NovaCC") (-7)) 512 = Some (text "NovaCC").
Proof.
  apply compiler_parses_program.
  - closed.
  - apply Nat.ltb_lt. by vm_compute.
  - by vm_compute.
  - lia.
Defined.

Lemma compiler_correct_witness :
  exists n, n_type n = FS_TYPE_FILE /\
    view (compiler_compile (program_text (text "hi") 7) (text "a" ++ [0]) 64 empty_fs).2 (text "a") = Some n /\
    execute 7 (n_data n) = Some [Wrote (text "hi"); Exited 7].
Proof.
  destruct (compiler_correct (program_text (text "hi") 7) (text "a" ++ [0]) 64 empty_fs
    (Some (strcpy (text "build succeeded: x86-64 ELF written to NovaFS")))
    (compiler_compile (program_text (text "hi") 7) (text "a" ++ [0]) 64 empty_fs).2)
    as (message & v & p & n & Hr & Hp & _ & _ & Ht & Hn & Hty & He).
  - apply empty_fs_ok.
  - closed.
  - apply pair_fst. by vm_compute.
  - assert (v = 7) as -> by (apply (inj Some); rewrite <- Hr; by vm_compute).
    assert (message = text "hi") as -> by (apply (inj Some); rewrite <- Hp; by vm_compute).
    assert (p = text "a") as -> by (vm_compute in Ht; by vm_compute).
    exists n. split_and!; [exact Hty|exact Hn|exact He].
Defined.
