(* ===== verification/Deb.v ===== *)
(** * kernel/deb.c: the package installer

    A package is an [ar] archive with the members [debian-binary] and [data.tar];
    the latter is unpacked into the volume.  The package comes from outside, so
    every read of it is checked here: a read past its end, and a loop that does
    not end, make the result [None]. *)

From S2P Require Import Prelude Runtime Interfaces Filesystem.

Definition AR_HEADER_SIZE : Z := 60.
Definition TAR_BLOCK_SIZE : Z := 512.

Record DebInstallResult := mkDeb { dr_files : Z; dr_directories : Z; dr_symlinks : Z }.

(** [n] bytes at [offset] of a buffer of [size] bytes, if they are all inside. *)
Definition peek (buffer : list Z) (offset : Z) (n : Z) : option (list Z) :=
  if ((0 <=? offset) && (0 <=? n) && (offset + n <=? Z.of_nat (length buffer)))%bool
  then Some (slice (Z.to_nat offset) (Z.to_nat n) buffer) else None.

Definition all_zero (bytes : list Z) : bool := forallb (fun b => b =? 0) bytes.

(** The loop of [parse_number]: the value and whether a digit was found, or [None]
    for its [return false]. *)
Fixpoint parse_number_loop (l : list Z) (base result : Z) (found : bool) : option (Z * bool) :=
  match l with
  | [] => Some (result, found)
  | c :: l =>
      if ((c =? 0) || (c =? 32))%bool then
        if found then Some (result, found) else parse_number_loop l base result found
      else if ((c <? 48) || (48 + base <=? c))%bool then None
      else
        let digit := c - 48 in
        if (2 ^ 64 - 1 - digit) / base <? result then None
        else parse_number_loop l base (result * base + digit) true
  end.

Definition parse_number (l : list Z) (base : Z) : option Z :=
  match parse_number_loop l base 0 false with
  | Some (value, true) => Some value
  | _ => None
  end.

(** Drops the trailing characters that satisfy [P]. *)
Definition strip_trailing (P : Z -> bool) (l : list Z) : list Z :=
  (fix go l := match l with
               | [] => []
               | c :: r => match go r with [] => if P c then [] else [c] | r' => c :: r' end
               end) l.

Definition ar_name (header : list Z) : list Z :=
  strip_trailing (fun c => (c =? 32) || (c =? 47))%bool (take 16 header).

(** [while (begin < source_length && source[begin] == '/') ++begin;] *)
Fixpoint skip_slashes (l : list Z) : list Z :=
  match l with c :: r => if c =? SLASH then skip_slashes r else l | [] => [] end.

(** The loop that skips leading "./". *)
Fixpoint skip_dots (l : list Z) : list Z :=
  match l with
  | c :: ((d :: r) as l') => if ((c =? DOT) && (d =? SLASH))%bool then skip_dots r else l
  | _ => l
  end.

(** The path of a package entry; the loop over its characters is that of
    [valid_name] in filesystem.c. *)
Definition package_path (source : list Z) : option (list Z) :=
  let path := strip_trailing (fun c => (c =? 0) || (c =? SLASH))%bool (skip_dots (skip_slashes source)) in
  let length := length path in
  if ((length =? 0) || (FS_NAME_MAX <? length))%nat%bool then None else
  match valid_name_loop path path 0 0 with
  | None => None
  | Some segment_start => if dotdot path segment_start length then None else Some path
  end.

(** [header[index]] up to the first NUL, at most 100 of them. *)
Definition field_text (l : list Z) : list Z := cstr (take 100 l).

(** The sum over the header, with the checksum field counted as blanks. *)
Definition tar_checksum (header : list Z) : Z :=
  foldl Z.add 0 (imap (fun index c => if ((148 <=? index) && (index <? 156))%nat%bool then 32 else c) header).

Section deb.
Context {D H : Type} `{!BlockDevice D} `{!Allocator H}.
Notation FS := (st (FsState (D:=D) (H:=H))).

(** A call that returns false makes the caller return false. *)
Definition guard (m : FS bool) (k : FS (option (bool * DebInstallResult))) (result : DebInstallResult)
  : FS (option (bool * DebInstallResult)) :=
  ok <- m ;; if (ok : bool) then k else ret (Some (false, result)).

(** A directory is made unless there is one. *)
Definition ensure_directory (path : list Z) : FS bool :=
  info <- fs_path_info path false ;;
  match info with
  | None => fs_mkdir path 0x1ED
  | Some info => ret (fi_type info =? FS_TYPE_DIRECTORY)
  end.

Fixpoint ensure_parents (prefix rest : list Z) : FS bool :=
  match rest with
  | [] => ret true
  | c :: rest =>
      if c =? 0 then ret true
      else if negb (c =? SLASH) then ensure_parents (prefix ++ [c]) rest
      else ok <- ensure_directory prefix ;;
           if (ok : bool) then ensure_parents (prefix ++ [c]) rest else ret false
  end.

Definition ensure_parent_directories (path : list Z) : FS bool := ensure_parents [] path.

(** The body of the loop for a symbolic link. *)
Definition install_symlink (path target_field : list Z) (existing : option FsFileInfo) : FS bool :=
  let target := field_text target_field in
  match package_path target with
  | None => ret false
  | Some normalized =>
      let target := if (negb (bool_decide (target = [])) && (char_at target =? SLASH))%bool
                    then SLASH :: normalized else normalized in
      match existing with
      | Some info =>
          if negb (fi_type info =? FS_TYPE_SYMLINK) then ret false else
          deleted <- fs_delete path ;;
          if (deleted : bool) then fs_symlink target path else ret false
      | None => fs_symlink target path
      end
  end.

(** One entry of the archive, after its header was accepted. *)
Definition install_entry (type : Z) (path link data : list Z) (result : DebInstallResult)
  : FS (bool * DebInstallResult) :=
  existing <- fs_path_info path false ;;
  if type =? 53 then
    ok <- (match existing with
           | None => fs_mkdir path 0x1ED
           | Some info => ret (fi_type info =? FS_TYPE_DIRECTORY)
           end) ;;
    ret (ok, if (ok : bool) then mkDeb (dr_files result) (u32 (dr_directories result + 1)) (dr_symlinks result) else result)
  else if type =? 50 then
    ok <- install_symlink path link existing ;;
    ret (ok, if (ok : bool) then mkDeb (dr_files result) (dr_directories result) (u32 (dr_symlinks result + 1)) else result)
  else if ((type =? 0) || (type =? 48))%bool then
    ok <- (match existing with
           | Some info => if negb (fi_type info =? FS_TYPE_FILE) then ret false else fs_write path data
           | None => fs_write path data
           end) ;;
    ret (ok, if (ok : bool) then mkDeb (u32 (dr_files result + 1)) (dr_directories result) (dr_symlinks result) else result)
  else ret (true, result).

(** The loop of [install_tar] from [offset] on. *)
Fixpoint install_tar_loop (fuel : nat) (archive : list Z) (offset : Z) (result : DebInstallResult)
  : FS (option (bool * DebInstallResult)) :=
  let size := Z.of_nat (length archive) in
  let failed := ret (Some (false, result)) in
  if negb (u64 (offset + TAR_BLOCK_SIZE) <=? size) then failed else
  match fuel with
  | O => ret None
  | S fuel =>
      match peek archive offset TAR_BLOCK_SIZE with
      | None => ret None
      | Some header =>
          if all_zero header then ret (Some (true, result)) else
          match parse_number (slice 124 12 header) 8, parse_number (slice 148 8 header) 8 with
          | Some file_size, Some stored_checksum =>
              if negb (tar_checksum header =? stored_checksum) then failed else
              match package_path (field_text header) with
              | None => failed
              | Some path =>
                  guard (ensure_parent_directories path) (
                    let data_offset := offset + TAR_BLOCK_SIZE in
                    if size - data_offset <? file_size then failed else
                    match peek archive data_offset file_size with
                    | None => ret None
                    | Some data =>
                        let! (ok, result) := install_entry (nth 156 header 0) path (drop 157 header) data result in
                        if negb ok then ret (Some (false, result)) else
                        let padded := Z.land (u64 (file_size + TAR_BLOCK_SIZE - 1)) (u64 (Z.lnot (TAR_BLOCK_SIZE - 1))) in
                        if size - data_offset <? padded then ret (Some (false, result))
                        else install_tar_loop fuel archive (data_offset + padded) result
                    end) result
              end
          | _, _ => failed
          end
      end
  end.

Definition install_tar (archive : list Z) (result : DebInstallResult) : FS (option (bool * DebInstallResult)) :=
  install_tar_loop (S (length archive / 512)) archive 0 result.

(** The members [deb_install] looks for. *)
Record Members := mkMembers { version_ok : bool; data_tar : option (list Z) }.

(** The loop over the members: [None] for a read out of bounds or too little fuel,
    [Some None] for a [return false]. *)
Fixpoint scan_members (fuel : nat) (package : list Z) (offset : Z) (m : Members) : option (option Members) :=
  let size := Z.of_nat (length package) in
  if negb (u64 (offset + AR_HEADER_SIZE) <=? size) then Some (Some m) else
  match fuel with
  | O => None
  | S fuel =>
      match peek package offset AR_HEADER_SIZE with
      | None => None
      | Some header =>
          if (negb (nth 58 header 0 =? 96) || negb (nth 59 header 0 =? 10))%bool then Some None else
          match parse_number (slice 48 10 header) 10 with
          | None => Some None
          | Some member_size =>
              let payload_offset := offset + AR_HEADER_SIZE in
              if size - payload_offset <? member_size then Some None else
              match peek package payload_offset member_size with
              | None => None
              | Some payload =>
                  let name := ar_name header in
                  let m :=
                    if strcmp name (text "debian-binary") =? 0 then
                      mkMembers ((member_size =? 4) && bool_decide (payload = text "2.0" ++ [10]))%bool (data_tar m)
                    else if strcmp name (text "data.tar") =? 0 then mkMembers (version_ok m) (Some payload)
                    else m in
                  let next := u64 (payload_offset + member_size + Z.land member_size 1) in
                  if ((next <? payload_offset) || (size <? next))%bool then Some None
                  else scan_members fuel package next m
              end
          end
      end
  end.

Definition deb_install (package : list Z) : FS (option (option DebInstallResult)) :=
  if (Z.of_nat (length package) <? 8) then ret (Some None) else
  if negb (bool_decide (take 8 package = text "!<arch>" ++ [10])) then ret (Some None) else
  match scan_members (S (length package / 60)) package 8 (mkMembers false None) with
  | None => ret None
  | Some None => ret (Some None)
  | Some (Some m) =>
      match version_ok m, data_tar m with
      | true, Some tar =>
          installed <- install_tar tar (mkDeb 0 0 0) ;;
          match installed with
          | None => ret None
          | Some (ok, local) => ret (Some (if (ok : bool) then Some local else None))
          end
      | _, _ => ret (Some None)
      end
  end.

Definition deb_install_file (name : list Z) : FS (option (option DebInstallResult)) :=
  info <- fs_path_info name true ;;
  match info with
  | None => ret (Some None)
  | Some info =>
      if (negb (fi_type info =? FS_TYPE_FILE) || (fi_size info =? 0) || (1024 * 1024 <? fi_size info))%bool
      then ret (Some None) else
      package <- alloc (fi_size info) ;;
      if package =? 0 then ret (Some None) else
      loaded <- fs_read name (fi_size info) ;;
      installed <- (match loaded with
                    | Some l => if Z.of_nat (length l) =? fi_size info then deb_install l else ret (Some None)
                    | None => ret (Some None)
                    end) ;;
      free package ;;;
      ret installed
  end.

(** The test at boot, with the package linked into the kernel as a parameter. *)
Definition deb_self_test (builtin_test_deb : list Z) : FS (option bool) :=
  installed <- deb_install builtin_test_deb ;;
  match installed with
  | None => ret None
  | Some None => ret (Some false)
  | Some (Some r) =>
      if (negb (dr_files r =? 1) || negb (dr_directories r =? 2) || negb (dr_symlinks r =? 1))%bool
      then ret (Some false) else
      loaded <- fs_read (text "opt/nova/current" ++ [0]) 24 ;;
      ret (Some (bool_decide (loaded = Some (text "NovaOS .deb payload" ++ [10]))))
  end.

End deb.
