(* ===== verification/DebFacts.v ===== *)
(** * kernel/deb.c: packages cannot break out, and what is packed is unpacked *)

From S2P Require Import Prelude Runtime Heap Interfaces RamDisk Filesystem.
From S2P Require Import FsNames FsFrame FsTree FsTheorems Account Deb.

(** ** Paths *)

Lemma strip_trailing_last P l c : last (strip_trailing P l) = Some c -> P c = false.
Proof.
  induction l as [|x l IH]; [done|]. cbn [strip_trailing]. fold (strip_trailing P l).
  destruct (strip_trailing P l) as [|y r]; [|done].
  destruct (P x) eqn:E; [done|]. by intros [= <-].
Qed.

Lemma valid_name_loop_segment name rest index segment seg :
  valid_name_loop name rest index segment = Some seg -> (segment <= index)%nat -> rest <> [] ->
  last rest <> Some SLASH -> (seg < index + length rest)%nat.
Proof.
  revert index segment. induction rest as [|c rest IH]; intros index segment Hv Hs Hne Hl; [done|].
  cbn [valid_name_loop] in Hv. destruct ((c <? 32) || (126 <? c))%bool; [done|].
  destruct (decide (rest = [])) as [-> |Hr].
  - cbn [last] in Hl. destruct (c =? SLASH) eqn:E; [apply Z.eqb_eq in E; by subst|].
    injection Hv as <-. cbn [length]. lia.
  - assert (Hl' : last rest <> Some SLASH) by (destruct rest; done).
    destruct (c =? SLASH); [destruct (_ || _)%bool; [done|]|];
      apply IH in Hv; try done; cbn [length]; lia.
Qed.

Lemma package_path_valid source path :
  package_path source = Some path -> path_ok path /\ valid_name path = true.
Proof.
  unfold package_path. cbv zeta. set (p := strip_trailing _ _).
  assert (Hlast : last p <> Some SLASH) by (intros E; apply strip_trailing_last in E; done).
  destruct (_ || _)%bool eqn:El; [done|]. apply orb_false_iff in El as [El1 El2].
  apply Nat.eqb_neq in El1. apply Nat.ltb_ge in El2.
  pose proof (valid_name_loop_spec p p 0 0 ltac:(lia) eq_refl ltac:(intros; lia) ltac:(lia)) as Hs.
  rewrite !drop_0 in Hs.
  destruct (valid_name_loop p p 0 0) as [seg|] eqn:Ev; [|done]. destruct (dotdot p seg (length p)) eqn:Ed; [done|].
  intros [= <-]. destruct Hs as (_ & Hp & _).
  assert (Hseg : (seg < length p)%nat).
  { apply valid_name_loop_segment in Ev; [done|lia|by destruct p|done]. }
  assert (Hnul : Forall (fun c => c <> 0) p).
  { eapply Forall_impl; [exact Hp|]. unfold printable. cbn. lia. }
  assert (Hsl : strlen p = length p) by (rewrite <- length_cstr; by rewrite cstr_id).
  assert (Hvn : valid_name p = true).
  { unfold valid_name. rewrite Hsl, cstr_id by done. rewrite Ev, Ed.
    rewrite (proj2 (Nat.eqb_neq _ _) El1), (proj2 (Nat.ltb_ge _ _) El2). cbn [orb negb andb].
    rewrite (proj2 (Nat.ltb_lt _ _) Hseg). done. }
  split; [|done]. apply valid_name_spec in Hvn. by rewrite cstr_id in Hvn.
Qed.

(** A package cannot break out of the directory tree or hide names: every path
    [package_path] accepts, for entries and for link targets, is a path the file
    system itself accepts - 1 to 95 printable characters, no leading or trailing
    slash, no empty segment, no ".." anywhere. *)
Theorem package_path_confined source path :
  package_path source = Some path -> path_ok path /\ valid_name path = true.
Proof.
  apply package_path_valid.
Qed.

Lemma package_path_confined_witness :
  path_ok (text "opt/x") /\ package_path (text "./opt/x/") = Some (text "opt/x") /\ package_path (text "../x") = None.
Proof.
  split; [|split; vm_compute; reflexivity].
  apply (package_path_confined (text "./opt/x/")). vm_compute. reflexivity.
Defined.

(** ** No package reads past its end or loops *)

Lemma parse_number_loop_bound l base result found r :
  1 < base -> 0 <= result < 2 ^ 64 -> parse_number_loop l base result found = Some r -> 0 <= r.1 < 2 ^ 64.
Proof.
  intros Hb. revert result found. induction l as [|c l IH]; intros result found Hr; cbn [parse_number_loop].
  { by intros [= <-]. }
  case_if as E1; [destruct found; [by intros [= <-]|by apply IH]|].
  case_if as E2; [done|]. case_if as E3; [done|]. apply IH.
  assert (result <= (2 ^ 64 - 1 - (c - 48)) / base) by lia.
  assert (base * ((2 ^ 64 - 1 - (c - 48)) / base) <= 2 ^ 64 - 1 - (c - 48)) by (apply Z.mul_div_le; lia). nia.
Qed.

Lemma parse_number_bound l base v : 1 < base -> parse_number l base = Some v -> 0 <= v < 2 ^ 64.
Proof.
  intros Hb. unfold parse_number. destruct (parse_number_loop l base 0 false) as [[v' f]|] eqn:E; [|done].
  apply parse_number_loop_bound in E; [|done|lia]. destruct f; [|done]. by intros [= <-].
Qed.

Lemma peek_inside buffer offset n :
  0 <= offset -> 0 <= n -> offset + n <= Z.of_nat (length buffer) ->
  peek buffer offset n = Some (slice (Z.to_nat offset) (Z.to_nat n) buffer).
Proof. intros. unfold peek. by rewrite (proj2 (andb_true_iff _ _)) by lia. Qed.

Lemma length_slice_inside off n (l : list Z) : (off + n <= length l)%nat -> length (slice off n l) = n.
Proof. intros. unfold slice. rewrite length_take, length_drop. lia. Qed.

Lemma padded_eq n : 0 <= n < 2 ^ 63 ->
  let p := Z.land (u64 (n + TAR_BLOCK_SIZE - 1)) (u64 (Z.lnot (TAR_BLOCK_SIZE - 1))) in
  p = (n + 511) / 512 * 512 /\ n <= p < n + 512.
Proof.
  intros Hn. cbv zeta. unfold TAR_BLOCK_SIZE. rewrite (wrap_small 64 (n + 512 - 1)) by lia.
  change (512 - 1) with (2 ^ 9 - 1). rewrite wrap_land_lnot_ones by lia. change (2 ^ 9) with 512.
  replace (n + 512 - 1) with (n + 511) by lia.
  pose proof (Z.div_mod (n + 511) 512). pose proof (Z.mod_pos_bound (n + 511) 512). lia.
Qed.

Section safety.
Context {D H : Type} `{!BlockDevice D} `{!Allocator H}.
Notation FS := (st (FsState (D:=D) (H:=H))).
Implicit Types s : FsState (D:=D) (H:=H).

(** The routine keeps the directory a tree. *)
Definition tree_safe {A} (m : FS A) : Prop := forall s, tree_inv s -> tree_inv (m s).2.

Lemma tree_safe_quiet {A} (m : FS A) : quiet m -> tree_safe m.
Proof. intros Hq s. by apply quiet_inv. Qed.

Lemma tree_safe_bind {A B} (m : FS A) (k : A -> FS B) :
  tree_safe m -> (forall a, tree_safe (k a)) -> tree_safe (bind m k).
Proof.
  intros Hm Hk s Hs. unfold bind. specialize (Hm s Hs). destruct (m s) as [a s']. by apply Hk.
Qed.

Lemma tree_safe_ret {A} (a : A) : tree_safe (ret a).
Proof. by intros s. Qed.

Lemma tree_safe_op op (m : FS bool) : m = run_op op -> typed_op op -> tree_safe m.
Proof. intros -> Ht s. by apply run_op_inv. Qed.

Lemma tree_safe_mkdir path mode : 0 <= mode < 2 ^ 16 -> tree_safe (fs_mkdir path mode).
Proof. by apply (tree_safe_op (OpMkdir path mode)). Qed.

Lemma tree_safe_write path data : Z.of_nat (length data) < 2 ^ 64 -> tree_safe (fs_write path data).
Proof. by apply (tree_safe_op (OpWrite path data)). Qed.

Lemma tree_safe_delete path : tree_safe (fs_delete path).
Proof. by apply (tree_safe_op (OpDelete path)). Qed.

Lemma tree_safe_symlink target path : tree_safe (fs_symlink target path).
Proof. by apply (tree_safe_op (OpSymlink target path)). Qed.

Lemma tree_safe_info path b : tree_safe (fs_path_info path b).
Proof. apply tree_safe_quiet, quiet_fs_path_info. Qed.

End safety.

#[export] Hint Resolve tree_safe_ret tree_safe_delete tree_safe_symlink tree_safe_info : nova.

Ltac tree_safe :=
  repeat first
    [ progress intros
    | solve [eauto with nova nocore]
    | apply tree_safe_mkdir; lia
    | apply tree_safe_bind
    | match goal with
      | |- tree_safe (if ?b then _ else _) => destruct b
      | |- tree_safe (match ?x with _ => _ end) => destruct x
      end ].

Section install.
Context {D H : Type} `{!BlockDevice D} `{!Allocator H}.
Notation FS := (st (FsState (D:=D) (H:=H))).
Implicit Types s : FsState (D:=D) (H:=H).

Lemma tree_safe_parents prefix rest : tree_safe (ensure_parents (D:=D) (H:=H) prefix rest).
Proof.
  revert prefix. induction rest as [|c rest IH]; intros prefix; cbn [ensure_parents]; [tree_safe|].
  unfold ensure_directory. tree_safe.
Qed.

Lemma tree_safe_entry type path link data r :
  Z.of_nat (length data) < 2 ^ 64 -> tree_safe (install_entry (D:=D) (H:=H) type path link data r).
Proof.
  intros Hd. pose proof (tree_safe_write (D:=D) (H:=H) path data Hd) as Hw.
  unfold install_entry, install_symlink. cbv zeta. tree_safe.
Qed.

Lemma wp_tree_safe {A} (m : FS A) Q s :
  tree_safe m -> tree_inv s -> (forall a s', tree_inv s' -> Q a s') -> wp m Q s.
Proof. intros Hm Hs HQ. apply HQ, Hm, Hs. Qed.

Lemma install_tar_loop_safe fuel archive offset r s :
  Z.of_nat (length archive) < 2 ^ 63 -> 0 <= offset <= Z.of_nat (length archive) ->
  Z.of_nat (length archive) - offset < 512 * Z.of_nat fuel -> tree_inv s ->
  wp (install_tar_loop fuel archive offset r) (fun res s' => res <> None /\ tree_inv s') s.
Proof.
  intros Hsize. revert offset r s. induction fuel as [|fuel IH]; intros offset r s Ho Hf Hs; cbn [install_tar_loop];
    unfold TAR_BLOCK_SIZE in *; rewrite (wrap_small 64 (offset + 512)) by lia.
  { case_if as E; [by apply wp_ret|]. lia. }
  case_if as E; [by apply wp_ret|]. rewrite peek_inside by lia. set (header := slice _ _ archive).
  case_if as E0; [by apply wp_ret|].
  destruct (parse_number (slice 124 12 header) 8) as [file_size|] eqn:Es; [|by apply wp_ret].
  apply parse_number_bound in Es; [|lia].
  destruct (parse_number (slice 148 8 header) 8) as [sum|]; [|by apply wp_ret].
  case_if as E2; [by apply wp_ret|]. destruct (package_path _) as [path|]; [|by apply wp_ret].
  unfold guard. wp_step. apply wp_tree_safe; [apply tree_safe_parents|done|]. intros ok s1 Hs1.
  destruct ok; [|by apply wp_ret]. cbv zeta. case_if as E3; [by apply wp_ret|].
  rewrite peek_inside by lia. wp_step. apply wp_tree_safe; [apply tree_safe_entry|done|].
  { rewrite length_slice_inside; lia. }
  intros [ok r'] s2 Hs2. case_if as E4; [by apply wp_ret|].
  pose proof (padded_eq file_size ltac:(lia)) as [Hpe Hp]. cbv zeta in Hpe, Hp. unfold TAR_BLOCK_SIZE in Hpe, Hp.
  case_if as E5; [by apply wp_ret|]. apply IH; [lia|lia|done].
Qed.

Lemma scan_members_safe fuel package offset m :
  Z.of_nat (length package) < 2 ^ 63 -> 0 <= offset <= Z.of_nat (length package) ->
  Z.of_nat (length package) - offset < 60 * Z.of_nat fuel ->
  match scan_members fuel package offset m with
  | None => False
  | Some None => True
  | Some (Some m') => forall tar, data_tar m' = Some tar ->
      data_tar m = Some tar \/ (length tar <= length package)%nat
  end.
Proof.
  intros Hsize. revert offset m. induction fuel as [|fuel IH]; intros offset m Ho Hf; cbn [scan_members];
    unfold AR_HEADER_SIZE in *; rewrite (wrap_small 64 (offset + 60)) by lia.
  { case_if as E; [by left|]. lia. }
  case_if as E; [by left|]. rewrite peek_inside by lia. set (header := slice _ _ package).
  case_if as E0; [done|]. destruct (parse_number _ 10) as [n|] eqn:En; [|done].
  apply parse_number_bound in En; [|lia]. cbv zeta. case_if as E1; [done|].
  rewrite peek_inside by lia. set (payload := slice _ _ package).
  assert (Hpl : (length payload <= length package)%nat).
  { unfold payload, slice. rewrite length_take, length_drop. lia. }
  assert (Hodd : 0 <= Z.land n 1 <= 1).
  { pose proof (land_ones_mod n 1 ltac:(lia)) as Hl1. change (2 ^ 1 - 1) with 1 in Hl1. change (2 ^ 1) with 2 in Hl1.
    pose proof (Z.mod_pos_bound n 2). lia. }
  rewrite (wrap_small 64 (offset + 60 + n + Z.land n 1)) by lia.
  case_if as E2; [done|].
  match goal with |- context [scan_members fuel package ?o ?m2] => specialize (IH o m2 ltac:(lia) ltac:(lia)) end.
  destruct (scan_members fuel package _ _) as [[m'|]|]; try done. intros tar Ht. specialize (IH tar Ht).
  destruct IH as [IH|IH]; [|by right]. revert IH. case_if as E3; [by left|]. case_if as E4; [|by left].
  intros [= <-]. by right.
Qed.

(** [C28] Installing any package is safe and ends: whatever bytes it consists of, the
    installer reads no byte outside it, the loops over the members of the archive
    and over the entries of the tar file end, and the directory of the volume stays
    a well-formed tree, also when the installation stops half-way. *)
Theorem deb_install_safe package s :
  Z.of_nat (length package) < 2 ^ 63 -> tree_inv s ->
  (deb_install package s).1 <> None /\ tree_inv (deb_install package s).2.
Proof.
  intros Hsize Hs. change (wp (deb_install package) (fun r s' => r <> None /\ tree_inv s') s).
  unfold deb_install. case_if as E1; [by apply wp_ret|]. case_if as E2; [by apply wp_ret|].
  pose proof (scan_members_safe (S (length package / 60)) package 8 (mkMembers false None) Hsize ltac:(lia)) as Hm.
  pose proof (Nat.mul_succ_div_gt (length package) 60 ltac:(lia)).
  specialize (Hm ltac:(lia)).
  destruct (scan_members _ package 8 _) as [[m|]|]; [|by apply wp_ret|done].
  destruct (version_ok m), (data_tar m) as [tar|]; try by apply wp_ret.
  destruct (Hm tar eq_refl) as [Hx|Htar]; [done|]. wp_step. unfold install_tar.
  pose proof (Nat.mul_succ_div_gt (length tar) 512 ltac:(lia)).
  wp_call install_tar_loop_safe; [lia|lia|lia|done|]. intros res s' [Hr Hs'].
  destruct res as [[ok local]|]; [|done]. by apply wp_ret.
Qed.

End install.

(** ** What is packed is unpacked

    A tar archive as a packer writes it: a header block per entry with octal sizes
    and a checksum, the data padded to blocks, and two zero blocks at the end. *)

Record TarEntry := mkTar { te_type : Z; te_path : list Z; te_link : list Z; te_data : list Z }.

(** [n] in [width] octal digits. *)
Fixpoint octal (width : nat) (n : Z) : list Z :=
  match width with O => [] | S width => octal width (n / 8) ++ [48 + n mod 8] end.

Definition pad (n : nat) (l : list Z) : list Z := l ++ replicate (n - length l) 0.

Definition sum (l : list Z) : Z := foldr Z.add 0 l.

Definition before_checksum (e : TarEntry) : list Z :=
  pad 100 (te_path e) ++ replicate 24 0 ++ (octal 11 (Z.of_nat (length (te_data e))) ++ [0]) ++ replicate 12 0.

Definition after_checksum (e : TarEntry) : list Z := [te_type e] ++ pad 100 (te_link e) ++ replicate 255 0.

Definition entry_checksum (e : TarEntry) : Z :=
  sum (before_checksum e) + 8 * 32 + sum (after_checksum e).

Definition tar_header (e : TarEntry) : list Z :=
  before_checksum e ++ (octal 6 (entry_checksum e) ++ [0; 32]) ++ after_checksum e.

Definition tar_padding (n : nat) : nat := Z.to_nat ((Z.of_nat n + 511) / 512 * 512 - Z.of_nat n).

Definition tar_entry (e : TarEntry) : list Z :=
  tar_header e ++ te_data e ++ replicate (tar_padding (length (te_data e))) 0.

Definition tar_archive (es : list TarEntry) : list Z := mjoin (tar_entry <$> es) ++ replicate 1024 0.

(** An entry a packer makes: its path is already in the form paths are installed
    under. *)
Record tar_entry_ok (e : TarEntry) : Prop := {
  to_type : is_byte (te_type e);
  to_path : package_path (te_path e) = Some (te_path e);
  to_link : (length (te_link e) <= 100)%nat /\ bytes (te_link e) /\ Forall (fun c => c <> 0) (te_link e);
  to_size : Z.of_nat (length (te_data e)) < 8 ^ 11 }.

Lemma length_octal w n : length (octal w n) = w.
Proof. revert n. induction w as [|w IH]; intros n; cbn [octal]; [done|]. rewrite length_app, IH. cbn [length]. lia. Qed.

Lemma octal_bytes w n : bytes (octal w n).
Proof.
  revert n. induction w as [|w IH]; intros n; cbn [octal]; [constructor|]. apply bytes_app. split; [done|].
  apply Forall_singleton. pose proof (Z.mod_pos_bound n 8). unfold is_byte. lia.
Qed.

Lemma parse_octal w n rest found :
  0 <= n < 8 ^ Z.of_nat w -> (w <= 21)%nat ->
  parse_number_loop (octal w n ++ rest) 8 0 found = parse_number_loop rest 8 n (found || negb (w =? 0)%nat).
Proof.
  revert n rest. induction w as [|w IH]; intros n rest Hn Hw.
  { cbn in Hn. assert (n = 0) as -> by lia. cbn. by rewrite orb_false_r. }
  cbn [octal]. rewrite <- app_assoc. rewrite Nat2Z.inj_succ, Z.pow_succ_r in Hn by lia.
  pose proof (Z.div_mod n 8). pose proof (Z.mod_pos_bound n 8).
  rewrite IH by lia. cbn [app parse_number_loop].
  assert (8 ^ Z.of_nat w <= 8 ^ 20) by (apply Z.pow_le_mono_r; lia).
  assert (((48 + n mod 8 =? 0) || (48 + n mod 8 =? 32))%bool = false) as -> by lia.
  assert (((48 + n mod 8 <? 48) || (48 + 8 <=? 48 + n mod 8))%bool = false) as -> by lia.
  assert (((2 ^ 64 - 1 - (48 + n mod 8 - 48)) / 8 <? n / 8) = false) as ->.
  { apply Z.ltb_ge. apply Z.div_le_mono; [lia|]. change (2 ^ 64) with (8 ^ 20 * 16). lia. }
  rewrite orb_true_r. f_equal. lia.
Qed.

Lemma parse_octal_field w n rest :
  0 <= n < 8 ^ Z.of_nat (S w) -> (S w <= 21)%nat -> parse_number (octal (S w) n ++ 0 :: rest) 8 = Some n.
Proof. intros. unfold parse_number. by rewrite parse_octal by done. Qed.

Lemma sum_app l1 l2 : sum (l1 ++ l2) = sum l1 + sum l2.
Proof. induction l1 as [|x l1 IH]; [done|]. cbn [app sum foldr]. fold (sum (l1 ++ l2)). fold (sum l1). lia. Qed.

Lemma sum_bound l : bytes l -> 0 <= sum l <= 255 * Z.of_nat (length l).
Proof.
  induction 1 as [|x l Hx Hl IH]; [done|]. cbn [sum foldr length]. fold (sum l). unfold is_byte in Hx. lia.
Qed.

Lemma foldl_sum l acc : foldl Z.add acc l = acc + sum l.
Proof. revert acc. induction l as [|x l IH]; intros acc; cbn [foldl sum foldr]; [lia|]. rewrite IH. fold (sum l). lia. Qed.

Lemma imap_same (f : nat -> Z -> Z) l : (forall i x, (i < length l)%nat -> f i x = x) -> imap f l = l.
Proof.
  revert f. induction l as [|x l IH]; intros f Hf; [done|]. cbn [imap length] in *. rewrite Hf by lia.
  f_equal. apply IH. intros i y Hi. apply Hf. lia.
Qed.

Lemma imap_const (f : nat -> Z -> Z) l c : (forall i x, (i < length l)%nat -> f i x = c) -> imap f l = replicate (length l) c.
Proof.
  revert f. induction l as [|x l IH]; intros f Hf; [done|]. cbn [imap length replicate] in *. rewrite Hf by lia.
  f_equal. apply IH. intros i y Hi. apply Hf. lia.
Qed.

Lemma length_pad n l : (length l <= n)%nat -> length (pad n l) = n.
Proof. intros. unfold pad. rewrite length_app, length_replicate. lia. Qed.

Lemma field_text_pad l rest :
  (length l <= 100)%nat -> Forall (fun c => c <> 0) l ->
  field_text (pad 100 l ++ rest) = l.
Proof.
  intros Hl Hn. unfold field_text. rewrite take_app_length' by (by rewrite length_pad).
  unfold pad. destruct (100 - length l)%nat as [|k] eqn:E.
  - cbn [replicate]. rewrite app_nil_r. by apply cstr_id.
  - cbn [replicate]. by apply cstr_app_nul.
Qed.

Lemma path_facts e :
  tar_entry_ok e -> (0 < length (te_path e) <= 95)%nat /\ bytes (te_path e) /\ Forall (fun c => c <> 0) (te_path e).
Proof.
  intros [_ Hp _ _]. apply package_path_valid in Hp as [(Hl & Hpr & _) _]. unfold FS_NAME_MAX in Hl.
  split_and!; [lia|lia| |]; (eapply Forall_impl; [exact Hpr|]); unfold printable, is_byte; cbn; lia.
Qed.

Lemma length_before e : tar_entry_ok e -> length (before_checksum e) = 148%nat.
Proof.
  intros He. destruct (path_facts e He) as (Hl & _). unfold before_checksum.
  rewrite !length_app, length_pad, length_octal, !length_replicate by lia. done.
Qed.

Lemma length_after e : tar_entry_ok e -> length (after_checksum e) = 356%nat.
Proof.
  intros He. destruct (to_link _ He) as (Hl & _). unfold after_checksum.
  rewrite !length_app, length_pad, length_replicate by lia. done.
Qed.

Lemma length_header e : tar_entry_ok e -> length (tar_header e) = 512%nat.
Proof.
  intros He. unfold tar_header. rewrite !length_app, length_before, length_after, length_octal by done. done.
Qed.

Lemma bytes_pad n l : bytes l -> bytes (pad n l).
Proof. intros. unfold pad. apply bytes_app. split; [done|apply bytes_zeroes]. Qed.

Lemma checksum_bound e : tar_entry_ok e -> 0 <= entry_checksum e < 8 ^ 6.
Proof.
  intros He. destruct (path_facts e He) as (_ & Hb & _). destruct (to_link _ He) as (_ & Hlb & _).
  assert (H1 : bytes (before_checksum e)).
  { unfold before_checksum. rewrite !bytes_app. split_and!; auto using bytes_pad, bytes_zeroes, octal_bytes.
    apply Forall_singleton. unfold is_byte. lia. }
  assert (H2 : bytes (after_checksum e)).
  { unfold after_checksum. rewrite !bytes_app. split_and!; auto using bytes_pad, bytes_zeroes.
    apply Forall_singleton, (to_type _ He). }
  pose proof (sum_bound _ H1) as B1. pose proof (sum_bound _ H2) as B2.
  rewrite length_before in B1 by done. rewrite length_after in B2 by done. unfold entry_checksum. lia.
Qed.

(** The installer finds in a header what was put there. *)
Lemma header_size e :
  tar_entry_ok e -> parse_number (slice 124 12 (tar_header e)) 8 = Some (Z.of_nat (length (te_data e))).
Proof.
  intros He. destruct (path_facts e He) as (Hl & _). unfold tar_header, before_checksum. rewrite <- !app_assoc.
  assert (H1 : length (pad 100 (te_path e)) = 100%nat) by (apply length_pad; lia).
  rewrite slice_skip, H1 by lia. rewrite slice_skip by (rewrite length_replicate; lia). rewrite length_replicate.
  cbn [Nat.sub]. rewrite (app_assoc (octal 11 _)), slice_head by (by rewrite length_app, length_octal).
  apply (parse_octal_field 10 _ []); [|lia]. pose proof (to_size _ He). lia.
Qed.

Lemma header_checksum e :
  tar_entry_ok e -> parse_number (slice 148 8 (tar_header e)) 8 = Some (entry_checksum e).
Proof.
  intros He. unfold tar_header. rewrite slice_skip, length_before by (rewrite ?length_before by done; lia || done).
  rewrite slice_head by (by rewrite length_app, length_octal).
  apply (parse_octal_field 5 _ [32]); [|lia]. by apply checksum_bound.
Qed.

Lemma header_sum e : tar_entry_ok e -> tar_checksum (tar_header e) = entry_checksum e.
Proof.
  intros He. unfold tar_checksum. rewrite foldl_sum. unfold tar_header.
  rewrite (imap_app _ (before_checksum e)), (imap_app _ (octal 6 _ ++ [0; 32])).
  rewrite (imap_same _ (before_checksum e)).
  2:{ intros i x Hi. rewrite length_before in Hi by done. rewrite (proj2 (Nat.leb_gt 148 i)) by lia. done. }
  rewrite (imap_const _ (octal 6 _ ++ [0; 32]) 32).
  2:{ intros i x Hi. rewrite length_app, length_octal in Hi. cbn [length] in Hi. unfold compose. rewrite length_before by done.
      rewrite (proj2 (Nat.leb_le 148 _)), (proj2 (Nat.ltb_lt _ 156)) by lia. done. }
  rewrite (imap_same _ (after_checksum e)).
  2:{ intros i x Hi. unfold compose. rewrite !length_app, length_octal, length_before by done. cbn [length].
      rewrite (proj2 (Nat.ltb_ge _ 156)) by lia. by rewrite andb_false_r. }
  rewrite length_app, length_octal, !sum_app. unfold entry_checksum. cbn. lia.
Qed.

Lemma header_path e : tar_entry_ok e -> field_text (tar_header e) = te_path e.
Proof.
  intros He. destruct (path_facts e He) as (Hl & _ & Hn). unfold tar_header, before_checksum. rewrite <- !app_assoc.
  apply field_text_pad; [lia|done].
Qed.

Lemma header_nonzero e : tar_entry_ok e -> all_zero (tar_header e) = false.
Proof.
  intros He. destruct (path_facts e He) as (Hl & _ & Hn). unfold tar_header, before_checksum, pad.
  destruct (te_path e) as [|c path]; [cbn in Hl; lia|]. apply Forall_cons in Hn as [Hc _].
  cbn [app all_zero forallb]. by rewrite (proj2 (Z.eqb_neq c 0) Hc).
Qed.

Lemma header_type_link e :
  tar_entry_ok e -> nth 156 (tar_header e) 0 = te_type e /\ field_text (drop 157 (tar_header e)) = te_link e.
Proof.
  intros He. destruct (to_link _ He) as (Hl & _ & Hn).
  assert (E : tar_header e = (before_checksum e ++ octal 6 (entry_checksum e) ++ [0; 32]) ++ after_checksum e)
    by (unfold tar_header; by rewrite <- !app_assoc).
  assert (L : length (before_checksum e ++ octal 6 (entry_checksum e) ++ [0; 32]) = 156%nat)
    by (rewrite !length_app, length_octal, length_before by done; done).
  rewrite E. split.
  - rewrite app_nth2 by lia. by rewrite L.
  - rewrite drop_app_ge, L by lia. change (157 - 156)%nat with 1%nat. unfold after_checksum. cbn [app drop].
    by apply field_text_pad.
Qed.

Section roundtrip.
Context {D H : Type} `{!BlockDevice D} `{!Allocator H}.
Notation FS := (st (FsState (D:=D) (H:=H))).

(** What unpacking the entries means: for each entry in order, its parent
    directories, then the entry itself; the first failure ends it. *)
Fixpoint run_entries (es : list TarEntry) (r : DebInstallResult) : FS (option (bool * DebInstallResult)) :=
  match es with
  | [] => ret (Some (true, r))
  | e :: es =>
      guard (ensure_parent_directories (te_path e)) (
        let! (ok, r) := install_entry (te_type e) (te_path e) (te_link e) (te_data e) r in
        if negb ok then ret (Some (false, r)) else run_entries es r) r
  end.

Lemma bind_ext {A B} (m : FS A) (k k' : A -> FS B) s :
  (forall a s', k a s' = k' a s') -> bind m k s = bind m k' s.
Proof. intros Hk. unfold bind. destruct (m s). apply Hk. Qed.

Lemma install_entry_link type path link link' data r :
  field_text link = field_text link' ->
  install_entry (D:=D) (H:=H) type path link data r = install_entry type path link' data r.
Proof. intros E. unfold install_entry, install_symlink. by rewrite E. Qed.

Lemma slice_middle (pre x post : list Z) n : n = length x -> slice (length pre) n (pre ++ x ++ post) = x.
Proof. intros ->. unfold slice. by rewrite drop_app_length, take_app_length. Qed.

Lemma length_tar_entry e : tar_entry_ok e ->
  Z.of_nat (length (tar_entry e)) = 512 + (Z.of_nat (length (te_data e)) + 511) / 512 * 512 /\
  (512 <= length (tar_entry e))%nat.
Proof.
  intros He. unfold tar_entry. rewrite !length_app, length_replicate, length_header by done. unfold tar_padding.
  pose proof (Z.div_mod (Z.of_nat (length (te_data e)) + 511) 512).
  pose proof (Z.mod_pos_bound (Z.of_nat (length (te_data e)) + 511) 512). lia.
Qed.

Lemma install_tar_loop_archive es pre fuel r s :
  Forall tar_entry_ok es -> (length es < fuel)%nat ->
  Z.of_nat (length (pre ++ tar_archive es)) < 2 ^ 63 ->
  install_tar_loop fuel (pre ++ tar_archive es) (Z.of_nat (length pre)) r s = run_entries es r s.
Proof.
  intros Hes. revert pre fuel r s. induction Hes as [|e es He Hes IH]; intros pre [|fuel] r s Hf Hsize; try (cbn in Hf; lia).
  - unfold tar_archive in *. change (mjoin (tar_entry <$> []) ++ replicate 1024 0) with (replicate 1024 0) in *.
    rewrite length_app, length_replicate in Hsize.
    cbn [install_tar_loop]. unfold TAR_BLOCK_SIZE. rewrite length_app, length_replicate.
    rewrite (wrap_small 64) by lia. case_if as E; [lia|]. rewrite peek_inside by (rewrite ?length_app, ?length_replicate; lia).
    rewrite Nat2Z.id. unfold slice. rewrite drop_app_length. by vm_compute.
  - assert (Ea : tar_archive (e :: es) = tar_entry e ++ tar_archive es).
    { unfold tar_archive. change (mjoin (tar_entry <$> e :: es)) with (tar_entry e ++ mjoin (tar_entry <$> es)).
      by rewrite <- app_assoc. }
    rewrite Ea in *. set (archive := pre ++ tar_entry e ++ tar_archive es) in *.
    destruct (length_tar_entry e He) as [Hle _]. set (n := Z.of_nat (length (te_data e))) in *.
    assert (Hlen : Z.of_nat (length archive) =
      Z.of_nat (length pre) + (512 + (n + 511) / 512 * 512) + Z.of_nat (length (tar_archive es))).
    { unfold archive. rewrite !length_app. lia. }
    pose proof (to_size _ He) as Hn8. fold n in Hn8.
    pose proof (padded_eq n ltac:(lia)) as [Hpe Hpn]. cbv zeta in Hpe, Hpn.
    assert (Hhdr : peek archive (Z.of_nat (length pre)) 512 = Some (tar_header e)).
    { rewrite peek_inside by lia. f_equal. rewrite Nat2Z.id. unfold archive, tar_entry. rewrite <- !app_assoc.
      apply slice_middle. by rewrite length_header. }
    assert (Hdata : peek archive (Z.of_nat (length pre) + 512) n = Some (te_data e)).
    { rewrite peek_inside by lia. f_equal. unfold archive, tar_entry. rewrite <- !app_assoc, (app_assoc pre).
      replace (Z.to_nat (Z.of_nat (length pre) + 512)) with (length (pre ++ tar_header e))
        by (rewrite length_app, length_header by done; lia).
      apply slice_middle. unfold n. lia. }
    cbn [install_tar_loop run_entries]. unfold TAR_BLOCK_SIZE in *. rewrite (wrap_small 64) by lia.
    case_if as E; [lia|]. clear E. rewrite Hhdr, header_nonzero, header_size, header_checksum, header_sum, header_path by done.
    rewrite Z.eqb_refl, (to_path _ He). cbn [negb]. unfold guard. apply bind_ext. intros ok s1. destruct ok; [|done].
    cbv zeta. fold n. case_if as E; [lia|]. clear E. rewrite Hdata.
    destruct (header_type_link e He) as [-> Hlk].
    rewrite (install_entry_link _ _ (drop 157 (tar_header e)) (te_link e)).
    2:{ rewrite Hlk. destruct (to_link _ He) as (Hl & _ & Hn). unfold field_text. rewrite take_ge by lia. by rewrite cstr_id. }
    apply bind_ext. intros [ok r'] s2. destruct ok; [|done]. cbn [negb].
    case_if as E; [lia|]. clear E.
    replace (Z.of_nat (length pre) + 512 + Z.land (u64 (n + 512 - 1)) (u64 (Z.lnot (512 - 1))))
      with (Z.of_nat (length (pre ++ tar_entry e))) by (rewrite length_app; lia).
    unfold archive. rewrite app_assoc. apply IH; [cbn [length] in Hf; lia|]. rewrite <- app_assoc. done.
Qed.

Lemma length_tar_archive es : Forall tar_entry_ok es -> (512 * length es + 1024 <= length (tar_archive es))%nat.
Proof.
  intros Hes. unfold tar_archive. rewrite length_app, length_replicate.
  induction Hes as [|e es He Hes IH]; [cbn; lia|].
  change (mjoin (tar_entry <$> e :: es)) with (tar_entry e ++ mjoin (tar_entry <$> es)).
  destruct (length_tar_entry e He) as [_ Hl]. rewrite length_app. cbn [length]. lia.
Qed.

(** [C29] Unpacking undoes packing: installing the archive that a packer makes from a
    list of entries - directories, links and files, with their sizes and checksums
    in octal - performs exactly the file system calls the list stands for, each
    entry with its own type, path, link target and bytes, in order, and counts
    them. *)
Theorem install_tar_roundtrip es r s :
  Forall tar_entry_ok es -> Z.of_nat (length (tar_archive es)) < 2 ^ 63 ->
  install_tar (D:=D) (H:=H) (tar_archive es) r s = run_entries es r s.
Proof.
  intros Hes Hsize. unfold install_tar. apply (install_tar_loop_archive es []); [done| |done].
  pose proof (length_tar_archive es Hes). apply Nat.lt_succ_r, Nat.div_le_lower_bound; lia.
Qed.

End roundtrip.

(** ** The package of the self-test, packed and installed *)

Definition test_entries : list TarEntry :=
  [ mkTar 53 (text "opt") [] [];
    mkTar 53 (text "opt/nova") [] [];
    mkTar 48 (text "opt/nova/payload.txt") [] (text "NovaOS .deb payload" ++ [10]);
    mkTar 50 (text "opt/nova/current") (text "payload.txt") [] ].

Lemma test_entries_ok : Forall tar_entry_ok test_entries.
Proof.
  unfold test_entries.
  repeat (apply Forall_cons; split;
    [split; [unfold is_byte; cbn; lia|by vm_compute|split_and!; [vm_compute; lia| |]|by vm_compute]|]); try constructor.
  all: apply (bool_decide_unpack _); vm_compute; exact I.
Qed.

Lemma install_tar_roundtrip_witness :
  (install_tar (tar_archive test_entries) (mkDeb 0 0 0) empty_fs).1 = Some (true, mkDeb 1 2 1).
Proof.
  rewrite install_tar_roundtrip.
  - vm_compute. reflexivity.
  - apply test_entries_ok.
  - vm_compute. reflexivity.
Defined.

(** An [ar] member: a sixty-byte header, the contents and a padding byte. *)
Definition ar_member (name contents : list Z) : list Z :=
  let size := cstr (int_to_string (Z.of_nat (length contents))) in
  name ++ replicate (48 - length name) 32 ++ size ++ replicate (10 - length size) 32 ++ [96; 10] ++
  contents ++ replicate (length contents mod 2) 10.

Definition test_package : list Z :=
  text "!<arch>" ++ [10] ++ ar_member (text "debian-binary") (text "2.0" ++ [10]) ++
  ar_member (text "data.tar") (tar_archive test_entries).

(** The self-test passes on an empty volume: the payload is read back through the
    link. *)
Example deb_self_test_passes : (deb_self_test test_package empty_fs).1 = Some true.
Proof. vm_compute. reflexivity. Qed.

Lemma deb_install_safe_witness :
  (deb_install test_package empty_fs).1 <> None /\ tree_inv (deb_install test_package empty_fs).2.
Proof.
  apply deb_install_safe.
  - vm_compute. reflexivity.
  - apply live_inv, empty_fs_ok.
Defined.
