(* ===== verification/NicInterface.v ===== *)
(** * What a network adapter promises to the network stack

    [Nic] is the contract of drivers/e1000.c as kernel/network.c uses it; [E1000]
    gives the instance. *)

From S2P Require Import Prelude.

Class Nic (N : Type) := {
  nic_init : st N bool;
  nic_send : list Z -> st N bool;
  nic_receive : Z -> st N (option (list Z));   (** [Some []] when nothing arrived *)
  nic_mac : N -> list Z;
  (** The adapter's driver is in a sound state. *)
  nic_ok : N -> Prop;
  nic_mac_length n : nic_ok n -> length (nic_mac n) = 6%nat /\ bytes (nic_mac n);
  nic_init_ok n : nic_ok n -> nic_ok (nic_init n).2;
  nic_send_ok frame n : nic_ok n -> nic_ok (nic_send frame n).2 /\ nic_mac (nic_send frame n).2 = nic_mac n;
  (** Received frames are bytes, and no more of them than asked for. *)
  nic_receive_ok capacity n : nic_ok n -> 0 <= capacity ->
    nic_ok (nic_receive capacity n).2 /\ nic_mac (nic_receive capacity n).2 = nic_mac n /\
    forall frame, (nic_receive capacity n).1 = Some frame -> bytes frame /\ Z.of_nat (length frame) <= capacity }.
