(* ===== verification/E1000.v ===== *)
(** * drivers/e1000.c: the Intel 82540EM network adapter

    The adapter shares memory with the driver: it fills receive buffers and marks
    descriptors on its own.  It is a parameter: its registers, and the descriptors
    and buffers as the driver finds them when it looks. *)

From S2P Require Import Prelude Runtime Heap HeapFacts Interfaces Ports Pci NicInterface.

Definition E1000_FRAME_MAX : Z := 2048.
Definition INTEL_VENDOR : Z := 0x8086.
Definition E1000_DEVICE : Z := 0x100E.

Definition REG_CTRL : Z := 0x0000.
Definition REG_EERD : Z := 0x0014.
Definition REG_ICR : Z := 0x00C0.
Definition REG_IMC : Z := 0x00D8.
Definition REG_RCTL : Z := 0x0100.
Definition REG_TCTL : Z := 0x0400.
Definition REG_TIPG : Z := 0x0410.
Definition REG_RDBAL : Z := 0x2800.
Definition REG_RDBAH : Z := 0x2804.
Definition REG_RDLEN : Z := 0x2808.
Definition REG_RDH : Z := 0x2810.
Definition REG_RDT : Z := 0x2818.
Definition REG_TDBAL : Z := 0x3800.
Definition REG_TDBAH : Z := 0x3804.
Definition REG_TDLEN : Z := 0x3808.
Definition REG_TDH : Z := 0x3810.
Definition REG_TDT : Z := 0x3818.
Definition REG_RAL : Z := 0x5400.
Definition REG_RAH : Z := 0x5404.
Definition REG_MTA : Z := 0x5200.

Definition RX_COUNT : nat := 32.
Definition TX_COUNT : nat := 16.

Record RxDescriptor := mkRx {
  rx_address : Z; rx_length : Z; rx_checksum : Z; rx_status : Z; rx_errors : Z; rx_special : Z }.

Record TxDescriptor := mkTx {
  tx_address : Z; tx_length : Z; tx_checksum_offset : Z; tx_command : Z; tx_status : Z;
  tx_checksum_start : Z; tx_special : Z }.

(** [sizeof(RxDescriptor)] and [sizeof(TxDescriptor)] *)
Definition DESCRIPTOR_SIZE : Z := 16.

(** The adapter.  Register accesses go through the memory window; descriptors and
    buffers are in memory the adapter writes to, so that each look at one may find
    it changed. *)
Class Adapter (W : Type) := {
  mmio_read : Z -> W -> Z * W;                          (** offset *)
  mmio_write : Z -> Z -> W -> W;                        (** offset, value *)
  dma_rx : nat -> W -> RxDescriptor * list Z * W;       (** a receive descriptor and its 2048-byte buffer *)
  dma_rx_set : nat -> RxDescriptor -> W -> W;
  dma_tx : nat -> W -> TxDescriptor * W;
  dma_tx_set : nat -> TxDescriptor -> W -> W;
  dma_tx_data : nat -> list Z -> W -> W;                (** the start of a transmit buffer *)
  dma_rx_buffer i w : length (dma_rx i w).1.2 = 2048%nat /\ bytes (dma_rx i w).1.2;
  dma_rx_length i w : 0 <= rx_length (dma_rx i w).1.1 < 2 ^ 16 }.

Section e1000.
Context {B W H : Type} `{!Bus B} `{!Adapter W} `{!Allocator H}.

(** The file-scope variables, and the machine around them. *)
Record E1000 := mkE1000 {
  e_ports : Machine B; e_adapter : W; e_heap : H;
  mmio : Z; rx_ring : Z; tx_ring : Z; rx_buffers : list Z; tx_buffers : list Z;
  rx_index : Z; tx_index : Z; mac_address : list Z; available : bool }.

Notation NIC := (st E1000).

Definition with_adapter (w : W) (e : E1000) : E1000 :=
  mkE1000 (e_ports e) w (e_heap e) (mmio e) (rx_ring e) (tx_ring e) (rx_buffers e) (tx_buffers e)
    (rx_index e) (tx_index e) (mac_address e) (available e).
Definition with_ports (m : Machine B) (e : E1000) : E1000 :=
  mkE1000 m (e_adapter e) (e_heap e) (mmio e) (rx_ring e) (tx_ring e) (rx_buffers e) (tx_buffers e)
    (rx_index e) (tx_index e) (mac_address e) (available e).
Definition with_nic_heap (h : H) (e : E1000) : E1000 :=
  mkE1000 (e_ports e) (e_adapter e) h (mmio e) (rx_ring e) (tx_ring e) (rx_buffers e) (tx_buffers e)
    (rx_index e) (tx_index e) (mac_address e) (available e).
Definition with_mmio (v : Z) (e : E1000) : E1000 :=
  mkE1000 (e_ports e) (e_adapter e) (e_heap e) v (rx_ring e) (tx_ring e) (rx_buffers e) (tx_buffers e)
    (rx_index e) (tx_index e) (mac_address e) (available e).
Definition with_rings (rx tx : Z) (rb tb : list Z) (e : E1000) : E1000 :=
  mkE1000 (e_ports e) (e_adapter e) (e_heap e) (mmio e) rx tx rb tb
    (rx_index e) (tx_index e) (mac_address e) (available e).
Definition with_indices (rx tx : Z) (e : E1000) : E1000 :=
  mkE1000 (e_ports e) (e_adapter e) (e_heap e) (mmio e) (rx_ring e) (tx_ring e) (rx_buffers e) (tx_buffers e)
    rx tx (mac_address e) (available e).
Definition with_mac (mac : list Z) (e : E1000) : E1000 :=
  mkE1000 (e_ports e) (e_adapter e) (e_heap e) (mmio e) (rx_ring e) (tx_ring e) (rx_buffers e) (tx_buffers e)
    (rx_index e) (tx_index e) mac (available e).
Definition with_available (b : bool) (e : E1000) : E1000 :=
  mkE1000 (e_ports e) (e_adapter e) (e_heap e) (mmio e) (rx_ring e) (tx_ring e) (rx_buffers e) (tx_buffers e)
    (rx_index e) (tx_index e) (mac_address e) b.

Definition read_register (offset : Z) : NIC Z := fun e =>
  let '(v, w) := mmio_read offset (e_adapter e) in (u32 v, with_adapter w e).

Definition write_register (offset value : Z) : NIC unit :=
  modify (fun e => with_adapter (mmio_write offset (u32 value) (e_adapter e)) e).

Definition on_ports {A} (op : st (Machine B) A) : NIC A := fun e =>
  let '(a, m) := op (e_ports e) in (a, with_ports m e).

Definition nic_alloc (n : Z) : NIC Z := fun e =>
  let '(p, h) := al_alloc n (e_heap e) in (p, with_nic_heap h e).

Fixpoint read_eeprom_loop (timeout : nat) : NIC (option Z) :=
  match timeout with
  | O => ret None
  | S timeout =>
      data <- read_register REG_EERD ;;
      if has data 0x10 then ret (Some (u16 (Z.shiftr data 16))) else read_eeprom_loop timeout
  end.

Definition read_eeprom (address : Z) : NIC (option Z) :=
  write_register REG_EERD (Z.lor 1 (Z.shiftl address 8)) ;;;
  read_eeprom_loop (Z.to_nat 100000).

(** The EEPROM words [word ..], [n] of them, into the address. *)
Fixpoint load_mac_words (n : nat) (word : nat) : NIC bool :=
  match n with
  | O => ret true
  | S n =>
      value <- read_eeprom (Z.of_nat word) ;;
      match value with
      | None => ret false
      | Some value =>
          modify (fun e => with_mac (<[(word * 2 + 1)%nat := u8 (Z.shiftr value 8)]>
                                      (<[(word * 2)%nat := u8 value]> (mac_address e))) e) ;;;
          load_mac_words n (S word)
      end
  end.

Definition load_mac : NIC bool :=
  low <- read_register REG_RAL ;;
  high <- read_register REG_RAH ;;
  if (negb (low =? 0) || has high 0xFFFF)%bool then
    modify (with_mac [u8 low; u8 (Z.shiftr low 8); u8 (Z.shiftr low 16); u8 (Z.shiftr low 24);
                      u8 high; u8 (Z.shiftr high 8)]) ;;;
    ret true
  else load_mac_words 3 0.

(** Buffers [index ..], [n] of them: false when one cannot be had. *)
Fixpoint alloc_rx (n index : nat) : NIC bool :=
  match n with
  | O => ret true
  | S n =>
      buffer <- nic_alloc E1000_FRAME_MAX ;;
      modify (fun e => with_rings (rx_ring e) (tx_ring e) (<[index := buffer]> (rx_buffers e)) (tx_buffers e) e) ;;;
      if buffer =? 0 then ret false else
      modify (fun e => with_adapter (dma_rx_set index (mkRx buffer 0 0 0 0 0) (e_adapter e)) e) ;;;
      alloc_rx n (S index)
  end.

Fixpoint alloc_tx (n index : nat) : NIC bool :=
  match n with
  | O => ret true
  | S n =>
      buffer <- nic_alloc E1000_FRAME_MAX ;;
      modify (fun e => with_rings (rx_ring e) (tx_ring e) (rx_buffers e) (<[index := buffer]> (tx_buffers e)) e) ;;;
      if buffer =? 0 then ret false else
      modify (fun e => with_adapter (dma_tx_set index (mkTx buffer 0 0 0 1 0 0) (e_adapter e)) e) ;;;
      alloc_tx n (S index)
  end.

Definition setup_receive : NIC bool :=
  ring <- nic_alloc (Z.of_nat RX_COUNT * DESCRIPTOR_SIZE) ;;
  modify (fun e => with_rings ring (tx_ring e) (rx_buffers e) (tx_buffers e) e) ;;;
  if ring =? 0 then ret false else
  allocated <- alloc_rx RX_COUNT 0 ;;
  if negb allocated then ret false else
  write_register REG_RDBAL ring ;;;
  write_register REG_RDBAH (Z.shiftr ring 32) ;;;
  write_register REG_RDLEN (Z.of_nat RX_COUNT * DESCRIPTOR_SIZE) ;;;
  write_register REG_RDH 0 ;;;
  write_register REG_RDT (Z.of_nat RX_COUNT - 1) ;;;
  modify (fun e => with_indices 0 (tx_index e) e) ;;;
  write_register REG_RCTL (Z.lor (Z.lor (Z.shiftl 1 1) (Z.shiftl 1 15)) (Z.shiftl 1 26)) ;;;
  ret true.

Definition setup_transmit : NIC bool :=
  ring <- nic_alloc (Z.of_nat TX_COUNT * DESCRIPTOR_SIZE) ;;
  modify (fun e => with_rings (rx_ring e) ring (rx_buffers e) (tx_buffers e) e) ;;;
  if ring =? 0 then ret false else
  allocated <- alloc_tx TX_COUNT 0 ;;
  if negb allocated then ret false else
  write_register REG_TDBAL ring ;;;
  write_register REG_TDBAH (Z.shiftr ring 32) ;;;
  write_register REG_TDLEN (Z.of_nat TX_COUNT * DESCRIPTOR_SIZE) ;;;
  write_register REG_TDH 0 ;;;
  write_register REG_TDT 0 ;;;
  modify (fun e => with_indices (rx_index e) 0 e) ;;;
  write_register REG_TCTL (Z.lor (Z.lor (Z.lor (Z.shiftl 1 1) (Z.shiftl 1 3)) (Z.shiftl 0x0F 4)) (Z.shiftl 0x40 12)) ;;;
  write_register REG_TIPG (Z.lor (Z.lor 10 (Z.shiftl 8 10)) (Z.shiftl 6 20)) ;;;
  ret true.

(** The wait for the reset: it goes on after [n] looks in any case. *)
Fixpoint wait_reset (n : nat) : NIC unit :=
  match n with
  | O => ret tt
  | S n => v <- read_register REG_CTRL ;; if negb (has v (Z.shiftl 1 26)) then ret tt else wait_reset n
  end.

Fixpoint clear_multicast (n : nat) (index : Z) : NIC unit :=
  match n with
  | O => ret tt
  | S n => write_register (REG_MTA + index * 4) 0 ;;; clear_multicast n (index + 1)
  end.

Definition mac_byte (e : E1000) (i : nat) : Z := nth i (mac_address e) 0.

Definition e1000_init : NIC bool :=
  modify (with_available false) ;;;
  device <- on_ports (pci_find INTEL_VENDOR E1000_DEVICE) ;;
  match device with
  | None => ret false
  | Some device =>
      bar0 <- on_ports (pci_read32 device 0x10) ;;
      if (has bar0 1 || (Z.land bar0 (u32 (Z.lnot 0x0F)) =? 0))%bool then ret false else
      modify (with_mmio (Z.land bar0 (u32 (Z.lnot 0x0F)))) ;;;
      on_ports (pci_enable_memory_bus_master device) ;;;
      write_register REG_IMC 0xFFFFFFFF ;;;
      read_register REG_ICR ;;;
      ctrl <- read_register REG_CTRL ;;
      write_register REG_CTRL (Z.lor ctrl (Z.shiftl 1 26)) ;;;
      wait_reset (Z.to_nat 1000000) ;;;
      write_register REG_IMC 0xFFFFFFFF ;;;
      read_register REG_ICR ;;;
      loaded <- load_mac ;;
      if negb loaded then ret false else
      e <- gets id ;;
      write_register REG_RAL (Z.lor (Z.lor (Z.lor (mac_byte e 0) (Z.shiftl (mac_byte e 1) 8))
                                            (Z.shiftl (mac_byte e 2) 16)) (Z.shiftl (mac_byte e 3) 24)) ;;;
      write_register REG_RAH (Z.lor (Z.lor (mac_byte e 4) (Z.shiftl (mac_byte e 5) 8)) (Z.shiftl 1 31)) ;;;
      clear_multicast 128 0 ;;;
      receive <- setup_receive ;;
      if negb receive then ret false else
      transmit <- setup_transmit ;;
      if negb transmit then ret false else
      modify (with_available true) ;;;
      ret true
  end.

(** Wait for a free transmit descriptor: its contents, or [None] after too many
    looks. *)
Fixpoint wait_tx (timeout : nat) (index : nat) : NIC (option TxDescriptor) :=
  match timeout with
  | O => ret None
  | S timeout =>
      d <- (fun e => let '(d, w) := dma_tx index (e_adapter e) in (d, with_adapter w e)) ;;
      if has (tx_status d) 1 then ret (Some d) else wait_tx timeout index
  end.

Definition e1000_send (frame : list Z) : NIC bool :=
  let length := Z.of_nat (length frame) in
  ready <- gets available ;;
  if (negb ready || (length <? 14) || (E1000_FRAME_MAX <? length))%bool then ret false else
  index <- gets tx_index ;;
  free <- wait_tx (Z.to_nat 1000002) (Z.to_nat index) ;;
  match free with
  | None => ret false
  | Some d =>
      modify (fun e => with_adapter (dma_tx_data (Z.to_nat index) frame (e_adapter e)) e) ;;;
      modify (fun e => with_adapter (dma_tx_set (Z.to_nat index)
        (mkTx (tx_address d) length 0 0x0B 0 0 (tx_special d)) (e_adapter e)) e) ;;;
      let next := (index + 1) mod Z.of_nat TX_COUNT in
      write_register REG_TDT next ;;;
      modify (fun e => with_indices (rx_index e) next e) ;;;
      ret true
  end.

(** The frame received, [Some []] when there is none and [None] for an error. *)
Definition e1000_receive (capacity : Z) : NIC (option (list Z)) :=
  ready <- gets available ;;
  if negb ready then ret None else
  index <- gets rx_index ;;
  let! (d, buffer) := (fun e => let '(d, b, w) := dma_rx (Z.to_nat index) (e_adapter e) in
                                ((d, b), with_adapter w e)) in
  if negb (has (rx_status d) 1) then ret (Some []) else
  let length := if capacity <? rx_length d then capacity else rx_length d in
  modify (fun e => with_adapter (dma_rx_set (Z.to_nat index)
    (mkRx (rx_address d) (rx_length d) (rx_checksum d) 0 (rx_errors d) (rx_special d)) (e_adapter e)) e) ;;;
  modify (fun e => with_indices ((index + 1) mod Z.of_nat RX_COUNT) (tx_index e) e) ;;;
  write_register REG_RDT index ;;;
  ret (Some (take (Z.to_nat length) buffer)).

Definition e1000_mac (e : E1000) : list Z := mac_address e.


(** ** The rings *)

(** The state between calls: the indices are inside the rings, and once the adapter
    is available every descriptor has a buffer of its own. *)
Record e1000_ok (e : E1000) : Prop := {
  eo_rx : 0 <= rx_index e < Z.of_nat RX_COUNT;
  eo_tx : 0 <= tx_index e < Z.of_nat TX_COUNT;
  eo_mac : length (mac_address e) = 6%nat /\ bytes (mac_address e);
  eo_lengths : length (rx_buffers e) = RX_COUNT /\ length (tx_buffers e) = TX_COUNT;
  eo_buffers : available e = true ->
    Forall (fun p => p <> 0) (rx_buffers e) /\ Forall (fun p => p <> 0) (tx_buffers e) }.

(** Everything but the hardware, the heap and the ports is the same. *)
Definition same_driver (e e' : E1000) : Prop :=
  mmio e' = mmio e /\ rx_ring e' = rx_ring e /\ tx_ring e' = tx_ring e /\ rx_buffers e' = rx_buffers e /\
  tx_buffers e' = tx_buffers e /\ rx_index e' = rx_index e /\ tx_index e' = tx_index e /\
  mac_address e' = mac_address e /\ available e' = available e.

Lemma same_driver_ok e e' : same_driver e e' -> e1000_ok e -> e1000_ok e'.
Proof. intros (? & ? & ? & Hr & Ht & Hi & Hj & Hm & Ha) []. split; rewrite ?Hr, ?Ht, ?Hi, ?Hj, ?Hm, ?Ha; done. Qed.

(** The routine only talks to the hardware. *)
Definition hardware_only {A} (m : NIC A) : Prop := forall e, same_driver e (m e).2.

Lemma hw_ret {A} (a : A) : hardware_only (ret a).
Proof. by intros e. Qed.

Lemma hw_bind {A C} (m : NIC A) (k : A -> NIC C) :
  hardware_only m -> (forall a, hardware_only (k a)) -> hardware_only (bind m k).
Proof.
  intros Hm Hk e. unfold bind. specialize (Hm e). destruct (m e) as [a e1]. specialize (Hk a e1). cbn [snd] in *.
  unfold same_driver in *. intuition congruence.
Qed.

Lemma hw_read offset : hardware_only (read_register offset).
Proof. intros e. unfold read_register. by destruct (mmio_read offset (e_adapter e)). Qed.

Lemma hw_write offset value : hardware_only (write_register offset value).
Proof. by intros e. Qed.

Lemma hw_ports {A} (op : st (Machine B) A) : hardware_only (on_ports op).
Proof. intros e. unfold on_ports. by destruct (op (e_ports e)). Qed.

Lemma hw_alloc n : hardware_only (nic_alloc n).
Proof. intros e. unfold nic_alloc. by destruct (al_alloc n (e_heap e)). Qed.

Lemma hw_dma (f : W -> W) : hardware_only (modify (fun e => with_adapter (f (e_adapter e)) e)).
Proof. by intros e. Qed.

Hint Resolve hw_ret hw_read hw_write hw_ports hw_alloc hw_dma : nova.

Ltac hardware :=
  repeat first
    [ progress intros
    | solve [eauto with nova nocore]
    | apply hw_bind
    | match goal with
      | |- hardware_only (if ?b then _ else _) => destruct b
      | |- hardware_only (match ?x with _ => _ end) => destruct x
      end ].

Lemma hw_read_eeprom address : hardware_only (read_eeprom address).
Proof.
  assert (Hl : forall n, hardware_only (read_eeprom_loop n)) by (induction n; cbn [read_eeprom_loop]; hardware).
  unfold read_eeprom. hardware.
Qed.

Lemma hw_wait_reset n : hardware_only (wait_reset n).
Proof. induction n; cbn [wait_reset]; hardware. Qed.

Lemma hw_clear_multicast n i : hardware_only (clear_multicast n i).
Proof. revert i. induction n; intros i; cbn [clear_multicast]; hardware. Qed.

Lemma hw_wait_tx n i : hardware_only (wait_tx n i).
Proof.
  induction n as [|n IH]; cbn [wait_tx]; [hardware|]. apply hw_bind; [|hardware].
  intros e. by destruct (dma_tx i (e_adapter e)).
Qed.

Lemma wp_hardware {A} (m : NIC A) Q e :
  hardware_only m -> (forall a e', same_driver e e' -> Q a e') -> wp m Q e.
Proof. intros Hm HQ. apply HQ, Hm. Qed.


(** What stays during the set-up. *)
Record setting_up (e : E1000) : Prop := {
  su_rx : 0 <= rx_index e < Z.of_nat RX_COUNT;
  su_tx : 0 <= tx_index e < Z.of_nat TX_COUNT;
  su_mac : length (mac_address e) = 6%nat /\ bytes (mac_address e);
  su_lengths : length (rx_buffers e) = RX_COUNT /\ length (tx_buffers e) = TX_COUNT;
  su_available : available e = false }.

Lemma setting_up_ok e : setting_up e -> e1000_ok e.
Proof. intros [? ? ? ? Ha]. split; try done. by rewrite Ha. Qed.

Lemma setting_up_same e e' : same_driver e e' -> setting_up e -> setting_up e'.
Proof. intros (? & ? & ? & Hr & Ht & Hi & Hj & Hm & Ha) []. split; rewrite ?Hr, ?Ht, ?Hi, ?Hj, ?Hm, ?Ha; done. Qed.

(** A buffer stored at the end of a filled prefix. *)
Lemma filled_snoc (l : list Z) index p :
  (index < length l)%nat -> p <> 0 -> Forall (fun p => p <> 0) (take index l) ->
  Forall (fun p => p <> 0) (take (S index) (<[index := p]> l)).
Proof.
  intros Hi Hp Hl. rewrite (take_S_r _ _ p) by (by apply list_lookup_insert_eq).
  rewrite take_insert_ge by lia. by apply Forall_app_2; [|constructor].
Qed.

Lemma alloc_rx_spec n index e :
  setting_up e -> (index + n <= RX_COUNT)%nat -> Forall (fun p => p <> 0) (take index (rx_buffers e)) ->
  wp (alloc_rx n index) (fun ok e' => setting_up e' /\
    (ok = true -> Forall (fun p => p <> 0) (take (index + n) (rx_buffers e')))) e.
Proof.
  revert index e. induction n as [|n IH]; intros index e He Hi Hf; cbn [alloc_rx].
  { apply wp_ret. by rewrite Nat.add_0_r. }
  wp_step. apply wp_hardware; [apply hw_alloc|]. intros p e1 H1.
  assert (Hb : rx_buffers e1 = rx_buffers e) by apply H1. apply (setting_up_same _ _ H1) in He.
  rewrite <- Hb in Hf. wp_step. wp_step. set (e2 := with_rings _ _ _ _ e1).
  assert (He2 : setting_up e2) by (destruct He as [? ? ? [? ?] ?]; split; try done; cbn; by rewrite length_insert).
  case_if as E; [by apply wp_ret|]. wp_step. wp_step. rewrite <- Nat.add_succ_comm. apply IH; [by destruct He2|lia|].
  cbn. apply filled_snoc; [|lia|done]. destruct He as [? ? ? [-> ?] ?]. lia.
Qed.

Lemma alloc_tx_spec n index e :
  setting_up e -> (index + n <= TX_COUNT)%nat -> Forall (fun p => p <> 0) (take index (tx_buffers e)) ->
  wp (alloc_tx n index) (fun ok e' => setting_up e' /\ rx_buffers e' = rx_buffers e /\
    (ok = true -> Forall (fun p => p <> 0) (take (index + n) (tx_buffers e')))) e.
Proof.
  revert index e. induction n as [|n IH]; intros index e He Hi Hf; cbn [alloc_tx].
  { apply wp_ret. by rewrite Nat.add_0_r. }
  wp_step. apply wp_hardware; [apply hw_alloc|]. intros p e1 H1.
  assert (Hb : tx_buffers e1 = tx_buffers e /\ rx_buffers e1 = rx_buffers e) by (split; apply H1).
  destruct Hb as [Hb Hbr]. apply (setting_up_same _ _ H1) in He.
  rewrite <- Hb in Hf. rewrite <- Hbr. wp_step. wp_step. set (e2 := with_rings _ _ _ _ e1).
  assert (He2 : setting_up e2) by (destruct He as [? ? ? [? ?] ?]; split; try done; cbn; by rewrite length_insert).
  case_if as E; [by apply wp_ret|]. wp_step. wp_step. rewrite <- Nat.add_succ_comm. eapply wp_mono; [apply IH|].
  - by destruct He2.
  - lia.
  - cbn. apply filled_snoc; [|lia|done]. destruct He as [? ? ? [? ->] ?]. lia.
  - cbn beta. intros ok e' (? & ? & ?). done.
Qed.

Lemma setup_receive_spec e :
  setting_up e ->
  wp setup_receive (fun ok e' => setting_up e' /\ (ok = true -> Forall (fun p => p <> 0) (rx_buffers e'))) e.
Proof.
  intros He. unfold setup_receive. wp_step. apply wp_hardware; [apply hw_alloc|]. intros ring e1 H1.
  apply (setting_up_same _ _ H1) in He. wp_step. wp_step.
  assert (He2 : setting_up (with_rings ring (tx_ring e1) (rx_buffers e1) (tx_buffers e1) e1)) by (by destruct He).
  case_if as E; [by apply wp_ret|]. wp_step. wp_call alloc_rx_spec; [done|done|constructor|].
  intros ok e2 [H2 Hb]. destruct ok; cbn [negb]; [|by apply wp_ret]. specialize (Hb eq_refl).
  unfold write_register. wp_steps. destruct H2 as [? ? ? [Hl ?] ?]. cbn. split; [by split|].
  intros _. rewrite take_ge in Hb by (by rewrite Hl). done.
Qed.

Lemma setup_transmit_spec e :
  setting_up e ->
  wp setup_transmit (fun ok e' => setting_up e' /\ rx_buffers e' = rx_buffers e /\
    (ok = true -> Forall (fun p => p <> 0) (tx_buffers e'))) e.
Proof.
  intros He. unfold setup_transmit. wp_step. apply wp_hardware; [apply hw_alloc|]. intros ring e1 H1.
  assert (Hbr : rx_buffers e1 = rx_buffers e) by apply H1. rewrite <- Hbr.
  apply (setting_up_same _ _ H1) in He. wp_step. wp_step.
  assert (He2 : setting_up (with_rings (rx_ring e1) ring (rx_buffers e1) (tx_buffers e1) e1)) by (by destruct He).
  case_if as E; [by apply wp_ret|]. wp_step. wp_call alloc_tx_spec; [done|done|constructor|].
  intros ok e2 (H2 & Hr & Hb). destruct ok; cbn [negb]; [|by apply wp_ret]. specialize (Hb eq_refl).
  unfold write_register. wp_steps. destruct H2 as [? ? ? [? Hl] ?]. cbn. split; [by split|]. split; [done|].
  intros _. rewrite take_ge in Hb by (by rewrite Hl). done.
Qed.

Lemma load_mac_words_spec n word e :
  setting_up e -> wp (load_mac_words n word) (fun _ e' => setting_up e') e.
Proof.
  revert word e. induction n as [|n IH]; intros word e He; cbn [load_mac_words]; [by apply wp_ret|].
  wp_step. apply wp_hardware; [apply hw_read_eeprom|]. intros value e1 H1. apply (setting_up_same _ _ H1) in He.
  destruct value as [value|]; [|by apply wp_ret]. wp_steps. apply IH. destruct He as [? ? [Hl Hb] ?].
  split; try done. cbn. split; [by rewrite !length_insert|]. by repeat apply Forall_insert; try apply u8_byte.
Qed.

Lemma load_mac_spec e : setting_up e -> wp load_mac (fun _ e' => setting_up e') e.
Proof.
  intros He. unfold load_mac. wp_step. apply wp_hardware; [apply hw_read|]. intros low e1 H1.
  apply (setting_up_same _ _ H1) in He. wp_step. apply wp_hardware; [apply hw_read|]. intros high e2 H2.
  apply (setting_up_same _ _ H2) in He. case_if as E; [|by apply load_mac_words_spec].
  wp_steps. destruct He. split; try done. split; [done|].
  repeat (apply Forall_cons; split; [apply u8_byte|]). constructor.
Qed.

Lemma e1000_init_spec e : e1000_ok e -> wp e1000_init (fun _ e' => e1000_ok e') e.
Proof.
  intros [Hr Ht Hm Hl _]. unfold e1000_init. wp_step. wp_step.
  assert (He : setting_up (with_available false e)) by (by split). revert He. generalize (with_available false e).
  clear e Hr Ht Hm Hl. intros e He.
  assert (Hhw : forall A C (m : NIC A) (k : A -> NIC C) e, hardware_only m -> setting_up e ->
            (forall a e', setting_up e' -> wp (k a) (fun _ e' => e1000_ok e') e') ->
            wp (bind m k) (fun _ e' => e1000_ok e') e).
  { intros A C m k e0 Hm He0 Hk. apply wp_bind, wp_hardware; [done|]. intros a e' Hs. apply Hk.
    by eapply setting_up_same. }
  apply Hhw; [apply hw_ports|done|]. intros device e1 H1. destruct device as [device|]; [|by apply wp_ret, setting_up_ok].
  apply Hhw; [apply hw_ports|done|]. intros bar0 e2 H2. case_if as E; [by apply wp_ret, setting_up_ok|].
  wp_step. wp_step. assert (H2' : setting_up (with_mmio (Z.land bar0 (u32 (Z.lnot 0x0F))) e2)) by (destruct H2; by split).
  revert H2'. generalize (with_mmio (Z.land bar0 (u32 (Z.lnot 0x0F))) e2). clear - Hhw. intros e He.
  apply Hhw; [apply hw_ports|done|]. intros _ e3 H3.
  apply Hhw; [apply hw_write|done|]. intros _ e4 H4. apply Hhw; [apply hw_read|done|]. intros _ e5 H5.
  apply Hhw; [apply hw_read|done|]. intros ctrl e6 H6. apply Hhw; [apply hw_write|done|]. intros _ e7 H7.
  apply Hhw; [apply hw_wait_reset|done|]. intros _ e8 H8. apply Hhw; [apply hw_write|done|]. intros _ e9 H9.
  apply Hhw; [apply hw_read|done|]. intros _ e10 H10. wp_step. wp_call load_mac_spec; [done|]. intros loaded e11 H11.
  case_if as E; [by apply wp_ret, setting_up_ok|]. wp_step. apply wp_gets. unfold id.
  apply Hhw; [apply hw_write|done|]. intros _ e12 H12. apply Hhw; [apply hw_write|done|]. intros _ e13 H13.
  apply Hhw; [apply hw_clear_multicast|done|]. intros _ e14 H14.
  wp_step. wp_call setup_receive_spec; [done|]. intros rx e15 [H15 Hrx].
  destruct rx; cbn [negb]; [|by apply wp_ret, setting_up_ok]. wp_step. wp_call setup_transmit_spec; [done|].
  intros tx e16 (H16 & Hrb & Htx). destruct tx; cbn [negb]; [|by apply wp_ret, setting_up_ok]. wp_steps.
  destruct H16 as [? ? ? ? ?]. rewrite <- Hrb in Hrx. split; try done. cbn. auto.
Qed.

(** What one transmission does. *)
Lemma e1000_send_spec frame e :
  e1000_ok e ->
  wp (e1000_send frame) (fun ok e' => e1000_ok e' /\ mac_address e' = mac_address e /\
    (ok = true -> available e = true /\ 14 <= Z.of_nat (length frame) <= E1000_FRAME_MAX /\
       rx_index e' = rx_index e /\ tx_index e' = (tx_index e + 1) mod Z.of_nat TX_COUNT /\
       exists d w, has (tx_status d) 1 = true /\
         e_adapter e' = mmio_write REG_TDT (tx_index e')
           (dma_tx_set (Z.to_nat (tx_index e))
             (mkTx (tx_address d) (Z.of_nat (length frame)) 0 0x0B 0 0 (tx_special d))
             (dma_tx_data (Z.to_nat (tx_index e)) frame w)))) e.
Proof.
  intros He. unfold e1000_send. wp_steps. case_if as E; [by apply wp_ret|]. wp_steps.
  assert (Hd : wp (wait_tx (Z.to_nat 1000002) (Z.to_nat (tx_index e)))
    (fun r e' => same_driver e e' /\ forall d, r = Some d -> has (tx_status d) 1 = true) e).
  { generalize (Z.to_nat 1000002) as n. intros n. assert (Hs : same_driver e e) by done. revert Hs.
    generalize (Z.to_nat (tx_index e)) as i. intros i. clear E He. generalize e at 2 4.
    induction n as [|n IH]; intros e0 Hs; cbn [wait_tx].
    { apply wp_ret. split; [done|]. intros d Hd. discriminate Hd. }
    wp_step. unfold wp at 1. destruct (dma_tx _ (e_adapter e0)) as [d w]. cbn [fst snd].
    case_if as Ed; [apply wp_ret; split; [done|by intros ? [= <-]]|]. by apply IH. }
  wp_call Hd. clear Hd. intros free e1 [Hs Hd]. destruct free as [d|].
  2:{ apply wp_ret. split_and!; [by eapply same_driver_ok|apply Hs|done]. }
  unfold write_register. wp_steps. destruct Hs as (S1 & S2 & S3 & S4 & S5 & S6 & S7 & S8 & S9).
  pose proof He as [Hr Ht Hm Hlen Hb]. cbn. pose proof (Z.mod_pos_bound (tx_index e + 1) 16).
  split_and!; [split; cbn; unfold TX_COUNT; rewrite ?S4, ?S5, ?S6, ?S8, ?S9; try done; lia|done|].
  intros _. rewrite S6. unfold E1000_FRAME_MAX in *. split_and!; try done; try lia.
  exists d, (e_adapter e1). split; [by apply Hd|]. do 1 f_equal. unfold wrap. rewrite Z.mod_small; [done|].
  unfold TX_COUNT. cbn. lia.
Qed.

(** What one reception does. *)
Lemma e1000_receive_spec capacity e :
  e1000_ok e -> 0 <= capacity ->
  wp (e1000_receive capacity) (fun r e' => e1000_ok e' /\ mac_address e' = mac_address e /\
    forall frame, r = Some frame -> bytes frame /\ Z.of_nat (length frame) <= capacity /\
      (frame <> [] -> tx_index e' = tx_index e /\ rx_index e' = (rx_index e + 1) mod Z.of_nat RX_COUNT /\
         exists d b w, dma_rx (Z.to_nat (rx_index e)) (e_adapter e) = (d, b, w) /\ has (rx_status d) 1 = true /\
           frame = take (Z.to_nat (Z.min capacity (rx_length d))) b /\
           e_adapter e' = mmio_write REG_RDT (rx_index e)
             (dma_rx_set (Z.to_nat (rx_index e))
               (mkRx (rx_address d) (rx_length d) (rx_checksum d) 0 (rx_errors d) (rx_special d)) w))) e.
Proof.
  intros He Hc. unfold e1000_receive. wp_steps. case_if as E; [by apply wp_ret|]. wp_steps.
  pose proof (dma_rx_buffer (Z.to_nat (rx_index e)) (e_adapter e)) as [Hbl Hbb].
  pose proof (dma_rx_length (Z.to_nat (rx_index e)) (e_adapter e)) as Hrl.
  unfold wp at 1. destruct (dma_rx (Z.to_nat (rx_index e)) (e_adapter e)) as [[d b] w] eqn:Ed. cbn [fst snd] in *.
  assert (Hs : e1000_ok (with_adapter w e)) by (by eapply (same_driver_ok e)).
  case_if as E2.
  { apply wp_ret. split_and!; [done|done|]. intros frame [= <-]. split_and!; [constructor|cbn; lia|done]. }
  unfold write_register. wp_steps. cbn. destruct Hs as [Hr Ht Hm Hlen Hb]. cbn in Hr, Ht, Hm, Hlen, Hb.
  pose proof (Z.mod_pos_bound (rx_index e + 1) 32).
  split_and!; [split; cbn; unfold RX_COUNT; try done; cbn; lia|done|].
  intros frame [= <-]. split_and!; [by apply bytes_take| |].
  - rewrite length_take. case_if as E3; lia.
  - intros _. split_and!; try done. exists d, b, w. split_and!; try done.
    + by destruct (has (rx_status d) 1).
    + f_equal. f_equal. case_if as E3; lia.
    + f_equal. apply wrap_small. unfold RX_COUNT in Hr. lia.
Qed.

(** The rings are used soundly: in every state that [e1000_init] and further
    calls can leave, the indices are inside the rings; a frame is sent only when its
    length is between 14 and the size of a buffer and its descriptor is free, and
    then the data, the descriptor and the doorbell are written in this order and
    the ring advances by one; a frame received is the contents of the buffer of the
    next descriptor, cut to the descriptor's length and the capacity, and that
    descriptor is cleared and handed back. *)
Theorem e1000_rings_sound e :
  e1000_ok e ->
  e1000_ok (e1000_init e).2 /\
  (forall frame ok e', e1000_send frame e = (ok, e') ->
     e1000_ok e' /\
     (ok = true -> available e = true /\ 14 <= Z.of_nat (length frame) <= E1000_FRAME_MAX /\
        rx_index e' = rx_index e /\ tx_index e' = (tx_index e + 1) mod Z.of_nat TX_COUNT /\
        exists d w, has (tx_status d) 1 = true /\
          e_adapter e' = mmio_write REG_TDT (tx_index e')
            (dma_tx_set (Z.to_nat (tx_index e))
              (mkTx (tx_address d) (Z.of_nat (length frame)) 0 0x0B 0 0 (tx_special d))
              (dma_tx_data (Z.to_nat (tx_index e)) frame w)))) /\
  (forall capacity r e', 0 <= capacity -> e1000_receive capacity e = (r, e') ->
     e1000_ok e' /\
     forall frame, r = Some frame -> bytes frame /\ Z.of_nat (length frame) <= capacity /\
       (frame <> [] -> tx_index e' = tx_index e /\ rx_index e' = (rx_index e + 1) mod Z.of_nat RX_COUNT /\
          exists d b w, dma_rx (Z.to_nat (rx_index e)) (e_adapter e) = (d, b, w) /\ has (rx_status d) 1 = true /\
            frame = take (Z.to_nat (Z.min capacity (rx_length d))) b /\
            e_adapter e' = mmio_write REG_RDT (rx_index e)
              (dma_rx_set (Z.to_nat (rx_index e))
                (mkRx (rx_address d) (rx_length d) (rx_checksum d) 0 (rx_errors d) (rx_special d)) w))).
Proof.
  intros He. split_and!.
  - by apply e1000_init_spec.
  - intros frame ok e' E. pose proof (e1000_send_spec frame e He) as Hs. unfold wp in Hs. rewrite E in Hs.
    destruct Hs as (H1 & _ & H2). done.
  - intros capacity r e' Hc E. pose proof (e1000_receive_spec capacity e He Hc) as Hs. unfold wp in Hs. rewrite E in Hs.
    destruct Hs as (H1 & _ & H2). done.
Qed.

(** The driver is a network adapter for the network stack. *)
#[global] Program Instance e1000_nic : Nic E1000 := {|
  nic_init := e1000_init; nic_send := e1000_send; nic_receive := e1000_receive; nic_mac := e1000_mac;
  nic_ok := e1000_ok |}.
Next Obligation. intros e He. apply He. Qed.
Next Obligation. intros e He. by apply e1000_init_spec. Qed.
Next Obligation. intros frame e He. destruct (e1000_send_spec frame e He) as (H1 & H2 & _). done. Qed.
Next Obligation.
  intros capacity e He Hc. destruct (e1000_receive_spec capacity e He Hc) as (H1 & H2 & H3).
  split_and!; [done|done|]. intros frame Hf. destruct (H3 frame Hf) as (? & ? & _). done.
Qed.

End e1000.

(** A link that is always up: it keeps the frames sent, and answers every look at a
    receive descriptor with a frame of 60 bytes. *)
Definition Link : Type := list (list Z).

#[export] Program Instance echo_link : Adapter Link := {|
  mmio_read := fun _ w => (0, w);
  mmio_write := fun _ _ w => w;
  dma_rx := fun _ w => (mkRx 0x200000 60 0 1 0 0, replicate 2048 7, w);
  dma_rx_set := fun _ _ w => w;
  dma_tx := fun _ w => (mkTx 0x300000 0 0 0 1 0 0, w);
  dma_tx_set := fun _ _ w => w;
  dma_tx_data := fun _ frame w => w ++ [frame] |}.
Next Obligation. cbn [fst snd]. split; [done|]. apply Forall_replicate. unfold is_byte. lia. Qed.
Next Obligation. cbn. lia. Qed.

Definition running_nic : E1000 (B:=OneNic) (W:=Link) (H:=Heap) :=
  mkE1000 (mkMachine 0 []) [] (heap_init (mkHeap 0 ∅)) 0xFEB80000 0x100010 0x100020
    (replicate RX_COUNT 0x200000) (replicate TX_COUNT 0x300000) 31 15 [0x52; 0x54; 0; 0x12; 0x34; 0x56] true.

Lemma e1000_rings_sound_witness :
  e1000_ok running_nic /\
  exists e', e1000_send (replicate 60 1) running_nic = (true, e') /\ tx_index e' = 0 /\
  exists e'', e1000_receive 2048 running_nic = (Some (replicate 60 7), e'') /\ rx_index e'' = 0.
Proof.
  assert (He : e1000_ok running_nic).
  { split; [by vm_compute|by vm_compute|by split; [|repeat constructor]|done|]. intros _.
    split; [apply Forall_replicate; lia|apply Forall_replicate; lia]. }
  split; [exact He|]. destruct (e1000_rings_sound running_nic He) as (_ & Hs & Hr).
  exists (e1000_send (replicate 60 1) running_nic).2.
  assert (E : e1000_send (replicate 60 1) running_nic = (true, (e1000_send (replicate 60 1) running_nic).2)).
  { apply pair_fst. by vm_compute. }
  split; [exact E|]. destruct (Hs _ _ _ E) as [_ Hs']. destruct (Hs' eq_refl) as (_ & _ & _ & Ht & _).
  split; [exact Ht|]. exists (e1000_receive 2048 running_nic).2.
  assert (F : e1000_receive 2048 running_nic = (Some (replicate 60 7), (e1000_receive 2048 running_nic).2)).
  { apply pair_fst. by vm_compute. }
  split; [exact F|]. destruct (Hr 2048 _ _ ltac:(lia) F) as [_ Hr']. destruct (Hr' _ eq_refl) as (_ & _ & Hn).
  destruct (Hn ltac:(discriminate)) as (_ & Hi & _). exact Hi.
Defined.
