(* ===== verification/Network.v ===== *)
(** * kernel/network.c: Ethernet, ARP, IPv4, UDP and one TCP connection

    The adapter is any [Nic].  Packets are lists of bytes; the packed structures of
    the source are records with an encoding, their fields hold what the source stores
    in them, so that the byte swaps are where the source has them.  [wire] is the
    trace of the frames the adapter accepted. *)

From S2P Require Import Prelude Runtime NicInterface.

Definition ETHERTYPE_IPV4 : Z := 0x0800.
Definition ETHERTYPE_ARP : Z := 0x0806.
Definition IP_PROTOCOL_UDP : Z := 17.
Definition IP_PROTOCOL_TCP : Z := 6.

Definition TCP_FIN : Z := 0x01.
Definition TCP_SYN : Z := 0x02.
Definition TCP_RST : Z := 0x04.
Definition TCP_PSH : Z := 0x08.
Definition TCP_ACK : Z := 0x10.

Definition IPV4 (a b c d : Z) : Z :=
  Z.lor (Z.lor (Z.lor (Z.shiftl a 24) (Z.shiftl b 16)) (Z.shiftl c 8)) d.

Definition LOCAL_IP : Z := IPV4 10 0 2 15.
Definition GATEWAY_IP : Z := IPV4 10 0 2 2.

(** ** Packed structures *)

Definition encode_ethernet (destination source : list Z) (type : Z) : list Z :=
  destination ++ source ++ le 2 type.

Record ArpPacket := mkArp {
  hardware_type : Z; protocol_type : Z; hardware_length : Z; protocol_length : Z; operation : Z;
  sender_mac : list Z; sender_ip : Z; target_mac : list Z; target_ip : Z }.

Definition encode_arp (a : ArpPacket) : list Z :=
  le 2 (hardware_type a) ++ le 2 (protocol_type a) ++ le 1 (hardware_length a) ++ le 1 (protocol_length a) ++
  le 2 (operation a) ++ sender_mac a ++ le 4 (sender_ip a) ++ target_mac a ++ le 4 (target_ip a).

Definition decode_arp (l : list Z) : ArpPacket :=
  mkArp (field 0 2 l) (field 2 2 l) (field 4 1 l) (field 5 1 l) (field 6 2 l) (slice 8 6 l) (field 14 4 l)
    (slice 18 6 l) (field 24 4 l).

Record Ipv4Header := mkIp {
  version_header_length : Z; service : Z; total_length : Z; identification : Z; fragment : Z; ttl : Z;
  protocol : Z; ip_checksum : Z; ip_source : Z; ip_destination : Z }.

Definition encode_ip (h : Ipv4Header) : list Z :=
  le 1 (version_header_length h) ++ le 1 (service h) ++ le 2 (total_length h) ++ le 2 (identification h) ++
  le 2 (fragment h) ++ le 1 (ttl h) ++ le 1 (protocol h) ++ le 2 (ip_checksum h) ++ le 4 (ip_source h) ++
  le 4 (ip_destination h).

Definition with_ip_checksum (c : Z) (h : Ipv4Header) : Ipv4Header :=
  mkIp (version_header_length h) (service h) (total_length h) (identification h) (fragment h) (ttl h)
    (protocol h) c (ip_source h) (ip_destination h).

Definition decode_ip (l : list Z) : Ipv4Header :=
  mkIp (field 0 1 l) (field 1 1 l) (field 2 2 l) (field 4 2 l) (field 6 2 l) (field 8 1 l) (field 9 1 l)
    (field 10 2 l) (field 12 4 l) (field 16 4 l).

Record UdpHeader := mkUdp {
  udp_source : Z; udp_destination : Z; udp_length : Z; udp_checksum : Z }.

Definition encode_udp (u : UdpHeader) : list Z :=
  le 2 (udp_source u) ++ le 2 (udp_destination u) ++ le 2 (udp_length u) ++ le 2 (udp_checksum u).

Record TcpHeader := mkTcpHeader {
  source_port : Z; destination_port : Z; sequence : Z; acknowledgement : Z; data_offset : Z; flags : Z;
  window : Z; checksum : Z; urgent : Z }.

Definition encode_tcp (t : TcpHeader) : list Z :=
  le 2 (source_port t) ++ le 2 (destination_port t) ++ le 4 (sequence t) ++ le 4 (acknowledgement t) ++
  le 1 (data_offset t) ++ le 1 (flags t) ++ le 2 (window t) ++ le 2 (checksum t) ++ le 2 (urgent t).

Definition with_checksum (c : Z) (t : TcpHeader) : TcpHeader :=
  mkTcpHeader (source_port t) (destination_port t) (sequence t) (acknowledgement t) (data_offset t) (flags t)
    (window t) c (urgent t).

Definition decode_tcp (l : list Z) : TcpHeader :=
  mkTcpHeader (field 0 2 l) (field 2 2 l) (field 4 4 l) (field 8 4 l) (field 12 1 l) (field 13 1 l)
    (field 14 2 l) (field 16 2 l) (field 18 2 l).

Definition ETHERNET_SIZE : Z := 14.
Definition ARP_SIZE : Z := 28.
Definition IP_SIZE : Z := 20.
Definition UDP_SIZE : Z := 8.
Definition TCP_SIZE : Z := 20.

(** ** State *)

Inductive TcpState := TCP_CLOSED | TCP_SYN_SENT | TCP_ESTABLISHED.

#[export] Instance TcpState_eq_dec : EqDecision TcpState.
Proof. solve_decision. Defined.

(** The [tcp_] variables. *)
Record Tcp := mkTcp {
  tcp_state : TcpState; tcp_destination_ip : Z; tcp_destination_port : Z; tcp_local_port : Z;
  tcp_local_sequence : Z; tcp_remote_sequence : Z; tcp_receive_buffer : list Z; tcp_receive_size : Z }.

Definition with_state (s : TcpState) (t : Tcp) : Tcp :=
  mkTcp s (tcp_destination_ip t) (tcp_destination_port t) (tcp_local_port t) (tcp_local_sequence t)
    (tcp_remote_sequence t) (tcp_receive_buffer t) (tcp_receive_size t).
Definition with_local_sequence (v : Z) (t : Tcp) : Tcp :=
  mkTcp (tcp_state t) (tcp_destination_ip t) (tcp_destination_port t) (tcp_local_port t) v
    (tcp_remote_sequence t) (tcp_receive_buffer t) (tcp_receive_size t).
Definition with_remote_sequence (v : Z) (t : Tcp) : Tcp :=
  mkTcp (tcp_state t) (tcp_destination_ip t) (tcp_destination_port t) (tcp_local_port t) (tcp_local_sequence t)
    v (tcp_receive_buffer t) (tcp_receive_size t).
Definition with_received (buffer : list Z) (size : Z) (t : Tcp) : Tcp :=
  mkTcp (tcp_state t) (tcp_destination_ip t) (tcp_destination_port t) (tcp_local_port t) (tcp_local_sequence t)
    (tcp_remote_sequence t) buffer size.

Section network.
Context {N : Type} `{!Nic N}.

Record Network := mkNetwork {
  nic : N; wire : list (list Z); scheduler_ticks : Z;
  local_mac : list Z; gateway_mac : list Z; adapter_ready : bool; gateway_ready : bool;
  sent_packets : Z; received_packets : Z; last_arp_tick : Z; ip_identifier : Z; udp_source_port : Z;
  status_text : list Z; tcp : Tcp }.

Definition with_nic (a : N) (n : Network) : Network :=
  mkNetwork a (wire n) (scheduler_ticks n) (local_mac n) (gateway_mac n) (adapter_ready n) (gateway_ready n)
    (sent_packets n) (received_packets n) (last_arp_tick n) (ip_identifier n) (udp_source_port n) (status_text n) (tcp n).
Definition with_wire (l : list (list Z)) (n : Network) : Network :=
  mkNetwork (nic n) l (scheduler_ticks n) (local_mac n) (gateway_mac n) (adapter_ready n) (gateway_ready n)
    (sent_packets n) (received_packets n) (last_arp_tick n) (ip_identifier n) (udp_source_port n) (status_text n) (tcp n).
Definition with_local_mac (mac : list Z) (n : Network) : Network :=
  mkNetwork (nic n) (wire n) (scheduler_ticks n) mac (gateway_mac n) (adapter_ready n) (gateway_ready n)
    (sent_packets n) (received_packets n) (last_arp_tick n) (ip_identifier n) (udp_source_port n) (status_text n) (tcp n).
Definition with_gateway (mac : list Z) (ready : bool) (n : Network) : Network :=
  mkNetwork (nic n) (wire n) (scheduler_ticks n) (local_mac n) mac (adapter_ready n) ready
    (sent_packets n) (received_packets n) (last_arp_tick n) (ip_identifier n) (udp_source_port n) (status_text n) (tcp n).
Definition with_adapter_ready (ready : bool) (n : Network) : Network :=
  mkNetwork (nic n) (wire n) (scheduler_ticks n) (local_mac n) (gateway_mac n) ready (gateway_ready n)
    (sent_packets n) (received_packets n) (last_arp_tick n) (ip_identifier n) (udp_source_port n) (status_text n) (tcp n).
Definition with_counters (sent received arp : Z) (n : Network) : Network :=
  mkNetwork (nic n) (wire n) (scheduler_ticks n) (local_mac n) (gateway_mac n) (adapter_ready n) (gateway_ready n)
    sent received arp (ip_identifier n) (udp_source_port n) (status_text n) (tcp n).
Definition with_identifiers (ip port : Z) (n : Network) : Network :=
  mkNetwork (nic n) (wire n) (scheduler_ticks n) (local_mac n) (gateway_mac n) (adapter_ready n) (gateway_ready n)
    (sent_packets n) (received_packets n) (last_arp_tick n) ip port (status_text n) (tcp n).
Definition with_status (s : list Z) (n : Network) : Network :=
  mkNetwork (nic n) (wire n) (scheduler_ticks n) (local_mac n) (gateway_mac n) (adapter_ready n) (gateway_ready n)
    (sent_packets n) (received_packets n) (last_arp_tick n) (ip_identifier n) (udp_source_port n) s (tcp n).
Definition with_tcp (f : Tcp -> Tcp) (n : Network) : Network :=
  mkNetwork (nic n) (wire n) (scheduler_ticks n) (local_mac n) (gateway_mac n) (adapter_ready n) (gateway_ready n)
    (sent_packets n) (received_packets n) (last_arp_tick n) (ip_identifier n) (udp_source_port n) (status_text n) (f (tcp n)).

Notation NET := (st Network).

(** [strcpy(status_text, message)] *)
Definition set_status (message : list Z) : NET unit :=
  modify (fun n => with_status (blit 0 (strcpy message) (status_text n)) n).

(** ** Byte order and checksums *)

Definition swap16 (value : Z) : Z := u16 (Z.lor (Z.shiftl value 8) (Z.shiftr value 8)).

Definition swap32 (value : Z) : Z :=
  Z.lor (Z.lor (Z.lor (u32 (Z.shiftl (Z.land value 0x000000FF) 24)) (u32 (Z.shiftl (Z.land value 0x0000FF00) 8)))
               (Z.shiftr (Z.land value 0x00FF0000) 8))
        (Z.shiftr (Z.land value 0xFF000000) 24).

(** The loop over pairs of bytes, and the odd last byte. *)
Fixpoint sum_words (sum : Z) (bytes : list Z) : Z :=
  match bytes with
  | a :: b :: rest => sum_words (u32 (sum + Z.lor (Z.shiftl a 8) b)) rest
  | [a] => u32 (sum + Z.shiftl a 8)
  | [] => sum
  end.

(** [while (sum >> 16)]; a 32-bit sum is folded in two rounds. *)
Fixpoint fold_carries (fuel : nat) (sum : Z) : Z :=
  match fuel with
  | O => sum
  | S fuel =>
      if Z.shiftr sum 16 =? 0 then sum
      else fold_carries fuel (u32 (Z.land sum 0xFFFF + Z.shiftr sum 16))
  end.

Definition internet_checksum (data : list Z) : Z :=
  u16 (Z.lnot (fold_carries 3 (sum_words 0 data))).

Definition tcp_checksum (source destination : Z) (segment : list Z) : Z :=
  let sum := u32 (Z.shiftr source 16 + Z.land source 0xFFFF + Z.shiftr destination 16 +
                  Z.land destination 0xFFFF + IP_PROTOCOL_TCP + Z.of_nat (length segment)) in
  u16 (Z.lnot (fold_carries 3 (sum_words sum segment))).

(** ** Sending *)

Definition transmit (frame : list Z) : NET bool :=
  ok <- (fun n => let '(ok, a) := nic_send frame (nic n) in (ok, with_nic a n)) ;;
  if negb ok then ret false else
  modify (fun n => with_wire (wire n ++ [frame]) n) ;;;
  modify (fun n => with_counters (u64 (sent_packets n + 1)) (received_packets n) (last_arp_tick n) n) ;;;
  ret true.

(** A frame buffer of 64 zero bytes with the headers at its start, its first 60
    bytes. *)
Definition arp_frame (ethernet arp : list Z) : list Z :=
  take 60 (blit 0 (ethernet ++ arp) (replicate 64 0)).

Definition send_arp_request : NET unit :=
  mac <- gets local_mac ;;
  let ethernet := encode_ethernet (replicate 6 0xFF) mac (swap16 ETHERTYPE_ARP) in
  let arp := mkArp (swap16 1) (swap16 ETHERTYPE_IPV4) 6 4 (swap16 1) mac (swap32 LOCAL_IP)
                   (replicate 6 0) (swap32 GATEWAY_IP) in
  transmit (arp_frame ethernet (encode_arp arp)) ;;;
  modify (fun n => with_counters (sent_packets n) (received_packets n) (scheduler_ticks n) n).

Definition send_arp_reply (request : ArpPacket) : NET unit :=
  mac <- gets local_mac ;;
  let ethernet := encode_ethernet (sender_mac request) mac (swap16 ETHERTYPE_ARP) in
  let arp := mkArp (swap16 1) (swap16 ETHERTYPE_IPV4) 6 4 (swap16 2) mac (swap32 LOCAL_IP)
                   (sender_mac request) (sender_ip request) in
  transmit (arp_frame ethernet (encode_arp arp)) ;;;
  ret tt.

(** The IPv4 header the source fills in, with its checksum computed while that field
    is zero. *)
Definition ip_header (total identifier proto destination : Z) : Ipv4Header :=
  let h := mkIp 0x45 0 (swap16 total) (swap16 identifier) (swap16 0x4000) 64 proto 0
                (swap32 LOCAL_IP) (swap32 destination) in
  with_ip_checksum (swap16 (internet_checksum (encode_ip h))) h.

(** [ip_identifier++] *)
Definition next_identifier : NET Z :=
  id <- gets ip_identifier ;;
  modify (fun n => with_identifiers (u16 (id + 1)) (udp_source_port n) n) ;;;
  ret id.

(** The TCP header and the data behind it, the checksum included. *)
Definition tcp_segment (t : Tcp) (fl : Z) (data : list Z) : list Z :=
  let header := mkTcpHeader (swap16 (tcp_local_port t)) (swap16 (tcp_destination_port t))
    (swap32 (tcp_local_sequence t)) (swap32 (tcp_remote_sequence t)) (Z.shiftl 5 4) fl (swap16 8192) 0 0 in
  let sum := swap16 (tcp_checksum LOCAL_IP (tcp_destination_ip t) (encode_tcp header ++ data)) in
  encode_tcp (with_checksum sum header) ++ data.

Definition send_tcp_segment (fl : Z) (data : list Z) : NET bool :=
  let size := Z.of_nat (length data) in
  n <- gets id ;;
  if (negb (gateway_ready n) || (1400 <? size))%bool then ret false else
  let ethernet := encode_ethernet (gateway_mac n) (local_mac n) (swap16 ETHERTYPE_IPV4) in
  let tcp_length := u16 (TCP_SIZE + size) in
  identifier <- next_identifier ;;
  let ip := ip_header (u16 (IP_SIZE + tcp_length)) identifier IP_PROTOCOL_TCP (tcp_destination_ip (tcp n)) in
  sent <- transmit (ethernet ++ encode_ip ip ++ tcp_segment (tcp n) fl data) ;;
  if negb sent then ret false else
  (if has fl TCP_SYN
   then modify (with_tcp (fun t => with_local_sequence (u32 (tcp_local_sequence t + 1)) t)) else ret tt) ;;;
  (if has fl TCP_FIN
   then modify (with_tcp (fun t => with_local_sequence (u32 (tcp_local_sequence t + 1)) t)) else ret tt) ;;;
  modify (with_tcp (fun t => with_local_sequence (u32 (tcp_local_sequence t + size)) t)) ;;;
  ret true.

Definition network_tcp_send (data : list Z) : NET bool :=
  state <- gets (fun n => tcp_state (tcp n)) ;;
  if (bool_decide (state = TCP_ESTABLISHED) && negb (Z.of_nat (length data) =? 0))%bool
  then send_tcp_segment (Z.lor TCP_PSH TCP_ACK) data else ret false.

(** ** Receiving *)

(** The data of a segment that came in order: as much of it as there is space for. *)
Definition take_payload (payload : list Z) (t : Tcp) : Tcp :=
  let payload_size := Z.of_nat (length payload) in
  let space := 8192 - tcp_receive_size t in
  let copy := if payload_size <? space then payload_size else space in
  if 0 <? copy
  then with_received (blit (Z.to_nat (tcp_receive_size t)) (take (Z.to_nat copy) payload) (tcp_receive_buffer t))
         (u16 (tcp_receive_size t + copy)) t
  else t.

(** [packet] is the [length] bytes at the pointer. *)
Definition handle_tcp (ip : Ipv4Header) (packet : list Z) : NET unit :=
  let length := Z.of_nat (length packet) in
  if length <? TCP_SIZE then ret tt else
  let h := decode_tcp packet in
  let header_size := Z.shiftr (data_offset h) 4 * 4 in
  t <- gets tcp ;;
  if ((header_size <? 20) || (length <? header_size) ||
      negb (swap16 (destination_port h) =? tcp_local_port t) ||
      negb (swap16 (source_port h) =? tcp_destination_port t) ||
      negb (swap32 (ip_source ip) =? tcp_destination_ip t))%bool then ret tt else
  if negb (tcp_checksum (tcp_destination_ip t) LOCAL_IP packet =? 0) then ret tt else
  let seq := swap32 (sequence h) in
  let ack := swap32 (acknowledgement h) in
  if has (flags h) TCP_RST then
    modify (with_tcp (with_state TCP_CLOSED)) ;;;
    set_status (text "Nova bridge refused connection")
  else
  if (bool_decide (tcp_state t = TCP_SYN_SENT) &&
      (Z.land (flags h) (Z.lor TCP_SYN TCP_ACK) =? Z.lor TCP_SYN TCP_ACK) &&
      (ack =? tcp_local_sequence t))%bool then
    modify (with_tcp (with_remote_sequence (u32 (seq + 1)))) ;;;
    modify (with_tcp (with_state TCP_ESTABLISHED)) ;;;
    send_tcp_segment TCP_ACK [] ;;;
    set_status (text "Nova internet bridge connected") ;;;
    network_tcp_send (text "NOVA/1 HELLO" ++ [10]) ;;;
    ret tt
  else
  if negb (bool_decide (tcp_state t = TCP_ESTABLISHED)) then ret tt else
  let payload := drop (Z.to_nat header_size) packet in
  let payload_size := length - header_size in
  (if ((0 <? payload_size) && (seq =? tcp_remote_sequence t))%bool then
     modify (with_tcp (take_payload payload)) ;;;
     modify (with_tcp (fun t => with_remote_sequence (u32 (tcp_remote_sequence t + payload_size)) t)) ;;;
     send_tcp_segment TCP_ACK [] ;;;
     set_status (text "Internet bridge response received")
   else ret tt) ;;;
  if has (flags h) TCP_FIN then
    modify (with_tcp (fun t => with_remote_sequence (u32 (tcp_remote_sequence t + 1)) t)) ;;;
    send_tcp_segment TCP_ACK [] ;;;
    modify (with_tcp (with_state TCP_CLOSED))
  else ret tt.

Definition handle_arp (frame : list Z) : NET unit :=
  if Z.of_nat (length frame) <? ETHERNET_SIZE + ARP_SIZE then ret tt else
  let arp := decode_arp (drop (Z.to_nat ETHERNET_SIZE) frame) in
  if (negb (hardware_type arp =? swap16 1) || negb (protocol_type arp =? swap16 ETHERTYPE_IPV4) ||
      negb (hardware_length arp =? 6) || negb (protocol_length arp =? 4))%bool then ret tt else
  let op := swap16 (operation arp) in
  let sender := swap32 (sender_ip arp) in
  let target := swap32 (target_ip arp) in
  if ((op =? 2) && (sender =? GATEWAY_IP) && (target =? LOCAL_IP))%bool then
    modify (with_gateway (sender_mac arp) true) ;;;
    set_status (text "IPv4 ready: 10.0.2.15")
  else if ((op =? 1) && (target =? LOCAL_IP))%bool then send_arp_reply arp
  else ret tt.

Definition handle_ipv4 (frame : list Z) : NET unit :=
  let length := Z.of_nat (length frame) in
  if length <? ETHERNET_SIZE + IP_SIZE then ret tt else
  let at_ip := drop (Z.to_nat ETHERNET_SIZE) frame in
  let ip := decode_ip at_ip in
  if (negb (Z.shiftr (version_header_length ip) 4 =? 4) || negb (swap32 (ip_destination ip) =? LOCAL_IP))%bool
  then ret tt else
  let header_length := Z.land (version_header_length ip) 0x0F * 4 in
  if ((header_length <? 20) || (length <? ETHERNET_SIZE + header_length))%bool then ret tt else
  if negb (internet_checksum (take (Z.to_nat header_length) at_ip) =? 0) then ret tt else
  let total := swap16 (total_length ip) in
  if ((total <? header_length) || (length - ETHERNET_SIZE <? total))%bool then ret tt else
  let payload := slice (Z.to_nat header_length) (Z.to_nat (total - header_length)) at_ip in
  if protocol ip =? IP_PROTOCOL_UDP then set_status (text "IPv4/UDP packet received")
  else if protocol ip =? IP_PROTOCOL_TCP then handle_tcp ip payload
  else ret tt.

(** ** The interface *)

Definition network_init : NET bool :=
  ready <- (fun n => let '(ok, a) := nic_init (nic n) in (ok, with_nic a n)) ;;
  modify (with_adapter_ready ready) ;;;
  modify (fun n => with_gateway (gateway_mac n) false n) ;;;
  modify (with_counters 0 0 0) ;;;
  modify (with_identifiers 1 49152) ;;;
  modify (with_tcp (with_state TCP_CLOSED)) ;;;
  modify (with_tcp (fun t => with_received (tcp_receive_buffer t) 0 t)) ;;;
  if negb ready then
    set_status (text "e1000 adapter unavailable") ;;;
    ret false
  else
  modify (fun n => with_local_mac (take 6 (nic_mac (nic n))) n) ;;;
  set_status (text "e1000 ready, resolving gateway") ;;;
  send_arp_request ;;;
  ret true.

(** What is done with one frame. *)
Definition dispatch (frame : list Z) : NET unit :=
  modify (fun n => with_counters (sent_packets n) (u64 (received_packets n + 1)) (last_arp_tick n) n) ;;;
  if Z.of_nat (length frame) <? ETHERNET_SIZE then ret tt else
  let type := swap16 (field 12 2 frame) in
  if type =? ETHERTYPE_ARP then handle_arp frame
  else if type =? ETHERTYPE_IPV4 then handle_ipv4 frame
  else ret tt.

Fixpoint poll_loop (budget : nat) : NET unit :=
  match budget with
  | O => ret tt
  | S budget =>
      received <- (fun n => let '(r, a) := nic_receive 2048 (nic n) in (r, with_nic a n)) ;;
      match received with
      | None | Some [] => ret tt
      | Some frame => dispatch frame ;;; poll_loop budget
      end
  end.

Definition network_poll : NET unit :=
  ready <- gets adapter_ready ;;
  if negb ready then ret tt else
  poll_loop 16 ;;;
  n <- gets id ;;
  if (negb (gateway_ready n) && (100 <=? u64 (scheduler_ticks n - last_arp_tick n)))%bool
  then send_arp_request else ret tt.

Definition network_send_udp (destination_ip destination_port : Z) (data : list Z) : NET bool :=
  let size := Z.of_nat (length data) in
  n <- gets id ;;
  if (negb (adapter_ready n) || negb (gateway_ready n) || (1400 <? size))%bool then ret false else
  let ethernet := encode_ethernet (gateway_mac n) (local_mac n) (swap16 ETHERTYPE_IPV4) in
  identifier <- next_identifier ;;
  let ip := ip_header (u16 (IP_SIZE + UDP_SIZE + size)) identifier IP_PROTOCOL_UDP destination_ip in
  let udp := mkUdp (swap16 (udp_source_port n)) (swap16 destination_port) (swap16 (u16 (UDP_SIZE + size))) 0 in
  modify (fun n => with_identifiers (ip_identifier n) (u16 (udp_source_port n + 1)) n) ;;;
  transmit (ethernet ++ encode_ip ip ++ encode_udp udp ++ data).

Definition network_tcp_connect (destination_ip destination_port : Z) : NET bool :=
  n <- gets id ;;
  if (negb (adapter_ready n) || negb (gateway_ready n) || negb (bool_decide (tcp_state (tcp n) = TCP_CLOSED)))%bool
  then ret false else
  modify (with_tcp (fun t => mkTcp TCP_SYN_SENT destination_ip destination_port 50000
    (Z.lxor (u32 (scheduler_ticks n)) 0x4E4F5641) 0 (tcp_receive_buffer t) 0)) ;;;
  set_status (text "Connecting to Nova internet bridge") ;;;
  sent <- send_tcp_segment TCP_SYN [] ;;
  if negb sent then
    modify (with_tcp (with_state TCP_CLOSED)) ;;;
    ret false
  else ret true.

Definition network_tcp_connected (n : Network) : bool := bool_decide (tcp_state (tcp n) = TCP_ESTABLISHED).

(** The bytes copied to the caller. *)
Definition network_tcp_receive (capacity : Z) : NET (list Z) :=
  t <- gets tcp ;;
  if ((capacity =? 0) || (tcp_receive_size t =? 0))%bool then ret [] else
  let copied := if tcp_receive_size t <? capacity then tcp_receive_size t else capacity in
  let buffer := tcp_receive_buffer t in
  let rest := slice (Z.to_nat copied) (Z.to_nat (tcp_receive_size t - copied)) buffer in
  modify (with_tcp (with_received (blit 0 rest buffer) (u16 (tcp_receive_size t - copied)))) ;;;
  ret (take (Z.to_nat copied) buffer).

Definition network_is_ready (n : Network) : bool := adapter_ready n.
Definition network_gateway_resolved (n : Network) : bool := gateway_ready n.
Definition network_packets_sent (n : Network) : Z := sent_packets n.
Definition network_packets_received (n : Network) : Z := received_packets n.
Definition network_status (n : Network) : list Z := status_text n.

End network.
