(* ===== verification/NetworkFormats.v ===== *)
(** * The formats of kernel/network.c: byte order, checksums, headers

    Byte swaps reverse the bytes of a field, encoding and decoding of headers are
    inverse, and a checksum computed while its field is zero makes the whole sum to
    zero, which is what a receiver tests. *)

From S2P Require Import Prelude Runtime NicInterface Network.

(** ** Byte order *)

Lemma land_byte v k : 0 <= k -> Z.land v (Z.shiftl 255 k) = Z.shiftl (Z.shiftr v k mod 256) k.
Proof.
  intros Hk. change 255 with (Z.ones 8). change 256 with (2 ^ 8). rewrite <- Z.land_ones by lia.
  apply Z.bits_inj'. intros i Hi. rewrite Z.land_spec. destruct (decide (i < k)).
  - rewrite !Z.shiftl_spec_low by lia. by rewrite andb_false_r.
  - rewrite !Z.shiftl_spec, Z.land_spec, Z.shiftr_spec by lia. do 2 f_equal; lia.
Qed.

Lemma swap16_spec v : 0 <= v < 2 ^ 16 -> swap16 v = v mod 256 * 256 + v / 256.
Proof.
  intros Hv. unfold swap16, wrap. rewrite Z.shiftr_div_pow2, Z.shiftl_mul_pow2 by lia.
  pose proof (Z.div_mod v 256). pose proof (Z.mod_pos_bound v 256). change (2 ^ 8) with 256.
  replace (v * 256) with (2 ^ 8 * v) by lia. rewrite lor_add by lia.
  replace (2 ^ 8 * v + v / 256) with (v mod 256 * 256 + v / 256 + v / 256 * 2 ^ 16) by lia.
  rewrite Z_mod_plus_full. apply Z.mod_small. lia.
Qed.

Lemma swap16_bytes a b : is_byte a -> is_byte b -> swap16 (a + 256 * b) = 256 * a + b.
Proof.
  unfold is_byte. intros. rewrite swap16_spec by lia.
  replace ((a + 256 * b) mod 256) with a by (rewrite Z.mul_comm, Z_mod_plus_full, Z.mod_small; lia).
  replace ((a + 256 * b) / 256) with b by (rewrite Z.mul_comm, Z.div_add, Z.div_small; lia). lia.
Qed.

Lemma le2_swap16 v : 0 <= v < 2 ^ 16 -> le 2 (swap16 v) = [v / 256; v mod 256].
Proof.
  intros Hv. rewrite swap16_spec by done. cbn [le].
  pose proof (Z.mod_pos_bound v 256). pose proof (Z.div_mod v 256).
  rewrite (Z.add_comm (_ * _)), Z_mod_plus_full, Z.div_add, (Z.div_small (v / 256)), Z.add_0_l by lia.
  by rewrite Z.mod_small, Z.mod_mod by lia.
Qed.

Lemma swap16_bound v : 0 <= swap16 v < 2 ^ 16.
Proof. apply wrap_bound. lia. Qed.

Lemma swap16_involutive v : 0 <= v < 2 ^ 16 -> swap16 (swap16 v) = v.
Proof.
  intros Hv. rewrite (swap16_spec v) by done. rewrite Z.add_comm, Z.mul_comm.
  pose proof (Z.mod_pos_bound v 256). pose proof (Z.div_mod v 256).
  rewrite swap16_bytes by (unfold is_byte; lia). lia.
Qed.

Lemma swap32_bytes a b c d :
  is_byte a -> is_byte b -> is_byte c -> is_byte d ->
  swap32 (of_le [a; b; c; d]) = of_le [d; c; b; a].
Proof.
  unfold is_byte. intros Ha Hb Hc Hd. cbn [of_le]. rewrite !Z.mul_0_r, !Z.add_0_r. unfold swap32.
  set (v := a + _). change 0xFF with (Z.shiftl 255 0). change 0xFF00 with (Z.shiftl 255 8).
  change 0xFF0000 with (Z.shiftl 255 16). change 0xFF000000 with (Z.shiftl 255 24).
  rewrite !land_byte by lia. rewrite !Z.shiftr_shiftl_l, !Z.shiftl_shiftl by lia. cbn [Z.add Z.sub].
  assert (E0 : Z.shiftr v 0 mod 256 = a).
  { rewrite Z.shiftr_0_r. unfold v. rewrite (Z.mul_comm 256), Z_mod_plus_full. apply Z.mod_small. lia. }
  assert (E1 : Z.shiftr v 8 mod 256 = b).
  { rewrite Z.shiftr_div_pow2 by lia. unfold v. change (2 ^ 8) with 256.
    rewrite (Z.mul_comm 256), Z.div_add, Z.div_small, Z.add_0_l, (Z.mul_comm 256), Z_mod_plus_full by lia.
    apply Z.mod_small. lia. }
  assert (E2 : Z.shiftr v 16 mod 256 = c).
  { rewrite Z.shiftr_div_pow2 by lia. replace v with (a + 256 * b + (c + 256 * d) * 2 ^ 16) by (unfold v; lia).
    rewrite Z.div_add, Z.div_small, Z.add_0_l, (Z.mul_comm 256), Z_mod_plus_full by lia. apply Z.mod_small. lia. }
  assert (E3 : Z.shiftr v 24 mod 256 = d).
  { rewrite Z.shiftr_div_pow2 by lia. replace v with (a + 256 * b + 65536 * c + d * 2 ^ 24) by (unfold v; lia).
    rewrite Z.div_add, Z.div_small, Z.add_0_l by lia. apply Z.mod_small. lia. }
  rewrite E0, E1, E2, E3. rewrite ?Z.shiftl_mul_pow2 by lia. unfold wrap. rewrite !Z.mod_small by lia.
  rewrite (Z.mul_comm a), (Z.mul_comm b), (Z.mul_comm c).
  replace (2 ^ (0 + 24) * a) with (2 ^ 24 * a) by lia. replace (2 ^ (8 + 8) * b) with (2 ^ 16 * b) by lia.
  replace (2 ^ (16 - 8) * c) with (2 ^ 8 * c) by lia. replace (d * 2 ^ (24 - 24)) with d by lia.
  rewrite (lor_add 24) by lia. replace (2 ^ 24 * a + 2 ^ 16 * b) with (2 ^ 16 * (256 * a + b)) by lia.
  rewrite (lor_add 16) by lia.
  replace (2 ^ 16 * (256 * a + b) + 2 ^ 8 * c) with (2 ^ 8 * (65536 * a + 256 * b + c)) by lia.
  rewrite lor_add by lia. lia.
Qed.

Lemma swap32_le v :
  0 <= v < 2 ^ 32 -> exists a b c d, v = of_le [a; b; c; d] /\ swap32 v = of_le [d; c; b; a] /\
    is_byte a /\ is_byte b /\ is_byte c /\ is_byte d.
Proof.
  intros Hv. pose proof (le_bytes 4 v) as Hb. rewrite <- (of_le_le_small 4 v) by done.
  destruct (le 4 v) as [|a [|b [|c [|d [|]]]]] eqn:E; try discriminate E. unfold bytes in Hb.
  rewrite !Forall_cons in Hb. destruct Hb as (Ha & Hb & Hc & Hd & _).
  exists a, b, c, d. split_and!; try done. by apply swap32_bytes.
Qed.

Lemma swap32_bound v : 0 <= v < 2 ^ 32 -> 0 <= swap32 v < 2 ^ 32.
Proof.
  intros Hv. destruct (swap32_le v Hv) as (a & b & c & d & _ & -> & ? & ? & ? & ?).
  apply (of_le_bound [d; c; b; a]). unfold bytes. rewrite !Forall_cons. done.
Qed.

Lemma swap32_involutive v : 0 <= v < 2 ^ 32 -> swap32 (swap32 v) = v.
Proof.
  intros Hv. destruct (swap32_le v Hv) as (a & b & c & d & -> & -> & ? & ? & ? & ?). by apply swap32_bytes.
Qed.

(** ** Checksums *)

(** The sum of the big-endian words of a packet, an odd last byte counting as the
    high byte of a word. *)
Fixpoint word_sum (l : list Z) : Z :=
  match l with
  | a :: b :: rest => a * 256 + b + word_sum rest
  | [a] => a * 256
  | [] => 0
  end.

(** The ones' complement sum: the representative between 0 and 65535. *)
Definition ones (s : Z) : Z := if s =? 0 then 0 else (s - 1) mod 65535 + 1.

(** Induction two bytes at a time. *)
Lemma pair_ind (P : list Z -> Prop) :
  P [] -> (forall a, P [a]) -> (forall a b l, P l -> P (a :: b :: l)) -> forall l, P l.
Proof.
  intros H0 H1 H2 l. assert (HP : P l /\ forall a, P (a :: l)); [|apply HP].
  induction l as [|a l [IH1 IH2]]; split; auto.
Qed.

Lemma word_sum_bound l : bytes l -> 0 <= word_sum l <= 65535 * (Z.of_nat (length l) + 1) / 2.
Proof.
  intros Hb. enough (0 <= word_sum l /\ 2 * word_sum l <= 65535 * (Z.of_nat (length l) + 1)) as [? ?].
  { split; [done|]. apply Z.div_le_lower_bound; lia. }
  revert Hb. induction l as [|a|a b l IH] using pair_ind; unfold bytes; rewrite ?Forall_cons; unfold is_byte; cbn; intros.
  - lia.
  - lia.
  - destruct IH as [? ?]; [tauto|]. lia.
Qed.

Lemma word_sum_app l1 l2 : Nat.even (length l1) = true -> word_sum (l1 ++ l2) = word_sum l1 + word_sum l2.
Proof. induction l1 as [|a|a b l1 IH] using pair_ind; cbn; intros He; [lia|done|]. rewrite IH by done. lia. Qed.

Lemma sum_words_spec s l :
  bytes l -> 0 <= s -> s + word_sum l < 2 ^ 32 -> sum_words s l = s + word_sum l.
Proof.
  revert s. induction l as [|a|a b l IH] using pair_ind; intros s; cbn [sum_words word_sum]; unfold bytes;
    rewrite ?Forall_cons; unfold is_byte at 1; intros Hb Hs Hw.
  - lia.
  - rewrite Z.shiftl_mul_pow2, wrap_small by lia. lia.
  - destruct Hb as (Ha & Hb & Hl). unfold is_byte in Hb. pose proof (word_sum_bound l Hl).
    assert (E : Z.lor (Z.shiftl a 8) b = a * 256 + b).
    { rewrite Z.shiftl_mul_pow2, Z.mul_comm, lor_add by lia. lia. }
    rewrite E, wrap_small, IH by (try done; lia). lia.
Qed.

Lemma ones_round s :
  65536 <= s -> ones (s mod 65536 + s / 65536) = ones s /\ 1 <= s mod 65536 + s / 65536.
Proof.
  intros Hs. pose proof (Z.div_mod s 65536). pose proof (Z.mod_pos_bound s 65536).
  assert (1 <= s / 65536) by (apply Z.div_le_lower_bound; lia). split; [|lia].
  unfold ones. destruct (Z.eqb_spec (s mod 65536 + s / 65536) 0); [lia|]. destruct (Z.eqb_spec s 0); [lia|].
  f_equal. replace (s - 1) with (s mod 65536 + s / 65536 - 1 + s / 65536 * 65535) by lia.
  by rewrite Z_mod_plus_full.
Qed.

Lemma ones_small s : 0 <= s < 65536 -> ones s = s.
Proof. intros. unfold ones. destruct (Z.eqb_spec s 0); [lia|]. rewrite Z.mod_small; lia. Qed.

Lemma ones_bound s : 0 <= s -> 0 <= ones s <= 65535.
Proof. intros. unfold ones. pose proof (Z.mod_pos_bound (s - 1) 65535). destruct (Z.eqb_spec s 0); lia. Qed.

Lemma fold_step fuel s :
  0 <= s < 2 ^ 32 -> fold_carries (S fuel) s =
    if s <? 65536 then s else fold_carries fuel (s mod 65536 + s / 65536).
Proof.
  intros Hs. cbn [fold_carries]. rewrite Z.shiftr_div_pow2 by lia. change 0xFFFF with (2 ^ 16 - 1).
  rewrite land_ones_mod by lia. change (2 ^ 16) with 65536.
  pose proof (Z.div_mod s 65536). pose proof (Z.mod_pos_bound s 65536).
  destruct (Z.ltb_spec s 65536); destruct (Z.eqb_spec (s / 65536) 0); try lia.
  rewrite wrap_small; [done|]. lia.
Qed.

(** The rounds the loop is given are enough, and it computes the ones' complement
    sum. *)
Lemma fold_carries_spec s : 0 <= s < 2 ^ 32 -> fold_carries 3 s = ones s.
Proof.
  intros Hs. rewrite fold_step by done. destruct (Z.ltb_spec s 65536); [rewrite ones_small; lia|].
  destruct (ones_round s) as [<- H1]; [done|]. pose proof (Z.mod_pos_bound s 65536).
  assert (s / 65536 < 65536) by (apply Z.div_lt_upper_bound; lia).
  remember (s mod 65536 + s / 65536) as r eqn:Er. rewrite fold_step by lia.
  destruct (Z.ltb_spec r 65536); [rewrite ones_small; lia|]. destruct (ones_round r) as [<- Hr]; [done|].
  assert (Hd : r / 65536 = 1) by (symmetry; apply (Z.div_unique r 65536 1 (r - 65536)); lia).
  pose proof (Z.div_mod r 65536). rewrite Hd in *. rewrite fold_step by lia.
  destruct (Z.ltb_spec (r mod 65536 + 1) 65536); [rewrite ones_small; lia|lia].
Qed.

Lemma complement16 s : 0 <= s <= 65535 -> u16 (Z.lnot s) = 65535 - s.
Proof.
  intros. unfold wrap, Z.lnot. replace (Z.pred (- s)) with (65535 - s + (-1) * 2 ^ 16) by lia.
  rewrite Z_mod_plus_full. apply Z.mod_small. lia.
Qed.

(** What the two checksum routines compute. *)
Lemma internet_checksum_spec l :
  bytes l -> word_sum l < 2 ^ 32 -> internet_checksum l = 65535 - ones (word_sum l).
Proof.
  intros Hb Hl. unfold internet_checksum. pose proof (word_sum_bound l Hb).
  rewrite sum_words_spec, Z.add_0_l, fold_carries_spec by (done || lia).
  apply complement16, ones_bound. lia.
Qed.

(** The sum of the pseudo-header. *)
Definition pseudo_sum (source destination : Z) (n : nat) : Z :=
  source / 65536 + source mod 65536 + destination / 65536 + destination mod 65536 + 6 + Z.of_nat n.

Lemma tcp_checksum_spec source destination l :
  0 <= source < 2 ^ 32 -> 0 <= destination < 2 ^ 32 -> bytes l -> Z.of_nat (length l) <= 65535 ->
  tcp_checksum source destination l = 65535 - ones (pseudo_sum source destination (length l) + word_sum l).
Proof.
  intros Hs Hd Hb Hl. unfold tcp_checksum. pose proof (word_sum_bound l Hb).
  assert (Hw : word_sum l <= 2147450880).
  { etrans; [apply H|]. apply Z.div_le_upper_bound; lia. }
  rewrite !Z.shiftr_div_pow2 by lia. change 0xFFFF with (2 ^ 16 - 1). rewrite !land_ones_mod by lia.
  change (2 ^ 16) with 65536. fold (pseudo_sum source destination (length l)). change IP_PROTOCOL_TCP with 6.
  assert (Hp : 0 <= pseudo_sum source destination (length l) <= 65535 * 5 + 6).
  { unfold pseudo_sum. pose proof (Z.mod_pos_bound source 65536). pose proof (Z.mod_pos_bound destination 65536).
    assert (0 <= source / 65536 < 65536) by (split; [apply Z.div_pos|apply Z.div_lt_upper_bound]; lia).
    assert (0 <= destination / 65536 < 65536) by (split; [apply Z.div_pos|apply Z.div_lt_upper_bound]; lia). lia. }
  fold (pseudo_sum source destination (length l)).
  change (65536 - 1) with 65535. rewrite (wrap_small 32), sum_words_spec, fold_carries_spec by (done || lia).
  apply complement16, ones_bound. lia.
Qed.

(** Adding the complement of a sum makes it all ones. *)
Lemma ones_seal s : 0 <= s -> ones (s + (65535 - ones s)) = 65535.
Proof.
  intros Hs. unfold ones at 2. destruct (Z.eqb_spec s 0) as [->|Hn]; [done|].
  pose proof (Z.mod_pos_bound (s - 1) 65535). pose proof (Z.div_mod (s - 1) 65535). unfold ones.
  destruct (Z.eqb_spec (s + (65535 - ((s - 1) mod 65535 + 1))) 0); [lia|].
  replace (s + (65535 - ((s - 1) mod 65535 + 1)) - 1) with (65534 + (s - 1) / 65535 * 65535) by lia.
  rewrite Z_mod_plus_full. done.
Qed.

(** ** Headers *)

Lemma length_encode_ip h : length (encode_ip h) = 20%nat.
Proof. unfold encode_ip. by rewrite !length_app, !length_le. Qed.

Lemma length_encode_tcp h : length (encode_tcp h) = 20%nat.
Proof. unfold encode_tcp. by rewrite !length_app, !length_le. Qed.

Lemma encode_ip_bytes h : bytes (encode_ip h).
Proof. unfold encode_ip. rewrite !bytes_app. auto 20 with nova. Qed.

Lemma encode_tcp_bytes h : bytes (encode_tcp h).
Proof. unfold encode_tcp. rewrite !bytes_app. auto 20 with nova. Qed.

(** Every field fits its width. *)
Definition ip_fields (h : Ipv4Header) : Prop :=
  0 <= version_header_length h < 2 ^ 8 /\ 0 <= service h < 2 ^ 8 /\ 0 <= total_length h < 2 ^ 16 /\
  0 <= identification h < 2 ^ 16 /\ 0 <= fragment h < 2 ^ 16 /\ 0 <= ttl h < 2 ^ 8 /\ 0 <= protocol h < 2 ^ 8 /\
  0 <= ip_checksum h < 2 ^ 16 /\ 0 <= ip_source h < 2 ^ 32 /\ 0 <= ip_destination h < 2 ^ 32.

Definition tcp_fields (h : TcpHeader) : Prop :=
  0 <= source_port h < 2 ^ 16 /\ 0 <= destination_port h < 2 ^ 16 /\ 0 <= sequence h < 2 ^ 32 /\
  0 <= acknowledgement h < 2 ^ 32 /\ 0 <= data_offset h < 2 ^ 8 /\ 0 <= flags h < 2 ^ 8 /\
  0 <= window h < 2 ^ 16 /\ 0 <= checksum h < 2 ^ 16 /\ 0 <= urgent h < 2 ^ 16.

Lemma with_ip_checksum_fields c h : 0 <= c < 2 ^ 16 -> ip_fields h -> ip_fields (with_ip_checksum c h).
Proof. intros. unfold ip_fields in *. cbn. tauto. Qed.

Lemma with_checksum_fields c h : 0 <= c < 2 ^ 16 -> tcp_fields h -> tcp_fields (with_checksum c h).
Proof. intros. unfold tcp_fields in *. cbn. tauto. Qed.

Lemma decode_encode_ip h rest : ip_fields h -> decode_ip (encode_ip h ++ rest) = h.
Proof.
  intros (H1 & H2 & H3 & H4 & H5 & H6 & H7 & H8 & H9 & H10). unfold decode_ip, encode_ip, field.
  rewrite <- !app_assoc. slices. rewrite !of_le_le_small by done. by destruct h.
Qed.

Lemma decode_encode_tcp h rest : tcp_fields h -> decode_tcp (encode_tcp h ++ rest) = h.
Proof.
  intros (H1 & H2 & H3 & H4 & H5 & H6 & H7 & H8 & H9). unfold decode_tcp, encode_tcp, field.
  rewrite <- !app_assoc. slices. rewrite !of_le_le_small by done. by destruct h.
Qed.

Lemma word_sum_field c l : 0 <= c < 2 ^ 16 -> word_sum (le 2 (swap16 c) ++ l) = c + word_sum l.
Proof. intros. rewrite le2_swap16 by done. cbn. pose proof (Z.div_mod c 256). lia. Qed.

(** Storing a checksum adds it to the sum of the words. *)
Lemma word_sum_ip_checksum c h :
  0 <= c < 2 ^ 16 -> word_sum (encode_ip (with_ip_checksum (swap16 c) h)) = word_sum (encode_ip (with_ip_checksum 0 h)) + c.
Proof.
  intros Hc.
  set (p := le 1 (version_header_length h) ++ le 1 (service h) ++ le 2 (total_length h) ++ le 2 (identification h) ++
            le 2 (fragment h) ++ le 1 (ttl h) ++ le 1 (protocol h)).
  assert (E : forall x, encode_ip (with_ip_checksum x h) =
            p ++ le 2 x ++ le 4 (ip_source h) ++ le 4 (ip_destination h)).
  { intros x. unfold p. rewrite <- !app_assoc. done. }
  rewrite !E, !(word_sum_app p) by (unfold p; rewrite !length_app, !length_le; done).
  rewrite word_sum_field by done. change (le 2 0) with [0; 0]. cbn [app word_sum]. lia.
Qed.

Lemma word_sum_tcp_checksum c h data :
  0 <= c < 2 ^ 16 ->
  word_sum (encode_tcp (with_checksum (swap16 c) h) ++ data) = word_sum (encode_tcp (with_checksum 0 h) ++ data) + c.
Proof.
  intros Hc.
  set (p := le 2 (source_port h) ++ le 2 (destination_port h) ++ le 4 (sequence h) ++ le 4 (acknowledgement h) ++
            le 1 (data_offset h) ++ le 1 (flags h) ++ le 2 (window h)).
  assert (E : forall x, encode_tcp (with_checksum x h) ++ data = p ++ le 2 x ++ le 2 (urgent h) ++ data).
  { intros x. unfold p, encode_tcp. rewrite <- !app_assoc. done. }
  rewrite !E, !(word_sum_app p) by (unfold p; rewrite !length_app, !length_le; done).
  rewrite word_sum_field by done. change (le 2 0) with [0; 0]. cbn [app word_sum]. lia.
Qed.

(** A header as the source completes it, and a segment. *)
Definition seal_ip (h : Ipv4Header) : Ipv4Header :=
  with_ip_checksum (swap16 (internet_checksum (encode_ip (with_ip_checksum 0 h)))) h.

Definition seal_tcp (source destination : Z) (h : TcpHeader) (data : list Z) : list Z :=
  encode_tcp (with_checksum (swap16 (tcp_checksum source destination (encode_tcp (with_checksum 0 h) ++ data))) h) ++ data.

(** The receiver's test of a sealed header succeeds. *)
Lemma seal_ip_verifies h : internet_checksum (encode_ip (seal_ip h)) = 0.
Proof.
  unfold seal_ip. assert (Hw : forall h, 0 <= word_sum (encode_ip h) <= 1000000).
  { intros h0. pose proof (word_sum_bound _ (encode_ip_bytes h0)) as Hw. rewrite length_encode_ip in Hw.
    change (65535 * (Z.of_nat 20 + 1) / 2) with 688117 in Hw. lia. }
  pose proof (Hw (with_ip_checksum 0 h)).
  rewrite (internet_checksum_spec (encode_ip (with_ip_checksum 0 h))) by (apply encode_ip_bytes || lia).
  set (s := word_sum (encode_ip (with_ip_checksum 0 h))) in *. pose proof (ones_bound s).
  pose proof (Hw (with_ip_checksum (swap16 (65535 - ones s)) h)).
  rewrite internet_checksum_spec by (apply encode_ip_bytes || lia).
  rewrite word_sum_ip_checksum by lia. fold s. rewrite ones_seal; lia.
Qed.

(** And that of a sealed segment. *)
Lemma seal_tcp_verifies source destination h data :
  0 <= source < 2 ^ 32 -> 0 <= destination < 2 ^ 32 -> bytes data -> Z.of_nat (length data) <= 65515 ->
  tcp_checksum source destination (seal_tcp source destination h data) = 0.
Proof.
  intros Hs Hd Hb Hl. unfold seal_tcp.
  assert (Hok : forall h, bytes (encode_tcp h ++ data) /\ length (encode_tcp h ++ data) = (20 + length data)%nat).
  { intros h0. rewrite bytes_app, length_app, length_encode_tcp. split; [|done]. split; [apply encode_tcp_bytes|done]. }
  destruct (Hok (with_checksum 0 h)) as [Hb0 Hl0]. pose proof (word_sum_bound _ Hb0) as Hw0.
  rewrite (tcp_checksum_spec _ _ (encode_tcp (with_checksum 0 h) ++ data)) by (done || lia).
  rewrite Hl0. set (s := pseudo_sum _ _ _ + word_sum _).
  assert (Hs0 : 0 <= s).
  { unfold s, pseudo_sum. pose proof (Z.mod_pos_bound source 65536). pose proof (Z.mod_pos_bound destination 65536).
    assert (0 <= source / 65536) by (apply Z.div_pos; lia). assert (0 <= destination / 65536) by (apply Z.div_pos; lia).
    lia. }
  pose proof (ones_bound s Hs0). destruct (Hok (with_checksum (swap16 (65535 - ones s)) h)) as [Hb1 Hl1].
  rewrite tcp_checksum_spec by (done || lia). rewrite Hl1, word_sum_tcp_checksum by lia.
  rewrite Z.add_assoc. fold s. rewrite ones_seal; lia.
Qed.

Lemma length_seal_tcp source destination h data : length (seal_tcp source destination h data) = (20 + length data)%nat.
Proof. unfold seal_tcp. by rewrite length_app, length_encode_tcp. Qed.

Lemma seal_tcp_bytes source destination h data : bytes data -> bytes (seal_tcp source destination h data).
Proof. intros. apply bytes_app. split; [apply encode_tcp_bytes|done]. Qed.

#[global] Arguments internet_checksum : simpl never.
#[global] Arguments tcp_checksum : simpl never.
#[global] Arguments swap16 : simpl never.
#[global] Arguments swap32 : simpl never.
#[global] Arguments encode_ip : simpl never.
#[global] Arguments encode_tcp : simpl never.
#[global] Opaque internet_checksum tcp_checksum.
