(* ===== verification/NetworkFacts.v ===== *)
(** * The network stack: its invariant and the frames it sends

    [net_ok] holds of every state the stack can reach, whatever frames arrive; the
    frames on the wire are complete, within the Ethernet limits and carry checksums
    that a receiver accepts. *)

From S2P Require Import Prelude Runtime NicInterface Network NetworkFormats.

(** ** What is sent *)

(** A frame that any host on the network would accept as coming from this one. *)
Definition ipv4_ok (f : list Z) : Prop :=
  let at_ip := drop 14 f in
  let ip := decode_ip at_ip in
  version_header_length ip = 0x45 /\ internet_checksum (take 20 at_ip) = 0 /\
  swap16 (total_length ip) = Z.of_nat (length f) - 14 /\ swap32 (ip_source ip) = LOCAL_IP /\
  (protocol ip = IP_PROTOCOL_UDP \/
   protocol ip = IP_PROTOCOL_TCP /\ tcp_checksum LOCAL_IP (swap32 (ip_destination ip)) (drop 20 at_ip) = 0).

Definition frame_ok (f : list Z) : Prop :=
  bytes f /\ 42 <= Z.of_nat (length f) <= 1514 /\
  (swap16 (field 12 2 f) = ETHERTYPE_ARP /\ length f = 60%nat \/
   swap16 (field 12 2 f) = ETHERTYPE_IPV4 /\ ipv4_ok f).

Definition mac_ok (mac : list Z) : Prop := length mac = 6%nat /\ bytes mac.

Lemma length_encode_ethernet d s t : mac_ok d -> mac_ok s -> length (encode_ethernet d s t) = 14%nat.
Proof. intros [Hd _] [Hs _]. unfold encode_ethernet. by rewrite !length_app, Hd, Hs, length_le. Qed.

Lemma encode_ethernet_bytes d s t : mac_ok d -> mac_ok s -> bytes (encode_ethernet d s t).
Proof. intros [_ Hd] [_ Hs]. unfold encode_ethernet. rewrite !bytes_app. auto with nova. Qed.

Lemma ethernet_type d s t rest :
  mac_ok d -> mac_ok s -> 0 <= t < 2 ^ 16 -> swap16 (field 12 2 (encode_ethernet d s (swap16 t) ++ rest)) = t.
Proof.
  intros [Hd _] [Hs _] Ht. unfold encode_ethernet, field. rewrite <- !app_assoc. slices.
  rewrite of_le_le_small by (apply swap16_bound). by apply swap16_involutive.
Qed.

Lemma drop_ethernet d s t rest : mac_ok d -> mac_ok s -> drop 14 (encode_ethernet d s t ++ rest) = rest.
Proof. intros. by rewrite drop_app_length' by (by rewrite length_encode_ethernet). Qed.

Lemma LOCAL_IP_range : 0 <= LOCAL_IP < 2 ^ 32.
Proof. by vm_compute. Qed.

(** The IPv4 packets the source builds: a sealed header and what follows it. *)
Lemma ipv4_frame_ok d s h rest :
  mac_ok d -> mac_ok s -> ip_fields h -> version_header_length h = 0x45 -> ip_source h = swap32 LOCAL_IP ->
  total_length h = swap16 (20 + Z.of_nat (length rest)) -> bytes rest -> 8 <= Z.of_nat (length rest) <= 1480 ->
  (protocol h = IP_PROTOCOL_UDP \/
   protocol h = IP_PROTOCOL_TCP /\ tcp_checksum LOCAL_IP (swap32 (ip_destination h)) rest = 0) ->
  frame_ok (encode_ethernet d s (swap16 ETHERTYPE_IPV4) ++ encode_ip (seal_ip h) ++ rest).
Proof.
  intros Hd Hs Hf Hv Hsrc Ht Hb Hl Hp.
  assert (Hlen : length (encode_ethernet d s (swap16 ETHERTYPE_IPV4) ++ encode_ip (seal_ip h) ++ rest)
                 = (34 + length rest)%nat)
    by (by rewrite !length_app, length_encode_ethernet, length_encode_ip).
  assert (Hf' : ip_fields (seal_ip h)) by (apply with_ip_checksum_fields; [apply swap16_bound|done]).
  split; [|split].
  - rewrite !bytes_app. split_and!; [by apply encode_ethernet_bytes|apply encode_ip_bytes|done].
  - rewrite Hlen. lia.
  - right. split; [by apply ethernet_type|]. unfold ipv4_ok. rewrite Hlen, drop_ethernet by done.
    rewrite decode_encode_ip by done. split_and!.
    + done.
    + rewrite take_app_length' by (by rewrite length_encode_ip). apply seal_ip_verifies.
    + change (total_length (seal_ip h)) with (total_length h). rewrite Ht, swap16_involutive by lia. lia.
    + change (ip_source (seal_ip h)) with (ip_source h). rewrite Hsrc. apply swap32_involutive, LOCAL_IP_range.
    + by rewrite drop_app_length' by (by rewrite length_encode_ip).
Qed.

(** The header before its checksum is known. *)
Definition ip_template (total id proto dst : Z) : Ipv4Header :=
  mkIp 0x45 0 (swap16 total) (swap16 id) (swap16 0x4000) 64 proto 0 (swap32 LOCAL_IP) (swap32 dst).

Lemma ip_header_seal total id proto dst : ip_header total id proto dst = seal_ip (ip_template total id proto dst).
Proof. reflexivity. Qed.

Lemma ip_template_fields total id proto dst :
  0 <= proto < 2 ^ 8 -> 0 <= dst < 2 ^ 32 -> ip_fields (ip_template total id proto dst).
Proof.
  intros. unfold ip_fields, ip_template; cbn. pose proof (swap32_bound LOCAL_IP LOCAL_IP_range).
  pose proof (swap32_bound dst). split_and!; try lia; apply swap16_bound.
Qed.

Lemma arp_frame_ok d s a :
  mac_ok d -> mac_ok s -> mac_ok (sender_mac a) -> mac_ok (target_mac a) ->
  frame_ok (arp_frame (encode_ethernet d s (swap16 ETHERTYPE_ARP)) (encode_arp a)).
Proof.
  intros Hd Hs [Hsl Hsb] [Htl Htb].
  assert (Ha : length (encode_arp a) = 28%nat)
    by (unfold encode_arp; by rewrite !length_app, !length_le, Hsl, Htl).
  assert (Hab : bytes (encode_arp a)) by (unfold encode_arp; rewrite !bytes_app; auto 20 with nova).
  set (e := encode_ethernet d s (swap16 ETHERTYPE_ARP)).
  assert (He : length e = 14%nat) by (by apply length_encode_ethernet).
  assert (E : arp_frame e (encode_arp a) = e ++ encode_arp a ++ replicate 18 0).
  { unfold arp_frame, blit. rewrite length_app, He, Ha. cbn [take app Nat.add]. rewrite app_nil_l.
    change (drop 42 (replicate 64 0)) with (replicate 22 0 : list Z).
    rewrite (app_assoc e), take_app_ge by (rewrite length_app; lia). rewrite length_app, He, Ha. reflexivity. }
  rewrite E. assert (Hl : length (e ++ encode_arp a ++ replicate 18 0) = 60%nat)
    by (by rewrite !length_app, He, Ha).
  split; [|split; [rewrite Hl; lia|left; split; [|done]]].
  - rewrite !bytes_app. split_and!; [by apply encode_ethernet_bytes|done|apply bytes_zeroes].
  - by apply ethernet_type.
Qed.

(** ** The invariant *)

Record tcp_ok (t : Tcp) : Prop := {
  to_ip : 0 <= tcp_destination_ip t < 2 ^ 32;
  to_port : 0 <= tcp_destination_port t < 2 ^ 16;
  to_local_port : 0 <= tcp_local_port t < 2 ^ 16;
  to_local : 0 <= tcp_local_sequence t < 2 ^ 32;
  to_remote : 0 <= tcp_remote_sequence t < 2 ^ 32;
  to_buffer : Z.of_nat (length (tcp_receive_buffer t)) = 8192 /\ bytes (tcp_receive_buffer t);
  to_size : 0 <= tcp_receive_size t <= 8192 }.

Definition status_ok (s : list Z) : Prop := length s = 48%nat /\ bytes s /\ (strlen s < 48)%nat.

Lemma text_status m :
  bool_decide (Forall (fun c => 0 < c < 256) m) = true -> (length m < 48)%nat ->
  forall s, length s = 48%nat -> bytes s -> status_ok (blit 0 (strcpy m) s).
Proof.
  intros Hm Hl s Hs Hb. apply bool_decide_eq_true in Hm.
  assert (Hc : cstr m = m) by (apply cstr_id; eapply Forall_impl; [done|cbn; lia]).
  unfold strcpy. rewrite Hc.
  assert (Hbm : bytes (m ++ [0])).
  { apply bytes_app. split; [eapply Forall_impl; [done|unfold is_byte; cbn; lia]|by repeat constructor]. }
  split_and!.
  - rewrite length_blit; [done|]. rewrite length_app. cbn [length]. lia.
  - by apply bytes_blit.
  - unfold blit. cbn [take app]. rewrite app_nil_l, <- app_assoc, <- length_cstr. cbn [app].
    rewrite cstr_app_nul; [lia|]. eapply Forall_impl; [done|cbn; lia].
Qed.

Lemma take_payload_ok p t : bytes p -> tcp_ok t -> tcp_ok (take_payload p t).
Proof.
  intros Hp [? ? ? ? ? [Hb1 Hb2] ?]. unfold take_payload. cbv zeta. case_if as E; [|by split].
  assert (Hn : 0 < (if Z.of_nat (length p) <? 8192 - tcp_receive_size t then Z.of_nat (length p)
                    else 8192 - tcp_receive_size t) <= 8192 - tcp_receive_size t /\
               (if Z.of_nat (length p) <? 8192 - tcp_receive_size t then Z.of_nat (length p)
                    else 8192 - tcp_receive_size t) <= Z.of_nat (length p)) by (case_if as E2; lia).
  revert Hn. set (copy := if _ <? _ then _ else _). intros [Hn1 Hn2].
  split; try done; cbn.
  - rewrite length_blit by (rewrite length_take; lia). split; [done|]. apply bytes_blit; auto with nova.
  - rewrite wrap_small by lia. lia.
Qed.

(** ** The connection as a machine *)

(** The test of an incoming segment: complete, for this connection, undamaged. *)
Definition tcp_addressed (ip : Ipv4Header) (packet : list Z) (t : Tcp) : bool :=
  let h := decode_tcp packet in
  let header_size := Z.shiftr (data_offset h) 4 * 4 in
  (TCP_SIZE <=? Z.of_nat (length packet)) && (20 <=? header_size) && (header_size <=? Z.of_nat (length packet)) &&
  (swap16 (destination_port h) =? tcp_local_port t) && (swap16 (source_port h) =? tcp_destination_port t) &&
  (swap32 (ip_source ip) =? tcp_destination_ip t) &&
  (tcp_checksum (tcp_destination_ip t) LOCAL_IP packet =? 0).

Definition tcp_payload (packet : list Z) : list Z :=
  drop (Z.to_nat (Z.shiftr (data_offset (decode_tcp packet)) 4 * 4)) packet.

Definition syn_ack (fl : Z) : bool := Z.land fl (Z.lor TCP_SYN TCP_ACK) =? Z.lor TCP_SYN TCP_ACK.

(** What a segment does to the connection, apart from the answers sent. *)
Definition tcp_input (ip : Ipv4Header) (packet : list Z) (t : Tcp) : Tcp :=
  let h := decode_tcp packet in
  let seq := swap32 (sequence h) in
  let payload := tcp_payload packet in
  if negb (tcp_addressed ip packet t) then t
  else if has (flags h) TCP_RST then with_state TCP_CLOSED t
  else match tcp_state t with
  | TCP_CLOSED => t
  | TCP_SYN_SENT =>
      if syn_ack (flags h) && (swap32 (acknowledgement h) =? tcp_local_sequence t)
      then with_state TCP_ESTABLISHED (with_remote_sequence (u32 (seq + 1)) t) else t
  | TCP_ESTABLISHED =>
      let t := if (0 <? Z.of_nat (length payload)) && (seq =? tcp_remote_sequence t)
               then with_remote_sequence (u32 (tcp_remote_sequence t + Z.of_nat (length payload)))
                      (take_payload payload t)
               else t in
      if has (flags h) TCP_FIN
      then with_state TCP_CLOSED (with_remote_sequence (u32 (tcp_remote_sequence t + 1)) t) else t
  end.

(** Equal but for the sequence number of the next segment sent. *)
Definition tcp_same (t t' : Tcp) : Prop := with_local_sequence 0 t = with_local_sequence 0 t'.

#[export] Instance tcp_same_equivalence : Equivalence tcp_same.
Proof. unfold tcp_same. split; [by intros t|by intros t t'|]. intros t1 t2 t3. congruence. Qed.

#[export] Instance with_state_proper s : Proper (tcp_same ==> tcp_same) (with_state s).
Proof. intros t t' H. unfold tcp_same in *. destruct t, t'. cbn in *. injection H as -> -> -> -> -> -> ->. done. Qed.

Lemma with_remote_same v t t' : tcp_same t t' -> tcp_same (with_remote_sequence v t) (with_remote_sequence v t').
Proof. unfold tcp_same. destruct t, t'. cbn. intros H. injection H as -> -> -> -> -> -> ->. done. Qed.

Lemma take_payload_same p t t' : tcp_same t t' -> tcp_same (take_payload p t) (take_payload p t').
Proof.
  unfold tcp_same, take_payload. destruct t, t'. cbn. intros H. injection H as -> -> -> -> -> -> ->.
  by case_if as E.
Qed.

Lemma tcp_same_remote t t' : tcp_same t t' -> tcp_remote_sequence t = tcp_remote_sequence t'.
Proof. unfold tcp_same. destruct t, t'. cbn. intros H. injection H as -> -> -> -> -> -> ->. done. Qed.

(** The TCP segment a frame carries, with its IPv4 header: [None] when the frame is
    not an undamaged IPv4 packet for this host, or of another protocol. *)
Definition tcp_packet (frame : list Z) : option (Ipv4Header * list Z) :=
  let length := Z.of_nat (length frame) in
  let at_ip := drop 14 frame in
  let ip := decode_ip at_ip in
  let header_length := Z.land (version_header_length ip) 0x0F * 4 in
  let total := swap16 (total_length ip) in
  if (34 <=? length) && (swap16 (field 12 2 frame) =? ETHERTYPE_IPV4) &&
     (Z.shiftr (version_header_length ip) 4 =? 4) && (swap32 (ip_destination ip) =? LOCAL_IP) &&
     (20 <=? header_length) && (14 + header_length <=? length) &&
     (internet_checksum (take (Z.to_nat header_length) at_ip) =? 0) &&
     (header_length <=? total) && (total <=? length - 14) && (protocol ip =? IP_PROTOCOL_TCP)
  then Some (ip, slice (Z.to_nat header_length) (Z.to_nat (total - header_length)) at_ip) else None.

Definition tcp_frame (frame : list Z) (t : Tcp) : Tcp :=
  match tcp_packet frame with Some (ip, packet) => tcp_input ip packet t | None => t end.

(** The bytes received and not yet read. *)
Definition buffered (t : Tcp) : list Z := take (Z.to_nat (tcp_receive_size t)) (tcp_receive_buffer t).

Section network.
Context {N : Type} `{!Nic N}.
Notation Net := (Network (N:=N)).
Notation NET := (st Net).

Record net_ok (n : Net) : Prop := {
  no_nic : nic_ok (nic n);
  no_wire : Forall frame_ok (wire n);
  no_local : mac_ok (local_mac n);
  no_gateway : mac_ok (gateway_mac n);
  no_status : status_ok (status_text n);
  no_numbers : 0 <= sent_packets n < 2 ^ 64 /\ 0 <= received_packets n < 2 ^ 64 /\
    0 <= ip_identifier n < 2 ^ 16 /\ 0 <= udp_source_port n < 2 ^ 16;
  no_tcp : tcp_ok (tcp n);
  (** A connection needs a resolved gateway and has its own port. *)
  no_connection : tcp_state (tcp n) <> TCP_CLOSED ->
    adapter_ready n = true /\ gateway_ready n = true /\ tcp_local_port (tcp n) = 50000 }.

(** What a routine that only sends leaves as it was. *)
Record only_sends (n n' : Net) : Prop := {
  os_ticks : scheduler_ticks n' = scheduler_ticks n;
  os_local : local_mac n' = local_mac n;
  os_gateway : gateway_mac n' = gateway_mac n;
  os_adapter : adapter_ready n' = adapter_ready n;
  os_ready : gateway_ready n' = gateway_ready n;
  os_received : received_packets n' = received_packets n;
  os_status : status_text n' = status_text n;
  os_tcp : with_local_sequence 0 (tcp n') = with_local_sequence 0 (tcp n) }.

#[export] Instance only_sends_preorder : PreOrder only_sends.
Proof.
  split; [by intros n|]. intros n1 n2 n3 [] []. split; congruence.
Qed.

(** A transmission that succeeds adds the frame to the wire, one that fails changes
    nothing but the adapter. *)
Lemma transmit_spec frame n :
  wp (transmit frame) (fun ok n' => only_sends n n' /\ tcp n' = tcp n /\ ip_identifier n' = ip_identifier n /\
    udp_source_port n' = udp_source_port n /\ wire n' = wire n ++ (if ok then [frame] else []) /\
    (nic_send frame (nic n)).1 = ok /\ (net_ok n -> frame_ok frame -> net_ok n')) n.
Proof.
  unfold transmit. wp_step. unfold wp at 1. destruct (nic_send frame (nic n)) as [ok a] eqn:E. cbn [fst snd].
  assert (Ha : nic_ok (nic n) -> nic_ok a).
  { intros Hn. destruct (nic_send_ok frame (nic n) Hn) as [Hs _]. by rewrite E in Hs. }
  destruct ok; cbn [negb].
  - wp_steps. split_and!; try done. intros [] Hf. split; cbn; try done; [auto|by apply Forall_app_2; [|constructor]|].
    pose proof (wrap_bound 64 (sent_packets n + 1)). lia.
  - wp_steps. split_and!; try done; [by rewrite app_nil_r|]. intros [] Hf. split; cbn; try done. auto.
Qed.

Lemma send_arp_request_ok n : net_ok n -> wp send_arp_request (fun _ n' => net_ok n' /\ tcp n' = tcp n) n.
Proof.
  intros Hn. unfold send_arp_request. wp_steps. wp_call transmit_spec. intros ok n' (Hs & Ht & _ & _ & _ & _ & Hok).
  wp_steps. split; [|done]. destruct Hok; [done| |by split; cbn].
  assert (mac_ok (local_mac n)) by apply Hn. apply arp_frame_ok; try done; cbn; split; try done;
    by repeat constructor.
Qed.

Lemma send_arp_reply_ok a n :
  mac_ok (sender_mac a) -> net_ok n -> wp (send_arp_reply a) (fun _ n' => net_ok n' /\ tcp n' = tcp n) n.
Proof.
  intros Ha Hn. unfold send_arp_reply. wp_steps. wp_call transmit_spec. intros ok n' (Hs & Ht & _ & _ & _ & _ & Hok).
  wp_steps. split; [|done]. apply Hok; [done|]. assert (mac_ok (local_mac n)) by apply Hn.
  by apply arp_frame_ok.
Qed.

(** The TCP header before its checksum is known. *)
Definition tcp_template (t : Tcp) (fl : Z) : TcpHeader :=
  mkTcpHeader (swap16 (tcp_local_port t)) (swap16 (tcp_destination_port t)) (swap32 (tcp_local_sequence t))
    (swap32 (tcp_remote_sequence t)) (Z.shiftl 5 4) fl (swap16 8192) 0 0.

Lemma tcp_segment_seal t fl data :
  tcp_segment t fl data = seal_tcp LOCAL_IP (tcp_destination_ip t) (tcp_template t fl) data.
Proof. reflexivity. Qed.

(** A segment of the connection, as it goes on the wire. *)
Definition segment_frame (n : Net) (fl : Z) (data : list Z) : list Z :=
  encode_ethernet (gateway_mac n) (local_mac n) (swap16 ETHERTYPE_IPV4) ++
  encode_ip (ip_header (40 + Z.of_nat (length data)) (ip_identifier n) IP_PROTOCOL_TCP (tcp_destination_ip (tcp n))) ++
  tcp_segment (tcp n) fl data.

Lemma segment_frame_ok n fl data :
  net_ok n -> bytes data -> Z.of_nat (length data) <= 1400 -> frame_ok (segment_frame n fl data).
Proof.
  intros Hn Hb Hl. pose proof Hn as [_ _ Hm Hg _ _ [] _]. unfold segment_frame. rewrite tcp_segment_seal.
  set (h := tcp_template (tcp n) fl).
  assert (Ht : length (seal_tcp LOCAL_IP (tcp_destination_ip (tcp n)) h data) = (20 + length data)%nat)
    by apply length_seal_tcp.
  rewrite ip_header_seal. apply ipv4_frame_ok; try done.
  - by apply ip_template_fields.
  - cbn. f_equal. rewrite Ht. lia.
  - by apply seal_tcp_bytes.
  - rewrite Ht. lia.
  - right. split; [done|]. cbn [ip_destination ip_template]. rewrite swap32_involutive by done. apply seal_tcp_verifies; try done. lia.
Qed.

(** What sending a segment does. *)
Lemma send_tcp_segment_spec fl data n :
  wp (send_tcp_segment fl data) (fun ok n' => only_sends n n' /\ udp_source_port n' = udp_source_port n /\
    wire n' = wire n ++ (if ok then [segment_frame n fl data] else []) /\
    (net_ok n -> bytes data -> net_ok n') /\
    (gateway_ready n = true -> Z.of_nat (length data) <= 1400 ->
     (nic_send (segment_frame n fl data) (nic n)).1 = ok) /\
    (ok = true -> tcp_local_sequence (tcp n') =
       u32 (tcp_local_sequence (tcp n) + (if has fl TCP_SYN then 1 else 0) + (if has fl TCP_FIN then 1 else 0) +
            Z.of_nat (length data)))) n.
Proof.
  unfold send_tcp_segment. wp_steps. unfold id. case_if as E.
  { apply wp_ret. split_and!; try done; [by rewrite app_nil_r|]. intros Hg Hl. rewrite Hg in E. cbn in E. lia. }
  apply orb_false_iff in E as [Eg El]. unfold next_identifier. wp_steps.
  assert (Ew : u16 (IP_SIZE + u16 (TCP_SIZE + Z.of_nat (length data))) = 40 + Z.of_nat (length data)).
  { unfold IP_SIZE, TCP_SIZE. rewrite (wrap_small 16 (20 + Z.of_nat (length data))), wrap_small by lia. lia. }
  rewrite Ew. fold (segment_frame n fl data). wp_call transmit_spec.
  intros ok n1 (Hs & Ht & Hi & Hu & Hw & He & Hok).
  assert (Hs1 : only_sends n n1) by (destruct Hs; by split).
  assert (Hok1 : net_ok n -> bytes data -> net_ok n1).
  { intros Hn Hb. apply Hok; [|apply segment_frame_ok; (done || lia)]. destruct Hn. split; try done. cbn.
    pose proof (wrap_bound 16 (ip_identifier n + 1)). lia. }
  destruct ok; cbn [negb].
  2:{ apply wp_ret. split_and!; try done. }
  assert (Hseq : forall v, v = u32 (tcp_local_sequence (tcp n) + (if has fl TCP_SYN then 1 else 0) +
                     (if has fl TCP_FIN then 1 else 0) + Z.of_nat (length data)) ->
    let n' := with_tcp (with_local_sequence v) n1 in
    only_sends n n' /\ udp_source_port n' = udp_source_port n /\ wire n' = wire n ++ [segment_frame n fl data] /\
    (net_ok n -> bytes data -> net_ok n') /\
    (gateway_ready n = true -> Z.of_nat (length data) <= 1400 -> (nic_send (segment_frame n fl data) (nic n)).1 = true) /\
    (true = true -> tcp_local_sequence (tcp n') = v)).
  { intros v Hv n'. pose proof (wrap_bound 32 (tcp_local_sequence (tcp n) + (if has fl TCP_SYN then 1 else 0) +
                     (if has fl TCP_FIN then 1 else 0) + Z.of_nat (length data))) as Hb.
    split_and!; try done; [by destruct Hs1; split|]. intros Hn Hd.
    destruct (Hok1 Hn Hd) as [? ? ? ? ? ? [] ?]. split; try done. split; try done. cbn. rewrite Hv. lia. }
  cbn [tcp] in Ht. change (tcp (with_identifiers _ _ n)) with (tcp n) in Ht. rewrite <- Ht in Hseq.
  rewrite <- Ht. destruct (has fl TCP_SYN), (has fl TCP_FIN); wp_steps;
    match goal with |- context [only_sends n ?n'] =>
      change n' with (with_tcp (with_local_sequence (tcp_local_sequence (tcp n'))) n1);
      destruct (Hseq (tcp_local_sequence (tcp n'))) as (? & ? & ? & ? & ? & ?) end;
    try (split_and!; try done; intros _); cbn; rewrite ?wrap_add_l, <- ?Z.add_assoc, ?wrap_add_l by lia; f_equal; lia.
Qed.

Lemma only_sends_tcp n n' : only_sends n n' -> tcp_same (tcp n') (tcp n).
Proof. by intros []. Qed.

Lemma net_ok_tcp f n :
  net_ok n -> tcp_ok (f (tcp n)) ->
  (tcp_state (f (tcp n)) <> TCP_CLOSED -> tcp_state (tcp n) <> TCP_CLOSED /\ tcp_local_port (f (tcp n)) = tcp_local_port (tcp n)) ->
  net_ok (with_tcp f n).
Proof.
  intros [? ? ? ? ? ? ? Hc] Ht Hs. split; try done. cbn. intros Hf. destruct (Hs Hf) as [H1 H2].
  rewrite H2. by apply Hc.
Qed.

Lemma set_status_spec m n :
  bool_decide (Forall (fun c => 0 < c < 256) m) = true -> (length m < 48)%nat ->
  wp (set_status m) (fun _ n' => tcp n' = tcp n /\ wire n' = wire n /\ (net_ok n -> net_ok n')) n.
Proof.
  intros Hm Hl. unfold set_status. wp_steps. split_and!; try done. intros [? ? ? ? (Hs & Hb & _) ? ? ?].
  split; try done. cbn. by apply text_status.
Qed.

Ltac status := wp_call set_status_spec; [by vm_compute|cbn; lia|].

Lemma send_ack_spec n :
  wp (send_tcp_segment TCP_ACK []) (fun ok n' => tcp_same (tcp n') (tcp n) /\ only_sends n n' /\
    wire n' = wire n ++ (if ok then [segment_frame n TCP_ACK []] else []) /\ (net_ok n -> net_ok n')) n.
Proof.
  wp_call send_tcp_segment_spec. intros ok n' (Hs & _ & Hw & Hok & _). split_and!; try done; [by destruct Hs|].
  intros Hn. apply Hok; [done|constructor].
Qed.

Lemma network_tcp_send_spec data n :
  wp (network_tcp_send data) (fun _ n' => tcp_same (tcp n') (tcp n) /\ (net_ok n -> bytes data -> net_ok n')) n.
Proof.
  unfold network_tcp_send. wp_steps. case_if as E; [|by apply wp_ret].
  wp_call send_tcp_segment_spec. intros ok n' (Hs & _ & _ & Hok & _). split; [by destruct Hs|done].
Qed.

Lemma tcp_input_ok ip packet t : bytes packet -> tcp_ok t -> tcp_ok (tcp_input ip packet t).
Proof.
  intros Hb Ht. unfold tcp_input, tcp_payload. cbv zeta.
  assert (Hr : forall v t, tcp_ok t -> tcp_ok (with_remote_sequence (u32 v) t)).
  { intros v t0 []. split; try done. apply wrap_bound. lia. }
  assert (Hs : forall s t, tcp_ok t -> tcp_ok (with_state s t)) by (intros s t0 []; by split).
  repeat match goal with
  | |- context [if ?b then _ else _] => destruct b
  | |- context [match ?x with _ => _ end] => destruct x
  end; try done; auto 10 using take_payload_ok, bytes_drop.
Qed.

Lemma tcp_input_port ip packet t : tcp_local_port (tcp_input ip packet t) = tcp_local_port t.
Proof.
  unfold tcp_input, take_payload. cbv zeta.
  by repeat match goal with
  | |- context [if ?b then _ else _] => destruct b
  | |- context [match ?x with _ => _ end] => destruct x
  end.
Qed.

(** The guards of the source, as the machine's test. *)
Lemma handle_tcp_guard ip packet n :
  handle_tcp ip packet n =
    if negb (tcp_addressed ip packet (tcp n)) then (tt, n) else
    (let h := decode_tcp packet in
     if has (flags h) TCP_RST then
       (modify (with_tcp (with_state TCP_CLOSED)) ;;; set_status (text "Nova bridge refused connection")) n
     else if (bool_decide (tcp_state (tcp n) = TCP_SYN_SENT) && syn_ack (flags h) &&
              (swap32 (acknowledgement h) =? tcp_local_sequence (tcp n)))%bool then
       (modify (with_tcp (with_remote_sequence (u32 (swap32 (sequence h) + 1)))) ;;;
        modify (with_tcp (with_state TCP_ESTABLISHED)) ;;;
        send_tcp_segment TCP_ACK [] ;;;
        set_status (text "Nova internet bridge connected") ;;;
        network_tcp_send (text "NOVA/1 HELLO" ++ [10]) ;;; ret tt) n
     else if negb (bool_decide (tcp_state (tcp n) = TCP_ESTABLISHED)) then (tt, n) else
       ((if ((0 <? Z.of_nat (length (tcp_payload packet))) && (swap32 (sequence h) =? tcp_remote_sequence (tcp n)))%bool then
           modify (with_tcp (take_payload (tcp_payload packet))) ;;;
           modify (with_tcp (fun t => with_remote_sequence
             (u32 (tcp_remote_sequence t + Z.of_nat (length (tcp_payload packet)))) t)) ;;;
           send_tcp_segment TCP_ACK [] ;;;
           set_status (text "Internet bridge response received")
         else ret tt) ;;;
        if has (flags h) TCP_FIN then
          modify (with_tcp (fun t => with_remote_sequence (u32 (tcp_remote_sequence t + 1)) t)) ;;;
          send_tcp_segment TCP_ACK [] ;;;
          modify (with_tcp (with_state TCP_CLOSED))
        else ret tt) n).
Proof.
  unfold handle_tcp, tcp_addressed. cbv zeta. destruct (Z.ltb_spec (Z.of_nat (length packet)) TCP_SIZE) as [H0|H0].
  { rewrite (proj2 (Z.leb_gt _ _) H0). done. }
  rewrite (proj2 (Z.leb_le _ _) H0). cbn [andb]. unfold gets at 1. cbn [bind].
  unfold bind at 1. set (hs := Z.shiftr _ 4 * 4).
  destruct (Z.ltb_spec hs 20) as [H1|H1]; [by rewrite (proj2 (Z.leb_gt _ _) H1)|].
  rewrite (proj2 (Z.leb_le _ _) H1). cbn [orb andb].
  destruct (Z.ltb_spec (Z.of_nat (length packet)) hs) as [H2|H2]; [by rewrite (proj2 (Z.leb_gt _ _) H2)|].
  rewrite (proj2 (Z.leb_le _ _) H2). cbn [orb andb].
  destruct (swap16 (destination_port (decode_tcp packet)) =? tcp_local_port (tcp n)); [|done].
  destruct (swap16 (source_port (decode_tcp packet)) =? tcp_destination_port (tcp n)); [|done].
  destruct (swap32 (ip_source ip) =? tcp_destination_ip (tcp n)); [|done]. cbn [orb andb negb].
  destruct (tcp_checksum (tcp_destination_ip (tcp n)) LOCAL_IP packet =? 0); [|done]. cbn [negb].
  destruct (has (flags (decode_tcp packet)) TCP_RST); [done|].
  assert (Hl : Z.of_nat (length packet) - hs = Z.of_nat (length (tcp_payload packet))).
  { unfold tcp_payload. fold hs. rewrite length_drop. lia. }
  rewrite Hl. unfold syn_ack. case_if as E1; [done|]. by case_if as E2.
Qed.

Lemma take_payload_frame p t :
  tcp_state (take_payload p t) = tcp_state t /\ tcp_remote_sequence (take_payload p t) = tcp_remote_sequence t /\
  tcp_local_port (take_payload p t) = tcp_local_port t /\
  tcp_destination_port (take_payload p t) = tcp_destination_port t /\
  tcp_destination_ip (take_payload p t) = tcp_destination_ip t.
Proof. unfold take_payload. cbv zeta. by case_if as E. Qed.

Lemma net_ok_remote f n : net_ok n -> net_ok (with_tcp (fun t => with_remote_sequence (u32 (f t)) t) n).
Proof.
  intros Hn. apply net_ok_tcp; [done| |done]. destruct (no_tcp n Hn). split; try done. apply wrap_bound. lia.
Qed.

Lemma net_ok_closed n : net_ok n -> net_ok (with_tcp (with_state TCP_CLOSED) n).
Proof. intros Hn. apply net_ok_tcp; [done| |done]. destruct (no_tcp n Hn). by split. Qed.

Lemma net_ok_payload p n : bytes p -> net_ok n -> net_ok (with_tcp (take_payload p) n).
Proof.
  intros Hp Hn. destruct (take_payload_frame p (tcp n)) as (Hs & _ & Hl & _).
  apply net_ok_tcp; [done|apply take_payload_ok, Hn; done|by rewrite Hs].
Qed.

(** The code does to the connection what the machine says. *)
Lemma handle_tcp_spec ip packet n :
  wp (handle_tcp ip packet) (fun _ n' => tcp_same (tcp n') (tcp_input ip packet (tcp n)) /\
    (net_ok n -> bytes packet -> net_ok n')) n.
Proof.
  unfold wp. rewrite handle_tcp_guard. unfold tcp_input. cbv zeta. pose proof (tcp_input_ok ip packet (tcp n)) as Hin.
  unfold tcp_input in Hin. cbv zeta in Hin. set (h := decode_tcp packet) in *.
  destruct (tcp_addressed ip packet (tcp n)); cbn [negb]; [|done].
  destruct (has (flags h) TCP_RST).
  { match goal with |- context [bind ?m ?k n] => change (wp (bind m k) (fun _ n' => tcp_same (tcp n')
      (with_state TCP_CLOSED (tcp n)) /\ (net_ok n -> bytes packet -> net_ok n')) n) end.
    wp_steps. status. intros _ n' (Ht & _ & Hok). rewrite Ht. split; [done|]. intros Hn Hb. apply Hok, net_ok_tcp; try done.
    apply Hin; [done|apply Hn]. }
  destruct (tcp_state (tcp n)) eqn:Es; cbn [bool_decide decide_rel]; rewrite ?bool_decide_eq_true_2, ?bool_decide_eq_false_2 by done;
    cbn [andb negb].
  - done.
  - destruct (syn_ack (flags h) && _); [|done].
    match goal with |- context [bind ?m ?k n] => change (wp (bind m k) (fun _ n' => tcp_same (tcp n')
      (with_state TCP_ESTABLISHED (with_remote_sequence (u32 (swap32 (sequence h) + 1)) (tcp n))) /\
      (net_ok n -> bytes packet -> net_ok n')) n) end.
    wp_steps. wp_call send_ack_spec. intros ok n1 (Ht1 & _ & _ & Hok1). wp_step. status. intros _ n2 (Ht2 & _ & Hok2).
    wp_step. wp_call network_tcp_send_spec. intros _ n3 (Ht3 & Hok3). apply wp_ret. split.
    + rewrite Ht3, Ht2, Ht1. done.
    + intros Hn Hb. apply Hok3; [|by repeat constructor]. apply Hok2, Hok1. apply net_ok_tcp.
      * apply net_ok_tcp; [done| |cbn; by rewrite Es]. destruct (no_tcp n Hn). split; try done. apply wrap_bound. lia.
      * apply Hin; [done|apply Hn].
      * cbn. by rewrite Es.
  - set (inner := (0 <? Z.of_nat (length (tcp_payload packet))) && (swap32 (sequence h) =? tcp_remote_sequence (tcp n))) in *.
    set (t1 := if inner then _ else _) in *.
    match goal with |- context [bind ?m ?k n] => change (wp (bind m k) (fun _ n' => tcp_same (tcp n')
      (if has (flags h) TCP_FIN then with_state TCP_CLOSED (with_remote_sequence (u32 (tcp_remote_sequence t1 + 1)) t1) else t1) /\
      (net_ok n -> bytes packet -> net_ok n')) n) end.
    apply wp_bind.
    assert (Hfirst : wp (if inner then
           modify (with_tcp (take_payload (tcp_payload packet))) ;;;
           modify (with_tcp (fun t => with_remote_sequence
             (u32 (tcp_remote_sequence t + Z.of_nat (length (tcp_payload packet)))) t)) ;;;
           send_tcp_segment TCP_ACK [] ;;;
           set_status (text "Internet bridge response received")
         else ret tt) (fun _ n' => tcp_same (tcp n') t1 /\ (net_ok n -> bytes packet -> net_ok n')) n).
    { unfold t1. destruct inner; [|by apply wp_ret]. wp_steps. wp_call send_ack_spec. intros ok n1 (Ht1 & _ & _ & Hok1).
      status. intros _ n2 (Ht2 & _ & Hok2). split.
      - rewrite Ht2, Ht1. cbn. by rewrite (proj1 (proj2 (take_payload_frame _ _))).
      - intros Hn Hb. apply Hok2, Hok1, net_ok_remote, net_ok_payload; [by apply bytes_drop|done]. }
    eapply wp_mono; [exact Hfirst|]. clear Hfirst. intros _ n1 [Ht1 Hok1].
    destruct (has (flags h) TCP_FIN); [|by apply wp_ret].
    wp_steps. wp_call send_ack_spec. intros ok n2 (Ht2 & _ & _ & Hok2). wp_steps. split.
    + cbn. rewrite Ht2. cbn. rewrite (tcp_same_remote _ _ Ht1). apply with_state_proper. by apply with_remote_same.
    + intros Hn Hb. by apply net_ok_closed, Hok2, net_ok_remote, Hok1.
Qed.

Lemma handle_arp_spec frame n :
  wp (handle_arp frame) (fun _ n' => tcp n' = tcp n /\ (net_ok n -> bytes frame -> net_ok n')) n.
Proof.
  unfold handle_arp. case_if as E0; [by apply wp_ret|]. cbv zeta. case_if as E1; [by apply wp_ret|].
  set (arp := decode_arp (drop (Z.to_nat ETHERNET_SIZE) frame)).
  assert (Hm : bytes frame -> mac_ok (sender_mac arp)).
  { intros Hb. split; [|by apply bytes_slice, bytes_drop]. unfold arp. cbn. unfold slice.
    rewrite length_take, !length_drop. unfold ETHERNET_SIZE, ARP_SIZE in *. lia. }
  case_if as E2.
  - wp_steps. status. intros _ n' (Ht & _ & Hok). split; [done|]. intros Hn Hb. apply Hok. destruct Hn as [? ? ? ? ? ? ? Hc].
    split; try done; [by apply Hm|]. intros Hs. by destruct (Hc Hs) as (? & ? & ?).
  - case_if as E3; [|by apply wp_ret].
    unfold send_arp_reply. wp_steps. wp_call transmit_spec. intros ok n' (_ & Ht & _ & _ & _ & _ & Hok).
    apply wp_ret. split; [done|]. intros Hn Hb. apply Hok; [done|]. apply arp_frame_ok; cbn; auto; apply Hn.
Qed.

Lemma handle_ipv4_spec frame n :
  swap16 (field 12 2 frame) = ETHERTYPE_IPV4 ->
  wp (handle_ipv4 frame) (fun _ n' => tcp_same (tcp n') (tcp_frame frame (tcp n)) /\
    (net_ok n -> bytes frame -> net_ok n')) n.
Proof.
  intros Hty. unfold handle_ipv4, tcp_frame, tcp_packet. cbv zeta. rewrite Hty, Z.eqb_refl.
  change (ETHERNET_SIZE + IP_SIZE) with 34. change (Z.to_nat ETHERNET_SIZE) with 14%nat. change ETHERNET_SIZE with 14.
  set (ip := decode_ip (drop 14 frame)). set (hl := Z.land (version_header_length ip) 15 * 4).
  set (total := swap16 (total_length ip)). set (len := Z.of_nat (length frame)).
  rewrite !Z.leb_antisym, !andb_true_r.
  destruct (len <? 34); [by apply wp_ret|]. destruct (Z.shiftr (version_header_length ip) 4 =? 4); [|by apply wp_ret].
  destruct (swap32 (ip_destination ip) =? LOCAL_IP); [|by apply wp_ret]. destruct (hl <? 20); [by apply wp_ret|].
  destruct (len <? 14 + hl); [by apply wp_ret|].
  destruct (internet_checksum (take (Z.to_nat hl) (drop 14 frame)) =? 0); [|by apply wp_ret].
  destruct (total <? hl); [by apply wp_ret|]. destruct (len - 14 <? total); [by apply wp_ret|].
  cbn [negb orb andb]. destruct (Z.eqb_spec (protocol ip) IP_PROTOCOL_UDP) as [E|E].
  - rewrite E. cbn [Z.eqb IP_PROTOCOL_UDP IP_PROTOCOL_TCP]. status. intros _ n' (Ht & _ & Hok). rewrite Ht. by split; auto.
  - destruct (protocol ip =? IP_PROTOCOL_TCP); [|by apply wp_ret]. wp_call handle_tcp_spec. intros _ n' [Ht Hok].
    split; [done|]. intros Hn Hb. apply Hok; [done|]. by apply bytes_slice, bytes_drop.
Qed.

Lemma dispatch_spec frame n :
  wp (dispatch frame) (fun _ n' => tcp_same (tcp n') (tcp_frame frame (tcp n)) /\
    (net_ok n -> bytes frame -> net_ok n')) n.
Proof.
  unfold dispatch. wp_steps. set (n0 := with_counters _ _ _ n).
  assert (H0 : net_ok n -> net_ok n0).
  { intros []. split; try done. cbn. pose proof (wrap_bound 64 (received_packets n + 1)). lia. }
  assert (Hno : swap16 (field 12 2 frame) <> ETHERTYPE_IPV4 \/ Z.of_nat (length frame) < 14 -> tcp_frame frame (tcp n) = tcp n).
  { intros H. unfold tcp_frame, tcp_packet. cbv zeta. destruct H as [H|H].
    - by rewrite (proj2 (Z.eqb_neq _ _) H), andb_false_r.
    - by rewrite (proj2 (Z.leb_gt 34 _)) by lia. }
  case_if as E0; [apply wp_ret; rewrite Hno by (unfold ETHERNET_SIZE in *; lia); by split; auto|]. cbv zeta.
  destruct (Z.eqb_spec (swap16 (field 12 2 frame)) ETHERTYPE_ARP) as [E1|E1].
  { rewrite Hno by (left; by rewrite E1). wp_call handle_arp_spec. intros _ n' [Ht Hok]. rewrite Ht. by split; auto. }
  destruct (Z.eqb_spec (swap16 (field 12 2 frame)) ETHERTYPE_IPV4) as [E2|E2].
  - wp_call handle_ipv4_spec; [done|]. intros _ n' [Ht Hok]. by split; auto.
  - apply wp_ret. rewrite Hno by auto. by split; auto.
Qed.

Lemma with_nic_ok a n : nic_ok a -> net_ok n -> net_ok (with_nic a n).
Proof. intros Ha []. by split. Qed.

Lemma net_poll_loop_ok budget n : net_ok n -> wp (poll_loop budget) (fun _ n' => net_ok n') n.
Proof.
  revert n. induction budget as [|budget IH]; intros n Hn; cbn [poll_loop]; [by apply wp_ret|].
  wp_step. unfold wp at 1. pose proof (nic_receive_ok 2048 (nic n) (no_nic n Hn) ltac:(lia)) as (Ha & _ & Hf).
  destruct (nic_receive 2048 (nic n)) as [received a]. cbn [fst snd] in *.
  pose proof (with_nic_ok a n Ha Hn) as Hn'. destruct received as [[|b frame]|]; [by apply wp_ret| |by apply wp_ret].
  destruct (Hf _ eq_refl) as [Hb _]. wp_step. wp_call dispatch_spec. intros _ n2 [_ Hok]. by apply IH, Hok.
Qed.

Lemma network_poll_ok n : net_ok n -> wp network_poll (fun _ n' => net_ok n') n.
Proof.
  intros Hn. unfold network_poll. wp_steps. case_if as E; [by apply wp_ret|]. wp_step. wp_call net_poll_loop_ok; [done|].
  intros _ n1 Hn1. wp_steps. case_if as E2; [|by apply wp_ret]. wp_call send_arp_request_ok; [done|]. by intros _ n2 [].
Qed.

Lemma network_init_ok n : net_ok n -> wp network_init (fun _ n' => net_ok n') n.
Proof.
  intros Hn. unfold network_init. wp_step. unfold wp at 1. pose proof (nic_init_ok (nic n) (no_nic n Hn)) as Ha.
  destruct (nic_init (nic n)) as [ready a]. cbn [fst snd] in *. pose proof (nic_mac_length a Ha) as [Hm1 Hm2].
  destruct Hn as [? ? ? ? ? ? [] ?]. destruct ready; cbn [negb]; wp_steps.
  - status. intros _ n1 (_ & _ & Hok). wp_step. wp_call send_arp_request_ok.
    2:{ intros _ n2 [? _]. by apply wp_ret. }
    apply Hok. split; cbn; try done.
    split; [by rewrite length_take, Hm1|by apply bytes_take].
  - status. intros _ n1 (_ & _ & Hok). apply wp_ret, Hok. split; cbn; try done.
Qed.

Lemma network_send_udp_ok ip port data n :
  0 <= ip < 2 ^ 32 -> bytes data -> net_ok n ->
  wp (network_send_udp ip port data) (fun _ n' => net_ok n' /\ tcp n' = tcp n) n.
Proof.
  intros Hip Hb Hn. unfold network_send_udp. wp_steps. unfold id. case_if as E; [by apply wp_ret|].
  unfold next_identifier. wp_steps. wp_call transmit_spec. intros ok n' (_ & Ht & _ & _ & _ & _ & Hok).
  split; [|done]. pose proof Hn as [? ? Hm Hg ? ? ? ?]. apply Hok.
  - split; try done. cbn. pose proof (wrap_bound 16 (ip_identifier n + 1)). pose proof (wrap_bound 16 (udp_source_port n + 1)).
    lia.
  - set (udp := mkUdp _ _ _ _). assert (Hl : length (encode_udp udp ++ data) = (8 + length data)%nat).
    { unfold encode_udp. by rewrite !length_app, !length_le. }
    apply orb_false_iff in E as [_ E]. rewrite ip_header_seal. apply ipv4_frame_ok; try done.
    + by apply ip_template_fields.
    + cbn [total_length ip_template]. f_equal. rewrite Hl. unfold IP_SIZE, UDP_SIZE. rewrite wrap_small; lia.
    + apply bytes_app. split; [|done]. unfold encode_udp. rewrite !bytes_app. auto with nova.
    + rewrite Hl. lia.
    + by left.
Qed.

Lemma network_tcp_connect_ok ip port n :
  0 <= ip < 2 ^ 32 -> 0 <= port < 2 ^ 16 -> net_ok n -> wp (network_tcp_connect ip port) (fun _ n' => net_ok n') n.
Proof.
  intros Hip Hport Hn. unfold network_tcp_connect. wp_steps. unfold id. case_if as E; [by apply wp_ret|]. wp_steps.
  apply orb_false_iff in E as [E E3]. apply orb_false_iff in E as [E1 E2]. bool_hyps. status. intros _ n1 (_ & _ & Hok1).
  wp_step. wp_call send_tcp_segment_spec. intros ok n2 (_ & _ & _ & Hok2 & _).
  assert (Hn2 : net_ok n2).
  { apply Hok2; [|constructor]. apply Hok1. destruct Hn as [? ? ? ? ? ? [] ?]. split; try done. cbn.
    split; cbn; try done; try lia.
    pose proof (wrap_bound 32 (scheduler_ticks n)). pose proof (Z.lxor_nonneg (u32 (scheduler_ticks n)) 0x4E4F5641).
    split; [lia|]. apply Z.log2_lt_cancel. eapply Z.le_lt_trans; [apply Z.log2_lxor; lia|].
    change (Z.log2 (2 ^ 32)) with 32. apply Z.max_lub_lt; [|by vm_compute].
    destruct (decide (u32 (scheduler_ticks n) = 0)) as [->|]; [by vm_compute|]. apply Z.log2_lt_pow2; lia. }
  destruct ok; cbn [negb]; wp_steps; [done|]. by apply net_ok_closed.
Qed.

(** Reading takes bytes off the front of the buffer. *)
Lemma network_tcp_receive_spec capacity (n : Net) :
  0 <= capacity -> tcp_ok (tcp n) ->
  wp (network_tcp_receive capacity) (fun r n' =>
    r = take (Z.to_nat capacity) (buffered (tcp n)) /\ buffered (tcp n') = drop (Z.to_nat capacity) (buffered (tcp n)) /\
    tcp_ok (tcp n') /\ tcp_receive_size (tcp n') <= tcp_receive_size (tcp n) /\
    (exists b s, n' = with_tcp (with_received b s) n)) n.
Proof.
  intros Hc Ht. unfold network_tcp_receive. wp_steps. pose proof Ht as [? ? ? ? ? [Hl Hb] Hs].
  assert (Hlen : length (buffered (tcp n)) = Z.to_nat (tcp_receive_size (tcp n))) by (unfold buffered; rewrite length_take; lia).
  destruct (Z.eqb_spec capacity 0) as [E0|E0]; cbn [orb].
  { apply wp_ret. subst. rewrite take_0, drop_0. split_and!; try done. destruct n as [? ? ? ? ? ? ? ? ? ? ? ? ? []]. by eexists _, _. }
  destruct (Z.eqb_spec (tcp_receive_size (tcp n)) 0) as [E1|E1].
  { apply wp_ret. unfold buffered. rewrite E1. cbn [Z.to_nat]. rewrite take_0, take_nil, drop_nil. split_and!; try done.
    destruct n as [? ? ? ? ? ? ? ? ? ? ? ? ? []]. by eexists _, _. }
  set (copied := if _ <? _ then _ else _).
  assert (Hcp : copied = Z.min (tcp_receive_size (tcp n)) capacity) by (unfold copied; case_if as E; lia).
  wp_steps. set (rest := slice _ _ _).
  assert (Hr : rest = drop (Z.to_nat capacity) (buffered (tcp n))).
  { unfold rest, slice, buffered. rewrite Hcp, skipn_firstn_comm.
    destruct (Z.min_spec (tcp_receive_size (tcp n)) capacity) as [[? ->]|[? ->]]; [|f_equal; lia].
    replace (Z.to_nat (tcp_receive_size (tcp n) - tcp_receive_size (tcp n))) with 0%nat by lia.
    by replace (Z.to_nat (tcp_receive_size (tcp n)) - Z.to_nat capacity)%nat with 0%nat by lia. }
  assert (Hrl : length rest = Z.to_nat (tcp_receive_size (tcp n) - copied)) by (rewrite Hr, length_drop, Hlen; lia).
  assert (Hbb : bytes rest) by (by apply bytes_slice). rewrite <- Hr. split_and!.
  - unfold buffered. rewrite take_take, Hcp. f_equal. lia.
  - unfold buffered, blit. cbn. rewrite wrap_small by lia. rewrite take_0, app_nil_l. by rewrite take_app_length' by lia.
  - split; try done; cbn; [|rewrite wrap_small; lia]. rewrite length_blit by lia. split; [done|by apply bytes_blit].
  - cbn. rewrite wrap_small; lia.
  - by eexists _, _.
Qed.

Lemma network_tcp_receive_ok capacity n :
  0 <= capacity -> net_ok n -> wp (network_tcp_receive capacity) (fun _ n' => net_ok n') n.
Proof.
  intros Hc Hn. wp_call network_tcp_receive_spec; [done|apply Hn|]. intros r n' (_ & _ & Ht & _ & b & s & ->).
  by apply net_ok_tcp.
Qed.

(** ** Reachable states *)

(** The file-scope variables at boot: all zero. *)
Definition net_zero (a : N) (ticks : Z) : Net :=
  mkNetwork a [] ticks (replicate 6 0) (replicate 6 0) false false 0 0 0 0 0 (replicate 48 0)
    (mkTcp TCP_CLOSED 0 0 0 0 0 (replicate (Z.to_nat 8192) 0) 0).

(** Everything the kernel can do to the stack, with an adapter that delivers any
    frames it likes. *)
Inductive net_reach : Net -> Prop :=
| reach_boot a ticks : nic_ok a -> net_reach (net_zero a ticks)
| reach_tick n ticks : net_reach n ->
    net_reach (mkNetwork (nic n) (wire n) ticks (local_mac n) (gateway_mac n) (adapter_ready n) (gateway_ready n)
      (sent_packets n) (received_packets n) (last_arp_tick n) (ip_identifier n) (udp_source_port n) (status_text n) (tcp n))
| reach_network_init n : net_reach n -> net_reach (network_init n).2
| reach_poll n : net_reach n -> net_reach (network_poll n).2
| reach_udp n ip port data : net_reach n -> 0 <= ip < 2 ^ 32 -> bytes data -> net_reach (network_send_udp ip port data n).2
| reach_connect n ip port : net_reach n -> 0 <= ip < 2 ^ 32 -> 0 <= port < 2 ^ 16 ->
    net_reach (network_tcp_connect ip port n).2
| reach_send n data : net_reach n -> bytes data -> net_reach (network_tcp_send data n).2
| reach_receive n capacity : net_reach n -> 0 <= capacity -> net_reach (network_tcp_receive capacity n).2.

Lemma net_zero_ok a ticks : nic_ok a -> net_ok (net_zero a ticks).
Proof.
  intros Ha. assert (Hb : forall k, bytes (replicate k 0)) by (intros; apply bytes_zeroes). split.
  - done.
  - constructor.
  - split; [done|apply Hb].
  - split; [done|apply Hb].
  - split_and!; [done|apply Hb|]. vm_compute. lia.
  - cbn. lia.
  - split; cbn [tcp net_zero tcp_destination_ip tcp_destination_port tcp_local_port tcp_local_sequence
      tcp_remote_sequence tcp_receive_buffer tcp_receive_size]; try done.
  - done.
Qed.

Lemma net_reach_ok n : net_reach n -> net_ok n.
Proof.
  induction 1 as [a ticks Ha|n ticks _ IH|n _ IH|n _ IH|n ip port data _ IH Hi Hb|n ip port _ IH Hi Hp|n data _ IH Hb|n c _ IH Hc].
  - by apply net_zero_ok.
  - by destruct IH.
  - by apply network_init_ok.
  - by apply network_poll_ok.
  - by apply network_send_udp_ok.
  - by apply network_tcp_connect_ok.
  - by apply network_tcp_send_spec.
  - by apply network_tcp_receive_ok.
Qed.

End network.
