(* ===== verification/NetworkStream.v ===== *)
(** * The TCP byte stream

    What an application reads from a connection is a prefix of what the peer wrote,
    whatever the network does to the order and number of the segments, as long as the
    receive buffer never fills up; and what happens when it does. *)

From S2P Require Import Prelude Runtime NicInterface Network NetworkFormats NetworkFacts.

(** ** Segments of a stream *)

(** The peer's byte stream [s] starts behind the sequence number [isn]: a segment
    carries the bytes that its sequence number says, and the one that opens the
    connection carries none. *)
Definition authentic (isn : Z) (s packet : list Z) : Prop :=
  let h := decode_tcp packet in
  let payload := tcp_payload packet in
  (has (flags h) TCP_SYN = true -> swap32 (sequence h) = isn /\ payload = []) /\
  (payload <> [] -> exists off, (off + length payload <= length s)%nat /\ payload = slice off (length payload) s /\
     swap32 (sequence h) = u32 (isn + 1 + Z.of_nat off)).

(** What identifies a connection. *)
Definition conn (t : Tcp) : Z * Z * Z := (tcp_local_port t, tcp_destination_port t, tcp_destination_ip t).

(** The segments of the connection in a frame, if any, are the peer's. *)
Definition authentic_frame (t : Tcp) (isn : Z) (s frame : list Z) : Prop :=
  forall ip packet, tcp_packet frame = Some (ip, packet) -> tcp_addressed ip packet t = true -> authentic isn s packet.

Lemma tcp_addressed_conn ip packet t t' : conn t = conn t' -> tcp_addressed ip packet t = tcp_addressed ip packet t'.
Proof. unfold conn, tcp_addressed. intros [= -> -> ->]. done. Qed.

Lemma syn_ack_syn fl : syn_ack fl = true -> has fl TCP_SYN = true.
Proof.
  unfold syn_ack, has. intros H. apply Z.eqb_eq in H. apply negb_true_iff, Z.eqb_neq.
  change TCP_SYN with (Z.land (Z.lor TCP_SYN TCP_ACK) TCP_SYN). rewrite Z.land_assoc, H. done.
Qed.

(** ** The invariant of a connection *)

(** [got] has been read; the peer's stream up to [k] has arrived. *)
Definition stream_inv (isn : Z) (s got : list Z) (t : Tcp) : Prop :=
  match tcp_state t with
  | TCP_SYN_SENT => got = [] /\ tcp_receive_size t = 0
  | st => exists k, (k <= length s)%nat /\ got ++ buffered t = take k s /\
            (st = TCP_ESTABLISHED -> tcp_remote_sequence t = u32 (isn + 1 + Z.of_nat k))
  end.

Lemma stream_inv_same isn s got t t' : tcp_same t t' -> stream_inv isn s got t -> stream_inv isn s got t'.
Proof.
  unfold tcp_same, stream_inv, buffered. destruct t, t'. cbn. intros H. injection H as -> -> -> -> -> -> ->. done.
Qed.

Lemma buffered_same t t' : tcp_same t t' -> buffered t = buffered t' /\ tcp_receive_size t = tcp_receive_size t' /\
  conn t = conn t' /\ tcp_state t = tcp_state t'.
Proof. unfold tcp_same, buffered, conn. destruct t, t'. cbn. intros H. injection H as -> -> -> -> -> -> ->. done. Qed.

(** The receive buffer takes what fits. *)
Lemma take_payload_buffered p t :
  tcp_ok t -> buffered (take_payload p t) = take (Z.to_nat 8192) (buffered t ++ p) /\
  tcp_receive_size (take_payload p t) = Z.min 8192 (tcp_receive_size t + Z.of_nat (length p)).
Proof.
  intros [? ? ? ? ? [Hl Hb] Hs]. unfold take_payload. cbv zeta.
  set (copy := if _ <? 8192 - _ then _ else _).
  assert (Hc : copy = Z.min (Z.of_nat (length p)) (8192 - tcp_receive_size t)) by (unfold copy; case_if as E; lia).
  assert (Hlen : length (buffered t) = Z.to_nat (tcp_receive_size t)) by (unfold buffered; rewrite length_take; lia).
  rewrite take_app, (take_ge (buffered t)) by lia. rewrite Hlen.
  destruct (Z.ltb_spec 0 copy) as [E|E].
  - cbn. rewrite wrap_small by lia. split; [|lia]. unfold buffered at 1. cbn.
    unfold blit. fold (buffered t). rewrite take_app, (take_ge (buffered t)) by lia. f_equal. rewrite Hlen.
    rewrite take_app_le by (rewrite length_take; lia). rewrite take_take.
    destruct (Z.min_spec (Z.of_nat (length p)) (8192 - tcp_receive_size t)) as [[? Hm]|[? Hm]]; rewrite Hm in Hc; rewrite Hc.
    + rewrite !take_ge by lia. done.
    + f_equal. lia.
  - split; [|lia]. replace (take (Z.to_nat 8192 - Z.to_nat (tcp_receive_size t)) p) with (@nil Z); [by rewrite app_nil_r|].
    symmetry. apply length_zero_iff_nil. rewrite length_take. lia.
Qed.

(** A segment never takes bytes out of the buffer, and stays on the connection. *)
Lemma tcp_input_grows ip packet t :
  tcp_ok t -> tcp_receive_size t <= tcp_receive_size (tcp_input ip packet t) /\ conn (tcp_input ip packet t) = conn t.
Proof.
  intros Ht. unfold tcp_input. cbv zeta. destruct (take_payload_buffered (tcp_payload packet) t Ht) as [_ Hs].
  destruct (take_payload_frame (tcp_payload packet) t) as (_ & _ & H1 & H2 & H3). pose proof (to_size t Ht).
  repeat match goal with
  | |- context [if ?b then _ else _] => destruct b
  | |- context [match tcp_state ?x with _ => _ end] => destruct (tcp_state x)
  end; unfold conn; cbn; rewrite ?Hs, ?H1, ?H2, ?H3; (split; [lia|done]).
Qed.

(** The sequence number of a segment tells where in the stream it belongs. *)
Lemma sequence_position isn a b :
  0 <= a < 2 ^ 32 -> 0 <= b < 2 ^ 32 -> u32 (isn + 1 + a) = u32 (isn + 1 + b) -> a = b.
Proof.
  intros Ha Hb H. unfold wrap in H.
  assert (Hd : (a - b) mod 2 ^ 32 = 0).
  { replace (a - b) with ((isn + 1 + a) - (isn + 1 + b)) by lia. rewrite Zminus_mod, H, Z.sub_diag. done. }
  apply Z.mod_divide in Hd; [|done]. destruct Hd as [q Hq]. lia.
Qed.

(** The next segment of the stream makes the received prefix longer. *)
Lemma take_slice_app (k off n : nat) (s : list Z) :
  off = k -> take k s ++ slice off n s = take (k + n) s.
Proof. intros ->. unfold slice. rewrite <- take_take_drop. done. Qed.

Lemma tcp_input_stream isn s got ip packet t :
  Z.of_nat (length s) < 2 ^ 32 -> tcp_ok t ->
  (tcp_addressed ip packet t = true -> authentic isn s packet) ->
  tcp_receive_size (tcp_input ip packet t) < 8192 ->
  stream_inv isn s got t -> stream_inv isn s got (tcp_input ip packet t).
Proof.
  intros Hs Ht Ha. unfold tcp_input. cbv zeta. destruct (tcp_addressed ip packet t); cbn [negb]; [|done].
  destruct (Ha eq_refl) as [Hsyn Hpay]. clear Ha. set (h := decode_tcp packet) in *. set (p := tcp_payload packet) in *.
  destruct (has (flags h) TCP_RST).
  { intros _ Hi. unfold stream_inv in *. cbn. destruct (tcp_state t).
    - destruct Hi as (k & ? & ? & _). by exists k.
    - destruct Hi as [-> Hz]. exists 0%nat. split_and!; [lia| |done]. unfold buffered. cbn. by rewrite Hz.
    - destruct Hi as (k & ? & ? & _). by exists k. }
  destruct (tcp_state t) eqn:Est; [done| |].
  - destruct (syn_ack (flags h)) eqn:Esa; cbn [andb]; [|done]. case_if as Eack; [|done]. intros _ Hi.
    destruct (Hsyn (syn_ack_syn _ Esa)) as [-> _]. unfold stream_inv in *. rewrite Est in Hi. cbn.
    destruct Hi as [-> Hz]. exists 0%nat. split_and!; [lia| |].
    + unfold buffered. cbn. by rewrite Hz.
    + intros _. by rewrite Z.add_0_r.
  - intros Hfull Hi. unfold stream_inv in Hi. rewrite Est in Hi. destruct Hi as (k & Hk & Hg & Hr).
    specialize (Hr eq_refl). revert Hfull.
    assert (Hmid : forall t1, t1 = (if (0 <? Z.of_nat (length p)) && (swap32 (sequence h) =? tcp_remote_sequence t)
               then with_remote_sequence (u32 (tcp_remote_sequence t + Z.of_nat (length p))) (take_payload p t) else t) ->
             tcp_receive_size t1 < 8192 ->
             exists k, (k <= length s)%nat /\ got ++ buffered t1 = take k s /\
               tcp_remote_sequence t1 = u32 (isn + 1 + Z.of_nat k) /\ tcp_state t1 = TCP_ESTABLISHED).
    { intros t1 ->. case_if as E; [|by exists k]. apply andb_true_iff in E as [E1 E2]. cbn.
      destruct (take_payload_buffered p t Ht) as [Hb Hsz]. rewrite Hsz. intros Hlt.
      change (buffered (with_remote_sequence _ (take_payload p t))) with (buffered (take_payload p t)). rewrite Hb.
      destruct Hpay as (off & Hoff & Hp & Hseq). { intros Hn. rewrite Hn in E1. discriminate E1. }
      assert (Z.of_nat off = Z.of_nat k) as Hok%Nat2Z.inj by (apply (sequence_position isn); lia).
      pose proof (to_size t Ht).
      assert (Hlen : length (buffered t) = Z.to_nat (tcp_receive_size t)).
      { unfold buffered. rewrite length_take. destruct Ht as [? ? ? ? ? [? _] ?]. lia. }
      exists (k + length p)%nat. split_and!.
      - lia.
      - rewrite (take_ge (buffered t ++ p)) by (rewrite length_app; lia). rewrite app_assoc, Hg. rewrite Hp at 1. by apply take_slice_app.
      - rewrite Hr, wrap_add_l by lia. f_equal. lia.
      - by rewrite (proj1 (take_payload_frame p t)). }
    set (t1 := if _ && _ then _ else _) in *. specialize (Hmid t1 eq_refl). intros Hfull.
    destruct Hmid as (k' & Hk' & Hg' & Hr' & Hs').
    { revert Hfull. by destruct (has (flags h) TCP_FIN). }
    unfold stream_inv. destruct (has (flags h) TCP_FIN); cbn; [by exists k'|]. rewrite Hs'. by exists k'.
Qed.

(** ** Frames as a peer sends them *)

Definition peer_ip (t : Tcp) (n : nat) : Ipv4Header :=
  mkIp 0x45 0 (swap16 (40 + Z.of_nat n)) (swap16 1) (swap16 0) 64 IP_PROTOCOL_TCP 0
    (swap32 (tcp_destination_ip t)) (swap32 LOCAL_IP).

Definition peer_header (t : Tcp) (seq ack fl : Z) : TcpHeader :=
  mkTcpHeader (swap16 (tcp_destination_port t)) (swap16 (tcp_local_port t)) (swap32 seq) (swap32 ack) 0x50 fl
    (swap16 8192) 0 0.

Definition peer_segment (t : Tcp) (seq ack fl : Z) (data : list Z) : list Z :=
  seal_tcp (tcp_destination_ip t) LOCAL_IP (peer_header t seq ack fl) data.

Definition peer_frame (to from : list Z) (t : Tcp) (seq ack fl : Z) (data : list Z) : list Z :=
  encode_ethernet to from (swap16 ETHERTYPE_IPV4) ++ encode_ip (seal_ip (peer_ip t (length data))) ++
  peer_segment t seq ack fl data.

Section peer.
Context (to from : list Z) (t : Tcp) (seq ack fl : Z) (data : list Z).
Hypothesis (Hto : mac_ok to) (Hfrom : mac_ok from) (Ht : tcp_ok t).
Hypothesis (Hseq : 0 <= seq < 2 ^ 32) (Hack : 0 <= ack < 2 ^ 32) (Hfl : 0 <= fl < 2 ^ 8).
Hypothesis (Hdata : bytes data) (Hlen : Z.of_nat (length data) <= 1460).

Lemma peer_ip_fields : ip_fields (seal_ip (peer_ip t (length data))).
Proof.
  apply with_ip_checksum_fields; [apply swap16_bound|]. pose proof (swap32_bound _ (to_ip t Ht)).
  pose proof (swap32_bound LOCAL_IP LOCAL_IP_range). unfold ip_fields. cbn [peer_ip version_header_length service
    total_length identification fragment ttl protocol ip_checksum ip_source ip_destination].
  pose proof (swap16_bound (40 + Z.of_nat (length data))). pose proof (swap16_bound 1). pose proof (swap16_bound 0).
  unfold IP_PROTOCOL_TCP. lia.
Qed.

Lemma peer_header_decodes c :
  0 <= c < 2 ^ 16 ->
  decode_tcp (encode_tcp (with_checksum c (peer_header t seq ack fl)) ++ data) = with_checksum c (peer_header t seq ack fl).
Proof.
  intros Hc. apply decode_encode_tcp. apply with_checksum_fields; [done|].
  pose proof (swap32_bound seq Hseq). pose proof (swap32_bound ack Hack). pose proof (swap16_bound 8192).
  pose proof (swap16_bound (tcp_destination_port t)). pose proof (swap16_bound (tcp_local_port t)).
  unfold tcp_fields. cbn [peer_header source_port destination_port sequence acknowledgement data_offset flags window checksum urgent].
  lia.
Qed.

(** The segment the stack sees. *)
Lemma peer_segment_spec :
  let h := decode_tcp (peer_segment t seq ack fl data) in
  swap32 (sequence h) = seq /\ swap32 (acknowledgement h) = ack /\ flags h = fl /\
  tcp_payload (peer_segment t seq ack fl data) = data /\
  forall ip, ip_source ip = swap32 (tcp_destination_ip t) -> tcp_addressed ip (peer_segment t seq ack fl data) t = true.
Proof.
  cbv zeta. pose proof (seal_tcp_verifies (tcp_destination_ip t) LOCAL_IP (peer_header t seq ack fl) data
    (to_ip t Ht) LOCAL_IP_range Hdata ltac:(lia)) as Hv. fold (peer_segment t seq ack fl data) in Hv.
  pose proof (length_seal_tcp (tcp_destination_ip t) LOCAL_IP (peer_header t seq ack fl) data) as Hl.
  fold (peer_segment t seq ack fl data) in Hl.
  assert (Hd : exists c, peer_segment t seq ack fl data = encode_tcp (with_checksum c (peer_header t seq ack fl)) ++ data /\
            decode_tcp (peer_segment t seq ack fl data) = with_checksum c (peer_header t seq ack fl)).
  { eexists. split; [reflexivity|]. apply peer_header_decodes, swap16_bound. }
  destruct Hd as (c & Hc & Hd). unfold tcp_payload, tcp_addressed. rewrite Hd, Hl, Hv.
  cbn [with_checksum peer_header sequence acknowledgement flags data_offset source_port destination_port].
  change (Z.shiftr 0x50 4 * 4) with 20. rewrite !swap32_involutive, !swap16_involutive by (done || apply Ht).
  split_and!; try done.
  intros ip ->. rewrite swap32_involutive by apply Ht. rewrite !Z.eqb_refl, !andb_true_r. unfold TCP_SIZE.
  rewrite !andb_true_iff, !Z.leb_le. lia.
Qed.

Lemma peer_frame_packet :
  tcp_packet (peer_frame to from t seq ack fl data) = Some (seal_ip (peer_ip t (length data)), peer_segment t seq ack fl data).
Proof.
  set (ip := seal_ip (peer_ip t (length data))).
  assert (Hl : length (peer_segment t seq ack fl data) = (20 + length data)%nat) by apply length_seal_tcp.
  assert (Hfr : length (peer_frame to from t seq ack fl data) = (54 + length data)%nat).
  { unfold peer_frame. rewrite !length_app, length_encode_ethernet, length_encode_ip, Hl by done. done. }
  unfold tcp_packet. cbv zeta. rewrite Hfr. unfold peer_frame. rewrite drop_ethernet, ethernet_type by done. fold ip.
  rewrite decode_encode_ip by apply peer_ip_fields.
  change (Z.land (version_header_length ip) 15 * 4) with 20. change (Z.shiftr (version_header_length ip) 4) with 4.
  change (ip_destination ip) with (swap32 LOCAL_IP). change (total_length ip) with (swap16 (40 + Z.of_nat (length data))).
  change (protocol ip) with IP_PROTOCOL_TCP. rewrite swap16_involutive, swap32_involutive by (lia || apply LOCAL_IP_range).
  rewrite take_app_length' by (by rewrite length_encode_ip). unfold ip at 1. rewrite seal_ip_verifies.
  unfold slice. rewrite drop_app_length' by (by rewrite length_encode_ip).
  rewrite (take_ge (peer_segment _ _ _ _ _)) by (rewrite Hl; lia). rewrite !Z.eqb_refl, !andb_true_r.
  rewrite !(proj2 (Z.leb_le _ _)) by lia. done.
Qed.

Lemma peer_frame_input t' :
  conn t' = conn t -> exists ip, tcp_frame (peer_frame to from t seq ack fl data) t' =
      tcp_input ip (peer_segment t seq ack fl data) t' /\ tcp_addressed ip (peer_segment t seq ack fl data) t' = true.
Proof.
  intros Hc. eexists. unfold tcp_frame. rewrite peer_frame_packet. split; [done|].
  rewrite (tcp_addressed_conn _ _ _ t Hc). by apply peer_segment_spec.
Qed.

(** The peer's own segments are authentic. *)
Lemma peer_frame_authentic isn s off :
  (has fl TCP_SYN = true -> seq = isn /\ data = []) ->
  (data <> [] -> (off + length data <= length s)%nat /\ data = slice off (length data) s /\ seq = u32 (isn + 1 + Z.of_nat off)) ->
  authentic_frame t isn s (peer_frame to from t seq ack fl data).
Proof.
  intros Hsyn Hpay ip packet. rewrite peer_frame_packet. intros [= _ <-] _.
  destruct peer_segment_spec as (H1 & _ & H3 & H4 & _). unfold authentic. cbv zeta. rewrite H1, H3, H4.
  split; [done|]. intros Hne. exists off. by apply Hpay.
Qed.
End peer.

Section stream.
Context {N : Type} `{!Nic N}.
Notation Net := (Network (N:=N)).

(** Calls between opening a connection and closing it, with what they read.  The
    receive buffer is not full after a poll. *)
Inductive net_run (n0 : Net) : list Z -> Net -> Prop :=
| run_start : net_run n0 [] n0
| run_poll got n : net_run n0 got n -> tcp_receive_size (tcp (network_poll n).2) < 8192 ->
    net_run n0 got (network_poll n).2
| run_send got n data : net_run n0 got n -> bytes data -> net_run n0 got (network_tcp_send data n).2
| run_udp got n ip port data : net_run n0 got n -> 0 <= ip < 2 ^ 32 -> bytes data ->
    net_run n0 got (network_send_udp ip port data n).2
| run_read got n capacity : net_run n0 got n -> 0 <= capacity ->
    net_run n0 (got ++ (network_tcp_receive capacity n).1) (network_tcp_receive capacity n).2.

Section connection.
Context (t0 : Tcp) (isn : Z) (s : list Z).
Hypothesis Hs : Z.of_nat (length s) < 2 ^ 32.
(** The adapter delivers no forged segments; it may lose, repeat and reorder them. *)
Hypothesis Hnic : forall a frame a', nic_ok a -> nic_receive 2048 a = (Some frame, a') -> authentic_frame t0 isn s frame.

Definition connected (got : list Z) (n : Net) : Prop :=
  net_ok n /\ conn (tcp n) = conn t0 /\ stream_inv isn s got (tcp n).

Lemma tcp_frame_stream got frame t :
  tcp_ok t -> conn t = conn t0 -> authentic_frame t0 isn s frame ->
  tcp_receive_size (tcp_frame frame t) < 8192 -> stream_inv isn s got t -> stream_inv isn s got (tcp_frame frame t).
Proof.
  intros Ht Hc Ha. unfold tcp_frame, authentic_frame in *. destruct (tcp_packet frame) as [[ip packet]|]; [|done].
  intros Hf Hi. apply tcp_input_stream; try done. rewrite (tcp_addressed_conn _ _ _ _ Hc). by apply Ha.
Qed.

Lemma tcp_frame_grows frame t :
  tcp_ok t -> tcp_receive_size t <= tcp_receive_size (tcp_frame frame t) /\ conn (tcp_frame frame t) = conn t.
Proof.
  intros Ht. unfold tcp_frame. destruct (tcp_packet frame) as [[ip packet]|]; [by apply tcp_input_grows|]. split; [lia|done].
Qed.

Lemma poll_loop_grows budget (n : Net) :
  net_ok n -> wp (poll_loop budget) (fun _ n' => tcp_receive_size (tcp n) <= tcp_receive_size (tcp n')) n.
Proof.
  revert n. induction budget as [|budget IH]; intros n Hn; cbn [poll_loop]; [apply wp_ret; lia|].
  wp_step. unfold wp at 1. pose proof (nic_receive_ok 2048 (nic n) (no_nic n Hn) ltac:(lia)) as (Ha & _ & Hf).
  destruct (nic_receive 2048 (nic n)) as [received a]. cbn [fst snd] in *.
  pose proof (with_nic_ok a n Ha Hn) as Hn'. destruct received as [[|b frame]|]; [apply wp_ret; cbn; lia| |apply wp_ret; cbn; lia].
  destruct (Hf _ eq_refl) as [Hb _]. wp_step. wp_call dispatch_spec. intros _ n2 [Ht Hok]. cbn [tcp with_nic] in Ht.
  destruct (buffered_same _ _ Ht) as (_ & Hsz & _ & _).
  destruct (tcp_frame_grows (b :: frame) (tcp n) (no_tcp n Hn)) as [Hg1 _].
  wp_call IH; [by apply Hok|]. intros _ n3 H3. lia.
Qed.

Lemma poll_loop_stream budget got n :
  connected got n ->
  wp (poll_loop budget) (fun _ n' => tcp_receive_size (tcp n) <= tcp_receive_size (tcp n') /\
    (tcp_receive_size (tcp n') < 8192 -> connected got n')) n.
Proof.
  revert n. induction budget as [|budget IH]; intros n Hn; cbn [poll_loop]; [apply wp_ret; split; [lia|done]|].
  destruct Hn as (Hn & Hc & Hi). wp_step. unfold wp at 1.
  pose proof (nic_receive_ok 2048 (nic n) (no_nic n Hn) ltac:(lia)) as (Ha & _ & Hf).
  pose proof (Hnic (nic n)) as Hau. destruct (nic_receive 2048 (nic n)) as [received a]. cbn [fst snd] in *.
  pose proof (with_nic_ok a n Ha Hn) as Hn'.
  destruct received as [[|b frame]|]; [apply wp_ret; split; [cbn; lia|by intros _; split_and!]| |
    apply wp_ret; split; [cbn; lia|by intros _; split_and!]].
  destruct (Hf _ eq_refl) as [Hb _]. specialize (Hau _ _ (no_nic n Hn) eq_refl).
  wp_step. wp_call dispatch_spec. intros _ n2 [Ht Hok]. cbn [tcp with_nic] in Ht.
  destruct (buffered_same _ _ Ht) as (_ & Hsz & Hcn & _).
  destruct (tcp_frame_grows (b :: frame) (tcp n) (no_tcp n Hn)) as [Hg1 Hg2].
  assert (Hn2 : net_ok n2) by (by apply Hok).
  (* the rest of the loop is only needed when this frame left space *)
  destruct (decide (tcp_receive_size (tcp n2) < 8192)) as [Hlt|Hge].
  - wp_call (IH n2).
    { split_and!; [done|congruence|]. eapply stream_inv_same; [symmetry; exact Ht|].
      apply tcp_frame_stream; try done; [apply Hn|lia]. }
    intros _ n3 [H3 H4]. split; [lia|done].
  - wp_call poll_loop_grows; [done|]. intros _ n3 H3. split; lia.
Qed.

Lemma net_run_connected n0 got n :
  tcp n0 = t0 -> connected [] n0 -> net_run n0 got n -> connected got n.
Proof.
  intros H0 Hc0. induction 1 as [|got n _ IH Hsz|got n data _ IH Hb|got n ip port data _ IH Hip Hb|got n c _ IH Hc].
  - done.
  - revert Hsz. unfold network_poll, bind, gets. destruct (adapter_ready n); cbn [negb]; [|done].
    pose proof (poll_loop_stream 16 got n IH) as [Hg Hp]. destruct (poll_loop 16 n) as [u n1]. cbn [fst snd] in *.
    unfold id. case_if as E; [|done]. pose proof (send_arp_request_ok n1) as Ha.
    intros Hsz.
    assert (Hn1 : tcp (send_arp_request n1).2 = tcp n1).
    { unfold send_arp_request, bind, gets. pose proof (transmit_spec (N:=N)) as Ht. unfold wp in Ht.
      specialize (Ht (arp_frame (encode_ethernet (replicate 6 255) (local_mac n1) (swap16 ETHERTYPE_ARP))
        (encode_arp (mkArp (swap16 1) (swap16 ETHERTYPE_IPV4) 6 4 (swap16 1) (local_mac n1) (swap32 LOCAL_IP)
          (replicate 6 0) (swap32 GATEWAY_IP)))) n1).
      destruct (transmit _ n1) as [ok n2]. cbn [fst snd] in *. apply Ht. }
    rewrite Hn1 in Hsz. destruct (Hp Hsz) as (Hok & Hc & Hi). destruct (Ha Hok) as [Hok2 _].
    split_and!; [done|by rewrite Hn1|by rewrite Hn1].
  - destruct IH as (Hok & Hc & Hi). destruct (network_tcp_send_spec data n) as [Ht Hok2].
    destruct (buffered_same _ _ Ht) as (_ & _ & Hcn & _).
    split_and!; [by apply Hok2|congruence|]. eapply stream_inv_same; [symmetry; exact Ht|done].
  - destruct IH as (Hok & Hc & Hi). pose proof (network_send_udp_ok ip port data n Hip Hb Hok) as [Hok2 Ht].
    split_and!; [done|by rewrite Ht|by rewrite Ht].
  - destruct IH as (Hok & Hc' & Hi). pose proof (network_tcp_receive_ok c n Hc Hok) as Hok2.
    destruct (network_tcp_receive_spec c n Hc (no_tcp n Hok)) as (Hr & Hb & Hto & Hle & b & z & E).
    rewrite Hr. split_and!; [done|rewrite E; done|].
    assert (Hst : tcp_state (tcp (network_tcp_receive c n).2) = tcp_state (tcp n)) by (by rewrite E).
    assert (Hrs : tcp_remote_sequence (tcp (network_tcp_receive c n).2) = tcp_remote_sequence (tcp n)) by (by rewrite E).
    unfold stream_inv in *. rewrite Hst, Hrs, Hb. destruct (tcp_state (tcp n)).
    + destruct Hi as (k & ? & Hg & ?). exists k. rewrite <- app_assoc, take_drop. done.
    + destruct Hi as [-> Hz]. pose proof (to_size _ Hto). split; [|lia]. unfold buffered. by rewrite Hz, take_0, take_nil.
    + destruct Hi as (k & ? & Hg & ?). exists k. rewrite <- app_assoc, take_drop. done.
Qed.
End connection.

(** What a sound segment of the peer does. *)
Lemma peer_frame_dispatch to from seq ack fl data (n : Net) :
  net_ok n -> mac_ok to -> mac_ok from -> 0 <= seq < 2 ^ 32 -> 0 <= ack < 2 ^ 32 -> 0 <= fl < 2 ^ 8 -> bytes data ->
  Z.of_nat (length data) <= 1460 ->
  exists ip, tcp_same (tcp (dispatch (peer_frame to from (tcp n) seq ack fl data) n).2)
                      (tcp_input ip (peer_segment (tcp n) seq ack fl data) (tcp n)) /\
             tcp_addressed ip (peer_segment (tcp n) seq ack fl data) (tcp n) = true.
Proof.
  intros Hn Hto Hfrom Hseq Hack Hfl Hd Hl.
  destruct (peer_frame_input to from (tcp n) seq ack fl data Hto Hfrom (no_tcp n Hn) Hseq Hack Hfl Hd Hl (tcp n) eq_refl)
    as (ip & E & Ha).
  exists ip. split; [|done]. rewrite <- E. apply dispatch_spec.
Qed.

Lemma data_segment_dispatch to from ack data (n : Net) :
  net_ok n -> mac_ok to -> mac_ok from -> 0 <= ack < 2 ^ 32 -> bytes data -> data <> [] ->
  Z.of_nat (length data) <= 1460 -> tcp_state (tcp n) = TCP_ESTABLISHED ->
  let n' := (dispatch (peer_frame to from (tcp n) (tcp_remote_sequence (tcp n)) ack (Z.lor TCP_PSH TCP_ACK) data) n).2 in
  network_tcp_connected n' = true /\ buffered (tcp n') = take (Z.to_nat 8192) (buffered (tcp n) ++ data) /\
  tcp_remote_sequence (tcp n') = u32 (tcp_remote_sequence (tcp n) + Z.of_nat (length data)).
Proof.
  intros Hn Hto Hfrom Hack Hd Hne Hl Hst n'. pose proof (to_remote _ (no_tcp n Hn)) as Hseq.
  destruct (peer_frame_dispatch to from _ ack (Z.lor TCP_PSH TCP_ACK) data n Hn Hto Hfrom Hseq Hack ltac:(done) Hd Hl)
    as (ip & Hsame & Ha). fold n' in Hsame.
  destruct (peer_segment_spec (tcp n) (tcp_remote_sequence (tcp n)) ack (Z.lor TCP_PSH TCP_ACK) data (no_tcp n Hn) Hseq Hack
    ltac:(done) Hd Hl) as (H1 & _ & H3 & H4 & _).
  unfold tcp_input in Hsame. cbv zeta in Hsame. rewrite Ha, H1, H3, H4, Hst in Hsame. cbn [negb] in Hsame.
  rewrite Z.eqb_refl, (proj2 (Z.ltb_lt 0 _)) in Hsame by (destruct data; [done|cbn; lia]).
  change (has (Z.lor TCP_PSH TCP_ACK) TCP_RST) with false in Hsame.
  change (has (Z.lor TCP_PSH TCP_ACK) TCP_FIN) with false in Hsame. cbn [andb] in Hsame.
  destruct (buffered_same _ _ Hsame) as (Hb & _ & _ & Hs). unfold network_tcp_connected. rewrite Hs, Hb.
  rewrite (tcp_same_remote _ _ Hsame). cbn [with_remote_sequence tcp_remote_sequence tcp_state].
  change (buffered (with_remote_sequence _ ?x)) with (buffered x).
  rewrite (proj1 (take_payload_frame data (tcp n))), Hst. split_and!; [done|apply take_payload_buffered, Hn|done].
Qed.

(** ** Theorems *)

(** [C31] Whatever frames the adapter delivers, in every state the kernel can bring the
    stack to the receive buffer holds at most 8192 bytes, the status line fits its 48
    bytes with its terminator, addresses and counters stay in their ranges, and a
    connection exists only over a resolved gateway and from the stack's own port. *)
Theorem network_invariant (n : Net) :
  net_reach n ->
  Z.of_nat (length (tcp_receive_buffer (tcp n))) = 8192 /\ 0 <= tcp_receive_size (tcp n) <= 8192 /\
  length (network_status n) = 48%nat /\ (strlen (network_status n) < 48)%nat /\
  mac_ok (local_mac n) /\ mac_ok (gateway_mac n) /\
  0 <= tcp_local_sequence (tcp n) < 2 ^ 32 /\ 0 <= tcp_remote_sequence (tcp n) < 2 ^ 32 /\
  (tcp_state (tcp n) <> TCP_CLOSED ->
   network_is_ready n = true /\ network_gateway_resolved n = true /\ tcp_local_port (tcp n) = 50000).
Proof.
  intros Hr. destruct (net_reach_ok n Hr) as [_ _ Hm Hg (Hs & _ & Hl) _ [? ? ? ? ? [? _] ?] Hc].
  repeat (split; [done|]). done.
Qed.

(** [C32] Every frame the stack ever hands to the adapter is a complete Ethernet frame
    of at most 1514 bytes: an ARP packet of 60 bytes, or an IPv4 packet from this host
    whose length field is right and whose header checksum, and TCP checksum with the
    pseudo-header, sum to zero as receivers require. *)
Theorem network_frames_valid (n : Net) : net_reach n -> Forall frame_ok (wire n).
Proof. intros Hr. apply (net_reach_ok n Hr). Qed.

(** [C30] The bytes an application reads from a connection, followed by those still in
    the buffer, are a prefix of the byte stream of the peer: segments may be lost,
    repeated and reordered, and polls, reads and sends interleaved in any way, as long
    as no poll leaves the buffer full. *)
Theorem tcp_stream_prefix isn s (n0 n : Net) got :
  Z.of_nat (length s) < 2 ^ 32 ->
  (forall a frame a', nic_ok a -> nic_receive 2048 a = (Some frame, a') -> authentic_frame (tcp n0) isn s frame) ->
  net_ok n0 -> tcp_state (tcp n0) = TCP_SYN_SENT -> tcp_receive_size (tcp n0) = 0 ->
  net_run n0 got n ->
  (got ++ buffered (tcp n)) `prefix_of` s.
Proof.
  intros Hs Hnic Hn0 Hst Hsz Hrun.
  destruct (net_run_connected (tcp n0) isn s Hs Hnic n0 got n eq_refl) as (Hn & _ & Hi); [|done|].
  { split_and!; [done|done|]. unfold stream_inv. by rewrite Hst. }
  unfold stream_inv in Hi. destruct (tcp_state (tcp n)).
  - destruct Hi as (k & _ & -> & _). eexists. by rewrite take_drop.
  - destruct Hi as [-> Hz]. exists s. unfold buffered. by rewrite Hz.
  - destruct Hi as (k & _ & -> & _). eexists. by rewrite take_drop.
Qed.

(** A sound segment is never refused: the peer's SYN+ACK establishes the
    connection, and the next data segment in order is appended to the buffer, as far as
    there is space, and acknowledged in full from then on. *)
Theorem tcp_segment_accepted (n : Net) to from seq ack data :
  net_ok n -> mac_ok to -> mac_ok from -> 0 <= seq < 2 ^ 32 -> 0 <= ack < 2 ^ 32 ->
  bytes data -> data <> [] -> Z.of_nat (length data) <= 1460 ->
  (tcp_state (tcp n) = TCP_SYN_SENT ->
   let n' := (dispatch (peer_frame to from (tcp n) seq (tcp_local_sequence (tcp n)) (Z.lor TCP_SYN TCP_ACK) []) n).2 in
   network_tcp_connected n' = true /\ tcp_remote_sequence (tcp n') = u32 (seq + 1)) /\
  (tcp_state (tcp n) = TCP_ESTABLISHED ->
   let n' := (dispatch (peer_frame to from (tcp n) (tcp_remote_sequence (tcp n)) ack (Z.lor TCP_PSH TCP_ACK) data) n).2 in
   network_tcp_connected n' = true /\ buffered (tcp n') = take (Z.to_nat 8192) (buffered (tcp n) ++ data) /\
   tcp_remote_sequence (tcp n') = u32 (tcp_remote_sequence (tcp n) + Z.of_nat (length data))).
Proof.
  intros Hn Hto Hfrom Hseq Hack Hd Hne Hl. split; [|by apply data_segment_dispatch].
  intros Hst n'. pose proof (to_local _ (no_tcp n Hn)) as Hls.
  destruct (peer_frame_dispatch to from seq _ (Z.lor TCP_SYN TCP_ACK) [] n Hn Hto Hfrom Hseq Hls ltac:(done) ltac:(constructor)
    ltac:(cbn; lia)) as (ip & Hsame & Ha). fold n' in Hsame.
  destruct (peer_segment_spec (tcp n) seq _ (Z.lor TCP_SYN TCP_ACK) [] (no_tcp n Hn) Hseq Hls ltac:(done) ltac:(constructor)
    ltac:(cbn; lia)) as (H1 & H2 & H3 & _ & _).
  unfold tcp_input in Hsame. cbv zeta in Hsame. rewrite Ha, H1, H2, H3, Hst, Z.eqb_refl in Hsame.
  change (has (Z.lor TCP_SYN TCP_ACK) TCP_RST) with false in Hsame.
  change (syn_ack (Z.lor TCP_SYN TCP_ACK)) with true in Hsame. cbn [andb negb] in Hsame.
  destruct (buffered_same _ _ Hsame) as (_ & _ & _ & Hs). unfold network_tcp_connected. rewrite Hs.
  by rewrite (tcp_same_remote _ _ Hsame).
Qed.

(** When the receive buffer is full, a data segment is thrown away but counted as
    received: the sequence number the stack acknowledges moves past bytes that no read
    will ever return, so that the peer does not send them again. *)
Theorem tcp_full_buffer_loses (n : Net) to from ack data :
  net_ok n -> mac_ok to -> mac_ok from -> 0 <= ack < 2 ^ 32 ->
  bytes data -> data <> [] -> Z.of_nat (length data) <= 1460 ->
  tcp_state (tcp n) = TCP_ESTABLISHED -> tcp_receive_size (tcp n) = 8192 ->
  let n' := (dispatch (peer_frame to from (tcp n) (tcp_remote_sequence (tcp n)) ack (Z.lor TCP_PSH TCP_ACK) data) n).2 in
  buffered (tcp n') = buffered (tcp n) /\
  tcp_remote_sequence (tcp n') = u32 (tcp_remote_sequence (tcp n) + Z.of_nat (length data)).
Proof.
  intros Hn Hto Hfrom Hack Hd Hne Hl Hst Hfull n'.
  destruct (data_segment_dispatch to from ack data n Hn Hto Hfrom Hack Hd Hne Hl Hst) as (_ & Hb & Hr).
  split; [|exact Hr]. fold n' in Hb. rewrite Hb, take_app_le, take_ge; [done|..];
    unfold buffered; rewrite length_take, Hfull; destruct (no_tcp n Hn) as [? ? ? ? ? [? _] ?]; lia.
Qed.

End stream.

(** ** A network for the witnesses *)

(** A cable with the frames to come, all of them as [P] says; it takes every frame. *)
Definition Tape (P : list Z -> Prop) : Type := list (list Z).

Definition tape_ok (P : list Z -> Prop) (w : Tape P) : Prop :=
  Forall (fun f => bytes f /\ Z.of_nat (length f) <= 2048 /\ P f) w.

#[export] Program Instance tape_nic P : Nic (Tape P) := {|
  nic_init := fun w => (true, w);
  nic_send := fun _ w => (true, w);
  nic_receive := fun capacity w =>
    match w with [] => (Some [], []) | f :: w => (Some (take (Z.to_nat capacity) f), w) end;
  nic_mac := fun _ => [0x52; 0x54; 0; 0x12; 0x34; 0x56];
  nic_ok := tape_ok P |}.
Next Obligation. intros P w _. split; [done|]. by repeat constructor. Qed.
Next Obligation. done. Qed.
Next Obligation. done. Qed.
Next Obligation.
  intros P capacity w Hw Hc. destruct w as [|f w]; cbn.
  - split_and!; try done. intros frame [= <-]. split; [constructor|cbn; lia].
  - apply Forall_cons in Hw as [(Hb & Hl & HP) Hw]. split_and!; try done. intros frame [= <-].
    split; [by apply bytes_take|]. rewrite length_take. lia.
Qed.

Definition some_mac : list Z := [0x52; 0x55; 10; 0; 2; 2].

Lemma some_mac_ok : mac_ok some_mac.
Proof. split; [done|]. by repeat constructor. Qed.

(** A stack with a connection to 10.0.2.2 port 7000. *)
Definition a_connection (st : TcpState) (remote size : Z) : Tcp :=
  mkTcp st GATEWAY_IP 7000 50000 1001 remote (replicate (Z.to_nat 8192) 0) size.

Definition a_stack {P} (w : Tape P) (t : Tcp) : Network (N:=Tape P) :=
  mkNetwork w [] 100 some_mac some_mac true true 0 0 0 1 49152 (replicate 48 0) t.

Lemma a_stack_ok P (w : Tape P) st remote size :
  tape_ok P w -> 0 <= remote < 2 ^ 32 -> 0 <= size <= 8192 -> net_ok (a_stack w (a_connection st remote size)).
Proof.
  intros Hw Hr Hsz. split; cbn [a_stack nic wire local_mac gateway_mac status_text sent_packets received_packets
    ip_identifier udp_source_port tcp adapter_ready gateway_ready].
  - done.
  - constructor.
  - apply some_mac_ok.
  - apply some_mac_ok.
  - split_and!; [done|apply bytes_zeroes|]. vm_compute. lia.
  - lia.
  - split; try done. cbn [a_connection tcp_receive_buffer]. split; [by rewrite length_replicate|apply bytes_zeroes].
  - done.
Qed.

(** The gateway's answer to the ARP request. *)
Definition gateway_answer : list Z :=
  encode_ethernet [0x52; 0x54; 0; 0x12; 0x34; 0x56] some_mac (swap16 ETHERTYPE_ARP) ++
  encode_arp (mkArp (swap16 1) (swap16 ETHERTYPE_IPV4) 6 4 (swap16 2) some_mac (swap32 GATEWAY_IP)
    [0x52; 0x54; 0; 0x12; 0x34; 0x56] (swap32 LOCAL_IP)).

Definition booted : Network (N:=Tape (fun _ => True)) :=
  (network_tcp_connect GATEWAY_IP 7000
    (network_poll (network_init (net_zero ([gateway_answer] : Tape (fun _ => True)) 7)).2).2).2.

Lemma booted_reach : net_reach booted.
Proof.
  unfold booted. apply reach_connect; [|by vm_compute|done]. apply reach_poll, reach_network_init, reach_boot.
  apply Forall_cons. split; [|constructor].
  split_and!; [apply (bool_decide_unpack _); vm_compute; exact I|by vm_compute|done].
Qed.

Lemma network_invariant_witness :
  network_gateway_resolved booted = true /\ tcp_local_port (tcp booted) = 50000.
Proof.
  assert (E : tcp_state (tcp booted) = TCP_SYN_SENT) by (by vm_compute).
  destruct (network_invariant booted booted_reach) as (_ & _ & _ & _ & _ & _ & _ & _ & Hc).
  destruct Hc as (_ & Hg & Hp); [by rewrite E|]. split; [exact Hg|exact Hp].
Defined.

Lemma network_frames_valid_witness : length (wire booted) = 2%nat /\ Forall frame_ok (wire booted).
Proof. split; [by vm_compute|]. exact (network_frames_valid booted booted_reach). Defined.

(** Two segments of a stream, the second one first and again after the first. *)
Definition greeting : list Z := text "hello, world".

Definition greeting_tape : list (list Z) :=
  let t := a_connection TCP_SYN_SENT 0 0 in
  [ peer_frame some_mac some_mac t 4294967291 1001 0x12 [];
    peer_frame some_mac some_mac t 1 1001 0x18 (drop 5 greeting);
    peer_frame some_mac some_mac t 4294967292 1001 0x18 (take 5 greeting);
    peer_frame some_mac some_mac t 1 1001 0x18 (drop 5 greeting);
    peer_frame some_mac some_mac t 1 1001 0x18 (drop 5 greeting) ].

Definition greeting_frame (f : list Z) : Prop := f ∈ greeting_tape.

Definition greeting_stack := a_stack (P:=greeting_frame) greeting_tape (a_connection TCP_SYN_SENT 0 0).

Definition greeting_read := network_tcp_receive 100 (network_poll greeting_stack).2.

Lemma greeting_authentic f : greeting_frame f -> authentic_frame (a_connection TCP_SYN_SENT 0 0) 4294967291 greeting f.
Proof.
  assert (Ht : tcp_ok (a_connection TCP_SYN_SENT 0 0)) by (apply (a_stack_ok (fun _ => True) []); [constructor|lia|lia]).
  pose proof some_mac_ok as Hm.
  assert (Hb : bytes greeting) by (apply (bool_decide_unpack _); vm_compute; exact I).
  intros Hf. unfold greeting_frame, greeting_tape in Hf.
  assert (H1 : authentic_frame (a_connection TCP_SYN_SENT 0 0) 4294967291 greeting
    (peer_frame some_mac some_mac (a_connection TCP_SYN_SENT 0 0) 4294967291 1001 0x12 [])).
  { apply (peer_frame_authentic _ _ _ _ _ _ _ Hm Hm Ht) with (off := 0%nat); try done; first [by constructor|cbn; lia]. }
  assert (H2 : authentic_frame (a_connection TCP_SYN_SENT 0 0) 4294967291 greeting
    (peer_frame some_mac some_mac (a_connection TCP_SYN_SENT 0 0) 1 1001 0x18 (drop 5 greeting))).
  { apply (peer_frame_authentic _ _ _ _ _ _ _ Hm Hm Ht) with (off := 5%nat); try done;
    first [by apply bytes_drop|intros _; split_and!; [vm_compute; lia|done|done]]. }
  assert (H3 : authentic_frame (a_connection TCP_SYN_SENT 0 0) 4294967291 greeting
    (peer_frame some_mac some_mac (a_connection TCP_SYN_SENT 0 0) 4294967292 1001 0x18 (take 5 greeting))).
  { apply (peer_frame_authentic _ _ _ _ _ _ _ Hm Hm Ht) with (off := 0%nat); try done;
    first [by apply bytes_take|intros _; split_and!; [vm_compute; lia|done|done]]. }
  rewrite !elem_of_cons in Hf. destruct Hf as [->|[->|[->|[->|[->|Hf]]]]]; try done. by apply elem_of_nil in Hf.
Qed.

Lemma greeting_tape_ok : tape_ok greeting_frame greeting_tape.
Proof.
  assert (H : Forall (fun f => bytes f /\ Z.of_nat (length f) <= 2048) greeting_tape)
    by (apply (bool_decide_unpack _); vm_compute; exact I).
  apply Forall_forall. intros f Hf. rewrite Forall_forall in H. by destruct (H f Hf).
Qed.

Lemma greeting_stack_ok : net_ok greeting_stack.
Proof. apply a_stack_ok; [apply greeting_tape_ok|lia|lia]. Qed.

Lemma tcp_stream_prefix_witness : greeting `prefix_of` greeting /\ greeting_read.1 = greeting.
Proof.
  assert (E : greeting_read.1 = greeting) by (by vm_compute). split; [|exact E].
  assert (Hrun : net_run greeting_stack ([] ++ greeting_read.1) greeting_read.2).
  { apply (run_read greeting_stack [] (network_poll greeting_stack).2 100); [|lia]. apply run_poll; [apply run_start|].
    by vm_compute. }
  pose proof (tcp_stream_prefix 4294967291 greeting greeting_stack greeting_read.2 _ ltac:(by vm_compute)
    (fun a frame a' Ha Hr => ltac:(
       destruct a as [|f w]; cbn in Hr; injection Hr as <- <-;
       [by intros ip packet H; vm_compute in H|];
       apply Forall_cons in Ha as [(_ & Hl & Hg) _];
       rewrite take_ge by lia; exact (greeting_authentic f Hg))) greeting_stack_ok eq_refl eq_refl Hrun) as Hp.
  rewrite E in Hp. destruct Hp as [k Hk]. exists k. rewrite app_nil_l, <- app_assoc in Hk.
  assert (Eb : buffered (tcp greeting_read.2) = []) by (by vm_compute). rewrite Eb in Hk. exact Hk.
Defined.

Lemma tcp_segment_accepted_witness :
  buffered (tcp (dispatch (peer_frame some_mac some_mac (a_connection TCP_ESTABLISHED 77 0) 77 1001 0x18 greeting)
    (a_stack (P:=fun _ => True) [] (a_connection TCP_ESTABLISHED 77 0))).2) = greeting.
Proof.
  assert (Hn : net_ok (a_stack (P:=fun _ => True) [] (a_connection TCP_ESTABLISHED 77 0)))
    by (apply a_stack_ok; [constructor|lia|lia]).
  assert (Hb : bytes greeting) by (apply (bool_decide_unpack _); vm_compute; exact I).
  destruct (tcp_segment_accepted _ some_mac some_mac 5 1001 greeting Hn some_mac_ok some_mac_ok ltac:(lia) ltac:(lia)
    Hb ltac:(done) ltac:(by vm_compute)) as [_ H]. destruct (H eq_refl) as (_ & H' & _).
  refine (eq_trans H' _). by vm_compute.
Defined.

Lemma tcp_full_buffer_loses_witness :
  let n' := (dispatch (peer_frame some_mac some_mac (a_connection TCP_ESTABLISHED 77 8192) 77 1001 0x18 greeting)
    (a_stack (P:=fun _ => True) [] (a_connection TCP_ESTABLISHED 77 8192))).2 in
  tcp_remote_sequence (tcp n') = 89.
Proof.
  assert (Hn : net_ok (a_stack (P:=fun _ => True) [] (a_connection TCP_ESTABLISHED 77 8192)))
    by (apply a_stack_ok; [constructor|lia|lia]).
  assert (Hb : bytes greeting) by (apply (bool_decide_unpack _); vm_compute; exact I).
  destruct (tcp_full_buffer_loses _ some_mac some_mac 1001 greeting Hn some_mac_ok some_mac_ok ltac:(lia)
    Hb ltac:(done) ltac:(by vm_compute) eq_refl eq_refl) as [_ H]. exact H.
Defined.
