(* ===== verification/Libc.v ===== *)
(** * user/libc.c: the C library of user programs

    String routines work on the buffer that holds the string, read as a NUL beyond its
    end; a pointer they return is an offset into it.  [malloc] and its relatives keep
    their headers in a map from address to header, the payloads in a flat memory.  The
    kernel is a parameter: it answers system calls and may change the memory. *)

From S2P Require Import Prelude.
From S2P Require Runtime.

(** ** Memory routines *)

Abbreviation mem := Runtime.mem.
Abbreviation mem_set := Runtime.mem_set.
Abbreviation char_at := Runtime.char_at.

(** [while (count--) *output++ = *input++;] *)
Fixpoint memcpy (destination source : Z) (count : nat) (m : mem) : mem :=
  match count with
  | O => m
  | S n => memcpy (destination + 1) (source + 1) n (mem_set m destination (m source))
  end.

(** [while (count--) output[count] = input[count];] *)
Fixpoint memmove_down (destination source : Z) (count : nat) (m : mem) : mem :=
  match count with
  | O => m
  | S n => memmove_down destination source n
             (mem_set m (destination + Z.of_nat n) (m (source + Z.of_nat n)))
  end.

Definition memmove (destination source : Z) (count : nat) (m : mem) : mem :=
  if destination <? source then memcpy destination source count m
  else memmove_down destination source count m.

Fixpoint memset (destination value : Z) (count : nat) (m : mem) : mem :=
  match count with
  | O => m
  | S n => memset (destination + 1) value n (mem_set m destination (u8 value))
  end.

Fixpoint memcmp (left right : Z) (count : nat) (m : mem) : Z :=
  match count with
  | O => 0
  | S n => if negb (m left =? m right) then m left - m right else memcmp (left + 1) (right + 1) n m
  end.

(** The offset of the byte found. *)
Fixpoint memchr (memory : list Z) (character : Z) (count : nat) : option nat :=
  match count with
  | O => None
  | S n => if char_at memory =? u8 character then Some O else S <$> memchr (tail memory) character n
  end.

(** ** Strings *)

Fixpoint strlen (text : list Z) : nat :=
  match text with
  | [] => O
  | c :: text => if c =? 0 then O else S (strlen text)
  end.

Fixpoint strnlen (text : list Z) (maximum : nat) : nat :=
  match maximum with
  | O => O
  | S n => if char_at text =? 0 then O else S (strnlen (tail text) n)
  end.

Fixpoint strcmp (left right : list Z) : Z :=
  match left with
  | [] => 0 - char_at right
  | a :: left' =>
      if (negb (a =? 0) && (a =? char_at right))%bool then strcmp left' (tail right)
      else a - char_at right
  end.

Fixpoint strncmp (left right : list Z) (count : nat) : Z :=
  match count with
  | O => 0
  | S n =>
      if (negb (char_at left =? 0) && (char_at left =? char_at right))%bool
      then strncmp (tail left) (tail right) n
      else char_at left - char_at right
  end.

(** The bytes [strcpy] stores. *)
Definition strcpy (source : list Z) : list Z := take (strlen source) source ++ [0].

(** The [count] bytes [strncpy] stores. *)
Fixpoint strncpy (source : list Z) (count : nat) : list Z :=
  match count with
  | O => []
  | S n => if char_at source =? 0 then replicate count 0 else char_at source :: strncpy (tail source) n
  end.

(** The destination buffer afterwards, which is large enough. *)
Definition strcat (destination source : list Z) : list Z :=
  blit (strlen destination) (strcpy source) destination.

(** [while (count-- && *source) *output++ = *source++;] *)
Fixpoint strncat_bytes (source : list Z) (count : nat) : list Z :=
  match count with
  | O => []
  | S n => if char_at source =? 0 then [] else char_at source :: strncat_bytes (tail source) n
  end.

Definition strncat (destination source : list Z) (count : nat) : list Z :=
  blit (strlen destination) (strncat_bytes source count ++ [0]) destination.

Fixpoint strchr (text : list Z) (character : Z) : option nat :=
  match text with
  | [] => if u8 character =? 0 then Some O else None
  | c :: text =>
      if c =? u8 character then Some O else if c =? 0 then None else S <$> strchr text character
  end.

(** The last match from offset [at_] on, [result] being the one before. *)
Fixpoint strrchr_from (text : list Z) (character : Z) (at_ : nat) (result : option nat) : option nat :=
  match text with
  | [] => if u8 character =? 0 then Some at_ else result
  | c :: text =>
      let result := if c =? u8 character then Some at_ else result in
      if c =? 0 then result else strrchr_from text character (S at_) result
  end.

Definition strrchr (text : list Z) (character : Z) : option nat := strrchr_from text character 0 None.

(** The loop over the text. *)
Fixpoint strstr_loop (text needle : list Z) : option nat :=
  match text with
  | [] => None
  | c :: rest =>
      if c =? 0 then None
      else if strncmp text needle (strlen needle) =? 0 then Some O
      else S <$> strstr_loop rest needle
  end.

Definition strstr (text needle : list Z) : option nat :=
  if char_at needle =? 0 then Some O else strstr_loop text needle.

(** ** Numbers *)

Fixpoint skip_blanks (text : list Z) : nat :=
  match text with
  | c :: text => if ((c =? 32) || (c =? 9))%bool then S (skip_blanks text) else O
  | [] => O
  end.

Definition is_digit (c : Z) : bool := ((48 <=? c) && (c <=? 57))%bool.

(** The loop over the digits, in 32 bits with wrap-around. *)
Fixpoint atoi_loop (text : list Z) (value : Z) : Z :=
  match text with
  | c :: text => if is_digit c then atoi_loop text (s32 (value * 10 + (c - 48))) else value
  | [] => value
  end.

Definition atoi (text : list Z) : Z :=
  let text := drop (skip_blanks text) text in
  if char_at text =? 45 then s32 (atoi_loop (tail text) 0 * -1)
  else if char_at text =? 43 then s32 (atoi_loop (tail text) 0 * 1)
  else s32 (atoi_loop text 0 * 1).

(** The digit a character stands for. *)
Definition digit_of (c : Z) : option Z :=
  if is_digit c then Some (c - 48)
  else if ((97 <=? c) && (c <=? 122))%bool then Some (c - 97 + 10)
  else if ((65 <=? c) && (c <=? 90))%bool then Some (c - 65 + 10)
  else None.

(** The value and the number of digits. *)
Fixpoint strtol_loop (cursor : list Z) (base value : Z) : Z * nat :=
  match cursor with
  | [] => (value, O)
  | c :: cursor =>
      match digit_of c with
      | None => (value, O)
      | Some digit =>
          if base <=? digit then (value, O)
          else let '(v, n) := strtol_loop cursor base (u64 (value * u32 base + digit)) in (v, S n)
      end
  end.

(** [text[0] == '0' && (text[1] == 'x' || text[1] == 'X')] *)
Definition hex_prefix (text : list Z) : bool :=
  ((char_at text =? 48) && ((char_at (tail text) =? 120) || (char_at (tail text) =? 88)))%bool.

(** The value and the offset stored in [*end]. *)
Definition strtol (text : list Z) (base : Z) : Z * nat :=
  let blanks := skip_blanks text in
  let text := drop blanks text in
  let sign := ((char_at text =? 45) || (char_at text =? 43))%bool in
  let negative := (sign && (char_at text =? 45))%bool in
  let text := if sign then tail text else text in
  let base := if base =? 0 then (if hex_prefix text then 16 else 10) else base in
  let prefix := ((base =? 16) && hex_prefix text)%bool in
  let text := if prefix then drop 2 text else text in
  let '(value, digits) := strtol_loop text base 0 in
  ((if negative then s64 (- s64 value) else s64 value),
   (blanks + (if sign then 1 else 0) + (if prefix then 2 else 0) + digits)%nat).

(** ** Sorting and searching

    [bytes] is the array, [compare] is given the bytes of two elements. *)

Section sorting.
Context (compare : list Z -> list Z -> Z) (width : nat).

Definition element (bytes : list Z) (index : nat) : list Z := slice (index * width) width bytes.

(** The exchange of the elements [current - 1] and [current], byte by byte. *)
Fixpoint swap_bytes (n byte current : nat) (bytes : list Z) : list Z :=
  match n with
  | O => bytes
  | S n =>
      let a := ((current - 1) * width + byte)%nat in
      let b := (current * width + byte)%nat in
      let swap := nth a bytes 0 in
      let bytes := <[a := nth b bytes 0]> bytes in
      let bytes := <[b := swap]> bytes in
      swap_bytes n (S byte) current bytes
  end.

Fixpoint sink (current : nat) (bytes : list Z) : list Z :=
  match current with
  | O => bytes
  | S previous =>
      if 0 <? compare (element bytes previous) (element bytes current)
      then sink previous (swap_bytes width 0 current bytes) else bytes
  end.

(** [n] rounds of the outer loop from [index] on. *)
Fixpoint qsort_loop (n index : nat) (bytes : list Z) : list Z :=
  match n with
  | O => bytes
  | S n => qsort_loop n (S index) (sink index bytes)
  end.

Definition qsort (count : nat) (bytes : list Z) : list Z := qsort_loop (count - 1) 1 bytes.

(** The index of the element found; [fuel] bounds the rounds, [count] of them are
    enough. *)
Fixpoint bsearch_loop (fuel : nat) (key bytes : list Z) (first count : nat) : option nat :=
  match fuel with
  | O => None
  | S fuel =>
      if (count =? 0)%nat then None else
      let middle := (first + count / 2)%nat in
      let order := compare key (element bytes middle) in
      if order =? 0 then Some middle
      else if order <? 0 then bsearch_loop fuel key bytes first (count / 2)
      else bsearch_loop fuel key bytes (middle + 1) (count - (count / 2 + 1))
  end.

Definition bsearch (key bytes : list Z) (count : nat) : option nat := bsearch_loop (S count) key bytes 0 count.

End sorting.
