(* ===== verification/LibcFacts.v ===== *)
(** * user/libc.c: sorting, searching and numbers *)

From stdpp Require Import sorting.
From S2P Require Import Prelude.
From S2P Require Import Libc.
#[local] Open Scope Z_scope.

(** ** Arrays of elements *)

Section arrays.
Context (width : nat).

Definition elements (es : list (list Z)) : Prop := Forall (fun e => length e = width) es.

Lemma length_concat_elements es : elements es -> length (concat es) = (length es * width)%nat.
Proof. induction 1 as [|e es He _ IH]; [done|]. cbn [concat length]. rewrite length_app, IH, He. done. Qed.

Lemma element_concat es1 e es2 :
  elements es1 -> length e = width -> element width (concat (es1 ++ e :: es2)) (length es1) = e.
Proof.
  intros H1 He. unfold element, slice. rewrite concat_app, drop_app_length' by (by rewrite length_concat_elements).
  cbn [concat]. by rewrite take_app_length' by done.
Qed.

(** Overwriting one byte of a list. *)
Lemma insert_middle (l1 l2 : list Z) x y n : n = length l1 -> <[n := y]> (l1 ++ x :: l2) = l1 ++ y :: l2.
Proof. intros ->. by rewrite insert_app_r_alt, Nat.sub_diag by lia. Qed.

Lemma nth_middle' (l1 l2 : list Z) x d n : n = length l1 -> nth n (l1 ++ x :: l2) d = x.
Proof. intros ->. apply nth_middle. Qed.

(** Part of the way through the exchange of two elements. *)
Lemma swap_bytes_spec n byte current pre a1 b1 a2 b2 post :
  (current <> 0)%nat -> length pre = ((current - 1) * width)%nat -> length a1 = byte -> length b1 = byte ->
  length a2 = n -> length b2 = n -> (byte + n = width)%nat ->
  swap_bytes width n byte current (pre ++ (b1 ++ a2) ++ (a1 ++ b2) ++ post) =
  pre ++ (b1 ++ b2) ++ (a1 ++ a2) ++ post.
Proof.
  intros Hc Hpre. revert byte a1 b1 a2 b2.
  induction n as [|n IH]; intros byte a1 b1 a2 b2 Ha1 Hb1 Ha2 Hb2 Hw; cbn [swap_bytes].
  { destruct a2, b2; try done. }
  destruct a2 as [|x a2], b2 as [|y b2]; try done. injection Ha2 as Ha2. injection Hb2 as Hb2.
  assert (Hcw : (current * width = (current - 1) * width + width)%nat) by (destruct current; [done|]; cbn; rewrite Nat.sub_0_r; lia).
  assert (Ei : ((current - 1) * width + byte)%nat = length (pre ++ b1)) by (rewrite length_app; lia).
  assert (Ej : (current * width + byte)%nat = length (pre ++ b1 ++ x :: a2 ++ a1))
    by (rewrite !length_app; cbn [length]; rewrite length_app; lia).
  replace (pre ++ (b1 ++ x :: a2) ++ (a1 ++ y :: b2) ++ post) with ((pre ++ b1 ++ x :: a2 ++ a1) ++ y :: b2 ++ post)
    by (repeat (rewrite <- app_assoc; cbn [app]); done).
  rewrite (nth_middle' _ _ y 0 (current * width + byte)) by done.
  replace ((pre ++ b1 ++ x :: a2 ++ a1) ++ y :: b2 ++ post) with ((pre ++ b1) ++ x :: a2 ++ a1 ++ y :: b2 ++ post)
    by (repeat (rewrite <- app_assoc; cbn [app]); done).
  rewrite (nth_middle' _ _ x 0 ((current - 1) * width + byte)), (insert_middle (pre ++ b1) _ x) by done.
  replace ((pre ++ b1) ++ y :: a2 ++ a1 ++ y :: b2 ++ post) with ((pre ++ b1 ++ y :: a2 ++ a1) ++ y :: b2 ++ post)
    by (repeat (rewrite <- app_assoc; cbn [app]); done).
  rewrite insert_middle by (rewrite !length_app in *; cbn [length] in *; rewrite length_app in *; lia).
  replace ((pre ++ b1 ++ y :: a2 ++ a1) ++ x :: b2 ++ post) with (pre ++ ((b1 ++ [y]) ++ a2) ++ ((a1 ++ [x]) ++ b2) ++ post)
    by (repeat (rewrite <- app_assoc; cbn [app]); done).
  rewrite IH by (rewrite ?length_app; cbn [length]; lia).
  repeat (rewrite <- app_assoc; cbn [app]). done.
Qed.

Lemma swap_elements es1 a b es2 :
  elements es1 -> length a = width -> length b = width ->
  swap_bytes width width 0 (S (length es1)) (concat (es1 ++ a :: b :: es2)) = concat (es1 ++ b :: a :: es2).
Proof.
  intros H1 Ha Hb. rewrite !concat_app. cbn [concat].
  apply (swap_bytes_spec width 0 (S (length es1)) (concat es1) [] [] a b (concat es2)); try done.
  cbn [Nat.sub]. by rewrite Nat.sub_0_r, length_concat_elements.
Qed.

End arrays.

Lemma filter_rev_list {A} (P : A -> Prop) `{!forall x, Decision (P x)} l : filter P (rev l) = rev (filter P l).
Proof.
  induction l as [|x l IH]; cbn [rev]; [done|]. rewrite filter_app, IH, !filter_cons.
  case_decide; cbn [rev]; [done|]. by rewrite app_nil_r.
Qed.

(** ** Sorting *)

(** A comparison of elements that is a total preorder, as [qsort] asks for. *)
Class Comparison (compare : list Z -> list Z -> Z) := {
  compare_total x y : compare x y <= 0 \/ compare y x <= 0;
  compare_trans x y z : compare x y <= 0 -> compare y z <= 0 -> compare x z <= 0 }.

Section sorting.
Context (compare : list Z -> list Z -> Z) (width : nat).

(** Insertion into a sorted list that is kept in reverse. *)
Fixpoint insert_reversed (x : list Z) (rl : list (list Z)) : list (list Z) :=
  match rl with
  | [] => [x]
  | y :: rl => if 0 <? compare y x then y :: insert_reversed x rl else x :: y :: rl
  end.

Definition insertion_sort (es : list (list Z)) : list (list Z) := rev (foldl (fun rl x => insert_reversed x rl) [] es).

Lemma insert_reversed_elements x rl : length x = width -> elements width rl -> elements width (insert_reversed x rl).
Proof.
  intros Hx. induction 1 as [|y rl Hy Hl IH]; cbn; [by repeat constructor|]. case_if as E; by repeat constructor.
Qed.

Lemma length_insert_reversed x rl : length (insert_reversed x rl) = S (length rl).
Proof. induction rl as [|y rl IH]; cbn; [done|]. case_if as E; cbn; by rewrite ?IH. Qed.

(** The inner loop inserts an element into the sorted part in front of it. *)
Lemma sink_spec rl x es2 :
  elements width rl -> length x = width ->
  sink compare width (length rl) (concat (rev rl ++ x :: es2)) = concat (rev (insert_reversed x rl) ++ es2).
Proof.
  intros Hrl Hx. revert es2. induction Hrl as [|y rl Hy Hl IH]; intros es2; [done|].
  cbn [length sink rev insert_reversed]. rewrite <- app_assoc. cbn [app].
  assert (Hrev : elements width (rev rl)) by (by apply Forall_rev).
  assert (Hlen : length rl = length (rev rl)) by (by rewrite length_rev).
  rewrite Hlen at 1. rewrite element_concat by done.
  replace (element width (concat (rev rl ++ y :: x :: es2)) (S (length rl))) with x.
  2:{ change (y :: x :: es2) with ([y] ++ x :: es2). rewrite app_assoc.
      replace (S (length rl)) with (length (rev rl ++ [y])) by (rewrite length_app, length_rev; cbn; lia).
      rewrite element_concat; [done|apply Forall_app_2; [done|by repeat constructor]|done]. }
  case_if as E.
  - rewrite Hlen at 2. rewrite swap_elements by done. rewrite IH. cbn [rev]. by rewrite <- app_assoc.
  - cbn [rev]. by rewrite <- !app_assoc.
Qed.

(** The outer loop is an insertion sort. *)
Lemma qsort_loop_spec es rl :
  elements width es -> elements width rl ->
  qsort_loop compare width (length es) (length rl) (concat (rev rl ++ es)) =
  concat (rev (foldl (fun rl x => insert_reversed x rl) rl es)).
Proof.
  intros Hes. revert rl. induction Hes as [|e es He _ IH]; intros rl Hrl; cbn [length qsort_loop foldl].
  { by rewrite app_nil_r. }
  rewrite sink_spec by done. rewrite <- (length_insert_reversed e rl). apply IH. by apply insert_reversed_elements.
Qed.

Lemma qsort_insertion_sort es :
  elements width es -> qsort compare width (length es) (concat es) = concat (insertion_sort es).
Proof.
  intros Hes. unfold qsort, insertion_sort. destruct Hes as [|e es He Hes]; [done|]. cbn [length foldl insert_reversed].
  rewrite Nat.sub_succ, Nat.sub_0_r. apply (qsort_loop_spec es [e]); [done|by repeat constructor].
Qed.

Context `{!Comparison compare}.

Definition element_le (x y : list Z) : Prop := compare x y <= 0.

(** Elements the comparison does not tell apart. *)
Definition same_key (x y : list Z) : bool := ((compare x y <=? 0) && (compare y x <=? 0))%bool.

Lemma insert_reversed_perm x rl : insert_reversed x rl ≡ₚ x :: rl.
Proof. induction rl as [|y rl IH]; cbn; [done|]. case_if as E; [|done]. rewrite IH. apply Permutation_swap. Qed.

(** Reversed lists are sorted downwards. *)
Definition descending (rl : list (list Z)) : Prop := StronglySorted (fun x y => compare y x <= 0) rl.

Lemma insert_reversed_sorted x rl : descending rl -> descending (insert_reversed x rl).
Proof.
  induction 1 as [|y rl Hs IH Hy]; cbn; [by repeat constructor|]. case_if as E.
  - constructor; [done|]. rewrite insert_reversed_perm. constructor; [|done].
    destruct (compare_total y x); lia.
  - constructor; [by constructor|]. constructor; [lia|].
    eapply Forall_impl; [exact Hy|]. cbn. intros z Hz. apply (compare_trans z y x); [done|lia].
Qed.

Lemma insert_reversed_stable z x rl :
  descending rl -> filter (fun y => same_key z y = true) (insert_reversed x rl) = filter (fun y => same_key z y = true) (x :: rl).
Proof.
  induction 1 as [|y rl Hs IH Hy]; cbn [insert_reversed]; [done|]. case_if as E; [|done].
  assert (Hyx : same_key z y = true -> same_key z x = true -> False).
  { unfold same_key. rewrite !andb_true_iff, !Z.leb_le. intros [H1 H2] [H3 H4].
    pose proof (compare_trans y z x H2 H3). lia. }
  rewrite (filter_cons _ y), IH, !filter_cons. repeat case_decide; try done. exfalso. auto.
Qed.

Lemma insertion_facts es rl :
  descending rl ->
  let r := foldl (fun rl x => insert_reversed x rl) rl es in
  descending r /\ r ≡ₚ rl ++ es /\
  forall z, filter (fun y => same_key z y = true) r = filter (fun y => same_key z y = true) (rev es ++ rl).
Proof.
  revert rl. induction es as [|e es IH]; intros rl Hrl; cbn [foldl rev app].
  { split_and!; [done|by rewrite app_nil_r|done]. }
  destruct (IH (insert_reversed e rl)) as (H1 & H2 & H3); [by apply insert_reversed_sorted|]. split_and!; [done| |].
  - rewrite H2, insert_reversed_perm. by rewrite <- Permutation_middle.
  - intros z. rewrite H3, <- app_assoc, !(filter_app _ (rev es)). f_equal. by apply insert_reversed_stable.
Qed.

Lemma descending_rev rl : descending rl -> StronglySorted element_le (rev rl).
Proof.
  induction 1 as [|y rl Hs IH Hy]; cbn [rev]; [constructor|].
  apply StronglySorted_app; split_and!; [|done|by repeat constructor].
  intros a b Ha Hb. apply list_elem_of_singleton in Hb as ->. rewrite Forall_forall in Hy. apply Hy.
  rewrite list_elem_of_In in Ha. apply in_rev in Ha. by apply list_elem_of_In.
Qed.

(** [C34] [qsort] sorts: for a comparison that is a total preorder, the array afterwards
    consists of the same elements in ascending order, and elements that compare equal
    keep their order; it is the stable insertion sort of the elements. *)
Theorem qsort_correct es :
  elements width es ->
  exists es', qsort compare width (length es) (concat es) = concat es' /\ es' = insertion_sort es /\
    es' ≡ₚ es /\ StronglySorted element_le es' /\
    forall z, filter (fun y => same_key z y = true) es' = filter (fun y => same_key z y = true) es.
Proof.
  intros Hes. exists (insertion_sort es). split; [by apply qsort_insertion_sort|]. split; [done|].
  destruct (insertion_facts es []) as (H1 & H2 & H3); [constructor|]. unfold insertion_sort. split_and!.
  - by rewrite <- Permutation_rev, H2.
  - by apply descending_rev.
  - intros z. rewrite filter_rev_list, H3, app_nil_r, filter_rev_list. apply rev_involutive.
Qed.
End sorting.

(** ** Searching *)

Section searching.
Context (compare : list Z -> list Z -> Z) (width : nat).

(** The array is in order for the key: what lies below it comes first. *)
Definition ordered_for (key : list Z) (es : list (list Z)) : Prop :=
  forall i j a b, (i < j)%nat -> es !! i = Some a -> es !! j = Some b ->
    (compare key a < 0 -> compare key b < 0) /\ (compare key b > 0 -> compare key a > 0).

Lemma element_lookup es i e : elements width es -> es !! i = Some e -> element width (concat es) i = e.
Proof.
  intros Hes Hi. rewrite <- (take_drop_middle es i e Hi). apply lookup_lt_Some in Hi as Hlt.
  replace i with (length (take i es)) at 3 by (rewrite length_take; lia). apply element_concat.
  - by apply Forall_take.
  - by apply (Forall_lookup_1 _ _ _ _ Hes Hi).
Qed.

Lemma bsearch_loop_spec fuel key es first count :
  elements width es -> ordered_for key es -> (count < fuel)%nat -> (first + count <= length es)%nat ->
  (forall i e, es !! i = Some e -> compare key e = 0 -> (first <= i < first + count)%nat) ->
  match bsearch_loop compare width fuel key (concat es) first count with
  | Some m => exists e, es !! m = Some e /\ compare key e = 0
  | None => forall i e, es !! i = Some e -> compare key e <> 0
  end.
Proof.
  intros Hes Ho. revert first count. induction fuel as [|fuel IH]; intros first count Hf Hl Hr; [lia|].
  cbn [bsearch_loop]. destruct (Nat.eqb_spec count 0) as [->|Hc].
  { intros i e Hi He. specialize (Hr i e Hi He). lia. }
  assert (Hm : (count / 2 < count)%nat) by (apply Nat.div_lt; lia).
  destruct (lookup_lt_is_Some_2 es (first + count / 2)) as [e He]; [lia|].
  rewrite (element_lookup es (first + count / 2)%nat e Hes He). destruct (Z.eqb_spec (compare key e) 0) as [E|E]; [by exists e|].
  destruct (Z.ltb_spec (compare key e) 0) as [Hlt|Hge].
  - apply IH; [lia|lia|]. intros i e' Hi He'. specialize (Hr i e' Hi He').
    destruct (decide (first + count / 2 < i)%nat) as [Hgt|].
    + destruct (Ho _ _ _ _ Hgt He Hi) as [H1 _]. lia.
    + destruct (decide (i = first + count / 2)%nat) as [->|]; [|lia]. rewrite He in Hi. injection Hi as <-. lia.
  - apply IH; [lia|lia|]. intros i e' Hi He'. specialize (Hr i e' Hi He').
    destruct (decide (i < first + count / 2)%nat) as [Hlt|].
    + destruct (Ho _ _ _ _ Hlt Hi He) as [_ H2]. lia.
    + destruct (decide (i = first + count / 2)%nat) as [->|]; [|lia]. rewrite He in Hi. injection Hi as <-. lia.
Qed.

(** [bsearch] decides membership: on an array in order for the key it returns the
    index of an element that compares equal, and [NULL] only when there is none; the
    loop needs at most as many rounds as there are elements. *)
Theorem bsearch_correct key es :
  elements width es -> ordered_for key es ->
  match bsearch compare width key (concat es) (length es) with
  | Some m => exists e, es !! m = Some e /\ compare key e = 0
  | None => forall i e, es !! i = Some e -> compare key e <> 0
  end.
Proof.
  intros Hes Ho. apply bsearch_loop_spec; [done|done|lia|lia|]. intros i e Hi _. apply lookup_lt_Some in Hi. lia.
Qed.
End searching.

(** ** Numbers *)

(** The character of a digit. *)
Definition digit_char (d : Z) : Z := if d <? 10 then 48 + d else 97 + (d - 10).

(** The number that digits denote, the most significant one first. *)
Definition numeral (base : Z) (ds : list Z) : Z := foldl (fun v d => v * base + d) 0 ds.

Lemma digit_of_char d : 0 <= d < 36 -> digit_of (digit_char d) = Some d.
Proof.
  intros Hd. unfold digit_of, digit_char, is_digit. destruct (Z.ltb_spec d 10).
  - rewrite (proj2 (Z.leb_le 48 _)), (proj2 (Z.leb_le _ 57)) by lia. cbn. f_equal. lia.
  - rewrite (proj2 (Z.leb_gt (97 + (d - 10)) 57)), andb_false_r by lia.
    rewrite (proj2 (Z.leb_le 97 _)), (proj2 (Z.leb_le _ 122)) by lia. cbn. f_equal. lia.
Qed.

Lemma numeral_grows base v ds :
  2 <= base -> 0 <= v -> Forall (fun d => 0 <= d < base) ds -> v <= foldl (fun v d => v * base + d) v ds.
Proof.
  intros Hb Hv Hds. revert v Hv. induction Hds as [|d ds Hd _ IH]; intros v Hv; cbn; [lia|].
  etrans; [|apply IH; nia]. nia.
Qed.

Lemma strtol_loop_numeral base v ds rest :
  2 <= base <= 36 -> 0 <= v -> Forall (fun d => 0 <= d < base) ds -> digit_of (char_at rest) = None ->
  foldl (fun v d => v * base + d) v ds < 2 ^ 64 ->
  strtol_loop ((digit_char <$> ds) ++ rest) base v = (foldl (fun v d => v * base + d) v ds, length ds).
Proof.
  intros Hb Hv Hds Hr. revert v Hv. induction Hds as [|d ds Hd Hds IH]; intros v Hv Hlt; cbn [fmap list_fmap app foldl length] in *.
  - destruct rest as [|c rest]; cbn [strtol_loop]; [done|]. cbn in Hr. by rewrite Hr.
  - cbn [strtol_loop]. rewrite digit_of_char by lia. rewrite (proj2 (Z.leb_gt base d)) by lia.
    pose proof (numeral_grows base (v * base + d) ds ltac:(lia) ltac:(nia) Hds).
    rewrite (wrap_small 32 base), wrap_small by nia. rewrite IH by (done || nia). done.
Qed.

Lemma digit_char_plain d : 0 <= d < 36 -> digit_char d <> 32 /\ digit_char d <> 9 /\ digit_char d <> 45 /\ digit_char d <> 43.
Proof. intros. unfold digit_char. case_if as E; lia. Qed.

(** No numeral of base 16 looks like a prefix. *)
Lemma hex_prefix_numeral ds rest :
  Forall (fun d => 0 <= d < 16) ds -> ds <> [] -> digit_of (char_at rest) = None ->
  hex_prefix ((digit_char <$> ds) ++ rest) = false.
Proof.
  intros Hds Hne Hr. destruct Hds as [|d ds Hd Hds]; [done|]. unfold hex_prefix. cbn.
  destruct Hds as [|d' ds Hd' _]; cbn.
  - apply andb_false_iff. right. destruct rest as [|c rest]; [done|]. cbn in *.
    destruct (Z.eqb_spec c 120) as [->|]; [done|]. destruct (Z.eqb_spec c 88) as [->|]; done.
  - apply andb_false_iff. right. apply orb_false_iff. unfold digit_char. case_if as E; lia.
Qed.

Lemma skip_blanks_app blanks text :
  Forall (fun c => c = 32 \/ c = 9) blanks -> (char_at text <> 32 /\ char_at text <> 9) ->
  skip_blanks (blanks ++ text) = length blanks.
Proof.
  intros Hb Ht. induction Hb as [|c blanks Hc _ IH]; cbn.
  - destruct text as [|c text]; cbn in *; [done|]. rewrite !(proj2 (Z.eqb_neq _ _)) by tauto. done.
  - rewrite IH. destruct Hc as [->| ->]; done.
Qed.

(** [strtol] reads back what a number is written as: blanks, an optional sign and
    digits of any base from 2 to 36 followed by something that is no digit give the
    number, for every value of a 64-bit integer, and the end of its digits. *)
Theorem strtol_roundtrip base blanks negative ds rest :
  2 <= base <= 36 -> Forall (fun c => c = 32 \/ c = 9) blanks ->
  Forall (fun d => 0 <= d < base) ds -> ds <> [] -> digit_of (char_at rest) = None ->
  numeral base ds < 2 ^ 63 + (if negative : bool then 1 else 0) ->
  strtol (blanks ++ (if negative then [45] else []) ++ (digit_char <$> ds) ++ rest) base =
    ((if negative then - numeral base ds else numeral base ds),
     (length blanks + (if negative then 1 else 0) + length ds)%nat).
Proof.
  intros Hb Hbl Hds Hne Hr Hlt.
  set (text := (digit_char <$> ds) ++ rest).
  assert (Hhd : char_at text <> 32 /\ char_at text <> 9 /\ char_at text <> 45 /\ char_at text <> 43).
  { unfold text. destruct Hds as [|d ds Hd _]; [done|]. cbn. apply digit_char_plain. lia. }
  unfold strtol. rewrite skip_blanks_app; [|done|destruct negative; [cbn; lia|cbn [app]; tauto]].
  rewrite drop_app_length. cbv zeta. rewrite (proj2 (Z.eqb_neq base 0)) by lia.
  assert (Hsign : forall (b : bool), ((char_at ((if b then [45] else []) ++ text) =? 45) || (char_at ((if b then [45] else []) ++ text) =? 43))%bool = b).
  { intros [|]; [done|]. cbn [app]. rewrite !(proj2 (Z.eqb_neq _ _)) by tauto. done. }
  rewrite Hsign.
  assert (Hneg : (negative && (char_at ((if negative then [45] else []) ++ text) =? 45))%bool = negative) by (by destruct negative).
  rewrite Hneg. replace (if negative then tail ((if negative then [45] else []) ++ text) else (if negative then [45] else []) ++ text)
    with text by (by destruct negative).
  assert (Hpre : ((base =? 16) && hex_prefix text)%bool = false).
  { destruct (Z.eqb_spec base 16) as [->|]; [|done]. by apply hex_prefix_numeral. }
  rewrite Hpre. pose proof (numeral_grows base 0 ds ltac:(lia) ltac:(lia) Hds) as Hpos. fold (numeral base ds) in Hpos.
  unfold text. rewrite strtol_loop_numeral by (done || lia || (fold (numeral base ds); destruct negative; lia)).
  fold (numeral base ds). f_equal; [|lia]. destruct negative.
  - destruct (decide (numeral base ds = 2 ^ 63)) as [->|]; [done|].
    rewrite (swrap_small 64 (numeral base ds)), swrap_small by lia. done.
  - apply swrap_small; lia.
Qed.

(** ** Witnesses *)

(** Compares first bytes. *)
Definition by_first_byte (x y : list Z) : Z := char_at x - char_at y.

#[export] Program Instance by_first_byte_comparison : Comparison by_first_byte.
Next Obligation. intros x y. unfold by_first_byte. lia. Qed.
Next Obligation. intros x y z. unfold by_first_byte. lia. Qed.

Definition some_records : list (list Z) := [[3; 1]; [1; 2]; [3; 0]; [2; 9]].

Lemma some_records_elements : elements 2 some_records.
Proof. by repeat constructor. Qed.

Lemma qsort_correct_witness :
  qsort by_first_byte 2 4 [3; 1; 1; 2; 3; 0; 2; 9] = [1; 2; 2; 9; 3; 1; 3; 0].
Proof.
  destruct (qsort_correct by_first_byte 2 some_records some_records_elements) as (es' & E & -> & _).
  refine (eq_trans E _). reflexivity.
Defined.

Lemma bsearch_correct_witness :
  bsearch by_first_byte 2 [4; 0] [1; 2; 2; 9; 3; 1] 3 = None /\
  forall i e, [[1; 2]; [2; 9]; [3; 1]] !! i = Some e -> by_first_byte [4; 0] e <> 0.
Proof.
  split; [reflexivity|].
  apply (bsearch_correct by_first_byte 2 [4; 0] [[1; 2]; [2; 9]; [3; 1]]); [by repeat constructor|].
  intros i j a b Hij Ha Hb.
  destruct i as [|[|[|i]]]; try discriminate Ha; destruct j as [|[|[|j]]]; try discriminate Hb; try lia;
    injection Ha as <-; injection Hb as <-; unfold by_first_byte; cbn; lia.
Defined.

Lemma strtol_roundtrip_witness :
  strtol (text " -9223372036854775808;") 10 = (- 2 ^ 63, 21%nat).
Proof.
  apply (strtol_roundtrip 10 [32] true [9;2;2;3;3;7;2;0;3;6;8;5;4;7;7;5;8;0;8] [59]); try lia; try done.
  - constructor; [by left|constructor].
  - repeat (constructor; [lia|]). constructor.
Defined.
