(* ===== verification/LibcHeap.v ===== *)
(** * user/libc.c: system calls, [malloc] and its relatives

    A single thread of a process: the spin lock is always found free.  The headers that
    [malloc] keeps in front of the payloads are a map from address to header. *)

From S2P Require Import Prelude.
From S2P Require Import Libc.
From S2P Require Runtime.

(** The kernel: the number and the arguments of a system call, the process's memory. *)
Class Kernel (K : Type) := {
  syscall : Z -> list Z -> K * mem -> Z * (K * mem) }.

Record UserBlock := mkUserBlock { ub_size : Z; ub_free : bool; ub_next : Z }.

(** [sizeof(HeapBlock)] *)
Definition USER_HEADER : Z := 24.

Section libc.
Context {K : Type} `{!Kernel K}.

Record Libc := mkLibc {
  kernel : K; memory : mem; user_headers : gmap Z UserBlock; heap_blocks : Z; heap_lock : Z; nova_errno : Z }.

Notation LIBC := (st Libc).

Definition with_kernel (k : K) (m : mem) (s : Libc) : Libc :=
  mkLibc k m (user_headers s) (heap_blocks s) (heap_lock s) (nova_errno s).
Definition with_memory (f : mem -> mem) (s : Libc) : Libc :=
  mkLibc (kernel s) (f (memory s)) (user_headers s) (heap_blocks s) (heap_lock s) (nova_errno s).
Definition with_headers (f : gmap Z UserBlock -> gmap Z UserBlock) (s : Libc) : Libc :=
  mkLibc (kernel s) (memory s) (f (user_headers s)) (heap_blocks s) (heap_lock s) (nova_errno s).
Definition with_heap_blocks (a : Z) (s : Libc) : Libc :=
  mkLibc (kernel s) (memory s) (user_headers s) a (heap_lock s) (nova_errno s).
Definition with_lock (v : Z) (s : Libc) : Libc :=
  mkLibc (kernel s) (memory s) (user_headers s) (heap_blocks s) v (nova_errno s).
Definition with_errno (v : Z) (s : Libc) : Libc :=
  mkLibc (kernel s) (memory s) (user_headers s) (heap_blocks s) (heap_lock s) v.

Definition system_call (number : Z) (arguments : list Z) : LIBC Z := fun s =>
  let '(r, (k, m)) := syscall number arguments (kernel s, memory s) in (s64 r, with_kernel k m s).

Definition system_call3 (number a1 a2 a3 : Z) : LIBC Z := system_call number [a1; a2; a3].
Definition system_call6 (number a1 a2 a3 a4 a5 a6 : Z) : LIBC Z := system_call number [a1; a2; a3; a4; a5; a6].

Definition libc_result (result : Z) : LIBC Z :=
  if ((result <? 0) && (-4095 <=? result))%bool
  then modify (with_errno (s32 (- result))) ;;; ret (-1)
  else ret result.

(** ** Files and memory *)

Definition write (descriptor buffer count : Z) : LIBC Z :=
  r <- system_call3 1 descriptor buffer count ;; libc_result r.

Definition read (descriptor buffer count : Z) : LIBC Z :=
  r <- system_call3 0 descriptor buffer count ;; libc_result r.

(** The string starts at [text]; its length is found by a scan of the memory, which
    [fuel] bounds. *)
Fixpoint mem_strlen (fuel : nat) (text : Z) (m : mem) : nat :=
  match fuel with
  | O => O
  | S fuel => if m text =? 0 then O else S (mem_strlen fuel (text + 1) m)
  end.

(** [newline] is where the literal of one line feed is. *)
Definition puts (fuel : nat) (newline text : Z) : LIBC Z :=
  m <- gets memory ;;
  first <- write 1 text (Z.of_nat (mem_strlen fuel text m)) ;;
  if first <? 0 then ret (-1) else
  second <- write 1 newline 1 ;;
  ret (if second <? 0 then -1 else 0).

Definition close (descriptor : Z) : LIBC Z :=
  r <- system_call6 3 descriptor 0 0 0 0 0 ;; r <- libc_result r ;; ret (s32 r).

Definition lseek (descriptor offset origin : Z) : LIBC Z :=
  r <- system_call3 8 descriptor offset origin ;; libc_result r.

Definition openat (directory path flags : Z) : LIBC Z :=
  r <- system_call6 257 directory path flags 0x1B6 0 0 ;; r <- libc_result r ;; ret (s32 r).

Definition open (path flags : Z) : LIBC Z := openat (-100) path flags.

Definition mmap (address size protection flags descriptor offset : Z) : LIBC Z :=
  r <- system_call6 9 address size protection flags descriptor offset ;;
  if ((r <? 0) && (-4095 <=? r))%bool
  then modify (with_errno (s32 (- r))) ;;; ret (u64 (-1))
  else ret (u64 r).

Definition munmap (address size : Z) : LIBC Z :=
  r <- system_call6 11 address size 0 0 0 0 ;; r <- libc_result r ;; ret (s32 r).

Definition mprotect (address size protection : Z) : LIBC Z :=
  r <- system_call3 10 address size protection ;; r <- libc_result r ;; ret (s32 r).

Definition getpid : LIBC Z := r <- system_call6 39 0 0 0 0 0 0 ;; ret (s32 r).
Definition gettid : LIBC Z := r <- system_call6 186 0 0 0 0 0 0 ;; ret (s32 r).

Definition sched_yield : LIBC Z :=
  r <- system_call6 24 0 0 0 0 0 0 ;; r <- libc_result r ;; ret (s32 r).

Definition nanosleep (request remaining : Z) : LIBC Z :=
  r <- system_call6 35 request remaining 0 0 0 0 ;; r <- libc_result r ;; ret (s32 r).

Definition clock_gettime (clock time : Z) : LIBC Z :=
  r <- system_call6 228 clock time 0 0 0 0 ;; r <- libc_result r ;; ret (s32 r).

Definition prctl (operation a2 a3 a4 a5 : Z) : LIBC Z :=
  r <- system_call6 157 operation a2 a3 a4 a5 0 ;; r <- libc_result r ;; ret (s32 r).

(** What the two do before they spin for ever, should the kernel return. *)
Definition _exit (status : Z) : LIBC unit := system_call6 60 status 0 0 0 0 0 ;;; ret tt.
Definition exit (status : Z) : LIBC unit := system_call6 231 status 0 0 0 0 0 ;;; ret tt.

Definition abort : LIBC unit :=
  pid <- getpid ;;
  system_call6 62 pid 6 0 0 0 0 ;;;
  _exit 134.

Definition sysconf (name : Z) : Z := if name =? 30 then 4096 else -1.
Definition getauxval (type : Z) : Z := if type =? 6 then 4096 else 0.
Definition getpagesize : Z := 4096.

(** ** The heap *)

(** [while (exchange(&heap_lock, 1)) yield], at most [fuel] times. *)
Fixpoint lock_heap (fuel : nat) : LIBC unit :=
  match fuel with
  | O => ret tt
  | S fuel =>
      old <- gets heap_lock ;;
      modify (with_lock 1) ;;;
      if old =? 0 then ret tt else system_call6 24 0 0 0 0 0 0 ;;; lock_heap fuel
  end.

Definition SPINS : nat := 1000.

Definition unlock_heap : LIBC unit := modify (with_lock 0).

Definition header_at (s : Libc) (a : Z) : UserBlock := default (mkUserBlock 0 false 0) (user_headers s !! a).

(** The walk along the blocks: the first free one that is large enough, or the last
    block of the list.  [fuel] bounds the number of blocks. *)
Fixpoint find_block (fuel : nat) (size block last : Z) (s : Libc) : Z + Z :=
  match fuel with
  | O => inr last
  | S fuel =>
      if block =? 0 then inr last
      else if (ub_free (header_at s block) && (size <=? ub_size (header_at s block)))%bool then inl block
      else find_block fuel size (ub_next (header_at s block)) block s
  end.

Definition set_header (a : Z) (b : UserBlock) : LIBC unit := modify (with_headers (<[a := b]>)).

Definition malloc (size : Z) : LIBC Z :=
  let size := if size =? 0 then 1 else size in
  let size := Z.land (u64 (size + 15)) (u64 (Z.lnot 15)) in
  if u64 (-1) - USER_HEADER <? size then modify (with_errno 12) ;;; ret 0 else
  lock_heap SPINS ;;;
  s <- gets id ;;
  match find_block (S (base.size (user_headers s))) size (heap_blocks s) 0 s with
  | inl block =>
      set_header block (mkUserBlock (ub_size (header_at s block)) false (ub_next (header_at s block))) ;;;
      unlock_heap ;;;
      ret (u64 (block + USER_HEADER))
  | inr last =>
      current <- system_call6 12 0 0 0 0 0 0 ;;
      let current := u64 current in
      let requested := u64 (current + USER_HEADER + size) in
      if requested <? current then unlock_heap ;;; modify (with_errno 12) ;;; ret 0 else
      granted <- system_call6 12 requested 0 0 0 0 0 ;;
      if negb (u64 granted =? requested) then unlock_heap ;;; modify (with_errno 12) ;;; ret 0 else
      set_header current (mkUserBlock size false 0) ;;;
      (if negb (last =? 0) then
         s <- gets id ;;
         set_header last (mkUserBlock (ub_size (header_at s last)) (ub_free (header_at s last)) current)
       else modify (with_heap_blocks current)) ;;;
      unlock_heap ;;;
      ret (u64 (current + USER_HEADER))
  end.

Definition free (pointer : Z) : LIBC unit :=
  if pointer =? 0 then ret tt else
  lock_heap SPINS ;;;
  s <- gets id ;;
  let block := pointer - USER_HEADER in
  set_header block (mkUserBlock (ub_size (header_at s block)) true (ub_next (header_at s block))) ;;;
  unlock_heap.

Definition calloc (count size : Z) : LIBC Z :=
  if (negb (size =? 0) && (u64 (-1) / size <? count))%bool then modify (with_errno 12) ;;; ret 0 else
  let total := u64 (count * size) in
  pointer <- malloc total ;;
  (if negb (pointer =? 0) then modify (with_memory (memset pointer 0 (Z.to_nat total))) else ret tt) ;;;
  ret pointer.

Definition realloc (pointer size : Z) : LIBC Z :=
  if pointer =? 0 then malloc size else
  if size =? 0 then free pointer ;;; ret 0 else
  s <- gets id ;;
  let block := pointer - USER_HEADER in
  if size <=? ub_size (header_at s block) then ret pointer else
  replacement <- malloc size ;;
  if replacement =? 0 then ret 0 else
  s <- gets id ;;
  modify (with_memory (memcpy replacement pointer (Z.to_nat (ub_size (header_at s block))))) ;;;
  free pointer ;;;
  ret replacement.

(** The source string is the [n] bytes and the NUL at [text]. *)
Definition strdup (fuel : nat) (text : Z) : LIBC Z :=
  m <- gets memory ;;
  let size := Z.of_nat (mem_strlen fuel text m) + 1 in
  copy <- malloc size ;;
  (if negb (copy =? 0) then modify (with_memory (memcpy copy text (Z.to_nat size))) else ret tt) ;;;
  ret copy.

Definition strndup (text : Z) (maximum : nat) : LIBC Z :=
  m <- gets memory ;;
  let length := mem_strlen maximum text m in
  copy <- malloc (Z.of_nat length + 1) ;;
  if copy =? 0 then ret 0 else
  modify (with_memory (memcpy copy text length)) ;;;
  modify (with_memory (fun m => Runtime.mem_set m (copy + Z.of_nat length) 0)) ;;;
  ret copy.
End libc.
