(* ===== verification/LibcHeapFacts.v ===== *)
(** * user/libc.c: what [malloc], [free] and [realloc] guarantee *)

From S2P Require Import Prelude.
From S2P Require Runtime.
From S2P Require Import Libc LibcHeap.

(** What the library relies on: the [brk] system call, as Linux documents it for the
    raw call.  It answers with the program break; asked for a higher one, it grants it
    or leaves it, and the memory below stays as it is. *)
Class BrkKernel (K : Type) `{!Kernel K} := {
  brk : K -> Z;
  brk_range k : 0 < brk k < 2 ^ 64;
  brk_query k m : syscall 12 [0; 0; 0; 0; 0; 0] (k, m) = (brk k, (k, m));
  brk_grow k m r res k' m' : brk k < r < 2 ^ 64 -> syscall 12 [r; 0; 0; 0; 0; 0] (k, m) = (res, (k', m')) ->
    0 <= res < 2 ^ 64 /\ brk k' = (if res =? r then r else brk k) /\ forall x, x < brk k -> m' x = m x }.

Section heap.
Context {K : Type} `{!Kernel K} `{!BrkKernel K}.
Notation Libc := (Libc (K:=K)).

(** ** The list of blocks *)

(** The blocks [l] are linked from [start] on. *)
Fixpoint linked (h : gmap Z UserBlock) (start : Z) (l : list Z) : Prop :=
  match l with
  | [] => start = 0
  | a :: l => start = a /\ a <> 0 /\ exists b, h !! a = Some b /\ linked h (ub_next b) l
  end.

(** They lie between [lo] and [hi] in ascending order, each with its header and payload. *)
Fixpoint spaced (h : gmap Z UserBlock) (lo : Z) (l : list Z) (hi : Z) : Prop :=
  match l with
  | [] => lo <= hi
  | a :: l => lo <= a /\ exists b, h !! a = Some b /\ 0 < ub_size b /\ spaced h (a + USER_HEADER + ub_size b) l hi
  end.

Record heap_inv (s : Libc) (l : list Z) : Prop := {
  hi_linked : linked (user_headers s) (heap_blocks s) l;
  hi_spaced : spaced (user_headers s) 1 l (brk (kernel s));
  hi_dom : forall a, is_Some (user_headers s !! a) <-> a ∈ l;
  hi_lock : heap_lock s = 0 }.

(** The capacity of the allocation at a payload address. *)
Definition live (s : Libc) (p : Z) : option Z :=
  match user_headers s !! (p - USER_HEADER) with
  | Some b => if ub_free b then None else Some (ub_size b)
  | None => None
  end.

Lemma spaced_hi h lo l hi hi' : hi <= hi' -> spaced h lo l hi -> spaced h lo l hi'.
Proof.
  intros Hh. revert lo. induction l as [|a l IH]; intros lo; cbn; [lia|]. intros (? & b & ? & ? & ?). split; [done|].
  exists b. auto.
Qed.

Lemma spaced_lo h lo l hi : spaced h lo l hi -> lo <= hi.
Proof.
  revert lo. induction l as [|a l IH]; intros lo; cbn; [done|]. intros (? & b & _ & ? & H%IH). unfold USER_HEADER in *. lia.
Qed.

Lemma spaced_bounds h lo l hi a :
  spaced h lo l hi -> a ∈ l -> exists b, h !! a = Some b /\ 0 < ub_size b /\ lo <= a /\ a + USER_HEADER + ub_size b <= hi.
Proof.
  revert lo. induction l as [|c l IH]; intros lo Hs Ha; [by apply elem_of_nil in Ha|].
  destruct Hs as (Hlo & b & Hb & Hsz & Hs). apply elem_of_cons in Ha as [->|Ha].
  - exists b. apply spaced_lo in Hs. split_and!; try done; lia.
  - destruct (IH _ Hs Ha) as (b' & ? & ? & ? & ?). exists b'. unfold USER_HEADER in *. split_and!; try done; lia.
Qed.

Lemma spaced_nodup h lo l hi : spaced h lo l hi -> NoDup l.
Proof.
  revert lo. induction l as [|a l IH]; intros lo; [constructor|]. intros (_ & b & _ & ? & Hs). constructor; [|by eapply IH].
  intros Ha. destruct (spaced_bounds _ _ _ _ _ Hs Ha) as (? & _ & _ & ? & _). unfold USER_HEADER in *. lia.
Qed.

(** Two blocks do not overlap. *)
Lemma spaced_disjoint h lo l hi a a' b b' :
  spaced h lo l hi -> a ∈ l -> a' ∈ l -> a <> a' -> h !! a = Some b -> h !! a' = Some b' ->
  a + USER_HEADER + ub_size b <= a' \/ a' + USER_HEADER + ub_size b' <= a.
Proof.
  revert lo. induction l as [|c l IH]; intros lo Hs Ha Ha' Hne Hb Hb'; [by apply elem_of_nil in Ha|].
  destruct Hs as (Hlo & bc & Hc & Hsz & Hs). apply elem_of_cons in Ha as [->|Ha]; apply elem_of_cons in Ha' as [->|Ha'].
  - done.
  - left. destruct (spaced_bounds _ _ _ _ _ Hs Ha') as (? & _ & _ & ? & _). rewrite Hb in Hc. injection Hc as ->. lia.
  - right. destruct (spaced_bounds _ _ _ _ _ Hs Ha) as (? & _ & _ & ? & _). rewrite Hb' in Hc. injection Hc as ->. lia.
  - by eapply IH.
Qed.

(** Changing a flag or a link moves nothing. *)
Lemma spaced_insert h lo l hi a b b' :
  h !! a = Some b -> ub_size b' = ub_size b -> spaced h lo l hi -> spaced (<[a := b']> h) lo l hi.
Proof.
  intros Hb Hs. revert lo. induction l as [|c l IH]; intros lo; cbn; [done|]. intros (? & bc & Hc & ? & Hsp). split; [done|].
  destruct (decide (c = a)) as [->|].
  - exists b'. rewrite lookup_insert_eq. rewrite Hb in Hc. injection Hc as <-. rewrite Hs. auto.
  - exists bc. rewrite lookup_insert_ne by done. auto.
Qed.

Lemma spaced_fresh h lo l hi a b' : a ∉ l -> spaced h lo l hi -> spaced (<[a := b']> h) lo l hi.
Proof.
  revert lo. induction l as [|c l IH]; intros lo Ha; cbn; [done|]. apply not_elem_of_cons in Ha as [Hn Ha].
  intros (? & bc & Hc & ? & Hsp). split; [done|]. exists bc. rewrite lookup_insert_ne by done. auto.
Qed.

Lemma spaced_snoc h lo l hi b :
  spaced h lo l hi -> h !! hi = Some b -> 0 < ub_size b -> spaced h lo (l ++ [hi]) (hi + USER_HEADER + ub_size b).
Proof.
  revert lo. induction l as [|a l IH]; intros lo; cbn.
  - intros Hlo Hb Hsz. split; [done|]. exists b. split_and!; try done.
  - intros (? & ba & ? & ? & ?) ? ?. split; [done|]. exists ba. auto.
Qed.

Lemma linked_same h h' start l :
  (forall a, a ∈ l -> exists b b', h !! a = Some b /\ h' !! a = Some b' /\ ub_next b' = ub_next b) ->
  linked h start l -> linked h' start l.
Proof.
  revert start. induction l as [|a l IH]; intros start Hh; cbn; [done|]. intros (-> & Ha & b & Hb & Hl). split_and!; try done.
  destruct (Hh a) as (b0 & b' & H0 & H' & Hn); [by left|]. rewrite Hb in H0. injection H0 as <-. exists b'. split; [done|].
  rewrite Hn. apply IH; [|done]. intros c Hc. apply Hh. by right.
Qed.

(** ** The walk *)

(** The first free block that is large enough. *)
Definition fits (s : Libc) (n a : Z) : bool := (ub_free (header_at s a) && (n <=? ub_size (header_at s a)))%bool.

Fixpoint last_of (d : Z) (l : list Z) : Z := match l with [] => d | a :: l => last_of a l end.

Lemma find_block_spec s n fuel start l d :
  linked (user_headers s) start l -> (length l < fuel)%nat ->
  match find_block fuel n start d s with
  | inl a => a ∈ l /\ fits s n a = true
  | inr z => z = last_of d l
  end.
Proof.
  revert start fuel d. induction l as [|a l IH]; intros start fuel d Hl Hf; (destruct fuel as [|fuel]; [cbn in Hf; lia|]); cbn [find_block].
  - cbn in Hl. by rewrite Hl.
  - destruct Hl as (-> & Ha & b & Hb & Hl). rewrite (proj2 (Z.eqb_neq a 0)) by done. fold (fits s n a).
    destruct (fits s n a) eqn:E; [by split; [left|]|].
    assert (Hh : header_at s a = b) by (unfold header_at; by rewrite Hb). rewrite Hh.
    specialize (IH (ub_next b) fuel a Hl ltac:(cbn in Hf; lia)). destruct (find_block fuel n (ub_next b) a s); [|done].
    destruct IH. split; [by right|done].
Qed.

Lemma last_of_elem d l : l <> [] -> last_of d l ∈ l.
Proof.
  revert d. induction l as [|a l IH]; intros d Hl; [done|]. cbn. destruct l as [|c l]; [by left|]. right. by apply IH.
Qed.

(** A new block behind the last one. *)
Lemma linked_snoc h start l c b d :
  linked h start l -> l <> [] -> NoDup l -> c <> 0 -> c ∉ l -> h !! c = Some b -> ub_next b = 0 ->
  forall bl, h !! last_of d l = Some bl ->
  linked (<[last_of d l := mkUserBlock (ub_size bl) (ub_free bl) c]> h) start (l ++ [c]).
Proof.
  revert start d. induction l as [|a l IH]; intros start d Hl Hne Hnd Hc Hcl Hb Hn bl Hbl; [done|].
  destruct Hl as (-> & Ha & ba & Hba & Hl). apply NoDup_cons in Hnd as [Hal Hnd]. apply not_elem_of_cons in Hcl as [Hca Hcl].
  cbn [last_of app linked] in *. split; [done|]. split; [done|]. destruct l as [|a' l].
  - cbn [last_of app linked] in *. rewrite Hba in Hbl. injection Hbl as <-. eexists. rewrite lookup_insert_eq. split; [done|].
    cbn [ub_next]. split; [done|]. split; [done|]. exists b. rewrite lookup_insert_ne by done. done.
  - assert (Hla : last_of a (a' :: l) <> a).
    { intros E. apply Hal. rewrite <- E. by apply last_of_elem. }
    exists ba. rewrite lookup_insert_ne by done. split; [done|]. by apply IH.
Qed.

Lemma length_le_size (h : gmap Z UserBlock) (l : list Z) :
  NoDup l -> (forall a, is_Some (h !! a) <-> a ∈ l) -> (length l <= base.size h)%nat.
Proof.
  intros Hnd Hd. rewrite <- size_dom. rewrite <- (size_list_to_set (C:=gset Z) l) by done. apply subseteq_size.
  intros a Ha. apply elem_of_list_to_set in Ha. apply elem_of_dom, Hd, Ha.
Qed.

Lemma u64_s64 x : 0 <= x < 2 ^ 64 -> u64 (s64 x) = x.
Proof.
  intros Hx. unfold swrap, wrap. rewrite Zminus_mod, Zmod_mod, <- Zminus_mod.
  replace (x + 2 ^ (64 - 1) - 2 ^ (64 - 1)) with x by lia. by apply Z.mod_small.
Qed.

(** The size a request is rounded to. *)
Definition rounded (size : Z) : Z :=
  Z.land (u64 ((if size =? 0 then 1 else size) + 15)) (u64 (Z.lnot 15)).

Lemma rounded_spec size :
  0 <= size < 2 ^ 64 - 15 -> 0 < rounded size /\ size <= rounded size /\ rounded size <= size + 16 /\ rounded size mod 16 = 0.
Proof.
  intros Hs. unfold rounded. set (n := if size =? 0 then 1 else size).
  assert (Hn : 1 <= n < 2 ^ 64 - 15 /\ size <= n <= size + 1) by (unfold n; case_if as E; lia).
  rewrite wrap_small by lia. change 15 with (2 ^ 4 - 1). rewrite wrap_land_lnot_ones by lia. change (2 ^ 4) with 16.
  pose proof (Z.div_mod (n + 15) 16). pose proof (Z.mod_pos_bound (n + 15) 16).
  replace (n + (16 - 1)) with (n + 15) by lia.
  assert (Hm : (n + 15 - (n + 15) mod 16) mod 16 = 0).
  { replace (n + 15 - (n + 15) mod 16) with ((n + 15) / 16 * 16) by lia. apply Z_mod_mult. }
  assert (size = 0 \/ n = size) by (unfold n; case_if as E; lia). split_and!; lia.
Qed.

Lemma lock_spec s : heap_lock s = 0 -> lock_heap SPINS s = (tt, with_lock 1 s).
Proof. intros Hl. unfold SPINS. cbn [lock_heap]. unfold bind, gets, modify. by rewrite Hl. Qed.

Lemma live_header (s : Libc) p b : user_headers s !! (p - USER_HEADER) = Some b -> live s p = if ub_free b then None else Some (ub_size b).
Proof. unfold live. by intros ->. Qed.

Lemma system_brk (s : Libc) : system_call6 12 0 0 0 0 0 0 s = (s64 (brk (kernel s)), s).
Proof. unfold system_call6, system_call. rewrite brk_query. by destruct s. Qed.

(** What an allocation does. *)
Definition allocated (s : Libc) (size p : Z) (s' : Libc) : Prop :=
  (forall x, x < brk (kernel s) -> memory s' x = memory s x) /\ brk (kernel s) <= brk (kernel s') /\
  ((p = 0 /\ forall q, live s' q = live s q) \/
   (p <> 0 /\ exists n, size <= n /\ 0 < n /\ live s p = None /\ live s' p = Some n /\
      forall q, q <> p -> live s' q = live s q)).

Lemma live_grown (s s' : Libc) c n size :
  c + USER_HEADER <> 0 -> size <= n -> 0 < n -> user_headers s !! c = None ->
  (exists next, user_headers s' !! c = Some (mkUserBlock n false next)) ->
  (forall q, q <> c + USER_HEADER -> live s' q = live s q) ->
  c + USER_HEADER <> 0 /\ exists m, size <= m /\ 0 < m /\ live s (c + USER_HEADER) = None /\
    live s' (c + USER_HEADER) = Some m /\ forall q, q <> c + USER_HEADER -> live s' q = live s q.
Proof.
  intros Hc Hn Hn0 Hno [next Hs'] Hq. split; [done|]. exists n. unfold live.
  replace (c + USER_HEADER - USER_HEADER) with c by lia. by rewrite Hno, Hs'.
Qed.

Lemma malloc_spec size s l :
  heap_inv s l -> 0 <= size < 2 ^ 64 - 15 ->
  wp (malloc size) (fun p s' => (exists l', heap_inv s' l') /\ allocated s size p s') s.
Proof.
  intros Hs Hsz. destruct (rounded_spec size Hsz) as (Hr1 & Hr2 & Hr3 & Hr4).
  pose proof Hs as [Hl Hsp Hd Hk]. unfold malloc. fold (rounded size). revert Hr1 Hr2 Hr3. generalize (rounded size) as n.
  intros n Hr1 Hr2 Hr3. case_if as E0.
  { wp_steps. split; [exists l; by split|]. split_and!; [done|cbn; lia|]. left. by split. }
  wp_step. unfold wp at 1. rewrite lock_spec by done. cbn [fst snd]. wp_steps. unfold id.
  pose proof (find_block_spec (with_lock 1 s) n (S (base.size (user_headers s))) (heap_blocks s) l 0 Hl) as Hf.
  pose proof (length_le_size (user_headers s) l (spaced_nodup _ _ _ _ Hsp) Hd).
  specialize (Hf ltac:(lia)). cbn [user_headers heap_blocks with_lock].
  destruct (find_block _ n (heap_blocks s) 0 _) as [a|last].
  - (* a free block *)
    destruct Hf as [Ha Hfit]. destruct (spaced_bounds _ _ _ _ _ Hsp Ha) as (b & Hb & Hb0 & Ha1 & Ha2).
    assert (Hh : header_at (with_lock 1 s) a = b) by (unfold header_at; cbn; by rewrite Hb).
    unfold fits in Hfit. rewrite Hh in *. apply andb_true_iff in Hfit as [Hfree Hfn].
    unfold set_header, unlock_heap. wp_steps. pose proof (brk_range (kernel s)). unfold USER_HEADER in *.
    rewrite wrap_small by lia. split.
    { exists l. split; cbn.
      - eapply linked_same; [|exact Hl]. intros c Hc. destruct (Hd c) as [_ [bc Hbc]]; [done|].
        destruct (decide (c = a)) as [->|].
        + rewrite Hb in Hbc. injection Hbc as <-. exists b. eexists. rewrite lookup_insert_eq. done.
        + exists bc, bc. rewrite lookup_insert_ne by done. done.
      - by eapply spaced_insert.
      - intros c. rewrite lookup_insert_is_Some, Hd. split; [intros [->|[_ ?]]; done|]. intros Hc.
        destruct (decide (a = c)); [by left|by right].
      - done. }
    split_and!; [done|cbn; lia|]. right. split; [lia|]. exists (ub_size b).
    assert (Hp : a + 24 - USER_HEADER = a) by (unfold USER_HEADER; lia).
    split_and!; try lia.
    + rewrite (live_header s _ b); [by rewrite Hfree|by rewrite Hp].
    + erewrite live_header; [|cbn; rewrite Hp; apply lookup_insert_eq]. done.
    + intros q Hq. unfold live. cbn. rewrite lookup_insert_ne; [done|]. unfold USER_HEADER. lia.
  - (* the program break moves *)
    wp_step. unfold wp at 1. rewrite system_brk. cbn [fst snd kernel with_lock]. pose proof (brk_range (kernel s)) as Hbr.
    rewrite u64_s64 by lia. set (c := brk (kernel s)) in *. cbv zeta.
    assert (Hreq : u64 (c + USER_HEADER + n) = c + USER_HEADER + n \/ u64 (c + USER_HEADER + n) < c).
    { change (u64 (-1)) with (2 ^ 64 - 1) in E0. unfold USER_HEADER in *. destruct (decide (c + 24 + n < 2 ^ 64)).
      - left. apply wrap_small. lia.
      - right. unfold wrap. rewrite <- (Z_mod_plus_full _ (-1)), Z.mod_small by lia. lia. }
    case_if as E1.
    { unfold unlock_heap. wp_steps. split; [exists l; by split|]. split_and!; [done|cbn; lia|]. left. by split. }
    destruct Hreq as [Hreq|]; [|lia]. rewrite Hreq in *. clear E1.
    assert (Hlt : c + USER_HEADER + n < 2 ^ 64) by (rewrite <- Hreq; apply wrap_bound; lia).
    wp_step. unfold wp at 1. unfold system_call6 at 1 2, system_call. cbn [kernel memory with_lock].
    destruct (syscall 12 [c + USER_HEADER + n; 0; 0; 0; 0; 0] (kernel s, memory s)) as [res [k' m']] eqn:Esc.
    cbn [fst snd]. apply brk_grow in Esc; [|unfold USER_HEADER in *; fold c; lia]. destruct Esc as (Hres & Hb' & Hm').
    rewrite u64_s64 by done. fold c in Hb', Hm'. destruct (Z.eqb_spec res (c + USER_HEADER + n)) as [->|Hne]; cbn [negb].
    2:{ unfold unlock_heap. wp_steps. split; [exists l; split; try done; cbn; by rewrite Hb'|].
        split_and!; [done|cbn; rewrite Hb'; fold c; lia|]. left. by split. }
    assert (Hcl : c ∉ l).
    { intros Hc. destruct (spaced_bounds _ _ _ _ _ Hsp Hc) as (? & _ & ? & _ & ?). unfold USER_HEADER in *. lia. }
    assert (Hcn : user_headers s !! c = None).
    { apply eq_None_not_Some. rewrite Hd. done. }
    assert (Hlive : forall q, q <> c + USER_HEADER -> q - USER_HEADER <> c) by (intros; lia).
    assert (Hp : c + USER_HEADER - USER_HEADER = c) by lia.
    unfold set_header, unlock_heap. wp_steps. cbn [user_headers with_headers with_kernel with_lock heap_blocks].
    destruct l as [|a l].
    + (* the first block *)
      cbn in Hf. subst last. cbn [Z.eqb negb]. wp_steps. rewrite wrap_small by (unfold USER_HEADER in *; lia). split.
      { exists [c]. split; cbn.
        - split_and!; [done|lia|]. eexists. rewrite lookup_insert_eq. done.
        - split; [lia|]. exists (mkUserBlock n false 0). rewrite lookup_insert_eq, Hb'. by split_and!.
        - intros q. rewrite lookup_insert_is_Some, Hd, list_elem_of_singleton, elem_of_nil. naive_solver.
        - done. }
      split_and!; [done|cbn; rewrite Hb'; unfold USER_HEADER in *; lia|].
      right. apply (live_grown s _ c n); [unfold USER_HEADER in *; lia|lia|lia|done|eexists; apply lookup_insert_eq|].
      intros q Hq. unfold live. cbn. by rewrite lookup_insert_ne by (apply not_eq_sym, Hlive; done).
    + (* behind the last block *)
      assert (Hlast : last ∈ a :: l) by (rewrite Hf; by apply last_of_elem).
      destruct (spaced_bounds _ _ _ _ _ Hsp Hlast) as (bl & Hbl & _ & Hl0 & _).
      rewrite (proj2 (Z.eqb_neq last 0)) by lia. cbn [negb]. wp_steps. unfold id.
      assert (Hlc : last <> c) by (intros ->; done).
      match goal with |- context [header_at ?x last] => assert (Hh : header_at x last = bl)
        by (unfold header_at; cbn; rewrite lookup_insert_ne, Hbl by done; done) end.
      rewrite Hh. rewrite wrap_small by (unfold USER_HEADER in *; lia).
      set (h1 := <[c := mkUserBlock n false 0]> (user_headers s)).
      assert (Hbl1 : h1 !! last = Some bl) by (unfold h1; by rewrite lookup_insert_ne).
      assert (Hc1 : h1 !! c = Some (mkUserBlock n false 0)) by apply lookup_insert_eq. split.
      { exists ((a :: l) ++ [c]). split; cbn -[app linked spaced].
        - fold h1. rewrite Hf. rewrite Hf in Hbl1. eapply linked_snoc; try done; [|by eapply spaced_nodup|lia].
          eapply linked_same; [|exact Hl]. intros q Hq. destruct (Hd q) as [_ [bq Hbq]]; [done|]. exists bq, bq.
          unfold h1. rewrite lookup_insert_ne by (intros ->; done). done.
        - fold h1. rewrite Hb'. eapply spaced_insert; [done|done|].
          apply (spaced_snoc h1 1 (a :: l) c (mkUserBlock n false 0)); [by apply spaced_fresh|done|done].
        - intros q. fold h1. rewrite lookup_insert_is_Some. unfold h1. rewrite lookup_insert_is_Some, Hd, elem_of_app.
          rewrite (list_elem_of_singleton q c). destruct (decide (last = q)) as [<-|]; [tauto|].
          destruct (decide (c = q)); naive_solver.
        - done. }
      split_and!; [done|cbn; rewrite Hb'; unfold USER_HEADER in *; lia|].
      right. apply (live_grown s _ c n); [unfold USER_HEADER in *; lia|lia|lia|done| |].
      * eexists. cbn. fold h1. rewrite lookup_insert_ne by done. exact Hc1.
      * intros q Hq. unfold live. cbn. fold h1. destruct (decide (q - USER_HEADER = last)) as [->|].
        -- by rewrite lookup_insert_eq, Hbl.
        -- rewrite lookup_insert_ne by done. unfold h1. by rewrite lookup_insert_ne by (apply not_eq_sym, Hlive; done).
Qed.


Lemma live_block s l p n :
  heap_inv s l -> live s p = Some n ->
  exists b, user_headers s !! (p - USER_HEADER) = Some b /\ ub_free b = false /\ ub_size b = n /\ p - USER_HEADER ∈ l /\
    0 < n /\ 1 <= p - USER_HEADER /\ p + n <= brk (kernel s).
Proof.
  intros [Hl Hsp Hd _]. unfold live. destruct (user_headers s !! (p - USER_HEADER)) as [b|] eqn:Hb; [|done].
  destruct (ub_free b) eqn:Hf; [done|]. intros [= <-]. assert (Hin : p - USER_HEADER ∈ l) by (apply Hd; by rewrite Hb).
  destruct (spaced_bounds _ _ _ _ _ Hsp Hin) as (b' & Hb' & ? & ? & ?). rewrite Hb in Hb'. injection Hb' as <-.
  exists b. split_and!; try done. lia.
Qed.

Lemma live_disjoint s l p q n m :
  heap_inv s l -> live s p = Some n -> live s q = Some m -> p <> q -> p + n <= q \/ q + m <= p.
Proof.
  intros Hs Hp Hq Hne. destruct (live_block s l p n Hs Hp) as (b & Hb & _ & <- & Hin & _).
  destruct (live_block s l q m Hs Hq) as (b' & Hb' & _ & <- & Hin' & _).
  destruct (spaced_disjoint _ _ _ _ _ _ _ _ (hi_spaced s l Hs) Hin Hin' ltac:(lia) Hb Hb'); unfold USER_HEADER in *; lia.
Qed.

Lemma free_spec p n s l :
  heap_inv s l -> live s p = Some n ->
  wp (free p) (fun _ s' => heap_inv s' l /\ live s' p = None /\ (forall q, q <> p -> live s' q = live s q) /\
    memory s' = memory s /\ kernel s' = kernel s) s.
Proof.
  intros Hs Hp. destruct (live_block s l p n Hs Hp) as (b & Hb & Hf & Hn & Hin & Hn0 & Hp1 & _).
  pose proof Hs as [Hl Hsp Hd Hk]. unfold free. rewrite (proj2 (Z.eqb_neq p 0)) by (unfold USER_HEADER in *; lia).
  wp_step. unfold wp at 1. rewrite lock_spec by done. cbn [fst snd]. unfold set_header, unlock_heap. wp_steps. unfold id.
  assert (Hh : header_at (with_lock 1 s) (p - USER_HEADER) = b) by (unfold header_at; cbn; by rewrite Hb). rewrite Hh.
  split_and!; try done.
  - split; cbn; try done.
    + eapply linked_same; [|exact Hl]. intros c Hc. destruct (Hd c) as [_ [bc Hbc]]; [done|].
      destruct (decide (c = p - USER_HEADER)) as [->|].
      * rewrite Hb in Hbc. injection Hbc as <-. exists b. eexists. rewrite lookup_insert_eq. done.
      * exists bc, bc. rewrite lookup_insert_ne by done. done.
    + by eapply spaced_insert.
    + intros c. rewrite lookup_insert_is_Some, Hd. split; [intros [<-|[_ ?]]; done|]. intros Hc.
      destruct (decide (p - USER_HEADER = c)); [by left|by right].
  - unfold live. cbn. by rewrite lookup_insert_eq.
  - intros q Hq. unfold live. cbn. rewrite lookup_insert_ne; [done|]. lia.
Qed.

(** A block that is given up keeps its contents until then. *)
Lemma realloc_spec p n size s l :
  heap_inv s l -> live s p = Some n -> 0 < size < 2 ^ 64 - 15 ->
  wp (realloc p size) (fun q s' => (exists l', heap_inv s' l') /\ brk (kernel s) <= brk (kernel s') /\
    (forall r m, r <> p -> live s r = Some m -> live s' r = Some m /\ forall i, 0 <= i < m -> memory s' (r + i) = memory s (r + i)) /\
    ((q = 0 /\ live s' p = Some n /\ forall i, 0 <= i < n -> memory s' (p + i) = memory s (p + i)) \/
     (q <> 0 /\ exists m, live s' q = Some m /\ size <= m /\ forall i, 0 <= i < n -> memory s' (q + i) = memory s (p + i)))) s.
Proof.
  intros Hs Hp Hsz. destruct (live_block s l p n Hs Hp) as (b & Hb & Hf & Hn & Hin & Hn0 & Hp1 & Hpb).
  unfold realloc. rewrite (proj2 (Z.eqb_neq p 0)) by (unfold USER_HEADER in *; lia). rewrite (proj2 (Z.eqb_neq size 0)) by lia.
  wp_steps. unfold id. assert (Hh : header_at s (p - USER_HEADER) = b) by (unfold header_at; by rewrite Hb). rewrite Hh, Hn.
  case_if as E.
  { apply wp_ret. split; [by exists l|]. split; [lia|]. split; [done|]. right. split; [unfold USER_HEADER in *; lia|].
    exists n. split_and!; [done|lia|done]. }
  wp_step. wp_call malloc_spec; [done|lia|]. intros q s1 [[l1 Hs1] (Hm1 & Hk1 & Hcase)].
  assert (Hsame : forall r m, live s r = Some m -> forall i, 0 <= i < m -> memory s1 (r + i) = memory s (r + i)).
  { intros r m Hr i Hi. apply Hm1. destruct (live_block s l r m Hs Hr) as (_ & _ & _ & _ & _ & _ & _ & ?). lia. }
  destruct Hcase as [[-> Hlive]|(Hq & m & Hm & Hm0 & Hq0 & Hq1 & Hlive)].
  { cbn [Z.eqb]. wp_steps. split; [by exists l1|]. split; [done|]. split.
    - intros r k _ Hr. rewrite Hlive. split; [done|by apply Hsame].
    - left. rewrite Hlive. split_and!; [done|done|by apply Hsame]. }
  rewrite (proj2 (Z.eqb_neq q 0)) by done. wp_steps. unfold id.
  assert (Hpq : p <> q) by (intros ->; congruence).
  assert (Hp' : live s1 p = Some n) by (by rewrite Hlive).
  destruct (live_block s1 l1 p n Hs1 Hp') as (b1 & Hb1 & _ & Hn1 & _).
  assert (Hh1 : header_at s1 (p - USER_HEADER) = b1) by (unfold header_at; by rewrite Hb1). rewrite Hh1, Hn1.
  assert (Hdis := live_disjoint s1 l1 p q n m Hs1 Hp' Hq1 Hpq).
  set (s2 := with_memory _ s1).
  assert (Hs2 : heap_inv s2 l1) by (by destruct Hs1).
  assert (Hcopy : forall x, memory s2 x = if (q <=? x) && (x <? q + n) then memory s1 (p + (x - q)) else memory s1 x).
  { intros x. unfold s2. cbn. change memcpy with Runtime.memcpy. rewrite Runtime.memcpy_spec; [by rewrite Z2Nat.id by lia|].
    rewrite Z2Nat.id by lia. lia. }
  wp_call (free_spec p n s2 l1); [done|done|]. intros _ s3 (Hs3 & Hp3 & Hl3 & Hm3 & Hk3). apply wp_ret. rewrite Hk3.
  split; [by exists l1|]. split; [done|]. split.
  - intros r k Hr Hrk. assert (Hrq : r <> q) by (intros ->; congruence).
    rewrite Hl3 by done. change (live s2 r) with (live s1 r). rewrite Hlive by done. split; [done|].
    intros i Hi. rewrite Hm3, Hcopy. rewrite <- (Hsame r k) by done.
    destruct (live_disjoint s1 l1 r q k m Hs1) as [?|?]; [by rewrite Hlive|done|done|..].
    + rewrite (proj2 (Z.leb_gt q (r + i))) by lia. done.
    + rewrite (proj2 (Z.ltb_ge (r + i) (q + n))) by lia. by rewrite andb_false_r.
  - right. split; [done|]. exists m. rewrite Hl3 by done. split_and!; [done|done|].
    intros i Hi. rewrite Hm3, Hcopy. rewrite (proj2 (Z.leb_le q (q + i))), (proj2 (Z.ltb_lt (q + i) (q + n))) by lia.
    cbn [andb]. replace (p + (q + i - q)) with (p + i) by lia. by apply Hsame with n.
Qed.

Lemma calloc_spec count size s l :
  heap_inv s l -> 0 <= count -> 0 <= size -> count * size < 2 ^ 64 - 15 ->
  wp (calloc count size) (fun p s' => (exists l', heap_inv s' l') /\ brk (kernel s) <= brk (kernel s') /\
    (p <> 0 -> (exists n, live s' p = Some n /\ count * size <= n) /\
       forall i, 0 <= i < count * size -> memory s' (p + i) = 0)) s.
Proof.
  intros Hs Hc Hsz Hlt. unfold calloc. case_if as E.
  { wp_steps. split; [exists l; by destruct Hs|]. split; [cbn; lia|done]. }
  rewrite wrap_small by lia. wp_step. wp_call malloc_spec; [done|lia|]. intros p s1 [[l1 Hs1] (_ & Hk & Hcase)]. wp_step.
  destruct Hcase as [[-> Hlive]|(Hp & n & Hn & _ & _ & Hp1 & _)].
  { cbn [Z.eqb negb]. wp_steps. split; [by exists l1|]. by split. }
  rewrite (proj2 (Z.eqb_neq p 0)) by done. cbn [negb]. wp_steps. split; [exists l1; by destruct Hs1|]. split; [done|].
  intros _. split; [by exists n|]. intros i Hi. cbn. change memset with Runtime.memset. rewrite Runtime.memset_spec.
  by rewrite Z2Nat.id, (proj2 (Z.leb_le p (p + i))), (proj2 (Z.ltb_lt (p + i) (p + count * size))) by lia.
Qed.

(** ** Theorems *)

(** What a program does to its heap: calls, and stores of its own into its memory.
    Only live pointers are released or resized. *)
Inductive heap_reach : Libc -> Prop :=
| reach_start k m errno : heap_reach (mkLibc k m ∅ 0 0 errno)
| reach_store s f : heap_reach s -> heap_reach (with_memory f s)
| reach_malloc s size : heap_reach s -> 0 <= size < 2 ^ 64 - 15 -> heap_reach (malloc size s).2
| reach_calloc s count size : heap_reach s -> 0 <= count -> 0 <= size -> count * size < 2 ^ 64 - 15 ->
    heap_reach (calloc count size s).2
| reach_free s p n : heap_reach s -> live s p = Some n -> heap_reach (free p s).2
| reach_realloc s p n size : heap_reach s -> live s p = Some n -> 0 < size < 2 ^ 64 - 15 -> heap_reach (realloc p size s).2.

Lemma heap_reach_inv s : heap_reach s -> exists l, heap_inv s l.
Proof.
  induction 1 as [k m e|s f _ [l IH]|s z _ [l IH] Hz|s c z _ [l IH] Hc Hz Hcz|s p n _ [l IH] Hp|s p n z _ [l IH] Hp Hz].
  - exists []. split; cbn; try done; [pose proof (brk_range k); lia|]. intros a. rewrite lookup_empty, elem_of_nil.
    split; [by intros [? ?]|done].
  - exists l. by destruct IH.
  - by apply (malloc_spec z s l).
  - by apply (calloc_spec c z s l).
  - exists l. by apply (free_spec p n s l).
  - by apply (realloc_spec p n z s l).
Qed.

(** [C33] For requests below 2^64-15 bytes (beyond that the rounding wraps, see [malloc_wraps]): in
    every heap a program can reach with them, the live allocations are disjoint and lie
    below the program break, and [malloc] either fails and changes no allocation or
    returns a new one of at least the requested size, leaving the memory of all others
    as it was. *)
Theorem libc_heap_sound s size :
  heap_reach s -> 0 <= size < 2 ^ 64 - 15 ->
  (forall p n, live s p = Some n -> 0 < p /\ p + n <= brk (kernel s)) /\
  (forall p q n m, live s p = Some n -> live s q = Some m -> p <> q -> p + n <= q \/ q + m <= p) /\
  allocated s size (malloc size s).1 (malloc size s).2.
Proof.
  intros Hr Hsz. destruct (heap_reach_inv s Hr) as [l Hs]. split_and!.
  - intros p n Hp. destruct (live_block s l p n Hs Hp) as (_ & _ & _ & _ & _ & _ & ? & ?). unfold USER_HEADER in *. lia.
  - intros p q n m. by apply live_disjoint with l.
  - by apply (malloc_spec size s l).
Qed.

(** [realloc] keeps the contents: the result holds the bytes of the old block and
    at least the requested size, the other allocations keep their place and contents,
    and when there is no memory the old block stays as it was. *)
Theorem realloc_preserves s p n size :
  heap_reach s -> live s p = Some n -> 0 < size < 2 ^ 64 - 15 ->
  let q := (realloc p size s).1 in
  let s' := (realloc p size s).2 in
  (forall r m, r <> p -> live s r = Some m -> live s' r = Some m /\ forall i, 0 <= i < m -> memory s' (r + i) = memory s (r + i)) /\
  ((q = 0 /\ live s' p = Some n /\ forall i, 0 <= i < n -> memory s' (p + i) = memory s (p + i)) \/
   (q <> 0 /\ exists m, live s' q = Some m /\ size <= m /\ forall i, 0 <= i < n -> memory s' (q + i) = memory s (p + i))).
Proof.
  intros Hr Hp Hsz. destruct (heap_reach_inv s Hr) as [l Hs].
  destruct (realloc_spec p n size s l Hs Hp Hsz) as (_ & _ & H1 & H2). by split.
Qed.

End heap.

(** ** A kernel for the witnesses *)

(** A process whose break starts at a page boundary and may grow to 2 MiB. *)
Definition PlainKernel : Type := Z.

Definition break_of (k : PlainKernel) : Z := if (0x1000 <=? k) && (k <=? 0x200000) then k else 0x1000.

#[export] Instance plain_kernel : Kernel PlainKernel := {|
  syscall := fun number arguments w =>
    let '(k, m) := w in
    match arguments with
    | r :: _ =>
        if (number =? 12) && (break_of k <? r) && (r <=? 0x200000) then (r, (r, m)) else (break_of k, (k, m))
    | [] => (break_of k, (k, m))
    end |}.

#[export] Program Instance plain_brk : BrkKernel PlainKernel := {| brk := break_of |}.
Next Obligation. intros k. unfold break_of. case_if as E; lia. Qed.
Next Obligation.
  intros k m. cbn. assert (H : break_of k <? 0 = false) by (unfold break_of; case_if as E; lia). by rewrite H.
Qed.
Next Obligation.
  intros k m r res k' m' Hr. cbn. rewrite (proj2 (Z.ltb_lt _ _)) by lia. cbn [andb].
  assert (0 < break_of k <= 0x200000) by (unfold break_of; case_if as E; lia).
  destruct (Z.leb_spec r 0x200000); intros [= <- <- <-].
  - split_and!; [lia|lia| |done]. rewrite Z.eqb_refl. unfold break_of at 1.
    assert (0x1000 <= break_of k) by (unfold break_of; case_if as E; lia).
    by rewrite (proj2 (Z.leb_le _ _)), (proj2 (Z.leb_le _ _)) by lia.
  - split_and!; [lia|lia| |done]. rewrite (proj2 (Z.eqb_neq _ _)) by lia. done.
Qed.

Definition fresh_process : Libc (K:=PlainKernel) := mkLibc 0x1000 (fun _ => 0) ∅ 0 0 0.

Lemma libc_heap_sound_witness :
  heap_reach fresh_process /\ allocated fresh_process 100 0x1018 (malloc 100 fresh_process).2.
Proof.
  assert (Hr : heap_reach fresh_process) by apply reach_start. split; [exact Hr|].
  destruct (libc_heap_sound fresh_process 100 Hr ltac:(lia)) as (_ & _ & H). exact H.
Defined.

Definition one_allocation : Libc (K:=PlainKernel) := (malloc 16 fresh_process).2.

Lemma realloc_preserves_witness :
  live one_allocation 0x1018 = Some 16 /\ exists m, live (realloc 0x1018 40 one_allocation).2 0x1040 = Some m /\ 40 <= m.
Proof.
  assert (Hr : heap_reach one_allocation) by (apply reach_malloc; [apply reach_start|lia]).
  assert (Hl : live one_allocation 0x1018 = Some 16) by (by vm_compute). split; [exact Hl|].
  destruct (realloc_preserves one_allocation 0x1018 16 40 Hr Hl ltac:(lia)) as [_ [(Hq & _)|(_ & m & Hm & Hs & _)]].
  - exfalso. vm_compute in Hq. discriminate Hq.
  - exists m. split; [|exact Hs]. assert (E : (realloc 0x1018 40 one_allocation).1 = 0x1040) by (by vm_compute).
    rewrite E in Hm. exact Hm.
Defined.

(** The header is 24 bytes long, so that a payload behind a 16-byte aligned header is
    not aligned to 16 bytes, although sizes are rounded up to multiples of 16. *)
Example malloc_misaligned : (malloc 16 fresh_process).1 mod 16 = 8.
Proof. by vm_compute. Qed.

(** The rounding wraps for the largest sizes: the request succeeds with an empty block. *)
Example malloc_wraps :
  (malloc (2 ^ 64 - 1) fresh_process).1 = 0x1018 /\ live (malloc (2 ^ 64 - 1) fresh_process).2 0x1018 = Some 0.
Proof. by vm_compute. Qed.
