(* ===== verification/Vm.v ===== *)
(** * kernel/vm.c: user address spaces

    Physical memory is divided by use: the [VmFrame] objects, the 4096 bytes of each
    page of a frame, and the 64-bit words of page tables, each at its address.  The
    arrays of a [VmSpace] that are mostly zero are maps; a page record that is absent is
    one with [used == false].  The translation cache of the processor is not modelled,
    so that [invlpg] and writes of [cr3] have no effect. *)

From S2P Require Import Prelude Heap HeapFacts Interfaces.

Definition VM_PAGE_SIZE : Z := 4096.
Definition VM_USER_BASE : Z := 0x40000000.
Definition VM_USER_MMAP_BASE : Z := 0x1000000000.
Definition VM_USER_MMAP_LIMIT : Z := 0x700000000000.
Definition VM_USER_STACK_TOP : Z := 0x7FFFFFFFE000.
Definition VM_USER_STACK_SIZE : Z := 0x00100000.
Definition VM_USER_STACK_BASE : Z := VM_USER_STACK_TOP - VM_USER_STACK_SIZE.
Definition VM_CANONICAL_LIMIT : Z := 0x800000000000.
Definition VM_MAX_PAGES : Z := 131072.
Definition VM_MAX_TABLES : Z := 1024.
Definition VM_PAGE_HASH_SIZE : Z := 262144.

Definition VM_PROT_READ : Z := 0x01.
Definition VM_PROT_WRITE : Z := 0x02.
Definition VM_PROT_EXEC : Z := 0x04.

Definition VM_FAULT_UNHANDLED : Z := 0.
Definition VM_FAULT_COW : Z := 1.
Definition VM_FAULT_DEMAND : Z := 2.

Definition BOOT_PML4 : Z := 0x70000.
Definition BOOT_DIRECTORIES : Z := 0x72000.
Definition PAGE_PRESENT : Z := 0x001.
Definition PAGE_WRITE : Z := 0x002.
Definition PAGE_USER : Z := 0x004.
Definition PAGE_HUGE : Z := 0x080.
Definition PAGE_NX : Z := Z.shiftl 1 63.
Definition PAGE_ADDRESS : Z := 0x000FFFFFFFFFF000.

(** [sizeof(VmFrame)] *)
Definition FRAME_SIZE : Z := 24.

Record VmFrame := mkFrame { data : Z; allocation : Z; references : Z }.

Record VmPage := mkPage {
  virtual_address : Z; frame : Z; protection : Z; copy_on_write : bool; shared : bool }.

Record VmSpace := mkSpace {
  pml4 : Z; bootstrap_pdpt : Z; bootstrap_directories : Z; root_allocation : Z;
  tables : list (Z * Z);          (** [allocated_tables] with [table_allocations] *)
  free_page_hint : Z; page_lookup : gmap Z Z; pages : gmap Z VmPage }.

Definition zero_space : VmSpace := mkSpace 0 0 0 0 [] 0 ∅ ∅.

Definition with_root (a b c d : Z) (s : VmSpace) : VmSpace :=
  mkSpace a b c d (tables s) (free_page_hint s) (page_lookup s) (pages s).
Definition with_tables (l : list (Z * Z)) (s : VmSpace) : VmSpace :=
  mkSpace (pml4 s) (bootstrap_pdpt s) (bootstrap_directories s) (root_allocation s) l
    (free_page_hint s) (page_lookup s) (pages s).
Definition with_hint (v : Z) (s : VmSpace) : VmSpace :=
  mkSpace (pml4 s) (bootstrap_pdpt s) (bootstrap_directories s) (root_allocation s) (tables s)
    v (page_lookup s) (pages s).
Definition with_lookup (m : gmap Z Z) (s : VmSpace) : VmSpace :=
  mkSpace (pml4 s) (bootstrap_pdpt s) (bootstrap_directories s) (root_allocation s) (tables s)
    (free_page_hint s) m (pages s).
Definition with_pages (m : gmap Z VmPage) (s : VmSpace) : VmSpace :=
  mkSpace (pml4 s) (bootstrap_pdpt s) (bootstrap_directories s) (root_allocation s) (tables s)
    (free_page_hint s) (page_lookup s) m.

(** ** Addresses *)

Definition align_down (value : Z) : Z := Z.land value (u64 (Z.lnot (VM_PAGE_SIZE - 1))).

Definition align_up (value : Z) : Z := Z.land (u64 (value + VM_PAGE_SIZE - 1)) (u64 (Z.lnot (VM_PAGE_SIZE - 1))).

Definition canonical_user_address (address : Z) : bool :=
  (address <? VM_CANONICAL_LIMIT) &&
  (((VM_USER_BASE <=? address) && (address <? VM_USER_MMAP_LIMIT)) ||
   ((VM_USER_STACK_BASE <=? address) && (address <? VM_USER_STACK_TOP))).

(** [address & (VM_PAGE_SIZE - 1)] *)
Definition page_offset (address : Z) : Z := Z.land address (VM_PAGE_SIZE - 1).

(** ** The lookup table of page records

    A slot holds the index of a record plus one, 0 when it was never used and -1 when
    its record was removed. *)

Definition slot_value (s : VmSpace) (slot : Z) : Z := default 0 (page_lookup s !! slot).

Definition hash_slot (page_address : Z) : Z :=
  Z.land (u64 (Z.shiftr page_address 12 * 2654435761)) (VM_PAGE_HASH_SIZE - 1).

Definition next_slot (slot : Z) : Z := Z.land (slot + 1) (VM_PAGE_HASH_SIZE - 1).

Fixpoint find_probe (probes : nat) (page_address slot : Z) (s : VmSpace) : option Z :=
  match probes with
  | O => None
  | S probes =>
      let value := slot_value s slot in
      if value =? 0 then None
      else if (0 <? value) && match pages s !! (value - 1) with
                              | Some page => virtual_address page =? page_address
                              | None => false
                              end
      then Some (value - 1)
      else find_probe probes page_address (next_slot slot) s
  end.

(** The index of the record of the page that holds [address]. *)
Definition find_page (address : Z) (s : VmSpace) : option Z :=
  let page_address := align_down address in
  find_probe (Z.to_nat VM_PAGE_HASH_SIZE) page_address (hash_slot page_address) s.

Fixpoint reserve_probe (n : nat) (offset : Z) (s : VmSpace) : option Z * VmSpace :=
  match n with
  | O => (None, s)
  | S n =>
      let index := (free_page_hint s + offset) mod VM_MAX_PAGES in
      match pages s !! index with
      | None => (Some index, with_hint ((index + 1) mod VM_MAX_PAGES) s)
      | Some _ => reserve_probe n (offset + 1) s
      end
  end.

Definition reserve_page_record (s : VmSpace) : option Z * VmSpace := reserve_probe (Z.to_nat VM_MAX_PAGES) 0 s.

(** [tombstone] is the first removed slot met, or -1. *)
Fixpoint insert_probe (probes : nat) (index slot tombstone : Z) (s : VmSpace) : bool * VmSpace :=
  match probes with
  | O => (false, s)
  | S probes =>
      let value := slot_value s slot in
      let tombstone := if (value =? -1) && (tombstone <? 0) then slot else tombstone in
      if value =? 0 then
        let slot := if 0 <=? tombstone then tombstone else slot in
        (true, with_lookup (<[slot := index + 1]> (page_lookup s)) s)
      else insert_probe probes index (next_slot slot) tombstone s
  end.

Definition insert_page_lookup (index : Z) (s : VmSpace) : bool * VmSpace :=
  match pages s !! index with
  | Some page => insert_probe (Z.to_nat VM_PAGE_HASH_SIZE) index (hash_slot (virtual_address page)) (-1) s
  | None => (false, s)
  end.

Fixpoint remove_probe (probes : nat) (index slot : Z) (s : VmSpace) : VmSpace :=
  match probes with
  | O => s
  | S probes =>
      let value := slot_value s slot in
      if value =? 0 then s
      else if (0 <? value) && (value - 1 =? index) then
        let s := with_lookup (<[slot := -1]> (page_lookup s)) s in
        if index <? free_page_hint s then with_hint index s else s
      else remove_probe probes index (next_slot slot) s
  end.

Definition remove_page_lookup (index : Z) (s : VmSpace) : VmSpace :=
  match pages s !! index with
  | Some page => remove_probe (Z.to_nat VM_PAGE_HASH_SIZE) index (hash_slot (virtual_address page)) s
  | None => s
  end.

Definition page_flags (page : VmPage) : Z :=
  let flags := Z.lor PAGE_PRESENT PAGE_USER in
  let flags := if has (protection page) VM_PROT_WRITE && negb (copy_on_write page) then Z.lor flags PAGE_WRITE else flags in
  if has (protection page) VM_PROT_EXEC then flags else Z.lor flags PAGE_NX.

(** ** Physical memory *)

Section vm.
Context {H : Type} `{!Allocator H}.

Record VmWorld := mkWorld {
  vw_heap : H; vw_frames : gmap Z VmFrame; vw_pages : gmap Z (list Z); vw_words : gmap Z Z }.

(** The memory and the address space an operation works on. *)
Record VmState := mkVm { world : VmWorld; space : VmSpace }.

Notation VM := (st VmState).

Definition with_vm_heap (h : H) (w : VmWorld) : VmWorld := mkWorld h (vw_frames w) (vw_pages w) (vw_words w).
Definition with_frames (m : gmap Z VmFrame) (w : VmWorld) : VmWorld := mkWorld (vw_heap w) m (vw_pages w) (vw_words w).
Definition with_page_data (m : gmap Z (list Z)) (w : VmWorld) : VmWorld := mkWorld (vw_heap w) (vw_frames w) m (vw_words w).
Definition with_words (m : gmap Z Z) (w : VmWorld) : VmWorld := mkWorld (vw_heap w) (vw_frames w) (vw_pages w) m.

Definition on_world {A} (op : st VmWorld A) : VM A := fun s => let '(a, w) := op (world s) in (a, mkVm w (space s)).
Definition on_space {A} (op : VmSpace -> A * VmSpace) : VM A := fun s => let '(a, sp) := op (space s) in (a, mkVm (world s) sp).
Definition edit_space (f : VmSpace -> VmSpace) : VM unit := modify (fun s => mkVm (world s) (f (space s))).

Definition vm_alloc (n : Z) : st VmWorld Z := fun w => let '(p, h) := al_alloc n (vw_heap w) in (p, with_vm_heap h w).
Definition vm_free (p : Z) : st VmWorld unit := modify (fun w => with_vm_heap (al_free p (vw_heap w)) w).

Definition word_at (w : VmWorld) (a : Z) : Z := default 0 (vw_words w !! a).
Definition set_word (a v : Z) : st VmWorld unit := modify (fun w => with_words (<[a := v]> (vw_words w)) w).

Definition frame_at (w : VmWorld) (f : Z) : VmFrame := default (mkFrame 0 0 0) (vw_frames w !! f).
Definition data_at (w : VmWorld) (a : Z) : list Z := default [] (vw_pages w !! a).

(** [n] words from [a] on become zero. *)
Fixpoint clear_words (n : nat) (a : Z) : st VmWorld unit :=
  match n with
  | O => ret tt
  | S n => set_word a 0 ;;; clear_words n (a + 8)
  end.

Fixpoint copy_words (n : nat) (destination source : Z) : st VmWorld unit :=
  match n with
  | O => ret tt
  | S n =>
      v <- gets (fun w => word_at w source) ;;
      set_word destination v ;;;
      copy_words n (destination + 8) (source + 8)
  end.

(** The aligned address and the allocation it lies in. *)
Definition aligned_heap_alloc (size alignment : Z) : st VmWorld (option (Z * Z)) :=
  if (alignment =? 0) || negb (Z.land alignment (alignment - 1) =? 0) then ret None else
  raw <- vm_alloc (u64 (size + alignment - 1)) ;;
  if raw =? 0 then ret None else
  ret (Some (Z.land (u64 (raw + alignment - 1)) (u64 (Z.lnot (alignment - 1))), raw)).

(** ** Frames *)

Definition vm_frame_create : st VmWorld Z :=
  f <- vm_alloc FRAME_SIZE ;;
  if f =? 0 then ret 0 else
  modify (fun w => with_frames (<[f := mkFrame 0 0 0]> (vw_frames w)) w) ;;;
  block <- aligned_heap_alloc VM_PAGE_SIZE VM_PAGE_SIZE ;;
  match block with
  | None =>
      vm_free f ;;;
      modify (fun w => with_frames (delete f (vw_frames w)) w) ;;;
      ret 0
  | Some (d, raw) =>
      modify (fun w => with_page_data (<[d := replicate (Z.to_nat VM_PAGE_SIZE) 0]> (vw_pages w)) w) ;;;
      modify (fun w => with_frames (<[f := mkFrame d raw 1]> (vw_frames w)) w) ;;;
      ret f
  end.

Definition set_references (f v : Z) : st VmWorld unit :=
  modify (fun w => with_frames (<[f := mkFrame (data (frame_at w f)) (allocation (frame_at w f)) v]> (vw_frames w)) w).

Definition vm_frame_retain (f : Z) : st VmWorld unit :=
  if f =? 0 then ret tt else
  w <- gets id ;;
  set_references f (u32 (references (frame_at w f) + 1)).

(** The frame and its page end with their memory. *)
Definition vm_frame_release (f : Z) : st VmWorld unit :=
  if f =? 0 then ret tt else
  w <- gets id ;;
  let r := references (frame_at w f) in
  if r =? 0 then ret tt else
  set_references f (u32 (r - 1)) ;;;
  if negb (u32 (r - 1) =? 0) then ret tt else
  vm_free (allocation (frame_at w f)) ;;;
  vm_free f ;;;
  modify (fun w' => with_page_data (delete (data (frame_at w f)) (vw_pages w')) w') ;;;
  modify (fun w' => with_frames (delete f (vw_frames w')) w').

(** ** Page tables *)

Definition TABLE_FLAGS : Z := Z.lor (Z.lor PAGE_PRESENT PAGE_WRITE) PAGE_USER.

Fixpoint link_directories (n : nat) (index : Z) (sp : VmSpace) : st VmWorld unit :=
  match n with
  | O => ret tt
  | S n =>
      set_word (bootstrap_pdpt sp + index * 8) (Z.lor (bootstrap_directories sp + index * 512 * 8) TABLE_FLAGS) ;;;
      link_directories n (index + 1) sp
  end.

Definition initialize_root : VM unit :=
  sp <- gets space ;;
  on_world (clear_words (Z.to_nat (6 * 512)) (pml4 sp)) ;;;
  on_world (copy_words (Z.to_nat 512) (pml4 sp) BOOT_PML4) ;;;
  on_world (copy_words (Z.to_nat (4 * 512)) (bootstrap_directories sp) BOOT_DIRECTORIES) ;;;
  on_world (set_word (pml4 sp) (Z.lor (bootstrap_pdpt sp) TABLE_FLAGS)) ;;;
  on_world (link_directories 4 0 sp).

Definition vm_space_create : VM bool :=
  edit_space (fun _ => zero_space) ;;;
  block <- on_world (aligned_heap_alloc (6 * VM_PAGE_SIZE) VM_PAGE_SIZE) ;;
  match block with
  | None => ret false
  | Some (t, raw) =>
      edit_space (with_root t (t + VM_PAGE_SIZE) (t + 2 * VM_PAGE_SIZE) raw) ;;;
      initialize_root ;;;
      ret true
  end.

Definition allocate_table : VM Z :=
  sp <- gets space ;;
  if VM_MAX_TABLES <=? Z.of_nat (length (tables sp)) then ret 0 else
  block <- on_world (aligned_heap_alloc VM_PAGE_SIZE VM_PAGE_SIZE) ;;
  match block with
  | None => ret 0
  | Some (t, raw) =>
      on_world (clear_words (Z.to_nat 512) t) ;;;
      edit_space (fun sp => with_tables (tables sp ++ [(t, raw)]) sp) ;;;
      ret t
  end.

(** The table behind the entry at address [entry]; 0 is [NULL]. *)
Definition next_table (entry : Z) (create : bool) : VM Z :=
  w <- gets world ;;
  let v := word_at w entry in
  if has v PAGE_PRESENT then
    if has v PAGE_HUGE then ret 0 else ret (Z.land v PAGE_ADDRESS)
  else if negb create then ret 0 else
  table <- allocate_table ;;
  if table =? 0 then ret 0 else
  on_world (set_word entry (Z.lor table TABLE_FLAGS)) ;;;
  ret table.

(** [&table[(address >> shift) & 0x1FF]] *)
Definition entry_of (table address shift : Z) : Z := table + 8 * Z.land (Z.shiftr address shift) 0x1FF.

(** The address of the leaf entry. *)
Definition walk_page_entry (address : Z) (create : bool) : VM Z :=
  sp <- gets space ;;
  if (pml4 sp =? 0) || negb (canonical_user_address address) then ret 0 else
  pdpt <- next_table (entry_of (pml4 sp) address 39) create ;;
  if pdpt =? 0 then ret 0 else
  directory <- next_table (entry_of pdpt address 30) create ;;
  if directory =? 0 then ret 0 else
  let directory_entry := entry_of directory address 21 in
  w <- gets world ;;
  (if has (word_at w directory_entry) PAGE_HUGE && create then on_world (set_word directory_entry 0) else ret tt) ;;;
  table <- next_table directory_entry create ;;
  if table =? 0 then ret 0 else ret (entry_of table address 12).

(** ** Mapping *)

Definition set_page (index : Z) (page : VmPage) : VM unit :=
  edit_space (fun sp => with_pages (<[index := page]> (pages sp)) sp).

Definition clear_page (index : Z) : VM unit := edit_space (fun sp => with_pages (delete index (pages sp)) sp).

Definition install_page (address f prot : Z) (cow share : bool) : VM bool :=
  record <- on_space reserve_page_record ;;
  entry <- walk_page_entry address true ;;
  match record with
  | None => ret false
  | Some index =>
      if entry =? 0 then ret false else
      let page := mkPage address f prot cow share in
      set_page index page ;;;
      inserted <- on_space (insert_page_lookup index) ;;
      if negb inserted then clear_page index ;;; ret false else
      w <- gets world ;;
      on_world (set_word entry (Z.lor (data (frame_at w f)) (page_flags page))) ;;;
      ret true
  end.

(** The loop over the records from [index] on. *)
Fixpoint release_pages (n : nat) (index : Z) : VM unit :=
  match n with
  | O => ret tt
  | S n =>
      sp <- gets space ;;
      match pages sp !! index with
      | None => release_pages n (index + 1)
      | Some page =>
          on_world (vm_frame_release (frame page)) ;;;
          clear_page index ;;;
          release_pages n (index + 1)
      end
  end.

Fixpoint free_tables (l : list (Z * Z)) : st VmWorld unit :=
  match l with
  | [] => ret tt
  | (_, raw) :: l => vm_free raw ;;; free_tables l
  end.

Definition vm_space_reset_user : VM unit :=
  sp <- gets space ;;
  if pml4 sp =? 0 then ret tt else
  release_pages (Z.to_nat VM_MAX_PAGES) 0 ;;;
  edit_space (with_lookup ∅) ;;;
  edit_space (with_hint 0) ;;;
  on_world (free_tables (tables sp)) ;;;
  edit_space (with_tables []) ;;;
  initialize_root.

Definition vm_space_destroy : VM unit :=
  vm_space_reset_user ;;;
  sp <- gets space ;;
  (if negb (root_allocation sp =? 0) then on_world (vm_free (root_allocation sp)) else ret tt) ;;;
  edit_space (fun _ => zero_space).

(** The number of pages between two page addresses. *)
Definition page_count (first end_ : Z) : nat := Z.to_nat ((end_ - first) / VM_PAGE_SIZE).

Fixpoint all_mapped (n : nat) (page_address : Z) (sp : VmSpace) : bool :=
  match n with
  | O => true
  | S n => match find_page page_address sp with
           | None => false
           | Some _ => all_mapped n (page_address + VM_PAGE_SIZE) sp
           end
  end.

(** Changes the record at [index] and writes its entry again. *)
Definition update_page (index : Z) (page : VmPage) (page_address : Z) : VM bool :=
  set_page index page ;;;
  entry <- walk_page_entry page_address false ;;
  if entry =? 0 then ret false else
  w <- gets world ;;
  on_world (set_word entry (Z.lor (data (frame_at w (frame page))) (page_flags page))) ;;;
  ret true.

(** The record at an index; the callers have found it. *)
Definition page_at (sp : VmSpace) (index : Z) : VmPage := default (mkPage 0 0 0 false false) (pages sp !! index).

Fixpoint protect_pages (n : nat) (page_address prot : Z) : VM bool :=
  match n with
  | O => ret true
  | S n =>
      s <- gets id ;;
      match find_page page_address (space s) with
      | None => ret false
      | Some index =>
          let page := page_at (space s) index in
          let cow := negb (shared page) && has prot VM_PROT_WRITE && (1 <? references (frame_at (world s) (frame page))) in
          ok <- update_page index (mkPage (virtual_address page) (frame page) prot cow (shared page)) page_address ;;
          if negb ok then ret false else protect_pages n (page_address + VM_PAGE_SIZE) prot
      end
  end.

Definition vm_protect (address size prot : Z) : VM bool :=
  if (size =? 0) || (u64 (address + size) <? address) then ret false else
  let first := align_down address in
  let end_ := align_up (u64 (address + size)) in
  sp <- gets space ;;
  if negb (all_mapped (page_count first end_) first sp) then ret false else
  protect_pages (page_count first end_) first prot.

Definition vm_map_page (address prot : Z) : VM bool :=
  sp <- gets space ;;
  if (pml4 sp =? 0) || negb (page_offset address =? 0) || negb (canonical_user_address address) then ret false else
  match find_page address sp with
  | Some _ => vm_protect address VM_PAGE_SIZE prot
  | None =>
      f <- on_world vm_frame_create ;;
      if f =? 0 then ret false else
      installed <- install_page address f prot false false ;;
      if negb installed then on_world (vm_frame_release f) ;;; ret false else ret true
  end.

Definition vm_map_shared_frame (address f prot : Z) : VM bool :=
  sp <- gets space ;;
  if (pml4 sp =? 0) || (f =? 0) || negb (page_offset address =? 0) || negb (canonical_user_address address) ||
     bool_decide (is_Some (find_page address sp)) then ret false else
  on_world (vm_frame_retain f) ;;;
  installed <- install_page address f prot false true ;;
  if negb installed then on_world (vm_frame_release f) ;;; ret false else ret true.

Definition vm_unmap_page (address : Z) : VM bool :=
  let address := align_down address in
  sp <- gets space ;;
  match find_page address sp with
  | None => ret false
  | Some index =>
      entry <- walk_page_entry address false ;;
      (if negb (entry =? 0) then on_world (set_word entry 0) else ret tt) ;;;
      edit_space (remove_page_lookup index) ;;;
      on_world (vm_frame_release (frame (page_at sp index))) ;;;
      clear_page index ;;;
      ret true
  end.

Fixpoint range_pages (n : nat) (page_address : Z) (require_write : bool) (sp : VmSpace) : bool :=
  match n with
  | O => true
  | S n =>
      match find_page page_address sp with
      | None => false
      | Some index =>
          if require_write && negb (has (protection (page_at sp index)) VM_PROT_WRITE) then false
          else range_pages n (page_address + VM_PAGE_SIZE) require_write sp
      end
  end.

Definition vm_range_mapped (address size : Z) (require_write : bool) (sp : VmSpace) : bool :=
  if (size =? 0) || (u64 (address + size) <? address) || (VM_CANONICAL_LIMIT <? u64 (address + size)) then false else
  let first := align_down address in
  let end_ := align_up (u64 (address + size)) in
  range_pages (page_count first end_) first require_write sp.

(** ** Copying *)

Definition make_private (index : Z) : VM bool :=
  s <- gets id ;;
  let page := page_at (space s) index in
  if negb (copy_on_write page) then ret true else
  if negb (has (protection page) VM_PROT_WRITE) then ret false else
  f <- (if 1 <? references (frame_at (world s) (frame page)) then
          replacement <- on_world vm_frame_create ;;
          if replacement =? 0 then ret 0 else
          on_world (modify (fun w => with_page_data
            (<[data (frame_at w replacement) := data_at w (data (frame_at w (frame page)))]> (vw_pages w)) w)) ;;;
          on_world (vm_frame_release (frame page)) ;;;
          ret replacement
        else ret (frame page)) ;;
  if f =? 0 then ret false else
  update_page index (mkPage (virtual_address page) f (protection page) false (shared page)) (virtual_address page).

(** [size] is the length of the source; each round copies at least a byte. *)
Fixpoint copy_to (fuel : nat) (destination : Z) (source : list Z) : VM bool :=
  match fuel with
  | O => ret true
  | S fuel =>
      match source with
      | [] => ret true
      | _ =>
          sp <- gets space ;;
          match find_page destination sp with
          | None => ret false
          | Some index =>
              if negb (has (protection (page_at sp index)) VM_PROT_WRITE) then ret false else
              private <- make_private index ;;
              if negb private then ret false else
              s <- gets id ;;
              let d := data (frame_at (world s) (frame (page_at (space s) index))) in
              let chunk := Z.min (VM_PAGE_SIZE - page_offset destination) (Z.of_nat (length source)) in
              on_world (modify (fun w => with_page_data
                (<[d := blit (Z.to_nat (page_offset destination)) (take (Z.to_nat chunk) source) (data_at w d)]> (vw_pages w)) w)) ;;;
              copy_to fuel (u64 (destination + chunk)) (drop (Z.to_nat chunk) source)
          end
      end
  end.

Definition vm_copy_to_user (destination : Z) (source : list Z) : VM bool := copy_to (length source) destination source.

(** The page's data address and the offset in it. *)
Definition translated_frame (s : VmState) (address : Z) : option (Z * Z) :=
  match find_page address (space s) with
  | None => None
  | Some index => Some (data (frame_at (world s) (frame (page_at (space s) index))), page_offset address)
  end.

(** The bytes copied, [None] for failure. *)
Fixpoint copy_from (fuel : nat) (source : Z) (size : nat) (s : VmState) : option (list Z) :=
  match fuel with
  | O => Some []
  | S fuel =>
      if (size =? 0)%nat then Some [] else
      match translated_frame s source with
      | None => None
      | Some (d, offset) =>
          let chunk := Z.to_nat (Z.min (VM_PAGE_SIZE - offset) (Z.of_nat size)) in
          match copy_from fuel (u64 (source + Z.of_nat chunk)) (size - chunk) s with
          | None => None
          | Some rest => Some (slice (Z.to_nat offset) chunk (data_at (world s) d) ++ rest)
          end
      end
  end.

Definition vm_copy_from_user (source : Z) (size : nat) (s : VmState) : option (list Z) := copy_from size source size s.

(** ** Free ranges *)

(** Runs [body] until it gives a result, at most [n] times. *)
Fixpoint repeat_until {S R} (n : positive) (body : S -> S + R) (s : S) : S + R :=
  match n with
  | xH => body s
  | xO n => match repeat_until n body s with inl s => repeat_until n body s | r => r end
  | xI n => match body s with
            | inl s => match repeat_until n body s with inl s => repeat_until n body s | r => r end
            | r => r
            end
  end.

(** Whether [count] pages from [candidate] on are free; [count] is not 0. *)
Definition range_free (count : positive) (candidate : Z) (sp : VmSpace) : bool :=
  match repeat_until count (fun page => match find_page page sp with
                                        | Some _ => inr tt
                                        | None => inl (page + VM_PAGE_SIZE)
                                        end) candidate with
  | inl _ => true
  | inr _ => false
  end.

(** The candidates from [start] on, while a range of [count] pages fits below the limit;
    there are at most [candidates] of them. *)
Definition vm_find_free_range (hint size : Z) (sp : VmSpace) : Z :=
  if size =? 0 then 0 else
  let count := align_up size / VM_PAGE_SIZE in
  let start := align_up (if hint <? VM_USER_MMAP_BASE then VM_USER_MMAP_BASE else hint) in
  let candidates := Z.to_pos (VM_USER_MMAP_LIMIT / VM_PAGE_SIZE + 1) in
  match repeat_until candidates (fun candidate =>
          if VM_USER_MMAP_LIMIT <? u64 (candidate + u64 (count * VM_PAGE_SIZE)) then inr 0
          else if (count =? 0) || range_free (Z.to_pos count) candidate sp then inr candidate
          else inl (u64 (candidate + VM_PAGE_SIZE))) start with
  | inr r => r
  | inl _ => 0
  end.

(** ** Cloning *)

(** The loop over the records of the source from [index] on: the result, the destination
    and the source afterwards. *)
Fixpoint clone_pages (n : nat) (index : Z) (w : VmWorld) (destination source : VmSpace) : bool * VmWorld * VmSpace * VmSpace :=
  match n with
  | O => (true, w, destination, source)
  | S n =>
      match pages source !! index with
      | None => clone_pages n (index + 1) w destination source
      | Some page =>
          let cow := negb (shared page) && has (protection page) VM_PROT_WRITE in
          let w := (vm_frame_retain (frame page) w).2 in
          let '(installed, s) := install_page (virtual_address page) (frame page) (protection page) cow (shared page)
                                   (mkVm w destination) in
          if negb installed then
            let w := (vm_frame_release (frame page) (world s)).2 in
            let s := (vm_space_destroy (mkVm w (space s))).2 in
            (false, world s, space s, source)
          else if cow then
            let '(ok, s') := update_page index (mkPage (virtual_address page) (frame page) (protection page) true (shared page))
                               (virtual_address page) (mkVm (world s) source) in
            if negb ok then
              let s := (vm_space_destroy (mkVm (world s') (space s))).2 in
              (false, world s, space s, space s')
            else clone_pages n (index + 1) (world s') (space s) (space s')
          else clone_pages n (index + 1) (world s) (space s) source
      end
  end.

Definition vm_space_clone_cow (w : VmWorld) (destination source : VmSpace) : bool * VmWorld * VmSpace * VmSpace :=
  let '(created, s) := vm_space_create (mkVm w destination) in
  if negb created then (false, world s, space s, source)
  else clone_pages (Z.to_nat VM_MAX_PAGES) 0 (world s) (space s) source.

(** ** Faults and sharing *)

Definition vm_handle_page_fault (address error_code : Z) : VM Z :=
  if negb (has error_code 0x04) then ret VM_FAULT_UNHANDLED else
  if Z.land error_code 0x07 =? 0x07 then
    sp <- gets space ;;
    match find_page address sp with
    | None => ret VM_FAULT_UNHANDLED
    | Some index =>
        if negb (copy_on_write (page_at sp index)) then ret VM_FAULT_UNHANDLED else
        private <- make_private index ;;
        ret (if private : bool then VM_FAULT_COW else VM_FAULT_UNHANDLED)
    end
  else if negb (has error_code 0x01) && (VM_USER_STACK_BASE <=? address) && (address <? VM_USER_STACK_TOP) then
    mapped <- vm_map_page (align_down address) (Z.lor VM_PROT_READ VM_PROT_WRITE) ;;
    ret (if mapped : bool then VM_FAULT_DEMAND else VM_FAULT_UNHANDLED)
  else ret VM_FAULT_UNHANDLED.

Definition vm_frame_references (address : Z) (s : VmState) : Z :=
  match find_page address (space s) with
  | None => 0
  | Some index => references (frame_at (world s) (frame (page_at (space s) index)))
  end.

Fixpoint share_pages (n : nat) (page_address : Z) : VM bool :=
  match n with
  | O => ret true
  | S n =>
      sp <- gets space ;;
      match find_page page_address sp with
      | None => ret false
      | Some index =>
          let page := page_at sp index in
          ok <- update_page index (mkPage (virtual_address page) (frame page) (protection page) false true) page_address ;;
          if negb ok then ret false else share_pages n (page_address + VM_PAGE_SIZE)
      end
  end.

Definition vm_mark_shared (address size : Z) : VM bool :=
  if (size =? 0) || (u64 (address + size) <? address) then ret false else
  let first := align_down address in
  let end_ := align_up (u64 (address + size)) in
  sp <- gets space ;;
  if negb (all_mapped (page_count first end_) first sp) then ret false else
  share_pages (page_count first end_) first.

End vm.
