(* ===== verification/VmLookup.v ===== *)
(** * The lookup table of an address space

    [lookup_ok] is the invariant of the open-addressing table of vm.c: each record is
    reached from the hash of its address without passing an empty slot.  Under it
    [find_page] answers exactly from the records, and inserting and removing a record
    keep it. *)

From S2P Require Import Prelude Heap HeapFacts Interfaces Vm.

(** ** Probe sequences *)

(** The slot of the [n]-th probe that starts at [slot]. *)
Definition probe (slot : Z) (n : nat) : Z := (slot + Z.of_nat n) mod VM_PAGE_HASH_SIZE.

Definition is_slot (slot : Z) : Prop := 0 <= slot < VM_PAGE_HASH_SIZE.

Lemma next_slot_mod slot : next_slot slot = (slot + 1) mod VM_PAGE_HASH_SIZE.
Proof. apply (land_ones_mod (slot + 1) 18). lia. Qed.

Lemma hash_slot_is_slot a : is_slot (hash_slot a).
Proof.
  unfold is_slot, hash_slot. change (VM_PAGE_HASH_SIZE - 1) with (2 ^ 18 - 1).
  rewrite land_ones_mod by lia. by apply (Z.mod_pos_bound _ (2 ^ 18)).
Qed.

Lemma probe_0 slot : is_slot slot -> probe slot 0 = slot.
Proof. intros. unfold probe. rewrite Z.add_0_r. by apply Z.mod_small. Qed.

Lemma probe_is_slot slot n : is_slot (probe slot n).
Proof. apply Z.mod_pos_bound. vm_compute. done. Qed.

Lemma next_probe slot n : next_slot (probe slot n) = probe slot (S n).
Proof.
  rewrite next_slot_mod. unfold probe. rewrite Zplus_mod_idemp_l. f_equal. lia.
Qed.

(** Every slot is met once in [VM_PAGE_HASH_SIZE] probes. *)
Lemma probe_covers slot k : is_slot slot -> is_slot k ->
  exists n, (n < Z.to_nat VM_PAGE_HASH_SIZE)%nat /\ probe slot n = k.
Proof.
  unfold is_slot, probe, VM_PAGE_HASH_SIZE. intros Hs Hk.
  exists (Z.to_nat ((k - slot) mod 262144)).
  pose proof (Z.mod_pos_bound (k - slot) 262144 ltac:(lia)). split; [lia|].
  rewrite Z2Nat.id, Zplus_mod_idemp_r by lia. rewrite Z.mod_small; lia.
Qed.

#[export] Hint Resolve hash_slot_is_slot probe_is_slot : nova.

(** ** The invariant *)

(** The probes from [slot] on that come before the [n]-th meet no empty slot. *)
Definition no_gap (s : VmSpace) (slot : Z) (n : nat) : Prop :=
  forall m, (m < n)%nat -> slot_value s (probe slot m) <> 0.

(** The record [i] for the address [a] is found at one of the probes. *)
Definition reached (s : VmSpace) (i a : Z) : Prop :=
  exists n, (n < Z.to_nat VM_PAGE_HASH_SIZE)%nat /\
    slot_value s (probe (hash_slot a) n) = i + 1 /\ no_gap s (hash_slot a) n.

Definition aligned (a : Z) : Prop := align_down a = a.

(** The records: indices in range, page addresses, each address once. *)
Record records_ok (m : gmap Z VmPage) : Prop := {
  ro_index i p : m !! i = Some p -> 0 <= i < VM_MAX_PAGES;
  ro_aligned i p : m !! i = Some p -> aligned (virtual_address p);
  ro_unique i j p q : m !! i = Some p -> m !! j = Some q ->
    virtual_address p = virtual_address q -> i = j }.

(** The table, for the records in [m]: a slot in use belongs to a record, each record has
    one slot and is reached. *)
Record table_ok (m : gmap Z VmPage) (s : VmSpace) : Prop := {
  to_index i p : m !! i = Some p -> 0 <= i;
  to_slot k : slot_value s k <> 0 -> is_slot k;
  to_used k : slot_value s k <> 0 -> slot_value s k <> -1 ->
    0 < slot_value s k /\ is_Some (m !! (slot_value s k - 1));
  to_unique k k' : slot_value s k = slot_value s k' -> 0 < slot_value s k -> k = k';
  to_reached i p : m !! i = Some p -> reached s i (virtual_address p) }.

Record lookup_ok (s : VmSpace) : Prop := {
  lo_records : records_ok (pages s);
  lo_table : table_ok (pages s) s }.

#[export] Hint Resolve lo_records lo_table : nova.

Lemma lookup_ok_zero : lookup_ok zero_space.
Proof.
  assert (forall k, slot_value zero_space k = 0) as Hz.
  { intros k. unfold slot_value. cbn. by rewrite lookup_empty. }
  split; split; cbn; intros *; rewrite ?Hz; try lia; by rewrite lookup_empty.
Qed.

(** ** Finding *)

Lemma find_probe_sound n a slot s i :
  find_probe n a slot s = Some i -> exists p, pages s !! i = Some p /\ virtual_address p = a.
Proof.
  revert slot. induction n as [|n IH]; intros slot; cbn [find_probe]; [done|].
  case_match; [done|]. case_match eqn:E; [|apply IH]. intros [= <-]. bool_hyps.
  case_match; [|done]. eexists. split; [done|]. lia.
Qed.

Lemma find_probe_complete fuel n slot s i p :
  records_ok (pages s) -> pages s !! i = Some p -> 0 <= i -> (n < fuel)%nat ->
  slot_value s (probe slot n) = i + 1 -> no_gap s slot n ->
  find_probe fuel (virtual_address p) (probe slot 0) s = Some i.
Proof.
  intros Hr Hp Hi Hn Hv Hg.
  cut (forall d m, (m + d = n)%nat -> (d < fuel)%nat ->
    find_probe fuel (virtual_address p) (probe slot m) s = Some i).
  { intros H. by apply (H n 0%nat). }
  clear Hn. intros d. revert fuel. induction d as [|d IH]; intros [|fuel] m Hm Hd; try lia;
    cbn [find_probe].
  - replace m with n by lia. rewrite Hv. replace (i + 1 - 1) with i by lia. rewrite Hp, Z.eqb_refl.
    rewrite (proj2 (Z.eqb_neq (i + 1) 0)), (proj2 (Z.ltb_lt 0 (i + 1))) by lia. done.
  - specialize (Hg m ltac:(lia)). rewrite (proj2 (Z.eqb_neq _ 0) Hg).
    rewrite next_probe. specialize (IH fuel (S m) ltac:(lia) ltac:(lia)).
    case_match eqn:E; [|done]. bool_hyps. case_match eqn:Eq; [|done].
    f_equal. eapply ro_unique; [done|done|done|]. lia.
Qed.

(** [find_page] answers from the records alone. *)
Lemma find_page_spec s a i : lookup_ok s ->
  find_page a s = Some i <-> exists p, pages s !! i = Some p /\ virtual_address p = align_down a.
Proof.
  intros [Hr Ht]. unfold find_page. split; [apply find_probe_sound|].
  intros (p & Hp & <-). destruct (to_reached _ _ Ht _ _ Hp) as (n & Hn & Hv & Hg).
  rewrite <- (probe_0 (hash_slot _)) by apply hash_slot_is_slot.
  eapply find_probe_complete; try done. by eapply ro_index.
Qed.

Lemma find_page_None s a : lookup_ok s ->
  find_page a s = None <-> forall i p, pages s !! i = Some p -> virtual_address p <> align_down a.
Proof.
  intros Hok. split.
  - intros H i p Hp Ha. assert (find_page a s = Some i) by (apply find_page_spec; eauto). congruence.
  - intros H. destruct (find_page a s) as [i|] eqn:E; [|done].
    apply find_page_spec in E as (p & Hp & Ha); [|done]. by destruct (H i p).
Qed.

Lemma find_page_align a s : find_page (align_down a) s = find_page a s.
Proof.
  unfold find_page. replace (align_down (align_down a)) with (align_down a); [done|].
  unfold align_down. by rewrite <- Z.land_assoc, Z.land_diag.
Qed.

(** ** Changing the table *)

Lemma slot_value_set k v s k' :
  slot_value (with_lookup (<[k := v]> (page_lookup s)) s) k' = if decide (k = k') then v else slot_value s k'.
Proof.
  unfold slot_value. cbn. case_decide as E; [by subst; rewrite lookup_insert_eq|].
  by rewrite lookup_insert_ne.
Qed.

(** Only the table matters. *)
Lemma table_ok_lookup m s s' : page_lookup s' = page_lookup s -> table_ok m s -> table_ok m s'.
Proof.
  intros E [H0 H1 H2 H3 H4]. assert (forall k, slot_value s' k = slot_value s k) as Hv.
  { intros k. unfold slot_value. by rewrite E. }
  split; intros *; rewrite ?Hv; eauto. intros Hp. destruct (H4 _ _ Hp) as (n & ? & ? & Hg).
  exists n. rewrite Hv. split_and!; try done. intros j Hj. rewrite Hv. by apply Hg.
Qed.

(** Filling or marking a slot opens no gap. *)
Lemma no_gap_set k v s slot n : v <> 0 -> no_gap s slot n ->
  no_gap (with_lookup (<[k := v]> (page_lookup s)) s) slot n.
Proof. intros Hv Hg m Hm. rewrite slot_value_set. case_decide; [done|]. by apply Hg. Qed.

Lemma reached_set k v s i a : v <> 0 -> slot_value s k <> i + 1 -> reached s i a ->
  reached (with_lookup (<[k := v]> (page_lookup s)) s) i a.
Proof.
  intros Hv Hk (n & Hn & Hs & Hg). exists n. rewrite slot_value_set, decide_False by congruence.
  eauto using no_gap_set.
Qed.

Lemma table_ok_insert m s i p t (k := probe (hash_slot (virtual_address p)) t) :
  table_ok m s -> m !! i = None -> 0 <= i -> (t < Z.to_nat VM_PAGE_HASH_SIZE)%nat ->
  no_gap s (hash_slot (virtual_address p)) t -> slot_value s k = 0 \/ slot_value s k = -1 ->
  table_ok (<[i := p]> m) (with_lookup (<[k := i + 1]> (page_lookup s)) s).
Proof.
  intros [H0 H1 H2 H3 H4] Hi Hi0 Ht Hg Hk.
  assert (forall k', slot_value s k' <> i + 1) as Hfresh.
  { intros k' Hv. destruct (H2 k') as [_ [q Hq]]; [lia..|]. rewrite Hv in Hq.
    replace (i + 1 - 1) with i in Hq by lia. congruence. }
  split.
  - intros j q. rewrite lookup_insert_Some. intros [[<- _]|[_ Hq]]; eauto.
  - intros k'. rewrite slot_value_set. case_decide as Ek; [|apply H1]. intros _. subst k'. apply probe_is_slot.
  - intros k'. rewrite slot_value_set. case_decide as Ek; intros Ha Hb.
    + split; [lia|]. replace (i + 1 - 1) with i by lia. rewrite lookup_insert_eq. eauto.
    + destruct (H2 k' Ha Hb) as [? [q Hq]]. split; [done|].
      rewrite lookup_insert_ne by congruence. eauto.
  - intros k1 k2. rewrite !slot_value_set. do 2 case_decide; subst; try done; intros E ?.
    + by destruct (Hfresh k2).
    + by destruct (Hfresh k1).
    + by apply H3.
  - intros j q. destruct (decide (i = j)) as [<-|Hij].
    + rewrite lookup_insert_eq. intros [= <-]. exists t. rewrite slot_value_set, decide_True by done.
      split_and!; [done|done|]. apply no_gap_set; [lia|done].
    + rewrite lookup_insert_ne by done. intros Hq. apply reached_set; [lia| |eauto].
      pose proof (H0 _ _ Hq). lia.
Qed.

Lemma table_ok_remove m s i p k :
  table_ok m s -> m !! i = Some p -> 0 <= i -> slot_value s k = i + 1 ->
  table_ok (delete i m) (with_lookup (<[k := -1]> (page_lookup s)) s).
Proof.
  intros [H0 H1 H2 H3 H4] Hp Hi Hk. split.
  - intros j q. rewrite lookup_delete_Some. intros [_ Hq]. eauto.
  - intros k'. rewrite slot_value_set. case_decide as Ek; [|apply H1]. intros _. subst. apply H1. lia.
  - intros k'. rewrite slot_value_set. case_decide as Ek; [done|]. intros Ha Hb.
    destruct (H2 k' Ha Hb) as [? [q Hq]]. split; [done|]. rewrite lookup_delete_ne; [eauto|].
    intros E. apply Ek, H3; lia.
  - intros k1 k2. rewrite !slot_value_set. do 2 case_decide; subst; try done; try lia. intros. by apply H3.
  - intros j q. destruct (decide (i = j)) as [<-|Hij]; [by rewrite lookup_delete_eq|].
    rewrite lookup_delete_ne by done. intros Hq. apply reached_set; [lia|lia|eauto].
Qed.

(** ** Inserting *)

Lemma insert_probe_spec fuel index slot n tomb s ok s' :
  no_gap s slot n ->
  (tomb < 0 -> forall m, (m < n)%nat -> slot_value s (probe slot m) <> -1) ->
  (0 <= tomb -> exists t, (t < n)%nat /\ tomb = probe slot t /\ slot_value s tomb = -1) ->
  insert_probe fuel index (probe slot n) tomb s = (ok, s') ->
  if ok then exists t, (t < n + fuel)%nat /\ no_gap s slot t /\
      (slot_value s (probe slot t) = 0 \/ slot_value s (probe slot t) = -1) /\
      s' = with_lookup (<[probe slot t := index + 1]> (page_lookup s)) s
  else s' = s /\ no_gap s slot (n + fuel).
Proof.
  revert n tomb. induction fuel as [|fuel IH]; intros n tomb Hg Hno Htomb; cbn [insert_probe].
  { intros [= <- <-]. rewrite Nat.add_0_r. done. }
  pose proof (probe_is_slot slot n) as Hps. unfold is_slot in Hps.
  destruct (Z.eqb_spec (slot_value s (probe slot n)) 0) as [Ez|Ez].
  - rewrite Ez. cbn. intros [= <- <-]. case_if as Et.
    + destruct Htomb as (t & Ht & -> & Hv); [lia|]. exists t.
      split_and!; [lia| |by right|done]. intros m Hm. apply Hg. lia.
    + exists n. split_and!; [lia|done|by left|done].
  - rewrite next_probe. intros E. eapply IH in E.
    + rewrite <- Nat.add_succ_comm. apply E.
    + intros m Hm. destruct (decide (m = n)) as [->|]; [done|]. apply Hg. lia.
    + case_if as Et; [lia|]. intros Hlt m Hm. destruct (decide (m = n)) as [->|]; [|apply Hno; lia].
      intros Em. rewrite Em in Et. cbn in Et. lia.
    + case_if as Et; intros H0.
      * bool_hyps. exists n. split_and!; [lia|done|lia].
      * destruct Htomb as (t & ? & ?); [done|]. exists t. split; [lia|done].
Qed.

(** A record just written to the free index [i] enters the table, or the table is full. *)
Lemma insert_page_lookup_spec s i page ok s' :
  pages s !! i = Some page -> table_ok (delete i (pages s)) s -> 0 <= i ->
  insert_page_lookup i s = (ok, s') ->
  pages s' = pages s /\
  if ok then table_ok (pages s') s' /\ exists m, s' = with_lookup m s
  else s' = s /\ forall k, is_slot k -> slot_value s k <> 0.
Proof.
  intros Hp Ht Hi. unfold insert_page_lookup. rewrite Hp. intros E.
  rewrite <- (probe_0 (hash_slot _)) in E by apply hash_slot_is_slot.
  apply insert_probe_spec in E; [|by intros ? ?; lia|intros ? ? ?; lia|lia].
  rewrite Nat.add_0_l in E. destruct ok.
  - destruct E as (t & Hlt & Hg & Hv & ->). split; [done|]. split; [|eauto]. cbn [pages with_lookup].
    rewrite <- (insert_delete_id (pages s) i page) by done.
    apply (table_ok_insert (delete i (pages s)) s i page t); [done| |assumption..].
    by rewrite lookup_delete_eq.
  - destruct E as [-> Hg]. split_and!; [done..|]. intros k Hk.
    destruct (probe_covers (hash_slot (virtual_address page)) k) as (n & Hn & <-);
      [apply hash_slot_is_slot|done|]. by apply Hg.
Qed.

(** ** Removing *)

Lemma remove_probe_spec fuel i slot n s :
  (n < fuel)%nat -> slot_value s (probe slot n) = i + 1 -> 0 <= i -> no_gap s slot n ->
  exists k, slot_value s k = i + 1 /\
    let s1 := with_lookup (<[k := -1]> (page_lookup s)) s in
    remove_probe fuel i (probe slot 0) s = if i <? free_page_hint s then with_hint i s1 else s1.
Proof.
  intros Hn Hv Hi Hg.
  cut (forall d m, (m + d = n)%nat -> (d < fuel)%nat -> exists k, slot_value s k = i + 1 /\
    let s1 := with_lookup (<[k := -1]> (page_lookup s)) s in
    remove_probe fuel i (probe slot m) s = if i <? free_page_hint s then with_hint i s1 else s1).
  { intros H. by apply (H n 0%nat). }
  clear Hn. intros d. revert fuel. induction d as [|d IH]; intros [|fuel] m Hm Hd; try lia;
    cbn [remove_probe].
  - replace m with n by lia. exists (probe slot n). split; [done|]. rewrite Hv. cbv zeta.
    replace (i + 1 - 1) with i by lia.
    by rewrite (proj2 (Z.eqb_neq (i + 1) 0)), (proj2 (Z.ltb_lt 0 (i + 1))), Z.eqb_refl by lia.
  - specialize (Hg m ltac:(lia)). rewrite (proj2 (Z.eqb_neq _ 0) Hg), next_probe.
    case_if as E; [|by apply IH; lia]. bool_hyps. exists (probe slot m). split; [lia|done].
Qed.

Lemma remove_page_lookup_spec s i page : lookup_ok s -> pages s !! i = Some page ->
  pages (remove_page_lookup i s) = pages s /\
  table_ok (delete i (pages s)) (remove_page_lookup i s) /\
  exists m v, remove_page_lookup i s = with_hint v (with_lookup m s).
Proof.
  intros [Hr Ht] Hp. unfold remove_page_lookup. rewrite Hp.
  pose proof (ro_index _ Hr _ _ Hp).
  destruct (to_reached _ _ Ht _ _ Hp) as (n & Hn & Hv & Hg).
  destruct (remove_probe_spec _ i _ n s Hn Hv ltac:(lia) Hg) as (k & Hk & E).
  rewrite probe_0 in E by apply hash_slot_is_slot. rewrite E. clear E.
  pose proof (table_ok_remove _ _ _ _ _ Ht Hp ltac:(lia) Hk) as Ht'.
  case_match.
  - split_and!; [done|by eapply table_ok_lookup, Ht'|eauto].
  - split_and!; [done..|]. exists (<[k:=-1]> (page_lookup s)), (free_page_hint s). by destruct s.
Qed.

(** ** Reserving a record *)

Lemma reserve_probe_spec n offset s r s' :
  reserve_probe n offset s = (r, s') ->
  (exists v, s' = with_hint v s) /\
  match r with
  | Some i => pages s !! i = None /\ 0 <= i < VM_MAX_PAGES
  | None => forall k, (k < n)%nat -> is_Some (pages s !! ((free_page_hint s + (offset + Z.of_nat k)) mod VM_MAX_PAGES))
  end.
Proof.
  revert offset. induction n as [|n IH]; intros offset; cbn [reserve_probe].
  { intros [= <- <-]. split; [exists (free_page_hint s); by destruct s|]. lia. }
  destruct (pages s !! _) as [q|] eqn:E.
  - intros H. apply IH in H as [Hh H]. split; [done|]. destruct r as [i|]; [done|].
    intros [|k] Hk; [rewrite Z.add_0_r, E; eauto|].
    replace (offset + Z.of_nat (S k)) with (offset + 1 + Z.of_nat k) by lia. apply H. lia.
  - intros [= <- <-]. split; [eauto|]. split; [done|]. apply Z.mod_pos_bound. done.
Qed.

(** A free record is found whenever there is one. *)
Lemma reserve_page_record_spec s r s' :
  reserve_page_record s = (r, s') ->
  (exists v, s' = with_hint v s) /\
  match r with
  | Some i => pages s !! i = None /\ 0 <= i < VM_MAX_PAGES
  | None => forall i, 0 <= i < VM_MAX_PAGES -> is_Some (pages s !! i)
  end.
Proof.
  unfold reserve_page_record. intros H. apply reserve_probe_spec in H as [Hh H]. split; [done|]. destruct r as [i|]; [done|].
  intros i Hi. specialize (H (Z.to_nat ((i - free_page_hint s) mod VM_MAX_PAGES))).
  pose proof (Z.mod_pos_bound (i - free_page_hint s) VM_MAX_PAGES eq_refl) as Hb.
  rewrite Z2Nat.id, Z.add_0_l, Zplus_mod_idemp_r in H by lia.
  replace (free_page_hint s + (i - free_page_hint s)) with i in H by lia.
  rewrite (Z.mod_small i) in H by done. apply H.
  apply Z2Nat.inj_lt; [lia|done|lia].
Qed.

(** ** The three ways the records of a space change *)

Lemma lookup_ok_same s s' :
  pages s' = pages s -> page_lookup s' = page_lookup s -> lookup_ok s -> lookup_ok s'.
Proof.
  intros Ep El [Hr Ht]. split; rewrite Ep; [done|]. by eapply table_ok_lookup.
Qed.

(** A record replaced by one for the same page. *)
Lemma lookup_ok_update s i p p' :
  lookup_ok s -> pages s !! i = Some p -> virtual_address p' = virtual_address p ->
  lookup_ok (with_pages (<[i := p']> (pages s)) s).
Proof.
  intros [Hr Ht] Hp Hva.
  assert (forall j q, <[i := p']> (pages s) !! j = Some q ->
    exists q', pages s !! j = Some q' /\ virtual_address q' = virtual_address q) as Hold.
  { intros j q. rewrite lookup_insert_Some. intros [[<- <-]|[_ Hq]]; eauto. }
  split; cbn [pages with_pages].
  - split.
    + intros j q Hq. apply Hold in Hq as (q' & Hq' & _). by eapply ro_index.
    + intros j q Hq. apply Hold in Hq as (q' & Hq' & <-). by eapply ro_aligned.
    + intros j k q r Hq Hr' E. apply Hold in Hq as (q' & Hq' & ?), Hr' as (r' & Hr' & ?).
      eapply ro_unique; [done|done|done|congruence].
  - eapply (table_ok_lookup _ s); [done|]. destruct Ht as [H0 H1 H2 H3 H4]. split; [|done| |done|].
    + intros j q Hq. apply Hold in Hq as (q' & Hq' & _). by eapply H0.
    + intros k Ha Hb. destruct (H2 k Ha Hb) as [? [q Hq]]. split; [done|].
      destruct (decide (i = slot_value s k - 1)) as [<-|]; [rewrite lookup_insert_eq; eauto|].
      rewrite lookup_insert_ne by done. eauto.
    + intros j q Hq. apply Hold in Hq as (q' & Hq' & <-). eauto.
Qed.

(** A record removed. *)
Lemma lookup_ok_delete s s' i :
  records_ok (pages s) -> pages s' = pages s -> table_ok (delete i (pages s)) s' ->
  lookup_ok (with_pages (delete i (pages s')) s').
Proof.
  intros Hr Ep Ht. rewrite Ep. split; cbn [pages with_pages].
  - split; intros *; rewrite !lookup_delete_Some; intros [_ ?].
    + by eapply ro_index.
    + by eapply ro_aligned.
    + intros [_ ?]. by eapply ro_unique.
  - by apply (table_ok_lookup _ s').
Qed.

(** A record added; [s'] is the space after [insert_page_lookup]. *)
Lemma records_ok_insert m i p :
  records_ok m -> 0 <= i < VM_MAX_PAGES -> aligned (virtual_address p) ->
  (forall j q, m !! j = Some q -> virtual_address q <> virtual_address p) ->
  records_ok (<[i := p]> m).
Proof.
  intros Hr Hi Ha Hnew. split.
  - intros j q. rewrite lookup_insert_Some. intros [[<- _]|[_ Hq]]; [done|]. by eapply ro_index.
  - intros j q. rewrite lookup_insert_Some. intros [[_ <-]|[_ Hq]]; [done|]. by eapply ro_aligned.
  - intros j k q r. rewrite !lookup_insert_Some.
    intros [[<- <-]|[_ Hq]] [[<- <-]|[_ Hr']] E; try done.
    + by destruct (Hnew k r).
    + by destruct (Hnew j q).
    + by eapply ro_unique.
Qed.
