(* ===== verification/VmFrames.v ===== *)
(** * Frames: the memory behind the pages

    [world_ok] accounts for the heap blocks that virtual memory holds: each is a frame, the
    page of a frame or a table of an address space, and each frame counts its holders. *)

From S2P Require Import Prelude Heap HeapFacts Interfaces Ownership Vm VmLookup.

(** ** Page addresses *)

Lemma aligned_iff a : aligned a <-> 0 <= a < 2 ^ 64 /\ a mod 4096 = 0.
Proof.
  unfold aligned, align_down. change (VM_PAGE_SIZE - 1) with (2 ^ 12 - 1). split.
  - intros E. assert (0 <= a < 2 ^ 64) as Ha.
    { rewrite <- E. unfold wrap. rewrite <- (Z.land_ones _ 64), Z.land_assoc, Z.land_ones by lia.
      apply Z.mod_pos_bound. lia. }
    rewrite (wrap_land_lnot_ones 64) in E by lia. split; [done|]. change (2 ^ 12) with 4096 in E. lia.
  - intros [Ha Hm]. rewrite (wrap_land_lnot_ones 64) by lia. change (2 ^ 12) with 4096. lia.
Qed.

Lemma align_down_small a : 0 <= a < 2 ^ 64 -> align_down a = a - a mod 4096.
Proof.
  intros. unfold align_down. change (VM_PAGE_SIZE - 1) with (2 ^ 12 - 1).
  by rewrite (wrap_land_lnot_ones 64) by lia.
Qed.

Lemma page_offset_mod a : page_offset a = a mod 4096.
Proof. apply (land_ones_mod a 12). lia. Qed.

Lemma align_down_aligned a : aligned (align_down a).
Proof.
  unfold aligned, align_down. by rewrite <- Z.land_assoc, Z.land_diag.
Qed.

#[export] Hint Resolve align_down_aligned : nova.

(** ** Ghost state *)

(** What virtual memory uses a heap block for: a [VmFrame] (shared between address spaces
    or private), the page of a frame, or a table of the address space [owner]. *)
Inductive Role := FrameBlock (shared : bool) | PageBlock (f : Z) | TableBlock (owner : nat).

(** The live blocks of the heap with their sizes, and the roles of those of virtual memory. *)
Record Ghost := mkGhost { live_blocks : gmap Z Z; role : gmap Z Role }.

Definition add_block (p k : Z) (r : Role) (G : Ghost) : Ghost :=
  mkGhost (<[p := k]> (live_blocks G)) (<[p := r]> (role G)).

Definition drop_block (p : Z) (G : Ghost) : Ghost :=
  mkGhost (delete p (live_blocks G)) (delete p (role G)).

Definition set_role (p : Z) (r : Role) (G : Ghost) : Ghost :=
  mkGhost (live_blocks G) (<[p := r]> (role G)).

(** [n] bytes from [a] on lie inside the live block [raw]. *)
Definition inside (G : Ghost) (raw a n : Z) : Prop :=
  exists k, live_blocks G !! raw = Some k /\ raw <= a /\ a + n <= raw + k.

Lemma drop_add_block p k r G :
  live_blocks G !! p = None -> role G !! p = None -> drop_block p (add_block p k r G) = G.
Proof.
  destruct G as [m g]. cbn. intros. unfold drop_block, add_block. cbn.
  by rewrite !delete_insert_id.
Qed.

Lemma inside_add G p k r raw a n : live_blocks G !! p = None -> inside G raw a n -> inside (add_block p k r G) raw a n.
Proof. intros Hp (j & Hj & ?). exists j. cbn. rewrite lookup_insert_ne by congruence. done. Qed.

Lemma inside_drop G p raw a n : p <> raw -> inside G raw a n -> inside (drop_block p G) raw a n.
Proof. intros Hp (j & Hj & ?). exists j. cbn. by rewrite lookup_delete_ne. Qed.

Section frames.
Context {H : Type} `{!Allocator H, !Ownership H}.

Implicit Types (w : @VmWorld H) (G : Ghost) (rc : Z -> Z) (h : H).

(** ** Blocks *)

Definition owned h G : Prop :=
  al_owns h (live_blocks G) /\ forall p r, role G !! p = Some r -> is_Some (live_blocks G !! p).

Lemma owned_fresh h G p : owned h G -> live_blocks G !! p = None -> role G !! p = None.
Proof.
  intros [_ Hr] Hp. destruct (role G !! p) eqn:E; [|done]. apply Hr in E as [? ?]. congruence.
Qed.

Lemma owned_range h G raw a n : owned h G -> inside G raw a n -> 0 < n ->
  HEAP_START < a /\ a + n <= HEAP_END.
Proof. intros [Ho _] (k & Hk & ?) ?. apply (al_owns_range _ _ _ _ Ho) in Hk. lia. Qed.

(** Pieces of different blocks do not overlap. *)
Lemma inside_disjoint h G raw a n raw' a' n' : owned h G -> raw <> raw' ->
  inside G raw a n -> inside G raw' a' n' -> a + n <= a' \/ a' + n' <= a.
Proof.
  intros [Ho _] Hne (k & Hk & ?) (k' & Hk' & ?).
  destruct (al_owns_disjoint _ _ _ _ _ _ Ho Hk Hk') as [?|?]; [done|]. lia.
Qed.

Lemma owned_add h G p k r : al_owns h (<[p := k]> (live_blocks G)) ->
  (forall q s, role G !! q = Some s -> is_Some (live_blocks G !! q)) -> owned h (add_block p k r G).
Proof.
  intros Ho Hr. split; [done|]. intros q s. cbn. rewrite !lookup_insert_Some.
  intros [[<- _]|[Hne Hq]]; [rewrite lookup_insert_eq; eauto|].
  rewrite lookup_insert_ne by done. eauto.
Qed.

Lemma owned_free h G p : owned h G -> is_Some (live_blocks G !! p) -> owned (al_free p h) (drop_block p G).
Proof.
  intros [Ho Hr] Hp. split; [by apply al_owns_free|]. intros q s. cbn. rewrite lookup_delete_Some.
  intros [Hne Hq]. rewrite lookup_delete_ne by done. eauto.
Qed.

Lemma owned_set_role h G p r : owned h G -> is_Some (live_blocks G !! p) -> owned h (set_role p r G).
Proof.
  intros [Ho Hr] Hp. split; [done|]. intros q s. cbn. rewrite lookup_insert_Some.
  intros [[<- _]|[_ Hq]]; eauto.
Qed.

(** An allocation for a role of one's choice. *)
Lemma wp_vm_alloc n w G (Q : Z -> VmWorld -> Prop) :
  0 < n <= 2 ^ 64 - 16 -> owned (vw_heap w) G ->
  (forall h, owned h G -> Q 0 (with_vm_heap h w)) ->
  (forall p k h, p <> 0 -> n <= k -> live_blocks G !! p = None ->
     (forall r, owned h (add_block p k r G)) -> Q p (with_vm_heap h w)) ->
  wp (vm_alloc n) Q w.
Proof.
  intros Hn [Ho Hr] H0 H1. unfold wp, vm_alloc.
  destruct (al_alloc n (vw_heap w)) as [p h] eqn:E. cbn.
  destruct (al_owns_alloc _ _ _ _ _ Hn Ho E) as [[-> Ho']|(k & Hk & Hp & Ho')].
  - by apply H0.
  - apply (H1 p k); [|done..|].
    + destruct (al_owns_range _ _ _ _ Ho' (lookup_insert_eq _ _ _)). unfold HEAP_START in *. lia.
    + intros r. by apply owned_add.
Qed.

(** The same for memory aligned to a page. *)
Lemma wp_aligned_heap_alloc n w G (Q : option (Z * Z) -> VmWorld -> Prop) :
  0 < n <= 2 ^ 32 -> owned (vw_heap w) G ->
  (forall h, owned h G -> Q None (with_vm_heap h w)) ->
  (forall a raw k h, raw <> 0 -> live_blocks G !! raw = None -> aligned a ->
     raw <= a -> a + n <= raw + k ->
     (forall r, owned h (add_block raw k r G)) -> Q (Some (a, raw)) (with_vm_heap h w)) ->
  wp (aligned_heap_alloc n VM_PAGE_SIZE) Q w.
Proof.
  intros Hn Ho H0 H1. unfold aligned_heap_alloc. cbn [orb negb].
  change ((VM_PAGE_SIZE =? 0) || negb (Z.land VM_PAGE_SIZE (VM_PAGE_SIZE - 1) =? 0))%bool with false.
  cbn match. rewrite (wrap_small 64 (n + VM_PAGE_SIZE - 1)) by (unfold VM_PAGE_SIZE; lia).
  wp_step. apply (wp_vm_alloc _ _ G); [unfold VM_PAGE_SIZE; lia|done| |].
  - intros h Hh. rewrite Z.eqb_refl. apply wp_ret. by apply H0.
  - intros raw k h Hraw Hk Hfresh Hh. rewrite (proj2 (Z.eqb_neq _ _) Hraw). apply wp_ret.
    assert (HEAP_START < raw /\ raw + k <= HEAP_END) as Hb.
    { destruct (Hh (PageBlock 0)) as [Ho' _]. apply (al_owns_range _ _ raw k) in Ho'; [lia|]. cbn.
      by rewrite lookup_insert_eq. }
    unfold HEAP_START, HEAP_END in *. assert (VM_PAGE_SIZE = 4096) as Hps by done.
    rewrite (wrap_small 64 (raw + VM_PAGE_SIZE - 1)) by lia.
    fold (align_down (raw + VM_PAGE_SIZE - 1)).
    pose proof (align_down_small (raw + VM_PAGE_SIZE - 1) ltac:(lia)) as Ha.
    pose proof (Z.mod_pos_bound (raw + VM_PAGE_SIZE - 1) 4096 ltac:(lia)).
    apply (H1 _ raw k); [done|done|apply align_down_aligned|lia|lia|done].
Qed.

Lemma wp_vm_free p w (Q : unit -> VmWorld -> Prop) :
  Q tt (with_vm_heap (al_free p (vw_heap w)) w) -> wp (vm_free p) Q w.
Proof. done. Qed.


(** ** The invariant of physical memory *)

(** An entry of a table that maps nothing for users: not present, or one of the large
    supervisor pages that the boot loader set up. *)
Definition entry_free (v : Z) : Prop :=
  has v PAGE_PRESENT = false \/ (has v PAGE_HUGE = true /\ has v PAGE_USER = false).

(** The tables of the boot loader (boot/stage2.asm): the first 4 GiB for the kernel. *)
Definition boot_ok w : Prop :=
  (forall i, 0 < i < 512 -> has (word_at w (BOOT_PML4 + 8 * i)) PAGE_PRESENT = false) /\
  (forall i, 0 <= i < 2048 -> entry_free (word_at w (BOOT_DIRECTORIES + 8 * i))).

(** A frame with the number of its holders. *)
Record frame_ok (contents : gmap Z (list Z)) G (count f : Z) (fr : VmFrame) : Prop := {
  fo_nonzero : f <> 0;
  fo_role : exists b, role G !! f = Some (FrameBlock b);
  fo_page : role G !! allocation fr = Some (PageBlock f);
  fo_inside : inside G (allocation fr) (data fr) VM_PAGE_SIZE;
  fo_aligned : aligned (data fr);
  fo_count : references fr = count;
  fo_bound : 0 < count < 2 ^ 32;
  fo_length : length (default [] (contents !! data fr)) = Z.to_nat VM_PAGE_SIZE }.

Record world_ok w G rc : Prop := {
  wo_owned : owned (vw_heap w) G;
  wo_frame f fr : vw_frames w !! f = Some fr -> frame_ok (vw_pages w) G (rc f) f fr;
  wo_held f : 0 < rc f -> is_Some (vw_frames w !! f);
  wo_count f : 0 <= rc f;
  wo_boot : boot_ok w }.

Definition bump (f : Z) (rc : Z -> Z) : Z -> Z := fun g => rc g + if decide (g = f) then 1 else 0.
Definition unbump (f : Z) (rc : Z -> Z) : Z -> Z := fun g => rc g - if decide (g = f) then 1 else 0.

Lemma world_ok_ext w G rc rc' : (forall f, rc f = rc' f) -> world_ok w G rc -> world_ok w G rc'.
Proof.
  intros E [? Hf Hh Hc ?]. split; [done| | | |done].
  - intros f fr Hfr. rewrite <- E. by apply Hf.
  - intros f. rewrite <- E. apply Hh.
  - intros f. rewrite <- E. apply Hc.
Qed.

Lemma world_ok_heap w G rc h : owned h G -> world_ok w G rc -> world_ok (with_vm_heap h w) G rc.
Proof. intros Ho [? Hf Hh Hc ?]. split; [done|exact Hf|done..]. Qed.

Lemma zero_unheld w G rc f : world_ok w G rc -> vw_frames w !! f = None -> rc f = 0.
Proof.
  intros Hw Hf. pose proof (wo_count _ _ _ Hw f). destruct (decide (0 < rc f)) as [Hp|]; [|lia].
  apply (wo_held _ _ _ Hw) in Hp as [? ?]. congruence.
Qed.

(** Different frames have different pages. *)
Lemma data_inj w G rc f f' fr fr' : world_ok w G rc ->
  vw_frames w !! f = Some fr -> vw_frames w !! f' = Some fr' -> data fr = data fr' -> f = f'.
Proof.
  intros Hw Hf Hf' E. destruct (wo_frame _ _ _ Hw _ _ Hf), (wo_frame _ _ _ Hw _ _ Hf').
  destruct (decide (allocation fr = allocation fr')) as [Ea|Hne]; [congruence|].
  destruct (inside_disjoint _ _ _ _ _ _ _ _ (wo_owned _ _ _ Hw) Hne fo_inside0 fo_inside1);
    unfold VM_PAGE_SIZE in *; lia.
Qed.

Lemma frame_at_eq w f fr : vw_frames w !! f = Some fr -> frame_at w f = fr.
Proof. unfold frame_at. by intros ->. Qed.

(** ** Creating a frame *)

Definition zero_page : list Z := replicate (Z.to_nat VM_PAGE_SIZE) 0.

Lemma length_zero_page : length zero_page = Z.to_nat VM_PAGE_SIZE.
Proof. apply length_replicate. Qed.

(** [f] is a new frame with a page of zeroes. *)
Record created w G (f : Z) w' G' : Prop := {
  cr_fresh : vw_frames w !! f = None;
  cr_nonzero : f <> 0;
  cr_world : exists d raw h, w' = mkWorld h (<[f := mkFrame d raw 1]> (vw_frames w))
      (<[d := zero_page]> (vw_pages w)) (vw_words w) /\
    (forall f' fr', vw_frames w !! f' = Some fr' -> data fr' <> d);
  cr_role p r : role G !! p = Some r -> role G' !! p = Some r;
  cr_live p k : live_blocks G !! p = Some k -> live_blocks G' !! p = Some k;
  cr_private : role G' !! f = Some (FrameBlock false) }.

Lemma create_ok w G rc f kf raw k d h :
  world_ok w G rc -> f <> 0 -> live_blocks G !! f = None ->
  let G1 := add_block f kf (FrameBlock false) G in
  live_blocks G1 !! raw = None -> aligned d -> raw <= d -> d + VM_PAGE_SIZE <= raw + k ->
  let G' := add_block raw k (PageBlock f) G1 in
  let w' := mkWorld h (<[f := mkFrame d raw 1]> (vw_frames w)) (<[d := zero_page]> (vw_pages w)) (vw_words w) in
  owned h G' -> created w G f w' G' /\ world_ok w' G' (bump f rc).
Proof.
  intros Hw Hf0 Hf G1 Hraw Hal Hlo Hhi G' w' Ho.
  pose proof (wo_owned _ _ _ Hw) as How.
  assert (vw_frames w !! f = None) as Hnew.
  { destruct (vw_frames w !! f) as [fr|] eqn:E; [|done]. destruct (wo_frame _ _ _ Hw _ _ E) as [_ [b Hb] _ _ _ _ _ _].
    apply How in Hb as [? ?]. congruence. }
  assert (f <> raw) as Hfr by (intros <-; cbn in Hraw; by rewrite lookup_insert_eq in Hraw).
  assert (live_blocks G !! raw = None) as Hraw' by (cbn in Hraw; by rewrite lookup_insert_ne in Hraw).
  assert (forall p r, role G !! p = Some r -> role G' !! p = Some r) as Hrole.
  { intros p r Hp. assert (is_Some (live_blocks G !! p)) as [? ?] by (by eapply How). cbn.
    by rewrite !lookup_insert_ne by congruence. }
  assert (forall q a n, inside G q a n -> inside G' q a n) as Hins.
  { intros q a n Hq. apply inside_add; [done|]. by apply inside_add. }
  assert (forall f' fr', vw_frames w !! f' = Some fr' -> data fr' <> d) as Hdata.
  { intros f' fr' E <-. destruct (wo_frame _ _ _ Hw _ _ E).
    assert (allocation fr' <> raw) as Hne. { intros <-. destruct fo_inside0 as (? & ? & _). congruence. }
    assert (inside G' raw (data fr') VM_PAGE_SIZE) as Hi by (exists k; cbn; by rewrite lookup_insert_eq).
    destruct (inside_disjoint _ _ _ _ _ _ _ _ Ho Hne (Hins _ _ _ fo_inside0) Hi); unfold VM_PAGE_SIZE in *; lia. }
  split.
  - split; try done.
    + exists d, raw, h. done.
    + intros p j Hp. cbn. by rewrite !lookup_insert_ne by congruence.
    + cbn. rewrite lookup_insert_ne by done. by rewrite lookup_insert_eq.
  - split; [done| | | |].
    + intros g fr. cbn. rewrite lookup_insert_Some. unfold bump.
      intros [[<- <-]|[Hne E]].
      * rewrite decide_True, (zero_unheld _ _ _ _ Hw Hnew) by done. split; cbn.
        -- done.
        -- exists false. by rewrite lookup_insert_ne, lookup_insert_eq.
        -- by rewrite lookup_insert_eq.
        -- exists k. cbn. by rewrite lookup_insert_eq.
        -- done.
        -- done.
        -- lia.
        -- rewrite lookup_insert_eq. apply length_zero_page.
      * rewrite decide_False, Z.add_0_r by done. destruct (wo_frame _ _ _ Hw _ _ E) as [? [b Hb] ? ? ? ? ? Hl].
        split; try done; eauto. cbn. rewrite lookup_insert_ne; [done|].
        intros Ed. by apply (Hdata _ _ E).
    + intros g. unfold bump. cbn. case_decide as Eg; intros Hp.
      * subst. rewrite lookup_insert_eq. eauto.
      * rewrite lookup_insert_ne by done. apply (wo_held _ _ _ Hw). lia.
    + intros g. unfold bump. pose proof (wo_count _ _ _ Hw g). case_decide; lia.
    + apply Hw.
Qed.

Lemma wp_vm_frame_create w G rc (Q : Z -> VmWorld -> Prop) :
  world_ok w G rc ->
  (forall h, world_ok (with_vm_heap h w) G rc -> Q 0 (with_vm_heap h w)) ->
  (forall f w' G', created w G f w' G' -> world_ok w' G' (bump f rc) -> Q f w') ->
  wp vm_frame_create Q w.
Proof.
  intros Hw H0 H1. pose proof (wo_owned _ _ _ Hw) as Ho. unfold vm_frame_create. wp_step.
  apply (wp_vm_alloc _ _ G); [unfold FRAME_SIZE; lia|done| |].
  { intros h Hh. rewrite Z.eqb_refl. apply wp_ret, H0. by apply world_ok_heap. }
  intros f k h Hf Hk Hfresh Hh. rewrite (proj2 (Z.eqb_neq _ _) Hf). wp_step. wp_step. wp_step.
  apply (wp_aligned_heap_alloc _ _ (add_block f k (FrameBlock false) G)); [unfold VM_PAGE_SIZE; lia|apply Hh| |].
  - intros h' Hh'. wp_step. apply wp_vm_free. wp_steps. cbn.
    assert (vw_frames w !! f = None) as Hnew.
    { destruct (vw_frames w !! f) as [fr|] eqn:E; [|done].
      destruct (wo_frame _ _ _ Hw _ _ E) as [_ [b Hb] _ _ _ _ _ _]. apply Ho in Hb as [? ?]. congruence. }
    unfold with_frames, with_vm_heap. cbn. rewrite delete_insert_id by done.
    apply H0, (world_ok_heap w G rc); [|done].
    rewrite <- (drop_add_block f k (FrameBlock false) G) by (done || by eapply owned_fresh).
    apply owned_free; [done|]. cbn. rewrite lookup_insert_eq. eauto.
  - intros d raw kr h' Hraw Hfr Hal Hlo Hhi Hh'. wp_steps. unfold with_frames, with_page_data, with_vm_heap. cbn.
    rewrite insert_insert_eq.
    destruct (create_ok w G rc f k raw kr d h' Hw Hf Hfresh Hfr Hal Hlo Hhi (Hh' _)) as [Hc Hw'].
    by eapply H1.
Qed.

(** ** Counting holders *)

Definition with_count (f n : Z) w : VmWorld :=
  with_frames (<[f := mkFrame (data (frame_at w f)) (allocation (frame_at w f)) n]> (vw_frames w)) w.

Lemma with_count_ok w G rc rc' f n fr :
  world_ok w G rc -> vw_frames w !! f = Some fr -> 0 < n < 2 ^ 32 ->
  (forall g, rc' g = if decide (g = f) then n else rc g) -> world_ok (with_count f n w) G rc'.
Proof.
  intros [Ho Hf Hh Hc Hb] Hfr Hn E. unfold with_count. rewrite (frame_at_eq _ _ _ Hfr).
  split; cbn; [done| | | |done].
  - intros g gr. rewrite lookup_insert_Some, E. intros [[<- <-]|[Hne Hg]].
    + rewrite decide_True by done. destruct (Hf _ _ Hfr). by split.
    + rewrite decide_False by done. by apply Hf.
  - intros g. rewrite E. case_decide as Eg; [subst; rewrite lookup_insert_eq; eauto|].
    rewrite lookup_insert_ne by done. apply Hh.
  - intros g. rewrite E. case_decide; [lia|apply Hc].
Qed.

Lemma wp_vm_frame_retain w G rc f fr (Q : unit -> VmWorld -> Prop) :
  world_ok w G rc -> vw_frames w !! f = Some fr -> rc f + 1 < 2 ^ 32 ->
  (world_ok (with_count f (rc f + 1) w) G (bump f rc) -> Q tt (with_count f (rc f + 1) w)) ->
  wp (vm_frame_retain f) Q w.
Proof.
  intros Hw Hf Hb HQ. destruct (wo_frame _ _ _ Hw _ _ Hf). unfold vm_frame_retain.
  rewrite (proj2 (Z.eqb_neq _ _)) by done. wp_steps. unfold set_references, id. wp_steps.
  rewrite (frame_at_eq _ _ _ Hf), fo_count0, (wrap_small 32) by lia.
  replace (with_frames _ w) with (with_count f (rc f + 1) w) by (unfold with_count; by rewrite (frame_at_eq _ _ _ Hf)).
  apply HQ. eapply with_count_ok; [done..|lia|]. intros g. unfold bump. case_decide; subst; lia.
Qed.

(** The world after the last holder of [f] let go of it. *)
Definition without_frame (f : Z) (h : H) w : VmWorld :=
  mkWorld h (delete f (vw_frames w)) (delete (data (frame_at w f)) (vw_pages w)) (vw_words w).

Lemma without_frame_ok w G rc f fr (G' := drop_block f (drop_block (allocation fr) G)) h :
  world_ok w G rc -> vw_frames w !! f = Some fr -> rc f = 1 -> owned h G' ->
  world_ok (without_frame f h w) G' (unbump f rc).
Proof.
  intros Hw Hf H1 Ho. pose proof Hw as [Ho' Hfr Hh Hc Hb]. split; cbn; [done| | | |done].
  - intros g gr. rewrite lookup_delete_Some. unfold unbump. intros [Hne Hg].
    rewrite decide_False, Z.sub_0_r by done.
    assert (data gr <> data fr) as Hd by (intros E; apply Hne; by eapply data_inj).
    destruct (Hfr _ _ Hf) as [? [b Hb'] Hp ? ? ? ? ?], (Hfr _ _ Hg) as [? [b2 Hb2] Hp2 Hi2 ? ? ? ?].
    assert (allocation gr <> allocation fr) by congruence.
    assert (allocation gr <> f) by congruence. assert (g <> allocation fr) by congruence.
    split; try done; cbn.
    + exists b2. by rewrite !lookup_delete_ne.
    + by rewrite !lookup_delete_ne.
    + apply inside_drop; [done|]. by apply inside_drop.
    + rewrite (frame_at_eq _ _ _ Hf), lookup_delete_ne by done. done.
  - intros g. unfold unbump. case_decide as E; intros Hp; [subst; lia|].
    rewrite lookup_delete_ne by done. apply Hh. lia.
  - intros g. unfold unbump. pose proof (Hc g). case_decide; subst; lia.
Qed.

Lemma wp_vm_frame_release w G rc f fr (Q : unit -> VmWorld -> Prop) :
  world_ok w G rc -> vw_frames w !! f = Some fr ->
  (1 < rc f -> world_ok (with_count f (rc f - 1) w) G (unbump f rc) -> Q tt (with_count f (rc f - 1) w)) ->
  (forall h, rc f = 1 -> world_ok (without_frame f h w) (drop_block f (drop_block (allocation fr) G)) (unbump f rc) ->
     Q tt (without_frame f h w)) ->
  wp (vm_frame_release f) Q w.
Proof.
  intros Hw Hf HQ1 HQ2. pose proof (wo_frame _ _ _ Hw _ _ Hf) as Hok. destruct Hok.
  pose proof (wo_owned _ _ _ Hw) as Ho.
  unfold vm_frame_release. rewrite (proj2 (Z.eqb_neq _ _)) by done. wp_steps. unfold id.
  rewrite (frame_at_eq _ _ _ Hf), fo_count0, (proj2 (Z.eqb_neq (rc f) 0)), (wrap_small 32) by lia.
  wp_step. unfold set_references at 1. wp_step.
  replace (with_frames _ w) with (with_count f (rc f - 1) w) by (unfold with_count; done).
  case_if as E; bool_hyps.
  - wp_steps. apply HQ1; [lia|]. eapply with_count_ok; [done..|lia|]. intros g. unfold unbump. case_decide; subst; lia.
  - assert (rc f = 1) as H1 by lia. wp_step. apply wp_vm_free. wp_step. apply wp_vm_free. wp_steps.
    unfold with_frames, with_page_data, with_vm_heap, with_count. cbn. rewrite delete_insert_eq.
    destruct fo_role0 as [b Hb].
    replace (delete (data fr) (vw_pages w)) with (delete (data (frame_at w f)) (vw_pages w))
      by (by rewrite (frame_at_eq _ _ _ Hf)).
    apply HQ2; [done|]. apply without_frame_ok; [done..|].
    apply owned_free; [apply owned_free; [done|by eapply Ho]|]. cbn.
    rewrite lookup_delete_ne by congruence. by eapply Ho.
Qed.

(** ** Writing a page *)

Definition with_contents (f : Z) (l : list Z) w : VmWorld :=
  with_page_data (<[data (frame_at w f) := l]> (vw_pages w)) w.

Lemma with_contents_ok w G rc f l :
  world_ok w G rc -> length l = Z.to_nat VM_PAGE_SIZE -> world_ok (with_contents f l w) G rc.
Proof.
  intros [Ho Hf Hh Hc Hb] Hl. split; cbn; [done| |done..]. intros g gr Hg.
  destruct (Hf _ _ Hg). split; try done.
  destruct (decide (data (frame_at w f) = data gr)) as [->|Hne]; [by rewrite lookup_insert_eq|].
  by rewrite lookup_insert_ne.
Qed.

(** A private frame becomes shared. *)
Lemma set_role_ok w G rc f b b' :
  world_ok w G rc -> role G !! f = Some (FrameBlock b) -> world_ok w (set_role f (FrameBlock b') G) rc.
Proof.
  intros [Ho Hf Hh Hc Hb] Hr. split; [|intros g gr Hg|done..].
  - apply owned_set_role; [done|]. by eapply Ho.
  - destruct (Hf _ _ Hg) as [? [c Hc'] Hp ? ? ? ? ?]. split; try done; cbn.
    + destruct (decide (f = g)) as [->|Hne]; [rewrite lookup_insert_eq|rewrite lookup_insert_ne by done]; eauto.
    + rewrite lookup_insert_ne by congruence. done.
Qed.

End frames.
