(* ===== verification/VmTables.v ===== *)
(** * Page tables

    The tables of an address space form a tree of four levels.  The ghost map [T] gives
    the table at each path of indices; [tree_ok] says that the words in memory are exactly
    this tree, with the entries that the page records call for at its leaves. *)

From S2P Require Import Prelude Heap HeapFacts Interfaces Ownership Vm VmLookup VmFrames.

(** ** Bits of entries *)

Lemma has_lor a b m : has (Z.lor a b) m = (has a m || has b m)%bool.
Proof.
  unfold has. rewrite Z.land_lor_distr_l.
  destruct (Z.eqb_spec (Z.land a m) 0) as [->|Ha].
  - by rewrite Z.lor_0_l.
  - destruct (Z.eqb_spec (Z.lor (Z.land a m) (Z.land b m)) 0) as [E|]; [|done].
    apply Z.lor_eq_0_iff in E as [? _]. done.
Qed.

Lemma has_aligned t m : aligned t -> 0 <= m < 4096 -> has t m = false.
Proof.
  rewrite aligned_iff. intros [_ Ht] Hm. unfold has.
  assert (Z.land t m = 0) as ->; [|done].
  rewrite <- (Z.mod_small m (2 ^ 12)), <- Z.land_ones, (Z.land_comm m), Z.land_assoc, Z.land_ones by lia.
  change (2 ^ 12) with 4096. by rewrite Ht.
Qed.

Lemma address_aligned t : aligned t -> t < 2 ^ 52 -> Z.land t PAGE_ADDRESS = t.
Proof.
  rewrite aligned_iff. intros [Ht Hm] Hb.
  replace PAGE_ADDRESS with (Z.land (Z.ones 52) (Z.lnot (2 ^ 12 - 1))) by done.
  rewrite Z.land_assoc, Z.land_ones, (Z.mod_small t), land_lnot_ones by lia. change (2 ^ 12) with 4096. lia.
Qed.

Lemma table_entry t : aligned t -> t < 2 ^ 52 -> let v := Z.lor t TABLE_FLAGS in
  has v PAGE_PRESENT = true /\ has v PAGE_HUGE = false /\ has v PAGE_USER = true /\
  has v PAGE_WRITE = true /\ Z.land v PAGE_ADDRESS = t.
Proof.
  intros Ha Hb. cbv zeta. rewrite !has_lor, (has_aligned t PAGE_HUGE), Z.land_lor_distr_l, address_aligned by done.
  split_and!; [apply orb_true_r|done|apply orb_true_r..|].
  change (Z.land TABLE_FLAGS PAGE_ADDRESS) with 0. by rewrite Z.lor_0_r.
Qed.

(** ** Indices *)

Definition is_index (i : Z) : Prop := 0 <= i < 512.

Definition index_at (shift a : Z) : Z := Z.land (Z.shiftr a shift) 0x1FF.

(** The way to the last table for an address, and the entry in it. *)
Definition path_of (a : Z) : list Z := [index_at 39 a; index_at 30 a; index_at 21 a].
Definition leaf_of (a : Z) : Z := index_at 12 a.

Lemma index_at_eq shift a : 0 <= shift -> index_at shift a = (a / 2 ^ shift) mod 512.
Proof.
  intros. unfold index_at. rewrite Z.shiftr_div_pow2 by done. apply (land_ones_mod _ 9). lia.
Qed.

Lemma index_at_is_index shift a : 0 <= shift -> is_index (index_at shift a).
Proof. intros. rewrite index_at_eq by done. by apply Z.mod_pos_bound. Qed.

#[export] Hint Resolve index_at_is_index : nova.

(** The indices determine the page. *)
Lemma indices_inj a b : 0 <= a < 2 ^ 48 -> 0 <= b < 2 ^ 48 -> aligned a -> aligned b ->
  path_of a = path_of b -> leaf_of a = leaf_of b -> a = b.
Proof.
  rewrite !aligned_iff. unfold path_of, leaf_of. intros Ha Hb [_ Ma] [_ Mb] [= E1 E2 E3] E4.
  rewrite !index_at_eq in * by lia.
  assert (forall x, 0 <= x < 2 ^ 48 -> x mod 4096 = 0 ->
    x = 2 ^ 39 * ((x / 2 ^ 39) mod 512) + 2 ^ 30 * ((x / 2 ^ 30) mod 512) +
        2 ^ 21 * ((x / 2 ^ 21) mod 512) + 2 ^ 12 * ((x / 2 ^ 12) mod 512)) as Hx; [|rewrite (Hx a), (Hx b) by done; lia].
  clear. intros x Hx Hm.
  change (2 ^ 39) with (4096 * 512 * 512 * 512). change (2 ^ 30) with (4096 * 512 * 512).
  change (2 ^ 21) with (4096 * 512). change (2 ^ 12) with 4096.
  rewrite <- !Z.div_div by lia. remember (x / 4096) as y eqn:Ey.
  assert (x = 4096 * y) as -> by (pose proof (Z.div_mod x 4096); lia). clear Ey.
  pose proof (Z.div_mod y 512). pose proof (Z.div_mod (y / 512) 512). pose proof (Z.div_mod (y / 512 / 512) 512).
  rewrite (Z.mod_small (y / 512 / 512 / 512)); [lia|].
  rewrite !Z.div_div by lia. split; [apply Z.div_pos; lia|]. apply Z.div_lt_upper_bound; lia.
Qed.

(** Entries of two tables are the same word only for the same table and index. *)
Lemma entry_inj t t' i i' : aligned t -> aligned t' -> is_index i -> is_index i' ->
  t + 8 * i = t' + 8 * i' -> t = t' /\ i = i'.
Proof.
  rewrite !aligned_iff. unfold is_index. intros [_ Ht] [_ Ht'] Hi Hi' E.
  pose proof (Z.div_mod t 4096). pose proof (Z.div_mod t' 4096). lia.
Qed.

Lemma canonical_bound a : canonical_user_address a = true -> 0 <= a < 2 ^ 47.
Proof.
  unfold canonical_user_address, VM_CANONICAL_LIMIT, VM_USER_BASE, VM_USER_STACK_BASE, VM_USER_STACK_TOP, VM_USER_STACK_SIZE.
  change (2 ^ 47) with 0x800000000000. lia.
Qed.

(** ** The tree *)

Notation Tree := (gmap (list Z) Z).

(** The pages that hold tables of the space. *)
Definition table_page (sp : VmSpace) (t : Z) : Prop :=
  (exists j, 0 <= j < 6 /\ t = pml4 sp + 4096 * j) \/ exists raw, (t, raw) ∈ tables sp.

(** The tree of a new space: the root, the table for the first 512 GiB and the four
    directories of the kernel. *)
Definition root_tree (sp : VmSpace) : Tree :=
  {[ [] := pml4 sp; [0] := pml4 sp + 4096; [0; 0] := pml4 sp + 8192; [0; 1] := pml4 sp + 12288;
     [0; 2] := pml4 sp + 16384; [0; 3] := pml4 sp + 20480 ]}.

(** The memory of the tables is the space's own. *)
Record blocks_ok (id : nat) (G : Ghost) (sp : VmSpace) : Prop := {
  bl_root : role G !! root_allocation sp = Some (TableBlock id);
  bl_root_inside : inside G (root_allocation sp) (pml4 sp) (6 * VM_PAGE_SIZE);
  bl_root_aligned : aligned (pml4 sp);
  bl_pdpt : bootstrap_pdpt sp = pml4 sp + 4096;
  bl_directories : bootstrap_directories sp = pml4 sp + 8192;
  bl_table t raw : (t, raw) ∈ tables sp ->
    role G !! raw = Some (TableBlock id) /\ inside G raw t VM_PAGE_SIZE /\ aligned t;
  bl_nodup : NoDup (root_allocation sp :: (tables sp).*2) }.

(** The shape of the tree. *)
Record shape_ok (sp : VmSpace) (T : Tree) : Prop := {
  sh_root : T !! [] = Some (pml4 sp);
  sh_page l t : T !! l = Some t -> table_page sp t;
  sh_inj l l' t : T !! l = Some t -> T !! l' = Some t -> l = l';
  sh_parent l i t : T !! (l ++ [i]) = Some t -> is_Some (T !! l) /\ is_index i /\ (length l < 3)%nat;
  sh_mapped i p : pages sp !! i = Some p ->
    canonical_user_address (virtual_address p) = true /\ is_Some (T !! path_of (virtual_address p)) }.

Section tables.
Context {H : Type} `{!Allocator H, !Ownership H}.

Implicit Types (w : @VmWorld H) (G : Ghost) (rc : Z -> Z) (h : H) (sp : VmSpace) (T : Tree).

(** The entry a page record calls for. *)
Definition entry_word w (p : VmPage) : Z := Z.lor (data (frame_at w (frame p))) (page_flags p).

Definition leaf_spec w sp (a v : Z) : Prop :=
  (forall i p, pages sp !! i = Some p -> virtual_address p = a -> v = entry_word w p) /\
  ((forall i p, pages sp !! i = Some p -> virtual_address p <> a) -> v = 0).

(** The words of the tables; the leaf entry of the page [x] may be out of date. *)
Record words_ok (x : option Z) w sp T : Prop := {
  wk_entry l t i : T !! l = Some t -> (length l < 3)%nat -> is_index i ->
    match T !! (l ++ [i]) with
    | Some t' => word_at w (t + 8 * i) = Z.lor t' TABLE_FLAGS
    | None => entry_free (word_at w (t + 8 * i)) /\
              ((length l < 2)%nat -> has (word_at w (t + 8 * i)) PAGE_PRESENT = false)
    end;
  wk_leaf a t : x <> Some a -> 0 <= a < 2 ^ 48 -> aligned a -> T !! path_of a = Some t ->
    leaf_spec w sp a (word_at w (t + 8 * leaf_of a)) }.

Record tables_ok (id : nat) (x : option Z) w G sp T : Prop := {
  ta_blocks : blocks_ok id G sp;
  ta_shape : shape_ok sp T;
  ta_words : words_ok x w sp T }.

(** ** Table pages *)

Lemma table_page_block id h G sp t : owned h G -> blocks_ok id G sp -> table_page sp t ->
  aligned t /\ exists raw, role G !! raw = Some (TableBlock id) /\ inside G raw t VM_PAGE_SIZE.
Proof.
  intros Ho Hb [(j & Hj & ->)|(raw & Hin)].
  - destruct Hb. pose proof (owned_range _ _ _ _ _ Ho bl_root_inside0 ltac:(done)) as Hr.
    unfold HEAP_START, HEAP_END in Hr. split.
    + apply aligned_iff in bl_root_aligned0 as [Ha Hm]. apply aligned_iff.
      rewrite (Z.mul_comm 4096), Z_mod_plus_full. unfold VM_PAGE_SIZE in *. lia.
    + exists (root_allocation sp). split; [done|]. destruct bl_root_inside0 as (k & ? & ?). exists k.
      unfold VM_PAGE_SIZE in *. split_and!; [done|lia|lia].
  - apply (bl_table _ _ _ Hb) in Hin as (? & ? & ?). eauto.
Qed.

Lemma table_page_range id h G sp t : owned h G -> blocks_ok id G sp -> table_page sp t ->
  HEAP_START < t /\ t + 4096 <= HEAP_END.
Proof.
  intros Ho Hb Ht. destruct (table_page_block _ _ _ _ _ Ho Hb Ht) as (_ & raw & _ & Hi).
  by apply (owned_range _ _ _ _ _ Ho Hi).
Qed.

(** A table fresh from the heap is none of the tables there are. *)
Lemma fresh_table id h h' G sp raw t k r : owned h G -> blocks_ok id G sp ->
  live_blocks G !! raw = None -> owned h' (add_block raw k r G) ->
  raw <= t -> t + VM_PAGE_SIZE <= raw + k -> ~ table_page sp t.
Proof.
  intros Ho Hb Hraw Ho' Hlo Hhi Ht.
  destruct (table_page_block _ _ _ _ _ Ho Hb Ht) as (_ & raw' & Hr & Hi).
  assert (raw <> raw') as Hne. { intros <-. destruct Hi as (? & ? & _). congruence. }
  assert (inside (add_block raw k r G) raw t VM_PAGE_SIZE) as Hi' by (exists k; cbn; by rewrite lookup_insert_eq).
  destruct (inside_disjoint _ _ _ _ _ _ _ _ Ho' Hne Hi' (inside_add _ _ _ _ _ _ _ Hraw Hi));
    unfold VM_PAGE_SIZE in *; lia.
Qed.

(** ** Writing words *)

Lemma word_at_set w a v x :
  word_at (with_words (<[a := v]> (vw_words w)) w) x = if decide (x = a) then v else word_at w x.
Proof.
  unfold word_at. cbn. case_decide as E; [by subst; rewrite lookup_insert_eq|].
  by rewrite lookup_insert_ne.
Qed.

Lemma wp_set_word a v w (Q : unit -> VmWorld -> Prop) :
  Q tt (with_words (<[a := v]> (vw_words w)) w) -> wp (set_word a v) Q w.
Proof. done. Qed.

Lemma wp_clear_words n a w (Q : unit -> VmWorld -> Prop) :
  (forall ws, let w' := with_words ws w in
     (forall i, 0 <= i < Z.of_nat n -> word_at w' (a + 8 * i) = 0) ->
     (forall x, (forall i, 0 <= i < Z.of_nat n -> x <> a + 8 * i) -> word_at w' x = word_at w x) -> Q tt w') ->
  wp (clear_words n a) Q w.
Proof.
  revert a w. induction n as [|n IH]; intros a w HQ; cbn [clear_words].
  - apply wp_ret. replace w with (with_words (vw_words w) w) by (by destruct w). apply HQ; [lia|done].
  - wp_step. apply wp_set_word, IH. intros ws w' Hz Ho. apply (HQ ws).
    + intros i Hi. destruct (decide (i = 0)) as [->|].
      * rewrite Ho by lia. rewrite word_at_set, decide_True; lia.
      * replace (a + 8 * i) with (a + 8 + 8 * (i - 1)) by lia. apply Hz. lia.
    + intros x Hx. rewrite Ho.
      * rewrite word_at_set, decide_False; [done|]. specialize (Hx 0). lia.
      * intros i Hi. specialize (Hx (i + 1)). lia.
Qed.

(** The source does not overlap the destination. *)
Lemma wp_copy_words n a b w (Q : unit -> VmWorld -> Prop) :
  (forall i j, 0 <= i < Z.of_nat n -> 0 <= j < Z.of_nat n -> a + 8 * i <> b + 8 * j) ->
  (forall ws, let w' := with_words ws w in
     (forall i, 0 <= i < Z.of_nat n -> word_at w' (a + 8 * i) = word_at w (b + 8 * i)) ->
     (forall x, (forall i, 0 <= i < Z.of_nat n -> x <> a + 8 * i) -> word_at w' x = word_at w x) -> Q tt w') ->
  wp (copy_words n a b) Q w.
Proof.
  revert a b w. induction n as [|n IH]; intros a b w Hd HQ; cbn [copy_words].
  - apply wp_ret. replace w with (with_words (vw_words w) w) by (by destruct w). apply HQ; [lia|done].
  - do 3 wp_step. apply wp_set_word, IH.
    { intros i j Hi Hj. specialize (Hd (i + 1) (j + 1)). lia. }
    intros ws w' Hz Ho. apply (HQ ws).
    + intros i Hi. destruct (decide (i = 0)) as [->|].
      * rewrite Ho by lia. rewrite word_at_set, decide_True by lia. by rewrite Z.mul_0_r, Z.add_0_r.
      * replace (a + 8 * i) with (a + 8 + 8 * (i - 1)) by lia. rewrite Hz by lia.
        rewrite word_at_set, decide_False by (specialize (Hd 0 i); lia). f_equal. lia.
    + intros x Hx. rewrite Ho.
      * rewrite word_at_set, decide_False; [done|]. specialize (Hx 0). lia.
      * intros i Hi. specialize (Hx (i + 1)). lia.
Qed.

(** Only words of tables of [sp] differ. *)
Definition keeps_words sp w w' : Prop :=
  forall x, (forall t i, table_page sp t -> is_index i -> x <> t + 8 * i) -> word_at w' x = word_at w x.

Lemma entry_word_frames w w' p : vw_frames w' = vw_frames w -> entry_word w' p = entry_word w p.
Proof. intros E. unfold entry_word, frame_at. by rewrite E. Qed.

Lemma leaf_spec_ext w w' sp sp' a v : (forall p, entry_word w' p = entry_word w p) -> pages sp' = pages sp ->
  leaf_spec w sp a v -> leaf_spec w' sp' a v.
Proof.
  intros Ee Ep [H1 H2]. split; rewrite Ep; [|done]. intros i p. rewrite Ee. apply H1.
Qed.

Lemma tree_aligned id x h w G sp T l t : owned h G -> tables_ok id x w G sp T -> T !! l = Some t -> aligned t.
Proof.
  intros Ho [Hb Hs _] Hl. by destruct (table_page_block _ _ _ _ _ Ho Hb (sh_page _ _ Hs _ _ Hl)).
Qed.

Lemma tree_small id x h w G sp T l t : owned h G -> tables_ok id x w G sp T -> T !! l = Some t -> 0 < t < 2 ^ 52.
Proof.
  intros Ho [Hb Hs _] Hl. pose proof (table_page_range _ _ _ _ _ Ho Hb (sh_page _ _ Hs _ _ Hl)) as Hr.
  unfold HEAP_START, HEAP_END in Hr. lia.
Qed.

(** Only the words of the tables and the entries of the records matter. *)
Lemma words_ok_world x w w' sp T :
  (forall i p, pages sp !! i = Some p -> entry_word w' p = entry_word w p) ->
  (forall t i, table_page sp t -> is_index i -> word_at w' (t + 8 * i) = word_at w (t + 8 * i)) ->
  shape_ok sp T -> words_ok x w sp T -> words_ok x w' sp T.
Proof.
  intros Ee Ew Hs [He Hleaf]. split.
  - intros l t i Hl Hlen Hi. rewrite Ew by (done || by eapply sh_page). by apply He.
  - intros a t Hxa Ha Haa Hl. rewrite Ew by (by eapply sh_page || by apply index_at_is_index).
    destruct (Hleaf a t Hxa Ha Haa Hl) as [H1 H2]. split; [|done].
    intros i p Hp. rewrite (Ee _ _ Hp). by apply (H1 i).
Qed.

Lemma tables_ok_same id x w w' G sp T : vw_frames w' = vw_frames w -> vw_words w' = vw_words w ->
  tables_ok id x w G sp T -> tables_ok id x w' G sp T.
Proof.
  intros Ef Ew [Hb Hs Hw]. split; [done..|]. eapply words_ok_world; [|intros|done..].
  - intros. by apply entry_word_frames.
  - unfold word_at. by rewrite Ew.
Qed.

(** ** Adding a table *)

Section add_table.
Context (id : nat) (x : option Z) (w w' : @VmWorld H) (G : Ghost) (sp : VmSpace) (T : Tree).
Context (l : list Z) (i t t' raw k : Z) (h' : H).
Context (Ho : owned (vw_heap w) G) (Hok : tables_ok id x w G sp T).
Context (Hl : T !! l = Some t) (Hlen : (length l < 3)%nat) (Hi : is_index i) (Hnew : T !! (l ++ [i]) = None).
Context (Hraw : live_blocks G !! raw = None) (Ho' : owned h' (add_block raw k (TableBlock id) G)).
Context (Hal : aligned t') (Hlo : raw <= t') (Hhi : t' + VM_PAGE_SIZE <= raw + k).
Context (Hfr : vw_frames w' = vw_frames w).
Context (Hzero : forall j, is_index j -> word_at w' (t' + 8 * j) = 0).
Context (Hset : word_at w' (t + 8 * i) = Z.lor t' TABLE_FLAGS).
Context (Hsame : forall y, y <> t + 8 * i -> (forall j, is_index j -> y <> t' + 8 * j) -> word_at w' y = word_at w y).

Let G' := add_block raw k (TableBlock id) G.
Let sp' := with_tables (tables sp ++ [(t', raw)]) sp.
Let T' := <[l ++ [i] := t']> T.

Lemma add_table_fresh : ~ table_page sp t'.
Proof. exact (fresh_table _ _ _ _ _ _ _ _ _ Ho (ta_blocks _ _ _ _ _ _ Hok) Hraw Ho' Hlo Hhi). Qed.

Lemma add_table_page u : table_page sp u -> table_page sp' u.
Proof. intros [?|(r & Hr)]; [by left|]. right. exists r. cbn. set_solver. Qed.

Lemma add_table_word u j l1 : T !! l1 = Some u -> is_index j -> l1 ++ [j] <> l ++ [i] ->
  word_at w' (u + 8 * j) = word_at w (u + 8 * j).
Proof.
  intros Hu Hj Hne. pose proof (ta_shape _ _ _ _ _ _ Hok) as Hs.
  pose proof (tree_aligned _ _ _ _ _ _ _ _ _ Ho Hok Hu). pose proof (tree_aligned _ _ _ _ _ _ _ _ _ Ho Hok Hl).
  apply Hsame.
  - intros E. apply entry_inj in E as [-> ->]; eauto. apply Hne. f_equal. by eapply sh_inj.
  - intros j' Hj' E. apply entry_inj in E as [-> _]; eauto. apply add_table_fresh. by eapply sh_page.
Qed.

Lemma add_table_blocks : blocks_ok id G' sp'.
Proof.
  destruct Hok as [[] _ _]. assert (forall p r, role G !! p = Some r -> raw <> p) as Hne.
  { intros p r Hp <-. apply Ho in Hp as [? ?]. congruence. }
  split; cbn; try done.
  - rewrite lookup_insert_ne by eauto. done.
  - by apply inside_add.
  - intros u r. rewrite elem_of_app, list_elem_of_singleton. intros [Hu|[= -> ->]].
    + destruct (bl_table0 _ _ Hu) as (Hr & ? & ?). rewrite lookup_insert_ne by eauto.
      split_and!; [done|by apply inside_add|done].
    + rewrite lookup_insert_eq. split_and!; [done| |done]. exists k. cbn. by rewrite lookup_insert_eq.
  - rewrite fmap_app. cbn. rewrite app_comm_cons. apply NoDup_app. split_and!; [done| |apply NoDup_singleton].
    intros y Hy. rewrite list_elem_of_singleton. intros ->. apply elem_of_cons in Hy as [->|Hy].
    + by eapply Hne.
    + apply list_elem_of_fmap in Hy as ((u & r) & -> & Hu). destruct (bl_table0 _ _ Hu) as (Hr & _).
      by eapply Hne.
Qed.

Lemma add_table_shape : shape_ok sp' T'.
Proof.
  pose proof (ta_shape _ _ _ _ _ _ Hok) as Hs. unfold T'. split.
  - rewrite lookup_insert_ne by (by destruct l). apply Hs.
  - intros l1 u. rewrite lookup_insert_Some. intros [[_ <-]|[_ Hu]].
    + right. exists raw. cbn. set_solver.
    + apply add_table_page. by eapply sh_page.
  - intros l1 l2 u. rewrite !lookup_insert_Some. intros [[<- <-]|[_ H1]] [[<- E]|[_ H2]]; try done.
    + exfalso. apply add_table_fresh. by eapply sh_page.
    + exfalso. rewrite <- E in H1. apply add_table_fresh. by eapply sh_page.
    + by eapply sh_inj.
  - intros l1 j u. rewrite lookup_insert_Some. intros [[E _]|[_ Hu]].
    + apply app_inj_tail in E as [<- <-]. split_and!; [|done..].
      destruct (decide (l ++ [i] = l)) as [E|]; [by apply (f_equal length) in E; rewrite length_app in E; cbn in E; lia|].
      rewrite lookup_insert_ne by done. eauto.
    + destruct (sh_parent _ _ Hs _ _ _ Hu) as ([v Hv] & ? & ?). split_and!; [|done..].
      destruct (decide (l ++ [i] = l1)) as [->|]; [rewrite lookup_insert_eq; eauto|].
      rewrite lookup_insert_ne by done. eauto.
  - intros j p Hp. destruct (sh_mapped _ _ Hs _ _ Hp) as [? [v Hv]]. split; [done|].
    rewrite lookup_insert_ne by congruence. eauto.
Qed.

Lemma add_table_words : words_ok x w' sp' T'.
Proof.
  pose proof (ta_shape _ _ _ _ _ _ Hok) as Hs. destruct (ta_words _ _ _ _ _ _ Hok) as [He Hleaf]. unfold T'. split.
  - intros l1 u j. rewrite lookup_insert_Some. intros [[<- <-]|[Hne Hu]] Hlen1 Hj.
    + rewrite lookup_insert_ne by (intros E; apply (f_equal length) in E; rewrite !length_app in E; cbn in E; lia).
      destruct (T !! ((l ++ [i]) ++ [j])) as [v|] eqn:Ev.
      { apply (sh_parent _ _ Hs) in Ev as ([? ?] & _). congruence. }
      rewrite Hzero by done. split; [by left|done].
    + destruct (decide (l ++ [i] = l1 ++ [j])) as [E|Hne2].
      * rewrite E, lookup_insert_eq. apply app_inj_tail in E as [<- <-].
        assert (u = t) as -> by congruence. done.
      * rewrite lookup_insert_ne, (add_table_word u j l1) by done. by apply He.
  - intros a u Hxa Ha Haa. rewrite lookup_insert_Some. intros [[E <-]|[Hne Hu]].
    + rewrite Hzero by (by apply index_at_is_index). split; [|done].
      intros j p Hp Hpa. subst a. apply (sh_mapped _ _ Hs) in Hp as [_ [? ?]]. congruence.
    + rewrite Hsame.
      * eapply leaf_spec_ext; [intros; by apply entry_word_frames|done|by apply Hleaf].
      * intros E. pose proof (tree_aligned _ _ _ _ _ _ _ _ _ Ho Hok Hu). pose proof (tree_aligned _ _ _ _ _ _ _ _ _ Ho Hok Hl).
        apply entry_inj in E as [-> _]; [|done..|by apply index_at_is_index|done].
        assert (path_of a = l) as <- by (by eapply sh_inj). cbn in Hlen. lia.
      * intros j Hj E. pose proof (tree_aligned _ _ _ _ _ _ _ _ _ Ho Hok Hu).
        apply entry_inj in E as [-> _]; [|done..|by apply index_at_is_index|done].
        apply add_table_fresh. by eapply sh_page.
Qed.

Lemma add_table_ok : tables_ok id x w' G' sp' T'.
Proof. split; [apply add_table_blocks|apply add_table_shape|apply add_table_words]. Qed.

End add_table.

(** ** Changing one entry *)

(** An entry that leads to no table is cleared. *)
Lemma clear_entry_ok id x w G sp T l t i (w' := with_words (<[t + 8 * i := 0]> (vw_words w)) w) :
  owned (vw_heap w) G -> tables_ok id x w G sp T -> T !! l = Some t -> (length l < 3)%nat -> is_index i ->
  T !! (l ++ [i]) = None -> tables_ok id x w' G sp T.
Proof.
  intros Ho Hok Hl Hlen Hi Hnew. pose proof Hok as [Hb Hs [He Hleaf]].
  pose proof (tree_aligned _ _ _ _ _ _ _ _ _ Ho Hok Hl) as Hal. split; [done..|split].
  - intros l1 u j Hu Hlen1 Hj. unfold w'. rewrite word_at_set. case_decide as E; [|by apply He].
    apply entry_inj in E as [-> ->]; [|by eapply tree_aligned|done..].
    assert (l1 = l) as -> by (by eapply sh_inj). rewrite Hnew. split; [by left|done].
  - intros a u Hxa Ha Haa Hu. unfold w'. rewrite word_at_set, decide_False; [by apply Hleaf|].
    intros E. apply entry_inj in E as [-> _]; [|by eapply tree_aligned|done|by apply index_at_is_index|done].
    assert (path_of a = l) as <- by (by eapply sh_inj). cbn in Hlen. lia.
Qed.

(** A leaf entry is written. *)
Lemma set_leaf_ok id x w G sp sp' T a t v (w' := with_words (<[t + 8 * leaf_of a := v]> (vw_words w)) w) :
  owned (vw_heap w) G -> tables_ok id x w G sp T -> (forall b, x = Some b -> b = a) ->
  T !! path_of a = Some t -> 0 <= a < 2 ^ 48 -> aligned a ->
  blocks_ok id G sp' -> shape_ok sp' T ->
  (forall b u, b <> a -> leaf_spec w sp b u -> leaf_spec w' sp' b u) -> leaf_spec w' sp' a v ->
  tables_ok id None w' G sp' T.
Proof.
  intros Ho Hok Hx Hl Ha Haa Hb' Hs' Hother Hv. pose proof Hok as [Hb Hs [He Hleaf]].
  pose proof (tree_aligned _ _ _ _ _ _ _ _ _ Ho Hok Hl) as Hal. split; [done..|split].
  - intros l1 u j Hu Hlen1 Hj. unfold w'. rewrite word_at_set, decide_False; [by apply He|].
    intros E. apply entry_inj in E as [-> _]; [|by eapply tree_aligned|done..|by apply index_at_is_index].
    assert (l1 = path_of a) as -> by (by eapply sh_inj). cbn in Hlen1. lia.
  - intros b u _ Hb0 Hba Hu. unfold w' at 2. rewrite word_at_set. case_decide as E.
    + apply entry_inj in E as [-> Ei]; [|by eapply tree_aligned|done|by apply index_at_is_index..].
      assert (path_of b = path_of a) by (by eapply sh_inj).
      assert (b = a) as -> by (by apply indices_inj). done.
    + assert (b <> a) as Hne by (intros ->; apply E; f_equal; congruence).
      apply Hother; [done|]. apply Hleaf; [|done..]. intros Eb. by apply Hne, Hx.
Qed.

(** ** Walking *)

Record tinv (id : nat) (x : option Z) rc (s : VmState) G T : Prop := {
  ti_world : world_ok (world s) G rc;
  ti_tables : tables_ok id x (world s) G (space s) T }.

(** Nothing but new tables and entries that lead to them. *)
Record grown (id : nat) (s : VmState) G T (s' : VmState) G' T' : Prop := {
  gr_space : exists l, space s' = with_tables (tables (space s) ++ l) (space s);
  gr_frames : vw_frames (world s') = vw_frames (world s);
  gr_pages : vw_pages (world s') = vw_pages (world s);
  gr_words : keeps_words (space s') (world s) (world s');
  gr_role p r : role G !! p = Some r -> role G' !! p = Some r;
  gr_live p k : live_blocks G !! p = Some k -> live_blocks G' !! p = Some k;
  gr_tree l t : T !! l = Some t -> T' !! l = Some t }.

Lemma table_page_app sp l t : table_page sp t -> table_page (with_tables (tables sp ++ l) sp) t.
Proof. intros [?|(r & Hr)]; [by left|]. right. exists r. cbn. set_solver. Qed.

Lemma grown_refl id s G T : grown id s G T s G T.
Proof. split; try done. exists []. rewrite app_nil_r. by destruct s as [? []]. Qed.

Lemma grown_trans id s G T s1 G1 T1 s2 G2 T2 :
  grown id s G T s1 G1 T1 -> grown id s1 G1 T1 s2 G2 T2 -> grown id s G T s2 G2 T2.
Proof.
  intros [[l1 E1] ? ? Hw1 Hr1 Hl1 Ht1] [[l2 E2] ? ? Hw2 Hr2 Hl2 Ht2].
  assert (space s2 = with_tables (tables (space s) ++ l1 ++ l2) (space s)) as E.
  { rewrite E2, E1, app_assoc. by destruct (space s). }
  split; try congruence; eauto.
  intros x Hx. rewrite Hw2 by done. apply Hw1. intros t i Ht. apply Hx. rewrite E2. by apply table_page_app.
Qed.

Lemma inside_live G G' raw a n : (forall p k, live_blocks G !! p = Some k -> live_blocks G' !! p = Some k) ->
  inside G raw a n -> inside G' raw a n.
Proof. intros Hl (k & Hk & ?). exists k. eauto. Qed.

Lemma boot_keep id h w w' G sp : owned h G -> blocks_ok id G sp -> keeps_words sp w w' -> boot_ok w -> boot_ok w'.
Proof.
  intros Ho Hb Hk [H1 H2].
  assert (forall x, x < HEAP_START -> word_at w' x = word_at w x) as Hlow.
  { intros x Hx. apply Hk. intros t i Ht Hi ->.
    pose proof (table_page_range _ _ _ _ _ Ho Hb Ht). unfold is_index in Hi. lia. }
  split; intros i Hi; rewrite Hlow by (unfold BOOT_PML4, BOOT_DIRECTORIES, HEAP_START; lia); auto.
Qed.

Lemma world_ok_grow id w w' G G' sp rc :
  world_ok w G rc -> vw_frames w' = vw_frames w -> vw_pages w' = vw_pages w -> keeps_words sp w w' ->
  owned (vw_heap w') G' -> blocks_ok id G' sp ->
  (forall p r, role G !! p = Some r -> role G' !! p = Some r) ->
  (forall p k, live_blocks G !! p = Some k -> live_blocks G' !! p = Some k) -> world_ok w' G' rc.
Proof.
  intros [Ho Hf Hh Hc Hb] Ef Ep Hk Ho' Hbl Hr Hl. split; [done| | |done|by eapply boot_keep].
  - intros f fr. rewrite Ef, Ep. intros Hfr. destruct (Hf _ _ Hfr) as [? [b ?] ? Hi ? ? ? ?].
    split; eauto using inside_live.
  - by rewrite Ef.
Qed.

Lemma wp_on_world {A} (op : st VmWorld A) (Q : A -> VmState -> Prop) s :
  wp op (fun a w => Q a (mkVm w (space s))) (world s) -> wp (on_world op) Q s.
Proof. unfold wp, on_world. by destruct (op (world s)). Qed.

Lemma wp_on_space {A} (op : VmSpace -> A * VmSpace) (Q : A -> VmState -> Prop) (s : VmState (H := H)) :
  (forall a sp, op (space s) = (a, sp) -> Q a (mkVm (world s) sp)) -> wp (on_space op) Q s.
Proof. unfold wp, on_space. destruct (op (space s)) eqn:E. eauto. Qed.

Lemma wp_edit_space f (Q : unit -> VmState -> Prop) (s : VmState (H := H)) :
  Q tt (mkVm (world s) (f (space s))) -> wp (edit_space f) Q s.
Proof. done. Qed.

(** The table [t'], cleared, is linked to its entry. *)
Lemma link_table_ok id x rc (s : VmState) G T l t i t' raw k h ws (w1 := with_words ws (with_vm_heap h (world s)))
    (s' := mkVm (with_words (<[t + 8 * i := Z.lor t' TABLE_FLAGS]> (vw_words w1)) w1)
             (with_tables (tables (space s) ++ [(t', raw)]) (space s)))
    (G' := add_block raw k (TableBlock id) G) (T' := <[l ++ [i] := t']> T) :
  tinv id x rc s G T -> T !! l = Some t -> (length l < 3)%nat -> is_index i -> T !! (l ++ [i]) = None ->
  live_blocks G !! raw = None -> owned h G' -> aligned t' -> raw <= t' -> t' + VM_PAGE_SIZE <= raw + k ->
  (forall j, is_index j -> word_at w1 (t' + 8 * j) = 0) ->
  (forall x, (forall j, is_index j -> x <> t' + 8 * j) -> word_at w1 x = word_at (world s) x) ->
  tinv id x rc s' G' T' /\ grown id s G T s' G' T' /\ T' !! (l ++ [i]) = Some t'.
Proof.
  intros [Hw Hok] Hl Hlen Hi Hnew Hraw Ho' Hal Hlo Hhi Hz Hsame. pose proof (wo_owned _ _ _ Hw) as Ho.
  pose proof (tree_aligned _ _ _ _ _ _ _ _ _ Ho Hok Hl) as Halt.
  assert (t <> t') as Hne.
  { intros <-. eapply (add_table_fresh id x (world s) G (space s) T t raw k h); try done.
    eapply sh_page; [apply Hok|done]. }
  assert (tables_ok id x (world s') G' (space s') T') as Hok'.
  { apply (add_table_ok id x (world s) (world s') G (space s) T l i t t' raw k h); try done.
    - intros j Hj. cbn [world s']. rewrite word_at_set, decide_False; [by apply Hz|].
      intros E. by apply entry_inj in E as [? _].
    - cbn [world s']. by rewrite word_at_set, decide_True.
    - intros y Hx1 Hx2. cbn [world s']. rewrite word_at_set, decide_False by done. by apply Hsame. }
  assert (grown id s G T s' G' T') as Hg.
  { split; cbn; try done.
    - by exists [(t', raw)].
    - intros y Hx. cbn. change (word_at (with_words (<[t + 8 * i := Z.lor t' TABLE_FLAGS]> (vw_words w1)) w1) y = word_at (world s) y).
      rewrite word_at_set, decide_False.
      + apply Hsame. intros j Hj. apply Hx; [|done]. right. exists raw. cbn. set_solver.
      + apply Hx; [|done]. apply table_page_app. eapply sh_page; [apply Hok|done].
    - intros p r Hp. rewrite lookup_insert_ne; [done|]. intros <-. apply Ho in Hp as [? ?]. congruence.
    - intros p r Hp. rewrite lookup_insert_ne by congruence. done.
    - intros l1 u Hu. unfold T'. rewrite lookup_insert_ne by congruence. done. }
  split_and!; [|done|apply lookup_insert_eq]. split; [|done]. destruct Hg.
  by eapply (world_ok_grow id (world s) _ G G' (space s')); [..|apply Hok'| |].
Qed.

Lemma wp_next_table id x rc s G T l t i (Q : Z -> VmState -> Prop) :
  tinv id x rc s G T -> T !! l = Some t -> (length l < 3)%nat -> is_index i ->
  (T !! (l ++ [i]) = None -> has (word_at (world s) (t + 8 * i)) PAGE_PRESENT = false) ->
  (forall s' G' T', tinv id x rc s' G' T' -> grown id s G T s' G' T' -> Q 0 s') ->
  (forall t' s' G' T', t' <> 0 -> tinv id x rc s' G' T' -> grown id s G T s' G' T' ->
     T' !! (l ++ [i]) = Some t' -> Q t' s') ->
  wp (next_table (t + 8 * i) true) Q s.
Proof.
  intros [Hw Hok] Hl Hlen Hi Hfree H0 H1. pose proof (wo_owned _ _ _ Hw) as Ho.
  unfold next_table. do 2 wp_step. pose proof Hok as [Hb Hs [He _]]. specialize (He l t i Hl Hlen Hi).
  destruct (T !! (l ++ [i])) as [t'|] eqn:Ec.
  { pose proof (tree_aligned _ _ _ _ _ _ _ _ _ Ho Hok Ec) as Hal.
    pose proof (tree_small _ _ _ _ _ _ _ _ _ Ho Hok Ec) as Hsm.
    destruct (table_entry t' Hal ltac:(lia)) as (E1 & E2 & _ & _ & E3). rewrite He, E1, E2, E3.
    apply wp_ret. eapply H1; [lia|by split|apply grown_refl|done]. }
  rewrite (Hfree eq_refl). cbn [negb]. wp_step. unfold allocate_table. do 2 wp_step.
  case_if as Efull; wp_step. { eapply H0; [by split|apply grown_refl]. }
  apply wp_on_world. apply (wp_aligned_heap_alloc _ _ G); [unfold VM_PAGE_SIZE; lia|done| |].
  { intros h Hh. wp_step. eapply (H0 _ G T).
    - split; [by apply world_ok_heap|by apply (tables_ok_same _ _ (world s))].
    - split; try done. exists []. rewrite app_nil_r. by destruct (space s). }
  intros t' raw k h Hraw Hfresh Hal Hlo Hhi Hh. wp_step. apply wp_on_world. apply wp_clear_words.
  intros ws w1 Hz Hsame. wp_step. apply wp_edit_space. wp_steps. cbn [world space] in *.
  assert (inside (add_block raw k (TableBlock id) G) raw t' VM_PAGE_SIZE) as Hin
    by (exists k; cbn; by rewrite lookup_insert_eq).
  pose proof (owned_range _ _ _ _ _ (Hh (TableBlock id)) Hin ltac:(done)) as Hr. unfold HEAP_START in Hr.
  rewrite (proj2 (Z.eqb_neq t' 0)) by lia. wp_step. apply wp_on_world, wp_set_word. wp_step. cbn [world space].
  assert (forall j, is_index j -> word_at w1 (t' + 8 * j) = 0) as Hz'.
  { intros j Hj. apply Hz. unfold is_index in Hj. lia. }
  assert (forall x, (forall j, is_index j -> x <> t' + 8 * j) -> word_at w1 x = word_at (world s) x) as Hsame'.
  { intros y Hy. apply Hsame. intros j Hj. apply Hy. unfold is_index. lia. }
  pose proof (link_table_ok id x rc s G T l t i t' raw k h ws (Build_tinv _ _ _ _ _ _ Hw Hok) Hl Hlen Hi Ec Hfresh
    (Hh _) Hal Hlo Hhi Hz' Hsame') as (Hti & Hg & Hlk).
  eapply H1; [lia|done..].
Qed.

(** An entry of the two upper levels is not present when it leads to no table. *)
Lemma upper_entry_free id x w G sp T l t i : tables_ok id x w G sp T -> T !! l = Some t -> (length l < 2)%nat -> is_index i ->
  T !! (l ++ [i]) = None -> has (word_at w (t + 8 * i)) PAGE_PRESENT = false.
Proof.
  intros Hok Hl Hlen Hi E. pose proof (wk_entry _ _ _ _ (ta_words _ _ _ _ _ _ Hok) _ _ _ Hl ltac:(lia) Hi) as He.
  rewrite E in He. by apply He.
Qed.

(** The large page of the kernel at a directory entry gives way. *)
Lemma wp_clear_huge id x rc s G T l t i (Q : unit -> VmState -> Prop) :
  tinv id x rc s G T -> T !! l = Some t -> length l = 2%nat -> is_index i ->
  (forall s', tinv id x rc s' G T -> grown id s G T s' G T ->
     (T !! (l ++ [i]) = None -> has (word_at (world s') (t + 8 * i)) PAGE_PRESENT = false) -> Q tt s') ->
  wp (if has (word_at (world s) (t + 8 * i)) PAGE_HUGE && true then on_world (set_word (t + 8 * i) 0) else ret tt) Q s.
Proof.
  intros [Hw Hok] Hl Hlen Hi HQ. pose proof (wo_owned _ _ _ Hw) as Ho. rewrite andb_true_r.
  pose proof (wk_entry _ _ _ _ (ta_words _ _ _ _ _ _ Hok) _ _ _ Hl ltac:(lia) Hi) as He. case_if as Eh.
  - assert (T !! (l ++ [i]) = None) as Hnew.
    { destruct (T !! (l ++ [i])) as [t'|] eqn:Ec; [|done].
      destruct (table_entry t') as (_ & E2 & _); [by eapply tree_aligned| |congruence].
      by apply (tree_small _ _ _ _ _ _ _ _ _ Ho Hok Ec). }
    apply wp_on_world, wp_set_word. apply HQ; cbn [world space].
    + assert (tables_ok id x (with_words (<[t + 8 * i := 0]> (vw_words (world s))) (world s)) G (space s) T) as Hok'
        by (apply (clear_entry_ok id x _ _ _ _ l); [done..|lia|done|done]).
      split; [|done]. eapply (world_ok_grow id (world s) _ G G (space s)); try done; [|apply Hok].
      intros y Hx. cbn [world]. rewrite word_at_set, decide_False; [done|]. apply Hx; [|done]. eapply sh_page; [apply Hok|done].
    + split; try done; cbn.
      * exists []. rewrite app_nil_r. by destruct (space s).
      * intros y Hx. rewrite word_at_set, decide_False; [done|]. apply Hx; [|done]. eapply sh_page; [apply Hok|done].
    + intros _. by rewrite word_at_set, decide_True.
  - apply wp_ret, HQ; [done|apply grown_refl|]. intros E. rewrite E in He.
    destruct He as [[?|[? _]] _]; congruence.
Qed.

Lemma pml4_nonzero id x rc s G T : tinv id x rc s G T -> (pml4 (space s) =? 0) = false.
Proof.
  intros [Hw Hok]. pose proof (tree_small _ _ _ _ _ _ _ _ _ (wo_owned _ _ _ Hw) Hok (sh_root _ _ (ta_shape _ _ _ _ _ _ Hok))).
  lia.
Qed.

(** A walk that creates tables ends at the leaf entry, or with no memory. *)
Lemma wp_walk_create id x rc s G T a (Q : Z -> VmState -> Prop) :
  tinv id x rc s G T ->
  (forall s' G' T', tinv id x rc s' G' T' -> grown id s G T s' G' T' -> Q 0 s') ->
  (forall t s' G' T', canonical_user_address a = true -> tinv id x rc s' G' T' -> grown id s G T s' G' T' ->
     T' !! path_of a = Some t -> Q (t + 8 * leaf_of a) s') ->
  wp (walk_page_entry a true) Q s.
Proof.
  intros Hti H0 H1. unfold walk_page_entry. do 2 wp_step. rewrite (pml4_nonzero _ _ _ _ _ _ Hti). cbn [orb].
  destruct (canonical_user_address a) eqn:Ec; cbn [negb]; [|wp_step; eapply H0; [done|apply grown_refl]].
  pose proof (sh_root _ _ (ta_shape _ _ _ _ _ _ (ti_tables _ _ _ _ _ _ Hti))) as Hroot.
  wp_step. apply (wp_next_table id x rc s G T [] _ (index_at 39 a)); [done|done|cbn; lia|by apply index_at_is_index| | |].
  { apply (upper_entry_free id x _ G (space s)); [apply Hti|done|cbn; lia|by apply index_at_is_index]. }
  { intros s1 G1 T1 Hti1 Hg1. rewrite Z.eqb_refl. wp_step. by eapply H0. }
  intros t1 s1 G1 T1 Hnz1 Hti1 Hg1 Hl1. rewrite (proj2 (Z.eqb_neq _ _) Hnz1). wp_step.
  apply (wp_next_table id x rc s1 G1 T1 [index_at 39 a] _ (index_at 30 a)); [done|done|cbn; lia|by apply index_at_is_index| | |].
  { apply (upper_entry_free id x _ G1 (space s1)); [apply Hti1|done|cbn; lia|by apply index_at_is_index]. }
  { intros s2 G2 T2 Hti2 Hg2. rewrite Z.eqb_refl. wp_step. eapply H0; [done|by eapply grown_trans]. }
  intros t2 s2 G2 T2 Hnz2 Hti2 Hg2 Hl2. rewrite (proj2 (Z.eqb_neq _ _) Hnz2). do 3 wp_step.
  apply (wp_clear_huge id x rc s2 G2 T2 [index_at 39 a; index_at 30 a] t2 (index_at 21 a));
    [done|done|done|by apply index_at_is_index|].
  intros s3 Hti3 Hg3 Hfree. wp_step.
  apply (wp_next_table id x rc s3 G2 T2 [index_at 39 a; index_at 30 a] _ (index_at 21 a));
    [done|done|cbn; lia|by apply index_at_is_index|done| |].
  { intros s4 G4 T4 Hti4 Hg4. rewrite Z.eqb_refl. wp_step. eapply H0; [done|eauto using grown_trans]. }
  intros t4 s4 G4 T4 Hnz4 Hti4 Hg4 Hl4. rewrite (proj2 (Z.eqb_neq _ _) Hnz4). wp_step.
  eapply H1; [done|done|eauto using grown_trans|done].
Qed.

(** The entry of a page whose tables exist, without creating any. *)
Lemma wp_walk id x rc s G T a t (Q : Z -> VmState -> Prop) :
  tinv id x rc s G T -> canonical_user_address a = true -> T !! path_of a = Some t ->
  Q (t + 8 * leaf_of a) s -> wp (walk_page_entry a false) Q s.
Proof.
  intros Hti Hc Ht HQ. unfold walk_page_entry. do 2 wp_step. rewrite (pml4_nonzero _ _ _ _ _ _ Hti), Hc. cbn [orb negb].
  pose proof Hti as [Hw Hok]. pose proof (ta_shape _ _ _ _ _ _ Hok) as Hs. pose proof (wo_owned _ _ _ Hw) as Ho.
  destruct (sh_parent _ _ Hs [index_at 39 a; index_at 30 a] _ _ Ht) as ([t2 Ht2] & _ & _).
  destruct (sh_parent _ _ Hs [index_at 39 a] _ _ Ht2) as ([t1 Ht1] & _ & _).
  assert (forall l t0 i t' (R : Z -> VmState -> Prop), T !! l = Some t0 -> (length l < 3)%nat -> is_index i -> T !! (l ++ [i]) = Some t' ->
    R t' s -> wp (next_table (t0 + 8 * i) false) R s) as Hnext.
  { intros l t0 i t' R Hl Hlen Hi Hc' HR. unfold next_table. do 2 wp_step.
    pose proof (wk_entry _ _ _ _ (ta_words _ _ _ _ _ _ Hok) _ _ _ Hl Hlen Hi) as He. rewrite Hc' in He.
    destruct (table_entry t') as (E1 & E2 & _ & _ & E3); [by eapply tree_aligned|by apply (tree_small _ _ _ _ _ _ _ _ _ Ho Hok Hc')|].
    rewrite He, E1, E2, E3. by wp_step. }
  assert (forall l t', T !! l = Some t' -> (t' =? 0) = false) as Hnz.
  { intros l t' Hl. pose proof (tree_small _ _ _ _ _ _ _ _ _ Ho Hok Hl). lia. }
  wp_step. eapply (Hnext []); [apply Hs|cbn; lia|by apply (index_at_is_index 39)|done|]. rewrite (Hnz _ _ Ht1).
  wp_step. eapply (Hnext [index_at 39 a]); [done|cbn; lia|by apply (index_at_is_index 30)|done|]. rewrite (Hnz _ _ Ht2).
  do 3 wp_step. rewrite andb_false_r. do 2 wp_step.
  eapply (Hnext [index_at 39 a; index_at 30 a]); [done|cbn; lia|by apply (index_at_is_index 21)|done|]. rewrite (Hnz _ _ Ht).
  by wp_step.
Qed.

(** ** The root *)

Lemma root_tree_inv sp l t : root_tree sp !! l = Some t ->
  (l = [] /\ t = pml4 sp) \/ (l = [0] /\ t = pml4 sp + 4096) \/
  (exists j, 0 <= j < 4 /\ l = [0; j] /\ t = pml4 sp + 8192 + 4096 * j).
Proof.
  unfold root_tree. rewrite !lookup_insert_Some, lookup_singleton_Some.
  intros [[<- <-]|[_ [[<- <-]|[_ [[<- <-]|[_ [[<- <-]|[_ [[<- <-]|[_ [<- <-]]]]]]]]]]]; auto; right; right.
  - exists 0. split_and!; [lia|lia|done|lia].
  - exists 1. split_and!; [lia|lia|done|lia].
  - exists 2. split_and!; [lia|lia|done|lia].
  - exists 3. split_and!; [lia|lia|done|lia].
Qed.

Lemma root_tree_directory sp j : 0 <= j < 4 -> root_tree sp !! [0; j] = Some (pml4 sp + 8192 + 4096 * j).
Proof.
  intros Hj. assert (j = 0 \/ j = 1 \/ j = 2 \/ j = 3) as [->|[->|[->| ->]]] by lia; cbn -[Z.add];
    unfold root_tree; by simplify_map_eq; f_equal; lia.
Qed.

Lemma wp_link_directories sp w (Q : unit -> VmWorld -> Prop) :
  (forall ws, let w' := with_words ws w in
     (forall j, 0 <= j < 4 -> word_at w' (bootstrap_pdpt sp + 8 * j) =
        Z.lor (bootstrap_directories sp + 4096 * j) TABLE_FLAGS) ->
     (forall x, (forall j, 0 <= j < 4 -> x <> bootstrap_pdpt sp + 8 * j) -> word_at w' x = word_at w x) -> Q tt w') ->
  wp (link_directories 4 0 sp) Q w.
Proof.
  intros HQ. cbn [link_directories]. do 4 (wp_step; apply wp_set_word). wp_step.
  cbn [vw_words with_words vw_heap vw_frames vw_pages]. eapply (HQ (<[_ := _]> _)).
  - intros j Hj. unfold word_at. cbn [vw_words with_words].
    assert (j = 0 \/ j = 1 \/ j = 2 \/ j = 3) as [->|[->|[->| ->]]] by lia.
    + rewrite !lookup_insert_ne by lia. replace (bootstrap_pdpt sp + 8 * 0) with (bootstrap_pdpt sp + 0 * 8) by lia.
      rewrite lookup_insert_eq. cbn -[Z.lor Z.add Z.mul]. f_equal; lia.
    + rewrite !lookup_insert_ne by lia. replace (bootstrap_pdpt sp + 8 * 1) with (bootstrap_pdpt sp + (0 + 1) * 8) by lia.
      rewrite lookup_insert_eq. cbn -[Z.lor Z.add Z.mul]. f_equal; lia.
    + rewrite !lookup_insert_ne by lia. replace (bootstrap_pdpt sp + 8 * 2) with (bootstrap_pdpt sp + (0 + 1 + 1) * 8) by lia.
      rewrite lookup_insert_eq. cbn -[Z.lor Z.add Z.mul]. f_equal; lia.
    + replace (bootstrap_pdpt sp + 8 * 3) with (bootstrap_pdpt sp + (0 + 1 + 1 + 1) * 8) by lia.
      rewrite lookup_insert_eq. cbn -[Z.lor Z.add Z.mul]. f_equal; lia.
  - intros x Hx. unfold word_at. cbn [vw_words with_words].
    rewrite !lookup_insert_ne; [done| | | |].
    + specialize (Hx 0). lia.
    + specialize (Hx 1). lia.
    + specialize (Hx 2). lia.
    + specialize (Hx 3). lia.
Qed.

(** The words of the six pages of the root after [initialize_root]. *)
Record root_words w sp w' : Prop := {
  rw_first : word_at w' (pml4 sp) = Z.lor (pml4 sp + 4096) TABLE_FLAGS;
  rw_boot i : 0 < i < 512 -> word_at w' (pml4 sp + 8 * i) = word_at w (BOOT_PML4 + 8 * i);
  rw_pdpt j : 0 <= j < 4 -> word_at w' (pml4 sp + 4096 + 8 * j) = Z.lor (pml4 sp + 8192 + 4096 * j) TABLE_FLAGS;
  rw_zero j : 4 <= j < 512 -> word_at w' (pml4 sp + 4096 + 8 * j) = 0;
  rw_directory i : 0 <= i < 2048 -> word_at w' (pml4 sp + 8192 + 8 * i) = word_at w (BOOT_DIRECTORIES + 8 * i);
  rw_other x : (forall i, 0 <= i < 3072 -> x <> pml4 sp + 8 * i) -> word_at w' x = word_at w x }.

Lemma wp_initialize_root s (Q : unit -> VmState -> Prop) :
  HEAP_START < pml4 (space s) -> bootstrap_pdpt (space s) = pml4 (space s) + 4096 ->
  bootstrap_directories (space s) = pml4 (space s) + 8192 ->
  (forall ws, root_words (world s) (space s) (with_words ws (world s)) -> Q tt (mkVm (with_words ws (world s)) (space s))) ->
  wp initialize_root Q s.
Proof.
  intros Hlo Ep Ed HQ. unfold initialize_root, HEAP_START in *. do 3 wp_step.
  apply wp_on_world, wp_clear_words. intros ws1 w1 Hz1 Ho1. wp_step.
  apply wp_on_world, wp_copy_words; [unfold BOOT_PML4; cbn [space world]; lia|]. intros ws2 w2 Hz2 Ho2. wp_step.
  apply wp_on_world, wp_copy_words; [unfold BOOT_DIRECTORIES; cbn [space world]; lia|]. intros ws3 w3 Hz3 Ho3. wp_step.
  apply wp_on_world, wp_set_word. set (w4 := with_words _ _).
  apply wp_on_world, wp_link_directories. intros ws5 w5 Hz5 Ho5.
  cbn [world space] in *. rewrite Ed in *. rewrite Ep in *.
  assert (forall x, word_at w4 x = if decide (x = pml4 (space s)) then Z.lor (pml4 (space s) + 4096) TABLE_FLAGS else word_at w3 x)
    as Hw4 by (intros x; rewrite <- Ep; apply word_at_set).
  apply (HQ ws5). change (with_words ws5 (world s)) with w5. unfold BOOT_PML4, BOOT_DIRECTORIES in *. split.
  - rewrite Ho5 by lia. rewrite Hw4, decide_True by done. done.
  - intros i Hi. rewrite Ho5, Hw4, decide_False, Ho3, Hz2, Ho1 by lia. done.
  - intros j Hj. rewrite Hz5 by lia. done.
  - intros j Hj. rewrite Ho5, Hw4, decide_False, Ho3, Ho2 by lia.
    replace (pml4 (space s) + 4096 + 8 * j) with (pml4 (space s) + 8 * (512 + j)) by lia. apply Hz1. lia.
  - intros i Hi. rewrite Ho5, Hw4, decide_False, Hz3, Ho2, Ho1 by lia. done.
  - intros x Hx. assert (forall i, 0 <= i < 3072 -> x <> pml4 (space s) + 8 * i) as Hx' by done.
    rewrite Ho5 by (intros j Hj; specialize (Hx' (512 + j)); lia).
    rewrite Hw4, decide_False by (specialize (Hx' 0); lia).
    rewrite Ho3 by (intros j Hj; specialize (Hx' (1024 + j)); lia).
    rewrite Ho2 by (intros j Hj; specialize (Hx' j); lia).
    apply Ho1. intros j Hj. apply Hx. lia.
Qed.

Lemma root_tree_nil sp : root_tree sp !! [] = Some (pml4 sp).
Proof. unfold root_tree. by simplify_map_eq. Qed.

Lemma root_tree_first sp : root_tree sp !! [0] = Some (pml4 sp + 4096).
Proof. unfold root_tree. by simplify_map_eq. Qed.

(** The tree has no other branches. *)
Lemma root_tree_none sp l i : (l = [] -> i <> 0) -> (l = [0] -> ~ 0 <= i < 4) ->
  root_tree sp !! (l ++ [i]) = None.
Proof.
  intros H1 H2. destruct (root_tree sp !! (l ++ [i])) as [t|] eqn:E; [|done]. exfalso.
  apply root_tree_inv in E as [[E _]|[[E _]|(j & Hj & E & _)]].
  - by destruct l.
  - apply (app_inj_tail l [] i 0) in E as [-> ->]. by apply H1.
  - apply (app_inj_tail l [0] i j) in E as [-> ->]. by apply H2.
Qed.

Lemma root_shape_ok sp : pages sp = ∅ -> shape_ok sp (root_tree sp).
Proof.
  intros Hp. split.
  - apply root_tree_nil.
  - intros l t Hl. left. apply root_tree_inv in Hl as [[_ ->]|[[_ ->]|(j & Hj & _ & ->)]].
    + exists 0. lia.
    + exists 1. lia.
    + exists (2 + j). lia.
  - intros l l' t Hl Hl'.
    apply root_tree_inv in Hl as [[-> ->]|[[-> ->]|(j & Hj & -> & ->)]];
      apply root_tree_inv in Hl' as [[-> ?]|[[-> ?]|(j' & Hj' & -> & ?)]]; try done; try lia.
    repeat f_equal. lia.
  - intros l i t Hl. apply root_tree_inv in Hl as [[E _]|[[E _]|(j & Hj & E & _)]].
    + by destruct l.
    + apply (app_inj_tail l [] i 0) in E as [-> ->]. rewrite root_tree_nil. unfold is_index. cbn. split_and!; eauto; lia.
    + apply (app_inj_tail l [0] i j) in E as [-> ->]. rewrite root_tree_first. unfold is_index. cbn. split_and!; eauto; lia.
  - intros i p. by rewrite Hp, lookup_empty.
Qed.

Lemma root_tables_ok id x w w' G sp :
  blocks_ok id G sp -> boot_ok w -> pages sp = ∅ -> root_words w sp w' -> tables_ok id x w' G sp (root_tree sp).
Proof.
  intros Hb [Hb1 Hb2] Hp [R1 R2 R3 R4 R5 _]. split; [done|by apply root_shape_ok|split].
  - unfold is_index. intros l t i Hl Hlen Hi. apply root_tree_inv in Hl as [[-> ->]|[[-> ->]|(j & Hj & -> & ->)]].
    + destruct (decide (i = 0)) as [->|].
      * cbn [app]. rewrite root_tree_first, Z.mul_0_r, Z.add_0_r. done.
      * rewrite root_tree_none by (done || lia). rewrite R2 by lia.
        split; [left|intros _]; apply Hb1; lia.
    + destruct (decide (i < 4)).
      * cbn [app]. rewrite root_tree_directory by lia. apply R3. lia.
      * rewrite root_tree_none by (done || (intros; lia)). rewrite R4 by lia. split; [by left|done].
    + rewrite root_tree_none by done.
      replace (pml4 sp + 8192 + 4096 * j + 8 * i) with (pml4 sp + 8192 + 8 * (512 * j + i)) by lia.
      rewrite R5 by lia. split; [apply Hb2; lia|cbn; lia].
  - intros a t _ _ _ Ht. exfalso. apply root_tree_inv in Ht as [[E _]|[[E _]|(j & _ & E & _)]]; done.
Qed.

(** Only the space's own table words change. *)
Lemma root_words_keep w sp w' : root_words w sp w' -> keeps_words sp w w'.
Proof.
  intros Hr x Hx. apply (rw_other _ _ _ Hr). intros i Hi E.
  apply (Hx (pml4 sp + 4096 * (i / 512)) (i mod 512)).
  - left. exists (i / 512). split; [|done]. split; [apply Z.div_pos; lia|apply Z.div_lt_upper_bound; lia].
  - by apply Z.mod_pos_bound.
  - pose proof (Z.div_mod i 512). lia.
Qed.

(** ** The processor's view *)

(** The walk of the processor for an access from user mode: each level must be present and
    open to users; the page may be written when every level allows it, and executed when
    the leaf allows it. *)
Definition mmu_entry w (table a shift : Z) : option Z :=
  let v := word_at w (entry_of table a shift) in
  if has v PAGE_PRESENT && has v PAGE_USER then Some v else None.

Definition mmu_walk w (root a : Z) : option (Z * bool * bool) :=
  match mmu_entry w root a 39 with
  | None => None
  | Some v4 =>
  match mmu_entry w (Z.land v4 PAGE_ADDRESS) a 30 with
  | None => None
  | Some v3 =>
  match mmu_entry w (Z.land v3 PAGE_ADDRESS) a 21 with
  | None => None
  | Some v2 =>
  if has v2 PAGE_HUGE then
    Some (Z.land v2 PAGE_ADDRESS, has v4 PAGE_WRITE && has v3 PAGE_WRITE && has v2 PAGE_WRITE, negb (has v2 PAGE_NX))
  else
  match mmu_entry w (Z.land v2 PAGE_ADDRESS) a 12 with
  | None => None
  | Some v1 =>
      Some (Z.land v1 PAGE_ADDRESS,
            has v4 PAGE_WRITE && has v3 PAGE_WRITE && has v2 PAGE_WRITE && has v1 PAGE_WRITE,
            negb (has v1 PAGE_NX))
  end end end end.

(** What it should be: the page of the record, writable unless shared copy-on-write. *)
Definition page_view w (p : VmPage) : Z * bool * bool :=
  (data (frame_at w (frame p)),
   has (protection p) VM_PROT_WRITE && negb (copy_on_write p), has (protection p) VM_PROT_EXEC).

Lemma mmu_table w t' a shift t : aligned t' -> t' < 2 ^ 52 -> word_at w (entry_of t a shift) = Z.lor t' TABLE_FLAGS ->
  exists v, mmu_entry w t a shift = Some v /\ Z.land v PAGE_ADDRESS = t' /\ has v PAGE_WRITE = true /\ has v PAGE_HUGE = false.
Proof.
  intros Hal Hsm E. destruct (table_entry t' Hal Hsm) as (E1 & E2 & E3 & E4 & E5).
  unfold mmu_entry. rewrite E, E1, E3. eauto.
Qed.

Lemma page_flags_bits p : let f := page_flags p in
  has f PAGE_PRESENT = true /\ has f PAGE_USER = true /\
  has f PAGE_WRITE = (has (protection p) VM_PROT_WRITE && negb (copy_on_write p))%bool /\
  has f PAGE_NX = negb (has (protection p) VM_PROT_EXEC) /\ Z.land f PAGE_ADDRESS = 0.
Proof.
  unfold page_flags.
  by destruct (has (protection p) VM_PROT_WRITE), (copy_on_write p), (has (protection p) VM_PROT_EXEC); vm_compute.
Qed.

Lemma leaf_entry w p d : data (frame_at w (frame p)) = d -> aligned d -> d < 2 ^ 52 -> let v := entry_word w p in
  has v PAGE_PRESENT = true /\ has v PAGE_USER = true /\
  (Z.land v PAGE_ADDRESS, has v PAGE_WRITE, negb (has v PAGE_NX)) = page_view w p.
Proof.
  intros Ed Hal Hsm. cbv zeta. unfold entry_word, page_view. rewrite Ed.
  rewrite !has_lor, Z.land_lor_distr_l, address_aligned, !(has_aligned d) by done. cbn [orb].
  assert (has d PAGE_NX = false) as ->.
  { apply aligned_iff in Hal as [? _]. unfold has. change PAGE_NX with (2 ^ 63).
    replace (Z.land d (2 ^ 63)) with 0; [done|]. symmetry. apply Z.bits_inj'. intros n Hn.
    rewrite Z.land_spec, Z.bits_0, Z.pow2_bits_eqb by lia.
    destruct (Z.eqb_spec 63 n) as [<-|]; [|apply andb_false_r].
    rewrite Z.testbit_eqb, Z.div_small by lia. done. }
  destruct (page_flags_bits p) as (-> & -> & -> & -> & ->). cbn [orb]. by rewrite negb_involutive, Z.lor_0_r.
Qed.

Lemma index_at_align shift a : 12 <= shift -> 0 <= a < 2 ^ 64 -> index_at shift (align_down a) = index_at shift a.
Proof.
  intros Hs Ha. rewrite !index_at_eq, align_down_small by lia. f_equal.
  replace (2 ^ shift) with (4096 * 2 ^ (shift - 12)) by (change 4096 with (2 ^ 12); rewrite <- Z.pow_add_r by lia; f_equal; lia).
  rewrite <- !Z.div_div by lia. f_equal. pose proof (Z.div_mod a 4096 ltac:(lia)) as E.
  replace (a - a mod 4096) with (a / 4096 * 4096) by lia. by rewrite Z.div_mul.
Qed.

Lemma path_of_align a : 0 <= a < 2 ^ 64 -> path_of (align_down a) = path_of a.
Proof. intros. unfold path_of. by rewrite !index_at_align by lia. Qed.

(** The processor finds for users exactly the pages of the records. *)
Lemma mmu_agrees id rc s G T a :
  tinv id None rc s G T -> lookup_ok (space s) ->
  (forall i p, pages (space s) !! i = Some p -> is_Some (vw_frames (world s) !! frame p)) -> 0 <= a < 2 ^ 48 ->
  mmu_walk (world s) (pml4 (space s)) a =
    match find_page a (space s) with Some i => Some (page_view (world s) (page_at (space s) i)) | None => None end.
Proof.
  intros [Hw Hok] Hlk Hfr Ha. pose proof (wo_owned _ _ _ Hw) as Ho. pose proof Hok as [Hb Hs [He Hleaf]].
  assert (forall i p, pages (space s) !! i = Some p -> virtual_address p = align_down a -> is_Some (T !! path_of a)) as Hrec.
  { intros i p Hp E. rewrite <- path_of_align, <- E by lia. by eapply sh_mapped. }
  assert (T !! path_of a = None -> find_page a (space s) = None) as Hnone.
  { intros HT. apply find_page_None; [done|]. intros i p Hp E. destruct (Hrec i p Hp E). congruence. }
  assert (forall l x t, T !! (l ++ [x]) = Some t -> is_Some (T !! l)) as Hpar
    by (intros l x t Hl; by destruct (sh_parent _ _ Hs _ _ _ Hl)).
  (* one level down *)
  assert (forall l t shift, T !! l = Some t -> (length l < 3)%nat -> 0 <= shift ->
    (exists t' v, T !! (l ++ [index_at shift a]) = Some t' /\ mmu_entry (world s) t a shift = Some v /\
       Z.land v PAGE_ADDRESS = t' /\ has v PAGE_WRITE = true /\ has v PAGE_HUGE = false) \/
    (T !! (l ++ [index_at shift a]) = None /\ mmu_entry (world s) t a shift = None)) as Hdown.
  { intros l t shift Hl Hlen Hsh. specialize (He l t (index_at shift a) Hl Hlen (index_at_is_index _ _ Hsh)).
    destruct (T !! (l ++ [index_at shift a])) as [t'|] eqn:Ec; [left|right; split; [done|]].
    - edestruct (mmu_table (world s) t' a shift t) as (v & ? & ? & ? & ?);
        [by eapply tree_aligned|by apply (tree_small _ _ _ _ _ _ _ _ _ Ho Hok Ec)|done|by exists t', v].
    - unfold mmu_entry. change (entry_of t a shift) with (t + 8 * index_at shift a).
      destruct He as [[E|[_ E]] _]; rewrite E; by rewrite ?andb_false_r. }
  unfold mmu_walk.
  destruct (Hdown [] (pml4 (space s)) 39 (sh_root _ _ Hs) ltac:(cbn; lia) ltac:(lia))
    as [(t1 & v4 & H1 & -> & E1 & W4 & _)|[H1 ->]].
  2: { rewrite Hnone; [done|]. destruct (T !! path_of a) as [t|] eqn:E; [|done].
       apply (Hpar [_; _]) in E as [t2 E]. apply (Hpar [_]) in E as [? E]. cbn in H1. congruence. }
  rewrite E1, W4. cbn [app] in H1.
  destruct (Hdown _ t1 30 H1 ltac:(cbn; lia) ltac:(lia)) as [(t2 & v3 & H2 & -> & E2 & W3 & _)|[H2 ->]].
  2: { rewrite Hnone; [done|]. destruct (T !! path_of a) as [t|] eqn:E; [|done].
       apply (Hpar [_; _]) in E as [t2 E]. cbn in H2. congruence. }
  rewrite E2, W3. cbn [app] in H2.
  destruct (Hdown _ t2 21 H2 ltac:(cbn; lia) ltac:(lia)) as [(t3 & v2 & H3 & -> & E3 & W2 & N2)|[H3 ->]].
  2: { by rewrite Hnone. }
  rewrite E3, W2, N2. cbn [andb].
  specialize (Hleaf (align_down a) t3 ltac:(done) ltac:(rewrite align_down_small by lia; pose proof (Z.mod_pos_bound a 4096); pose proof (Z.mod_le a 4096); lia)
    (align_down_aligned a) ltac:(rewrite path_of_align by lia; done)) as [L1 L2].
  unfold leaf_of in L1, L2. rewrite index_at_align in L1, L2 by lia.
  unfold mmu_entry at 1. change (entry_of t3 a 12) with (t3 + 8 * index_at 12 a).
  destruct (find_page a (space s)) as [i|] eqn:Ef.
  - apply find_page_spec in Ef as (p & Hp & Hva); [|done]. rewrite (L1 _ _ Hp Hva).
    unfold page_at. rewrite Hp. cbn [default]. destruct (Hfr _ _ Hp) as [fr Hfr'].
    destruct (wo_frame _ _ _ Hw _ _ Hfr') as [_ _ _ Hin Hal _ _ _].
    destruct (leaf_entry (world s) p (data fr)) as (-> & -> & Ev); [by rewrite (frame_at_eq _ _ _ Hfr')|done| |].
    { pose proof (owned_range _ _ _ _ _ Ho Hin ltac:(done)) as Hr. unfold HEAP_END, VM_PAGE_SIZE in Hr. lia. }
    cbn [andb]. by rewrite Ev.
  - rewrite L2; [done|]. by apply find_page_None.
Qed.

End tables.
