(* ===== verification/VmSpaces.v ===== *)
(** * Address spaces

    The invariant of an address space beside others, what each operation of vm.c does to
    it, and what it leaves alone of the others. *)

From S2P Require Import Prelude Heap HeapFacts Interfaces Ownership Vm VmLookup VmFrames VmTables.

(** ** Counting the records of a frame *)

Definition count (f : Z) (m : gmap Z VmPage) : Z :=
  Z.of_nat (length (filter (fun ip : Z * VmPage => frame ip.2 = f) (map_to_list m))).

Lemma count_empty f : count f ∅ = 0.
Proof. unfold count. by rewrite map_to_list_empty. Qed.

Lemma count_nonneg f m : 0 <= count f m.
Proof. unfold count. lia. Qed.

Lemma count_insert f m i p : m !! i = None ->
  count f (<[i := p]> m) = count f m + if decide (f = frame p) then 1 else 0.
Proof.
  intros Hi. unfold count. rewrite (map_to_list_insert m i p Hi), filter_cons. cbn [snd].
  destruct (decide (frame p = f)) as [->|]; [rewrite decide_True by done; cbn; lia|].
  rewrite decide_False by done. lia.
Qed.

Lemma count_delete f m i p : m !! i = Some p ->
  count f (delete i m) = count f m - if decide (f = frame p) then 1 else 0.
Proof.
  intros Hi. rewrite <- (insert_delete_id m i p Hi) at 2.
  rewrite count_insert by apply lookup_delete_eq. lia.
Qed.

Lemma count_update f m i p p' : m !! i = Some p ->
  count f (<[i := p']> m) =
    count f m + (if decide (f = frame p') then 1 else 0) - if decide (f = frame p) then 1 else 0.
Proof.
  intros Hi. rewrite <- (insert_delete_eq m i), count_insert by apply lookup_delete_eq.
  rewrite (count_delete _ _ _ _ Hi). lia.
Qed.

Lemma count_pos m i p : m !! i = Some p -> 0 < count (frame p) m.
Proof.
  intros Hi. rewrite <- (insert_delete_id m i p Hi), count_insert by apply lookup_delete_eq.
  rewrite decide_True by done. pose proof (count_nonneg (frame p) (delete i m)). lia.
Qed.

Lemma count_zero m f : count f m = 0 -> forall i p, m !! i = Some p -> frame p <> f.
Proof. intros H i p Hi <-. apply count_pos in Hi. lia. Qed.

Lemma count_exists m f : count f m <> 0 -> exists i p, m !! i = Some p /\ frame p = f.
Proof.
  unfold count. destruct (filter _ (map_to_list m)) as [|[i p] l] eqn:E; [done|]. intros _.
  assert ((i, p) ∈ filter (fun ip : Z * VmPage => frame ip.2 = f) (map_to_list m)) as Hin by (rewrite E; by left).
  apply list_elem_of_filter in Hin as [Hf Hin]. apply elem_of_map_to_list in Hin. eauto.
Qed.

Lemma count_bound f m : records_ok m -> count f m <= VM_MAX_PAGES.
Proof.
  intros Hr. unfold count.
  assert (length (filter (fun ip : Z * VmPage => frame ip.2 = f) (map_to_list m)) <= size m)%nat.
  { rewrite <- length_map_to_list. apply length_filter. }
  assert (0 <= VM_MAX_PAGES) by done. assert (size m <= Z.to_nat VM_MAX_PAGES)%nat; [|lia].
  rewrite <- size_dom. etrans; [apply (subseteq_size _ (list_to_set (seqZ 0 VM_MAX_PAGES)))|].
  - intros i [p Hp]%elem_of_dom. apply elem_of_list_to_set, elem_of_seqZ. apply (ro_index _ Hr) in Hp. lia.
  - rewrite size_list_to_set by apply NoDup_seqZ. by rewrite length_seqZ.
Qed.

Definition uses (f : Z) (sp : VmSpace) : Z := count f (pages sp).

Section spaces.
Context {H : Type} `{!Allocator H, !Ownership H}.

Implicit Types (w : @VmWorld H) (s : @VmState H) (G : Ghost) (rc rest : Z -> Z) (h : H) (sp : VmSpace) (T : Tree).

(** ** Changing a record *)

(** The records for the page [b] are the same. *)
Definition same_at (b : Z) sp sp' : Prop :=
  forall j q, virtual_address q = b -> pages sp' !! j = Some q <-> pages sp !! j = Some q.

Lemma leaf_spec_same w w' sp sp' b v :
  (forall j q, pages sp' !! j = Some q -> virtual_address q = b -> entry_word w' q = entry_word w q) ->
  same_at b sp sp' -> leaf_spec w sp b v -> leaf_spec w' sp' b v.
Proof.
  intros Ee Hs [H1 H2]. split.
  - intros j q Hq Hb. rewrite (Ee j q Hq Hb). apply (H1 j); [by apply Hs|done].
  - intros Hno. apply H2. intros j q Hq Hb. apply (Hno j q); [by apply Hs|done].
Qed.

Lemma same_at_update b sp i p p' : pages sp !! i = Some p -> virtual_address p' = virtual_address p ->
  b <> virtual_address p -> same_at b sp (with_pages (<[i := p']> (pages sp)) sp).
Proof.
  intros Hp Hva Hb j q <-. cbn. destruct (decide (i = j)) as [<-|Hij].
  - rewrite lookup_insert_eq. split; intros E; simplify_eq.
  - by rewrite lookup_insert_ne.
Qed.

Lemma same_at_insert b sp sp' i p : pages sp !! i = None -> pages sp' = <[i := p]> (pages sp) ->
  b <> virtual_address p -> same_at b sp sp'.
Proof.
  unfold same_at. intros Hi -> Hb j q <-. destruct (decide (i = j)) as [<-|Hij].
  - rewrite lookup_insert_eq. split; intros E; simplify_eq.
  - by rewrite lookup_insert_ne.
Qed.

Lemma same_at_delete b sp sp' i p : pages sp !! i = Some p -> pages sp' = delete i (pages sp) ->
  b <> virtual_address p -> same_at b sp sp'.
Proof.
  unfold same_at. intros Hi -> Hb j q <-. destruct (decide (i = j)) as [<-|Hij].
  - rewrite lookup_delete_eq. split; intros E; simplify_eq.
  - by rewrite lookup_delete_ne.
Qed.

(** A change of the records for one page leaves only its entry out of date. *)
Lemma tables_ok_records id x w w' G sp sp' T a :
  tables_ok id x w G sp T -> (forall b, x = Some b -> b = a) ->
  vw_words w' = vw_words w -> blocks_ok id G sp' -> shape_ok sp' T ->
  (forall b, b <> a -> same_at b sp sp') ->
  (forall j q, pages sp' !! j = Some q -> virtual_address q <> a -> entry_word w' q = entry_word w q) ->
  tables_ok id (Some a) w' G sp' T.
Proof.
  intros [Hb Hs [He Hl]] Hx Ew Hb' Hs' Hsame Hent.
  assert (forall y, word_at w' y = word_at w y) as Hw by (intros; unfold word_at; by rewrite Ew).
  split; [done..|split].
  - intros l t i. rewrite Hw. apply He.
  - intros b t Hne Hb0 Hba Ht. rewrite Hw. assert (b <> a) as Hba' by congruence.
    eapply leaf_spec_same; [|by apply Hsame|].
    + intros j q Hq <-. by eapply Hent.
    + apply Hl; [|done..]. intros E. by apply Hba', Hx.
Qed.

Lemma blocks_ok_same id G sp sp' : pml4 sp' = pml4 sp -> bootstrap_pdpt sp' = bootstrap_pdpt sp ->
  bootstrap_directories sp' = bootstrap_directories sp -> root_allocation sp' = root_allocation sp ->
  tables sp' = tables sp -> blocks_ok id G sp -> blocks_ok id G sp'.
Proof. intros E1 E2 E3 E4 E5 []. split; rewrite ?E1, ?E2, ?E3, ?E4, ?E5; done. Qed.

Lemma shape_ok_same sp sp' T : pml4 sp' = pml4 sp -> tables sp' = tables sp -> shape_ok sp T ->
  (forall i p, pages sp' !! i = Some p ->
     canonical_user_address (virtual_address p) = true /\ is_Some (T !! path_of (virtual_address p))) ->
  shape_ok sp' T.
Proof.
  intros E1 E2 [S1 S2 S3 S4 S5] Hm. split; [by rewrite E1| |done..].
  intros l t Hl. unfold table_page. rewrite E1, E2. by apply (S2 l).
Qed.

Lemma keeps_words_set sp w T l t i v : shape_ok sp T -> T !! l = Some t -> is_index i ->
  keeps_words sp w (with_words (<[t + 8 * i := v]> (vw_words w)) w).
Proof.
  intros Hs Hl Hi y Hy. rewrite word_at_set, decide_False; [done|]. apply Hy; [|done]. by eapply sh_page.
Qed.

(** The entry of a page is brought up to date. *)
Lemma wp_set_leaf id x rc s G T a t v (Q : unit -> VmState -> Prop) :
  tinv id x rc s G T -> (forall b, x = Some b -> b = a) -> canonical_user_address a = true -> aligned a ->
  T !! path_of a = Some t -> leaf_spec (world s) (space s) a v ->
  (forall ws, let w' := with_words ws (world s) in
     tinv id None rc (mkVm w' (space s)) G T -> keeps_words (space s) (world s) w' -> Q tt (mkVm w' (space s))) ->
  wp (on_world (set_word (t + 8 * leaf_of a) v)) Q s.
Proof.
  intros [Hw Hok] Hx Hc Ha Ht Hv HQ. apply wp_on_world, wp_set_word. pose proof (canonical_bound _ Hc).
  pose proof (wo_owned _ _ _ Hw) as Ho.
  assert (keeps_words (space s) (world s) (with_words (<[t + 8 * leaf_of a := v]> (vw_words (world s))) (world s))) as Hk.
  { eapply keeps_words_set; [apply Hok|done|by apply index_at_is_index]. }
  apply HQ; [|done]. split; cbn [world space].
  - by eapply (world_ok_grow id (world s) _ G G (space s)); [..|apply Hok| |].
  - eapply (set_leaf_ok id x _ _ (space s)); [done..|lia|done|apply Hok|apply Hok| |exact Hv].
    intros b u _ Hl. exact Hl.
Qed.

Lemma wp_update_page id x rc s G T i p p' (Q : bool -> VmState -> Prop) :
  tinv id x rc s G T -> (forall b, x = Some b -> b = virtual_address p) -> lookup_ok (space s) ->
  pages (space s) !! i = Some p -> virtual_address p' = virtual_address p ->
  (forall ws, let s' := mkVm (with_words ws (world s)) (with_pages (<[i := p']> (pages (space s))) (space s)) in
     tinv id None rc s' G T -> lookup_ok (space s') -> keeps_words (space s) (world s) (world s') -> Q true s') ->
  wp (update_page i p' (virtual_address p)) Q s.
Proof.
  intros [Hw Hok] Hx Hlk Hp Hva HQ. unfold update_page. wp_step. apply wp_edit_space.
  pose proof (lookup_ok_update _ _ _ _ Hlk Hp Hva) as Hlk'.
  destruct (sh_mapped _ _ (ta_shape _ _ _ _ _ _ Hok) _ _ Hp) as [Hc [t Ht]].
  set (sp' := with_pages (<[i := p']> (pages (space s))) (space s)) in *.
  assert (tinv id (Some (virtual_address p)) rc (mkVm (world s) sp') G T) as Hti.
  { split; [done|]. eapply tables_ok_records; [apply Hok|done|done|..].
    - eapply (blocks_ok_same id G (space s)); try done. apply Hok.
    - eapply (shape_ok_same (space s)); try done; [apply Hok|]. intros j q. cbn. rewrite lookup_insert_Some.
      intros [[_ <-]|[_ Hq]]; [rewrite Hva|]; eapply sh_mapped; try done; apply Hok.
    - intros b Hb. by eapply same_at_update.
    - done. }
  wp_step. eapply wp_walk; [done|done|done|].
  assert (0 < t) as Ht0 by (by apply (tree_small _ _ _ _ _ _ _ _ _ (wo_owned _ _ _ Hw) Hok Ht)).
  pose proof (index_at_is_index 12 (virtual_address p) ltac:(lia)) as Hi. unfold is_index in Hi.
  rewrite (proj2 (Z.eqb_neq (t + 8 * leaf_of (virtual_address p)) 0)) by (unfold leaf_of; lia).
  do 3 wp_step. eapply wp_set_leaf; [done|naive_solver|done|by eapply (ro_aligned _ (lo_records _ Hlk))|done| |].
  - split.
    + intros j q Hq Hqa. assert (i = j) as <-.
      { eapply (ro_unique _ (lo_records _ Hlk')); [apply lookup_insert_eq|done|congruence]. }
      cbn in Hq. rewrite lookup_insert_eq in Hq. by simplify_eq.
    + intros Hno. by destruct (Hno i p' (lookup_insert_eq _ _ _)).
  - intros ws w' Hti' Hk. wp_step. by apply (HQ ws).
Qed.

(** ** Adding a record *)

Lemma tables_ok_space id x w G sp sp' T : pml4 sp' = pml4 sp -> bootstrap_pdpt sp' = bootstrap_pdpt sp ->
  bootstrap_directories sp' = bootstrap_directories sp -> root_allocation sp' = root_allocation sp ->
  tables sp' = tables sp -> pages sp' = pages sp -> tables_ok id x w G sp T -> tables_ok id x w G sp' T.
Proof.
  intros E1 E2 E3 E4 E5 E6 [Hb Hs [He Hl]]. split; [by eapply blocks_ok_same| |].
  - eapply (shape_ok_same sp); try done. rewrite E6. apply Hs.
  - split; [done|]. intros a t Hx Ha Haa Ht. destruct (Hl a t Hx Ha Haa Ht) as [H1 H2].
    split; rewrite E6; done.
Qed.

(** The frames stay as they are; only new tables and the space's own entries change. *)
Record extends s G s' G' : Prop := {
  ex_frames : vw_frames (world s') = vw_frames (world s);
  ex_pages : vw_pages (world s') = vw_pages (world s);
  ex_words : keeps_words (space s') (world s) (world s');
  ex_tables t : table_page (space s) t -> table_page (space s') t;
  ex_role p r : role G !! p = Some r -> role G' !! p = Some r;
  ex_live p k : live_blocks G !! p = Some k -> live_blocks G' !! p = Some k }.

Lemma extends_trans s G s1 G1 s2 G2 : extends s G s1 G1 -> extends s1 G1 s2 G2 -> extends s G s2 G2.
Proof.
  intros [] []. split; try congruence; eauto.
  intros y Hy. rewrite ex_words1 by done. apply ex_words0. intros t i Ht. by apply Hy, ex_tables1.
Qed.

Lemma grown_extends id s G T s' G' T' : grown id s G T s' G' T' -> extends s G s' G'.
Proof.
  intros [[l E] ? ? ? ? ? _]. split; try done. rewrite E. intros t. apply table_page_app.
Qed.

Lemma extends_space s G sp' : pml4 sp' = pml4 (space s) -> tables sp' = tables (space s) ->
  extends s G (mkVm (world s) sp') G.
Proof. intros E1 E2. split; try done. intros t. unfold table_page. cbn. by rewrite E1, E2. Qed.

Lemma extends_words s G sp' ws : keeps_words (space s) (world s) (with_words ws (world s)) ->
  pml4 sp' = pml4 (space s) -> tables sp' = tables (space s) ->
  extends s G (mkVm (with_words ws (world s)) sp') G.
Proof.
  intros Hk E1 E2. assert (forall t, table_page (space s) t <-> table_page sp' t) as Ht
    by (intros t; unfold table_page; by rewrite E1, E2).
  split; try done; cbn.
  - intros y Hy. apply Hk. intros t i. rewrite Ht. apply Hy.
  - apply Ht.
Qed.

Lemma wp_install_page id rc s G T a f prot cow sh (p := mkPage a f prot cow sh) (Q : bool -> VmState -> Prop) :
  tinv id None rc s G T -> lookup_ok (space s) -> aligned a ->
  (forall j q, pages (space s) !! j = Some q -> virtual_address q <> a) ->
  (forall s' G' T', tinv id None rc s' G' T' -> lookup_ok (space s') -> extends s G s' G' ->
     pages (space s') = pages (space s) -> Q false s') ->
  (forall i s' G' T', tinv id None rc s' G' T' -> lookup_ok (space s') -> extends s G s' G' ->
     pages (space s) !! i = None -> pages (space s') = <[i := p]> (pages (space s)) -> Q true s') ->
  wp (install_page a f prot cow sh) Q s.
Proof.
  intros [Hw Hok] Hlk Ha Hnew HF HT. unfold install_page. wp_step. apply wp_on_space. intros r sp1 Er.
  apply reserve_page_record_spec in Er as [[v ->] Hr]. set (s1 := mkVm (world s) (with_hint v (space s))).
  assert (tinv id None rc s1 G T) as Hti1 by (split; [done|by apply (tables_ok_space id None _ G (space s))]).
  assert (extends s G s1 G) as Hx1 by (by apply extends_space).
  wp_step. apply (wp_walk_create id None rc s1 G T); [done| |].
  { intros s' G' T' Hti' Hg. destruct (gr_space _ _ _ _ _ _ _ Hg) as [l E].
    assert (lookup_ok (space s')) by (rewrite E; by eapply (lookup_ok_same (space s))).
    rewrite Z.eqb_refl. assert (wp (ret false) Q s').
    { wp_step. eapply HF; [done|done|eauto using extends_trans, grown_extends|by rewrite E]. }
    by destruct r. }
  intros t s2 G2 T2 Hc Hti2 Hg Ht. destruct (gr_space _ _ _ _ _ _ _ Hg) as [l E].
  assert (pages (space s2) = pages (space s)) as Ep by (by rewrite E).
  assert (lookup_ok (space s2)) as Hlk2 by (rewrite E; by eapply (lookup_ok_same (space s))).
  assert (extends s G s2 G2) as Hx2 by eauto using extends_trans, grown_extends.
  destruct r as [i|]; [|wp_step; by eapply HF]. destruct Hr as [Hfree Hi].
  pose proof Hti2 as [Hw2 Hok2]. pose proof (wo_owned _ _ _ Hw2) as Ho2.
  assert (0 < t) as Ht0 by (by apply (tree_small _ _ _ _ _ _ _ _ _ Ho2 Hok2 Ht)).
  pose proof (index_at_is_index 12 a ltac:(lia)) as Hia. unfold is_index in Hia.
  rewrite (proj2 (Z.eqb_neq (t + 8 * leaf_of a) 0)) by (unfold leaf_of; lia).
  cbv zeta. fold p. wp_step. apply wp_edit_space. wp_step. apply wp_on_space.
  intros ok sp3 Eins. cbn [world space] in *.
  assert (table_ok (delete i (<[i := p]> (pages (space s2)))) (with_pages (<[i := p]> (pages (space s2))) (space s2))) as Htab.
  { rewrite delete_insert_id by (by rewrite Ep). eapply (table_ok_lookup _ (space s2)); [done|apply Hlk2]. }
  apply (insert_page_lookup_spec _ i p) in Eins as [Ep3 Hins]; [|apply lookup_insert_eq|done|lia].
  cbn [pages with_pages] in Ep3. destruct ok; cbn [negb].
  2: { destruct Hins as [-> _]. wp_step. apply wp_edit_space. wp_step. cbn [world space].
       assert (with_pages (delete i (pages (with_pages (<[i := p]> (pages (space s2))) (space s2))))
                 (with_pages (<[i := p]> (pages (space s2))) (space s2)) = space s2) as ->.
       { cbn. rewrite delete_insert_id by (by rewrite Ep). by destruct (space s2). }
       replace (mkVm (world s2) (space s2)) with s2 by (by destruct s2). by eapply HF. }
  destruct Hins as (Htab3 & m & ->). cbn [pages with_lookup with_pages] in *.
  set (sp4 := with_lookup m (with_pages (<[i := p]> (pages (space s2))) (space s2))) in *.
  assert (lookup_ok sp4) as Hlk4.
  { split; [|done]. cbn. apply records_ok_insert; [apply Hlk2|done|done|]. rewrite Ep. done. }
  assert (tinv id (Some a) rc (mkVm (world s2) sp4) G2 T2) as Hti4.
  { split; [done|]. eapply (tables_ok_records id None (world s2)); [apply Hok2|done|done|..].
    - eapply (blocks_ok_same id G2 (space s2)); try done. apply Hok2.
    - eapply (shape_ok_same (space s2)); try done; [apply Hok2|]. intros j q. cbn. rewrite lookup_insert_Some.
      intros [[_ <-]|[_ Hq]]; [split; [done|eexists; exact Ht]|]. eapply sh_mapped; [apply Hok2|done].
    - intros b Hb. eapply (same_at_insert _ _ _ i p); [by rewrite Ep|done|done].
    - done. }
  do 3 wp_step. eapply (wp_set_leaf id (Some a)); [done|naive_solver|done|done|done| |].
  - split.
    + intros j q Hq Hqa. assert (i = j) as <-.
      { eapply (ro_unique _ (lo_records _ Hlk4)); [apply lookup_insert_eq|done|by rewrite Hqa]. }
      cbn in Hq. rewrite lookup_insert_eq in Hq. injection Hq as <-. done.
    + intros Hno. by destruct (Hno i p (lookup_insert_eq _ _ _)).
  - intros ws w' Hti' Hk. wp_step. eapply (HT i); [done|done| |done|by cbn; rewrite Ep].
    eapply extends_trans; [done|]. by apply (extends_words s2 G2 sp4 ws).
Qed.

End spaces.
