(* ===== verification/VmOps.v ===== *)
(** * The operations of an address space

    [inv] is the invariant of an address space beside the holders [rest] of frames
    elsewhere; [stable] is what an operation leaves alone of what others hold; [view] is
    what the process sees: for each page its protection and its bytes, or the shared frame
    behind it.  The lemmas give for each operation the invariant, stability and the change
    of the view. *)

From S2P Require Import Prelude Heap HeapFacts Interfaces Ownership Vm VmLookup VmFrames VmTables VmSpaces.

(** The pages of a process, without the mechanism of copying on write. *)
Inductive Backing := Private (contents : list Z) | Shared (f : Z).
Record PageView := mkView { v_protection : Z; v_backing : Backing }.

Section ops.
Context {H : Type} `{!Allocator H, !Ownership H}.

Implicit Types (w : @VmWorld H) (s : @VmState H) (G : Ghost) (rc rest : Z -> Z) (h : H) (sp : VmSpace) (T : Tree).

#[local] Opaque find_page.

(** ** The view of a process *)

Definition contents w (f : Z) : list Z := data_at w (data (frame_at w f)).

Definition view_of w (p : VmPage) : PageView :=
  mkView (protection p) (if shared p then Shared (frame p) else Private (contents w (frame p))).

Definition view s (a : Z) : option PageView :=
  match find_page a (space s) with
  | Some i => Some (view_of (world s) (page_at (space s) i))
  | None => None
  end.

Lemma page_at_eq sp i p : pages sp !! i = Some p -> page_at sp i = p.
Proof. unfold page_at. by intros ->. Qed.

Lemma view_record s a i p : lookup_ok (space s) -> pages (space s) !! i = Some p ->
  virtual_address p = align_down a -> view s a = Some (view_of (world s) p).
Proof.
  intros Hlk Hp Ha. unfold view. assert (find_page a (space s) = Some i) as -> by (apply find_page_spec; eauto).
  by rewrite (page_at_eq _ _ _ Hp).
Qed.

Lemma view_unmapped s a : lookup_ok (space s) ->
  (forall i p, pages (space s) !! i = Some p -> virtual_address p <> align_down a) -> view s a = None.
Proof. intros Hlk Hno. unfold view. by rewrite (proj2 (find_page_None _ _ Hlk)). Qed.

Lemma view_same s s' b : lookup_ok (space s) -> lookup_ok (space s') ->
  same_at (align_down b) (space s) (space s') ->
  (forall i p, pages (space s) !! i = Some p -> virtual_address p = align_down b ->
     view_of (world s') p = view_of (world s) p) -> view s' b = view s b.
Proof.
  intros Hlk Hlk' Hs Hv. unfold view at 2. destruct (find_page b (space s)) as [i|] eqn:E.
  - apply find_page_spec in E as (p & Hp & Ha); [|done].
    rewrite (page_at_eq _ _ _ Hp), <- (Hv i p Hp Ha). eapply view_record; [done|by apply Hs|done].
  - apply view_unmapped; [done|]. intros i p Hp Ha. rewrite find_page_None in E by done.
    eapply E; [by apply Hs|done].
Qed.

(** ** The invariant *)

(** The holders of a frame: the records of this space and [rest]. *)
Definition total rest sp : Z -> Z := fun f => uses f sp + rest f.

Definition rest_ok rest : Prop := forall f, 0 <= rest f <= 2 ^ 31.

Record space_ok rc G sp : Prop := {
  so_lookup : lookup_ok sp;
  so_role i p : pages sp !! i = Some p -> role G !! frame p = Some (FrameBlock (shared p));
  so_private i p : pages sp !! i = Some p -> shared p = false -> has (protection p) VM_PROT_WRITE = true ->
    copy_on_write p = false -> rc (frame p) = 1;
  so_cow i p : pages sp !! i = Some p -> copy_on_write p = true -> shared p = false }.

Record inv (id : nat) rest s G T : Prop := {
  in_tables : tinv id None (total rest (space s)) s G T;
  in_space : space_ok (total rest (space s)) G (space s) }.

Lemma in_world id rest s G T : inv id rest s G T -> world_ok (world s) G (total rest (space s)).
Proof. intros Hi. apply Hi. Qed.

Lemma in_lookup id rest s G T : inv id rest s G T -> lookup_ok (space s).
Proof. intros Hi. eapply so_lookup, in_space, Hi. Qed.

Lemma in_frame id rest s G T i p : rest_ok rest -> inv id rest s G T -> pages (space s) !! i = Some p ->
  exists fr, vw_frames (world s) !! frame p = Some fr.
Proof.
  intros Hr Hi Hp. eapply (wo_held _ _ _ (in_world _ _ _ _ _ Hi)). unfold total, uses.
  pose proof (count_pos _ _ _ Hp). specialize (Hr (frame p)). lia.
Qed.

Lemma total_bound rest sp f : rest_ok rest -> lookup_ok sp -> total rest sp f + 1 < 2 ^ 32.
Proof.
  intros Hr Hlk. unfold total, uses. pose proof (count_bound f _ (lo_records _ Hlk)) as Hb.
  unfold VM_MAX_PAGES in Hb. specialize (Hr f). lia.
Qed.

(** ** What others may rely on *)

Record stable (id : nat) rest s G s' G' : Prop := {
  st_frame f fr : 0 < rest f -> vw_frames (world s) !! f = Some fr ->
    exists n, vw_frames (world s') !! f = Some (mkFrame (data fr) (allocation fr) n) /\
      role G' !! f = role G !! f /\
      (role G !! f = Some (FrameBlock false) -> data_at (world s') (data fr) = data_at (world s) (data fr));
  st_uses f fr : 0 < rest f -> vw_frames (world s) !! f = Some fr -> role G !! f = Some (FrameBlock false) ->
    uses f (space s') <= uses f (space s);
  st_block p id' k : id' <> id -> role G !! p = Some (TableBlock id') -> live_blocks G !! p = Some k ->
    role G' !! p = Some (TableBlock id') /\ live_blocks G' !! p = Some k /\
    (forall y, p <= y < p + k -> word_at (world s') y = word_at (world s) y) }.

Lemma stable_refl id rest s G : stable id rest s G s G.
Proof.
  split; [|done|done]. intros f fr _ Hf. exists (references fr). split; [|done]. by destruct fr.
Qed.

Lemma stable_trans id rest s G s1 G1 s2 G2 :
  stable id rest s G s1 G1 -> stable id rest s1 G1 s2 G2 -> stable id rest s G s2 G2.
Proof.
  intros [F1 U1 B1] [F2 U2 B2]. split.
  - intros f fr Hr Hf. destruct (F1 _ _ Hr Hf) as (n1 & Hf1 & Hr1 & Hd1).
    destruct (F2 _ _ Hr Hf1) as (n2 & Hf2 & Hr2 & Hd2). exists n2. split_and!; [done|congruence|].
    cbn in Hd2. intros Hp. rewrite Hd2 by congruence. by apply Hd1.
  - intros f fr Hr Hf Hp. destruct (F1 _ _ Hr Hf) as (n & Hf1 & Hr1 & _).
    etrans; [eapply U2|eapply U1]; try done. congruence.
  - intros p id' k Hid Hp Hk. destruct (B1 _ _ _ Hid Hp Hk) as (Hp1 & Hk1 & Hw1).
    destruct (B2 _ _ _ Hid Hp1 Hk1) as (Hp2 & Hk2 & Hw2). split_and!; [done..|].
    intros y Hy. rewrite Hw2 by done. by apply Hw1.
Qed.

(** The tables of others are not among the own ones. *)
Lemma other_words id x rc s G T p id' k y : tinv id x rc s G T -> id' <> id ->
  role G !! p = Some (TableBlock id') -> live_blocks G !! p = Some k -> p <= y < p + k ->
  forall t i, table_page (space s) t -> is_index i -> y <> t + 8 * i.
Proof.
  intros [Hw Hok] Hid Hp Hk Hy t i Ht Hi ->. unfold is_index in Hi.
  pose proof (wo_owned _ _ _ Hw) as Ho.
  destruct (table_page_block _ _ _ _ _ Ho (ta_blocks _ _ _ _ _ _ Hok) Ht) as (_ & raw & Hr & Hin).
  assert (raw <> p) as Hne by congruence.
  assert (inside G p (t + 8 * i) 1) as Hin' by (exists k; split_and!; [done|lia|lia]).
  destruct (inside_disjoint _ _ _ _ _ _ _ _ Ho Hne Hin Hin'); unfold VM_PAGE_SIZE in *; lia.
Qed.

Lemma words_stable id x rc s s' G' T' p id' k : tinv id x rc s' G' T' ->
  keeps_words (space s') (world s) (world s') -> id' <> id ->
  role G' !! p = Some (TableBlock id') -> live_blocks G' !! p = Some k ->
  forall y, p <= y < p + k -> word_at (world s') y = word_at (world s) y.
Proof. intros Hti Hk Hid Hp Hl y Hy. apply Hk. by eapply other_words. Qed.

(** Steps that only touch tables. *)
Lemma extends_stable id x rc rc' rest s G s' G' T' :
  world_ok (world s) G rc' -> tinv id x rc s' G' T' -> extends s G s' G' ->
  (forall f, 0 < rest f -> role G !! f = Some (FrameBlock false) -> uses f (space s') <= uses f (space s)) ->
  stable id rest s G s' G'.
Proof.
  intros Hw Hti [Ef Ep Hk _ Hr Hl] Hu. split.
  - intros f fr _ Hf. exists (references fr). rewrite Ef. split; [by destruct fr|].
    destruct (wo_frame _ _ _ Hw _ _ Hf) as [_ [b Hb] _ _ _ _ _ _]. split; [rewrite Hb; by apply Hr|].
    intros _. unfold data_at. by rewrite Ep.
  - intros f fr ? _. by apply Hu.
  - intros p id' k Hid Hp Hk'. split_and!; [by apply Hr|by apply Hl|].
    apply (words_stable id x rc s s' G' T' p id' k); auto.
Qed.

(** ** Rewriting a record *)

Lemma total_update rest sp i p p' f : pages sp !! i = Some p -> frame p' = frame p ->
  total rest (with_pages (<[i := p']> (pages sp)) sp) f = total rest sp f.
Proof. intros Hp E. unfold total, uses. cbn. rewrite (count_update _ _ _ _ _ Hp), E. lia. Qed.

Lemma tinv_ext id x rc rc' s G T : (forall f, rc f = rc' f) -> tinv id x rc s G T -> tinv id x rc' s G T.
Proof. intros E [Hw Ht]. split; [by eapply world_ok_ext|done]. Qed.

(** A record for the same page and frame, with another protection. *)
Lemma wp_rewrite_record id rest s G T i p p' (Q : bool -> VmState -> Prop) :
  rest_ok rest -> inv id rest s G T -> pages (space s) !! i = Some p ->
  virtual_address p' = virtual_address p -> frame p' = frame p -> shared p' = shared p ->
  (shared p' = false -> has (protection p') VM_PROT_WRITE = true -> copy_on_write p' = false ->
     total rest (space s) (frame p) = 1) ->
  (copy_on_write p' = true -> shared p' = false) ->
  (forall s', inv id rest s' G T -> stable id rest s G s' G ->
     pages (space s') = <[i := p']> (pages (space s)) ->
     vw_frames (world s') = vw_frames (world s) -> vw_pages (world s') = vw_pages (world s) -> Q true s') ->
  wp (update_page i p' (virtual_address p)) Q s.
Proof.
  intros Hrest Hi Hp Hva Hfr Hsh Hpriv Hcow HQ. pose proof Hi as [Hti [Hlk Hrole Hsp Hcows]].
  eapply (wp_update_page id None); [done|done|done|done|done|].
  intros ws s' Hti' Hlk' Hk. apply HQ; [|  |done..].
  - split.
    + eapply tinv_ext; [|done]. intros f. symmetry. by apply total_update with (p := p).
    + split; [done| | |].
      * intros j q. cbn. rewrite lookup_insert_Some. intros [[<- <-]|[_ Hq]]; [|by eapply Hrole].
        rewrite Hfr, Hsh. by eapply Hrole.
      * intros j q. cbn [pages space s' with_pages]. rewrite lookup_insert_Some.
        intros [[<- <-]|[_ Hq]] ? ? ?; unfold s'; cbn [space]; rewrite total_update with (p := p) by done.
        -- rewrite Hfr. by apply Hpriv.
        -- by eapply Hsp.
      * intros j q. cbn. rewrite lookup_insert_Some. intros [[<- <-]|[_ Hq]]; eauto.
  - eapply extends_stable; [apply Hti|done|by apply extends_words|].
    intros f _ _. unfold uses. cbn. rewrite (count_update _ _ _ _ _ Hp), Hfr. lia.
Qed.

(** The view after the record of one page changed. *)
Lemma view_rewrite s s' i p p' : lookup_ok (space s) -> lookup_ok (space s') ->
  pages (space s) !! i = Some p -> pages (space s') = <[i := p']> (pages (space s)) ->
  virtual_address p' = virtual_address p ->
  (forall q, view_of (world s') q = view_of (world s) q) ->
  forall b, view s' b = if decide (align_down b = virtual_address p) then Some (view_of (world s) p') else view s b.
Proof.
  intros Hlk Hlk' Hp Ep Hva Hv b. case_decide as E.
  - rewrite <- Hv. eapply view_record; [done|rewrite Ep; apply lookup_insert_eq|congruence].
  - apply view_same; [done..| |done]. intros j q Hq. rewrite Ep.
    by apply (same_at_update (align_down b) (space s) i p p').
Qed.

Lemma view_of_same w w' q : vw_frames w' = vw_frames w -> vw_pages w' = vw_pages w -> view_of w' q = view_of w q.
Proof. intros Ef Ep. unfold view_of, contents, data_at, frame_at. by rewrite Ef, Ep. Qed.

(** ** Ranges of pages *)

(** The page of [b] is among the [n] pages from [a] on. *)
Definition in_range (a : Z) (n : nat) (b : Z) : bool :=
  (a <=? align_down b) && (align_down b <? a + VM_PAGE_SIZE * Z.of_nat n).

Lemma aligned_next a : aligned a -> a + VM_PAGE_SIZE < 2 ^ 64 -> aligned (a + VM_PAGE_SIZE).
Proof.
  rewrite !aligned_iff. unfold VM_PAGE_SIZE. intros [? Hm] ?.
  pose proof (Z_mod_plus_full a 1 4096) as E. rewrite Z.mul_1_l in E. lia.
Qed.

Lemma aligned_lt a b : aligned a -> aligned b -> a < b -> a + VM_PAGE_SIZE <= b.
Proof.
  rewrite !aligned_iff. unfold VM_PAGE_SIZE. intros [_ Ha] [_ Hb] Hlt.
  pose proof (Z.div_mod a 4096). pose proof (Z.div_mod b 4096). lia.
Qed.

Lemma in_range_S a n b : aligned a ->
  in_range a (S n) b = (bool_decide (align_down b = a) || in_range (a + VM_PAGE_SIZE) n b)%bool.
Proof.
  intros Ha. unfold in_range. pose proof (align_down_aligned b) as Hb.
  case_bool_decide as E; cbn [orb].
  - subst. rewrite Nat2Z.inj_succ. unfold VM_PAGE_SIZE. lia.
  - replace (a + VM_PAGE_SIZE * Z.of_nat (S n)) with (a + VM_PAGE_SIZE + VM_PAGE_SIZE * Z.of_nat n) by lia.
    destruct (Z.leb_spec a (align_down b)) as [Hle|Hlt].
    + pose proof (aligned_lt a (align_down b) Ha Hb ltac:(lia)).
      destruct (Z.leb_spec (a + VM_PAGE_SIZE) (align_down b)); [done|lia].
    + destruct (Z.leb_spec (a + VM_PAGE_SIZE) (align_down b)); [unfold VM_PAGE_SIZE in *; lia|done].
Qed.

Lemma in_range_O a b : in_range a 0 b = false.
Proof. unfold in_range. lia. Qed.

Lemma view_align s b : view s (align_down b) = view s b.
Proof. unfold view. by rewrite find_page_align. Qed.

Lemma view_found s a : is_Some (view s a) <-> is_Some (find_page a (space s)).
Proof. unfold view. destruct (find_page a (space s)); split; intros [? ?]; by eauto. Qed.

(** Every page of the range is mapped. *)
Lemma all_mapped_spec n a s : aligned a -> a + VM_PAGE_SIZE * Z.of_nat n < 2 ^ 64 ->
  all_mapped n a (space s) = true <-> forall b, in_range a n b = true -> is_Some (view s b).
Proof.
  revert a. induction n as [|n IH]; intros a Ha Hb; cbn [all_mapped].
  { split; [|done]. intros _ b. by rewrite in_range_O. }
  assert (VM_PAGE_SIZE = 4096) as Hps by done.
  assert (aligned (a + VM_PAGE_SIZE)) as Ha' by (apply aligned_next; [done|lia]).
  split.
  - destruct (find_page a (space s)) as [i|] eqn:E; [|done]. intros Hall b. rewrite in_range_S by done.
    intros [Eb%bool_decide_eq_true|Hb']%orb_true_iff; [|by apply (proj1 (IH _ Ha' ltac:(lia)) Hall)].
    rewrite <- view_align, Eb, view_found, E. eauto.
  - intros Hall. assert (is_Some (find_page a (space s))) as [i ->].
    { apply view_found, Hall. rewrite in_range_S, Ha, bool_decide_true by done. done. }
    apply (proj2 (IH _ Ha' ltac:(lia))). intros b Hb'. apply Hall. rewrite in_range_S, Hb', orb_true_r by done. done.
Qed.

(** ** Protection *)

Definition set_protection (prot : Z) (v : PageView) : PageView := mkView prot (v_backing v).

Lemma wp_protect_pages id rest n a prot s G T (Q : bool -> VmState -> Prop) :
  rest_ok rest -> inv id rest s G T -> aligned a -> a + VM_PAGE_SIZE * Z.of_nat n < 2 ^ 64 ->
  all_mapped n a (space s) = true ->
  (forall s', inv id rest s' G T -> stable id rest s G s' G ->
     (forall b, view s' b = if in_range a n b then set_protection prot <$> view s b else view s b) -> Q true s') ->
  wp (protect_pages n a prot) Q s.
Proof.
  revert a s Q. induction n as [|n IH]; intros a s Q Hr Hi Ha Hb Hall HQ; cbn [protect_pages].
  { apply wp_ret, HQ; [done|apply stable_refl|]. intros b. by rewrite in_range_O. }
  assert (VM_PAGE_SIZE = 4096) as Hps by done. pose proof (in_lookup _ _ _ _ _ Hi) as Hlk.
  assert (aligned (a + VM_PAGE_SIZE)) as Ha' by (apply aligned_next; [done|lia]).
  cbn [all_mapped] in Hall. do 2 wp_step. unfold Datatypes.id. destruct (find_page a (space s)) as [i|] eqn:E; [|done].
  apply find_page_spec in E as (p & Hp & Hva); [|done]. rewrite Ha in Hva. rewrite (page_at_eq _ _ _ Hp).
  destruct (in_frame _ _ _ _ _ _ _ Hr Hi Hp) as [fr Hfr].
  destruct (wo_frame _ _ _ (in_world _ _ _ _ _ Hi) _ _ Hfr) as [_ _ _ _ _ Hcnt Hbd _].
  cbv zeta. wp_step. rewrite <- Hva at 1. eapply wp_rewrite_record; [done|done|done|done|done|done| | |].
  2: { cbn. intros [[? _]%andb_true_iff _]%andb_true_iff. by apply negb_true_iff. }
  { cbn [shared protection copy_on_write]. intros -> ->. rewrite (frame_at_eq _ _ _ Hfr), Hcnt. cbn. lia. }
  intros s1 Hi1 Hst1 Ep Ef Epg. cbn [negb].
  set (p' := mkPage _ _ _ _ _) in *. pose proof (in_lookup _ _ _ _ _ Hi1) as Hlk1.
  assert (forall b, view s1 b = if decide (align_down b = a) then Some (view_of (world s) p') else view s b) as Hv1.
  { intros b. rewrite <- Hva. eapply view_rewrite; try done. intros q. by apply view_of_same. }
  apply IH; [done|done|done|lia| |].
  { apply all_mapped_spec; [done|lia|]. rewrite all_mapped_spec in Hall by (done || lia). intros b Hb'. rewrite Hv1.
    case_decide; [eauto|]. by apply Hall. }
  intros s2 Hi2 Hst2 Hv2. apply HQ; [done|by eapply stable_trans|]. intros b.
  rewrite Hv2, Hv1, in_range_S by done. case_decide as Eb; [rewrite bool_decide_true by done|by rewrite bool_decide_false].
  assert (view s b = Some (view_of (world s) p)) as Hvb by (eapply view_record; [done..|congruence]).
  rewrite Hvb. by destruct (in_range (a + VM_PAGE_SIZE) n b).
Qed.

Lemma page_count_bound first end_ : aligned first -> aligned end_ ->
  first + VM_PAGE_SIZE * Z.of_nat (page_count first end_) < 2 ^ 64.
Proof.
  rewrite !aligned_iff. unfold page_count, VM_PAGE_SIZE. intros [Hf _] [He _].
  destruct (Z.le_gt_cases 0 ((end_ - first) / 4096)); [|lia].
  rewrite Z2Nat.id by done. pose proof (Z.mul_div_le (end_ - first) 4096). lia.
Qed.

Lemma align_up_aligned a : aligned (align_up a).
Proof. unfold aligned, align_down, align_up. by rewrite <- Z.land_assoc, Z.land_diag. Qed.

(** The pages an address range touches. *)
Definition first_page (address : Z) : Z := align_down address.
Definition pages_of (address size : Z) : nat := page_count (align_down address) (align_up (u64 (address + size))).

Lemma pages_of_bound address size :
  first_page address + VM_PAGE_SIZE * Z.of_nat (pages_of address size) < 2 ^ 64.
Proof. apply page_count_bound; [apply align_down_aligned|apply align_up_aligned]. Qed.

(** The range is not empty, does not wrap, and each page of it is mapped. *)
Definition protectable (address size : Z) sp : bool :=
  negb ((size =? 0) || (u64 (address + size) <? address)) && all_mapped (pages_of address size) (first_page address) sp.

Lemma wp_vm_protect id rest s G T address size prot (Q : bool -> VmState -> Prop) :
  rest_ok rest -> inv id rest s G T ->
  (forall s', inv id rest s' G T -> stable id rest s G s' G ->
     (forall b, view s' b = if protectable address size (space s) && in_range (first_page address) (pages_of address size) b
                            then set_protection prot <$> view s b else view s b) ->
     Q (protectable address size (space s)) s') ->
  wp (vm_protect address size prot) Q s.
Proof.
  intros Hr Hi HQ. unfold vm_protect, protectable in *. destruct ((size =? 0) || _)%bool; cbn [negb andb] in *.
  { wp_step. apply HQ; [done|apply stable_refl|done]. }
  cbv zeta. do 2 wp_step. fold (first_page address) (pages_of address size).
  destruct (all_mapped _ _ (space s)) eqn:E; cbn [negb andb] in *.
  - eapply wp_protect_pages; [done|done|apply align_down_aligned|apply pages_of_bound|done|done].
  - wp_step. apply HQ; [done|apply stable_refl|done].
Qed.

(** ** Changes of the frames *)

Lemma tables_ok_frames id x w w' G G' sp T : tables_ok id x w G sp T -> vw_words w' = vw_words w ->
  (forall p r, role G !! p = Some r -> role G' !! p = Some r) ->
  (forall p k, live_blocks G !! p = Some k -> live_blocks G' !! p = Some k) ->
  (forall i p, pages sp !! i = Some p -> entry_word w' p = entry_word w p) -> tables_ok id x w' G' sp T.
Proof.
  intros [Hb Hs Hw] Ew Hr Hl He. split; [|done|].
  - destruct Hb as [B1 B2 B3 B4 B5 B6 B7]. split; [by apply Hr|by eapply inside_live|done..| |done].
    intros t raw Hin. destruct (B6 _ _ Hin) as (? & ? & ?). split_and!; [by apply Hr|by eapply inside_live|done].
  - eapply words_ok_world; [done| |done|done]. intros. unfold word_at. by rewrite Ew.
Qed.

Lemma contents_eq w f fr : vw_frames w !! f = Some fr -> contents w f = data_at w (data fr).
Proof. intros E. unfold contents. by rewrite (frame_at_eq _ _ _ E). Qed.

(** What a new frame leaves as it was. *)
Lemma created_frame w G f w' G' g fr : created w G f w' G' -> vw_frames w !! g = Some fr ->
  vw_frames w' !! g = Some fr /\ data_at w' (data fr) = data_at w (data fr).
Proof.
  intros [Hf _ (d & raw & h & -> & Hd) _ _ _] Hg. cbn. rewrite lookup_insert_ne by congruence.
  split; [done|]. unfold data_at. cbn. rewrite lookup_insert_ne; [done|].
  intros E. by apply (Hd _ _ Hg).
Qed.

Lemma created_contents w G f w' G' : created w G f w' G' -> contents w' f = zero_page.
Proof.
  intros [_ _ (d & raw & h & -> & _) _ _ _]. unfold contents, frame_at, data_at. cbn.
  by rewrite lookup_insert_eq; cbn; rewrite lookup_insert_eq.
Qed.

Lemma entry_word_frame w w' p fr n : vw_frames w !! frame p = Some fr ->
  vw_frames w' !! frame p = Some (mkFrame (data fr) (allocation fr) n) -> entry_word w' p = entry_word w p.
Proof. intros E E'. unfold entry_word. by rewrite (frame_at_eq _ _ _ E), (frame_at_eq _ _ _ E'). Qed.

Lemma view_of_frame w w' p fr n : vw_frames w !! frame p = Some fr ->
  vw_frames w' !! frame p = Some (mkFrame (data fr) (allocation fr) n) ->
  (shared p = false -> data_at w' (data fr) = data_at w (data fr)) -> view_of w' p = view_of w p.
Proof.
  intros E E' Ed. unfold view_of. rewrite (contents_eq _ _ _ E), (contents_eq _ _ _ E'). cbn.
  destruct (shared p); [done|]. by rewrite Ed.
Qed.

Lemma tinv_heap id x rc s G T h : owned h G -> tinv id x rc s G T ->
  tinv id x rc (mkVm (with_vm_heap h (world s)) (space s)) G T.
Proof.
  intros Ho [Hw Ht]. split; [by apply world_ok_heap|by apply (tables_ok_same _ _ (world s))].
Qed.

(** Nothing but the heap changed. *)
Lemma inv_heap id rest s G T h : owned h G -> inv id rest s G T ->
  inv id rest (mkVm (with_vm_heap h (world s)) (space s)) G T.
Proof. intros Ho [Ht Hs]. split; [by apply tinv_heap|done]. Qed.

Lemma stable_heap id rest s G T h : owned h G -> inv id rest s G T ->
  stable id rest s G (mkVm (with_vm_heap h (world s)) (space s)) G.
Proof.
  intros Ho Hi. eapply extends_stable; [by eapply in_world|by apply tinv_heap, Hi| |done].
  split; done.
Qed.

(** ** Copying on write *)

(** The world after [frame p], held by others too, was copied to the new frame [f']. *)
Section copied.
Context (id : nat) (rest : Z -> Z) (s : @VmState H) (G G1 : Ghost) (T : Tree) (i : Z) (p : VmPage) (fr : VmFrame).
Context (f' : Z) (w1 : @VmWorld H).
Context (Hrest : rest_ok rest) (Hi : inv id rest s G T) (Hp : pages (space s) !! i = Some p).
Context (Hcow : copy_on_write p = true) (Hfr : vw_frames (world s) !! frame p = Some fr).
Context (Hheld : 1 < total rest (space s) (frame p)).
Context (Hc : created (world s) G f' w1 G1) (Hw1 : world_ok w1 G1 (bump f' (total rest (space s)))).

Let w2 := with_contents f' (contents w1 (frame p)) w1.
Let rc3 := unbump (frame p) (bump f' (total rest (space s))).
Let w3 := with_count (frame p) (total rest (space s) (frame p) - 1) w2.

Lemma copied_fresh : f' <> frame p.
Proof. intros E. pose proof (cr_fresh _ _ _ _ _ Hc). congruence. Qed.

Lemma copied_frame g gr : vw_frames (world s) !! g = Some gr ->
  exists n, vw_frames w3 !! g = Some (mkFrame (data gr) (allocation gr) n) /\
    data_at w3 (data gr) = data_at (world s) (data gr).
Proof.
  intros Hg. destruct (created_frame _ _ _ _ _ _ _ Hc Hg) as [Hg1 Hd].
  destruct (created_frame _ _ _ _ _ _ _ Hc Hfr) as [Hfr1 _].
  assert (data_at w3 (data gr) = data_at (world s) (data gr)) as Hd3.
  { rewrite <- Hd. unfold w3, w2, data_at. cbn. rewrite lookup_insert_ne; [done|].
    pose proof (cr_world _ _ _ _ _ Hc) as (d & raw & h & -> & Hdd). unfold frame_at. cbn.
    rewrite lookup_insert_eq. cbn. intros E. by apply (Hdd _ _ Hg). }
  unfold w3, with_count. cbn. destruct (decide (frame p = g)) as [<-|Hne].
  - rewrite lookup_insert_eq. assert (gr = fr) as -> by congruence.
    eexists. split; [|done]. change (frame_at w2 (frame p)) with (frame_at w1 (frame p)).
    by rewrite (frame_at_eq _ _ _ Hfr1).
  - rewrite lookup_insert_ne by done. rewrite Hg1. exists (references gr). split; [by destruct gr|done].
Qed.

Lemma copied_contents : exists fr', vw_frames w3 !! f' = Some fr' /\ data_at w3 (data fr') = contents (world s) (frame p).
Proof.
  pose proof (cr_world _ _ _ _ _ Hc) as (d & raw & h & E & Hdd).
  assert (vw_frames w1 !! f' = Some (mkFrame d raw 1)) as Hf1 by (rewrite E; apply lookup_insert_eq).
  destruct (created_frame _ _ _ _ _ _ _ Hc Hfr) as [Hfr1 Hd1].
  exists (mkFrame d raw 1). split.
  - unfold w3, with_count. cbn. rewrite lookup_insert_ne by (intros E'; by apply copied_fresh). done.
  - unfold w3, w2, data_at, with_contents. cbn. rewrite (frame_at_eq _ _ _ Hf1). cbn. rewrite lookup_insert_eq. cbn.
    by rewrite (contents_eq _ _ _ Hfr1), (contents_eq _ _ _ Hfr).
Qed.

Lemma copied_world : world_ok w3 G1 rc3.
Proof.
  destruct (created_frame _ _ _ _ _ _ _ Hc Hfr) as [Hfr1 Hd1].
  pose proof (total_bound rest (space s) (frame p) Hrest (in_lookup _ _ _ _ _ Hi)).
  eapply (with_count_ok w2 G1 (bump f' (total rest (space s)))); [|exact Hfr1|lia|].
  - apply with_contents_ok; [done|]. rewrite (contents_eq _ _ _ Hfr1). by apply (wo_frame _ _ _ Hw1 _ _ Hfr1).
  - intros g. unfold rc3, unbump, bump. pose proof copied_fresh.
    repeat case_decide; try congruence; subst; lia.
Qed.

Lemma copied_tinv : tinv id None rc3 (mkVm w3 (space s)) G1 T.
Proof.
  split; [apply copied_world|]. cbn [world space].
  pose proof (cr_world _ _ _ _ _ Hc) as (d & raw & h & E & _).
  eapply (tables_ok_frames id None (world s) w3 G); [apply Hi|by unfold w3, w2; rewrite E|apply Hc|apply Hc|].
  intros j q Hq. destruct (in_frame _ _ _ _ _ _ _ Hrest Hi Hq) as [qr Hqr].
  destruct (copied_frame _ _ Hqr) as (n & Hn & _). by eapply entry_word_frame.
Qed.

Lemma copied_done ws (s' := mkVm (with_words ws w3)
    (with_pages (<[i := mkPage (virtual_address p) f' (protection p) false (shared p)]> (pages (space s))) (space s))) :
  tinv id None rc3 s' G1 T -> lookup_ok (space s') -> keeps_words (space s) w3 (world s') ->
  inv id rest s' G1 T /\ stable id rest s G s' G1 /\ (forall b, view s' b = view s b).
Proof.
  intros Hti Hlk Hk. pose proof copied_fresh as Hne. pose proof Hi as [Hti0 [Hlk0 Hrole Hpriv Hcows]].
  pose proof (zero_unheld _ _ _ _ (in_world _ _ _ _ _ Hi) (cr_fresh _ _ _ _ _ Hc)) as H0.
  set (p' := mkPage _ _ _ _ _) in *.
  assert (forall g, total rest (space s') g = rc3 g) as Htot.
  { intros g. unfold total, uses, rc3, unbump, bump, total, uses. cbn. rewrite (count_update _ _ _ _ _ Hp). cbn [frame p'].
    repeat case_decide; lia. }
  assert (forall j q, pages (space s) !! j = Some q -> frame q <> f') as Hold.
  { intros j q Hq E. destruct (in_frame _ _ _ _ _ _ _ Hrest Hi Hq) as [qr Hqr]. rewrite E in Hqr.
    pose proof (cr_fresh _ _ _ _ _ Hc). congruence. }
  split_and!.
  - split; [eapply tinv_ext; [|exact Hti]; intros g; by rewrite Htot|]. split; [done| | |].
    + intros j q. cbn. rewrite lookup_insert_Some. intros [[<- <-]|[_ Hq]].
      * cbn. rewrite (Hcows _ _ Hp Hcow). exact (cr_private _ _ _ _ _ Hc).
      * eapply cr_role; [done|]. by eapply Hrole.
    + intros j q. cbn [pages space s' with_pages]. rewrite lookup_insert_Some, Htot. unfold rc3, unbump, bump.
      intros [[<- <-]|[_ Hq]] Hsh Hwr Hcw.
      * cbn [frame p']. rewrite decide_True, decide_False by done. lia.
      * rewrite (decide_False (P := frame q = f')) by (by eapply Hold).
        specialize (Hpriv _ _ Hq Hsh Hwr Hcw). case_decide as E; [rewrite E in Hpriv; lia|lia].
    + intros j q. cbn. rewrite lookup_insert_Some. intros [[<- <-]|[_ Hq]]; [done|eauto].
  - split.
    + intros g gr Hg Hgr. destruct (copied_frame _ _ Hgr) as (n & Hn & Hd). exists n.
      split_and!; [done| |done]. destruct (wo_frame _ _ _ (in_world _ _ _ _ _ Hi) _ _ Hgr) as [_ [b Hb] _ _ _ _ _ _].
      rewrite Hb. by eapply cr_role.
    + intros g gr Hg Hgr _. unfold uses. cbn. rewrite (count_update _ _ _ _ _ Hp). cbn [frame p'].
      rewrite (decide_False (P := g = f')) by (intros ->; pose proof (cr_fresh _ _ _ _ _ Hc); congruence).
      case_decide; lia.
    + intros q id' k Hid Hq Hlive. pose proof (cr_role _ _ _ _ _ Hc _ _ Hq) as Hq1.
      pose proof (cr_live _ _ _ _ _ Hc _ _ Hlive) as Hl1. split_and!; [done..|]. intros y Hy.
      rewrite (words_stable id None rc3 (mkVm w3 (space s)) s' G1 T q id' k) by done.
      cbn. pose proof (cr_world _ _ _ _ _ Hc) as (d & raw & h & E & _).
      unfold w3, w2, word_at. cbn. by rewrite E.
  - intros b. destruct (decide (align_down b = virtual_address p)) as [Eb|Hb].
    + rewrite (view_record s b i p) by done. rewrite (view_record s' b i p'); [|done|apply lookup_insert_eq|done].
      f_equal. unfold view_of. cbn [shared frame protection p']. rewrite (Hcows _ _ Hp Hcow).
      destruct copied_contents as (fr' & Hf' & Hd).
      assert (contents (world s') f' = contents (world s) (frame p)) as ->; [|done].
      rewrite <- Hd. exact (contents_eq (world s') _ _ Hf').
    + apply view_same; [done..|by apply (same_at_update _ _ _ p)|]. intros j q Hq _.
      destruct (in_frame _ _ _ _ _ _ _ Hrest Hi Hq) as [qr Hqr].
      destruct (copied_frame _ _ Hqr) as (n & Hn & Hd). eapply view_of_frame; done.
Qed.

End copied.

(** The page becomes writable in place; the process sees no difference. *)
Lemma wp_make_private id rest s G T i p (Q : bool -> VmState -> Prop) :
  rest_ok rest -> inv id rest s G T -> pages (space s) !! i = Some p ->
  (forall s', inv id rest s' G T -> stable id rest s G s' G -> (forall b, view s' b = view s b) -> Q false s') ->
  (forall s' G' f, inv id rest s' G' T -> stable id rest s G s' G' -> (forall b, view s' b = view s b) ->
     pages (space s') !! i = Some (mkPage (virtual_address p) f (protection p) false (shared p)) ->
     (copy_on_write p = false -> s' = s /\ G' = G /\ f = frame p) -> Q true s') ->
  wp (make_private i) Q s.
Proof.
  intros Hrest Hi Hp HF HT. unfold make_private. do 2 wp_step. unfold Datatypes.id. rewrite (page_at_eq _ _ _ Hp).
  pose proof (in_lookup _ _ _ _ _ Hi) as Hlk.
  destruct (copy_on_write p) eqn:Hcow; cbn [negb].
  2: { wp_step. eapply (HT s G (frame p)); [done|apply stable_refl|done| |done]. rewrite Hp, <- Hcow. by destruct p. }
  destruct (has (protection p) VM_PROT_WRITE) eqn:Hwr; cbn [negb].
  2: { wp_step. apply HF; [done|apply stable_refl|done]. }
  destruct (in_frame _ _ _ _ _ _ _ Hrest Hi Hp) as [fr Hfr].
  pose proof (wo_frame _ _ _ (in_world _ _ _ _ _ Hi) _ _ Hfr) as Hfok. destruct Hfok as [Hnz _ _ _ _ Hcnt Hbd _].
  rewrite (frame_at_eq _ _ _ Hfr), Hcnt. wp_step. case_if as Eheld.
  - wp_step. apply wp_on_world. eapply wp_vm_frame_create; [by eapply in_world| |].
    { intros h Hw. rewrite Z.eqb_refl. wp_step. rewrite Z.eqb_refl. wp_step.
      pose proof (wo_owned _ _ _ Hw) as Ho. apply HF; [by apply inv_heap|by eapply stable_heap|].
      intros b. apply view_same; try done. }
    intros f' w1 G1 Hc Hw1. pose proof (cr_nonzero _ _ _ _ _ Hc) as Hnz'. rewrite (proj2 (Z.eqb_neq _ _) Hnz').
    wp_step. apply wp_on_world. wp_step. wp_step. apply wp_on_world. cbn [world space].
    change (with_page_data _ w1) with (with_contents f' (contents w1 (frame p)) w1).
    set (w2 := with_contents f' (contents w1 (frame p)) w1).
    destruct (created_frame _ _ _ _ _ _ _ Hc Hfr) as [Hfr1 _].
    assert (world_ok w2 G1 (bump f' (total rest (space s)))) as Hw2.
    { apply with_contents_ok; [done|]. rewrite (contents_eq _ _ _ Hfr1). by apply (wo_frame _ _ _ Hw1 _ _ Hfr1). }
    assert (bump f' (total rest (space s)) (frame p) = total rest (space s) (frame p)) as Eb.
    { unfold bump. rewrite decide_False; [lia|]. pose proof (cr_fresh _ _ _ _ _ Hc). congruence. }
    eapply (wp_vm_frame_release w2 G1 _ (frame p) fr); [done|exact Hfr1| |rewrite Eb; lia].
    rewrite Eb. intros _ Hw3. wp_step. rewrite (proj2 (Z.eqb_neq _ _) Hnz').
    eapply (wp_update_page id None (unbump (frame p) (bump f' (total rest (space s)))) _ G1 T i p);
      [eapply copied_tinv; (done || lia)|done|done|done|done|].
    intros ws s' Hti Hlk' Hk.
    destruct (copied_done id rest s G G1 T i p fr f' w1 Hrest Hi Hp Hcow Hfr ltac:(lia) Hc Hw1 ws Hti Hlk' Hk) as (? & ? & ?).
    eapply (HT s' G1 f'); [done..|apply lookup_insert_eq|done].
  - wp_step. rewrite (proj2 (Z.eqb_neq _ _) Hnz).
    eapply wp_rewrite_record; [done|done|done|done|done|done|intros; lia|done|].
    intros s' Hi' Hst Ep Ef Epg. eapply (HT s' G (frame p)); [done|done| |by rewrite Ep, lookup_insert_eq|done].
    intros b. erewrite view_rewrite; [|done|by eapply in_lookup|done|done|done|intros; by apply view_of_same].
    case_decide as Eb; [|done]. by rewrite (view_record s b i p).
Qed.

End ops.
