(* ===== verification/VmCopy.v ===== *)
(** * Copies between the kernel and a process

    [vm_copy_to_user] changes exactly the bytes of the range in the pages it finds there,
    page by page and copying pages first where they are shared copy-on-write;
    [vm_copy_from_user] reads what the process sees. *)

From S2P Require Import Prelude Heap HeapFacts Interfaces Ownership Vm VmLookup VmFrames VmTables VmSpaces VmOps.

(** ** Overwriting part of a page *)

(** The page [l] at [base] after the bytes [source] were written from [dest] on. *)
Definition patch (dest : Z) (source : list Z) (base : Z) (l : list Z) : list Z :=
  imap (fun k x => if dest <=? base + Z.of_nat k
                   then default x (source !! Z.to_nat (base + Z.of_nat k - dest)) else x) l.

Lemma length_patch dest source base l : length (patch dest source base l) = length l.
Proof. apply length_imap. Qed.

Lemma lookup_patch dest source base l k : patch dest source base l !! k =
  (fun x => if dest <=? base + Z.of_nat k then default x (source !! Z.to_nat (base + Z.of_nat k - dest)) else x) <$> l !! k.
Proof. apply list_lookup_imap. Qed.

Lemma patch_far dest source base l :
  dest + Z.of_nat (length source) <= base \/ base + Z.of_nat (length l) <= dest -> patch dest source base l = l.
Proof.
  intros Hfar. apply list_eq. intros k. rewrite lookup_patch. destruct (l !! k) as [x|] eqn:E; [|done].
  apply lookup_lt_Some in E. cbn. f_equal. case_match; [|done]. rewrite lookup_ge_None_2; [done|lia].
Qed.

Lemma patch_nil dest base l : patch dest [] base l = l.
Proof.
  apply list_eq. intros k. rewrite lookup_patch. destruct (l !! k); [|done]. cbn. f_equal. by case_match.
Qed.

Lemma patch_app dest l1 l2 base l :
  patch (dest + Z.of_nat (length l1)) l2 base (patch dest l1 base l) = patch dest (l1 ++ l2) base l.
Proof.
  apply list_eq. intros k. rewrite !lookup_patch. destruct (l !! k) as [x|]; [|done]. cbn. f_equal.
  destruct (Z.leb_spec (dest + Z.of_nat (length l1)) (base + Z.of_nat k)) as [Hle|Hlt].
  - rewrite (proj2 (Z.leb_le dest (base + Z.of_nat k))) by lia.
    rewrite (lookup_app_r l1 l2) by lia. rewrite (lookup_ge_None_2 l1) by lia. cbn. do 2 f_equal. lia.
  - destruct (Z.leb_spec dest (base + Z.of_nat k)); [|done]. by rewrite lookup_app_l by lia.
Qed.

Lemma blit_patch dest source base l : base <= dest -> dest + Z.of_nat (length source) <= base + Z.of_nat (length l) ->
  blit (Z.to_nat (dest - base)) source l = patch dest source base l.
Proof.
  intros Hlo Hhi. apply list_eq. intros k. rewrite lookup_blit by lia. rewrite lookup_patch.
  destruct (l !! k) as [x|] eqn:E.
  - cbn. case_decide.
    + rewrite (proj2 (Z.leb_le _ _)) by lia. replace (Z.to_nat (base + Z.of_nat k - dest)) with (k - Z.to_nat (dest - base))%nat by lia.
      destruct (source !! (k - Z.to_nat (dest - base))%nat) eqn:Es; [done|]. apply lookup_ge_None in Es. lia.
    + destruct (Z.leb_spec dest (base + Z.of_nat k)); [|done]. rewrite lookup_ge_None_2; [done|lia].
  - apply lookup_ge_None in E. rewrite decide_False by lia. done.
Qed.

(** Overwriting the private part of a view. *)
Definition patch_view (dest : Z) (source : list Z) (base : Z) (v : PageView) : PageView :=
  mkView (v_protection v) match v_backing v with
                          | Private l => Private (patch dest source base l)
                          | Shared f => Shared f
                          end.

Lemma patch_view_app dest l1 l2 base v :
  patch_view (dest + Z.of_nat (length l1)) l2 base (patch_view dest l1 base v) = patch_view dest (l1 ++ l2) base v.
Proof. destruct v as [? [l|f]]; [|done]. unfold patch_view. cbn. by rewrite patch_app. Qed.

Lemma patch_view_nil dest base v : patch_view dest [] base v = v.
Proof. destruct v as [? [l|f]]; [|done]. unfold patch_view. cbn. by rewrite patch_nil. Qed.

Section copy.
Context {H : Type} `{!Allocator H, !Ownership H}.

Implicit Types (w : @VmWorld H) (s : @VmState H) (G : Ghost) (rc rest : Z -> Z) (h : H) (sp : VmSpace) (T : Tree).

#[local] Opaque find_page.

Lemma count_two m i j p q : m !! i = Some p -> m !! j = Some q -> i <> j -> frame p = frame q -> 2 <= count (frame p) m.
Proof.
  intros Hi Hj Hne E. rewrite <- (insert_delete_id m i p Hi), count_insert by apply lookup_delete_eq.
  rewrite decide_True, E by done.
  assert (delete i m !! j = Some q) as Hq by (by rewrite lookup_delete_ne). apply count_pos in Hq. lia.
Qed.

(** ** One page *)

Lemma contents_with w f l g gr : vw_frames w !! g = Some gr -> data gr <> data (frame_at w f) ->
  contents (with_contents f l w) g = contents w g.
Proof.
  intros Hg Hne. rewrite (contents_eq w _ _ Hg), (contents_eq (with_contents f l w) _ _ Hg).
  unfold data_at. cbn. by rewrite lookup_insert_ne.
Qed.

Lemma contents_with_eq w f l fr : vw_frames w !! f = Some fr -> contents (with_contents f l w) f = l.
Proof.
  intros Hf. rewrite (contents_eq (with_contents f l w) _ _ Hf). unfold data_at. cbn.
  by rewrite (frame_at_eq _ _ _ Hf), lookup_insert_eq.
Qed.

(** Writing inside a page that the process may write in place. *)
Lemma write_page_ok id rest s G T i p dest source (f := frame p) (base := virtual_address p)
    (s' := mkVm (with_contents f (blit (Z.to_nat (dest - base)) source (contents (world s) f)) (world s)) (space s)) :
  rest_ok rest -> inv id rest s G T -> pages (space s) !! i = Some p ->
  has (protection p) VM_PROT_WRITE = true -> copy_on_write p = false ->
  base <= dest -> dest + Z.of_nat (length source) <= base + VM_PAGE_SIZE ->
  inv id rest s' G T /\ stable id rest s G s' G /\
  (forall b, view s' b = patch_view dest source (align_down b) <$> view s b).
Proof.
  intros Hrest Hi Hp Hwr Hcow Hlo Hhi. pose proof Hi as [Hti [Hlk Hrole Hpriv Hcows]].
  destruct (in_frame _ _ _ _ _ _ _ Hrest Hi Hp) as [fr Hfr]. fold f in Hfr.
  pose proof (in_world _ _ _ _ _ Hi) as Hw.
  assert (length (contents (world s) f) = Z.to_nat VM_PAGE_SIZE) as Hlen.
  { rewrite (contents_eq _ _ _ Hfr). by apply (wo_frame _ _ _ Hw _ _ Hfr). }
  assert (VM_PAGE_SIZE = 4096) as Hps by done.
  assert (blit (Z.to_nat (dest - base)) source (contents (world s) f) = patch dest source base (contents (world s) f)) as Eblit.
  { apply blit_patch; lia. }
  assert (world_ok (world s') G (total rest (space s))) as Hw'.
  { apply with_contents_ok; [done|]. by rewrite Eblit, length_patch. }
  assert (forall g gr, vw_frames (world s) !! g = Some gr -> g <> f ->
    data_at (world s') (data gr) = data_at (world s) (data gr)) as Hother.
  { intros g gr Hg Hne. unfold data_at. cbn. rewrite lookup_insert_ne; [done|]. rewrite (frame_at_eq _ _ _ Hfr).
    intros E. by apply Hne, (data_inj _ _ _ _ _ _ _ Hw Hg Hfr). }
  split_and!.
  - split; [split; [done|]|done]. apply (tables_ok_same id None (world s)); [done|done|apply Hti].
  - split; [|done|done]. intros g gr Hg Hgr. exists (references gr). split_and!; [by destruct gr|done|].
    intros Hr. eapply Hother; [done|]. intros ->. specialize (Hrole _ _ Hp). fold f in Hrole.
    assert (shared p = false) as Hsh by congruence. specialize (Hpriv _ _ Hp Hsh Hwr Hcow). fold f in Hpriv.
    pose proof (count_pos _ _ _ Hp) as Hc. fold f in Hc. unfold total, uses in Hpriv. lia.
  - intros b. destruct (find_page b (space s)) as [j|] eqn:Ef.
    2: { unfold view. cbn [space s']. by rewrite Ef. }
    apply find_page_spec in Ef as (q & Hq & Hva); [|done].
    rewrite (view_record s b j q), (view_record s' b j q) by done. cbn. f_equal.
    unfold view_of, patch_view. cbn. f_equal. destruct (shared q) eqn:Eq; [done|]. f_equal.
    destruct (in_frame _ _ _ _ _ _ _ Hrest Hi Hq) as [qr Hqr].
    destruct (decide (i = j)) as [<-|Hij].
    + assert (q = p) as -> by congruence. fold f. rewrite <- Hva. fold base.
      rewrite <- Eblit. exact (contents_with_eq _ _ _ _ Hfr).
    + assert (frame q <> f) as Hne.
      { intros E. assert (shared p = false) as Hsh.
        { pose proof (Hrole _ _ Hp) as R1. pose proof (Hrole _ _ Hq) as R2. fold f in R1. congruence. }
        specialize (Hpriv _ _ Hp Hsh Hwr Hcow). pose proof (count_two _ _ _ _ _ Hp Hq Hij (eq_sym E)).
        unfold total, uses in Hpriv. specialize (Hrest (frame p)). lia. }
      assert (contents (world s') (frame q) = contents (world s) (frame q)) as Ec.
      { rewrite (contents_eq (world s) _ _ Hqr), (contents_eq (world s') _ _ Hqr). by eapply Hother. }
      etrans; [exact Ec|]. symmetry. apply patch_far. rewrite (contents_eq _ _ _ Hqr). unfold data_at. rewrite (fo_length _ _ _ _ _ (wo_frame _ _ _ Hw _ _ Hqr)).
      assert (base <> align_down b) as Hb.
      { intros E. apply Hij. eapply (ro_unique _ (lo_records _ Hlk)); [done|done|]. unfold base in E. congruence. }
      pose proof (ro_aligned _ (lo_records _ Hlk) _ _ Hp) as Ha. fold base in Ha.
      pose proof (align_down_aligned b) as Ha'.
      destruct (Z.lt_ge_cases base (align_down b)) as [Hl|Hl].
      * pose proof (aligned_lt _ _ Ha Ha' Hl). lia.
      * pose proof (aligned_lt _ _ Ha' Ha ltac:(lia)). lia.
Qed.

(** ** The loop *)

(** The page that holds [a] when there is one. *)
Lemma found_page id rest s G T a i : inv id rest s G T -> 0 <= a < 2 ^ 64 -> find_page a (space s) = Some i ->
  exists p, pages (space s) !! i = Some p /\ virtual_address p = align_down a /\ page_offset a = a - virtual_address p /\
    0 <= page_offset a < VM_PAGE_SIZE /\ a < 2 ^ 47 + VM_PAGE_SIZE /\ page_at (space s) i = p.
Proof.
  intros Hi Ha Hf. pose proof (in_lookup _ _ _ _ _ Hi) as Hlk.
  apply find_page_spec in Hf as (p & Hp & Hva); [|done]. exists p.
  destruct (sh_mapped _ _ (ta_shape _ _ _ _ _ _ (ti_tables _ _ _ _ _ _ (in_tables _ _ _ _ _ Hi))) _ _ Hp) as [Hc _].
  apply canonical_bound in Hc. rewrite page_offset_mod. unfold VM_PAGE_SIZE.
  pose proof (align_down_small a Ha) as E. pose proof (Z.mod_pos_bound a 4096 ltac:(lia)).
  split_and!; [done|done|lia..|by apply page_at_eq].
Qed.

Definition writable (v : PageView) : bool := has (v_protection v) VM_PROT_WRITE.

Lemma wp_copy_to id rest fuel s G T dest source (Q : bool -> VmState -> Prop) :
  rest_ok rest -> inv id rest s G T -> (length source <= fuel)%nat -> 0 <= dest < 2 ^ 64 ->
  (forall r m s' G', (m <= length source)%nat -> (r = true -> m = length source) ->
     (r = true -> forall b, dest <= b < dest + Z.of_nat (length source) -> exists v, view s b = Some v /\ writable v = true) ->
     inv id rest s' G' T -> stable id rest s G s' G' ->
     (forall b, view s' b = patch_view dest (take m source) (align_down b) <$> view s b) -> Q r s') ->
  wp (copy_to fuel dest source) Q s.
Proof.
  revert s G dest source Q. induction fuel as [|fuel IH]; intros s G dest source Q Hrest Hi Hlen Hd HQ; cbn [copy_to].
  { apply wp_ret, (HQ true 0%nat s G); [lia|lia| |done|apply stable_refl|]; [intros _ b; lia|].
    intros b. destruct (view s b) as [v|]; [|done]. cbn. by rewrite patch_view_nil. }
  destruct source as [|x source'] eqn:Esrc.
  { apply wp_ret, (HQ true 0%nat s G); [done|done| |done|apply stable_refl|]; [intros _ b; cbn; lia|].
    intros b. destruct (view s b) as [v|]; [|done]. cbn. by rewrite patch_view_nil. }
  rewrite <- Esrc in *. assert (0 < length source)%nat as Hpos by (by rewrite Esrc; cbn; lia). clear Esrc.
  assert (forall s' G', inv id rest s' G' T -> stable id rest s G s' G' -> (forall b, view s' b = view s b) -> Q false s') as HF.
  { intros s' G' Hi' Hst Hv. apply (HQ false 0%nat s' G'); [lia|done|done|done|done|].
    intros b. rewrite Hv. destruct (view s b) as [v|]; [|done]. cbn. by rewrite patch_view_nil. }
  do 2 wp_step. destruct (find_page dest (space s)) as [i|] eqn:Ef; [|wp_step; by apply (HF s G); [|apply stable_refl|]].
  destruct (found_page _ _ _ _ _ _ _ Hi Hd Ef) as (p & Hp & Hva & Hoff & Hob & Hsmall & ->).
  destruct (has (protection p) VM_PROT_WRITE) eqn:Hwr; cbn [negb]; [|wp_step; by apply (HF s G); [|apply stable_refl|]].
  wp_step. eapply wp_make_private; [done|done|done| |].
  { intros s' Hi' Hst Hv. cbn [negb]. wp_step. by apply (HF s' G). }
  intros s1 G1 f Hi1 Hst1 Hv1 Hp1 _. cbn [negb]. do 2 wp_step. unfold Datatypes.id. rewrite (page_at_eq _ _ _ Hp1). cbn [frame].
  set (p1 := mkPage _ _ _ _ _) in *. set (chunk := Z.min _ _). assert (VM_PAGE_SIZE = 4096) as Hps by done.
  assert (0 < chunk <= Z.of_nat (length source) /\ chunk <= VM_PAGE_SIZE - page_offset dest) as [Hc1 Hc2] by (unfold chunk; lia).
  wp_step. apply wp_on_world. wp_step.
  change (with_page_data _ (world s1)) with
    (with_contents f (blit (Z.to_nat (page_offset dest)) (take (Z.to_nat chunk) source) (contents (world s1) f)) (world s1)).
  assert (length (take (Z.to_nat chunk) source) = Z.to_nat chunk) as Hlt by (rewrite length_take; lia).
  pose proof (write_page_ok id rest s1 G1 T i p1 dest (take (Z.to_nat chunk) source) Hrest Hi1 Hp1 Hwr eq_refl
    ltac:(cbn; lia) ltac:(cbn; lia)) as (Hi2 & Hst2 & Hv2).
  cbn [virtual_address frame p1] in Hi2, Hst2, Hv2. rewrite <- Hoff in Hi2, Hst2, Hv2.
  set (s2 := mkVm _ (space s1)) in *.
  rewrite (wrap_small 64 (dest + chunk)) by lia.
  eapply (IH s2 G1); [done|done|rewrite length_drop; lia|lia|].
  intros r m s' G' Hm Hr Hwrt Hi' Hst' Hv'. rewrite length_drop in *.
  assert (forall b, view s' b = patch_view dest (take (Z.to_nat chunk + m) source) (align_down b) <$> view s b) as Hv.
  { intros b. rewrite Hv', Hv2, Hv1. destruct (view s b) as [v|]; [|done]. cbn. f_equal.
    replace (dest + chunk) with (dest + Z.of_nat (length (take (Z.to_nat chunk) source))) by lia.
    by rewrite patch_view_app, take_take_drop. }
  apply (HQ r (Z.to_nat chunk + m)%nat s' G'); [lia|intros; specialize (Hr ltac:(done)); lia| |done|eauto using stable_trans|done].
  intros Er b Hb. destruct (Z.lt_ge_cases b (dest + chunk)) as [Hin|Hout].
  - exists (view_of (world s) p). split; [|done]. eapply view_record; [by eapply in_lookup|done|].
    assert (0 <= b < 2 ^ 64) as Hb64 by lia. rewrite (align_down_small b Hb64).
    rewrite (align_down_small dest Hd) in Hva. rewrite page_offset_mod in Hoff, Hob, Hc2.
    pose proof (Z.div_mod b 4096 ltac:(lia)). pose proof (Z.div_mod dest 4096 ltac:(lia)).
    pose proof (Z.mod_pos_bound b 4096 ltac:(lia)). rewrite Hva. lia.
  - destruct (Hwrt Er b) as (v & Hv0 & Hw0); [lia|]. rewrite Hv2, Hv1 in Hv0.
    destruct (view s b) as [v1|] eqn:Evb; [|done]. cbn in Hv0. simplify_eq. exists v1. done.
Qed.

(** ** Reading *)

(** The byte a process sees at an address. *)
Definition byte_at s (a : Z) : option Z :=
  match find_page a (space s) with
  | Some i => contents (world s) (frame (page_at (space s) i)) !! Z.to_nat (page_offset a)
  | None => None
  end.

Lemma same_page a k : 0 <= a -> 0 <= k -> a + k < 2 ^ 64 -> page_offset a + k < VM_PAGE_SIZE ->
  align_down (a + k) = align_down a /\ page_offset (a + k) = page_offset a + k.
Proof.
  rewrite !page_offset_mod. unfold VM_PAGE_SIZE. intros Ha Hk Hb Ho.
  assert ((a + k) mod 4096 = a mod 4096 + k) as E.
  { pose proof (Z.mod_pos_bound a 4096 ltac:(lia)). rewrite <- (Z.mod_small (a mod 4096 + k) 4096) by lia.
    by rewrite Zplus_mod_idemp_l. }
  rewrite !align_down_small by lia. lia.
Qed.

Lemma byte_at_page s a k i : 0 <= a -> 0 <= k -> a + k < 2 ^ 64 -> page_offset a + k < VM_PAGE_SIZE ->
  find_page a (space s) = Some i ->
  byte_at s (a + k) = contents (world s) (frame (page_at (space s) i)) !! Z.to_nat (page_offset a + k).
Proof.
  intros Ha Hk Hb Ho Hf. destruct (same_page a k Ha Hk Hb Ho) as [E1 E2]. unfold byte_at.
  by rewrite <- find_page_align, E1, find_page_align, Hf, E2.
Qed.

Lemma copy_from_sound id rest fuel s G T source size l :
  rest_ok rest -> inv id rest s G T -> (size <= fuel)%nat -> 0 <= source < 2 ^ 64 ->
  copy_from fuel source size s = Some l ->
  length l = size /\ forall k, (k < size)%nat -> byte_at s (source + Z.of_nat k) = l !! k.
Proof.
  revert source size l. induction fuel as [|fuel IH]; intros source size l Hrest Hi Hsz Hs; cbn [copy_from].
  { intros [= <-]. split; [cbn; lia|lia]. }
  destruct (Nat.eqb_spec size 0) as [->|Hnz]; [intros [= <-]; split; [done|lia]|].
  unfold translated_frame. destruct (find_page source (space s)) as [i|] eqn:Ef; [|done].
  destruct (found_page _ _ _ _ _ _ _ Hi Hs Ef) as (p & Hp & Hva & Hoff & Hob & Hsmall & Epa). rewrite Epa.
  destruct (in_frame _ _ _ _ _ _ _ Hrest Hi Hp) as [fr Hfr].
  pose proof (fo_length _ _ _ _ _ (wo_frame _ _ _ (in_world _ _ _ _ _ Hi) _ _ Hfr)) as Hlen.
  assert (VM_PAGE_SIZE = 4096) as Hps by done.
  set (chunk := Z.to_nat _). assert (0 < chunk <= size)%nat as Hc by (unfold chunk; lia).
  assert (Z.of_nat chunk <= VM_PAGE_SIZE - page_offset source) as Hc2 by (unfold chunk; lia).
  rewrite (wrap_small 64 (source + Z.of_nat chunk)) by lia.
  destruct (copy_from fuel _ _ s) as [rest'|] eqn:Er; [|done]. intros [= <-].
  destruct (IH (source + Z.of_nat chunk) (size - chunk)%nat rest' Hrest Hi ltac:(lia) ltac:(lia) Er) as [Hl Hk].
  fold (contents (world s) (frame p)). rewrite (contents_eq _ _ _ Hfr).
  assert (length (slice (Z.to_nat (page_offset source)) chunk (data_at (world s) (data fr))) = chunk) as Hsl.
  { unfold slice. rewrite length_take, length_drop. unfold data_at. lia. }
  rewrite length_app, Hsl, Hl. split; [lia|]. intros k Hlt.
  destruct (decide (k < chunk)%nat) as [Hin|Hout].
  - rewrite (byte_at_page s source (Z.of_nat k) i), Epa, (contents_eq _ _ _ Hfr) by (done || lia).
    rewrite lookup_app_l by lia. unfold slice. rewrite lookup_take_lt, lookup_drop by lia. f_equal. lia.
  - rewrite lookup_app_r, Hsl by lia. rewrite <- Hk by lia. f_equal. lia.
Qed.

Lemma copy_from_complete id rest fuel s G T source size :
  rest_ok rest -> inv id rest s G T -> (size <= fuel)%nat -> 0 <= source < 2 ^ 64 ->
  (forall k, (k < size)%nat -> is_Some (view s (source + Z.of_nat k))) -> is_Some (copy_from fuel source size s).
Proof.
  revert source size. induction fuel as [|fuel IH]; intros source size Hrest Hi Hsz Hs Hall; cbn [copy_from]; [eauto|].
  destruct (Nat.eqb_spec size 0) as [->|Hnz]; [eauto|].
  unfold translated_frame. destruct (proj1 (view_found s source)) as [i Ef].
  { rewrite <- (Z.add_0_r source). apply (Hall 0%nat). lia. }
  rewrite Ef. destruct (found_page _ _ _ _ _ _ _ Hi Hs Ef) as (p & Hp & Hva & Hoff & Hob & Hsmall & Epa).
  assert (VM_PAGE_SIZE = 4096) as Hps by done.
  set (chunk := Z.to_nat _). assert (0 < chunk <= size)%nat as Hc by (unfold chunk; lia).
  assert (Z.of_nat chunk <= VM_PAGE_SIZE) as Hc2 by (unfold chunk; lia).
  rewrite (wrap_small 64 (source + Z.of_nat chunk)) by lia.
  destruct (IH (source + Z.of_nat chunk) (size - chunk)%nat Hrest Hi) as [l ->]; [lia|lia| |eauto].
  intros k Hk. replace (source + Z.of_nat chunk + Z.of_nat k) with (source + Z.of_nat (chunk + k)) by lia. apply Hall. lia.
Qed.

(** What a process sees at an address, from its view. *)
Lemma byte_at_private s a v l : view s a = Some v -> v_backing v = Private l ->
  byte_at s a = l !! Z.to_nat (page_offset a).
Proof.
  unfold view, byte_at. destruct (find_page a (space s)) as [i|]; [|done]. intros [= <-]. cbn.
  case_match; [done|]. by intros [= <-].
Qed.

(** A private range that was written reads back. *)
Lemma copy_roundtrip id rest s s' G' T dest source :
  rest_ok rest -> inv id rest s' G' T -> 0 <= dest < 2 ^ 64 -> dest + Z.of_nat (length source) <= 2 ^ 64 ->
  (forall k, (k < length source)%nat -> exists v l, view s (dest + Z.of_nat k) = Some v /\
     v_backing v = Private l /\ length l = Z.to_nat VM_PAGE_SIZE) ->
  (forall b, view s' b = patch_view dest source (align_down b) <$> view s b) ->
  vm_copy_from_user dest (length source) s' = Some source.
Proof.
  intros Hrest Hi' Hd Hend Hpriv Hv. unfold vm_copy_from_user.
  destruct (copy_from_complete id rest (length source) s' G' T dest (length source) Hrest Hi' ltac:(lia) Hd) as [l El].
  { intros k Hk. rewrite Hv. destruct (Hpriv k Hk) as (v & ? & -> & _). eauto. }
  rewrite El. f_equal. destruct (copy_from_sound id rest _ _ _ _ _ _ _ Hrest Hi' (le_n _) Hd El) as [Hlen Hk].
  apply list_eq_same_length with (length source); [done|done|]. intros k x y Hlt Hx Hy.
  rewrite <- (Hk k Hlt) in Hx. destruct (Hpriv k Hlt) as (v & c & Hvk & Hb & Hc).
  assert (view s' (dest + Z.of_nat k) = Some (patch_view dest source (align_down (dest + Z.of_nat k)) v)) as Hv'
    by (by rewrite Hv, Hvk).
  erewrite byte_at_private in Hx; [|done|by unfold patch_view; cbn; rewrite Hb].
  assert (0 <= dest + Z.of_nat k < 2 ^ 64) as Hb64 by lia. set (a := dest + Z.of_nat k) in *.
  pose proof (align_down_small a Hb64) as Ea. rewrite page_offset_mod in Hx.
  pose proof (Z.mod_pos_bound a 4096 ltac:(lia)). rewrite lookup_patch in Hx.
  destruct (lookup_lt_is_Some_2 c (Z.to_nat (a mod 4096))) as [z Hz]; [rewrite Hc; unfold VM_PAGE_SIZE; lia|].
  rewrite Hz in Hx. cbn in Hx. rewrite Z2Nat.id in Hx by lia.
  replace (align_down a + a mod 4096) with a in Hx by lia. rewrite (proj2 (Z.leb_le dest a)) in Hx by (unfold a; lia).
  replace (Z.to_nat (a - dest)) with k in Hx by (unfold a; lia). rewrite Hy in Hx. cbn in Hx. congruence.
Qed.

(** The pages of a view are whole. *)
Lemma view_length id rest s G T a v l : rest_ok rest -> inv id rest s G T -> view s a = Some v ->
  v_backing v = Private l -> length l = Z.to_nat VM_PAGE_SIZE.
Proof.
  intros Hrest Hi. unfold view. destruct (find_page a (space s)) as [i|] eqn:Ef; [|done]. intros [= <-]. cbn.
  apply find_page_spec in Ef as (p & Hp & _); [|by eapply in_lookup]. rewrite (page_at_eq _ _ _ Hp).
  case_match; [done|]. intros [= <-]. destruct (in_frame _ _ _ _ _ _ _ Hrest Hi Hp) as [fr Hfr].
  rewrite (contents_eq _ _ _ Hfr). by apply (wo_frame _ _ _ (in_world _ _ _ _ _ Hi) _ _ Hfr).
Qed.

End copy.
