(* ===== verification/VmMap.v ===== *)
(** * Mapping and unmapping pages *)

From S2P Require Import Prelude Heap HeapFacts Interfaces Ownership Vm VmLookup VmFrames VmTables VmSpaces VmOps VmCopy.

Section map.
Context {H : Type} `{!Allocator H, !Ownership H}.

Implicit Types (w : @VmWorld H) (s : @VmState H) (G : Ghost) (rc rest : Z -> Z) (h : H) (sp : VmSpace) (T : Tree).

#[local] Opaque find_page.

(** ** Steps that keep every frame there is *)

Record keeps (id : nat) s G s' G' : Prop := {
  kp_frame g gr : vw_frames (world s) !! g = Some gr ->
    exists n, vw_frames (world s') !! g = Some (mkFrame (data gr) (allocation gr) n) /\
      role G' !! g = role G !! g /\ data_at (world s') (data gr) = data_at (world s) (data gr);
  kp_block p id' k : id' <> id -> role G !! p = Some (TableBlock id') -> live_blocks G !! p = Some k ->
    role G' !! p = Some (TableBlock id') /\ live_blocks G' !! p = Some k /\
    (forall y, p <= y < p + k -> word_at (world s') y = word_at (world s) y) }.

Lemma keeps_trans id s G s1 G1 s2 G2 : keeps id s G s1 G1 -> keeps id s1 G1 s2 G2 -> keeps id s G s2 G2.
Proof.
  intros [F1 B1] [F2 B2]. split.
  - intros g gr Hg. destruct (F1 _ _ Hg) as (n & Hg1 & Hr1 & Hd1).
    destruct (F2 _ _ Hg1) as (n' & Hg2 & Hr2 & Hd2). exists n'. cbn in *. split_and!; [done|congruence..].
  - intros p id' k Hid Hp Hk. destruct (B1 _ _ _ Hid Hp Hk) as (Hp1 & Hk1 & Hw1).
    destruct (B2 _ _ _ Hid Hp1 Hk1) as (Hp2 & Hk2 & Hw2). split_and!; [done..|].
    intros y Hy. rewrite Hw2 by done. by apply Hw1.
Qed.

Lemma keeps_stable id rest s G s' G' : keeps id s G s' G' ->
  (forall f fr, 0 < rest f -> vw_frames (world s) !! f = Some fr -> role G !! f = Some (FrameBlock false) ->
     uses f (space s') <= uses f (space s)) -> stable id rest s G s' G'.
Proof.
  intros [F B] Hu. split; [|done|done]. intros f fr _ Hf. destruct (F _ _ Hf) as (n & ? & ? & ?). eauto.
Qed.

Lemma extends_keeps id x rc rc' s G s' G' T' : world_ok (world s) G rc' -> tinv id x rc s' G' T' ->
  extends s G s' G' -> keeps id s G s' G'.
Proof.
  intros Hw Hti [Ef Ep Hk _ Hr Hl]. split.
  - intros g gr Hg. exists (references gr). rewrite Ef. split; [by destruct gr|].
    destruct (wo_frame _ _ _ Hw _ _ Hg) as [_ [b Hb] _ _ _ _ _ _]. split; [rewrite Hb; by apply Hr|].
    unfold data_at. by rewrite Ep.
  - intros p id' k Hid Hp Hk'. split_and!; [by apply Hr|by apply Hl|].
    apply (words_stable id x rc s s' G' T' p id' k); auto.
Qed.

Lemma created_keeps id s G f w' G' rc : world_ok (world s) G rc -> created (world s) G f w' G' ->
  keeps id s G (mkVm w' (space s)) G'.
Proof.
  intros Hw Hc. split.
  - intros g gr Hg. destruct (created_frame _ _ _ _ _ _ _ Hc Hg) as [Hg' Hd]. exists (references gr). cbn.
    destruct (wo_frame _ _ _ Hw _ _ Hg) as [_ [b Hb] _ _ _ _ _ _].
    split_and!; [rewrite Hg'; by destruct gr|rewrite Hb; by eapply cr_role|done].
  - intros p id' k _ Hp Hk. split_and!; [by eapply cr_role|by eapply cr_live|]. intros y _.
    pose proof (cr_world _ _ _ _ _ Hc) as (d & raw & h & -> & _). done.
Qed.

Lemma created_tinv id rc s G T f w' G' : tinv id None rc s G T ->
  (forall i p, pages (space s) !! i = Some p -> is_Some (vw_frames (world s) !! frame p)) ->
  created (world s) G f w' G' -> world_ok w' G' (bump f rc) -> tinv id None (bump f rc) (mkVm w' (space s)) G' T.
Proof.
  intros [Hw Hok] Hfr Hc Hw'. split; [done|]. cbn [world space].
  pose proof (cr_world _ _ _ _ _ Hc) as (d & raw & h & E & _).
  eapply (tables_ok_frames id None (world s) w' G); [done|by rewrite E|apply Hc|apply Hc|].
  intros j q Hq. destruct (Hfr _ _ Hq) as [qr Hqr]. destruct (created_frame _ _ _ _ _ _ _ Hc Hqr) as [Hq' _].
  apply (entry_word_frame (world s) w' q qr (references qr)); [done|]. rewrite Hq'. by destruct qr.
Qed.

Lemma view_keeps id rest s G T s' G' b : rest_ok rest -> inv id rest s G T -> lookup_ok (space s') ->
  same_at (align_down b) (space s) (space s') -> keeps id s G s' G' -> view s' b = view s b.
Proof.
  intros Hrest Hi Hlk Hs Hk. apply view_same; [by eapply in_lookup|done|done|]. intros i p Hp _.
  destruct (in_frame _ _ _ _ _ _ _ Hrest Hi Hp) as [fr Hfr]. destruct (kp_frame _ _ _ _ _ Hk _ _ Hfr) as (n & Hn & _ & Hd).
  by eapply view_of_frame.
Qed.

(** ** Letting go of a frame *)

(** A block that is not a table of the space goes. *)
Lemma blocks_ok_drop id G sp p : blocks_ok id G sp -> role G !! p <> Some (TableBlock id) -> blocks_ok id (drop_block p G) sp.
Proof.
  intros [B1 B2 B3 B4 B5 B6 B7] Hp. assert (forall q, role G !! q = Some (TableBlock id) -> p <> q) as Hne by congruence.
  split; try done; cbn.
  - rewrite lookup_delete_ne by eauto. done.
  - apply inside_drop; eauto.
  - intros t raw Hin. destruct (B6 _ _ Hin) as (Hr & ? & ?). rewrite lookup_delete_ne by eauto.
    split_and!; [done|apply inside_drop; eauto|done].
Qed.

(** The frame [f] loses a holder; no record of the space refers to it any more, or it stays. *)
Lemma wp_release id x rc s G T f fr (Q : unit -> VmState -> Prop) :
  tinv id x rc s G T -> vw_frames (world s) !! f = Some fr ->
  (rc f = 1 -> forall i p, pages (space s) !! i = Some p -> x <> Some (virtual_address p) -> frame p <> f) ->
  (forall w' G', tinv id x (unbump f rc) (mkVm w' (space s)) G' T ->
     (forall g gr, vw_frames (world s) !! g = Some gr -> g <> f \/ 1 < rc f ->
        exists n, vw_frames w' !! g = Some (mkFrame (data gr) (allocation gr) n) /\
          role G' !! g = role G !! g /\ data_at w' (data gr) = data_at (world s) (data gr)) ->
     (forall p id' k, role G !! p = Some (TableBlock id') -> live_blocks G !! p = Some k ->
        role G' !! p = Some (TableBlock id') /\ live_blocks G' !! p = Some k) ->
     vw_words w' = vw_words (world s) -> Q tt (mkVm w' (space s))) ->
  wp (on_world (vm_frame_release f)) Q s.
Proof.
  intros [Hw Hok] Hf Hunused HQ. apply wp_on_world. eapply wp_vm_frame_release; [done|done|..].
  - intros H1 Hw'.
    assert (forall g gr, vw_frames (world s) !! g = Some gr -> exists n,
      vw_frames (with_count f (rc f - 1) (world s)) !! g = Some (mkFrame (data gr) (allocation gr) n)) as Hfr.
    { intros g gr Hg. cbn. destruct (decide (f = g)) as [->|Hne].
      - rewrite lookup_insert_eq, (frame_at_eq _ _ _ Hg). eauto.
      - rewrite lookup_insert_ne, Hg by done. exists (references gr). by destruct gr. }
    apply (HQ _ G); [|  |done|done].
    + split; [done|]. cbn [world space]. split; [apply Hok..|].
      apply (words_ok_world x (world s)); [|done|apply Hok|apply Hok]. intros i p Hp.
      unfold entry_word, with_count, frame_at. cbn.
      destruct (decide (f = frame p)) as [<-|Hne]; [by rewrite lookup_insert_eq|by rewrite lookup_insert_ne].
    + intros g gr Hg _. destruct (Hfr _ _ Hg) as [n Hn]. exists n. done.
  - intros h H1 Hw'. pose proof (wo_frame _ _ _ Hw _ _ Hf) as [_ [b Hb] Hpg _ _ _ _ _].
    assert (forall g, g <> f -> g <> allocation fr ->
      role (drop_block f (drop_block (allocation fr) G)) !! g = role G !! g /\
      live_blocks (drop_block f (drop_block (allocation fr) G)) !! g = live_blocks G !! g) as Hsame.
    { intros g H2 H3. cbn. by rewrite !lookup_delete_ne. }
    eapply HQ; [split; [exact Hw'|]| | |done]; cbn [world space].
    + destruct Hok as [B S [We Wl]]. split; [|done|split].
      * apply blocks_ok_drop; [apply blocks_ok_drop; [done|congruence]|]. cbn.
        rewrite lookup_delete_ne by congruence. congruence.
      * done.
      * intros a t Hx Ha Haa Ht. destruct (Wl a t Hx Ha Haa Ht) as [L1 L2]. split; [|done].
        intros i p Hp Hpa. etrans; [exact (L1 _ _ Hp Hpa)|]. unfold entry_word, frame_at. cbn.
        rewrite lookup_delete_ne; [done|]. intros E. eapply Hunused; [done|done|congruence|done].
    + intros g gr Hg [Hne|?]; [|lia]. exists (references gr). cbn. rewrite lookup_delete_ne by done.
      pose proof (wo_frame _ _ _ Hw _ _ Hg) as [_ [b' Hb'] _ _ _ _ _ _].
      split_and!; [rewrite Hg; by destruct gr| |].
      * apply Hsame; [done|congruence].
      * unfold data_at. cbn. rewrite (frame_at_eq _ _ _ Hf), lookup_delete_ne; [done|].
        intros E. by apply Hne, (data_inj _ _ _ _ _ _ _ Hw Hg Hf).
    + intros p id' k Hp Hk. destruct (Hsame p) as [-> ->]; [congruence|congruence|done].
Qed.

(** ** Mapping a page *)

Lemma pages_of_one a : aligned a -> 0 <= a < 2 ^ 48 -> pages_of a VM_PAGE_SIZE = 1%nat /\ first_page a = a.
Proof.
  intros Ha Hb. split; [|done]. unfold pages_of, page_count, align_up. rewrite Ha.
  assert (VM_PAGE_SIZE = 4096) as Hps by done. rewrite (wrap_small 64 (a + VM_PAGE_SIZE)) by lia.
  rewrite (wrap_small 64 (a + VM_PAGE_SIZE + VM_PAGE_SIZE - 1)) by lia.
  fold (align_down (a + VM_PAGE_SIZE + VM_PAGE_SIZE - 1)). rewrite align_down_small by lia.
  apply aligned_iff in Ha as [_ Hm].
  assert ((a + VM_PAGE_SIZE + VM_PAGE_SIZE - 1) mod 4096 = 4095) as ->.
  { rewrite Hps. replace (a + 4096 + 4096 - 1) with (a + 4095 + 1 * 4096) by lia. rewrite Z_mod_plus_full.
    rewrite Zplus_mod, Hm. done. }
  replace (a + VM_PAGE_SIZE + VM_PAGE_SIZE - 1 - 4095 - a) with (1 * VM_PAGE_SIZE) by lia. by rewrite Z.div_mul.
Qed.

Lemma in_range_one a b : aligned a -> in_range a 1 b = bool_decide (align_down b = a).
Proof. intros Ha. by rewrite in_range_S, in_range_O, orb_false_r. Qed.

(** A mapped page gets another protection, an unmapped one a page of zeroes. *)
Definition map_view (prot : Z) (v : option PageView) : PageView :=
  mkView prot match v with Some v => v_backing v | None => Private zero_page end.

(** A frame of the space's own enters the records. *)
Lemma inv_insert id rest s G T s' G' T' i p rc :
  rest_ok rest -> inv id rest s G T -> keeps id s G s' G' -> tinv id None rc s' G' T' ->
  lookup_ok (space s') -> pages (space s) !! i = None -> pages (space s') = <[i := p]> (pages (space s)) ->
  (forall f, rc f = bump (frame p) (total rest (space s)) f) ->
  (forall j q, pages (space s) !! j = Some q -> frame q = frame p -> shared q = false ->
     has (protection q) VM_PROT_WRITE = true -> copy_on_write q = true) ->
  role G' !! frame p = Some (FrameBlock (shared p)) ->
  (shared p = false -> has (protection p) VM_PROT_WRITE = true -> copy_on_write p = false ->
     total rest (space s) (frame p) = 0) ->
  (copy_on_write p = true -> shared p = false) -> inv id rest s' G' T'.
Proof.
  intros Hrest Hi Hk Hti Hlk Hnew Ep Hrc Hother Hrole Hsole Hcow. pose proof Hi as [Hti0 [Hlk0 R0 P0 C0]].
  assert (forall g, total rest (space s') g = rc g) as Htot.
  { intros g. rewrite Hrc. unfold total, uses, bump. rewrite Ep, count_insert by done. lia. }
  split; [eapply tinv_ext; [|done]; intros g; by rewrite Htot|]. split; [done|..]; rewrite Ep.
  - intros j q. rewrite lookup_insert_Some. intros [[_ <-]|[_ Hq]]; [done|].
    destruct (in_frame _ _ _ _ _ _ _ Hrest Hi Hq) as [qr Hqr]. destruct (kp_frame _ _ _ _ _ Hk _ _ Hqr) as (_ & _ & -> & _).
    by eapply R0.
  - intros j q. rewrite lookup_insert_Some, Htot, Hrc. unfold bump. intros [[_ <-]|[_ Hq]] Hsh Hwr Hcw.
    + rewrite decide_True by done. rewrite Hsole by done. lia.
    + rewrite decide_False; [rewrite Z.add_0_r; by eapply P0|]. intros E.
      rewrite (Hother _ _ Hq E Hsh Hwr) in Hcw. done.
  - intros j q. rewrite lookup_insert_Some. intros [[_ <-]|[_ Hq]]; [done|eauto].
Qed.

Lemma wp_vm_map_page id rest s G T a prot (Q : bool -> VmState -> Prop) :
  rest_ok rest -> inv id rest s G T ->
  (forall s' G' T', inv id rest s' G' T' -> stable id rest s G s' G' -> (forall b, view s' b = view s b) -> Q false s') ->
  (forall s' G' T', aligned a -> canonical_user_address a = true -> inv id rest s' G' T' -> stable id rest s G s' G' ->
     (forall b, view s' b = if decide (align_down b = a) then Some (map_view prot (view s b)) else view s b) -> Q true s') ->
  wp (vm_map_page a prot) Q s.
Proof.
  intros Hrest Hi HF HT. pose proof (in_lookup _ _ _ _ _ Hi) as Hlk. unfold vm_map_page. do 2 wp_step.
  destruct (_ || negb (canonical_user_address a))%bool eqn:Eg; [wp_step; eapply HF; [done|apply stable_refl|done]|]. bool_hyps.
  pose proof (canonical_bound a ltac:(done)) as Hb.
  assert (aligned a) as Ha by (apply aligned_iff; rewrite <- page_offset_mod; lia).
  destruct (find_page a (space s)) as [i|] eqn:Ef.
  - eapply wp_vm_protect; [done|done|]. intros s' Hi' Hst Hv.
    destruct (pages_of_one a Ha ltac:(lia)) as [Hn Hfp].
    assert (protectable a VM_PAGE_SIZE (space s) = true) as Hpr.
    { unfold protectable. rewrite Hn, Hfp. cbn [all_mapped]. rewrite Ef, andb_true_r, (wrap_small 64) by (unfold VM_PAGE_SIZE; lia).
      unfold VM_PAGE_SIZE. lia. }
    rewrite Hpr in *. eapply HT; [done|done|done|done|]. intros b. rewrite Hv, Hn, Hfp, in_range_one by done. cbn [andb].
    case_decide as E; [|by rewrite bool_decide_false]. rewrite bool_decide_true by done.
    assert (is_Some (view s b)) as [v ->]; [|done]. apply view_found. rewrite <- find_page_align, E, Ef. eauto.
  - rewrite find_page_None, Ha in Ef by done. wp_step. apply wp_on_world.
    eapply wp_vm_frame_create; [by eapply in_world| |].
    { intros h Hw. pose proof (wo_owned _ _ _ Hw) as Ho. rewrite Z.eqb_refl. wp_step.
      eapply (HF _ G T); [by apply inv_heap|by eapply stable_heap|]. intros b. by apply view_same. }
    intros f w1 G1 Hc Hw1. rewrite (proj2 (Z.eqb_neq _ _) (cr_nonzero _ _ _ _ _ Hc)). wp_step.
    assert (tinv id None (bump f (total rest (space s))) (mkVm w1 (space s)) G1 T) as Hti1.
    { eapply created_tinv; [apply Hi|intros; by eapply in_frame|done|done]. }
    pose proof (created_keeps id s G f w1 G1 _ (in_world _ _ _ _ _ Hi) Hc) as Hk1.
    pose proof (cr_fresh _ _ _ _ _ Hc) as Hfresh.
    assert (forall j q, pages (space s) !! j = Some q -> frame q <> f) as Hnf.
    { intros j q Hq E. destruct (in_frame _ _ _ _ _ _ _ Hrest Hi Hq) as [? ?]. congruence. }
    assert (exists fr, vw_frames w1 !! f = Some fr) as [fr Hfr].
    { pose proof (cr_world _ _ _ _ _ Hc) as (d & raw & h & -> & _). cbn. rewrite lookup_insert_eq. eauto. }
    pose proof (zero_unheld _ _ _ _ (in_world _ _ _ _ _ Hi) Hfresh) as Hzero.
    eapply wp_install_page; [exact Hti1|done|done|done| |].
    + intros s2 G2 T2 Hti2 Hlk2 Hx Ep. cbn [negb]. wp_step. cbn [space] in Ep.
      pose proof (extends_keeps _ _ _ _ _ _ _ _ _ (ti_world _ _ _ _ _ _ Hti1) Hti2 Hx) as Hk2.
      eapply (wp_release id None _ s2 G2 T2 f fr); [done|by rewrite (ex_frames _ _ _ _ Hx)| |].
      { intros _ j q. rewrite Ep. intros Hq _. by eapply Hnf. }
      intros w3 G3 Hti3 Hfr3 Hbl3 Hws. wp_step.
      assert (keeps id s G (mkVm w3 (space s2)) G3) as Hk.
      { pose proof (keeps_trans _ _ _ _ _ _ _ Hk1 Hk2) as [F B]. split.
        - intros g gr Hg. destruct (F _ _ Hg) as (n & Hg2 & Hr2 & Hd2).
          destruct (Hfr3 _ _ Hg2) as (n' & Hg3 & Hr3 & Hd3); [left; congruence|]. exists n'. cbn in *.
          split_and!; [done|congruence..].
        - intros p id' k Hid Hp Hk. destruct (B _ _ _ Hid Hp Hk) as (Hp2 & Hl2 & Hw2).
          destruct (Hbl3 _ _ _ Hp2 Hl2) as [Hp3 Hl3]. split_and!; [done..|]. intros y Hy.
          rewrite <- Hw2 by done. cbn. unfold word_at. by rewrite Hws. }
      assert (forall g, unbump f (bump f (total rest (space s))) g = total rest (space s2) g) as Htot.
      { intros g. unfold unbump, bump, total, uses. rewrite Ep. lia. }
      eapply (HF _ G3 T2).
      * split; [by eapply tinv_ext|]. pose proof Hi as [_ [_ R P C]]. split; cbn [space]; [done|..]; rewrite Ep.
        -- intros j q Hq. destruct (in_frame _ _ _ _ _ _ _ Hrest Hi Hq) as [qr Hqr].
           destruct (kp_frame _ _ _ _ _ Hk _ _ Hqr) as (_ & _ & -> & _). by eapply R.
        -- intros j q Hq Hs Hw Hcw. unfold total, uses. rewrite Ep. by eapply P.
        -- done.
      * eapply keeps_stable; [done|]. intros g gr _ _ _. unfold uses. cbn. by rewrite Ep.
      * intros b. eapply view_keeps; [done|done|done| |done]. intros j q _. cbn. by rewrite Ep.
    + intros i s2 G2 T2 Hti2 Hlk2 Hx Hnew Ep. cbn [negb]. wp_step. cbn [space] in Ep, Hnew.
      pose proof (extends_keeps _ _ _ _ _ _ _ _ _ (ti_world _ _ _ _ _ _ Hti1) Hti2 Hx) as Hk2.
      pose proof (keeps_trans _ _ _ _ _ _ _ Hk1 Hk2) as Hk.
      eapply (HT s2 G2 T2); [done|done| | |].
      * eapply inv_insert; [done|done|done|done|done|done|done|done| | |done|done].
        -- intros j q Hq E. by destruct (Hnf _ _ Hq).
        -- cbn. eapply ex_role; [done|]. exact (cr_private _ _ _ _ _ Hc).
      * eapply keeps_stable; [done|]. intros g gr _ Hg _. unfold uses. rewrite Ep, count_insert by done. cbn [frame].
        rewrite decide_False; [lia|]. congruence.
      * intros b. case_decide as E.
        -- rewrite (view_record s2 b i (mkPage a f prot false false)); [|done|rewrite Ep; apply lookup_insert_eq|done].
           rewrite (view_unmapped s b) by (done || by rewrite E). unfold view_of, map_view. cbn. repeat f_equal.
           destruct (kp_frame _ _ _ _ _ Hk2 _ _ Hfr) as (n & Hn & _ & Hd). rewrite (contents_eq _ _ _ Hn). cbn. rewrite Hd.
           rewrite <- (created_contents _ _ _ _ _ Hc). symmetry. exact (contents_eq _ _ _ Hfr).
        -- eapply view_keeps; [done|done|done| |done]. eapply same_at_insert; done.
Qed.

(** ** Mapping a shared frame *)

Lemma retain_keeps id s G f n : keeps id s G (mkVm (with_count f n (world s)) (space s)) G.
Proof.
  split; [|done]. intros g gr Hg. cbn. destruct (decide (f = g)) as [->|Hne].
  - rewrite lookup_insert_eq, (frame_at_eq _ _ _ Hg). eauto.
  - rewrite lookup_insert_ne, Hg by done. exists (references gr). split; [by destruct gr|done].
Qed.

Lemma count_tinv id x rc rc' s G T f n : tinv id x rc s G T -> world_ok (with_count f n (world s)) G rc' ->
  tinv id x rc' (mkVm (with_count f n (world s)) (space s)) G T.
Proof.
  intros [Hw Hok] Hw'. split; [done|]. cbn [world space]. split; [apply Hok..|].
  apply (words_ok_world x (world s)); [|done|apply Hok|apply Hok]. intros i p Hp.
  unfold entry_word, with_count, frame_at. cbn.
  destruct (decide (f = frame p)) as [<-|Hne]; [by rewrite lookup_insert_eq|by rewrite lookup_insert_ne].
Qed.

(** The invariant of a space whose records did not change. *)
Lemma inv_keeps id rest s G T s' G' T' rc :
  rest_ok rest -> inv id rest s G T -> keeps id s G s' G' -> tinv id None rc s' G' T' -> lookup_ok (space s') ->
  pages (space s') = pages (space s) -> (forall g, rc g = total rest (space s) g) -> inv id rest s' G' T'.
Proof.
  intros Hrest Hi Hk Hti Hlk Ep Hrc. pose proof Hi as [_ [_ R P C]].
  assert (forall g, total rest (space s') g = total rest (space s) g) as Htot by (intros g; unfold total, uses; by rewrite Ep).
  split; [eapply tinv_ext; [|done]; intros g; by rewrite Htot, Hrc|]. split; [done|..]; rewrite Ep.
  - intros j q Hq. destruct (in_frame _ _ _ _ _ _ _ Hrest Hi Hq) as [qr Hqr].
    destruct (kp_frame _ _ _ _ _ Hk _ _ Hqr) as (_ & _ & -> & _). by eapply R.
  - intros j q Hq ? ? ?. rewrite Htot. by eapply P.
  - done.
Qed.

(** [f] is a shared frame that others hold. *)
Lemma wp_vm_map_shared_frame id rest s G T a f prot (Q : bool -> VmState -> Prop) :
  rest_ok rest -> inv id rest s G T -> 0 < rest f -> role G !! f = Some (FrameBlock true) ->
  (forall s' G' T', inv id rest s' G' T' -> stable id rest s G s' G' -> (forall b, view s' b = view s b) -> Q false s') ->
  (forall s' G' T', aligned a -> canonical_user_address a = true -> view s a = None -> inv id rest s' G' T' ->
     stable id rest s G s' G' ->
     (forall b, view s' b = if decide (align_down b = a) then Some (mkView prot (Shared f)) else view s b) -> Q true s') ->
  wp (vm_map_shared_frame a f prot) Q s.
Proof.
  intros Hrest Hi Hheld Hrole HF HT. pose proof (in_lookup _ _ _ _ _ Hi) as Hlk. unfold vm_map_shared_frame. do 2 wp_step.
  destruct (_ || bool_decide _)%bool eqn:Eg; [wp_step; eapply HF; [done|apply stable_refl|done]|]. bool_hyps.
  pose proof (canonical_bound a ltac:(done)) as Hb.
  assert (aligned a) as Ha by (apply aligned_iff; rewrite <- page_offset_mod; lia).
  destruct (find_page a (space s)) as [i|] eqn:Ef; [by case_bool_decide; naive_solver|].
  assert (view s a = None) as Hva by (unfold view; by rewrite Ef).
  rewrite find_page_None, Ha in Ef by done.
  assert (0 < total rest (space s) f) as Hpos by (unfold total, uses; pose proof (count_nonneg f (pages (space s))); lia).
  destruct (wo_held _ _ _ (in_world _ _ _ _ _ Hi) _ Hpos) as [fr Hfr].
  wp_step. apply wp_on_world. eapply wp_vm_frame_retain; [by eapply in_world|done|by apply total_bound|].
  intros Hw1. wp_step. set (n := total rest (space s) f + 1) in *.
  pose proof (count_tinv _ _ _ _ _ _ _ _ _ (in_tables _ _ _ _ _ Hi) Hw1) as Hti1.
  pose proof (retain_keeps id s G f n) as Hk1. destruct (kp_frame _ _ _ _ _ Hk1 _ _ Hfr) as (n1 & Hfr1 & _ & _).
  assert (forall j q, pages (space s) !! j = Some q -> frame q = f -> shared q = true) as Hsh.
  { intros j q Hq E. pose proof (so_role _ _ _ (in_space _ _ _ _ _ Hi) _ _ Hq). congruence. }
  eapply wp_install_page; [exact Hti1|done|done|done| |].
  - intros s2 G2 T2 Hti2 Hlk2 Hx Ep. cbn [negb]. wp_step. cbn [space] in Ep.
    pose proof (extends_keeps _ _ _ _ _ _ _ _ _ (ti_world _ _ _ _ _ _ Hti1) Hti2 Hx) as Hk2.
    assert (bump f (total rest (space s)) f = n) as En by (unfold bump; by rewrite decide_True).
    eapply (wp_release id None _ s2 G2 T2 f); [done|rewrite (ex_frames _ _ _ _ Hx); exact Hfr1|lia|].
    intros w3 G3 Hti3 Hfr3 Hbl3 Hws. wp_step.
    assert (keeps id s G (mkVm w3 (space s2)) G3) as Hk.
    { eapply keeps_trans; [exact Hk1|]. eapply keeps_trans; [exact Hk2|]. split.
      - intros g gr Hg. apply Hfr3; [done|]. right. lia.
      - intros p id' k _ Hp Hk. destruct (Hbl3 _ _ _ Hp Hk). split_and!; [done..|]. intros y _. unfold word_at. cbn. by rewrite Hws. }
    eapply (HF _ G3 T2).
    + eapply inv_keeps; [done|done|done|done|done|done|]. intros g. unfold unbump, bump. lia.
    + eapply keeps_stable; [done|]. intros g gr _ _ _. unfold uses. cbn. by rewrite Ep.
    + intros b. eapply view_keeps; [done|done|done| |done]. intros j q _. cbn. by rewrite Ep.
  - intros i s2 G2 T2 Hti2 Hlk2 Hx Hnew Ep. cbn [negb]. wp_step. cbn [space] in Ep, Hnew.
    pose proof (extends_keeps _ _ _ _ _ _ _ _ _ (ti_world _ _ _ _ _ _ Hti1) Hti2 Hx) as Hk2.
    pose proof (keeps_trans _ _ _ _ _ _ _ Hk1 Hk2) as Hk.
    eapply (HT s2 G2 T2); [done|done|done| | |].
    + eapply inv_insert; [done|done|done|done|done|done|done|done| | |done|done].
      { intros j q Hq E Hnsh. rewrite (Hsh _ _ Hq E) in Hnsh. done. }
      cbn. destruct (kp_frame _ _ _ _ _ Hk _ _ Hfr) as (_ & _ & -> & _). done.
    + eapply keeps_stable; [done|]. intros g gr _ Hg Hr. unfold uses. rewrite Ep, count_insert by done. cbn [frame].
      rewrite decide_False; [lia|]. congruence.
    + intros b. case_decide as E.
      * rewrite (view_record s2 b i (mkPage a f prot false true)); [done|done|rewrite Ep; apply lookup_insert_eq|done].
      * eapply view_keeps; [done|done|done| |done]. eapply same_at_insert; done.
Qed.

(** ** Unmapping a page *)

Lemma tables_ok_unskip id a w G sp T : tables_ok id (Some a) w G sp T ->
  (forall t, T !! path_of a = Some t -> leaf_spec w sp a (word_at w (t + 8 * leaf_of a))) -> tables_ok id None w G sp T.
Proof.
  intros [B S [We Wl]] Ha. split; [done..|split; [done|]]. intros b t _ Hb Hbb Ht.
  destruct (decide (a = b)) as [->|Hne]; [by apply Ha|]. apply Wl; congruence.
Qed.

(** The leaf entry of a page, whatever it becomes. *)
Lemma set_leaf_skip id w G sp T a t v : owned (vw_heap w) G -> tables_ok id None w G sp T ->
  T !! path_of a = Some t -> 0 <= a < 2 ^ 48 -> aligned a ->
  tables_ok id (Some a) (with_words (<[t + 8 * leaf_of a := v]> (vw_words w)) w) G sp T.
Proof.
  intros Ho Hok Hl Ha Haa. pose proof Hok as [B S [We Wl]]. pose proof (tree_aligned _ _ _ _ _ _ _ _ _ Ho Hok Hl) as Hal.
  split; [done..|split].
  - intros l1 u j Hu Hlen1 Hj. rewrite word_at_set, decide_False; [by apply We|].
    intros E. apply entry_inj in E as [-> _]; [|by eapply tree_aligned|done..|by apply index_at_is_index].
    assert (l1 = path_of a) as -> by (by eapply sh_inj). cbn in Hlen1. lia.
  - intros b u Hx Hb0 Hba Hu. rewrite word_at_set, decide_False; [by apply Wl|].
    intros E. apply entry_inj in E as [-> Ei]; [|by eapply tree_aligned|done|by apply index_at_is_index..].
    assert (path_of b = path_of a) by (by eapply sh_inj). apply Hx. f_equal. by apply indices_inj.
Qed.

(** The record [i] goes; [s1] is the state after its entry was cleared, its slot given up
    and its frame released. *)
Lemma unmap_ok id rest s G T i p w' G' m v t (sp1 := with_hint v (with_lookup m (space s)))
    (s' := mkVm w' (with_pages (delete i (pages sp1)) sp1)) :
  rest_ok rest -> inv id rest s G T -> pages (space s) !! i = Some p ->
  tinv id (Some (virtual_address p)) (unbump (frame p) (total rest (space s))) (mkVm w' sp1) G' T ->
  table_ok (delete i (pages (space s))) sp1 ->
  T !! path_of (virtual_address p) = Some t -> word_at w' (t + 8 * leaf_of (virtual_address p)) = 0 ->
  (forall g gr, vw_frames (world s) !! g = Some gr -> g <> frame p \/ 1 < total rest (space s) (frame p) ->
     exists n, vw_frames w' !! g = Some (mkFrame (data gr) (allocation gr) n) /\
       role G' !! g = role G !! g /\ data_at w' (data gr) = data_at (world s) (data gr)) ->
  (forall q id' k, id' <> id -> role G !! q = Some (TableBlock id') -> live_blocks G !! q = Some k ->
     role G' !! q = Some (TableBlock id') /\ live_blocks G' !! q = Some k /\
     (forall y, q <= y < q + k -> word_at w' y = word_at (world s) y)) ->
  inv id rest s' G' T /\ stable id rest s G s' G' /\
  (forall b, view s' b = if decide (align_down b = virtual_address p) then None else view s b).
Proof.
  intros Hrest Hi Hp [Hw' Hok'] Htab Ht Hz Hfr Hbl. pose proof Hi as [Hti [Hlk R P C]]. cbn [world space] in *.
  assert (lookup_ok (space s')) as Hlk' by (apply (lookup_ok_delete (space s)); [apply Hlk|done|done]).
  assert (forall g, total rest (space s') g = unbump (frame p) (total rest (space s)) g) as Htot.
  { intros g. unfold total, uses, unbump. cbn. rewrite (count_delete _ _ _ _ Hp). lia. }
  assert (forall j q, pages (space s) !! j = Some q -> j <> i -> frame q <> frame p \/ 1 < total rest (space s) (frame p)) as Hoth.
  { intros j q Hq Hne. destruct (decide (frame q = frame p)) as [E|]; [right|by left].
    pose proof (count_two _ _ _ _ _ Hp Hq ltac:(done) (eq_sym E)). unfold total, uses. specialize (Hrest (frame p)). lia. }
  assert (forall b, b <> virtual_address p -> same_at b (space s) (space s')) as Hsame.
  { intros b Hb. by apply (same_at_delete b (space s) (space s') i p). }
  split_and!.
  - split.
    + split; cbn [world space]; [eapply world_ok_ext; [|done]; intros g; by rewrite Htot|].
      apply (tables_ok_unskip id (virtual_address p)).
      * eapply (tables_ok_records id (Some (virtual_address p)) w'); [done|naive_solver|done|..].
        -- apply (blocks_ok_same id G' sp1); try done. apply Hok'.
        -- apply (shape_ok_same sp1); try done; [apply Hok'|]. intros j q. cbn. rewrite lookup_delete_Some. intros [_ Hq].
           eapply (sh_mapped _ _ (ta_shape _ _ _ _ _ _ Hok')); done.
        -- intros b Hb j q Hq. by apply (Hsame b Hb).
        -- done.
      * intros t' Ht'. assert (t' = t) as -> by congruence. change (world s') with w'. rewrite Hz. split; [|done].
        intros j q. cbn. rewrite lookup_delete_Some. intros [Hne Hq] E. exfalso. apply Hne.
        eapply (ro_unique _ (lo_records _ Hlk)); [done|done|done].
    + split; [done|..].
      * intros j q. cbn. rewrite lookup_delete_Some. intros [Hne Hq].
        destruct (in_frame _ _ _ _ _ _ _ Hrest Hi Hq) as [qr Hqr].
        destruct (Hfr _ _ Hqr) as (_ & _ & -> & _); [by eapply Hoth|]. by eapply R.
      * intros j q. rewrite Htot. cbn. rewrite lookup_delete_Some. unfold unbump. intros [Hne Hq] ? ? ?.
        assert (total rest (space s) (frame q) = 1) as Hq1 by (by eapply P).
        destruct (Hoth _ _ Hq ltac:(done)) as [?|Hgt]; [rewrite decide_False by done; lia|].
        case_decide as E; [rewrite E in Hq1; lia|lia].
      * intros j q. cbn. rewrite lookup_delete_Some. intros [_ Hq]. eauto.
  - split; [|  |done].
    + intros g gr Hg Hgr. destruct (Hfr _ _ Hgr) as (n & ? & ? & ?); [|eauto].
      destruct (decide (g = frame p)) as [->|]; [right|by left]. unfold total, uses. pose proof (count_pos _ _ _ Hp). lia.
    + intros g gr _ _ _. unfold uses. cbn. rewrite (count_delete _ _ _ _ Hp). case_decide; lia.
  - intros b. case_decide as E.
    + apply view_unmapped; [done|]. intros j q. cbn. rewrite lookup_delete_Some. intros [Hne Hq] Eq. apply Hne.
      eapply (ro_unique _ (lo_records _ Hlk)); [done|done|congruence].
    + apply view_same; [done|done|by apply Hsame|]. intros j q Hq Hqa.
      destruct (in_frame _ _ _ _ _ _ _ Hrest Hi Hq) as [qr Hqr].
      destruct (Hfr _ _ Hqr) as (n & Hn & _ & Hd); [|by eapply view_of_frame]. apply (Hoth j q Hq).
      intros ->. apply E. congruence.
Qed.

Lemma wp_vm_unmap_page id rest s G T a (Q : bool -> VmState -> Prop) :
  rest_ok rest -> inv id rest s G T ->
  (view s a = None -> Q false s) ->
  (forall s' G', is_Some (view s a) -> inv id rest s' G' T -> stable id rest s G s' G' ->
     (forall b, view s' b = if decide (align_down b = align_down a) then None else view s b) -> Q true s') ->
  wp (vm_unmap_page a) Q s.
Proof.
  intros Hrest Hi HF HT. pose proof Hi as [[Hw Hok] [Hlk R P C]]. unfold vm_unmap_page. cbv zeta. do 2 wp_step.
  rewrite find_page_align. destruct (find_page a (space s)) as [i|] eqn:Ef.
  2: { wp_step. apply HF. unfold view. by rewrite Ef. }
  assert (is_Some (view s a)) as Hsome by (apply view_found; eauto).
  apply find_page_spec in Ef as (p & Hp & Hva); [|done]. rewrite <- Hva in *.
  destruct (sh_mapped _ _ (ta_shape _ _ _ _ _ _ Hok) _ _ Hp) as [Hc [t Ht]].
  pose proof (canonical_bound _ Hc) as Hb. pose proof (ro_aligned _ (lo_records _ Hlk) _ _ Hp) as Ha.
  pose proof (wo_owned _ _ _ Hw) as Ho.
  wp_step. eapply wp_walk; [apply Hi|done|done|].
  assert (0 < t) as Ht0 by (by apply (tree_small _ _ _ _ _ _ _ _ _ Ho Hok Ht)).
  pose proof (index_at_is_index 12 (virtual_address p) ltac:(lia)) as Hidx. unfold is_index in Hidx.
  rewrite (proj2 (Z.eqb_neq (t + 8 * leaf_of (virtual_address p)) 0)) by (unfold leaf_of; lia). cbn [negb].
  wp_step. apply wp_on_world, wp_set_word. set (w1 := with_words _ (world s)).
  assert (keeps_words (space s) (world s) w1) as Hkw.
  { eapply keeps_words_set; [apply Hok|done|by apply index_at_is_index]. }
  wp_step. apply wp_edit_space. cbn [world space].
  destruct (remove_page_lookup_spec _ _ _ Hlk Hp) as (Ep & Htab & m & v & Erm). rewrite Erm in *.
  set (sp1 := with_hint v (with_lookup m (space s))) in *.
  assert (tables_ok id (Some (virtual_address p)) w1 G (space s) T) as Hok0.
  { apply set_leaf_skip; [done|done|done|lia|done]. }
  assert (tinv id (Some (virtual_address p)) (total rest (space s)) (mkVm w1 sp1) G T) as Hti1.
  { split; cbn [world space].
    - by eapply (world_ok_grow id (world s) _ G G (space s)); [..|apply Hok| |].
    - by apply (tables_ok_space id _ _ _ (space s)). }
  destruct (in_frame _ _ _ _ _ _ _ Hrest Hi Hp) as [fr Hfr].
  wp_step. rewrite (page_at_eq _ _ _ Hp).
  eapply (wp_release id _ _ (mkVm w1 sp1) G T (frame p) fr); [done|done| |].
  { cbn [space pages]. intros H1 j q Hq Hx E. unfold total, uses in H1. destruct (decide (i = j)) as [<-|Hij].
    - apply Hx. do 2 f_equal. change (pages sp1) with (pages (space s)) in Hq. congruence.
    - pose proof (count_two _ _ _ _ _ Hp Hq Hij (eq_sym E)). specialize (Hrest (frame p)). lia. }
  intros w2 G2 Hti2 Hfr2 Hbl2 Hws2. wp_step. apply wp_edit_space. wp_step. cbn [world space] in *.
  pose proof (unmap_ok id rest s G T i p w2 G2 m v t Hrest Hi Hp Hti2 Htab Ht) as Hdone.
  destruct Hdone as (? & ? & ?).
  - unfold word_at. rewrite Hws2. fold (word_at w1 (t + 8 * leaf_of (virtual_address p))). unfold w1. by rewrite word_at_set, decide_True.
  - exact Hfr2.
  - intros q id' k Hid Hq Hk. destruct (Hbl2 _ _ _ Hq Hk) as [Hq2 Hk2]. split_and!; [done..|]. intros y Hy.
    unfold word_at. rewrite Hws2. fold (word_at w1 y).
    apply (words_stable id (Some (virtual_address p)) (total rest (space s)) s (mkVm w1 sp1) G T q id' k); done.
  - by eapply HT.
Qed.

End map.
