(* ===== verification/VmLife.v ===== *)
(** * Creating and destroying address spaces *)

From S2P Require Import Prelude Heap HeapFacts Interfaces Ownership Vm VmLookup VmFrames VmTables VmSpaces VmOps VmCopy VmMap.

Section life.
Context {H : Type} `{!Allocator H, !Ownership H}.

Implicit Types (w : @VmWorld H) (s : @VmState H) (G : Ghost) (rc rest : Z -> Z) (h : H) (sp : VmSpace) (T : Tree).

#[local] Opaque find_page.

Lemma lookup_ok_empty sp : pages sp = ∅ -> page_lookup sp = ∅ -> lookup_ok sp.
Proof. intros E1 E2. by apply (lookup_ok_same zero_space); [rewrite E1|rewrite E2|apply lookup_ok_zero]. Qed.

Lemma uses_empty sp f : pages sp = ∅ -> uses f sp = 0.
Proof. intros E. unfold uses. by rewrite E, count_empty. Qed.

(** A space without pages whose root was just set up. *)
Lemma inv_root id rest w w' G sp : rest_ok rest -> world_ok w G rest -> blocks_ok id G sp ->
  pages sp = ∅ -> page_lookup sp = ∅ -> vw_heap w' = vw_heap w -> vw_frames w' = vw_frames w -> vw_pages w' = vw_pages w ->
  root_words w sp w' -> inv id rest (mkVm w' sp) G (root_tree sp).
Proof.
  intros Hrest Hw Hb Ep El Eh Ef Epg Hroot. pose proof (root_words_keep _ _ _ Hroot) as Hk.
  assert (world_ok w' G rest) as Hw'.
  { eapply (world_ok_grow id w w' G G sp); try done. rewrite Eh. apply Hw. }
  assert (forall f, rest f = total rest sp f) as Htot by (intros f; unfold total; by rewrite uses_empty).
  split.
  - split; cbn [world space]; [by eapply world_ok_ext|].
    eapply root_tables_ok; [done|apply Hw|done|done].
  - cbn [space]. split; [by apply lookup_ok_empty|..]; intros i p; by rewrite Ep, lookup_empty.
Qed.

Lemma wp_vm_space_create id rest w G sp (Q : bool -> VmState -> Prop) :
  rest_ok rest -> world_ok w G rest ->
  (forall h, world_ok (with_vm_heap h w) G rest -> Q false (mkVm (with_vm_heap h w) zero_space)) ->
  (forall s' G' T', inv id rest s' G' T' -> keeps id (mkVm w zero_space) G s' G' -> pages (space s') = ∅ -> Q true s') ->
  wp vm_space_create Q (mkVm w sp).
Proof.
  intros Hrest Hw HF HT. unfold vm_space_create. wp_step. apply wp_edit_space. wp_step. apply wp_on_world. cbn [world space].
  pose proof (wo_owned _ _ _ Hw) as Ho.
  apply (wp_aligned_heap_alloc _ _ G); [unfold VM_PAGE_SIZE; lia|done| |].
  { intros h Hh. wp_step. apply HF. by apply world_ok_heap. }
  intros t raw k h Hraw Hfresh Hal Hlo Hhi Hh. wp_step. apply wp_edit_space. wp_step. cbn [world space].
  set (G1 := add_block raw k (TableBlock id) G). set (sp1 := with_root _ _ _ _ zero_space).
  assert (inside G1 raw t (6 * VM_PAGE_SIZE)) as Hin by (exists k; cbn; by rewrite lookup_insert_eq).
  pose proof (owned_range _ _ _ _ _ (Hh (TableBlock id)) Hin ltac:(done)) as [Hr _].
  assert (blocks_ok id G1 sp1) as Hb.
  { split; cbn; try done.
    - by rewrite lookup_insert_eq.
    - intros u r. by rewrite elem_of_nil.
    - apply NoDup_singleton. }
  assert (world_ok (with_vm_heap h w) G1 rest) as Hw1.
  { eapply (world_ok_grow id w _ G G1 sp1); try done.
    - apply Hh.
    - intros p r Hp. cbn. rewrite lookup_insert_ne; [done|]. intros <-. apply Ho in Hp as [? ?]. congruence.
    - intros p j Hp. cbn. rewrite lookup_insert_ne by congruence. done. }
  apply (wp_initialize_root (mkVm (with_vm_heap h w) sp1)); [done|done|done|]. intros ws Hroot. wp_step. cbn [world space] in *.
  eapply (HT _ G1 (root_tree sp1)); [by eapply (inv_root id rest (with_vm_heap h w))| |done].
  split; cbn [world space].
  - intros g gr Hg. exists (references gr). split; [cbn; rewrite Hg; by destruct gr|]. split; [|done].
    destruct (wo_frame _ _ _ Hw _ _ Hg) as [_ [b Hbb] _ _ _ _ _ _]. cbn. rewrite lookup_insert_ne; [done|].
    intros <-. apply Ho in Hbb as [? ?]. congruence.
  - intros p id' j Hid Hp Hj. cbn. assert (raw <> p) by congruence. rewrite !lookup_insert_ne by done.
    split_and!; [done..|]. intros y Hy. etrans; [|reflexivity]. apply (rw_other _ _ _ Hroot). intros i Hi ->. cbn in Hy.
    assert (inside G1 p (t + 8 * i) 1) as Hin'.
    { exists j. cbn. rewrite lookup_insert_ne by done. split_and!; [done|lia|lia]. }
    destruct (inside_disjoint _ _ _ _ _ _ _ _ (Hh (TableBlock id)) ltac:(done) Hin Hin'); unfold VM_PAGE_SIZE in *; lia.
Qed.

(** ** Releasing the pages *)

Record rinv (id : nat) rest s G : Prop := {
  ri_world : world_ok (world s) G (total rest (space s));
  ri_blocks : blocks_ok id G (space s) }.

Lemma wp_release_pages id rest n k s G (Q : unit -> VmState -> Prop) :
  rest_ok rest -> rinv id rest s G ->
  (forall w' G' m, let s' := mkVm w' (with_pages m (space s)) in
     rinv id rest s' G' -> stable id rest s G s' G' ->
     (forall i p, m !! i = Some p -> pages (space s) !! i = Some p /\ ~ (k <= i < k + Z.of_nat n)) -> Q tt s') ->
  wp (release_pages n k) Q s.
Proof.
  revert k s G Q. induction n as [|n IH]; intros k s G Q Hrest Hri HQ; cbn [release_pages].
  { apply wp_ret. specialize (HQ (world s) G (pages (space s))). cbv zeta in HQ.
    replace (mkVm (world s) (with_pages (pages (space s)) (space s))) with s in HQ by (by destruct s as [? []]).
    apply HQ; [done|apply stable_refl|]. intros i p Hp. split; [done|lia]. }
  do 2 wp_step. destruct (pages (space s) !! k) as [p|] eqn:Hp.
  2: { apply (IH _ s G); [done|done|]. intros w' G' m s' Hri' Hst Hm. apply (HQ w' G' m); [done|done|].
       intros i q Hq. destruct (Hm i q Hq) as [Hq' Hi]. split; [done|]. intros ?. apply Hi.
       assert (i <> k) by congruence. lia. }
  pose proof Hri as [Hw Hb]. pose proof (count_pos _ _ _ Hp) as Hc.
  assert (0 < total rest (space s) (frame p)) as Hpos by (unfold total, uses; specialize (Hrest (frame p)); lia).
  destruct (wo_held _ _ _ Hw _ Hpos) as [fr Hfr].
  pose proof (wo_frame _ _ _ Hw _ _ Hfr) as [_ [fb Hfb] Hpg _ _ _ _ _].
  set (sp1 := with_pages (delete k (pages (space s))) (space s)).
  assert (forall g, unbump (frame p) (total rest (space s)) g = total rest sp1 g) as Htot.
  { intros g. unfold total, uses, unbump. cbn. rewrite (count_delete _ _ _ _ Hp). lia. }
  assert (forall w' G', world_ok w' G' (unbump (frame p) (total rest (space s))) -> blocks_ok id G' (space s) ->
    stable id rest s G (mkVm w' sp1) G' ->
    wp (clear_page k;;; release_pages n (k + 1)) Q (mkVm w' (space s))) as Hrest'.
  { intros w' G' Hw' Hb' Hst. wp_step. apply wp_edit_space. cbn [world space]. fold sp1.
    apply (IH _ (mkVm w' sp1) G'); [done|split; [by eapply world_ok_ext|by apply (blocks_ok_same id G' (space s))]|].
    intros w2 G2 m s2 Hri2 Hst2 Hm. apply (HQ w2 G2 m); [done|by eapply stable_trans|].
    intros i q Hq. destruct (Hm i q Hq) as [Hq' Hi]. cbn in Hq'. apply lookup_delete_Some in Hq' as [Hne Hq'].
    split; [done|]. lia. }
  assert (forall g, uses g sp1 <= uses g (space s)) as Huses.
  { intros g. unfold uses. cbn. rewrite (count_delete _ _ _ _ Hp). case_decide; lia. }
  wp_step. apply wp_on_world. eapply wp_vm_frame_release; [done|done|..].
  - intros _ Hw'. apply (Hrest' _ G); [done|done|].
    destruct (retain_keeps id s G (frame p) (total rest (space s) (frame p) - 1)) as [F B].
    split; [|by intros g gr _ _ _; apply Huses|done]. intros g gr _ Hg. destruct (F _ _ Hg) as (m & ? & ? & ?). eauto.
  - intros h H1 Hw'. set (G' := drop_block _ _) in *.
    assert (forall g, g <> frame p -> g <> allocation fr -> role G' !! g = role G !! g /\ live_blocks G' !! g = live_blocks G !! g) as Hsame.
    { intros g H2 H3. unfold G'. cbn. by rewrite !lookup_delete_ne. }
    apply (Hrest' _ G'); [done| |].
    + apply blocks_ok_drop; [apply blocks_ok_drop; [done|congruence]|]. cbn. rewrite lookup_delete_ne by congruence. congruence.
    + split; [|by intros g gr _ _ _; apply Huses|].
      * intros g gr Hg Hgr. assert (g <> frame p) as Hne by (intros ->; unfold total, uses in H1; lia).
        pose proof (wo_frame _ _ _ Hw _ _ Hgr) as [_ [gb Hgb] _ _ _ _ _ _].
        exists (references gr). cbn. rewrite lookup_delete_ne by done. split_and!; [rewrite Hgr; by destruct gr| |].
        -- apply Hsame; [done|congruence].
        -- intros _. unfold data_at. cbn. rewrite (frame_at_eq _ _ _ Hfr), lookup_delete_ne; [done|].
           intros E. by apply Hne, (data_inj _ _ _ _ _ _ _ Hw Hgr Hfr).
      * intros q id' j _ Hq Hj. destruct (Hsame q) as [-> ->]; [congruence|congruence|done].
Qed.

(** ** Giving back the tables *)

Lemma world_ok_drop w G rc p id : world_ok w G rc -> role G !! p = Some (TableBlock id) ->
  world_ok (with_vm_heap (al_free p (vw_heap w)) w) (drop_block p G) rc.
Proof.
  intros [Ho Hf Hh Hc Hb] Hp. split; [|intros f fr Hfr|done..].
  - apply owned_free; [done|]. by eapply Ho.
  - destruct (Hf _ _ Hfr) as [? [b Hbb] Hpg Hin ? ? ? ?]. split; try done; cbn.
    + exists b. rewrite lookup_delete_ne by congruence. done.
    + rewrite lookup_delete_ne by congruence. done.
    + apply inside_drop; [congruence|done].
Qed.

Lemma wp_free_tables id rc l w G (Q : unit -> VmWorld -> Prop) :
  world_ok w G rc -> (forall t raw, (t, raw) ∈ l -> role G !! raw = Some (TableBlock id)) -> NoDup l.*2 ->
  (forall h G', world_ok (with_vm_heap h w) G' rc ->
     (forall p, p ∉ l.*2 -> role G' !! p = role G !! p /\ live_blocks G' !! p = live_blocks G !! p) ->
     Q tt (with_vm_heap h w)) ->
  wp (free_tables l) Q w.
Proof.
  revert w G. induction l as [|[t raw] l IH]; intros w G Hw Hrole Hnd HQ; cbn [free_tables].
  { apply wp_ret. specialize (HQ (vw_heap w) G). replace (with_vm_heap (vw_heap w) w) with w in HQ by (by destruct w). by apply HQ. }
  wp_step. apply wp_vm_free. cbn in Hnd. apply NoDup_cons in Hnd as [Hni Hnd].
  eapply (IH _ (drop_block raw G)).
  - eapply world_ok_drop; [done|]. eapply Hrole. by left.
  - intros u r Hu. cbn. rewrite lookup_delete_ne; [eapply Hrole; by right|].
    intros <-. apply Hni, list_elem_of_fmap. by exists (u, raw).
  - done.
  - intros h G' Hw' Hsame. apply (HQ h G'); [done|]. intros p Hp. cbn in Hp. apply not_elem_of_cons in Hp as [Hne Hp].
    destruct (Hsame p Hp) as [-> ->]. cbn. by rewrite !lookup_delete_ne.
Qed.

(** ** Resetting and destroying *)

(** The space is left empty, with its root. *)
Lemma wp_vm_space_reset_user id rest s G T (Q : unit -> VmState -> Prop) :
  rest_ok rest -> inv id rest s G T ->
  (forall s' G' T', inv id rest s' G' T' -> stable id rest s G s' G' -> pages (space s') = ∅ -> Q tt s') ->
  wp vm_space_reset_user Q s.
Proof.
  intros Hrest Hi HQ. unfold vm_space_reset_user. do 2 wp_step. rewrite (pml4_nonzero _ _ _ _ _ _ (in_tables _ _ _ _ _ Hi)).
  pose proof Hi as [[Hw Hok] [Hlk R P C]].
  assert (rinv id rest s G) as Hri by (split; [done|apply Hok]).
  wp_step. eapply wp_release_pages; [done|exact Hri|]. intros w1 G1 m s1 [Hw1 Hb1] Hst1 Hm.
  assert (m = ∅) as ->.
  { apply map_eq. intros i. rewrite lookup_empty. destruct (m !! i) as [p|] eqn:E; [|done].
    destruct (Hm _ _ E) as [Hp Hni]. exfalso. apply Hni. pose proof (ro_index _ (lo_records _ Hlk) _ _ Hp). split; [lia|].
    rewrite Z2Nat.id; [lia|done]. }
  do 2 (wp_step; apply wp_edit_space). wp_step. apply wp_on_world. cbn [world space with_hint with_lookup s1].
  change (tables (space s)) with (tables (space s1)).
  assert (world_ok w1 G1 rest) as Hw1'.
  { eapply world_ok_ext; [|exact Hw1]. intros f. unfold total. rewrite uses_empty; [lia|done]. }
  destruct Hb1 as [B1 B2 B3 B4 B5 B6 B7]. apply NoDup_cons in B7 as [Hni Hnd].
  eapply (wp_free_tables id rest _ w1 G1); [done|intros t raw Ht; by eapply B6|done|].
  intros h G2 Hw2 Hsame. wp_step. apply wp_edit_space. cbn [world space].
  set (sp3 := with_tables [] _). destruct (Hsame _ Hni) as [Er El].
  assert (blocks_ok id G2 sp3) as Hb3.
  { split; cbn; try done.
    - etrans; [exact Er|exact B1].
    - destruct B2 as (k & Hk & ?). exists k. split; [etrans; [exact El|exact Hk]|done].
    - intros t raw. by rewrite elem_of_nil.
    - apply NoDup_singleton. }
  pose proof (owned_range _ _ _ _ _ (wo_owned _ _ _ Hw2) (bl_root_inside _ _ _ Hb3) ltac:(done)) as [Hlo _].
  apply (wp_initialize_root (mkVm (with_vm_heap h w1) sp3)); [done|done|done|].
  intros ws Hroot. cbn [world space] in *.
  assert (inv id rest (mkVm (with_words ws (with_vm_heap h w1)) sp3) G2 (root_tree sp3)) as Hi3
    by (by eapply (inv_root id rest (with_vm_heap h w1))).
  eapply (HQ _ G2 (root_tree sp3)); [done| |done].
  eapply stable_trans; [exact Hst1|]. split; cbn [world space].
  - intros f fr Hf Hfr. exists (references fr). split; [cbn; by destruct fr|]. split; [|done].
    pose proof (wo_frame _ _ _ Hw1 _ _ Hfr) as [_ [b Hbb] _ _ _ _ _ _].
    apply Hsame. intros Hin. apply list_elem_of_fmap in Hin as ([t raw] & -> & Hin). destruct (B6 _ _ Hin) as [? _]. cbn in *. congruence.
  - intros f fr _ _ _. rewrite uses_empty by done. unfold uses. apply count_nonneg.
  - intros p id' k Hid Hp Hk. destruct (Hsame p) as [Er' El'].
    { intros Hin. apply list_elem_of_fmap in Hin as ([t raw] & -> & Hin). destruct (B6 _ _ Hin) as [? _]. cbn in *. congruence. }
    rewrite Er', El'. split_and!; [done..|]. intros y Hy.
    apply (words_stable id None (total rest sp3) (mkVm (with_vm_heap h w1) sp3) (mkVm (with_words ws (with_vm_heap h w1)) sp3) G2 (root_tree sp3) p id' k);
      [apply Hi3|by apply root_words_keep|done|by rewrite Er'|by rewrite El'|done].
Qed.

(** The space is gone; the others keep what they hold. *)
Lemma wp_vm_space_destroy id rest s G T (Q : unit -> VmState -> Prop) :
  rest_ok rest -> inv id rest s G T ->
  (forall w' G', world_ok w' G' rest -> stable id rest s G (mkVm w' zero_space) G' -> Q tt (mkVm w' zero_space)) ->
  wp vm_space_destroy Q s.
Proof.
  intros Hrest Hi HQ. unfold vm_space_destroy. wp_step. eapply wp_vm_space_reset_user; [done|done|].
  intros s1 G1 T1 Hi1 Hst1 Ep. do 2 wp_step. pose proof Hi1 as [[Hw1 Hok1] _]. pose proof (ta_blocks _ _ _ _ _ _ Hok1) as Hb.
  pose proof (wo_owned _ _ _ Hw1) as Ho1.
  assert (root_allocation (space s1) <> 0) as Hnz.
  { destruct (bl_root_inside _ _ _ Hb) as (k & Hk & _). apply (al_owns_range _ _ _ _ (proj1 Ho1)) in Hk. unfold HEAP_START in Hk. lia. }
  rewrite (proj2 (Z.eqb_neq _ _) Hnz). cbn [negb]. wp_step. apply wp_on_world, wp_vm_free. apply wp_edit_space. cbn [world space].
  assert (forall f, total rest (space s1) f = rest f) as Htot by (intros f; unfold total; by rewrite uses_empty).
  eapply (HQ _ (drop_block (root_allocation (space s1)) G1)).
  - eapply world_ok_ext; [exact Htot|]. eapply world_ok_drop; [done|apply Hb].
  - eapply stable_trans; [exact Hst1|]. split; cbn [world space].
    + intros f fr _ Hf. exists (references fr). cbn. split; [rewrite Hf; by destruct fr|]. split; [|done].
      destruct (wo_frame _ _ _ Hw1 _ _ Hf) as [_ [b Hbb] _ _ _ _ _ _]. rewrite lookup_delete_ne; [done|].
      pose proof (bl_root _ _ _ Hb). congruence.
    + intros f fr _ _ _. rewrite uses_empty by done. unfold uses. apply count_nonneg.
    + intros p id' k Hid Hp Hk. cbn. rewrite !lookup_delete_ne by (pose proof (bl_root _ _ _ Hb); congruence). done.
Qed.

End life.
