(* ===== verification/VmClone.v ===== *)
(** * Cloning an address space

    After [vm_space_clone_cow] the new space shows the same pages as the old one, which
    itself shows what it showed before; the frames are shared, and the private pages that
    may be written are marked copy-on-write in both. *)

From S2P Require Import Prelude Heap HeapFacts Interfaces Ownership Vm VmLookup VmFrames VmTables VmSpaces VmOps VmCopy VmMap VmLife.

Section clone.
Context {H : Type} `{!Allocator H, !Ownership H}.

Implicit Types (w : @VmWorld H) (s : @VmState H) (G : Ghost) (rc rest : Z -> Z) (h : H) (sp : VmSpace) (T : Tree).

#[local] Opaque find_page.

(** ** A space while another one is at work *)

(** What a space needs from a step of another one. *)
Record undisturbed (c : nat) w G sp w' G' : Prop := {
  un_frame i p fr : pages sp !! i = Some p -> vw_frames w !! frame p = Some fr ->
    exists n, vw_frames w' !! frame p = Some (mkFrame (data fr) (allocation fr) n) /\
      role G' !! frame p = role G !! frame p /\ (shared p = false -> data_at w' (data fr) = data_at w (data fr));
  un_block p k : role G !! p = Some (TableBlock c) -> live_blocks G !! p = Some k ->
    role G' !! p = Some (TableBlock c) /\ live_blocks G' !! p = Some k /\
    (forall y, p <= y < p + k -> word_at w' y = word_at w y) }.

Lemma undisturbed_blocks c w G sp w' G' : undisturbed c w G sp w' G' -> blocks_ok c G sp -> blocks_ok c G' sp.
Proof.
  intros [_ Hbl] [B1 B2 B3 B4 B5 B6 B7].
  assert (forall raw a n, role G !! raw = Some (TableBlock c) -> inside G raw a n -> inside G' raw a n) as Hin.
  { intros raw a n Hr (k & Hk & ?). exists k. destruct (Hbl _ _ Hr Hk) as (_ & ? & _). done. }
  assert (forall raw a n, role G !! raw = Some (TableBlock c) -> inside G raw a n -> role G' !! raw = Some (TableBlock c)) as Hro.
  { intros raw a n Hr (k & Hk & ?). by destruct (Hbl _ _ Hr Hk) as (? & _). }
  split; try done; eauto. intros t raw Ht. destruct (B6 _ _ Ht) as (? & ? & ?). eauto.
Qed.

Lemma undisturbed_tables c x w G sp w' G' T h : undisturbed c w G sp w' G' -> owned h G ->
  (forall i p, pages sp !! i = Some p -> is_Some (vw_frames w !! frame p)) ->
  tables_ok c x w G sp T -> tables_ok c x w' G' sp T.
Proof.
  intros Hu Ho Hfr [Hb Hs Hw]. split; [by eapply undisturbed_blocks|done|].
  eapply words_ok_world; [| |done|done].
  - intros i p Hp. destruct (Hfr _ _ Hp) as [fr Hf]. destruct (un_frame _ _ _ _ _ _ Hu _ _ _ Hp Hf) as (n & Hn & _).
    by eapply entry_word_frame.
  - intros t i Ht Hi. destruct (table_page_block _ _ _ _ _ Ho Hb Ht) as (_ & raw & Hr & k & Hk & Hlo & Hhi).
    destruct (un_block _ _ _ _ _ _ Hu _ _ Hr Hk) as (_ & _ & Hy). apply Hy. unfold is_index, VM_PAGE_SIZE in *. lia.
Qed.

(** The invariant of the other space, when its own frames have no new holders. *)
Lemma undisturbed_inv c rest rest' w G sp w' G' T :
  rest_ok rest -> inv c rest (mkVm w sp) G T -> undisturbed c w G sp w' G' -> world_ok w' G' (total rest' sp) ->
  (forall i p, pages sp !! i = Some p -> shared p = false -> has (protection p) VM_PROT_WRITE = true ->
     copy_on_write p = false -> total rest sp (frame p) = 1 -> total rest' sp (frame p) = 1) ->
  inv c rest' (mkVm w' sp) G' T /\ (forall b, view (mkVm w' sp) b = view (mkVm w sp) b).
Proof.
  intros Hrest Hi Hu Hw' Hone. pose proof Hi as [[Hw Hok] [Hlk R P C]]. cbn [world space] in *.
  assert (forall i p, pages sp !! i = Some p -> is_Some (vw_frames w !! frame p)) as Hfr.
  { intros i p Hp. by eapply (in_frame _ _ _ _ _ _ _ Hrest Hi). }
  split.
  - split; [split; [done|]|split; cbn [space]].
    + by eapply undisturbed_tables; [| apply (wo_owned _ _ _ Hw)| |].
    + done.
    + intros i p Hp. destruct (Hfr _ _ Hp) as [fr Hf]. destruct (un_frame _ _ _ _ _ _ Hu _ _ _ Hp Hf) as (_ & _ & -> & _).
      by eapply R.
    + intros i p Hp ? ? ?. eapply Hone; try done. by eapply P.
    + done.
  - intros b. apply view_same; [done|done|done|]. intros i p Hp _. destruct (Hfr _ _ Hp) as [fr Hf].
    destruct (un_frame _ _ _ _ _ _ Hu _ _ _ Hp Hf) as (n & Hn & _ & Hd). by eapply view_of_frame.
Qed.

Lemma keeps_undisturbed c d s G s' G' sp : c <> d -> keeps d s G s' G' -> undisturbed c (world s) G sp (world s') G'.
Proof.
  intros Hcd [F B]. split.
  - intros i p fr _ Hf. destruct (F _ _ Hf) as (n & ? & ? & ?). eauto.
  - intros p k. by apply B.
Qed.

Lemma stable_undisturbed c d rest s G s' G' sp : c <> d -> stable d rest s G s' G' ->
  (forall i p, pages sp !! i = Some p -> 0 < rest (frame p)) ->
  (forall i p, pages sp !! i = Some p -> role G !! frame p = Some (FrameBlock (shared p))) ->
  undisturbed c (world s) G sp (world s') G'.
Proof.
  intros Hcd [F _ B] Hr Hro. split.
  - intros i p fr Hp Hf. destruct (F _ _ (Hr _ _ Hp) Hf) as (n & ? & ? & Hd). exists n. split_and!; [done..|].
    intros E. apply Hd. by rewrite (Hro _ _ Hp), E.
  - intros p k. by apply B.
Qed.

(** ** Two spaces that share frames *)

Definition plus (rest : Z -> Z) (sp : VmSpace) : Z -> Z := fun f => rest f + uses f sp.

Definition clone_record (p : VmPage) : VmPage :=
  mkPage (virtual_address p) (frame p) (protection p) (negb (shared p) && has (protection p) VM_PROT_WRITE) (shared p).

(** The records of [src] below the index [k] have been cloned to [dest]. *)
Record cloned (k : Z) (src dest : VmSpace) : Prop := {
  cl_from j q : pages dest !! j = Some q -> exists i p, i < k /\ pages src !! i = Some p /\ q = clone_record p;
  cl_to i p : pages src !! i = Some p -> i < k -> exists j, pages dest !! j = Some (clone_record p) }.

Record both (c d : nat) rest w G dest Td src Ts : Prop := {
  bo_dest : inv d (plus rest src) (mkVm w dest) G Td;
  bo_src : inv c (plus rest dest) (mkVm w src) G Ts }.

Definition rest_small rest : Prop := forall f, 0 <= rest f <= 2 ^ 30.

Lemma plus_ok rest sp : rest_small rest -> lookup_ok sp -> rest_ok (plus rest sp).
Proof.
  intros Hr Hlk f. unfold plus, uses. pose proof (count_bound f _ (lo_records _ Hlk)) as Hb. unfold VM_MAX_PAGES in Hb.
  pose proof (count_nonneg f (pages sp)). specialize (Hr f). lia.
Qed.

Lemma total_plus rest dest src f : total (plus rest src) dest f = total (plus rest dest) src f.
Proof. unfold total, plus. lia. Qed.

(** All frames, and what other spaces own, stay. *)
Record keeps2 (c d : nat) w G w' G' : Prop := {
  k2_frame g gr : vw_frames w !! g = Some gr -> exists n, vw_frames w' !! g = Some (mkFrame (data gr) (allocation gr) n) /\
      role G' !! g = role G !! g /\ data_at w' (data gr) = data_at w (data gr);
  k2_block p id' k : id' <> c -> id' <> d -> role G !! p = Some (TableBlock id') -> live_blocks G !! p = Some k ->
    role G' !! p = Some (TableBlock id') /\ live_blocks G' !! p = Some k /\
    (forall y, p <= y < p + k -> word_at w' y = word_at w y) }.

Lemma keeps2_refl c d w G : keeps2 c d w G w G.
Proof. split; [|done]. intros g gr Hg. exists (references gr). split; [by destruct gr|done]. Qed.

Lemma keeps2_trans c d w G w1 G1 w2 G2 : keeps2 c d w G w1 G1 -> keeps2 c d w1 G1 w2 G2 -> keeps2 c d w G w2 G2.
Proof.
  intros [F1 B1] [F2 B2]. split.
  - intros g gr Hg. destruct (F1 _ _ Hg) as (n & Hg1 & Hr1 & Hd1).
    destruct (F2 _ _ Hg1) as (n' & Hg2 & Hr2 & Hd2). exists n'. cbn in *. split_and!; [done|congruence..].
  - intros p id' k H1 H2 Hp Hk. destruct (B1 _ _ _ H1 H2 Hp Hk) as (Hp1 & Hk1 & Hw1).
    destruct (B2 _ _ _ H1 H2 Hp1 Hk1) as (Hp2 & Hk2 & Hw2). split_and!; [done..|].
    intros y Hy. rewrite Hw2 by done. by apply Hw1.
Qed.

Lemma keeps_keeps2_l c d s G s' G' : keeps c s G s' G' -> keeps2 c d (world s) G (world s') G'.
Proof. intros [F B]. split; [done|]. intros p id' k H1 _. by apply B. Qed.

Lemma keeps_keeps2_r c d s G s' G' : keeps d s G s' G' -> keeps2 c d (world s) G (world s') G'.
Proof. intros [F B]. split; [done|]. intros p id' k _ H1. by apply B. Qed.

(** ** One page *)

(** Private pages of the new space that may be written are copied on write. *)
Definition all_cow (sp : VmSpace) : Prop :=
  forall j q, pages sp !! j = Some q -> shared q = false -> has (protection q) VM_PROT_WRITE = true -> copy_on_write q = true.

Section page.
Context (c d : nat) (rest : Z -> Z) (w : @VmWorld H) (G : Ghost) (dest : VmSpace) (Td : Tree) (src : VmSpace) (Ts : Tree).
Context (i : Z) (p : VmPage).
Context (Hcd : c <> d) (Hrest : rest_small rest) (Hboth : both c d rest w G dest Td src Ts).
Context (Hp : pages src !! i = Some p) (Hcow : all_cow dest).

Let f := frame p.

Lemma page_restd : rest_ok (plus rest src).
Proof. apply plus_ok; [done|]. exact (in_lookup _ _ _ _ _ (bo_src _ _ _ _ _ _ _ _ _ Hboth)). Qed.

Lemma page_rests : rest_ok (plus rest dest).
Proof. apply plus_ok; [done|]. exact (in_lookup _ _ _ _ _ (bo_dest _ _ _ _ _ _ _ _ _ Hboth)). Qed.

Lemma page_frame : exists fr, vw_frames w !! f = Some fr.
Proof. exact (in_frame _ _ _ _ _ _ _ page_rests (bo_src _ _ _ _ _ _ _ _ _ Hboth) Hp). Qed.

Lemma page_retain : let w1 := (vm_frame_retain f w).2 in
  tinv d None (bump f (total (plus rest src) dest)) (mkVm w1 dest) G Td /\ keeps d (mkVm w dest) G (mkVm w1 dest) G.
Proof.
  destruct page_frame as [fr Hfr]. pose proof (bo_dest _ _ _ _ _ _ _ _ _ Hboth) as Hd.
  pose proof (in_world _ _ _ _ _ Hd) as Hw. cbn [world space] in Hw.
  apply (wp_vm_frame_retain w G _ f fr (fun _ w1 => tinv d None (bump f (total (plus rest src) dest)) (mkVm w1 dest) G Td /\
    keeps d (mkVm w dest) G (mkVm w1 dest) G) Hw Hfr).
  - apply total_bound; [apply page_restd|]. exact (in_lookup _ _ _ _ _ Hd).
  - intros Hw1. split.
    + apply (count_tinv d None (total (plus rest src) dest) _ (mkVm w dest)); [apply Hd|done].
    + apply (retain_keeps d (mkVm w dest)).
Qed.

(** The source is not disturbed by what the destination does. *)
Lemma page_src_tables s' G' : keeps d (mkVm w dest) G s' G' -> tables_ok c None (world s') G' src Ts.
Proof.
  intros Hk. pose proof (bo_src _ _ _ _ _ _ _ _ _ Hboth) as Hs.
  eapply (undisturbed_tables c None w G src _ _ _ (vw_heap w)).
  - exact (keeps_undisturbed c d (mkVm w dest) G s' G' src Hcd Hk).
  - exact (wo_owned _ _ _ (in_world _ _ _ _ _ Hs)).
  - intros j q Hq. exact (in_frame _ _ _ _ _ _ _ page_rests Hs Hq).
  - apply Hs.
Qed.

Lemma page_install : (forall j q, pages dest !! j = Some q -> virtual_address q <> virtual_address p) ->
  wp (install_page (virtual_address p) f (protection p) (copy_on_write (clone_record p)) (shared p))
    (fun ok s' => exists G' Td', tinv d None (bump f (total (plus rest src) dest)) s' G' Td' /\
       keeps d (mkVm w dest) G s' G' /\ lookup_ok (space s') /\
       if ok then inv d (plus rest src) s' G' Td' /\
         exists j, pages dest !! j = None /\ pages (space s') = <[j := clone_record p]> (pages dest)
       else pages (space s') = pages dest)
    (mkVm (vm_frame_retain f w).2 dest).
Proof.
  intros Hnew. destruct page_retain as [Hti Hk]. cbv zeta in *.
  pose proof (bo_dest _ _ _ _ _ _ _ _ _ Hboth) as Hd. pose proof (bo_src _ _ _ _ _ _ _ _ _ Hboth) as Hs.
  pose proof (in_lookup _ _ _ _ _ Hd) as Hlk. pose proof (in_lookup _ _ _ _ _ Hs) as Hlks. cbn [space] in Hlk, Hlks.
  eapply wp_install_page; [exact Hti|done|by eapply (ro_aligned _ (lo_records _ Hlks))|done| |].
  - intros s' G' T' Hti' Hlk' Hx Ep. exists G', T'. split_and!; [done| |done|done].
    eapply keeps_trans; [exact Hk|]. by eapply extends_keeps; [apply (ti_world _ _ _ _ _ _ Hti)| |].
  - intros j s' G' T' Hti' Hlk' Hx Hj Ep. cbn [space] in *.
    assert (keeps d (mkVm w dest) G s' G') as Hk'.
    { eapply keeps_trans; [exact Hk|]. by eapply extends_keeps; [apply (ti_world _ _ _ _ _ _ Hti)| |]. }
    exists G', T'. split_and!; [done|done|done| |by exists j].
    eapply (inv_insert d (plus rest src) (mkVm w dest) G Td s' G' T' j (clone_record p));
      [apply page_restd|done|done|done|done|done|done|done| | | |].
    + intros j' q Hq _. by apply (Hcow j').
    + destruct page_frame as [fr Hfr]. destruct (kp_frame _ _ _ _ _ Hk' _ _ Hfr) as (_ & _ & Er & _). cbn.
      etrans; [exact Er|]. exact (so_role _ _ _ (in_space _ _ _ _ _ Hs) _ _ Hp).
    + cbn. intros -> ->. done.
    + cbn. intros [? _]%andb_true_iff. by apply negb_true_iff.
Qed.

(** The installation failed and the frame is given back. *)
Lemma page_undo s' G' Td' :
  tinv d None (bump f (total (plus rest src) dest)) s' G' Td' -> keeps d (mkVm w dest) G s' G' -> lookup_ok (space s') ->
  pages (space s') = pages dest ->
  wp (on_world (vm_frame_release f)) (fun _ s2 => space s2 = space s' /\ exists G2,
    both c d rest (world s2) G2 (space s') Td' src Ts /\ keeps2 c d w G (world s2) G2 /\
    (forall b, view (mkVm (world s2) src) b = view (mkVm w src) b)) s'.
Proof.
  intros Hti Hk Hlk Ep. pose proof (bo_dest _ _ _ _ _ _ _ _ _ Hboth) as Hd. pose proof (bo_src _ _ _ _ _ _ _ _ _ Hboth) as Hs.
  destruct page_frame as [fr Hfr]. destruct (kp_frame _ _ _ _ _ Hk _ _ Hfr) as (n & Hfr' & _).
  assert (1 < bump f (total (plus rest src) dest) f) as Hgt.
  { unfold bump, total, plus, uses. rewrite decide_True by done. pose proof (count_pos _ _ _ Hp) as Hc. fold f in Hc.
    pose proof (count_nonneg f (pages dest)). specialize (Hrest f). lia. }
  eapply wp_release; [exact Hti|exact Hfr'|lia|]. intros w2 G2 Hti2 Hfr2 Hbl2 Hws2. cbn [space world]. split; [done|].
  assert (keeps d (mkVm w dest) G (mkVm w2 (space s')) G2) as Hk2.
  { eapply keeps_trans; [exact Hk|]. split.
    - intros g gr Hg. apply Hfr2; [done|]. by right.
    - intros q id' k _ Hq Hl. destruct (Hbl2 _ _ _ Hq Hl). split_and!; [done..|]. intros y _. unfold word_at. cbn. by rewrite Hws2. }
  exists G2.
  assert (forall g, unbump f (bump f (total (plus rest src) dest)) g = total (plus rest src) (space s') g) as Htot.
  { intros g. unfold unbump, bump, total, plus, uses. rewrite Ep. lia. }
  assert (inv d (plus rest src) (mkVm w2 (space s')) G2 Td') as Hd2.
  { eapply (inv_keeps d (plus rest src) (mkVm w dest) G Td (mkVm w2 (space s')) G2 Td'); [apply page_restd|done|done|exact Hti2|done|done|].
    intros g. unfold unbump, bump. cbn. lia. }
  destruct (undisturbed_inv c (plus rest dest) (plus rest (space s')) w G src w2 G2 Ts) as [Hs2 Hv2]; [apply page_rests|done| | | |].
    + exact (keeps_undisturbed c d (mkVm w dest) G _ G2 src Hcd Hk2).
    + eapply world_ok_ext; [|exact (ti_world _ _ _ _ _ _ Hti2)]. intros g. rewrite Htot, total_plus. done.
    + intros j q _ _ _ _. unfold total, plus, uses. by rewrite Ep.
    + split_and!; [by split|exact (keeps_keeps2_r c d _ _ _ _ Hk2)|done].
Qed.

(** The source after the page was cloned: [p'] is [p], copied on write when it may be written. *)
Lemma page_src_inv s' G' w2 src2 p' :
  keeps d (mkVm w dest) G s' G' -> keeps c (mkVm (world s') src) G' (mkVm w2 src2) G' ->
  tinv c None (bump f (total (plus rest src) dest)) (mkVm w2 src2) G' Ts -> lookup_ok src2 ->
  pages src2 = <[i := p']> (pages src) -> virtual_address p' = virtual_address p -> frame p' = f ->
  protection p' = protection p -> shared p' = shared p ->
  (shared p = false -> has (protection p) VM_PROT_WRITE = true -> copy_on_write p' = true) ->
  (copy_on_write p' = true -> shared p = false) ->
  (forall g, uses g (space s') = uses g dest + if decide (g = f) then 1 else 0) ->
  inv c (plus rest (space s')) (mkVm w2 src2) G' Ts /\ (forall b, view (mkVm w2 src2) b = view (mkVm w src) b).
Proof.
  intros Hkd Hkc Hti Hlk Ep Eva Ef Epr Esh Hc1 Hc2 Huse.
  pose proof (bo_src _ _ _ _ _ _ _ _ _ Hboth) as Hs. pose proof Hs as [_ [Hlks R P C]]. cbn [space] in *.
  assert (forall g, uses g src2 = uses g src) as Huses.
  { intros g. unfold uses. rewrite Ep, (count_update _ _ _ _ _ Hp), Ef. fold f. lia. }
  assert (forall g, total (plus rest (space s')) src2 g = bump f (total (plus rest src) dest) g) as Htot.
  { intros g. unfold total, plus, bump. rewrite Huses, Huse. unfold total, plus. lia. }
  assert (forall j q, pages src !! j = Some q -> exists qr n, vw_frames w !! frame q = Some qr /\
    vw_frames w2 !! frame q = Some (mkFrame (data qr) (allocation qr) n) /\ role G' !! frame q = role G !! frame q /\
    data_at w2 (data qr) = data_at w (data qr)) as Hfr.
  { intros j q Hq. destruct (in_frame _ _ _ _ _ _ _ page_rests Hs Hq) as [qr Hqr].
    destruct (kp_frame _ _ _ _ _ Hkd _ _ Hqr) as (n1 & Hq1 & Hr1 & Hd1).
    destruct (kp_frame _ _ _ _ _ Hkc _ _ Hq1) as (n2 & Hq2 & Hr2 & Hd2). cbn in *.
    exists qr, n2. split_and!; [done|done|congruence|congruence]. }
  split.
  - split; [eapply tinv_ext; [|exact Hti]; intros g; by rewrite Htot|]. split; cbn [space]; [done|..]; rewrite Ep.
    + intros j q. rewrite lookup_insert_Some. intros [[<- <-]|[_ Hq]].
      * destruct (Hfr _ _ Hp) as (_ & _ & _ & _ & Er & _). rewrite Ef, Esh. etrans; [exact Er|]. by eapply R.
      * destruct (Hfr _ _ Hq) as (_ & _ & _ & _ & -> & _). by eapply R.
    + intros j q. rewrite lookup_insert_Some, Htot. intros [[<- <-]|[Hne Hq]] Hsh Hwr Hcw.
      * rewrite Hc1 in Hcw by congruence. done.
      * pose proof (P _ _ Hq Hsh Hwr Hcw) as H1. unfold bump. rewrite total_plus. case_decide as E; [|lia].
        pose proof (count_two _ _ _ _ _ Hp Hq Hne (eq_sym E)) as H2. unfold total, uses in H1. rewrite E in H1. fold f in H2.
        pose proof (page_rests f). lia.
    + intros j q. rewrite lookup_insert_Some. intros [[<- <-]|[_ Hq]]; [|eauto]. rewrite Esh. done.
  - intros b. destruct (decide (align_down b = virtual_address p)) as [Eb|Hb].
    + rewrite (view_record (mkVm w src) b i p) by done.
      rewrite (view_record (mkVm w2 src2) b i p'); [|done|cbn; rewrite Ep; apply lookup_insert_eq|congruence].
      f_equal. destruct (Hfr _ _ Hp) as (fr & n & Hf1 & Hf2 & _ & Hd). cbn [world].
      rewrite <- (view_of_frame w w2 p fr n) by done. unfold view_of. by rewrite Epr, Esh, Ef.
    + apply view_same; [done|done| |].
      * intros j q Hq. cbn. rewrite Ep. by apply (same_at_update (align_down b) src i p p').
      * intros j q Hq _. destruct (Hfr _ _ Hq) as (qr & n & Hf1 & Hf2 & _ & Hd). by eapply view_of_frame.
Qed.

End page.

(** ** The whole space *)

(** What third spaces may rely on. *)
Record kept (c d : nat) rest w G w' G' : Prop := {
  ke_frame f fr : 0 < rest f -> vw_frames w !! f = Some fr ->
    exists n, vw_frames w' !! f = Some (mkFrame (data fr) (allocation fr) n) /\
      role G' !! f = role G !! f /\ (role G !! f = Some (FrameBlock false) -> data_at w' (data fr) = data_at w (data fr));
  ke_block p id' k : id' <> c -> id' <> d -> role G !! p = Some (TableBlock id') -> live_blocks G !! p = Some k ->
    role G' !! p = Some (TableBlock id') /\ live_blocks G' !! p = Some k /\
    (forall y, p <= y < p + k -> word_at w' y = word_at w y) }.

Lemma keeps2_kept c d rest w G w1 G1 w2 G2 : keeps2 c d w G w1 G1 -> kept c d rest w1 G1 w2 G2 -> kept c d rest w G w2 G2.
Proof.
  intros [F1 B1] [F2 B2]. split.
  - intros f fr Hr Hf. destruct (F1 _ _ Hf) as (n & Hf1 & Hr1 & Hd1).
    destruct (F2 _ _ Hr Hf1) as (n' & Hf2 & Hr2 & Hd2). exists n'. cbn in *. split_and!; [done|congruence|].
    intros Hp. rewrite Hd2 by congruence. done.
  - intros p id' k H1 H2 Hp Hk. destruct (B1 _ _ _ H1 H2 Hp Hk) as (Hp1 & Hk1 & Hw1).
    destruct (B2 _ _ _ H1 H2 Hp1 Hk1) as (Hp2 & Hk2 & Hw2). split_and!; [done..|].
    intros y Hy. rewrite Hw2 by done. by apply Hw1.
Qed.

Lemma kept_refl c d rest w G : kept c d rest w G w G.
Proof. split; [|done]. intros f fr _ Hf. exists (references fr). split; [by destruct fr|done]. Qed.

(** The half-built destination is destroyed. *)
Lemma destroy_dest c d rest w G dest Td src Ts (s' := (vm_space_destroy (mkVm w dest)).2) :
  c <> d -> rest_small rest -> both c d rest w G dest Td src Ts ->
  space s' = zero_space /\ exists G', inv c rest (mkVm (world s') src) G' Ts /\
    (forall b, view (mkVm (world s') src) b = view (mkVm w src) b) /\ kept c d rest w G (world s') G'.
Proof.
  intros Hcd Hrest Hboth. pose proof (bo_dest _ _ _ _ _ _ _ _ _ Hboth) as Hd. pose proof (bo_src _ _ _ _ _ _ _ _ _ Hboth) as Hs.
  pose proof (page_restd c d rest w G dest Td src Ts Hrest Hboth) as Hrd.
  pose proof (page_rests c d rest w G dest Td src Ts Hrest Hboth) as Hrs.
  apply (wp_vm_space_destroy d (plus rest src) (mkVm w dest) G Td (fun _ s' => space s' = zero_space /\
    exists G', inv c rest (mkVm (world s') src) G' Ts /\
    (forall b, view (mkVm (world s') src) b = view (mkVm w src) b) /\ kept c d rest w G (world s') G') Hrd Hd).
  intros w' G' Hw' Hst. cbn [world space]. split; [done|]. exists G'.
  assert (undisturbed c w G src w' G') as Hu.
  { eapply (stable_undisturbed c d (plus rest src) (mkVm w dest) G (mkVm w' zero_space) G' src); [done|done| |].
    - intros j q Hq. unfold plus, uses. pose proof (count_pos _ _ _ Hq). specialize (Hrest (frame q)). lia.
    - apply Hs. }
  apply and_assoc. split.
  - eapply (undisturbed_inv c (plus rest dest)); [done|done|done| |].
    + eapply world_ok_ext; [|exact Hw']. intros g. unfold total, plus. lia.
    + intros j q Hq _ _ _. unfold total, plus, uses. pose proof (count_pos _ _ _ Hq). specialize (Hrest (frame q)).
      pose proof (count_nonneg (frame q) (pages dest)). lia.
  - destruct Hst as [F _ B]. split.
    + intros f fr Hf Hfr. apply (F _ _); [|done]. unfold plus, uses. pose proof (count_nonneg f (pages src)). lia.
    + intros q id' k _ Hid. by apply B.
Qed.

Lemma cloned_new i src dest p : lookup_ok src -> cloned i src dest -> pages src !! i = Some p ->
  forall j q, pages dest !! j = Some q -> virtual_address q <> virtual_address p.
Proof.
  intros Hlk [F _] Hp j q Hq E. destruct (F _ _ Hq) as (i' & p' & Hlt & Hp' & ->). cbn in E.
  assert (i' = i) by (by eapply (ro_unique _ (lo_records _ Hlk))). lia.
Qed.

Lemma cloned_step i src dest p src2 dest2 p' j : cloned i src dest -> pages src !! i = Some p -> clone_record p' = clone_record p ->
  pages src2 = <[i := p']> (pages src) -> pages dest !! j = None -> pages dest2 = <[j := clone_record p]> (pages dest) ->
  cloned (i + 1) src2 dest2.
Proof.
  intros [F T] Hp Ec Es Hj Ed. split.
  - intros k q. rewrite Ed, lookup_insert_Some. intros [[<- <-]|[_ Hq]].
    + exists i, p'. rewrite Es, lookup_insert_eq. split_and!; [lia|done|done].
    + destruct (F _ _ Hq) as (i' & q' & Hlt & Hq' & ->). exists i', q'.
      rewrite Es, lookup_insert_ne by lia. split_and!; [lia|done|done].
  - intros i' q. rewrite Es, lookup_insert_Some. intros [[<- <-]|[Hne Hq]] Hlt.
    + exists j. by rewrite Ed, lookup_insert_eq, Ec.
    + assert (i' < i) as Hlt' by lia. destruct (T _ _ Hq Hlt') as [j' Hj']. exists j'. rewrite Ed, lookup_insert_ne by congruence. done.
Qed.

Lemma cloned_skip i src dest : cloned i src dest -> pages src !! i = None -> cloned (i + 1) src dest.
Proof.
  intros [F T] Hn. split.
  - intros k q Hq. destruct (F _ _ Hq) as (i' & q' & ? & ? & ?). exists i', q'. split_and!; [lia|done|done].
  - intros i' q Hq Hlt. assert (i' <> i) by congruence. apply (T i'); [done|lia].
Qed.

Lemma all_cow_insert dest dest2 j p : all_cow dest -> pages dest2 = <[j := clone_record p]> (pages dest) -> all_cow dest2.
Proof.
  intros Ha E k q. rewrite E, lookup_insert_Some. intros [[_ <-]|[_ Hq]]; [|by eapply Ha]. cbn. by intros -> ->.
Qed.

Definition clone_post (c d : nat) rest w G src Ts (k : Z) (r : bool * VmWorld * VmSpace * VmSpace) : Prop :=
  let '(ok, w', dest', src') := r in
  (forall b, view (mkVm w' src') b = view (mkVm w src) b) /\ (forall g, uses g src' = uses g src) /\
  exists G', kept c d rest w G w' G' /\
  if ok : bool then exists Td', both c d rest w' G' dest' Td' src' Ts /\ cloned k src' dest' /\ all_cow dest'
  else dest' = zero_space /\ inv c rest (mkVm w' src') G' Ts.

(** The second half of an iteration: the source record, then the rest of the loop. *)
Lemma clone_post_trans c d rest w G src Ts k w1 G1 src1 r :
  (forall b, view (mkVm w1 src1) b = view (mkVm w src) b) -> (forall g, uses g src1 = uses g src) ->
  keeps2 c d w G w1 G1 -> clone_post c d rest w1 G1 src1 Ts k r -> clone_post c d rest w G src Ts k r.
Proof.
  destruct r as [[[ok w'] dest'] src']. intros Hv Hu Hk (Hv' & Hu' & G' & Hk' & Hr).
  split_and!; [intros b; by rewrite Hv', Hv|intros g; by rewrite Hu', Hu|]. exists G'.
  split; [by eapply keeps2_kept|done].
Qed.

(** The record of the source is marked. *)
Lemma mark_source c d rest w G dest Td src Ts i p s' G' Td' j
    (p' := mkPage (virtual_address p) (frame p) (protection p) true (shared p)) :
  c <> d -> rest_small rest -> both c d rest w G dest Td src Ts -> pages src !! i = Some p ->
  copy_on_write (clone_record p) = true ->
  inv d (plus rest src) s' G' Td' -> keeps d (mkVm w dest) G s' G' ->
  pages dest !! j = None -> pages (space s') = <[j := clone_record p]> (pages dest) ->
  tinv d None (bump (frame p) (total (plus rest src) dest)) s' G' Td' ->
  wp (update_page i p' (virtual_address p)) (fun ok s2 => ok = true /\
    both c d rest (world s2) G' (space s') Td' (space s2) Ts /\ keeps2 c d w G (world s2) G' /\
    (forall b, view s2 b = view (mkVm w src) b) /\ pages (space s2) = <[i := p']> (pages src))
    (mkVm (world s') src).
Proof.
  intros Hcd Hrest Hboth Hp Hcow Hd' Hk Hj Ep Hti. pose proof (bo_src _ _ _ _ _ _ _ _ _ Hboth) as Hs.
  pose proof (page_src_tables c d rest w G dest Td src Ts Hcd Hrest Hboth s' G' Hk) as Htab.
  pose proof (in_lookup _ _ _ _ _ Hs) as Hlks. cbn [space] in Hlks.
  assert (tinv c None (bump (frame p) (total (plus rest src) dest)) (mkVm (world s') src) G' Ts) as Htis by (split; [apply Hti|done]).
  eapply wp_update_page; [exact Htis|done|done|done|done|]. intros ws s2 Hti2 Hlk2 Hkw. cbn [world space] in *.
  pose proof (extends_keeps c None _ _ _ _ _ _ _ (ti_world _ _ _ _ _ _ Htis) Hti2
    (extends_words (mkVm (world s') src) G' (space s2) ws Hkw eq_refl eq_refl)) as Hkc.
  assert (forall g, uses g (space s') = uses g dest + if decide (g = frame p) then 1 else 0) as Huse.
  { intros g. unfold uses. rewrite Ep, count_insert by done. done. }
  apply andb_true_iff in Hcow as [Hsh Hwr]. apply negb_true_iff in Hsh.
  destruct (page_src_inv c d rest w G dest Td src Ts i p Hcd Hrest Hboth Hp s' G' (world s2) (space s2) p' Hk Hkc Hti2 Hlk2)
    as [Hs2 Hv2]; try done.
  split; [done|]. split_and!; [|  |exact Hv2|done].
  - split; [|done]. cbn [world space] in *.
    assert (forall g, uses g (space s2) = uses g src) as Hus.
    { intros g. unfold uses. cbn. rewrite (count_update _ _ _ _ _ Hp). cbn. lia. }
    destruct (undisturbed_inv d (plus rest src) (plus rest (space s2)) (world s') G' (space s') (world s2) G' Td') as [Hi' _];
      [by eapply page_restd|by destruct s'| | | |done].
    + exact (keeps_undisturbed d c (mkVm (world s') src) G' s2 G' (space s') (not_eq_sym Hcd) Hkc).
    + eapply world_ok_ext; [|exact (ti_world _ _ _ _ _ _ Hti2)]. intros g. unfold total, plus, bump. rewrite Huse, Hus. unfold total, plus. lia.
    + intros k q _ _ _ _. unfold total, plus. by rewrite Hus.
  - eapply keeps2_trans; [exact (keeps_keeps2_r c d _ _ _ _ Hk)|exact (keeps_keeps2_l c d _ _ _ _ Hkc)].
Qed.

Lemma clone_pages_ok c d rest n i w G dest Td src Ts :
  c <> d -> rest_small rest -> both c d rest w G dest Td src Ts -> cloned i src dest -> all_cow dest ->
  clone_post c d rest w G src Ts (i + Z.of_nat n) (clone_pages n i w dest src).
Proof.
  intros Hcd Hrest. revert i w G dest Td src. induction n as [|n IH]; intros i w G dest Td src Hboth Hcl Hac; cbn [clone_pages].
  { split_and!; [done|done|]. exists G. split; [apply kept_refl|]. exists Td. rewrite Z.add_0_r. done. }
  replace (i + Z.of_nat (S n)) with (i + 1 + Z.of_nat n) by lia.
  destruct (pages src !! i) as [p|] eqn:Hp.
  2: { eapply IH; [done|by apply cloned_skip|done]. }
  pose proof (bo_src _ _ _ _ _ _ _ _ _ Hboth) as Hs. pose proof (in_lookup _ _ _ _ _ Hs) as Hlks. cbn [space] in Hlks.
  pose proof (page_install c d rest w G dest Td src Ts i p Hrest Hboth Hp Hac (cloned_new _ _ _ _ Hlks Hcl Hp)) as Hins.
  unfold wp in Hins. fold (copy_on_write (clone_record p)). cbv zeta. change (negb (shared p) && has (protection p) VM_PROT_WRITE)
    with (copy_on_write (clone_record p)).
  destruct (install_page _ _ _ _ _ _) as [ok s'] eqn:Ei. cbn [fst snd] in Hins.
  destruct Hins as (G' & Td' & Hti & Hk & Hlk' & Hok). destruct ok; cbn [negb].
  2: { pose proof (page_undo c d rest w G dest Td src Ts i p Hcd Hrest Hboth Hp s' G' Td' Hti Hk Hlk' Hok) as Hundo.
       unfold wp, on_world in Hundo. destruct (vm_frame_release (frame p) (world s')) as [u w2]. cbn in Hundo. cbn [snd].
       destruct Hundo as (_ & G2 & Hb2 & Hk2 & Hv2).
       destruct (destroy_dest c d rest w2 G2 (space s') Td' src Ts Hcd Hrest Hb2) as (Ez & G3 & Hi3 & Hv3 & Hk3).
       eapply clone_post_trans; [exact Hv2|done|exact Hk2|].
       split_and!; [exact Hv3|done|]. exists G3. rewrite Ez. done. }
  destruct Hok as [Hd' (j & Hj & Ep)].
  destruct (copy_on_write (clone_record p)) eqn:Hcow.
  - pose proof (mark_source c d rest w G dest Td src Ts i p s' G' Td' j Hcd Hrest Hboth Hp Hcow Hd' Hk Hj Ep Hti) as Hmark.
    unfold wp in Hmark. destruct (update_page _ _ _ _) as [ok s2]. cbn [fst snd] in Hmark.
    destruct Hmark as (-> & Hb2 & Hk2 & Hv2 & Ep2). cbn [negb].
    eapply clone_post_trans; [|  |exact Hk2|eapply IH].
    + intros b. rewrite <- Hv2. by destruct s2.
    + intros g. unfold uses. rewrite Ep2, (count_update _ _ _ _ _ Hp). cbn. lia.
    + exact Hb2.
    + by eapply cloned_step; [exact Hcl|exact Hp| |exact Ep2|exact Hj|exact Ep].
    + by eapply all_cow_insert.
  - assert (forall g, uses g (space s') = uses g dest + if decide (g = frame p) then 1 else 0) as Huse.
    { intros g. unfold uses. rewrite Ep, count_insert by done. done. }
    assert (pages src = <[i := p]> (pages src)) as Eid by (by rewrite insert_id).
    destruct (page_src_inv c d rest w G dest Td src Ts i p Hcd Hrest Hboth Hp s' G' (world s') src p Hk) as [Hs2 Hv2]; try done.
    + split; [|done]. intros g gr Hg. exists (references gr). split; [by destruct gr|done].
    + split; [apply Hti|]. exact (page_src_tables c d rest w G dest Td src Ts Hcd Hrest Hboth s' G' Hk).
    + cbn in Hcow. intros E1 E2. by rewrite E1, E2 in Hcow.
    + intros Hc. by eapply (so_cow _ _ _ (in_space _ _ _ _ _ Hs)).
    + eapply clone_post_trans; [exact Hv2|done|exact (keeps_keeps2_r c d _ _ _ _ Hk)|eapply IH].
      * split; [by destruct s'|exact Hs2].
      * by eapply cloned_step; [exact Hcl|exact Hp| |exact Eid|exact Hj|exact Ep].
      * by eapply all_cow_insert.
Qed.

(** A complete clone shows what the source shows. *)
Lemma cloned_view k w src dest : lookup_ok src -> lookup_ok dest -> cloned k src dest -> VM_MAX_PAGES <= k ->
  forall b, view (mkVm w dest) b = view (mkVm w src) b.
Proof.
  intros Hls Hld [F T] Hk b. destruct (find_page b src) as [i|] eqn:Ef.
  - apply find_page_spec in Ef as (p & Hp & Ha); [|done].
    destruct (T _ _ Hp) as [j Hj]; [pose proof (ro_index _ (lo_records _ Hls) _ _ Hp); lia|].
    rewrite (view_record (mkVm w src) b i p), (view_record (mkVm w dest) b j (clone_record p)) by done. done.
  - rewrite find_page_None in Ef by done.
    rewrite (view_unmapped (mkVm w src) b), (view_unmapped (mkVm w dest) b); [done|done| |done|done].
    intros j q Hq. destruct (F _ _ Hq) as (i & p & _ & Hp & ->). cbn. by apply (Ef i).
Qed.

(** Everything there is to say about a clone. *)
Lemma clone_cow_ok c d rest w G destination src Ts :
  c <> d -> rest_small rest -> inv c rest (mkVm w src) G Ts ->
  let '(ok, w', dest', src') := vm_space_clone_cow w destination src in
  (forall b, view (mkVm w' src') b = view (mkVm w src) b) /\ (forall g, uses g src' = uses g src) /\
  exists G', kept c d rest w G w' G' /\
  if ok : bool then (exists Td', both c d rest w' G' dest' Td' src' Ts) /\
    (forall g, uses g src = 0 -> uses g dest' = 0) /\
    (forall b, view (mkVm w' dest') b = view (mkVm w src) b)
  else dest' = zero_space /\ inv c rest (mkVm w' src') G' Ts.
Proof.
  intros Hcd Hrest Hi. pose proof (in_lookup _ _ _ _ _ Hi) as Hlk. cbn [space] in Hlk.
  assert (rest_ok rest) as Hr by (intros f; specialize (Hrest f); lia).
  assert (world_ok w G (plus rest src)) as Hw.
  { eapply world_ok_ext; [|exact (in_world _ _ _ _ _ Hi)]. intros f. unfold total, plus. cbn. lia. }
  unfold vm_space_clone_cow.
  pose proof (wp_vm_space_create d (plus rest src) w G destination (fun ok s1 =>
    if ok then exists G1 T1, inv d (plus rest src) s1 G1 T1 /\ keeps d (mkVm w zero_space) G s1 G1 /\ pages (space s1) = ∅
    else space s1 = zero_space /\ exists h, world s1 = with_vm_heap h w /\ owned h G) (plus_ok _ _ Hrest Hlk) Hw) as Hcreate.
  unfold wp in Hcreate. destruct (vm_space_create (mkVm w destination)) as [created s1]. cbn [fst snd] in Hcreate.
  destruct created; cbn [negb].
  2: { destruct Hcreate as (Ez & h & Eh & Ho).
       - intros h Hw'. split; [done|]. exists h. split; [done|]. apply (wo_owned _ _ _ Hw').
       - eauto.
       - rewrite Ez, Eh. split_and!; [|done|].
         + intros b. by apply view_same.
         + exists G. split; [|split; [done|by apply (inv_heap c rest (mkVm w src))]].
           split; [|done]. intros f fr _ Hf. exists (references fr). split; [cbn; rewrite Hf; by destruct fr|done]. }
  destruct Hcreate as (G1 & T1 & Hd1 & Hk1 & Ep1).
  { intros h Hw'. split; [done|]. exists h. split; [done|]. apply (wo_owned _ _ _ Hw'). }
  { eauto. }
  assert (forall g, uses g (space s1) = 0) as Hu0 by (intros g; by apply uses_empty).
  destruct (undisturbed_inv c rest (plus rest (space s1)) w G src (world s1) G1 Ts) as [Hs1 Hv1]; [done|done| | | |].
  { exact (keeps_undisturbed c d (mkVm w zero_space) G s1 G1 src Hcd Hk1). }
  { eapply world_ok_ext; [|exact (in_world _ _ _ _ _ Hd1)]. intros g. unfold total, plus. lia. }
  { intros i p _ _ _ _. unfold total, plus. rewrite Hu0. lia. }
  pose proof (clone_pages_ok c d rest (Z.to_nat VM_MAX_PAGES) 0 (world s1) G1 (space s1) T1 src Ts Hcd Hrest) as Hcl.
  destruct (clone_pages _ 0 (world s1) (space s1) src) as [[[ok w'] dest'] src'].
  destruct Hcl as (Hv & Hu & G' & Hk & Hres).
  - split; [by destruct s1|done].
  - split.
    + intros j q. by rewrite Ep1, lookup_empty.
    + intros i p Hp Hlt. pose proof (ro_index _ (lo_records _ Hlk) _ _ Hp). lia.
  - intros j q. by rewrite Ep1, lookup_empty.
  - split_and!; [intros b; by rewrite Hv, Hv1|done|]. exists G'. split.
    { eapply keeps2_kept; [|exact Hk]. exact (keeps_keeps2_r c d _ _ _ _ Hk1). }
    destruct ok; [|done]. destruct Hres as (Td' & Hb & Hcl & _).
    pose proof (in_lookup _ _ _ _ _ (bo_dest _ _ _ _ _ _ _ _ _ Hb)) as Hld.
    pose proof (in_lookup _ _ _ _ _ (bo_src _ _ _ _ _ _ _ _ _ Hb)) as Hls. cbn [space] in Hld, Hls.
    split_and!; [eauto| |].
    + intros g Hg. destruct (decide (uses g dest' = 0)) as [|Hne]; [done|]. exfalso. rewrite <- Hu in Hg.
      destruct (count_exists _ _ Hne) as (j & q & Hq & <-). destruct (cl_from _ _ _ Hcl _ _ Hq) as (i & p & _ & Hp & ->). cbn in Hg. pose proof (count_pos _ _ _ Hp). unfold uses in Hg. lia.
    + intros b. rewrite <- Hv1, <- Hv. eapply cloned_view; [done|done|exact Hcl|]. rewrite Z2Nat.id; [lia|done].
Qed.

End clone.
