(* ===== verification/VmShare.v ===== *)
(** * Page faults and shared pages *)

From S2P Require Import Prelude Heap HeapFacts Interfaces Ownership Vm VmLookup VmFrames VmTables VmSpaces VmOps VmCopy VmMap.

Section share.
Context {H : Type} `{!Allocator H, !Ownership H}.

Implicit Types (w : @VmWorld H) (s : @VmState H) (G : Ghost) (rc rest : Z -> Z) (h : H) (sp : VmSpace) (T : Tree).

#[local] Opaque find_page.

(** ** Page faults *)

(** A page fault is either not handled, and the process sees no difference; or it made a
    page private, and the process sees no difference; or it mapped a page of the stack. *)
Lemma wp_vm_handle_page_fault id rest s G T a error (Q : Z -> VmState -> Prop) :
  rest_ok rest -> inv id rest s G T ->
  (forall s' G' T', inv id rest s' G' T' -> stable id rest s G s' G' -> (forall b, view s' b = view s b) ->
     Q VM_FAULT_UNHANDLED s') ->
  (forall s' G' i p, inv id rest s' G' T -> stable id rest s G s' G' -> (forall b, view s' b = view s b) ->
     pages (space s') !! i = Some p -> virtual_address p = align_down a -> copy_on_write p = false -> Q VM_FAULT_COW s') ->
  (forall s' G' T', VM_USER_STACK_BASE <= a < VM_USER_STACK_TOP -> inv id rest s' G' T' -> stable id rest s G s' G' ->
     (forall b, view s' b = if decide (align_down b = align_down a)
        then Some (map_view (Z.lor VM_PROT_READ VM_PROT_WRITE) (view s b)) else view s b) -> Q VM_FAULT_DEMAND s') ->
  wp (vm_handle_page_fault a error) Q s.
Proof.
  intros Hrest Hi HU HC HD. pose proof (in_lookup _ _ _ _ _ Hi) as Hlk. unfold vm_handle_page_fault.
  assert (Q VM_FAULT_UNHANDLED s) as Hno by (eapply HU; [done|apply stable_refl|done]).
  destruct (has error 4); cbn [negb]; [|by wp_step].
  destruct (Z.land error 7 =? 7).
  - do 2 wp_step. destruct (find_page a (space s)) as [i|] eqn:Ef; [|by wp_step].
    apply find_page_spec in Ef as (p & Hp & Hva); [|done]. rewrite (page_at_eq _ _ _ Hp).
    destruct (copy_on_write p); cbn [negb]; [|by wp_step].
    wp_step. eapply wp_make_private; [done|done|done|intros; wp_step; by eapply HU|].
    intros s' G' f Hi' Hst Hv Hp' _. wp_step. by eapply HC.
  - destruct (_ && (a <? VM_USER_STACK_TOP))%bool eqn:E; [|by wp_step]. bool_hyps.
    wp_step. eapply wp_vm_map_page; [done|done|intros; wp_step; by eapply HU|].
    intros s' G' T' _ _ Hi' Hst Hv. wp_step. eapply HD; [lia|done|done|done].
Qed.

(** ** Sharing *)

(** The view of a page after it was shared: its bytes are now those of a frame. *)
Definition shared_view w (v v' : PageView) : Prop :=
  exists f, v' = mkView (v_protection v) (Shared f) /\ (v_backing v = Shared f \/ v_backing v = Private (contents w f)).

(** A page that nobody else holds becomes shared. *)
Lemma wp_share_record id rest s G T i p (p' := mkPage (virtual_address p) (frame p) (protection p) false true)
    (G' := set_role (frame p) (FrameBlock true) G) (Q : bool -> VmState -> Prop) :
  rest_ok rest -> inv id rest s G T -> pages (space s) !! i = Some p ->
  (shared p = true \/ total rest (space s) (frame p) = 1) ->
  (forall s', inv id rest s' G' T -> stable id rest s G s' G' ->
     pages (space s') = <[i := p']> (pages (space s)) ->
     vw_frames (world s') = vw_frames (world s) -> vw_pages (world s') = vw_pages (world s) -> Q true s') ->
  wp (update_page i p' (virtual_address p)) Q s.
Proof.
  intros Hrest Hi Hp Hsole HQ. pose proof Hi as [[Hw Hok] [Hlk R P C]]. pose proof (R _ _ Hp) as Hr.
  assert (forall q r, role G !! q = Some r -> q <> frame p -> role G' !! q = Some r) as Hrole.
  { intros q r Hq Hne. cbn. by rewrite lookup_insert_ne. }
  assert (tinv id None (total rest (space s)) s G' T) as Hti.
  { split; [by eapply set_role_ok|]. destruct Hok as [[B1 B2 B3 B4 B5 B6 B7] S W]. split; [|done|done].
    split; try done.
    - apply Hrole; [done|congruence].
    - intros t raw Hin. destruct (B6 _ _ Hin) as (? & ? & ?). split_and!; [apply Hrole; [done|congruence]|done|done]. }
  eapply wp_update_page; [exact Hti|done|done|done|done|]. intros ws s' Hti' Hlk' Hk.
  assert (forall j q, pages (space s) !! j = Some q -> j <> i -> shared p = true \/ frame q <> frame p) as Hother.
  { intros j q Hq Hne. destruct Hsole as [|H1]; [by left|right]. intros E.
    pose proof (count_two _ _ _ _ _ Hp Hq (not_eq_sym Hne) (eq_sym E)). unfold total, uses in H1.
    specialize (Hrest (frame p)). lia. }
  apply HQ; [|  |done..].
  - split; [eapply tinv_ext; [|exact Hti']; intros f; symmetry; by apply total_update with (p := p)|].
    split; [done|..].
    + intros j q. cbn. rewrite lookup_insert_Some. intros [[<- <-]|[Hne Hq]]; [apply lookup_insert_eq|].
      destruct (decide (frame q = frame p)) as [E|E].
      * rewrite E, lookup_insert_eq. destruct (Hother _ _ Hq (not_eq_sym Hne)) as [Hs|]; [|done].
        pose proof (R _ _ Hq). congruence.
      * rewrite lookup_insert_ne by done. by eapply R.
    + intros j q. cbn [pages space s' with_pages]. rewrite lookup_insert_Some.
      intros [[<- <-]|[_ Hq]] ? ? ?; [done|]. unfold s'. cbn [space]. rewrite total_update with (p := p) by done. by eapply P.
    + intros j q. cbn. rewrite lookup_insert_Some. intros [[<- <-]|[_ Hq]]; [done|eauto].
  - split.
    + intros f fr Hf Hfr. exists (references fr). split; [cbn; by destruct fr|]. split; [|done].
      destruct (decide (frame p = f)) as [<-|Hne]; [|cbn; by rewrite lookup_insert_ne].
      cbn. rewrite lookup_insert_eq. destruct Hsole as [Hs|H1]; [by rewrite Hr, Hs|].
      pose proof (count_pos _ _ _ Hp). unfold total, uses in H1. lia.
    + intros f fr _ _ _. unfold uses. cbn. rewrite (count_update _ _ _ _ _ Hp). cbn. lia.
    + intros q id' k Hid Hq Hkk. assert (q <> frame p) by congruence. split_and!; [by apply Hrole|done|].
      apply (words_stable id None (total rest (space s)) s s' G' T q id' k); [done|done|done|by apply Hrole|done].
Qed.

(** Nobody else holds the private pages of the range. *)
Definition unshared (n : nat) (a : Z) s : Prop :=
  forall b i p, in_range a n b = true -> pages (space s) !! i = Some p -> virtual_address p = align_down b ->
    shared p = true \/ references (frame_at (world s) (frame p)) = 1.

Lemma wp_share_pages id rest n a s G T (Q : bool -> VmState -> Prop) :
  rest_ok rest -> inv id rest s G T -> aligned a -> a + VM_PAGE_SIZE * Z.of_nat n < 2 ^ 64 ->
  all_mapped n a (space s) = true -> unshared n a s ->
  (forall s' G', inv id rest s' G' T -> stable id rest s G s' G' ->
     (forall b, if in_range a n b then exists v v', view s b = Some v /\ view s' b = Some v' /\ shared_view (world s') v v'
                else view s' b = view s b) -> vw_frames (world s') = vw_frames (world s) ->
     vw_pages (world s') = vw_pages (world s) -> Q true s') ->
  wp (share_pages n a) Q s.
Proof.
  revert a s G Q. induction n as [|n IH]; intros a s G Q Hr Hi Ha Hb Hall Hun HQ; cbn [share_pages].
  { apply wp_ret, (HQ s G); [done|apply stable_refl| |done|done]. intros b. by rewrite in_range_O. }
  assert (VM_PAGE_SIZE = 4096) as Hps by done. pose proof (in_lookup _ _ _ _ _ Hi) as Hlk.
  assert (aligned (a + VM_PAGE_SIZE)) as Ha' by (apply aligned_next; [done|lia]).
  cbn [all_mapped] in Hall. do 2 wp_step. destruct (find_page a (space s)) as [i|] eqn:E; [|done].
  apply find_page_spec in E as (p & Hp & Hva); [|done]. rewrite Ha in Hva. rewrite (page_at_eq _ _ _ Hp).
  destruct (in_frame _ _ _ _ _ _ _ Hr Hi Hp) as [fr Hfr].
  pose proof (wo_frame _ _ _ (in_world _ _ _ _ _ Hi) _ _ Hfr) as [_ _ _ _ _ Hcnt _ _].
  assert (in_range a (S n) a = true) as Hin by (rewrite in_range_S, Ha, bool_decide_true by done; done).
  cbv zeta. wp_step. rewrite <- Hva at 1. eapply wp_share_record; [done|done|done| |].
  { destruct (Hun a i p Hin Hp) as [|H1]; [congruence|by left|right]. rewrite (frame_at_eq _ _ _ Hfr), Hcnt in H1. done. }
  intros s1 Hi1 Hst1 Ep Ef Epg. cbn [negb].
  set (p' := mkPage _ _ _ _ _) in *. pose proof (in_lookup _ _ _ _ _ Hi1) as Hlk1.
  assert (forall b, view s1 b = if decide (align_down b = a) then Some (view_of (world s) p') else view s b) as Hv1.
  { intros b. rewrite <- Hva. eapply view_rewrite; try done. intros q. by apply view_of_same. }
  eapply (IH _ s1); [done|exact Hi1|done|lia| | |].
  { apply all_mapped_spec; [done|lia|]. rewrite all_mapped_spec in Hall by (done || lia). intros b Hb'. rewrite Hv1.
    case_decide; [eauto|]. by apply Hall. }
  { intros b j q Hb' Hq Hqa. rewrite Ep in Hq. apply lookup_insert_Some in Hq as [[<- <-]|[_ Hq]]; [by left|].
    unfold frame_at. rewrite Ef. eapply (Hun b); [|done|done]. by rewrite in_range_S, Hb', orb_true_r. }
  intros s2 G2 Hi2 Hst2 Hv2 Ef2 Epg2. eapply HQ; [done|by eapply stable_trans| |congruence|congruence]. intros b.
  specialize (Hv2 b). specialize (Hv1 b). rewrite in_range_S by done. case_decide as Eb.
  - rewrite bool_decide_true by done. cbn [orb].
    assert (view s b = Some (view_of (world s) p)) as Hvb by (eapply view_record; [done..|congruence]).
    assert (in_range (a + VM_PAGE_SIZE) n b = false) as Hno by (unfold in_range; lia). rewrite Hno, Hv1 in Hv2.
    eexists _, _. split_and!; [done|done|]. exists (frame p). split; [done|]. cbn.
    destruct (shared p); [by left|right]. f_equal. unfold contents, data_at, frame_at. by rewrite Ef2, Epg2, Ef, Epg.
  - rewrite bool_decide_false by done. cbn [orb]. rewrite Hv1 in Hv2. done.
Qed.

Lemma wp_vm_mark_shared id rest s G T address size (Q : bool -> VmState -> Prop) :
  rest_ok rest -> inv id rest s G T -> unshared (pages_of address size) (first_page address) s ->
  (protectable address size (space s) = false -> Q false s) ->
  (forall s' G', protectable address size (space s) = true -> inv id rest s' G' T -> stable id rest s G s' G' ->
     (forall b, if in_range (first_page address) (pages_of address size) b
                then exists v v', view s b = Some v /\ view s' b = Some v' /\ shared_view (world s') v v'
                else view s' b = view s b) -> Q true s') ->
  wp (vm_mark_shared address size) Q s.
Proof.
  intros Hr Hi Hun HF HT. unfold vm_mark_shared, protectable in *. destruct ((size =? 0) || _)%bool; cbn [negb andb] in *.
  { wp_step. by apply HF. }
  cbv zeta. do 2 wp_step. fold (first_page address) (pages_of address size).
  destruct (all_mapped _ _ (space s)) eqn:E; cbn [negb andb] in *; [|wp_step; by apply HF].
  eapply wp_share_pages; [done|done|apply align_down_aligned|apply pages_of_bound|done|done|]. intros. by eapply HT.
Qed.

End share.
