(* ===== verification/VmSystem.v ===== *)
(** * The address spaces of the system

    Any number of address spaces over one physical memory, with the frames that kernel
    objects hold beside them.  [sys_ok] holds in every state the operations of vm.c lead
    to. *)

From S2P Require Import Prelude Heap HeapFacts Interfaces Ownership Vm VmLookup VmFrames VmTables VmSpaces VmOps VmCopy VmMap VmLife VmClone VmShare.

(** ** Holders *)

(** The records of all spaces that refer to a frame. *)
Definition refs (f : Z) (M : gmap nat VmSpace) : Z := map_fold (fun _ sp n => uses f sp + n) 0 M.

Lemma refs_empty f : refs f ∅ = 0.
Proof. apply map_fold_empty. Qed.

Lemma refs_insert f id sp M : M !! id = None -> refs f (<[id := sp]> M) = uses f sp + refs f M.
Proof. intros Hid. unfold refs. rewrite map_fold_insert_L; [done| |done]. intros. lia. Qed.

Lemma refs_delete f id sp M : M !! id = Some sp -> refs f M = uses f sp + refs f (delete id M).
Proof.
  intros Hid. rewrite <- (insert_delete_id M id sp Hid) at 1. apply refs_insert, lookup_delete_eq.
Qed.

Lemma refs_nonneg f M : 0 <= refs f M.
Proof.
  induction M as [|id sp M Hid IH] using map_ind; [by rewrite refs_empty|]. rewrite refs_insert by done.
  pose proof (count_nonneg f (pages sp)). unfold uses. lia.
Qed.

Lemma refs_bound f M : (forall id sp, M !! id = Some sp -> lookup_ok sp) -> refs f M <= VM_MAX_PAGES * Z.of_nat (size M).
Proof.
  induction M as [|id sp M Hid IH] using map_ind; intros Hlk; [by rewrite refs_empty, map_size_empty|].
  rewrite refs_insert, map_size_insert_None by done.
  assert (lookup_ok sp) as Hsp by (eapply Hlk; apply lookup_insert_eq).
  pose proof (count_bound f _ (lo_records _ Hsp)). unfold uses.
  assert (refs f M <= VM_MAX_PAGES * Z.of_nat (size M)) as HM; [|unfold VM_MAX_PAGES in *; lia].
  apply IH. intros id' sp' Hid'. apply (Hlk id'). rewrite lookup_insert_ne by (intros E; rewrite E in Hid; congruence). done.
Qed.

Lemma uses_refs f id sp M : M !! id = Some sp -> uses f sp <= refs f M.
Proof. intros Hid. rewrite (refs_delete _ _ _ _ Hid). pose proof (refs_nonneg f (delete id M)). lia. Qed.

(** How many address spaces there may be; the process table has room for far fewer. *)
Definition SPACES_MAX : nat := 4096.

Section system.
Context {H : Type} `{!Allocator H, !Ownership H}.

#[local] Opaque find_page.

(** Physical memory, the references that kernel objects hold, and the address spaces. *)
Record System := mkSystem {
  sys_world : @VmWorld H; sys_held : Z -> Z; sys_spaces : gmap nat VmSpace }.

Implicit Types (w : @VmWorld H) (s : @VmState H) (G : Ghost) (held : Z -> Z) (M : gmap nat VmSpace) (S : System).

(** Kernel objects hold shared frames. *)
Definition held_ok held G : Prop :=
  forall f, 0 <= held f <= 2 ^ 29 /\ (0 < held f -> role G !! f = Some (FrameBlock true)).

(** What the space [id] shares memory with. *)
Definition others held M : Z -> Z := fun f => held f + refs f M.

Record sys_inv G S : Prop := {
  sy_world : world_ok (sys_world S) G (others (sys_held S) (sys_spaces S));
  sy_space id sp : sys_spaces S !! id = Some sp ->
    exists T, inv id (others (sys_held S) (delete id (sys_spaces S))) (mkVm (sys_world S) sp) G T;
  sy_held : held_ok (sys_held S) G;
  sy_size : (size (sys_spaces S) <= SPACES_MAX)%nat }.

Definition sys_ok S : Prop := exists G, sys_inv G S.

(** ** Interference *)

Lemma others_small held G M : held_ok held G -> (forall id sp, M !! id = Some sp -> lookup_ok sp) ->
  (size M <= SPACES_MAX)%nat -> rest_small (others held M).
Proof.
  intros Hh Hlk Hs f. unfold others. pose proof (refs_bound f M Hlk). pose proof (refs_nonneg f M).
  destruct (Hh f) as [? _]. unfold SPACES_MAX, VM_MAX_PAGES in *.
  assert (Z.of_nat (size M) <= 4096) by lia. lia.
Qed.

Lemma small_ok rest : rest_small rest -> rest_ok rest.
Proof. intros Hr f. specialize (Hr f). lia. Qed.

Lemma sys_lookup G S id sp : sys_inv G S -> sys_spaces S !! id = Some sp -> lookup_ok sp.
Proof. intros Hs Hid. destruct (sy_space _ _ Hs _ _ Hid) as [T Hi]. exact (in_lookup _ _ _ _ _ Hi). Qed.

Lemma sys_small G S id : sys_inv G S -> rest_small (others (sys_held S) (delete id (sys_spaces S))).
Proof.
  intros Hs. eapply others_small; [apply Hs| |].
  - intros id' sp' [_ Hid]%lookup_delete_Some. by eapply sys_lookup.
  - pose proof (sy_size _ _ Hs). rewrite map_size_delete. destruct (sys_spaces S !! id); [lia|done].
Qed.

(** A step of the spaces [X] leaves the space [id'] as it was, when nobody took up its
    private frames; [old] and [new] count the other holders before and after. *)
Lemma other_space id' sp' G G' w w' T old new :
  rest_ok old -> inv id' old (mkVm w sp') G T -> undisturbed id' w G sp' w' G' -> world_ok w' G' (total new sp') ->
  (forall f fr, vw_frames w !! f = Some fr -> role G !! f = Some (FrameBlock false) -> 0 < uses f sp' -> old f = 0 -> uses f sp' = 1 -> new f = 0) ->
  inv id' new (mkVm w' sp') G' T /\ forall b, view (mkVm w' sp') b = view (mkVm w sp') b.
Proof.
  intros Hr Hi Hu Hw Hnew. eapply undisturbed_inv; [done|done|done|done|].
  intros i p Hp Hsh _ _ H1. pose proof (count_pos _ _ _ Hp) as Hc. destruct (in_frame _ _ _ _ _ _ _ Hr Hi Hp) as [fr Hfr].
  pose proof (so_role _ _ _ (in_space _ _ _ _ _ Hi) _ _ Hp) as Hro. rewrite Hsh in Hro.
  unfold total, uses in *. pose proof (Hr (frame p)). rewrite (Hnew _ _ Hfr Hro); lia.
Qed.

(** A space that takes no part in a step: its memory stays, and nobody takes up a private
    frame of which it is the only holder. *)
Definition bystander id' sp' G S G' S' : Prop :=
  undisturbed id' (sys_world S) G sp' (sys_world S') G' /\
  forall f, role G !! f = Some (FrameBlock false) -> uses f sp' = 1 ->
    others (sys_held S) (delete id' (sys_spaces S)) f = 0 -> others (sys_held S') (delete id' (sys_spaces S')) f = 0.

Lemma others_delete held M id sp f : M !! id = Some sp -> others held M f = total (others held (delete id M)) sp f.
Proof. intros Hid. unfold others, total. rewrite (refs_delete f _ _ _ Hid). lia. Qed.

Lemma bystander_ok id' sp' G S G' S' :
  sys_inv G S -> sys_spaces S !! id' = Some sp' -> sys_spaces S' !! id' = Some sp' ->
  world_ok (sys_world S') G' (others (sys_held S') (sys_spaces S')) -> bystander id' sp' G S G' S' ->
  (exists T, inv id' (others (sys_held S') (delete id' (sys_spaces S'))) (mkVm (sys_world S') sp') G' T) /\
  forall b, view (mkVm (sys_world S') sp') b = view (mkVm (sys_world S) sp') b.
Proof.
  intros Hs Hid Hid' Hw' [Hu Hn]. destruct (sy_space _ _ Hs _ _ Hid) as [T Hi].
  destruct (other_space id' sp' G G' (sys_world S) (sys_world S') T _ (others (sys_held S') (delete id' (sys_spaces S')))
    (small_ok _ (sys_small _ _ id' Hs)) Hi Hu); [|intros; by apply Hn|eauto].
  eapply world_ok_ext; [|exact Hw']. intros f. by apply others_delete.
Qed.

(** A step of the system: what has changed satisfies its invariant, the rest stood by. *)
Lemma system_step G S G' S' :
  sys_inv G S -> world_ok (sys_world S') G' (others (sys_held S') (sys_spaces S')) ->
  (forall id sp, sys_spaces S' !! id = Some sp ->
     (exists T, inv id (others (sys_held S') (delete id (sys_spaces S'))) (mkVm (sys_world S') sp) G' T) \/
     (sys_spaces S !! id = Some sp /\ bystander id sp G S G' S')) ->
  held_ok (sys_held S') G' -> (size (sys_spaces S') <= SPACES_MAX)%nat -> sys_inv G' S'.
Proof.
  intros Hs Hw Hsp Hh Hsz. split; [done| |done|done]. intros id sp Hid.
  destruct (Hsp _ _ Hid) as [?|[Hid0 Hb]]; [done|]. by apply (bystander_ok id sp G S G' S' Hs Hid0 Hid Hw Hb).
Qed.

Lemma others_nonneg held G M f : held_ok held G -> 0 <= others held M f.
Proof. intros Hh. unfold others. destruct (Hh f) as [? _]. pose proof (refs_nonneg f M). lia. Qed.

(** The space [id] at work, or on its way out. *)
Lemma stable_bystander G S id sp s' G' M' id' sp' :
  sys_inv G S -> sys_spaces S !! id = Some sp ->
  stable id (others (sys_held S) (delete id (sys_spaces S))) (mkVm (sys_world S) sp) G s' G' ->
  id' <> id -> sys_spaces S !! id' = Some sp' ->
  (forall f, refs f (delete id' M') <= uses f (space s') + refs f (delete id (delete id' (sys_spaces S)))) ->
  bystander id' sp' G S G' (mkSystem (world s') (sys_held S) M').
Proof.
  intros Hs Hid Hst Hne Hid' Hle. set (rest := others _ _) in Hst.
  assert (delete id (sys_spaces S) !! id' = Some sp') as Hd by (by rewrite lookup_delete_ne).
  assert (delete id' (sys_spaces S) !! id = Some sp) as Hd' by (by rewrite lookup_delete_ne).
  assert (forall f, rest f = uses f sp' + others (sys_held S) (delete id (delete id' (sys_spaces S))) f) as Hrest.
  { intros f. unfold rest. rewrite (others_delete _ _ _ _ _ Hd), delete_delete. done. }
  assert (forall f, 0 <= others (sys_held S) (delete id (delete id' (sys_spaces S))) f) as Hpos
    by (intros f; eapply others_nonneg, Hs).
  destruct (sy_space _ _ Hs _ _ Hid') as [T Hi]. split; cbn [sys_world sys_held sys_spaces].
  - eapply (stable_undisturbed id' id rest (mkVm (sys_world S) sp)); [done|done| |apply Hi].
    intros i p Hp. rewrite Hrest. pose proof (count_pos _ _ _ Hp). specialize (Hpos (frame p)). unfold uses. lia.
  - intros f Hro H1. rewrite (others_delete _ _ _ _ _ Hd'). unfold total. intros H0. specialize (Hpos f).
    pose proof (count_nonneg f (pages sp)). specialize (Hle f).
    assert (others (sys_held S) (sys_spaces S) f = 1) as Hf.
    { rewrite (others_delete _ _ _ _ _ Hid'). unfold total. rewrite (others_delete _ _ _ _ _ Hd'). unfold total. lia. }
    destruct (wo_held _ _ _ (sy_world _ _ Hs) f) as [fr Hfr]; [lia|].
    assert (uses f (space s') <= uses f sp) as Hu by (eapply (st_uses _ _ _ _ _ _ Hst); [rewrite Hrest; lia|done|done]).
    pose proof (others_nonneg _ _ (delete id' M') f (sy_held _ _ Hs)). unfold others, uses in *. lia.
Qed.

(** Kernel objects keep their frames. *)
Lemma held_stable G S id sp s' G' : sys_inv G S -> sys_spaces S !! id = Some sp ->
  stable id (others (sys_held S) (delete id (sys_spaces S))) (mkVm (sys_world S) sp) G s' G' -> held_ok (sys_held S) G'.
Proof.
  intros Hs Hid Hst f. destruct (sy_held _ _ Hs f) as [Hh Hr]. split; [done|]. intros Hpos.
  pose proof (refs_nonneg f (delete id (sys_spaces S))). pose proof (refs_nonneg f (sys_spaces S)).
  destruct (wo_held _ _ _ (sy_world _ _ Hs) f) as [fr Hfr]; [unfold others; lia|].
  destruct (st_frame _ _ _ _ _ _ Hst f fr) as (_ & _ & -> & _); [unfold others; lia|done|by apply Hr].
Qed.

End system.
