(* ===== verification/VmSteps.v ===== *)
(** * The operations on address spaces, as one system

    [run_op] is an operation of one space, [spec_op] what it may do to the pages that the
    process sees, and [vm_step] one step of the whole system: an operation of a space, the
    creation, the end and the cloning of one, and what kernel objects do with the frames
    that they hold.  Every step keeps [sys_inv]. *)

From S2P Require Import Prelude Heap HeapFacts Interfaces Ownership Vm VmLookup VmFrames VmTables VmSpaces VmOps VmCopy VmMap VmLife VmClone VmShare VmSystem.

Inductive VmOp :=
| MapPage (address protection : Z)
| MapShared (address frame protection : Z)
| UnmapPage (address : Z)
| Protect (address size protection : Z)
| CopyTo (destination : Z) (source : list Z)
| PageFault (address error_code : Z)
| MarkShared (address size : Z)
| ResetUser.

Section steps.
Context {H : Type} `{!Allocator H, !Ownership H}.

#[local] Opaque find_page.

Implicit Types (w : @VmWorld H) (s : @VmState H) (G : Ghost) (held rest : Z -> Z) (M : gmap nat VmSpace) (S : @System H) (T : Tree).

(** ** One space *)

Definition as_number (m : st (@VmState H) bool) : st (@VmState H) Z := b <- m ;; ret (Z.b2z b).

Definition run_op (op : VmOp) : st (@VmState H) Z :=
  match op with
  | MapPage a prot => as_number (vm_map_page a prot)
  | MapShared a f prot => as_number (vm_map_shared_frame a f prot)
  | UnmapPage a => as_number (vm_unmap_page a)
  | Protect a n prot => as_number (vm_protect a n prot)
  | CopyTo d l => as_number (vm_copy_to_user d l)
  | PageFault a e => vm_handle_page_fault a e
  | MarkShared a n => as_number (vm_mark_shared a n)
  | ResetUser => vm_space_reset_user ;;; ret 0
  end.

(** What the callers see to: a frame to be mapped is held by a kernel object, an address is
    64 bits wide, and pages to be shared have no copy-on-write holders elsewhere. *)
Definition allowed held (op : VmOp) s : Prop :=
  match op with
  | MapShared _ f _ => 0 < held f
  | CopyTo d _ => 0 <= d < 2 ^ 64
  | MarkShared a n => unshared (pages_of a n) (first_page a) s
  | _ => True
  end.

(** The pages of a process, by address. *)
Definition Pages := Z -> option PageView.

(** The page of [a] replaced. *)
Definition put (a : Z) (v : option PageView) (V : Pages) : Pages :=
  fun b => if decide (align_down b = align_down a) then v else V b.

Definition same (V V' : Pages) : Prop := forall b, V' b = V b.

(** The range is proper, and every page of it is mapped. *)
Definition covered (a n : Z) (V : Pages) : Prop :=
  (n =? 0) || (u64 (a + n) <? a) = false /\ forall b, in_range (first_page a) (pages_of a n) b = true -> is_Some (V b).

Definition over (a n : Z) (b : Z) : bool := in_range (first_page a) (pages_of a n) b.

Definition spec_op (op : VmOp) (r : Z) (V V' : Pages) : Prop :=
  match op with
  | MapPage a prot => (r = 0 /\ same V V') \/
      (r = 1 /\ aligned a /\ canonical_user_address a = true /\ same (put a (Some (map_view prot (V a))) V) V')
  | MapShared a f prot => (r = 0 /\ same V V') \/
      (r = 1 /\ aligned a /\ canonical_user_address a = true /\ V a = None /\ same (put a (Some (mkView prot (Shared f))) V) V')
  | UnmapPage a => (r = 0 /\ V a = None /\ same V V') \/ (r = 1 /\ is_Some (V a) /\ same (put a None V) V')
  | Protect a n prot => (r = 0 /\ ~ covered a n V /\ same V V') \/
      (r = 1 /\ covered a n V /\ same (fun b => if over a n b then set_protection prot <$> V b else V b) V')
  | CopyTo d l => exists m, (m <= length l)%nat /\ same (fun b => patch_view d (take m l) (align_down b) <$> V b) V' /\
      (r = 0 \/ r = 1 /\ m = length l /\
        forall b, d <= b < d + Z.of_nat (length l) -> exists v, V b = Some v /\ writable v = true)
  | PageFault a _ => ((r = VM_FAULT_UNHANDLED \/ r = VM_FAULT_COW) /\ same V V') \/
      (r = VM_FAULT_DEMAND /\ VM_USER_STACK_BASE <= a < VM_USER_STACK_TOP /\
       same (put a (Some (map_view (Z.lor VM_PROT_READ VM_PROT_WRITE) (V a))) V) V')
  | MarkShared a n => (r = 0 /\ ~ covered a n V /\ same V V') \/
      (r = 1 /\ covered a n V /\ forall b, if over a n b then exists v f, V b = Some v /\ V' b = Some (mkView (v_protection v) (Shared f))
                                          else V' b = V b)
  | ResetUser => forall b, V' b = None
  end.

Lemma wp_as_number (m : st (@VmState H) bool) Q s : wp m (fun b => Q (Z.b2z b)) s -> wp (as_number m) Q s.
Proof. intros Hm. unfold as_number. wp_step. eapply wp_mono; [exact Hm|]. intros b s' HQ. by wp_step. Qed.

Lemma protectable_covered a n s : protectable a n (space s) = true <-> covered a n (view s).
Proof.
  unfold protectable, covered. rewrite andb_true_iff, negb_true_iff, all_mapped_spec; [done|apply align_down_aligned|apply pages_of_bound].
Qed.

Lemma not_protectable a n s : protectable a n (space s) = false -> ~ covered a n (view s).
Proof. rewrite <- protectable_covered. by intros ->. Qed.

Lemma put_same (V : Pages) a v b : aligned a -> (if decide (align_down b = a) then v else V b) = put a v V b.
Proof. unfold put. by intros ->. Qed.

Lemma wp_run_op id rest held op s G T :
  rest_ok rest -> inv id rest s G T -> allowed held op s ->
  (forall f, 0 < held f -> 0 < rest f /\ role G !! f = Some (FrameBlock true)) ->
  wp (run_op op) (fun r s' => spec_op op r (view s) (view s') /\
    exists G' T', inv id rest s' G' T' /\ stable id rest s G s' G') s.
Proof.
  intros Hrest Hi Hal Hheld. pose proof (in_lookup _ _ _ _ _ Hi) as Hlk.
  assert (forall s' G' T', inv id rest s' G' T' -> stable id rest s G s' G' ->
    exists G' T', inv id rest s' G' T' /\ stable id rest s G s' G') as Hex by (intros; eauto).
  destruct op as [a prot|a f prot|a|a n prot|d l|a e|a n|]; cbn [run_op spec_op allowed] in *.
  - apply wp_as_number. eapply wp_vm_map_page; [done|done| |].
    { intros. split; [by left|by eapply Hex]. }
    intros s' G' T' Ha Hc Hi' Hst Hv. split; [right|by eapply Hex].
    split_and!; [done..|]. intros b. rewrite <- put_same, Hv by done.
    case_decide as E; [|done]. by rewrite <- E, view_align.
  - destruct (Hheld _ Hal). apply wp_as_number. eapply wp_vm_map_shared_frame; [done|done|done|done| |];
      intros; (split; [|by eapply Hex]); [by left|right].
    split_and!; [done..|]. intros b. by rewrite <- put_same.
  - apply wp_as_number. eapply wp_vm_unmap_page; [done|done| |]; intros.
    + split; [by left|]. eapply Hex; [done|apply stable_refl].
    + split; [right|by eapply Hex]. done.
  - apply wp_as_number. eapply wp_vm_protect; [done|done|]. intros s' Hi' Hst Hv. split; [|by eapply Hex].
    destruct (protectable a n (space s)) eqn:E; [right|left]; split_and!; try done.
    + by apply protectable_covered.
    + by apply not_protectable.
  - apply wp_as_number. eapply wp_copy_to; [done|done|done|done|].
    intros r m s' G' Hm Hr Hw Hi' Hst Hv. split; [|by eapply Hex]. exists m. split_and!; [done|done|].
    destruct r; [right|by left]. split_and!; [done|by apply Hr|by apply Hw].
  - eapply wp_vm_handle_page_fault; [done|done|..].
    { intros. split; [left; auto|by eapply Hex]. }
    { intros. split; [left; auto|by eapply Hex]. }
    intros s' G' T' Ha Hi' Hst Hv. split; [right|by eapply Hex].
    split_and!; [done|lia|lia|]. intros b. rewrite Hv. unfold put. case_decide as E; [|done].
    by rewrite <- (view_align s b), E, view_align.
  - apply wp_as_number. eapply wp_vm_mark_shared; [done|done|done|..].
    + intros Hp. split; [left; split_and!; [done|by apply not_protectable|done]|]. eapply Hex; [done|apply stable_refl].
    + intros s' G' Hp Hi' Hst Hv. split; [right|by eapply Hex]. split_and!; [done|by apply protectable_covered|].
      intros b. specialize (Hv b). unfold over. case_match; [|done]. destruct Hv as (v & v' & ? & ? & f & -> & _). eauto.
  - wp_step. eapply wp_vm_space_reset_user; [done|done|]. intros s' G' T' Hi' Hst Ep. wp_step. split; [|by eapply Hex].
    intros b. apply view_unmapped; [by eapply in_lookup|]. intros i p. by rewrite Ep.
Qed.

(** ** The system *)

Inductive vm_step : System -> System -> Prop :=
| step_op id op w held M sp r s' : M !! id = Some sp -> allowed held op (mkVm w sp) ->
    run_op op (mkVm w sp) = (r, s') ->
    vm_step (mkSystem w held M) (mkSystem (world s') held (<[id := space s']> M))
| step_create id w held M sp ok s' : M !! id = None -> (size M < SPACES_MAX)%nat ->
    vm_space_create (mkVm w sp) = (ok, s') ->
    vm_step (mkSystem w held M) (mkSystem (world s') held (if ok : bool then <[id := space s']> M else M))
| step_destroy id w held M sp s' : M !! id = Some sp -> vm_space_destroy (mkVm w sp) = (tt, s') ->
    vm_step (mkSystem w held M) (mkSystem (world s') held (delete id M))
| step_clone c d w held M sp destination ok w' dest' src' : M !! c = Some sp -> M !! d = None -> (size M < SPACES_MAX)%nat ->
    vm_space_clone_cow w destination sp = (ok, w', dest', src') ->
    vm_step (mkSystem w held M) (mkSystem w' held (if ok : bool then <[d := dest']> (<[c := src']> M) else <[c := src']> M))
| step_hold w held M f w' : vm_frame_create w = (f, w') ->
    vm_step (mkSystem w held M) (mkSystem w' (if f =? 0 then held else bump f held) M)
| step_retain f w held M w' : 0 < held f < 2 ^ 29 -> vm_frame_retain f w = (tt, w') ->
    vm_step (mkSystem w held M) (mkSystem w' (bump f held) M)
| step_let_go f w held M w' : 0 < held f -> vm_frame_release f w = (tt, w') ->
    vm_step (mkSystem w held M) (mkSystem w' (unbump f held) M)
| step_fill f l w held M : 0 < held f -> length l = Z.to_nat VM_PAGE_SIZE ->
    vm_step (mkSystem w held M) (mkSystem (with_contents f l w) held M).

(** The system before there is any process. *)
Definition boot_system w : System := mkSystem w (fun _ => 0) ∅.

Definition booted w : Prop := al_owns (vw_heap w) ∅ /\ vw_frames w = ∅ /\ boot_ok w.

Lemma booted_inv w : booted w -> sys_inv (mkGhost ∅ ∅) (boot_system w).
Proof.
  intros (Ho & Ef & Hb). split; cbn.
  - split; [by split| | | |done].
    + intros f fr. by rewrite Ef.
    + intros f. unfold others. rewrite refs_empty. lia.
    + intros f. unfold others. by rewrite refs_empty.
  - done.
  - intros f. split; [lia|lia].
  - rewrite map_size_empty. unfold SPACES_MAX. lia.
Qed.

Lemma held_rest G S f id : sys_inv G S -> 0 < sys_held S f ->
  0 < others (sys_held S) (delete id (sys_spaces S)) f /\ role G !! f = Some (FrameBlock true).
Proof.
  intros Hs Hf. split; [|by apply Hs]. unfold others. pose proof (refs_nonneg f (delete id (sys_spaces S))). lia.
Qed.

(** An operation in the system. *)
Lemma run_op_ok G S id sp op r s' :
  sys_inv G S -> sys_spaces S !! id = Some sp -> allowed (sys_held S) op (mkVm (sys_world S) sp) ->
  run_op op (mkVm (sys_world S) sp) = (r, s') ->
  spec_op op r (view (mkVm (sys_world S) sp)) (view s') /\
  exists G' T', inv id (others (sys_held S) (delete id (sys_spaces S))) s' G' T' /\
    stable id (others (sys_held S) (delete id (sys_spaces S))) (mkVm (sys_world S) sp) G s' G'.
Proof.
  intros Hs Hid Hal E. destruct (sy_space _ _ Hs _ _ Hid) as [T Hi].
  pose proof (wp_run_op id _ (sys_held S) op _ G T (small_ok _ (sys_small _ _ id Hs)) Hi Hal
    (fun f => held_rest G S f id Hs)) as Hwp. unfold wp in Hwp. by rewrite E in Hwp.
Qed.

Lemma op_bystander G S id sp s' G' id' sp' :
  sys_inv G S -> sys_spaces S !! id = Some sp ->
  stable id (others (sys_held S) (delete id (sys_spaces S))) (mkVm (sys_world S) sp) G s' G' ->
  id' <> id -> sys_spaces S !! id' = Some sp' ->
  bystander id' sp' G S G' (mkSystem (world s') (sys_held S) (<[id := space s']> (sys_spaces S))).
Proof.
  intros Hs Hid Hst Hne Hid'. apply (stable_bystander G S id sp s' G' _ id' sp' Hs Hid Hst Hne Hid'). intros f.
  rewrite delete_insert_ne by done. rewrite <- insert_delete_eq, refs_insert by apply lookup_delete_eq. lia.
Qed.

Lemma op_world held M id s' G' T' : inv id (others held (delete id M)) s' G' T' ->
  world_ok (world s') G' (others held (<[id := space s']> M)).
Proof.
  intros Hi. eapply world_ok_ext; [|exact (in_world _ _ _ _ _ Hi)]. intros f.
  rewrite (others_delete _ (<[id := space s']> M) id (space s')), delete_insert_eq by apply lookup_insert_eq. done.
Qed.

Lemma op_inv G S id sp s' G' T' : sys_inv G S -> sys_spaces S !! id = Some sp ->
  inv id (others (sys_held S) (delete id (sys_spaces S))) s' G' T' ->
  stable id (others (sys_held S) (delete id (sys_spaces S))) (mkVm (sys_world S) sp) G s' G' ->
  sys_inv G' (mkSystem (world s') (sys_held S) (<[id := space s']> (sys_spaces S))).
Proof.
  intros Hs Hid Hi Hst. apply (system_step G S G'); [done|exact (op_world _ _ _ _ _ _ Hi)| |exact (held_stable _ _ _ _ _ _ Hs Hid Hst)|]; cbn [sys_world sys_held sys_spaces].
  - intros id' sp'. rewrite lookup_insert_Some. intros [[<- <-]|[Hne Hid']].
    + left. exists T'. rewrite delete_insert_eq. by destruct s'.
    + right. split; [done|]. exact (op_bystander _ _ _ _ _ _ _ _ Hs Hid Hst (not_eq_sym Hne) Hid').
  - rewrite map_size_insert_Some by eauto. apply Hs.
Qed.

Lemma heap_undisturbed id w G sp h : undisturbed id w G sp (with_vm_heap h w) G.
Proof. split; [|done]. intros i p fr _ Hf. exists (references fr). split; [by destruct fr|done]. Qed.

(** Nobody holds more private frames than before. *)
Lemma quiet_bystander G S G' S' id sp : undisturbed id (sys_world S) G sp (sys_world S') G' ->
  (forall f, role G !! f = Some (FrameBlock false) ->
     others (sys_held S') (delete id (sys_spaces S')) f = others (sys_held S) (delete id (sys_spaces S)) f) ->
  bystander id sp G S G' S'.
Proof. intros Hu Ho. split; [done|]. intros f Hf _. by rewrite Ho. Qed.

Lemma uses_none f sp : pages sp = ∅ -> uses f sp = 0.
Proof. intros E. unfold uses. by rewrite E. Qed.

Lemma refs_insert_none f id sp M : M !! id = None -> pages sp = ∅ -> refs f (<[id := sp]> M) = refs f M.
Proof. intros Hid E. rewrite refs_insert by done. by rewrite (uses_none _ _ E). Qed.

(** What a new space is. *)
Lemma create_step G S id sp ok s' :
  sys_inv G S -> sys_spaces S !! id = None -> (size (sys_spaces S) < SPACES_MAX)%nat ->
  vm_space_create (mkVm (sys_world S) sp) = (ok, s') ->
  exists G', sys_inv G' (mkSystem (world s') (sys_held S) (if ok : bool then <[id := space s']> (sys_spaces S) else sys_spaces S)).
Proof.
  intros Hs Hid Hsz E.
  assert (rest_ok (others (sys_held S) (sys_spaces S))) as Hrest.
  { rewrite <- (delete_id (sys_spaces S) id) by done. by eapply small_ok, sys_small. }
  assert (wp vm_space_create (fun ok s' => exists G', sys_inv G' (mkSystem (world s') (sys_held S)
    (if ok : bool then <[id := space s']> (sys_spaces S) else sys_spaces S))) (mkVm (sys_world S) sp)) as Hwp;
    [|unfold wp in Hwp; by rewrite E in Hwp].
  apply (wp_vm_space_create id _ _ G sp _ Hrest (sy_world _ _ Hs)).
  - intros h Hw. exists G. apply (system_step G S G); [done|exact Hw| |apply Hs|apply Hs].
    cbn [sys_world sys_held sys_spaces world]. intros id' sp' Hid'. right. split; [done|].
    apply quiet_bystander; [apply heap_undisturbed|done].
  - intros s1 G1 T1 Hi Hk Ep. exists G1.
    apply (system_step G S G1); [done| | | |]; cbn [sys_world sys_held sys_spaces].
    + apply (op_world _ _ id s1 G1 T1). by rewrite delete_id.
    + intros id' sp'. rewrite lookup_insert_Some. intros [[<- <-]|[Hne Hid']].
      * left. exists T1. rewrite delete_insert_id by done. by destruct s1.
      * right. split; [done|]. apply quiet_bystander; cbn [sys_world sys_held sys_spaces].
        -- exact (keeps_undisturbed id' id _ _ _ _ sp' (not_eq_sym Hne) Hk).
        -- intros f _. unfold others. rewrite delete_insert_ne by done. rewrite refs_insert_none; [done| |done].
           by rewrite lookup_delete_ne.
    + intros f. destruct (sy_held _ _ Hs f) as [Hb Hr]. split; [done|]. intros Hf.
      destruct (wo_held _ _ _ (sy_world _ _ Hs) f) as [fr Hfr].
      { unfold others. pose proof (refs_nonneg f (sys_spaces S)). lia. }
      destruct (kp_frame _ _ _ _ _ Hk _ _ Hfr) as (_ & _ & -> & _). by apply Hr.
    + rewrite map_size_insert_None by done. lia.
Qed.

Lemma destroy_step G S id sp s' :
  sys_inv G S -> sys_spaces S !! id = Some sp -> vm_space_destroy (mkVm (sys_world S) sp) = (tt, s') ->
  exists G', stable id (others (sys_held S) (delete id (sys_spaces S))) (mkVm (sys_world S) sp) G s' G' /\
    sys_inv G' (mkSystem (world s') (sys_held S) (delete id (sys_spaces S))).
Proof.
  intros Hs Hid E. destruct (sy_space _ _ Hs _ _ Hid) as [T Hi]. set (rest := others _ _) in *.
  assert (wp vm_space_destroy (fun _ s' => exists G', stable id rest (mkVm (sys_world S) sp) G s' G' /\
    sys_inv G' (mkSystem (world s') (sys_held S) (delete id (sys_spaces S)))) (mkVm (sys_world S) sp)) as Hwp;
    [|unfold wp in Hwp; by rewrite E in Hwp].
  apply (wp_vm_space_destroy id _ _ _ _ _ (small_ok _ (sys_small _ _ id Hs)) Hi). intros w' G' Hw Hst. exists G'.
  split; [done|]. apply (system_step G S G'); [done|exact Hw| |exact (held_stable _ _ _ _ _ _ Hs Hid Hst)|];
    cbn [sys_world sys_held sys_spaces].
  - intros id' sp' [Hne Hid']%lookup_delete_Some. right. split; [done|].
    apply (stable_bystander G S id sp _ G' _ id' sp' Hs Hid Hst (not_eq_sym Hne) Hid'). intros f. cbn [space].
    rewrite delete_delete, uses_none by done. done.
  - rewrite map_size_delete_Some by eauto. pose proof (sy_size _ _ Hs). lia.
Qed.

(** ** Cloning *)

Lemma kept_undisturbed c d rest w G w' G' id sp : id <> c -> id <> d -> kept c d rest w G w' G' ->
  (forall i p, pages sp !! i = Some p -> 0 < rest (frame p)) ->
  (forall i p, pages sp !! i = Some p -> role G !! frame p = Some (FrameBlock (shared p))) -> undisturbed id w G sp w' G'.
Proof.
  intros Hc Hd [F B] Hr Hro. split.
  - intros i p fr Hp Hf. destruct (F _ _ (Hr _ _ Hp) Hf) as (n & ? & ? & Hdt). exists n. split_and!; [done..|].
    intros E. apply Hdt. by rewrite (Hro _ _ Hp), E.
  - intros p k. by apply B.
Qed.

Lemma inv_ext id rest rest' s G T : (forall f, rest f = rest' f) -> inv id rest s G T -> inv id rest' s G T.
Proof.
  intros E [Ht [Hlk R P C]].
  assert (forall f, total rest (space s) f = total rest' (space s) f) as Et by (intros f; unfold total; by rewrite E).
  split; [by eapply tinv_ext|]. split; [done|done| |done]. intros i p Hp ? ? ?. rewrite <- Et. by eapply P.
Qed.

(** A third space while [c] is cloned to [d]. *)
Lemma clone_bystander G S c d sp w' G' M' id' sp' :
  sys_inv G S -> sys_spaces S !! c = Some sp ->
  kept c d (others (sys_held S) (delete c (sys_spaces S))) (sys_world S) G w' G' ->
  id' <> c -> id' <> d -> sys_spaces S !! id' = Some sp' ->
  (forall f, uses f sp = 0 -> refs f (delete id' M') = refs f (delete c (delete id' (sys_spaces S)))) ->
  bystander id' sp' G S G' (mkSystem w' (sys_held S) M').
Proof.
  intros Hs Hid Hk Hc Hd Hid' Hle.
  assert (delete c (sys_spaces S) !! id' = Some sp') as Hdl by (by rewrite lookup_delete_ne).
  assert (delete id' (sys_spaces S) !! c = Some sp) as Hdl' by (by rewrite lookup_delete_ne).
  destruct (sy_space _ _ Hs _ _ Hid') as [T Hi]. split; cbn [sys_world sys_held sys_spaces].
  - eapply kept_undisturbed; [exact Hc|exact Hd|exact Hk| |apply Hi]. intros i p Hp.
    rewrite (others_delete _ _ _ _ _ Hdl). unfold total. pose proof (count_pos _ _ _ Hp).
    pose proof (others_nonneg _ _ (delete id' (delete c (sys_spaces S))) (frame p) (sy_held _ _ Hs)). unfold uses. lia.
  - intros f _ _. rewrite (others_delete _ _ _ _ _ Hdl'). unfold total. intros H0.
    pose proof (others_nonneg _ _ (delete c (delete id' (sys_spaces S))) f (sy_held _ _ Hs)) as Hn.
    pose proof (count_nonneg f (pages sp)). unfold others, uses in *. rewrite Hle; lia.
Qed.

Lemma held_kept G S c d sp w' G' : sys_inv G S -> sys_spaces S !! c = Some sp ->
  kept c d (others (sys_held S) (delete c (sys_spaces S))) (sys_world S) G w' G' -> held_ok (sys_held S) G'.
Proof.
  intros Hs Hid Hk f. destruct (sy_held _ _ Hs f) as [Hh Hr]. split; [done|]. intros Hpos.
  pose proof (refs_nonneg f (delete c (sys_spaces S))). pose proof (refs_nonneg f (sys_spaces S)).
  destruct (wo_held _ _ _ (sy_world _ _ Hs) f) as [fr Hfr]; [unfold others; lia|].
  destruct (ke_frame _ _ _ _ _ _ _ Hk f fr) as (_ & _ & -> & _); [unfold others; lia|done|by apply Hr].
Qed.

Lemma refs_clone M c sp src' id' f : (forall g, uses g src' = uses g sp) -> id' <> c -> uses f sp = 0 ->
  refs f (delete id' (<[c := src']> M)) = refs f (delete c (delete id' M)).
Proof.
  intros Hu Hne Hf. rewrite delete_insert_ne by done. rewrite <- insert_delete_eq, refs_insert by apply lookup_delete_eq.
  rewrite Hu, Hf. lia.
Qed.

(** The spaces once [c] has been cloned to [d], or not. *)
Definition clone_spaces (ok : bool) (c d : nat) (src' dest' : VmSpace) M : gmap nat VmSpace :=
  if ok then <[d := dest']> (<[c := src']> M) else <[c := src']> M.

Lemma cloned_bystander G S c d sp w' G' ok dest' src' id' sp' :
  sys_inv G S -> sys_spaces S !! c = Some sp -> sys_spaces S !! d = None ->
  kept c d (others (sys_held S) (delete c (sys_spaces S))) (sys_world S) G w' G' ->
  (forall g, uses g src' = uses g sp) -> (ok = true -> forall g, uses g sp = 0 -> uses g dest' = 0) ->
  id' <> c -> sys_spaces S !! id' = Some sp' ->
  bystander id' sp' G S G' (mkSystem w' (sys_held S) (clone_spaces ok c d src' dest' (sys_spaces S))).
Proof.
  intros Hs Hc Hd Hk Hu Hz Hne Hid'. assert (id' <> d) as Hned by congruence. assert (c <> d) as Hcd by congruence.
  apply (clone_bystander G S c d sp w' G' _ id' sp' Hs Hc Hk Hne Hned Hid'). intros f Hf.
  rewrite <- (refs_clone _ c sp src' id') by done. unfold clone_spaces. destruct ok; [|done].
  rewrite (delete_insert_ne _ _ d) by done. rewrite refs_insert by (by rewrite lookup_delete_ne, lookup_insert_ne). by rewrite Hz.
Qed.

Lemma clone_made G S c d sp w' G' dest' src' Td Ts :
  sys_inv G S -> sys_spaces S !! c = Some sp -> sys_spaces S !! d = None -> (size (sys_spaces S) < SPACES_MAX)%nat ->
  kept c d (others (sys_held S) (delete c (sys_spaces S))) (sys_world S) G w' G' ->
  both c d (others (sys_held S) (delete c (sys_spaces S))) w' G' dest' Td src' Ts ->
  (forall g, uses g src' = uses g sp) -> (forall g, uses g sp = 0 -> uses g dest' = 0) ->
  sys_inv G' (mkSystem w' (sys_held S) (clone_spaces true c d src' dest' (sys_spaces S))).
Proof.
  intros Hs Hc Hd Hsz Hk [Bd Bs] Hu Hz. assert (c <> d) as Hcd by congruence.
  assert (<[c := src']> (sys_spaces S) !! d = None) as Hd' by (by rewrite lookup_insert_ne).
  apply (system_step G S G'); [done| | |exact (held_kept _ _ _ _ _ _ _ Hs Hc Hk)|]; cbn [sys_world sys_held sys_spaces clone_spaces].
  - eapply world_ok_ext; [|exact (in_world _ _ _ _ _ Bd)]. intros f. unfold total, plus, others. cbn [space].
    rewrite refs_insert, <- insert_delete_eq, refs_insert by (done || apply lookup_delete_eq). lia.
  - intros id' sp'. rewrite !lookup_insert_Some. intros [[<- <-]|[Hne [[<- <-]|[Hne' Hid']]]]; [left|left|right].
    + exists Td. eapply inv_ext; [|exact Bd]. intros f. unfold plus, others.
      rewrite delete_insert_id by done. rewrite <- insert_delete_eq, refs_insert by apply lookup_delete_eq. lia.
    + exists Ts. eapply inv_ext; [|exact Bs]. intros f. unfold plus, others.
      rewrite delete_insert_ne, delete_insert_eq by done. rewrite refs_insert by (by rewrite lookup_delete_ne). lia.
    + split; [done|].
      exact (cloned_bystander G S c d sp w' G' true dest' src' id' sp' Hs Hc Hd Hk Hu (fun _ => Hz) (not_eq_sym Hne') Hid').
  - rewrite map_size_insert_None by done. rewrite map_size_insert_Some by eauto. lia.
Qed.

Lemma clone_failed G S c d sp w' G' src' dest' Ts :
  sys_inv G S -> sys_spaces S !! c = Some sp -> sys_spaces S !! d = None ->
  kept c d (others (sys_held S) (delete c (sys_spaces S))) (sys_world S) G w' G' ->
  inv c (others (sys_held S) (delete c (sys_spaces S))) (mkVm w' src') G' Ts -> (forall g, uses g src' = uses g sp) ->
  sys_inv G' (mkSystem w' (sys_held S) (clone_spaces false c d src' dest' (sys_spaces S))).
Proof.
  intros Hs Hc Hd Hk Hi Hu.
  apply (system_step G S G'); [done|exact (op_world _ _ _ _ _ _ Hi)| |exact (held_kept _ _ _ _ _ _ _ Hs Hc Hk)|];
    cbn [sys_world sys_held sys_spaces clone_spaces].
  - intros id' sp'. rewrite lookup_insert_Some. intros [[<- <-]|[Hne Hid']]; [left|right].
    + exists Ts. by rewrite delete_insert_eq.
    + split; [done|].
      exact (cloned_bystander G S c d sp w' G' false dest' src' id' sp' Hs Hc Hd Hk Hu ltac:(done) (not_eq_sym Hne) Hid').
  - rewrite map_size_insert_Some by eauto. apply Hs.
Qed.

(** The spaces after a clone, and what their owners see. *)
Lemma clone_step G S c d sp destination ok w' dest' src' :
  sys_inv G S -> sys_spaces S !! c = Some sp -> sys_spaces S !! d = None -> (size (sys_spaces S) < SPACES_MAX)%nat ->
  vm_space_clone_cow (sys_world S) destination sp = (ok, w', dest', src') ->
  (forall b, view (mkVm w' src') b = view (mkVm (sys_world S) sp) b) /\
  (if ok : bool then forall b, view (mkVm w' dest') b = view (mkVm (sys_world S) sp) b else dest' = zero_space) /\
  exists G', (forall id' sp', id' <> c -> sys_spaces S !! id' = Some sp' ->
      bystander id' sp' G S G' (mkSystem w' (sys_held S) (clone_spaces ok c d src' dest' (sys_spaces S)))) /\
    sys_inv G' (mkSystem w' (sys_held S) (clone_spaces ok c d src' dest' (sys_spaces S))).
Proof.
  intros Hs Hc Hd Hsz E. assert (c <> d) as Hcd by congruence. destruct (sy_space _ _ Hs _ _ Hc) as [Ts Hi].
  pose proof (clone_cow_ok c d _ _ G destination sp Ts Hcd (sys_small _ _ c Hs) Hi) as Hcl. rewrite E in Hcl.
  destruct Hcl as (Hv & Hu & G' & Hk & Hok). split; [done|]. destruct ok.
  - destruct Hok as ([Td Hb] & Hz & Hvd). split; [done|]. exists G'. split.
    + intros id' sp' Hne Hid'. exact (cloned_bystander G S c d sp w' G' true dest' src' id' sp' Hs Hc Hd Hk Hu (fun _ => Hz) Hne Hid').
    + exact (clone_made G S c d sp w' G' dest' src' Td Ts Hs Hc Hd Hsz Hk Hb Hu Hz).
  - destruct Hok as [-> Hi']. split; [done|]. exists G'. split.
    + intros id' sp' Hne Hid'. exact (cloned_bystander G S c d sp w' G' false zero_space src' id' sp' Hs Hc Hd Hk Hu ltac:(done) Hne Hid').
    + exact (clone_failed G S c d sp w' G' src' zero_space Ts Hs Hc Hd Hk Hi' Hu).
Qed.

(** ** Frames of kernel objects *)

Lemma frame_step G S G' w' held' :
  sys_inv G S -> world_ok w' G' (others held' (sys_spaces S)) -> held_ok held' G' ->
  (forall id sp, sys_spaces S !! id = Some sp -> undisturbed id (sys_world S) G sp w' G') ->
  (forall f fr, vw_frames (sys_world S) !! f = Some fr -> role G !! f = Some (FrameBlock false) -> held' f = sys_held S f) ->
  sys_inv G' (mkSystem w' held' (sys_spaces S)).
Proof.
  intros Hs Hw Hh Hu He. apply (system_step G S G'); [done|done| |done|apply Hs]; cbn [sys_world sys_held sys_spaces].
  intros id sp Hid. right. split; [done|]. split; cbn [sys_world sys_held sys_spaces]; [by apply Hu|].
  intros f Hf H1. destruct (wo_held _ _ _ (sy_world _ _ Hs) f) as [fr Hfr].
  { pose proof (uses_refs f _ _ _ Hid). destruct (sy_held _ _ Hs f). unfold others. lia. }
  unfold others. by rewrite (He _ _ Hfr).
Qed.

(** A frame that a space refers to. *)
Lemma sys_frame G S id sp i p : sys_inv G S -> sys_spaces S !! id = Some sp -> pages sp !! i = Some p ->
  (exists fr, vw_frames (sys_world S) !! frame p = Some fr) /\ role G !! frame p = Some (FrameBlock (shared p)).
Proof.
  intros Hs Hid Hp. destruct (sy_space _ _ Hs _ _ Hid) as [T Hi]. split; [|exact (so_role _ _ _ (in_space _ _ _ _ _ Hi) _ _ Hp)].
  exact (in_frame _ _ _ _ _ _ _ (small_ok _ (sys_small _ _ id Hs)) Hi Hp).
Qed.

Lemma undisturbed_role id w G sp w' G' f b r : undisturbed id w G sp w' G' -> vw_frames w !! f = None ->
  role G' !! f = Some (FrameBlock b) -> undisturbed id w G sp w' (set_role f r G').
Proof.
  intros [F B] Hf Hr. split.
  - intros i p fr Hp Hfr. cbn. rewrite lookup_insert_ne by congruence. by eapply F.
  - intros p k Hp Hk. destruct (B _ _ Hp Hk) as (? & ? & ?). cbn. rewrite lookup_insert_ne by congruence. done.
Qed.

Lemma hold_step G S f w' : sys_inv G S -> vm_frame_create (sys_world S) = (f, w') ->
  exists G', sys_inv G' (mkSystem w' (if f =? 0 then sys_held S else bump f (sys_held S)) (sys_spaces S)).
Proof.
  intros Hs E. assert (wp vm_frame_create (fun f w' => exists G', sys_inv G' (mkSystem w'
    (if f =? 0 then sys_held S else bump f (sys_held S)) (sys_spaces S))) (sys_world S)) as Hwp;
    [|unfold wp in Hwp; by rewrite E in Hwp].
  apply (wp_vm_frame_create _ G _ _ (sy_world _ _ Hs)).
  - intros h Hw. exists G. apply (frame_step G S G); [done|exact Hw|apply Hs| |done].
    intros id sp _. apply heap_undisturbed.
  - intros g w1 G1 Hc Hw1. rewrite (proj2 (Z.eqb_neq _ _) (cr_nonzero _ _ _ _ _ Hc)).
    pose proof (cr_fresh _ _ _ _ _ Hc) as Hnew. pose proof (cr_private _ _ _ _ _ Hc) as Hp.
    exists (set_role g (FrameBlock true) G1). apply (frame_step G S); [done| | | |].
    + eapply set_role_ok; [|exact Hp]. eapply world_ok_ext; [|exact Hw1]. intros f'. unfold bump, others. lia.
    + intros f'. destruct (sy_held _ _ Hs f') as [Hb Hr]. pose proof (zero_unheld _ _ _ _ (sy_world _ _ Hs) Hnew) as Hz.
      pose proof (refs_nonneg g (sys_spaces S)). destruct (sy_held _ _ Hs g) as [Hbg _].
      unfold bump, others in *. case_decide as Ef; cbn.
      * subst. rewrite lookup_insert_eq. split; [lia|done].
      * rewrite lookup_insert_ne by done. split; [lia|]. intros Hf. eapply cr_role; [exact Hc|]. apply Hr. lia.
    + intros id sp _. eapply undisturbed_role; [|done|exact Hp].
      exact (keeps_undisturbed id (Datatypes.S id) (mkVm (sys_world S) sp) G _ G1 sp ltac:(lia)
        (created_keeps _ (mkVm (sys_world S) sp) G g w1 G1 _ (sy_world _ _ Hs) Hc)).
    + intros f' fr Hf _. unfold bump. rewrite decide_False by congruence. lia.
Qed.

Lemma with_count_undisturbed id w G sp f fr n : vw_frames w !! f = Some fr -> undisturbed id w G sp (with_count f n w) G.
Proof.
  intros Hf. split; [|done]. intros i p gr _ Hg. cbn. destruct (decide (f = frame p)) as [->|Hne].
  - rewrite lookup_insert_eq, (frame_at_eq _ _ _ Hg). eauto.
  - rewrite lookup_insert_ne by done. exists (references gr). split; [rewrite Hg; by destruct gr|done].
Qed.

(** The frame that a kernel object holds. *)
Lemma held_frame G S f : sys_inv G S -> 0 < sys_held S f ->
  (exists fr, vw_frames (sys_world S) !! f = Some fr) /\ role G !! f = Some (FrameBlock true).
Proof.
  intros Hs Hf. split; [|by apply Hs]. apply (wo_held _ _ _ (sy_world _ _ Hs)). unfold others.
  pose proof (refs_nonneg f (sys_spaces S)). lia.
Qed.

Lemma retain_step G S f w' : sys_inv G S -> 0 < sys_held S f < 2 ^ 29 -> vm_frame_retain f (sys_world S) = (tt, w') ->
  sys_inv G (mkSystem w' (bump f (sys_held S)) (sys_spaces S)).
Proof.
  intros Hs Hf E. destruct (held_frame G S f Hs) as [[fr Hfr] Hr]; [lia|].
  assert (wp (vm_frame_retain f) (fun _ w' => sys_inv G (mkSystem w' (bump f (sys_held S)) (sys_spaces S))) (sys_world S)) as Hwp;
    [|unfold wp in Hwp; by rewrite E in Hwp].
  apply (wp_vm_frame_retain _ G _ f fr _ (sy_world _ _ Hs) Hfr).
  - pose proof (others_small _ _ _ (sy_held _ _ Hs) (fun id sp => sys_lookup G S id sp Hs) (sy_size _ _ Hs) f). lia.
  - intros Hw. apply (frame_step G S G); [done| | | |].
    + eapply world_ok_ext; [|exact Hw]. intros g. unfold bump, others. lia.
    + intros g. destruct (sy_held _ _ Hs g) as [Hb Hrg]. unfold bump. case_decide as Eg; [subst; split; [lia|done]|].
      split; [lia|]. intros ?. apply Hrg. lia.
    + intros id sp _. by eapply with_count_undisturbed.
    + intros g gr _ Hg. unfold bump. rewrite decide_False by congruence. lia.
Qed.

Lemma without_undisturbed G S id sp f fr h : sys_inv G S -> sys_spaces S !! id = Some sp ->
  vw_frames (sys_world S) !! f = Some fr -> uses f sp = 0 ->
  undisturbed id (sys_world S) G sp (without_frame f h (sys_world S)) (drop_block f (drop_block (allocation fr) G)).
Proof.
  intros Hs Hid Hf Hu. pose proof (sy_world _ _ Hs) as Hw. pose proof (wo_frame _ _ _ Hw _ _ Hf) as [_ [b Hb] Hpg _ _ _ _ _].
  split.
  - intros i p gr Hp Hg. destruct (sys_frame _ _ _ _ _ _ Hs Hid Hp) as [_ Hro].
    assert (frame p <> f) as Hne by (intros E; pose proof (count_pos _ _ _ Hp); rewrite E in *; unfold uses in Hu; lia).
    exists (references gr). cbn. rewrite !lookup_delete_ne by congruence.
    split_and!; [rewrite Hg; by destruct gr|done|]. intros _. unfold data_at. cbn.
    rewrite (frame_at_eq _ _ _ Hf), lookup_delete_ne; [done|]. intros E. by apply Hne, (data_inj _ _ _ _ _ _ _ Hw Hg Hf).
  - intros p k Hp Hk. cbn. by rewrite !lookup_delete_ne by congruence.
Qed.

Lemma let_go_step G S f w' : sys_inv G S -> 0 < sys_held S f -> vm_frame_release f (sys_world S) = (tt, w') ->
  exists G', sys_inv G' (mkSystem w' (unbump f (sys_held S)) (sys_spaces S)).
Proof.
  intros Hs Hf E. destruct (held_frame G S f Hs Hf) as [[fr Hfr] Hr].
  assert (wp (vm_frame_release f) (fun _ w' => exists G', sys_inv G' (mkSystem w' (unbump f (sys_held S)) (sys_spaces S))) (sys_world S)) as Hwp;
    [|unfold wp in Hwp; by rewrite E in Hwp].
  assert (forall g gr, vw_frames (sys_world S) !! g = Some gr -> role G !! g = Some (FrameBlock false) ->
    unbump f (sys_held S) g = sys_held S g) as Hsame.
  { intros g gr _ Hg. unfold unbump. rewrite decide_False by congruence. lia. }
  apply (wp_vm_frame_release _ G _ f fr _ (sy_world _ _ Hs) Hfr).
  - intros H1 Hw. exists G. apply (frame_step G S G); [done| | | |done].
    + eapply world_ok_ext; [|exact Hw]. intros g. unfold unbump, others. lia.
    + intros g. destruct (sy_held _ _ Hs g) as [Hb Hrg]. unfold unbump. case_decide as Eg; [subst; split; [lia|done]|].
      split; [lia|]. intros ?. apply Hrg. lia.
    + intros id sp _. by eapply with_count_undisturbed.
  - intros h H1 Hw. eexists. apply (frame_step G S _); [done| | | |done].
    + eapply world_ok_ext; [|exact Hw]. intros g. unfold unbump, others. lia.
    + pose proof (wo_frame _ _ _ (sy_world _ _ Hs) _ _ Hfr) as [_ _ Hpg _ _ _ _ _].
      pose proof (refs_nonneg f (sys_spaces S)). intros g. destruct (sy_held _ _ Hs g) as [Hb Hrg].
      unfold unbump, others in *. case_decide as Eg; [subst; split; [lia|lia]|].
      split; [lia|]. intros Hg. rewrite Z.sub_0_r in Hg. specialize (Hrg Hg). cbn. by rewrite !lookup_delete_ne by congruence.
    + intros id sp Hid. apply without_undisturbed; [done..|]. pose proof (uses_refs f _ _ _ Hid).
      pose proof (count_nonneg f (pages sp)). unfold others, uses in *. lia.
Qed.

Lemma fill_step G S f l : sys_inv G S -> 0 < sys_held S f -> length l = Z.to_nat VM_PAGE_SIZE ->
  sys_inv G (mkSystem (with_contents f l (sys_world S)) (sys_held S) (sys_spaces S)).
Proof.
  intros Hs Hf Hl. destruct (held_frame G S f Hs Hf) as [[fr Hfr] Hr].
  apply (frame_step G S G); [done| |apply Hs| |done].
  - apply with_contents_ok; [apply Hs|done].
  - intros id sp Hid. split; [|done]. intros i p gr Hp Hg. exists (references gr).
    split_and!; [cbn; rewrite Hg; by destruct gr|done|]. intros Hsh.
    destruct (sys_frame _ _ _ _ _ _ Hs Hid Hp) as [_ Hro]. rewrite Hsh in Hro.
    unfold data_at. cbn. rewrite (frame_at_eq _ _ _ Hfr), lookup_insert_ne; [done|].
    intros Ed. pose proof (data_inj _ _ _ _ _ _ _ (sy_world _ _ Hs) Hg Hfr (eq_sym Ed)). congruence.
Qed.

(** ** All steps *)

Lemma vm_step_inv S S' : vm_step S S' -> sys_ok S -> sys_ok S'.
Proof.
  intros Hst [G Hs]. destruct Hst as [id op w held M sp r s' Hid Hal E|id w held M sp ok s' Hid Hsz E|id w held M sp s' Hid E|
    c d w held M sp dest ok w' dest' src' Hc Hd Hsz E|w held M f w' E|f w held M w' Hf E|f w held M w' Hf E|f l w held M Hf Hl].
  - destruct (run_op_ok _ _ _ _ _ _ _ Hs Hid Hal E) as (_ & G' & T' & Hi & Hst). exists G'.
    exact (op_inv _ _ _ _ _ _ _ Hs Hid Hi Hst).
  - exact (create_step _ _ _ _ _ _ Hs Hid Hsz E).
  - destruct (destroy_step _ _ _ _ _ Hs Hid E) as (G' & _ & ?). by exists G'.
  - destruct (clone_step _ _ _ _ _ _ _ _ _ _ Hs Hc Hd Hsz E) as (_ & _ & G' & _ & ?). by exists G'.
  - exact (hold_step _ _ _ _ Hs E).
  - exists G. exact (retain_step _ _ _ _ Hs Hf E).
  - exact (let_go_step _ _ _ _ Hs Hf E).
  - exists G. exact (fill_step _ _ _ _ Hs Hf Hl).
Qed.

Lemma vm_reachable_ok w S : booted w -> rtc vm_step (boot_system w) S -> sys_ok S.
Proof.
  intros Hb Hr. assert (sys_ok (boot_system w)) as H0 by (eexists; by apply booted_inv).
  induction Hr as [|S1 S2 S3 H12 _ IH]; [done|]. by apply IH, (vm_step_inv S1).
Qed.

End steps.
