(* ===== verification/VmTheorems.v ===== *)
(** * What virtual memory promises

    The theorems hold in every state that vm.c leads to from the boot loader's tables and an
    empty kernel heap: the reference counts are exact, the processor sees what the records
    say, an operation does to the pages of its process what it should, and nothing to those
    of others, a clone shows what the original showed, and what was written is read back. *)

From S2P Require Import Prelude Heap HeapFacts Interfaces Ownership Vm VmLookup VmFrames VmTables VmSpaces VmOps VmCopy VmMap VmLife VmClone VmShare VmSystem VmSteps.

#[local] Opaque find_page.

(** The kernel after [heap_init], with the page tables of the boot loader. *)
Definition boot_world (h : Heap) (words : gmap Z Z) : VmWorld := mkWorld (heap_init h) ∅ ∅ words.

Definition reachable (S : @System Heap) : Prop :=
  exists h words, boot_ok (boot_world h words) /\ rtc vm_step (boot_system (boot_world h words)) S.

Lemma reachable_ok S : reachable S -> sys_ok S.
Proof. intros (h & words & Hb & Hr). eapply vm_reachable_ok; [|done]. split_and!; [apply heap_owns_init|done|done]. Qed.

Lemma reachable_step S S' : reachable S -> vm_step S S' -> reachable S'.
Proof. intros (h & words & Hb & Hr) Hst. exists h, words. split; [done|]. by eapply rtc_r. Qed.

(** ** A system with one process and one page *)

Definition demo_boot : @VmWorld Heap := boot_world (mkHeap 0 ∅) ∅.
Definition demo_new : bool * @VmState Heap := vm_space_create (mkVm demo_boot zero_space).
Definition demo_page : Z := 0x40000000.
Definition demo_run : Z * @VmState Heap := run_op (MapPage demo_page 3) demo_new.2.

Definition demo : @System Heap :=
  mkSystem (world demo_run.2) (fun _ => 0) (<[0%nat := space demo_run.2]> (<[0%nat := space demo_new.2]> ∅)).

Lemma demo_boot_ok : boot_ok demo_boot.
Proof. split; [done|]. intros i _. by left. Qed.

Lemma demo_reachable : reachable demo.
Proof.
  eapply reachable_step; [eapply (reachable_step (boot_system demo_boot))|].
  - exists (mkHeap 0 ∅), ∅. split; [exact demo_boot_ok|apply rtc_refl].
  - eapply (step_create 0%nat demo_boot (fun _ => 0) ∅ zero_space true demo_new.2); [done|rewrite map_size_empty; unfold SPACES_MAX; lia|].
    apply pair_fst. vm_compute. reflexivity.
  - apply (step_op 0%nat (MapPage demo_page 3) (world demo_new.2) (fun _ => 0) (<[0%nat := space demo_new.2]> ∅) (space demo_new.2) demo_run.1 demo_run.2);
      [apply lookup_insert_eq|done|]. unfold demo_run. destruct demo_new as [? []]. cbn. apply surjective_pairing.
Qed.

(** ** Reference counts *)

(** [C11] The number of references in a frame is the number of its holders; every page that a
    process has refers to a frame that exists; a private page (one that is not shared) that may be written in
    place, without a copy first, belongs to nobody else, while a shared page may have many holders; and the pages of different frames do not overlap. *)
Theorem vm_counts (S : @System Heap) : reachable S ->
  (forall f fr, vw_frames (sys_world S) !! f = Some fr ->
     references fr = sys_held S f + refs f (sys_spaces S) /\ 0 < references fr < 2 ^ 32) /\
  (forall id sp i p, sys_spaces S !! id = Some sp -> pages sp !! i = Some p ->
     is_Some (vw_frames (sys_world S) !! frame p) /\
     (shared p = false -> has (protection p) VM_PROT_WRITE = true -> copy_on_write p = false ->
        references (frame_at (sys_world S) (frame p)) = 1)) /\
  (forall f fr g gr, vw_frames (sys_world S) !! f = Some fr -> vw_frames (sys_world S) !! g = Some gr -> f <> g ->
     data fr + VM_PAGE_SIZE <= data gr \/ data gr + VM_PAGE_SIZE <= data fr).
Proof.
  intros [G Hs]%reachable_ok. pose proof (sy_world _ _ Hs) as Hw. split_and!.
  - intros f fr Hf. destruct (wo_frame _ _ _ Hw _ _ Hf) as [_ _ _ _ _ -> Hb _]. done.
  - intros id sp i p Hid Hp. destruct (sys_frame _ _ _ _ _ _ Hs Hid Hp) as [[fr Hf] _]. split; [by exists fr|].
    intros H1 H2 H3. rewrite (frame_at_eq _ _ _ Hf). destruct (wo_frame _ _ _ Hw _ _ Hf) as [_ _ _ _ _ -> _ _].
    destruct (sy_space _ _ Hs _ _ Hid) as [T Hi]. rewrite (others_delete _ _ _ _ _ Hid).
    exact (so_private _ _ _ (in_space _ _ _ _ _ Hi) _ _ Hp H1 H2 H3).
  - intros f fr g gr Hf Hg Hne. destruct (wo_frame _ _ _ Hw _ _ Hf) as [_ _ Pf If _ _ _ _].
    destruct (wo_frame _ _ _ Hw _ _ Hg) as [_ _ Pg Ig _ _ _ _].
    assert (allocation fr <> allocation gr) as Ha by congruence.
    exact (inside_disjoint _ _ _ _ _ _ _ _ (wo_owned _ _ _ Hw) Ha If Ig).
Qed.

Lemma vm_counts_witness : reachable demo /\
  forall f fr, vw_frames (sys_world demo) !! f = Some fr -> references fr = sys_held demo f + refs f (sys_spaces demo).
Proof. split; [exact demo_reachable|]. intros f fr Hf. exact (proj1 (proj1 (vm_counts demo demo_reachable) f fr Hf)). Defined.

(** ** The processor's view *)

(** [C9] Translating any user address through the page tables, as the processor does, gives the
    page, the right to write and the right to execute that the records of the process say,
    and nothing where they say nothing.  (A page that is mapped can always be read: [page_flags]
    does not look at the right to read.) *)
Theorem vm_mmu (S : @System Heap) id sp a : reachable S -> sys_spaces S !! id = Some sp -> 0 <= a < 2 ^ 48 ->
  mmu_walk (sys_world S) (pml4 sp) a =
    match find_page a sp with Some i => Some (page_view (sys_world S) (page_at sp i)) | None => None end.
Proof.
  intros [G Hs]%reachable_ok Hid Ha. destruct (sy_space _ _ Hs _ _ Hid) as [T Hi].
  apply (mmu_agrees id _ (mkVm (sys_world S) sp) G T a (in_tables _ _ _ _ _ Hi) (in_lookup _ _ _ _ _ Hi)); [|done].
  intros i p Hp. by destruct (sys_frame _ _ _ _ _ _ Hs Hid Hp) as [[fr Hf] _]; exists fr.
Qed.

Lemma vm_mmu_witness : exists d,
  mmu_walk (sys_world demo) (pml4 (space demo_run.2)) (demo_page + 7) = Some (d, true, false).
Proof.
  rewrite (vm_mmu demo 0%nat (space demo_run.2) (demo_page + 7) demo_reachable); [|apply lookup_insert_eq|unfold demo_page; lia].
  eexists. vm_compute. reflexivity.
Defined.

(** ** The operations *)


Definition demo_state : @VmState Heap := mkVm (sys_world demo) (space demo_run.2).


(** [C10] What a process does, within what [allowed] says, or that it ends, changes nothing of the address space of another
    one: not which addresses are mapped, not the rights of any page, not the contents of a private page, and not the
    frame behind a shared page.  The contents of a shared page are not part of it: they are for all that map it to change. *)
Theorem vm_isolation (S : @System Heap) id sp id' sp' :
  reachable S -> sys_spaces S !! id = Some sp -> sys_spaces S !! id' = Some sp' -> id' <> id ->
  (forall op r s', allowed (sys_held S) op (mkVm (sys_world S) sp) -> run_op op (mkVm (sys_world S) sp) = (r, s') ->
     forall b, view (mkVm (world s') sp') b = view (mkVm (sys_world S) sp') b) /\
  (forall s', vm_space_destroy (mkVm (sys_world S) sp) = (tt, s') ->
     forall b, view (mkVm (world s') sp') b = view (mkVm (sys_world S) sp') b).
Proof.
  intros [G Hs]%reachable_ok Hid Hid' Hne. split.
  - intros op r s' Hal E. destruct (run_op_ok _ _ _ _ _ _ _ Hs Hid Hal E) as (_ & G' & T' & Hi & Hst).
    pose proof (op_bystander _ _ _ _ _ _ _ _ Hs Hid Hst Hne Hid') as Hby.
    refine (proj2 (bystander_ok id' sp' G S G' _ Hs Hid' _ (sy_world _ _ (op_inv _ _ _ _ _ _ _ Hs Hid Hi Hst)) Hby)).
    cbn. by rewrite lookup_insert_ne.
  - intros s' E. destruct (destroy_step _ _ _ _ _ Hs Hid E) as (G' & Hst & Hs').
    refine (proj2 (bystander_ok id' sp' G S G' _ Hs Hid' _ (sy_world _ _ Hs') _)).
    + cbn. by rewrite lookup_delete_ne.
    + apply (stable_bystander G S id sp s' G' _ id' sp' Hs Hid Hst Hne Hid'). intros f.
      rewrite delete_delete. pose proof (count_nonneg f (pages (space s'))). unfold uses. lia.
Qed.

(** [C12] A clone shows what the original showed, and the original shows it still; so do the
    spaces of others: the rights of every page, the contents of private pages and the frames of shared ones.  When there is not enough memory the clone is left empty. *)
Theorem vm_clone (S : @System Heap) c d sp destination ok w' dest' src' :
  reachable S -> sys_spaces S !! c = Some sp -> sys_spaces S !! d = None -> (size (sys_spaces S) < SPACES_MAX)%nat ->
  vm_space_clone_cow (sys_world S) destination sp = (ok, w', dest', src') ->
  (forall b, view (mkVm w' src') b = view (mkVm (sys_world S) sp) b) /\
  (if ok : bool then forall b, view (mkVm w' dest') b = view (mkVm (sys_world S) sp) b else dest' = zero_space) /\
  (forall id' sp', id' <> c -> sys_spaces S !! id' = Some sp' ->
     forall b, view (mkVm w' sp') b = view (mkVm (sys_world S) sp') b).
Proof.
  intros [G Hs]%reachable_ok Hc Hd Hsz E.
  destruct (clone_step _ _ _ _ _ _ _ _ _ _ Hs Hc Hd Hsz E) as (Hv & Hok & G' & Hby & Hs'). split_and!; [done|done|].
  intros id' sp' Hne Hid'. assert (id' <> d) as Hned by congruence.
  refine (proj2 (bystander_ok id' sp' G S G' _ Hs Hid' _ (sy_world _ _ Hs') (Hby _ _ Hne Hid'))).
  cbn. unfold clone_spaces. destruct ok; by rewrite !lookup_insert_ne.
Qed.

(** [C13] What a process wrote to its own pages it reads back. *)
Theorem vm_copy_roundtrip (S : @System Heap) id sp destination source s' :
  reachable S -> sys_spaces S !! id = Some sp -> 0 <= destination -> destination + Z.of_nat (length source) < 2 ^ 64 ->
  (forall b, destination <= b < destination + Z.of_nat (length source) ->
     exists v l, view (mkVm (sys_world S) sp) b = Some v /\ v_backing v = Private l) ->
  vm_copy_to_user destination source (mkVm (sys_world S) sp) = (true, s') ->
  vm_copy_from_user destination (length source) s' = Some source.
Proof.
  intros [G Hs]%reachable_ok Hid Hd Hend Hpriv E. destruct (sy_space _ _ Hs _ _ Hid) as [T Hi].
  pose proof (small_ok _ (sys_small _ _ id Hs)) as Hrest.
  assert (run_op (CopyTo destination source) (mkVm (sys_world S) sp) = (1, s')) as Er.
  { cbn. unfold as_number, bind. by rewrite E. }
  assert (0 <= destination < 2 ^ 64) as Hd64 by lia.
  destruct (run_op_ok G S id sp (CopyTo destination source) 1 s' Hs Hid Hd64 Er) as ((m & _ & Hv & [?|(_ & -> & _)]) & G' & T' & Hi' & _); [done|].
  eapply (copy_roundtrip id _ (mkVm (sys_world S) sp)); [exact Hrest|exact Hi'|done|lia| |].
  - intros k Hk. destruct (Hpriv (destination + Z.of_nat k)) as (v & l & Hvw & Hl); [lia|]. exists v, l.
    split_and!; [done|done|]. exact (view_length _ _ _ _ _ _ _ _ Hrest Hi Hvw Hl).
  - intros b. rewrite Hv. by rewrite take_ge.
Qed.

(** ** Witnesses *)

Definition demo_clone := vm_space_clone_cow (sys_world demo) zero_space (space demo_run.2).
Definition demo_child : VmSpace := demo_clone.1.2.
Definition demo_parent : VmSpace := demo_clone.2.

(** The process of [demo] and its clone. *)
Definition demo_pair : @System Heap :=
  mkSystem demo_clone.1.1.2 (fun _ => 0) (<[1%nat := demo_child]> (<[0%nat := demo_parent]> (sys_spaces demo))).

Lemma demo_clone_eq : vm_space_clone_cow (sys_world demo) zero_space (space demo_run.2) = (true, demo_clone.1.1.2, demo_child, demo_parent).
Proof.
  assert (demo_clone.1.1.1 = true) as E by (vm_compute; reflexivity).
  unfold demo_child, demo_parent. rewrite <- E. unfold demo_clone. destruct (vm_space_clone_cow _ _ _) as [[[? ?] ?] ?]. reflexivity.
Qed.

Lemma demo_size : (size (sys_spaces demo) < SPACES_MAX)%nat.
Proof.
  unfold demo. cbn [sys_spaces]. rewrite map_size_insert_Some by (eexists; apply lookup_insert_eq).
  rewrite map_size_insert_None by apply lookup_empty. rewrite map_size_empty. unfold SPACES_MAX. lia.
Qed.

Lemma demo_free : sys_spaces demo !! 1%nat = None.
Proof. unfold demo. cbn [sys_spaces]. by rewrite !lookup_insert_ne. Qed.

Lemma demo_first : sys_spaces demo !! 0%nat = Some (space demo_run.2).
Proof. apply lookup_insert_eq. Qed.

Lemma demo_pair_reachable : reachable demo_pair.
Proof.
  eapply reachable_step; [exact demo_reachable|].
  exact (step_clone 0%nat 1%nat (sys_world demo) (sys_held demo) (sys_spaces demo) _ _ _ _ _ _ demo_first demo_free demo_size demo_clone_eq).
Qed.

Lemma vm_isolation_witness : let '(r, s') := run_op (CopyTo demo_page [1; 2; 3]) (mkVm (sys_world demo_pair) demo_parent) in
  r = 1 /\ forall b, view (mkVm (world s') demo_child) b = view (mkVm (sys_world demo_pair) demo_child) b.
Proof.
  destruct (run_op (CopyTo demo_page [1; 2; 3]) (mkVm (sys_world demo_pair) demo_parent)) as [r s'] eqn:E. split.
  - apply (f_equal fst) in E. cbn [fst] in E. rewrite <- E. vm_compute. reflexivity.
  - assert (sys_spaces demo_pair !! 0%nat = Some demo_parent) as H0.
    { unfold demo_pair. cbn [sys_spaces]. rewrite lookup_insert_ne by done. apply lookup_insert_eq. }
    assert (sys_spaces demo_pair !! 1%nat = Some demo_child) as H1 by apply lookup_insert_eq.
    refine (proj1 (vm_isolation demo_pair 0 demo_parent 1 demo_child demo_pair_reachable H0 H1 _) _ r s' _ E); [done|].
    cbn. unfold demo_page. lia.
Defined.

Lemma vm_clone_witness : demo_clone.1.1.1 = true /\
  forall b, view (mkVm demo_clone.1.1.2 demo_child) b = view (mkVm (sys_world demo) (space demo_run.2)) b.
Proof.
  split; [exact (f_equal (fun r => r.1.1.1) demo_clone_eq)|].
  exact (proj1 (proj2 (vm_clone demo 0 1 _ zero_space true _ _ _ demo_reachable demo_first demo_free demo_size demo_clone_eq))).
Defined.

Lemma vm_copy_roundtrip_witness : let s' := (vm_copy_to_user (demo_page + 5) [1; 2; 3] demo_state).2 in
  vm_copy_from_user (demo_page + 5) 3 s' = Some [1; 2; 3].
Proof.
  cbv zeta. refine (vm_copy_roundtrip demo 0 (space demo_run.2) (demo_page + 5) [1; 2; 3] _ demo_reachable demo_first _ _ _ _).
  - unfold demo_page. lia.
  - unfold demo_page. cbn. lia.
  - cbn [length]. intros b Hb.
    assert (b = demo_page + 5 \/ b = demo_page + 6 \/ b = demo_page + 7) as [-> | [-> | ->]] by lia;
      (eexists _, _; split; vm_compute; reflexivity).
  - apply pair_fst. vm_compute. reflexivity.
Defined.
