(* ===== verification/Process.v ===== *)
(** * Processes: the state of kernel/process.c

    The tables of processes and kernel objects, the address spaces that threads share, and
    what every system call needs: user memory, user strings, paths and the console.

    A [Process *] is the slot of the process in the table, a [FileDescriptor *] a slot and a
    descriptor number, an [AddressSpace *] the address of its heap block.  There is one
    kernel heap: the file system works on the heap of [k_world].  The contents of [fx_state]
    and the registers of the processor are not part of the state. *)

From S2P Require Import Prelude Runtime Heap HeapFacts Interfaces Filesystem Vm.

(** ** Constants *)

Definition MAX_PROCESSES : Z := 64.
Definition MAX_FILE_DESCRIPTORS : Z := 256.
Definition MAX_PIPE_OBJECTS : Z := 64.
Definition MAX_SOCKET_PAIRS : Z := 64.
Definition MAX_EPOLL_OBJECTS : Z := 64.
Definition MAX_EVENT_OBJECTS : Z := 64.
Definition MAX_TIMER_OBJECTS : Z := 64.
Definition MAX_MEMFD_OBJECTS : Z := 64.
Definition MAX_MEMFD_SIZE : Z := 64 * 1024 * 1024.
Definition MAX_EPOLL_ENTRIES : Z := 256.
Definition IPC_BUFFER_SIZE : Z := 4096.

Definition PROCESS_RUNNING : Z := 1.
Definition PROCESS_BLOCKED_FUTEX : Z := 2.
Definition PROCESS_BLOCKED_SLEEP : Z := 3.
Definition PROCESS_ZOMBIE : Z := 4.

Definition FD_FILE : Z := 1.
Definition FD_PIPE_READ : Z := 2.
Definition FD_PIPE_WRITE : Z := 3.
Definition FD_EPOLL : Z := 4.
Definition FD_UNIX_SOCKET : Z := 5.
Definition FD_DIRECTORY : Z := 6.
Definition FD_EVENTFD : Z := 7.
Definition FD_TIMERFD : Z := 8.
Definition FD_MEMFD : Z := 9.

Definition LINUX_EPERM : Z := 1.
Definition LINUX_ENOENT : Z := 2.
Definition LINUX_ESRCH : Z := 3.
Definition LINUX_EIO : Z := 5.
Definition LINUX_EBADF : Z := 9.
Definition LINUX_ECHILD : Z := 10.
Definition LINUX_EAGAIN : Z := 11.
Definition LINUX_ENOMEM : Z := 12.
Definition LINUX_EACCES : Z := 13.
Definition LINUX_EFAULT : Z := 14.
Definition LINUX_EBUSY : Z := 16.
Definition LINUX_EEXIST : Z := 17.
Definition LINUX_ENOTDIR : Z := 20.
Definition LINUX_EISDIR : Z := 21.
Definition LINUX_EINVAL : Z := 22.
Definition LINUX_ENFILE : Z := 23.
Definition LINUX_ENOTTY : Z := 25.
Definition LINUX_ENOSYS : Z := 38.
Definition LINUX_ENOTEMPTY : Z := 39.

Definition CONTEXT_RDI : Z := 9.
Definition CONTEXT_RAX : Z := 14.
Definition CONTEXT_RIP : Z := 15.
Definition CONTEXT_RSP : Z := 17.

(** [linux_error(error)]: minus the error number, as 64 bits. *)
Definition linux_error (error : Z) : Z := u64 (- error).

(** ** Kernel objects *)

Record FileDescriptor := mkFd {
  fd_used : bool;
  fd_type : Z;
  fd_object : Z;
  fd_endpoint : Z;
  fd_name : list Z;
  fd_offset : Z;
  fd_flags : Z }.

Definition set_fd_used (v : bool) (x : FileDescriptor) : FileDescriptor :=
  mkFd v (fd_type x) (fd_object x) (fd_endpoint x) (fd_name x) (fd_offset x) (fd_flags x).
Definition set_fd_offset (v : Z) (x : FileDescriptor) : FileDescriptor :=
  mkFd (fd_used x) (fd_type x) (fd_object x) (fd_endpoint x) (fd_name x) v (fd_flags x).

Definition zero_fd : FileDescriptor := mkFd false 0 0 0 [] 0 0.

Record IpcQueue := mkQueue {
  q_data : list Z;
  q_read_offset : Z;
  q_write_offset : Z;
  q_count : Z }.

Definition set_q_data (v : list Z) (x : IpcQueue) : IpcQueue :=
  mkQueue v (q_read_offset x) (q_write_offset x) (q_count x).
Definition set_q_read_offset (v : Z) (x : IpcQueue) : IpcQueue :=
  mkQueue (q_data x) v (q_write_offset x) (q_count x).
Definition set_q_write_offset (v : Z) (x : IpcQueue) : IpcQueue :=
  mkQueue (q_data x) (q_read_offset x) v (q_count x).
Definition set_q_count (v : Z) (x : IpcQueue) : IpcQueue :=
  mkQueue (q_data x) (q_read_offset x) (q_write_offset x) v.

Definition zero_queue : IpcQueue := mkQueue (replicate (Z.to_nat IPC_BUFFER_SIZE) 0) 0 0 0.

Record PipeObject := mkPipe {
  po_used : bool;
  po_queue : IpcQueue }.

Definition set_po_used (v : bool) (x : PipeObject) : PipeObject :=
  mkPipe v (po_queue x).
Definition set_po_queue (v : IpcQueue) (x : PipeObject) : PipeObject :=
  mkPipe (po_used x) v.

Record UnixSocketPair := mkPair {
  us_used : bool;
  us_incoming : list IpcQueue }.

Definition set_us_used (v : bool) (x : UnixSocketPair) : UnixSocketPair :=
  mkPair v (us_incoming x).
Definition set_us_incoming (v : list IpcQueue) (x : UnixSocketPair) : UnixSocketPair :=
  mkPair (us_used x) v.

Record EpollEntry := mkEpollEntry {
  ee_used : bool;
  ee_descriptor : Z;
  ee_events : Z;
  ee_data : Z }.


Definition zero_epoll_entry : EpollEntry := mkEpollEntry false 0 0 0.

Record EpollObject := mkEpoll {
  ep_used : bool;
  ep_entries : list EpollEntry }.

Definition set_ep_entries (v : list EpollEntry) (x : EpollObject) : EpollObject :=
  mkEpoll (ep_used x) v.

Record EventObject := mkEvent {
  ev_used : bool;
  ev_semaphore : bool;
  ev_counter : Z }.

Definition set_ev_semaphore (v : bool) (x : EventObject) : EventObject :=
  mkEvent (ev_used x) v (ev_counter x).
Definition set_ev_counter (v : Z) (x : EventObject) : EventObject :=
  mkEvent (ev_used x) (ev_semaphore x) v.

Record TimerObject := mkTimer {
  tm_used : bool;
  tm_expires : Z;
  tm_interval : Z }.

Definition set_tm_expires (v : Z) (x : TimerObject) : TimerObject :=
  mkTimer (tm_used x) v (tm_interval x).
Definition set_tm_interval (v : Z) (x : TimerObject) : TimerObject :=
  mkTimer (tm_used x) (tm_expires x) v.

(** [array] is the heap block of [frames], whose elements are frames or 0. *)
Record MemfdObject := mkMemfd {
  mf_used : bool;
  mf_references : Z;
  mf_size : Z;
  mf_frame_capacity : Z;
  mf_array : Z;
  mf_frames : list Z }.

Definition set_mf_references (v : Z) (x : MemfdObject) : MemfdObject :=
  mkMemfd (mf_used x) v (mf_size x) (mf_frame_capacity x) (mf_array x) (mf_frames x).
Definition set_mf_size (v : Z) (x : MemfdObject) : MemfdObject :=
  mkMemfd (mf_used x) (mf_references x) v (mf_frame_capacity x) (mf_array x) (mf_frames x).
Definition set_mf_frames (v : list Z) (x : MemfdObject) : MemfdObject :=
  mkMemfd (mf_used x) (mf_references x) (mf_size x) (mf_frame_capacity x) (mf_array x) v.

Definition zero_memfd : MemfdObject := mkMemfd false 0 0 0 0 [].

(** ** Processes *)

(** [tls_bytes] are the contents of the heap block [tls_template]. *)
Record AddressSpace := mkAddressSpace {
  as_vm : VmSpace;
  as_references : Z;
  as_tls_template : Z;
  as_tls_bytes : list Z;
  as_tls_template_size : Z;
  as_tls_static_size : Z;
  as_tls_template_thread_pointer : Z;
  as_tls_module_count : Z;
  as_loader_mapping_end : Z }.

Definition set_as_vm (v : VmSpace) (x : AddressSpace) : AddressSpace :=
  mkAddressSpace v (as_references x) (as_tls_template x) (as_tls_bytes x) (as_tls_template_size x)
    (as_tls_static_size x) (as_tls_template_thread_pointer x) (as_tls_module_count x) (as_loader_mapping_end x).
Definition set_as_references (v : Z) (x : AddressSpace) : AddressSpace :=
  mkAddressSpace (as_vm x) v (as_tls_template x) (as_tls_bytes x) (as_tls_template_size x) (as_tls_static_size x)
    (as_tls_template_thread_pointer x) (as_tls_module_count x) (as_loader_mapping_end x).

Definition ADDRESS_SPACE_SIZE : Z := 4210784.

Record LinuxSignalAction := mkAction {
  sa_handler : Z;
  sa_flags : Z;
  sa_restorer : Z;
  sa_mask : Z }.


(** [output] is the text in the buffer of 512 bytes; [output_length] its length. *)
Record Process := mkProcess {
  p_used : bool;
  p_state : Z;
  p_pid : Z;
  p_tgid : Z;
  p_parent_pid : Z;
  p_address_space : Z;
  p_context : list Z;
  p_name : list Z;
  p_output : list Z;
  p_exit_code : Z;
  p_program_break : Z;
  p_mmap_hint : Z;
  p_clear_child_tid : Z;
  p_futex_address : Z;
  p_wake_tick : Z;
  p_fs_base : Z;
  p_gs_base : Z;
  p_tls_mapping : Z;
  p_tls_mapping_size : Z;
  p_pending_signals : Z;
  p_no_new_privs : bool;
  p_seccomp_strict : bool;
  p_signal_actions : list LinuxSignalAction;
  p_descriptors : list FileDescriptor }.

Definition set_p_used (v : bool) (x : Process) : Process :=
  mkProcess v (p_state x) (p_pid x) (p_tgid x) (p_parent_pid x) (p_address_space x) (p_context x) (p_name x)
    (p_output x) (p_exit_code x) (p_program_break x) (p_mmap_hint x) (p_clear_child_tid x) (p_futex_address x)
    (p_wake_tick x) (p_fs_base x) (p_gs_base x) (p_tls_mapping x) (p_tls_mapping_size x) (p_pending_signals x)
    (p_no_new_privs x) (p_seccomp_strict x) (p_signal_actions x) (p_descriptors x).
Definition set_p_state (v : Z) (x : Process) : Process :=
  mkProcess (p_used x) v (p_pid x) (p_tgid x) (p_parent_pid x) (p_address_space x) (p_context x) (p_name x) (p_output
    x) (p_exit_code x) (p_program_break x) (p_mmap_hint x) (p_clear_child_tid x) (p_futex_address x) (p_wake_tick x)
    (p_fs_base x) (p_gs_base x) (p_tls_mapping x) (p_tls_mapping_size x) (p_pending_signals x) (p_no_new_privs x)
    (p_seccomp_strict x) (p_signal_actions x) (p_descriptors x).
Definition set_p_pid (v : Z) (x : Process) : Process :=
  mkProcess (p_used x) (p_state x) v (p_tgid x) (p_parent_pid x) (p_address_space x) (p_context x) (p_name x)
    (p_output x) (p_exit_code x) (p_program_break x) (p_mmap_hint x) (p_clear_child_tid x) (p_futex_address x)
    (p_wake_tick x) (p_fs_base x) (p_gs_base x) (p_tls_mapping x) (p_tls_mapping_size x) (p_pending_signals x)
    (p_no_new_privs x) (p_seccomp_strict x) (p_signal_actions x) (p_descriptors x).
Definition set_p_tgid (v : Z) (x : Process) : Process :=
  mkProcess (p_used x) (p_state x) (p_pid x) v (p_parent_pid x) (p_address_space x) (p_context x) (p_name x)
    (p_output x) (p_exit_code x) (p_program_break x) (p_mmap_hint x) (p_clear_child_tid x) (p_futex_address x)
    (p_wake_tick x) (p_fs_base x) (p_gs_base x) (p_tls_mapping x) (p_tls_mapping_size x) (p_pending_signals x)
    (p_no_new_privs x) (p_seccomp_strict x) (p_signal_actions x) (p_descriptors x).
Definition set_p_parent_pid (v : Z) (x : Process) : Process :=
  mkProcess (p_used x) (p_state x) (p_pid x) (p_tgid x) v (p_address_space x) (p_context x) (p_name x) (p_output x)
    (p_exit_code x) (p_program_break x) (p_mmap_hint x) (p_clear_child_tid x) (p_futex_address x) (p_wake_tick x)
    (p_fs_base x) (p_gs_base x) (p_tls_mapping x) (p_tls_mapping_size x) (p_pending_signals x) (p_no_new_privs x)
    (p_seccomp_strict x) (p_signal_actions x) (p_descriptors x).
Definition set_p_address_space (v : Z) (x : Process) : Process :=
  mkProcess (p_used x) (p_state x) (p_pid x) (p_tgid x) (p_parent_pid x) v (p_context x) (p_name x) (p_output x)
    (p_exit_code x) (p_program_break x) (p_mmap_hint x) (p_clear_child_tid x) (p_futex_address x) (p_wake_tick x)
    (p_fs_base x) (p_gs_base x) (p_tls_mapping x) (p_tls_mapping_size x) (p_pending_signals x) (p_no_new_privs x)
    (p_seccomp_strict x) (p_signal_actions x) (p_descriptors x).
Definition set_p_context (v : list Z) (x : Process) : Process :=
  mkProcess (p_used x) (p_state x) (p_pid x) (p_tgid x) (p_parent_pid x) (p_address_space x) v (p_name x) (p_output
    x) (p_exit_code x) (p_program_break x) (p_mmap_hint x) (p_clear_child_tid x) (p_futex_address x) (p_wake_tick x)
    (p_fs_base x) (p_gs_base x) (p_tls_mapping x) (p_tls_mapping_size x) (p_pending_signals x) (p_no_new_privs x)
    (p_seccomp_strict x) (p_signal_actions x) (p_descriptors x).
Definition set_p_name (v : list Z) (x : Process) : Process :=
  mkProcess (p_used x) (p_state x) (p_pid x) (p_tgid x) (p_parent_pid x) (p_address_space x) (p_context x) v
    (p_output x) (p_exit_code x) (p_program_break x) (p_mmap_hint x) (p_clear_child_tid x) (p_futex_address x)
    (p_wake_tick x) (p_fs_base x) (p_gs_base x) (p_tls_mapping x) (p_tls_mapping_size x) (p_pending_signals x)
    (p_no_new_privs x) (p_seccomp_strict x) (p_signal_actions x) (p_descriptors x).
Definition set_p_output (v : list Z) (x : Process) : Process :=
  mkProcess (p_used x) (p_state x) (p_pid x) (p_tgid x) (p_parent_pid x) (p_address_space x) (p_context x) (p_name x)
    v (p_exit_code x) (p_program_break x) (p_mmap_hint x) (p_clear_child_tid x) (p_futex_address x) (p_wake_tick x)
    (p_fs_base x) (p_gs_base x) (p_tls_mapping x) (p_tls_mapping_size x) (p_pending_signals x) (p_no_new_privs x)
    (p_seccomp_strict x) (p_signal_actions x) (p_descriptors x).
Definition set_p_exit_code (v : Z) (x : Process) : Process :=
  mkProcess (p_used x) (p_state x) (p_pid x) (p_tgid x) (p_parent_pid x) (p_address_space x) (p_context x) (p_name x)
    (p_output x) v (p_program_break x) (p_mmap_hint x) (p_clear_child_tid x) (p_futex_address x) (p_wake_tick x)
    (p_fs_base x) (p_gs_base x) (p_tls_mapping x) (p_tls_mapping_size x) (p_pending_signals x) (p_no_new_privs x)
    (p_seccomp_strict x) (p_signal_actions x) (p_descriptors x).
Definition set_p_program_break (v : Z) (x : Process) : Process :=
  mkProcess (p_used x) (p_state x) (p_pid x) (p_tgid x) (p_parent_pid x) (p_address_space x) (p_context x) (p_name x)
    (p_output x) (p_exit_code x) v (p_mmap_hint x) (p_clear_child_tid x) (p_futex_address x) (p_wake_tick x)
    (p_fs_base x) (p_gs_base x) (p_tls_mapping x) (p_tls_mapping_size x) (p_pending_signals x) (p_no_new_privs x)
    (p_seccomp_strict x) (p_signal_actions x) (p_descriptors x).
Definition set_p_mmap_hint (v : Z) (x : Process) : Process :=
  mkProcess (p_used x) (p_state x) (p_pid x) (p_tgid x) (p_parent_pid x) (p_address_space x) (p_context x) (p_name x)
    (p_output x) (p_exit_code x) (p_program_break x) v (p_clear_child_tid x) (p_futex_address x) (p_wake_tick x)
    (p_fs_base x) (p_gs_base x) (p_tls_mapping x) (p_tls_mapping_size x) (p_pending_signals x) (p_no_new_privs x)
    (p_seccomp_strict x) (p_signal_actions x) (p_descriptors x).
Definition set_p_clear_child_tid (v : Z) (x : Process) : Process :=
  mkProcess (p_used x) (p_state x) (p_pid x) (p_tgid x) (p_parent_pid x) (p_address_space x) (p_context x) (p_name x)
    (p_output x) (p_exit_code x) (p_program_break x) (p_mmap_hint x) v (p_futex_address x) (p_wake_tick x) (p_fs_base
    x) (p_gs_base x) (p_tls_mapping x) (p_tls_mapping_size x) (p_pending_signals x) (p_no_new_privs x)
    (p_seccomp_strict x) (p_signal_actions x) (p_descriptors x).
Definition set_p_futex_address (v : Z) (x : Process) : Process :=
  mkProcess (p_used x) (p_state x) (p_pid x) (p_tgid x) (p_parent_pid x) (p_address_space x) (p_context x) (p_name x)
    (p_output x) (p_exit_code x) (p_program_break x) (p_mmap_hint x) (p_clear_child_tid x) v (p_wake_tick x)
    (p_fs_base x) (p_gs_base x) (p_tls_mapping x) (p_tls_mapping_size x) (p_pending_signals x) (p_no_new_privs x)
    (p_seccomp_strict x) (p_signal_actions x) (p_descriptors x).
Definition set_p_wake_tick (v : Z) (x : Process) : Process :=
  mkProcess (p_used x) (p_state x) (p_pid x) (p_tgid x) (p_parent_pid x) (p_address_space x) (p_context x) (p_name x)
    (p_output x) (p_exit_code x) (p_program_break x) (p_mmap_hint x) (p_clear_child_tid x) (p_futex_address x) v
    (p_fs_base x) (p_gs_base x) (p_tls_mapping x) (p_tls_mapping_size x) (p_pending_signals x) (p_no_new_privs x)
    (p_seccomp_strict x) (p_signal_actions x) (p_descriptors x).
Definition set_p_fs_base (v : Z) (x : Process) : Process :=
  mkProcess (p_used x) (p_state x) (p_pid x) (p_tgid x) (p_parent_pid x) (p_address_space x) (p_context x) (p_name x)
    (p_output x) (p_exit_code x) (p_program_break x) (p_mmap_hint x) (p_clear_child_tid x) (p_futex_address x)
    (p_wake_tick x) v (p_gs_base x) (p_tls_mapping x) (p_tls_mapping_size x) (p_pending_signals x) (p_no_new_privs x)
    (p_seccomp_strict x) (p_signal_actions x) (p_descriptors x).
Definition set_p_gs_base (v : Z) (x : Process) : Process :=
  mkProcess (p_used x) (p_state x) (p_pid x) (p_tgid x) (p_parent_pid x) (p_address_space x) (p_context x) (p_name x)
    (p_output x) (p_exit_code x) (p_program_break x) (p_mmap_hint x) (p_clear_child_tid x) (p_futex_address x)
    (p_wake_tick x) (p_fs_base x) v (p_tls_mapping x) (p_tls_mapping_size x) (p_pending_signals x) (p_no_new_privs x)
    (p_seccomp_strict x) (p_signal_actions x) (p_descriptors x).
Definition set_p_tls_mapping (v : Z) (x : Process) : Process :=
  mkProcess (p_used x) (p_state x) (p_pid x) (p_tgid x) (p_parent_pid x) (p_address_space x) (p_context x) (p_name x)
    (p_output x) (p_exit_code x) (p_program_break x) (p_mmap_hint x) (p_clear_child_tid x) (p_futex_address x)
    (p_wake_tick x) (p_fs_base x) (p_gs_base x) v (p_tls_mapping_size x) (p_pending_signals x) (p_no_new_privs x)
    (p_seccomp_strict x) (p_signal_actions x) (p_descriptors x).
Definition set_p_tls_mapping_size (v : Z) (x : Process) : Process :=
  mkProcess (p_used x) (p_state x) (p_pid x) (p_tgid x) (p_parent_pid x) (p_address_space x) (p_context x) (p_name x)
    (p_output x) (p_exit_code x) (p_program_break x) (p_mmap_hint x) (p_clear_child_tid x) (p_futex_address x)
    (p_wake_tick x) (p_fs_base x) (p_gs_base x) (p_tls_mapping x) v (p_pending_signals x) (p_no_new_privs x)
    (p_seccomp_strict x) (p_signal_actions x) (p_descriptors x).
Definition set_p_pending_signals (v : Z) (x : Process) : Process :=
  mkProcess (p_used x) (p_state x) (p_pid x) (p_tgid x) (p_parent_pid x) (p_address_space x) (p_context x) (p_name x)
    (p_output x) (p_exit_code x) (p_program_break x) (p_mmap_hint x) (p_clear_child_tid x) (p_futex_address x)
    (p_wake_tick x) (p_fs_base x) (p_gs_base x) (p_tls_mapping x) (p_tls_mapping_size x) v (p_no_new_privs x)
    (p_seccomp_strict x) (p_signal_actions x) (p_descriptors x).
Definition set_p_no_new_privs (v : bool) (x : Process) : Process :=
  mkProcess (p_used x) (p_state x) (p_pid x) (p_tgid x) (p_parent_pid x) (p_address_space x) (p_context x) (p_name x)
    (p_output x) (p_exit_code x) (p_program_break x) (p_mmap_hint x) (p_clear_child_tid x) (p_futex_address x)
    (p_wake_tick x) (p_fs_base x) (p_gs_base x) (p_tls_mapping x) (p_tls_mapping_size x) (p_pending_signals x) v
    (p_seccomp_strict x) (p_signal_actions x) (p_descriptors x).
Definition set_p_seccomp_strict (v : bool) (x : Process) : Process :=
  mkProcess (p_used x) (p_state x) (p_pid x) (p_tgid x) (p_parent_pid x) (p_address_space x) (p_context x) (p_name x)
    (p_output x) (p_exit_code x) (p_program_break x) (p_mmap_hint x) (p_clear_child_tid x) (p_futex_address x)
    (p_wake_tick x) (p_fs_base x) (p_gs_base x) (p_tls_mapping x) (p_tls_mapping_size x) (p_pending_signals x)
    (p_no_new_privs x) v (p_signal_actions x) (p_descriptors x).
Definition set_p_signal_actions (v : list LinuxSignalAction) (x : Process) : Process :=
  mkProcess (p_used x) (p_state x) (p_pid x) (p_tgid x) (p_parent_pid x) (p_address_space x) (p_context x) (p_name x)
    (p_output x) (p_exit_code x) (p_program_break x) (p_mmap_hint x) (p_clear_child_tid x) (p_futex_address x)
    (p_wake_tick x) (p_fs_base x) (p_gs_base x) (p_tls_mapping x) (p_tls_mapping_size x) (p_pending_signals x)
    (p_no_new_privs x) (p_seccomp_strict x) v (p_descriptors x).
Definition set_p_descriptors (v : list FileDescriptor) (x : Process) : Process :=
  mkProcess (p_used x) (p_state x) (p_pid x) (p_tgid x) (p_parent_pid x) (p_address_space x) (p_context x) (p_name x)
    (p_output x) (p_exit_code x) (p_program_break x) (p_mmap_hint x) (p_clear_child_tid x) (p_futex_address x)
    (p_wake_tick x) (p_fs_base x) (p_gs_base x) (p_tls_mapping x) (p_tls_mapping_size x) (p_pending_signals x)
    (p_no_new_privs x) (p_seccomp_strict x) (p_signal_actions x) v.

Definition zero_process : Process :=
  mkProcess false 0 0 0 0 0 (replicate 18 0) [] [] 0 0 0 0 0 0 0 0 0 0 0 false false
    (replicate 32 (mkAction 0 0 0 0)) (replicate (Z.to_nat MAX_FILE_DESCRIPTORS) zero_fd).

(** Elements of an array, by index. *)
Definition at_index {A} (zero : A) (l : list A) (i : Z) : A := nth (Z.to_nat i) l zero.
Definition edit_index {A} (i : Z) (f : A -> A) (l : list A) : list A := alter f (Z.to_nat i) l.

Definition fd_at (p : Process) (descriptor : Z) : FileDescriptor := at_index zero_fd (p_descriptors p) descriptor.

(** The index of the first element from [index] on that satisfies [P]. *)
Fixpoint first_index {A} (P : A -> bool) (index : Z) (l : list A) : Z :=
  match l with
  | [] => -1
  | x :: l => if P x then index else first_index P (index + 1) l
  end.

(** ** The kernel *)

Section kernel.
Context {D H : Type} `{!BlockDevice D} `{!Allocator H}.

(** [console] is what was written to the serial line. *)
Record Kernel := mkKernel {
  k_world : @VmWorld H;
  k_spaces : gmap Z AddressSpace;
  k_fs : @FsState D H;
  k_processes : list Process;
  k_pipe_objects : list PipeObject;
  k_socket_pairs : list UnixSocketPair;
  k_epoll_objects : list EpollObject;
  k_event_objects : list EventObject;
  k_timer_objects : list TimerObject;
  k_memfd_objects : list MemfdObject;
  k_context : list Z;
  k_scheduler_ticks : Z;
  k_current_slot : Z;
  k_last_slot : Z;
  k_foreground_slot : Z;
  k_next_pid : Z;
  k_syscall_counter : Z;
  k_cow_fault_counter : Z;
  k_demand_fault_counter : Z;
  k_console : list Z }.

Definition set_k_world (v : @VmWorld H) (x : Kernel) : Kernel :=
  mkKernel v (k_spaces x) (k_fs x) (k_processes x) (k_pipe_objects x) (k_socket_pairs x) (k_epoll_objects x)
    (k_event_objects x) (k_timer_objects x) (k_memfd_objects x) (k_context x) (k_scheduler_ticks x) (k_current_slot
    x) (k_last_slot x) (k_foreground_slot x) (k_next_pid x) (k_syscall_counter x) (k_cow_fault_counter x)
    (k_demand_fault_counter x) (k_console x).
Definition set_k_spaces (v : gmap Z AddressSpace) (x : Kernel) : Kernel :=
  mkKernel (k_world x) v (k_fs x) (k_processes x) (k_pipe_objects x) (k_socket_pairs x) (k_epoll_objects x)
    (k_event_objects x) (k_timer_objects x) (k_memfd_objects x) (k_context x) (k_scheduler_ticks x) (k_current_slot
    x) (k_last_slot x) (k_foreground_slot x) (k_next_pid x) (k_syscall_counter x) (k_cow_fault_counter x)
    (k_demand_fault_counter x) (k_console x).
Definition set_k_fs (v : @FsState D H) (x : Kernel) : Kernel :=
  mkKernel (k_world x) (k_spaces x) v (k_processes x) (k_pipe_objects x) (k_socket_pairs x) (k_epoll_objects x)
    (k_event_objects x) (k_timer_objects x) (k_memfd_objects x) (k_context x) (k_scheduler_ticks x) (k_current_slot
    x) (k_last_slot x) (k_foreground_slot x) (k_next_pid x) (k_syscall_counter x) (k_cow_fault_counter x)
    (k_demand_fault_counter x) (k_console x).
Definition set_k_processes (v : list Process) (x : Kernel) : Kernel :=
  mkKernel (k_world x) (k_spaces x) (k_fs x) v (k_pipe_objects x) (k_socket_pairs x) (k_epoll_objects x)
    (k_event_objects x) (k_timer_objects x) (k_memfd_objects x) (k_context x) (k_scheduler_ticks x) (k_current_slot
    x) (k_last_slot x) (k_foreground_slot x) (k_next_pid x) (k_syscall_counter x) (k_cow_fault_counter x)
    (k_demand_fault_counter x) (k_console x).
Definition set_k_pipe_objects (v : list PipeObject) (x : Kernel) : Kernel :=
  mkKernel (k_world x) (k_spaces x) (k_fs x) (k_processes x) v (k_socket_pairs x) (k_epoll_objects x)
    (k_event_objects x) (k_timer_objects x) (k_memfd_objects x) (k_context x) (k_scheduler_ticks x) (k_current_slot
    x) (k_last_slot x) (k_foreground_slot x) (k_next_pid x) (k_syscall_counter x) (k_cow_fault_counter x)
    (k_demand_fault_counter x) (k_console x).
Definition set_k_socket_pairs (v : list UnixSocketPair) (x : Kernel) : Kernel :=
  mkKernel (k_world x) (k_spaces x) (k_fs x) (k_processes x) (k_pipe_objects x) v (k_epoll_objects x)
    (k_event_objects x) (k_timer_objects x) (k_memfd_objects x) (k_context x) (k_scheduler_ticks x) (k_current_slot
    x) (k_last_slot x) (k_foreground_slot x) (k_next_pid x) (k_syscall_counter x) (k_cow_fault_counter x)
    (k_demand_fault_counter x) (k_console x).
Definition set_k_epoll_objects (v : list EpollObject) (x : Kernel) : Kernel :=
  mkKernel (k_world x) (k_spaces x) (k_fs x) (k_processes x) (k_pipe_objects x) (k_socket_pairs x) v (k_event_objects
    x) (k_timer_objects x) (k_memfd_objects x) (k_context x) (k_scheduler_ticks x) (k_current_slot x) (k_last_slot x)
    (k_foreground_slot x) (k_next_pid x) (k_syscall_counter x) (k_cow_fault_counter x) (k_demand_fault_counter x)
    (k_console x).
Definition set_k_event_objects (v : list EventObject) (x : Kernel) : Kernel :=
  mkKernel (k_world x) (k_spaces x) (k_fs x) (k_processes x) (k_pipe_objects x) (k_socket_pairs x) (k_epoll_objects
    x) v (k_timer_objects x) (k_memfd_objects x) (k_context x) (k_scheduler_ticks x) (k_current_slot x) (k_last_slot
    x) (k_foreground_slot x) (k_next_pid x) (k_syscall_counter x) (k_cow_fault_counter x) (k_demand_fault_counter x)
    (k_console x).
Definition set_k_timer_objects (v : list TimerObject) (x : Kernel) : Kernel :=
  mkKernel (k_world x) (k_spaces x) (k_fs x) (k_processes x) (k_pipe_objects x) (k_socket_pairs x) (k_epoll_objects
    x) (k_event_objects x) v (k_memfd_objects x) (k_context x) (k_scheduler_ticks x) (k_current_slot x) (k_last_slot
    x) (k_foreground_slot x) (k_next_pid x) (k_syscall_counter x) (k_cow_fault_counter x) (k_demand_fault_counter x)
    (k_console x).
Definition set_k_memfd_objects (v : list MemfdObject) (x : Kernel) : Kernel :=
  mkKernel (k_world x) (k_spaces x) (k_fs x) (k_processes x) (k_pipe_objects x) (k_socket_pairs x) (k_epoll_objects
    x) (k_event_objects x) (k_timer_objects x) v (k_context x) (k_scheduler_ticks x) (k_current_slot x) (k_last_slot
    x) (k_foreground_slot x) (k_next_pid x) (k_syscall_counter x) (k_cow_fault_counter x) (k_demand_fault_counter x)
    (k_console x).
Definition set_k_context (v : list Z) (x : Kernel) : Kernel :=
  mkKernel (k_world x) (k_spaces x) (k_fs x) (k_processes x) (k_pipe_objects x) (k_socket_pairs x) (k_epoll_objects
    x) (k_event_objects x) (k_timer_objects x) (k_memfd_objects x) v (k_scheduler_ticks x) (k_current_slot x)
    (k_last_slot x) (k_foreground_slot x) (k_next_pid x) (k_syscall_counter x) (k_cow_fault_counter x)
    (k_demand_fault_counter x) (k_console x).
Definition set_k_scheduler_ticks (v : Z) (x : Kernel) : Kernel :=
  mkKernel (k_world x) (k_spaces x) (k_fs x) (k_processes x) (k_pipe_objects x) (k_socket_pairs x) (k_epoll_objects
    x) (k_event_objects x) (k_timer_objects x) (k_memfd_objects x) (k_context x) v (k_current_slot x) (k_last_slot x)
    (k_foreground_slot x) (k_next_pid x) (k_syscall_counter x) (k_cow_fault_counter x) (k_demand_fault_counter x)
    (k_console x).
Definition set_k_current_slot (v : Z) (x : Kernel) : Kernel :=
  mkKernel (k_world x) (k_spaces x) (k_fs x) (k_processes x) (k_pipe_objects x) (k_socket_pairs x) (k_epoll_objects
    x) (k_event_objects x) (k_timer_objects x) (k_memfd_objects x) (k_context x) (k_scheduler_ticks x) v (k_last_slot
    x) (k_foreground_slot x) (k_next_pid x) (k_syscall_counter x) (k_cow_fault_counter x) (k_demand_fault_counter x)
    (k_console x).
Definition set_k_last_slot (v : Z) (x : Kernel) : Kernel :=
  mkKernel (k_world x) (k_spaces x) (k_fs x) (k_processes x) (k_pipe_objects x) (k_socket_pairs x) (k_epoll_objects
    x) (k_event_objects x) (k_timer_objects x) (k_memfd_objects x) (k_context x) (k_scheduler_ticks x)
    (k_current_slot x) v (k_foreground_slot x) (k_next_pid x) (k_syscall_counter x) (k_cow_fault_counter x)
    (k_demand_fault_counter x) (k_console x).
Definition set_k_foreground_slot (v : Z) (x : Kernel) : Kernel :=
  mkKernel (k_world x) (k_spaces x) (k_fs x) (k_processes x) (k_pipe_objects x) (k_socket_pairs x) (k_epoll_objects
    x) (k_event_objects x) (k_timer_objects x) (k_memfd_objects x) (k_context x) (k_scheduler_ticks x)
    (k_current_slot x) (k_last_slot x) v (k_next_pid x) (k_syscall_counter x) (k_cow_fault_counter x)
    (k_demand_fault_counter x) (k_console x).
Definition set_k_next_pid (v : Z) (x : Kernel) : Kernel :=
  mkKernel (k_world x) (k_spaces x) (k_fs x) (k_processes x) (k_pipe_objects x) (k_socket_pairs x) (k_epoll_objects
    x) (k_event_objects x) (k_timer_objects x) (k_memfd_objects x) (k_context x) (k_scheduler_ticks x)
    (k_current_slot x) (k_last_slot x) (k_foreground_slot x) v (k_syscall_counter x) (k_cow_fault_counter x)
    (k_demand_fault_counter x) (k_console x).
Definition set_k_syscall_counter (v : Z) (x : Kernel) : Kernel :=
  mkKernel (k_world x) (k_spaces x) (k_fs x) (k_processes x) (k_pipe_objects x) (k_socket_pairs x) (k_epoll_objects
    x) (k_event_objects x) (k_timer_objects x) (k_memfd_objects x) (k_context x) (k_scheduler_ticks x)
    (k_current_slot x) (k_last_slot x) (k_foreground_slot x) (k_next_pid x) v (k_cow_fault_counter x)
    (k_demand_fault_counter x) (k_console x).
Definition set_k_cow_fault_counter (v : Z) (x : Kernel) : Kernel :=
  mkKernel (k_world x) (k_spaces x) (k_fs x) (k_processes x) (k_pipe_objects x) (k_socket_pairs x) (k_epoll_objects
    x) (k_event_objects x) (k_timer_objects x) (k_memfd_objects x) (k_context x) (k_scheduler_ticks x)
    (k_current_slot x) (k_last_slot x) (k_foreground_slot x) (k_next_pid x) (k_syscall_counter x) v
    (k_demand_fault_counter x) (k_console x).
Definition set_k_demand_fault_counter (v : Z) (x : Kernel) : Kernel :=
  mkKernel (k_world x) (k_spaces x) (k_fs x) (k_processes x) (k_pipe_objects x) (k_socket_pairs x) (k_epoll_objects
    x) (k_event_objects x) (k_timer_objects x) (k_memfd_objects x) (k_context x) (k_scheduler_ticks x)
    (k_current_slot x) (k_last_slot x) (k_foreground_slot x) (k_next_pid x) (k_syscall_counter x)
    (k_cow_fault_counter x) v (k_console x).
Definition set_k_console (v : list Z) (x : Kernel) : Kernel :=
  mkKernel (k_world x) (k_spaces x) (k_fs x) (k_processes x) (k_pipe_objects x) (k_socket_pairs x) (k_epoll_objects
    x) (k_event_objects x) (k_timer_objects x) (k_memfd_objects x) (k_context x) (k_scheduler_ticks x)
    (k_current_slot x) (k_last_slot x) (k_foreground_slot x) (k_next_pid x) (k_syscall_counter x)
    (k_cow_fault_counter x) (k_demand_fault_counter x) v.

Notation K := (st Kernel).

Definition process_at (k : Kernel) (slot : Z) : Process := at_index zero_process (k_processes k) slot.

Definition edit_process (slot : Z) (f : Process -> Process) : K unit :=
  modify (fun k => set_k_processes (edit_index slot f (k_processes k)) k).

Definition edit_fd (slot descriptor : Z) (f : FileDescriptor -> FileDescriptor) : K unit :=
  edit_process slot (fun p => set_p_descriptors (edit_index descriptor f (p_descriptors p)) p).

(** Operations on physical memory, and on the file system over the same heap. *)
Definition on_memory {A} (op : st VmWorld A) : K A :=
  fun k => let '(a, w) := op (k_world k) in (a, set_k_world w k).

Definition on_fs {A} (op : st FsState A) : K A :=
  fun k => let '(a, f) := op (with_heap (vw_heap (k_world k)) (k_fs k)) in
           (a, set_k_fs f (set_k_world (with_vm_heap (Filesystem.heap f) (k_world k)) k)).

(** An operation on the virtual memory of an address space. *)
Definition on_space_at {A} (pointer : Z) (failed : A) (op : st VmState A) : K A :=
  fun k => match k_spaces k !! pointer with
           | None => (failed, k)
           | Some a =>
               let '(r, s) := op (mkVm (k_world k) (as_vm a)) in
               (r, set_k_spaces (<[pointer := set_as_vm (space s) a]> (k_spaces k)) (set_k_world (world s) k))
           end.

Definition on_user {A} (slot : Z) (failed : A) (op : st VmState A) : K A :=
  p <- gets (fun k => process_at k slot) ;; on_space_at (p_address_space p) failed op.

Definition copy_to_user (slot destination : Z) (source : list Z) : K bool :=
  on_user slot false (vm_copy_to_user destination source).

Definition copy_from_user (slot source : Z) (size : nat) : K (option (list Z)) :=
  on_user slot None (gets (vm_copy_from_user source size)).

(** ** Address spaces *)

Definition address_space_create : K Z :=
  pointer <- on_memory (vm_alloc ADDRESS_SPACE_SIZE) ;;
  if pointer =? 0 then ret 0 else
  created <- (fun k => let '(ok, s) := vm_space_create (mkVm (k_world k) zero_space) in
                       ((ok, space s), set_k_world (world s) k)) ;;
  if negb created.1 then on_memory (vm_free pointer) ;;; ret 0 else
  modify (fun k => set_k_spaces (<[pointer := mkAddressSpace created.2 1 0 [] 0 0 0 0 0]> (k_spaces k)) k) ;;;
  ret pointer.

Definition address_space_clone (source : Z) : K Z :=
  pointer <- on_memory (vm_alloc ADDRESS_SPACE_SIZE) ;;
  if pointer =? 0 then ret 0 else
  found <- gets (fun k => k_spaces k !! source) ;;
  match found with
  | None => ret 0
  | Some old =>
      cloned <- (fun k => let '(ok, w, dest, src) := vm_space_clone_cow (k_world k) zero_space (as_vm old) in
                          ((ok, dest), set_k_spaces (<[source := set_as_vm src old]> (k_spaces k)) (set_k_world w k))) ;;
      if negb cloned.1 then on_memory (vm_free pointer) ;;; ret 0 else
      if as_tls_template_size old =? 0 then
        modify (fun k => set_k_spaces
          (<[pointer := mkAddressSpace cloned.2 1 0 [] 0 0 0 0 (as_loader_mapping_end old)]> (k_spaces k)) k) ;;;
        ret pointer
      else
        template <- on_memory (vm_alloc (as_tls_template_size old)) ;;
        if template =? 0 then
          modify (fun k => let '(_, s) := vm_space_destroy (mkVm (k_world k) cloned.2) in set_k_world (world s) k) ;;;
          on_memory (vm_free pointer) ;;;
          ret 0
        else
          modify (fun k => set_k_spaces
            (<[pointer := mkAddressSpace cloned.2 1 template (as_tls_bytes old) (as_tls_template_size old)
               (as_tls_static_size old) (as_tls_template_thread_pointer old) (as_tls_module_count old)
               (as_loader_mapping_end old)]> (k_spaces k)) k) ;;;
          ret pointer
  end.

Definition address_space_release (pointer : Z) : K unit :=
  if pointer =? 0 then ret tt else
  found <- gets (fun k => k_spaces k !! pointer) ;;
  match found with
  | None => ret tt
  | Some a =>
      let references := as_references a - 1 in
      if 0 <? references then
        modify (fun k => set_k_spaces (<[pointer := set_as_references references a]> (k_spaces k)) k)
      else
        modify (fun k => let '(_, s) := vm_space_destroy (mkVm (k_world k) (as_vm a)) in
                         set_k_spaces (delete pointer (k_spaces k)) (set_k_world (world s) k)) ;;;
        (if as_tls_template a =? 0 then ret tt else on_memory (vm_free (as_tls_template a))) ;;;
        on_memory (vm_free pointer)
  end.

(** ** The current process *)

Definition current_process (k : Kernel) : option Z :=
  if (0 <=? k_current_slot k) && (k_current_slot k <? MAX_PROCESSES) then Some (k_current_slot k) else None.

(** ** User strings *)

(** [n] is [capacity - 1]. *)
Fixpoint user_string (n : nat) (slot address : Z) : K (option (list Z)) :=
  match n with
  | O => ret None
  | S n =>
      c <- copy_from_user slot address 1 ;;
      match c with
      | Some [c] =>
          if c =? 0 then ret (Some []) else
          rest <- user_string n slot (u64 (address + 1)) ;;
          ret (cons c <$> rest)
      | _ => ret None
      end
  end.

Definition copy_user_string (slot address capacity : Z) : K (option (list Z)) :=
  if (address =? 0) || (capacity <? 2) then ret None else user_string (Z.to_nat (capacity - 1)) slot address.

(** ** The console *)

Definition serial_write (t : list Z) : K unit := modify (fun k => set_k_console (k_console k ++ t) k).

Definition append_output (slot : Z) (t : list Z) : K unit :=
  edit_process slot (fun p =>
    let available := 512 - 1 - Z.of_nat (length (p_output p)) in
    let copy := if s32 (Z.of_nat (length t)) <? available then s32 (Z.of_nat (length t)) else available in
    if 0 <? copy then set_p_output (p_output p ++ take (Z.to_nat copy) t) p else p).

Fixpoint write_chunks (fuel : nat) (slot address length completed : Z) : K Z :=
  match fuel with
  | O => ret length
  | S fuel =>
      if negb (completed <? length) then ret length else
      let chunk := Z.min (length - completed) 255 in
      buffer <- copy_from_user slot (u64 (address + completed)) (Z.to_nat chunk) ;;
      match buffer with
      | None => ret (linux_error LINUX_EFAULT)
      | Some buffer =>
          serial_write (text "user: ") ;;;
          serial_write (cstr buffer) ;;;
          append_output slot buffer ;;;
          write_chunks fuel slot address length (completed + chunk)
      end
  end.

Definition write_console (slot address length : Z) : K Z :=
  if 1024 * 1024 <? length then ret (linux_error LINUX_EINVAL)
  else write_chunks (Z.to_nat length) slot address length 0.

(** ** Descriptors *)

Definition find_descriptor (p : Process) : Z :=
  first_index (fun f => negb (fd_used f)) 3 (drop 3 (p_descriptors p)).

End kernel.

(** ** Paths *)

Definition SLASH : Z := 47.
Definition DOT : Z := 46.

Fixpoint skip_slash (path : list Z) : list Z :=
  match path with
  | c :: rest => if c =? SLASH then skip_slash rest else path
  | [] => []
  end.

(** The characters up to the next slash, and what follows them. *)
Fixpoint segment (path : list Z) : list Z * list Z :=
  match path with
  | c :: rest => if c =? SLASH then ([], path) else let '(s, r) := segment rest in (c :: s, r)
  | [] => ([], [])
  end.

(** [path] has no slash in front; [output] is what was written so far. *)
Fixpoint normalize_loop (fuel : nat) (path output : list Z) : option (list Z) :=
  match fuel, path with
  | S fuel, _ :: _ =>
      let '(s, rest) := segment path in
      if bool_decide (s = [DOT; DOT]) then None else
      if bool_decide (s = [DOT]) then normalize_loop fuel (skip_slash rest) output else
      let written := Z.of_nat (length output) in
      let separator := if written =? 0 then [] else [SLASH] in
      if bool_decide (s = []) || (Z.of_nat FS_NAME_MAX <? written + Z.of_nat (length separator) + Z.of_nat (length s)) then None
      else normalize_loop fuel (skip_slash rest) (output ++ separator ++ s)
  | _, _ => Some output
  end.

Definition normalize_path (path : list Z) : option (list Z) := normalize_loop (length path) (skip_slash path) [].
