(* ===== verification/Descriptors.v ===== *)
(** * Kernel objects and descriptors of kernel/process.c

    The tables of pipes, sockets, events, timers and memory files, the descriptors that
    refer to them, and memory files: sparse arrays of frames. *)

From S2P Require Import Prelude Runtime Heap HeapFacts Interfaces Filesystem Vm Process.

Section descriptors.
Context {D H : Type} `{!BlockDevice D} `{!Allocator H}.

Notation Kernel := (@Kernel D H).
Notation K := (st Kernel).

(** ** Allocation *)

Definition zero_pipe : PipeObject := mkPipe false zero_queue.
Definition zero_pair : UnixSocketPair := mkPair false [zero_queue; zero_queue].
Definition zero_epoll : EpollObject := mkEpoll false (replicate (Z.to_nat MAX_EPOLL_ENTRIES) zero_epoll_entry).
Definition zero_event : EventObject := mkEvent false false 0.
Definition zero_timer : TimerObject := mkTimer false 0 0.

Definition allocate_pipe_object : K Z :=
  index <- gets (fun k => first_index (fun o => negb (po_used o)) 0 (k_pipe_objects k)) ;;
  if index <? 0 then ret (-1) else
  modify (fun k => set_k_pipe_objects (edit_index index (fun _ => mkPipe true zero_queue) (k_pipe_objects k)) k) ;;;
  ret index.

Definition allocate_socket_pair : K Z :=
  index <- gets (fun k => first_index (fun o => negb (us_used o)) 0 (k_socket_pairs k)) ;;
  if index <? 0 then ret (-1) else
  modify (fun k => set_k_socket_pairs
    (edit_index index (fun _ => mkPair true [zero_queue; zero_queue]) (k_socket_pairs k)) k) ;;;
  ret index.

Definition allocate_epoll_object : K Z :=
  index <- gets (fun k => first_index (fun o => negb (ep_used o)) 0 (k_epoll_objects k)) ;;
  if index <? 0 then ret (-1) else
  modify (fun k => set_k_epoll_objects
    (edit_index index (fun _ => mkEpoll true (ep_entries zero_epoll)) (k_epoll_objects k)) k) ;;;
  ret index.

Definition allocate_event_object : K Z :=
  index <- gets (fun k => first_index (fun o => negb (ev_used o)) 0 (k_event_objects k)) ;;
  if index <? 0 then ret (-1) else
  modify (fun k => set_k_event_objects (edit_index index (fun _ => mkEvent true false 0) (k_event_objects k)) k) ;;;
  ret index.

Definition allocate_timer_object : K Z :=
  index <- gets (fun k => first_index (fun o => negb (tm_used o)) 0 (k_timer_objects k)) ;;
  if index <? 0 then ret (-1) else
  modify (fun k => set_k_timer_objects (edit_index index (fun _ => mkTimer true 0 0) (k_timer_objects k)) k) ;;;
  ret index.

Definition allocate_memfd_object : K Z :=
  index <- gets (fun k => first_index (fun o => negb (mf_used o)) 0 (k_memfd_objects k)) ;;
  if index <? 0 then ret (-1) else
  modify (fun k => set_k_memfd_objects (edit_index index (fun _ => mkMemfd true 1 0 0 0 []) (k_memfd_objects k)) k) ;;;
  ret index.

(** ** Memory files *)

Definition memfd_at (k : Kernel) (index : Z) : MemfdObject := at_index zero_memfd (k_memfd_objects k) index.

Definition edit_memfd (index : Z) (f : MemfdObject -> MemfdObject) : K unit :=
  modify (fun k => set_k_memfd_objects (edit_index index f (k_memfd_objects k)) k).

Fixpoint release_frames (frames : list Z) : K unit :=
  match frames with
  | [] => ret tt
  | f :: frames => (if f =? 0 then ret tt else on_memory (vm_frame_release f)) ;;; release_frames frames
  end.

Definition memfd_live (k : Kernel) (index : Z) : bool :=
  (0 <=? index) && (index <? MAX_MEMFD_OBJECTS) && mf_used (memfd_at k index).

Definition memfd_release_object (index : Z) : K unit :=
  live <- gets (fun k => memfd_live k index) ;;
  if negb live then ret tt else
  object <- gets (fun k => memfd_at k index) ;;
  if mf_references object =? 0 then ret tt else
  let references := u32 (mf_references object - 1) in
  edit_memfd index (set_mf_references references) ;;;
  if negb (references =? 0) then ret tt else
  release_frames (take (Z.to_nat (mf_frame_capacity object)) (mf_frames object)) ;;;
  (if mf_array object =? 0 then ret tt else on_memory (vm_free (mf_array object))) ;;;
  edit_memfd index (fun _ => zero_memfd).

Definition descriptor_retain_resources (f : FileDescriptor) : K unit :=
  live <- gets (fun k => memfd_live k (fd_object f)) ;;
  if negb (fd_type f =? FD_MEMFD) || negb live then ret tt else
  edit_memfd (fd_object f) (fun o => set_mf_references (u32 (mf_references o + 1)) o).

Definition descriptor_release_resources (f : FileDescriptor) : K unit :=
  if fd_type f =? FD_MEMFD then memfd_release_object (fd_object f) else ret tt.

Definition MEMFD_PAGES : Z := MAX_MEMFD_SIZE / VM_PAGE_SIZE.

(** Doubling ends within 64 rounds. *)
Fixpoint grow_capacity (fuel : nat) (capacity page_count : Z) : Z :=
  match fuel with
  | O => capacity
  | S fuel =>
      if negb (capacity <? page_count) then capacity else
      if MEMFD_PAGES / 2 <? capacity then MEMFD_PAGES else grow_capacity fuel (capacity * 2) page_count
  end.

Definition memfd_ensure_capacity (index page_count : Z) : K bool :=
  object <- gets (fun k => memfd_at k index) ;;
  if page_count <=? mf_frame_capacity object then ret true else
  if MEMFD_PAGES <? page_count then ret false else
  let capacity := grow_capacity 64 (if mf_frame_capacity object =? 0 then 4 else mf_frame_capacity object) page_count in
  array <- on_memory (vm_alloc (capacity * 8)) ;;
  if array =? 0 then ret false else
  (if mf_array object =? 0 then ret tt else on_memory (vm_free (mf_array object))) ;;;
  edit_memfd index (fun o => mkMemfd (mf_used o) (mf_references o) (mf_size o) capacity array
    (take (Z.to_nat (mf_frame_capacity o)) (mf_frames o) ++
     replicate (Z.to_nat (capacity - mf_frame_capacity o)) 0)) ;;;
  ret true.

(** Writes to the page of a frame. *)
Definition write_frame (f : Z) (offset : nat) (source : list Z) : st (@VmWorld H) unit :=
  modify (fun w => let d := data (frame_at w f) in
                   with_page_data (<[d := blit offset source (data_at w d)]> (vw_pages w)) w).

Definition frame_of (o : MemfdObject) (page : Z) : Z := at_index 0 (mf_frames o) page.

Fixpoint drop_frames (n : nat) (index page : Z) : K unit :=
  match n with
  | O => ret tt
  | S n =>
      f <- gets (fun k => frame_of (memfd_at k index) page) ;;
      (if f =? 0 then ret tt else
       on_memory (vm_frame_release f) ;;;
       edit_memfd index (fun o => set_mf_frames (edit_index page (fun _ => 0) (mf_frames o)) o)) ;;;
      drop_frames n index (page + 1)
  end.

Definition pages_for (size : Z) : Z := (size + VM_PAGE_SIZE - 1) / VM_PAGE_SIZE.

Definition memfd_set_size (index size : Z) : K bool :=
  if MAX_MEMFD_SIZE <? size then ret false else
  let page_count := pages_for size in
  grown <- memfd_ensure_capacity index page_count ;;
  if negb grown then ret false else
  old_page_count <- gets (fun k => pages_for (mf_size (memfd_at k index))) ;;
  drop_frames (Z.to_nat (old_page_count - page_count)) index page_count ;;;
  last <- gets (fun k => frame_of (memfd_at k index) (page_count - 1)) ;;
  let tail := Z.land size (VM_PAGE_SIZE - 1) in
  (if negb (size =? 0) && negb (tail =? 0) && negb (page_count =? 0) && negb (last =? 0) then
     on_memory (write_frame last (Z.to_nat tail) (replicate (Z.to_nat (VM_PAGE_SIZE - tail)) 0))
   else ret tt) ;;;
  edit_memfd index (set_mf_size size) ;;;
  ret true.

Definition memfd_frame (index page : Z) (create : bool) : K Z :=
  object <- gets (fun k => memfd_at k index) ;;
  if mf_frame_capacity object <=? page then ret 0 else
  if (frame_of object page =? 0) && create then
    f <- on_memory vm_frame_create ;;
    edit_memfd index (fun o => set_mf_frames (edit_index page (fun _ => f) (mf_frames o)) o) ;;;
    ret f
  else ret (frame_of object page).

Definition linux_memfd_create (slot name_address flags : Z) : K Z :=
  if negb (Z.land flags (Z.lnot 3) =? 0) then ret (linux_error LINUX_EINVAL) else
  name <- copy_user_string slot name_address (Z.of_nat FS_NAME_MAX + 1) ;;
  match name with
  | None | Some [] => ret (linux_error LINUX_EINVAL)
  | Some name =>
      object <- allocate_memfd_object ;;
      descriptor <- gets (fun k => find_descriptor (process_at k slot)) ;;
      if (object <? 0) || (descriptor <? 0) then
        (if 0 <=? object then memfd_release_object object else ret tt) ;;;
        ret (linux_error LINUX_ENFILE)
      else
        edit_fd slot descriptor (fun _ => mkFd true FD_MEMFD object 0 name 0 flags) ;;;
        ret descriptor
  end.

(** A descriptor of an open file. *)
Definition open_fd (k : Kernel) (slot descriptor : Z) : option FileDescriptor :=
  let f := fd_at (process_at k slot) descriptor in
  if (descriptor <? 3) || (MAX_FILE_DESCRIPTORS <=? descriptor) || negb (fd_used f) then None else Some f.

Definition linux_ftruncate (slot descriptor size : Z) : K Z :=
  file <- gets (fun k => open_fd k slot descriptor) ;;
  match file with
  | None => ret (linux_error LINUX_EBADF)
  | Some file =>
      live <- gets (fun k => memfd_live k (fd_object file)) ;;
      if negb (fd_type file =? FD_MEMFD) || negb live then ret (linux_error LINUX_EINVAL) else
      done <- memfd_set_size (fd_object file) size ;;
      ret (if done then 0 else linux_error LINUX_EINVAL)
  end.

(** The part of a position range of at most 512 bytes that lies in one page. *)
Definition memfd_chunk (position left : Z) : Z :=
  Z.min (Z.min left (VM_PAGE_SIZE - Z.land position (VM_PAGE_SIZE - 1))) 512.

Fixpoint memfd_read_loop (fuel : nat) (slot index offset buffer count completed : Z) : K (Z * bool) :=
  match fuel with
  | O => ret (completed, true)
  | S fuel =>
      if negb (completed <? count) then ret (completed, true) else
      let position := u64 (offset + completed) in
      let chunk := memfd_chunk position (count - completed) in
      f <- memfd_frame index (position / VM_PAGE_SIZE) false ;;
      source <- gets (fun k => if f =? 0 then replicate (Z.to_nat chunk) 0 else
        slice (Z.to_nat (Z.land position (VM_PAGE_SIZE - 1))) (Z.to_nat chunk)
          (data_at (k_world k) (data (frame_at (k_world k) f)))) ;;
      copied <- copy_to_user slot (u64 (buffer + completed)) source ;;
      if negb copied then ret (completed, false) else
      memfd_read_loop fuel slot index offset buffer count (completed + chunk)
  end.

(** The result of a transfer that stopped early with [error]. *)
Definition stopped (completed error : Z) : Z := if completed =? 0 then linux_error error else completed.

Definition memfd_read_user (slot descriptor buffer count : Z) : K Z :=
  file <- gets (fun k => fd_at (process_at k slot) descriptor) ;;
  object <- gets (fun k => memfd_at k (fd_object file)) ;;
  if mf_size object <=? fd_offset file then ret 0 else
  let count := Z.min count (mf_size object - fd_offset file) in
  let! (completed, ok) := memfd_read_loop (Z.to_nat count) slot (fd_object file) (fd_offset file) buffer count 0 in
  if negb ok then ret (stopped completed LINUX_EFAULT) else
  edit_fd slot descriptor (fun f => set_fd_offset (u64 (fd_offset f + completed)) f) ;;;
  ret completed.

Fixpoint memfd_write_loop (fuel : nat) (slot index offset buffer count completed : Z) : K (Z * Z) :=
  match fuel with
  | O => ret (completed, 0)
  | S fuel =>
      if negb (completed <? count) then ret (completed, 0) else
      let position := u64 (offset + completed) in
      let chunk := memfd_chunk position (count - completed) in
      contents <- copy_from_user slot (u64 (buffer + completed)) (Z.to_nat chunk) ;;
      match contents with
      | None => ret (completed, LINUX_EFAULT)
      | Some contents =>
          f <- memfd_frame index (position / VM_PAGE_SIZE) true ;;
          if f =? 0 then ret (completed, LINUX_ENOMEM) else
          on_memory (write_frame f (Z.to_nat (Z.land position (VM_PAGE_SIZE - 1))) contents) ;;;
          memfd_write_loop fuel slot index offset buffer count (completed + chunk)
      end
  end.

Definition memfd_write_user (slot descriptor buffer count : Z) : K Z :=
  file <- gets (fun k => fd_at (process_at k slot) descriptor) ;;
  if (MAX_MEMFD_SIZE <? count) || (MAX_MEMFD_SIZE - count <? fd_offset file) then ret (linux_error LINUX_EINVAL) else
  object <- gets (fun k => memfd_at k (fd_object file)) ;;
  let end_ := fd_offset file + count in
  sized <- (if mf_size object <? end_ then memfd_set_size (fd_object file) end_ else ret true) ;;
  if negb sized then ret (linux_error LINUX_ENOMEM) else
  let! (completed, error) := memfd_write_loop (Z.to_nat count) slot (fd_object file) (fd_offset file) buffer count 0 in
  if negb (error =? 0) then ret (stopped completed error) else
  edit_fd slot descriptor (fun f => set_fd_offset (u64 (fd_offset f + completed)) f) ;;;
  ret completed.

(** ** Slots of the process table *)

Fixpoint release_descriptors (fds : list FileDescriptor) : K unit :=
  match fds with
  | [] => ret tt
  | f :: fds => (if fd_used f then descriptor_release_resources f else ret tt) ;;; release_descriptors fds
  end.

Definition reset_process_slot (slot : Z) : K unit :=
  p <- gets (fun k => process_at k slot) ;;
  release_descriptors (drop 3 (p_descriptors p)) ;;;
  (if p_address_space p =? 0 then ret tt else address_space_release (p_address_space p)) ;;;
  edit_process slot (fun _ => zero_process).

(** The first slot from [index] on, other than the current one, whose process has ended. *)
Fixpoint first_zombie (index : Z) (current : Z) (l : list Process) : Z :=
  match l with
  | [] => -1
  | p :: l => if negb (index =? current) && (p_state p =? PROCESS_ZOMBIE) then index else first_zombie (index + 1) current l
  end.

Definition reserve_slot : K Z :=
  k <- gets id ;;
  let unused := first_index (fun p => negb (p_used p)) 0 (k_processes k) in
  if 0 <=? unused then ret unused else
  let zombie := first_zombie 0 (k_current_slot k) (k_processes k) in
  if zombie <? 0 then ret (-1) else
  reset_process_slot zombie ;;;
  ret zombie.

End descriptors.
