(* ===== verification/Ipc.v ===== *)
(** * Pipes, sockets, events, timers and readiness of kernel/process.c

    Pipes and Unix sockets are rings of 4096 bytes; events are counters; timers count the
    ticks of the scheduler; [poll] and [epoll] ask which descriptors are ready. *)

From S2P Require Import Prelude Runtime Heap HeapFacts Interfaces Filesystem Vm Process Descriptors.

Definition LINUX_EPOLL_CTL_ADD : Z := 1.
Definition LINUX_EPOLL_CTL_DEL : Z := 2.
Definition LINUX_EPOLL_CTL_MOD : Z := 3.
Definition LINUX_EPOLLIN : Z := 1.
Definition LINUX_EPOLLOUT : Z := 4.

(** ** Rings *)

Fixpoint queue_put (buffer : list Z) (q : IpcQueue) : IpcQueue :=
  match buffer with
  | [] => q
  | b :: buffer =>
      queue_put buffer (mkQueue (edit_index (q_write_offset q) (fun _ => b) (q_data q)) (q_read_offset q)
        ((q_write_offset q + 1) mod IPC_BUFFER_SIZE) (q_count q))
  end.

Fixpoint queue_take (n : nat) (q : IpcQueue) : list Z * IpcQueue :=
  match n with
  | O => ([], q)
  | S n =>
      let b := at_index 0 (q_data q) (q_read_offset q) in
      let '(rest, q) := queue_take n (set_q_read_offset ((q_read_offset q + 1) mod IPC_BUFFER_SIZE) q) in
      (b :: rest, q)
  end.

(** ** Times *)

Record LinuxTimespec := mkTimespec { seconds : Z; nanoseconds : Z }.
Record LinuxItimerspec := mkItimerspec { it_interval : LinuxTimespec; it_value : LinuxTimespec }.

Definition timespec_to_ticks (time : LinuxTimespec) : option Z :=
  if (seconds time <? 0) || (nanoseconds time <? 0) || (1000000000 <=? nanoseconds time) ||
     ((u64 (-1) - 99) / 100 <? seconds time) then None
  else Some (u64 (seconds time * 100 + (nanoseconds time + 9999999) / 10000000)).

Definition ticks_to_timespec (ticks : Z) : LinuxTimespec :=
  mkTimespec (s64 (ticks / 100)) ((ticks mod 100) * 10000000).

Definition encode_timespec (t : LinuxTimespec) : list Z := le 8 (u64 (seconds t)) ++ le 8 (u64 (nanoseconds t)).
Definition decode_timespec (l : list Z) : LinuxTimespec := mkTimespec (s64 (field 0 8 l)) (s64 (field 8 8 l)).

Definition encode_itimerspec (t : LinuxItimerspec) : list Z := encode_timespec (it_interval t) ++ encode_timespec (it_value t).
Definition decode_itimerspec (l : list Z) : LinuxItimerspec :=
  mkItimerspec (decode_timespec (slice 0 16 l)) (decode_timespec (slice 16 16 l)).

(** A queue of a pipe, or of one end of a pair of sockets. *)
Inductive QueueRef := PipeQueue (object : Z) | SocketQueue (object endpoint : Z).

Section ipc.
Context {D H : Type} `{!BlockDevice D} `{!Allocator H}.

Notation Kernel := (@Kernel D H).
Notation K := (st Kernel).

(** ** Transfers *)

Definition pipe_at (k : Kernel) (i : Z) : PipeObject := at_index zero_pipe (k_pipe_objects k) i.
Definition pair_at (k : Kernel) (i : Z) : UnixSocketPair := at_index zero_pair (k_socket_pairs k) i.
Definition epoll_at (k : Kernel) (i : Z) : EpollObject := at_index zero_epoll (k_epoll_objects k) i.
Definition event_at (k : Kernel) (i : Z) : EventObject := at_index zero_event (k_event_objects k) i.
Definition timer_at (k : Kernel) (i : Z) : TimerObject := at_index zero_timer (k_timer_objects k) i.

Definition queue_at (k : Kernel) (r : QueueRef) : IpcQueue :=
  match r with
  | PipeQueue i => po_queue (pipe_at k i)
  | SocketQueue i e => at_index zero_queue (us_incoming (pair_at k i)) e
  end.

Definition edit_queue (r : QueueRef) (f : IpcQueue -> IpcQueue) : K unit :=
  match r with
  | PipeQueue i => modify (fun k => set_k_pipe_objects
      (edit_index i (fun o => set_po_queue (f (po_queue o)) o) (k_pipe_objects k)) k)
  | SocketQueue i e => modify (fun k => set_k_socket_pairs
      (edit_index i (fun o => set_us_incoming (edit_index e f (us_incoming o)) o) (k_socket_pairs k)) k)
  end.

Fixpoint queue_write_loop (fuel : nat) (slot : Z) (r : QueueRef) (source count completed : Z) : K Z :=
  match fuel with
  | O => ret count
  | S fuel =>
      if negb (completed <? count) then ret count else
      let chunk := Z.min (count - completed) 256 in
      buffer <- copy_from_user slot (u64 (source + completed)) (Z.to_nat chunk) ;;
      match buffer with
      | None => ret (linux_error LINUX_EFAULT)
      | Some buffer =>
          edit_queue r (fun q => let q := queue_put buffer q in set_q_count (u32 (q_count q + chunk)) q) ;;;
          queue_write_loop fuel slot r source count (completed + chunk)
      end
  end.

Definition queue_write_user (slot : Z) (r : QueueRef) (source count : Z) : K Z :=
  if count =? 0 then ret 0 else
  q <- gets (fun k => queue_at k r) ;;
  let available := IPC_BUFFER_SIZE - q_count q in
  if available =? 0 then ret (linux_error LINUX_EAGAIN) else
  let count := Z.min count available in
  queue_write_loop (Z.to_nat count) slot r source count 0.

Fixpoint queue_read_loop (fuel : nat) (slot : Z) (r : QueueRef) (destination count completed : Z) : K Z :=
  match fuel with
  | O => ret count
  | S fuel =>
      if negb (completed <? count) then ret count else
      let chunk := Z.min (count - completed) 256 in
      q <- gets (fun k => queue_at k r) ;;
      let '(buffer, q) := queue_take (Z.to_nat chunk) q in
      edit_queue r (fun _ => q) ;;;
      copied <- copy_to_user slot (u64 (destination + completed)) buffer ;;
      if negb copied then ret (linux_error LINUX_EFAULT) else
      edit_queue r (fun q => set_q_count (u32 (q_count q - chunk)) q) ;;;
      queue_read_loop fuel slot r destination count (completed + chunk)
  end.

Definition queue_read_user (slot : Z) (r : QueueRef) (destination count : Z) : K Z :=
  if count =? 0 then ret 0 else
  q <- gets (fun k => queue_at k r) ;;
  if q_count q =? 0 then ret (linux_error LINUX_EAGAIN) else
  let count := Z.min count (q_count q) in
  queue_read_loop (Z.to_nat count) slot r destination count 0.

Definition pair_end (k : Kernel) (f : FileDescriptor) : bool :=
  (fd_type f =? FD_UNIX_SOCKET) && (0 <=? fd_object f) && (fd_object f <? MAX_SOCKET_PAIRS) &&
  us_used (pair_at k (fd_object f)) && ((fd_endpoint f =? 0) || (fd_endpoint f =? 1)).

Definition pipe_end (k : Kernel) (type : Z) (f : FileDescriptor) : bool :=
  (fd_type f =? type) && (0 <=? fd_object f) && (fd_object f <? MAX_PIPE_OBJECTS) && po_used (pipe_at k (fd_object f)).

Definition descriptor_read_queue (k : Kernel) (f : FileDescriptor) : option QueueRef :=
  if pipe_end k FD_PIPE_READ f then Some (PipeQueue (fd_object f))
  else if pair_end k f then Some (SocketQueue (fd_object f) (fd_endpoint f)) else None.

Definition descriptor_write_queue (k : Kernel) (f : FileDescriptor) : option QueueRef :=
  if pipe_end k FD_PIPE_WRITE f then Some (PipeQueue (fd_object f))
  else if pair_end k f then Some (SocketQueue (fd_object f) (1 - fd_endpoint f)) else None.

(** ** Two descriptors for one object *)

(** Descriptors [first] and [second] are opened with the records [a] and [b] of the object;
    [release] gives it back when that fails. *)
Definition open_two (slot object : Z) (a b : FileDescriptor) (release : K unit) (result_address : Z) : K Z :=
  first <- gets (fun k => find_descriptor (process_at k slot)) ;;
  if (object <? 0) || (first <? 0) then ret (linux_error LINUX_ENFILE) else
  edit_fd slot first (set_fd_used true) ;;;
  second <- gets (fun k => find_descriptor (process_at k slot)) ;;
  if second <? 0 then
    edit_fd slot first (fun _ => zero_fd) ;;;
    release ;;;
    ret (linux_error LINUX_ENFILE)
  else
    edit_fd slot first (fun _ => a) ;;;
    edit_fd slot second (fun _ => b) ;;;
    copied <- copy_to_user slot result_address (le 4 first ++ le 4 second) ;;
    if negb copied then
      edit_fd slot first (fun _ => zero_fd) ;;;
      edit_fd slot second (fun _ => zero_fd) ;;;
      release ;;;
      ret (linux_error LINUX_EFAULT)
    else ret 0.

Definition linux_pipe2 (slot result_address : Z) : K Z :=
  object <- allocate_pipe_object ;;
  open_two slot object (mkFd true FD_PIPE_READ object 0 [] 0 0) (mkFd true FD_PIPE_WRITE object 0 [] 0 0)
    (modify (fun k => set_k_pipe_objects (edit_index object (set_po_used false) (k_pipe_objects k)) k)) result_address.

Definition linux_socketpair (slot domain type result_address : Z) : K Z :=
  if negb (domain =? 1) || negb (Z.land type 0xF =? 1) then ret (linux_error LINUX_EINVAL) else
  object <- allocate_socket_pair ;;
  open_two slot object (mkFd true FD_UNIX_SOCKET object 0 [] 0 0) (mkFd true FD_UNIX_SOCKET object 1 [] 0 0)
    (modify (fun k => set_k_socket_pairs (edit_index object (set_us_used false) (k_socket_pairs k)) k)) result_address.

(** ** Events *)

Definition edit_event (i : Z) (f : EventObject -> EventObject) : K unit :=
  modify (fun k => set_k_event_objects (edit_index i f (k_event_objects k)) k).

Definition event_live (k : Kernel) (i : Z) : bool := (0 <=? i) && (i <? MAX_EVENT_OBJECTS) && ev_used (event_at k i).

Definition eventfd_read (slot : Z) (f : FileDescriptor) (buffer count : Z) : K Z :=
  k <- gets id ;;
  if (count <? 8) || negb (event_live k (fd_object f)) then ret (linux_error LINUX_EINVAL) else
  let event := event_at k (fd_object f) in
  if ev_counter event =? 0 then ret (linux_error LINUX_EAGAIN) else
  let value := if ev_semaphore event then 1 else ev_counter event in
  copied <- copy_to_user slot buffer (le 8 value) ;;
  if negb copied then ret (linux_error LINUX_EFAULT) else
  edit_event (fd_object f) (fun e => set_ev_counter (if ev_semaphore e then ev_counter e - 1 else 0) e) ;;;
  ret 8.

Definition eventfd_write (slot : Z) (f : FileDescriptor) (buffer count : Z) : K Z :=
  k <- gets id ;;
  if (count <? 8) || negb (event_live k (fd_object f)) then ret (linux_error LINUX_EINVAL) else
  bytes <- copy_from_user slot buffer 8 ;;
  match bytes with
  | None => ret (linux_error LINUX_EFAULT)
  | Some bytes =>
      let value := of_le bytes in
      if value =? u64 (-1) then ret (linux_error LINUX_EINVAL) else
      if u64 (u64 (-2) - value) <? ev_counter (event_at k (fd_object f)) then ret (linux_error LINUX_EAGAIN) else
      edit_event (fd_object f) (fun e => set_ev_counter (u64 (ev_counter e + value)) e) ;;;
      ret 8
  end.

Definition linux_eventfd2 (slot initial_value flags : Z) : K Z :=
  if (0xFFFFFFFF <? initial_value) || negb (Z.land flags (Z.lnot 0x80801) =? 0) then ret (linux_error LINUX_EINVAL) else
  object <- allocate_event_object ;;
  descriptor <- gets (fun k => find_descriptor (process_at k slot)) ;;
  if (object <? 0) || (descriptor <? 0) then ret (linux_error LINUX_ENFILE) else
  edit_event object (fun e => set_ev_semaphore (negb (Z.land flags 1 =? 0)) (set_ev_counter initial_value e)) ;;;
  edit_fd slot descriptor (fun _ => mkFd true FD_EVENTFD object 0 [] 0 flags) ;;;
  ret descriptor.

(** ** Timers *)

Definition edit_timer (i : Z) (f : TimerObject -> TimerObject) : K unit :=
  modify (fun k => set_k_timer_objects (edit_index i f (k_timer_objects k)) k).

Definition timer_live (k : Kernel) (i : Z) : bool := (0 <=? i) && (i <? MAX_TIMER_OBJECTS) && tm_used (timer_at k i).

(** The number of expirations up to [now], and the timer after they were read. *)
Definition timer_expire (now : Z) (timer : TimerObject) : Z * TimerObject :=
  if tm_interval timer =? 0 then (1, set_tm_expires 0 timer)
  else
    let expirations := 1 + (now - tm_expires timer) / tm_interval timer in
    (expirations, set_tm_expires (u64 (tm_expires timer + expirations * tm_interval timer)) timer).

Definition timerfd_read (slot : Z) (f : FileDescriptor) (buffer count : Z) : K Z :=
  k <- gets id ;;
  if (count <? 8) || negb (timer_live k (fd_object f)) then ret (linux_error LINUX_EINVAL) else
  let timer := timer_at k (fd_object f) in
  if (tm_expires timer =? 0) || (k_scheduler_ticks k <? tm_expires timer) then ret (linux_error LINUX_EAGAIN) else
  let '(expirations, timer) := timer_expire (k_scheduler_ticks k) timer in
  edit_timer (fd_object f) (fun _ => timer) ;;;
  copied <- copy_to_user slot buffer (le 8 expirations) ;;
  ret (if copied then 8 else linux_error LINUX_EFAULT).

Definition linux_timerfd_create (slot clock_id flags : Z) : K Z :=
  if (negb (clock_id =? 0) && negb (clock_id =? 1)) || negb (Z.land flags (Z.lnot 0x80800) =? 0)
  then ret (linux_error LINUX_EINVAL) else
  object <- allocate_timer_object ;;
  descriptor <- gets (fun k => find_descriptor (process_at k slot)) ;;
  if (object <? 0) || (descriptor <? 0) then ret (linux_error LINUX_ENFILE) else
  edit_fd slot descriptor (fun _ => mkFd true FD_TIMERFD object 0 [] 0 flags) ;;;
  ret descriptor.

Definition timerfd_current_spec (now : Z) (timer : TimerObject) : LinuxItimerspec :=
  let remaining := if now <? tm_expires timer then tm_expires timer - now else 0 in
  mkItimerspec (ticks_to_timespec (tm_interval timer)) (ticks_to_timespec remaining).

(** The timer of a descriptor. *)
Definition timer_fd (k : Kernel) (slot descriptor : Z) : option Z :=
  match open_fd k slot descriptor with
  | Some f => if fd_type f =? FD_TIMERFD then Some (fd_object f) else None
  | None => None
  end.

Definition linux_timerfd_settime (slot descriptor flags new_address old_address : Z) : K Z :=
  object <- gets (fun k => timer_fd k slot descriptor) ;;
  match object with
  | None => ret (linux_error LINUX_EINVAL)
  | Some object =>
      if negb (Z.land flags (Z.lnot 1) =? 0) then ret (linux_error LINUX_EINVAL) else
      if new_address =? 0 then ret (linux_error LINUX_EFAULT) else
      bytes <- copy_from_user slot new_address 32 ;;
      match bytes with
      | None => ret (linux_error LINUX_EFAULT)
      | Some bytes =>
          let requested := decode_itimerspec bytes in
          match timespec_to_ticks (it_value requested), timespec_to_ticks (it_interval requested) with
          | Some value_ticks, Some interval_ticks =>
              k <- gets id ;;
              copied <- (if old_address =? 0 then ret true else
                copy_to_user slot old_address
                  (encode_itimerspec (timerfd_current_spec (k_scheduler_ticks k) (timer_at k object)))) ;;
              if negb copied then ret (linux_error LINUX_EFAULT) else
              edit_timer object (set_tm_interval interval_ticks) ;;;
              if value_ticks =? 0 then edit_timer object (set_tm_expires 0) ;;; ret 0
              else if negb (Z.land flags 1 =? 0) then edit_timer object (set_tm_expires value_ticks) ;;; ret 0
              else if u64 (-1) - value_ticks <? k_scheduler_ticks k then ret (linux_error LINUX_EINVAL)
              else edit_timer object (set_tm_expires (k_scheduler_ticks k + value_ticks)) ;;; ret 0
          | _, _ => ret (linux_error LINUX_EINVAL)
          end
      end
  end.

Definition linux_timerfd_gettime (slot descriptor current_address : Z) : K Z :=
  object <- gets (fun k => timer_fd k slot descriptor) ;;
  match object with
  | None => ret (linux_error LINUX_EINVAL)
  | Some object =>
      k <- gets id ;;
      copied <- copy_to_user slot current_address
        (encode_itimerspec (timerfd_current_spec (k_scheduler_ticks k) (timer_at k object))) ;;
      ret (if copied then 0 else linux_error LINUX_EFAULT)
  end.

(** ** Readiness *)

Definition flag_if (b : bool) (flag : Z) : Z := if b then flag else 0.

Definition descriptor_ready_events (k : Kernel) (slot descriptor requested : Z) : Z :=
  let file := fd_at (process_at k slot) descriptor in
  if (descriptor <? 0) || (MAX_FILE_DESCRIPTORS <=? descriptor) || negb (fd_used file) then 0 else
  let input := has requested LINUX_EPOLLIN in
  let output := has requested LINUX_EPOLLOUT in
  let event := (fd_type file =? FD_EVENTFD) && event_live k (fd_object file) in
  let counter := ev_counter (event_at k (fd_object file)) in
  let timer := timer_at k (fd_object file) in
  let plain := (fd_type file =? FD_FILE) || (fd_type file =? FD_MEMFD) in
  let waiting := match descriptor_read_queue k file with Some r => negb (q_count (queue_at k r) =? 0) | None => false end in
  let room := match descriptor_write_queue k file with Some r => q_count (queue_at k r) <? IPC_BUFFER_SIZE | None => false end in
  let ready := flag_if (event && input && negb (counter =? 0)) LINUX_EPOLLIN in
  let ready := Z.lor ready (flag_if (event && output && (counter <? u64 (-2))) LINUX_EPOLLOUT) in
  let ready := Z.lor ready (flag_if ((fd_type file =? FD_TIMERFD) && timer_live k (fd_object file) && input &&
    negb (tm_expires timer =? 0) && (tm_expires timer <=? k_scheduler_ticks k)) LINUX_EPOLLIN) in
  let ready := Z.lor ready (flag_if (input && (waiting || plain)) LINUX_EPOLLIN) in
  Z.lor ready (flag_if (output && (room || plain)) LINUX_EPOLLOUT).

(** A [LinuxPollFd] is a descriptor, the events asked for and the events returned. *)
Definition poll_answer (k : Kernel) (slot descriptor events : Z) : Z :=
  if descriptor <? 0 then 0 else
  if (MAX_FILE_DESCRIPTORS <=? descriptor) || negb (fd_used (fd_at (process_at k slot) descriptor)) then 0x20
  else s16 (descriptor_ready_events k slot descriptor (u16 events)).

Fixpoint poll_loop (n : nat) (slot address ready_count : Z) : K Z :=
  match n with
  | O => ret ready_count
  | S n =>
      bytes <- copy_from_user slot address 8 ;;
      match bytes with
      | None => ret (linux_error LINUX_EFAULT)
      | Some bytes =>
          answer <- gets (fun k => poll_answer k slot (s32 (field 0 4 bytes)) (s16 (field 4 2 bytes))) ;;
          copied <- copy_to_user slot address (take 6 bytes ++ le 2 (u16 answer)) ;;
          if negb copied then ret (linux_error LINUX_EFAULT) else
          poll_loop n slot (u64 (address + 8)) (if answer =? 0 then ready_count else ready_count + 1)
      end
  end.

Definition linux_poll (slot descriptors descriptor_count : Z) : K Z :=
  if MAX_FILE_DESCRIPTORS <? descriptor_count then ret (linux_error LINUX_EINVAL)
  else poll_loop (Z.to_nat descriptor_count) slot descriptors 0.

Definition linux_epoll_create (slot : Z) : K Z :=
  object <- allocate_epoll_object ;;
  descriptor <- gets (fun k => find_descriptor (process_at k slot)) ;;
  if (object <? 0) || (descriptor <? 0) then ret (linux_error LINUX_ENFILE) else
  edit_fd slot descriptor (fun _ => mkFd true FD_EPOLL object 0 [] 0 0) ;;;
  ret descriptor.

(** The last entry for a descriptor, -1 for none. *)
Fixpoint epoll_existing (index : Z) (target : Z) (l : list EpollEntry) (found : Z) : Z :=
  match l with
  | [] => found
  | e :: l => epoll_existing (index + 1) target l (if ee_used e && (ee_descriptor e =? target) then index else found)
  end.

Definition epoll_fd (k : Kernel) (slot descriptor : Z) : option Z :=
  match open_fd k slot descriptor with
  | Some f => if fd_type f =? FD_EPOLL then Some (fd_object f) else None
  | None => None
  end.

Definition edit_epoll_entry (object index : Z) (f : EpollEntry -> EpollEntry) : K unit :=
  modify (fun k => set_k_epoll_objects
    (edit_index object (fun o => set_ep_entries (edit_index index f (ep_entries o)) o) (k_epoll_objects k)) k).

Definition linux_epoll_ctl (slot epoll_descriptor operation target_descriptor event_address : Z) : K Z :=
  k <- gets id ;;
  match epoll_fd k slot epoll_descriptor with
  | None => ret (linux_error LINUX_EBADF)
  | Some object =>
      if (target_descriptor <? 0) || (MAX_FILE_DESCRIPTORS <=? target_descriptor) ||
         negb (fd_used (fd_at (process_at k slot) target_descriptor)) then ret (linux_error LINUX_EBADF) else
      let entries := ep_entries (epoll_at k object) in
      let existing := epoll_existing 0 target_descriptor entries (-1) in
      let available := first_index (fun e => negb (ee_used e)) 0 entries in
      if operation =? LINUX_EPOLL_CTL_DEL then
        if existing <? 0 then ret (linux_error LINUX_ENOENT)
        else edit_epoll_entry object existing (fun _ => zero_epoll_entry) ;;; ret 0
      else
        if event_address =? 0 then ret (linux_error LINUX_EFAULT) else
        bytes <- copy_from_user slot event_address 12 ;;
        match bytes with
        | None => ret (linux_error LINUX_EFAULT)
        | Some bytes =>
            let entry := if operation =? LINUX_EPOLL_CTL_ADD then available else existing in
            if (operation =? LINUX_EPOLL_CTL_ADD) && (0 <=? existing) then ret (linux_error LINUX_EEXIST) else
            if (negb (operation =? LINUX_EPOLL_CTL_ADD) && negb (operation =? LINUX_EPOLL_CTL_MOD)) || (entry <? 0)
            then ret (linux_error LINUX_EINVAL) else
            edit_epoll_entry object entry
              (fun _ => mkEpollEntry true target_descriptor (field 0 4 bytes) (field 4 8 bytes)) ;;;
            ret 0
        end
  end.

Fixpoint epoll_wait_loop (l : list EpollEntry) (slot events_address maximum_events count : Z) : K Z :=
  match l with
  | [] => ret count
  | e :: l =>
      if negb (count <? maximum_events) then ret count else
      ready <- gets (fun k => if ee_used e then descriptor_ready_events k slot (ee_descriptor e) (ee_events e) else 0) ;;
      if ready =? 0 then epoll_wait_loop l slot events_address maximum_events count else
      copied <- copy_to_user slot (u64 (events_address + count * 12)) (le 4 ready ++ le 8 (ee_data e)) ;;
      if negb copied then ret (linux_error LINUX_EFAULT) else
      epoll_wait_loop l slot events_address maximum_events (count + 1)
  end.

Definition linux_epoll_wait (slot epoll_descriptor events_address maximum_events : Z) : K Z :=
  k <- gets id ;;
  match epoll_fd k slot epoll_descriptor with
  | None => ret (linux_error LINUX_EINVAL)
  | Some object =>
      if maximum_events <=? 0 then ret (linux_error LINUX_EINVAL)
      else epoll_wait_loop (ep_entries (epoll_at k object)) slot events_address maximum_events 0
  end.

End ipc.
