(* ===== verification/FileCalls.v ===== *)
(** * Files, directories and descriptors: the system calls of kernel/process.c on them *)

From S2P Require Import Prelude Runtime Heap HeapFacts Interfaces Filesystem Vm Process Descriptors Ipc.

Definition LINUX_O_WRONLY : Z := 1.
Definition LINUX_O_RDWR : Z := 2.
Definition LINUX_O_CREAT : Z := 64.
Definition LINUX_O_TRUNC : Z := 512.
Definition LINUX_O_APPEND : Z := 1024.
Definition LINUX_O_DIRECTORY : Z := 65536.
Definition LINUX_AT_REMOVEDIR : Z := 0x200.

Definition directory_entry_type (type : Z) : Z :=
  if type =? FS_TYPE_DIRECTORY then 4 else if type =? FS_TYPE_SYMLINK then 10 else 8.

(** The name of an entry right below [directory]. *)
Definition immediate_child_name (directory path : list Z) : option (list Z) :=
  let relative :=
    match directory with
    | [] => Some path
    | _ =>
        let n := length directory in
        if bool_decide (take n path = directory) && bool_decide (head (drop n path) = Some SLASH)
        then Some (drop (n + 1) path) else None
    end in
  match relative with
  | Some (c :: rest) => if bool_decide (SLASH ∈ c :: rest) then None else Some (c :: rest)
  | _ => None
  end.

(** ** Status records *)

Record LinuxStat := mkStat {
  st_inode : Z; st_links : Z; st_mode : Z; st_uid : Z; st_size : Z; st_block_size : Z; st_blocks : Z }.

(** The device, the group, the times and the reserved words are zero. *)
Definition encode_stat (s : LinuxStat) : list Z :=
  le 8 0 ++ le 8 (st_inode s) ++ le 8 (st_links s) ++ le 4 (st_mode s) ++ le 4 (st_uid s) ++ le 4 0 ++ le 4 0 ++
  le 8 0 ++ le 8 (st_size s) ++ le 8 (st_block_size s) ++ le 8 (st_blocks s) ++ replicate 72 0.

Section files.
Context {D H : Type} `{!BlockDevice D} `{!Allocator H}.

Notation Kernel := (@Kernel D H).
Notation K := (st Kernel).

Definition file_info (name : list Z) : K (option FsFileInfo) := on_fs (fs_path_info name true).

Definition normalized_user_path (slot address : Z) : K (option (list Z)) :=
  path <- copy_user_string slot address (Z.of_nat FS_NAME_MAX + 2) ;;
  ret (match path with Some path => normalize_path path | None => None end).

(** ** Opening *)

Definition open_file (slot : Z) (name : list Z) (directory : bool) (flags : Z) : K Z :=
  descriptor <- gets (fun k => find_descriptor (process_at k slot)) ;;
  if descriptor <? 0 then ret (linux_error LINUX_ENFILE) else
  edit_fd slot descriptor (fun _ => mkFd true (if directory then FD_DIRECTORY else FD_FILE) 0 0 name 0 flags) ;;;
  (if has flags LINUX_O_APPEND then
     info <- file_info name ;;
     match info with Some info => edit_fd slot descriptor (set_fd_offset (fi_size info)) | None => ret tt end
   else ret tt) ;;;
  ret descriptor.

Definition is_nil {A} (l : list A) : bool := match l with [] => true | _ => false end.

Definition linux_openat (slot path_address flags : Z) : K Z :=
  name <- normalized_user_path slot path_address ;;
  match name with
  | None => ret (linux_error LINUX_EFAULT)
  | Some name =>
      let root := is_nil name in
      found <- (if root then ret true else info <- file_info name ;; ret (bool_decide (is_Some info))) ;;
      if negb found && negb (has flags LINUX_O_CREAT) then ret (linux_error LINUX_ENOENT) else
      if root && has flags LINUX_O_CREAT then ret (linux_error LINUX_EISDIR) else
      created <- (if found then ret true else on_fs (fs_write name [])) ;;
      if negb created then ret (linux_error LINUX_EACCES) else
      info <- (if root then ret None else file_info name) ;;
      if negb root && negb (bool_decide (is_Some info)) then ret (linux_error LINUX_EIO) else
      let directory := root || match info with Some info => fi_type info =? FS_TYPE_DIRECTORY | None => false end in
      if has flags LINUX_O_DIRECTORY && negb directory then ret (linux_error LINUX_ENOTDIR) else
      if directory && has flags (Z.lor (Z.lor LINUX_O_WRONLY LINUX_O_RDWR) LINUX_O_TRUNC)
      then ret (linux_error LINUX_EISDIR) else
      truncated <- (if found && has flags LINUX_O_TRUNC then on_fs (fs_write name []) else ret true) ;;
      if negb truncated then ret (linux_error LINUX_EACCES) else
      open_file slot name directory flags
  end.

(** ** Directories *)

Definition dirent (index : Z) (info : FsFileInfo) (child : list Z) (record_length : Z) : list Z :=
  take (Z.to_nat record_length) (le 8 (index + 2) ++ le 8 (index + 1) ++ le 2 record_length ++
    [directory_entry_type (fi_type info)] ++ child ++ replicate 64 0).

(** [None]: the name does not fit in the record of 64 bytes, and the stack is overwritten. *)
Fixpoint getdents_loop (n : nat) (slot descriptor buffer capacity index written : Z) : K (option Z) :=
  match n with
  | O => ret (Some written)
  | S n =>
      edit_fd slot descriptor (set_fd_offset (u32 (index + 1))) ;;;
      directory <- gets (fun k => fd_at (process_at k slot) descriptor) ;;
      info <- gets (fun k => fs_file_info index (k_fs k)) ;;
      match info with
      | None => getdents_loop n slot descriptor buffer capacity (index + 1) written
      | Some info =>
          match immediate_child_name (fd_name directory) (fi_name info) with
          | None => getdents_loop n slot descriptor buffer capacity (index + 1) written
          | Some child =>
              let name_length := Z.of_nat (length child) + 1 in
              let record_length := u16 (Z.land (19 + name_length + 7) (Z.lnot 7)) in
              if capacity <? written + record_length then
                edit_fd slot descriptor (set_fd_offset (u32 index)) ;;;
                ret (Some (if written =? 0 then linux_error LINUX_EINVAL else written))
              else if 64 <? 19 + name_length then ret None
              else
                copied <- copy_to_user slot (u64 (buffer + written)) (dirent index info child record_length) ;;
                if negb copied then ret (Some (linux_error LINUX_EFAULT)) else
                getdents_loop n slot descriptor buffer capacity (index + 1) (written + record_length)
          end
      end
  end.

Definition linux_getdents64 (slot descriptor buffer capacity : Z) : K (option Z) :=
  file <- gets (fun k => open_fd k slot descriptor) ;;
  match file with
  | None => ret (Some (linux_error LINUX_EBADF))
  | Some file =>
      if negb (fd_type file =? FD_DIRECTORY) then ret (Some (linux_error LINUX_ENOTDIR)) else
      total <- gets (fun k => fs_file_count (k_fs k)) ;;
      let first := s32 (fd_offset file) in
      getdents_loop (Z.to_nat (total - first)) slot descriptor buffer capacity first 0
  end.

Definition linux_mkdir_path (slot path_address mode : Z) : K Z :=
  name <- normalized_user_path slot path_address ;;
  match name with
  | None => ret (linux_error LINUX_EFAULT)
  | Some name =>
      if is_nil name then ret (linux_error LINUX_EEXIST) else
      info <- on_fs (fs_path_info name false) ;;
      if bool_decide (is_Some info) then ret (linux_error LINUX_EEXIST) else
      made <- on_fs (fs_mkdir name (Z.land mode 511)) ;;
      ret (if made then 0 else linux_error LINUX_ENOENT)
  end.

Definition linux_symlink_path (slot target_address link_address : Z) : K Z :=
  target <- copy_user_string slot target_address (Z.of_nat FS_NAME_MAX + 2) ;;
  match target with
  | None => ret (linux_error LINUX_EFAULT)
  | Some target =>
      name <- normalized_user_path slot link_address ;;
      match name with
      | None => ret (linux_error LINUX_EFAULT)
      | Some name =>
          if is_nil target || is_nil name then ret (linux_error LINUX_EINVAL) else
          info <- on_fs (fs_path_info name false) ;;
          if bool_decide (is_Some info) then ret (linux_error LINUX_EEXIST) else
          made <- on_fs (fs_symlink target name) ;;
          ret (if made then 0 else linux_error LINUX_ENOENT)
      end
  end.

Definition linux_readlink_path (slot path_address buffer capacity : Z) : K Z :=
  if capacity =? 0 then ret (linux_error LINUX_EINVAL) else
  name <- normalized_user_path slot path_address ;;
  match name with
  | None => ret (linux_error LINUX_EFAULT)
  | Some name =>
      let wanted := if capacity <? Z.of_nat FS_NAME_MAX then capacity else Z.of_nat FS_NAME_MAX in
      target <- on_fs (fs_readlink name wanted) ;;
      match target with
      | None => ret (linux_error LINUX_EINVAL)
      | Some target =>
          copied <- copy_to_user slot buffer target ;;
          ret (if copied then Z.of_nat (length target) else linux_error LINUX_EFAULT)
      end
  end.

Definition linux_unlink_path (slot path_address flags : Z) : K Z :=
  name <- normalized_user_path slot path_address ;;
  match name with
  | None => ret (linux_error LINUX_EFAULT)
  | Some name =>
      if is_nil name then ret (linux_error LINUX_EBUSY) else
      info <- on_fs (fs_path_info name false) ;;
      match info with
      | None => ret (linux_error LINUX_ENOENT)
      | Some info =>
          let directory := fi_type info =? FS_TYPE_DIRECTORY in
          if directory && negb (has flags LINUX_AT_REMOVEDIR) then ret (linux_error LINUX_EISDIR) else
          if negb directory && has flags LINUX_AT_REMOVEDIR then ret (linux_error LINUX_ENOTDIR) else
          deleted <- on_fs (fs_delete name) ;;
          ret (if deleted then 0 else linux_error (if directory then LINUX_ENOTEMPTY else LINUX_EACCES))
      end
  end.

Definition linux_access_path (slot path_address : Z) : K Z :=
  name <- normalized_user_path slot path_address ;;
  match name with
  | None => ret (linux_error LINUX_EFAULT)
  | Some name =>
      if is_nil name then ret 0 else
      info <- file_info name ;;
      ret (if bool_decide (is_Some info) then 0 else linux_error LINUX_ENOENT)
  end.

(** ** Reading and writing *)

(** Whether all was transferred, and how much. *)
Fixpoint file_read_loop (fuel : nat) (slot : Z) (name : list Z) (offset buffer count completed : Z) : K (bool * Z) :=
  match fuel with
  | O => ret (true, completed)
  | S fuel =>
      if negb (completed <? count) then ret (true, completed) else
      contents <- on_fs (fs_read_at name (u64 (offset + completed)) (Z.min (count - completed) 512)) ;;
      match contents with
      | None | Some [] => ret (false, completed)
      | Some contents =>
          copied <- copy_to_user slot (u64 (buffer + completed)) contents ;;
          if negb copied then ret (false, completed) else
          file_read_loop fuel slot name offset buffer count (completed + Z.of_nat (length contents))
      end
  end.

Definition file_read (slot descriptor : Z) (file : FileDescriptor) (buffer count : Z) : K Z :=
  if Z.land (fd_flags file) 3 =? LINUX_O_WRONLY then ret (linux_error LINUX_EBADF) else
  info <- file_info (fd_name file) ;;
  match info with
  | None => ret (linux_error LINUX_ENOENT)
  | Some info =>
      if fi_size info <=? fd_offset file then ret 0 else
      let count := Z.min count (fi_size info - fd_offset file) in
      let! (ok, completed) := file_read_loop (Z.to_nat count) slot (fd_name file) (fd_offset file) buffer count 0 in
      if negb ok then ret (stopped completed LINUX_EFAULT) else
      edit_fd slot descriptor (fun f => set_fd_offset (u64 (fd_offset f + completed)) f) ;;;
      ret completed
  end.

Definition linux_read (slot descriptor buffer count : Z) : K Z :=
  k <- gets id ;;
  match open_fd k slot descriptor with
  | None => ret (linux_error LINUX_EBADF)
  | Some file =>
      if (fd_type file =? FD_MEMFD) && memfd_live k (fd_object file) then memfd_read_user slot descriptor buffer count else
      if fd_type file =? FD_EVENTFD then eventfd_read slot file buffer count else
      if fd_type file =? FD_TIMERFD then timerfd_read slot file buffer count else
      match descriptor_read_queue k file with
      | Some r => queue_read_user slot r buffer count
      | None =>
          if negb (fd_type file =? FD_FILE) then ret (linux_error LINUX_EBADF)
          else file_read slot descriptor file buffer count
      end
  end.

Fixpoint file_write_loop (fuel : nat) (slot : Z) (name : list Z) (offset buffer count completed : Z) : K (bool * Z) :=
  match fuel with
  | O => ret (true, completed)
  | S fuel =>
      if negb (completed <? count) then ret (true, completed) else
      let chunk := Z.min (count - completed) 512 in
      contents <- copy_from_user slot (u64 (buffer + completed)) (Z.to_nat chunk) ;;
      match contents with
      | None => ret (false, completed)
      | Some contents =>
          written <- on_fs (fs_write_at name (u64 (offset + completed)) contents) ;;
          if negb written then ret (false, completed) else
          file_write_loop fuel slot name offset buffer count (completed + chunk)
      end
  end.

Definition file_write (slot descriptor : Z) (file : FileDescriptor) (buffer count : Z) : K Z :=
  if Z.land (fd_flags file) 3 =? 0 then ret (linux_error LINUX_EBADF) else
  (if has (fd_flags file) LINUX_O_APPEND then
     info <- file_info (fd_name file) ;;
     edit_fd slot descriptor (set_fd_offset (match info with Some info => fi_size info | None => 0 end))
   else ret tt) ;;;
  offset <- gets (fun k => fd_offset (fd_at (process_at k slot) descriptor)) ;;
  let! (ok, completed) := file_write_loop (Z.to_nat count) slot (fd_name file) offset buffer count 0 in
  if negb ok then ret (stopped completed LINUX_EFAULT) else
  edit_fd slot descriptor (fun f => set_fd_offset (u64 (fd_offset f + completed)) f) ;;;
  ret completed.

Definition linux_write_file (slot descriptor buffer count : Z) : K Z :=
  k <- gets id ;;
  match open_fd k slot descriptor with
  | None => ret (linux_error LINUX_EBADF)
  | Some file =>
      if (fd_type file =? FD_MEMFD) && memfd_live k (fd_object file) then memfd_write_user slot descriptor buffer count else
      if fd_type file =? FD_EVENTFD then eventfd_write slot file buffer count else
      match descriptor_write_queue k file with
      | Some r => queue_write_user slot r buffer count
      | None =>
          if negb (fd_type file =? FD_FILE) then ret (linux_error LINUX_EBADF)
          else file_write slot descriptor file buffer count
      end
  end.

(** What the call did so far, or an error when it did nothing. *)
Definition so_far (total result : Z) : Z := if total =? 0 then result else total.

Fixpoint vector_loop (n : nat) (slot descriptor vectors : Z) (writing : bool) (total : Z) : K Z :=
  match n with
  | O => ret total
  | S n =>
      bytes <- copy_from_user slot vectors 16 ;;
      match bytes with
      | None => ret (so_far total (linux_error LINUX_EFAULT))
      | Some bytes =>
          let base := field 0 8 bytes in
          let length := field 8 8 bytes in
          if (0x7FFFFFFF <? length) || (u64 (total + length) <? total) then ret (so_far total (linux_error LINUX_EINVAL)) else
          result <- (if writing && ((descriptor =? 1) || (descriptor =? 2)) then write_console slot base length
                     else if writing then linux_write_file slot descriptor base length
                     else linux_read slot descriptor base length) ;;
          if s64 result <? 0 then ret (so_far total result) else
          if result <? length then ret (u64 (total + result)) else
          vector_loop n slot descriptor (u64 (vectors + 16)) writing (u64 (total + result))
      end
  end.

Definition linux_vector_io (slot descriptor vectors count : Z) (writing : bool) : K Z :=
  if (count <? 0) || (1024 <? count) then ret (linux_error LINUX_EINVAL)
  else vector_loop (Z.to_nat count) slot descriptor vectors writing 0.

Definition linux_positioned_io (slot descriptor buffer count offset : Z) (writing : bool) : K Z :=
  file <- gets (fun k => open_fd k slot descriptor) ;;
  match file with
  | None => ret (linux_error LINUX_EBADF)
  | Some file =>
      edit_fd slot descriptor (set_fd_offset offset) ;;;
      result <- (if writing then linux_write_file slot descriptor buffer count else linux_read slot descriptor buffer count) ;;
      edit_fd slot descriptor (set_fd_offset (fd_offset file)) ;;;
      ret result
  end.

(** ** Descriptors *)

Definition linux_duplicate_descriptor (slot old_descriptor new_descriptor : Z) (exact : bool) : K Z :=
  k <- gets id ;;
  match open_fd k slot old_descriptor with
  | None => ret (linux_error LINUX_EBADF)
  | Some file =>
      let new := if exact then new_descriptor else find_descriptor (process_at k slot) in
      if (new <? 3) || (MAX_FILE_DESCRIPTORS <=? new) then ret (linux_error LINUX_EBADF) else
      if new =? old_descriptor then ret old_descriptor else
      let old := fd_at (process_at k slot) new in
      (if fd_used old then descriptor_release_resources old else ret tt) ;;;
      edit_fd slot new (fun _ => file) ;;;
      descriptor_retain_resources file ;;;
      ret new
  end.

Definition linux_close (slot descriptor : Z) : K Z :=
  file <- gets (fun k => open_fd k slot descriptor) ;;
  match file with
  | None => ret (linux_error LINUX_EBADF)
  | Some file =>
      descriptor_release_resources file ;;;
      edit_fd slot descriptor (fun _ => zero_fd) ;;;
      ret 0
  end.

Definition linux_ioctl (slot descriptor request argument : Z) : K Z :=
  if (descriptor =? 0) || (descriptor =? 1) || (descriptor =? 2) then
    if (request =? 0x5413) && negb (argument =? 0) then
      copied <- copy_to_user slot argument (le 2 48 ++ le 2 160 ++ le 2 0 ++ le 2 0) ;;
      ret (if copied then 0 else linux_error LINUX_EFAULT)
    else if (request =? 0x5401) || (request =? 0x540F) || (request =? 0x541B) then ret 0
    else ret (linux_error LINUX_ENOTTY)
  else ret (linux_error LINUX_ENOTTY).

(** ** Status and position *)

(** [stale] is the indeterminate size in a record that was not filled in. *)
Definition stat_for_name (name : list Z) (stale : Z) : K (option LinuxStat) :=
  let root := is_nil name in
  info <- (if root then ret None else file_info name) ;;
  match info with
  | None =>
      if root then ret (Some (mkStat 1 1 (Z.lor 0x4000 493) 0 0 512 (u64 (stale + 511) / 512))) else ret None
  | Some info =>
      let type_mode := if fi_type info =? FS_TYPE_DIRECTORY then 0x4000
                       else if fi_type info =? FS_TYPE_SYMLINK then 0xA000 else 0x8000 in
      ret (Some (mkStat 1 1 (Z.lor type_mode (Z.land (fi_flags info) 511)) (fi_owner info) (fi_size info) 512
        (u64 (fi_size info + 511) / 512)))
  end.

Definition stat_for_memfd (k : Kernel) (file : FileDescriptor) : option LinuxStat :=
  if negb (fd_type file =? FD_MEMFD) || negb (memfd_live k (fd_object file)) then None else
  let size := mf_size (memfd_at k (fd_object file)) in
  Some (mkStat (0x4D454D00 + fd_object file) 1 (Z.lor 0x8000 384) 1000 size VM_PAGE_SIZE ((size + 511) / 512)).

Definition copy_stat (slot address : Z) (stat : option LinuxStat) : K Z :=
  match stat with
  | None => ret (linux_error LINUX_ENOENT)
  | Some stat =>
      copied <- copy_to_user slot address (encode_stat stat) ;;
      ret (if copied then 0 else linux_error LINUX_EFAULT)
  end.

Definition linux_fstat (slot descriptor address stale : Z) : K Z :=
  k <- gets id ;;
  match open_fd k slot descriptor with
  | None => ret (linux_error LINUX_EBADF)
  | Some file =>
      stat <- (if fd_type file =? FD_MEMFD then ret (stat_for_memfd k file) else stat_for_name (fd_name file) stale) ;;
      copy_stat slot address stat
  end.

Definition linux_newfstatat (slot path_address address stale : Z) : K Z :=
  name <- normalized_user_path slot path_address ;;
  match name with
  | None => ret (linux_error LINUX_EFAULT)
  | Some name => stat <- stat_for_name name stale ;; copy_stat slot address stat
  end.

Definition linux_lseek (slot descriptor displacement whence : Z) : K Z :=
  k <- gets id ;;
  match open_fd k slot descriptor with
  | None => ret (linux_error LINUX_EBADF)
  | Some file =>
      let file_size := if (fd_type file =? FD_MEMFD) && memfd_live k (fd_object file)
                       then mf_size (memfd_at k (fd_object file)) else 0 in
      base <- (if whence =? 0 then ret 0
               else if whence =? 1 then ret (s64 (fd_offset file))
               else if whence =? 2 then
                 if fd_type file =? FD_MEMFD then ret (s64 file_size)
                 else info <- file_info (fd_name file) ;;
                      ret (match info with Some info => s64 (fi_size info) | None => -1 end)
               else ret (-1)) ;;
      let offset := s64 displacement in
      if (base <? 0) || ((0 <? offset) && (0x7FFFFFFFFFFFFFFF - offset <? base)) || (base + offset <? 0)
      then ret (linux_error LINUX_EINVAL) else
      edit_fd slot descriptor (set_fd_offset (base + offset)) ;;;
      ret (base + offset)
  end.

End files.
