(* ===== verification/MemCalls.v ===== *)
(** * Memory: the system calls of kernel/process.c on address spaces *)

From S2P Require Import Prelude Runtime Heap HeapFacts Interfaces Filesystem Vm Process Descriptors Ipc FileCalls.

Definition LINUX_MAP_SHARED : Z := 0x01.
Definition LINUX_MAP_PRIVATE : Z := 0x02.
Definition LINUX_MAP_FIXED : Z := 0x10.
Definition LINUX_MAP_ANONYMOUS : Z := 0x20.
Definition ELF_TLS_TCB_SIZE : Z := 64.

Definition linux_protection (protection : Z) : Z :=
  Z.lor (Z.lor (flag_if (has protection 1) VM_PROT_READ) (flag_if (has protection 2) VM_PROT_WRITE))
    (flag_if (has protection 4) VM_PROT_EXEC).

(** The number of pages a loop from [first] up to [end_] visits. *)
Definition span (first end_ : Z) : nat := Z.to_nat ((end_ - first + VM_PAGE_SIZE - 1) / VM_PAGE_SIZE).

Section memory.
Context {D H : Type} `{!BlockDevice D} `{!Allocator H}.

Notation Kernel := (@Kernel D H).
Notation K := (st Kernel).

(** ** Ranges of pages *)

Fixpoint unmap_pages (n : nat) (pointer page : Z) : K unit :=
  match n with
  | O => ret tt
  | S n => on_space_at pointer false (vm_unmap_page page) ;;; unmap_pages n pointer (u64 (page + VM_PAGE_SIZE))
  end.

(** Maps [n] pages; the number of pages mapped before the first failure. *)
Fixpoint map_pages (n : nat) (pointer page protection : Z) : K nat :=
  match n with
  | O => ret O
  | S n =>
      mapped <- on_space_at pointer false (vm_map_page page protection) ;;
      if negb mapped then ret O else
      m <- map_pages n pointer (u64 (page + VM_PAGE_SIZE)) protection ;;
      ret (S m)
  end.

(** All pages or none. *)
Definition map_all (pointer mapping protection : Z) (n : nat) : K bool :=
  m <- map_pages n pointer mapping protection ;;
  if (m =? n)%nat then ret true else unmap_pages m pointer mapping ;;; ret false.

Definition map_user_rw_pages (pointer mapping mapping_size : Z) : K bool :=
  map_all pointer mapping (Z.lor VM_PROT_READ VM_PROT_WRITE) (span mapping (u64 (mapping + mapping_size))).

Definition unmap_user_pages (pointer mapping mapping_size : Z) : K unit :=
  unmap_pages (span mapping (u64 (mapping + mapping_size))) pointer mapping.

(** ** Thread-local storage *)

(** The modules from [module] on get the addresses of their blocks in the new thread. *)
Fixpoint relocate_dtv (n : nat) (pointer thread_pointer old_thread_pointer module : Z) : K bool :=
  match n with
  | O => ret true
  | S n =>
      let slot_address := u64 (thread_pointer + ELF_TLS_TCB_SIZE + module * 8) in
      original <- on_space_at pointer None (gets (vm_copy_from_user slot_address 8)) ;;
      match original with
      | None => ret false
      | Some original =>
          let original_block := of_le original in
          if original_block =? 0 then relocate_dtv n pointer thread_pointer old_thread_pointer (module + 1) else
          if old_thread_pointer <? original_block then ret false else
          copied <- on_space_at pointer false
            (vm_copy_to_user slot_address (le 8 (u64 (thread_pointer - (old_thread_pointer - original_block))))) ;;
          if negb copied then ret false else
          relocate_dtv n pointer thread_pointer old_thread_pointer (module + 1)
      end
  end.

(** The thread control block points to itself and to the table of modules. *)
Definition write_tcb (pointer thread_pointer : Z) : K bool :=
  a <- on_space_at pointer false (vm_copy_to_user thread_pointer (le 8 thread_pointer)) ;;
  if negb a then ret false else
  b <- on_space_at pointer false (vm_copy_to_user (u64 (thread_pointer + 8)) (le 8 (u64 (thread_pointer + ELF_TLS_TCB_SIZE)))) ;;
  if negb b then ret false else
  on_space_at pointer false (vm_copy_to_user (u64 (thread_pointer + 16)) (le 8 thread_pointer)).

(** The thread pointer, the mapping and its size. *)
Definition allocate_thread_tls (pointer hint : Z) : K (option (Z * Z * Z)) :=
  found <- gets (fun k => k_spaces k !! pointer) ;;
  match found with
  | None => ret None
  | Some a =>
      if as_tls_template_size a =? 0 then ret (Some (0, 0, 0)) else
      let mapping_size := align_up (as_tls_template_size a) in
      let mapping := vm_find_free_range hint mapping_size (as_vm a) in
      if mapping =? 0 then ret None else
      ok <- (mapped <- map_user_rw_pages pointer mapping mapping_size ;;
             if negb mapped then ret false else
             copied <- on_space_at pointer false (vm_copy_to_user mapping (take (Z.to_nat (as_tls_template_size a)) (as_tls_bytes a))) ;;
             if negb copied then ret false else
             let thread_pointer := u64 (mapping + as_tls_static_size a) in
             written <- write_tcb pointer thread_pointer ;;
             if negb written then ret false else
             relocate_dtv (Z.to_nat (as_tls_module_count a)) pointer thread_pointer (as_tls_template_thread_pointer a) 1) ;;
      if negb ok then unmap_user_pages pointer mapping mapping_size ;;; ret None
      else ret (Some (u64 (mapping + as_tls_static_size a), mapping, mapping_size))
  end.

(** ** Mapping *)

(** Pages of a memory file: shared, or copies.  The number of pages mapped before the first failure. *)
Fixpoint map_memfd (n : nat) (pointer object page backing_page protection : Z) (shared : bool) : K nat :=
  match n with
  | O => ret O
  | S n =>
      f <- memfd_frame object backing_page true ;;
      if f =? 0 then ret O else
      mapped <- (if shared then on_space_at pointer false (vm_map_shared_frame page f protection)
                 else on_space_at pointer false (vm_map_page page (Z.lor protection VM_PROT_WRITE))) ;;
      if negb mapped then ret O else
      copied <- (if shared then ret true else
        contents <- gets (fun k => data_at (k_world k) (data (frame_at (k_world k) f))) ;;
        on_space_at pointer false (vm_copy_to_user page contents)) ;;
      if negb copied then ret O else
      m <- map_memfd n pointer object (u64 (page + VM_PAGE_SIZE)) (backing_page + 1) protection shared ;;
      ret (S m)
  end.

Definition mmap_memfd (slot pointer object address size requested_size offset protection : Z) (shared : bool) : K Z :=
  o <- gets (fun k => memfd_at k object) ;;
  if (mf_size o <? offset) || (mf_size o - offset <? requested_size) then ret (linux_error LINUX_EINVAL) else
  let n := span address (u64 (address + size)) in
  m <- map_memfd n pointer object address (offset / VM_PAGE_SIZE) protection shared ;;
  protected <- (if negb (m =? n)%nat then ret false else
                if shared then ret true else on_space_at pointer false (vm_protect address size protection)) ;;
  if negb protected then unmap_pages m pointer address ;;; ret (linux_error LINUX_ENOMEM) else
  edit_process slot (set_p_mmap_hint (u64 (address + size))) ;;;
  ret address.

(** The contents of a file, to the pages at [address]. *)
Fixpoint load_file (fuel : nat) (pointer : Z) (name : list Z) (offset address copy completed : Z) : K bool :=
  match fuel with
  | O => ret true
  | S fuel =>
      if negb (completed <? copy) then ret true else
      contents <- on_fs (fs_read_at name (u64 (offset + completed)) (Z.min (copy - completed) 512)) ;;
      match contents with
      | None | Some [] => ret false
      | Some contents =>
          copied <- on_space_at pointer false (vm_copy_to_user (u64 (address + completed)) contents) ;;
          if negb copied then ret false else
          load_file fuel pointer name offset address copy (completed + Z.of_nat (length contents))
      end
  end.

Definition mmap_file (slot pointer address size requested_size offset protection : Z) (file : FileDescriptor) : K Z :=
  let n := span address (u64 (address + size)) in
  mapped <- map_all pointer address (Z.lor protection VM_PROT_WRITE) n ;;
  if negb mapped then ret (linux_error LINUX_ENOMEM) else
  info <- file_info (fd_name file) ;;
  match info with
  | None => unmap_pages n pointer address ;;; ret (linux_error LINUX_ENOENT)
  | Some info =>
      let copy := if offset <? fi_size info then Z.min (fi_size info - offset) requested_size else 0 in
      copied <- load_file (Z.to_nat copy) pointer (fd_name file) offset address copy 0 ;;
      protected <- (if copied then on_space_at pointer false (vm_protect address size protection) else ret false) ;;
      if negb protected then unmap_pages n pointer address ;;; ret (linux_error LINUX_EIO) else
      edit_process slot (set_p_mmap_hint (u64 (address + size))) ;;;
      ret address
  end.

Definition mmap_anonymous (slot pointer address size protection : Z) (shared : bool) : K Z :=
  let n := span address (u64 (address + size)) in
  mapped <- map_all pointer address protection n ;;
  if negb mapped then ret (linux_error LINUX_ENOMEM) else
  marked <- (if shared then on_space_at pointer false (vm_mark_shared address size) else ret true) ;;
  if negb marked then unmap_pages n pointer address ;;; ret (linux_error LINUX_ENOMEM) else
  edit_process slot (set_p_mmap_hint (u64 (address + size))) ;;;
  ret address.

(** Where the mapping goes, or an error. *)
Definition mmap_address (slot pointer requested size flags : Z) : K (Z + Z) :=
  if has flags LINUX_MAP_FIXED then
    let address := align_down requested in
    if (address <? VM_USER_BASE) || (VM_USER_MMAP_LIMIT <? u64 (address + size)) then ret (inr (linux_error LINUX_EINVAL)) else
    unmap_pages (span address (u64 (address + size))) pointer address ;;;
    ret (inl address)
  else
    k <- gets id ;;
    let hint := if requested =? 0 then p_mmap_hint (process_at k slot) else requested in
    let free hint := match k_spaces k !! pointer with Some a => vm_find_free_range hint size (as_vm a) | None => 0 end in
    let address := if free hint =? 0 then free VM_USER_MMAP_BASE else free hint in
    ret (if address =? 0 then inr (linux_error LINUX_ENOMEM) else inl address).

Definition linux_mmap (slot requested size protection flags descriptor offset : Z) : K Z :=
  if (size =? 0) || (VM_USER_MMAP_LIMIT - VM_USER_MMAP_BASE <? size) then ret (linux_error LINUX_EINVAL) else
  if Z.land protection 6 =? 6 then ret (linux_error LINUX_EPERM) else
  k <- gets id ;;
  let file_backed := negb (has flags LINUX_MAP_ANONYMOUS) in
  let file := fd_at (process_at k slot) descriptor in
  let memfd_backed := file_backed && (fd_type file =? FD_MEMFD) in
  let private := has flags LINUX_MAP_PRIVATE in
  let shared := has flags LINUX_MAP_SHARED in
  if file_backed && ((descriptor <? 3) || (MAX_FILE_DESCRIPTORS <=? descriptor) || negb (fd_used file))
  then ret (linux_error LINUX_EBADF) else
  if file_backed && ((negb memfd_backed && (negb (fd_type file =? FD_FILE) || negb private)) ||
                     (memfd_backed && Bool.eqb private shared)) then ret (linux_error LINUX_EINVAL) else
  if memfd_backed && negb (memfd_live k (fd_object file)) then ret (linux_error LINUX_EBADF) else
  if file_backed && negb (Z.land offset (VM_PAGE_SIZE - 1) =? 0) then ret (linux_error LINUX_EINVAL) else
  let pointer := p_address_space (process_at k slot) in
  let requested_size := size in
  let size := align_up size in
  place <- mmap_address slot pointer requested size flags ;;
  match place with
  | inr error => ret error
  | inl address =>
      let final_protection := linux_protection protection in
      if memfd_backed then mmap_memfd slot pointer (fd_object file) address size requested_size offset final_protection shared
      else if file_backed then mmap_file slot pointer address size requested_size offset final_protection file
      else mmap_anonymous slot pointer address size final_protection shared
  end.

Definition linux_mprotect (slot address size protection : Z) : K Z :=
  if Z.land protection 6 =? 6 then ret (linux_error LINUX_EPERM) else
  ok <- on_user slot false (vm_protect address size (linux_protection protection)) ;;
  ret (if ok then 0 else linux_error LINUX_EINVAL).

Definition linux_munmap (slot address size : Z) : K Z :=
  if (size =? 0) || (u64 (address + size) <? address) then ret (linux_error LINUX_EINVAL) else
  pointer <- gets (fun k => p_address_space (process_at k slot)) ;;
  unmap_pages (span (align_down address) (align_up (u64 (address + size)))) pointer (align_down address) ;;;
  ret 0.

Definition linux_brk (slot requested : Z) : K Z :=
  p <- gets (fun k => process_at k slot) ;;
  if (requested =? 0) || (requested <? VM_USER_BASE) || (VM_USER_MMAP_BASE <=? requested) then ret (p_program_break p) else
  let old_end := align_up (p_program_break p) in
  let new_end := align_up requested in
  if old_end <? new_end then
    m <- map_pages (span old_end new_end) (p_address_space p) old_end (Z.lor VM_PROT_READ VM_PROT_WRITE) ;;
    if negb (m =? span old_end new_end)%nat then ret (p_program_break p) else
    edit_process slot (set_p_program_break requested) ;;; ret requested
  else
    unmap_pages (span new_end old_end) (p_address_space p) new_end ;;;
    edit_process slot (set_p_program_break requested) ;;;
    ret requested.

End memory.
