(* ===== verification/Elf.v ===== *)
(** * ELF objects of kernel/process.c

    The structures of ELF files and of loaded objects, and everything the linker reads from
    the memory of an object once it is mapped: the dynamic section, hash tables, versions and
    symbols.  [rd address size] is [vm_copy_from_user]: the bytes, or [None]. *)

From S2P Require Import Prelude Runtime Heap HeapFacts Interfaces Filesystem Vm Process Descriptors Ipc FileCalls MemCalls.

Definition ELF_PT_LOAD : Z := 1.
Definition ELF_PT_DYNAMIC : Z := 2.
Definition ELF_PT_INTERP : Z := 3.
Definition ELF_PT_TLS : Z := 7.
Definition ELF_DT_NULL : Z := 0.
Definition ELF_DT_NEEDED : Z := 1.
Definition ELF_DT_PLTRELSZ : Z := 2.
Definition ELF_DT_HASH : Z := 4.
Definition ELF_DT_STRTAB : Z := 5.
Definition ELF_DT_SYMTAB : Z := 6.
Definition ELF_DT_RELA : Z := 7.
Definition ELF_DT_RELASZ : Z := 8.
Definition ELF_DT_RELAENT : Z := 9.
Definition ELF_DT_STRSZ : Z := 10.
Definition ELF_DT_SYMENT : Z := 11.
Definition ELF_DT_INIT : Z := 12.
Definition ELF_DT_FINI : Z := 13.
Definition ELF_DT_PLTREL : Z := 20.
Definition ELF_DT_JMPREL : Z := 23.
Definition ELF_DT_INIT_ARRAY : Z := 25.
Definition ELF_DT_FINI_ARRAY : Z := 26.
Definition ELF_DT_INIT_ARRAYSZ : Z := 27.
Definition ELF_DT_FINI_ARRAYSZ : Z := 28.
Definition ELF_DT_PREINIT_ARRAY : Z := 32.
Definition ELF_DT_PREINIT_ARRAYSZ : Z := 33.
Definition ELF_DT_GNU_HASH : Z := 0x6FFFFEF5.
Definition ELF_DT_VERSYM : Z := 0x6FFFFFF0.
Definition ELF_DT_VERDEF : Z := 0x6FFFFFFC.
Definition ELF_DT_VERDEFNUM : Z := 0x6FFFFFFD.
Definition ELF_DT_VERNEED : Z := 0x6FFFFFFE.
Definition ELF_DT_VERNEEDNUM : Z := 0x6FFFFFFF.
Definition ELF_MAX_OBJECTS : Z := 128.
Definition ELF_MAX_NEEDED : Z := 64.
Definition ELF_MAX_SEGMENTS : Z := 16.
Definition ELF_MAX_SYMBOLS : Z := 4194304.
Definition ELF_SYMBOL_NAME_MAX : Z := 512.
Definition ELF_TLS_MAX_ALIGN : Z := VM_PAGE_SIZE.
Definition ELF_TLS_MAX_SIZE : Z := 16 * 1024 * 1024.

(** ** Structures *)

Record Elf64Header := mkElfHeader {
  eh_magic : list Z; eh_type : Z; eh_machine : Z; eh_entry : Z; eh_program_header_offset : Z;
  eh_program_header_size : Z; eh_program_header_count : Z }.

Record Elf64ProgramHeader := mkSegmentHeader {
  ph_type : Z; ph_flags : Z; ph_offset : Z; ph_virtual_address : Z; ph_file_size : Z; ph_memory_size : Z; ph_alignment : Z }.

Record Elf64Symbol := mkSymbol { sy_name : Z; sy_information : Z; sy_section_index : Z; sy_value : Z }.

Record Elf64Rela := mkRela { re_offset : Z; re_information : Z; re_addend : Z }.

Record ElfMappedSegment := mkMapped { ms_start : Z; ms_size : Z; ms_protection : Z }.

Definition decode_header (l : list Z) : Elf64Header :=
  mkElfHeader (slice 0 16 l) (field 16 2 l) (field 18 2 l) (field 24 8 l) (field 32 8 l) (field 54 2 l) (field 56 2 l).

Definition decode_segment (l : list Z) : Elf64ProgramHeader :=
  mkSegmentHeader (field 0 4 l) (field 4 4 l) (field 8 8 l) (field 16 8 l) (field 32 8 l) (field 40 8 l) (field 48 8 l).

Definition decode_symbol (l : list Z) : Elf64Symbol := mkSymbol (field 0 4 l) (field 4 1 l) (field 6 2 l) (field 8 8 l).

(** The addend is used as 64 bits only. *)
Definition decode_rela (l : list Z) : Elf64Rela := mkRela (field 0 8 l) (field 8 8 l) (field 16 8 l).

Definition zero_symbol : Elf64Symbol := mkSymbol 0 0 0 0.

(** [needed] and [segments] are the elements in use of the arrays of the source. *)
Record ElfLoadedObject := mkObject {
  eo_name : list Z;
  eo_bias : Z;
  eo_dynamic_address : Z;
  eo_dynamic_size : Z;
  eo_string_table : Z;
  eo_string_size : Z;
  eo_symbol_table : Z;
  eo_symbol_entry_size : Z;
  eo_symbol_count : Z;
  eo_gnu_hash_bloom : Z;
  eo_gnu_hash_buckets : Z;
  eo_gnu_hash_chains : Z;
  eo_gnu_hash_bucket_count : Z;
  eo_gnu_hash_symbol_offset : Z;
  eo_gnu_hash_bloom_size : Z;
  eo_gnu_hash_bloom_shift : Z;
  eo_version_symbols : Z;
  eo_version_definitions : Z;
  eo_version_definition_count : Z;
  eo_version_requirements : Z;
  eo_version_requirement_count : Z;
  eo_rela : Z;
  eo_rela_size : Z;
  eo_rela_entry_size : Z;
  eo_jump_rela : Z;
  eo_jump_rela_size : Z;
  eo_init_function : Z;
  eo_fini_function : Z;
  eo_init_array : Z;
  eo_init_array_size : Z;
  eo_fini_array : Z;
  eo_fini_array_size : Z;
  eo_preinit_array : Z;
  eo_preinit_array_size : Z;
  eo_tls_image : Z;
  eo_tls_file_size : Z;
  eo_tls_memory_size : Z;
  eo_tls_alignment : Z;
  eo_tls_offset : Z;
  eo_tls_module_id : Z;
  eo_needed : list Z;
  eo_segments : list ElfMappedSegment }.

Definition set_eo_name (v : list Z) (x : ElfLoadedObject) : ElfLoadedObject :=
  mkObject v (eo_bias x) (eo_dynamic_address x) (eo_dynamic_size x) (eo_string_table x) (eo_string_size x)
    (eo_symbol_table x) (eo_symbol_entry_size x) (eo_symbol_count x) (eo_gnu_hash_bloom x) (eo_gnu_hash_buckets x)
    (eo_gnu_hash_chains x) (eo_gnu_hash_bucket_count x) (eo_gnu_hash_symbol_offset x) (eo_gnu_hash_bloom_size x)
    (eo_gnu_hash_bloom_shift x) (eo_version_symbols x) (eo_version_definitions x) (eo_version_definition_count x)
    (eo_version_requirements x) (eo_version_requirement_count x) (eo_rela x) (eo_rela_size x) (eo_rela_entry_size x)
    (eo_jump_rela x) (eo_jump_rela_size x) (eo_init_function x) (eo_fini_function x) (eo_init_array x)
    (eo_init_array_size x) (eo_fini_array x) (eo_fini_array_size x) (eo_preinit_array x) (eo_preinit_array_size x)
    (eo_tls_image x) (eo_tls_file_size x) (eo_tls_memory_size x) (eo_tls_alignment x) (eo_tls_offset x)
    (eo_tls_module_id x) (eo_needed x) (eo_segments x).
Definition set_eo_bias (v : Z) (x : ElfLoadedObject) : ElfLoadedObject :=
  mkObject (eo_name x) v (eo_dynamic_address x) (eo_dynamic_size x) (eo_string_table x) (eo_string_size x)
    (eo_symbol_table x) (eo_symbol_entry_size x) (eo_symbol_count x) (eo_gnu_hash_bloom x) (eo_gnu_hash_buckets x)
    (eo_gnu_hash_chains x) (eo_gnu_hash_bucket_count x) (eo_gnu_hash_symbol_offset x) (eo_gnu_hash_bloom_size x)
    (eo_gnu_hash_bloom_shift x) (eo_version_symbols x) (eo_version_definitions x) (eo_version_definition_count x)
    (eo_version_requirements x) (eo_version_requirement_count x) (eo_rela x) (eo_rela_size x) (eo_rela_entry_size x)
    (eo_jump_rela x) (eo_jump_rela_size x) (eo_init_function x) (eo_fini_function x) (eo_init_array x)
    (eo_init_array_size x) (eo_fini_array x) (eo_fini_array_size x) (eo_preinit_array x) (eo_preinit_array_size x)
    (eo_tls_image x) (eo_tls_file_size x) (eo_tls_memory_size x) (eo_tls_alignment x) (eo_tls_offset x)
    (eo_tls_module_id x) (eo_needed x) (eo_segments x).
Definition set_eo_dynamic_address (v : Z) (x : ElfLoadedObject) : ElfLoadedObject :=
  mkObject (eo_name x) (eo_bias x) v (eo_dynamic_size x) (eo_string_table x) (eo_string_size x) (eo_symbol_table x)
    (eo_symbol_entry_size x) (eo_symbol_count x) (eo_gnu_hash_bloom x) (eo_gnu_hash_buckets x) (eo_gnu_hash_chains x)
    (eo_gnu_hash_bucket_count x) (eo_gnu_hash_symbol_offset x) (eo_gnu_hash_bloom_size x) (eo_gnu_hash_bloom_shift x)
    (eo_version_symbols x) (eo_version_definitions x) (eo_version_definition_count x) (eo_version_requirements x)
    (eo_version_requirement_count x) (eo_rela x) (eo_rela_size x) (eo_rela_entry_size x) (eo_jump_rela x)
    (eo_jump_rela_size x) (eo_init_function x) (eo_fini_function x) (eo_init_array x) (eo_init_array_size x)
    (eo_fini_array x) (eo_fini_array_size x) (eo_preinit_array x) (eo_preinit_array_size x) (eo_tls_image x)
    (eo_tls_file_size x) (eo_tls_memory_size x) (eo_tls_alignment x) (eo_tls_offset x) (eo_tls_module_id x)
    (eo_needed x) (eo_segments x).
Definition set_eo_dynamic_size (v : Z) (x : ElfLoadedObject) : ElfLoadedObject :=
  mkObject (eo_name x) (eo_bias x) (eo_dynamic_address x) v (eo_string_table x) (eo_string_size x) (eo_symbol_table
    x) (eo_symbol_entry_size x) (eo_symbol_count x) (eo_gnu_hash_bloom x) (eo_gnu_hash_buckets x) (eo_gnu_hash_chains
    x) (eo_gnu_hash_bucket_count x) (eo_gnu_hash_symbol_offset x) (eo_gnu_hash_bloom_size x) (eo_gnu_hash_bloom_shift
    x) (eo_version_symbols x) (eo_version_definitions x) (eo_version_definition_count x) (eo_version_requirements x)
    (eo_version_requirement_count x) (eo_rela x) (eo_rela_size x) (eo_rela_entry_size x) (eo_jump_rela x)
    (eo_jump_rela_size x) (eo_init_function x) (eo_fini_function x) (eo_init_array x) (eo_init_array_size x)
    (eo_fini_array x) (eo_fini_array_size x) (eo_preinit_array x) (eo_preinit_array_size x) (eo_tls_image x)
    (eo_tls_file_size x) (eo_tls_memory_size x) (eo_tls_alignment x) (eo_tls_offset x) (eo_tls_module_id x)
    (eo_needed x) (eo_segments x).
Definition set_eo_string_table (v : Z) (x : ElfLoadedObject) : ElfLoadedObject :=
  mkObject (eo_name x) (eo_bias x) (eo_dynamic_address x) (eo_dynamic_size x) v (eo_string_size x) (eo_symbol_table
    x) (eo_symbol_entry_size x) (eo_symbol_count x) (eo_gnu_hash_bloom x) (eo_gnu_hash_buckets x) (eo_gnu_hash_chains
    x) (eo_gnu_hash_bucket_count x) (eo_gnu_hash_symbol_offset x) (eo_gnu_hash_bloom_size x) (eo_gnu_hash_bloom_shift
    x) (eo_version_symbols x) (eo_version_definitions x) (eo_version_definition_count x) (eo_version_requirements x)
    (eo_version_requirement_count x) (eo_rela x) (eo_rela_size x) (eo_rela_entry_size x) (eo_jump_rela x)
    (eo_jump_rela_size x) (eo_init_function x) (eo_fini_function x) (eo_init_array x) (eo_init_array_size x)
    (eo_fini_array x) (eo_fini_array_size x) (eo_preinit_array x) (eo_preinit_array_size x) (eo_tls_image x)
    (eo_tls_file_size x) (eo_tls_memory_size x) (eo_tls_alignment x) (eo_tls_offset x) (eo_tls_module_id x)
    (eo_needed x) (eo_segments x).
Definition set_eo_string_size (v : Z) (x : ElfLoadedObject) : ElfLoadedObject :=
  mkObject (eo_name x) (eo_bias x) (eo_dynamic_address x) (eo_dynamic_size x) (eo_string_table x) v (eo_symbol_table
    x) (eo_symbol_entry_size x) (eo_symbol_count x) (eo_gnu_hash_bloom x) (eo_gnu_hash_buckets x) (eo_gnu_hash_chains
    x) (eo_gnu_hash_bucket_count x) (eo_gnu_hash_symbol_offset x) (eo_gnu_hash_bloom_size x) (eo_gnu_hash_bloom_shift
    x) (eo_version_symbols x) (eo_version_definitions x) (eo_version_definition_count x) (eo_version_requirements x)
    (eo_version_requirement_count x) (eo_rela x) (eo_rela_size x) (eo_rela_entry_size x) (eo_jump_rela x)
    (eo_jump_rela_size x) (eo_init_function x) (eo_fini_function x) (eo_init_array x) (eo_init_array_size x)
    (eo_fini_array x) (eo_fini_array_size x) (eo_preinit_array x) (eo_preinit_array_size x) (eo_tls_image x)
    (eo_tls_file_size x) (eo_tls_memory_size x) (eo_tls_alignment x) (eo_tls_offset x) (eo_tls_module_id x)
    (eo_needed x) (eo_segments x).
Definition set_eo_symbol_table (v : Z) (x : ElfLoadedObject) : ElfLoadedObject :=
  mkObject (eo_name x) (eo_bias x) (eo_dynamic_address x) (eo_dynamic_size x) (eo_string_table x) (eo_string_size x)
    v (eo_symbol_entry_size x) (eo_symbol_count x) (eo_gnu_hash_bloom x) (eo_gnu_hash_buckets x) (eo_gnu_hash_chains
    x) (eo_gnu_hash_bucket_count x) (eo_gnu_hash_symbol_offset x) (eo_gnu_hash_bloom_size x) (eo_gnu_hash_bloom_shift
    x) (eo_version_symbols x) (eo_version_definitions x) (eo_version_definition_count x) (eo_version_requirements x)
    (eo_version_requirement_count x) (eo_rela x) (eo_rela_size x) (eo_rela_entry_size x) (eo_jump_rela x)
    (eo_jump_rela_size x) (eo_init_function x) (eo_fini_function x) (eo_init_array x) (eo_init_array_size x)
    (eo_fini_array x) (eo_fini_array_size x) (eo_preinit_array x) (eo_preinit_array_size x) (eo_tls_image x)
    (eo_tls_file_size x) (eo_tls_memory_size x) (eo_tls_alignment x) (eo_tls_offset x) (eo_tls_module_id x)
    (eo_needed x) (eo_segments x).
Definition set_eo_symbol_entry_size (v : Z) (x : ElfLoadedObject) : ElfLoadedObject :=
  mkObject (eo_name x) (eo_bias x) (eo_dynamic_address x) (eo_dynamic_size x) (eo_string_table x) (eo_string_size x)
    (eo_symbol_table x) v (eo_symbol_count x) (eo_gnu_hash_bloom x) (eo_gnu_hash_buckets x) (eo_gnu_hash_chains x)
    (eo_gnu_hash_bucket_count x) (eo_gnu_hash_symbol_offset x) (eo_gnu_hash_bloom_size x) (eo_gnu_hash_bloom_shift x)
    (eo_version_symbols x) (eo_version_definitions x) (eo_version_definition_count x) (eo_version_requirements x)
    (eo_version_requirement_count x) (eo_rela x) (eo_rela_size x) (eo_rela_entry_size x) (eo_jump_rela x)
    (eo_jump_rela_size x) (eo_init_function x) (eo_fini_function x) (eo_init_array x) (eo_init_array_size x)
    (eo_fini_array x) (eo_fini_array_size x) (eo_preinit_array x) (eo_preinit_array_size x) (eo_tls_image x)
    (eo_tls_file_size x) (eo_tls_memory_size x) (eo_tls_alignment x) (eo_tls_offset x) (eo_tls_module_id x)
    (eo_needed x) (eo_segments x).
Definition set_eo_symbol_count (v : Z) (x : ElfLoadedObject) : ElfLoadedObject :=
  mkObject (eo_name x) (eo_bias x) (eo_dynamic_address x) (eo_dynamic_size x) (eo_string_table x) (eo_string_size x)
    (eo_symbol_table x) (eo_symbol_entry_size x) v (eo_gnu_hash_bloom x) (eo_gnu_hash_buckets x) (eo_gnu_hash_chains
    x) (eo_gnu_hash_bucket_count x) (eo_gnu_hash_symbol_offset x) (eo_gnu_hash_bloom_size x) (eo_gnu_hash_bloom_shift
    x) (eo_version_symbols x) (eo_version_definitions x) (eo_version_definition_count x) (eo_version_requirements x)
    (eo_version_requirement_count x) (eo_rela x) (eo_rela_size x) (eo_rela_entry_size x) (eo_jump_rela x)
    (eo_jump_rela_size x) (eo_init_function x) (eo_fini_function x) (eo_init_array x) (eo_init_array_size x)
    (eo_fini_array x) (eo_fini_array_size x) (eo_preinit_array x) (eo_preinit_array_size x) (eo_tls_image x)
    (eo_tls_file_size x) (eo_tls_memory_size x) (eo_tls_alignment x) (eo_tls_offset x) (eo_tls_module_id x)
    (eo_needed x) (eo_segments x).
Definition set_eo_gnu_hash_bloom (v : Z) (x : ElfLoadedObject) : ElfLoadedObject :=
  mkObject (eo_name x) (eo_bias x) (eo_dynamic_address x) (eo_dynamic_size x) (eo_string_table x) (eo_string_size x)
    (eo_symbol_table x) (eo_symbol_entry_size x) (eo_symbol_count x) v (eo_gnu_hash_buckets x) (eo_gnu_hash_chains x)
    (eo_gnu_hash_bucket_count x) (eo_gnu_hash_symbol_offset x) (eo_gnu_hash_bloom_size x) (eo_gnu_hash_bloom_shift x)
    (eo_version_symbols x) (eo_version_definitions x) (eo_version_definition_count x) (eo_version_requirements x)
    (eo_version_requirement_count x) (eo_rela x) (eo_rela_size x) (eo_rela_entry_size x) (eo_jump_rela x)
    (eo_jump_rela_size x) (eo_init_function x) (eo_fini_function x) (eo_init_array x) (eo_init_array_size x)
    (eo_fini_array x) (eo_fini_array_size x) (eo_preinit_array x) (eo_preinit_array_size x) (eo_tls_image x)
    (eo_tls_file_size x) (eo_tls_memory_size x) (eo_tls_alignment x) (eo_tls_offset x) (eo_tls_module_id x)
    (eo_needed x) (eo_segments x).
Definition set_eo_gnu_hash_buckets (v : Z) (x : ElfLoadedObject) : ElfLoadedObject :=
  mkObject (eo_name x) (eo_bias x) (eo_dynamic_address x) (eo_dynamic_size x) (eo_string_table x) (eo_string_size x)
    (eo_symbol_table x) (eo_symbol_entry_size x) (eo_symbol_count x) (eo_gnu_hash_bloom x) v (eo_gnu_hash_chains x)
    (eo_gnu_hash_bucket_count x) (eo_gnu_hash_symbol_offset x) (eo_gnu_hash_bloom_size x) (eo_gnu_hash_bloom_shift x)
    (eo_version_symbols x) (eo_version_definitions x) (eo_version_definition_count x) (eo_version_requirements x)
    (eo_version_requirement_count x) (eo_rela x) (eo_rela_size x) (eo_rela_entry_size x) (eo_jump_rela x)
    (eo_jump_rela_size x) (eo_init_function x) (eo_fini_function x) (eo_init_array x) (eo_init_array_size x)
    (eo_fini_array x) (eo_fini_array_size x) (eo_preinit_array x) (eo_preinit_array_size x) (eo_tls_image x)
    (eo_tls_file_size x) (eo_tls_memory_size x) (eo_tls_alignment x) (eo_tls_offset x) (eo_tls_module_id x)
    (eo_needed x) (eo_segments x).
Definition set_eo_gnu_hash_chains (v : Z) (x : ElfLoadedObject) : ElfLoadedObject :=
  mkObject (eo_name x) (eo_bias x) (eo_dynamic_address x) (eo_dynamic_size x) (eo_string_table x) (eo_string_size x)
    (eo_symbol_table x) (eo_symbol_entry_size x) (eo_symbol_count x) (eo_gnu_hash_bloom x) (eo_gnu_hash_buckets x) v
    (eo_gnu_hash_bucket_count x) (eo_gnu_hash_symbol_offset x) (eo_gnu_hash_bloom_size x) (eo_gnu_hash_bloom_shift x)
    (eo_version_symbols x) (eo_version_definitions x) (eo_version_definition_count x) (eo_version_requirements x)
    (eo_version_requirement_count x) (eo_rela x) (eo_rela_size x) (eo_rela_entry_size x) (eo_jump_rela x)
    (eo_jump_rela_size x) (eo_init_function x) (eo_fini_function x) (eo_init_array x) (eo_init_array_size x)
    (eo_fini_array x) (eo_fini_array_size x) (eo_preinit_array x) (eo_preinit_array_size x) (eo_tls_image x)
    (eo_tls_file_size x) (eo_tls_memory_size x) (eo_tls_alignment x) (eo_tls_offset x) (eo_tls_module_id x)
    (eo_needed x) (eo_segments x).
Definition set_eo_gnu_hash_bucket_count (v : Z) (x : ElfLoadedObject) : ElfLoadedObject :=
  mkObject (eo_name x) (eo_bias x) (eo_dynamic_address x) (eo_dynamic_size x) (eo_string_table x) (eo_string_size x)
    (eo_symbol_table x) (eo_symbol_entry_size x) (eo_symbol_count x) (eo_gnu_hash_bloom x) (eo_gnu_hash_buckets x)
    (eo_gnu_hash_chains x) v (eo_gnu_hash_symbol_offset x) (eo_gnu_hash_bloom_size x) (eo_gnu_hash_bloom_shift x)
    (eo_version_symbols x) (eo_version_definitions x) (eo_version_definition_count x) (eo_version_requirements x)
    (eo_version_requirement_count x) (eo_rela x) (eo_rela_size x) (eo_rela_entry_size x) (eo_jump_rela x)
    (eo_jump_rela_size x) (eo_init_function x) (eo_fini_function x) (eo_init_array x) (eo_init_array_size x)
    (eo_fini_array x) (eo_fini_array_size x) (eo_preinit_array x) (eo_preinit_array_size x) (eo_tls_image x)
    (eo_tls_file_size x) (eo_tls_memory_size x) (eo_tls_alignment x) (eo_tls_offset x) (eo_tls_module_id x)
    (eo_needed x) (eo_segments x).
Definition set_eo_gnu_hash_symbol_offset (v : Z) (x : ElfLoadedObject) : ElfLoadedObject :=
  mkObject (eo_name x) (eo_bias x) (eo_dynamic_address x) (eo_dynamic_size x) (eo_string_table x) (eo_string_size x)
    (eo_symbol_table x) (eo_symbol_entry_size x) (eo_symbol_count x) (eo_gnu_hash_bloom x) (eo_gnu_hash_buckets x)
    (eo_gnu_hash_chains x) (eo_gnu_hash_bucket_count x) v (eo_gnu_hash_bloom_size x) (eo_gnu_hash_bloom_shift x)
    (eo_version_symbols x) (eo_version_definitions x) (eo_version_definition_count x) (eo_version_requirements x)
    (eo_version_requirement_count x) (eo_rela x) (eo_rela_size x) (eo_rela_entry_size x) (eo_jump_rela x)
    (eo_jump_rela_size x) (eo_init_function x) (eo_fini_function x) (eo_init_array x) (eo_init_array_size x)
    (eo_fini_array x) (eo_fini_array_size x) (eo_preinit_array x) (eo_preinit_array_size x) (eo_tls_image x)
    (eo_tls_file_size x) (eo_tls_memory_size x) (eo_tls_alignment x) (eo_tls_offset x) (eo_tls_module_id x)
    (eo_needed x) (eo_segments x).
Definition set_eo_gnu_hash_bloom_size (v : Z) (x : ElfLoadedObject) : ElfLoadedObject :=
  mkObject (eo_name x) (eo_bias x) (eo_dynamic_address x) (eo_dynamic_size x) (eo_string_table x) (eo_string_size x)
    (eo_symbol_table x) (eo_symbol_entry_size x) (eo_symbol_count x) (eo_gnu_hash_bloom x) (eo_gnu_hash_buckets x)
    (eo_gnu_hash_chains x) (eo_gnu_hash_bucket_count x) (eo_gnu_hash_symbol_offset x) v (eo_gnu_hash_bloom_shift x)
    (eo_version_symbols x) (eo_version_definitions x) (eo_version_definition_count x) (eo_version_requirements x)
    (eo_version_requirement_count x) (eo_rela x) (eo_rela_size x) (eo_rela_entry_size x) (eo_jump_rela x)
    (eo_jump_rela_size x) (eo_init_function x) (eo_fini_function x) (eo_init_array x) (eo_init_array_size x)
    (eo_fini_array x) (eo_fini_array_size x) (eo_preinit_array x) (eo_preinit_array_size x) (eo_tls_image x)
    (eo_tls_file_size x) (eo_tls_memory_size x) (eo_tls_alignment x) (eo_tls_offset x) (eo_tls_module_id x)
    (eo_needed x) (eo_segments x).
Definition set_eo_gnu_hash_bloom_shift (v : Z) (x : ElfLoadedObject) : ElfLoadedObject :=
  mkObject (eo_name x) (eo_bias x) (eo_dynamic_address x) (eo_dynamic_size x) (eo_string_table x) (eo_string_size x)
    (eo_symbol_table x) (eo_symbol_entry_size x) (eo_symbol_count x) (eo_gnu_hash_bloom x) (eo_gnu_hash_buckets x)
    (eo_gnu_hash_chains x) (eo_gnu_hash_bucket_count x) (eo_gnu_hash_symbol_offset x) (eo_gnu_hash_bloom_size x) v
    (eo_version_symbols x) (eo_version_definitions x) (eo_version_definition_count x) (eo_version_requirements x)
    (eo_version_requirement_count x) (eo_rela x) (eo_rela_size x) (eo_rela_entry_size x) (eo_jump_rela x)
    (eo_jump_rela_size x) (eo_init_function x) (eo_fini_function x) (eo_init_array x) (eo_init_array_size x)
    (eo_fini_array x) (eo_fini_array_size x) (eo_preinit_array x) (eo_preinit_array_size x) (eo_tls_image x)
    (eo_tls_file_size x) (eo_tls_memory_size x) (eo_tls_alignment x) (eo_tls_offset x) (eo_tls_module_id x)
    (eo_needed x) (eo_segments x).
Definition set_eo_version_symbols (v : Z) (x : ElfLoadedObject) : ElfLoadedObject :=
  mkObject (eo_name x) (eo_bias x) (eo_dynamic_address x) (eo_dynamic_size x) (eo_string_table x) (eo_string_size x)
    (eo_symbol_table x) (eo_symbol_entry_size x) (eo_symbol_count x) (eo_gnu_hash_bloom x) (eo_gnu_hash_buckets x)
    (eo_gnu_hash_chains x) (eo_gnu_hash_bucket_count x) (eo_gnu_hash_symbol_offset x) (eo_gnu_hash_bloom_size x)
    (eo_gnu_hash_bloom_shift x) v (eo_version_definitions x) (eo_version_definition_count x) (eo_version_requirements
    x) (eo_version_requirement_count x) (eo_rela x) (eo_rela_size x) (eo_rela_entry_size x) (eo_jump_rela x)
    (eo_jump_rela_size x) (eo_init_function x) (eo_fini_function x) (eo_init_array x) (eo_init_array_size x)
    (eo_fini_array x) (eo_fini_array_size x) (eo_preinit_array x) (eo_preinit_array_size x) (eo_tls_image x)
    (eo_tls_file_size x) (eo_tls_memory_size x) (eo_tls_alignment x) (eo_tls_offset x) (eo_tls_module_id x)
    (eo_needed x) (eo_segments x).
Definition set_eo_version_definitions (v : Z) (x : ElfLoadedObject) : ElfLoadedObject :=
  mkObject (eo_name x) (eo_bias x) (eo_dynamic_address x) (eo_dynamic_size x) (eo_string_table x) (eo_string_size x)
    (eo_symbol_table x) (eo_symbol_entry_size x) (eo_symbol_count x) (eo_gnu_hash_bloom x) (eo_gnu_hash_buckets x)
    (eo_gnu_hash_chains x) (eo_gnu_hash_bucket_count x) (eo_gnu_hash_symbol_offset x) (eo_gnu_hash_bloom_size x)
    (eo_gnu_hash_bloom_shift x) (eo_version_symbols x) v (eo_version_definition_count x) (eo_version_requirements x)
    (eo_version_requirement_count x) (eo_rela x) (eo_rela_size x) (eo_rela_entry_size x) (eo_jump_rela x)
    (eo_jump_rela_size x) (eo_init_function x) (eo_fini_function x) (eo_init_array x) (eo_init_array_size x)
    (eo_fini_array x) (eo_fini_array_size x) (eo_preinit_array x) (eo_preinit_array_size x) (eo_tls_image x)
    (eo_tls_file_size x) (eo_tls_memory_size x) (eo_tls_alignment x) (eo_tls_offset x) (eo_tls_module_id x)
    (eo_needed x) (eo_segments x).
Definition set_eo_version_definition_count (v : Z) (x : ElfLoadedObject) : ElfLoadedObject :=
  mkObject (eo_name x) (eo_bias x) (eo_dynamic_address x) (eo_dynamic_size x) (eo_string_table x) (eo_string_size x)
    (eo_symbol_table x) (eo_symbol_entry_size x) (eo_symbol_count x) (eo_gnu_hash_bloom x) (eo_gnu_hash_buckets x)
    (eo_gnu_hash_chains x) (eo_gnu_hash_bucket_count x) (eo_gnu_hash_symbol_offset x) (eo_gnu_hash_bloom_size x)
    (eo_gnu_hash_bloom_shift x) (eo_version_symbols x) (eo_version_definitions x) v (eo_version_requirements x)
    (eo_version_requirement_count x) (eo_rela x) (eo_rela_size x) (eo_rela_entry_size x) (eo_jump_rela x)
    (eo_jump_rela_size x) (eo_init_function x) (eo_fini_function x) (eo_init_array x) (eo_init_array_size x)
    (eo_fini_array x) (eo_fini_array_size x) (eo_preinit_array x) (eo_preinit_array_size x) (eo_tls_image x)
    (eo_tls_file_size x) (eo_tls_memory_size x) (eo_tls_alignment x) (eo_tls_offset x) (eo_tls_module_id x)
    (eo_needed x) (eo_segments x).
Definition set_eo_version_requirements (v : Z) (x : ElfLoadedObject) : ElfLoadedObject :=
  mkObject (eo_name x) (eo_bias x) (eo_dynamic_address x) (eo_dynamic_size x) (eo_string_table x) (eo_string_size x)
    (eo_symbol_table x) (eo_symbol_entry_size x) (eo_symbol_count x) (eo_gnu_hash_bloom x) (eo_gnu_hash_buckets x)
    (eo_gnu_hash_chains x) (eo_gnu_hash_bucket_count x) (eo_gnu_hash_symbol_offset x) (eo_gnu_hash_bloom_size x)
    (eo_gnu_hash_bloom_shift x) (eo_version_symbols x) (eo_version_definitions x) (eo_version_definition_count x) v
    (eo_version_requirement_count x) (eo_rela x) (eo_rela_size x) (eo_rela_entry_size x) (eo_jump_rela x)
    (eo_jump_rela_size x) (eo_init_function x) (eo_fini_function x) (eo_init_array x) (eo_init_array_size x)
    (eo_fini_array x) (eo_fini_array_size x) (eo_preinit_array x) (eo_preinit_array_size x) (eo_tls_image x)
    (eo_tls_file_size x) (eo_tls_memory_size x) (eo_tls_alignment x) (eo_tls_offset x) (eo_tls_module_id x)
    (eo_needed x) (eo_segments x).
Definition set_eo_version_requirement_count (v : Z) (x : ElfLoadedObject) : ElfLoadedObject :=
  mkObject (eo_name x) (eo_bias x) (eo_dynamic_address x) (eo_dynamic_size x) (eo_string_table x) (eo_string_size x)
    (eo_symbol_table x) (eo_symbol_entry_size x) (eo_symbol_count x) (eo_gnu_hash_bloom x) (eo_gnu_hash_buckets x)
    (eo_gnu_hash_chains x) (eo_gnu_hash_bucket_count x) (eo_gnu_hash_symbol_offset x) (eo_gnu_hash_bloom_size x)
    (eo_gnu_hash_bloom_shift x) (eo_version_symbols x) (eo_version_definitions x) (eo_version_definition_count x)
    (eo_version_requirements x) v (eo_rela x) (eo_rela_size x) (eo_rela_entry_size x) (eo_jump_rela x)
    (eo_jump_rela_size x) (eo_init_function x) (eo_fini_function x) (eo_init_array x) (eo_init_array_size x)
    (eo_fini_array x) (eo_fini_array_size x) (eo_preinit_array x) (eo_preinit_array_size x) (eo_tls_image x)
    (eo_tls_file_size x) (eo_tls_memory_size x) (eo_tls_alignment x) (eo_tls_offset x) (eo_tls_module_id x)
    (eo_needed x) (eo_segments x).
Definition set_eo_rela (v : Z) (x : ElfLoadedObject) : ElfLoadedObject :=
  mkObject (eo_name x) (eo_bias x) (eo_dynamic_address x) (eo_dynamic_size x) (eo_string_table x) (eo_string_size x)
    (eo_symbol_table x) (eo_symbol_entry_size x) (eo_symbol_count x) (eo_gnu_hash_bloom x) (eo_gnu_hash_buckets x)
    (eo_gnu_hash_chains x) (eo_gnu_hash_bucket_count x) (eo_gnu_hash_symbol_offset x) (eo_gnu_hash_bloom_size x)
    (eo_gnu_hash_bloom_shift x) (eo_version_symbols x) (eo_version_definitions x) (eo_version_definition_count x)
    (eo_version_requirements x) (eo_version_requirement_count x) v (eo_rela_size x) (eo_rela_entry_size x)
    (eo_jump_rela x) (eo_jump_rela_size x) (eo_init_function x) (eo_fini_function x) (eo_init_array x)
    (eo_init_array_size x) (eo_fini_array x) (eo_fini_array_size x) (eo_preinit_array x) (eo_preinit_array_size x)
    (eo_tls_image x) (eo_tls_file_size x) (eo_tls_memory_size x) (eo_tls_alignment x) (eo_tls_offset x)
    (eo_tls_module_id x) (eo_needed x) (eo_segments x).
Definition set_eo_rela_size (v : Z) (x : ElfLoadedObject) : ElfLoadedObject :=
  mkObject (eo_name x) (eo_bias x) (eo_dynamic_address x) (eo_dynamic_size x) (eo_string_table x) (eo_string_size x)
    (eo_symbol_table x) (eo_symbol_entry_size x) (eo_symbol_count x) (eo_gnu_hash_bloom x) (eo_gnu_hash_buckets x)
    (eo_gnu_hash_chains x) (eo_gnu_hash_bucket_count x) (eo_gnu_hash_symbol_offset x) (eo_gnu_hash_bloom_size x)
    (eo_gnu_hash_bloom_shift x) (eo_version_symbols x) (eo_version_definitions x) (eo_version_definition_count x)
    (eo_version_requirements x) (eo_version_requirement_count x) (eo_rela x) v (eo_rela_entry_size x) (eo_jump_rela
    x) (eo_jump_rela_size x) (eo_init_function x) (eo_fini_function x) (eo_init_array x) (eo_init_array_size x)
    (eo_fini_array x) (eo_fini_array_size x) (eo_preinit_array x) (eo_preinit_array_size x) (eo_tls_image x)
    (eo_tls_file_size x) (eo_tls_memory_size x) (eo_tls_alignment x) (eo_tls_offset x) (eo_tls_module_id x)
    (eo_needed x) (eo_segments x).
Definition set_eo_rela_entry_size (v : Z) (x : ElfLoadedObject) : ElfLoadedObject :=
  mkObject (eo_name x) (eo_bias x) (eo_dynamic_address x) (eo_dynamic_size x) (eo_string_table x) (eo_string_size x)
    (eo_symbol_table x) (eo_symbol_entry_size x) (eo_symbol_count x) (eo_gnu_hash_bloom x) (eo_gnu_hash_buckets x)
    (eo_gnu_hash_chains x) (eo_gnu_hash_bucket_count x) (eo_gnu_hash_symbol_offset x) (eo_gnu_hash_bloom_size x)
    (eo_gnu_hash_bloom_shift x) (eo_version_symbols x) (eo_version_definitions x) (eo_version_definition_count x)
    (eo_version_requirements x) (eo_version_requirement_count x) (eo_rela x) (eo_rela_size x) v (eo_jump_rela x)
    (eo_jump_rela_size x) (eo_init_function x) (eo_fini_function x) (eo_init_array x) (eo_init_array_size x)
    (eo_fini_array x) (eo_fini_array_size x) (eo_preinit_array x) (eo_preinit_array_size x) (eo_tls_image x)
    (eo_tls_file_size x) (eo_tls_memory_size x) (eo_tls_alignment x) (eo_tls_offset x) (eo_tls_module_id x)
    (eo_needed x) (eo_segments x).
Definition set_eo_jump_rela (v : Z) (x : ElfLoadedObject) : ElfLoadedObject :=
  mkObject (eo_name x) (eo_bias x) (eo_dynamic_address x) (eo_dynamic_size x) (eo_string_table x) (eo_string_size x)
    (eo_symbol_table x) (eo_symbol_entry_size x) (eo_symbol_count x) (eo_gnu_hash_bloom x) (eo_gnu_hash_buckets x)
    (eo_gnu_hash_chains x) (eo_gnu_hash_bucket_count x) (eo_gnu_hash_symbol_offset x) (eo_gnu_hash_bloom_size x)
    (eo_gnu_hash_bloom_shift x) (eo_version_symbols x) (eo_version_definitions x) (eo_version_definition_count x)
    (eo_version_requirements x) (eo_version_requirement_count x) (eo_rela x) (eo_rela_size x) (eo_rela_entry_size x)
    v (eo_jump_rela_size x) (eo_init_function x) (eo_fini_function x) (eo_init_array x) (eo_init_array_size x)
    (eo_fini_array x) (eo_fini_array_size x) (eo_preinit_array x) (eo_preinit_array_size x) (eo_tls_image x)
    (eo_tls_file_size x) (eo_tls_memory_size x) (eo_tls_alignment x) (eo_tls_offset x) (eo_tls_module_id x)
    (eo_needed x) (eo_segments x).
Definition set_eo_jump_rela_size (v : Z) (x : ElfLoadedObject) : ElfLoadedObject :=
  mkObject (eo_name x) (eo_bias x) (eo_dynamic_address x) (eo_dynamic_size x) (eo_string_table x) (eo_string_size x)
    (eo_symbol_table x) (eo_symbol_entry_size x) (eo_symbol_count x) (eo_gnu_hash_bloom x) (eo_gnu_hash_buckets x)
    (eo_gnu_hash_chains x) (eo_gnu_hash_bucket_count x) (eo_gnu_hash_symbol_offset x) (eo_gnu_hash_bloom_size x)
    (eo_gnu_hash_bloom_shift x) (eo_version_symbols x) (eo_version_definitions x) (eo_version_definition_count x)
    (eo_version_requirements x) (eo_version_requirement_count x) (eo_rela x) (eo_rela_size x) (eo_rela_entry_size x)
    (eo_jump_rela x) v (eo_init_function x) (eo_fini_function x) (eo_init_array x) (eo_init_array_size x)
    (eo_fini_array x) (eo_fini_array_size x) (eo_preinit_array x) (eo_preinit_array_size x) (eo_tls_image x)
    (eo_tls_file_size x) (eo_tls_memory_size x) (eo_tls_alignment x) (eo_tls_offset x) (eo_tls_module_id x)
    (eo_needed x) (eo_segments x).
Definition set_eo_init_function (v : Z) (x : ElfLoadedObject) : ElfLoadedObject :=
  mkObject (eo_name x) (eo_bias x) (eo_dynamic_address x) (eo_dynamic_size x) (eo_string_table x) (eo_string_size x)
    (eo_symbol_table x) (eo_symbol_entry_size x) (eo_symbol_count x) (eo_gnu_hash_bloom x) (eo_gnu_hash_buckets x)
    (eo_gnu_hash_chains x) (eo_gnu_hash_bucket_count x) (eo_gnu_hash_symbol_offset x) (eo_gnu_hash_bloom_size x)
    (eo_gnu_hash_bloom_shift x) (eo_version_symbols x) (eo_version_definitions x) (eo_version_definition_count x)
    (eo_version_requirements x) (eo_version_requirement_count x) (eo_rela x) (eo_rela_size x) (eo_rela_entry_size x)
    (eo_jump_rela x) (eo_jump_rela_size x) v (eo_fini_function x) (eo_init_array x) (eo_init_array_size x)
    (eo_fini_array x) (eo_fini_array_size x) (eo_preinit_array x) (eo_preinit_array_size x) (eo_tls_image x)
    (eo_tls_file_size x) (eo_tls_memory_size x) (eo_tls_alignment x) (eo_tls_offset x) (eo_tls_module_id x)
    (eo_needed x) (eo_segments x).
Definition set_eo_fini_function (v : Z) (x : ElfLoadedObject) : ElfLoadedObject :=
  mkObject (eo_name x) (eo_bias x) (eo_dynamic_address x) (eo_dynamic_size x) (eo_string_table x) (eo_string_size x)
    (eo_symbol_table x) (eo_symbol_entry_size x) (eo_symbol_count x) (eo_gnu_hash_bloom x) (eo_gnu_hash_buckets x)
    (eo_gnu_hash_chains x) (eo_gnu_hash_bucket_count x) (eo_gnu_hash_symbol_offset x) (eo_gnu_hash_bloom_size x)
    (eo_gnu_hash_bloom_shift x) (eo_version_symbols x) (eo_version_definitions x) (eo_version_definition_count x)
    (eo_version_requirements x) (eo_version_requirement_count x) (eo_rela x) (eo_rela_size x) (eo_rela_entry_size x)
    (eo_jump_rela x) (eo_jump_rela_size x) (eo_init_function x) v (eo_init_array x) (eo_init_array_size x)
    (eo_fini_array x) (eo_fini_array_size x) (eo_preinit_array x) (eo_preinit_array_size x) (eo_tls_image x)
    (eo_tls_file_size x) (eo_tls_memory_size x) (eo_tls_alignment x) (eo_tls_offset x) (eo_tls_module_id x)
    (eo_needed x) (eo_segments x).
Definition set_eo_init_array (v : Z) (x : ElfLoadedObject) : ElfLoadedObject :=
  mkObject (eo_name x) (eo_bias x) (eo_dynamic_address x) (eo_dynamic_size x) (eo_string_table x) (eo_string_size x)
    (eo_symbol_table x) (eo_symbol_entry_size x) (eo_symbol_count x) (eo_gnu_hash_bloom x) (eo_gnu_hash_buckets x)
    (eo_gnu_hash_chains x) (eo_gnu_hash_bucket_count x) (eo_gnu_hash_symbol_offset x) (eo_gnu_hash_bloom_size x)
    (eo_gnu_hash_bloom_shift x) (eo_version_symbols x) (eo_version_definitions x) (eo_version_definition_count x)
    (eo_version_requirements x) (eo_version_requirement_count x) (eo_rela x) (eo_rela_size x) (eo_rela_entry_size x)
    (eo_jump_rela x) (eo_jump_rela_size x) (eo_init_function x) (eo_fini_function x) v (eo_init_array_size x)
    (eo_fini_array x) (eo_fini_array_size x) (eo_preinit_array x) (eo_preinit_array_size x) (eo_tls_image x)
    (eo_tls_file_size x) (eo_tls_memory_size x) (eo_tls_alignment x) (eo_tls_offset x) (eo_tls_module_id x)
    (eo_needed x) (eo_segments x).
Definition set_eo_init_array_size (v : Z) (x : ElfLoadedObject) : ElfLoadedObject :=
  mkObject (eo_name x) (eo_bias x) (eo_dynamic_address x) (eo_dynamic_size x) (eo_string_table x) (eo_string_size x)
    (eo_symbol_table x) (eo_symbol_entry_size x) (eo_symbol_count x) (eo_gnu_hash_bloom x) (eo_gnu_hash_buckets x)
    (eo_gnu_hash_chains x) (eo_gnu_hash_bucket_count x) (eo_gnu_hash_symbol_offset x) (eo_gnu_hash_bloom_size x)
    (eo_gnu_hash_bloom_shift x) (eo_version_symbols x) (eo_version_definitions x) (eo_version_definition_count x)
    (eo_version_requirements x) (eo_version_requirement_count x) (eo_rela x) (eo_rela_size x) (eo_rela_entry_size x)
    (eo_jump_rela x) (eo_jump_rela_size x) (eo_init_function x) (eo_fini_function x) (eo_init_array x) v
    (eo_fini_array x) (eo_fini_array_size x) (eo_preinit_array x) (eo_preinit_array_size x) (eo_tls_image x)
    (eo_tls_file_size x) (eo_tls_memory_size x) (eo_tls_alignment x) (eo_tls_offset x) (eo_tls_module_id x)
    (eo_needed x) (eo_segments x).
Definition set_eo_fini_array (v : Z) (x : ElfLoadedObject) : ElfLoadedObject :=
  mkObject (eo_name x) (eo_bias x) (eo_dynamic_address x) (eo_dynamic_size x) (eo_string_table x) (eo_string_size x)
    (eo_symbol_table x) (eo_symbol_entry_size x) (eo_symbol_count x) (eo_gnu_hash_bloom x) (eo_gnu_hash_buckets x)
    (eo_gnu_hash_chains x) (eo_gnu_hash_bucket_count x) (eo_gnu_hash_symbol_offset x) (eo_gnu_hash_bloom_size x)
    (eo_gnu_hash_bloom_shift x) (eo_version_symbols x) (eo_version_definitions x) (eo_version_definition_count x)
    (eo_version_requirements x) (eo_version_requirement_count x) (eo_rela x) (eo_rela_size x) (eo_rela_entry_size x)
    (eo_jump_rela x) (eo_jump_rela_size x) (eo_init_function x) (eo_fini_function x) (eo_init_array x)
    (eo_init_array_size x) v (eo_fini_array_size x) (eo_preinit_array x) (eo_preinit_array_size x) (eo_tls_image x)
    (eo_tls_file_size x) (eo_tls_memory_size x) (eo_tls_alignment x) (eo_tls_offset x) (eo_tls_module_id x)
    (eo_needed x) (eo_segments x).
Definition set_eo_fini_array_size (v : Z) (x : ElfLoadedObject) : ElfLoadedObject :=
  mkObject (eo_name x) (eo_bias x) (eo_dynamic_address x) (eo_dynamic_size x) (eo_string_table x) (eo_string_size x)
    (eo_symbol_table x) (eo_symbol_entry_size x) (eo_symbol_count x) (eo_gnu_hash_bloom x) (eo_gnu_hash_buckets x)
    (eo_gnu_hash_chains x) (eo_gnu_hash_bucket_count x) (eo_gnu_hash_symbol_offset x) (eo_gnu_hash_bloom_size x)
    (eo_gnu_hash_bloom_shift x) (eo_version_symbols x) (eo_version_definitions x) (eo_version_definition_count x)
    (eo_version_requirements x) (eo_version_requirement_count x) (eo_rela x) (eo_rela_size x) (eo_rela_entry_size x)
    (eo_jump_rela x) (eo_jump_rela_size x) (eo_init_function x) (eo_fini_function x) (eo_init_array x)
    (eo_init_array_size x) (eo_fini_array x) v (eo_preinit_array x) (eo_preinit_array_size x) (eo_tls_image x)
    (eo_tls_file_size x) (eo_tls_memory_size x) (eo_tls_alignment x) (eo_tls_offset x) (eo_tls_module_id x)
    (eo_needed x) (eo_segments x).
Definition set_eo_preinit_array (v : Z) (x : ElfLoadedObject) : ElfLoadedObject :=
  mkObject (eo_name x) (eo_bias x) (eo_dynamic_address x) (eo_dynamic_size x) (eo_string_table x) (eo_string_size x)
    (eo_symbol_table x) (eo_symbol_entry_size x) (eo_symbol_count x) (eo_gnu_hash_bloom x) (eo_gnu_hash_buckets x)
    (eo_gnu_hash_chains x) (eo_gnu_hash_bucket_count x) (eo_gnu_hash_symbol_offset x) (eo_gnu_hash_bloom_size x)
    (eo_gnu_hash_bloom_shift x) (eo_version_symbols x) (eo_version_definitions x) (eo_version_definition_count x)
    (eo_version_requirements x) (eo_version_requirement_count x) (eo_rela x) (eo_rela_size x) (eo_rela_entry_size x)
    (eo_jump_rela x) (eo_jump_rela_size x) (eo_init_function x) (eo_fini_function x) (eo_init_array x)
    (eo_init_array_size x) (eo_fini_array x) (eo_fini_array_size x) v (eo_preinit_array_size x) (eo_tls_image x)
    (eo_tls_file_size x) (eo_tls_memory_size x) (eo_tls_alignment x) (eo_tls_offset x) (eo_tls_module_id x)
    (eo_needed x) (eo_segments x).
Definition set_eo_preinit_array_size (v : Z) (x : ElfLoadedObject) : ElfLoadedObject :=
  mkObject (eo_name x) (eo_bias x) (eo_dynamic_address x) (eo_dynamic_size x) (eo_string_table x) (eo_string_size x)
    (eo_symbol_table x) (eo_symbol_entry_size x) (eo_symbol_count x) (eo_gnu_hash_bloom x) (eo_gnu_hash_buckets x)
    (eo_gnu_hash_chains x) (eo_gnu_hash_bucket_count x) (eo_gnu_hash_symbol_offset x) (eo_gnu_hash_bloom_size x)
    (eo_gnu_hash_bloom_shift x) (eo_version_symbols x) (eo_version_definitions x) (eo_version_definition_count x)
    (eo_version_requirements x) (eo_version_requirement_count x) (eo_rela x) (eo_rela_size x) (eo_rela_entry_size x)
    (eo_jump_rela x) (eo_jump_rela_size x) (eo_init_function x) (eo_fini_function x) (eo_init_array x)
    (eo_init_array_size x) (eo_fini_array x) (eo_fini_array_size x) (eo_preinit_array x) v (eo_tls_image x)
    (eo_tls_file_size x) (eo_tls_memory_size x) (eo_tls_alignment x) (eo_tls_offset x) (eo_tls_module_id x)
    (eo_needed x) (eo_segments x).
Definition set_eo_tls_image (v : Z) (x : ElfLoadedObject) : ElfLoadedObject :=
  mkObject (eo_name x) (eo_bias x) (eo_dynamic_address x) (eo_dynamic_size x) (eo_string_table x) (eo_string_size x)
    (eo_symbol_table x) (eo_symbol_entry_size x) (eo_symbol_count x) (eo_gnu_hash_bloom x) (eo_gnu_hash_buckets x)
    (eo_gnu_hash_chains x) (eo_gnu_hash_bucket_count x) (eo_gnu_hash_symbol_offset x) (eo_gnu_hash_bloom_size x)
    (eo_gnu_hash_bloom_shift x) (eo_version_symbols x) (eo_version_definitions x) (eo_version_definition_count x)
    (eo_version_requirements x) (eo_version_requirement_count x) (eo_rela x) (eo_rela_size x) (eo_rela_entry_size x)
    (eo_jump_rela x) (eo_jump_rela_size x) (eo_init_function x) (eo_fini_function x) (eo_init_array x)
    (eo_init_array_size x) (eo_fini_array x) (eo_fini_array_size x) (eo_preinit_array x) (eo_preinit_array_size x) v
    (eo_tls_file_size x) (eo_tls_memory_size x) (eo_tls_alignment x) (eo_tls_offset x) (eo_tls_module_id x)
    (eo_needed x) (eo_segments x).
Definition set_eo_tls_file_size (v : Z) (x : ElfLoadedObject) : ElfLoadedObject :=
  mkObject (eo_name x) (eo_bias x) (eo_dynamic_address x) (eo_dynamic_size x) (eo_string_table x) (eo_string_size x)
    (eo_symbol_table x) (eo_symbol_entry_size x) (eo_symbol_count x) (eo_gnu_hash_bloom x) (eo_gnu_hash_buckets x)
    (eo_gnu_hash_chains x) (eo_gnu_hash_bucket_count x) (eo_gnu_hash_symbol_offset x) (eo_gnu_hash_bloom_size x)
    (eo_gnu_hash_bloom_shift x) (eo_version_symbols x) (eo_version_definitions x) (eo_version_definition_count x)
    (eo_version_requirements x) (eo_version_requirement_count x) (eo_rela x) (eo_rela_size x) (eo_rela_entry_size x)
    (eo_jump_rela x) (eo_jump_rela_size x) (eo_init_function x) (eo_fini_function x) (eo_init_array x)
    (eo_init_array_size x) (eo_fini_array x) (eo_fini_array_size x) (eo_preinit_array x) (eo_preinit_array_size x)
    (eo_tls_image x) v (eo_tls_memory_size x) (eo_tls_alignment x) (eo_tls_offset x) (eo_tls_module_id x) (eo_needed
    x) (eo_segments x).
Definition set_eo_tls_memory_size (v : Z) (x : ElfLoadedObject) : ElfLoadedObject :=
  mkObject (eo_name x) (eo_bias x) (eo_dynamic_address x) (eo_dynamic_size x) (eo_string_table x) (eo_string_size x)
    (eo_symbol_table x) (eo_symbol_entry_size x) (eo_symbol_count x) (eo_gnu_hash_bloom x) (eo_gnu_hash_buckets x)
    (eo_gnu_hash_chains x) (eo_gnu_hash_bucket_count x) (eo_gnu_hash_symbol_offset x) (eo_gnu_hash_bloom_size x)
    (eo_gnu_hash_bloom_shift x) (eo_version_symbols x) (eo_version_definitions x) (eo_version_definition_count x)
    (eo_version_requirements x) (eo_version_requirement_count x) (eo_rela x) (eo_rela_size x) (eo_rela_entry_size x)
    (eo_jump_rela x) (eo_jump_rela_size x) (eo_init_function x) (eo_fini_function x) (eo_init_array x)
    (eo_init_array_size x) (eo_fini_array x) (eo_fini_array_size x) (eo_preinit_array x) (eo_preinit_array_size x)
    (eo_tls_image x) (eo_tls_file_size x) v (eo_tls_alignment x) (eo_tls_offset x) (eo_tls_module_id x) (eo_needed x)
    (eo_segments x).
Definition set_eo_tls_alignment (v : Z) (x : ElfLoadedObject) : ElfLoadedObject :=
  mkObject (eo_name x) (eo_bias x) (eo_dynamic_address x) (eo_dynamic_size x) (eo_string_table x) (eo_string_size x)
    (eo_symbol_table x) (eo_symbol_entry_size x) (eo_symbol_count x) (eo_gnu_hash_bloom x) (eo_gnu_hash_buckets x)
    (eo_gnu_hash_chains x) (eo_gnu_hash_bucket_count x) (eo_gnu_hash_symbol_offset x) (eo_gnu_hash_bloom_size x)
    (eo_gnu_hash_bloom_shift x) (eo_version_symbols x) (eo_version_definitions x) (eo_version_definition_count x)
    (eo_version_requirements x) (eo_version_requirement_count x) (eo_rela x) (eo_rela_size x) (eo_rela_entry_size x)
    (eo_jump_rela x) (eo_jump_rela_size x) (eo_init_function x) (eo_fini_function x) (eo_init_array x)
    (eo_init_array_size x) (eo_fini_array x) (eo_fini_array_size x) (eo_preinit_array x) (eo_preinit_array_size x)
    (eo_tls_image x) (eo_tls_file_size x) (eo_tls_memory_size x) v (eo_tls_offset x) (eo_tls_module_id x) (eo_needed
    x) (eo_segments x).
Definition set_eo_tls_offset (v : Z) (x : ElfLoadedObject) : ElfLoadedObject :=
  mkObject (eo_name x) (eo_bias x) (eo_dynamic_address x) (eo_dynamic_size x) (eo_string_table x) (eo_string_size x)
    (eo_symbol_table x) (eo_symbol_entry_size x) (eo_symbol_count x) (eo_gnu_hash_bloom x) (eo_gnu_hash_buckets x)
    (eo_gnu_hash_chains x) (eo_gnu_hash_bucket_count x) (eo_gnu_hash_symbol_offset x) (eo_gnu_hash_bloom_size x)
    (eo_gnu_hash_bloom_shift x) (eo_version_symbols x) (eo_version_definitions x) (eo_version_definition_count x)
    (eo_version_requirements x) (eo_version_requirement_count x) (eo_rela x) (eo_rela_size x) (eo_rela_entry_size x)
    (eo_jump_rela x) (eo_jump_rela_size x) (eo_init_function x) (eo_fini_function x) (eo_init_array x)
    (eo_init_array_size x) (eo_fini_array x) (eo_fini_array_size x) (eo_preinit_array x) (eo_preinit_array_size x)
    (eo_tls_image x) (eo_tls_file_size x) (eo_tls_memory_size x) (eo_tls_alignment x) v (eo_tls_module_id x)
    (eo_needed x) (eo_segments x).
Definition set_eo_tls_module_id (v : Z) (x : ElfLoadedObject) : ElfLoadedObject :=
  mkObject (eo_name x) (eo_bias x) (eo_dynamic_address x) (eo_dynamic_size x) (eo_string_table x) (eo_string_size x)
    (eo_symbol_table x) (eo_symbol_entry_size x) (eo_symbol_count x) (eo_gnu_hash_bloom x) (eo_gnu_hash_buckets x)
    (eo_gnu_hash_chains x) (eo_gnu_hash_bucket_count x) (eo_gnu_hash_symbol_offset x) (eo_gnu_hash_bloom_size x)
    (eo_gnu_hash_bloom_shift x) (eo_version_symbols x) (eo_version_definitions x) (eo_version_definition_count x)
    (eo_version_requirements x) (eo_version_requirement_count x) (eo_rela x) (eo_rela_size x) (eo_rela_entry_size x)
    (eo_jump_rela x) (eo_jump_rela_size x) (eo_init_function x) (eo_fini_function x) (eo_init_array x)
    (eo_init_array_size x) (eo_fini_array x) (eo_fini_array_size x) (eo_preinit_array x) (eo_preinit_array_size x)
    (eo_tls_image x) (eo_tls_file_size x) (eo_tls_memory_size x) (eo_tls_alignment x) (eo_tls_offset x) v (eo_needed
    x) (eo_segments x).
Definition set_eo_needed (v : list Z) (x : ElfLoadedObject) : ElfLoadedObject :=
  mkObject (eo_name x) (eo_bias x) (eo_dynamic_address x) (eo_dynamic_size x) (eo_string_table x) (eo_string_size x)
    (eo_symbol_table x) (eo_symbol_entry_size x) (eo_symbol_count x) (eo_gnu_hash_bloom x) (eo_gnu_hash_buckets x)
    (eo_gnu_hash_chains x) (eo_gnu_hash_bucket_count x) (eo_gnu_hash_symbol_offset x) (eo_gnu_hash_bloom_size x)
    (eo_gnu_hash_bloom_shift x) (eo_version_symbols x) (eo_version_definitions x) (eo_version_definition_count x)
    (eo_version_requirements x) (eo_version_requirement_count x) (eo_rela x) (eo_rela_size x) (eo_rela_entry_size x)
    (eo_jump_rela x) (eo_jump_rela_size x) (eo_init_function x) (eo_fini_function x) (eo_init_array x)
    (eo_init_array_size x) (eo_fini_array x) (eo_fini_array_size x) (eo_preinit_array x) (eo_preinit_array_size x)
    (eo_tls_image x) (eo_tls_file_size x) (eo_tls_memory_size x) (eo_tls_alignment x) (eo_tls_offset x)
    (eo_tls_module_id x) v (eo_segments x).
Definition set_eo_segments (v : list ElfMappedSegment) (x : ElfLoadedObject) : ElfLoadedObject :=
  mkObject (eo_name x) (eo_bias x) (eo_dynamic_address x) (eo_dynamic_size x) (eo_string_table x) (eo_string_size x)
    (eo_symbol_table x) (eo_symbol_entry_size x) (eo_symbol_count x) (eo_gnu_hash_bloom x) (eo_gnu_hash_buckets x)
    (eo_gnu_hash_chains x) (eo_gnu_hash_bucket_count x) (eo_gnu_hash_symbol_offset x) (eo_gnu_hash_bloom_size x)
    (eo_gnu_hash_bloom_shift x) (eo_version_symbols x) (eo_version_definitions x) (eo_version_definition_count x)
    (eo_version_requirements x) (eo_version_requirement_count x) (eo_rela x) (eo_rela_size x) (eo_rela_entry_size x)
    (eo_jump_rela x) (eo_jump_rela_size x) (eo_init_function x) (eo_fini_function x) (eo_init_array x)
    (eo_init_array_size x) (eo_fini_array x) (eo_fini_array_size x) (eo_preinit_array x) (eo_preinit_array_size x)
    (eo_tls_image x) (eo_tls_file_size x) (eo_tls_memory_size x) (eo_tls_alignment x) (eo_tls_offset x)
    (eo_tls_module_id x) (eo_needed x) v.

Definition zero_object : ElfLoadedObject :=
  mkObject [] 0 0 0 0 0 0 0 0 0 0 0 0 0 0 0 0 0 0 0 0 0 0 0 0 0 0 0 0 0 0 0 0 0 0 0 0 0 0 0 [] [].

(** [sizeof(ElfLoadedObject)] *)
Definition OBJECT_SIZE : Z := 1304.

Definition valid_elf (header : Elf64Header) (size : Z) : bool :=
  (64 <=? size) && bool_decide (take 6 (eh_magic header) = [0x7F; 69; 76; 70; 2; 1]) &&
  ((eh_type header =? 2) || (eh_type header =? 3)) && (eh_machine header =? 0x3E) && (eh_program_header_size header =? 56) &&
  (eh_program_header_count header <=? 64) &&
  (u64 (eh_program_header_offset header + eh_program_header_count header * 56) <=? size).

Definition elf_segment_protection (flags : Z) : Z :=
  Z.lor (Z.lor (flag_if (has flags 4) VM_PROT_READ) (flag_if (has flags 2) VM_PROT_WRITE)) (flag_if (has flags 1) VM_PROT_EXEC).

(** What follows the last slash. *)
Fixpoint base_of (path base : list Z) : list Z :=
  match path with
  | [] => base
  | c :: path => base_of path (if c =? SLASH then path else base)
  end.

(** Two dots in a row, or a slash. *)
Fixpoint bad_name (base : list Z) : bool :=
  match base with
  | [] => false
  | c :: rest => (c =? DOT) && (char_at rest =? DOT) || (c =? SLASH) || bad_name rest
  end.

Definition elf_basename (path : list Z) : option (list Z) :=
  let base := base_of path path in
  if bool_decide (base = []) || (Z.of_nat FS_NAME_MAX <? Z.of_nat (length base)) || bad_name base then None else Some base.

Section memory.
Context (rd : Z -> nat -> option (list Z)).

(** An integer of [n] bytes. *)
Definition read_int (n : nat) (address : Z) : option Z := of_le <$> rd address n.

(** At most [n] characters and the end of a string. *)
Fixpoint mapped_string (n : nat) (address : Z) : option (list Z) :=
  match n with
  | O => None
  | S n =>
      match read_int 1 address with
      | None => None
      | Some c => if c =? 0 then Some [] else
          match mapped_string n (u64 (address + 1)) with Some rest => Some (c :: rest) | None => None end
      end
  end.

Definition copy_mapped_string (address capacity : Z) : option (list Z) :=
  if (address =? 0) || (capacity <? 2) then None else mapped_string (Z.to_nat (capacity - 1)) address.

(** ** The GNU hash table *)

(** The chain from [symbol] on: one more than its last symbol, or [maximum] if that is more. *)
Fixpoint walk_chain (fuel : nat) (chains offset symbol maximum : Z) : option Z :=
  match fuel with
  | O => None
  | S fuel =>
      match read_int 4 (u64 (chains + (symbol - offset) * 4)) with
      | None => None
      | Some chain =>
          let maximum := if maximum <=? symbol then symbol + 1 else maximum in
          if Z.odd chain then Some maximum else
          if ELF_MAX_SYMBOLS <=? symbol + 1 then None else walk_chain fuel chains offset (symbol + 1) maximum
      end
  end.

Fixpoint walk_buckets (n : nat) (buckets chains offset index maximum : Z) : option Z :=
  match n with
  | O => Some maximum
  | S n =>
      match read_int 4 (u64 (buckets + index * 4)) with
      | None => None
      | Some symbol =>
          if symbol =? 0 then walk_buckets n buckets chains offset (index + 1) maximum else
          if (symbol <? offset) || (ELF_MAX_SYMBOLS <=? symbol) then None else
          match walk_chain (Z.to_nat (ELF_MAX_SYMBOLS - symbol)) chains offset symbol maximum with
          | None => None
          | Some maximum => walk_buckets n buckets chains offset (index + 1) maximum
          end
      end
  end.

Definition parse_gnu_hash (object : ElfLoadedObject) (hash_address : Z) : option ElfLoadedObject :=
  match rd hash_address 16 with
  | None => None
  | Some header =>
      let h0 := field 0 4 header in
      let h1 := field 4 4 header in
      let h2 := field 8 4 header in
      let h3 := field 12 4 header in
      if (h0 =? 0) || (h2 =? 0) || (ELF_MAX_SYMBOLS <? h0) || (ELF_MAX_SYMBOLS <? h1) || (ELF_MAX_SYMBOLS <? h2) || (32 <=? h3)
      then None else
      let bloom := u64 (hash_address + 16) in
      let buckets := u64 (bloom + h2 * 8) in
      let chains := u64 (buckets + h0 * 4) in
      if (bloom <? hash_address) || (buckets <? bloom) || (chains <? buckets) then None else
      let object := set_eo_gnu_hash_bloom bloom (set_eo_gnu_hash_buckets buckets (set_eo_gnu_hash_chains chains
        (set_eo_gnu_hash_bucket_count h0 (set_eo_gnu_hash_symbol_offset h1 (set_eo_gnu_hash_bloom_size h2
        (set_eo_gnu_hash_bloom_shift h3 object)))))) in
      match walk_buckets (Z.to_nat h0) buckets chains h1 0 h1 with
      | None => None
      | Some maximum =>
          Some (if eo_symbol_count object <? maximum then set_eo_symbol_count maximum object else object)
      end
  end.

(** ** The dynamic section *)

(** The object, and the addresses of its hash tables. *)
Definition dynamic_entry (tag value : Z) (state : ElfLoadedObject * Z * Z) : option (ElfLoadedObject * Z * Z) :=
  let '(o, hash, gnu) := state in
  let biased := u64 (eo_bias o + value) in
  let put o := Some (o, hash, gnu) in
  if tag =? ELF_DT_NEEDED then
    if ELF_MAX_NEEDED <=? Z.of_nat (length (eo_needed o)) then None else put (set_eo_needed (eo_needed o ++ [value]) o)
  else if tag =? ELF_DT_HASH then Some (o, biased, gnu)
  else if tag =? ELF_DT_GNU_HASH then Some (o, hash, biased)
  else if tag =? ELF_DT_VERSYM then put (set_eo_version_symbols biased o)
  else if tag =? ELF_DT_VERDEF then put (set_eo_version_definitions biased o)
  else if tag =? ELF_DT_VERDEFNUM then if 65535 <? value then None else put (set_eo_version_definition_count value o)
  else if tag =? ELF_DT_VERNEED then put (set_eo_version_requirements biased o)
  else if tag =? ELF_DT_VERNEEDNUM then if 65535 <? value then None else put (set_eo_version_requirement_count value o)
  else if tag =? ELF_DT_STRTAB then put (set_eo_string_table biased o)
  else if tag =? ELF_DT_SYMTAB then put (set_eo_symbol_table biased o)
  else if tag =? ELF_DT_STRSZ then put (set_eo_string_size value o)
  else if tag =? ELF_DT_SYMENT then put (set_eo_symbol_entry_size value o)
  else if tag =? ELF_DT_INIT then put (set_eo_init_function biased o)
  else if tag =? ELF_DT_FINI then put (set_eo_fini_function biased o)
  else if tag =? ELF_DT_INIT_ARRAY then put (set_eo_init_array biased o)
  else if tag =? ELF_DT_INIT_ARRAYSZ then put (set_eo_init_array_size value o)
  else if tag =? ELF_DT_FINI_ARRAY then put (set_eo_fini_array biased o)
  else if tag =? ELF_DT_FINI_ARRAYSZ then put (set_eo_fini_array_size value o)
  else if tag =? ELF_DT_PREINIT_ARRAY then put (set_eo_preinit_array biased o)
  else if tag =? ELF_DT_PREINIT_ARRAYSZ then put (set_eo_preinit_array_size value o)
  else if tag =? ELF_DT_RELA then put (set_eo_rela biased o)
  else if tag =? ELF_DT_RELASZ then put (set_eo_rela_size value o)
  else if tag =? ELF_DT_RELAENT then put (set_eo_rela_entry_size value o)
  else if tag =? ELF_DT_JMPREL then put (set_eo_jump_rela biased o)
  else if tag =? ELF_DT_PLTRELSZ then put (set_eo_jump_rela_size value o)
  else if (tag =? ELF_DT_PLTREL) && negb (value =? ELF_DT_RELA) then None
  else put o.

Fixpoint dynamic_loop (n : nat) (address : Z) (state : ElfLoadedObject * Z * Z) : option (ElfLoadedObject * Z * Z) :=
  match n with
  | O => Some state
  | S n =>
      match rd address 16 with
      | None => None
      | Some entry =>
          let tag := s64 (field 0 8 entry) in
          if tag =? ELF_DT_NULL then Some state else
          match dynamic_entry tag (field 8 8 entry) state with
          | None => None
          | Some state => dynamic_loop n (u64 (address + 16)) state
          end
      end
  end.

Definition dynamic_ok (o : ElfLoadedObject) : bool :=
  (eo_symbol_entry_size o =? 24) && (eo_rela_entry_size o =? 24) &&
  (eo_init_array_size o mod 8 =? 0) && (eo_fini_array_size o mod 8 =? 0) && (eo_preinit_array_size o mod 8 =? 0) &&
  negb (negb (eo_init_array_size o =? 0) && (eo_init_array o =? 0)) &&
  negb (negb (eo_fini_array_size o =? 0) && (eo_fini_array o =? 0)) &&
  negb (negb (eo_preinit_array_size o =? 0) && (eo_preinit_array o =? 0)).

Definition parse_dynamic_object (object : ElfLoadedObject) : option ElfLoadedObject :=
  if (eo_dynamic_address object =? 0) || (eo_dynamic_size object =? 0) then Some object else
  match dynamic_loop (Z.to_nat (eo_dynamic_size object / 16)) (eo_dynamic_address object)
          (set_eo_rela_entry_size 24 (set_eo_symbol_entry_size 24 object), 0, 0) with
  | None => None
  | Some (object, hash_address, gnu_hash_address) =>
      if negb (dynamic_ok object) then None else
      match (if hash_address =? 0 then Some object else
             match rd hash_address 8 with
             | None => None
             | Some header =>
                 if (field 0 4 header =? 0) || (field 4 4 header =? 0) || (ELF_MAX_SYMBOLS <? field 4 4 header) then None
                 else Some (set_eo_symbol_count (field 4 4 header) object)
             end) with
      | None => None
      | Some object =>
          match (if gnu_hash_address =? 0 then Some object else parse_gnu_hash object gnu_hash_address) with
          | None => None
          | Some object =>
              if (eo_symbol_table object =? 0) || (eo_string_table object <=? eo_symbol_table object) then Some object else
              let count := (eo_string_table object - eo_symbol_table object) / 24 in
              Some (if negb (count =? 0) && (count <=? ELF_MAX_SYMBOLS) && (eo_symbol_count object <? count)
                    then set_eo_symbol_count count object else object)
          end
      end
  end.

(** ** Symbols and their versions *)

Definition read_object_symbol (object : ElfLoadedObject) (index : Z) : option Elf64Symbol :=
  if (eo_symbol_table object =? 0) || (eo_symbol_count object <=? index) then None
  else decode_symbol <$> rd (u64 (eo_symbol_table object + index * 24)) 24.

Definition gnu_symbol_hash (name : list Z) : Z := foldl (fun hash c => u32 (u32 (hash * 33) + u8 c)) 5381 name.

Definition read_symbol_version (object : ElfLoadedObject) (index : Z) : option Z :=
  if eo_version_symbols object =? 0 then Some 1 else read_int 2 (u64 (eo_version_symbols object + index * 2)).

(** The entry of a version in one record of required versions: [Some None] when it is not there. *)
Fixpoint find_auxiliary (n : nat) (object : ElfLoadedObject) (version address : Z) : option (option (list Z)) :=
  match n with
  | O => Some None
  | S n =>
      match rd address 16 with
      | None => None
      | Some auxiliary =>
          if Z.land (field 6 2 auxiliary) 0x7FFF =? version then
            if eo_string_size object <=? field 8 4 auxiliary then None
            else match copy_mapped_string (u64 (eo_string_table object + field 8 4 auxiliary)) ELF_SYMBOL_NAME_MAX with
                 | None => None
                 | Some name => Some (Some name)
                 end
          else if field 12 4 auxiliary =? 0 then Some None else
          let next := u64 (address + field 12 4 auxiliary) in
          if next <=? address then None else find_auxiliary n object version next
      end
  end.

Fixpoint find_requirement (n : nat) (object : ElfLoadedObject) (version address : Z) : option (list Z) :=
  match n with
  | O => None
  | S n =>
      match rd address 16 with
      | None => None
      | Some need =>
          let count := field 2 2 need in
          if count =? 0 then None else
          let auxiliary := u64 (address + field 8 4 need) in
          if auxiliary <? address then None else
          match find_auxiliary (Z.to_nat count) object version auxiliary with
          | None => None
          | Some (Some name) => Some name
          | Some None =>
              if field 12 4 need =? 0 then None else
              let next := u64 (address + field 12 4 need) in
              if next <=? address then None else find_requirement n object version next
          end
      end
  end.

Definition required_version_name (object : ElfLoadedObject) (version_index : Z) : option (list Z) :=
  let version := Z.land version_index 0x7FFF in
  if version <=? 1 then Some [] else
  if (eo_version_requirements object =? 0) || (eo_version_requirement_count object =? 0) then None else
  find_requirement (Z.to_nat (eo_version_requirement_count object)) object version (eo_version_requirements object).

Fixpoint find_definition (n : nat) (object : ElfLoadedObject) (version address : Z) : option (list Z) :=
  match n with
  | O => None
  | S n =>
      match rd address 20 with
      | None => None
      | Some definition =>
          if Z.land (field 4 2 definition) 0x7FFF =? version then
            let auxiliary := u64 (address + field 12 4 definition) in
            if auxiliary <? address then None else
            match rd auxiliary 8 with
            | None => None
            | Some entry =>
                if eo_string_size object <=? field 0 4 entry then None
                else copy_mapped_string (u64 (eo_string_table object + field 0 4 entry)) ELF_SYMBOL_NAME_MAX
            end
          else if field 16 4 definition =? 0 then None else
          let next := u64 (address + field 16 4 definition) in
          if next <=? address then None else find_definition n object version next
      end
  end.

Definition defined_version_name (object : ElfLoadedObject) (version_index : Z) : option (list Z) :=
  let version := Z.land version_index 0x7FFF in
  if version <=? 1 then Some [] else
  if (eo_version_definitions object =? 0) || (eo_version_definition_count object =? 0) then None else
  find_definition (Z.to_nat (eo_version_definition_count object)) object version (eo_version_definitions object).

(** Whether the version of a symbol fits the request; [None] for bad data. *)
Definition symbol_version_matches (object : ElfLoadedObject) (index : Z) (requested : list Z) : option bool :=
  match read_symbol_version object index with
  | None => None
  | Some raw =>
      if bool_decide (requested = []) then Some (negb (has raw 0x8000)) else
      if Z.land raw 0x7FFF <=? 1 then Some false else
      match defined_version_name object (Z.land raw 0x7FFF) with
      | None => None
      | Some name => Some (bool_decide (name = requested))
      end
  end.

(** Whether the symbol at [index] is the one looked for: its value, no, or bad data. *)
Definition symbol_matches (object : ElfLoadedObject) (name version : list Z) (index : Z) : option (option Z) :=
  match read_object_symbol object index with
  | None => None
  | Some candidate =>
      let binding := Z.shiftr (sy_information candidate) 4 in
      if (sy_section_index candidate =? 0) || (negb (binding =? 1) && negb (binding =? 2)) ||
         (eo_string_size object <=? sy_name candidate) then Some None else
      match copy_mapped_string (u64 (eo_string_table object + sy_name candidate)) ELF_SYMBOL_NAME_MAX with
      | None => None
      | Some candidate_name =>
          if negb (bool_decide (candidate_name = name)) then Some None else
          match symbol_version_matches object index version with
          | None => None
          | Some false => Some None
          | Some true => Some (Some (u64 (eo_bias object + sy_value candidate)))
          end
      end
  end.

(** The chain of a bucket. *)
Fixpoint search_chain (fuel : nat) (object : ElfLoadedObject) (name version : list Z) (hash index : Z) : option (option (Z * Z)) :=
  match fuel with
  | O => Some None
  | S fuel =>
      if eo_symbol_count object <=? index then Some None else
      match read_int 4 (u64 (eo_gnu_hash_chains object + (index - eo_gnu_hash_symbol_offset object) * 4)) with
      | None => None
      | Some chain =>
          match (if Z.lor chain 1 =? Z.lor hash 1 then symbol_matches object name version index else Some None) with
          | None => None
          | Some (Some value) => Some (Some (value, index))
          | Some None => if Z.odd chain then Some None else search_chain fuel object name version hash (index + 1)
          end
      end
  end.

(** All symbols from [index] on. *)
Fixpoint search_table (fuel : nat) (object : ElfLoadedObject) (name version : list Z) (index : Z) : option (option (Z * Z)) :=
  match fuel with
  | O => Some None
  | S fuel =>
      if eo_symbol_count object <=? index then Some None else
      match symbol_matches object name version index with
      | None => None
      | Some (Some value) => Some (Some (value, index))
      | Some None => search_table fuel object name version (index + 1)
      end
  end.

(** The bits of the filter that a hash sets. *)
Definition bloom_mask (object : ElfLoadedObject) (hash : Z) : Z :=
  Z.lor (Z.shiftl 1 (Z.land hash 63)) (Z.shiftl 1 (Z.land (Z.shiftr hash (eo_gnu_hash_bloom_shift object)) 63)).

(** The value and index of a symbol, that there is none, or [None] for bad data. *)
Definition find_symbol_in_object (object : ElfLoadedObject) (name version : list Z) : option (option (Z * Z)) :=
  if negb (eo_gnu_hash_bucket_count object =? 0) then
    let hash := gnu_symbol_hash name in
    let bloom_index := (hash / 64) mod eo_gnu_hash_bloom_size object in
    match read_int 8 (u64 (eo_gnu_hash_bloom object + bloom_index * 8)) with
    | None => None
    | Some word =>
        let mask := bloom_mask object hash in
        if negb (Z.land word mask =? mask) then Some None else
        match read_int 4 (u64 (eo_gnu_hash_buckets object + (hash mod eo_gnu_hash_bucket_count object) * 4)) with
        | None => None
        | Some index =>
            if index <? eo_gnu_hash_symbol_offset object then Some None
            else search_chain (Z.to_nat (eo_symbol_count object - index)) object name version hash index
        end
    end
  else search_table (Z.to_nat (eo_symbol_count object - 1)) object name version 1.

(** The first object that has the symbol; [Some None] when none has. *)
Fixpoint find_in_objects (objects : list ElfLoadedObject) (name version : list Z) : option (option (ElfLoadedObject * Z * Z)) :=
  match objects with
  | [] => Some None
  | object :: objects =>
      match find_symbol_in_object object name version with
      | None => None
      | Some (Some (value, index)) => Some (Some (object, value, index))
      | Some None => find_in_objects objects name version
      end
  end.

(** The symbol that a relocation names, with the name and version to look for when it is not
    defined in the object itself. *)
Definition requested_symbol (requester : ElfLoadedObject) (index : Z) : option (Elf64Symbol * option (list Z * list Z)) :=
  match read_object_symbol requester index with
  | None => None
  | Some requested =>
      if (eo_string_table requester =? 0) || (eo_string_size requester <=? sy_name requested) then None else
      if negb (sy_section_index requested =? 0) then Some (requested, None) else
      match copy_mapped_string (u64 (eo_string_table requester + sy_name requested)) ELF_SYMBOL_NAME_MAX with
      | None => None
      | Some name =>
          match read_symbol_version requester index with
          | None => None
          | Some version_index =>
              match required_version_name requester version_index with
              | None => None
              | Some version => Some (requested, Some (name, version))
              end
          end
      end
  end.

Definition weak (s : Elf64Symbol) : bool := Z.shiftr (sy_information s) 4 =? 2.

Definition resolve_symbol (objects : list ElfLoadedObject) (requester : ElfLoadedObject) (index : Z) : option Z :=
  match requested_symbol requester index with
  | None => None
  | Some (requested, None) => Some (u64 (eo_bias requester + sy_value requested))
  | Some (requested, Some (name, version)) =>
      match find_in_objects objects name version with
      | None => None
      | Some (Some (_, value, _)) => Some value
      | Some None => if weak requested then Some 0 else None
      end
  end.

Definition resolve_named_symbol (objects : list ElfLoadedObject) (name : list Z) : option Z :=
  match find_in_objects objects name [] with
  | Some (Some (_, value, _)) => Some value
  | _ => None
  end.

(** The object and symbol of a thread-local variable; no object for a weak one that is missing. *)
Definition resolve_tls_symbol (objects : list ElfLoadedObject) (requester : ElfLoadedObject) (index : Z) :
    option (option ElfLoadedObject * Elf64Symbol) :=
  match requested_symbol requester index with
  | None => None
  | Some (requested, None) => Some (Some requester, requested)
  | Some (requested, Some (name, version)) =>
      match find_in_objects objects name version with
      | None => None
      | Some (Some (object, _, found)) =>
          match read_object_symbol object found with
          | None => None
          | Some definition => Some (Some object, definition)
          end
      | Some None => if weak requested then Some (None, zero_symbol) else None
      end
  end.

End memory.

(** ** Thread-local storage *)

Definition align_tls_size (value alignment : Z) : option Z :=
  if (alignment =? 0) || negb (Z.land alignment (alignment - 1) =? 0) || (u64 (-1) - (alignment - 1) <? value) then None
  else Some (Z.land (u64 (value + alignment - 1)) (u64 (Z.lnot (alignment - 1)))).

(** The objects with their offsets and modules, the size so far, and the largest alignment. *)
Fixpoint layout_loop (objects : list ElfLoadedObject) (cursor maximum_alignment module_id : Z) :
    option (list ElfLoadedObject * Z * Z) :=
  match objects with
  | [] => Some ([], cursor, maximum_alignment)
  | o :: objects =>
      if eo_tls_memory_size o =? 0 then
        match layout_loop objects cursor maximum_alignment module_id with
        | Some (l, cursor, maximum_alignment) => Some (o :: l, cursor, maximum_alignment)
        | None => None
        end
      else
        let alignment := if eo_tls_alignment o =? 0 then 1 else eo_tls_alignment o in
        if (ELF_TLS_MAX_SIZE <? eo_tls_memory_size o) || (ELF_TLS_MAX_SIZE - eo_tls_memory_size o <? cursor) then None else
        match align_tls_size (cursor + eo_tls_memory_size o) alignment with
        | None => None
        | Some offset =>
            if ELF_TLS_MAX_SIZE <? offset then None else
            match layout_loop objects offset (if maximum_alignment <? alignment then alignment else maximum_alignment) (module_id + 1) with
            | Some (l, cursor, maximum_alignment) =>
                Some (set_eo_tls_module_id module_id (set_eo_tls_offset offset o) :: l, cursor, maximum_alignment)
            | None => None
            end
        end
  end.

Definition layout_static_tls (objects : list ElfLoadedObject) : option (list ElfLoadedObject * Z) :=
  match layout_loop objects 0 16 1 with
  | None => None
  | Some (objects, cursor, maximum_alignment) =>
      match align_tls_size cursor maximum_alignment with
      | None => None
      | Some static_size => if static_size <=? ELF_TLS_MAX_SIZE then Some (objects, static_size) else None
      end
  end.
