(* ===== verification/ElfLoader.v ===== *)
(** * The ELF loader of kernel/process.c

    [load_elf_image] fills an address space with a program: its segments and those of its
    interpreter and of the libraries it needs, relocated, with the block of thread-local
    storage, a table of the functions to call first, and a stack. *)

From S2P Require Import Prelude Runtime Heap HeapFacts Interfaces Filesystem Vm Process Descriptors Ipc FileCalls MemCalls Elf.

Definition ELF_R_X86_64_64 : Z := 1.
Definition ELF_R_X86_64_GLOB_DAT : Z := 6.
Definition ELF_R_X86_64_JUMP_SLOT : Z := 7.
Definition ELF_R_X86_64_RELATIVE : Z := 8.
Definition ELF_R_X86_64_DTPMOD64 : Z := 16.
Definition ELF_R_X86_64_DTPOFF64 : Z := 17.
Definition ELF_R_X86_64_TPOFF64 : Z := 18.
Definition ELF_R_X86_64_DTPOFF32 : Z := 21.
Definition ELF_R_X86_64_TPOFF32 : Z := 23.
Definition ELF_R_X86_64_TLSDESC : Z := 36.
Definition ELF_INTERPRETER_BASE : Z := 0x200000000.
Definition ELF_LIBRARY_BASE : Z := 0x400000000.
Definition ELF_LIBRARY_STRIDE : Z := 0x10000000.
Definition ELF_TLS_DTV_ENTRIES : Z := ELF_MAX_OBJECTS + 1.
Definition ELF_TLS_DTV_SIZE : Z := ELF_TLS_DTV_ENTRIES * 8.
Definition ELF_STARTUP_MAGIC : Z := 0x4E4F564153544152.
Definition ELF_STARTUP_MAX_FUNCTIONS : Z := 4096.
Definition VM_USER_LOAD_LIMIT : Z := 0xE00000000.
Definition CONTEXT_RFLAGS : Z := 16.

(** What the loader reports of a program. *)
Record LoadedImage := mkImage {
  li_context : list Z; li_program_break : Z; li_fs_base : Z; li_tls_mapping : Z; li_tls_mapping_size : Z }.

(** What [map_elf_object] reports of an object. *)
Record MappedObject := mkMappedObject { mo_object : ElfLoadedObject; mo_entry : Z; mo_maximum_end : Z; mo_interpreter : list Z }.

(** The table of modules: the number of them, and the address of each block. *)
Fixpoint dtv_entries (objects : list ElfLoadedObject) (thread_pointer : Z) (dtv : list Z) (count : Z) : option (list Z * Z) :=
  match objects with
  | [] => Some (dtv, count)
  | o :: objects =>
      if eo_tls_module_id o =? 0 then dtv_entries objects thread_pointer dtv count else
      if ELF_TLS_DTV_ENTRIES <=? eo_tls_module_id o then None else
      dtv_entries objects thread_pointer (edit_index (eo_tls_module_id o) (fun _ => u64 (thread_pointer - eo_tls_offset o)) dtv)
        (if count <? eo_tls_module_id o then eo_tls_module_id o else count)
  end.

Section loader.
Context {D H : Type} `{!BlockDevice D} `{!Allocator H}.

Notation Kernel := (@Kernel D H).
Notation K := (st Kernel).

(** [vm_copy_from_user] on the address space at [pointer]. *)
Definition reader (pointer : Z) (k : Kernel) (address : Z) (size : nat) : option (list Z) :=
  match k_spaces k !! pointer with
  | None => None
  | Some a => vm_copy_from_user address size (mkVm (k_world k) (as_vm a))
  end.

Definition range_mapped (pointer address size : Z) (k : Kernel) : bool :=
  match k_spaces k !! pointer with Some a => vm_range_mapped address size false (as_vm a) | None => false end.

Definition find_free_range (pointer hint size : Z) (k : Kernel) : Z :=
  match k_spaces k !! pointer with Some a => vm_find_free_range hint size (as_vm a) | None => 0 end.

Definition write_memory (pointer address : Z) (bytes : list Z) : K bool := on_space_at pointer false (vm_copy_to_user address bytes).

Definition edit_space (pointer : Z) (f : AddressSpace -> AddressSpace) : K unit :=
  modify (fun k => set_k_spaces (alter f pointer (k_spaces k)) k).

Definition map_stack (pointer : Z) : K bool :=
  on_space_at pointer false (vm_map_page (VM_USER_STACK_TOP - VM_PAGE_SIZE) (Z.lor VM_PROT_READ VM_PROT_WRITE)).

(** ** Reading files *)

(** Exactly [size] bytes of a file. *)
Definition read_exactly (name : list Z) (offset size : Z) : K (option (list Z)) :=
  r <- on_fs (fs_read_at name offset size) ;;
  ret (match r with Some bytes => if Z.of_nat (length bytes) =? size then Some bytes else None | None => None end).

(** The size, the header and the program headers of an ELF file. *)
Definition read_headers (name : list Z) : K (option (Z * Elf64Header * list Elf64ProgramHeader)) :=
  info <- file_info name ;;
  match info with
  | None => ret None
  | Some info =>
      if fi_size info =? 0 then ret None else
      bytes <- read_exactly name 0 64 ;;
      match bytes with
      | None => ret None
      | Some bytes =>
          let header := decode_header bytes in
          if negb (valid_elf header (fi_size info)) then ret None else
          let count := eh_program_header_count header in
          segments <- read_exactly name (eh_program_header_offset header) (count * 56) ;;
          ret (match segments with
               | None => None
               | Some segments => Some (fi_size info, header, (fun i => decode_segment (slice (56 * i) 56 segments)) <$> seq 0 (Z.to_nat count))
               end)
      end
  end.

(** The path of an interpreter, at most 96 bytes. *)
Definition interpreter_path (name : list Z) (segment : Elf64ProgramHeader) : K (option (list Z)) :=
  if (ph_file_size segment =? 0) || (Z.of_nat FS_NAME_MAX + 1 <? ph_file_size segment) then ret None else
  bytes <- read_exactly name (ph_offset segment) (ph_file_size segment) ;;
  ret (cstr <$> bytes).

(** The interpreter that the last of the segments of its type names, empty when there is none. *)
Fixpoint find_interpreter (name : list Z) (size : Z) (allowed : bool) (segments : list Elf64ProgramHeader) (found : list Z) : K (option (list Z)) :=
  match segments with
  | [] => ret (Some found)
  | segment :: segments =>
      if negb (ph_type segment =? ELF_PT_INTERP) then find_interpreter name size allowed segments found else
      if negb allowed || (size <? ph_offset segment) || (size - ph_offset segment <? ph_file_size segment) then ret None else
      path <- interpreter_path name segment ;;
      match path with
      | None => ret None
      | Some path =>
          match elf_basename path with
          | None => ret None
          | Some base => find_interpreter name size allowed segments base
          end
      end
  end.

(** ** Mapping objects *)

Definition tls_segment (segment : Elf64ProgramHeader) (o : ElfLoadedObject) : option ElfLoadedObject :=
  let alignment := if ph_alignment segment =? 0 then 1 else ph_alignment segment in
  let image := u64 (ph_virtual_address segment + eo_bias o) in
  if negb (eo_tls_memory_size o =? 0) || (ph_memory_size segment <? ph_file_size segment) ||
     negb (Z.land alignment (alignment - 1) =? 0) || (ELF_TLS_MAX_ALIGN <? alignment) || (image <? VM_USER_BASE) ||
     (u64 (image + ph_memory_size segment) <? image) || (VM_USER_LOAD_LIMIT <? u64 (image + ph_memory_size segment)) then None else
  Some (set_eo_tls_image image (set_eo_tls_file_size (ph_file_size segment)
    (set_eo_tls_memory_size (ph_memory_size segment) (set_eo_tls_alignment alignment o)))).

(** [None] when a page cannot be mapped; the pages mapped so far stay. *)
Definition map_segment (pointer : Z) (name : list Z) (start end_ : Z) (segment : Elf64ProgramHeader) : K bool :=
  let n := span (align_down start) (align_up end_) in
  m <- map_pages n pointer (align_down start) (Z.lor (Z.lor VM_PROT_READ VM_PROT_WRITE) VM_PROT_EXEC) ;;
  if negb (m =? n)%nat then ret false else
  load_file (Z.to_nat (ph_file_size segment)) pointer name (ph_offset segment) start (ph_file_size segment) 0.

Fixpoint map_segments (pointer : Z) (name : list Z) (size : Z) (segments : list Elf64ProgramHeader)
    (o : ElfLoadedObject) (maximum_end : Z) : K (option (ElfLoadedObject * Z)) :=
  match segments with
  | [] => ret (Some (o, maximum_end))
  | segment :: segments =>
      if ph_type segment =? ELF_PT_INTERP then map_segments pointer name size segments o maximum_end
      else if ph_type segment =? ELF_PT_TLS then
        match tls_segment segment o with
        | None => ret None
        | Some o => map_segments pointer name size segments o maximum_end
        end
      else if ph_type segment =? ELF_PT_DYNAMIC then
        map_segments pointer name size segments
          (set_eo_dynamic_address (u64 (ph_virtual_address segment + eo_bias o)) (set_eo_dynamic_size (ph_memory_size segment) o)) maximum_end
      else if negb (ph_type segment =? ELF_PT_LOAD) then map_segments pointer name size segments o maximum_end
      else
        let start := u64 (ph_virtual_address segment + eo_bias o) in
        let end_ := u64 (start + ph_memory_size segment) in
        if (ELF_MAX_SEGMENTS <=? Z.of_nat (length (eo_segments o))) || (end_ <? start) || (start <? VM_USER_BASE) ||
           (VM_USER_LOAD_LIMIT <? end_) || (ph_memory_size segment <? ph_file_size segment) || (size <? ph_offset segment) ||
           (size - ph_offset segment <? ph_file_size segment) then ret None else
        mapped <- map_segment pointer name start end_ segment ;;
        if negb mapped then ret None else
        map_segments pointer name size segments
          (set_eo_segments (eo_segments o ++
             [mkMapped (align_down start) (align_up end_ - align_down start) (elf_segment_protection (ph_flags segment))]) o)
          (if maximum_end <? end_ then end_ else maximum_end)
  end.

(** The caller that does not want the entry, the end or the interpreter does not use them. *)
Definition map_elf_object (pointer : Z) (name : list Z) (requested_bias maximum_end : Z) (want_entry allow_interpreter : bool) :
    K (option MappedObject) :=
  ready <- gets (fun k => fs_is_ready (k_fs k)) ;;
  if negb ready then ret None else
  headers <- read_headers name ;;
  match headers with
  | None => ret None
  | Some (size, header, segments) =>
      let o := set_eo_name (take FS_NAME_MAX name) (set_eo_bias (if eh_type header =? 3 then requested_bias else 0) zero_object) in
      interpreter <- find_interpreter name size allow_interpreter segments [] ;;
      match interpreter with
      | None => ret None
      | Some interpreter =>
          present <- (if bool_decide (interpreter = []) then ret true else
            info <- file_info interpreter ;;
            match info with
            | Some _ => ret true
            | None =>
                serial_write (text "NovaOS: missing ELF interpreter: " ++ interpreter ++ [13; 10]) ;;;
                ret false
            end) ;;
          if negb present then ret None else
          mapped <- map_segments pointer name size segments o maximum_end ;;
          match mapped with
          | None => ret None
          | Some (o, maximum_end) =>
              k <- gets id ;;
              if negb (eo_tls_memory_size o =? 0) && negb (range_mapped pointer (eo_tls_image o) (eo_tls_memory_size o) k) then ret None else
              if bool_decide (eo_segments o = []) then ret None else
              match parse_dynamic_object (reader pointer k) o with
              | None => ret None
              | Some o =>
                  let entry := u64 (eh_entry header + eo_bias o) in
                  if want_entry && ((entry <? VM_USER_BASE) || (VM_USER_LOAD_LIMIT <=? entry)) then ret None
                  else ret (Some (mkMappedObject o entry maximum_end interpreter))
              end
          end
      end
  end.

(** ** The libraries *)

Definition loaded_object_index (objects : list ElfLoadedObject) (name : list Z) : Z :=
  first_index (fun o => bool_decide (eo_name o = name)) 0 objects.

(** The names that [o] needs, in turn; [library_number] counts the libraries. *)
Fixpoint load_needed (pointer : Z) (o : ElfLoadedObject) (needed : list Z) (objects : list ElfLoadedObject) (library_number : Z) :
    K (option (list ElfLoadedObject * Z)) :=
  match needed with
  | [] => ret (Some (objects, library_number))
  | name_offset :: needed =>
      if (eo_string_table o =? 0) || (eo_string_size o <=? name_offset) then ret None else
      rd <- gets (reader pointer) ;;
      match copy_mapped_string rd (u64 (eo_string_table o + name_offset)) (Z.of_nat FS_NAME_MAX + 2) with
      | None => ret None
      | Some path =>
          match elf_basename path with
          | None => ret None
          | Some name =>
              if 0 <=? loaded_object_index objects name then load_needed pointer o needed objects library_number else
              if ELF_MAX_OBJECTS <=? Z.of_nat (length objects) then ret None else
              mapped <- map_elf_object pointer name (ELF_LIBRARY_BASE + library_number * ELF_LIBRARY_STRIDE) 0 false true ;;
              match mapped with
              | None => ret None
              | Some m =>
                  if negb (bool_decide (mo_interpreter m = [])) then ret None
                  else load_needed pointer o needed (objects ++ [mo_object m]) (library_number + 1)
              end
          end
      end
  end.

(** The objects from [index] on, of which there are at most [ELF_MAX_OBJECTS]. *)
Fixpoint load_needed_objects (fuel : nat) (pointer : Z) (objects : list ElfLoadedObject) (index : nat) (library_number : Z) :
    K (option (list ElfLoadedObject)) :=
  match fuel with
  | O => ret (Some objects)
  | S fuel =>
      match objects !! index with
      | None => ret (Some objects)
      | Some o =>
          loaded <- load_needed pointer o (eo_needed o) objects library_number ;;
          match loaded with
          | None => ret None
          | Some (objects, library_number) => load_needed_objects fuel pointer objects (S index) library_number
          end
      end
  end.

(** ** Relocation *)

(** The bytes to store for a relocation: nothing for type 0, and [None] for failure. *)
Definition relocation_value (rd : Z -> nat -> option (list Z)) (objects : list ElfLoadedObject) (o : ElfLoadedObject) (r : Elf64Rela) :
    option (list Z) :=
  let type := u32 (re_information r) in
  let index := Z.shiftr (re_information r) 32 in
  if type =? 0 then Some []
  else if type =? ELF_R_X86_64_RELATIVE then Some (le 8 (u64 (eo_bias o + re_addend r)))
  else if (type =? ELF_R_X86_64_64) || (type =? ELF_R_X86_64_GLOB_DAT) || (type =? ELF_R_X86_64_JUMP_SLOT) then
    match resolve_symbol rd objects o index with
    | None => None
    | Some value => Some (le 8 (u64 (value + re_addend r)))
    end
  else if type =? ELF_R_X86_64_TLSDESC then
    match resolve_tls_symbol rd objects o index with
    | None | Some (None, _) => None
    | Some (Some definition, symbol) =>
        if (eo_tls_module_id definition =? 0) || (eo_tls_memory_size definition =? 0) then None else
        match resolve_named_symbol rd objects (text "__nova_tlsdesc_static") with
        | None => None
        | Some function => Some (le 8 function ++ le 8 (u64 (sy_value symbol - eo_tls_offset definition + re_addend r)))
        end
    end
  else if (type =? ELF_R_X86_64_DTPMOD64) || (type =? ELF_R_X86_64_DTPOFF64) || (type =? ELF_R_X86_64_TPOFF64) ||
          (type =? ELF_R_X86_64_DTPOFF32) || (type =? ELF_R_X86_64_TPOFF32) then
    match (if index =? 0 then Some (Some o, zero_symbol) else resolve_tls_symbol rd objects o index) with
    | None => None
    | Some (definition, symbol) =>
        let size := if (type =? ELF_R_X86_64_DTPOFF32) || (type =? ELF_R_X86_64_TPOFF32) then 4%nat else 8%nat in
        match definition with
        | None => Some (le size 0)
        | Some definition =>
            if (eo_tls_module_id definition =? 0) || (eo_tls_memory_size definition =? 0) then None else
            if type =? ELF_R_X86_64_DTPMOD64 then Some (le 8 (eo_tls_module_id definition)) else
            if (type =? ELF_R_X86_64_DTPOFF64) || (type =? ELF_R_X86_64_DTPOFF32)
            then Some (le size (u64 (sy_value symbol + re_addend r)))
            else Some (le size (u64 (sy_value symbol - eo_tls_offset definition + re_addend r)))
        end
    end
  else None.

Fixpoint relocation_loop (n : nat) (pointer : Z) (objects : list ElfLoadedObject) (o : ElfLoadedObject) (address : Z) : K bool :=
  match n with
  | O => ret true
  | S n =>
      rd <- gets (reader pointer) ;;
      match rd address 24%nat with
      | None => ret false
      | Some bytes =>
          let r := decode_rela bytes in
          match relocation_value rd objects o r with
          | None => ret false
          | Some [] => relocation_loop n pointer objects o (u64 (address + 24))
          | Some value =>
              written <- write_memory pointer (u64 (eo_bias o + re_offset r)) value ;;
              if negb written then ret false else relocation_loop n pointer objects o (u64 (address + 24))
          end
      end
  end.

Definition apply_relocation_table (pointer : Z) (objects : list ElfLoadedObject) (o : ElfLoadedObject) (table size : Z) : K bool :=
  if (table =? 0) || (size =? 0) then ret true else
  if negb (size mod 24 =? 0) then ret false else relocation_loop (Z.to_nat (size / 24)) pointer objects o table.

Fixpoint relocate_objects (pointer : Z) (all objects : list ElfLoadedObject) : K bool :=
  match objects with
  | [] => ret true
  | o :: objects =>
      a <- apply_relocation_table pointer all o (eo_rela o) (eo_rela_size o) ;;
      if negb a then ret false else
      b <- apply_relocation_table pointer all o (eo_jump_rela o) (eo_jump_rela_size o) ;;
      if negb b then ret false else relocate_objects pointer all objects
  end.

Fixpoint protect_segments (pointer : Z) (segments : list ElfMappedSegment) : K bool :=
  match segments with
  | [] => ret true
  | m :: segments =>
      ok <- on_space_at pointer false (vm_protect (ms_start m) (ms_size m) (ms_protection m)) ;;
      if negb ok then ret false else protect_segments pointer segments
  end.

Definition relocate_and_protect_objects (pointer : Z) (objects : list ElfLoadedObject) : K bool :=
  relocated <- relocate_objects pointer objects objects ;;
  if negb relocated then ret false else protect_segments pointer (concat (eo_segments <$> objects)).

(** ** Thread-local storage *)

(** [size] bytes from [source] to [destination], 512 at a time. *)
Fixpoint copy_image (fuel : nat) (pointer source destination size copied : Z) : K bool :=
  match fuel with
  | O => ret true
  | S fuel =>
      if negb (copied <? size) then ret true else
      let chunk := Z.min (size - copied) 512 in
      rd <- gets (reader pointer) ;;
      match rd (u64 (source + copied)) (Z.to_nat chunk) with
      | None => ret false
      | Some bytes =>
          written <- write_memory pointer (u64 (destination + copied)) bytes ;;
          if negb written then ret false else copy_image fuel pointer source destination size (copied + chunk)
      end
  end.

Fixpoint copy_images (pointer thread_pointer : Z) (objects : list ElfLoadedObject) : K bool :=
  match objects with
  | [] => ret true
  | o :: objects =>
      if eo_tls_memory_size o =? 0 then copy_images pointer thread_pointer objects else
      copied <- copy_image (Z.to_nat (eo_tls_file_size o)) pointer (eo_tls_image o) (u64 (thread_pointer - eo_tls_offset o)) (eo_tls_file_size o) 0 ;;
      if negb copied then ret false else copy_images pointer thread_pointer objects
  end.

Definition tcb (thread_pointer : Z) : list Z :=
  le 8 thread_pointer ++ le 8 (u64 (thread_pointer + ELF_TLS_TCB_SIZE)) ++ le 8 thread_pointer ++ replicate 40 0.

(** The images, the control block and the table of modules; the number of modules. *)
Definition fill_tls (pointer thread_pointer : Z) (objects : list ElfLoadedObject) : K (option Z) :=
  copied <- copy_images pointer thread_pointer objects ;;
  if negb copied then ret None else
  control <- write_memory pointer thread_pointer (tcb thread_pointer) ;;
  match dtv_entries objects thread_pointer (replicate (Z.to_nat ELF_TLS_DTV_ENTRIES) 0) 0 with
  | None => ret None
  | Some (dtv, count) =>
      if negb control then ret None else
      table <- write_memory pointer (u64 (thread_pointer + ELF_TLS_TCB_SIZE)) (concat (le 8 <$> edit_index 0 (fun _ => count) dtv)) ;;
      ret (if table then Some count else None)
  end.

(** The thread pointer, the mapping and its size. *)
Definition initialize_static_tls (pointer : Z) (objects : list ElfLoadedObject) (static_size : Z) : K (option (Z * Z * Z)) :=
  if static_size =? 0 then ret (Some (0, 0, 0)) else
  if u64 (-1) - ELF_TLS_TCB_SIZE - ELF_TLS_DTV_SIZE <? static_size then ret None else
  let template_size := static_size + ELF_TLS_TCB_SIZE + ELF_TLS_DTV_SIZE in
  let mapping_size := align_up template_size in
  mapping <- gets (find_free_range pointer VM_USER_MMAP_BASE mapping_size) ;;
  mapped <- (if mapping =? 0 then ret false else map_user_rw_pages pointer mapping mapping_size) ;;
  if negb mapped then ret None else
  let thread_pointer := u64 (mapping + static_size) in
  count <- fill_tls pointer thread_pointer objects ;;
  template <- (match count with None => ret 0 | Some _ => on_memory (vm_alloc template_size) end) ;;
  bytes <- gets (fun k => if template =? 0 then None else reader pointer k mapping (Z.to_nat template_size)) ;;
  match count, bytes with
  | Some count, Some bytes =>
      edit_space pointer (fun a => mkAddressSpace (as_vm a) (as_references a) template bytes template_size static_size
        thread_pointer count (u64 (mapping + mapping_size))) ;;;
      ret (Some (thread_pointer, mapping, mapping_size))
  | _, _ =>
      (if template =? 0 then ret tt else on_memory (vm_free template)) ;;;
      unmap_user_pages pointer mapping mapping_size ;;;
      ret None
  end.

(** ** The functions to call first *)

(** The functions of an array of [n] entries; [functions] so far. *)
Fixpoint append_initializer_array (n : nat) (pointer array : Z) (functions : list Z) (k : Kernel) : option (list Z) :=
  match n with
  | O => Some functions
  | S n =>
      match read_int (reader pointer k) 8 array with
      | None => None
      | Some function =>
          if (function =? 0) || (function =? u64 (-1)) then append_initializer_array n pointer (u64 (array + 8)) functions k else
          if (ELF_STARTUP_MAX_FUNCTIONS <=? Z.of_nat (length functions)) || negb (range_mapped pointer function 1 k) then None
          else append_initializer_array n pointer (u64 (array + 8)) (functions ++ [function]) k
      end
  end.

Definition append_object_initializers (pointer : Z) (o : ElfLoadedObject) (functions : list Z) (k : Kernel) : option (list Z) :=
  let n := Z.to_nat (eo_init_array_size o / 8) in
  if eo_init_function o =? 0 then append_initializer_array n pointer (eo_init_array o) functions k else
  if (ELF_STARTUP_MAX_FUNCTIONS <=? Z.of_nat (length functions)) || negb (range_mapped pointer (eo_init_function o) 1 k) then None
  else append_initializer_array n pointer (eo_init_array o) (functions ++ [eo_init_function o]) k.

(** The initializers of [objects], one after the other. *)
Fixpoint append_initializers (pointer : Z) (objects : list ElfLoadedObject) (functions : list Z) (k : Kernel) : option (list Z) :=
  match objects with
  | [] => Some functions
  | o :: objects =>
      match append_object_initializers pointer o functions k with
      | None => None
      | Some functions => append_initializers pointer objects functions k
      end
  end.

(** Those of the libraries, the last loaded first, then those of the program; the interpreter has
    the second place. *)
Definition initializers (pointer : Z) (objects : list ElfLoadedObject) (k : Kernel) : option (list Z) :=
  match objects with
  | [] => None
  | program :: others =>
      match append_initializer_array (Z.to_nat (eo_preinit_array_size program / 8)) pointer (eo_preinit_array program) [] k with
      | None => None
      | Some functions => append_initializers pointer (rev (drop 1 others) ++ [program]) functions k
      end
  end.

(** The entry and the argument of the interpreter. *)
Definition prepare_interpreter_startup (pointer : Z) (objects : list ElfLoadedObject) (final_entry : Z) : K (option (Z * Z)) :=
  rd <- gets (reader pointer) ;;
  match resolve_named_symbol rd objects (text "nova_interpreter_start") with
  | None => ret None
  | Some bootstrap =>
      buffer <- on_memory (vm_alloc (ELF_STARTUP_MAX_FUNCTIONS * 8)) ;;
      if buffer =? 0 then ret None else
      functions <- gets (initializers pointer objects) ;;
      match functions with
      | None => on_memory (vm_free buffer) ;;; ret None
      | Some functions =>
          let mapping_size := align_up (24 + Z.of_nat (length functions) * 8) in
          k <- gets id ;;
          let loader_end := match k_spaces k !! pointer with Some a => as_loader_mapping_end a | None => 0 end in
          let mapping := find_free_range pointer (if loader_end =? 0 then VM_USER_MMAP_BASE else loader_end) mapping_size k in
          mapped <- (if mapping =? 0 then ret false else map_user_rw_pages pointer mapping mapping_size) ;;
          if negb mapped then on_memory (vm_free buffer) ;;; ret None else
          header <- write_memory pointer mapping (le 8 ELF_STARTUP_MAGIC ++ le 8 final_entry ++ le 8 (Z.of_nat (length functions))) ;;
          table <- (if header && negb (bool_decide (functions = []))
                    then write_memory pointer (u64 (mapping + 24)) (concat (le 8 <$> functions)) else ret header) ;;
          on_memory (vm_free buffer) ;;;
          protected <- (if table then on_space_at pointer false (vm_protect mapping mapping_size VM_PROT_READ) else ret false) ;;
          if negb protected then unmap_user_pages pointer mapping mapping_size ;;; ret None else
          edit_space pointer (fun a => mkAddressSpace (as_vm a) (as_references a) (as_tls_template a) (as_tls_bytes a)
            (as_tls_template_size a) (as_tls_static_size a) (as_tls_template_thread_pointer a) (as_tls_module_count a)
            (u64 (mapping + mapping_size))) ;;;
          ret (Some (bootstrap, mapping))
      end
  end.

(** ** The program *)

(** The program and its interpreter, where it has one. *)
Definition load_program (pointer : Z) (name : list Z) : K (option (MappedObject * list ElfLoadedObject)) :=
  mapped <- map_elf_object pointer name VM_USER_BASE VM_USER_BASE true true ;;
  match mapped with
  | None => ret None
  | Some m =>
      if bool_decide (mo_interpreter m = []) then ret (Some (m, [mo_object m])) else
      interpreter <- map_elf_object pointer (mo_interpreter m) ELF_INTERPRETER_BASE 0 false false ;;
      ret (match interpreter with None => None | Some i => Some (m, [mo_object m; mo_object i]) end)
  end.

Definition initial_stack (interpreter_bias entry : Z) : list Z :=
  concat (le 8 <$> [0; 0; 0; 6; VM_PAGE_SIZE; 7; interpreter_bias; 9; entry; 0; 0]).

Definition announce (m : MappedObject) (objects : list ElfLoadedObject) (static_size : Z) : K unit :=
  (if bool_decide (mo_interpreter m = []) then ret tt
   else serial_write (text "NovaOS: PT_INTERP and DT_NEEDED shared linker ready" ++ [13; 10])) ;;;
  (if (match objects with o :: _ => (eo_gnu_hash_bucket_count o =? 0) || (eo_version_requirement_count o =? 0) | [] => true end) then ret tt
   else serial_write (text "NovaOS: GNU_HASH and versioned ELF symbols verified" ++ [13; 10])) ;;;
  (if static_size =? 0 then ret tt else serial_write (text "NovaOS: PT_TLS static module layout ready" ++ [13; 10])).

(** After the objects have been mapped: links them and sets up the stack. *)
Definition link_program (pointer : Z) (m : MappedObject) (objects : list ElfLoadedObject) : K (option LoadedImage) :=
  let interpreter_bias := match objects with [_; i] => eo_bias i | _ => 0 end in
  loaded <- load_needed_objects (Z.to_nat ELF_MAX_OBJECTS) pointer objects 0 0 ;;
  match loaded with
  | None => ret None
  | Some objects =>
      match layout_static_tls objects with
      | None => ret None
      | Some (objects, static_size) =>
          relocated <- relocate_and_protect_objects pointer objects ;;
          if negb relocated then ret None else
          tls <- initialize_static_tls pointer objects static_size ;;
          match tls with
          | None => ret None
          | Some (fs_base, mapping, mapping_size) =>
              startup <- (if bool_decide (mo_interpreter m = []) then ret (Some (mo_entry m, 0))
                          else prepare_interpreter_startup pointer objects (mo_entry m)) ;;
              match startup with
              | None => ret None
              | Some (user_entry, argument) =>
                  stack <- map_stack pointer ;;
                  if negb stack then ret None else
                  let bytes := initial_stack interpreter_bias (mo_entry m) in
                  let stack_pointer := Z.land (VM_USER_STACK_TOP - Z.of_nat (length bytes)) (u64 (Z.lnot 0xF)) in
                  written <- write_memory pointer stack_pointer bytes ;;
                  if negb written then ret None else
                  announce m objects static_size ;;;
                  ret (Some (mkImage
                    (edit_index CONTEXT_RIP (fun _ => user_entry) (edit_index CONTEXT_RFLAGS (fun _ => 0x202)
                      (edit_index CONTEXT_RSP (fun _ => stack_pointer) (edit_index CONTEXT_RDI (fun _ => argument) (replicate 18 0)))))
                    (align_up (mo_maximum_end m)) fs_base mapping mapping_size))
              end
          end
      end
  end.

Definition load_elf_image (pointer : Z) (name : list Z) : K (option LoadedImage) :=
  buffer <- on_memory (vm_alloc (ELF_MAX_OBJECTS * OBJECT_SIZE)) ;;
  if buffer =? 0 then ret None else
  program <- load_program pointer name ;;
  image <- (match program with None => ret None | Some (m, objects) => link_program pointer m objects end) ;;
  on_memory (vm_free buffer) ;;;
  ret image.

(** ** Dependencies of a file *)

Definition elf_file_offset (segments : list Elf64ProgramHeader) (address : Z) : option Z :=
  match filter (fun s => (ph_type s =? ELF_PT_LOAD) && (ph_virtual_address s <=? address) &&
                         (address <? u64 (ph_virtual_address s + ph_file_size s)) = true) segments with
  | [] => None
  | s :: _ => Some (u64 (ph_offset s + address - ph_virtual_address s))
  end.

Fixpoint read_file_string (n : nat) (name : list Z) (offset : Z) : K (option (list Z)) :=
  match n with
  | O => ret None
  | S n =>
      c <- read_exactly name offset 1 ;;
      match c with
      | None | Some [] => ret None
      | Some (c :: _) =>
          if c =? 0 then ret (Some []) else
          rest <- read_file_string n name (u64 (offset + 1)) ;;
          ret (cons c <$> rest)
      end
  end.

(** The interpreters that are missing, and where the dynamic section is. *)
Fixpoint audit_segments (name : list Z) (segments : list Elf64ProgramHeader) (missing offset size : Z) : K (option (Z * Z * Z)) :=
  match segments with
  | [] => ret (Some (missing, offset, size))
  | s :: segments =>
      if ph_type s =? ELF_PT_INTERP then
        path <- interpreter_path name s ;;
        match path with
        | None => ret None
        | Some path =>
            found <- (match elf_basename path with
                      | None => ret false
                      | Some base => info <- file_info base ;; ret (bool_decide (is_Some info))
                      end) ;;
            (if found then ret tt else serial_write (text "NovaOS Chrome audit: missing interpreter " ++ path ++ [13; 10])) ;;;
            audit_segments name segments (if found : bool then missing else missing + 1) offset size
        end
      else if ph_type s =? ELF_PT_DYNAMIC then audit_segments name segments missing (ph_offset s) (ph_file_size s)
      else audit_segments name segments missing offset size
  end.

(** The offsets of the needed names and the address of the string table. *)
Fixpoint audit_dynamic (n : nat) (name : list Z) (offset : Z) (needed : list Z) (strings : Z) : K (option (list Z * Z)) :=
  match n with
  | O => ret (Some (needed, strings))
  | S n =>
      entry <- read_exactly name offset 16 ;;
      match entry with
      | None => ret None
      | Some entry =>
          let tag := s64 (field 0 8 entry) in
          let value := field 8 8 entry in
          if tag =? ELF_DT_NULL then ret (Some (needed, strings)) else
          if tag =? ELF_DT_NEEDED then
            if ELF_MAX_NEEDED <=? Z.of_nat (length needed) then ret None
            else audit_dynamic n name (u64 (offset + 16)) (needed ++ [value]) strings
          else audit_dynamic n name (u64 (offset + 16)) needed (if tag =? ELF_DT_STRTAB then value else strings)
      end
  end.

Fixpoint audit_needed (name : list Z) (strings : Z) (needed : list Z) (missing : Z) : K Z :=
  match needed with
  | [] => ret missing
  | offset :: needed =>
      path <- read_file_string (FS_NAME_MAX + 1) name (u64 (strings + offset)) ;;
      match path with
      | None => ret (-1)
      | Some path =>
          match elf_basename path with
          | None => ret (-1)
          | Some dependency =>
              info <- file_info dependency ;;
              match info with
              | Some _ => audit_needed name strings needed missing
              | None =>
                  serial_write (text "NovaOS Chrome audit: missing DT_NEEDED " ++ dependency ++ [13; 10]) ;;;
                  audit_needed name strings needed (missing + 1)
              end
          end
      end
  end.

Definition process_audit_elf_dependencies (name : list Z) : K Z :=
  headers <- read_headers name ;;
  match headers with
  | None => ret (-1)
  | Some (size, header, segments) =>
      audited <- audit_segments name segments 0 0 0 ;;
      match audited with
      | None => ret (-1)
      | Some (missing, dynamic_offset, dynamic_size) =>
          if (dynamic_offset =? 0) || (dynamic_size =? 0) || (size <? u64 (dynamic_offset + dynamic_size)) then ret (-1) else
          dynamic <- audit_dynamic (Z.to_nat (dynamic_size / 16)) name dynamic_offset [] 0 ;;
          match dynamic with
          | None => ret (-1)
          | Some (needed, strings) =>
              if strings =? 0 then ret (-1) else
              match elf_file_offset segments strings with
              | None => ret (-1)
              | Some string_offset => audit_needed name string_offset needed missing
              end
          end
      end
  end.

End loader.
