(* ===== verification/Tasks.v ===== *)
(** * Processes, threads, signals and the scheduler of kernel/process.c

    A process ends as a zombie until its slot is reset; threads share an address space;
    [futex] and [nanosleep] block; the timer interrupt wakes and the scheduler takes turns. *)

From S2P Require Import Prelude Runtime Heap HeapFacts Interfaces Filesystem Vm Process Descriptors Ipc FileCalls MemCalls.

Definition LINUX_FUTEX_WAIT : Z := 0.
Definition LINUX_FUTEX_WAKE : Z := 1.
Definition LINUX_CLONE_SETTLS : Z := 0x00080000.
Definition LINUX_CLONE_PARENT_SETTID : Z := 0x00100000.
Definition LINUX_CLONE_CHILD_SETTID : Z := 0x01000000.
Definition LINUX_WNOHANG : Z := 1.
Definition LINUX_ARCH_SET_GS : Z := 0x1001.
Definition LINUX_ARCH_SET_FS : Z := 0x1002.
Definition LINUX_ARCH_GET_FS : Z := 0x1003.
Definition LINUX_ARCH_GET_GS : Z := 0x1004.
Definition LINUX_PR_SET_NO_NEW_PRIVS : Z := 38.
Definition LINUX_PR_GET_NO_NEW_PRIVS : Z := 39.
Definition LINUX_SECCOMP_SET_MODE_STRICT : Z := 0.
Definition NOVA_AUTO_TLS : Z := u64 (-1).
Definition SIGNAL_MAGIC : Z := 0x4E4F56415349474E.

Definition encode_action (a : LinuxSignalAction) : list Z :=
  le 8 (sa_handler a) ++ le 8 (sa_flags a) ++ le 8 (sa_restorer a) ++ le 8 (sa_mask a).
Definition decode_action (l : list Z) : LinuxSignalAction :=
  mkAction (field 0 8 l) (field 8 8 l) (field 16 8 l) (field 24 8 l).

(** A [LinuxSignalFrame]: the magic number and the 18 saved registers. *)
Definition encode_context (context : list Z) : list Z := concat (le 8 <$> context).
Definition decode_context (l : list Z) : list Z := (fun i => field (8 * i) 8 l) <$> seq 0 18.

(** One generator step of [getrandom]. *)
Definition xorshift (state : Z) : Z :=
  let state := Z.lxor state (u64 (Z.shiftl state 13)) in
  let state := Z.lxor state (Z.shiftr state 7) in
  Z.lxor state (u64 (Z.shiftl state 17)).

Section tasks.
Context {D H : Type} `{!BlockDevice D} `{!Allocator H}.

Notation Kernel := (@Kernel D H).
Notation K := (st Kernel).

(** ** The end of a process *)

(** Threads of the address space that wait at [address]. *)
Definition waits_at (pointer address : Z) (p : Process) : bool :=
  p_used p && (p_state p =? PROCESS_BLOCKED_FUTEX) && (p_address_space p =? pointer) && (p_futex_address p =? address).

Definition finish_process (slot code : Z) : K unit :=
  edit_process slot (fun p => set_p_state PROCESS_ZOMBIE (set_p_exit_code code p)) ;;;
  p <- gets (fun k => process_at k slot) ;;
  (if p_clear_child_tid p =? 0 then ret tt
   else copied <- copy_to_user slot (p_clear_child_tid p) (le 4 0) ;; ret tt) ;;;
  modify (fun k => set_k_processes
    ((fun q => if waits_at (p_address_space p) (p_clear_child_tid p) q then set_p_state PROCESS_RUNNING q else q)
       <$> k_processes k) k).

(** Each process of the group, in the order of the table. *)
Fixpoint finish_group (slots : list nat) (tgid code : Z) : K unit :=
  match slots with
  | [] => ret tt
  | i :: slots =>
      p <- gets (fun k => process_at k (Z.of_nat i)) ;;
      (if p_used p && (p_tgid p =? tgid) then finish_process (Z.of_nat i) code else ret tt) ;;;
      finish_group slots tgid code
  end.

Definition linux_exit_group (slot code : Z) : K Z :=
  tgid <- gets (fun k => p_tgid (process_at k slot)) ;;
  finish_group (seq 0 (Z.to_nat MAX_PROCESSES)) tgid (s32 code) ;;;
  ret 0.

(** ** New processes and threads *)

(** [next_pid] is an [int] and is counted up with the wrap-around of 32 bits. *)

Fixpoint retain_descriptors (fds : list FileDescriptor) : K unit :=
  match fds with
  | [] => ret tt
  | f :: fds => (if fd_used f then descriptor_retain_resources f else ret tt) ;;; retain_descriptors fds
  end.

(** The thread pointer and mapping of a child, and the hint for its next mapping. *)
Definition clone_tls (parent : Process) (pointer flags tls : Z) : K (option (Z * Z * Z * Z)) :=
  if has flags LINUX_CLONE_SETTLS && (tls =? NOVA_AUTO_TLS) then
    r <- allocate_thread_tls pointer (p_mmap_hint parent) ;;
    ret (match r with
         | Some (fs_base, mapping, mapping_size) => Some (fs_base, mapping, mapping_size, u64 (mapping + mapping_size))
         | None => None
         end)
  else if has flags LINUX_CLONE_SETTLS then ret (Some (tls, 0, 0, p_mmap_hint parent))
  else ret (Some (p_fs_base parent, p_tls_mapping parent, p_tls_mapping_size parent, p_mmap_hint parent)).

(** The address space of a child: the parent's, or a copy; 0 for failure. *)
Definition clone_space (parent : Process) (share_memory : bool) : K Z :=
  if share_memory then
    modify (fun k => set_k_spaces (alter (fun a => set_as_references (as_references a + 1) a) (p_address_space parent) (k_spaces k)) k) ;;;
    ret (p_address_space parent)
  else address_space_clone (p_address_space parent).

Definition clone_current (share_memory : bool) (child_stack flags parent_tid child_tid tls : Z) : K Z :=
  current <- gets current_process ;;
  slot <- reserve_slot ;;
  match current with
  | None => ret (-1)
  | Some parent_slot =>
  if slot <? 0 then ret (-1) else
  edit_process slot (fun _ => zero_process) ;;;
  parent <- gets (fun k => process_at k parent_slot) ;;
  pointer <- clone_space parent share_memory ;;
  if pointer =? 0 then ret (-1) else
  pid <- gets k_next_pid ;;
  modify (fun k => set_k_next_pid (s32 (pid + 1)) k) ;;;
  storage <- clone_tls parent pointer flags tls ;;
  match storage with
  | None =>
      address_space_release pointer ;;;
      edit_process slot (fun _ => zero_process) ;;;
      ret (-1)
  | Some (fs_base, mapping, mapping_size, hint) =>
      (if has flags LINUX_CLONE_SETTLS && (tls =? NOVA_AUTO_TLS) && share_memory && (p_mmap_hint parent <? hint)
       then edit_process parent_slot (set_p_mmap_hint hint) else ret tt) ;;;
      context <- gets k_context ;;
      let context := edit_index CONTEXT_RAX (fun _ => 0) context in
      let context := if child_stack =? 0 then context else edit_index CONTEXT_RSP (fun _ => child_stack) context in
      edit_process slot (fun _ => mkProcess true PROCESS_RUNNING pid (if share_memory then p_tgid parent else pid)
        (p_pid parent) pointer context (p_name parent) [] 0 (p_program_break parent) hint
        (if has flags LINUX_CLONE_CHILD_SETTID then child_tid else 0) 0 0 fs_base (p_gs_base parent)
        mapping mapping_size 0 (p_no_new_privs parent) (p_seccomp_strict parent)
        (p_signal_actions parent) (p_descriptors parent)) ;;;
      retain_descriptors (drop 3 (p_descriptors parent)) ;;;
      (if has flags LINUX_CLONE_PARENT_SETTID && negb (parent_tid =? 0)
       then a <- copy_to_user parent_slot parent_tid (le 4 pid) ;; ret tt else ret tt) ;;;
      (if has flags LINUX_CLONE_CHILD_SETTID && negb (child_tid =? 0)
       then b <- copy_to_user slot child_tid (le 4 pid) ;; ret tt else ret tt) ;;;
      ret pid
  end
  end.

(** The first child that matches and has ended; whether there is any that matches. *)
Fixpoint find_zombie (index : Z) (parent wanted : Z) (l : list Process) : Z * bool :=
  match l with
  | [] => (-1, false)
  | p :: l =>
      if negb (p_used p) || negb (p_parent_pid p =? parent) || (negb (wanted =? u64 (-1)) && negb (wanted =? u64 (p_pid p)))
      then find_zombie (index + 1) parent wanted l
      else if p_state p =? PROCESS_ZOMBIE then (index, true)
      else let '(i, _) := find_zombie (index + 1) parent wanted l in (i, true)
  end.

Definition linux_wait4 (slot wanted status_address options : Z) : K Z :=
  k <- gets id ;;
  let '(child, exists_) := find_zombie 0 (p_pid (process_at k slot)) wanted (k_processes k) in
  if child <? 0 then
    ret (if negb exists_ then linux_error LINUX_ECHILD
         else if has options LINUX_WNOHANG then 0 else linux_error LINUX_EAGAIN)
  else
    let status := Z.shiftl (Z.land (p_exit_code (process_at k child)) 0xFF) 8 in
    copied <- (if status_address =? 0 then ret true else copy_to_user slot status_address (le 4 status)) ;;
    if negb copied then ret (linux_error LINUX_EFAULT) else
    let pid := p_pid (process_at k child) in
    reset_process_slot child ;;;
    ret pid.

(** ** Waiting *)

Definition linux_futex_wait (slot address value timeout_address : Z) : K Z :=
  current <- copy_from_user slot address 4 ;;
  match current with
  | None => ret (linux_error LINUX_EFAULT)
  | Some current =>
      if negb (of_le current =? value) then ret (linux_error LINUX_EAGAIN) else
      edit_process slot (fun p => set_p_wake_tick 0 (set_p_futex_address address (set_p_state PROCESS_BLOCKED_FUTEX p))) ;;;
      if timeout_address =? 0 then ret 0 else
      bytes <- copy_from_user slot timeout_address 16 ;;
      match bytes with
      | None => ret (linux_error LINUX_EFAULT)
      | Some bytes =>
          let timeout := decode_timespec bytes in
          if (0 <=? seconds timeout) && (0 <=? nanoseconds timeout) then
            now <- gets k_scheduler_ticks ;;
            edit_process slot (set_p_wake_tick
              (u64 (now + seconds timeout * 100 + nanoseconds timeout / 10000000 + 1))) ;;;
            ret 0
          else ret 0
      end
  end.

(** Wakes at most [n] of the threads that wait; how many, and the table. *)
Fixpoint wake (n : Z) (pointer address : Z) (l : list Process) : Z * list Process :=
  match l with
  | [] => (0, [])
  | p :: l =>
      if (0 <? n) && waits_at pointer address p then
        let '(woken, l) := wake (n - 1) pointer address l in (woken + 1, set_p_state PROCESS_RUNNING p :: l)
      else let '(woken, l) := wake n pointer address l in (woken, p :: l)
  end.

Definition linux_futex (slot address operation value timeout_address : Z) : K Z :=
  let operation := Z.land operation 0x7F in
  if operation =? LINUX_FUTEX_WAIT then linux_futex_wait slot address value timeout_address else
  if operation =? LINUX_FUTEX_WAKE then
    k <- gets id ;;
    let '(woken, l) := wake (s32 value) (p_address_space (process_at k slot)) address (k_processes k) in
    modify (fun k => set_k_processes l k) ;;;
    ret (u64 woken)
  else ret (linux_error LINUX_ENOSYS).

Definition linux_nanosleep (slot request_address : Z) : K Z :=
  bytes <- copy_from_user slot request_address 16 ;;
  match bytes with
  | None => ret (linux_error LINUX_EFAULT)
  | Some bytes =>
      let request := decode_timespec bytes in
      if (seconds request <? 0) || (nanoseconds request <? 0) || (1000000000 <=? nanoseconds request)
      then ret (linux_error LINUX_EINVAL) else
      now <- gets k_scheduler_ticks ;;
      edit_process slot (fun p => set_p_state PROCESS_BLOCKED_SLEEP
        (set_p_wake_tick (u64 (now + seconds request * 100 + nanoseconds request / 10000000 + 1)) p)) ;;;
      ret 0
  end.

(** ** Signals *)

(** The lowest pending signal below 32. *)
Fixpoint pending_signal (n : nat) (signal pending : Z) : Z :=
  match n with
  | O => signal
  | S n => if Z.testbit pending signal then signal else pending_signal n (signal + 1) pending
  end.

Definition deliver_signal (slot : Z) : K unit :=
  p <- gets (fun k => process_at k slot) ;;
  if (p_pending_signals p =? 0) || negb (p_state p =? PROCESS_RUNNING) then ret tt else
  let signal := pending_signal 31 1 (p_pending_signals p) in
  if 32 <=? signal then ret tt else
  edit_process slot (fun p => set_p_pending_signals (Z.ldiff (p_pending_signals p) (Z.shiftl 1 signal)) p) ;;;
  let action := at_index (mkAction 0 0 0 0) (p_signal_actions p) signal in
  if sa_handler action =? 1 then ret tt else
  if sa_handler action =? 0 then finish_process slot (128 + signal) else
  let stack := align_down (u64 (at_index 0 (p_context p) CONTEXT_RSP - 152 - 8)) in
  framed <- copy_to_user slot (u64 (stack + 8)) (le 8 SIGNAL_MAGIC ++ encode_context (p_context p)) ;;
  returns <- (if framed then copy_to_user slot stack (le 8 (sa_restorer action)) else ret false) ;;
  if negb returns then finish_process slot (128 + signal) else
  edit_process slot (fun p => set_p_context
    (edit_index CONTEXT_RDI (fun _ => signal) (edit_index CONTEXT_RSP (fun _ => stack)
      (edit_index CONTEXT_RIP (fun _ => sa_handler action) (p_context p)))) p).

Definition linux_kill (pid signal : Z) : K Z :=
  target <- gets (fun k => first_index (fun p => p_used p && (p_pid p =? s32 pid)) 0 (k_processes k)) ;;
  if target <? 0 then ret (linux_error LINUX_ESRCH) else
  if signal =? 0 then ret 0 else
  if 32 <=? signal then ret (linux_error LINUX_EINVAL) else
  edit_process target (fun p => set_p_pending_signals (Z.lor (p_pending_signals p) (Z.shiftl 1 signal)) p) ;;;
  ret 0.

Definition linux_sigaction (slot signal new_address old_address : Z) : K Z :=
  if (signal =? 0) || (32 <=? signal) then ret (linux_error LINUX_EINVAL) else
  action <- gets (fun k => at_index (mkAction 0 0 0 0) (p_signal_actions (process_at k slot)) signal) ;;
  copied <- (if old_address =? 0 then ret true else copy_to_user slot old_address (encode_action action)) ;;
  if negb copied then ret (linux_error LINUX_EFAULT) else
  if new_address =? 0 then ret 0 else
  let store bytes := edit_process slot (fun p =>
    set_p_signal_actions (edit_index signal (fun _ => decode_action bytes) (p_signal_actions p)) p) in
  bytes <- copy_from_user slot new_address 32 ;;
  match bytes with
  | None =>
      (** The bytes up to the end of the page have been copied when the next page is missing. *)
      head <- copy_from_user slot new_address (Z.to_nat (Z.min 32 (VM_PAGE_SIZE - page_offset new_address))) ;;
      match head with
      | None => ret (linux_error LINUX_EFAULT)
      | Some head => store (blit 0 head (encode_action action)) ;;; ret (linux_error LINUX_EFAULT)
      end
  | Some bytes => store bytes ;;; ret 0
  end.

Definition linux_sigreturn (slot : Z) : K Z :=
  address <- gets (fun k => at_index 0 (k_context k) CONTEXT_RSP) ;;
  bytes <- copy_from_user slot address 152 ;;
  match bytes with
  | None => ret (linux_error LINUX_EFAULT)
  | Some bytes =>
      if negb (field 0 8 bytes =? SIGNAL_MAGIC) then ret (linux_error LINUX_EFAULT) else
      let context := decode_context (drop 8 bytes) in
      modify (set_k_context context) ;;;
      ret (at_index 0 context CONTEXT_RAX)
  end.

(** ** Attributes *)

Definition linux_prctl (slot option_ a2 a3 a4 a5 : Z) : K Z :=
  if option_ =? LINUX_PR_SET_NO_NEW_PRIVS then
    if negb (a2 =? 1) || negb (a3 =? 0) || negb (a4 =? 0) || negb (a5 =? 0) then ret (linux_error LINUX_EINVAL)
    else edit_process slot (set_p_no_new_privs true) ;;; ret 0
  else if option_ =? LINUX_PR_GET_NO_NEW_PRIVS then
    p <- gets (fun k => process_at k slot) ;; ret (if p_no_new_privs p then 1 else 0)
  else ret (linux_error LINUX_EINVAL).

Definition linux_seccomp (slot operation flags arguments : Z) : K Z :=
  if negb (operation =? LINUX_SECCOMP_SET_MODE_STRICT) || negb (flags =? 0) || negb (arguments =? 0)
  then ret (linux_error LINUX_EINVAL) else
  p <- gets (fun k => process_at k slot) ;;
  if negb (p_no_new_privs p) then ret (linux_error LINUX_EACCES) else
  edit_process slot (set_p_seccomp_strict true) ;;;
  ret 0.

Definition linux_arch_prctl (slot code argument : Z) : K Z :=
  p <- gets (fun k => process_at k slot) ;;
  if code =? LINUX_ARCH_SET_FS then edit_process slot (set_p_fs_base argument) ;;; ret 0
  else if code =? LINUX_ARCH_SET_GS then edit_process slot (set_p_gs_base argument) ;;; ret 0
  else if (code =? LINUX_ARCH_GET_FS) || (code =? LINUX_ARCH_GET_GS) then
    copied <- copy_to_user slot argument (le 8 (if code =? LINUX_ARCH_GET_FS then p_fs_base p else p_gs_base p)) ;;
    ret (if copied then 0 else linux_error LINUX_EFAULT)
  else ret (linux_error LINUX_EINVAL).

Fixpoint random_bytes (n : nat) (slot address state : Z) : K bool :=
  match n with
  | O => ret true
  | S n =>
      let state := xorshift state in
      copied <- copy_to_user slot address [u8 state] ;;
      if negb copied then ret false else random_bytes n slot (u64 (address + 1)) state
  end.

Definition linux_getrandom (slot address size : Z) : K Z :=
  k <- gets id ;;
  let state := Z.lxor (Z.lxor (k_scheduler_ticks k) (u64 (Z.shiftl (p_pid (process_at k slot)) 32))) 0x4E6F76614F53 in
  filled <- random_bytes (Z.to_nat size) slot address state ;;
  ret (if filled then size else linux_error LINUX_EFAULT).

Definition linux_clock_gettime (slot address : Z) : K Z :=
  now <- gets k_scheduler_ticks ;;
  copied <- copy_to_user slot address (encode_timespec (ticks_to_timespec now)) ;;
  ret (if copied then 0 else linux_error LINUX_EFAULT).

(** ** The scheduler *)

Definition expired (now : Z) (p : Process) : bool :=
  p_used p && negb (p_wake_tick p =? 0) && (p_wake_tick p <=? now) &&
  ((p_state p =? PROCESS_BLOCKED_FUTEX) || (p_state p =? PROCESS_BLOCKED_SLEEP)).

Definition wake_timers : K unit :=
  modify (fun k => set_k_processes
    ((fun p => if expired (k_scheduler_ticks k) p then set_p_wake_tick 0 (set_p_state PROCESS_RUNNING p) else p)
       <$> k_processes k) k).

Definition runnable (k : Kernel) (slot : Z) : bool :=
  p_used (process_at k slot) && (p_state (process_at k slot) =? PROCESS_RUNNING).

(** The first slot that can run, from [offset] slots after the last one on. *)
Fixpoint select_slot (n : nat) (offset : Z) (k : Kernel) : Z :=
  match n with
  | O => -1
  | S n =>
      let slot := Z.rem (k_last_slot k + offset) MAX_PROCESSES in
      if runnable k slot then slot else select_slot n (offset + 1) k
  end.

(** [run] is what happens while the process runs in user mode, until the kernel is entered
    by a timer interrupt or the process gives way. *)
Definition process_schedule (run : Z -> K unit) : K unit :=
  wake_timers ;;;
  selected <- gets (select_slot (Z.to_nat MAX_PROCESSES) 1) ;;
  if selected <? 0 then modify (set_k_current_slot (-1)) else
  deliver_signal selected ;;;
  p <- gets (fun k => process_at k selected) ;;
  if negb (p_state p =? PROCESS_RUNNING) then ret tt else
  modify (fun k => set_k_context (p_context p) (set_k_last_slot selected (set_k_current_slot selected k))) ;;;
  run selected ;;;
  modify (fun k => set_k_current_slot (-1)
    (set_k_processes (edit_index selected (set_p_context (k_context k)) (k_processes k)) k)).

Definition process_handle_page_fault (error_code address : Z) : K bool :=
  current <- gets current_process ;;
  match current with
  | None => ret false
  | Some slot =>
      result <- on_user slot VM_FAULT_UNHANDLED (vm_handle_page_fault address error_code) ;;
      if result =? VM_FAULT_COW then
        modify (fun k => set_k_cow_fault_counter (u64 (k_cow_fault_counter k + 1)) k) ;;;
        n <- gets k_cow_fault_counter ;;
        (if n =? 1 then serial_write (text "NovaOS: copy-on-write page fault resolved" ++ [13; 10]) else ret tt) ;;;
        ret true
      else if result =? VM_FAULT_DEMAND then
        modify (fun k => set_k_demand_fault_counter (u64 (k_demand_fault_counter k + 1)) k) ;;;
        n <- gets k_demand_fault_counter ;;
        (if n =? 1 then serial_write (text "NovaOS: demand-paged user stack expanded" ++ [13; 10]) else ret tt) ;;;
        ret true
      else
        serial_write (text "NovaOS: user page fault terminated process" ++ [13; 10]) ;;;
        finish_process slot 139 ;;;
        ret false
  end.

(** ** Queries *)

Definition live_process (p : Process) : bool := p_used p && negb (p_state p =? PROCESS_ZOMBIE).

Definition process_is_running (k : Kernel) : bool :=
  (0 <=? k_foreground_slot k) && (k_foreground_slot k <? MAX_PROCESSES) && live_process (process_at k (k_foreground_slot k)).

Definition process_count (k : Kernel) : Z := Z.of_nat (length (filter (fun p => live_process p = true) (k_processes k))).

Definition foreground (k : Kernel) : option Process :=
  let p := process_at k (k_foreground_slot k) in
  if (0 <=? k_foreground_slot k) && p_used p then Some p else None.

Definition process_foreground_pid (k : Kernel) : Z := match foreground k with Some p => p_pid p | None => 0 end.
Definition process_name (k : Kernel) : list Z := match foreground k with Some p => p_name p | None => text "none" end.
Definition process_output (k : Kernel) : list Z := match foreground k with Some p => p_output p | None => [] end.
Definition process_exit_code (k : Kernel) : Z := match foreground k with Some p => p_exit_code p | None => 0 end.
Definition process_syscall_count (k : Kernel) : Z := k_syscall_counter k.

End tasks.
