(* ===== verification/Syscalls.v ===== *)
(** * The system calls of kernel/process.c

    The two dispatchers, the programs that processes run, and the start of the kernel. *)

From S2P Require Import Prelude Runtime Heap HeapFacts Interfaces Filesystem Vm Process Descriptors Ipc FileCalls MemCalls Elf ElfLoader Tasks.

Definition LINUX_SYS_READ : Z := 0.
Definition LINUX_SYS_WRITE : Z := 1.
Definition LINUX_SYS_CLOSE : Z := 3.
Definition LINUX_SYS_FSTAT : Z := 5.
Definition LINUX_SYS_POLL : Z := 7.
Definition LINUX_SYS_LSEEK : Z := 8.
Definition LINUX_SYS_MMAP : Z := 9.
Definition LINUX_SYS_MPROTECT : Z := 10.
Definition LINUX_SYS_MUNMAP : Z := 11.
Definition LINUX_SYS_BRK : Z := 12.
Definition LINUX_SYS_RT_SIGACTION : Z := 13.
Definition LINUX_SYS_RT_SIGPROCMASK : Z := 14.
Definition LINUX_SYS_RT_SIGRETURN : Z := 15.
Definition LINUX_SYS_IOCTL : Z := 16.
Definition LINUX_SYS_PREAD64 : Z := 17.
Definition LINUX_SYS_PWRITE64 : Z := 18.
Definition LINUX_SYS_READV : Z := 19.
Definition LINUX_SYS_WRITEV : Z := 20.
Definition LINUX_SYS_ACCESS : Z := 21.
Definition LINUX_SYS_SCHED_YIELD : Z := 24.
Definition LINUX_SYS_MADVISE : Z := 28.
Definition LINUX_SYS_DUP : Z := 32.
Definition LINUX_SYS_DUP2 : Z := 33.
Definition LINUX_SYS_NANOSLEEP : Z := 35.
Definition LINUX_SYS_GETPID : Z := 39.
Definition LINUX_SYS_SOCKETPAIR : Z := 53.
Definition LINUX_SYS_CLONE : Z := 56.
Definition LINUX_SYS_FORK : Z := 57.
Definition LINUX_SYS_VFORK : Z := 58.
Definition LINUX_SYS_EXECVE : Z := 59.
Definition LINUX_SYS_EXIT : Z := 60.
Definition LINUX_SYS_WAIT4 : Z := 61.
Definition LINUX_SYS_KILL : Z := 62.
Definition LINUX_SYS_UNAME : Z := 63.
Definition LINUX_SYS_FCNTL : Z := 72.
Definition LINUX_SYS_FTRUNCATE : Z := 77.
Definition LINUX_SYS_GETCWD : Z := 79.
Definition LINUX_SYS_MKDIR : Z := 83.
Definition LINUX_SYS_UNLINK : Z := 87.
Definition LINUX_SYS_READLINK : Z := 89.
Definition LINUX_SYS_GETRLIMIT : Z := 97.
Definition LINUX_SYS_GETRUSAGE : Z := 98.
Definition LINUX_SYS_GETUID : Z := 102.
Definition LINUX_SYS_GETGID : Z := 104.
Definition LINUX_SYS_GETEUID : Z := 107.
Definition LINUX_SYS_GETEGID : Z := 108.
Definition LINUX_SYS_GETPPID : Z := 110.
Definition LINUX_SYS_GETPGID : Z := 121.
Definition LINUX_SYS_GETSID : Z := 124.
Definition LINUX_SYS_SIGALTSTACK : Z := 131.
Definition LINUX_SYS_PRCTL : Z := 157.
Definition LINUX_SYS_ARCH_PRCTL : Z := 158.
Definition LINUX_SYS_GETTID : Z := 186.
Definition LINUX_SYS_FUTEX : Z := 202.
Definition LINUX_SYS_SCHED_GETAFFINITY : Z := 204.
Definition LINUX_SYS_GETDENTS64 : Z := 217.
Definition LINUX_SYS_SET_TID_ADDRESS : Z := 218.
Definition LINUX_SYS_CLOCK_GETTIME : Z := 228.
Definition LINUX_SYS_EXIT_GROUP : Z := 231.
Definition LINUX_SYS_EPOLL_WAIT : Z := 232.
Definition LINUX_SYS_EPOLL_CTL : Z := 233.
Definition LINUX_SYS_OPENAT : Z := 257.
Definition LINUX_SYS_MKDIRAT : Z := 258.
Definition LINUX_SYS_NEWFSTATAT : Z := 262.
Definition LINUX_SYS_UNLINKAT : Z := 263.
Definition LINUX_SYS_SYMLINKAT : Z := 266.
Definition LINUX_SYS_READLINKAT : Z := 267.
Definition LINUX_SYS_FACCESSAT : Z := 269.
Definition LINUX_SYS_PPOLL : Z := 271.
Definition LINUX_SYS_SET_ROBUST_LIST : Z := 273.
Definition LINUX_SYS_TIMERFD_CREATE : Z := 283.
Definition LINUX_SYS_TIMERFD_SETTIME : Z := 286.
Definition LINUX_SYS_TIMERFD_GETTIME : Z := 287.
Definition LINUX_SYS_EVENTFD2 : Z := 290.
Definition LINUX_SYS_EPOLL_CREATE1 : Z := 291.
Definition LINUX_SYS_DUP3 : Z := 292.
Definition LINUX_SYS_PIPE2 : Z := 293.
Definition LINUX_SYS_PRLIMIT64 : Z := 302.
Definition LINUX_SYS_SECCOMP : Z := 317.
Definition LINUX_SYS_GETRANDOM : Z := 318.
Definition LINUX_SYS_MEMFD_CREATE : Z := 319.
Definition LINUX_CLONE_VM : Z := 0x100.

Definition NOVA_SYS_WRITE : Z := 1.
Definition NOVA_SYS_YIELD : Z := 2.
Definition NOVA_SYS_EXIT : Z := 3.

(** A name in a field of 65 bytes. *)
Definition name_field (t : list Z) : list Z := t ++ replicate (65 - length t) 0.

Definition utsname : list Z :=
  name_field (text "NovaOS") ++ name_field (text "nova") ++ name_field (text "0.2-native") ++
  name_field (text "NovaOS x86_64 direct kernel") ++ name_field (text "x86_64") ++ name_field (text "localdomain").

(** A [LinuxRlimit] for a resource. *)
Definition rlimit (resource : Z) : list Z :=
  let limit := if resource =? 7 then MAX_FILE_DESCRIPTORS else if resource =? 3 then VM_USER_STACK_SIZE else 0x40000000 in
  le 8 limit ++ le 8 limit.

Section syscalls.
Context {D H : Type} `{!BlockDevice D} `{!Allocator H}.

Notation Kernel := (@Kernel D H).
Notation K := (st Kernel).

Definition first_hint (pointer program_break : Z) (k : Kernel) : Z :=
  let hint := align_up (u64 (program_break + VM_PAGE_SIZE)) in
  match k_spaces k !! pointer with
  | Some a => if hint <? as_loader_mapping_end a then as_loader_mapping_end a else hint
  | None => hint
  end.

Definition create_process (name : list Z) (parent_pid : Z) : K Z :=
  slot <- reserve_slot ;;
  if slot <? 0 then ret (-1) else
  edit_process slot (fun _ => zero_process) ;;;
  pointer <- address_space_create ;;
  edit_process slot (set_p_address_space pointer) ;;;
  image <- (if pointer =? 0 then ret None else load_elf_image pointer name) ;;
  match image with
  | None => reset_process_slot slot ;;; ret (-1)
  | Some image =>
      pid <- gets k_next_pid ;;
      modify (set_k_next_pid (s32 (pid + 1))) ;;;
      hint <- gets (first_hint pointer (li_program_break image)) ;;
      edit_process slot (fun p => mkProcess true PROCESS_RUNNING pid pid parent_pid pointer (li_context image)
        (take FS_NAME_MAX name) [] 0 (li_program_break image) hint 0 0 0 (li_fs_base image) 0
        (li_tls_mapping image) (li_tls_mapping_size image) 0 false false (p_signal_actions p) (p_descriptors p)) ;;;
      ret slot
  end.

Definition process_load (name : list Z) : K bool :=
  parent_pid <- gets (fun k => match current_process k with Some slot => p_pid (process_at k slot) | None => 0 end) ;;
  slot <- create_process name parent_pid ;;
  if slot <? 0 then ret false else
  modify (set_k_foreground_slot slot) ;;;
  ret true.

Definition replace_current_image (slot : Z) (name : list Z) : K bool :=
  replacement <- address_space_create ;;
  image <- (if replacement =? 0 then ret None else load_elf_image replacement name) ;;
  match image with
  | None => address_space_release replacement ;;; ret false
  | Some image =>
      old <- gets (fun k => p_address_space (process_at k slot)) ;;
      hint <- gets (first_hint replacement (li_program_break image)) ;;
      modify (set_k_context (li_context image)) ;;;
      edit_process slot (fun p => mkProcess (p_used p) (p_state p) (p_pid p) (p_tgid p) (p_parent_pid p) replacement
        (li_context image) (take FS_NAME_MAX name) (p_output p) (p_exit_code p) (li_program_break image) hint (p_clear_child_tid p)
        (p_futex_address p) (p_wake_tick p) (li_fs_base image) 0 (li_tls_mapping image) (li_tls_mapping_size image)
        0 (p_no_new_privs p) (p_seccomp_strict p) (p_signal_actions p) (p_descriptors p)) ;;;
      address_space_release old ;;;
      ret true
  end.

(** ** The dispatchers *)

Definition copy_out (slot address : Z) (bytes : list Z) (result : Z) : K Z :=
  copied <- copy_to_user slot address bytes ;; ret (if copied then result else linux_error LINUX_EFAULT).

Definition pid_or_again (pid : Z) : Z := if pid <? 0 then linux_error LINUX_EAGAIN else pid.

(** Calls on descriptors and files; [None] in the result of [getdents64] is an overflow of the stack. *)
Definition file_call (slot number a1 a2 a3 a4 stale : Z) : option (K (option Z)) :=
  let plain (m : K Z) := Some (r <- m ;; ret (Some r)) in
  if number =? LINUX_SYS_READ then plain (linux_read slot (s32 a1) a2 a3)
  else if number =? LINUX_SYS_WRITE then
    plain (if (a1 =? 1) || (a1 =? 2) then write_console slot a2 a3 else linux_write_file slot (s32 a1) a2 a3)
  else if number =? LINUX_SYS_CLOSE then plain (linux_close slot a1)
  else if (number =? LINUX_SYS_POLL) || (number =? LINUX_SYS_PPOLL) then plain (linux_poll slot a1 a2)
  else if number =? LINUX_SYS_IOCTL then plain (linux_ioctl slot (s32 a1) a2 a3)
  else if number =? LINUX_SYS_PREAD64 then plain (linux_positioned_io slot (s32 a1) a2 a3 a4 false)
  else if number =? LINUX_SYS_PWRITE64 then plain (linux_positioned_io slot (s32 a1) a2 a3 a4 true)
  else if number =? LINUX_SYS_READV then plain (linux_vector_io slot (s32 a1) a2 (s32 a3) false)
  else if number =? LINUX_SYS_WRITEV then plain (linux_vector_io slot (s32 a1) a2 (s32 a3) true)
  else if number =? LINUX_SYS_ACCESS then plain (linux_access_path slot a1)
  else if number =? LINUX_SYS_DUP then plain (linux_duplicate_descriptor slot (s32 a1) (-1) false)
  else if number =? LINUX_SYS_DUP2 then plain (linux_duplicate_descriptor slot (s32 a1) (s32 a2) true)
  else if number =? LINUX_SYS_DUP3 then
    plain (if a1 =? a2 then ret (linux_error LINUX_EINVAL) else linux_duplicate_descriptor slot (s32 a1) (s32 a2) true)
  else if number =? LINUX_SYS_SOCKETPAIR then plain (linux_socketpair slot (s32 a1) (s32 a2) a4)
  else if number =? LINUX_SYS_FSTAT then plain (linux_fstat slot a1 a2 stale)
  else if number =? LINUX_SYS_LSEEK then plain (linux_lseek slot a1 a2 a3)
  else if number =? LINUX_SYS_MKDIR then plain (linux_mkdir_path slot a1 (u16 a2))
  else if number =? LINUX_SYS_UNLINK then plain (linux_unlink_path slot a1 0)
  else if number =? LINUX_SYS_READLINK then plain (linux_readlink_path slot a1 a2 a3)
  else if number =? LINUX_SYS_FCNTL then plain (ret 0)
  else if number =? LINUX_SYS_FTRUNCATE then plain (linux_ftruncate slot (s32 a1) a2)
  else if number =? LINUX_SYS_GETCWD then
    plain (if a2 <? 2 then ret (linux_error LINUX_EFAULT) else copy_out slot a1 [SLASH; 0] a1)
  else if number =? LINUX_SYS_GETDENTS64 then Some (linux_getdents64 slot (s32 a1) a2 a3)
  else if number =? LINUX_SYS_EPOLL_WAIT then plain (linux_epoll_wait slot (s32 a1) a2 (s32 a3))
  else if number =? LINUX_SYS_EPOLL_CTL then plain (linux_epoll_ctl slot (s32 a1) (s32 a2) (s32 a3) a4)
  else if number =? LINUX_SYS_OPENAT then plain (linux_openat slot a2 (s32 a3))
  else if number =? LINUX_SYS_MKDIRAT then plain (linux_mkdir_path slot a2 (u16 a3))
  else if number =? LINUX_SYS_NEWFSTATAT then plain (linux_newfstatat slot a2 a3 stale)
  else if number =? LINUX_SYS_UNLINKAT then plain (linux_unlink_path slot a2 (s32 a3))
  else if number =? LINUX_SYS_SYMLINKAT then plain (linux_symlink_path slot a1 a3)
  else if number =? LINUX_SYS_READLINKAT then plain (linux_readlink_path slot a2 a3 a4)
  else if number =? LINUX_SYS_FACCESSAT then plain (linux_access_path slot a2)
  else if number =? LINUX_SYS_TIMERFD_CREATE then plain (linux_timerfd_create slot (s32 a1) (s32 a2))
  else if number =? LINUX_SYS_TIMERFD_SETTIME then plain (linux_timerfd_settime slot (s32 a1) (s32 a2) a3 a4)
  else if number =? LINUX_SYS_TIMERFD_GETTIME then plain (linux_timerfd_gettime slot (s32 a1) a2)
  else if number =? LINUX_SYS_EVENTFD2 then plain (linux_eventfd2 slot a1 (s32 a2))
  else if number =? LINUX_SYS_EPOLL_CREATE1 then plain (linux_epoll_create slot)
  else if number =? LINUX_SYS_PIPE2 then plain (linux_pipe2 slot a1)
  else if number =? LINUX_SYS_MEMFD_CREATE then plain (linux_memfd_create slot a1 (s32 a2))
  else None.

(** Calls about the system and the attributes of the process. *)
Definition info_call (slot number a1 a2 a3 a4 a5 : Z) : K Z :=
  p <- gets (fun k => process_at k slot) ;;
  if number =? LINUX_SYS_UNAME then copy_out slot a1 utsname 0
  else if number =? LINUX_SYS_GETRLIMIT then copy_out slot a2 (rlimit a1) 0
  else if number =? LINUX_SYS_GETRUSAGE then copy_out slot a2 (replicate 144 0) 0
  else if number =? LINUX_SYS_PRLIMIT64 then if a4 =? 0 then ret 0 else copy_out slot a4 (rlimit a2) 0
  else if number =? LINUX_SYS_PRCTL then linux_prctl slot a1 a2 a3 a4 a5
  else if number =? LINUX_SYS_ARCH_PRCTL then linux_arch_prctl slot a1 a2
  else if number =? LINUX_SYS_FUTEX then linux_futex slot a1 (s32 a2) (u32 a3) a4
  else if number =? LINUX_SYS_SCHED_GETAFFINITY then
    if a3 =? 0 then ret (linux_error LINUX_EINVAL) else
    let size := Z.min a2 8 in copy_out slot a3 (take (Z.to_nat size) (le 8 1)) size
  else if number =? LINUX_SYS_SET_TID_ADDRESS then edit_process slot (set_p_clear_child_tid a1) ;;; ret (p_pid p)
  else if number =? LINUX_SYS_CLOCK_GETTIME then linux_clock_gettime slot a2
  else if number =? LINUX_SYS_SECCOMP then linux_seccomp slot a1 a2 a3
  else if number =? LINUX_SYS_GETRANDOM then linux_getrandom slot a1 a2
  else ret (linux_error LINUX_ENOSYS).

(** Calls on memory and processes. *)
Definition task_call (slot number a1 a2 a3 a4 a5 a6 : Z) : K Z :=
  p <- gets (fun k => process_at k slot) ;;
  if number =? LINUX_SYS_MMAP then linux_mmap slot a1 a2 a3 a4 (s32 a5) a6
  else if number =? LINUX_SYS_MPROTECT then linux_mprotect slot a1 a2 a3
  else if number =? LINUX_SYS_MUNMAP then linux_munmap slot a1 a2
  else if number =? LINUX_SYS_BRK then linux_brk slot a1
  else if (number =? LINUX_SYS_MADVISE) || (number =? LINUX_SYS_RT_SIGPROCMASK) || (number =? LINUX_SYS_SCHED_YIELD) ||
          (number =? LINUX_SYS_SIGALTSTACK) || (number =? LINUX_SYS_SET_ROBUST_LIST) then ret 0
  else if number =? LINUX_SYS_RT_SIGACTION then linux_sigaction slot a1 a2 a3
  else if number =? LINUX_SYS_RT_SIGRETURN then linux_sigreturn slot
  else if number =? LINUX_SYS_NANOSLEEP then linux_nanosleep slot a1
  else if number =? LINUX_SYS_GETPID then ret (p_tgid p)
  else if number =? LINUX_SYS_GETPPID then ret (p_parent_pid p)
  else if number =? LINUX_SYS_GETTID then ret (p_pid p)
  else if (number =? LINUX_SYS_GETUID) || (number =? LINUX_SYS_GETGID) || (number =? LINUX_SYS_GETEUID) ||
          (number =? LINUX_SYS_GETEGID) then ret 1000
  else if (number =? LINUX_SYS_GETPGID) || (number =? LINUX_SYS_GETSID) then
    ret (if negb (a1 =? 0) && negb (a1 =? u64 (p_pid p)) then linux_error LINUX_ESRCH else u64 (p_tgid p))
  else if number =? LINUX_SYS_CLONE then
    pid <- clone_current (has a1 LINUX_CLONE_VM) a2 a1 a3 a4 a5 ;; ret (pid_or_again pid)
  else if (number =? LINUX_SYS_FORK) || (number =? LINUX_SYS_VFORK) then
    pid <- clone_current false 0 0 0 0 0 ;; ret (pid_or_again pid)
  else if number =? LINUX_SYS_EXECVE then
    name <- normalized_user_path slot a1 ;;
    match name with
    | None => ret (linux_error LINUX_EFAULT)
    | Some name => replaced <- replace_current_image slot name ;; ret (if replaced then 0 else linux_error LINUX_ENOENT)
    end
  else if number =? LINUX_SYS_EXIT then finish_process slot (s32 a1) ;;; ret 0
  else if number =? LINUX_SYS_EXIT_GROUP then linux_exit_group slot a1
  else if number =? LINUX_SYS_WAIT4 then linux_wait4 slot a1 a2 a3
  else if number =? LINUX_SYS_KILL then linux_kill a1 a2
  else info_call slot number a1 a2 a3 a4 a5.

(** What a process under strict seccomp may call. *)
Definition seccomp_allows (number : Z) : bool :=
  (number =? LINUX_SYS_READ) || (number =? LINUX_SYS_WRITE) || (number =? LINUX_SYS_EXIT) ||
  (number =? LINUX_SYS_EXIT_GROUP) || (number =? LINUX_SYS_RT_SIGRETURN).

Definition count_syscall : K unit := modify (fun k => set_k_syscall_counter (u64 (k_syscall_counter k + 1)) k).

Definition process_handle_linux_syscall (number a1 a2 a3 a4 a5 a6 stale : Z) : K (option Z) :=
  current <- gets current_process ;;
  count_syscall ;;;
  match current with
  | None => ret (Some (linux_error LINUX_ESRCH))
  | Some slot =>
      strict <- gets (fun k => p_seccomp_strict (process_at k slot)) ;;
      if strict && negb (seccomp_allows number) then ret (Some (linux_error LINUX_EPERM)) else
      match file_call slot number a1 a2 a3 a4 stale with
      | Some call => call
      | None => r <- task_call slot number a1 a2 a3 a4 a5 a6 ;; ret (Some r)
      end
  end.

Definition process_handle_syscall (number a1 a2 : Z) : K Z :=
  current <- gets current_process ;;
  count_syscall ;;;
  match current with
  | None => ret (u64 (-1))
  | Some slot =>
      if number =? NOVA_SYS_WRITE then write_console slot a1 a2
      else if number =? NOVA_SYS_YIELD then ret 0
      else if number =? NOVA_SYS_EXIT then finish_process slot (s32 a1) ;;; ret 0
      else ret (u64 (-1))
  end.

(** ** The start *)

(** The tables are empty; the processor's own tables and registers are not modelled. *)
Definition process_init : K bool :=
  modify (fun k => mkKernel (k_world k) (k_spaces k) (k_fs k)
    (replicate (Z.to_nat MAX_PROCESSES) zero_process) (replicate (Z.to_nat MAX_PIPE_OBJECTS) zero_pipe)
    (replicate (Z.to_nat MAX_SOCKET_PAIRS) zero_pair) (replicate (Z.to_nat MAX_EPOLL_OBJECTS) zero_epoll)
    (replicate (Z.to_nat MAX_EVENT_OBJECTS) zero_event) (replicate (Z.to_nat MAX_TIMER_OBJECTS) zero_timer)
    (replicate (Z.to_nat MAX_MEMFD_OBJECTS) zero_memfd) (replicate 18 0) 0 (-1) (-1) (-1) 1 0 0 0 (k_console k)) ;;;
  ret true.

(** ** The programs that come with the kernel *)

(** A file is written when it is not there as it should be. *)
Definition install_builtin_file (name bytes : list Z) : K bool :=
  let size := Z.of_nat (length bytes) in
  existing <- on_memory (vm_alloc size) ;;
  current <- (if existing =? 0 then ret false else
    loaded <- on_fs (fs_read name size) ;;
    on_memory (vm_free existing) ;;;
    ret (bool_decide (loaded = Some bytes))) ;;
  if current then fixed <- on_fs (fs_chmod name 365) ;; ret true else
  saved <- on_fs (fs_write name bytes) ;;
  if saved then on_fs (fs_chmod name 365) else ret false.

Fixpoint install_files (files : list (list Z * list Z)) : K bool :=
  match files with
  | [] => ret true
  | (name, bytes) :: files => ok <- install_builtin_file name bytes ;; if ok then install_files files else ret false
  end.

(** [contents] are the images linked into the kernel, in this order. *)
Definition builtin_names : list (list Z) :=
  text <$> ["nova-ld.so"; "ld-linux-x86-64.so.2"; "libnova.so"; "libc.so.6"; "libpthread.so.0"; "libdl.so.2"; "libm.so.6";
            "libgcc_s.so.1"; "libtls.so"; "libtlsdesc.so"; "libctor.so"; "init.elf"]%string.

Definition process_install_builtin (contents : list (list Z)) : K bool :=
  ready <- gets (fun k => fs_is_ready (k_fs k)) ;;
  if negb ready then ret false else install_files (zip builtin_names contents).

End syscalls.
