(* ===== verification/ProcessTable.v ===== *)
(** * The process table

    Every system call changes the table in small steps: it edits the record of a process
    without touching its number or giving back privileges, empties a slot, uses up a number,
    or enters a new process under a number that nobody has.  [steady] operations take steps
    of the first two kinds only; [clone_current] also uses up a number and enters a process. *)

From S2P Require Import Prelude Runtime Heap HeapFacts Interfaces Filesystem Vm Process Descriptors Ipc FileCalls MemCalls Elf ElfLoader Tasks Syscalls.

(** The processes and the next number. *)
Definition Table : Type := list Process * Z.

(** [p'] is the process [p] with at most as many privileges. *)
Definition calm (p p' : Process) : Prop :=
  p_used p' = p_used p /\ p_pid p' = p_pid p /\
  (p_no_new_privs p = true -> p_no_new_privs p' = true) /\ (p_seccomp_strict p = true -> p_seccomp_strict p' = true).

Inductive steady_step : Table -> Table -> Prop :=
| step_calm l l' n : Forall2 calm l l' -> steady_step (l, n) (l', n)
| step_clear slot l n : steady_step (l, n) (edit_index slot (fun _ => zero_process) l, n).

Lemma calm_refl p : calm p p.
Proof. done. Qed.

Lemma calm_trans p q r : calm p q -> calm q r -> calm p r.
Proof. unfold calm. naive_solver congruence. Qed.

#[export] Instance calm_preorder : PreOrder calm.
Proof. split; [exact calm_refl|exact calm_trans]. Qed.

Lemma calm_fmap f l : (forall p, calm p (f p)) -> Forall2 calm l (f <$> l).
Proof. intros Hf. induction l; by constructor. Qed.

Lemma calm_edit slot f l : (forall p, calm p (f p)) -> Forall2 calm l (edit_index slot f l).
Proof.
  intros Hf. unfold edit_index. generalize (Z.to_nat slot) as i. induction l as [|p l IH]; intros [|i]; cbn; constructor; try done.
Qed.

(** One step of a sequence. *)
Lemma bind_gets {S A B} (f : S -> A) (g : A -> st S B) s : bind (gets f) g s = g (f s) s.
Proof. done. Qed.

Lemma bind_modify {S B} (f : S -> S) (g : unit -> st S B) s : bind (modify f) g s = g tt (f s).
Proof. done. Qed.

Lemma bind_run {S A B} (m : st S A) (f : A -> st S B) s a s' : m s = (a, s') -> bind m f s = f a s'.
Proof. unfold bind. by intros ->. Qed.

Create HintDb steady discriminated.

Section table.
Context {D H : Type} `{!BlockDevice D} `{!Allocator H}.

Notation Kernel := (@Kernel D H).
Notation K := (st Kernel).

Definition table (k : Kernel) : Table := (k_processes k, k_next_pid k).

(** The operation takes the table along [R]. *)
Definition along (R : relation Table) {A} (m : K A) : Prop := forall k, R (table k) (table (m k).2).

(** ** Composition *)

Section along.
Context (R : relation Table) `{!PreOrder R}.

Lemma along_quiet {A} (m : K A) : (forall k, table (m k).2 = table k) -> along R m.
Proof. intros Hm k. rewrite Hm. reflexivity. Qed.

Lemma along_ret {A} (a : A) : along R (ret a).
Proof. by apply along_quiet. Qed.

Lemma along_gets {A} (f : Kernel -> A) : along R (gets f).
Proof. by apply along_quiet. Qed.

Lemma along_bind {A B} (m : K A) (f : A -> K B) : along R m -> (forall a, along R (f a)) -> along R (bind m f).
Proof.
  intros Hm Hf k. unfold bind. specialize (Hm k). destruct (m k) as [a k']. etrans; [exact Hm|]. apply Hf.
Qed.

Lemma along_modify (f : Kernel -> Kernel) : (forall k, table (f k) = table k) -> along R (modify f).
Proof. intros Hf. by apply along_quiet. Qed.

Lemma along_on_memory {A} (op : st VmWorld A) : along R (on_memory op).
Proof. apply along_quiet. intros k. unfold on_memory. by destruct (op _). Qed.

Lemma along_on_fs {A} (op : st FsState A) : along R (on_fs op).
Proof. apply along_quiet. intros k. unfold on_fs. by destruct (op _). Qed.

Lemma along_on_space_at {A} pointer (failed : A) op : along R (on_space_at pointer failed op).
Proof. apply along_quiet. intros k. unfold on_space_at. destruct (k_spaces k !! pointer); [|done]. by destruct (op _). Qed.

End along.

Lemma steady_edit_process slot f : (forall p, calm p (f p)) -> along (rtc steady_step) (edit_process slot f).
Proof. intros Hf k. by apply rtc_once, step_calm, calm_edit. Qed.

Lemma steady_clear slot : along (rtc steady_step) (edit_process slot (fun _ => zero_process)).
Proof. intros k. apply rtc_once, step_clear. Qed.

Lemma steady_all f : (forall k p, calm p (f k p)) ->
  along (rtc steady_step) (modify (fun k => set_k_processes (f k <$> k_processes k) k)).
Proof. intros Hf k. apply rtc_once, step_calm, calm_fmap, Hf. Qed.

End table.

Notation steady := (along (rtc steady_step)).
Notation still := (along eq).

#[export] Hint Resolve along_ret along_gets along_on_memory along_on_fs along_on_space_at steady_clear : steady.

(** Takes an operation apart; a call without a lemma of its own is unfolded. *)
Ltac head_of m := match m with ?f _ => head_of f | _ => m end.

Ltac steady_step :=
  match goal with
  | |- forall _, _ => intros ?
  | |- along _ (bind _ _) => apply along_bind; [apply _| |intros ?]
  | |- along _ (fun _ => _) => apply along_quiet; [apply _|]; intros ?; repeat case_match; done
  | |- along _ (if ?b then _ else _) => destruct b
  | |- along _ (match ?x with _ => _ end) => destruct x
  | |- along _ (edit_process _ (fun _ => zero_process)) => apply steady_clear
  | |- along _ (edit_process _ _) => apply steady_edit_process; intros ?; unfold calm; repeat case_match; done
  | |- along _ (modify (fun k => set_k_processes (_ <$> k_processes k) k)) =>
      apply steady_all; intros ? ?; unfold calm; repeat case_match; done
  | |- along _ (modify _) => apply along_modify; [apply _|]; intros ?; repeat case_match; done
  | |- along _ _ => solve [eauto with steady]
  | |- along _ ?m => let h := head_of m in progress unfold h
  end.

Ltac steady := repeat (cbv zeta; steady_step).

Section calls.
Context {D H : Type} `{!BlockDevice D} `{!Allocator H}.

Notation Kernel := (@Kernel D H).
Notation K := (st Kernel).

Lemma steady_address_space_create : steady (address_space_create : K Z).
Proof. unfold address_space_create. steady. Qed.
#[local] Hint Resolve steady_address_space_create : steady.

Lemma steady_address_space_clone source : steady (address_space_clone source : K Z).
Proof. unfold address_space_clone. steady. Qed.
#[local] Hint Resolve steady_address_space_clone : steady.

Lemma steady_address_space_release pointer : steady (address_space_release pointer : K unit).
Proof. unfold address_space_release. steady. Qed.
#[local] Hint Resolve steady_address_space_release : steady.

Lemma steady_user_string n slot address : steady (user_string n slot address : K (option (list Z))).
Proof. revert slot address. induction n; intros; cbn [user_string]; steady. Qed.
#[local] Hint Resolve steady_user_string : steady.

Lemma steady_write_chunks fuel slot address length completed : steady (write_chunks fuel slot address length completed : K Z).
Proof. revert slot address length completed. induction fuel; intros; cbn [write_chunks]; steady. Qed.
#[local] Hint Resolve steady_write_chunks : steady.

Lemma steady_write_console slot address length : steady (write_console slot address length : K Z).
Proof. unfold write_console. steady. Qed.
#[local] Hint Resolve steady_write_console : steady.

Lemma steady_release_frames frames : steady (release_frames frames : K unit).
Proof. induction frames; intros; cbn [release_frames]; steady. Qed.
#[local] Hint Resolve steady_release_frames : steady.

Lemma steady_memfd_release_object index : steady (memfd_release_object index : K unit).
Proof. unfold memfd_release_object. steady. Qed.
#[local] Hint Resolve steady_memfd_release_object : steady.

Lemma steady_drop_frames n index page : steady (drop_frames n index page : K unit).
Proof. revert index page. induction n; intros; cbn [drop_frames]; steady. Qed.
#[local] Hint Resolve steady_drop_frames : steady.

Lemma steady_memfd_set_size index size : steady (memfd_set_size index size : K bool).
Proof. unfold memfd_set_size. steady. Qed.
#[local] Hint Resolve steady_memfd_set_size : steady.

Lemma steady_memfd_frame index page create : steady (memfd_frame index page create : K Z).
Proof. unfold memfd_frame. steady. Qed.
#[local] Hint Resolve steady_memfd_frame : steady.

Lemma steady_memfd_read_loop fuel slot index offset buffer count completed : steady (memfd_read_loop fuel slot index offset buffer count completed : K (Z * bool)).
Proof. revert slot index offset buffer count completed. induction fuel; intros; cbn [memfd_read_loop]; steady. Qed.
#[local] Hint Resolve steady_memfd_read_loop : steady.

Lemma steady_memfd_read_user slot descriptor buffer count : steady (memfd_read_user slot descriptor buffer count : K Z).
Proof. unfold memfd_read_user. steady. Qed.
#[local] Hint Resolve steady_memfd_read_user : steady.

Lemma steady_memfd_write_loop fuel slot index offset buffer count completed : steady (memfd_write_loop fuel slot index offset buffer count completed : K (Z * Z)).
Proof. revert slot index offset buffer count completed. induction fuel; intros; cbn [memfd_write_loop]; steady. Qed.
#[local] Hint Resolve steady_memfd_write_loop : steady.

Lemma steady_memfd_write_user slot descriptor buffer count : steady (memfd_write_user slot descriptor buffer count : K Z).
Proof. unfold memfd_write_user. steady. Qed.
#[local] Hint Resolve steady_memfd_write_user : steady.

Lemma steady_release_descriptors fds : steady (release_descriptors fds : K unit).
Proof. induction fds; intros; cbn [release_descriptors]; steady. Qed.
#[local] Hint Resolve steady_release_descriptors : steady.

Lemma steady_reset_process_slot slot : steady (reset_process_slot slot : K unit).
Proof. unfold reset_process_slot. steady. Qed.
#[local] Hint Resolve steady_reset_process_slot : steady.

Lemma steady_reserve_slot : steady (reserve_slot : K Z).
Proof. unfold reserve_slot. steady. Qed.
#[local] Hint Resolve steady_reserve_slot : steady.

Lemma steady_queue_write_loop fuel slot r source count completed : steady (queue_write_loop fuel slot r source count completed : K Z).
Proof. revert slot r source count completed. induction fuel; intros; cbn [queue_write_loop]; steady. Qed.
#[local] Hint Resolve steady_queue_write_loop : steady.

Lemma steady_queue_read_loop fuel slot r destination count completed : steady (queue_read_loop fuel slot r destination count completed : K Z).
Proof. revert slot r destination count completed. induction fuel; intros; cbn [queue_read_loop]; steady. Qed.
#[local] Hint Resolve steady_queue_read_loop : steady.

Lemma steady_linux_timerfd_settime slot descriptor flags new_address old_address : steady (linux_timerfd_settime slot descriptor flags new_address old_address : K Z).
Proof. unfold linux_timerfd_settime. steady. Qed.
#[local] Hint Resolve steady_linux_timerfd_settime : steady.

Lemma steady_poll_loop n slot address ready_count : steady (poll_loop n slot address ready_count : K Z).
Proof. revert slot address ready_count. induction n; intros; cbn [poll_loop]; steady. Qed.
#[local] Hint Resolve steady_poll_loop : steady.

Lemma steady_linux_epoll_ctl slot epoll_descriptor operation target_descriptor event_address : steady (linux_epoll_ctl slot epoll_descriptor operation target_descriptor event_address : K Z).
Proof. unfold linux_epoll_ctl. steady. Qed.
#[local] Hint Resolve steady_linux_epoll_ctl : steady.

Lemma steady_epoll_wait_loop l slot events_address maximum_events count : steady (epoll_wait_loop l slot events_address maximum_events count : K Z).
Proof. revert slot events_address maximum_events count. induction l; intros; cbn [epoll_wait_loop]; steady. Qed.
#[local] Hint Resolve steady_epoll_wait_loop : steady.

Lemma steady_normalized_user_path slot address : steady (normalized_user_path slot address : K (option (list Z))).
Proof. unfold normalized_user_path. steady. Qed.
#[local] Hint Resolve steady_normalized_user_path : steady.

Lemma steady_linux_openat slot path_address flags : steady (linux_openat slot path_address flags : K Z).
Proof. unfold linux_openat. steady. Qed.
#[local] Hint Resolve steady_linux_openat : steady.

Lemma steady_getdents_loop n slot descriptor buffer capacity index written : steady (getdents_loop n slot descriptor buffer capacity index written : K (option Z)).
Proof. revert slot descriptor buffer capacity index written. induction n; intros; cbn [getdents_loop]; steady. Qed.
#[local] Hint Resolve steady_getdents_loop : steady.

Lemma steady_file_read_loop fuel slot name offset buffer count completed : steady (file_read_loop fuel slot name offset buffer count completed : K (bool * Z)).
Proof. revert slot name offset buffer count completed. induction fuel; intros; cbn [file_read_loop]; steady. Qed.
#[local] Hint Resolve steady_file_read_loop : steady.

Lemma steady_linux_read slot descriptor buffer count : steady (linux_read slot descriptor buffer count : K Z).
Proof. unfold linux_read. steady. Qed.
#[local] Hint Resolve steady_linux_read : steady.

Lemma steady_file_write_loop fuel slot name offset buffer count completed : steady (file_write_loop fuel slot name offset buffer count completed : K (bool * Z)).
Proof. revert slot name offset buffer count completed. induction fuel; intros; cbn [file_write_loop]; steady. Qed.
#[local] Hint Resolve steady_file_write_loop : steady.

Lemma steady_linux_write_file slot descriptor buffer count : steady (linux_write_file slot descriptor buffer count : K Z).
Proof. unfold linux_write_file. steady. Qed.
#[local] Hint Resolve steady_linux_write_file : steady.

Lemma steady_vector_loop n slot descriptor vectors writing total : steady (vector_loop n slot descriptor vectors writing total : K Z).
Proof. revert slot descriptor vectors writing total. induction n; intros; cbn [vector_loop]; steady. Qed.
#[local] Hint Resolve steady_vector_loop : steady.

Lemma steady_unmap_pages n pointer page : steady (unmap_pages n pointer page : K unit).
Proof. revert pointer page. induction n; intros; cbn [unmap_pages]; steady. Qed.
#[local] Hint Resolve steady_unmap_pages : steady.

Lemma steady_map_pages n pointer page protection : steady (map_pages n pointer page protection : K nat).
Proof. revert pointer page protection. induction n; intros; cbn [map_pages]; steady. Qed.
#[local] Hint Resolve steady_map_pages : steady.

Lemma steady_relocate_dtv n pointer thread_pointer old_thread_pointer module : steady (relocate_dtv n pointer thread_pointer old_thread_pointer module : K bool).
Proof. revert pointer thread_pointer old_thread_pointer module. induction n; intros; cbn [relocate_dtv]; steady. Qed.
#[local] Hint Resolve steady_relocate_dtv : steady.

Lemma steady_allocate_thread_tls pointer hint : steady (allocate_thread_tls pointer hint : K (option (Z * Z * Z))).
Proof. unfold allocate_thread_tls. steady. Qed.
#[local] Hint Resolve steady_allocate_thread_tls : steady.

Lemma steady_map_memfd n pointer object page backing_page protection shared : steady (map_memfd n pointer object page backing_page protection shared : K nat).
Proof. revert pointer object page backing_page protection shared. induction n; intros; cbn [map_memfd]; steady. Qed.
#[local] Hint Resolve steady_map_memfd : steady.

Lemma steady_load_file fuel pointer name offset address copy completed : steady (load_file fuel pointer name offset address copy completed : K bool).
Proof. revert pointer name offset address copy completed. induction fuel; intros; cbn [load_file]; steady. Qed.
#[local] Hint Resolve steady_load_file : steady.

Lemma steady_linux_mmap slot requested size protection flags descriptor offset : steady (linux_mmap slot requested size protection flags descriptor offset : K Z).
Proof. unfold linux_mmap. steady. Qed.
#[local] Hint Resolve steady_linux_mmap : steady.

Lemma steady_finish_process slot code : steady (finish_process slot code : K unit).
Proof. unfold finish_process. steady. Qed.
#[local] Hint Resolve steady_finish_process : steady.

Lemma steady_finish_group slots tgid code : steady (finish_group slots tgid code : K unit).
Proof. revert tgid code. induction slots; intros; cbn [finish_group]; steady. Qed.
#[local] Hint Resolve steady_finish_group : steady.

Lemma steady_retain_descriptors fds : steady (retain_descriptors fds : K unit).
Proof. induction fds; intros; cbn [retain_descriptors]; steady. Qed.
#[local] Hint Resolve steady_retain_descriptors : steady.

Lemma steady_clone_tls parent pointer flags tls : steady (clone_tls parent pointer flags tls : K (option (Z * Z * Z * Z))).
Proof. unfold clone_tls. steady. Qed.
#[local] Hint Resolve steady_clone_tls : steady.

Lemma steady_clone_space parent share_memory : steady (clone_space parent share_memory : K Z).
Proof. unfold clone_space. steady. Qed.
#[local] Hint Resolve steady_clone_space : steady.

Lemma steady_linux_sigaction slot signal new_address old_address : steady (linux_sigaction slot signal new_address old_address : K Z).
Proof. unfold linux_sigaction. steady. Qed.
#[local] Hint Resolve steady_linux_sigaction : steady.

Lemma steady_random_bytes n slot address state : steady (random_bytes n slot address state : K bool).
Proof. revert slot address state. induction n; intros; cbn [random_bytes]; steady. Qed.
#[local] Hint Resolve steady_random_bytes : steady.

Lemma steady_install_files files : steady (install_files files : K bool).
Proof. induction files; intros; cbn [install_files]; steady. Qed.
#[local] Hint Resolve steady_install_files : steady.


Lemma steady_file_call slot number a1 a2 a3 a4 stale (m : K (option Z)) :
  file_call slot number a1 a2 a3 a4 stale = Some m -> steady m.
Proof.
  unfold file_call. cbv zeta. intros E.
  repeat match type of E with
  | (if ?b then _ else _) = _ => destruct b; [injection E as <-; clear; steady|]
  end. done.
Qed.

Lemma calm_wake n pointer address l : Forall2 calm l (wake n pointer address l).2.
Proof.
  revert n. induction l as [|p l IH]; intros n; cbn [wake]; [constructor|]. destruct ((0 <? n) && _).
  - specialize (IH (n - 1)). destruct (wake (n - 1) _ _ _). by constructor.
  - specialize (IH n). destruct (wake n _ _ _). by constructor.
Qed.

Lemma steady_linux_futex slot address operation value timeout : steady (linux_futex slot address operation value timeout : K Z).
Proof.
  unfold linux_futex. cbv zeta. destruct (_ =? LINUX_FUTEX_WAIT); [unfold linux_futex_wait; steady|].
  destruct (_ =? LINUX_FUTEX_WAKE); [|steady]. intros k. unfold bind, gets. cbn.
  pose proof (calm_wake (s32 value) (p_address_space (process_at k slot)) address (k_processes k)) as Hw.
  destruct (wake _ _ _ _) as [woken l]. by apply rtc_once, step_calm.
Qed.
#[local] Hint Resolve steady_linux_futex : steady.

Lemma steady_info_call slot number a1 a2 a3 a4 a5 : steady (info_call slot number a1 a2 a3 a4 a5 : K Z).
Proof. unfold info_call. steady. Qed.
#[local] Hint Resolve steady_info_call : steady.

(** ** The loader *)

Lemma steady_find_interpreter name size allowed segments found : steady (find_interpreter name size allowed segments found : K (option (list Z))).
Proof. revert name size allowed found. induction segments; intros; cbn [find_interpreter]; steady. Qed.
#[local] Hint Resolve steady_find_interpreter : steady.

Lemma steady_map_segments pointer name size segments o maximum_end : steady (map_segments pointer name size segments o maximum_end : K (option (ElfLoadedObject * Z))).
Proof. revert pointer name size o maximum_end. induction segments; intros; cbn [map_segments]; steady. Qed.
#[local] Hint Resolve steady_map_segments : steady.

Lemma steady_map_elf_object pointer name bias maximum_end want_entry allow_interpreter : steady (map_elf_object pointer name bias maximum_end want_entry allow_interpreter : K (option MappedObject)).
Proof. unfold map_elf_object. steady. Qed.
#[local] Hint Resolve steady_map_elf_object : steady.

Lemma steady_load_needed pointer o needed objects library_number : steady (load_needed pointer o needed objects library_number : K (option (list ElfLoadedObject * Z))).
Proof. revert pointer o objects library_number. induction needed; intros; cbn [load_needed]; steady. Qed.
#[local] Hint Resolve steady_load_needed : steady.

Lemma steady_load_needed_objects fuel pointer objects index library_number : steady (load_needed_objects fuel pointer objects index library_number : K (option (list ElfLoadedObject))).
Proof. revert pointer objects index library_number. induction fuel; intros; cbn [load_needed_objects]; steady. Qed.
#[local] Hint Resolve steady_load_needed_objects : steady.

Lemma steady_relocation_loop n pointer objects o address : steady (relocation_loop n pointer objects o address : K bool).
Proof. revert pointer objects o address. induction n; intros; cbn [relocation_loop]; steady. Qed.
#[local] Hint Resolve steady_relocation_loop : steady.

Lemma steady_relocate_objects pointer all objects : steady (relocate_objects pointer all objects : K bool).
Proof. revert pointer all. induction objects; intros; cbn [relocate_objects]; steady. Qed.
#[local] Hint Resolve steady_relocate_objects : steady.

Lemma steady_protect_segments pointer segments : steady (protect_segments pointer segments : K bool).
Proof. revert pointer. induction segments; intros; cbn [protect_segments]; steady. Qed.
#[local] Hint Resolve steady_protect_segments : steady.

Lemma steady_copy_image fuel pointer source destination size copied : steady (copy_image fuel pointer source destination size copied : K bool).
Proof. revert pointer source destination size copied. induction fuel; intros; cbn [copy_image]; steady. Qed.
#[local] Hint Resolve steady_copy_image : steady.

Lemma steady_copy_images pointer thread_pointer objects : steady (copy_images pointer thread_pointer objects : K bool).
Proof. revert pointer thread_pointer. induction objects; intros; cbn [copy_images]; steady. Qed.
#[local] Hint Resolve steady_copy_images : steady.

Lemma steady_initialize_static_tls pointer objects static_size : steady (initialize_static_tls pointer objects static_size : K (option (Z * Z * Z))).
Proof. unfold initialize_static_tls. steady. Qed.
#[local] Hint Resolve steady_initialize_static_tls : steady.

Lemma steady_prepare_interpreter_startup pointer objects final_entry : steady (prepare_interpreter_startup pointer objects final_entry : K (option (Z * Z))).
Proof. unfold prepare_interpreter_startup. steady. Qed.
#[local] Hint Resolve steady_prepare_interpreter_startup : steady.

Lemma steady_load_elf_image pointer name : steady (load_elf_image pointer name : K (option LoadedImage)).
Proof. unfold load_elf_image. steady. Qed.
#[local] Hint Resolve steady_load_elf_image : steady.

Lemma steady_replace_current_image slot name : steady (replace_current_image slot name : K bool).
Proof. unfold replace_current_image. steady. Qed.
#[local] Hint Resolve steady_replace_current_image : steady.

(** ** What steady steps keep *)

Lemma lookup_edit_index {A} i f (l : list A) j x : edit_index i f l !! j = Some x ->
  exists y, l !! j = Some y /\ (x = y \/ j = Z.to_nat i /\ x = f y).
Proof.
  unfold edit_index. rewrite list_lookup_alter. case_decide as E; [subst j|eauto]. intros (y & ? & ->)%fmap_Some. eauto.
Qed.

Lemma steady_old t t' : rtc steady_step t t' -> length t'.1 = length t.1 /\ t'.2 = t.2 /\
  forall i p', t'.1 !! i = Some p' -> p_used p' = true -> exists p, t.1 !! i = Some p /\ calm p p'.
Proof.
  induction 1 as [t|t1 t2 t3 H12 _ (IHl & IHn & IHp)].
  { split_and!; [done|lia|]. intros i p' Hp _. exists p'. split; [done|apply calm_refl]. }
  assert (length t2.1 = length t1.1 /\ t2.2 = t1.2 /\
    forall i p', t2.1 !! i = Some p' -> p_used p' = true -> exists p, t1.1 !! i = Some p /\ calm p p') as (Hl & Hn & Hp).
  { destruct H12 as [l l' n Hc|slot l n]; cbn.
    - split_and!; [by symmetry; apply Forall2_length in Hc|lia|]. intros i p' Hi _. eapply Forall2_lookup_r; eauto.
    - split_and!; [apply length_alter|lia|]. intros i p' (y & Hy & [->|[_ ->]])%lookup_edit_index Hu; [eauto using calm_refl|done]. }
  split_and!; [congruence|lia|]. intros i p3 Hi Hu. destruct (IHp _ _ Hi Hu) as (p2 & Hi2 & Hc2).
  destruct (Hp i p2 Hi2) as (p1 & Hi1 & Hc1); [by destruct Hc2 as [<- _]|]. eauto using calm_trans.
Qed.

(** Numbers are positive, below the next one, and nobody's twice. *)
Record table_ok (t : Table) : Prop := {
  to_length : length t.1 = Z.to_nat MAX_PROCESSES;
  to_pid i p : t.1 !! i = Some p -> p_used p = true -> 0 < p_pid p < t.2;
  to_unique i j p q : t.1 !! i = Some p -> t.1 !! j = Some q -> p_used p = true -> p_used q = true ->
    p_pid p = p_pid q -> i = j;
  to_next : 0 < t.2 }.

Lemma steady_table_ok t t' : rtc steady_step t t' -> table_ok t -> table_ok t'.
Proof.
  intros (Hl & Hn & Hp)%steady_old [T1 T2 T3 T4]. split; [congruence| | |lia].
  - intros i p' Hi Hu. destruct (Hp _ _ Hi Hu) as (p & Hi0 & Eu & Epid & _). rewrite Epid.
    assert (p_used p = true) as Hu0 by congruence. pose proof (T2 _ _ Hi0 Hu0). lia.
  - intros i j p' q' Hi Hj Hu Hv E. destruct (Hp _ _ Hi Hu) as (p & Hi0 & Eu & Epid & _).
    destruct (Hp _ _ Hj Hv) as (q & Hj0 & Ev & Eqid & _). eapply T3; [exact Hi0|exact Hj0|congruence..].
Qed.

(** The process [p] enters the slot. *)
Definition entered (slot : Z) (p : Process) (t t' : Table) : Prop := t' = (edit_index slot (fun _ => p) t.1, t.2).

Lemma entered_table_ok slot p t t' : entered slot p t t' -> table_ok t -> p_used p = true -> 0 < p_pid p < t.2 ->
  (forall i q, t.1 !! i = Some q -> p_used q = true -> p_pid q <> p_pid p) -> table_ok t'.
Proof.
  intros -> [T1 T2 T3 T4] Hu Hpid Hfresh. split; cbn.
  - unfold edit_index. by rewrite length_alter.
  - intros i q (y & Hy & [->|[_ ->]])%lookup_edit_index Hq; [by eapply T2|done].
  - intros i j x y (x0 & Hx & Ex)%lookup_edit_index (y0 & Hy & Ey)%lookup_edit_index Hux Huy E.
    destruct Ex as [->|[-> ->]], Ey as [->|[-> ->]]; [by eapply T3| | |done].
    + exfalso. by eapply (Hfresh i x0).
    + exfalso. by eapply (Hfresh j y0).
  - done.
Qed.

(** ** New processes *)

(** The child has no privilege that its parent has given up. *)
Definition inherits (parent child : Process) : Prop :=
  (p_no_new_privs parent = true -> p_no_new_privs child = true) /\
  (p_seccomp_strict parent = true -> p_seccomp_strict child = true).

(** The number [first] is used up; a process that [parent] starts gets a number from [first] on that nobody has. *)
Inductive grow_step (parent : Process) (first : Z) (t t' : Table) : Prop :=
| grow_steady : steady_step t t' -> grow_step parent first t t'
| grow_number : t.2 = first -> t' = (t.1, first + 1) -> grow_step parent first t t'
| grow_enter slot p : entered slot p t t' -> p_used p = true -> 0 < p_pid p < t.2 -> first <= p_pid p ->
    (forall i q, t.1 !! i = Some q -> p_used q = true -> p_pid q <> p_pid p) -> inherits parent p ->
    grow_step parent first t t'.

Lemma grow_of_steady parent first t t' : rtc steady_step t t' -> rtc (grow_step parent first) t t'.
Proof. apply rtc_congruence with (f := fun t => t). intros. by apply grow_steady. Qed.

Lemma grow_table_ok parent first t t' : rtc (grow_step parent first) t t' -> table_ok t -> table_ok t'.
Proof.
  induction 1 as [|t1 t2 t3 H12 _ IH]; [done|]. intros Hok. apply IH. destruct H12 as [Hs|Hn ->|slot p He].
  - by eapply steady_table_ok; [apply rtc_once|].
  - destruct Hok as [T1 T2 T3 T4]. split; cbn; [done| |done|lia]. intros i p Hi Hu. specialize (T2 i p Hi Hu). lia.
  - by eapply entered_table_ok.
Qed.

(** At most one number is used up. *)
Lemma grow_next parent first t t' : rtc (grow_step parent first) t t' -> t.2 <= first + 1 -> t'.2 <= first + 1.
Proof.
  induction 1 as [|t1 t2 t3 H12 _ IH]; [done|]. intros Hn. apply IH.
  destruct H12 as [(_ & -> & _)%rtc_once%steady_old|_ ->|slot p ->]; cbn; lia.
Qed.

(** Each process after is one from before, or a new one that inherits from [parent]. *)
Definition evolves (parent : Process) (first : Z) (t t' : Table) : Prop :=
  t.2 <= t'.2 /\ forall i p', t'.1 !! i = Some p' -> p_used p' = true ->
    (exists p, t.1 !! i = Some p /\ calm p p') \/ (first <= p_pid p' /\ inherits parent p').

Lemma inherits_calm parent p p' : inherits parent p -> calm p p' -> inherits parent p'.
Proof. unfold inherits, calm. naive_solver. Qed.

Lemma grow_evolves parent first t t' : rtc (grow_step parent first) t t' -> evolves parent first t t'.
Proof.
  induction 1 as [t|t1 t2 t3 H12 _ (IHn & IH)]. { split; [lia|]. eauto using calm_refl. }
  assert (evolves parent first t1 t2) as (Hn & Hp).
  { destruct H12 as [(_ & Hn & Hp)%rtc_once%steady_old|Hn ->|slot p -> Hu Hr Hf _ Hi]; [split; [lia|eauto]|split; cbn; [lia|eauto using calm_refl]|].
    split; cbn; [lia|]. intros i p' (y & Hy & [->|[_ ->]])%lookup_edit_index _; eauto using calm_refl. }
  split; [lia|]. intros i p3 Hi3 Hu3. destruct (IH i p3 Hi3 Hu3) as [(p2 & Hi2 & Hc)|]; [|eauto].
  destruct (Hp i p2 Hi2) as [(p1 & Hi1 & Hc1)|[Hf Hin]]; [by destruct Hc as [<- _]| |].
  - left. eauto using calm_trans.
  - right. assert (p_pid p3 = p_pid p2) as -> by apply Hc. eauto using inherits_calm.
Qed.

Lemma still_release_frames frames : still (release_frames frames : K unit).
Proof. induction frames; intros; cbn [release_frames]; steady. Qed.
#[local] Hint Resolve still_release_frames : steady.

Lemma still_release_descriptors fds : still (release_descriptors fds : K unit).
Proof. induction fds; intros; cbn [release_descriptors]; steady. Qed.
#[local] Hint Resolve still_release_descriptors : steady.

Lemma process_at_edit slot f (k k' : Kernel) other :
  table k' = (edit_index slot f (k_processes k), k_next_pid k) -> Z.to_nat other <> Z.to_nat slot ->
  process_at k' other = process_at k other.
Proof.
  intros [= E _] Hne. unfold process_at, at_index. rewrite E. unfold edit_index. rewrite !nth_lookup.
  by rewrite list_lookup_alter_ne.
Qed.

Lemma first_index_found {A} (P : A -> bool) i l j : first_index P i l = j -> 0 <= i -> 0 <= j ->
  i <= j /\ exists x, l !! Z.to_nat (j - i) = Some x /\ P x = true.
Proof.
  revert i. induction l as [|x l IH]; intros i; cbn; [lia|]. destruct (P x) eqn:Ex.
  - intros <- ? ?. split; [lia|]. exists x. by replace (Z.to_nat (i - i)) with 0%nat by lia.
  - intros Hj ? ?. destruct (IH (i + 1) Hj) as (? & y & Hy & ?); [lia..|]. split; [lia|]. exists y.
    by replace (Z.to_nat (j - i)) with (S (Z.to_nat (j - (i + 1)))) by lia.
Qed.

Lemma first_zombie_other i current l j : first_zombie i current l = j -> 0 <= j -> 0 <= i -> i <= j /\ j <> current.
Proof.
  revert i. induction l as [|p l IH]; intros i; cbn; [lia|]. destruct (negb (i =? current) && _) eqn:E; [lia|].
  intros Hj ? ?. destruct (IH (i + 1) Hj); lia.
Qed.

Lemma reset_process_slot_table slot (k : Kernel) :
  table (reset_process_slot slot k).2 = (edit_index slot (fun _ => zero_process) (k_processes k), k_next_pid k).
Proof.
  unfold reset_process_slot, bind, gets. set (p := process_at k slot).
  pose proof (still_release_descriptors (drop 3 (p_descriptors p)) k) as S1. destruct (release_descriptors _ k) as [? k1].
  set (release := if p_address_space p =? 0 then _ else _). assert (still (release : K unit)) as S2.
  { unfold release, address_space_release. steady. }
  specialize (S2 k1). destruct (release k1) as [? k2]. unfold table in *. cbn in *. congruence.
Qed.

(** The slot that is reserved is not the one of the current process, which stays as it is. *)
Lemma reserve_slot_other (k : Kernel) c slot k' : current_process k = Some c -> p_used (process_at k c) = true ->
  reserve_slot k = (slot, k') -> 0 <= slot -> Z.to_nat c <> Z.to_nat slot /\ process_at k' c = process_at k c.
Proof.
  intros Hc Hu. assert (0 <= c /\ c = k_current_slot k) as (Hc0 & Ec)
    by (unfold current_process in Hc; destruct ((0 <=? _) && _) eqn:E; [injection Hc; lia|done]).
  unfold reserve_slot, bind, gets. cbn -[first_index first_zombie reset_process_slot].
  destruct (0 <=? first_index _ _ _) eqn:E1.
  - intros [= <- <-] H0. split; [|done]. destruct (first_index_found _ 0 _ _ eq_refl (Z.le_refl 0) H0) as (_ & x & Hx & Px).
    intros Ei. rewrite Z.sub_0_r, <- Ei in Hx. unfold process_at, at_index in Hu. rewrite nth_lookup, Hx in Hu. cbn in Hu.
    by rewrite Hu in Px.
  - destruct (first_zombie _ _ _ <? 0) eqn:E2; [intros [= <- <-]; lia|]. set (z := first_zombie _ _ _) in *.
    destruct (first_zombie_other _ _ _ z eq_refl) as (_ & Hz); [lia..|].
    pose proof (reset_process_slot_table z k) as Ht. destruct (reset_process_slot z k) as [u k2]. intros [= <- <-] _.
    split; [lia|]. eapply process_at_edit; [exact Ht|lia].
Qed.

Lemma steady_run {A} t (m : K A) k a k' : steady m -> m k = (a, k') -> rtc steady_step t (table k) -> rtc steady_step t (table k').
Proof. intros Hm E Ht. etrans; [exact Ht|]. specialize (Hm k). by rewrite E in Hm. Qed.

Lemma steady_at {A} (m : K A) k : steady m -> rtc steady_step (table k) (table (m k).2).
Proof. intros Hm. apply Hm. Qed.

(** The number is nobody's, and stays so. *)
Definition unassigned (pid : Z) (t : Table) : Prop := forall i q, t.1 !! i = Some q -> p_used q = true -> p_pid q <> pid.

Lemma next_unassigned t pid : table_ok t -> t.2 <= pid -> unassigned pid t.
Proof. intros Hok Hpid i q Hi Hu. pose proof (to_pid _ Hok _ _ Hi Hu). lia. Qed.

Lemma steady_unassigned t t' pid : rtc steady_step t t' -> unassigned pid t -> unassigned pid t'.
Proof.
  intros (_ & _ & Hp)%steady_old Hn i q Hi Hu. destruct (Hp i q Hi Hu) as (p & Hp1 & Eu & Epid & _).
  rewrite Epid. apply (Hn i p Hp1). congruence.
Qed.

Lemma s32_number pid : 0 < pid < 2 ^ 31 - 1 -> s32 (pid + 1) = pid + 1.
Proof. intros. unfold swrap. rewrite Z.mod_small; lia. Qed.

Lemma clone_grows (k : Kernel) c share_memory child_stack flags parent_tid child_tid tls :
  current_process k = Some c -> p_used (process_at k c) = true -> table_ok (table k) -> k_next_pid k < 2 ^ 31 - 1 ->
  rtc (grow_step (process_at k c) (k_next_pid k)) (table k)
    (table (clone_current share_memory child_stack flags parent_tid child_tid tls k).2).
Proof.
  intros Hc Hu Hok Hmax. unfold clone_current. rewrite bind_gets, Hc.
  destruct (reserve_slot k) as [slot k1] eqn:E1. rewrite (bind_run _ _ _ _ _ E1).
  pose proof (steady_run (table k) _ _ _ _ steady_reserve_slot E1 ltac:(done)) as S1.
  destruct (slot <? 0) eqn:Es; [by apply grow_of_steady|].
  destruct (reserve_slot_other _ _ _ _ Hc Hu E1) as (Hne & Ep); [lia|].
  destruct (edit_process slot (fun _ => zero_process) k1) as [[] k2] eqn:E2. rewrite (bind_run _ _ _ _ _ E2).
  pose proof (steady_run (table k) _ _ _ _ (steady_clear slot) E2 S1) as S2.
  rewrite bind_gets. assert (process_at k2 c = process_at k c) as ->.
  { rewrite <- Ep. eapply process_at_edit; [by injection E2 as <-|done]. }
  set (parent := process_at k c) in *.
  destruct (clone_space parent share_memory k2) as [pointer k3] eqn:E3. rewrite (bind_run _ _ _ _ _ E3).
  pose proof (steady_run (table k) _ _ _ _ (steady_clone_space _ _) E3 S2) as S3.
  destruct (pointer =? 0); [by apply grow_of_steady|]. rewrite bind_gets. set (pid := k_next_pid k3).
  set (k4 := set_k_next_pid (s32 (pid + 1)) k3). rewrite (bind_run _ _ k3 tt k4); [|done].
  assert (pid = k_next_pid k) as Epid by apply (steady_old _ _ S3).
  assert (unassigned pid (table k4)) as Hfree by (apply (steady_unassigned _ _ _ S3), next_unassigned; [done|cbn; lia]).
  assert (rtc (grow_step parent pid) (table k) (table k4)) as S4.
  { eapply rtc_r; [by apply grow_of_steady|]. apply grow_number; [done|]. unfold k4, table. cbn. rewrite s32_number; [done|].
    pose proof (to_next _ Hok). cbn in *. lia. }
  rewrite <- Epid. destruct (clone_tls parent pointer flags tls k4) as [storage k5] eqn:E5. rewrite (bind_run _ _ _ _ _ E5).
  pose proof (steady_run (table k4) _ _ _ _ (steady_clone_tls _ _ _ _) E5 ltac:(done)) as S5.
  destruct storage as [[[[fs_base mapping] mapping_size] hint]|].
  2: { etrans; [exact S4|]. apply grow_of_steady. etrans; [exact S5|]. apply steady_at. clear. steady. }
  set (raise := if has _ _ && _ && _ && _ then _ else _). destruct (raise k5) as [[] k6] eqn:E6.
  rewrite (bind_run _ _ _ _ _ E6). assert (steady raise) as Hr by (unfold raise; steady).
  pose proof (steady_run (table k4) _ _ _ _ Hr E6 S5) as S6. rewrite bind_gets. cbv zeta.
  unfold edit_process at 1. set (child := mkProcess true _ _ _ _ _ _ _ _ _ _ _ _ _ _ _ _ _ _ _ _ _ _ _).
  set (k7 := set_k_processes (edit_index slot (fun _ => child) (k_processes k6)) k6).
  rewrite (bind_run _ _ k6 tt k7); [|done].
  etrans; [exact S4|]. etrans; [by apply grow_of_steady|]. eapply rtc_l; [|apply grow_of_steady, steady_at; clear; steady].
  assert (k_next_pid k4 = pid + 1) as E4 by (cbn; apply s32_number; pose proof (to_next _ Hok); cbn in *; lia).
  destruct (steady_old _ _ S6) as (_ & Hnext & _). cbn [table snd] in Hnext. rewrite E4 in Hnext. pose proof (to_next _ Hok) as Hpos.
  eapply (grow_enter _ _ (table k6) (table k7) slot child); cbn in *; [done..|lia|lia| |by split].
  exact (steady_unassigned _ _ _ S6 Hfree).
Qed.

Lemma along_of_bind (R : relation Table) {A B} (m : K A) (f : A -> B) k :
  R (table k) (table (m k).2) -> R (table k) (table ((r <- m ;; ret (f r)) k).2).
Proof. unfold bind. by destruct (m k). Qed.

Lemma task_call_grows (k : Kernel) c number a1 a2 a3 a4 a5 a6 :
  current_process k = Some c -> p_used (process_at k c) = true -> table_ok (table k) -> k_next_pid k < 2 ^ 31 - 1 ->
  rtc (grow_step (process_at k c) (k_next_pid k)) (table k)
    (table (task_call c number a1 a2 a3 a4 a5 a6 k).2).
Proof.
  intros Hc Hu Hok Hmax. unfold task_call. rewrite bind_gets. generalize (process_at k c) at 2. intros p.
  repeat match goal with
  | |- context [(if ?b then ?m else _) k] => destruct b;
      [first [apply along_of_bind, clone_grows; done | apply grow_of_steady, steady_at; clear; steady; fail]|]
  end.
  apply grow_of_steady, steady_at. clear. steady.
Qed.

(** Calls that strict seccomp allows start no process. *)
Lemma task_call_confined (k : Kernel) c number a1 a2 a3 a4 a5 a6 : seccomp_allows number = true ->
  rtc steady_step (table k) (table (task_call c number a1 a2 a3 a4 a5 a6 k).2).
Proof.
  intros Ha. unfold task_call. rewrite bind_gets. generalize (process_at k c). intros p.
  unfold seccomp_allows, LINUX_SYS_READ, LINUX_SYS_WRITE, LINUX_SYS_EXIT, LINUX_SYS_EXIT_GROUP, LINUX_SYS_RT_SIGRETURN in Ha.
  repeat match goal with
  | |- context [(if ?b then ?m else _) k] => let E := fresh "E" in destruct b eqn:E;
      [first [exfalso; unfold LINUX_SYS_CLONE, LINUX_SYS_FORK, LINUX_SYS_VFORK in E; clear -Ha E; lia
             |apply steady_at; clear; steady; fail]|clear E]
  end.
  apply steady_at. clear. steady.
Qed.

Lemma syscall_confined (k : Kernel) c number a1 a2 a3 a4 a5 a6 stale :
  current_process k = Some c -> p_seccomp_strict (process_at k c) = true ->
  rtc steady_step (table k) (table (process_handle_linux_syscall number a1 a2 a3 a4 a5 a6 stale k).2).
Proof.
  intros Hc Hs. unfold process_handle_linux_syscall. rewrite bind_gets, Hc.
  set (k1 := set_k_syscall_counter (u64 (k_syscall_counter k + 1)) k). rewrite (bind_run count_syscall _ k tt k1); [|done].
  rewrite bind_gets. change (table k) with (table k1). change (process_at k1 c) with (process_at k c). rewrite Hs.
  destruct (seccomp_allows number) eqn:Ha; [|done]. cbn [andb negb].
  destruct (file_call _ _ _ _ _ _ _) as [m|] eqn:E.
  - apply steady_at. by eapply steady_file_call.
  - apply along_of_bind. by apply task_call_confined.
Qed.

(** A system call by a process in use leaves the numbers of processes positive and unique;
    each process after it is one from before under the same number that has not regained a
    privilege, or has a new number and no privilege that its parent had given up. *)
Lemma syscall_grows (k : Kernel) c number a1 a2 a3 a4 a5 a6 stale :
  current_process k = Some c -> p_used (process_at k c) = true -> table_ok (table k) -> k_next_pid k < 2 ^ 31 - 1 ->
  rtc (grow_step (process_at k c) (k_next_pid k)) (table k)
    (table (process_handle_linux_syscall number a1 a2 a3 a4 a5 a6 stale k).2).
Proof.
  intros Hc Hu Hok Hmax. unfold process_handle_linux_syscall. rewrite bind_gets, Hc.
  set (k1 := set_k_syscall_counter (u64 (k_syscall_counter k + 1)) k). rewrite (bind_run count_syscall _ k tt k1); [|done].
  rewrite bind_gets. change (table k) with (table k1). change (process_at k c) with (process_at k1 c).
  change (k_next_pid k) with (k_next_pid k1). destruct (_ && _); [done|].
  destruct (file_call _ _ _ _ _ _ _) as [m|] eqn:E.
  - apply grow_of_steady, steady_at. by eapply steady_file_call.
  - apply along_of_bind. by apply task_call_grows.
Qed.

End calls.
