(* ===== verification/Scheduler.v ===== *)
(** * The scheduler is fair

    A round takes the first process after the last one that ran.  A round in which a signal
    ends the process does not run anybody, but leaves fewer processes alive; any other round
    brings the turn closer to every process that is waiting for it. *)

From S2P Require Import Prelude Runtime Heap HeapFacts Interfaces Filesystem Vm Process Descriptors Ipc FileCalls MemCalls Tasks ProcessTable.

(** How many processes are alive. *)
Definition live (l : list Process) : Z := Z.of_nat (length (filter (fun p => live_process p = true) l)).

Lemma live_cons p l : live (p :: l) = (if live_process p then 1 else 0) + live l.
Proof. unfold live. rewrite filter_cons. case_decide as E; [rewrite E|apply not_true_is_false in E; rewrite E]; cbn; lia. Qed.

Lemma live_bounds l : 0 <= live l <= Z.of_nat (length l).
Proof. unfold live. pose proof (length_filter (fun p => live_process p = true) l). lia. Qed.

Lemma live_fmap f l : (forall p, live_process (f p) = live_process p) -> live (f <$> l) = live l.
Proof. intros Hf. induction l as [|p l IH]; [done|]. rewrite fmap_cons, !live_cons, Hf. lia. Qed.

Lemma live_alter f i l p : l !! i = Some p -> live_process p = true -> live_process (f p) = false ->
  live (alter f i l) = live l - 1.
Proof.
  intros Hi Hp Hf. revert i Hi. induction l as [|q l IH]; intros [|i] Hi; cbn in Hi; simplify_eq; cbn; rewrite !live_cons.
  - rewrite Hf, Hp. lia.
  - rewrite IH by done. lia.
Qed.

Lemma live_alter_same f i l : (forall p, live_process (f p) = live_process p) -> live (alter f i l) = live l.
Proof.
  intros Hf. revert i. induction l as [|q l IH]; intros [|i]; [done..| |]; cbn; rewrite !live_cons, ?Hf; [done|]. by rewrite IH.
Qed.

(** The number of steps from the last slot that ran to [slot]. *)
Definition distance (last slot : Z) : Z := (slot - last - 1) mod MAX_PROCESSES + 1.

Lemma distance_bounds last slot : 1 <= distance last slot <= MAX_PROCESSES.
Proof. unfold distance, MAX_PROCESSES. pose proof (Z.mod_pos_bound (slot - last - 1) 64). lia. Qed.

Section scheduler.
Context {D H : Type} `{!BlockDevice D} `{!Allocator H}.

Notation Kernel := (@Kernel D H).
Notation K := (st Kernel).

(** [slot] waits for its turn, and no signal is pending that could end it. *)
Record waiting (slot : Z) (k : Kernel) : Prop := {
  wt_slot : 0 <= slot < MAX_PROCESSES;
  wt_length : length (k_processes k) = Z.to_nat MAX_PROCESSES;
  wt_last : -1 <= k_last_slot k < MAX_PROCESSES;
  wt_runnable : runnable k slot = true;
  wt_signals : p_pending_signals (process_at k slot) = 0 }.

(** The operation leaves every process that can run as it is, apart from [x]. *)
Record spares (x : Z) (k k' : Kernel) : Prop := {
  sp_last : k_last_slot k' = k_last_slot k;
  sp_length : length (k_processes k') = length (k_processes k);
  sp_other s : 0 <= s -> s <> x -> runnable k s = true -> process_at k' s = process_at k s }.

Lemma spares_quiet x (k k' : Kernel) : k_last_slot k' = k_last_slot k -> k_processes k' = k_processes k -> spares x k k'.
Proof. intros E1 E2. split; [done|congruence|]. intros. unfold process_at. by rewrite E2. Qed.

Lemma spares_trans x (k1 k2 k3 : Kernel) : spares x k1 k2 -> spares x k2 k3 -> spares x k1 k3.
Proof.
  intros [A1 A2 A3] [B1 B2 B3]. split; [congruence..|]. intros s Hs Hne Hr. rewrite B3; [by apply A3|done..|].
  unfold runnable in *. by rewrite A3.
Qed.

Lemma process_at_lookup (k : Kernel) slot p : 0 <= slot -> k_processes k !! Z.to_nat slot = Some p -> process_at k slot = p.
Proof. intros ? Hp. unfold process_at, at_index. by rewrite nth_lookup, Hp. Qed.

Lemma lookup_process_at (k : Kernel) slot : 0 <= slot < Z.of_nat (length (k_processes k)) ->
  k_processes k !! Z.to_nat slot = Some (process_at k slot).
Proof.
  intros Hs. destruct (lookup_lt_is_Some_2 (k_processes k) (Z.to_nat slot)) as [p Hp]; [lia|].
  by rewrite Hp, (process_at_lookup k slot p) by (lia || done).
Qed.

(** ** The choice *)

Lemma rem_slot last offset : -1 <= last -> 1 <= offset -> 0 <= Z.rem (last + offset) MAX_PROCESSES < MAX_PROCESSES.
Proof. intros. apply Z.rem_bound_pos; unfold MAX_PROCESSES; lia. Qed.

Lemma distance_offset last offset : -1 <= last -> 1 <= offset <= MAX_PROCESSES ->
  distance last (Z.rem (last + offset) MAX_PROCESSES) = offset.
Proof.
  intros. unfold distance, MAX_PROCESSES in *. rewrite Z.rem_mod_nonneg by lia. Z.div_mod_to_equations. lia.
Qed.

Lemma rem_distance last slot : -1 <= last -> 0 <= slot < MAX_PROCESSES ->
  Z.rem (last + distance last slot) MAX_PROCESSES = slot.
Proof.
  intros. pose proof (distance_bounds last slot). unfold distance, MAX_PROCESSES in *. rewrite Z.rem_mod_nonneg by lia.
  Z.div_mod_to_equations. lia.
Qed.

(** The slot chosen can run and comes no later than any that can. *)
Lemma select_slot_first n offset (k : Kernel) slot : -1 <= k_last_slot k -> 1 <= offset ->
  0 <= slot < MAX_PROCESSES -> runnable k slot = true -> offset <= distance (k_last_slot k) slot < offset + Z.of_nat n ->
  exists chosen, select_slot n offset k = chosen /\ 0 <= chosen < MAX_PROCESSES /\ runnable k chosen = true /\
    distance (k_last_slot k) chosen <= distance (k_last_slot k) slot.
Proof.
  intros Hl. revert offset. induction n as [|n IH]; intros offset Ho Hs Hr Hd; [lia|]. cbn [select_slot]. cbv zeta.
  pose proof (distance_bounds (k_last_slot k) slot). destruct (runnable k (Z.rem _ _)) eqn:E.
  - eexists. split_and!; [done|by apply rem_slot|by apply rem_slot|done|]. rewrite distance_offset; lia.
  - destruct (decide (offset = distance (k_last_slot k) slot)) as [->|Hne]; [by rewrite rem_distance, Hr in E|].
    apply IH; lia || done.
Qed.

(** ** A round *)

Lemma distance_closer last chosen slot : -1 <= last -> 0 <= slot < MAX_PROCESSES -> 0 <= chosen < MAX_PROCESSES -> chosen <> slot ->
  distance last chosen <= distance last slot -> distance chosen slot < distance last slot.
Proof.
  unfold distance, MAX_PROCESSES in *. Z.div_mod_to_equations. lia.
Qed.

Lemma edit_spares x f (k : Kernel) : 0 <= x -> spares x k (edit_process x f k).2.
Proof.
  intros Hx. split; [done|apply length_alter|]. intros s Hs Hne _. unfold process_at, at_index, edit_process, edit_index. cbn.
  rewrite !nth_lookup. rewrite list_lookup_alter_ne by lia. done.
Qed.

Lemma fmap_spares x f (k : Kernel) : (forall p, p_state p = PROCESS_RUNNING -> f p = p) ->
  spares x k (set_k_processes (f <$> k_processes k) k).
Proof.
  intros Hf. split; [done|apply length_fmap|]. intros s Hs _ Hr. unfold runnable, process_at, at_index in *. cbn.
  rewrite !nth_lookup in *. rewrite list_lookup_fmap. destruct (k_processes k !! _) as [p|]; [|done]. cbn in *. apply Hf. lia.
Qed.

Lemma copy_to_user_turn slot destination source (k : Kernel) :
  k_processes (copy_to_user slot destination source k).2 = k_processes k /\
  k_last_slot (copy_to_user slot destination source k).2 = k_last_slot k.
Proof.
  unfold copy_to_user, on_user, bind, gets, on_space_at. cbn. destruct (k_spaces k !! _); [|done].
  by destruct (vm_copy_to_user _ _ _).
Qed.

(** What [finish_process] leaves of the table. *)
Lemma finish_process_turn x code (k : Kernel) : exists pointer address, let k' := (finish_process x code k).2 in
  k_last_slot k' = k_last_slot k /\
  k_processes k' = (fun q => if waits_at pointer address q then set_p_state PROCESS_RUNNING q else q) <$>
    edit_index x (fun p => set_p_state PROCESS_ZOMBIE (set_p_exit_code code p)) (k_processes k).
Proof.
  unfold finish_process, edit_process. rewrite bind_modify. set (k1 := set_k_processes _ k). rewrite bind_gets.
  set (p := process_at k1 x). exists (p_address_space p), (p_clear_child_tid p). destruct (p_clear_child_tid p =? 0); [done|].
  destruct (copy_to_user_turn x (p_clear_child_tid p) (le 4 0) k1) as [E1 E2]. cbv zeta. unfold bind.
  destruct (copy_to_user _ _ _ k1) as [b k2]. cbn in *. by rewrite E1, E2.
Qed.

Lemma waits_wake_live pointer address q :
  live_process (if waits_at pointer address q then set_p_state PROCESS_RUNNING q else q) = live_process q.
Proof.
  destruct (waits_at _ _ _) eqn:E; [|done]. unfold waits_at, live_process, PROCESS_BLOCKED_FUTEX, PROCESS_ZOMBIE in *. cbn.
  destruct (p_used q); [|done]. cbn in *. lia.
Qed.

Lemma finish_process_spares x code (k : Kernel) : 0 <= x -> spares x k (finish_process x code k).2.
Proof.
  intros Hx. destruct (finish_process_turn x code k) as (pointer & address & El & Ep).
  set (k1 := (edit_process x (fun p => set_p_state PROCESS_ZOMBIE (set_p_exit_code code p)) k).2).
  set (wakes := fun q => if waits_at pointer address q then set_p_state PROCESS_RUNNING q else q) in Ep.
  eapply spares_trans; [by apply edit_spares|]. eapply spares_trans; [apply (fmap_spares x wakes k1)|by apply spares_quiet].
  intros p Hp. unfold wakes, waits_at. rewrite Hp. by destruct (p_used p).
Qed.

Lemma finish_process_live x code (k : Kernel) : 0 <= x < Z.of_nat (length (k_processes k)) -> runnable k x = true ->
  live (k_processes (finish_process x code k).2) = live (k_processes k) - 1.
Proof.
  intros Hx Hr. destruct (finish_process_turn x code k) as (pointer & address & _ & ->).
  rewrite live_fmap by apply waits_wake_live. apply (live_alter _ _ _ (process_at k x)); [by apply lookup_process_at|..].
  - unfold runnable in Hr. unfold live_process. unfold PROCESS_ZOMBIE, PROCESS_RUNNING in *. destruct (p_used _); [cbn in *; lia|done].
  - unfold live_process. cbn. apply andb_false_r.
Qed.

(** The effect of a signal on [x]: it goes on, or it has ended. *)
Definition signalled (x : Z) (k k' : Kernel) : Prop := spares x k k' /\
  (p_state (process_at k' x) = PROCESS_RUNNING \/ live (k_processes k') = live (k_processes k) - 1).

(** [k'] differs from [k] only in parts of [x] that do not matter to the scheduler. *)
Definition adjusted (x : Z) (k k' : Kernel) : Prop := spares x k k' /\
  p_state (process_at k' x) = p_state (process_at k x) /\ p_used (process_at k' x) = p_used (process_at k x) /\
  live (k_processes k') = live (k_processes k).

Lemma adjusted_quiet x (k k' : Kernel) : k_processes k' = k_processes k /\ k_last_slot k' = k_last_slot k -> adjusted x k k'.
Proof. intros [E1 E2]. split; [by apply spares_quiet|]. unfold process_at. by rewrite E1. Qed.

Lemma adjusted_trans x (k1 k2 k3 : Kernel) : adjusted x k1 k2 -> adjusted x k2 k3 -> adjusted x k1 k3.
Proof. intros (A1 & A2 & A3 & A4) (B1 & B2 & B3 & B4). split; [by eapply spares_trans|split_and!; congruence]. Qed.

Lemma adjusted_edit x f (k : Kernel) : 0 <= x < Z.of_nat (length (k_processes k)) ->
  (forall p, p_state (f p) = p_state p /\ p_used (f p) = p_used p) -> adjusted x k (edit_process x f k).2.
Proof.
  intros Hx Hf. assert (process_at (edit_process x f k).2 x = f (process_at k x)) as E.
  { apply process_at_lookup; [lia|]. cbn. unfold edit_index. rewrite list_lookup_alter, decide_True by done.
    by rewrite (lookup_process_at k x Hx). }
  split; [apply edit_spares; lia|]. rewrite E. destruct (Hf (process_at k x)) as [-> ->]. split_and!; [done..|].
  apply live_alter_same. intros p. unfold live_process. by destruct (Hf p) as [-> ->].
Qed.

Lemma adjusted_goes_on x (k k' : Kernel) : adjusted x k k' -> runnable k x = true -> signalled x k k'.
Proof. intros (Hs & Es & _ & _) Hr. split; [done|]. left. rewrite Es. unfold runnable in Hr. lia. Qed.

Lemma adjusted_ends x code (k k' : Kernel) : adjusted x k k' -> 0 <= x < Z.of_nat (length (k_processes k)) ->
  runnable k x = true -> signalled x k (finish_process x code k').2.
Proof.
  intros (Hs & Es & Eu & El) Hx Hr. split; [eapply spares_trans; [done|apply finish_process_spares; lia]|]. right.
  rewrite <- El. apply finish_process_live; [by rewrite (sp_length _ _ _ Hs)|]. unfold runnable in *. by rewrite Es, Eu.
Qed.

Lemma deliver_signal_spares x (k : Kernel) : 0 <= x < Z.of_nat (length (k_processes k)) -> runnable k x = true ->
  signalled x k (deliver_signal x k).2.
Proof.
  intros Hx Hr. unfold deliver_signal. rewrite bind_gets. set (p := process_at k x).
  assert (adjusted x k k) as A0 by by apply adjusted_quiet.
  destruct (_ || _); [by apply adjusted_goes_on|]. cbv zeta. set (signal := pending_signal _ _ _).
  destruct (32 <=? signal); [by apply adjusted_goes_on|].
  set (clears := fun p => set_p_pending_signals (Z.ldiff (p_pending_signals p) (Z.shiftl 1 signal)) p).
  destruct (edit_process x clears k) as [[] k1] eqn:E1. rewrite (bind_run _ _ _ _ _ E1).
  assert (adjusted x k k1) as A1. { change k1 with ((tt, k1).2). rewrite <- E1. by apply adjusted_edit. }
  destruct (_ =? 1); [by apply adjusted_goes_on|]. destruct (_ =? 0); [by apply adjusted_ends|].
  set (stack := align_down _). set (frame := le 8 SIGNAL_MAGIC ++ _). set (restorer := le 8 _).
  destruct (copy_to_user x (u64 (stack + 8)) frame k1) as [framed k2] eqn:E2. rewrite (bind_run _ _ _ _ _ E2).
  assert (adjusted x k k2) as A2.
  { eapply adjusted_trans; [exact A1|]. apply adjusted_quiet.
    pose proof (copy_to_user_turn x (u64 (stack + 8)) frame k1) as Hc. by rewrite E2 in Hc. }
  set (returning := if framed then _ else _). destruct (returning k2) as [returns k3] eqn:E3. rewrite (bind_run _ _ _ _ _ E3).
  assert (adjusted x k k3) as A3.
  { eapply adjusted_trans; [exact A2|]. apply adjusted_quiet. unfold returning in E3. destruct framed; [|by injection E3 as <- <-].
    pose proof (copy_to_user_turn x stack restorer k2) as Hc. by rewrite E3 in Hc. }
  destruct (negb returns); [by apply adjusted_ends|]. apply adjusted_goes_on; [|done]. eapply adjusted_trans; [exact A3|].
  apply adjusted_edit; [|done]. by rewrite (sp_length _ _ _ (proj1 A3)).
Qed.

(** ** Fairness *)

Lemma spares_waiting x slot (k k' : Kernel) : spares x k k' -> slot <> x -> waiting slot k -> waiting slot k'.
Proof.
  intros [S1 S2 S3] Hne [W1 W2 W3 W4 W5]. assert (process_at k' slot = process_at k slot) as E by (apply S3; [lia|done..]).
  split; [done|congruence|congruence| |congruence]. unfold runnable in *. by rewrite E.
Qed.

Lemma wake_timers_spares x (k : Kernel) :
  spares x k (wake_timers k).2 /\ live (k_processes (wake_timers k).2) = live (k_processes k).
Proof.
  set (f := fun p => if expired (k_scheduler_ticks k) p then set_p_wake_tick 0 (set_p_state PROCESS_RUNNING p) else p). split.
  - apply (fmap_spares x f k). intros p Hp. unfold f, expired. rewrite Hp. by rewrite andb_false_r.
  - apply (live_fmap f). intros p. unfold f. destruct (expired _ p) eqn:E; [|done]. unfold expired in E. unfold live_process. cbn.
    unfold PROCESS_ZOMBIE, PROCESS_BLOCKED_FUTEX, PROCESS_BLOCKED_SLEEP in *. destruct (p_used p); cbn in *; lia || done.
Qed.

Section fair.
Context (run : Z -> K unit) (slot : Z).

(** While others run, [slot] stays ready and nobody meddles with the turn. *)
Hypothesis run_others : forall x k, x <> slot -> waiting slot k ->
  waiting slot (run x k).2 /\ k_last_slot (run x k).2 = k_last_slot k.

Fixpoint rounds (n : nat) (k : Kernel) : Kernel :=
  match n with
  | O => k
  | S n => rounds n (process_schedule run k).2
  end.

Definition turns (k : Kernel) : Z := distance (k_last_slot k) slot * (MAX_PROCESSES + 1) + live (k_processes k).

(** The part of a round after the choice of [x]. *)
Definition turn_of (x : Z) : K unit :=
  deliver_signal x ;;;
  p <- gets (fun k => process_at k x) ;;
  if negb (p_state p =? PROCESS_RUNNING) then ret tt else
  modify (fun k => set_k_context (p_context p) (set_k_last_slot x (set_k_current_slot x k))) ;;;
  run x ;;;
  modify (fun k => set_k_current_slot (-1)
    (set_k_processes (edit_index x (set_p_context (k_context k)) (k_processes k)) k)).

(** What the scheduler does once the process gives way: its registers are kept. *)
Definition given_way (x : Z) (k : Kernel) : Kernel :=
  set_k_current_slot (-1) (set_k_processes (edit_index x (set_p_context (k_context k)) (k_processes k)) k).

(** The round from [k] runs the process [x], with the registers that were kept for it. *)
Definition runs (x : Z) (k : Kernel) : Prop := exists k', k_current_slot k' = x /\ k_processes k' = k_processes (wake_timers k).2 /\
  k_context k' = p_context (process_at k' x) /\ (process_schedule run k).2 = given_way x (run x k').2.

Lemma turn_self k : waiting slot k -> exists k', k_current_slot k' = slot /\ k_processes k' = k_processes k /\
  k_context k' = p_context (process_at k' slot) /\ (turn_of slot k).2 = given_way slot (run slot k').2.
Proof.
  intros [W1 W2 W3 W4 W5]. unfold turn_of. rewrite (bind_run _ _ _ tt k).
  2: { unfold deliver_signal. by rewrite bind_gets, W5. }
  rewrite bind_gets. unfold runnable in W4. destruct (negb _) eqn:E; [lia|]. rewrite bind_modify. set (k1 := set_k_context _ _).
  exists k1. split_and!; [done..|]. unfold bind. by destruct (run slot k1) as [[] k2].
Qed.

Lemma turn_other x k : waiting slot k -> x <> slot -> 0 <= x < MAX_PROCESSES -> runnable k x = true ->
  distance (k_last_slot k) x <= distance (k_last_slot k) slot ->
  let k' := (turn_of x k).2 in waiting slot k' /\ turns k' < turns k.
Proof.
  intros W Hne Hx Hrx Hd. unfold turn_of. destruct (deliver_signal x k) as [[] k1] eqn:E1. rewrite (bind_run _ _ _ _ _ E1), bind_gets.
  assert (0 <= x < Z.of_nat (length (k_processes k))) as Hx' by (rewrite (wt_length _ _ W); unfold MAX_PROCESSES in *; lia).
  destruct (deliver_signal_spares x k Hx' Hrx) as [S1 L1]. rewrite E1 in S1, L1. cbn in S1, L1.
  assert (waiting slot k1) as W1 by (eapply spares_waiting; [exact S1|congruence|done]). destruct (negb _) eqn:En.
  { destruct L1 as [L1|L1]; [rewrite L1 in En; done|]. split; [exact W1|]. unfold turns. cbn. rewrite (sp_last _ _ _ S1), L1. lia. }
  rewrite bind_modify. set (k2 := set_k_context _ _).
  assert (waiting slot k2) as W2. { destruct W1. split; try done. cbn. lia. }
  destruct (run_others x k2 Hne W2) as [W3 L3]. destruct (run x k2) as [[] k3] eqn:E3. rewrite (bind_run _ _ _ _ _ E3). cbn in W3, L3.
  set (k4 := (edit_process x (set_p_context (k_context k3)) k3).2).
  assert (waiting slot k4) as W4 by (eapply (spares_waiting x); [apply edit_spares; lia|congruence|done]).
  split; [destruct W4; by split|]. pose proof (live_bounds (k_processes k4)) as B. rewrite (wt_length _ _ W4) in B.
  pose proof (live_bounds (k_processes k)) as B0. unfold turns. cbn [k_last_slot modify snd set_k_current_slot set_k_processes].
  change (k_processes (set_k_current_slot _ _)) with (k_processes k4). rewrite L3. cbn [k2 k_last_slot set_k_context set_k_last_slot].
  pose proof (distance_closer (k_last_slot k) x slot). destruct (wt_last _ _ W), (wt_slot _ _ W). unfold MAX_PROCESSES in *. nia.
Qed.

Lemma schedule_round k : waiting slot k -> let k' := (process_schedule run k).2 in
  runs slot k \/ (waiting slot k' /\ turns k' < turns k).
Proof.
  intros W. unfold process_schedule. destruct (wake_timers k) as [[] k1] eqn:E1. rewrite (bind_run _ _ _ _ _ E1), bind_gets.
  destruct (wake_timers_spares (-1) k) as [S1 L1]. rewrite E1 in S1, L1. cbn in S1, L1.
  assert (waiting slot k1) as W1 by (eapply spares_waiting; [exact S1|pose proof (wt_slot _ _ W); lia|done]).
  assert (turns k1 = turns k) as <- by (unfold turns; by rewrite (sp_last _ _ _ S1), L1).
  pose proof (distance_bounds (k_last_slot k1) slot) as Bd.
  destruct (select_slot_first (Z.to_nat MAX_PROCESSES) 1 k1 slot) as (x & Esel & Hx & Hrx & Hd);
    [apply W1|lia|apply W1|apply W1|lia|]. rewrite Esel.
  destruct (x <? 0) eqn:Ex; [lia|]. destruct (decide (x = slot)) as [->|Hne]; [|right; by apply (turn_other x k1)].
  left. destruct (turn_self k1 W1) as (k2 & C1 & C2 & C3 & C4). exists k2. rewrite E1. split_and!; [done..|].
  rewrite <- C4. unfold process_schedule. rewrite (bind_run _ _ _ _ _ E1), bind_gets. by rewrite Esel, Ex.
Qed.

Lemma rounds_reach (n : nat) k : waiting slot k -> turns k <= Z.of_nat n ->
  exists m, (m < n)%nat /\ runs slot (rounds m k).
Proof.
  revert k. induction n as [|n IH]; intros k W Hn.
  { pose proof (distance_bounds (k_last_slot k) slot). pose proof (live_bounds (k_processes k)). unfold turns, MAX_PROCESSES in *. nia. }
  destruct (schedule_round k W) as [E|[W' Hl]]; [exists 0%nat; split; [lia|exact E]|].
  destruct (IH _ W') as (m & Hm & E); [lia|]. exists (S m). split; [lia|exact E].
Qed.

Lemma turns_bound k : waiting slot k -> turns k <= Z.of_nat 4224.
Proof.
  intros W. pose proof (distance_bounds (k_last_slot k) slot). pose proof (live_bounds (k_processes k)) as B.
  rewrite (wt_length _ _ W) in B. unfold turns, MAX_PROCESSES in *. lia.
Qed.

End fair.

End scheduler.
