(* ===== verification/Rings.v ===== *)
(** * Pipes and sockets are bounded queues

    The ring of an [IpcQueue] holds the bytes from its read offset on; writing adds bytes
    behind them and reading takes bytes from the front. *)

From S2P Require Import Prelude Runtime Heap HeapFacts Interfaces Filesystem Vm Process Descriptors Ipc ProcessTable.

Definition ring_byte (q : IpcQueue) (i : nat) : Z := at_index 0 (q_data q) ((q_read_offset q + Z.of_nat i) mod IPC_BUFFER_SIZE).

(** The bytes that wait in the queue, the oldest first. *)
Definition queued (q : IpcQueue) : list Z := ring_byte q <$> seq 0 (Z.to_nat (q_count q)).

Record ring_ok (q : IpcQueue) : Prop := {
  ro_data : length (q_data q) = Z.to_nat IPC_BUFFER_SIZE;
  ro_read : 0 <= q_read_offset q < IPC_BUFFER_SIZE;
  ro_count : 0 <= q_count q <= IPC_BUFFER_SIZE;
  ro_write : q_write_offset q = (q_read_offset q + q_count q) mod IPC_BUFFER_SIZE }.

Lemma zero_queue_ok : ring_ok zero_queue.
Proof. split; cbn; try done; unfold IPC_BUFFER_SIZE; lia. Qed.

Lemma queued_length q : 0 <= q_count q -> Z.of_nat (length (queued q)) = q_count q.
Proof. intros. unfold queued. rewrite length_fmap, length_seq. lia. Qed.

Lemma at_index_edit_ne {A} (zero : A) i f l j : Z.to_nat j <> Z.to_nat i -> at_index zero (edit_index i f l) j = at_index zero l j.
Proof. intros. unfold at_index, edit_index. rewrite !nth_lookup, list_lookup_alter_ne; done. Qed.

Lemma at_index_edit_eq {A} (zero : A) i f l : (Z.to_nat i < length l)%nat ->
  at_index zero (edit_index i f l) i = f (at_index zero l i).
Proof.
  intros Hi. unfold at_index, edit_index. rewrite !nth_lookup, list_lookup_alter, decide_True by done.
  by destruct (lookup_lt_is_Some_2 l _ Hi) as [x ->].
Qed.

(** ** Writing *)

Definition push (b : Z) (q : IpcQueue) : IpcQueue :=
  mkQueue (edit_index (q_write_offset q) (fun _ => b) (q_data q)) (q_read_offset q)
    ((q_write_offset q + 1) mod IPC_BUFFER_SIZE) (q_count q + 1).

Lemma push_ok b q : ring_ok q -> q_count q < IPC_BUFFER_SIZE -> ring_ok (push b q) /\ queued (push b q) = queued q ++ [b].
Proof.
  intros [R1 R2 R3 R4] Hc. split.
  - split; cbn; [unfold edit_index; by rewrite length_alter|done|lia|]. rewrite R4, Zplus_mod_idemp_l. f_equal. lia.
  - unfold queued. cbn [q_count push]. replace (Z.to_nat (q_count q + 1)) with (S (Z.to_nat (q_count q))) by lia.
    rewrite seq_S, fmap_app. f_equal.
    + apply list_fmap_ext. intros i j [-> Hj]%lookup_seq. unfold ring_byte, push. cbn [q_data q_read_offset].
      apply at_index_edit_ne. rewrite R4. unfold IPC_BUFFER_SIZE in *. Z.div_mod_to_equations. lia.
    + cbn [fmap list_fmap]. f_equal. unfold ring_byte, push. cbn [q_data q_read_offset]. replace (Z.of_nat _) with (q_count q) by lia.
      rewrite <- R4.
      apply (at_index_edit_eq 0 (q_write_offset q) (fun _ => b)).
      rewrite R1, R4. unfold IPC_BUFFER_SIZE in *. Z.div_mod_to_equations. lia.
Qed.

Lemma queue_put_count buffer c q : queue_put buffer (set_q_count c q) = set_q_count c (queue_put buffer q).
Proof. revert q. induction buffer as [|b buffer IH]; intros q; [done|]. cbn. by rewrite <- IH. Qed.

Lemma queue_put_keeps buffer q : q_count (queue_put buffer q) = q_count q.
Proof. revert q. induction buffer as [|b buffer IH]; intros q; [done|]. cbn. by rewrite IH. Qed.

Lemma queue_put_ok buffer q : ring_ok q -> q_count q + Z.of_nat (length buffer) <= IPC_BUFFER_SIZE ->
  let q' := set_q_count (q_count q + Z.of_nat (length buffer)) (queue_put buffer q) in
  ring_ok q' /\ queued q' = queued q ++ buffer.
Proof.
  revert q. induction buffer as [|b buffer IH]; intros q Hq Hl; cbn [queue_put length] in *.
  - rewrite Z.add_0_r, app_nil_r. by destruct q.
  - destruct (push_ok b q Hq) as [Hp Ep]; [lia|]. destruct (IH (push b q) Hp) as [Hr Er]; [cbn; lia|].
    assert (queue_put buffer (push b q) = set_q_count (q_count q + 1) (queue_put buffer (mkQueue
      (edit_index (q_write_offset q) (fun _ => b) (q_data q)) (q_read_offset q)
      ((q_write_offset q + 1) mod IPC_BUFFER_SIZE) (q_count q)))) as E by (rewrite <- queue_put_count; done).
    rewrite E in Hr, Er. cbn in Hr, Er. replace (q_count q + Z.of_nat (S (length buffer))) with
      (q_count q + 1 + Z.of_nat (length buffer)) by lia.
    split; [exact Hr|]. etrans; [exact Er|]. by rewrite Ep, <- app_assoc.
Qed.

(** ** Reading *)

Lemma queue_take_eq n q : 0 <= q_read_offset q < IPC_BUFFER_SIZE ->
  queue_take n q = (ring_byte q <$> seq 0 n, set_q_read_offset ((q_read_offset q + Z.of_nat n) mod IPC_BUFFER_SIZE) q).
Proof.
  revert q. induction n as [|n IH]; intros q Hq; cbn [queue_take].
  - rewrite Z.add_0_r, Z.mod_small by done. by destruct q.
  - rewrite IH by (cbn; apply Z.mod_pos_bound; done). cbn. f_equal; [f_equal|].
    + unfold ring_byte. cbn. by rewrite Z.add_0_r, Z.mod_small.
    + rewrite <- fmap_S_seq, <- list_fmap_compose. apply list_fmap_ext. intros i j _. unfold ring_byte.
      cbn -[at_index Z.of_nat]. rewrite Zplus_mod_idemp_l. f_equal. f_equal. lia.
    + unfold set_q_read_offset. cbn. f_equal. rewrite Zplus_mod_idemp_l. f_equal. lia.
Qed.

Lemma queue_take_ok n q : ring_ok q -> Z.of_nat n <= q_count q ->
  let '(l, q1) := queue_take n q in let q' := set_q_count (q_count q - Z.of_nat n) q1 in
  ring_ok q' /\ length l = n /\ queued q = l ++ queued q'.
Proof.
  intros [R1 R2 R3 R4] Hn. rewrite queue_take_eq by done. cbv zeta. split_and!.
  - split; cbn; [done|apply Z.mod_pos_bound; done|lia|]. rewrite R4, Zplus_mod_idemp_l. f_equal. lia.
  - by rewrite length_fmap, length_seq.
  - unfold queued. cbn [q_count set_q_count set_q_read_offset].
    replace (Z.to_nat (q_count q)) with (n + Z.to_nat (q_count q - Z.of_nat n))%nat at 1 by lia.
    rewrite seq_app, fmap_app. f_equal. replace (0 + n)%nat with (n + 0)%nat by lia. rewrite <- (fmap_add_seq n 0), <- list_fmap_compose.
    apply list_fmap_ext. intros i j _. unfold ring_byte. cbn -[at_index Z.of_nat]. rewrite Zplus_mod_idemp_l. f_equal. f_equal. lia.
Qed.

Section transfers.
Context {D H : Type} `{!BlockDevice D} `{!Allocator H}.

Notation Kernel := (@Kernel D H).
Notation K := (st Kernel).

Implicit Types k : Kernel.

(** ** Queues in the kernel *)

Definition queue_valid (k : Kernel) (r : QueueRef) : Prop :=
  match r with
  | PipeQueue i => 0 <= i < Z.of_nat (length (k_pipe_objects k))
  | SocketQueue i e => 0 <= i < Z.of_nat (length (k_socket_pairs k)) /\ 0 <= e < Z.of_nat (length (us_incoming (pair_at k i)))
  end.

(** What processes see of their memory. *)
Definition memory (k : Kernel) := (k_world k, k_spaces k, k_processes k).

(** Everything but the queue [r] is as before. *)
Definition only_queue (r : QueueRef) (k k' : Kernel) : Prop :=
  forall r', queue_valid k r' -> queue_valid k' r' /\ (r' <> r -> queue_at k' r' = queue_at k r').

Lemma only_queue_refl r k k' : k_pipe_objects k' = k_pipe_objects k -> k_socket_pairs k' = k_socket_pairs k -> only_queue r k k'.
Proof.
  intros E1 E2 r'. unfold queue_valid, queue_at, pipe_at, pair_at. rewrite E1, E2. destruct r'; done.
Qed.

Lemma only_queue_trans r k1 k2 k3 : only_queue r k1 k2 -> only_queue r k2 k3 -> only_queue r k1 k3.
Proof.
  intros A B r' Hr. destruct (A r' Hr) as [V2 E2]. destruct (B r' V2) as [V3 E3]. split; [done|]. intros Hne. by rewrite E3, E2.
Qed.

Lemma edit_queue_at r f k : queue_valid k r -> queue_at (edit_queue r f k).2 r = f (queue_at k r).
Proof.
  destruct r as [i|i e]; cbn -[at_index edit_index pair_at]; unfold pipe_at, pair_at; cbn -[at_index edit_index].
  - intros Hi. rewrite at_index_edit_eq by lia. done.
  - intros [Hi He]. rewrite at_index_edit_eq by lia. cbn -[at_index edit_index]. rewrite at_index_edit_eq; [done|lia].
Qed.

Lemma edit_queue_only r f k : queue_valid k r -> only_queue r k (edit_queue r f k).2 /\ memory (edit_queue r f k).2 = memory k.
Proof.
  intros Hr. split; [|by destruct r]. intros r' Hr'. destruct r as [i|i e], r' as [i'|i' e'];
    cbn -[at_index edit_index pair_at] in *; unfold pipe_at, pair_at in *; cbn -[at_index edit_index] in *.
  - unfold edit_index. rewrite length_alter. split; [lia|]. intros Hne. f_equal. apply at_index_edit_ne. intros E. apply Hne. f_equal. lia.
  - done.
  - done.
  - unfold edit_index at 1. rewrite length_alter. destruct (decide (i' = i)) as [->|Hne].
    + rewrite at_index_edit_eq by lia. cbn -[at_index edit_index]. unfold edit_index at 1. rewrite length_alter. split; [done|]. intros Hne.
      apply at_index_edit_ne. intros E. apply Hne. f_equal. lia.
    + rewrite at_index_edit_ne by lia. done.
Qed.

(** ** Bytes from and to user memory, piece by piece *)

Inductive fetched (slot source : Z) (k : Kernel) : Z -> list Z -> Prop :=
| fetched_nil d : fetched slot source k d []
| fetched_app d chunk rest :
    (copy_from_user slot (u64 (source + d)) (length chunk) k).1 = Some chunk ->
    fetched slot source k (d + Z.of_nat (length chunk)) rest -> fetched slot source k d (chunk ++ rest).

Inductive delivered (slot destination : Z) : Z -> list Z -> Kernel -> Kernel -> Prop :=
| delivered_nil d k k' : memory k' = memory k -> delivered slot destination d [] k k'
| delivered_app d chunk rest k k1 k2 k' : memory k1 = memory k ->
    copy_to_user slot (u64 (destination + d)) chunk k1 = (true, k2) ->
    delivered slot destination (d + Z.of_nat (length chunk)) rest k2 k' ->
    delivered slot destination d (chunk ++ rest) k k'.

Lemma copy_from_user_pure slot a n k : (copy_from_user slot a n k).2 = k.
Proof.
  unfold copy_from_user, on_user, bind, gets, on_space_at. cbn. destruct (k_spaces k !! _) as [x|] eqn:E; [|done]. cbn.
  assert (set_as_vm (as_vm x) x = x) as -> by by destruct x. rewrite insert_id by done. by destruct k.
Qed.

Lemma copy_from_user_memory slot a n k k' : memory k' = memory k -> (copy_from_user slot a n k').1 = (copy_from_user slot a n k).1.
Proof.
  intros [= E1 E2 E3]. unfold copy_from_user, on_user, bind, gets, on_space_at, process_at. cbn. rewrite E1, E2, E3.
  by destruct (k_spaces k !! _).
Qed.

Lemma fetched_memory slot source k k' d l : memory k' = memory k -> fetched slot source k' d l -> fetched slot source k d l.
Proof. intros E. induction 1; constructor; [|done]. by erewrite <- copy_from_user_memory. Qed.

(** Copies from the memory of [slot] are as long as asked for. *)
Definition full_copies (slot : Z) (k : Kernel) : Prop := forall a n l, 0 <= a < 2 ^ 64 ->
  (copy_from_user slot a n k).1 = Some l -> length l = n.

Lemma full_copies_memory slot k k' : memory k' = memory k -> full_copies slot k -> full_copies slot k'.
Proof. intros E Hf a n l Ha. rewrite (copy_from_user_memory _ _ _ _ _ E). by apply Hf. Qed.

(** ** Writing *)

(** [k'] is [k] with [sent] written to the queue. *)
Definition written (slot source : Z) (r : QueueRef) (d : Z) (sent : list Z) (k k' : Kernel) : Prop :=
  ring_ok (queue_at k' r) /\ queued (queue_at k' r) = queued (queue_at k r) ++ sent /\
  only_queue r k k' /\ memory k' = memory k /\ fetched slot source k d sent.

Lemma queue_write_loop_ok fuel slot r source count completed k :
  full_copies slot k -> queue_valid k r -> ring_ok (queue_at k r) -> 0 <= completed <= count ->
  count - completed <= Z.of_nat fuel -> q_count (queue_at k r) + (count - completed) <= IPC_BUFFER_SIZE ->
  let '(w, k') := queue_write_loop fuel slot r source count completed k in
  exists sent, written slot source r completed sent k k' /\
    (w = count /\ Z.of_nat (length sent) = count - completed \/
     w = linux_error LINUX_EFAULT /\ Z.of_nat (length sent) < count - completed).
Proof.
  assert (forall k, ring_ok (queue_at k r) -> written slot source r completed [] k k) as Hnil.
  { intros k0 Hr. split_and!; [done|by rewrite app_nil_r|by apply only_queue_refl|done|constructor]. } revert Hnil.
  revert completed k. induction fuel as [|fuel IH]; intros completed k Hnil Hf Hv Hr Hc Hfuel Hroom; cbn [queue_write_loop].
  { exists []. split; [by apply Hnil|]. left. cbn. split; [done|]. lia. }
  destruct (negb (completed <? count)) eqn:Ec. { exists []. split; [by apply Hnil|]. left. cbn. split; [done|lia]. }
  cbv zeta. set (chunk := Z.min (count - completed) 256). set (address := u64 (source + completed)).
  destruct (copy_from_user slot address (Z.to_nat chunk) k) as [buffer k0] eqn:E0. rewrite (bind_run _ _ _ _ _ E0).
  pose proof (copy_from_user_pure slot address (Z.to_nat chunk) k) as Hk0. rewrite E0 in Hk0. cbn in Hk0. subst k0.
  destruct buffer as [buffer|]; [|exists []; split; [by apply Hnil|]; right; cbn; split; [done|lia]].
  assert (length buffer = Z.to_nat chunk) as Hl.
  { apply (Hf address (Z.to_nat chunk) buffer); [unfold address, wrap; apply Z.mod_pos_bound; lia|by rewrite E0]. }
  set (f := fun q => let q := queue_put buffer q in set_q_count (u32 (q_count q + chunk)) q).
  destruct (edit_queue r f k) as [[] k1] eqn:E1. rewrite (bind_run _ _ _ _ _ E1).
  assert (k1 = (edit_queue r f k).2) as Ek1 by by rewrite E1.
  destruct (edit_queue_only r f k Hv) as [O1 M1]. pose proof (edit_queue_at r f k Hv) as Q1. rewrite <- Ek1 in O1, M1, Q1.
  destruct (queue_put_ok buffer (queue_at k r) Hr) as [Hr1 Hc1]; [lia|].
  assert (f (queue_at k r) = set_q_count (q_count (queue_at k r) + Z.of_nat (length buffer)) (queue_put buffer (queue_at k r))) as Ef.
  { unfold f. cbv zeta. rewrite queue_put_keeps. f_equal. rewrite Hl. destruct Hr as [_ _ Hrc _]. unfold wrap, IPC_BUFFER_SIZE in *.
    rewrite Z.mod_small; lia. }
  rewrite Ef in Q1. rewrite <- Q1 in Hr1, Hc1.
  specialize (IH (completed + chunk) k1). destruct (queue_write_loop fuel slot r source count (completed + chunk) k1) as [w k'].
  destruct IH as (sent & (W1 & W2 & W3 & W4 & W5) & Hw).
  - intros k0 Hr0. split_and!; [done|by rewrite app_nil_r|by apply only_queue_refl|done|constructor].
  - by eapply full_copies_memory.
  - by apply O1.
  - done.
  - lia.
  - lia.
  - rewrite Q1. cbn. lia.
  - exists (buffer ++ sent). split.
    + split_and!; [done|by rewrite W2, Hc1, app_assoc|by eapply only_queue_trans|congruence|].
      constructor; [fold address; by rewrite Hl, E0|]. replace (Z.of_nat (length buffer)) with chunk by lia. by eapply fetched_memory.
    + rewrite length_app. destruct Hw as [[-> Hw]|[-> Hw]]; [left|right]; split; [done|lia|done|lia].
Qed.

(** ** Reading *)

Lemma copy_to_user_objects slot a l k : k_pipe_objects (copy_to_user slot a l k).2 = k_pipe_objects k /\
  k_socket_pairs (copy_to_user slot a l k).2 = k_socket_pairs k.
Proof.
  unfold copy_to_user, on_user, bind, gets, on_space_at. cbn. destruct (k_spaces k !! _); [|done].
  by destruct (vm_copy_to_user _ _ _).
Qed.

(** [k'] is [k] after [received] was read from the queue into the memory of [slot]. *)
Definition received_by (slot destination : Z) (r : QueueRef) (d : Z) (received : list Z) (k k' : Kernel) : Prop :=
  ring_ok (queue_at k' r) /\ queued (queue_at k r) = received ++ queued (queue_at k' r) /\
  only_queue r k k' /\ delivered slot destination d received k k'.

Lemma received_nil slot destination r d k : ring_ok (queue_at k r) -> received_by slot destination r d [] k k.
Proof. intros Hr. split_and!; [done|done|by apply only_queue_refl|by constructor]. Qed.

(** One piece of a transfer. *)
Lemma read_piece slot r address chunk k : queue_valid k r -> ring_ok (queue_at k r) -> 0 < chunk <= q_count (queue_at k r) ->
  let '(buffer, q) := queue_take (Z.to_nat chunk) (queue_at k r) in
  forall k2, copy_to_user slot address buffer (edit_queue r (fun _ => q) k).2 = (true, k2) ->
  let k3 := (edit_queue r (fun q => set_q_count (u32 (q_count q - chunk)) q) k2).2 in
  queue_valid k3 r /\ ring_ok (queue_at k3 r) /\ Z.of_nat (length buffer) = chunk /\
  queued (queue_at k r) = buffer ++ queued (queue_at k3 r) /\ q_count (queue_at k3 r) = q_count (queue_at k r) - chunk /\
  only_queue r k k3 /\ memory k3 = memory k2 /\ memory (edit_queue r (fun _ => q) k).2 = memory k.
Proof.
  intros Hv Hr Hc. pose proof (queue_take_ok (Z.to_nat chunk) (queue_at k r) Hr ltac:(lia)) as Ht.
  pose proof (queue_take_eq (Z.to_nat chunk) (queue_at k r) (ro_read _ Hr)) as Hq.
  destruct (queue_take (Z.to_nat chunk) (queue_at k r)) as [buffer q]. destruct Ht as (T1 & T2 & T3).
  rewrite Z2Nat.id in T1, T3 by lia. intros k2 E2 k3.
  destruct (edit_queue_only r (fun _ => q) k Hv) as [O1 M1]. pose proof (edit_queue_at r (fun _ => q) k Hv) as Q1. cbv beta in Q1.
  set (k1 := (edit_queue r (fun _ => q) k).2) in *.
  assert (only_queue r k1 k2 /\ queue_at k2 r = q /\ queue_valid k2 r) as (O2 & Q2 & V2).
  { destruct (copy_to_user_objects slot address buffer k1) as [C1 C2]. rewrite E2 in C1, C2. cbn in C1, C2.
    assert (only_queue r k1 k2) as O2 by by apply only_queue_refl. split_and!; [done| |by apply O2, O1].
    rewrite <- Q1. unfold queue_at, pipe_at, pair_at. by rewrite C1, C2. }
  destruct (edit_queue_only r (fun q => set_q_count (u32 (q_count q - chunk)) q) k2 V2) as [O3 M3].
  pose proof (edit_queue_at r (fun q => set_q_count (u32 (q_count q - chunk)) q) k2 V2) as Q3. fold k3 in O3, M3, Q3.
  assert (queue_at k3 r = set_q_count (q_count (queue_at k r) - chunk) q) as Q4.
  { rewrite Q3, Q2. injection Hq as _ ->. cbn. f_equal. destruct Hr as [_ _ Hrc _]. unfold wrap, IPC_BUFFER_SIZE in *.
    rewrite Z.mod_small; lia. }
  rewrite Q4. split_and!; [by apply O3|done|lia|done|done| |done|done]. eapply only_queue_trans; [exact O1|].
  by eapply only_queue_trans.
Qed.

(** The bytes taken are the oldest. *)
Lemma queue_take_front n q : ring_ok q -> Z.of_nat n <= q_count q -> (queue_take n q).1 = take n (queued q).
Proof.
  intros Hr Hn. pose proof (queue_take_ok n q Hr Hn) as Ht. destruct (queue_take n q) as [l q1]. destruct Ht as (_ & <- & ->).
  by rewrite take_app_length.
Qed.

(** A piece before the rest of a transfer. *)
Lemma received_app slot destination r d chunk rest k k1 k2 k3 k' :
  memory k1 = memory k -> copy_to_user slot (u64 (destination + d)) chunk k1 = (true, k2) -> memory k3 = memory k2 ->
  queued (queue_at k r) = chunk ++ queued (queue_at k3 r) -> only_queue r k k3 ->
  received_by slot destination r (d + Z.of_nat (length chunk)) rest k3 k' -> received_by slot destination r d (chunk ++ rest) k k'.
Proof.
  intros M1 E2 M3 C3 O3 (I1 & I2 & I3 & I4). split_and!; [done|by rewrite C3, I2, app_assoc|by eapply only_queue_trans|].
  apply (delivered_app _ _ _ _ _ _ k1 k2); [done|exact E2|]. inversion I4 as [d0 ka kb Hm|d0 c0 rest0 ka kb kc kd Hm]; subst.
  - constructor. congruence.
  - eapply delivered_app; [|done|done]. congruence.
Qed.

(** A read of [count] bytes that ends because a copy to the buffer fails: the pieces before are [received];
    the copy that fails is that of the next piece.  It is not put back: the read offset has
    moved past it, while the number of bytes still includes it. *)
Definition read_fault (slot destination : Z) (r : QueueRef) (d count : Z) (k k' : Kernel) : Prop :=
  exists received k1 k2, received_by slot destination r d received k k1 /\ Z.of_nat (length received) < count /\
  let chunk := take (Z.to_nat (Z.min (count - Z.of_nat (length received)) 256)) (queued (queue_at k1 r)) in
  let q := set_q_read_offset ((q_read_offset (queue_at k1 r) + Z.of_nat (length chunk)) mod IPC_BUFFER_SIZE) (queue_at k1 r) in
  memory k2 = memory k1 /\ copy_to_user slot (u64 (destination + (d + Z.of_nat (length received)))) chunk k2 = (false, k') /\
  queue_at k' r = q /\ only_queue r k k'.

Lemma read_fault_first slot destination r d count k : queue_valid k r -> ring_ok (queue_at k r) -> 0 < count <= q_count (queue_at k r) ->
  let '(buffer, q) := queue_take (Z.to_nat (Z.min count 256)) (queue_at k r) in
  forall k2, copy_to_user slot (u64 (destination + d)) buffer (edit_queue r (fun _ => q) k).2 = (false, k2) ->
  read_fault slot destination r d count k k2.
Proof.
  intros Hv Hr Hc. pose proof (queue_take_front (Z.to_nat (Z.min count 256)) _ Hr ltac:(lia)) as Hb.
  pose proof (queue_take_eq (Z.to_nat (Z.min count 256)) _ (ro_read _ Hr)) as Hq. pose proof (queued_length (queue_at k r)) as Hl.
  destruct (queue_take _ _) as [buffer q]. cbn in Hb. intros k2 E. destruct (edit_queue_only r (fun _ => q) k Hv) as [O1 M1].
  pose proof (edit_queue_at r (fun _ => q) k Hv) as Q1. cbv beta in Q1. set (k1 := (edit_queue r (fun _ => q) k).2) in *.
  destruct (copy_to_user_objects slot (u64 (destination + d)) buffer k1) as [C1 C2]. rewrite E in C1, C2. cbn in C1, C2.
  exists [], k, k1. cbn [length Z.of_nat]. rewrite Z.sub_0_r, Z.add_0_r, <- Hb.
  split_and!; [by apply received_nil|lia|done|done| |eapply only_queue_trans; [exact O1|by apply only_queue_refl]].
  transitivity q; [rewrite <- Q1; unfold queue_at, pipe_at, pair_at; by rewrite C1, C2|]. injection Hq as _ ->.
  f_equal. f_equal. f_equal. rewrite Hb, length_take. lia.
Qed.

Lemma queue_read_loop_ok fuel slot r destination count completed k :
  queue_valid k r -> ring_ok (queue_at k r) -> 0 <= completed <= count -> count - completed <= Z.of_nat fuel ->
  count - completed <= q_count (queue_at k r) ->
  let '(w, k') := queue_read_loop fuel slot r destination count completed k in
  w = linux_error LINUX_EFAULT /\ read_fault slot destination r completed (count - completed) k k' \/
  exists received, w = count /\ Z.of_nat (length received) = count - completed /\
    received_by slot destination r completed received k k'.
Proof.
  revert completed k. induction fuel as [|fuel IH]; intros completed k Hv Hr Hc Hfuel Hroom; cbn [queue_read_loop].
  { right. exists []. split_and!; [done|cbn; lia|by apply received_nil]. }
  destruct (negb (completed <? count)) eqn:Ec. { right. exists []. split_and!; [done|cbn; lia|by apply received_nil]. }
  cbv zeta. set (chunk := Z.min (count - completed) 256). rewrite bind_gets.
  pose proof (read_piece slot r (u64 (destination + completed)) chunk k Hv Hr ltac:(lia)) as Hp.
  pose proof (read_fault_first slot destination r completed (count - completed) k Hv Hr ltac:(lia)) as Hfault. fold chunk in Hfault.
  destruct (queue_take (Z.to_nat chunk) (queue_at k r)) as [buffer q].
  set (k1 := (edit_queue r (fun _ => q) k).2) in *. rewrite (bind_run _ _ k tt k1) by by destruct r.
  destruct (copy_to_user slot (u64 (destination + completed)) buffer k1) as [copied k2] eqn:E2. rewrite (bind_run _ _ _ _ _ E2).
  destruct copied; [|left; split; [done|by apply Hfault]]. cbn [negb]. destruct (Hp k2 eq_refl) as (V3 & R3 & L3 & C3 & N3 & O3 & M3 & M1). clear Hp Hfault.
  set (k3 := (edit_queue r (fun q => set_q_count (u32 (q_count q - chunk)) q) k2).2) in *.
  rewrite (bind_run _ _ k2 tt k3) by by destruct r.
  specialize (IH (completed + chunk) k3 V3 R3 ltac:(lia) ltac:(lia) ltac:(lia)).
  assert (forall received k', received_by slot destination r (completed + chunk) received k3 k' ->
    received_by slot destination r completed (buffer ++ received) k k') as Happ
    by (intros received k' Hrest; rewrite <- L3 in Hrest; by eapply received_app).
  destruct (queue_read_loop fuel slot r destination count (completed + chunk) k3) as [w k'].
  destruct IH as [[-> (received & ka & kb & Hrec & Hlt & Hm & Hcp & Hq & Ho)]|(received & -> & Hl & Hrec)].
  - left. split; [done|]. exists (buffer ++ received), ka, kb. rewrite length_app, Nat2Z.inj_add, L3. split; [by apply Happ|]. split; [lia|].
    replace (count - completed - (chunk + Z.of_nat (length received))) with (count - (completed + chunk) - Z.of_nat (length received)) by lia.
    replace (completed + (chunk + Z.of_nat (length received))) with (completed + chunk + Z.of_nat (length received)) by lia.
    split_and!; [done..|by eapply only_queue_trans].
  - right. exists (buffer ++ received). split_and!; [done|rewrite length_app; lia|by apply Happ].
Qed.

End transfers.
