(* ===== verification/Paths.v ===== *)
(** * Paths of system calls

    [normalize_path] copies a path piece by piece; it computes the list of its names, without
    empty ones and dots, and fails on a step upwards or when the result is too long. *)

From S2P Require Import Prelude Runtime Heap HeapFacts Interfaces Filesystem Vm Process.

(** The pieces of [l] between separators. *)
Fixpoint split_at (sep : Z) (l : list Z) : list (list Z) :=
  match l with
  | [] => [[]]
  | c :: l =>
      if c =? sep then [] :: split_at sep l
      else match split_at sep l with
           | piece :: pieces => (c :: piece) :: pieces
           | [] => [[c]]
           end
  end.

Fixpoint join_with (sep : Z) (pieces : list (list Z)) : list Z :=
  match pieces with
  | [] => []
  | [piece] => piece
  | piece :: pieces => piece ++ sep :: join_with sep pieces
  end.

(** The names in a path. *)
Definition names_of (path : list Z) : list (list Z) :=
  filter (fun piece => piece <> [] /\ piece <> [DOT]) (split_at SLASH path).

Definition path_of (names : list (list Z)) : option (list Z) :=
  if bool_decide ([DOT; DOT] ∈ names) || (Z.of_nat FS_NAME_MAX <? Z.of_nat (length (join_with SLASH names)))
  then None else Some (join_with SLASH names).

(** ** Pieces *)

Lemma names_slash rest : names_of (SLASH :: rest) = names_of rest.
Proof. unfold names_of. cbn [split_at]. rewrite Z.eqb_refl, filter_cons_False; [done|]. naive_solver. Qed.

Lemma names_skip path : names_of (skip_slash path) = names_of path.
Proof.
  induction path as [|c path IH]; [done|]. cbn [skip_slash]. destruct (Z.eqb_spec c SLASH) as [->|]; [|done]. by rewrite names_slash.
Qed.

Lemma segment_split path s rest : segment path = (s, rest) ->
  path = s ++ rest /\ split_at SLASH path = match rest with [] => [s] | _ :: r => s :: split_at SLASH r end /\
  (rest = [] \/ exists r, rest = SLASH :: r).
Proof.
  revert s rest. induction path as [|c path IH]; intros s rest; cbn [segment split_at].
  { intros [= <- <-]. eauto. }
  destruct (Z.eqb_spec c SLASH) as [->|Hne]. { intros [= <- <-]. eauto. }
  destruct (segment path) as [s0 r0]. intros [= <- <-]. destruct (IH s0 r0 eq_refl) as (-> & E & Hr). split_and!; [done| |done].
  rewrite E. by destruct r0.
Qed.

Lemma segment_names path s rest : segment path = (s, rest) ->
  names_of path = (if bool_decide (s = []) || bool_decide (s = [DOT]) then [] else [s]) ++ names_of (skip_slash rest).
Proof.
  intros (_ & E & Hr)%segment_split. rewrite names_skip. unfold names_of at 1. rewrite E. clear E.
  assert (names_of rest = filter (fun piece => piece <> [] /\ piece <> [DOT]) (match rest with [] => [] | _ :: r => split_at SLASH r end)) as ->.
  { destruct Hr as [->|[r ->]]; [done|]. by rewrite names_slash. }
  assert (match rest with [] => [s] | _ :: r => s :: split_at SLASH r end =
    s :: match rest with [] => [] | _ :: r => split_at SLASH r end) as -> by by destruct rest.
  rewrite filter_cons. do 2 case_bool_decide; case_decide; try done; naive_solver.
Qed.

Lemma skip_slash_length path : (length (skip_slash path) <= length path)%nat.
Proof. induction path as [|c path IH]; [done|]. cbn [skip_slash]. destruct (c =? SLASH); cbn; lia. Qed.

Lemma skip_slash_head path : match skip_slash path with [] => True | c :: _ => c <> SLASH end.
Proof. induction path as [|c path IH]; [done|]. cbn [skip_slash]. destruct (Z.eqb_spec c SLASH); done. Qed.

(** ** Joining *)

Lemma join_snoc names s : join_with SLASH (names ++ [s]) = join_with SLASH names ++ (if bool_decide (names = []) then [] else [SLASH]) ++ s.
Proof.
  induction names as [|n names IH]; [done|]. destruct names as [|m names]; [done|].
  change (join_with SLASH ((n :: m :: names) ++ [s])) with (n ++ SLASH :: join_with SLASH ((m :: names) ++ [s])).
  rewrite IH. cbn [join_with]. by rewrite <- app_assoc.
Qed.

Lemma join_grows names more : (length (join_with SLASH names) <= length (join_with SLASH (names ++ more)))%nat.
Proof.
  revert names. induction more as [|s more IH]; intros names; [by rewrite app_nil_r|].
  replace (names ++ s :: more) with ((names ++ [s]) ++ more) by by rewrite <- app_assoc.
  etrans; [|apply IH]. rewrite join_snoc, !length_app. lia.
Qed.

Lemma join_empty names : Forall (fun s => s <> []) names -> join_with SLASH names = [] <-> names = [].
Proof. destruct 1 as [|s [|? ?] Hs]; cbn; [done|split; [done|]; by intros [=]|]. destruct s; done. Qed.

Lemma path_of_up names more : [DOT; DOT] ∈ names -> path_of (names ++ more) = None.
Proof. intros Hin. unfold path_of. rewrite bool_decide_true; [done|]. apply elem_of_app. by left. Qed.

Lemma path_of_long names more : Z.of_nat FS_NAME_MAX < Z.of_nat (length (join_with SLASH names)) -> path_of (names ++ more) = None.
Proof.
  intros Hl. unfold path_of. pose proof (join_grows names more). destruct (Z.ltb_spec (Z.of_nat FS_NAME_MAX) (Z.of_nat (length (join_with SLASH (names ++ more))))); [by rewrite orb_true_r|lia].
Qed.

(** ** The loop *)

Lemma normalize_loop_eq fuel path names : (length path <= fuel)%nat -> match path with [] => True | c :: _ => c <> SLASH end ->
  Forall (fun s => s <> []) names -> [DOT; DOT] ∉ names -> Z.of_nat (length (join_with SLASH names)) <= Z.of_nat FS_NAME_MAX ->
  normalize_loop fuel path (join_with SLASH names) = path_of (names ++ names_of path).
Proof.
  revert path names. induction fuel as [|fuel IH]; intros path names Hl Hh Hne Hup Hlen.
  all: assert (path = [] -> Some (join_with SLASH names) = path_of (names ++ names_of path)) as Hend
    by (intros ->; rewrite app_nil_r; unfold path_of; rewrite bool_decide_false by done; cbn;
        destruct (Z.ltb_spec (Z.of_nat FS_NAME_MAX) (Z.of_nat (length (join_with SLASH names)))); [lia|done]).
  { apply Hend. destruct path; [done|cbn in Hl; lia]. }
  destruct path as [|c path]; [by apply Hend|]. clear Hend. cbn [normalize_loop].
  destruct (segment (c :: path)) as [s rest] eqn:Es. pose proof (segment_names _ _ _ Es) as En.
  pose proof (segment_split _ _ _ Es) as (Ep & _ & _).
  assert (s <> []) as Hs. { intros ->. cbn in Es. destruct (Z.eqb_spec c SLASH); [done|]. destruct (segment path); done. }
  assert (length (skip_slash rest) <= fuel)%nat as Hfuel.
  { pose proof (skip_slash_length rest). apply (f_equal length) in Ep. rewrite length_app in Ep. cbn in Ep, Hl. destruct s; [done|]. cbn in Ep. lia. }
  assert (forall d : Decision (s = []), @bool_decide _ d = false) as Hb by (intros d; by apply bool_decide_false).
  rewrite En, !Hb. clear En. cbn [orb]. case_bool_decide as Eup.
  { rewrite bool_decide_false by (subst; done). subst s. rewrite app_assoc. symmetry. apply path_of_up.
    apply elem_of_app. right. by apply list_elem_of_singleton. }
  case_bool_decide as Edot. { cbn [app]. apply IH; [done|apply skip_slash_head|done..]. }
  assert (join_with SLASH (names ++ [s]) =
    join_with SLASH names ++ (if Z.of_nat (length (join_with SLASH names)) =? 0 then [] else [SLASH]) ++ s) as Ej.
  { rewrite join_snoc. f_equal. f_equal. pose proof (join_empty names Hne) as He. case_bool_decide as E0.
    - by subst names.
    - destruct (Z.eqb_spec (Z.of_nat (length (join_with SLASH names))) 0) as [E1|]; [|done]. exfalso. apply E0, He, length_zero_iff_nil. lia. }
  rewrite (app_assoc names). match goal with |- context [Z.ltb ?a ?b] => destruct (Z.ltb_spec a b) as [Hlong|Hshort] end.
  - symmetry. apply path_of_long. rewrite Ej, !length_app. lia.
  - rewrite <- Ej. apply IH; [done|apply skip_slash_head| | |].
    + apply Forall_app. split; [done|]. by constructor.
    + intros [?|Hin%list_elem_of_singleton]%elem_of_app; [done|]. by apply Eup.
    + rewrite Ej, !length_app. lia.
Qed.

Lemma normalize_path_eq path : normalize_path path = path_of (names_of path).
Proof.
  unfold normalize_path. rewrite <- (names_skip path). apply (normalize_loop_eq _ _ []); [apply skip_slash_length|apply skip_slash_head|..].
  - constructor.
  - apply not_elem_of_nil.
  - cbn. lia.
Qed.
