(* ===== verification/ProcessTheorems.v ===== *)
(** * What the process subsystem promises

    Theorems about the process table, the scheduler, pipes and sockets, timers and paths of
    kernel/process.c, and a kernel with two processes to try them on. *)

From S2P Require Import Prelude Runtime Heap HeapFacts Interfaces RamDisk Filesystem Ownership Vm VmLookup VmFrames VmTables VmSpaces VmOps VmCopy VmSystem VmSteps VmTheorems Process Descriptors Ipc FileCalls MemCalls Elf ElfLoader Tasks Syscalls ProcessTable Scheduler Rings Paths.

(** ** A kernel with two processes *)

Notation DeskKernel := (@Kernel RamDisk Heap).

Definition desk_space : Z := 4096.

Definition desk_process (pid : Z) : Process :=
  set_p_used true (set_p_state PROCESS_RUNNING (set_p_pid pid (set_p_tgid pid (set_p_address_space desk_space zero_process)))).

Definition desk_fs : @FsState RamDisk Heap :=
  mkFs zero_super (replicate FS_MAX_ENTRIES zero_entry) false 0 true (mkRam 8192 ∅) (heap_init (mkHeap 0 ∅)).

(** The page of [VmTheorems.demo] belongs to both; the first one runs, and a pipe is open. *)
Definition desk : DeskKernel :=
  mkKernel (sys_world demo) {[ desk_space := mkAddressSpace (space demo_run.2) 2 0 [] 0 0 0 0 0 ]} desk_fs
    (desk_process 1 :: desk_process 2 :: replicate 62 zero_process)
    (mkPipe true zero_queue :: replicate 31 zero_pipe) (replicate (Z.to_nat MAX_SOCKET_PAIRS) zero_pair)
    (replicate (Z.to_nat MAX_EPOLL_OBJECTS) zero_epoll) (replicate (Z.to_nat MAX_EVENT_OBJECTS) zero_event)
    (replicate (Z.to_nat MAX_TIMER_OBJECTS) zero_timer) (replicate (Z.to_nat MAX_MEMFD_OBJECTS) zero_memfd)
    (replicate 18 0) 0 0 0 (-1) 3 0 0 0 [].

Lemma desk_used i p : k_processes desk !! i = Some p -> p_used p = true -> i = 0%nat /\ p_pid p = 1 \/ i = 1%nat /\ p_pid p = 2.
Proof.
  destruct i as [|[|i]]; cbn [k_processes desk lookup list_lookup]; [by intros [= <-]; left|by intros [= <-]; right|].
  intros [-> _]%lookup_replicate. done.
Qed.

Lemma desk_table_ok : table_ok (table desk).
Proof.
  split; [done| | |done].
  - intros i p Hi Hu. destruct (desk_used i p Hi Hu) as [[_ ->]|[_ ->]]; cbn; lia.
  - intros i j p q Hi Hj Hu Hv E. destruct (desk_used i p Hi Hu) as [[-> Ep]|[-> Ep]], (desk_used j q Hj Hv) as [[-> Eq]|[-> Eq]]; lia || congruence.
Qed.

(** ** The process table *)

(** [C14] Whatever system call a process makes, with whatever arguments and whatever programs
    are on the disk, as long as [next_pid], an [int] of 32 bits, is not at its end: afterwards the
    call has used up at most one number; the numbers of processes are again positive, below the
    next number and nobody's twice; every process is one that was there before, in its slot and
    under its number, with [no_new_privs] and [seccomp] still set where they were set, or it
    is new, has a number that was never used before, and has these flags if its parent had. *)
Theorem syscall_processes {D H} `{!BlockDevice D} `{!Allocator H} (k : @Kernel D H) c
    number a1 a2 a3 a4 a5 a6 stale :
  current_process k = Some c -> p_used (process_at k c) = true -> table_ok (table k) -> k_next_pid k < 2 ^ 31 - 1 ->
  let k' := (process_handle_linux_syscall number a1 a2 a3 a4 a5 a6 stale k).2 in
  table_ok (table k') /\ k_next_pid k <= k_next_pid k' <= k_next_pid k + 1 /\
  evolves (process_at k c) (k_next_pid k) (table k) (table k').
Proof.
  intros Hc Hu Hok Hmax. pose proof (syscall_grows k c number a1 a2 a3 a4 a5 a6 stale Hc Hu Hok Hmax) as Hg.
  pose proof (grow_evolves _ _ _ _ Hg) as He. pose proof (grow_next _ _ _ _ Hg) as Hn. cbv zeta.
  split_and!; [by eapply grow_table_ok|apply He|apply Hn; cbn; lia|done].
Qed.

Lemma syscall_processes_witness :
  evolves (desk_process 1) 3 (table desk) (table (process_handle_linux_syscall LINUX_SYS_FORK 0 0 0 0 0 0 0 desk).2).
Proof. exact (proj2 (proj2 (syscall_processes desk 0 LINUX_SYS_FORK 0 0 0 0 0 0 0 eq_refl eq_refl desk_table_ok eq_refl))). Defined.

(** The number after 2^31-1 is negative. *)
Example next_pid_overflows :
  let k := set_k_next_pid (2 ^ 31 - 1) desk in
  k_next_pid (process_handle_linux_syscall LINUX_SYS_FORK 0 0 0 0 0 0 0 k).2 = - 2 ^ 31.
Proof. by vm_compute. Qed.

(** [C18] A process in strict mode cannot leave it: whatever it calls, no process is started,
    no process changes its number, and no flag is taken back; a call that is not on the list
    fails with [EPERM] and changes nothing but the counter of calls. *)
Theorem seccomp_confines {D H} `{!BlockDevice D} `{!Allocator H} (k : @Kernel D H) c
    number a1 a2 a3 a4 a5 a6 stale :
  current_process k = Some c -> p_seccomp_strict (process_at k c) = true ->
  let '(r, k') := process_handle_linux_syscall number a1 a2 a3 a4 a5 a6 stale k in
  (forall i p', k_processes k' !! i = Some p' -> p_used p' = true -> exists p, k_processes k !! i = Some p /\ calm p p') /\
  (seccomp_allows number = false -> r = Some (linux_error LINUX_EPERM) /\
     k' = set_k_syscall_counter (u64 (k_syscall_counter k + 1)) k).
Proof.
  intros Hc Hs. pose proof (syscall_confined k c number a1 a2 a3 a4 a5 a6 stale Hc Hs) as Hst.
  destruct (process_handle_linux_syscall number a1 a2 a3 a4 a5 a6 stale k) as [r k'] eqn:E. split.
  - by apply steady_old in Hst as (_ & _ & Hp).
  - intros Ha. unfold process_handle_linux_syscall in E. rewrite bind_gets, Hc in E. unfold bind, count_syscall, modify, gets in E.
    change (process_at (set_k_syscall_counter _ k) c) with (process_at k c) in E. rewrite Hs, Ha in E. by injection E as <- <-.
Qed.

(** The first process has entered strict mode. *)
Definition desk_strict : DeskKernel := (edit_process 0 (set_p_seccomp_strict true) desk).2.

Lemma seccomp_confines_witness :
  let '(r, k') := process_handle_linux_syscall LINUX_SYS_FORK 0 0 0 0 0 0 0 desk_strict in
  r = Some (linux_error LINUX_EPERM) /\ k_processes k' = k_processes desk_strict.
Proof.
  pose proof (seccomp_confines desk_strict 0 LINUX_SYS_FORK 0 0 0 0 0 0 0 eq_refl eq_refl) as Hc.
  destruct (process_handle_linux_syscall _ _ _ _ _ _ _ _ _) as [r k']. destruct Hc as [_ Hc].
  destruct (Hc eq_refl) as [-> ->]. done.
Defined.

(** ** The scheduler *)

(** [C15] Fairness of the scheduler: a process that is ready to run, and stays ready and free of
    signals while the others have their turns, runs within 4224 rounds (64 slots, and 65 rounds
    for each of them at most, because a round in which a signal ends a process runs nobody). *)
Theorem scheduler_fair {D H} `{!BlockDevice D} `{!Allocator H} (run : Z -> st (@Kernel D H) unit) slot k :
  (forall x k, x <> slot -> waiting slot k -> waiting slot (run x k).2 /\ k_last_slot (run x k).2 = k_last_slot k) ->
  waiting slot k -> exists n, (n < 4224)%nat /\ runs run slot (rounds run n k).
Proof. intros Ho W. eapply rounds_reach; [exact Ho|exact W|by apply turns_bound]. Qed.

(** Processes that give way at once. *)
Definition yields (x : Z) : st DeskKernel unit := process_handle_syscall NOVA_SYS_YIELD 0 0 ;;; ret tt.

Lemma yields_run x k : (yields x k).2 = set_k_syscall_counter (u64 (k_syscall_counter k + 1)) k.
Proof. unfold yields, process_handle_syscall, bind, gets, count_syscall, modify. by destruct (current_process k). Qed.

Lemma scheduler_fair_witness : exists n, (n < 4224)%nat /\ runs yields 1 (rounds yields n desk).
Proof.
  apply scheduler_fair.
  - intros x k _ W. rewrite yields_run. split; [destruct W; by split|done].
  - split; [done|done|done|reflexivity|reflexivity].
Defined.

(** ** Pipes and sockets *)

(** The memory of the process in [slot] is [vm], one of the address spaces of [S]. *)
Definition in_memory {D} `{!BlockDevice D} (S : @System Heap) (id : nat) (vm : VmSpace) (slot : Z) (k : @Kernel D Heap) : Prop :=
  reachable S /\ sys_world S = k_world k /\ sys_spaces S !! id = Some vm /\
  exists a, k_spaces k !! p_address_space (process_at k slot) = Some a /\ as_vm a = vm.

Lemma in_memory_copy {D} `{!BlockDevice D} S id vm slot (k : @Kernel D Heap) a n l : in_memory S id vm slot k -> 0 <= a < 2 ^ 64 ->
  (copy_from_user slot a n k).1 = Some l ->
  length l = n /\ forall i, (i < n)%nat -> byte_at (mkVm (k_world k) vm) (a + Z.of_nat i) = l !! i.
Proof.
  intros ([G Hs]%reachable_ok & Ew & Hid & x & Hx & <-) Ha. destruct (sy_space _ _ Hs _ _ Hid) as [T Hi].
  unfold copy_from_user, on_user, bind, gets, on_space_at. cbn. rewrite Hx. cbn. unfold vm_copy_from_user. rewrite <- Ew.
  intros E. exact (copy_from_sound _ _ _ _ _ _ _ _ _ (small_ok _ (sys_small _ _ id Hs)) Hi (Nat.le_refl n) Ha E).
Qed.

Lemma fetched_bytes {D} `{!BlockDevice D} S id vm slot (k : @Kernel D Heap) source d l : in_memory S id vm slot k -> 0 <= source -> 0 <= d ->
  source + d + Z.of_nat (length l) < 2 ^ 64 -> fetched slot source k d l ->
  forall i, (i < length l)%nat -> byte_at (mkVm (k_world k) vm) (source + d + Z.of_nat i) = l !! i.
Proof.
  intros Hm Hs Hd Hb Hf. induction Hf as [d|d chunk rest Hc _ IH]; intros i Hi; [cbn in Hi; lia|]. rewrite length_app in Hi, Hb.
  assert (u64 (source + d) = source + d) as Eu by (unfold wrap; apply Z.mod_small; lia). rewrite Eu in Hc.
  assert (0 <= source + d < 2 ^ 64) as Ha by lia. destruct (in_memory_copy _ _ _ _ _ _ _ _ Hm Ha Hc) as [_ Hc']. destruct (decide (i < length chunk)%nat) as [Hlt|Hge].
  - rewrite lookup_app_l by done. by apply Hc'.
  - rewrite lookup_app_r by lia. rewrite <- IH by lia. f_equal. lia.
Qed.

(** The result [w] of a transfer of [count] bytes of which [moved] could be: all of them for which
    the other side was ready, or [EAGAIN] when it was not, or fewer when the buffer ended early. *)
Definition write_result (count room w : Z) (moved : list Z) : Prop :=
  w = Z.of_nat (length moved) /\ w = Z.min count room /\ (count = 0 \/ 0 < room) \/
  w = linux_error LINUX_EAGAIN /\ moved = [] /\ room = 0 /\ 0 < count \/
  w = linux_error LINUX_EFAULT /\ Z.of_nat (length moved) < Z.min count room.

(** [C16] Let the offsets and the number of bytes of the ring agree.  Writing to a pipe or a socket appends to a queue of 4096 bytes: the bytes that join it
    are those of the writer's memory from the buffer on, in order, as many as were asked for
    and fit; the call returns their number, [EAGAIN] when the queue is full, and [EFAULT] when
    the buffer ends early.  No other queue and no memory changes. *)
Theorem queue_write_refines {D} `{!BlockDevice D} S id vm slot r source count (k : @Kernel D Heap) :
  in_memory S id vm slot k -> queue_valid k r -> ring_ok (queue_at k r) ->
  0 <= source -> 0 <= count -> source + count < 2 ^ 64 ->
  let '(w, k') := queue_write_user slot r source count k in
  exists sent, ring_ok (queue_at k' r) /\ queued (queue_at k' r) = queued (queue_at k r) ++ sent /\
    only_queue r k k' /\ memory k' = memory k /\
    (forall i, (i < length sent)%nat -> byte_at (mkVm (k_world k) vm) (source + Z.of_nat i) = sent !! i) /\
    write_result count (IPC_BUFFER_SIZE - Z.of_nat (length (queued (queue_at k r)))) w sent.
Proof.
  intros Hm Hv Hr Hs Hc Hb. pose proof (ro_count _ Hr) as Hcount. rewrite queued_length by lia. unfold queue_write_user.
  destruct (Z.eqb_spec count 0) as [->|Hnz].
  { exists []. rewrite app_nil_r. split_and!; [done|done|by apply only_queue_refl|done|cbn; lia|left; cbn; lia]. }
  rewrite bind_gets. cbv zeta. destruct (Z.eqb_spec (IPC_BUFFER_SIZE - q_count (queue_at k r)) 0) as [E0|Hroom].
  { exists []. rewrite app_nil_r. split_and!; [done|done|by apply only_queue_refl|done|cbn; lia|right; left; split_and!; [done..|lia]]. }
  set (n := Z.min count (IPC_BUFFER_SIZE - q_count (queue_at k r))).
  assert (full_copies slot k) as Hf by (intros a m l Ha E; by apply (in_memory_copy S id vm slot k a m l)).
  pose proof (queue_write_loop_ok (Z.to_nat n) slot r source n 0 k Hf Hv Hr ltac:(lia) ltac:(lia) ltac:(lia)) as Hl.
  destruct (queue_write_loop (Z.to_nat n) slot r source n 0 k) as [w k'].
  destruct Hl as (sent & (W1 & W2 & W3 & W4 & W5) & Hw). exists sent. split_and!; [done..| |].
  - intros i Hi. rewrite <- (Z.add_0_r source). refine (fetched_bytes S id vm slot k source 0 sent Hm Hs (Z.le_refl 0) _ W5 i Hi). lia.
  - unfold write_result. destruct Hw as [[-> ?]|[-> ?]]; [left|right; right]; split_and!; [lia..|done|lia].
Qed.

(** [C17] Let the offsets and the number of bytes of the ring agree.  Reading from a pipe or a socket takes
    bytes from the front of the queue: as many as were asked for and are there are copied to the
    reader's buffer, in order, and leave the queue, whose ring is consistent again; the call
    returns their number, or [EAGAIN] when there are none.  It fails with [EFAULT] only when one of
    the copies to the buffer fails.  The pieces of 256 bytes before that copy have then been delivered and
    removed; the bytes of the piece that failed are lost, and the number of bytes still counts
    them (see [queue_read_fault_breaks]).  No other queue changes in either case. *)
Theorem queue_read_refines {D H} `{!BlockDevice D} `{!Allocator H} slot r destination count (k : @Kernel D H) :
  queue_valid k r -> ring_ok (queue_at k r) -> 0 <= count ->
  let '(w, k') := queue_read_user slot r destination count k in
  let available := Z.min count (Z.of_nat (length (queued (queue_at k r)))) in
  (exists received, received_by slot destination r 0 received k k' /\
     (w = Z.of_nat (length received) /\ w = available /\ (count = 0 \/ 0 < w) \/
      w = linux_error LINUX_EAGAIN /\ k' = k /\ received = [] /\ queued (queue_at k r) = [] /\ 0 < count)) \/
  w = linux_error LINUX_EFAULT /\ read_fault slot destination r 0 available k k'.
Proof.
  intros Hv Hr Hc. pose proof (ro_count _ Hr) as Hcount. rewrite queued_length by lia. unfold queue_read_user.
  destruct (Z.eqb_spec count 0) as [->|Hnz]; [left; exists []; split; [by apply received_nil|left; cbn; lia]|].
  rewrite bind_gets. destruct (Z.eqb_spec (q_count (queue_at k r)) 0) as [E0|Hn].
  { left. exists []. split; [by apply received_nil|]. right. split_and!; [done..| |lia]. unfold queued. by rewrite E0. }
  cbv zeta. set (n := Z.min count (q_count (queue_at k r))).
  pose proof (queue_read_loop_ok (Z.to_nat n) slot r destination n 0 k Hv Hr ltac:(lia) ltac:(lia) ltac:(lia)) as Hl.
  destruct (queue_read_loop (Z.to_nat n) slot r destination n 0 k) as [w k']. rewrite Z.sub_0_r in Hl.
  destruct Hl as [Hf|(received & -> & Hlen & Hrec)]; [by right|]. left. exists received. split; [done|]. left. lia.
Qed.

(** Ten bytes of the first process go through the pipe to the second one. *)
Definition desk_written : Z * DeskKernel := queue_write_user 0 (PipeQueue 0) demo_page 10 desk.

Lemma desk_memory slot : slot = 0 \/ slot = 1 -> in_memory demo 0 (space demo_run.2) slot desk.
Proof.
  intros Hs. split_and!; [exact demo_reachable|done|exact demo_first|]. 
  exists (mkAddressSpace (space demo_run.2) 2 0 [] 0 0 0 0 0). split; [|done].
  assert (p_address_space (process_at desk slot) = desk_space) as -> by by destruct Hs as [-> | ->].
  apply lookup_singleton_eq.
Qed.

Lemma queue_write_refines_witness : desk_written.1 = 10 /\
  exists sent, queued (queue_at desk_written.2 (PipeQueue 0)) = sent /\ length sent = 10%nat.
Proof.
  pose proof (queue_write_refines demo 0 _ 0 (PipeQueue 0) demo_page 10 desk (desk_memory 0 (or_introl eq_refl))) as Hw.
  change (queue_write_user 0 (PipeQueue 0) demo_page 10 desk) with desk_written in Hw. rewrite (surjective_pairing desk_written) in Hw.
  assert (desk_written.1 = 10) as E by (vm_compute; reflexivity). rewrite E in Hw. split; [done|].
  destruct Hw as (sent & _ & Hq & _ & _ & _ & Hres); [cbn; lia|exact zero_queue_ok|unfold demo_page; lia..|].
  exists sent. split; [by rewrite Hq|]. destruct Hres as [[Hl _]|[[? _]|[? _]]]; [lia|done|done].
Defined.

Definition desk_read : Z * DeskKernel := queue_read_user 1 (PipeQueue 0) demo_page 4 desk_written.2.

Lemma desk_written_ok : ring_ok (queue_at desk_written.2 (PipeQueue 0)).
Proof. split; by vm_compute. Qed.

Lemma desk_written_valid : queue_valid desk_written.2 (PipeQueue 0).
Proof. by vm_compute. Qed.

Lemma desk_written_queued : length (queued (queue_at desk_written.2 (PipeQueue 0))) = 10%nat.
Proof. vm_compute. reflexivity. Qed.

Lemma queue_read_refines_witness : desk_read.1 = 4 /\ length (queued (queue_at desk_read.2 (PipeQueue 0))) = 6%nat.
Proof.
  pose proof (queue_read_refines 1 (PipeQueue 0) demo_page 4 desk_written.2 desk_written_valid desk_written_ok) as Hq.
  change (queue_read_user 1 (PipeQueue 0) demo_page 4 desk_written.2) with desk_read in Hq. rewrite (surjective_pairing desk_read) in Hq.
  assert (desk_read.1 = 4) as E by (vm_compute; reflexivity). rewrite E in Hq. split; [done|]. pose proof desk_written_queued as E10.
  destruct Hq as [(received & (_ & Hc & _) & [[Hl _]|[? _]])|[? _]]; [lia| |done|done]. rewrite Hc, length_app in E10. lia.
Defined.

(** A read whose buffer cannot be written: the read offset has moved, the number of bytes has
    not, and the ring no longer knows where it ends. *)
Lemma queue_read_fault_breaks :
  let '(w, k') := queue_read_user 1 (PipeQueue 0) 0 4 desk_written.2 in
  w = linux_error LINUX_EFAULT /\ ~ ring_ok (queue_at k' (PipeQueue 0)).
Proof.
  set (r := queue_read_user 1 (PipeQueue 0) 0 4 desk_written.2). rewrite (surjective_pairing r). split; [vm_compute; reflexivity|].
  intros [_ _ _ Hw]. revert Hw. vm_compute. discriminate.
Qed.

(** ** Timers *)

(** A periodic timer counts exactly: a read at [now] reports the number of the periods that
    have ended since the timer was set or last read, and the next end lies after [now] and at
    most a period later; reading twice reports in all what one later read would have, and leaves
    the timer the same. *)
Theorem timer_exact timer now later :
  0 < tm_interval timer -> 0 < tm_expires timer <= now -> now <= later -> later + tm_interval timer < 2 ^ 64 ->
  let '(n, timer') := timer_expire now timer in
  (forall i, 0 <= i -> tm_expires timer + i * tm_interval timer <= now <-> i < n) /\
  now < tm_expires timer' <= now + tm_interval timer /\ tm_interval timer' = tm_interval timer /\
  (let '(m, last) := timer_expire later timer in
   if later <? tm_expires timer' then m = n /\ last = timer'
   else let '(m', last') := timer_expire later timer' in m = n + m' /\ last = last').
Proof.
  intros Hi He Hl Hb. unfold timer_expire. destruct (Z.eqb_spec (tm_interval timer) 0) as [|_]; [lia|]. cbv zeta.
  set (i := tm_interval timer) in *. set (e := tm_expires timer) in *.
  pose proof (Z.div_mod (now - e) i) as Dn. pose proof (Z.mod_pos_bound (now - e) i Hi) as Mn.
  pose proof (Z.div_pos (now - e) i) as Pn. set (q := (now - e) / i) in *.
  assert (u64 (e + (1 + q) * i) = e + (1 + q) * i) as En by (unfold wrap; apply Z.mod_small; nia).
  cbn [tm_expires tm_interval set_tm_expires]. fold i. rewrite En. split_and!; [intros j Hj; split; nia|nia|nia|done|].
  destruct (Z.eqb_spec i 0) as [|_]; [lia|]. destruct (Z.ltb_spec later (e + (1 + q) * i)) as [Hs|Hs].
  - assert ((later - e) / i = q) as ->; [|by rewrite En]. symmetry. apply (Z.div_unique_pos _ _ _ (later - e - i * q)); nia.
  - assert ((later - e) / i = 1 + q + (later - (e + (1 + q) * i)) / i) as E.
    { replace (later - e) with (later - (e + (1 + q) * i) + (1 + q) * i) by lia. rewrite Z.div_add by lia. lia. }
    rewrite E. split; [lia|]. unfold set_tm_expires. cbn. f_equal. f_equal. lia.
Qed.

(** Set to 100 with a period of 10: six ends by tick 155. *)
Lemma timer_exact_witness : timer_expire 155 (mkTimer true 100 10) = (6, mkTimer true 160 10) /\
  (forall i, 0 <= i -> 100 + i * 10 <= 155 <-> i < 6).
Proof.
  split; [reflexivity|]. refine (proj1 (timer_exact (mkTimer true 100 10) 155 200 _ _ _ _)); cbn; lia.
Defined.

(** ** Paths *)

(** [C24] The path of a system call is read as it should be: the result is the names between the
    slashes, without the empty ones and single dots, joined by single slashes; a path with a
    step upwards, or whose result is longer than 95 characters, is refused. *)
Theorem normalize_path_correct path : normalize_path path = path_of (names_of path).
Proof. apply normalize_path_eq. Qed.
