(* ===== verification/TlsLayout.v ===== *)
(** * The layout of thread-local storage

    [layout_static_tls] of kernel/process.c places the blocks of thread-local storage of the
    loaded objects below the thread pointer.  Here: every block is aligned, the blocks do not
    overlap, and there is room for all of them. *)

From S2P Require Import Prelude Runtime Heap HeapFacts Interfaces Filesystem Vm Process Descriptors Ipc FileCalls MemCalls Elf ElfLoader.

(** ** Alignments *)

Definition alignment_ok (a : Z) : Prop := exists k, 0 <= k <= 12 /\ a = 2 ^ k.

Definition power_of_two (a : Z) : bool := existsb (fun k => a =? 2 ^ k) (Z.of_nat <$> seq 0 13).

Lemma power_of_two_table : all_below 4097 (fun a => (a =? 0) || negb (Z.land a (a - 1) =? 0) || power_of_two a) = true.
Proof. by vm_compute. Qed.

(** The test that the loader applies to the alignment of a segment. *)
Lemma alignment_test a : 0 < a <= ELF_TLS_MAX_ALIGN -> Z.land a (a - 1) = 0 -> alignment_ok a.
Proof.
  intros Ha E. unfold ELF_TLS_MAX_ALIGN, VM_PAGE_SIZE in Ha. pose proof (all_below_spec _ _ a power_of_two_table) as Hp.
  cbv beta in Hp. rewrite E in Hp. assert (power_of_two a = true) as Hk by (destruct (power_of_two a); lia).
  apply existsb_exists in Hk as (k & Hk & Ek). apply list_elem_of_In, list_elem_of_fmap in Hk as (n & -> & Hn%elem_of_seq).
  exists (Z.of_nat n). lia.
Qed.

Lemma alignment_pos a : alignment_ok a -> 0 < a <= 4096.
Proof.
  intros (k & Hk & ->). split; [by apply Z.pow_pos_nonneg; lia|]. change 4096 with (2 ^ 12). by apply Z.pow_le_mono_r; lia.
Qed.

Lemma alignment_divide a b : alignment_ok a -> alignment_ok b -> a <= b -> (a | b).
Proof.
  intros (k & Hk & ->) (l & Hl & ->) Hle. apply Z.pow_le_mono_r_iff in Hle; [|lia..].
  exists (2 ^ (l - k)). rewrite <- Z.pow_add_r by lia. f_equal. lia.
Qed.

Lemma alignment_page a : alignment_ok a -> (a | 4096).
Proof. intros Ha. apply alignment_divide; [done|by exists 12|apply alignment_pos, Ha]. Qed.

Lemma align_tls_size_ok v a : alignment_ok a -> 0 <= v <= 2 ^ 32 ->
  exists r, align_tls_size v a = Some r /\ (a | r) /\ v <= r < v + a.
Proof.
  intros Ha Hv. pose proof (alignment_pos _ Ha) as Hp. destruct Ha as (k & Hk & ->). set (a := 2 ^ k) in *.
  unfold align_tls_size. rewrite (proj2 (Z.eqb_neq a 0)) by lia.
  assert (Z.land a (a - 1) = 0) as ->. { unfold a. rewrite land_ones_mod by lia. by apply Z.mod_same; lia. }
  change (u64 (-1)) with (2 ^ 64 - 1). rewrite (proj2 (Z.ltb_ge (2 ^ 64 - 1 - (a - 1)) v)) by lia. cbn [orb negb Z.eqb].
  rewrite (wrap_small 64 (v + a - 1)) by lia. eexists. split; [reflexivity|].
  unfold a in *. rewrite (wrap_land_lnot_ones 64 (v + 2 ^ k - 1) k) by lia.
  pose proof (Z.div_mod (v + 2 ^ k - 1) (2 ^ k)) as E. pose proof (Z.mod_pos_bound (v + 2 ^ k - 1) (2 ^ k)).
  split; [exists ((v + 2 ^ k - 1) / 2 ^ k)|]; lia.
Qed.

(** ** Placing the blocks *)

(** The storage of an object: none, or some with a proper alignment, as [tls_segment] leaves it. *)
Definition tls_ok (o : ElfLoadedObject) : Prop :=
  0 <= eo_tls_memory_size o /\ (eo_tls_memory_size o = 0 \/ alignment_ok (eo_tls_alignment o)).

Definition has_tls (o : ElfLoadedObject) : bool := negb (eo_tls_memory_size o =? 0).

(** [o'] is [o] with a place. *)
Definition placed (o o' : ElfLoadedObject) : Prop :=
  if has_tls o then o' = set_eo_tls_module_id (eo_tls_module_id o') (set_eo_tls_offset (eo_tls_offset o') o) else o' = o.

(** The objects get the places [l] above [c], and numbers from [id] on; [e] is the end. *)
Inductive laid : Z -> Z -> list ElfLoadedObject -> list ElfLoadedObject -> Z -> Prop :=
| laid_nil c id : laid c id [] [] c
| laid_skip c id o objects l e : has_tls o = false -> laid c id objects l e -> laid c id (o :: objects) (o :: l) e
| laid_put c id o objects l e offset : has_tls o = true -> (eo_tls_alignment o | offset) ->
    c + eo_tls_memory_size o <= offset < c + eo_tls_memory_size o + eo_tls_alignment o ->
    laid offset (id + 1) objects l e ->
    laid c id (o :: objects) (set_eo_tls_module_id id (set_eo_tls_offset offset o) :: l) e.

(** What the objects can take at most. *)
Definition tls_demand (objects : list ElfLoadedObject) : Z :=
  foldr (fun o sum => (if has_tls o then eo_tls_memory_size o + eo_tls_alignment o else 0) + sum) 0 objects.

Lemma tls_demand_nonneg objects : Forall tls_ok objects -> 0 <= tls_demand objects.
Proof.
  induction 1 as [|o objects [Hs Ha] _ IH]; cbn [tls_demand foldr]; [done|]. fold (tls_demand objects).
  destruct (has_tls o) eqn:E; [|lia]. unfold has_tls in E.
  destruct Ha as [|Ha%alignment_pos]; lia.
Qed.

Lemma layout_loop_laid objects c m id : Forall tls_ok objects -> 0 <= c <= ELF_TLS_MAX_SIZE -> alignment_ok m ->
  match layout_loop objects c m id with
  | Some (l, e, m') => laid c id objects l e /\ c <= e <= ELF_TLS_MAX_SIZE /\ alignment_ok m' /\ m <= m' /\
      forall o, o ∈ objects -> has_tls o = true -> eo_tls_alignment o <= m'
  | None => ELF_TLS_MAX_SIZE < c + tls_demand objects
  end.
Proof.
  intros Hok. revert c m id. induction Hok as [|o objects [Hs Ho] Hobj IH]; intros c m id Hc Hm; cbn [layout_loop].
  { split_and!; [constructor|lia|lia|done|done|]. by intros o ?%elem_of_nil. }
  pose proof (tls_demand_nonneg objects Hobj) as Hd. cbn [tls_demand foldr]. fold (tls_demand objects).
  destruct (has_tls o) eqn:Et; pose proof Et as E; unfold has_tls in E; rewrite ?negb_true_iff, ?negb_false_iff in E; rewrite E.
  2:{ specialize (IH c m id Hc Hm). destruct (layout_loop objects c m id) as [[[l e] m']|]; [|lia].
    destruct IH as (H1 & H2 & H3 & H4 & H5). split_and!; [by constructor|lia|lia|done|done|].
    intros x [->|?]%elem_of_cons Hx; [congruence|auto]. }
  destruct Ho as [?|Ho]; [lia|]. pose proof (alignment_pos _ Ho) as Hp. rewrite (proj2 (Z.eqb_neq (eo_tls_alignment o) 0)) by lia.
  destruct (_ || _) eqn:Eg; [unfold ELF_TLS_MAX_SIZE in *; lia|]. apply orb_false_iff in Eg as [Eg1 Eg2].
  destruct (align_tls_size_ok (c + eo_tls_memory_size o) (eo_tls_alignment o)) as (r & -> & Hr1 & Hr2);
    [done|unfold ELF_TLS_MAX_SIZE in *; lia|].
  destruct (ELF_TLS_MAX_SIZE <? r) eqn:Er; [lia|].
  specialize (IH r (if m <? eo_tls_alignment o then eo_tls_alignment o else m) (id + 1)).
  destruct (layout_loop objects r _ (id + 1)) as [[[l e] m']|].
  - destruct IH as (H1 & H2 & H3 & H4 & H5); [lia|by destruct (m <? _)|]. split_and!.
    + by constructor.
    + lia.
    + lia.
    + done.
    + destruct (m <? _) eqn:?; lia.
    + intros x [->|?]%elem_of_cons Hx; [destruct (m <? _) eqn:?; lia|auto].
  - assert (ELF_TLS_MAX_SIZE < r + tls_demand objects) by (apply IH; [lia|by destruct (m <? _)]). lia.
Qed.

(** ** What a layout gives *)

Lemma laid_end c id objects l e : laid c id objects l e -> Forall tls_ok objects -> c <= e.
Proof.
  induction 1 as [|???????? IH|???????? Ha Hr _ IH]; intros Hok; [lia|inversion_clear Hok; auto|].
  inversion_clear Hok as [|?? [Hs _] Hok']. specialize (IH Hok'). lia.
Qed.

Lemma laid_placed c id objects l e : laid c id objects l e -> Forall2 placed objects l.
Proof.
  induction 1 as [|?????? Ht|??????? Ht]; constructor; try done; unfold placed; by rewrite Ht.
Qed.

Lemma laid_ids c id objects l e : laid c id objects l e ->
  eo_tls_module_id <$> filter (fun o => has_tls o = true) l = seqZ id (Z.of_nat (length (filter (fun o => has_tls o = true) l))).
Proof.
  induction 1 as [|c id o objects l e Ht _ IH|c id o objects l e offset Ht _ _ _ IH]; [done| |].
  - rewrite filter_cons_False by (by rewrite Ht). done.
  - rewrite filter_cons_True by done. cbn [fmap list_fmap length]. rewrite IH, (seqZ_cons id) by lia. cbn. f_equal. f_equal; lia.
Qed.

(** The block of an object below the thread pointer. *)
Lemma laid_block c id objects l e i o : laid c id objects l e -> Forall tls_ok objects ->
  l !! i = Some o -> has_tls o = true ->
  (eo_tls_alignment o | eo_tls_offset o) /\ c + eo_tls_memory_size o <= eo_tls_offset o <= e.
Proof.
  intros HL. revert i. induction HL as [|c id x objects l e Ht _ IH|c id x objects l e offset Ht Ha Hr HL IH]; intros i Hok Hi Ho; [done|..].
  - inversion_clear Hok. destruct i; [injection Hi as <-; congruence|eauto].
  - inversion_clear Hok as [|?? [Hs _] Hok']. pose proof (laid_end _ _ _ _ _ HL Hok'). destruct i; [injection Hi as <-; cbn; split; [done|lia]|].
    destruct (IH i) as [? ?]; [done..|]. split; [done|lia].
Qed.

Lemma laid_disjoint c id objects l e i j o p : laid c id objects l e -> Forall tls_ok objects -> (i < j)%nat ->
  l !! i = Some o -> l !! j = Some p -> has_tls o = true -> has_tls p = true ->
  eo_tls_offset o <= eo_tls_offset p - eo_tls_memory_size p.
Proof.
  intros HL. revert i j. induction HL as [|c id x objects l e Ht _ IH|c id x objects l e offset Ht Ha Hr HL IH];
    intros i j Hok Hij Hi Hj Ho Hp; [done|..]; inversion_clear Hok as [|?? ? Hok']; (destruct j as [|j]; [lia|]); cbn in Hj.
  - destruct i; [injection Hi as <-; congruence|]. eapply (IH i j); eauto; lia.
  - destruct i; [injection Hi as <-|eapply (IH i j); eauto; lia]. cbn.
    destruct (laid_block _ _ _ _ _ _ _ HL Hok' Hj Hp). lia.
Qed.

(** A layout of static thread-local storage of [size] bytes below a thread pointer. *)
Record layout_ok (objects l : list ElfLoadedObject) (size : Z) : Prop := {
  ly_size : 0 <= size <= ELF_TLS_MAX_SIZE /\ (16 | size);
  ly_placed : Forall2 placed objects l;
  ly_modules : eo_tls_module_id <$> filter (fun o => has_tls o = true) l =
    seqZ 1 (Z.of_nat (length (filter (fun o => has_tls o = true) l)));
  ly_inside i o : l !! i = Some o -> has_tls o = true -> eo_tls_memory_size o <= eo_tls_offset o <= size;
  ly_aligned i o mapping : l !! i = Some o -> has_tls o = true -> (VM_PAGE_SIZE | mapping) ->
    (eo_tls_alignment o | mapping + size - eo_tls_offset o);
  ly_disjoint i j o p : (i < j)%nat -> l !! i = Some o -> l !! j = Some p -> has_tls o = true -> has_tls p = true ->
    eo_tls_offset o <= eo_tls_offset p - eo_tls_memory_size p }.

Lemma placed_alignment objects l i o' : Forall2 placed objects l -> l !! i = Some o' -> has_tls o' = true ->
  exists o, o ∈ objects /\ has_tls o = true /\ eo_tls_alignment o' = eo_tls_alignment o.
Proof.
  intros HF Hi Ht. destruct (Forall2_lookup_r _ _ _ _ _ HF Hi) as (o & Ho & Hp). exists o.
  split; [by eapply list_elem_of_lookup_2|]. unfold placed in Hp. destruct (has_tls o) eqn:E; [by rewrite Hp|congruence].
Qed.

Lemma laid_demand c id objects l e : laid c id objects l e -> e <= c + tls_demand objects.
Proof. induction 1 as [|?????? Ht|??????? Ht]; cbn [tls_demand foldr]; [lia|rewrite Ht; unfold tls_demand in *; lia..]. Qed.

Lemma layout_static_tls_ok objects : Forall tls_ok objects ->
  match layout_static_tls objects with
  | Some (l, size) => layout_ok objects l size
  | None => ELF_TLS_MAX_SIZE < tls_demand objects + VM_PAGE_SIZE
  end.
Proof.
  intros Hok. unfold layout_static_tls.
  assert (alignment_ok 16) as H16 by by exists 4. pose proof (layout_loop_laid objects 0 16 1 Hok) as HL.
  pose proof (tls_demand_nonneg _ Hok) as Hd.
  destruct (layout_loop objects 0 16 1) as [[[l e] m]|].
  2:{ assert (ELF_TLS_MAX_SIZE < 0 + tls_demand objects) by (apply HL; [unfold ELF_TLS_MAX_SIZE; lia|done]). unfold VM_PAGE_SIZE. lia. }
  destruct HL as (HL & He & Hm & Hm16 & Ho); [unfold ELF_TLS_MAX_SIZE; lia|done|].
  destruct (align_tls_size_ok e m) as (size & -> & Hs1 & Hs2); [done|unfold ELF_TLS_MAX_SIZE in *; lia|].
  pose proof (alignment_pos _ Hm) as Hmp. pose proof (laid_placed _ _ _ _ _ HL) as HF.
  destruct (size <=? ELF_TLS_MAX_SIZE) eqn:E; [|pose proof (laid_demand _ _ _ _ _ HL); unfold VM_PAGE_SIZE; lia].
  assert (forall i o, l !! i = Some o -> has_tls o = true -> alignment_ok (eo_tls_alignment o) /\ (eo_tls_alignment o | m)) as Hal.
  { intros i o Hi Ht. destruct (placed_alignment _ _ _ _ HF Hi Ht) as (x & Hx & Htx & ->).
    rewrite Forall_forall in Hok. destruct (Hok x Hx) as [_ [Hz|Ha]]; [unfold has_tls in Htx; lia|].
    split; [done|]. apply alignment_divide; auto. }
  split.
  - split; [lia|]. transitivity m; [|done]. by apply alignment_divide.
  - done.
  - by eapply laid_ids.
  - intros i o Hi Ht. destruct (laid_block _ _ _ _ _ _ _ HL Hok Hi Ht). lia.
  - intros i o mapping Hi Ht Hmap. destruct (laid_block _ _ _ _ _ _ _ HL Hok Hi Ht) as [Hdv _]. destruct (Hal i o Hi Ht) as [Ha Hdm].
    apply Z.divide_sub_r; [|done]. apply Z.divide_add_r; [|by transitivity m].
    transitivity VM_PAGE_SIZE; [|done]. by apply alignment_page.
  - intros i j o p Hij Hi Hj Ht Hu. by eapply laid_disjoint.
Qed.

(** ** The table of modules *)

(** Objects without storage have no module. *)
Definition no_module (o : ElfLoadedObject) : Prop := has_tls o = false -> eo_tls_module_id o = 0.

Lemma dtv_entries_filter l thread_pointer dtv count : Forall no_module l ->
  dtv_entries l thread_pointer dtv count = dtv_entries (filter (fun o => has_tls o = true) l) thread_pointer dtv count.
Proof.
  intros Hl. revert dtv count. induction Hl as [|o l Ho _ IH]; intros dtv count; [done|]. destruct (has_tls o) eqn:Ht.
  - rewrite filter_cons_True by done. cbn [dtv_entries]. by rewrite !IH.
  - rewrite filter_cons_False by congruence. cbn [dtv_entries]. rewrite (Ho Ht). apply IH.
Qed.

Lemma dtv_entries_seq l thread_pointer dtv a : 0 < a -> a + Z.of_nat (length l) <= ELF_TLS_DTV_ENTRIES ->
  length dtv = Z.to_nat ELF_TLS_DTV_ENTRIES -> eo_tls_module_id <$> l = seqZ a (Z.of_nat (length l)) ->
  exists dtv', dtv_entries l thread_pointer dtv (a - 1) = Some (dtv', a - 1 + Z.of_nat (length l)) /\
    length dtv' = length dtv /\
    (forall j, (j < Z.to_nat a)%nat -> dtv' !! j = dtv !! j) /\
    (forall i o, l !! i = Some o -> dtv' !! (Z.to_nat a + i)%nat = Some (u64 (thread_pointer - eo_tls_offset o))).
Proof.
  revert dtv a. induction l as [|o l IH]; intros dtv a Ha Hb Hd E.
  { exists dtv. cbn. split_and!; [f_equal; f_equal; lia|done..]. }
  cbn [length] in *. rewrite seqZ_cons in E by lia. injection E as E1 E2. cbn [dtv_entries]. rewrite E1.
  rewrite (proj2 (Z.eqb_neq a 0)), (proj2 (Z.leb_gt ELF_TLS_DTV_ENTRIES a)), (proj2 (Z.ltb_lt (a - 1) a)) by lia.
  set (dtv1 := edit_index a _ dtv). assert (length dtv1 = length dtv) as Hl1 by apply length_alter.
  destruct (IH dtv1 (a + 1)) as (dtv' & Er & Hl & Hlow & Hhigh); [lia|lia|congruence|etrans; [exact E2|f_equal; lia]|].
  exists dtv'. split_and!; [|congruence| |].
  - replace (a + 1 - 1) with a in Er by lia. rewrite Er. f_equal. f_equal. lia.
  - intros j Hj. rewrite Hlow by lia. apply list_lookup_alter_ne. lia.
  - intros [|i] x Hx.
    + injection Hx as <-. rewrite Nat.add_0_r, Hlow by lia. unfold dtv1, edit_index. rewrite list_lookup_alter_eq.
      destruct (lookup_lt_is_Some_2 dtv (Z.to_nat a)) as [v ->]; [lia|done].
    + cbn in Hx. replace (Z.to_nat a + S i)%nat with (Z.to_nat (a + 1) + i)%nat by lia. by apply Hhigh.
Qed.

(** The table that the loader writes has the address of the block of every module; the objects
    of a layout never overflow it. *)
Lemma dtv_entries_ok objects l size thread_pointer : (length objects <= Z.to_nat ELF_MAX_OBJECTS)%nat ->
  Forall no_module objects -> layout_ok objects l size ->
  exists dtv, dtv_entries l thread_pointer (replicate (Z.to_nat ELF_TLS_DTV_ENTRIES) 0) 0 =
      Some (dtv, Z.of_nat (length (filter (fun o => has_tls o = true) l))) /\
    forall i o, l !! i = Some o -> has_tls o = true ->
      dtv !! Z.to_nat (eo_tls_module_id o) = Some (u64 (thread_pointer - eo_tls_offset o)).
Proof.
  intros Hn Hm [_ HF Hids _ _ _]. pose proof (Forall2_length _ _ _ HF) as Hlen.
  pose proof (length_filter (fun o => has_tls o = true) l) as Hf.
  rewrite dtv_entries_filter.
  2:{ apply Forall_lookup. intros i o' Hi. destruct (Forall2_lookup_r _ _ _ _ _ HF Hi) as (o & Ho & Hp).
      rewrite Forall_lookup in Hm. specialize (Hm i o Ho). unfold placed in Hp. destruct (has_tls o) eqn:Ht; [|by subst o'].
      rewrite Hp. unfold no_module. cbn. unfold has_tls in *. cbn. congruence. }
  destruct (dtv_entries_seq (filter (fun o => has_tls o = true) l) thread_pointer (replicate (Z.to_nat ELF_TLS_DTV_ENTRIES) 0) 1)
    as (dtv & E & _ & _ & Hhigh); [lia|change ELF_TLS_DTV_ENTRIES with 129; change ELF_MAX_OBJECTS with 128 in Hn; lia|by rewrite length_replicate|done|].
  exists dtv. split; [exact E|]. intros i o Hi Ht.
  assert (o ∈ filter (fun o => has_tls o = true) l) as [j Hj]%list_elem_of_lookup_1.
  { apply list_elem_of_filter. split; [done|]. by eapply list_elem_of_lookup_2. }
  rewrite <- (Hhigh j o Hj). f_equal. assert ((eo_tls_module_id <$> filter (fun o => has_tls o = true) l) !! j = Some (eo_tls_module_id o)) as Hid.
  { by rewrite list_lookup_fmap, Hj. }
  rewrite Hids in Hid. apply lookup_seqZ in Hid. lia.
Qed.
