(* ===== verification/SymbolLookup.v ===== *)
(** * Looking symbols up by hash

    The linker of kernel/process.c looks a symbol up in the GNU hash table of an object when
    there is one, and goes through all symbols otherwise.  On a table as linkers write it, both
    ways have the same result. *)

From S2P Require Import Prelude Runtime Heap HeapFacts Interfaces Filesystem Vm Process Descriptors Ipc FileCalls MemCalls Elf.

(** ** Hash tables *)

Section table.
Context (rd : Z -> nat -> option (list Z)) (o : ElfLoadedObject).

Notation offset := (eo_gnu_hash_symbol_offset o).
Notation count := (eo_symbol_count o).

Definition bucket_of (name : list Z) : Z := gnu_symbol_hash name mod eo_gnu_hash_bucket_count o.

(** The last of its bucket. *)
Definition ends_bucket (names : list (list Z)) (i : nat) (name : list Z) : bool :=
  match names !! S i with Some next => negb (bucket_of next =? bucket_of name) | None => true end.

Definition symbol_named (index : Z) (name : list Z) : Prop :=
  exists s, read_object_symbol rd o index = Some s /\ sy_name s < eo_string_size o /\
    copy_mapped_string rd (u64 (eo_string_table o + sy_name s)) ELF_SYMBOL_NAME_MAX = Some name.

(** A symbol that others cannot use: undefined, or local. *)
Definition symbol_private (index : Z) : Prop :=
  exists s, read_object_symbol rd o index = Some s /\ (sy_section_index s = 0 \/ Z.shiftr (sy_information s) 4 = 0).

(** [rd] holds the hash table of the symbols [names], which start at [offset]: ordered by their
    buckets, each bucket with its first symbol, each symbol with its hash and a mark on the last
    of a bucket, and a filter that lets all of them through.  The versions that are asked for can be read. *)
Record gnu_table (names : list (list Z)) (version : list Z) : Prop := {
  gt_buckets : 0 < eo_gnu_hash_bucket_count o;
  gt_filter_size : 0 < eo_gnu_hash_bloom_size o;
  gt_offset : 0 < offset;
  gt_count : count = offset + Z.of_nat (length names);
  gt_sorted i j x y : (i <= j)%nat -> names !! i = Some x -> names !! j = Some y -> bucket_of x <= bucket_of y;
  gt_chain i x : names !! i = Some x -> exists c, read_int rd 4 (u64 (eo_gnu_hash_chains o + Z.of_nat i * 4)) = Some c /\
    Z.lor c 1 = Z.lor (gnu_symbol_hash x) 1 /\ Z.odd c = ends_bucket names i x;
  gt_bucket b : 0 <= b < eo_gnu_hash_bucket_count o ->
    read_int rd 4 (u64 (eo_gnu_hash_buckets o + b * 4)) = Some 0 /\ (forall x, x ∈ names -> bucket_of x <> b) \/
    exists i x, read_int rd 4 (u64 (eo_gnu_hash_buckets o + b * 4)) = Some (offset + Z.of_nat i) /\
      names !! i = Some x /\ bucket_of x = b /\ forall j y, (j < i)%nat -> names !! j = Some y -> bucket_of y <> b;
  gt_filter b : 0 <= b < eo_gnu_hash_bloom_size o -> exists word, read_int rd 8 (u64 (eo_gnu_hash_bloom o + b * 8)) = Some word /\
    forall x, x ∈ names -> (gnu_symbol_hash x / 64) mod eo_gnu_hash_bloom_size o = b ->
      Z.land word (bloom_mask o (gnu_symbol_hash x)) = bloom_mask o (gnu_symbol_hash x);
  gt_named i x : names !! i = Some x -> symbol_named (offset + Z.of_nat i) x;
  gt_version i x : names !! i = Some x -> exists b, symbol_version_matches rd o (offset + Z.of_nat i) version = Some b;
  gt_private i : 1 <= i < offset -> symbol_private i }.

Context (names : list (list Z)) (version : list Z) (GT : gnu_table names version).

(** ** One symbol *)

Lemma private_no_match name i : symbol_private i -> symbol_matches rd o name version i = Some None.
Proof.
  intros (s & E & Hs). unfold symbol_matches. rewrite E. destruct Hs as [->|Hs]; [done|]. rewrite Hs. by destruct (sy_section_index s =? 0).
Qed.

Lemma other_no_match name i x : names !! i = Some x -> x <> name -> symbol_matches rd o name version (offset + Z.of_nat i) = Some None.
Proof.
  intros Hi Hx. destruct (gt_named _ _ GT _ _ Hi) as (s & E & Hs & Ec). unfold symbol_matches. rewrite E.
  destruct (_ || _); [done|]. rewrite Ec. by rewrite bool_decide_false.
Qed.

Lemma named_readable name i x : names !! i = Some x -> exists r, symbol_matches rd o name version (offset + Z.of_nat i) = Some r.
Proof.
  intros Hi. destruct (gt_named _ _ GT _ _ Hi) as (s & E & Hs & Ec). unfold symbol_matches. rewrite E.
  destruct (_ || _); [eauto|]. rewrite Ec. destruct (negb _); [eauto|]. destruct (gt_version _ _ GT _ _ Hi) as [[] ->]; eauto.
Qed.

(** ** All symbols *)

Lemma search_table_skip name n i : 0 <= i -> i + Z.of_nat n <= count ->
  (forall j, i <= j < i + Z.of_nat n -> symbol_matches rd o name version j = Some None) ->
  search_table rd (Z.to_nat (count - i)) o name version i =
  search_table rd (Z.to_nat (count - (i + Z.of_nat n))) o name version (i + Z.of_nat n).
Proof.
  revert i. induction n as [|n IH]; intros i Hi Hn Hm; [by rewrite Z.add_0_r|].
  replace (Z.to_nat (count - i)) with (S (Z.to_nat (count - (i + 1)))) by lia. cbn [search_table].
  rewrite (proj2 (Z.leb_gt count i)), Hm by lia. rewrite (IH (i + 1)); [f_equal; lia|lia|lia|intros; apply Hm; lia].
Qed.

Lemma search_table_none name i : 0 <= i <= count ->
  (forall j, i <= j < count -> symbol_matches rd o name version j = Some None) ->
  search_table rd (Z.to_nat (count - i)) o name version i = Some None.
Proof.
  intros Hi Hm. rewrite (search_table_skip name (Z.to_nat (count - i)) i); [|lia|lia|intros; apply Hm; lia].
  by replace (count - (i + Z.of_nat (Z.to_nat (count - i)))) with 0 by lia.
Qed.

(** No symbol from the [i]-th on has the name, if none has its bucket. *)
Lemma no_bucket_no_match name i j : (forall k x, (i <= k)%nat -> names !! k = Some x -> x <> name) ->
  offset + Z.of_nat i <= j < count -> symbol_matches rd o name version j = Some None.
Proof.
  intros Hn Hj. rewrite (gt_count _ _ GT) in Hj. destruct (lookup_lt_is_Some_2 names (Z.to_nat (j - offset))) as [x Hx]; [lia|].
  replace j with (offset + Z.of_nat (Z.to_nat (j - offset))) by lia. eapply other_no_match; [exact Hx|]. eapply Hn; [|exact Hx]. lia.
Qed.

(** ** Chains *)

Lemma search_chain_table name i x : names !! i = Some x -> bucket_of x = bucket_of name ->
  search_chain rd (Z.to_nat (count - (offset + Z.of_nat i))) o name version (gnu_symbol_hash name) (offset + Z.of_nat i) =
  search_table rd (Z.to_nat (count - (offset + Z.of_nat i))) o name version (offset + Z.of_nat i).
Proof.
  assert (0 < offset) as Hoff by exact (gt_offset _ _ GT). pose proof (gt_count _ _ GT) as Hcount.
  remember (length names - i)%nat as m eqn:Em. revert i x Em. induction m as [|m IH]; intros i x Em Hi Hb;
    apply lookup_lt_Some in Hi as Hlt; [lia|].
  replace (Z.to_nat (count - (offset + Z.of_nat i))) with (S (Z.to_nat (count - (offset + Z.of_nat (S i))))) by lia.
  cbn [search_chain search_table]. rewrite (proj2 (Z.leb_gt count (offset + Z.of_nat i))) by lia.
  destruct (gt_chain _ _ GT _ _ Hi) as (c & Ec & Eh & Eo). replace (offset + Z.of_nat i - offset) with (Z.of_nat i) by lia. rewrite Ec.
  assert ((if Z.lor c 1 =? Z.lor (gnu_symbol_hash name) 1 then symbol_matches rd o name version (offset + Z.of_nat i) else Some None) =
          symbol_matches rd o name version (offset + Z.of_nat i)) as ->.
  { rewrite Eh. destruct (_ =? _) eqn:E; [done|]. symmetry. eapply other_no_match; [exact Hi|]. intros ->. lia. }
  destruct (named_readable name i x Hi) as [[v|] ->]; [done|].
  replace (offset + Z.of_nat i + 1) with (offset + Z.of_nat (S i)) by lia. rewrite Eo. unfold ends_bucket.
  destruct (names !! S i) as [y|] eqn:Ey.
  - destruct (negb _) eqn:E; [|eapply (IH (S i) y); [lia|done|lia]].
    symmetry. apply search_table_none; [lia|]. intros j Hj. eapply (no_bucket_no_match name (S i)); [|lia].
    intros k z Hk Hz ->. pose proof (gt_sorted _ _ GT _ _ _ _ Hk Ey Hz).
    pose proof (gt_sorted _ _ GT i (S i) _ _ ltac:(lia) Hi Ey). lia.
  - apply lookup_ge_None in Ey. symmetry. apply search_table_none; [lia|]. intros; lia.
Qed.

(** ** Both ways *)

Lemma find_symbol_table name :
  find_symbol_in_object rd o name version = search_table rd (Z.to_nat (count - 1)) o name version 1.
Proof.
  pose proof (gt_buckets _ _ GT) as Hb. pose proof (gt_filter_size _ _ GT) as Hf. assert (0 < offset) as Hoff by exact (gt_offset _ _ GT).
  pose proof (gt_count _ _ GT) as Hcount. unfold find_symbol_in_object. rewrite (proj2 (Z.eqb_neq _ 0)) by lia. cbn [negb]. cbv zeta.
  assert (forall i, (i <= length names)%nat -> (forall j x, (j < i)%nat -> names !! j = Some x -> x <> name) ->
    search_table rd (Z.to_nat (count - 1)) o name version 1 =
    search_table rd (Z.to_nat (count - (offset + Z.of_nat i))) o name version (offset + Z.of_nat i)) as Hskip.
  { intros i Hi Hn. rewrite (search_table_skip name (Z.to_nat (offset + Z.of_nat i - 1)) 1); [f_equal; lia|lia|lia|].
    intros j Hj. destruct (decide (j < offset)); [by apply private_no_match, (gt_private _ _ GT); lia|].
    destruct (lookup_lt_is_Some_2 names (Z.to_nat (j - offset))) as [x Hx]; [lia|].
    replace j with (offset + Z.of_nat (Z.to_nat (j - offset))) by lia. eapply other_no_match; [exact Hx|]. eapply Hn; [|exact Hx]. lia. }
  assert ((forall x, x ∈ names -> x <> name) -> search_table rd (Z.to_nat (count - 1)) o name version 1 = Some None) as Hnone.
  { intros Hn. rewrite (Hskip (length names)); [|lia|intros ? ? _ ?%list_elem_of_lookup_2; auto].
    apply search_table_none; [lia|]. intros; lia. }
  destruct (gt_filter _ _ GT _ (Z.mod_pos_bound (gnu_symbol_hash name / 64) _ Hf)) as (word & -> & Hw).
  destruct (negb _) eqn:E.
  { symmetry. apply Hnone. intros x Hx ->. specialize (Hw _ Hx eq_refl). lia. }
  destruct (gt_bucket _ _ GT _ (Z.mod_pos_bound (gnu_symbol_hash name) _ Hb)) as [[-> Hno]|(i & x & -> & Hi & Hx & Hfirst)].
  - rewrite (proj2 (Z.ltb_lt 0 offset)) by lia. symmetry. apply Hnone. intros x Hx ->. by eapply Hno.
  - rewrite (proj2 (Z.ltb_ge (offset + Z.of_nat i) offset)) by lia. apply lookup_lt_Some in Hi as Hlt.
    rewrite (search_chain_table name i x Hi Hx). symmetry. apply Hskip; [lia|]. intros j y Hj Hy ->. by eapply Hfirst.
Qed.

(** ** Counting the symbols *)

(** The walk along a chain passes the symbols of its bucket, and no others. *)
Lemma walk_chain_ok fuel i x m : offset + Z.of_nat (length names) <= ELF_MAX_SYMBOLS -> names !! i = Some x ->
  (Z.to_nat (ELF_MAX_SYMBOLS - (offset + Z.of_nat i)) <= fuel)%nat ->
  exists m', walk_chain rd fuel (eo_gnu_hash_chains o) offset (offset + Z.of_nat i) m = Some m' /\
    m <= m' <= Z.max m (offset + Z.of_nat (length names)) /\
    forall j y, (i <= j)%nat -> names !! j = Some y -> bucket_of y = bucket_of x -> offset + Z.of_nat j < m'.
Proof.
  intros Hmax. revert i x m. induction fuel as [|fuel IH]; intros i x m Hi Hf; apply lookup_lt_Some in Hi as Hlt; [lia|].
  cbn [walk_chain]. replace (offset + Z.of_nat i - offset) with (Z.of_nat i) by lia.
  destruct (gt_chain _ _ GT _ _ Hi) as (c & -> & _ & ->). cbv zeta. set (m1 := if m <=? offset + Z.of_nat i then _ else m).
  assert (m <= m1 <= Z.max m (offset + Z.of_nat i + 1) /\ offset + Z.of_nat i < m1) as [Hm1 Hi1].
  { unfold m1. destruct (m <=? offset + Z.of_nat i) eqn:E; lia. }
  destruct (ends_bucket names i x) eqn:Ee.
  { exists m1. split_and!; [done|lia|lia|]. intros j y Hj Hy Eb. destruct (decide (j = i)) as [->|]; [done|].
    unfold ends_bucket in Ee. destruct (names !! S i) as [z|] eqn:Hz.
    - pose proof (gt_sorted _ _ GT i (S i) _ _ ltac:(lia) Hi Hz). pose proof (gt_sorted _ _ GT (S i) j _ _ ltac:(lia) Hz Hy). lia.
    - apply lookup_ge_None in Hz. apply lookup_lt_Some in Hy. lia. }
  unfold ends_bucket in Ee. destruct (names !! S i) as [z|] eqn:Hz; [|done]. apply lookup_lt_Some in Hz as Hlz.
  rewrite (proj2 (Z.leb_gt _ _)) by lia. replace (offset + Z.of_nat i + 1) with (offset + Z.of_nat (S i)) by lia.
  destruct (IH (S i) z m1 Hz) as (m' & -> & Hm' & Hj'); [lia|]. exists m'. split_and!; [done|lia|lia|].
  intros j y Hj Hy Eb. destruct (decide (j = i)) as [->|]; [lia|]. apply (Hj' j y); [lia|done|lia].
Qed.

Lemma walk_buckets_ok n b m : offset + Z.of_nat (length names) <= ELF_MAX_SYMBOLS -> 0 <= b -> b + Z.of_nat n = eo_gnu_hash_bucket_count o ->
  offset <= m <= offset + Z.of_nat (length names) ->
  (forall j y, names !! j = Some y -> bucket_of y < b -> offset + Z.of_nat j < m) ->
  walk_buckets rd n (eo_gnu_hash_buckets o) (eo_gnu_hash_chains o) offset b m = Some (offset + Z.of_nat (length names)).
Proof.
  intros Hmax. revert b m. induction n as [|n IH]; intros b m Hb Hn Hm Hlow; cbn [walk_buckets].
  { f_equal. destruct (decide (length names = 0)%nat) as [E|E]; [lia|].
    destruct (lookup_lt_is_Some_2 names (length names - 1)) as [y Hy]; [lia|].
    pose proof (Z.mod_pos_bound (gnu_symbol_hash y) _ (gt_buckets _ _ GT)). specialize (Hlow _ _ Hy). unfold bucket_of in Hlow. lia. }
  assert (0 < offset) as Hoff by exact (gt_offset _ _ GT).
  destruct (gt_bucket _ _ GT b ltac:(lia)) as [[-> Hno]|(i & x & -> & Hi & Hx & Hfirst)]; cbn [Z.eqb].
  - apply IH; [lia|lia|lia|]. intros j y Hy Hlt. apply (Hlow j y Hy). specialize (Hno y (list_elem_of_lookup_2 _ _ _ Hy)). lia.
  - apply lookup_lt_Some in Hi as Hlt. rewrite (proj2 (Z.eqb_neq _ 0)) by lia.
    rewrite (proj2 (Z.ltb_ge _ _)), (proj2 (Z.leb_gt _ _)) by lia. cbn [orb].
    destruct (walk_chain_ok (Z.to_nat (ELF_MAX_SYMBOLS - (offset + Z.of_nat i))) i x m Hmax Hi) as (m' & -> & Hm' & Hj'); [lia|].
    apply IH; [lia|lia|lia|]. intros j y Hy Hlb. destruct (decide (bucket_of y = b)) as [E|E].
    + destruct (decide (j < i)%nat); [by destruct (Hfirst j y)|]. apply (Hj' j y); [lia|done|congruence].
    + specialize (Hlow j y Hy). lia.
Qed.

End table.

(** ** From the file to the lookup *)

(** The object whose hash table of [h0] buckets and a filter of [h2] words is at [address]. *)
Definition hashed_object (object : ElfLoadedObject) (address h0 h1 h2 h3 count : Z) : ElfLoadedObject :=
  set_eo_symbol_count count (set_eo_gnu_hash_bloom (address + 16) (set_eo_gnu_hash_buckets (address + 16 + h2 * 8)
    (set_eo_gnu_hash_chains (address + 16 + h2 * 8 + h0 * 4) (set_eo_gnu_hash_bucket_count h0 (set_eo_gnu_hash_symbol_offset h1
    (set_eo_gnu_hash_bloom_size h2 (set_eo_gnu_hash_bloom_shift h3 object))))))).

Lemma parse_gnu_hash_ok rd object address h0 h1 h2 h3 names version :
  let count := h1 + Z.of_nat (length names) in
  rd address 16%nat = Some (le 4 h0 ++ le 4 h1 ++ le 4 h2 ++ le 4 h3) ->
  0 < h0 <= ELF_MAX_SYMBOLS -> 0 < h2 <= ELF_MAX_SYMBOLS -> 0 <= h3 < 32 -> count <= ELF_MAX_SYMBOLS ->
  0 <= address -> address + 16 + h2 * 8 + h0 * 4 < 2 ^ 64 -> eo_symbol_count object < count ->
  gnu_table rd (hashed_object object address h0 h1 h2 h3 count) names version ->
  parse_gnu_hash rd object address = Some (hashed_object object address h0 h1 h2 h3 count).
Proof.
  intros count Hrd H0 H2 H3 Hc Ha Hb Hcount GT. pose proof (gt_offset _ _ _ _ GT) as H1. cbn in H1.
  unfold ELF_MAX_SYMBOLS in *. unfold parse_gnu_hash. rewrite Hrd. cbv zeta.
  assert (forall x, 0 <= x <= 4194304 -> of_le (le 4 x) = x) as Hle by (intros; apply of_le_le_small; cbn; lia).
  assert (field 0 4 (le 4 h0 ++ le 4 h1 ++ le 4 h2 ++ le 4 h3) = h0) as -> by (etrans; [|apply (Hle h0); lia]; done).
  assert (field 4 4 (le 4 h0 ++ le 4 h1 ++ le 4 h2 ++ le 4 h3) = h1) as -> by (etrans; [|apply (Hle h1); lia]; done).
  assert (field 8 4 (le 4 h0 ++ le 4 h1 ++ le 4 h2 ++ le 4 h3) = h2) as -> by (etrans; [|apply (Hle h2); lia]; done).
  assert (field 12 4 (le 4 h0 ++ le 4 h1 ++ le 4 h2 ++ le 4 h3) = h3) as -> by (etrans; [|apply (Hle h3); lia]; done).
  unfold ELF_MAX_SYMBOLS. rewrite (proj2 (Z.eqb_neq h0 0)), (proj2 (Z.eqb_neq h2 0)), (proj2 (Z.ltb_ge 4194304 h0)),
    (proj2 (Z.ltb_ge 4194304 h1)), (proj2 (Z.ltb_ge 4194304 h2)), (proj2 (Z.leb_gt 32 h3)) by lia. cbn [orb].
  rewrite (wrap_small 64 (address + 16)), (wrap_small 64 (address + 16 + h2 * 8)), (wrap_small 64 (address + 16 + h2 * 8 + h0 * 4)) by lia.
  rewrite (proj2 (Z.ltb_ge (address + 16) _)), (proj2 (Z.ltb_ge (address + 16 + h2 * 8) _)),
    (proj2 (Z.ltb_ge (address + 16 + h2 * 8 + h0 * 4) _)) by lia. cbn [orb].
  pose proof (walk_buckets_ok _ _ _ _ GT (Z.to_nat h0) 0 h1) as HW. cbn in HW. rewrite HW; [|unfold ELF_MAX_SYMBOLS; lia|lia|lia|lia|].
  - cbn. rewrite (proj2 (Z.ltb_lt _ _)) by lia. done.
  - intros j y Hy Hneg. unfold bucket_of in Hneg. cbn in Hneg. pose proof (Z.mod_pos_bound (gnu_symbol_hash y) h0). lia.
Qed.
