(* ===== verification/LoaderFrame.v ===== *)
(** * What the loader leaves alone

    Loading a program changes memory, the console, and the address space that is filled; it
    leaves every other address space, the process table and all other tables of the kernel as
    they are.  So a program that cannot be loaded does no harm to the one that asked for it. *)

From S2P Require Import Prelude Runtime Heap HeapFacts Interfaces Filesystem FsTree Vm Process Descriptors Ipc FileCalls MemCalls Elf ElfLoader Tasks Syscalls ProcessTable.

Create HintDb apart discriminated.

Section frame.
Context {D H : Type} `{!BlockDevice D} `{!Allocator H}.

Notation Kernel := (@Kernel D H).
Notation K := (st Kernel).

(** Everything but memory, the console and the address spaces. *)
Definition bystanders (k : Kernel) :=
  (k_processes k, k_pipe_objects k, k_socket_pairs k, k_epoll_objects k, k_event_objects k, k_timer_objects k, k_memfd_objects k,
   FsTree.tables (k_fs k), (k_context k, k_scheduler_ticks k, k_current_slot k, k_last_slot k, k_foreground_slot k, k_next_pid k,
   k_syscall_counter k, k_cow_fault_counter k, k_demand_fault_counter k)).

(** And the address spaces, with the number of references only of the one at [pointer]. *)
Definition around (pointer : Z) (k : Kernel) :=
  (bystanders k, delete pointer (k_spaces k), as_references <$> k_spaces k !! pointer).

Definition apart (pointer : Z) {A} (m : K A) : Prop := forall k, around pointer (m k).2 = around pointer k.

Lemma apart_ret p {A} (a : A) : apart p (ret a).
Proof. done. Qed.

Lemma apart_gets p {A} (f : Kernel -> A) : apart p (gets f).
Proof. done. Qed.

Lemma apart_bind p {A B} (m : K A) (f : A -> K B) : apart p m -> (forall a, apart p (f a)) -> apart p (bind m f).
Proof. intros Hm Hf k. unfold bind. specialize (Hm k). destruct (m k) as [a k']. rewrite <- Hm. apply Hf. Qed.

Lemma apart_on_memory p {A} (op : st VmWorld A) : apart p (on_memory op).
Proof. intros k. unfold on_memory. by destruct (op _). Qed.

Lemma apart_on_fs p {A} (op : st FsState A) : quiet op -> apart p (on_fs op).
Proof.
  intros Hq k. unfold on_fs. specialize (Hq (with_heap (vw_heap (k_world k)) (k_fs k))). destruct (op _) as [a f].
  unfold around, bystanders. cbn in *. by rewrite Hq.
Qed.

Lemma apart_on_space_at p {A} (failed : A) op : apart p (on_space_at p failed op).
Proof.
  intros k. unfold on_space_at. destruct (k_spaces k !! p) as [a|] eqn:E; [|done]. destruct (op _) as [r s].
  unfold around. cbn. by rewrite delete_insert_eq, lookup_insert_eq, E.
Qed.

Lemma apart_edit_space p f : (forall a, as_references (f a) = as_references a) -> apart p (edit_space p f : K unit).
Proof.
  intros Hf k. unfold edit_space, modify, around. cbn. rewrite delete_alter_eq, lookup_alter_eq.
  destruct (k_spaces k !! p); cbn; by rewrite ?Hf.
Qed.

Lemma apart_serial_write p t : apart p (serial_write t : K unit).
Proof. done. Qed.

End frame.

#[export] Hint Resolve apart_ret apart_gets apart_on_memory apart_on_space_at apart_serial_write : apart.

Ltac apart_step :=
  match goal with
  | |- forall _, _ => intros ?
  | |- apart _ (bind _ _) => apply apart_bind
  | |- apart _ (if ?b then _ else _) => destruct b
  | |- apart _ (match ?x with _ => _ end) => destruct x
  | |- apart _ (on_fs _) => apply apart_on_fs; solve [eauto with nova nocore]
  | |- apart _ (edit_space _ _) => by apply apart_edit_space
  | |- apart _ _ => solve [eauto with apart]
  | |- apart _ ?m => let h := head_of m in progress unfold h
  end.

Ltac apart := repeat (cbv zeta; apart_step).

Section loader.
Context {D H : Type} `{!BlockDevice D} `{!Allocator H}.

Notation Kernel := (@Kernel D H).
Notation K := (st Kernel).
Implicit Types p : Z.

Lemma apart_map_pages n pointer page protection : apart pointer (map_pages n pointer page protection : K nat).
Proof. revert page protection. induction n; intros; cbn [map_pages]; apart. Qed.
#[local] Hint Resolve apart_map_pages : apart.

Lemma apart_unmap_pages n pointer page : apart pointer (unmap_pages n pointer page : K unit).
Proof. revert page. induction n; intros; cbn [unmap_pages]; apart. Qed.
#[local] Hint Resolve apart_unmap_pages : apart.

Lemma apart_load_file fuel pointer name offset address copy completed : apart pointer (load_file fuel pointer name offset address copy completed : K bool).
Proof. revert name offset address copy completed. induction fuel; intros; cbn [load_file]; apart. Qed.
#[local] Hint Resolve apart_load_file : apart.

Lemma apart_find_interpreter p name size allowed segments found : apart p (find_interpreter name size allowed segments found : K (option (list Z))).
Proof. revert name size allowed found. induction segments; intros; cbn [find_interpreter]; apart. Qed.
#[local] Hint Resolve apart_find_interpreter : apart.

Lemma apart_map_segments pointer name size segments o maximum_end : apart pointer (map_segments pointer name size segments o maximum_end : K (option (ElfLoadedObject * Z))).
Proof. revert name size o maximum_end. induction segments; intros; cbn [map_segments]; apart. Qed.
#[local] Hint Resolve apart_map_segments : apart.

Lemma apart_map_elf_object pointer name bias maximum_end want_entry allow_interpreter : apart pointer (map_elf_object pointer name bias maximum_end want_entry allow_interpreter : K (option MappedObject)).
Proof. unfold map_elf_object. apart. Qed.
#[local] Hint Resolve apart_map_elf_object : apart.

Lemma apart_load_needed pointer o needed objects library_number : apart pointer (load_needed pointer o needed objects library_number : K (option (list ElfLoadedObject * Z))).
Proof. revert o objects library_number. induction needed; intros; cbn [load_needed]; apart. Qed.
#[local] Hint Resolve apart_load_needed : apart.

Lemma apart_load_needed_objects fuel pointer objects index library_number : apart pointer (load_needed_objects fuel pointer objects index library_number : K (option (list ElfLoadedObject))).
Proof. revert objects index library_number. induction fuel; intros; cbn [load_needed_objects]; apart. Qed.
#[local] Hint Resolve apart_load_needed_objects : apart.

Lemma apart_relocation_loop n pointer objects o address : apart pointer (relocation_loop n pointer objects o address : K bool).
Proof. revert objects o address. induction n; intros; cbn [relocation_loop]; apart. Qed.
#[local] Hint Resolve apart_relocation_loop : apart.

Lemma apart_relocate_objects pointer all objects : apart pointer (relocate_objects pointer all objects : K bool).
Proof. revert all. induction objects; intros; cbn [relocate_objects]; apart. Qed.
#[local] Hint Resolve apart_relocate_objects : apart.

Lemma apart_protect_segments pointer segments : apart pointer (protect_segments pointer segments : K bool).
Proof. induction segments; intros; cbn [protect_segments]; apart. Qed.
#[local] Hint Resolve apart_protect_segments : apart.

Lemma apart_copy_image fuel pointer source destination size copied : apart pointer (copy_image fuel pointer source destination size copied : K bool).
Proof. revert source destination size copied. induction fuel; intros; cbn [copy_image]; apart. Qed.
#[local] Hint Resolve apart_copy_image : apart.

Lemma apart_copy_images pointer thread_pointer objects : apart pointer (copy_images pointer thread_pointer objects : K bool).
Proof. revert thread_pointer. induction objects; intros; cbn [copy_images]; apart. Qed.
#[local] Hint Resolve apart_copy_images : apart.

Lemma apart_initialize_static_tls pointer objects static_size : apart pointer (initialize_static_tls pointer objects static_size : K (option (Z * Z * Z))).
Proof. unfold initialize_static_tls. apart. Qed.
#[local] Hint Resolve apart_initialize_static_tls : apart.

Lemma apart_prepare_interpreter_startup pointer objects final_entry : apart pointer (prepare_interpreter_startup pointer objects final_entry : K (option (Z * Z))).
Proof. unfold prepare_interpreter_startup. apart. Qed.
#[local] Hint Resolve apart_prepare_interpreter_startup : apart.

Lemma apart_load_elf_image pointer name : apart pointer (load_elf_image pointer name : K (option LoadedImage)).
Proof. unfold load_elf_image. apart. Qed.
#[local] Hint Resolve apart_load_elf_image : apart.

(** ** Making and dropping an address space *)

(** A new address space has one reference and is all that changes. *)
Lemma address_space_create_around (k : Kernel) p k' : address_space_create k = (p, k') ->
  if p =? 0 then bystanders k' = bystanders k /\ k_spaces k' = k_spaces k
  else around p k' = (bystanders k, delete p (k_spaces k), Some 1).
Proof.
  unfold address_space_create, bind, on_memory, ret, modify. destruct (vm_alloc _ _) as [q w].
  destruct (q =? 0) eqn:E; [by intros [= <- <-]|].
  destruct (vm_space_create _) as [[] s]; cbn [negb fst snd]; cbn.
  - intros [= <- <-]. rewrite E. unfold around. cbn. by rewrite delete_insert_eq, lookup_insert_eq.
  - by intros [= <- <-].
Qed.

(** Dropping the last reference undoes it. *)
Lemma address_space_release_around p (k k0 : Kernel) : p <> 0 -> around p k = (bystanders k0, delete p (k_spaces k0), Some 1) ->
  k_spaces k0 !! p = None ->
  bystanders (address_space_release p k).2 = bystanders k0 /\ k_spaces (address_space_release p k).2 = k_spaces k0.
Proof.
  intros Hp [[Eb Es]%pair_equal_spec Er]%pair_equal_spec Hn. unfold address_space_release. rewrite (proj2 (Z.eqb_neq p 0) Hp), bind_gets.
  destruct (k_spaces k !! p) as [a|] eqn:Ea; [|done]. cbn in Er. injection Er as Er. rewrite Er. change (0 <? 1 - 1) with false. cbv zeta iota.
  unfold bind, modify. destruct (vm_space_destroy _) as [u s]. rewrite (delete_id (k_spaces k0)) in Es by done.
  by destruct (as_tls_template a =? 0).
Qed.

Lemma replace_fails slot name (k k' : Kernel) : k_spaces k !! (address_space_create k).1 = None ->
  replace_current_image slot name k = (false, k') -> bystanders k' = bystanders k /\ k_spaces k' = k_spaces k.
Proof.
  intros Hn. unfold replace_current_image. destruct (address_space_create k) as [p k1] eqn:Ec.
  rewrite (bind_run _ _ _ _ _ Ec). pose proof (address_space_create_around _ _ _ Ec) as Ha. cbn in Hn.
  destruct (p =? 0) eqn:Ep.
  - unfold bind at 1. cbn [ret]. unfold address_space_release. rewrite Ep. by intros [= <-].
  - pose proof (apart_load_elf_image p name k1) as Hl. destruct (load_elf_image p name k1) as [image k2] eqn:El.
    rewrite (bind_run _ _ _ _ _ El). cbn [snd] in Hl. destruct image as [i|].
    + rewrite !bind_gets, bind_modify. unfold bind, ret. repeat case_match; by intros [=].
    + unfold bind. pose proof (address_space_release_around p k2 k ltac:(lia) ltac:(congruence) Hn) as Hr.
      destruct (address_space_release p k2) as [u k3]. by intros [= <-].
Qed.

End loader.
