(* ===== verification/ElfFacts.v ===== *)
(** * What the loader accepts

    Whatever a file contains, the objects that the loader of kernel/process.c maps lie in the
    range for programs, with sizes and alignments that the rest of the linker relies on. *)

From S2P Require Import Prelude Runtime Heap HeapFacts Interfaces Filesystem FsNames FsTree Vm VmFrames VmOps Process Descriptors Ipc FileCalls MemCalls Elf ElfLoader Tasks Syscalls ProcessTable TlsLayout.

(** ** Names *)

(** A file name that stays in one directory: no slash, and no two dots in a row. *)
Definition plain_name (base : list Z) : Prop :=
  base <> [] /\ (length base <= FS_NAME_MAX)%nat /\ SLASH ∉ base /\ forall a b, base <> a ++ [DOT; DOT] ++ b.

(** The part of a path after its last slash. *)
Definition last_part (path base : list Z) : Prop :=
  SLASH ∉ base /\ (path = base \/ exists dir, path = dir ++ SLASH :: base).

Lemma base_of_plain path base : SLASH ∉ path -> base_of path base = base.
Proof.
  revert base. induction path as [|c path IH]; intros base Hn; [done|]. apply not_elem_of_cons in Hn as [Hc Hn]. cbn [base_of].
  rewrite (proj2 (Z.eqb_neq c SLASH)) by congruence. by apply IH.
Qed.

Lemma base_of_slash path base : SLASH ∈ path -> exists dir, path = dir ++ SLASH :: base_of path base /\ SLASH ∉ base_of path base.
Proof.
  revert base. induction path as [|c path IH]; intros base Hs; [by apply elem_of_nil in Hs|]. cbn [base_of].
  destruct (decide (SLASH ∈ path)) as [Hp|Hp].
  - destruct (IH (if c =? SLASH then path else base) Hp) as (dir & E & Hn). exists (c :: dir). split; [cbn; by f_equal|done].
  - apply elem_of_cons in Hs as [<-|?]; [|done]. rewrite Z.eqb_refl, base_of_plain by done. by exists [].
Qed.

Lemma base_of_last path : last_part path (base_of path path).
Proof.
  destruct (decide (SLASH ∈ path)) as [Hp|Hp].
  - destruct (base_of_slash path path Hp) as (dir & E & Hn). split; [done|]. right. by exists dir.
  - rewrite base_of_plain by done. by split; [|left].
Qed.

Lemma last_part_unique path a b : last_part path a -> last_part path b -> a = b.
Proof.
  intros [Ha Ea] [Hb Eb].
  assert (forall x y dx dy, SLASH ∉ x -> SLASH ∉ y -> dx ++ SLASH :: x = dy ++ SLASH :: y -> x = y) as Hu.
  { intros x y dx. induction dx as [|c dx IH]; intros [|d dy] Hx Hy E; cbn in E; apply (f_equal tail) in E as E2; cbn in E2.
    - done.
    - subst x. exfalso. apply Hx. set_solver.
    - subst y. exfalso. apply Hy. set_solver.
    - by eapply IH. }
  destruct Ea as [->|(da & ->)], Eb as [E|(db & E)]; subst; [done|exfalso; apply Ha; set_solver|exfalso; apply Hb; set_solver|by eapply Hu].
Qed.

Lemma bad_name_false base : bad_name base = false <-> SLASH ∉ base /\ forall a b, base <> a ++ [DOT; DOT] ++ b.
Proof.
  induction base as [|c base IH]; cbn [bad_name].
  { split; [|done]. intros _. split; [apply not_elem_of_nil|]. by intros [|? ?] b. }
  rewrite !orb_false_iff, IH, not_elem_of_cons, andb_false_iff, !Z.eqb_neq. split.
  - intros [[Hd Hc] [Hs Hn]]. split; [by split; congruence|]. intros [|x a] b E; cbn in E; injection E as -> ->; [|by eapply Hn].
    cbn in Hd. by destruct Hd.
  - intros [[Hc Hs] Hn]. split_and!; [|congruence|done|].
    + destruct base as [|d base]; [right; done|]. cbn. destruct (decide (c = DOT)) as [->|]; [right|by left]. intros ->. by apply (Hn [] base).
    + intros a b ->. by apply (Hn (c :: a) b).
Qed.

Lemma elf_basename_spec path base : elf_basename path = Some base <-> last_part path base /\ plain_name base.
Proof.
  unfold elf_basename, plain_name. cbv zeta. pose proof (base_of_last path) as HL. set (found := base_of path path) in *.
  destruct (_ || _) eqn:E.
  - split; [done|]. intros [Hb (Hn & Hl & Hs)]. rewrite (last_part_unique _ _ _ HL Hb) in E.
    rewrite (bool_decide_false (base = [])), (proj2 (bad_name_false base) Hs) in E by done. lia.
  - apply orb_false_iff in E as [[E1%bool_decide_eq_false E2]%orb_false_iff E3%bad_name_false]. split.
    + intros [= <-]. split_and!; [done|done|lia|apply E3..].
    + intros [Hb _]. f_equal. by eapply last_part_unique.
Qed.

(** ** Bytes from files *)

Section files.
Context {D H : Type} `{!BlockDevice D} `{!Allocator H}.

Notation Kernel := (@Kernel D H).
Notation K := (st Kernel).
Implicit Types s : FsState (D:=D) (H:=H).

Definition returns_bytes (r : option (list Z)) : Prop := forall l, r = Some l -> bytes l.

Lemma read_loop_bytes fuel start offset capacity buffer s : bytes buffer ->
  wp (read_loop fuel start offset capacity buffer) (fun r _ => returns_bytes r) s.
Proof.
  revert buffer s. induction fuel as [|fuel IH]; intros buffer s Hb; cbn [read_loop]; destruct (_ <? capacity);
    try (apply wp_ret; by intros l [= <-]).
  apply wp_bind. unfold wp at 1, ata_read_sector. destruct (bd_read _ _) as [[data|] d] eqn:E; cbn; [|by apply wp_ret].
  apply IH. destruct (bd_read_frame _ _ _ _ E) as (_ & _ & _ & Hd). destruct (Hd data eq_refl) as [-> _].
  apply bytes_app. split; [done|]. apply bytes_slice, bd_sector_ok.
Qed.

Lemma fs_read_at_bytes name offset capacity s : wp (fs_read_at name offset capacity) (fun r _ => returns_bytes r) s.
Proof.
  unfold fs_read_at. apply wp_bind, wp_gets. destruct (_ || _); [by apply wp_ret|].
  apply wp_bind. unfold wp at 1. destruct (resolve_entry name s) as [[index|] s1]; cbn [fst snd]; [|by apply wp_ret].
  apply wp_bind, wp_gets, wp_bind, wp_gets. destruct (_ || _); [by apply wp_ret|].
  unfold read_entry_data, read_raw_data. destruct (_ <=? offset); [apply wp_ret; intros l [= <-]; constructor|].
  apply wp_bind. unfold wp at 1. destruct (alloc _ _) as [sector s2]; cbn [fst snd]. destruct (sector =? 0); [by apply wp_ret|].
  apply wp_bind. eapply wp_mono; [apply read_loop_bytes, Forall_nil_2|]. intros r s3 Hr. apply wp_bind. unfold wp at 1.
  destruct (free _ _) as [u s4]; cbn [fst snd]. apply wp_ret. destruct r as [l|]; [|done]. destruct (_ <? _); [done|exact Hr].
Qed.

Lemma read_exactly_bytes name offset size (k : Kernel) : returns_bytes (read_exactly name offset size k).1.
Proof.
  unfold read_exactly, bind, on_fs. pose proof (fs_read_at_bytes name offset size (with_heap (vw_heap (k_world k)) (k_fs k))) as Hb.
  unfold wp in Hb. destruct (fs_read_at _ _ _ _) as [[l|] f]; cbn in *; [|done]. destruct (_ =? size); [exact Hb|done].
Qed.

End files.

(** ** Reading twice *)

(** An operation that, run in states related by [R], leaves its state related to itself and, where
    it has a result both times, has the same result. *)
Definition repeatable {S} (R : relation S) {A} (m : st S (option A)) : Prop :=
  forall s1 s2, R s1 s2 -> R (m s1).2 s1 /\ forall a b, (m s1).1 = Some a -> (m s2).1 = Some b -> a = b.

Section repeatable.
Context {S : Type} (R : relation S) `{!Equivalence R}.

Lemma repeatable_state {A} (m : st S (option A)) s : repeatable R m -> R (m s).2 s.
Proof. intros Hm. apply (Hm s s). reflexivity. Qed.

Lemma repeatable_ret {A} (r : option A) : repeatable R (ret r).
Proof. intros s1 s2 _. split; [reflexivity|]. cbn. congruence. Qed.

Lemma repeatable_gets {A B} (f : S -> A) (g : A -> st S (option B)) : (forall s1 s2, R s1 s2 -> f s1 = f s2) ->
  (forall a, repeatable R (g a)) -> repeatable R (bind (gets f) g).
Proof. intros Hf Hg s1 s2 Hs. rewrite !bind_gets, <- (Hf s1 s2 Hs). by apply Hg. Qed.

Lemma repeatable_bind {A B} (m : st S (option A)) (g : option A -> st S (option B)) : repeatable R m ->
  g None = ret None -> (forall a, repeatable R (g (Some a))) -> repeatable R (bind m g).
Proof.
  intros Hm Hn Hg s1 s2 Hs. unfold bind. destruct (Hm s1 s2 Hs) as [H1 Heq]. pose proof (repeatable_state m s2 Hm) as H2.
  destruct (m s1) as [[a|] t1], (m s2) as [[b|] t2]; cbn in *; rewrite ?Hn; cbn [ret].
  - rewrite (Heq a b eq_refl eq_refl). assert (R t1 t2) as Ht by (etrans; [exact H1|]; etrans; [exact Hs|by symmetry]).
    destruct (Hg b t1 t2 Ht) as [G1 G2]. split; [by etrans|done].
  - split; [|done]. etrans; [apply repeatable_state, Hg|done].
  - by split.
  - by split.
Qed.

End repeatable.

(** The same tables in memory and the same bytes on the disk. *)
Definition same_store {D H} `{!BlockDevice D} (s1 s2 : FsState (D:=D) (H:=H)) : Prop :=
  FsTree.tables s1 = FsTree.tables s2 /\ forall lba, bd_sector (disk s1) lba = bd_sector (disk s2) lba.

#[export] Instance same_store_equivalence {D H} `{!BlockDevice D} : Equivalence (same_store (D:=D) (H:=H)).
Proof.
  split; [done|intros ? ? [? ?]; split; by symmetry|].
  intros s1 s2 s3 [T1 E1] [T2 E2]. split; [congruence|]. intros lba. by rewrite E1.
Qed.

Section store.
Context {D H : Type} `{!BlockDevice D} `{!Allocator H}.

Implicit Types s : FsState (D:=D) (H:=H).

Lemma repeatable_read_sector lba : repeatable same_store (ata_read_sector lba : st (FsState (D:=D) (H:=H)) _).
Proof.
  intros s1 s2 [_ Hs]. unfold ata_read_sector. destruct (bd_read lba (disk s1)) as [r1 d1] eqn:E1, (bd_read lba (disk s2)) as [r2 d2] eqn:E2.
  apply bd_read_frame in E1 as (F1 & _ & _ & R1), E2 as (_ & _ & _ & R2). cbn. split; [by split|].
  intros a b -> ->. destruct (R1 a eq_refl) as [-> _], (R2 b eq_refl) as [-> _]. apply Hs.
Qed.

Lemma repeatable_read_loop fuel start offset capacity buffer :
  repeatable same_store (read_loop fuel start offset capacity buffer : st (FsState (D:=D) (H:=H)) _).
Proof.
  revert buffer. induction fuel as [|fuel IH]; intros buffer; cbn [read_loop]; destruct (_ <? _); try apply repeatable_ret, _.
  apply repeatable_bind; [apply _|apply repeatable_read_sector|done|]. intros data. apply IH.
Qed.

Lemma repeatable_read_entry_data e offset capacity :
  repeatable same_store (read_entry_data e offset capacity : st (FsState (D:=D) (H:=H)) _).
Proof.
  unfold read_entry_data, read_raw_data. destruct (_ <=? _); [apply repeatable_ret, _|]. cbv zeta.
  intros s1 s2 Hs. unfold bind, alloc. destruct (al_alloc SECTOR_SIZE (heap s1)) as [p1 h1], (al_alloc SECTOR_SIZE (heap s2)) as [p2 h2].
  set (fuel := read_fuel _). set (cap := Z.min _ _).
  assert (same_store (with_heap h1 s1) (with_heap h2 s2)) as Hh by exact Hs.
  destruct (repeatable_read_loop fuel (fe_start_lba e) offset cap [] _ _ Hh) as [H1 Heq].
  destruct (p1 =? 0), (p2 =? 0); cbn [ret fst snd]; [by split..| |];
    destruct (read_loop _ _ _ _ _ (with_heap h1 s1)) as [r1 t1], (read_loop _ _ _ _ _ (with_heap h2 s2)) as [r2 t2];
    cbn in *; (split; [exact H1|]); [done|].
  intros a b. destruct r1 as [a'|], r2 as [b'|]; try done. rewrite (Heq a' b' eq_refl eq_refl). congruence.
Qed.

Lemma repeatable_resolve_loop depth resolved : repeatable same_store (resolve_loop depth resolved : st (FsState (D:=D) (H:=H)) _).
Proof.
  revert resolved. induction depth as [|depth IH]; intros resolved; cbn [resolve_loop]; [apply repeatable_ret, _|].
  apply repeatable_gets. { intros s1 s2 [[= _ -> _ _ _] _]. done. }
  intros [index|]; [|apply repeatable_ret, _]. apply repeatable_gets. { intros s1 s2 [[= _ -> _ _ _] _]. done. }
  intros e. destruct (negb _); [apply repeatable_ret, _|]. destruct (_ || _); [apply repeatable_ret, _|].
  apply repeatable_bind; [apply _|apply repeatable_read_entry_data|done|]. intros target. destruct (negb _); [apply repeatable_ret, _|].
  destruct (link_name _ _); [apply IH|apply repeatable_ret, _].
Qed.

Lemma repeatable_fs_read_at name offset capacity : repeatable same_store (fs_read_at name offset capacity : st (FsState (D:=D) (H:=H)) _).
Proof.
  unfold fs_read_at. apply repeatable_gets. { intros s1 s2 [[= _ _ -> _ _] _]. done. }
  intros ready. destruct (_ || _); [apply repeatable_ret, _|].
  apply repeatable_bind; [apply _|apply repeatable_resolve_loop|done|]. intros index.
  apply repeatable_gets. { intros s1 s2 [[= _ -> _ _ _] _]. done. } intros e.
  apply repeatable_gets. { intros s1 s2 [[= _ _ _ E1 E2] _]. unfold may_read. by rewrite E1, E2. } intros readable.
  destruct (_ || _); [apply repeatable_ret, _|apply repeatable_read_entry_data].
Qed.

Lemma repeatable_fs_path_info name : repeatable same_store (fs_path_info name true : st (FsState (D:=D) (H:=H)) _).
Proof.
  unfold fs_path_info. apply repeatable_gets. { intros s1 s2 [[= _ _ -> _ _] _]. done. }
  intros ready. destruct (_ || _); [apply repeatable_ret, _|].
  apply repeatable_bind; [apply _|apply repeatable_resolve_loop|done|]. intros index.
  apply repeatable_gets. { intros s1 s2 [[= _ -> _ _ _] _]. done. } intros e. apply repeatable_ret, _.
Qed.

End store.

Lemma field_bound off n l : bytes l -> 0 <= field off n l < 2 ^ (8 * Z.of_nat n).
Proof.
  intros Hl. pose proof (of_le_bound (slice off n l) (bytes_slice off n l Hl)) as Hb. unfold field, slice in *.
  split; [lia|]. eapply Z.lt_le_trans; [apply Hb|]. apply Z.pow_le_mono_r; [lia|]. rewrite length_take. lia.
Qed.

(** ** Segments *)

(** The fields of a program header are words of 64 bits. *)
Definition header_ok (s : Elf64ProgramHeader) : Prop :=
  0 <= ph_file_size s < 2 ^ 64 /\ 0 <= ph_memory_size s < 2 ^ 64 /\ 0 <= ph_alignment s < 2 ^ 64.

Lemma decode_segment_ok l : bytes l -> header_ok (decode_segment l).
Proof. intros Hl. unfold header_ok, decode_segment. cbn. split_and!; by apply (field_bound _ 8). Qed.

(** A range of whole pages of the range for programs. *)
Definition mapped_ok (m : ElfMappedSegment) : Prop :=
  (VM_PAGE_SIZE | ms_start m) /\ (VM_PAGE_SIZE | ms_size m) /\ 0 <= ms_size m /\
  VM_USER_BASE <= ms_start m /\ ms_start m + ms_size m <= VM_USER_LOAD_LIMIT.

(** The block of thread-local storage comes from the range for programs. *)
Definition tls_image_ok (o : ElfLoadedObject) : Prop :=
  has_tls o = true -> eo_tls_file_size o <= eo_tls_memory_size o /\ VM_USER_BASE <= eo_tls_image o /\
    eo_tls_image o + eo_tls_memory_size o <= VM_USER_LOAD_LIMIT.

Record object_ok (o : ElfLoadedObject) : Prop := {
  ok_name : (length (eo_name o) <= FS_NAME_MAX)%nat;
  ok_count : Z.of_nat (length (eo_segments o)) <= ELF_MAX_SEGMENTS;
  ok_segments : Forall mapped_ok (eo_segments o);
  ok_tls : tls_ok o;
  ok_image : tls_image_ok o;
  ok_module : eo_tls_module_id o = 0;
  ok_needed : Z.of_nat (length (eo_needed o)) <= ELF_MAX_NEEDED }.

Lemma align_up_small a : 0 <= a -> a + 4095 < 2 ^ 64 -> align_up a = a + 4095 - (a + 4095) mod 4096.
Proof.
  intros. unfold align_up. change (VM_PAGE_SIZE - 1) with (2 ^ 12 - 1). replace (a + VM_PAGE_SIZE - 1) with (a + 4095) by (unfold VM_PAGE_SIZE; lia).
  rewrite (wrap_small 64) by lia. by rewrite (wrap_land_lnot_ones 64) by lia.
Qed.

Lemma mapped_segment_ok start end_ protection : VM_USER_BASE <= start -> start <= end_ -> end_ <= VM_USER_LOAD_LIMIT ->
  mapped_ok (mkMapped (align_down start) (align_up end_ - align_down start) protection).
Proof.
  unfold VM_USER_BASE, VM_USER_LOAD_LIMIT, mapped_ok, VM_PAGE_SIZE. intros Hs He Hl. cbn.
  rewrite align_down_small, align_up_small by lia. unfold VM_USER_BASE, VM_USER_LOAD_LIMIT.
  pose proof (Z.div_mod start 4096). pose proof (Z.div_mod (end_ + 4095) 4096). pose proof (Z.mod_pos_bound start 4096).
  pose proof (Z.mod_pos_bound (end_ + 4095) 4096).
  split_and!; [exists (start / 4096)|exists ((end_ + 4095) / 4096 - start / 4096)|..]; lia.
Qed.

Lemma tls_segment_ok s o o' : header_ok s -> tls_segment s o = Some o' ->
  tls_ok o' /\ tls_image_ok o' /\ eo_name o' = eo_name o /\ eo_segments o' = eo_segments o /\
  eo_tls_module_id o' = eo_tls_module_id o /\ eo_needed o' = eo_needed o.
Proof.
  intros (Hf & Hm & Ha). unfold tls_segment. cbv zeta. set (a := if ph_alignment s =? 0 then 1 else ph_alignment s).
  assert (0 < a) by (unfold a; destruct (ph_alignment s =? 0) eqn:?; lia). set (image := u64 (ph_virtual_address s + eo_bias o)).
  assert (0 <= image < 2 ^ 64) by (apply wrap_bound; lia). destruct (_ || _) eqn:E; [done|]. intros [= <-]. bool_hyps.
  split_and!; try done; [split; cbn; [lia|right; apply alignment_test; lia]|].
  intros _. cbn. assert (image + ph_memory_size s <= VM_USER_LOAD_LIMIT); [|lia].
  destruct (decide (image + ph_memory_size s < 2 ^ 64)); [rewrite <- (wrap_small 64 (image + _)); lia|].
  assert (u64 (image + ph_memory_size s) = image + ph_memory_size s - 2 ^ 64); [|lia].
  unfold wrap. rewrite <- (Z.mod_small (image + ph_memory_size s - 2 ^ 64) (2 ^ 64)) by lia.
  by rewrite <- Zminus_mod_idemp_r, Z.mod_same, Z.sub_0_r by done.
Qed.

Section mapping.
Context {D H : Type} `{!BlockDevice D} `{!Allocator H}.

Notation Kernel := (@Kernel D H).
Notation K := (st Kernel).

Lemma read_headers_ok name (k : Kernel) size header segments k' :
  read_headers name k = (Some (size, header, segments), k') -> Forall header_ok segments.
Proof.
  unfold read_headers, bind, ret. destruct (file_info name k) as [[info|] k1]; [|done]. destruct (_ =? 0); [done|].
  destruct (read_exactly name 0 64 k1) as [[l|] k2]; [|done]. destruct (negb _); [done|].
  pose proof (read_exactly_bytes name (eh_program_header_offset (decode_header l)) (eh_program_header_count (decode_header l) * 56) k2) as Hb.
  destruct (read_exactly _ _ _ k2) as [[m|] k3]; [|done]. intros [= _ _ <- _]. specialize (Hb m eq_refl).
  apply Forall_fmap, Forall_true. intros i. by apply decode_segment_ok, bytes_slice.
Qed.

Lemma map_segments_ok pointer name size segments o e (k : Kernel) o' e' k' : Forall header_ok segments -> object_ok o ->
  map_segments pointer name size segments o e k = (Some (o', e'), k') -> object_ok o' /\ eo_name o' = eo_name o.
Proof.
  intros Hs. revert o e k. induction Hs as [|s segments Hh _ IH]; intros o e k Ho; cbn [map_segments]; [by intros [= <- _ _]|].
  destruct (_ =? ELF_PT_INTERP); [by apply IH|]. destruct (_ =? ELF_PT_TLS).
  { destruct (tls_segment s o) as [o1|] eqn:E; [|done]. destruct (tls_segment_ok _ _ _ Hh E) as (Ht & Hi & En & Es & Em & Ed).
    rewrite <- En. apply IH. destruct Ho. split; rewrite ?En, ?Es, ?Em, ?Ed; assumption. }
  destruct (_ =? ELF_PT_DYNAMIC); [by intros ?%IH; [|destruct Ho; split]|]. destruct (negb _); [by apply IH|]. cbv zeta.
  set (start := u64 (ph_virtual_address s + eo_bias o)). set (end_ := u64 (start + ph_memory_size s)).
  destruct (_ || _) eqn:E; [done|]. bool_hyps. unfold bind. destruct (map_segment _ _ _ _ _ k) as [[] k1]; [|done]. cbn [negb].
  set (o1 := set_eo_segments _ o). change (eo_name o) with (eo_name o1). apply IH. destruct Ho. split; try done; cbn.
  - rewrite length_app. cbn. lia.
  - apply Forall_app. split; [done|]. apply Forall_singleton, mapped_segment_ok; lia.
Qed.

(** ** The dynamic section *)

(** What the dynamic section does not change. *)
Definition frame_of (o : ElfLoadedObject) :=
  (eo_name o, eo_segments o, eo_tls_image o, eo_tls_file_size o, eo_tls_memory_size o, eo_tls_alignment o, eo_tls_module_id o).

Lemma object_ok_frame o o' : frame_of o' = frame_of o -> object_ok o -> Z.of_nat (length (eo_needed o')) <= ELF_MAX_NEEDED -> object_ok o'.
Proof.
  intros E [H1 H2 H3 H4 H5 H6 H7] Hn. unfold frame_of in E. injection E as E1 E2 E3 E4 E5 E6 E7.
  split; unfold tls_ok, tls_image_ok, has_tls in *; rewrite ?E1, ?E2, ?E3, ?E4, ?E5, ?E6, ?E7; assumption.
Qed.

Lemma dynamic_entry_ok tag value o hash gnu o' hash' gnu' : dynamic_entry tag value (o, hash, gnu) = Some (o', hash', gnu') ->
  frame_of o' = frame_of o /\ (Z.of_nat (length (eo_needed o)) <= ELF_MAX_NEEDED -> Z.of_nat (length (eo_needed o')) <= ELF_MAX_NEEDED).
Proof.
  unfold dynamic_entry. cbv zeta. destruct (tag =? ELF_DT_NEEDED).
  { destruct (_ <=? _) eqn:E; [done|]. intros [= <- _ _]. cbn. rewrite length_app. cbn. split; [done|lia]. }
  repeat match goal with |- (if ?b then _ else _) = _ -> _ => destruct b end; by intros [= <- _ _].
Qed.

Lemma dynamic_loop_ok rd n address o hash gnu o' hash' gnu' : dynamic_loop rd n address (o, hash, gnu) = Some (o', hash', gnu') ->
  frame_of o' = frame_of o /\ (Z.of_nat (length (eo_needed o)) <= ELF_MAX_NEEDED -> Z.of_nat (length (eo_needed o')) <= ELF_MAX_NEEDED).
Proof.
  revert address o hash gnu. induction n as [|n IH]; intros address o hash gnu; cbn [dynamic_loop]; [by intros [= <- _ _]|].
  destruct (rd _ _) as [entry|]; [|done]. cbv zeta. destruct (_ =? ELF_DT_NULL); [by intros [= <- _ _]|].
  destruct (dynamic_entry _ _ _) as [[[o1 hash1] gnu1]|] eqn:E; [|done].
  intros [F N]%IH. destruct (dynamic_entry_ok _ _ _ _ _ _ _ _ E) as [F1 N1]. split; [congruence|auto].
Qed.

Lemma parse_gnu_hash_frame rd o address o' : parse_gnu_hash rd o address = Some o' -> frame_of o' = frame_of o /\ eo_needed o' = eo_needed o.
Proof.
  unfold parse_gnu_hash. destruct (rd _ _) as [header|]; [|done]. cbv zeta. destruct (_ || _); [done|]. destruct (_ || _); [done|].
  destruct (walk_buckets _ _ _ _ _ _ _) as [m|]; [|done]. intros [= <-]. by destruct (_ <? _).
Qed.

Lemma parse_dynamic_frame rd o o' : parse_dynamic_object rd o = Some o' -> frame_of o' = frame_of o /\
  (Z.of_nat (length (eo_needed o)) <= ELF_MAX_NEEDED -> Z.of_nat (length (eo_needed o')) <= ELF_MAX_NEEDED).
Proof.
  unfold parse_dynamic_object. destruct (_ || _); [by intros [= <-]|].
  destruct (dynamic_loop _ _ _ _) as [[[o1 hash] gnu]|] eqn:E; [|done]. apply dynamic_loop_ok in E as [F N]. cbn in N.
  change (frame_of o1 = frame_of o) in F.
  destruct (negb _); [done|]. destruct (if hash =? 0 then _ else _) as [o2|] eqn:E2; [|done].
  assert (frame_of o2 = frame_of o1 /\ eo_needed o2 = eo_needed o1) as [F2 N2].
  { destruct (hash =? 0); [by injection E2 as <-|]. destruct (rd hash 8%nat) as [h|]; [|done].
    destruct (_ || _); [done|]. by injection E2 as <-. }
  destruct (if gnu =? 0 then _ else _) as [o3|] eqn:E3; [|done].
  assert (frame_of o3 = frame_of o2 /\ eo_needed o3 = eo_needed o2) as [F3 N3].
  { destruct (gnu =? 0); [by injection E3 as <-|]. by apply parse_gnu_hash_frame in E3. }
  assert (frame_of o3 = frame_of o /\ (Z.of_nat (length (eo_needed o)) <= ELF_MAX_NEEDED -> Z.of_nat (length (eo_needed o3)) <= ELF_MAX_NEEDED))
    as HF by (rewrite N3, N2; split; [congruence|done]).
  destruct (_ || _); intros [= <-]; [done|]. by destruct (_ && _).
Qed.

(** ** Objects *)

Lemma map_elf_object_ok pointer name bias e want_entry allow_interpreter (k : Kernel) m k' :
  map_elf_object pointer name bias e want_entry allow_interpreter k = (Some m, k') ->
  object_ok (mo_object m) /\ eo_segments (mo_object m) <> [] /\ eo_name (mo_object m) = take FS_NAME_MAX name /\
  (want_entry = true -> VM_USER_BASE <= mo_entry m < VM_USER_LOAD_LIMIT).
Proof.
  unfold map_elf_object. rewrite bind_gets. destruct (negb _); [done|].
  destruct (read_headers name k) as [[[[size header] segments]|] k1] eqn:Eh; rewrite (bind_run _ _ _ _ _ Eh); [|done].
  apply read_headers_ok in Eh as Hh. cbv zeta. set (o := set_eo_name _ _).
  assert (object_ok o) as Ho.
  { split; try done; [change (eo_name o) with (take FS_NAME_MAX name); rewrite length_take; lia|by split; [|left]]. }
  destruct (find_interpreter name size allow_interpreter segments [] k1) as [[interpreter|] k2] eqn:Ei; rewrite (bind_run _ _ _ _ _ Ei); [|done].
  match goal with |- bind ?m _ k2 = _ -> _ => destruct (m k2) as [present k3] eqn:Ep end.
  rewrite (bind_run _ _ _ _ _ Ep). destruct (negb present); [done|].
  destruct (map_segments pointer name size segments o e k3) as [[[o1 e1]|] k4] eqn:Em; rewrite (bind_run _ _ _ _ _ Em); [|done]. rewrite bind_gets.
  pose proof (map_segments_ok _ _ _ _ _ _ _ _ _ _ Hh Ho Em) as [Hm En]. destruct (_ && _); [done|].
  destruct (bool_decide (eo_segments o1 = [])) eqn:Es; [done|]. apply bool_decide_eq_false in Es.
  destruct (parse_dynamic_object _ o1) as [o2|] eqn:Ed; [|done]. apply parse_dynamic_frame in Ed as [F N].
  destruct (_ && _) eqn:Ee; [done|]. intros [= <- _]. cbn [mo_object mo_entry].
  assert (eo_name o2 = eo_name o1 /\ eo_segments o2 = eo_segments o1) as [Fn Fs] by (unfold frame_of in F; injection F; done).
  split_and!; [eapply object_ok_frame; [exact F|exact Hm|apply N, Hm]|by rewrite Fs|by rewrite Fn, En|intros ->; cbn in Ee; lia].
Qed.

(** ** The files stay as they are *)

Definition same_files (k1 k2 : Kernel) : Prop := same_store (k_fs k1) (k_fs k2).

#[local] Instance same_files_equivalence : Equivalence same_files.
Proof. split; [intros k|intros k1 k2 Hk|intros k1 k2 k3 H12 H23]; unfold same_files in *; [done|by symmetry|by etrans]. Qed.

Definition reads_only {A} (m : K A) : Prop := forall k, same_files (m k).2 k.

Lemma reads_only_bind {A B} (m : K A) (f : A -> K B) : reads_only m -> (forall a, reads_only (f a)) -> reads_only (bind m f).
Proof. intros Hm Hf k. unfold bind. specialize (Hm k). destruct (m k) as [a k']. etrans; [apply Hf|exact Hm]. Qed.

Lemma repeatable_on_fs {A} (m : st FsState (option A)) : repeatable same_store m -> repeatable same_files (on_fs m).
Proof.
  intros Hm k1 k2 Hk. unfold on_fs.
  destruct (Hm (with_heap (vw_heap (k_world k1)) (k_fs k1)) (with_heap (vw_heap (k_world k2)) (k_fs k2)) Hk) as [H1 H2].
  destruct (m (with_heap _ (k_fs k1))), (m (with_heap _ (k_fs k2))). by split.
Qed.

Lemma reads_only_on_fs {A} (m : st FsState (option A)) : repeatable same_store m -> reads_only (on_fs m).
Proof. intros Hm k. by apply (repeatable_state same_files), repeatable_on_fs. Qed.

Lemma reads_only_on_space_at {A} pointer (failed : A) op : reads_only (on_space_at pointer failed op).
Proof. intros k. unfold on_space_at. destruct (k_spaces k !! pointer); [|done]. by destruct (op _). Qed.

Ltac reads_only_step :=
  match goal with
  | |- forall _, _ => intros ?
  | |- reads_only (bind _ _) => apply reads_only_bind
  | |- reads_only (if ?b then _ else _) => destruct b
  | |- reads_only (match ?x with _ => _ end) => destruct x
  | |- reads_only (ret _) => done
  | |- reads_only (gets _) => done
  | |- reads_only (serial_write _) => done
  | |- reads_only (on_space_at _ _ _) => apply reads_only_on_space_at
  | |- reads_only (on_fs (fs_read_at _ _ _)) => apply reads_only_on_fs, repeatable_fs_read_at
  | |- reads_only (on_fs (fs_path_info _ _)) => apply reads_only_on_fs, repeatable_fs_path_info
  | |- reads_only _ => assumption
  | H : _ |- reads_only _ => apply H
  | |- reads_only ?m => let h := head_of m in progress unfold h
  end.

Ltac reads_only := repeat (cbv zeta; reads_only_step).

Lemma reads_only_map_pages n pointer page protection : reads_only (map_pages n pointer page protection : K nat).
Proof. revert page protection. induction n; intros; cbn [map_pages]; reads_only. Qed.

Lemma reads_only_load_file fuel pointer name offset address copy completed :
  reads_only (load_file fuel pointer name offset address copy completed : K bool).
Proof. revert completed. induction fuel; intros; cbn [load_file]; reads_only. Qed.

Lemma reads_only_find_interpreter name size allowed segments found :
  reads_only (find_interpreter name size allowed segments found : K (option (list Z))).
Proof. revert found. induction segments; intros; cbn [find_interpreter]; reads_only. Qed.

Lemma reads_only_map_segments pointer name size segments o e :
  reads_only (map_segments pointer name size segments o e : K (option (ElfLoadedObject * Z))).
Proof.
  pose proof reads_only_map_pages. pose proof reads_only_load_file. revert o e. induction segments; intros; cbn [map_segments]; reads_only.
Qed.

Lemma reads_only_map_elf_object pointer name bias e want_entry allow_interpreter :
  reads_only (map_elf_object pointer name bias e want_entry allow_interpreter : K (option MappedObject)).
Proof. pose proof reads_only_find_interpreter. pose proof reads_only_map_segments. unfold map_elf_object. reads_only. Qed.

(** ** The interpreter of a program is another file *)

Lemma repeatable_read_exactly name offset size : repeatable same_files (read_exactly name offset size : K (option (list Z))).
Proof.
  unfold read_exactly. apply repeatable_bind; [apply _|apply repeatable_on_fs, repeatable_fs_read_at|done|].
  intros l. apply repeatable_ret, _.
Qed.

Lemma repeatable_read_headers name : repeatable same_files (read_headers name : K (option (Z * Elf64Header * list Elf64ProgramHeader))).
Proof.
  unfold read_headers. apply repeatable_bind; [apply _|apply repeatable_on_fs, repeatable_fs_path_info|done|].
  intros info. destruct (_ =? 0); [apply repeatable_ret, _|].
  apply repeatable_bind; [apply _|apply repeatable_read_exactly|done|]. intros l. cbv zeta. destruct (negb _); [apply repeatable_ret, _|].
  apply repeatable_bind; [apply _|apply repeatable_read_exactly|done|]. intros m. apply repeatable_ret, _.
Qed.

(** Without permission for an interpreter there is no segment that names one. *)
Lemma find_interpreter_refused name size segments found (k : Kernel) r k' :
  find_interpreter name size false segments found k = (Some r, k') -> Forall (fun s => ph_type s <> ELF_PT_INTERP) segments.
Proof.
  induction segments as [|s segments IH]; [by constructor|]. cbn [find_interpreter].
  destruct (Z.eqb_spec (ph_type s) ELF_PT_INTERP); [done|]. intros Hs. by constructor; [|apply IH].
Qed.

Lemma find_interpreter_absent name size allowed segments found (k : Kernel) :
  Forall (fun s => ph_type s <> ELF_PT_INTERP) segments -> find_interpreter name size allowed segments found k = (Some found, k).
Proof.
  induction 1 as [|s segments Hs _ IH]; [done|]. cbn [find_interpreter]. by rewrite (proj2 (Z.eqb_neq _ _) Hs).
Qed.

(** The interpreter is a name in the same directory. *)
Lemma find_interpreter_plain name size allowed segments found (k : Kernel) r k' : found = [] \/ plain_name found ->
  find_interpreter name size allowed segments found k = (Some r, k') -> r = [] \/ plain_name r.
Proof.
  revert found k. induction segments as [|s segments IH]; intros found k Hf; cbn [find_interpreter]; [by intros [= <- _]|].
  destruct (negb (_ =? _)); [by apply IH|]. destruct (_ || _); [done|].
  destruct (interpreter_path name s k) as [[path|] k1] eqn:Ep; rewrite (bind_run _ _ _ _ _ Ep); [|done].
  destruct (elf_basename path) as [base|] eqn:Eb; [|done]. apply IH. right. by apply elf_basename_spec in Eb as [_ ?].
Qed.

Lemma map_elf_object_reads pointer name bias e want_entry allow_interpreter (k : Kernel) m k' :
  map_elf_object pointer name bias e want_entry allow_interpreter k = (Some m, k') ->
  exists size header segments k1 k2, read_headers name k = (Some (size, header, segments), k1) /\
    find_interpreter name size allow_interpreter segments [] k1 = (Some (mo_interpreter m), k2).
Proof.
  unfold map_elf_object. rewrite bind_gets. destruct (negb _); [done|].
  destruct (read_headers name k) as [[[[size header] segments]|] k1] eqn:Eh; rewrite (bind_run _ _ _ _ _ Eh); [|done]. cbv zeta.
  destruct (find_interpreter name size allow_interpreter segments [] k1) as [[interpreter|] k2] eqn:Ei; rewrite (bind_run _ _ _ _ _ Ei); [|done].
  intros E. exists size, header, segments, k1, k2. split; [done|]. rewrite Ei. f_equal. f_equal. revert E.
  match goal with |- bind ?m _ k2 = _ -> _ => destruct (m k2) as [present k3] eqn:Ep end.
  rewrite (bind_run _ _ _ _ _ Ep). destruct (negb present); [done|].
  match goal with |- bind ?m _ k3 = _ -> _ => destruct (m k3) as [[[o1 e1]|] k4] eqn:Em end; rewrite (bind_run _ _ _ _ _ Em); [|done].
  rewrite bind_gets. destruct (_ && _); [done|]. destruct (bool_decide (eo_segments o1 = [])); [done|].
  destruct (parse_dynamic_object _ o1); [|done]. destruct (_ && _); [done|]. by intros [= <- _].
Qed.

(** A file that was mapped with its interpreter cannot be mapped as one. *)
Lemma map_twice pointer name b1 b2 e1 e2 w1 w2 (k : Kernel) m k1 i k2 :
  map_elf_object pointer name b1 e1 w1 true k = (Some m, k1) -> map_elf_object pointer name b2 e2 w2 false k1 = (Some i, k2) ->
  mo_interpreter m = [].
Proof.
  intros E1 E2. pose proof (reads_only_map_elf_object pointer name b1 e1 w1 true k) as Hk. rewrite E1 in Hk. cbn in Hk.
  apply map_elf_object_reads in E1 as (z1 & h1 & l1 & k3 & k4 & R1 & F1), E2 as (z2 & h2 & l2 & k5 & k6 & R2 & F2).
  destruct (repeatable_read_headers name k1 k Hk) as [_ Heq]. rewrite R1, R2 in Heq. specialize (Heq _ _ eq_refl eq_refl).
  simplify_eq. apply find_interpreter_refused in F2. rewrite (find_interpreter_absent _ _ _ _ _ _ F2) in F1. by injection F1 as <-.
Qed.

Lemma read_headers_valid name (k : Kernel) r k' : read_headers name k = (Some r, k') -> valid_name name = true.
Proof.
  unfold read_headers, file_info, on_fs, fs_path_info, bind, gets, ret. destruct (valid_name name); [done|]. cbn. rewrite orb_true_r. done.
Qed.

(** The program and its interpreter have different names. *)
Lemma interpreter_differs pointer name b1 b2 e1 e2 w1 w2 (k : Kernel) m k1 i k2 : Forall (fun c => c <> 0) name ->
  map_elf_object pointer name b1 e1 w1 true k = (Some m, k1) -> mo_interpreter m <> [] ->
  map_elf_object pointer (mo_interpreter m) b2 e2 w2 false k1 = (Some i, k2) ->
  take FS_NAME_MAX name <> take FS_NAME_MAX (mo_interpreter m).
Proof.
  intros H0 E1 Hm E2 Heq. destruct (map_elf_object_reads _ _ _ _ _ _ _ _ _ E1) as (size & header & segments & k3 & k4 & R1 & F1).
  apply find_interpreter_plain in F1 as [?|(_ & Hl & _)]; [done| |by left]. apply read_headers_valid in R1.
  apply valid_name_spec in R1. rewrite cstr_id in R1 by done. destruct R1 as (R1 & _). rewrite !take_ge in Heq; [|done|lia]. rewrite <- Heq in E2. by apply Hm, (map_twice _ _ _ _ _ _ _ _ _ _ _ _ _ E1 E2).
Qed.

(** ** All objects of a program *)

Definition objects_ok (objects : list ElfLoadedObject) : Prop :=
  Forall object_ok objects /\ (length objects <= Z.to_nat ELF_MAX_OBJECTS)%nat /\ NoDup (eo_name <$> objects).

Lemma first_index_none {A} (P : A -> bool) i l x : first_index P i l < 0 -> 0 <= i -> x ∈ l -> P x = false.
Proof.
  revert i. induction l as [|y l IH]; intros i; cbn [first_index]; [by intros _ _ ?%elem_of_nil|].
  destruct (P y) eqn:E; [lia|]. intros Hf Hi [->|Hx]%elem_of_cons; [done|]. eapply (IH (i + 1)); [done|lia|done].
Qed.

Lemma load_needed_ok pointer o needed objects n (k : Kernel) all n' k' : objects_ok objects ->
  load_needed pointer o needed objects n k = (Some (all, n'), k') -> objects_ok all /\ objects `prefix_of` all.
Proof.
  revert objects n k. induction needed as [|offset needed IH]; intros objects n k Ho; cbn [load_needed]; [by intros [= <- _ _]|].
  destruct (_ || _); [done|]. rewrite bind_gets. destruct (copy_mapped_string _ _ _) as [path|]; [|done].
  destruct (elf_basename path) as [name|] eqn:Eb; [|done]. destruct (0 <=? _) eqn:El; [by apply IH|].
  destruct (ELF_MAX_OBJECTS <=? _) eqn:Ec; [done|].
  destruct (map_elf_object pointer name (ELF_LIBRARY_BASE + n * ELF_LIBRARY_STRIDE) 0 false true k) as [[m|] k1] eqn:Em;
    rewrite (bind_run _ _ _ _ _ Em); [|done].
  destruct (negb _); [done|]. apply map_elf_object_ok in Em as (Hm & _ & En & _). intros Hl.
  apply IH in Hl as [Ha Hp]; [split; [done|by eapply prefix_app_l]|].
  destruct Ho as (Ho & Hlen & Hd). apply elf_basename_spec in Eb as [_ (_ & Hn & _)].
  rewrite take_ge in En by done. split_and!.
  - apply Forall_app. by split; [|apply Forall_singleton].
  - rewrite length_app. cbn [length]. lia.
  - rewrite fmap_app. apply NoDup_app. split_and!; [done| |apply NoDup_singleton].
    intros x (y & -> & Hy)%list_elem_of_fmap Hx%list_elem_of_singleton.
    assert (bool_decide (eo_name y = name) = false) as Ey 
      by (apply (first_index_none (fun o => bool_decide (eo_name o = name)) 0 objects y); [unfold loaded_object_index in El; lia|done..]).
    apply bool_decide_eq_false in Ey. congruence.
Qed.

Lemma load_needed_objects_ok fuel pointer objects index n (k : Kernel) all k' : objects_ok objects ->
  load_needed_objects fuel pointer objects index n k = (Some all, k') -> objects_ok all /\ objects `prefix_of` all.
Proof.
  revert objects index n k. induction fuel as [|fuel IH]; intros objects index n k Ho; cbn [load_needed_objects]; [by intros [= <- _]|].
  destruct (objects !! index) as [o|]; [|by intros [= <- _]].
  destruct (load_needed pointer o (eo_needed o) objects n k) as [[[l m]|] k1] eqn:El; rewrite (bind_run _ _ _ _ _ El); [|done].
  apply load_needed_ok in El as [Hl Hp]; [|done]. intros [Ha Hq]%IH; [|done]. split; [done|by etrans].
Qed.

(** The program and its interpreter. *)
Lemma load_program_ok pointer name (k : Kernel) m objects k' : Forall (fun c => c <> 0) name ->
  load_program pointer name k = (Some (m, objects), k') -> objects_ok objects /\ VM_USER_BASE <= mo_entry m < VM_USER_LOAD_LIMIT.
Proof.
  intros H0. unfold load_program. destruct (map_elf_object pointer name VM_USER_BASE VM_USER_BASE true true k) as [[m0|] k0] eqn:Em;
    rewrite (bind_run _ _ _ _ _ Em); [|done]. destruct (map_elf_object_ok _ _ _ _ _ _ _ _ _ Em) as (Ho & _ & En & He).
  unfold objects_ok. change ELF_MAX_OBJECTS with 128. destruct (bool_decide (mo_interpreter m0 = [])) eqn:Eb.
  { intros [= <- <- _]. split; [|by apply He]. split_and!; [by constructor|cbn; lia|apply NoDup_singleton]. }
  apply bool_decide_eq_false in Eb.
  destruct (map_elf_object pointer (mo_interpreter m0) ELF_INTERPRETER_BASE 0 false false k0) as [[i|] k3] eqn:Ei;
    rewrite (bind_run _ _ _ _ _ Ei); [|done]. destruct (map_elf_object_ok _ _ _ _ _ _ _ _ _ Ei) as (Hi & _ & Eni & _).
  pose proof (interpreter_differs _ _ _ _ _ _ _ _ _ _ _ _ _ H0 Em Eb Ei) as Hd.
  intros [= <- <- _]. split; [|by apply He]. split_and!; [auto using Forall_cons_2, Forall_nil_2|cbn; lia|].
  cbn. rewrite En, Eni. apply NoDup_cons. split; [by rewrite list_elem_of_singleton|apply NoDup_singleton].
Qed.

End mapping.
