(* ===== verification/ElfTheorems.v ===== *)
(** * What the loader promises

    Theorems about the ELF loader and linker of kernel/process.c, and a small program on a
    disk to try them on. *)

From S2P Require Import Prelude Runtime Heap HeapFacts Interfaces RamDisk Filesystem FsTheorems Vm Process Descriptors Ipc FileCalls MemCalls Elf ElfLoader Tasks Syscalls ProcessTable ProcessTheorems TlsLayout SymbolLookup LoaderFrame ElfFacts.

(** ** A program *)

Definition tiny_base : Z := 0x40001000.

(** An executable with one segment of code: a header, a program header and three bytes. *)
Definition tiny_elf : list Z :=
  [0x7F; 69; 76; 70; 2; 1] ++ replicate 10 0 ++ le 2 2 ++ le 2 0x3E ++ le 4 1 ++ le 8 (tiny_base + 120) ++ le 8 64 ++ le 8 0 ++
  le 4 0 ++ le 2 64 ++ le 2 56 ++ le 2 1 ++ le 2 0 ++ le 2 0 ++ le 2 0 ++
  le 4 1 ++ le 4 5 ++ le 8 0 ++ le 8 tiny_base ++ le 8 0 ++ le 8 123 ++ le 8 123 ++ le 8 4096 ++ [1; 2; 3].

Definition tiny_kernel : DeskKernel := set_k_fs (fs_write path_a tiny_elf empty_fs).2 desk.

(** Its file is loaded into a new address space. *)
Definition tiny_space : Z * DeskKernel := address_space_create tiny_kernel.
Definition tiny_program : option (MappedObject * list ElfLoadedObject) * DeskKernel := load_program tiny_space.1 path_a tiny_space.2.
Definition tiny_mapped : MappedObject :=
  match tiny_program.1 with Some (m, _) => m | None => mkMappedObject zero_object 0 0 [] end.
Definition tiny_needed : option (list ElfLoadedObject) * DeskKernel :=
  load_needed_objects (Z.to_nat ELF_MAX_OBJECTS) tiny_space.1 [mo_object tiny_mapped] 0 0 tiny_program.2.

(** The image starts at its entry, and its code is in memory. *)
Example tiny_loads : let '(image, k) := load_elf_image tiny_space.1 path_a tiny_space.2 in
  (at_index 0 (default [] (li_context <$> image)) CONTEXT_RIP, reader tiny_space.1 k (tiny_base + 120) 3) = (tiny_base + 120, Some [1; 2; 3]).
Proof. by vm_compute. Qed.

(** ** Objects *)

(** [C20] Whatever the files contain: when the loader has mapped a program, whose name is a string without zeros,
    and everything it needs, there are at most 128 objects with different names (a file that names an
    interpreter is refused as an interpreter, so a program is never its own), the program starts inside
    the range for programs, and every object has a name of at most 95 characters, at most 64 dependencies,
    at most 16 segments of whole pages inside that range, and a block of thread-local storage with a power of two
    of at most one page as its alignment, whose initial image is not longer than the block and lies in the range. *)
Theorem program_objects_bounded {D H} `{!BlockDevice D} `{!Allocator H} pointer name (k : @Kernel D H) m objects k1 all k2 :
  Forall (fun c => c <> 0) name -> load_program pointer name k = (Some (m, objects), k1) ->
  load_needed_objects (Z.to_nat ELF_MAX_OBJECTS) pointer objects 0 0 k1 = (Some all, k2) ->
  VM_USER_BASE <= mo_entry m < VM_USER_LOAD_LIMIT /\ objects `prefix_of` all /\
  (length all <= Z.to_nat ELF_MAX_OBJECTS)%nat /\ NoDup (eo_name <$> all) /\ Forall object_ok all.
Proof.
  intros H0 Hp Hl. destruct (load_program_ok _ _ _ _ _ _ H0 Hp) as [Hok [He1 He2]].
  destruct (load_needed_objects_ok _ _ _ _ _ _ _ _ Hok Hl) as [(H3 & H4 & H5) H6]. by split_and!.
Qed.

Lemma tiny_program_runs :
  load_program tiny_space.1 path_a tiny_space.2 = (Some (tiny_mapped, [mo_object tiny_mapped]), tiny_program.2).
Proof. apply pair_fst. by vm_compute. Qed.

Lemma tiny_needed_runs :
  load_needed_objects (Z.to_nat ELF_MAX_OBJECTS) tiny_space.1 [mo_object tiny_mapped] 0 0 tiny_program.2 =
  (Some [mo_object tiny_mapped], tiny_needed.2).
Proof. apply pair_fst. by vm_compute. Qed.

Lemma path_a_string : Forall (fun c => c <> 0) path_a.
Proof. by repeat constructor. Qed.

Lemma program_objects_bounded_witness : VM_USER_BASE <= mo_entry tiny_mapped < VM_USER_LOAD_LIMIT.
Proof.
  exact (proj1 (program_objects_bounded _ _ _ _ _ _ _ _ path_a_string tiny_program_runs tiny_needed_runs)).
Defined.

(** ** Programs that cannot be loaded *)

(** [C19] A failed [execve] does no harm: when the new program cannot be loaded, for whatever reason,
    the process table, every address space, every descriptor, pipe, socket, timer and memory file, the tables
    of the file system and the saved registers are what they were, and the half-filled address space is gone. *)
Theorem exec_failure_harmless {D H} `{!BlockDevice D} `{!Allocator H} slot name (k k' : @Kernel D H) :
  k_spaces k !! (address_space_create k).1 = None ->
  replace_current_image slot name k = (false, k') -> bystanders k' = bystanders k /\ k_spaces k' = k_spaces k.
Proof. intros Hn E. by eapply replace_fails. Qed.

(** The same program with a segment that is longer than the file. *)
Definition broken_elf : list Z := blit 96 (le 8 4096) tiny_elf.

Definition broken_kernel : DeskKernel := set_k_fs (fs_write path_a broken_elf empty_fs).2 desk.

Lemma broken_replace : replace_current_image 0 path_a broken_kernel = (false, (replace_current_image 0 path_a broken_kernel).2).
Proof. apply pair_fst. by vm_compute. Qed.

Lemma broken_fresh : k_spaces broken_kernel !! (address_space_create broken_kernel).1 = None.
Proof. by vm_compute. Qed.

Lemma exec_failure_harmless_witness : k_spaces (replace_current_image 0 path_a broken_kernel).2 = k_spaces broken_kernel.
Proof. exact (proj2 (exec_failure_harmless 0 path_a broken_kernel _ broken_fresh broken_replace)). Defined.

(** ** Thread-local storage *)

(** [C22] The layout of thread-local storage: for at most 128 objects the loader either finds a
    size and a place for every block, such that the size is at most 16 MB, no two blocks overlap, every block
    lies below the thread pointer, has the alignment its object asks for in any mapping that starts on a page, modules have the
    numbers 1, 2, ... in order, and the table of modules has the address of every block;
    or the blocks, with a page for alignment, are larger than 16 MB. *)
Theorem tls_layout_correct objects : (length objects <= Z.to_nat ELF_MAX_OBJECTS)%nat -> Forall tls_ok objects -> Forall no_module objects ->
  match layout_static_tls objects with
  | Some (l, size) => layout_ok objects l size /\ forall thread_pointer, exists dtv,
      dtv_entries l thread_pointer (replicate (Z.to_nat ELF_TLS_DTV_ENTRIES) 0) 0 =
        Some (dtv, Z.of_nat (length (filter (fun o => has_tls o = true) l))) /\
      forall i o, l !! i = Some o -> has_tls o = true -> dtv !! Z.to_nat (eo_tls_module_id o) = Some (u64 (thread_pointer - eo_tls_offset o))
  | None => ELF_TLS_MAX_SIZE < tls_demand objects + VM_PAGE_SIZE
  end.
Proof.
  intros Hn Ht Hm. pose proof (layout_static_tls_ok objects Ht) as HL. destruct (layout_static_tls objects) as [[l size]|]; [|done].
  split; [done|]. intros tp. by eapply dtv_entries_ok.
Qed.

(** Objects with 10 bytes aligned to 8, without storage, and with 100 bytes aligned to 64. *)
Definition tls_object (size alignment : Z) : ElfLoadedObject := set_eo_tls_memory_size size (set_eo_tls_alignment alignment zero_object).
Definition tls_objects : list ElfLoadedObject := [tls_object 10 8; zero_object; tls_object 100 64].

Lemma tls_objects_ok : Forall tls_ok tls_objects /\ Forall no_module tls_objects.
Proof.
  split; [|by repeat constructor].
  apply Forall_cons_2; [split; [done|right; by exists 3]|]. apply Forall_cons_2; [split; [done|by left]|].
  apply Forall_cons_2; [split; [done|right; by exists 6]|]. constructor.
Qed.

Lemma tls_layout_correct_witness :
  exists l, layout_static_tls tls_objects = Some (l, 128) /\ eo_tls_offset <$> l = [16; 0; 128] /\ layout_ok tls_objects l 128.
Proof.
  pose proof (tls_layout_correct tls_objects (proj1 (Nat.leb_le 3 (Z.to_nat ELF_MAX_OBJECTS)) eq_refl) (proj1 tls_objects_ok) (proj2 tls_objects_ok)) as HL.
  remember (layout_static_tls tls_objects) as r eqn:Er. vm_compute in Er. subst r. destruct HL as [HL _].
  eexists. split_and!; [reflexivity|reflexivity|exact HL].
Defined.

(** ** Symbols *)

(** [C21] Looking a symbol up by hash finds what a search through all symbols finds: the loader accepts
    the hash table of an object, counts its symbols, and afterwards [find_symbol_in_object], which goes through the
    filter, one bucket and one chain, has for every name and version the result of the linear
    search that it uses for objects without such a table. *)
Theorem gnu_lookup_correct rd object address h0 h1 h2 h3 names version :
  let count := h1 + Z.of_nat (length names) in
  let o := hashed_object object address h0 h1 h2 h3 count in
  rd address 16%nat = Some (le 4 h0 ++ le 4 h1 ++ le 4 h2 ++ le 4 h3) ->
  0 < h0 <= ELF_MAX_SYMBOLS -> 0 < h2 <= ELF_MAX_SYMBOLS -> 0 <= h3 < 32 -> count <= ELF_MAX_SYMBOLS ->
  0 <= address -> address + 16 + h2 * 8 + h0 * 4 < 2 ^ 64 -> eo_symbol_count object < count ->
  gnu_table rd o names version ->
  parse_gnu_hash rd object address = Some o /\
  forall name, find_symbol_in_object rd o name version = search_table rd (Z.to_nat (count - 1)) o name version 1.
Proof.
  intros count o Hrd H0 H2 H3 Hc Ha Hb Hcount GT. split; [by eapply parse_gnu_hash_ok|].
  intros name. exact (find_symbol_table rd o names version GT name).
Qed.

(** The image of a library with an undefined symbol and the functions f and g: the hash table, the
    symbols and the strings. *)
Definition lib_symbol (name info section value : Z) : list Z := le 4 name ++ le 1 info ++ [0] ++ le 2 section ++ le 8 value ++ le 8 0.

Definition lib_image : list Z :=
  (le 4 1 ++ le 4 2 ++ le 4 1 ++ le 4 5) ++ replicate 8 255 ++ le 4 2 ++
  le 4 177674 ++ le 4 177677 ++ le 4 0 ++
  lib_symbol 0 0 0 0 ++ lib_symbol 1 16 0 0 ++ lib_symbol 1 18 1 0x100 ++ lib_symbol 3 18 1 0x200 ++ [0; 102; 0; 103; 0].

Definition lib_rd (address : Z) (size : nat) : option (list Z) :=
  if (4096 <=? address) && (address + Z.of_nat size <=? 4096 + Z.of_nat (length lib_image))
  then Some (slice (Z.to_nat (address - 4096)) size lib_image) else None.

Definition lib_object : ElfLoadedObject :=
  set_eo_symbol_table (4096 + 40) (set_eo_string_table (4096 + 136) (set_eo_string_size 5 (set_eo_bias 4096 zero_object))).

Definition lib_hashed : ElfLoadedObject := hashed_object lib_object 4096 1 2 1 5 4.

Lemma lib_names i x : [[102]; [103]] !! i = Some x -> i = 0%nat /\ x = [102] \/ i = 1%nat /\ x = [103].
Proof. destruct i as [|[|i]]; cbn; intros [= <-]; auto. Qed.

Lemma lib_table : gnu_table lib_rd lib_hashed [[102]; [103]] [].
Proof.
  split; try done.
  - intros i j x y _ _ _. change (gnu_symbol_hash x mod 1 <= gnu_symbol_hash y mod 1). by rewrite !Z.mod_1_r.
  - intros i x [[-> ->]|[-> ->]]%lib_names; eexists; by vm_compute.
  - intros b Hb. change (0 <= b < 1) in Hb. replace b with 0 by lia. right. exists 0%nat, [102]. by split_and!; [vm_compute..|lia].
  - intros b Hb. change (0 <= b < 1) in Hb. replace b with 0 by lia. exists (2 ^ 64 - 1). split; [by vm_compute|].
    intros x [i [[_ ->]|[_ ->]]%lib_names]%list_elem_of_lookup_1 _; by vm_compute.
  - intros i x [[-> ->]|[-> ->]]%lib_names; [exists (mkSymbol 1 18 1 0x100)|exists (mkSymbol 3 18 1 0x200)]; by vm_compute.
  - intros i x [[-> ->]|[-> ->]]%lib_names; exists true; by vm_compute.
  - intros i Hi. change (1 <= i < 2) in Hi. replace i with 1 by lia. exists (mkSymbol 1 16 0 0). by split; [vm_compute|left].
Qed.

Lemma gnu_lookup_correct_witness :
  parse_gnu_hash lib_rd lib_object 4096 = Some lib_hashed /\
  find_symbol_in_object lib_rd lib_hashed [103] [] = search_table lib_rd 3 lib_hashed [103] [] 1 /\
  search_table lib_rd 3 lib_hashed [103] [] 1 = Some (Some (4096 + 0x200, 3)).
Proof.
  destruct (gnu_lookup_correct lib_rd lib_object 4096 1 2 1 5 [[102]; [103]] []) as [Hp Hf];
    [done|unfold ELF_MAX_SYMBOLS; cbn; lia..|exact lib_table|].
  split; [exact Hp|]. split; [exact (Hf [103])|by vm_compute].
Defined.
