(* ===== verification/Threads.v ===== *)
(** * POSIX threads of user/pthread_compat.c

    Every function is a program over atomic operations on shared words and two system calls on
    them, [futex] and [sched_yield]; threads take turns after every operation.  A loop of the source is a
    [Loop] whose body [unfold_loop] gives. *)

From S2P Require Import Prelude.

Definition FUTEX_WAIT_PRIVATE : Z := 128.
Definition FUTEX_WAKE_PRIVATE : Z := 129.
Definition WAKE_ALL : Z := 0x7FFFFFFF.

(** One step of a thread.  [Work] is a step of the program that uses the library. *)
Inductive Action :=
| CompareExchange (address expected desired : Z)   (** 1 if it succeeded *)
| Exchange (address value : Z)                     (** the old value *)
| LoadWord (address : Z)
| StoreWord (address value : Z)
| AddFetch (address value : Z)
| Futex (address operation value : Z)
| SchedYield
| GetTid
| Work (label : Z).

(** The loops of the source, and a program that takes and releases a mutex again and again. *)
Inductive Loops :=
| LockLoop (mutex : Z)
| OnceLoop (state : Z)
| SpinLoop (lock : Z)
| Worker (mutex : Z).

Inductive Prog :=
| Return (result : Z)
| Do (action : Action) (k : Z -> Prog)
| Loop (l : Loops) (k : Z -> Prog).

Fixpoint chain (p : Prog) (k : Z -> Prog) : Prog :=
  match p with
  | Return r => k r
  | Do a k' => Do a (fun r => chain (k' r) k)
  | Loop l k' => Loop l (fun r => chain (k' r) k)
  end.

Definition act (a : Action) : Prog := Do a Return.

Declare Scope prog_scope.
Delimit Scope prog_scope with prog.
Notation "x <~ p ; q" := (chain p (fun x => q)) (at level 100, p at next level, q at level 200, right associativity) : prog_scope.
Notation "p ;~ q" := (chain p (fun _ => q)) (at level 100, q at level 200, right associativity) : prog_scope.
Open Scope prog_scope.

(** ** The functions *)

Definition futex_wait (address expected : Z) : Prog := act (Futex address FUTEX_WAIT_PRIVATE expected).
Definition futex_wake (address count : Z) : Prog := act (Futex address FUTEX_WAKE_PRIVATE count).

Definition pthread_self : Prog := act GetTid.
Definition pthread_equal (left right : Z) : Z := if left =? right then 1 else 0.

Definition pthread_mutex_init (mutex : Z) : Prog := act (StoreWord mutex 0) ;~ Return 0.

Definition pthread_mutex_trylock (mutex : Z) : Prog :=
  taken <~ act (CompareExchange mutex 0 1) ; Return (if taken =? 1 then 0 else 16).

Definition pthread_mutex_lock (mutex : Z) : Prog :=
  taken <~ act (CompareExchange mutex 0 1) ;
  if taken =? 1 then Return 0 else Loop (LockLoop mutex) Return.

Definition pthread_mutex_unlock (mutex : Z) : Prog :=
  previous <~ act (Exchange mutex 0) ;
  (if 1 <? previous then futex_wake mutex 1 else Return 0) ;~ Return 0.

Definition pthread_cond_init (condition : Z) : Prog := act (StoreWord condition 0) ;~ Return 0.

Definition pthread_cond_wait (condition mutex : Z) : Prog :=
  expected <~ act (LoadWord condition) ;
  pthread_mutex_unlock mutex ;~
  futex_wait condition expected ;~
  pthread_mutex_lock mutex.

Definition pthread_cond_timedwait (condition mutex : Z) : Prog := pthread_cond_wait condition mutex.

Definition pthread_cond_signal (condition : Z) : Prog := act (AddFetch condition 1) ;~ futex_wake condition 1 ;~ Return 0.
Definition pthread_cond_broadcast (condition : Z) : Prog := act (AddFetch condition 1) ;~ futex_wake condition WAKE_ALL ;~ Return 0.

(** [initializer] is a parameter of [pthread_once]. *)
Definition pthread_once (once_control : Z) (initializer : Prog) : Prog :=
  first <~ act (CompareExchange once_control 0 1) ;
  if first =? 1 then
    initializer ;~ act (StoreWord once_control 2) ;~ futex_wake once_control WAKE_ALL ;~ Return 0
  else Loop (OnceLoop once_control) Return.

Definition pthread_rwlock_init (lock : Z) : Prog := pthread_mutex_init lock.
Definition pthread_rwlock_rdlock (lock : Z) : Prog := pthread_mutex_lock lock.
Definition pthread_rwlock_wrlock (lock : Z) : Prog := pthread_mutex_lock lock.
Definition pthread_rwlock_tryrdlock (lock : Z) : Prog := pthread_mutex_trylock lock.
Definition pthread_rwlock_trywrlock (lock : Z) : Prog := pthread_mutex_trylock lock.
Definition pthread_rwlock_unlock (lock : Z) : Prog := pthread_mutex_unlock lock.

Definition pthread_spin_init (lock : Z) : Prog := act (StoreWord lock 0) ;~ Return 0.
Definition pthread_spin_trylock (lock : Z) : Prog := pthread_mutex_trylock lock.
Definition pthread_spin_lock (lock : Z) : Prog := Loop (SpinLoop lock) Return.
Definition pthread_spin_unlock (lock : Z) : Prog := pthread_mutex_unlock lock.

(** ** Loops *)

Definition unfold_loop (l : Loops) : Prog :=
  match l with
  | LockLoop mutex =>
      old <~ act (Exchange mutex 2) ;
      if old =? 0 then Return 0 else futex_wait mutex 2 ;~ Loop (LockLoop mutex) Return
  | OnceLoop state =>
      value <~ act (LoadWord state) ;
      if value =? 2 then Return 0 else futex_wait state 1 ;~ Loop (OnceLoop state) Return
  | SpinLoop lock =>
      busy <~ pthread_mutex_trylock lock ;
      if busy =? 0 then Return 0 else act SchedYield ;~ Loop (SpinLoop lock) Return
  | Worker mutex =>
      pthread_mutex_lock mutex ;~ act (Work mutex) ;~ pthread_mutex_unlock mutex ;~ Loop (Worker mutex) Return
  end.

(** ** Execution *)

(** A thread that can run, or that waits at a word. *)
Inductive Thread := Ready (p : Prog) | Waiting (address : Z) (p : Prog).

(** Words that were never written hold 0. *)
Abbreviation Words := (gmap Z Z).
Definition word (m : Words) (a : Z) : Z := default 0 (m !! a).

(** The result of an action on memory alone. *)
Definition perform (a : Action) (m : Words) : Z * Words :=
  match a with
  | CompareExchange x e d => if word m x =? e then (1, <[x := d]> m) else (0, m)
  | Exchange x v => (word m x, <[x := v]> m)
  | LoadWord x => (word m x, m)
  | StoreWord x v => (0, <[x := v]> m)
  | AddFetch x v => (u32 (word m x + v), <[x := u32 (word m x + v)]> m)
  | Futex _ _ _ | SchedYield | GetTid | Work _ => (0, m)
  end.

(** Wakes the first [n] threads that wait at [a], as [futex] of the kernel does; how many it woke. *)
Fixpoint wake_threads (n a : Z) (l : list Thread) : Z * list Thread :=
  match l with
  | [] => (0, [])
  | t :: l =>
      match t with
      | Waiting x p =>
          if (0 <? n) && (x =? a) then let '(woken, l) := wake_threads (n - 1) a l in (woken + 1, Ready p :: l)
          else let '(woken, l) := wake_threads n a l in (woken, t :: l)
      | Ready _ => let '(woken, l) := wake_threads n a l in (woken, t :: l)
      end
  end.

Definition EAGAIN : Z := 11.

Definition World : Type := Words * list Thread.

(** One step of thread [i]. *)
Definition step (i : nat) (w : World) : option World :=
  let '(m, l) := w in
  match l !! i with
  | Some (Ready (Loop c k)) => Some (m, <[i := Ready (chain (unfold_loop c) k)]> l)
  | Some (Ready (Do (Futex a operation v) k)) =>
      if operation =? FUTEX_WAIT_PRIVATE then
        Some (m, <[i := if word m a =? v then Waiting a (k 0) else Ready (k (- EAGAIN))]> l)
      else if operation =? FUTEX_WAKE_PRIVATE then
        let '(woken, l) := wake_threads v a l in Some (m, <[i := Ready (k woken)]> l)
      else Some (m, <[i := Ready (k (-22))]> l)
  | Some (Ready (Do a k)) => let '(r, m) := perform a m in Some (m, <[i := Ready (k r)]> l)
  | Some (Ready (Return _)) | Some (Waiting _ _) | None => None
  end.

(** Any thread may take the next step. *)
Definition steps_to (w w' : World) : Prop := exists i, step i w = Some w'.
