(* ===== verification/ThreadFacts.v ===== *)
(** * Mutexes

    Any number of threads of user/pthread_compat.c that take and release one mutex, in any
    order of their steps: where they are, seen as points of a small automaton, and the invariant of the automaton. *)

From S2P Require Import Prelude Threads.

(** ** The automaton *)

(** Where a worker is: between two rounds, at the three places of [pthread_mutex_lock] and
    asleep in it, inside, and at the two places of [pthread_mutex_unlock]. *)
Inductive Point := Rest | Fast | Slow | Swap | Await | Asleep | Inside | Leave | Notify.

#[global] Instance point_eq_dec : EqDecision Point.
Proof. solve_decision. Defined.

Section points.
Context (m : Z).

(** What a program does after its first action, or after its first loop. *)
Definition after (p : Prog) : Z -> Prog := match p with Do _ k | Loop _ k => k | Return r => fun _ => Return r end.

Definition rest : Prog := Loop (Worker m) Return.
Definition fast : Prog := chain (unfold_loop (Worker m)) Return.
Definition slow : Prog := after fast 0.
Definition inside : Prog := after fast 1.
Definition swap : Prog := chain (unfold_loop (LockLoop m)) (after slow).
Definition await : Prog := after swap 1.
Definition leave : Prog := after inside 0.
Definition notify : Prog := after leave 2.

Definition at_point (p : Point) : Thread :=
  match p with
  | Rest => Ready rest | Fast => Ready fast | Slow => Ready slow | Swap => Ready swap | Await => Ready await
  | Asleep => Waiting m slow | Inside => Ready inside | Leave => Ready leave | Notify => Ready notify
  end.

(** The first of the threads that sleep goes on. *)
Fixpoint wake_first (ps : list Point) : list Point :=
  match ps with
  | [] => []
  | Asleep :: ps => Slow :: ps
  | p :: ps => p :: wake_first ps
  end.

(** A step of the thread at [p], with the word of the mutex before and after. *)
Inductive moves : Z -> Point -> Z -> Point -> Prop :=
| move_rest v : moves v Rest v Fast
| move_fast : moves 0 Fast 1 Inside
| move_fast_busy v : v <> 0 -> moves v Fast v Slow
| move_slow v : moves v Slow v Swap
| move_swap : moves 0 Swap 2 Inside
| move_swap_busy v : v <> 0 -> moves v Swap 2 Await
| move_await : moves 2 Await 2 Asleep
| move_await_again v : v <> 2 -> moves v Await v Slow
| move_inside v : moves v Inside v Leave
| move_leave v : v <= 1 -> moves v Leave 0 Rest
| move_leave_contended v : 1 < v -> moves v Leave 0 Notify.

Inductive pstep : Z * list Point -> Z * list Point -> Prop :=
| pstep_move v v' ps i p q : ps !! i = Some p -> moves v p v' q -> pstep (v, ps) (v', <[i := q]> ps)
| pstep_notify v ps i : ps !! i = Some Notify -> pstep (v, ps) (v, <[i := Rest]> (wake_first ps)).

(** ** Threads follow the automaton *)

Lemma wake_threads_none ps n : n <= 0 -> (wake_threads n m (at_point <$> ps)).2 = at_point <$> ps.
Proof.
  revert n. induction ps as [|p ps IH]; intros n Hn; [done|]. cbn [fmap list_fmap wake_threads].
  specialize (IH n Hn). fold (at_point <$> ps).
  destruct p; cbn [at_point]; rewrite ?(proj2 (Z.ltb_ge 0 n) Hn); cbn [andb]; destruct (wake_threads n m _); cbn in *; by rewrite IH.
Qed.

Lemma wake_threads_first ps : (wake_threads 1 m (at_point <$> ps)).2 = at_point <$> wake_first ps.
Proof.
  induction ps as [|p ps IH]; [done|]. cbn [fmap list_fmap wake_threads]. fold (at_point <$> ps).
  destruct p; cbn [at_point wake_first fmap list_fmap]; try (destruct (wake_threads 1 m _); cbn in *; by rewrite IH).
  rewrite Z.eqb_refl. cbn [andb Z.ltb]. change (0 <? 1) with true. cbn [andb].
  pose proof (wake_threads_none ps (1 - 1) ltac:(lia)) as E. destruct (wake_threads (1 - 1) m (at_point <$> ps)) as [n l]. cbn in E. by subst l.
Qed.

Lemma word_insert (w : Words) a v : word (<[a := v]> w) a = v.
Proof. unfold word. by rewrite lookup_insert_eq. Qed.

Lemma step_points i w ps w' : step i (w, at_point <$> ps) = Some w' ->
  exists ps', w'.2 = at_point <$> ps' /\ pstep (word w m, ps) (word w'.1 m, ps').
Proof.
  unfold step. rewrite list_lookup_fmap. destruct (ps !! i) as [p|] eqn:Ei; [|done]. cbn [fmap option_fmap option_map].
  assert (forall v' q w1 t, word w1 m = v' -> t = at_point q -> moves (word w m) p v' q ->
    Some (w1, <[i := t]> (at_point <$> ps)) = Some w' -> exists ps', w'.2 = at_point <$> ps' /\ pstep (word w m, ps) (word w'.1 m, ps')) as Hmove.
  { intros v' q w1 t Ew -> Hm [= <-]. exists (<[i := q]> ps). cbn. split; [by rewrite list_fmap_insert|]. rewrite Ew. by econstructor. }
  destruct p; cbn [at_point].
  - by apply (Hmove (word w m) Fast); [| |constructor].
  - cbn. destruct (word w m =? 0) eqn:E.
    + apply (Hmove 1 Inside); [apply word_insert|done|]. replace (word w m) with 0 by lia. constructor.
    + apply (Hmove (word w m) Slow); [done|done|]. constructor. lia.
  - by apply (Hmove (word w m) Swap); [| |constructor].
  - cbn. destruct (word w m =? 0) eqn:E.
    + apply (Hmove 2 Inside); [apply word_insert|done|]. replace (word w m) with 0 by lia. constructor.
    + apply (Hmove 2 Await); [apply word_insert|done|]. constructor. lia.
  - cbn. destruct (word w m =? 2) eqn:E.
    + apply (Hmove 2 Asleep); [lia|done|]. replace (word w m) with 2 by lia. constructor.
    + apply (Hmove (word w m) Slow); [done|done|]. constructor. lia.
  - done.
  - by apply (Hmove (word w m) Leave); [| |constructor].
  - cbn. destruct (1 <? word w m) eqn:E.
    + apply (Hmove 0 Notify); [apply word_insert|done|]. constructor. lia.
    + apply (Hmove 0 Rest); [apply word_insert|done|]. constructor. lia.
  - cbn -[wake_threads]. pose proof (wake_threads_first ps) as Hw. destruct (wake_threads 1 m _) as [woken l]. cbn in Hw. subst l.
    intros [= <-]. exists (<[i := Rest]> (wake_first ps)). cbn. split; [by rewrite list_fmap_insert|]. by constructor.
Qed.

End points.

(** ** The invariant *)

Definition indicator (b : bool) : Z := if b then 1 else 0.

(** How many threads are at points of a kind. *)
Fixpoint tally (f : Point -> bool) (ps : list Point) : Z :=
  match ps with [] => 0 | p :: ps => indicator (f p) + tally f ps end.

Lemma tally_nonneg f ps : 0 <= tally f ps.
Proof. induction ps as [|p ps IH]; cbn [tally]; [done|]. unfold indicator. destruct (f p); lia. Qed.

Lemma tally_insert f ps i p q : ps !! i = Some p -> tally f (<[i := q]> ps) = tally f ps - indicator (f p) + indicator (f q).
Proof.
  revert i. induction ps as [|x ps IH]; intros [|i] Hi; [done|done| |]; cbn in Hi.
  - injection Hi as ->. change (<[0%nat := q]> (p :: ps)) with (q :: ps). cbn [tally]. lia.
  - specialize (IH i Hi). change (<[S i := q]> (x :: ps)) with (x :: <[i := q]> ps). cbn [tally]. lia.
Qed.

Lemma tally_pos f ps : 0 < tally f ps <-> exists i p, ps !! i = Some p /\ f p = true.
Proof.
  induction ps as [|x ps IH]; cbn [tally].
  - split; [lia|]. intros (i & p & Hi & _). done.
  - pose proof (tally_nonneg f ps). unfold indicator. destruct (f x) eqn:E.
    + split; [|lia]. intros _. by exists 0%nat, x.
    + rewrite Z.add_0_l, IH. split.
      * intros (i & p & Hi & Hp). by exists (S i), p.
      * intros ([|i] & p & Hi & Hp); cbn in Hi; [congruence|eauto].
Qed.

Lemma tally_one f ps i j p q : tally f ps <= 1 -> ps !! i = Some p -> ps !! j = Some q -> f p = true -> f q = true -> i = j.
Proof.
  revert i j. induction ps as [|x ps IH]; intros i j Hc Hi Hj Hp Hq; [done|]. cbn [tally] in Hc.
  assert (f x = true -> forall k y, ps !! k = Some y -> f y = true -> False) as Hx.
  { intros Ex k y Hk Hy. assert (0 < tally f ps) by (apply tally_pos; eauto). rewrite Ex in Hc. cbn in Hc. lia. }
  pose proof (tally_nonneg f ps). destruct i as [|i], j as [|j]; cbn in Hi, Hj; [done| | |].
  - injection Hi as ->. by destruct (Hx Hp j q).
  - injection Hj as ->. by destruct (Hx Hq i p).
  - f_equal. apply (IH i j); try done. unfold indicator in Hc. destruct (f x); lia.
Qed.

Definition holds (p : Point) : bool := match p with Inside | Leave => true | _ => false end.
Definition sleeps (p : Point) : bool := match p with Asleep => true | _ => false end.
(** On the way to set the word to 2, or to wake a thread. *)
Definition stirs (p : Point) : bool := match p with Slow | Swap | Notify => true | _ => false end.

(** The mutex is taken exactly if its word is not 0, by one thread; threads sleep only
    while the word is 2 or another thread is about to see to them. *)
Record mutex_inv (v : Z) (ps : list Point) : Prop := {
  mi_word : 0 <= v <= 2;
  mi_holder : tally holds ps = indicator (negb (v =? 0));
  mi_sleep : 0 < tally sleeps ps -> v = 2 \/ 0 < tally stirs ps }.

Lemma wake_first_cases ps : (wake_first ps = ps /\ tally sleeps ps = 0) \/
  exists i, ps !! i = Some Asleep /\ wake_first ps = <[i := Slow]> ps.
Proof.
  induction ps as [|p ps IH]; [by left|]. destruct p; try (by right; exists 0%nat);
    (destruct IH as [[E C]|(i & Hi & E)]; [left; cbn; by rewrite E, C|right; exists (S i); cbn; by rewrite E]).
Qed.

Lemma pstep_inv v ps v' ps' : pstep (v, ps) (v', ps') -> mutex_inv v ps -> mutex_inv v' ps'.
Proof.
  intros Hs [Hw Hh Hz]. pose proof (tally_nonneg sleeps ps). pose proof (tally_nonneg stirs ps).
  inversion Hs as [? ? ? i p q Hi Hm|? ? i Hi]; subst.
  - assert (0 < tally stirs ps \/ stirs p = false) as Hp.
    { destruct (stirs p) eqn:E; [left; apply tally_pos; eauto|by right]. }
    assert (0 < tally holds ps \/ holds p = false) as Hq.
    { destruct (holds p) eqn:E; [left; apply tally_pos; eauto|by right]. }
    unfold indicator in Hh. destruct (negb (v =? 0)) eqn:E; inversion Hm; subst; cbn in Hp, Hq;
      (split; rewrite ?(tally_insert _ _ _ _ _ Hi); cbn [holds sleeps stirs]; unfold indicator;
       [lia|match goal with |- context [?x =? 0] => destruct (x =? 0) eqn:? end; cbn [negb]; lia|lia]).
  - assert (tally holds (<[i := Rest]> (wake_first ps)) = tally holds ps /\
      (0 < tally sleeps (<[i := Rest]> (wake_first ps)) -> 0 < tally stirs (<[i := Rest]> (wake_first ps)))) as [H1 H2].
    { destruct (wake_first_cases ps) as [[-> C]|(j & Hj & ->)].
      - rewrite !(tally_insert _ _ _ _ _ Hi). cbn. lia.
      - assert (i <> j) by congruence. assert (<[j := Slow]> ps !! i = Some Notify) as Hi' by by rewrite list_lookup_insert_ne.
        rewrite !(tally_insert _ _ _ _ _ Hi'), !(tally_insert _ _ _ _ _ Hj). cbn. assert (0 < tally stirs ps) by (apply tally_pos; eauto). lia. }
    split; [done|by rewrite H1|auto].
Qed.

(** ** Every run *)

(** [n] workers on one mutex that is free. *)
Definition workers (n : nat) (m : Z) : list Thread := replicate n (Ready (Loop (Worker m) Return)).

Lemma workers_reach n m w0 w : word w0 m = 0 -> rtc steps_to (w0, workers n m) w ->
  exists ps, w.2 = at_point m <$> ps /\ mutex_inv (word w.1 m) ps.
Proof.
  intros H0 Hr. remember (w0, workers n m) as start eqn:Es.
  assert (exists ps, start.2 = at_point m <$> ps /\ mutex_inv (word start.1 m) ps) as Hs.
  { subst start. exists (replicate n Rest). cbn. split; [by rewrite fmap_replicate|]. rewrite H0.
    assert (forall f, f Rest = false -> tally f (replicate n Rest) = 0) as Hc.
    { intros f Hf. clear -Hf. induction n as [|n IH]; cbn; [done|]. by rewrite Hf. }
    split; [lia|by rewrite Hc|rewrite Hc by done; lia]. }
  clear Es. induction Hr as [|[w1 l1] [w2 l2] w3 [i Hi] _ IH]; [done|]. apply IH.
  destruct Hs as (ps & El & Hinv). cbn in El, Hinv. subst l1.
  destruct (step_points m i w1 ps (w2, l2) Hi) as (ps' & El' & Hp). exists ps'. split; [done|]. by eapply pstep_inv.
Qed.

(** ** Every thread can get its turn *)

(** Each step of the automaton is one of the threads. *)
Lemma pstep_step m w v ps v' ps' : word w m = v -> pstep (v, ps) (v', ps') ->
  exists w', steps_to (w, at_point m <$> ps) (w', at_point m <$> ps') /\ word w' m = v'.
Proof.
  intros Hv Hs. inversion Hs as [? ? ? i p q Hi Hm E1 E2|? ? i Hi E1 E2].
  - assert (forall w1, step i (w, at_point m <$> ps) = Some (w1, <[i := at_point m q]> (at_point m <$> ps)) -> word w1 m = v' ->
      exists w', steps_to (w, at_point m <$> ps) (w', at_point m <$> <[i := q]> ps) /\ word w' m = v') as Hgo.
    { intros w1 E Ew. exists w1. split; [|done]. exists i. by rewrite list_fmap_insert. }
    unfold step in Hgo. rewrite list_lookup_fmap, Hi in Hgo. clear Hs Hi E1 E2.
    destruct Hm; cbn in Hgo; rewrite ?Hv in Hgo; try (eapply Hgo; [reflexivity|try apply word_insert; done]);
      match type of Hgo with context [if ?b then _ else _] => destruct b eqn:E; [|] end;
      try lia; try (eapply Hgo; [reflexivity|try apply word_insert; done]).
  - subst. pose proof (wake_threads_first m ps) as Hw. exists w. split; [|done]. exists i. unfold step. rewrite list_lookup_fmap, Hi.
    cbn -[wake_threads]. destruct (wake_threads 1 m _) as [woken l]. cbn in Hw. subst l. by rewrite list_fmap_insert.
Qed.

Lemma psteps_inv v ps v' ps' : rtc pstep (v, ps) (v', ps') -> mutex_inv v ps -> mutex_inv v' ps'.
Proof.
  intros Hr. remember (v, ps) as a eqn:Ea. remember (v', ps') as b eqn:Eb. revert v ps v' ps' Ea Eb.
  induction Hr as [a|a [u qs] b Hs _ IH]; intros v ps v' ps' -> E; [by injection E as <- <-|].
  intros Hi. eapply IH; [done|done|]. by eapply pstep_inv.
Qed.

(** A step of the thread [i], which is at [p]. *)
Lemma go v ps v' i p q : ps !! i = Some p -> moves v p v' q -> pstep (v, ps) (v', <[i := q]> ps) /\ <[i := q]> ps !! i = Some q.
Proof.
  intros Hi Hm. split; [by econstructor|]. rewrite list_lookup_insert_eq; [done|by eapply lookup_lt_Some].
Qed.

(** The threads in [ps] can bring thread [i] inside. *)
Definition enters (i : nat) (s : Z * list Point) : Prop := exists v' ps', rtc pstep s (v', ps') /\ ps' !! i = Some Inside.

Lemma enters_step i s s' : pstep s s' -> enters i s' -> enters i s.
Proof. intros Hs (v & ps & Hr & Hi). exists v, ps. split; [by eapply rtc_l|done]. Qed.

Lemma enters_steps i s s' : rtc pstep s s' -> enters i s' -> enters i s.
Proof. intros Hs (v & ps & Hr & Hi). exists v, ps. split; [by etrans|done]. Qed.

Lemma enters_now i v ps : ps !! i = Some Inside -> enters i (v, ps).
Proof. intros Hi. by exists v, ps. Qed.

(** While the mutex is free, a thread that is awake can take it. *)
Lemma swap_enters i ps : ps !! i = Some Swap -> enters i (0, ps).
Proof. intros Hi. destruct (go 0 ps 2 i _ _ Hi move_swap) as [Hs Hj]. by eapply enters_step, enters_now. Qed.

Lemma slow_enters i ps : ps !! i = Some Slow -> enters i (0, ps).
Proof. intros Hi. destruct (go 0 ps 0 i _ _ Hi (move_slow 0)) as [Hs Hj]. by eapply enters_step, swap_enters. Qed.

Lemma fast_enters i ps : ps !! i = Some Fast -> enters i (0, ps).
Proof. intros Hi. destruct (go 0 ps 1 i _ _ Hi move_fast) as [Hs Hj]. by eapply enters_step, enters_now. Qed.

Lemma rest_enters i ps : ps !! i = Some Rest -> enters i (0, ps).
Proof. intros Hi. destruct (go 0 ps 0 i _ _ Hi (move_rest 0)) as [Hs Hj]. by eapply enters_step, fast_enters. Qed.

Lemma awake_enters i ps p : mutex_inv 0 ps -> ps !! i = Some p -> p <> Asleep -> enters i (0, ps).
Proof.
  intros Hinv Hi Hp. destruct p; try done.
  - by apply rest_enters.
  - by apply fast_enters.
  - by apply slow_enters.
  - by apply swap_enters.
  - destruct (go 0 ps 0 i _ _ Hi (move_await_again 0 ltac:(done))) as [Hs Hj]. by eapply enters_step, slow_enters.
  - by apply enters_now.
  - pose proof (mi_holder _ _ Hinv) as Hh. cbn in Hh. assert (0 < tally holds ps) by (apply tally_pos; eauto). lia.
  - eapply enters_step; [by apply pstep_notify|]. apply rest_enters. rewrite list_lookup_insert_eq; [done|].
    destruct (wake_first_cases ps) as [[-> _]|(j & Hj & ->)]; rewrite ?length_insert; by eapply lookup_lt_Some.
Qed.

(** The holder can leave; nobody falls asleep or wakes up meanwhile. *)
Lemma holder_leaves v ps : mutex_inv v ps -> exists ps', rtc pstep (v, ps) (0, ps') /\
  length ps' = length ps /\ tally sleeps ps' = tally sleeps ps /\ forall i, ps !! i = Some Asleep -> ps' !! i = Some Asleep.
Proof.
  intros Hinv. destruct (decide (v = 0)) as [->|Hv]; [by exists ps|].
  assert (0 < tally holds ps) as (j & p & Hj & Hp)%tally_pos.
  { rewrite (mi_holder _ _ Hinv), (proj2 (Z.eqb_neq v 0) Hv). done. }
  assert (exists ps1, rtc pstep (v, ps) (v, ps1) /\ ps1 !! j = Some Leave /\ length ps1 = length ps /\ tally sleeps ps1 = tally sleeps ps /\
    forall i, ps !! i = Some Asleep -> ps1 !! i = Some Asleep) as (ps1 & Hr & Hj1 & Hl & Hc & Hz).
  { destruct p; try done; [|by exists ps]. destruct (go v ps v j _ _ Hj (move_inside v)) as [Hs Hjl].
    exists (<[j := Leave]> ps). split_and!; [by apply rtc_once|done|by rewrite length_insert|rewrite (tally_insert _ _ _ _ _ Hj); cbn; lia|].
    intros i Hi. rewrite list_lookup_insert_ne; [done|congruence]. }
  assert (exists q, moves v Leave 0 q /\ sleeps q = false) as (q & Hm & Hq).
  { destruct (decide (v <= 1)); [exists Rest|exists Notify]; (split; [constructor; lia|done]). }
  destruct (go v ps1 0 j _ _ Hj1 Hm) as [Hs _]. exists (<[j := q]> ps1). split_and!.
  - by eapply rtc_r.
  - by rewrite length_insert.
  - rewrite (tally_insert _ _ _ _ _ Hj1), Hq. cbn. lia.
  - intros i Hi. rewrite list_lookup_insert_ne; [by apply Hz|]. intros ->. specialize (Hz _ Hi). congruence.
Qed.

(** While the mutex is free and a thread stirs, a thread can come to the point where it wakes another. *)
Lemma stirring_notifies ps : 0 < tally stirs ps -> exists ps' j, rtc pstep (0, ps) (0, ps') /\ ps' !! j = Some Notify /\
  length ps' = length ps /\ tally sleeps ps' = tally sleeps ps /\ forall i, ps !! i = Some Asleep -> ps' !! i = Some Asleep.
Proof.
  intros (j & p & Hj & Hp)%tally_pos.
  assert (forall qs, qs !! j = Some Swap -> exists ps', rtc pstep (0, qs) (0, ps') /\ ps' !! j = Some Notify /\
    length ps' = length qs /\ tally sleeps ps' = tally sleeps qs /\ forall i, qs !! i = Some Asleep -> ps' !! i = Some Asleep) as Hswap.
  { intros qs Hq. destruct (go 0 qs 2 j _ _ Hq move_swap) as [S1 H1]. destruct (go 2 _ 2 j _ _ H1 (move_inside 2)) as [S2 H2].
    destruct (go 2 _ 0 j _ _ H2 (move_leave_contended 2 ltac:(lia))) as [S3 H3]. eexists. split_and!.
    - eapply rtc_l; [exact S1|]. eapply rtc_l; [exact S2|]. by apply rtc_once.
    - exact H3.
    - by rewrite !length_insert.
    - rewrite (tally_insert _ _ _ _ _ H2), (tally_insert _ _ _ _ _ H1), (tally_insert _ _ _ _ _ Hq). cbn. lia.
    - intros i Hi. assert (i <> j) by congruence. by rewrite !list_lookup_insert_ne. }
  destruct p; try done.
  - destruct (go 0 ps 0 j _ _ Hj (move_slow 0)) as [Hs H1]. destruct (Hswap _ H1) as (ps' & Hr & Hn & Hl & Hc & Hz). exists ps', j. split_and!.
    + by eapply rtc_l.
    + done.
    + by rewrite Hl, length_insert.
    + rewrite Hc, (tally_insert _ _ _ _ _ Hj). cbn. lia.
    + intros i Hi. apply Hz. rewrite list_lookup_insert_ne; [done|congruence].
  - destruct (Hswap _ Hj) as (ps' & Hr). by exists ps', j.
  - by exists ps, j.
Qed.

(** A thread that sleeps can be woken, since each turn of another wakes one of the sleepers. *)
Lemma asleep_enters n i ps : tally sleeps ps <= Z.of_nat n -> mutex_inv 0 ps -> ps !! i = Some Asleep -> enters i (0, ps).
Proof.
  revert ps. induction n as [|n IH]; intros ps Hn Hinv Hi.
  { assert (0 < tally sleeps ps) by (apply tally_pos; eauto). lia. }
  assert (0 < tally sleeps ps) as Hs by (apply tally_pos; eauto).
  destruct (mi_sleep _ _ Hinv Hs) as [|Hstir]; [done|].
  destruct (stirring_notifies ps Hstir) as (qs & j & Hr & Hj & Hl & Hc & Hz). eapply enters_steps; [exact Hr|].
  assert (mutex_inv 0 qs) as Hq by by eapply psteps_inv. pose proof (pstep_notify 0 qs j Hj) as Hw.
  eapply enters_step; [exact Hw|]. assert (mutex_inv 0 (<[j := Rest]> (wake_first qs))) as Hq' by by eapply pstep_inv.
  specialize (Hz i Hi). destruct (wake_first_cases qs) as [[_ C]|(k & Hk & E)]; [lia|]. rewrite E in *.
  assert (j <> k) by congruence. assert (j <> i) by congruence. destruct (decide (k = i)) as [->|Hki].
  - eapply (awake_enters i _ Slow); [done| |done]. rewrite list_lookup_insert_ne, list_lookup_insert_eq; [done| |done]. by eapply lookup_lt_Some.
  - apply IH; [|done|by rewrite !list_lookup_insert_ne].
    assert (<[k := Slow]> qs !! j = Some Notify) as Hj' by by rewrite list_lookup_insert_ne.
    rewrite (tally_insert _ _ _ _ _ Hj'), (tally_insert _ _ _ _ _ Hk). cbn. lia.
Qed.

Lemma points_enter v ps i : mutex_inv v ps -> (i < length ps)%nat -> enters i (v, ps).
Proof.
  intros Hinv Hi. destruct (holder_leaves v ps Hinv) as (qs & Hr & Hl & Hc & Hz). eapply enters_steps; [exact Hr|].
  assert (mutex_inv 0 qs) as Hq by by eapply psteps_inv.
  destruct (lookup_lt_is_Some_2 qs i ltac:(lia)) as [p Hp]. destruct (decide (p = Asleep)) as [->|].
  - eapply (asleep_enters (Z.to_nat (tally sleeps qs))); [pose proof (tally_nonneg sleeps qs); lia|done|done].
  - by eapply awake_enters.
Qed.

Lemma psteps_steps m w v ps v' ps' : word w m = v -> rtc pstep (v, ps) (v', ps') ->
  exists w', rtc steps_to (w, at_point m <$> ps) (w', at_point m <$> ps') /\ word w' m = v'.
Proof.
  intros Hw Hr. remember (v, ps) as a eqn:Ea. remember (v', ps') as b eqn:Eb. revert w v ps v' ps' Hw Ea Eb.
  induction Hr as [a|a [u qs] b Hs _ IH]; intros w v ps v' ps' Hw -> E; [injection E as <- <-; by exists w|].
  destruct (pstep_step m w v ps u qs Hw Hs) as (w1 & H1 & E1). destruct (IH w1 u qs v' ps' E1 eq_refl E) as (w2 & H2 & E2).
  exists w2. split; [by eapply rtc_l|done].
Qed.

(** ** What threads see *)

(** The thread is about to do the work that the mutex protects. *)
Definition in_section (m : Z) (t : Thread) : bool :=
  match t with Ready (Do (Work x) _) => x =? m | _ => false end.

Lemma in_section_point m p : in_section m (at_point m p) = true <-> p = Inside.
Proof. destruct p; cbn; rewrite ?Z.eqb_refl; done. Qed.

(** ** What mutexes promise *)

(** [C23] Mutexes: however the steps of any number of threads that take and release a mutex in turn are interleaved,
    at most one of them is between [pthread_mutex_lock] and [pthread_mutex_unlock], and none can be locked
    out: from every state that they reach, every one of them, also one that sleeps in the kernel, can
    still get inside, so no wake-up is ever lost and the threads never block each other for good. *)
Theorem mutex_correct n m w0 w : word w0 m = 0 -> rtc steps_to (w0, workers n m) w ->
  (forall i j t u, w.2 !! i = Some t -> w.2 !! j = Some u -> in_section m t = true -> in_section m u = true -> i = j) /\
  (forall i t, w.2 !! i = Some t -> exists w' t', rtc steps_to w w' /\ w'.2 !! i = Some t' /\ in_section m t' = true).
Proof.
  intros H0 Hr. destruct (workers_reach n m w0 w H0 Hr) as (ps & El & Hinv). destruct w as [words l]. cbn in *. subst l. split.
  - intros i j t u Ht Hu St Su. apply list_lookup_fmap_Some in Ht as (p & -> & Hp), Hu as (q & -> & Hq).
    apply in_section_point in St as ->, Su as ->. eapply (tally_one holds ps); [|done..].
    rewrite (mi_holder _ _ Hinv). unfold indicator. destruct (negb _); lia.
  - intros i t Ht. apply list_lookup_fmap_Some in Ht as (p & -> & Hp).
    destruct (points_enter _ _ i Hinv (lookup_lt_Some _ _ _ Hp)) as (v' & qs & Hq & Hi).
    destruct (psteps_steps m words _ ps v' qs eq_refl Hq) as (w' & Hw & _). exists (w', at_point m <$> qs), (at_point m Inside).
    split_and!; [done|cbn [snd]; by rewrite list_lookup_fmap, Hi|by apply in_section_point].
Qed.

(** The threads take steps in the order of [schedule]. *)
Fixpoint run_threads (schedule : list nat) (w : World) : option World :=
  match schedule with [] => Some w | i :: schedule => w' ← step i w; run_threads schedule w' end.

Lemma run_threads_reaches schedule w w' : run_threads schedule w = Some w' -> rtc steps_to w w'.
Proof.
  revert w. induction schedule as [|i schedule IH]; intros w; cbn; [intros [= <-]; done|].
  intros (w1 & Hs & Hr)%bind_Some. eapply rtc_l; [by exists i|by apply IH].
Qed.

(** The first thread is inside, the second has gone to sleep. *)
Definition contended : World := default (∅, []) (run_threads [0; 0; 1; 1; 1; 1; 1]%nat (∅, workers 2 8)).

Lemma contended_runs : run_threads [0; 0; 1; 1; 1; 1; 1]%nat (∅, workers 2 8) = Some contended.
Proof. reflexivity. Qed.

Lemma mutex_correct_witness : exists w' t', rtc steps_to contended w' /\ w'.2 !! 1%nat = Some t' /\ in_section 8 t' = true.
Proof.
  exact (proj2 (mutex_correct 2 8 ∅ contended eq_refl (run_threads_reaches _ _ _ contended_runs)) 1%nat (Waiting 8 (slow 8)) eq_refl).
Defined.
