(* ===== verification/Graphics.v ===== *)
(** * Drawing: graphics/graphics.c

    Pixels are drawn into a frame in memory, over a wallpaper and from a saved copy, and
    shown by copying them to the video memory in the format of the mode.  An array of pixels
    is a map from indices to colours, 0 where nothing was stored; an index outside of the
    array would show up as a key.  Sums, differences and products of coordinates, which a caller
    can make overflow, are written with their wrap-around.  The glyphs of graphics/font.c are the parameter [font]. *)

From S2P Require Import Prelude.

Definition GFX_MAX_WIDTH : Z := 1024.
Definition GFX_MAX_HEIGHT : Z := 768.
Definition GFX_FONT_WIDTH : Z := 8.
Definition GFX_FONT_HEIGHT : Z := 12.
Definition GFX_FONT_ADVANCE : Z := 8.

Record Rect := mkRect { r_x : Z; r_y : Z; r_width : Z; r_height : Z }.

(** The fields of the mode that the driver reads. *)
Record VbeModeInfo := mkMode {
  attributes : Z; pitch : Z; vbe_width : Z; vbe_height : Z; bits_per_pixel : Z;
  red_mask : Z; red_position : Z; green_mask : Z; green_position : Z; blue_mask : Z; blue_position : Z;
  framebuffer : Z }.

(** [video] holds the bytes written to the video memory, by their offset in it. *)
Record Gfx := mkGfx {
  mode : VbeModeInfo;
  frame : gmap Z Z;
  wallpaper : gmap Z Z;
  base_frame : gmap Z Z;
  screen_width : Z;
  screen_height : Z;
  video_memory : Z;
  video : gmap Z Z }.

Definition set_frame (v : gmap Z Z) (s : Gfx) : Gfx :=
  mkGfx (mode s) v (wallpaper s) (base_frame s) (screen_width s) (screen_height s) (video_memory s) (video s).
Definition set_wallpaper (v : gmap Z Z) (s : Gfx) : Gfx :=
  mkGfx (mode s) (frame s) v (base_frame s) (screen_width s) (screen_height s) (video_memory s) (video s).
Definition set_base_frame (v : gmap Z Z) (s : Gfx) : Gfx :=
  mkGfx (mode s) (frame s) (wallpaper s) v (screen_width s) (screen_height s) (video_memory s) (video s).
Definition set_video (v : gmap Z Z) (s : Gfx) : Gfx :=
  mkGfx (mode s) (frame s) (wallpaper s) (base_frame s) (screen_width s) (screen_height s) (video_memory s) v.

(** The element of an array. *)
Definition load (a : gmap Z Z) (i : Z) : Z := default 0 (a !! i).

(** [for (int i = lo; i < hi; ++i) body]. *)
Definition for_range {S} (lo hi : Z) (body : Z -> S -> S) (s : S) : S := foldl (fun s i => body i s) s (seqZ lo (hi - lo)).

(** ** Colours *)

Definition copy_pixels (destination : gmap Z Z) (at_ : Z) (source : gmap Z Z) (from : Z) (count : Z) : gmap Z Z :=
  for_range 0 count (fun i d => <[at_ + i := load source (from + i)]> d) destination.

(** [rep movsl]: [count] words of four bytes each. *)
Definition copy_pixels_to_video (destination : gmap Z Z) (at_ : Z) (source : gmap Z Z) (from : Z) (count : Z) : gmap Z Z :=
  for_range 0 count (fun i d =>
    for_range 0 4 (fun b d => <[at_ + 4 * i + b := u8 (Z.shiftr (load source (from + i)) (8 * b))]> d) d) destination.

Definition absolute (value : Z) : Z := if value <? 0 then s32 (- value) else value.

Definition scale_channel (value bits : Z) : Z :=
  if 8 <=? bits then u32 (Z.shiftl value (bits - 8)) else Z.shiftr value (8 - bits).

Definition native_color (m : VbeModeInfo) (color : Z) : Z :=
  let red := Z.land (Z.shiftr color 16) 0xFF in
  let green := Z.land (Z.shiftr color 8) 0xFF in
  let blue := Z.land color 0xFF in
  Z.lor (Z.lor (u32 (Z.shiftl (scale_channel red (red_mask m)) (red_position m)))
               (u32 (Z.shiftl (scale_channel green (green_mask m)) (green_position m))))
        (u32 (Z.shiftl (scale_channel blue (blue_mask m)) (blue_position m))).

Definition gfx_init (s : Gfx) : bool * Gfx :=
  let s := mkGfx (mode s) (frame s) (wallpaper s) (base_frame s) (vbe_width (mode s)) (vbe_height (mode s))
             (framebuffer (mode s)) (video s) in
  if negb (has (attributes (mode s)) 0x80) || (video_memory s =? 0) then (false, s) else
  if (screen_width s <? 640) || (screen_height s <? 480) || (GFX_MAX_WIDTH <? screen_width s) || (GFX_MAX_HEIGHT <? screen_height s)
  then (false, s) else
  ((bits_per_pixel (mode s) =? 24) || (bits_per_pixel (mode s) =? 32), s).

Definition gfx_width (s : Gfx) : Z := screen_width s.
Definition gfx_height (s : Gfx) : Z := screen_height s.

Definition gfx_mix (background foreground alpha : Z) : Z :=
  let inverse := 255 - alpha in
  let red := (Z.land (Z.shiftr background 16) 0xFF * inverse + Z.land (Z.shiftr foreground 16) 0xFF * alpha) / 255 in
  let green := (Z.land (Z.shiftr background 8) 0xFF * inverse + Z.land (Z.shiftr foreground 8) 0xFF * alpha) / 255 in
  let blue := (Z.land background 0xFF * inverse + Z.land foreground 0xFF * alpha) / 255 in
  Z.lor (Z.lor (Z.shiftl red 16) (Z.shiftl green 8)) blue.

(** ** The wallpaper *)

(** The colour at column [x] of a row that is [vertical] without the two glows. *)
Definition wallpaper_color (s : Gfx) (accent : Z) (dark_mode : bool) (vertical x y : Z) : Z :=
  let width := screen_width s in
  let height := screen_height s in
  let dx1 := x - Z.quot (width * 66) 100 in
  let dy1 := y - Z.quot (height * 38) 100 in
  let dx2 := x - Z.quot (width * 38) 100 in
  let dy2 := y - Z.quot (height * 70) 100 in
  let distance1 := Z.quot (dx1 * dx1) 5 + dy1 * dy1 in
  let distance2 := Z.quot (dx2 * dx2) 3 + dy2 * dy2 in
  let glow1 := if distance1 <? 90000 then u8 (150 - Z.quot (distance1 * 150) 90000) else 0 in
  let glow2 := if distance2 <? 65000 then u8 (100 - Z.quot (distance2 * 100) 65000) else 0 in
  gfx_mix (gfx_mix vertical accent glow1) (if dark_mode then 0x0C86FF else 0xFFFFFF) glow2.

Definition gfx_generate_wallpaper (accent : Z) (dark_mode : bool) (s : Gfx) : Gfx :=
  let width := screen_width s in
  let height := screen_height s in
  let top := if dark_mode then 0x071426 else 0xDDEEFF in
  let bottom := if dark_mode then 0x102F55 else 0x77BCEE in
  set_wallpaper (for_range 0 height (fun y w =>
    let vertical := gfx_mix top bottom (u8 (Z.quot (y * 170) height)) in
    for_range 0 width (fun x w => <[y * width + x := wallpaper_color s accent dark_mode vertical x y]> w) w) (wallpaper s)) s.

(** ** Whole frames and rectangles *)

Definition gfx_begin_frame (s : Gfx) : Gfx :=
  set_frame (copy_pixels (frame s) 0 (wallpaper s) 0 (screen_width s * screen_height s)) s.

Definition gfx_save_base (s : Gfx) : Gfx :=
  set_base_frame (copy_pixels (base_frame s) 0 (frame s) 0 (screen_width s * screen_height s)) s.

(** The part of a rectangle on the screen: from [x0], [y0] up to but not at [x1], [y1]. *)
Definition clipped (s : Gfx) (x y width height : Z) : option (Z * Z * Z * Z) :=
  if (width <=? 0) || (height <=? 0) || (screen_width s <=? x) || (screen_height s <=? y) ||
     (s32 (x + width) <=? 0) || (s32 (y + height) <=? 0) then None else
  Some (if x <? 0 then 0 else x, if y <? 0 then 0 else y,
        if screen_width s <? s32 (x + width) then screen_width s else s32 (x + width),
        if screen_height s <? s32 (y + height) then screen_height s else s32 (y + height)).

Definition gfx_save_base_rect (x y width height : Z) (s : Gfx) : Gfx :=
  match clipped s x y width height with
  | None => s
  | Some (x0, y0, x1, y1) =>
      set_base_frame (for_range y0 y1 (fun row b =>
        copy_pixels b (row * screen_width s + x0) (frame s) (row * screen_width s + x0) (x1 - x0)) (base_frame s)) s
  end.

Definition gfx_restore_base_rect (x y width height : Z) (s : Gfx) : Gfx :=
  match clipped s x y width height with
  | None => s
  | Some (x0, y0, x1, y1) =>
      set_frame (for_range y0 y1 (fun row f =>
        copy_pixels f (row * screen_width s + x0) (base_frame s) (row * screen_width s + x0) (x1 - x0)) (frame s)) s
  end.

(** The mode has pixels of four bytes in the format of the frame. *)
Definition native_bgr (m : VbeModeInfo) : bool :=
  (bits_per_pixel m =? 32) && (red_mask m =? 8) && (green_mask m =? 8) && (blue_mask m =? 8) &&
  (red_position m =? 16) && (green_position m =? 8) && (blue_position m =? 0).

(** One row, pixel by pixel. *)
Definition present_row (s : Gfx) (row x0 x1 : Z) (v : gmap Z Z) : gmap Z Z :=
  let bytes_per_pixel := Z.quot (bits_per_pixel (mode s)) 8 in
  for_range x0 x1 (fun column v =>
    let packed := native_color (mode s) (load (frame s) (row * screen_width s + column)) in
    for_range 0 bytes_per_pixel (fun b v =>
      <[row * pitch (mode s) + (column * bytes_per_pixel + b) := u8 (Z.shiftr packed (b * 8))]> v) v) v.

Definition gfx_present_rect (x y width height : Z) (s : Gfx) : Gfx :=
  match clipped s x y width height with
  | None => s
  | Some (x0, y0, x1, y1) =>
      set_video (for_range y0 y1 (fun row v =>
        if native_bgr (mode s) then
          copy_pixels_to_video v (row * pitch (mode s) + 4 * x0) (frame s) (row * screen_width s + x0) (u32 (x1 - x0))
        else present_row s row x0 x1 v) (video s)) s
  end.

Definition gfx_present (s : Gfx) : Gfx := gfx_present_rect 0 0 (screen_width s) (screen_height s) s.

(** ** Pixels *)

Definition on_screen (s : Gfx) (x y : Z) : bool :=
  (u32 x <? u32 (screen_width s)) && (u32 y <? u32 (screen_height s)).

Definition gfx_pixel (x y color : Z) (s : Gfx) : Gfx :=
  if on_screen s x y then set_frame (<[y * screen_width s + x := color]> (frame s)) s else s.

Definition gfx_get_pixel (x y : Z) (s : Gfx) : Z :=
  if on_screen s x y then load (frame s) (y * screen_width s + x) else 0.

(** ** Shapes *)

Definition gfx_fill_rect (x y width height color : Z) (s : Gfx) : Gfx :=
  match clipped s x y width height with
  | None => s
  | Some (x0, y0, x1, y1) =>
      set_frame (for_range y0 y1 (fun row f =>
        for_range x0 x1 (fun column f => <[row * screen_width s + column := color]> f) f) (frame s)) s
  end.

Definition gfx_fill_rect_alpha (x y width height color alpha : Z) (s : Gfx) : Gfx :=
  match clipped s x y width height with
  | None => s
  | Some (x0, y0, x1, y1) =>
      set_frame (for_range y0 y1 (fun row f =>
        for_range x0 x1 (fun column f =>
          <[row * screen_width s + column := gfx_mix (load f (row * screen_width s + column)) color alpha]> f) f) (frame s)) s
  end.

Definition inside_round_rect (px py width height radius : Z) : bool :=
  let near_x := if px <? radius then radius else if s32 (width - radius) <=? px then s32 (width - radius - 1) else px in
  let near_y := if py <? radius then radius else if s32 (height - radius) <=? py then s32 (height - radius - 1) else py in
  let dx := s32 (px - near_x) in
  let dy := s32 (py - near_y) in
  s32 (dx * dx + dy * dy) <=? s32 (radius * radius).

Definition gfx_round_rect (x y width height radius color : Z) (s : Gfx) : Gfx :=
  if radius <? 1 then gfx_fill_rect x y width height color s else
  for_range 0 height (fun py s =>
    for_range 0 width (fun px s =>
      if inside_round_rect px py width height radius then gfx_pixel (s32 (x + px)) (s32 (y + py)) color s else s) s) s.

Definition gfx_round_rect_alpha (x y width height radius color alpha : Z) (s : Gfx) : Gfx :=
  for_range 0 height (fun py s =>
    for_range 0 width (fun px s =>
      if inside_round_rect px py width height radius then
        let screen_x := s32 (x + px) in
        let screen_y := s32 (y + py) in
        gfx_pixel screen_x screen_y (gfx_mix (gfx_get_pixel screen_x screen_y s) color alpha) s
      else s) s) s.

Definition gfx_shadow (x y width height radius : Z) (s : Gfx) : Gfx :=
  foldl (fun s spread =>
    gfx_round_rect_alpha (s32 (x - Z.quot spread 2)) (s32 (y + Z.quot spread 3)) (s32 (width + spread)) (s32 (height + spread))
      (s32 (radius + Z.quot spread 2)) 0 (u8 (5 + (16 - spread))) s) s [16; 14; 12; 10; 8; 6; 4; 2].

(** At most [rounds] rounds of the loop of [gfx_line], and whether it has ended by then. *)
Fixpoint line_loop (rounds : nat) (x0 y0 x1 y1 dx dy sx sy error color : Z) (s : Gfx) : bool * Gfx :=
  match rounds with
  | O => (false, s)
  | S rounds =>
      let s := gfx_pixel x0 y0 color s in
      if (x0 =? x1) && (y0 =? y1) then (true, s) else
      let twice := s32 (error * 2) in
      let '(error, x0) := if dy <=? twice then (s32 (error + dy), s32 (x0 + sx)) else (error, x0) in
      let '(error, y0) := if twice <=? dx then (s32 (error + dx), s32 (y0 + sy)) else (error, y0) in
      line_loop rounds x0 y0 x1 y1 dx dy sx sy error color s
  end.

Definition gfx_line (rounds : nat) (x0 y0 x1 y1 color : Z) (s : Gfx) : bool * Gfx :=
  let dx := absolute (s32 (x1 - x0)) in
  let sx := if x0 <? x1 then 1 else -1 in
  let dy := s32 (- absolute (s32 (y1 - y0))) in
  let sy := if y0 <? y1 then 1 else -1 in
  line_loop rounds x0 y0 x1 y1 dx dy sx sy (s32 (dx + dy)) color s.

Definition gfx_circle (center_x center_y radius color : Z) (s : Gfx) : Gfx :=
  for_range (s32 (- radius)) (radius + 1) (fun y s =>
    for_range (s32 (- radius)) (radius + 1) (fun x s =>
      if s32 (x * x + y * y) <=? s32 (radius * radius) then gfx_pixel (s32 (center_x + x)) (s32 (center_y + y)) color s else s) s) s.

(** ** Text *)

Section text.

(** [font scale glyph]: the alpha values of a glyph, row by row. *)
Context (font : Z -> Z -> list Z).

Definition glyph_of (character : Z) : Z := (if (u8 character <? 32) || (127 <? u8 character) then 63 else u8 character) - 32.

Definition scale_of (scale : Z) : Z := if scale <? 1 then 1 else if 3 <? scale then 3 else scale.

Definition draw_character (x y character color scale : Z) (clip : Rect) (s : Gfx) : Gfx :=
  let scale := scale_of scale in
  let pixels := font scale (glyph_of character) in
  let width := GFX_FONT_WIDTH * scale in
  let height := GFX_FONT_HEIGHT * scale in
  for_range 0 height (fun row s =>
    let py := s32 (y + row) in
    if (py <? r_y clip) || (s32 (r_y clip + r_height clip) <=? py) then s else
    for_range 0 width (fun column s =>
      let px := s32 (x + column) in
      if (px <? r_x clip) || (s32 (r_x clip + r_width clip) <=? px) then s else
      let alpha := nth (Z.to_nat (row * width + column)) pixels 0 in
      if alpha =? 0 then s else
      gfx_pixel px py (if alpha =? 255 then color else gfx_mix (gfx_get_pixel px py s) color alpha) s) s) s.

Fixpoint text_loop (x cursor_x y : Z) (text : list Z) (color scale : Z) (clip : Rect) (s : Gfx) : Gfx :=
  match text with
  | [] => s
  | c :: text =>
      if c =? 10 then text_loop x x (s32 (y + (GFX_FONT_HEIGHT + 2) * scale)) text color scale clip s
      else text_loop x (s32 (cursor_x + GFX_FONT_ADVANCE * scale)) y text color scale clip (draw_character cursor_x y c color scale clip s)
  end.

Definition gfx_text_clipped (x y : Z) (text : list Z) (color scale : Z) (clip : Rect) (s : Gfx) : Gfx :=
  text_loop x x y text color scale clip s.

Definition gfx_text (x y : Z) (text : list Z) (color scale : Z) (s : Gfx) : Gfx :=
  gfx_text_clipped x y text color scale (mkRect 0 0 (screen_width s) (screen_height s)) s.

End text.

Definition gfx_text_width (text : list Z) (scale : Z) : Z := s32 (s32 (Z.of_nat (length text)) * GFX_FONT_ADVANCE * scale).
