(* ===== verification/GraphicsTheorems.v ===== *)
(** * What drawing promises

    Theorems about graphics/graphics.c: no operation leaves its arrays or the video memory,
    rectangles, lines and saved parts of the screen come out exactly, blending stays between
    its colours, and the fast way of showing a frame shows the same as the slow one. *)

From S2P Require Import Prelude Graphics.

(** ** Loops *)

Section loops.
Context {S : Type}.

Lemma for_range_inv (I : S -> Prop) lo hi body s :
  I s -> (forall i s, lo <= i < hi -> I s -> I (body i s)) -> I (for_range lo hi body s).
Proof.
  intros Hs Hb. unfold for_range. assert (Forall (fun i => lo <= i < hi) (seqZ lo (hi - lo))) as Hf.
  { apply Forall_forall. intros i Hi. apply elem_of_seqZ in Hi. lia. }
  revert s Hs. induction Hf as [|i l Hi _ IH]; intros s Hs; cbn; auto.
Qed.

Lemma for_range_empty lo hi (body : Z -> S -> S) s : hi <= lo -> for_range lo hi body s = s.
Proof. intros Hl. unfold for_range. by rewrite seqZ_nil by lia. Qed.

Lemma for_range_last lo hi (body : Z -> S -> S) s : lo <= hi -> for_range lo (hi + 1) body s = body hi (for_range lo hi body s).
Proof.
  intros Hl. unfold for_range. replace (hi + 1 - lo) with (hi - lo + 1) by lia. rewrite seqZ_app by lia.
  rewrite foldl_app. replace (lo + (hi - lo)) with hi by lia. done.
Qed.

(** The loop up to [hi], by what holds before each round. *)
Lemma for_range_ind (P : Z -> S -> Prop) lo hi body s : lo <= hi -> P lo s ->
  (forall i s, lo <= i < hi -> P i s -> P (i + 1) (body i s)) -> P hi (for_range lo hi body s).
Proof.
  intros Hl Hs Hb. remember (Z.to_nat (hi - lo)) as n eqn:En. revert hi Hl Hb En.
  induction n as [|n IH]; intros hi Hl Hb En; [by replace hi with lo by lia; rewrite for_range_empty|].
  replace hi with (hi - 1 + 1) by lia. rewrite for_range_last by lia. apply Hb; [lia|]. apply IH; [lia| |lia].
  intros i s' Hi. apply Hb. lia.
Qed.

End loops.

(** ** Rows and rectangles of pixels *)

(** Decides the conditions one by one. *)
Ltac by_conditions := repeat (match goal with |- context [if ?b then _ else _] => let E := fresh in destruct b eqn:E end); done || lia.

(** A row in which each pixel becomes a function of what it was. *)
Lemma row_load (f : Z -> Z -> Z) base x0 x1 m k : x0 <= x1 ->
  load (for_range x0 x1 (fun c m => <[base + c := f c (load m (base + c))]> m) m) k =
  if (x0 <=? k - base) && (k - base <? x1) then f (k - base) (load m k) else load m k.
Proof.
  intros Hx. apply (for_range_ind (fun n m' => forall k, load m' k =
    if (x0 <=? k - base) && (k - base <? n) then f (k - base) (load m k) else load m k)); [done| |].
  - intros k'. by_conditions.
  - intros i m' Hi IH k'. unfold load at 1. destruct (decide (k' = base + i)) as [->|Hne].
    + rewrite lookup_insert_eq. cbn. rewrite IH. replace (base + i - base) with i by lia.
      by_conditions.
    + rewrite lookup_insert_ne by done. fold (load m' k'). rewrite IH. by_conditions.
Qed.

(** The place of pixel [k] on a screen of width [w]. *)
Lemma pixel_row w k row : 0 < w -> (0 <=? k - row * w) && (k - row * w <? w) = (k / w =? row).
Proof. intros Hw. apply eq_true_iff_eq. pose proof (Z.div_mod k w). pose proof (Z.mod_pos_bound k w Hw). nia. Qed.

(** A rectangle whose rows are rewritten that way. *)
Lemma rect_load (f : Z -> Z -> Z) w x0 x1 y0 y1 body m k : 0 < w -> 0 <= x0 -> x0 <= x1 <= w -> y0 <= y1 ->
  (forall row m k, load (body row m) k =
     if (x0 <=? k - row * w) && (k - row * w <? x1) then f k (load m k) else load m k) ->
  load (for_range y0 y1 body m) k =
  if (y0 <=? k / w) && (k / w <? y1) && (x0 <=? k mod w) && (k mod w <? x1) then f k (load m k) else load m k.
Proof.
  intros Hw Hx0 Hx1 Hy Hb. apply (for_range_ind (fun n m' => forall k, load m' k =
    if (y0 <=? k / w) && (k / w <? n) && (x0 <=? k mod w) && (k mod w <? x1) then f k (load m k) else load m k)); [done| |].
  - intros k'. by_conditions.
  - intros i m' Hi IH k'. rewrite Hb, !IH. pose proof (Z.div_mod k' w ltac:(lia)) as Dk. pose proof (Z.mod_pos_bound k' w Hw) as Mk.
    destruct (decide (k' / w = i)) as [<-|Hne].
    + replace (k' - k' / w * w) with (k' mod w) by lia. by_conditions.
    + assert (((x0 <=? k' - i * w) && (k' - i * w <? x1)) = false) as -> by nia. by_conditions.
Qed.

(** ** Integers *)

Definition is_int (x : Z) : Prop := - 2 ^ 31 <= x < 2 ^ 31.

Lemma s32_int x : is_int (s32 x).
Proof. unfold is_int, swrap. pose proof (Z.mod_pos_bound (x + 2 ^ (32 - 1)) (2 ^ 32)). lia. Qed.

Lemma s32_id x : is_int x -> s32 x = x.
Proof. unfold is_int, swrap. intros. rewrite Z.mod_small; lia. Qed.

(** ** Lines *)

Definition draw_points (points : list (Z * Z)) (color : Z) (s : Gfx) : Gfx :=
  foldl (fun s p => gfx_pixel p.1 p.2 color s) s points.

(** [i] columns and [j] rows along a line that spans [w] columns and [h] rows: at most half a
    step of the longer side away from it. *)
Definition near (w h i j : Z) : Prop := 0 <= i <= w /\ 0 <= j <= h /\ Z.abs (2 * (j * w - i * h)) <= Z.max w h.

(** One round of the loop, away from the end. *)
Lemma near_step w h i j error : near w h i j -> ~ (i = w /\ j = h) -> error = (1 + j) * w - (1 + i) * h ->
  let i' := if - h <=? error * 2 then i + 1 else i in
  let j' := if error * 2 <=? w then j + 1 else j in
  near w h i' j' /\ i + j < i' + j'.
Proof.
  intros (Hi & Hj & Hd) Hend ->. cbv zeta. unfold near.
  destruct (Z.leb_spec (- h) (((1 + j) * w - (1 + i) * h) * 2)), (Z.leb_spec (((1 + j) * w - (1 + i) * h) * 2) w);
    split_and!; nia.
Qed.

(** A path from [p] to [q] in single steps, sideways, upwards or across. *)
Inductive path : Z * Z -> Z * Z -> list (Z * Z) -> Prop :=
| path_end p : path p p [p]
| path_step p p' q l : p <> p' -> Z.abs (p'.1 - p.1) <= 1 -> Z.abs (p'.2 - p.2) <= 1 -> path p' q l -> path p q (p :: l).

(** The point [i] columns and [j] rows from the start, in the directions [sx] and [sy]. *)
Definition along_line (x0 y0 sx sy i j : Z) : Z * Z := (x0 + sx * i, y0 + sy * j).

(** Nothing in a round overflows. *)
Lemma near_error w h i j : near w h i j -> w <= 2 ^ 29 -> h <= 2 ^ 29 ->
  let error := (1 + j) * w - (1 + i) * h in
  is_int (error * 2) /\ is_int (error - h) /\ is_int (error - h + w) /\ is_int (error + w).
Proof. intros (Hi & Hj & Hd) Hw Hh. cbv zeta. unfold is_int. lia. Qed.

(** The corners of a line are integers of C. *)
Definition corners_ok (x0 sx w : Z) : Prop := is_int x0 /\ is_int (x0 + sx * w) /\ 0 <= w <= 2 ^ 29.

Lemma corner_int x0 sx w i : (sx = 1 \/ sx = -1) -> corners_ok x0 sx w -> 0 <= i <= w -> is_int (x0 + sx * i).
Proof. unfold corners_ok, is_int. intros [-> | ->] (? & ? & ?) ?; lia. Qed.

Lemma step_int x0 sx i : is_int (x0 + sx * (i + 1)) -> s32 (x0 + sx * i + sx) = x0 + sx * (i + 1).
Proof. intros Hi. replace (x0 + sx * i + sx) with (x0 + sx * (i + 1)) by lia. by apply s32_id. Qed.

Lemma line_loop_ok rounds x0 y0 sx sy w h i j color s : (sx = 1 \/ sx = -1) -> (sy = 1 \/ sy = -1) ->
  corners_ok x0 sx w -> corners_ok y0 sy h -> near w h i j -> (w - i) + (h - j) < Z.of_nat rounds ->
  exists points, line_loop rounds (x0 + sx * i) (y0 + sy * j) (x0 + sx * w) (y0 + sy * h) w (- h) sx sy ((1 + j) * w - (1 + i) * h) color s =
      (true, draw_points points color s) /\
    path (along_line x0 y0 sx sy i j) (along_line x0 y0 sx sy w h) points /\
    Forall (fun p => exists i j, near w h i j /\ p = along_line x0 y0 sx sy i j) points /\
    Z.of_nat (length points) <= (w - i) + (h - j) + 1.
Proof.
  intros Hsx Hsy Hcx Hcy. revert i j s. induction rounds as [|rounds IH]; intros i j s Hn Hf; [destruct Hn as (? & ? & _); lia|].
  cbn [line_loop]. destruct ((_ =? _) && (_ =? _)) eqn:E.
  { assert (i = w) as -> by nia. assert (j = h) as -> by nia. exists [along_line x0 y0 sx sy w h].
    split_and!; [done|constructor|constructor; [eauto|done]|cbn; lia]. }
  destruct (near_step w h i j ((1 + j) * w - (1 + i) * h) Hn) as [Hn' Hlt]; [nia|done|]. cbv zeta in Hn', Hlt.
  destruct (near_error w h i j Hn) as (B1 & B2 & B3 & B4); [apply Hcx|apply Hcy|].
  set (error := (1 + j) * w - (1 + i) * h) in *.
  set (i' := if - h <=? error * 2 then i + 1 else i) in *. set (j' := if error * 2 <=? w then j + 1 else j) in *.
  pose proof (corner_int x0 sx w i' Hsx Hcx (proj1 Hn')) as Hxi. pose proof (corner_int y0 sy h j' Hsy Hcy (proj1 (proj2 Hn'))) as Hyj.
  destruct (IH i' j' (gfx_pixel (x0 + sx * i) (y0 + sy * j) color s) Hn' ltac:(lia)) as (points & El & Hp & Hf' & Hl).
  exists (along_line x0 y0 sx sy i j :: points). split_and!.
  - etrans; [|exact El]. rewrite (s32_id (error * 2)) by done. unfold i', j' in *. clear i' j'.
    destruct (- h <=? error * 2), (error * 2 <=? w); rewrite ?(step_int x0 sx i Hxi), ?(step_int y0 sy j Hyj);
      f_equal; rewrite ?(s32_id (error + - h)), ?s32_id by done; unfold error; lia.
  - assert ((i' = i \/ i' = i + 1) /\ (j' = j \/ j' = j + 1)) as [Ei Ej] by (unfold i', j'; by_conditions).
    apply (path_step _ (along_line x0 y0 sx sy i' j')); [|unfold along_line; cbn [fst snd]; nia..|done].
    unfold along_line. intros [=]. nia.
  - constructor; [eauto|done].
  - cbn [length]. lia.
Qed.

(** The distance of two coordinates, and the direction from one to the other. *)
Lemma direction_ok a b : is_int a -> is_int b -> Z.abs (b - a) <= 2 ^ 29 -> absolute (s32 (b - a)) = Z.abs (b - a) /\
  exists d, d = (if a <? b then 1 else -1) /\ (d = 1 \/ d = -1) /\ b = a + d * Z.abs (b - a).
Proof.
  intros Ha Hb Hd. unfold absolute. rewrite (s32_id (b - a)) by (unfold is_int; lia).
  split; [destruct (Z.ltb_spec (b - a) 0); [rewrite s32_id by (unfold is_int; lia)|]; lia|].
  exists (if a <? b then 1 else -1). destruct (Z.ltb_spec a b); lia.
Qed.

Lemma gfx_line_ok rounds x0 y0 x1 y1 color s :
  is_int x0 -> is_int x1 -> is_int y0 -> is_int y1 -> Z.abs (x1 - x0) <= 2 ^ 29 -> Z.abs (y1 - y0) <= 2 ^ 29 ->
  Z.abs (x1 - x0) + Z.abs (y1 - y0) < Z.of_nat rounds ->
  exists points, gfx_line rounds x0 y0 x1 y1 color s = (true, draw_points points color s) /\ path (x0, y0) (x1, y1) points /\
    Forall (fun p => Z.min x0 x1 <= p.1 <= Z.max x0 x1 /\ Z.min y0 y1 <= p.2 <= Z.max y0 y1 /\
      Z.abs (2 * ((p.2 - y0) * (x1 - x0) - (p.1 - x0) * (y1 - y0))) <= Z.max (Z.abs (x1 - x0)) (Z.abs (y1 - y0))) points /\
    Z.of_nat (length points) <= Z.abs (x1 - x0) + Z.abs (y1 - y0) + 1.
Proof.
  intros Hx0 Hx1 Hy0 Hy1 Hw Hh Hf. unfold gfx_line. destruct (direction_ok x0 x1 Hx0 Hx1 Hw) as (-> & sx & <- & Hsx & Ex).
  destruct (direction_ok y0 y1 Hy0 Hy1 Hh) as (-> & sy & <- & Hsy & Ey). set (w := Z.abs (x1 - x0)) in *. set (h := Z.abs (y1 - y0)) in *.
  assert (Hcx : corners_ok x0 sx w) by (rewrite Ex in Hx1; split_and!; [done|done|lia|lia]).
  assert (Hcy : corners_ok y0 sy h) by (rewrite Ey in Hy1; split_and!; [done|done|lia|lia]).
  destruct (line_loop_ok rounds x0 y0 sx sy w h 0 0 color s Hsx Hsy Hcx Hcy) as (points & El & Hp & Hn & Hl); [unfold near; lia|lia|].
  exists points. rewrite (s32_id (- h)), (s32_id (w + - h)) by (unfold is_int; lia). rewrite Ex, Ey. split_and!.
  - rewrite <- El. f_equal; lia.
  - unfold along_line in Hp. by rewrite !Z.mul_0_r, !Z.add_0_r in Hp.
  - eapply Forall_impl; [exact Hn|]. intros p (i & j & (Hi & Hj & Hd) & ->). unfold along_line. cbn [fst snd].
    split_and!; [nia..|]. replace (2 * _) with (sx * sy * (2 * (j * w - i * h))) by lia. destruct Hsx as [-> | ->], Hsy as [-> | ->]; lia.
  - lia.
Qed.

Ltac by_conditions_all := repeat (match goal with |- context [if ?b then _ else _] => let E := fresh in destruct b eqn:E end); lia.

(** ** Coordinates on the screen *)

Record screen_ok (s : Gfx) : Prop := {
  so_width : 0 < screen_width s <= GFX_MAX_WIDTH;
  so_height : 0 < screen_height s <= GFX_MAX_HEIGHT }.

Lemma u32_int x : is_int x -> u32 x = if x <? 0 then x + 2 ^ 32 else x.
Proof.
  unfold is_int, wrap. intros Hx. destruct (Z.ltb_spec x 0).
  - rewrite <- (Z_mod_plus_full x 1), Z.mod_small; lia.
  - apply Z.mod_small. lia.
Qed.

Lemma on_screen_spec s x y : screen_ok s -> is_int x -> is_int y ->
  on_screen s x y = (0 <=? x) && (x <? screen_width s) && (0 <=? y) && (y <? screen_height s).
Proof.
  intros [Hw Hh] Hx Hy. unfold GFX_MAX_WIDTH, GFX_MAX_HEIGHT in *. unfold on_screen.
  rewrite (u32_int x), (u32_int y), !u32_int by (done || unfold is_int; lia).
  destruct (Z.ltb_spec x 0), (Z.ltb_spec y 0), (Z.ltb_spec (screen_width s) 0), (Z.ltb_spec (screen_height s) 0); unfold is_int in *; lia.
Qed.

(** What [clipped] cuts out. *)
Lemma clipped_spec s x y width height x0 y0 x1 y1 : screen_ok s -> is_int x -> is_int y -> is_int width -> is_int height ->
  clipped s x y width height = Some (x0, y0, x1, y1) ->
  0 <= x0 < x1 /\ x1 <= screen_width s /\ 0 <= y0 < y1 /\ y1 <= screen_height s /\
  x0 = Z.max 0 x /\ x1 = Z.min (screen_width s) (x + width) /\ y0 = Z.max 0 y /\ y1 = Z.min (screen_height s) (y + height).
Proof.
  intros [Hw Hh] Hx Hy Hwd Hhg. unfold clipped, GFX_MAX_WIDTH, GFX_MAX_HEIGHT in *. destruct (_ || _) eqn:E; [done|].
  assert (is_int (x + width) /\ is_int (y + height)) as [Hxw Hyh].
  { unfold is_int, swrap in *. split; Z.div_mod_to_equations; lia. }
  rewrite !s32_id in * by done. intros [= <- <- <- <-]. unfold is_int in *. by_conditions_all.
Qed.

(** ** Colours *)

(** Channel 2 is red, 1 green and 0 blue. *)
Definition channel (color i : Z) : Z := Z.land (Z.shiftr color (8 * i)) 0xFF.

Lemma channel_mod color i : 0 <= i -> channel color i = (color / 2 ^ (8 * i)) mod 256.
Proof. intros Hi. unfold channel. rewrite Z.shiftr_div_pow2 by lia. apply (land_ones_mod _ 8). lia. Qed.

Lemma channel_bounds color i : 0 <= i -> 0 <= channel color i <= 255.
Proof. intros Hi. rewrite channel_mod by done. pose proof (Z.mod_pos_bound (color / 2 ^ (8 * i)) 256). lia. Qed.

Lemma pack_eq r g b : 0 <= r -> 0 <= g < 256 -> 0 <= b < 256 ->
  Z.lor (Z.lor (Z.shiftl r 16) (Z.shiftl g 8)) b = 2 ^ 16 * r + 2 ^ 8 * g + b.
Proof.
  intros Hr Hg Hb. rewrite !Z.shiftl_mul_pow2 by lia. rewrite (Z.mul_comm r), lor_add by lia.
  replace (2 ^ 16 * r + g * 2 ^ 8) with (2 ^ 8 * (2 ^ 8 * r + g)) by lia. rewrite lor_add; lia.
Qed.

Lemma channel_pack r g b i : 0 <= r < 256 -> 0 <= g < 256 -> 0 <= b < 256 -> 0 <= i <= 2 ->
  channel (2 ^ 16 * r + 2 ^ 8 * g + b) i = if i =? 2 then r else if i =? 1 then g else b.
Proof.
  intros Hr Hg Hb Hi. rewrite channel_mod by lia. assert (i = 0 \/ i = 1 \/ i = 2) as [-> | [-> | ->]] by lia; cbn.
  - rewrite Z.div_1_r. Z.div_mod_to_equations. lia.
  - change (Z.pow_pos 2 8) with 256. Z.div_mod_to_equations. lia.
  - change (Z.pow_pos 2 16) with 65536. Z.div_mod_to_equations. lia.
Qed.

(** A channel of a blend. *)
Definition blend (b f alpha : Z) : Z := (b * (255 - alpha) + f * alpha) / 255.

Lemma blend_bounds b f alpha : 0 <= alpha <= 255 -> Z.min b f <= blend b f alpha <= Z.max b f.
Proof. intros Ha. unfold blend. split; [apply Z.div_le_lower_bound|apply Z.div_le_upper_bound]; nia. Qed.

Lemma gfx_mix_channel background foreground alpha i : 0 <= alpha <= 255 -> 0 <= i <= 2 ->
  0 <= gfx_mix background foreground alpha < 2 ^ 24 /\
  channel (gfx_mix background foreground alpha) i = blend (channel background i) (channel foreground i) alpha.
Proof.
  intros Ha Hi.
  assert (gfx_mix background foreground alpha = Z.lor (Z.lor (Z.shiftl (blend (channel background 2) (channel foreground 2) alpha) 16)
    (Z.shiftl (blend (channel background 1) (channel foreground 1) alpha) 8)) (blend (channel background 0) (channel foreground 0) alpha)) as -> by done.
  assert (forall i, 0 <= i -> 0 <= blend (channel background i) (channel foreground i) alpha < 256) as Hb.
  { intros j Hj. pose proof (blend_bounds (channel background j) (channel foreground j) alpha Ha).
    pose proof (channel_bounds background j Hj). pose proof (channel_bounds foreground j Hj). lia. }
  pose proof (Hb 0 ltac:(lia)). pose proof (Hb 1 ltac:(lia)). pose proof (Hb 2 ltac:(lia)).
  rewrite pack_eq by lia. split; [lia|]. rewrite channel_pack by lia.
  assert (i = 0 \/ i = 1 \/ i = 2) as [-> | [-> | ->]] by lia; done.
Qed.

(** ** Rectangles *)

Lemma pixel_index s px py : screen_ok s -> is_int px -> is_int py -> on_screen s px py = true ->
  (py * screen_width s + px) / screen_width s = py /\ (py * screen_width s + px) mod screen_width s = px /\
  0 <= py * screen_width s + px < screen_width s * screen_height s.
Proof.
  intros Hs Hx Hy Ho. rewrite on_screen_spec in Ho by done. destruct Hs as [Hw Hh].
  split_and!; [symmetry; apply (Z.div_unique_pos _ _ _ px); lia|symmetry; apply (Z.mod_unique_pos _ _ py); lia|nia|nia].
Qed.

(** The pixel lies in the rectangle. *)
Definition in_rect (x y width height px py : Z) : bool := (x <=? px) && (px <? x + width) && (y <=? py) && (py <? y + height).

(** An operation that rewrites the pixels of a clipped rectangle, each by itself. *)
Lemma rect_pixels (f : Z -> Z -> Z) s x y width height body px py : screen_ok s ->
  is_int x -> is_int y -> is_int width -> is_int height -> is_int (x + width) -> is_int (y + height) -> is_int px -> is_int py ->
  (forall x0 x1 row m k, 0 <= x0 < x1 -> load (body x0 x1 row m) k =
     if (x0 <=? k - row * screen_width s) && (k - row * screen_width s <? x1) then f k (load m k) else load m k) ->
  gfx_get_pixel px py (match clipped s x y width height with
    | None => s
    | Some (x0, y0, x1, y1) => set_frame (for_range y0 y1 (body x0 x1) (frame s)) s
    end) =
  if on_screen s px py && in_rect x y width height px py then f (py * screen_width s + px) (gfx_get_pixel px py s) else gfx_get_pixel px py s.
Proof.
  intros Hs Hx Hy Hwd Hhg Hxw Hyh Hpx Hpy Hb. destruct (on_screen s px py) eqn:Eo.
  2: { cbn [andb]. unfold gfx_get_pixel. destruct (clipped _ _ _ _ _) as [[[[x0 y0] x1] y1]|]; [|done].
       change (on_screen (set_frame _ s) px py) with (on_screen s px py). by rewrite Eo. }
  destruct (pixel_index s px py Hs Hpx Hpy Eo) as (Ed & Em & _). pose proof Eo as Eo'. rewrite on_screen_spec in Eo' by done.
  destruct (clipped s x y width height) as [[[[x0 y0] x1] y1]|] eqn:Ec.
  - destruct (clipped_spec _ _ _ _ _ _ _ _ _ Hs Hx Hy Hwd Hhg Ec) as (B1 & B2 & B3 & B4 & -> & -> & -> & ->).
    unfold gfx_get_pixel at 1. change (on_screen (set_frame _ s) px py) with (on_screen s px py). rewrite Eo. cbn [frame set_frame screen_width].
    rewrite (rect_load f (screen_width s) (Z.max 0 x) (Z.min (screen_width s) (x + width))); [|lia..|intros; by apply Hb].
    rewrite Ed, Em. unfold gfx_get_pixel, in_rect. rewrite Eo. cbn [andb]. by_conditions.
  - replace (in_rect x y width height px py) with false; [done|]. unfold clipped in Ec. destruct (_ || _) eqn:E; [|done].
    rewrite !s32_id in E by done. unfold in_rect. lia.
Qed.

(** Filling a rectangle, opaque or with transparency, changes exactly the pixels of the
    screen that lie in it, also when it reaches over the edges; every other pixel keeps its
    colour. *)
Theorem gfx_fill_exact s x y width height color alpha px py : screen_ok s ->
  is_int x -> is_int y -> is_int width -> is_int height -> is_int (x + width) -> is_int (y + height) -> is_int px -> is_int py ->
  let hit := on_screen s px py && in_rect x y width height px py in
  let before := gfx_get_pixel px py s in
  gfx_get_pixel px py (gfx_fill_rect x y width height color s) = (if hit then color else before) /\
  gfx_get_pixel px py (gfx_fill_rect_alpha x y width height color alpha s) = (if hit then gfx_mix before color alpha else before).
Proof.
  intros Hs Hx Hy Hw Hh Hxw Hyh Hpx Hpy. split.
  - apply (rect_pixels (fun _ _ => color)); try done. intros x0 x1 row m k Hr. apply (row_load (fun _ _ => color)). lia.
  - apply (rect_pixels (fun _ c => gfx_mix c color alpha)); try done. intros x0 x1 row m k Hr.
    apply (row_load (fun _ c => gfx_mix c color alpha)). lia.
Qed.

(** A screen of 8 by 6 pixels with 32 bits each. *)
Definition tile : Gfx := mkGfx (mkMode 0x80 32 8 6 32 8 16 8 8 8 0 0xE0000000) ∅ ∅ ∅ 8 6 0xE0000000 ∅.

Lemma tile_ok : screen_ok tile.
Proof. by repeat split. Qed.

Lemma gfx_fill_exact_witness : gfx_get_pixel 0 5 (gfx_fill_rect (-3) 2 8 20 7 tile) = 7 /\
  gfx_get_pixel 7 5 (gfx_fill_rect (-3) 2 8 20 7 tile) = 0.
Proof.
  split.
  - exact (proj1 (gfx_fill_exact tile (-3) 2 8 20 7 0 0 5 tile_ok ltac:(done) ltac:(done) ltac:(done) ltac:(done) ltac:(done) ltac:(done) ltac:(done) ltac:(done))).
  - exact (proj1 (gfx_fill_exact tile (-3) 2 8 20 7 0 7 5 tile_ok ltac:(done) ltac:(done) ltac:(done) ltac:(done) ltac:(done) ltac:(done) ltac:(done) ltac:(done))).
Defined.

(** A blended colour has 24 bits, and each of its channels lies between those of the two
    colours: at 0 it is the background's and at 255 the foreground's. *)
Theorem gfx_mix_between background foreground alpha i : 0 <= alpha <= 255 -> 0 <= i <= 2 ->
  let c := channel (gfx_mix background foreground alpha) i in
  let b := channel background i in
  let f := channel foreground i in
  0 <= gfx_mix background foreground alpha < 2 ^ 24 /\ Z.min b f <= c <= Z.max b f /\
  (alpha = 0 -> c = b) /\ (alpha = 255 -> c = f).
Proof.
  intros Ha Hi. cbv zeta. destruct (gfx_mix_channel background foreground alpha i Ha Hi) as [Hb ->]. split_and!; [lia..| | | |].
  - by apply blend_bounds.
  - by apply blend_bounds.
  - intros ->. unfold blend. rewrite Z.mul_0_r, Z.add_0_r. apply Z.div_mul. lia.
  - intros ->. unfold blend. rewrite Z.mul_0_r, Z.add_0_l. apply Z.div_mul. lia.
Qed.

Lemma gfx_mix_between_witness : channel (gfx_mix 0x203040 0xFFFFFF 128) 1 = 151 /\
  0 <= gfx_mix 0x203040 0xFFFFFF 128 < 2 ^ 24.
Proof. split; [reflexivity|]. exact (proj1 (gfx_mix_between 0x203040 0xFFFFFF 128 1 ltac:(lia) ltac:(lia))). Defined.

(** ** Saving and restoring *)

Lemma copy_pixels_load d at_ source from count k : 0 <= count ->
  load (copy_pixels d at_ source from count) k =
  if (0 <=? k - at_) && (k - at_ <? count) then load source (from + (k - at_)) else load d k.
Proof. intros Hc. apply (row_load (fun c _ => load source (from + c))). done. Qed.

(** A saved screen comes back: after [gfx_save_base], whatever is drawn on the frame in the
    meantime, restoring a rectangle gives its pixels the colours they had when the screen was
    saved, and leaves the others as they are. *)
Theorem gfx_save_restore s s' x y width height px py : screen_ok s ->
  base_frame s' = base_frame (gfx_save_base s) -> screen_width s' = screen_width s -> screen_height s' = screen_height s ->
  is_int x -> is_int y -> is_int width -> is_int height -> is_int (x + width) -> is_int (y + height) -> is_int px -> is_int py ->
  gfx_get_pixel px py (gfx_restore_base_rect x y width height s') =
  if in_rect x y width height px py then gfx_get_pixel px py s else gfx_get_pixel px py s'.
Proof.
  intros Hs Eb Ew Eh Hx Hy Hw Hh Hxw Hyh Hpx Hpy.
  assert (screen_ok s') as Hs' by (destruct Hs; split; congruence).
  assert (on_screen s' px py = on_screen s px py) as Eo by (unfold on_screen; by rewrite Ew, Eh).
  etrans.
  { apply (rect_pixels (fun k _ => load (base_frame s') k)); try done. intros x0 x1 row m k Hr.
    rewrite copy_pixels_load by lia. replace (row * screen_width s' + x0 + (k - (row * screen_width s' + x0))) with k by lia.
    by_conditions. }
  rewrite Eo. destruct (on_screen s px py) eqn:E.
  - cbn [andb]. destruct (in_rect _ _ _ _ _ _); [|done]. destruct (pixel_index s px py Hs Hpx Hpy E) as (_ & _ & Hk).
    rewrite Ew, Eb. cbn [base_frame gfx_save_base set_base_frame]. rewrite copy_pixels_load by (destruct Hs; nia).
    unfold gfx_get_pixel. rewrite E. rewrite Z.sub_0_r, Z.add_0_l. by_conditions.
  - cbn [andb]. unfold gfx_get_pixel. rewrite Eo, E. by destruct (in_rect _ _ _ _ _ _).
Qed.

(** A window drawn over a pixel, and taken away again. *)
Definition tile_pixel : Gfx := gfx_pixel 3 3 9 tile.
Definition tile_window : Gfx := gfx_fill_rect 1 1 4 4 7 (gfx_save_base tile_pixel).

Lemma gfx_save_restore_witness : gfx_get_pixel 3 3 tile_window = 7 /\ gfx_get_pixel 3 3 (gfx_restore_base_rect 0 0 5 5 tile_window) = 9.
Proof.
  split; [vm_compute; reflexivity|]. assert (screen_ok tile_pixel) as Hs by by repeat split.
  rewrite (gfx_save_restore tile_pixel tile_window 0 0 5 5 3 3 Hs); [vm_compute; reflexivity|done..].
Defined.

(** ** Lines *)

(** [C36] If its ends are at most 2^29 columns and rows apart, so that nothing overflows, [gfx_line] ends,
    after at most as many rounds as there are columns and rows between the ends and one more; it
    draws a connected path from one end to the other, inside the rectangle they span, and no
    point of it is more than half a step of the longer side away from the straight line. *)
Theorem gfx_line_drawn rounds x0 y0 x1 y1 color s :
  is_int x0 -> is_int x1 -> is_int y0 -> is_int y1 -> Z.abs (x1 - x0) <= 2 ^ 29 -> Z.abs (y1 - y0) <= 2 ^ 29 ->
  Z.abs (x1 - x0) + Z.abs (y1 - y0) < Z.of_nat rounds ->
  exists points, gfx_line rounds x0 y0 x1 y1 color s = (true, draw_points points color s) /\ path (x0, y0) (x1, y1) points /\
    Forall (fun p => Z.min x0 x1 <= p.1 <= Z.max x0 x1 /\ Z.min y0 y1 <= p.2 <= Z.max y0 y1 /\
      Z.abs (2 * ((p.2 - y0) * (x1 - x0) - (p.1 - x0) * (y1 - y0))) <= Z.max (Z.abs (x1 - x0)) (Z.abs (y1 - y0))) points /\
    Z.of_nat (length points) <= Z.abs (x1 - x0) + Z.abs (y1 - y0) + 1.
Proof. apply gfx_line_ok. Qed.

Lemma gfx_line_drawn_witness : exists points, gfx_line 9 6 1 1 4 5 tile = (true, draw_points points 5 tile) /\ path (6, 1) (1, 4) points.
Proof.
  destruct (gfx_line_drawn 9 6 1 1 4 5 tile) as (points & E & Hp & _); [done..|lia|]. eauto.
Defined.

(** Ends that are 2^30 columns apart: twice the error overflows, and the first step leaves the row. *)
Example long_line_leaves_row :
  gfx_line 2 (- 2 ^ 29) 0 (2 ^ 29) 0 7 = fun s => (false, gfx_pixel (- 2 ^ 29) (-1) 7 (gfx_pixel (- 2 ^ 29) 0 7 s)).
Proof. reflexivity. Qed.

(** ** Showing the frame *)

Lemma for_range_ext {S} lo hi (f g : Z -> S -> S) s : (forall i s, lo <= i < hi -> f i s = g i s) ->
  for_range lo hi f s = for_range lo hi g s.
Proof.
  intros Hfg. unfold for_range. assert (Forall (fun i => lo <= i < hi) (seqZ lo (hi - lo))) as Hf.
  { apply Forall_forall. intros i Hi. apply elem_of_seqZ in Hi. lia. }
  revert s. induction Hf as [|i l Hi _ IH]; intros s; [done|]. cbn. by rewrite Hfg, IH.
Qed.

Lemma for_range_shift {S} lo hi (f : Z -> S -> S) s : for_range lo hi f s = for_range 0 (hi - lo) (fun i => f (lo + i)) s.
Proof.
  unfold for_range. rewrite Z.sub_0_r. replace (seqZ lo (hi - lo)) with (Z.add lo <$> seqZ 0 (hi - lo)).
  - by rewrite foldl_fmap.
  - rewrite fmap_add_seqZ. f_equal. lia.
Qed.

Lemma native_color_id m color : native_bgr m = true -> 0 <= color < 2 ^ 24 -> native_color m color = color.
Proof.
  intros Hm Hc. unfold native_bgr in Hm. unfold native_color. cbv zeta.
  assert (red_mask m = 8) as -> by lia. assert (green_mask m = 8) as -> by lia. assert (blue_mask m = 8) as -> by lia.
  assert (red_position m = 16) as -> by lia. assert (green_position m = 8) as -> by lia. assert (blue_position m = 0) as -> by lia.
  unfold scale_channel. cbn [Z.leb Z.compare Pos.compare Pos.compare_cont].
  change (Z.land (Z.shiftr color 16) 255) with (channel color 2). change (Z.land (Z.shiftr color 8) 255) with (channel color 1).
  change (Z.land color 255) with (channel color 0).
  pose proof (channel_bounds color 0 ltac:(lia)). pose proof (channel_bounds color 1 ltac:(lia)). pose proof (channel_bounds color 2 ltac:(lia)).
  change (8 - 8) with 0. rewrite !Z.shiftl_0_r. assert (forall v, 0 <= v <= 2 ^ 24 -> u32 v = v) as Hu by (intros v Hv; apply Z.mod_small; lia).
  rewrite (Hu (channel color 0)), (Hu (channel color 1)), (Hu (channel color 2)) by lia.
  rewrite (Hu (channel color 0)) by lia. rewrite !Hu by (rewrite Z.shiftl_mul_pow2 by lia; lia). rewrite pack_eq by lia.
  rewrite !channel_mod by lia. cbn. change (Z.pow_pos 2 8) with 256. change (Z.pow_pos 2 16) with 65536. rewrite Z.div_1_r.
  Z.div_mod_to_equations. lia.
Qed.

(** Every mode shown pixel by pixel. *)
Definition present_plainly (x y width height : Z) (s : Gfx) : Gfx :=
  match clipped s x y width height with
  | None => s
  | Some (x0, y0, x1, y1) => set_video (for_range y0 y1 (fun row v => present_row s row x0 x1 v) (video s)) s
  end.

(** The fast path of [gfx_present_rect], a block copy of words for modes that have the format
    of the frame, writes the same bytes to the same places as the conversion pixel by pixel, for
    the colours of 24 bits that everything here draws with. *)
Theorem gfx_present_equivalent s x y width height : screen_ok s ->
  is_int x -> is_int y -> is_int width -> is_int height -> (forall k, 0 <= load (frame s) k < 2 ^ 24) ->
  gfx_present_rect x y width height s = present_plainly x y width height s.
Proof.
  intros Hs Hx Hy Hw Hh Hc. unfold gfx_present_rect, present_plainly.
  destruct (clipped s x y width height) as [[[[x0 y0] x1] y1]|] eqn:Ec; [|done].
  destruct (clipped_spec _ _ _ _ _ _ _ _ _ Hs Hx Hy Hw Hh Ec) as (B1 & B2 & B3 & B4 & _). destruct Hs as [[_ Hmw] _].
  destruct (native_bgr (mode s)) eqn:En; [|done]. f_equal. apply for_range_ext. intros row v Hr.
  unfold copy_pixels_to_video, present_row. assert (bits_per_pixel (mode s) = 32) as Eb by (unfold native_bgr in En; lia).
  rewrite Eb. change (Z.quot 32 8) with 4. cbv zeta. rewrite (for_range_shift x0 x1).
  assert (u32 (x1 - x0) = x1 - x0) as -> by (apply Z.mod_small; unfold GFX_MAX_WIDTH in *; lia).
  apply for_range_ext. intros i v' Hi. apply for_range_ext. intros b v'' Hb. rewrite native_color_id by done.
  replace (row * screen_width s + x0 + i) with (row * screen_width s + (x0 + i)) by lia. rewrite (Z.mul_comm 8 b). f_equal. lia.
Qed.

Lemma gfx_present_equivalent_witness : gfx_present_rect (-1) 2 5 9 tile_pixel = present_plainly (-1) 2 5 9 tile_pixel /\
  video (present_plainly (-1) 2 5 9 tile_pixel) !! 108 = Some 9.
Proof.
  split; [|vm_compute; reflexivity]. apply gfx_present_equivalent; try done.
  intros k. assert (frame tile_pixel = <[27 := 9]> ∅) as -> by (vm_compute; reflexivity). unfold load.
  destruct (decide (k = 27)) as [->|Hne]; [by rewrite lookup_insert_eq|]. by rewrite lookup_insert_ne, lookup_empty by done.
Defined.

(** ** Safety *)

(** All keys of the array are indices below [n]. *)
Definition within (n : Z) (a : gmap Z Z) : Prop := forall k, is_Some (a !! k) -> 0 <= k < n.

(** The rows of the mode are wide enough for the screen. *)
Definition mode_fits (s : Gfx) : Prop := screen_width s * Z.quot (bits_per_pixel (mode s)) 8 <= pitch (mode s).

Section safety.
Context (m0 : VbeModeInfo) (height0 : Z).

(** The arrays are in order, in the mode [m0] with [height0] rows. *)
Record gfx_ok (s : Gfx) : Prop := {
  go_same : mode s = m0 /\ screen_height s = height0;
  go_screen : screen_ok s;
  go_mode : mode_fits s;
  go_frame : within (screen_width s * screen_height s) (frame s);
  go_wallpaper : within (screen_width s * screen_height s) (wallpaper s);
  go_base : within (screen_width s * screen_height s) (base_frame s);
  go_video : within (pitch (mode s) * screen_height s) (video s) }.

Lemma within_insert n a k v : within n a -> 0 <= k < n -> within n (<[k := v]> a).
Proof. intros Ha Hk k' [x Hx]. apply lookup_insert_Some in Hx as [[<- _]|[_ Hx]]; [done|]. apply Ha. eauto. Qed.

Lemma within_row n a base x0 x1 f : within n a -> 0 <= base + x0 -> base + x1 <= n ->
  within n (for_range x0 x1 (fun c m => <[base + c := f c m]> m) a).
Proof. intros Ha H0 H1. apply for_range_inv; [done|]. intros i m Hi Hm. apply within_insert; [done|lia]. Qed.

(** The operation keeps the arrays in order. *)
Definition keeps (op : Gfx -> Gfx) : Prop := forall s, gfx_ok s -> gfx_ok (op s).

Lemma keeps_range lo hi body : (forall i, keeps (body i)) -> keeps (for_range lo hi body).
Proof. intros Hb s Hs. apply for_range_inv; [done|]. intros i s' _. apply Hb. Qed.

(** Replacing one of the arrays. *)
Lemma keeps_frame s f : gfx_ok s -> within (screen_width s * screen_height s) f -> gfx_ok (set_frame f s).
Proof. intros [? Hsc ? ? ? ? ?] Hf. split; [assumption|destruct Hsc; split; assumption|assumption..]. Qed.

Lemma keeps_wallpaper s f : gfx_ok s -> within (screen_width s * screen_height s) f -> gfx_ok (set_wallpaper f s).
Proof. intros [? Hsc ? ? ? ? ?] Hf. split; [assumption|destruct Hsc; split; assumption|assumption..]. Qed.

Lemma keeps_base s f : gfx_ok s -> within (screen_width s * screen_height s) f -> gfx_ok (set_base_frame f s).
Proof. intros [? Hsc ? ? ? ? ?] Hf. split; [assumption|destruct Hsc; split; assumption|assumption..]. Qed.

Lemma keeps_video s f : gfx_ok s -> within (pitch (mode s) * screen_height s) f -> gfx_ok (set_video f s).
Proof. intros [? Hsc ? ? ? ? ?] Hf. split; [assumption|destruct Hsc; split; assumption|assumption..]. Qed.

Lemma keeps_pixel x y color : is_int x -> is_int y -> keeps (gfx_pixel x y color).
Proof.
  intros Hx Hy s Hs. unfold gfx_pixel. destruct (on_screen s x y) eqn:E; [|done].
  destruct (pixel_index s x y (go_screen _ Hs) Hx Hy E) as (_ & _ & Hk). apply keeps_frame; [done|]. apply within_insert; [apply Hs|done].
Qed.

Lemma within_rect s x0 y0 x1 y1 body a n : screen_ok s -> 0 <= x0 < x1 -> x1 <= screen_width s -> 0 <= y0 < y1 -> y1 <= screen_height s ->
  n = screen_width s * screen_height s -> within n a ->
  (forall row m, 0 <= row < screen_height s -> 0 <= row * screen_width s + x0 -> row * screen_width s + x1 <= n -> within n m -> within n (body row m)) ->
  within n (for_range y0 y1 body a).
Proof.
  intros [Hw Hh] Hx Hx1 Hy Hy1 -> Ha Hb. apply for_range_inv; [done|]. intros row m Hr Hm. apply Hb; [lia|nia|nia|done].
Qed.

(** Rows of a clipped rectangle of an array as large as the screen. *)
Lemma within_copies s x0 y0 x1 y1 source a : screen_ok s -> 0 <= x0 < x1 -> x1 <= screen_width s -> 0 <= y0 < y1 -> y1 <= screen_height s ->
  within (screen_width s * screen_height s) a ->
  within (screen_width s * screen_height s) (for_range y0 y1 (fun row b =>
    copy_pixels b (row * screen_width s + x0) source (row * screen_width s + x0) (x1 - x0)) a).
Proof.
  intros Hs Hx Hx1 Hy Hy1 Ha. eapply (within_rect s x0 y0 x1 y1); [done..|]. intros row m Hr H0 H1 Hm. apply within_row; [done|lia..].
Qed.

Lemma keeps_fill x y width height color : is_int x -> is_int y -> is_int width -> is_int height -> keeps (gfx_fill_rect x y width height color).
Proof.
  intros Hx Hy Hw Hh s Hs. unfold gfx_fill_rect. destruct (clipped s x y width height) as [[[[x0 y0] x1] y1]|] eqn:Ec; [|done].
  destruct (clipped_spec _ _ _ _ _ _ _ _ _ (go_screen _ Hs) Hx Hy Hw Hh Ec) as (B1 & B2 & B3 & B4 & _).
  apply keeps_frame; [done|]. eapply (within_rect s x0 y0 x1 y1); [apply Hs|done..|apply Hs|]. intros row m Hr H0 H1 Hm.
  by apply (within_row _ _ _ _ _ (fun _ _ => color)).
Qed.

Lemma keeps_fill_alpha x y width height color alpha : is_int x -> is_int y -> is_int width -> is_int height ->
  keeps (gfx_fill_rect_alpha x y width height color alpha).
Proof.
  intros Hx Hy Hw Hh s Hs. unfold gfx_fill_rect_alpha. destruct (clipped s x y width height) as [[[[x0 y0] x1] y1]|] eqn:Ec; [|done].
  destruct (clipped_spec _ _ _ _ _ _ _ _ _ (go_screen _ Hs) Hx Hy Hw Hh Ec) as (B1 & B2 & B3 & B4 & _).
  apply keeps_frame; [done|]. eapply (within_rect s x0 y0 x1 y1); [apply Hs|done..|apply Hs|]. intros row m Hr H0 H1 Hm.
  by apply (within_row _ _ _ _ _ (fun c m => gfx_mix (load m (row * screen_width s + c)) color alpha)).
Qed.

Lemma keeps_save_rect x y width height : is_int x -> is_int y -> is_int width -> is_int height -> keeps (gfx_save_base_rect x y width height).
Proof.
  intros Hx Hy Hw Hh s Hs. unfold gfx_save_base_rect. destruct (clipped s x y width height) as [[[[x0 y0] x1] y1]|] eqn:Ec; [|done].
  destruct (clipped_spec _ _ _ _ _ _ _ _ _ (go_screen _ Hs) Hx Hy Hw Hh Ec) as (B1 & B2 & B3 & B4 & _).
  apply keeps_base; [done|]. apply within_copies; done || apply Hs.
Qed.

Lemma keeps_restore_rect x y width height : is_int x -> is_int y -> is_int width -> is_int height -> keeps (gfx_restore_base_rect x y width height).
Proof.
  intros Hx Hy Hw Hh s Hs. unfold gfx_restore_base_rect. destruct (clipped s x y width height) as [[[[x0 y0] x1] y1]|] eqn:Ec; [|done].
  destruct (clipped_spec _ _ _ _ _ _ _ _ _ (go_screen _ Hs) Hx Hy Hw Hh Ec) as (B1 & B2 & B3 & B4 & _).
  apply keeps_frame; [done|]. apply within_copies; done || apply Hs.
Qed.

Lemma keeps_copies s : gfx_ok s -> gfx_ok (gfx_begin_frame s) /\ gfx_ok (gfx_save_base s).
Proof.
  intros Hs. split; [apply keeps_frame|apply keeps_base]; [done| |done|]; (apply within_row; [apply Hs|lia..]).
Qed.

Lemma keeps_generate accent dark : keeps (gfx_generate_wallpaper accent dark).
Proof.
  intros s Hs. apply keeps_wallpaper; [done|]. destruct (go_screen _ Hs) as [Hw Hh].
  eapply (within_rect s 0 0 (screen_width s) (screen_height s)); [apply Hs|lia..|apply Hs|]. intros row m Hr H0 H1 Hm.
  by apply (within_row _ _ _ _ _ (fun c _ => wallpaper_color s accent dark _ c row)).
Qed.

(** A pixel of [bytes] bytes at column [c] of a row of the video memory. *)
Lemma within_video s n row c b : gfx_ok s -> n = Z.quot (bits_per_pixel (mode s)) 8 -> 0 <= row < screen_height s ->
  0 <= c < screen_width s -> 0 <= b < n -> 0 <= row * pitch (mode s) + (c * n + b) < pitch (mode s) * screen_height s.
Proof.
  intros [_ _ Hm _ _ _ _] -> Hr Hc Hb. unfold mode_fits in Hm. set (n := Z.quot _ 8) in *. set (p := pitch (mode s)) in *.
  assert (0 <= c * n + b < p) as Ht by nia. nia.
Qed.

Lemma keeps_present x y width height : is_int x -> is_int y -> is_int width -> is_int height -> keeps (gfx_present_rect x y width height).
Proof.
  intros Hx Hy Hw Hh s Hs. unfold gfx_present_rect. destruct (clipped s x y width height) as [[[[x0 y0] x1] y1]|] eqn:Ec; [|done].
  destruct (clipped_spec _ _ _ _ _ _ _ _ _ (go_screen _ Hs) Hx Hy Hw Hh Ec) as (B1 & B2 & B3 & B4 & _).
  destruct (so_width _ (go_screen _ Hs)) as [_ Hmw]. apply keeps_video; [done|]. apply for_range_inv; [apply Hs|]. intros row v Hr Hv.
  destruct (native_bgr (mode s)) eqn:En.
  - assert (u32 (x1 - x0) = x1 - x0) as -> by (apply Z.mod_small; unfold GFX_MAX_WIDTH in *; lia).
    assert (4 = Z.quot (bits_per_pixel (mode s)) 8) as E4. { unfold native_bgr in En. by assert (bits_per_pixel (mode s) = 32) as -> by lia. }
    unfold copy_pixels_to_video. apply for_range_inv; [done|]. intros i v' Hi Hv'. apply for_range_inv; [done|]. intros b v'' Hb Hv''. apply within_insert; [done|].
    pose proof (within_video s 4 row (x0 + i) b Hs E4 ltac:(lia) ltac:(lia) ltac:(lia)). lia.
  - unfold present_row. apply for_range_inv; [done|]. intros c v' Hc Hv'. apply for_range_inv; [done|]. intros b v'' Hb Hv''. apply within_insert; [done|].
    apply within_video; [done|done|lia..].
Qed.

Lemma keeps_if (b : bool) op : keeps op -> keeps (fun s => if b then op s else s).
Proof. intros Ho s Hs. destruct b; [by apply Ho|done]. Qed.

Lemma keeps_round x y width height radius color : is_int x -> is_int y -> is_int width -> is_int height ->
  keeps (gfx_round_rect x y width height radius color).
Proof.
  intros Hx Hy Hw Hh s Hs. unfold gfx_round_rect. destruct (radius <? 1); [by apply keeps_fill|].
  revert s Hs. apply keeps_range. intros py. apply keeps_range. intros px. apply keeps_if, keeps_pixel; apply s32_int.
Qed.

Lemma keeps_round_alpha x y width height radius color alpha : keeps (gfx_round_rect_alpha x y width height radius color alpha).
Proof.
  unfold gfx_round_rect_alpha. apply keeps_range. intros py. apply keeps_range. intros px s Hs.
  destruct (inside_round_rect _ _ _ _ _); [|done]. by apply keeps_pixel; [apply s32_int..|].
Qed.

Lemma keeps_shadow x y width height radius : keeps (gfx_shadow x y width height radius).
Proof.
  intros s Hs. unfold gfx_shadow. generalize [16; 14; 12; 10; 8; 6; 4; 2]. intros l. revert s Hs.
  induction l as [|spread l IH]; intros s Hs; [done|]. cbn. by apply IH, keeps_round_alpha.
Qed.

Lemma keeps_circle center_x center_y radius color : keeps (gfx_circle center_x center_y radius color).
Proof.
  unfold gfx_circle. apply keeps_range. intros y. apply keeps_range. intros x. apply keeps_if, keeps_pixel; apply s32_int.
Qed.

(** Also a line that goes astray stores only on the screen. *)
Lemma keeps_line_loop rounds x0 y0 x1 y1 dx dy sx sy error color : is_int x0 -> is_int y0 ->
  keeps (fun s => (line_loop rounds x0 y0 x1 y1 dx dy sx sy error color s).2).
Proof.
  revert x0 y0 error. induction rounds as [|rounds IH]; intros x0 y0 error Hx Hy s Hs; cbn [line_loop]; [done|].
  pose proof (keeps_pixel x0 y0 color Hx Hy s Hs). destruct (_ && _); [done|].
  destruct (dy <=? _), (_ <=? dx); apply IH; try apply s32_int; done.
Qed.

Lemma keeps_character font x y character color scale clip : keeps (draw_character font x y character color scale clip).
Proof.
  unfold draw_character. cbv zeta. apply keeps_range. intros row s Hs. destruct (_ || _); [done|]. revert s Hs.
  apply keeps_range. intros column s Hs. destruct (_ || _); [done|]. destruct (_ =? 0); [done|].
  by apply keeps_pixel; [apply s32_int..|].
Qed.

Lemma keeps_text font x y text color scale clip : keeps (gfx_text_clipped font x y text color scale clip).
Proof.
  unfold gfx_text_clipped. generalize x at 2. intros cursor. revert cursor y. induction text as [|c text IH]; intros cursor y s Hs; [done|].
  cbn [text_loop]. destruct (c =? 10); [by apply IH|]. by apply IH, keeps_character.
Qed.

(** The operations a program draws with; of a line any number of rounds, since one whose ends are too
    far apart need not end. *)
Inductive gfx_op :=
| GenerateWallpaper (accent : Z) (dark : bool) | BeginFrame | SaveBase
| SaveBaseRect (x y width height : Z) | RestoreBaseRect (x y width height : Z) | PresentRect (x y width height : Z)
| Pixel (x y color : Z) | FillRect (x y width height color : Z) | FillRectAlpha (x y width height color alpha : Z)
| RoundRect (x y width height radius color : Z) | RoundRectAlpha (x y width height radius color alpha : Z)
| Shadow (x y width height radius : Z) | Line (rounds : nat) (x0 y0 x1 y1 color : Z) | Circle (x y radius color : Z)
| TextClipped (x y : Z) (text : list Z) (color scale : Z) (clip : Rect).

Definition draw (font : Z -> Z -> list Z) (op : gfx_op) (s : Gfx) : Gfx :=
  match op with
  | GenerateWallpaper a d => gfx_generate_wallpaper a d s
  | BeginFrame => gfx_begin_frame s
  | SaveBase => gfx_save_base s
  | SaveBaseRect x y w h => gfx_save_base_rect x y w h s
  | RestoreBaseRect x y w h => gfx_restore_base_rect x y w h s
  | PresentRect x y w h => gfx_present_rect x y w h s
  | Pixel x y c => gfx_pixel x y c s
  | FillRect x y w h c => gfx_fill_rect x y w h c s
  | FillRectAlpha x y w h c a => gfx_fill_rect_alpha x y w h c a s
  | RoundRect x y w h r c => gfx_round_rect x y w h r c s
  | RoundRectAlpha x y w h r c a => gfx_round_rect_alpha x y w h r c a s
  | Shadow x y w h r => gfx_shadow x y w h r s
  | Line n x0 y0 x1 y1 c => (gfx_line n x0 y0 x1 y1 c s).2
  | Circle x y r c => gfx_circle x y r c s
  | TextClipped x y t c sc clip => gfx_text_clipped font x y t c sc clip s
  end.

(** The coordinates are integers of C. *)
Definition op_ints (op : gfx_op) : Prop :=
  match op with
  | SaveBaseRect x y w h | RestoreBaseRect x y w h | PresentRect x y w h | FillRect x y w h _ | FillRectAlpha x y w h _ _
  | RoundRect x y w h _ _ => is_int x /\ is_int y /\ is_int w /\ is_int h
  | Pixel x y _ | Line _ x y _ _ _ => is_int x /\ is_int y
  | _ => True
  end.

Lemma keeps_draw font op : op_ints op -> keeps (draw font op).
Proof.
  destruct op; cbn [op_ints]; intros Hi s Hs; cbn [draw]; destruct_and?.
  - by apply keeps_generate.
  - by apply keeps_copies.
  - by apply keeps_copies.
  - by apply keeps_save_rect.
  - by apply keeps_restore_rect.
  - by apply keeps_present.
  - by apply keeps_pixel.
  - by apply keeps_fill.
  - by apply keeps_fill_alpha.
  - by apply keeps_round.
  - by apply keeps_round_alpha.
  - by apply keeps_shadow.
  - by apply keeps_line_loop.
  - by apply keeps_circle.
  - by apply keeps_text.
Qed.

End safety.

Lemma gfx_init_ok m v : 0 <= vbe_width m -> 0 <= vbe_height m -> vbe_width m * Z.quot (bits_per_pixel m) 8 <= pitch m ->
  (gfx_init (mkGfx m ∅ ∅ ∅ 0 0 v ∅)).1 = true -> gfx_ok m (vbe_height m) (gfx_init (mkGfx m ∅ ∅ ∅ 0 0 v ∅)).2.
Proof.
  intros Hw Hh Hp. unfold gfx_init. cbn. destruct (negb _ || _); [done|]. destruct (_ || _ || _ || _) eqn:E; [done|]. intros _.
  split; [done|split; unfold GFX_MAX_WIDTH, GFX_MAX_HEIGHT in *; cbn; lia|done|intros k [? [=]]..].
Qed.

(** [C35] Let the rows of the mode be at least as long as its width in pixels says, which [gfx_init] does not
    check.  Once [gfx_init] has accepted the mode, no sequence of drawing operations, whatever
    their coordinates, stores outside the arrays of 1024 by 768 pixels or outside the video memory
    of the rows of the screen.  This holds also for lines whose ends are so far apart that their
    loop overflows, after any number of its rounds. *)
Theorem gfx_memory_safe font m ops : 0 <= vbe_width m -> 0 <= vbe_height m ->
  vbe_width m * Z.quot (bits_per_pixel m) 8 <= pitch m -> Forall op_ints ops ->
  (gfx_init (mkGfx m ∅ ∅ ∅ 0 0 0 ∅)).1 = true ->
  let s := foldl (fun s op => draw font op s) (gfx_init (mkGfx m ∅ ∅ ∅ 0 0 0 ∅)).2 ops in
  within (GFX_MAX_WIDTH * GFX_MAX_HEIGHT) (frame s) /\ within (GFX_MAX_WIDTH * GFX_MAX_HEIGHT) (wallpaper s) /\
  within (GFX_MAX_WIDTH * GFX_MAX_HEIGHT) (base_frame s) /\ within (pitch m * vbe_height m) (video s).
Proof.
  intros Hw Hh Hp Hops Hi. pose proof (gfx_init_ok m 0 Hw Hh Hp Hi) as Hok. cbv zeta.
  assert (forall s, gfx_ok m (vbe_height m) s -> gfx_ok m (vbe_height m) (foldl (fun s op => draw font op s) s ops)) as Hall.
  { induction Hops as [|op ops Hop _ IH]; intros s Hs; [done|]. by apply IH, keeps_draw. }
  specialize (Hall _ Hok). set (s := foldl _ _ _) in *. destruct Hall as [[Em Eh] [[Hw0 Hmw] [Hh0 Hmh]] _ Hf Hwp Hb Hv].
  assert (forall a, within (screen_width s * screen_height s) a -> within (GFX_MAX_WIDTH * GFX_MAX_HEIGHT) a) as Hlarge.
  { intros a Ha k Hk. specialize (Ha k Hk).
    assert (screen_width s * screen_height s <= GFX_MAX_WIDTH * GFX_MAX_HEIGHT) by (apply Z.mul_le_mono_nonneg; lia). lia. }
  rewrite Em, Eh in Hv. split_and!; [by apply Hlarge..|exact Hv].
Qed.

(** A dot, a line across the corner and a frame on the screen. *)
Lemma gfx_memory_safe_witness :
  let m := mkMode 0x80 2560 640 480 32 8 16 8 8 8 0 0xE0000000 in
  let s := foldl (fun s op => draw (fun _ _ => []) op s) (gfx_init (mkGfx m ∅ ∅ ∅ 0 0 0 ∅)).2
             [Pixel (-1) 700 3; Line 12 (-2) (-2) 4 3 5; PresentRect 0 0 2 2] in
  within (1024 * 768) (frame s) /\ within (2560 * 480) (video s).
Proof.
  intros m. pose proof (gfx_memory_safe (fun _ _ => []) m [Pixel (-1) 700 3; Line 12 (-2) (-2) 4 3 5; PresentRect 0 0 2 2]) as Hs.
  cbv zeta in *. destruct Hs as (Hf & _ & _ & Hv); [by vm_compute|by vm_compute|by vm_compute| |reflexivity|split; [exact Hf|exact Hv]].
  repeat constructor; done.
Defined.
