(* ===== verification/Ui.v ===== *)
(** * The desktop of ui/ui.c

    The variables of the desktop in one record per application, the functions of the
    applications, the clicks, the keys, the lines from the internet bridge and the flags that say
    what is to be drawn.  Strings are lists of characters without the final 0; a copy into an array
    of n characters keeps n - 1 of them.  The rest of the system is behind the class [Services].  Drawing is left out, but
    for the part that changes variables (the layout of the browser). *)

From S2P Require Import Prelude Runtime Input.

Inductive AppId :=
| APP_EXPLORER | APP_BROWSER | APP_NOTEPAD | APP_TERMINAL | APP_CALCULATOR | APP_SETTINGS | APP_COMPILER | APP_AI | APP_ABOUT.

#[global] Instance app_eq_dec : EqDecision AppId.
Proof. solve_decision. Defined.

Definition all_apps : list AppId :=
  [APP_EXPLORER; APP_BROWSER; APP_NOTEPAD; APP_TERMINAL; APP_CALCULATOR; APP_SETTINGS; APP_COMPILER; APP_AI; APP_ABOUT].

Definition NOTE_SIZE : nat := 2048.
Definition TERMINAL_ROWS : nat := 10.
Definition TERMINAL_COLUMNS : nat := 78.
Definition SOURCE_SIZE : nat := 1024.
Definition BROWSER_BODY_CAPACITY : nat := 8 * 1024.
Definition BROWSER_MAX_LINKS : nat := 24.
Definition BROWSER_HISTORY_CAPACITY : nat := 32.
Definition URL_SIZE : nat := 256.
Definition DOWNLOAD_STATUS_SIZE : nat := 160.
Definition WIRE_SIZE : nat := 2048.

(** ** State *)

Record DesktopWindow := mkWindow {
  wn_app : AppId;
  wn_x : Z;
  wn_y : Z;
  wn_width : Z;
  wn_height : Z;
  wn_visible : bool;
  wn_minimized : bool }.

Definition set_wn_app (v : AppId) (x : DesktopWindow) : DesktopWindow :=
  mkWindow v (wn_x x) (wn_y x) (wn_width x) (wn_height x) (wn_visible x) (wn_minimized x).
Definition set_wn_x (v : Z) (x : DesktopWindow) : DesktopWindow :=
  mkWindow (wn_app x) v (wn_y x) (wn_width x) (wn_height x) (wn_visible x) (wn_minimized x).
Definition set_wn_y (v : Z) (x : DesktopWindow) : DesktopWindow :=
  mkWindow (wn_app x) (wn_x x) v (wn_width x) (wn_height x) (wn_visible x) (wn_minimized x).
Definition set_wn_width (v : Z) (x : DesktopWindow) : DesktopWindow :=
  mkWindow (wn_app x) (wn_x x) (wn_y x) v (wn_height x) (wn_visible x) (wn_minimized x).
Definition set_wn_height (v : Z) (x : DesktopWindow) : DesktopWindow :=
  mkWindow (wn_app x) (wn_x x) (wn_y x) (wn_width x) v (wn_visible x) (wn_minimized x).
Definition set_wn_visible (v : bool) (x : DesktopWindow) : DesktopWindow :=
  mkWindow (wn_app x) (wn_x x) (wn_y x) (wn_width x) (wn_height x) v (wn_minimized x).
Definition set_wn_minimized (v : bool) (x : DesktopWindow) : DesktopWindow :=
  mkWindow (wn_app x) (wn_x x) (wn_y x) (wn_width x) (wn_height x) (wn_visible x) v.

Record Desk := mkDesk {
  dk_window : DesktopWindow;
  dk_dark_mode : bool;
  dk_accent_index : Z;
  dk_start_open : bool;
  dk_dirty : bool;
  dk_window_dirty : bool;
  dk_cursor_dirty : bool;
  dk_mouse_x : Z;
  dk_mouse_y : Z;
  dk_rendered_mouse_x : Z;
  dk_rendered_mouse_y : Z;
  dk_old_buttons : Z;
  dk_dragging : bool;
  dk_drag_offset_x : Z;
  dk_drag_offset_y : Z;
  dk_clock_hour : Z;
  dk_clock_minute : Z;
  dk_clock_second : Z }.

Definition set_dk_window (v : DesktopWindow) (x : Desk) : Desk :=
  mkDesk v (dk_dark_mode x) (dk_accent_index x) (dk_start_open x) (dk_dirty x) (dk_window_dirty x) (dk_cursor_dirty
    x) (dk_mouse_x x) (dk_mouse_y x) (dk_rendered_mouse_x x) (dk_rendered_mouse_y x) (dk_old_buttons x) (dk_dragging
    x) (dk_drag_offset_x x) (dk_drag_offset_y x) (dk_clock_hour x) (dk_clock_minute x) (dk_clock_second x).
Definition set_dk_dark_mode (v : bool) (x : Desk) : Desk :=
  mkDesk (dk_window x) v (dk_accent_index x) (dk_start_open x) (dk_dirty x) (dk_window_dirty x) (dk_cursor_dirty x)
    (dk_mouse_x x) (dk_mouse_y x) (dk_rendered_mouse_x x) (dk_rendered_mouse_y x) (dk_old_buttons x) (dk_dragging x)
    (dk_drag_offset_x x) (dk_drag_offset_y x) (dk_clock_hour x) (dk_clock_minute x) (dk_clock_second x).
Definition set_dk_accent_index (v : Z) (x : Desk) : Desk :=
  mkDesk (dk_window x) (dk_dark_mode x) v (dk_start_open x) (dk_dirty x) (dk_window_dirty x) (dk_cursor_dirty x)
    (dk_mouse_x x) (dk_mouse_y x) (dk_rendered_mouse_x x) (dk_rendered_mouse_y x) (dk_old_buttons x) (dk_dragging x)
    (dk_drag_offset_x x) (dk_drag_offset_y x) (dk_clock_hour x) (dk_clock_minute x) (dk_clock_second x).
Definition set_dk_start_open (v : bool) (x : Desk) : Desk :=
  mkDesk (dk_window x) (dk_dark_mode x) (dk_accent_index x) v (dk_dirty x) (dk_window_dirty x) (dk_cursor_dirty x)
    (dk_mouse_x x) (dk_mouse_y x) (dk_rendered_mouse_x x) (dk_rendered_mouse_y x) (dk_old_buttons x) (dk_dragging x)
    (dk_drag_offset_x x) (dk_drag_offset_y x) (dk_clock_hour x) (dk_clock_minute x) (dk_clock_second x).
Definition set_dk_dirty (v : bool) (x : Desk) : Desk :=
  mkDesk (dk_window x) (dk_dark_mode x) (dk_accent_index x) (dk_start_open x) v (dk_window_dirty x) (dk_cursor_dirty
    x) (dk_mouse_x x) (dk_mouse_y x) (dk_rendered_mouse_x x) (dk_rendered_mouse_y x) (dk_old_buttons x) (dk_dragging
    x) (dk_drag_offset_x x) (dk_drag_offset_y x) (dk_clock_hour x) (dk_clock_minute x) (dk_clock_second x).
Definition set_dk_window_dirty (v : bool) (x : Desk) : Desk :=
  mkDesk (dk_window x) (dk_dark_mode x) (dk_accent_index x) (dk_start_open x) (dk_dirty x) v (dk_cursor_dirty x)
    (dk_mouse_x x) (dk_mouse_y x) (dk_rendered_mouse_x x) (dk_rendered_mouse_y x) (dk_old_buttons x) (dk_dragging x)
    (dk_drag_offset_x x) (dk_drag_offset_y x) (dk_clock_hour x) (dk_clock_minute x) (dk_clock_second x).
Definition set_dk_cursor_dirty (v : bool) (x : Desk) : Desk :=
  mkDesk (dk_window x) (dk_dark_mode x) (dk_accent_index x) (dk_start_open x) (dk_dirty x) (dk_window_dirty x) v
    (dk_mouse_x x) (dk_mouse_y x) (dk_rendered_mouse_x x) (dk_rendered_mouse_y x) (dk_old_buttons x) (dk_dragging x)
    (dk_drag_offset_x x) (dk_drag_offset_y x) (dk_clock_hour x) (dk_clock_minute x) (dk_clock_second x).
Definition set_dk_mouse_x (v : Z) (x : Desk) : Desk :=
  mkDesk (dk_window x) (dk_dark_mode x) (dk_accent_index x) (dk_start_open x) (dk_dirty x) (dk_window_dirty x)
    (dk_cursor_dirty x) v (dk_mouse_y x) (dk_rendered_mouse_x x) (dk_rendered_mouse_y x) (dk_old_buttons x)
    (dk_dragging x) (dk_drag_offset_x x) (dk_drag_offset_y x) (dk_clock_hour x) (dk_clock_minute x) (dk_clock_second
    x).
Definition set_dk_mouse_y (v : Z) (x : Desk) : Desk :=
  mkDesk (dk_window x) (dk_dark_mode x) (dk_accent_index x) (dk_start_open x) (dk_dirty x) (dk_window_dirty x)
    (dk_cursor_dirty x) (dk_mouse_x x) v (dk_rendered_mouse_x x) (dk_rendered_mouse_y x) (dk_old_buttons x)
    (dk_dragging x) (dk_drag_offset_x x) (dk_drag_offset_y x) (dk_clock_hour x) (dk_clock_minute x) (dk_clock_second
    x).
Definition set_dk_rendered_mouse_x (v : Z) (x : Desk) : Desk :=
  mkDesk (dk_window x) (dk_dark_mode x) (dk_accent_index x) (dk_start_open x) (dk_dirty x) (dk_window_dirty x)
    (dk_cursor_dirty x) (dk_mouse_x x) (dk_mouse_y x) v (dk_rendered_mouse_y x) (dk_old_buttons x) (dk_dragging x)
    (dk_drag_offset_x x) (dk_drag_offset_y x) (dk_clock_hour x) (dk_clock_minute x) (dk_clock_second x).
Definition set_dk_rendered_mouse_y (v : Z) (x : Desk) : Desk :=
  mkDesk (dk_window x) (dk_dark_mode x) (dk_accent_index x) (dk_start_open x) (dk_dirty x) (dk_window_dirty x)
    (dk_cursor_dirty x) (dk_mouse_x x) (dk_mouse_y x) (dk_rendered_mouse_x x) v (dk_old_buttons x) (dk_dragging x)
    (dk_drag_offset_x x) (dk_drag_offset_y x) (dk_clock_hour x) (dk_clock_minute x) (dk_clock_second x).
Definition set_dk_old_buttons (v : Z) (x : Desk) : Desk :=
  mkDesk (dk_window x) (dk_dark_mode x) (dk_accent_index x) (dk_start_open x) (dk_dirty x) (dk_window_dirty x)
    (dk_cursor_dirty x) (dk_mouse_x x) (dk_mouse_y x) (dk_rendered_mouse_x x) (dk_rendered_mouse_y x) v (dk_dragging
    x) (dk_drag_offset_x x) (dk_drag_offset_y x) (dk_clock_hour x) (dk_clock_minute x) (dk_clock_second x).
Definition set_dk_dragging (v : bool) (x : Desk) : Desk :=
  mkDesk (dk_window x) (dk_dark_mode x) (dk_accent_index x) (dk_start_open x) (dk_dirty x) (dk_window_dirty x)
    (dk_cursor_dirty x) (dk_mouse_x x) (dk_mouse_y x) (dk_rendered_mouse_x x) (dk_rendered_mouse_y x) (dk_old_buttons
    x) v (dk_drag_offset_x x) (dk_drag_offset_y x) (dk_clock_hour x) (dk_clock_minute x) (dk_clock_second x).
Definition set_dk_drag_offset_x (v : Z) (x : Desk) : Desk :=
  mkDesk (dk_window x) (dk_dark_mode x) (dk_accent_index x) (dk_start_open x) (dk_dirty x) (dk_window_dirty x)
    (dk_cursor_dirty x) (dk_mouse_x x) (dk_mouse_y x) (dk_rendered_mouse_x x) (dk_rendered_mouse_y x) (dk_old_buttons
    x) (dk_dragging x) v (dk_drag_offset_y x) (dk_clock_hour x) (dk_clock_minute x) (dk_clock_second x).
Definition set_dk_drag_offset_y (v : Z) (x : Desk) : Desk :=
  mkDesk (dk_window x) (dk_dark_mode x) (dk_accent_index x) (dk_start_open x) (dk_dirty x) (dk_window_dirty x)
    (dk_cursor_dirty x) (dk_mouse_x x) (dk_mouse_y x) (dk_rendered_mouse_x x) (dk_rendered_mouse_y x) (dk_old_buttons
    x) (dk_dragging x) (dk_drag_offset_x x) v (dk_clock_hour x) (dk_clock_minute x) (dk_clock_second x).
Definition set_dk_clock_hour (v : Z) (x : Desk) : Desk :=
  mkDesk (dk_window x) (dk_dark_mode x) (dk_accent_index x) (dk_start_open x) (dk_dirty x) (dk_window_dirty x)
    (dk_cursor_dirty x) (dk_mouse_x x) (dk_mouse_y x) (dk_rendered_mouse_x x) (dk_rendered_mouse_y x) (dk_old_buttons
    x) (dk_dragging x) (dk_drag_offset_x x) (dk_drag_offset_y x) v (dk_clock_minute x) (dk_clock_second x).
Definition set_dk_clock_minute (v : Z) (x : Desk) : Desk :=
  mkDesk (dk_window x) (dk_dark_mode x) (dk_accent_index x) (dk_start_open x) (dk_dirty x) (dk_window_dirty x)
    (dk_cursor_dirty x) (dk_mouse_x x) (dk_mouse_y x) (dk_rendered_mouse_x x) (dk_rendered_mouse_y x) (dk_old_buttons
    x) (dk_dragging x) (dk_drag_offset_x x) (dk_drag_offset_y x) (dk_clock_hour x) v (dk_clock_second x).
Definition set_dk_clock_second (v : Z) (x : Desk) : Desk :=
  mkDesk (dk_window x) (dk_dark_mode x) (dk_accent_index x) (dk_start_open x) (dk_dirty x) (dk_window_dirty x)
    (dk_cursor_dirty x) (dk_mouse_x x) (dk_mouse_y x) (dk_rendered_mouse_x x) (dk_rendered_mouse_y x) (dk_old_buttons
    x) (dk_dragging x) (dk_drag_offset_x x) (dk_drag_offset_y x) (dk_clock_hour x) (dk_clock_minute x) v.

Record Notepad := mkNotepad {
  no_text : list Z;
  no_dirty : bool;
  no_save_failed : bool }.

Definition set_no_text (v : list Z) (x : Notepad) : Notepad :=
  mkNotepad v (no_dirty x) (no_save_failed x).
Definition set_no_dirty (v : bool) (x : Notepad) : Notepad :=
  mkNotepad (no_text x) v (no_save_failed x).
Definition set_no_save_failed (v : bool) (x : Notepad) : Notepad :=
  mkNotepad (no_text x) (no_dirty x) v.

Record Terminal := mkTerminal {
  te_lines : list (list Z);
  te_command : list Z }.

Definition set_te_lines (v : list (list Z)) (x : Terminal) : Terminal :=
  mkTerminal v (te_command x).
Definition set_te_command (v : list Z) (x : Terminal) : Terminal :=
  mkTerminal (te_lines x) v.

Record Calculator := mkCalculator {
  ca_value : Z;
  ca_accumulator : Z;
  ca_operator : Z;
  ca_new_value : bool;
  ca_error : bool }.

Definition set_ca_value (v : Z) (x : Calculator) : Calculator :=
  mkCalculator v (ca_accumulator x) (ca_operator x) (ca_new_value x) (ca_error x).
Definition set_ca_accumulator (v : Z) (x : Calculator) : Calculator :=
  mkCalculator (ca_value x) v (ca_operator x) (ca_new_value x) (ca_error x).
Definition set_ca_operator (v : Z) (x : Calculator) : Calculator :=
  mkCalculator (ca_value x) (ca_accumulator x) v (ca_new_value x) (ca_error x).
Definition set_ca_new_value (v : bool) (x : Calculator) : Calculator :=
  mkCalculator (ca_value x) (ca_accumulator x) (ca_operator x) v (ca_error x).
Definition set_ca_error (v : bool) (x : Calculator) : Calculator :=
  mkCalculator (ca_value x) (ca_accumulator x) (ca_operator x) (ca_new_value x) v.

Record CompilerApp := mkCompilerApp {
  co_source : list Z;
  co_diagnostic : list Z;
  co_output : list Z;
  co_waiting : bool }.

Definition set_co_source (v : list Z) (x : CompilerApp) : CompilerApp :=
  mkCompilerApp v (co_diagnostic x) (co_output x) (co_waiting x).
Definition set_co_diagnostic (v : list Z) (x : CompilerApp) : CompilerApp :=
  mkCompilerApp (co_source x) v (co_output x) (co_waiting x).
Definition set_co_output (v : list Z) (x : CompilerApp) : CompilerApp :=
  mkCompilerApp (co_source x) (co_diagnostic x) v (co_waiting x).
Definition set_co_waiting (v : bool) (x : CompilerApp) : CompilerApp :=
  mkCompilerApp (co_source x) (co_diagnostic x) (co_output x) v.

(** A link is a label and a URL, a row its y coordinate and the number of its link; [history] has the
    entries in use. *)
Record Browser := mkBrowser {
  br_url : list Z;
  br_title : list Z;
  br_body : list Z;
  br_status : list Z;
  br_loading : bool;
  br_address_selected : bool;
  br_links : list (list Z * list Z);
  br_scroll : Z;
  br_max_scroll : Z;
  br_rows : list (Z * Z);
  br_row_x : Z;
  br_row_width : Z;
  br_history : list (list Z);
  br_history_index : nat;
  br_navigating_history : bool }.

Definition set_br_url (v : list Z) (x : Browser) : Browser :=
  mkBrowser v (br_title x) (br_body x) (br_status x) (br_loading x) (br_address_selected x) (br_links x) (br_scroll
    x) (br_max_scroll x) (br_rows x) (br_row_x x) (br_row_width x) (br_history x) (br_history_index x)
    (br_navigating_history x).
Definition set_br_title (v : list Z) (x : Browser) : Browser :=
  mkBrowser (br_url x) v (br_body x) (br_status x) (br_loading x) (br_address_selected x) (br_links x) (br_scroll x)
    (br_max_scroll x) (br_rows x) (br_row_x x) (br_row_width x) (br_history x) (br_history_index x)
    (br_navigating_history x).
Definition set_br_body (v : list Z) (x : Browser) : Browser :=
  mkBrowser (br_url x) (br_title x) v (br_status x) (br_loading x) (br_address_selected x) (br_links x) (br_scroll x)
    (br_max_scroll x) (br_rows x) (br_row_x x) (br_row_width x) (br_history x) (br_history_index x)
    (br_navigating_history x).
Definition set_br_status (v : list Z) (x : Browser) : Browser :=
  mkBrowser (br_url x) (br_title x) (br_body x) v (br_loading x) (br_address_selected x) (br_links x) (br_scroll x)
    (br_max_scroll x) (br_rows x) (br_row_x x) (br_row_width x) (br_history x) (br_history_index x)
    (br_navigating_history x).
Definition set_br_loading (v : bool) (x : Browser) : Browser :=
  mkBrowser (br_url x) (br_title x) (br_body x) (br_status x) v (br_address_selected x) (br_links x) (br_scroll x)
    (br_max_scroll x) (br_rows x) (br_row_x x) (br_row_width x) (br_history x) (br_history_index x)
    (br_navigating_history x).
Definition set_br_address_selected (v : bool) (x : Browser) : Browser :=
  mkBrowser (br_url x) (br_title x) (br_body x) (br_status x) (br_loading x) v (br_links x) (br_scroll x)
    (br_max_scroll x) (br_rows x) (br_row_x x) (br_row_width x) (br_history x) (br_history_index x)
    (br_navigating_history x).
Definition set_br_links (v : list (list Z * list Z)) (x : Browser) : Browser :=
  mkBrowser (br_url x) (br_title x) (br_body x) (br_status x) (br_loading x) (br_address_selected x) v (br_scroll x)
    (br_max_scroll x) (br_rows x) (br_row_x x) (br_row_width x) (br_history x) (br_history_index x)
    (br_navigating_history x).
Definition set_br_scroll (v : Z) (x : Browser) : Browser :=
  mkBrowser (br_url x) (br_title x) (br_body x) (br_status x) (br_loading x) (br_address_selected x) (br_links x) v
    (br_max_scroll x) (br_rows x) (br_row_x x) (br_row_width x) (br_history x) (br_history_index x)
    (br_navigating_history x).
Definition set_br_max_scroll (v : Z) (x : Browser) : Browser :=
  mkBrowser (br_url x) (br_title x) (br_body x) (br_status x) (br_loading x) (br_address_selected x) (br_links x)
    (br_scroll x) v (br_rows x) (br_row_x x) (br_row_width x) (br_history x) (br_history_index x)
    (br_navigating_history x).
Definition set_br_rows (v : list (Z * Z)) (x : Browser) : Browser :=
  mkBrowser (br_url x) (br_title x) (br_body x) (br_status x) (br_loading x) (br_address_selected x) (br_links x)
    (br_scroll x) (br_max_scroll x) v (br_row_x x) (br_row_width x) (br_history x) (br_history_index x)
    (br_navigating_history x).
Definition set_br_row_x (v : Z) (x : Browser) : Browser :=
  mkBrowser (br_url x) (br_title x) (br_body x) (br_status x) (br_loading x) (br_address_selected x) (br_links x)
    (br_scroll x) (br_max_scroll x) (br_rows x) v (br_row_width x) (br_history x) (br_history_index x)
    (br_navigating_history x).
Definition set_br_row_width (v : Z) (x : Browser) : Browser :=
  mkBrowser (br_url x) (br_title x) (br_body x) (br_status x) (br_loading x) (br_address_selected x) (br_links x)
    (br_scroll x) (br_max_scroll x) (br_rows x) (br_row_x x) v (br_history x) (br_history_index x)
    (br_navigating_history x).
Definition set_br_history (v : list (list Z)) (x : Browser) : Browser :=
  mkBrowser (br_url x) (br_title x) (br_body x) (br_status x) (br_loading x) (br_address_selected x) (br_links x)
    (br_scroll x) (br_max_scroll x) (br_rows x) (br_row_x x) (br_row_width x) v (br_history_index x)
    (br_navigating_history x).
Definition set_br_history_index (v : nat) (x : Browser) : Browser :=
  mkBrowser (br_url x) (br_title x) (br_body x) (br_status x) (br_loading x) (br_address_selected x) (br_links x)
    (br_scroll x) (br_max_scroll x) (br_rows x) (br_row_x x) (br_row_width x) (br_history x) v (br_navigating_history
    x).
Definition set_br_navigating_history (v : bool) (x : Browser) : Browser :=
  mkBrowser (br_url x) (br_title x) (br_body x) (br_status x) (br_loading x) (br_address_selected x) (br_links x)
    (br_scroll x) (br_max_scroll x) (br_rows x) (br_row_x x) (br_row_width x) (br_history x) (br_history_index x) v.

Record Pending := mkPending {
  pe_title : list Z;
  pe_url : list Z;
  pe_status : list Z;
  pe_body : list Z;
  pe_links : list (list Z * list Z);
  pe_active : bool }.

Definition set_pe_title (v : list Z) (x : Pending) : Pending :=
  mkPending v (pe_url x) (pe_status x) (pe_body x) (pe_links x) (pe_active x).
Definition set_pe_url (v : list Z) (x : Pending) : Pending :=
  mkPending (pe_title x) v (pe_status x) (pe_body x) (pe_links x) (pe_active x).
Definition set_pe_status (v : list Z) (x : Pending) : Pending :=
  mkPending (pe_title x) (pe_url x) v (pe_body x) (pe_links x) (pe_active x).
Definition set_pe_body (v : list Z) (x : Pending) : Pending :=
  mkPending (pe_title x) (pe_url x) (pe_status x) v (pe_links x) (pe_active x).
Definition set_pe_links (v : list (list Z * list Z)) (x : Pending) : Pending :=
  mkPending (pe_title x) (pe_url x) (pe_status x) (pe_body x) v (pe_active x).
Definition set_pe_active (v : bool) (x : Pending) : Pending :=
  mkPending (pe_title x) (pe_url x) (pe_status x) (pe_body x) (pe_links x) v.

Record Download := mkDownload {
  do_status : list Z;
  do_percent : Z;
  do_active : bool }.

Definition set_do_status (v : list Z) (x : Download) : Download :=
  mkDownload v (do_percent x) (do_active x).
Definition set_do_percent (v : Z) (x : Download) : Download :=
  mkDownload (do_status x) v (do_active x).
Definition set_do_active (v : bool) (x : Download) : Download :=
  mkDownload (do_status x) (do_percent x) v.

Record Assistant := mkAssistant {
  ai_prompt : list Z;
  ai_last_prompt : list Z;
  ai_response : list Z;
  ai_wire : list Z;
  ai_waiting : bool }.

Definition set_ai_prompt (v : list Z) (x : Assistant) : Assistant :=
  mkAssistant v (ai_last_prompt x) (ai_response x) (ai_wire x) (ai_waiting x).
Definition set_ai_last_prompt (v : list Z) (x : Assistant) : Assistant :=
  mkAssistant (ai_prompt x) v (ai_response x) (ai_wire x) (ai_waiting x).
Definition set_ai_response (v : list Z) (x : Assistant) : Assistant :=
  mkAssistant (ai_prompt x) (ai_last_prompt x) v (ai_wire x) (ai_waiting x).
Definition set_ai_wire (v : list Z) (x : Assistant) : Assistant :=
  mkAssistant (ai_prompt x) (ai_last_prompt x) (ai_response x) v (ai_waiting x).
Definition set_ai_waiting (v : bool) (x : Assistant) : Assistant :=
  mkAssistant (ai_prompt x) (ai_last_prompt x) (ai_response x) (ai_wire x) v.

(** [overflow] is set when the source would write past the end of an array. *)
Record Ui := mkUi {
  ui_desk : Desk;
  ui_note : Notepad;
  ui_terminal : Terminal;
  ui_calculator : Calculator;
  ui_compiler : CompilerApp;
  ui_browser : Browser;
  ui_pending : Pending;
  ui_download : Download;
  ui_ai : Assistant;
  ui_overflow : bool }.

Definition set_ui_desk (v : Desk) (x : Ui) : Ui :=
  mkUi v (ui_note x) (ui_terminal x) (ui_calculator x) (ui_compiler x) (ui_browser x) (ui_pending x) (ui_download x)
    (ui_ai x) (ui_overflow x).
Definition set_ui_note (v : Notepad) (x : Ui) : Ui :=
  mkUi (ui_desk x) v (ui_terminal x) (ui_calculator x) (ui_compiler x) (ui_browser x) (ui_pending x) (ui_download x)
    (ui_ai x) (ui_overflow x).
Definition set_ui_terminal (v : Terminal) (x : Ui) : Ui :=
  mkUi (ui_desk x) (ui_note x) v (ui_calculator x) (ui_compiler x) (ui_browser x) (ui_pending x) (ui_download x)
    (ui_ai x) (ui_overflow x).
Definition set_ui_calculator (v : Calculator) (x : Ui) : Ui :=
  mkUi (ui_desk x) (ui_note x) (ui_terminal x) v (ui_compiler x) (ui_browser x) (ui_pending x) (ui_download x) (ui_ai
    x) (ui_overflow x).
Definition set_ui_compiler (v : CompilerApp) (x : Ui) : Ui :=
  mkUi (ui_desk x) (ui_note x) (ui_terminal x) (ui_calculator x) v (ui_browser x) (ui_pending x) (ui_download x)
    (ui_ai x) (ui_overflow x).
Definition set_ui_browser (v : Browser) (x : Ui) : Ui :=
  mkUi (ui_desk x) (ui_note x) (ui_terminal x) (ui_calculator x) (ui_compiler x) v (ui_pending x) (ui_download x)
    (ui_ai x) (ui_overflow x).
Definition set_ui_pending (v : Pending) (x : Ui) : Ui :=
  mkUi (ui_desk x) (ui_note x) (ui_terminal x) (ui_calculator x) (ui_compiler x) (ui_browser x) v (ui_download x)
    (ui_ai x) (ui_overflow x).
Definition set_ui_download (v : Download) (x : Ui) : Ui :=
  mkUi (ui_desk x) (ui_note x) (ui_terminal x) (ui_calculator x) (ui_compiler x) (ui_browser x) (ui_pending x) v
    (ui_ai x) (ui_overflow x).
Definition set_ui_ai (v : Assistant) (x : Ui) : Ui :=
  mkUi (ui_desk x) (ui_note x) (ui_terminal x) (ui_calculator x) (ui_compiler x) (ui_browser x) (ui_pending x)
    (ui_download x) v (ui_overflow x).
Definition set_ui_overflow (v : bool) (x : Ui) : Ui :=
  mkUi (ui_desk x) (ui_note x) (ui_terminal x) (ui_calculator x) (ui_compiler x) (ui_browser x) (ui_pending x)
    (ui_download x) (ui_ai x) v.

(** ** The rest of the system *)

(** What the desktop calls: the file system, the compiler, processes, packages, the network,
    accounts, ports, and the size of the screen. *)
Class Services (K : Type) := {
  os_gfx_width : K -> Z;
  os_gfx_height : K -> Z;
  os_gfx_generate_wallpaper : Z -> bool -> st K unit;
  os_fs_is_ready : K -> bool;
  os_fs_write : list Z -> list Z -> st K bool;
  os_fs_read : list Z -> nat -> st K (option (list Z));
  os_fs_chmod : list Z -> Z -> st K bool;
  os_fs_file_count : K -> Z;
  os_fs_file_info : Z -> K -> option (list Z);                       (** the name *)
  os_heap_free_bytes : K -> Z;
  os_compiler_compile : list Z -> list Z -> st K (bool * option (list Z));  (** with the diagnostic, if one is given *)
  os_process_load : list Z -> st K bool;
  os_process_is_running : K -> bool;
  os_process_output : K -> list Z;
  os_process_exit_code : K -> Z;
  os_process_count : K -> Z;
  os_process_foreground_pid : K -> Z;
  os_process_name : K -> list Z;
  os_process_audit_elf_dependencies : list Z -> st K Z;
  os_deb_install_file : list Z -> st K bool;
  os_network_tcp_send : list Z -> st K bool;
  os_network_tcp_receive : nat -> st K (list Z);
  os_network_send_udp : list Z -> st K bool;                         (** to 10.0.2.2, port 7777 *)
  os_network_status : K -> list Z;
  os_network_packets_sent : K -> Z;
  os_network_packets_received : K -> Z;
  os_account_current_name : K -> list Z;
  os_account_current_uid : K -> Z;
  os_account_count : K -> Z;
  os_account_info : Z -> K -> option (bool * list Z * Z);            (** administrator, name, uid *)
  os_account_login : list Z -> list Z -> st K bool;
  os_account_create : list Z -> list Z -> st K bool;                 (** not an administrator *)
  os_outb : Z -> Z -> st K unit;
  os_outw : Z -> Z -> st K unit;
  (** A read returns at most as many bytes as there is room for, and a diagnostic fits its buffer. *)
  os_fs_read_length name n s l : (os_fs_read name n s).1 = Some l -> (length l <= n)%nat;
  os_receive_length n s : (length (os_network_tcp_receive n s).1 <= n)%nat;
  os_diagnostic_length source name s l : (os_compiler_compile source name s).1.2 = Some l -> (length (cstr l) < 256)%nat }.

(** ** Text *)

Definition contains (x y width height px py : Z) : bool :=
  (x <=? px) && (y <=? py) && (px <? x + width) && (py <? y + height).

(** [strncmp(text, prefix, strlen(prefix)) == 0] *)
Definition starts_with (prefix t : list Z) : bool := bool_decide (take (length prefix) t = prefix).

Fixpoint skip_spaces (t : list Z) : list Z :=
  match t with c :: t' => if c =? 32 then skip_spaces t' else t | [] => [] end.

(** The characters before the first [c], and what follows it. *)
Fixpoint split_at (c : Z) (t : list Z) : list Z * option (list Z) :=
  match t with
  | [] => ([], None)
  | x :: t => if x =? c then ([], Some t) else let '(a, b) := split_at c t in (x :: a, b)
  end.

Definition split_arguments (input : list Z) (first_capacity second_capacity : nat) : option (list Z * list Z) :=
  let '(first, rest) := split_at 32 (skip_spaces input) in
  if (first_capacity <=? length first)%nat then None else
  let second := skip_spaces (default [] rest) in
  if (second_capacity <=? length second)%nat then None else
  if bool_decide (first = []) then None else Some (first, second).

Definition octal (c : Z) : bool := (48 <=? c) && (c <=? 55).

Definition parse_file_mode (t : list Z) : option (Z * list Z) :=
  match t with
  | a :: b :: c :: d :: rest =>
      if negb (octal a) || negb (octal b) || negb (octal c) || negb (d =? 32) then None else
      let name := skip_spaces rest in
      if bool_decide (name = []) then None
      else Some (u16 (Z.lor (Z.lor (Z.shiftl (a - 48) 6) (Z.shiftl (b - 48) 3)) (c - 48)), name)
  | _ => None
  end.

(** The field before a tab and the rest. *)
Definition next_wire_field (t : list Z) : option (list Z * list Z) :=
  match split_at 9 t with (field, Some rest) => Some (field, rest) | _ => None end.

Fixpoint decimal_loop (t : list Z) (value : Z) : Z :=
  match t with
  | [] => value
  | c :: t => if (48 <=? c) && (c <=? 57) then decimal_loop t (if value <? 100000000 then value * 10 + (c - 48) else value) else value
  end.

Definition parse_decimal (t : list Z) : Z := decimal_loop t 0.

Definition two_digits (value : Z) : list Z := [s8 (48 + value / 10); s8 (48 + value mod 10)].

Definition decimal (value : Z) : list Z := cstr (int_to_string value).

Definition newline : Z := 10.

(** ** Calculator *)

Definition calculator_apply (c : Calculator) : Calculator :=
  if ca_operator c =? 0 then c else
  let result :=
    if ca_operator c =? 43 then s32 (ca_accumulator c + ca_value c)
    else if ca_operator c =? 45 then s32 (ca_accumulator c - ca_value c)
    else if ca_operator c =? 42 then s32 (ca_accumulator c * ca_value c)
    else if ca_operator c =? 47 then if ca_value c =? 0 then ca_accumulator c else s32 (Z.quot (ca_accumulator c) (ca_value c))
    else ca_accumulator c in
  let failed := (ca_operator c =? 47) && (ca_value c =? 0) in
  mkCalculator result result 0 true (ca_error c || failed).

Definition calculator_digit (digit : Z) (c : Calculator) : Calculator :=
  if ca_error c then c else
  let c := if ca_new_value c then set_ca_new_value false (set_ca_value 0 c) else c in
  if (ca_value c <? 100000000) && (-100000000 <? ca_value c) then set_ca_value (ca_value c * 10 + digit) c else c.

Definition is_operator (key : Z) : bool := (key =? 43) || (key =? 45) || (key =? 42) || (key =? 47).

Definition calculator_clear : Calculator := mkCalculator 0 0 0 true false.

Definition calculator_press (key : Z) (c : Calculator) : Calculator :=
  if (48 <=? key) && (key <=? 57) then calculator_digit (key - 48) c
  else if key =? 67 then calculator_clear
  else if key =? 61 then calculator_apply c
  else if is_operator key then
    let c := if negb (ca_operator c =? 0) && negb (ca_new_value c) then calculator_apply c else c in
    set_ca_new_value true (set_ca_operator key (set_ca_accumulator (ca_value c) c))
  else c.

Section applications.
Context {K : Type} `{!Services K}.

Definition U (A : Type) : Type := st (K * Ui) A.

Definition service {A} (op : st K A) : U A := fun '(s, u) => let '(a, s) := op s in (a, (s, u)).
Definition ask {A} (f : K -> A) : U A := gets (fun '(s, _) => f s).
Definition the {A} (f : Ui -> A) : U A := gets (fun '(_, u) => f u).
Definition change (f : Ui -> Ui) : U unit := modify (fun '(s, u) => (s, f u)).

Definition change_desk (f : Desk -> Desk) : U unit := change (fun u => set_ui_desk (f (ui_desk u)) u).
Definition change_window (f : DesktopWindow -> DesktopWindow) : U unit := change_desk (fun d => set_dk_window (f (dk_window d)) d).
Definition change_note (f : Notepad -> Notepad) : U unit := change (fun u => set_ui_note (f (ui_note u)) u).
Definition change_terminal (f : Terminal -> Terminal) : U unit := change (fun u => set_ui_terminal (f (ui_terminal u)) u).
Definition change_calculator (f : Calculator -> Calculator) : U unit := change (fun u => set_ui_calculator (f (ui_calculator u)) u).
Definition change_compiler (f : CompilerApp -> CompilerApp) : U unit := change (fun u => set_ui_compiler (f (ui_compiler u)) u).
Definition change_browser (f : Browser -> Browser) : U unit := change (fun u => set_ui_browser (f (ui_browser u)) u).
Definition change_pending (f : Pending -> Pending) : U unit := change (fun u => set_ui_pending (f (ui_pending u)) u).
Definition change_download (f : Download -> Download) : U unit := change (fun u => set_ui_download (f (ui_download u)) u).
Definition change_ai (f : Assistant -> Assistant) : U unit := change (fun u => set_ui_ai (f (ui_ai u)) u).

Definition mark_dirty : U unit := change_desk (set_dk_dirty true).
Definition mark_window : U unit := change_desk (set_dk_window_dirty true).

(** ** Terminal lines and clock *)

Definition add_line (t : list Z) (x : Terminal) : Terminal :=
  let lines := if (length (te_lines x) =? TERMINAL_ROWS)%nat then drop 1 (te_lines x) else te_lines x in
  set_te_lines (lines ++ [take (TERMINAL_COLUMNS - 1) t]) x.

Definition terminal_add (t : list Z) : U unit := change_terminal (add_line t).

Definition terminal_initialize : U unit :=
  change_terminal (fun _ => mkTerminal [] []) ;;;
  terminal_add (text "NovaOS Terminal 1.0 - freestanding x86-64 C kernel") ;;;
  terminal_add (text "Type 'help' to list commands.").

Definition clock_text (d : Desk) (seconds : bool) : list Z :=
  two_digits (dk_clock_hour d) ++ [58] ++ two_digits (dk_clock_minute d) ++
  (if seconds then [58] ++ two_digits (dk_clock_second d) else []).

Definition accent_colors : list Z := [0x4C8DFF; 0xA970FF; 0x18A999; 0xF05D7B; 0xF59E42].

Definition accent (d : Desk) : Z := nth (Z.to_nat (dk_accent_index d)) accent_colors 0.

Definition rebuild_wallpaper : U unit :=
  d <- the ui_desk ;;
  service (os_gfx_generate_wallpaper (accent d) (dk_dark_mode d)) ;;;
  mark_dirty.

(** ** Notepad and compiler *)

Definition notepad_save : U bool :=
  ready <- ask os_fs_is_ready ;;
  if negb ready then change_note (set_no_save_failed true) ;;; ret false else
  note <- the ui_note ;;
  saved <- service (os_fs_write (text "note.txt") (no_text note)) ;;
  change_note (fun n => set_no_save_failed (negb saved) (set_no_dirty (negb saved) n)) ;;;
  mark_window ;;;
  ret saved.

Definition compiler_build_and_run : U unit :=
  change_compiler (fun c => set_co_waiting false (set_co_output [] c)) ;;;
  ready <- ask os_fs_is_ready ;;
  c <- the ui_compiler ;;
  written <- (if ready then service (os_fs_write (text "hello.c") (co_source c)) else ret false) ;;
  if negb written then
    change_compiler (set_co_diagnostic (text "Save failed: NovaFS is unavailable.")) ;;;
    mark_window
  else
    compiled <- service (os_compiler_compile (cstr (co_source c)) (text "program.elf")) ;;
    change_compiler (fun c => match compiled.2 with Some d => set_co_diagnostic (cstr d) c | None => c end) ;;;
    if negb compiled.1 then mark_window else
    loaded <- service (os_process_load (text "program.elf")) ;;
    if negb loaded then
      change_compiler (set_co_diagnostic (text "Build succeeded, but the ELF loader rejected the program.")) ;;;
      mark_window
    else
      change_compiler (fun c => set_co_waiting true (set_co_diagnostic (text "Build succeeded. Running program.elf in Ring 3...") c)) ;;;
      mark_window.

(** ** Browser *)

Definition record_history (b : Browser) : Browser :=
  if br_navigating_history b then b else
  let count := length (br_history b) in
  if negb (count =? 0)%nat && bool_decide (br_history b !! br_history_index b = Some (br_url b)) then b else
  let full := (BROWSER_HISTORY_CAPACITY <=? br_history_index b + 1)%nat in
  let history := if full then drop 1 (br_history b) else br_history b in
  let index := if full then (BROWSER_HISTORY_CAPACITY - 2)%nat else br_history_index b in
  let index := if (count =? 0)%nat then 0%nat else (index + 1)%nat in
  set_br_history (take index history ++ [take (URL_SIZE - 1) (br_url b)]) (set_br_history_index index b).

Definition normalized_url (url : list Z) : list Z :=
  if starts_with (text "http://") url || starts_with (text "https://") url then url
  else text "https://" ++ take (URL_SIZE - 9) url.

Definition browser_navigate : U unit :=
  b <- the ui_browser ;;
  if bool_decide (br_url b = []) || br_loading b then ret tt else
  let url := normalized_url (br_url b) in
  change_browser (fun b => set_br_url url (set_br_scroll 0 (set_br_address_selected false b))) ;;;
  sent <- service (os_network_tcp_send (text "GET " ++ take 266 url ++ [newline])) ;;
  (if sent then
     change_browser (fun b =>
       set_br_loading true (set_br_links []
         (set_br_body (text "Connecting, downloading and extracting readable page text.")
         (set_br_title (text "Loading...")
         (set_br_status (text "Loading through the Nova HTTPS bridge...") (record_history b))))))
   else
     change_browser (fun b =>
       set_br_links []
         (set_br_body (text "The Ethernet stack is running, but the host TLS bridge is unavailable.")
         (set_br_title (text "Unable to connect")
         (set_br_status (text "Internet bridge offline - restart with ./build.sh") b))))) ;;;
  change_browser (set_br_navigating_history false) ;;;
  mark_window.

Definition browser_open_url (url : list Z) : U unit :=
  b <- the ui_browser ;;
  if bool_decide (url = []) || br_loading b then ret tt else
  change_browser (set_br_url (take (URL_SIZE - 1) url)) ;;;
  browser_navigate.

Definition go_to (index : nat) : U unit :=
  change_browser (fun b => set_br_history_index index (set_br_navigating_history true b)) ;;;
  b <- the ui_browser ;;
  browser_open_url (default [] (br_history b !! index)).

Definition browser_go_back : U unit :=
  b <- the ui_browser ;;
  if br_loading b || (br_history_index b <=? 0)%nat then ret tt else go_to (br_history_index b - 1).

Definition browser_go_forward : U unit :=
  b <- the ui_browser ;;
  if br_loading b || (length (br_history b) <=? br_history_index b + 1)%nat then ret tt else go_to (br_history_index b + 1).

(** The target of the first row at a position. *)
Fixpoint row_at (rows : list (Z * Z)) (row_x row_width x y : Z) : option Z :=
  match rows with
  | [] => None
  | (row_y, target) :: rows =>
      if contains row_x (row_y - 2) row_width 17 x y then Some target else row_at rows row_x row_width x y
  end.

Definition browser_link_click (x y : Z) : U bool :=
  b <- the ui_browser ;;
  if br_loading b then ret false else
  match row_at (br_rows b) (br_row_x b) (br_row_width b) x y with
  | None => ret false
  | Some target =>
      if (target <? 0) || (Z.of_nat (length (br_links b)) <=? target) then ret false else
      browser_open_url (nth (Z.to_nat target) (br_links b) ([], [])).2 ;;;
      ret true
  end.

Definition scrolled (lines : Z) (b : Browser) : Browser :=
  let scroll := s32 (br_scroll b + lines) in
  let scroll := if br_max_scroll b <? scroll then br_max_scroll b else scroll in
  set_br_scroll (if scroll <? 0 then 0 else scroll) b.

Definition browser_scroll_by (lines : Z) : U unit := change_browser (scrolled lines) ;;; mark_window.

Definition browser_download (url : list Z) : U unit :=
  d <- the ui_download ;;
  if do_active d || bool_decide (url = []) then ret tt else
  let message := if bool_decide (url = text "chrome") then text "DOWNLOAD_CHROME" ++ [newline]
                 else text "DOWNLOAD " ++ take 261 url ++ [newline] in
  sent <- service (os_network_tcp_send message) ;;
  (if sent then change_download (fun _ => mkDownload (text "Download request sent to the host cache") 0 true)
   else change_download (set_do_status (text "Download failed: internet bridge offline"))) ;;;
  mark_window.

Definition ai_send_prompt : U unit :=
  a <- the ui_ai ;;
  if bool_decide (ai_prompt a = []) then ret tt else
  sent <- service (os_network_tcp_send (text "PROMPT " ++ take 263 (ai_prompt a) ++ [newline])) ;;
  change_ai (fun a => mkAssistant [] (ai_prompt a)
    (if sent then text "Thinking through the Mac AI bridge..."
     else text "Internet bridge is offline. Restart NovaOS with ./build.sh.") (ai_wire a) sent) ;;;
  mark_window.

(** ** Terminal commands *)

(** Adds lines one after the other. *)
Fixpoint terminal_add_all (l : list (list Z)) : U unit :=
  match l with [] => ret tt | t :: l => terminal_add t ;;; terminal_add_all l end.

Definition user_line (a : bool * list Z * Z) : list Z :=
  let '(administrator, name, uid) := a in
  (if administrator then text "ADMIN  " else text "USER   ") ++ name ++ text "  uid=" ++ decimal uid.

Definition chrome_path : list Z := text "opt/google/chrome/chrome".

(** [!strcmp(terminal_command, t)] *)
Definition named (command : list Z) (t : String.string) : bool := bool_decide (command = text t).

#[local] Arguments named _ _%_string.

(** Reports how an operation went. *)
Definition reply (op : st K bool) (good bad : String.string) : U unit :=
  ok <- service op ;; terminal_add (if ok : bool then text good else text bad).

#[local] Arguments reply _ _%_string _%_string.

(** The commands that ask other parts of the system. *)
Definition system_command (command : list Z) : option (U unit) :=
  if named command "mem" then Some (
    bytes <- ask os_heap_free_bytes ;;
    terminal_add (text "Dynamic kernel heap free (MiB):") ;;;
    terminal_add (decimal (s32 (bytes / (1024 * 1024)))))
  else if named command "disk" then Some (
    ready <- ask os_fs_is_ready ;;
    terminal_add (if ready : bool then text "NovaFS mounted: persistent ATA storage" else text "NovaFS unavailable"))
  else if named command "ls" then Some (
    count <- ask os_fs_file_count ;;
    names <- ask (fun s => omap (fun index => os_fs_file_info index s) (seqZ 0 count)) ;;
    (if count =? 0 then terminal_add (text "No files") else ret tt) ;;;
    terminal_add_all names)
  else if named command "save" then Some (
    saved <- notepad_save ;; terminal_add (if saved : bool then text "note.txt saved" else text "Save failed"))
  else if starts_with (text "deb install ") command then Some (
    reply (os_deb_install_file (drop 12 command)) "Package installed from ar/data.tar into NovaFS"
      "Install failed (requires an uncompressed data.tar member)")
  else if named command "chrome" then Some (
    missing <- service (os_process_audit_elf_dependencies chrome_path) ;;
    if missing <? 0 then terminal_add (text "Chrome is not installed or its ELF metadata is invalid")
    else if negb (missing =? 0) then
      terminal_add (text "Chrome installed; missing shared libraries: " ++ decimal missing) ;;;
      terminal_add (text "See the serial log for exact DT_NEEDED names")
    else reply (os_process_load chrome_path) "Chrome process scheduled" "Chrome ELF load failed")
  else if named command "whoami" then Some (
    name <- ask os_account_current_name ;;
    uid <- ask os_account_current_uid ;;
    terminal_add (name ++ text "  uid=" ++ decimal (s32 uid)))
  else if named command "users" then Some (
    users <- ask (fun s => omap (fun index => os_account_info index s) (seqZ 0 (os_account_count s))) ;;
    terminal_add_all (user_line <$> users))
  else if starts_with (text "login ") command then Some (
    (match split_arguments (drop 6 command) 24 32 with
     | Some (name, password) => reply (os_account_login name password) "Login succeeded" "Login failed"
     | None => terminal_add (text "Login failed")
     end) ;;;
    mark_dirty)
  else if starts_with (text "useradd ") command then Some (
    match split_arguments (drop 8 command) 24 32 with
    | Some (name, password) => reply (os_account_create name password) "User created" "useradd failed (login as an administrator)"
    | None => terminal_add (text "useradd failed (login as an administrator)")
    end)
  else if starts_with (text "chmod ") command then Some (
    match parse_file_mode (drop 6 command) with
    | Some (mode, name) => reply (os_fs_chmod name mode) "File mode updated" "chmod failed"
    | None => terminal_add (text "chmod failed")
    end)
  else if named command "ps" then Some (
    count <- ask os_process_count ;;
    pid <- ask os_process_foreground_pid ;;
    terminal_add (if count =? 0 then text "No runnable user process"
                  else text "PID " ++ decimal pid ++ text "  Ring 3  RUNNABLE  tasks=" ++ decimal count) ;;;
    name <- ask os_process_name ;;
    terminal_add name)
  else if named command "run" || named command "run init.elf" then Some (reply (os_process_load (text "init.elf")) "init.elf scheduled" "ELF load failed")
  else if named command "run program.elf" then Some (reply (os_process_load (text "program.elf")) "program.elf scheduled" "ELF load failed")
  else None.

Definition terminal_command (command : list Z) : U unit :=
  match system_command command with
  | Some m => m
  | None =>
      if bool_decide (command = []) then ret tt
      else if named command "help" then
        terminal_add (text "help clear about date mem disk ls save ps run cc deb chrome net web download") ;;;
        terminal_add (text "whoami users login useradd chmod apps theme reboot shutdown")
      else if named command "clear" then change_terminal (set_te_lines [])
      else if named command "about" then terminal_add (text "NovaOS: BIOS + x86-64 Long Mode + C + VBE desktop")
      else if named command "date" then d <- the ui_desk ;; terminal_add (clock_text d true)
      else if named command "cc" then compiler_build_and_run ;;; c <- the ui_compiler ;; terminal_add (co_diagnostic c)
      else if named command "net" then
        status <- ask os_network_status ;;
        sent <- ask os_network_packets_sent ;;
        received <- ask os_network_packets_received ;;
        terminal_add status ;;;
        terminal_add (text "TX packets: " ++ decimal (s32 sent)) ;;;
        terminal_add (text "RX packets: " ++ decimal (s32 received))
      else if named command "udp" then
        sent <- service (os_network_send_udp (text "NovaOS UDP probe")) ;;
        terminal_add (if sent : bool then text "UDP probe sent to 10.0.2.2:7777" else text "UDP send failed; try net")
      else if starts_with (text "web ") command then
        change_browser (set_br_url (take (URL_SIZE - 1) (drop 4 command))) ;;;
        browser_navigate ;;;
        b <- the ui_browser ;;
        terminal_add (if br_loading b then text "Web request sent; open Nova Browser" else br_status b)
      else if starts_with (text "download ") command then
        browser_download (drop 9 command) ;;;
        d <- the ui_download ;;
        terminal_add (do_status d)
      else if named command "apps" then terminal_add (text "Explorer Browser Notepad Terminal Calculator C Studio Nova AI")
      else if named command "theme" then
        change_desk (fun d => set_dk_dark_mode (negb (dk_dark_mode d)) d) ;;;
        rebuild_wallpaper ;;;
        d <- the ui_desk ;;
        terminal_add (if dk_dark_mode d then text "Dark theme enabled" else text "Light theme enabled")
      else if named command "reboot" then terminal_add (text "Rebooting...") ;;; service (os_outb 0x64 0xFE)
      else if named command "shutdown" then terminal_add (text "Powering off QEMU...") ;;; service (os_outw 0x604 0x2000)
      else if starts_with (text "echo ") command then terminal_add (drop 5 command)
      else terminal_add (text "Command not found. Type 'help'.")
  end.

Definition prompt_text : list Z := text "C:\NovaOS> ".

Definition terminal_execute : U unit :=
  t <- the ui_terminal ;;
  terminal_add (prompt_text ++ take (TERMINAL_COLUMNS - length prompt_text - 1) (te_command t)) ;;;
  terminal_command (te_command t) ;;;
  change_terminal (set_te_command []).

End applications.

(** ** Windows, events and the wire

    Coordinates are unbounded integers: a screen is far smaller than an int. *)

Section windows.
Context {K : Type} `{!Services K}.

(** ** The layout of the browser *)

(** [draw_wrapped_text_scrolled]: the lines a text is cut into, [line] being the one begun.  A
    full line is given out before the character that does not fit. *)
Fixpoint wrapped (columns : Z) (t line : list Z) : list (list Z) :=
  match t with
  | [] => if bool_decide (line = []) then [] else [line]
  | c :: t =>
      if c =? newline then line :: wrapped columns t []
      else if (Z.of_nat (length line) =? columns) || (Z.of_nat (length line) =? 127) then line :: wrapped columns t [c]
      else wrapped columns t (line ++ [c])
  end.

(** The lines drawn, and how many there are in all. *)
Definition draw_wrapped_text_scrolled (width : Z) (t : list Z) (max_lines skip_lines : Z) : list (list Z) * Z :=
  let columns := Z.quot width 8 in
  if columns <? 1 then ([], 0) else
  let lines := wrapped columns t [] in
  (take (Z.to_nat max_lines) (drop (Z.to_nat skip_lines) lines), Z.of_nat (length lines)).

(** The link of a row below the text, if it has one. *)
Definition link_of_row (total_body_lines header_rows link_count global_row : Z) : option Z :=
  if global_row <? total_body_lines then None else
  let link_row := global_row - total_body_lines in
  if negb (header_rows =? 0) && ((link_row =? 0) || (link_row =? 1)) then None else
  let link_row := if header_rows =? 0 then link_row else link_row - header_rows in
  if (link_row <? 0) || (link_count <=? link_row) then None else Some link_row.

(** What [draw_browser] does to the scroll position and the rows that can be clicked. *)
Definition draw_browser (x y width height : Z) (b : Browser) : Browser :=
  let page_x := x + 22 in
  let page_y := y + 84 in
  let page_width := width - 44 in
  let page_height := height - 108 in
  let download_y := page_y + page_height - 76 in
  let line_step := 17 in
  let content_x := page_x + 28 in
  let content_top := page_y + 106 in
  let content_width := page_width - 74 in
  let visible_rows := Z.max 1 (Z.quot (download_y - 16 - content_top) line_step) in
  let total_body_lines := (draw_wrapped_text_scrolled content_width (br_body b) 0 0).2 in
  let link_count := Z.of_nat (length (br_links b)) in
  let header_rows := if link_count =? 0 then 0 else 2 in
  let total_rows := total_body_lines + header_rows + link_count in
  let max_scroll := Z.max 0 (total_rows - visible_rows) in
  let scroll := Z.min (br_scroll b) max_scroll in
  let drawn_body := if scroll <? total_body_lines then Z.min visible_rows (total_body_lines - scroll) else 0 in
  let rows := omap (fun row =>
    (fun link_row => (content_top + row * line_step, link_row)) <$>
      link_of_row total_body_lines header_rows link_count (scroll + row)) (seqZ drawn_body (visible_rows - drawn_body)) in
  set_br_row_width content_width (set_br_row_x content_x (set_br_rows (take BROWSER_MAX_LINKS rows)
    (set_br_scroll scroll (set_br_max_scroll max_scroll b)))).

Definition draw_window_content : U (K := K) unit :=
  w <- the (fun u => dk_window (ui_desk u)) ;;
  if bool_decide (wn_app w = APP_BROWSER)
  then change_browser (draw_browser (wn_x w) (wn_y w + 43) (wn_width w) (wn_height w - 43))
  else ret tt.

(** ** Windows *)

Definition app_index (app : AppId) : Z :=
  match app with
  | APP_EXPLORER => 0 | APP_BROWSER => 1 | APP_NOTEPAD => 2 | APP_TERMINAL => 3 | APP_CALCULATOR => 4
  | APP_SETTINGS => 5 | APP_COMPILER => 6 | APP_AI => 7 | APP_ABOUT => 8
  end.

Definition widths : list Z := [900; 920; 880; 900; 470; 820; 900; 820; 720].
Definition heights : list Z := [610; 620; 620; 580; 580; 600; 620; 600; 480].

(** Notepad is saved when it loses the screen. *)
Definition save_note_if_dirty : U (K := K) unit :=
  w <- the (fun u => dk_window (ui_desk u)) ;;
  note <- the ui_note ;;
  if bool_decide (wn_app w = APP_NOTEPAD) && no_dirty note then _ <- notepad_save ;; ret tt else ret tt.

Definition open_app (app : AppId) : U (K := K) unit :=
  w <- the (fun u => dk_window (ui_desk u)) ;;
  (if wn_visible w then save_note_if_dirty else ret tt) ;;;
  (if bool_decide (app = APP_BROWSER) then change_browser (set_br_address_selected true) else ret tt) ;;;
  screen_width <- ask os_gfx_width ;;
  screen_height <- ask os_gfx_height ;;
  let width := Z.min (nth (Z.to_nat (app_index app)) widths 0) (screen_width - 60) in
  let height := Z.min (nth (Z.to_nat (app_index app)) heights 0) (screen_height - 100) in
  change_window (fun _ => mkWindow app (Z.quot (screen_width - width) 2) (Z.quot (screen_height - 64 - height) 2) width height true false) ;;;
  change_desk (fun d => set_dk_start_open false (set_dk_dragging false d)) ;;;
  mark_dirty.

(** The first application of a list whose place is at the pointer. *)
Definition app_at (hit : Z -> bool) (apps : list AppId) : option AppId := find (fun app => hit (app_index app)) apps.

Definition click_taskbar (x y : Z) : U (K := K) bool :=
  screen_width <- ask os_gfx_width ;;
  screen_height <- ask os_gfx_height ;;
  let bar_x := Z.quot (screen_width - 608) 2 in
  let bar_y := screen_height - 66 in
  if negb (contains bar_x bar_y 608 58 x y) then ret false else
  if contains (bar_x + 18) bar_y 48 58 x y then
    change_desk (fun d => set_dk_start_open (negb (dk_start_open d)) d) ;;;
    mark_dirty ;;; ret true
  else
    match app_at (fun app => contains (bar_x + 18 + 54 * (app + 1)) bar_y 48 58 x y) (take 8 all_apps) with
    | None => ret true
    | Some app =>
        w <- the (fun u => dk_window (ui_desk u)) ;;
        (if wn_visible w && bool_decide (wn_app w = app) then
           change_window (fun w => set_wn_minimized (negb (wn_minimized w)) w) ;;;
           change_desk (set_dk_start_open false) ;;;
           mark_dirty
         else open_app app) ;;;
        ret true
    end.

Definition start_x (screen_width : Z) : Z := Z.quot (screen_width - 560) 2.
Definition start_y (screen_height : Z) : Z := screen_height - 58 - 8 - 18 - 620.

Definition click_start (x y : Z) : U (K := K) bool :=
  d <- the ui_desk ;;
  if negb (dk_start_open d) then ret false else
  screen_width <- ask os_gfx_width ;;
  screen_height <- ask os_gfx_height ;;
  let menu_x := start_x screen_width in
  let menu_y := start_y screen_height in
  if negb (contains menu_x menu_y 560 620 x y) then
    change_desk (set_dk_start_open false) ;;;
    mark_dirty ;;; ret false
  else
    match app_at (fun app => contains (menu_x + 28 + app mod 3 * 170) (menu_y + 124 + app / 3 * 112) 150 94 x y) all_apps with
    | Some app => open_app app ;;; ret true
    | None =>
        if contains (menu_x + 460) (menu_y + 550) 90 62 x y then service (os_outw 0x604 0x2000) ;;; ret true else ret true
    end.

Definition settings_click (x y : Z) : U (K := K) unit :=
  w <- the (fun u => dk_window (ui_desk u)) ;;
  let content_y := wn_y w + 43 in
  if contains (wn_x w + 24) (content_y + 90) (wn_width w - 48) 74 x y then
    change_desk (fun d => set_dk_dark_mode (negb (dk_dark_mode d)) d) ;;;
    rebuild_wallpaper
  else
    match find (fun index => contains (wn_x w + 52 + index * 66 - 24) (content_y + 225) 48 55 x y) [0; 1; 2; 3; 4] with
    | Some index => change_desk (set_dk_accent_index index) ;;; rebuild_wallpaper
    | None => ret tt
    end.

(** [C / * -   7 8 9 +   4 5 6 =   1 2 3 0] *)
Definition keys : list Z := [67; 47; 42; 45; 55; 56; 57; 43; 52; 53; 54; 61; 49; 50; 51; 48].

Definition calculator_click (x y : Z) : U (K := K) unit :=
  w <- the (fun u => dk_window (ui_desk u)) ;;
  let content_y := wn_y w + 43 in
  let content_height := wn_height w - 43 in
  let gap := 9 in
  let key_width := Z.quot (wn_width w - 36 - gap * 3) 4 in
  let key_height := Z.quot (content_height - 132 - gap * 3) 4 in
  match find (fun index => contains (wn_x w + 18 + index mod 4 * (key_width + gap))
                (content_y + 114 + index / 4 * (key_height + gap)) key_width key_height x y) (seqZ 0 16) with
  | Some index => change_calculator (calculator_press (nth (Z.to_nat index) keys 0)) ;;; mark_window
  | None => ret tt
  end.

(** The part of a window below its title bar. *)
Definition click_content (w : DesktopWindow) (x y : Z) : U (K := K) unit :=
  let within dx dy width height := contains (wn_x w + dx) (wn_y w + dy) width height x y in
  match wn_app w with
  | APP_NOTEPAD => if within (wn_width w - 82) 49 68 24 then _ <- notepad_save ;; ret tt else ret tt
  | APP_BROWSER =>
      if within 16 55 38 40 then browser_go_back
      else if within 58 55 38 40 then browser_go_forward
      else if within (wn_width w - 78) 55 54 40 || within 100 55 38 40 then browser_navigate
      else if within 146 55 (wn_width w - 234) 40 then change_browser (set_br_address_selected true) ;;; mark_window
      else
        followed <- browser_link_click x y ;;
        if followed : bool then ret tt
        else if within (wn_width w - 186) (wn_height w - 104) 136 42 then browser_download (text "chrome") else ret tt
  | APP_AI => if within (wn_width w - 98) (wn_height w - 72) 74 48 then ai_send_prompt else ret tt
  | APP_COMPILER => if within (wn_width w - 176) 58 152 42 then compiler_build_and_run else ret tt
  | APP_SETTINGS => settings_click x y
  | APP_CALCULATOR => calculator_click x y
  | _ => ret tt
  end.

Definition click_window (x y : Z) : U (K := K) bool :=
  w <- the (fun u => dk_window (ui_desk u)) ;;
  if negb (wn_visible w) || wn_minimized w || negb (contains (wn_x w) (wn_y w) (wn_width w) (wn_height w) x y) then ret false else
  let close_x := wn_x w + wn_width w - 46 in
  (if contains close_x (wn_y w + 7) 40 30 x y then
     save_note_if_dirty ;;;
     change_window (set_wn_visible false) ;;;
     change_desk (set_dk_dragging false) ;;;
     mark_dirty
   else if contains (close_x - 46) (wn_y w + 7) 40 30 x y then
     save_note_if_dirty ;;;
     change_window (set_wn_minimized true) ;;;
     change_desk (set_dk_dragging false) ;;;
     mark_dirty
   else if contains (wn_x w) (wn_y w) (wn_width w - 100) 42 x y then
     change_desk (fun d => set_dk_drag_offset_y (y - wn_y w) (set_dk_drag_offset_x (x - wn_x w) (set_dk_dragging true d)))
   else click_content w x y) ;;;
  ret true.

Definition click_desktop (x y : Z) : U (K := K) unit :=
  if contains 22 28 112 82 x y then open_app APP_EXPLORER
  else if contains 150 28 112 82 x y then open_app APP_BROWSER
  else if contains 22 124 112 82 x y then open_app APP_NOTEPAD
  else if contains 22 220 112 82 x y then open_app APP_TERMINAL
  else if contains 22 316 112 82 x y then open_app APP_COMPILER
  else if contains 22 412 112 82 x y then open_app APP_AI
  else ret tt.

(** ** Start *)

(** The variables before [ui_init], as the source initialises them. *)
Definition initial_ui : Ui :=
  mkUi (mkDesk (mkWindow APP_EXPLORER 0 0 0 0 false false) true 0 false false false false 0 0 0 0 0 false 0 0 0 0 0)
    (mkNotepad [] false false) (mkTerminal [] []) (mkCalculator 0 0 0 true false) (mkCompilerApp [] [] [] false)
    (mkBrowser [] [] [] [] false false [] 0 0 [] 0 0 [] 0 false) (mkPending [] [] [] [] [] false)
    (mkDownload [] 0 false) (mkAssistant [] [] [] [] false) false.

Definition default_note : list Z :=
  text "Welcome to NovaOS Notepad!" ++ [newline; newline] ++
  text "This document is stored in the persistent NovaFS volume." ++ [newline] ++
  text "Edit it, then press Save. Your text survives a reboot." ++ [newline; newline] ++
  text "Open Start to explore the other apps.".

Definition default_source : list Z :=
  text "int main() {" ++ [newline] ++ text "    print(" ++ [34] ++ text "Hello from NovaCC!\n" ++ [34] ++ text ");" ++ [newline] ++
  text "    return 0;" ++ [newline] ++ text "}" ++ [newline].

Definition default_page : list Z :=
  text "Enter a public web address above and press Enter or Go. NovaOS sends the request " ++
  text "over its e1000, ARP, IPv4 and TCP stack; the Mac bridge provides HTTPS/TLS and " ++
  text "returns readable page text." ++ [newline; newline] ++
  text "Links found on a page are listed under the article; click one to follow it. " ++
  text "Use Up and Down to scroll, Home and End to jump, and Left and Right for history.".

Definition ui_init : U (K := K) unit :=
  screen_width <- ask os_gfx_width ;;
  screen_height <- ask os_gfx_height ;;
  let x := Z.quot screen_width 2 in
  let y := Z.quot screen_height 2 in
  change_desk (fun d => mkDesk (dk_window d) true 0 false true false false x y x y 0 false (dk_drag_offset_x d) (dk_drag_offset_y d) 0 0 0) ;;;
  note <- service (os_fs_read (text "note.txt") (NOTE_SIZE - 1)) ;;
  (match note with
   | Some contents => change_note (fun _ => mkNotepad contents false false)
   | None =>
       change_note (fun _ => mkNotepad default_note true false) ;;;
       ready <- ask os_fs_is_ready ;;
       if ready : bool then _ <- notepad_save ;; ret tt else ret tt
   end) ;;;
  terminal_initialize ;;;
  change_calculator (fun _ => calculator_clear) ;;;
  change_browser (fun b => mkBrowser (text "https://example.com") (text "Nova Browser") default_page
    (text "Waiting for Nova internet bridge") false true [] 0 0 [] (br_row_x b) (br_row_width b) [] 0 false) ;;;
  change_pending (fun p => set_pe_active false (set_pe_body [] p)) ;;;
  change_download (fun _ => mkDownload (text "Downloads are saved to the host downloads/ folder") 0 false) ;;;
  source <- service (os_fs_read (text "hello.c") (SOURCE_SIZE - 1)) ;;
  (match source with
   | Some contents => change_compiler (set_co_source contents)
   | None =>
       change_compiler (set_co_source default_source) ;;;
       ready <- ask os_fs_is_ready ;;
       if ready : bool then _ <- service (os_fs_write (text "hello.c") default_source) ;; ret tt else ret tt
   end) ;;;
  change_compiler (fun c => mkCompilerApp (co_source c) (text "Ready. Source is saved on NovaFS when you build.") [] false) ;;;
  change_ai (fun _ => mkAssistant [] [] (text "Connect the Mac bridge, then ask Nova AI anything.") [] false) ;;;
  d <- the ui_desk ;;
  service (os_gfx_generate_wallpaper (accent d) (dk_dark_mode d)) ;;;
  open_app APP_ABOUT.

(** ** Mouse and keys *)

Definition drag_window (x y screen_width screen_height : Z) (d : Desk) : Desk :=
  let w := dk_window d in
  let wx := Z.min (Z.max (x - dk_drag_offset_x d) (- wn_width w + 120)) (screen_width - 120) in
  let wy := Z.min (Z.max (y - dk_drag_offset_y d) 0) (screen_height - 110) in
  set_dk_dirty true (set_dk_window (set_wn_y wy (set_wn_x wx w)) d).

Definition ui_mouse (x y buttons : Z) : U (K := K) unit :=
  d <- the ui_desk ;;
  screen_width <- ask os_gfx_width ;;
  screen_height <- ask os_gfx_height ;;
  let pressed := has buttons 1 && negb (has (dk_old_buttons d) 1) in
  let released := negb (has buttons 1) && has (dk_old_buttons d) 1 in
  let position_changed := negb (x =? dk_mouse_x d) || negb (y =? dk_mouse_y d) in
  change_desk (fun d => set_dk_mouse_y y (set_dk_mouse_x x d)) ;;;
  (if dk_dragging d && has buttons 1 then change_desk (drag_window x y screen_width screen_height) else ret tt) ;;;
  (if released then change_desk (set_dk_dragging false) else ret tt) ;;;
  (if pressed then
     bar <- click_taskbar x y ;;
     if bar : bool then ret tt else
     menu <- click_start x y ;;
     if menu : bool then ret tt else
     inside <- click_window x y ;;
     if inside : bool then ret tt else click_desktop x y
   else ret tt) ;;;
  (if position_changed then change_desk (set_dk_cursor_dirty true) else ret tt) ;;;
  change_desk (set_dk_old_buttons buttons).

Definition printable (c : Z) : bool := (32 <=? c) && (c <=? 126).

(** A text of at most [capacity] characters after a key; [multiline] if Enter adds a line. *)
Definition edit (multiline : bool) (capacity : nat) (character : Z) (key : SpecialKey) (t : list Z) : list Z :=
  if bool_decide (key = KEY_BACKSPACE) && negb (bool_decide (t = [])) then removelast t
  else if multiline && bool_decide (key = KEY_ENTER) && (length t <? capacity)%nat then t ++ [newline]
  else if printable character && (length t <? capacity)%nat then t ++ [character]
  else t.

Definition edit_address (character : Z) (key : SpecialKey) (b : Browser) : Browser :=
  if bool_decide (key = KEY_BACKSPACE) && negb (bool_decide (br_url b = [])) then
    set_br_address_selected false (set_br_url (if br_address_selected b then [] else removelast (br_url b)) b)
  else if printable character && (br_address_selected b || (length (br_url b) <? URL_SIZE - 1)%nat) then
    set_br_address_selected false (set_br_url ((if br_address_selected b then [] else br_url b) ++ [character]) b)
  else b.

Definition browser_key (character : Z) (key : SpecialKey) : U (K := K) unit :=
  b <- the ui_browser ;;
  match key with
  | KEY_DOWN => browser_scroll_by 1
  | KEY_UP => browser_scroll_by (-1)
  | KEY_END => browser_scroll_by (br_max_scroll b)
  | KEY_HOME => browser_scroll_by (- br_max_scroll b)
  | KEY_LEFT => browser_go_back
  | KEY_RIGHT => browser_go_forward
  | KEY_ENTER => browser_navigate ;;; mark_window
  | _ => change_browser (edit_address character key) ;;; mark_window
  end.

Definition calculator_key (character : Z) (key : SpecialKey) (c : Calculator) : Calculator :=
  if (48 <=? character) && (character <=? 57) || is_operator character then calculator_press character c
  else if (character =? 99) || (character =? 67) then calculator_press 67 c
  else if bool_decide (key = KEY_ENTER) then calculator_press 61 c
  else if bool_decide (key = KEY_BACKSPACE) then set_ca_value (Z.quot (ca_value c) 10) c
  else c.

Definition ui_key (character : Z) (key : SpecialKey) : U (K := K) unit :=
  d <- the ui_desk ;;
  let w := dk_window d in
  if bool_decide (key = KEY_ESCAPE) then
    (if dk_start_open d then change_desk (set_dk_start_open false)
     else if wn_visible w then change_window (set_wn_minimized true) else ret tt) ;;;
    mark_dirty
  else if negb (wn_visible w) || wn_minimized w then ret tt else
  match wn_app w with
  | APP_BROWSER => browser_key character key
  | APP_NOTEPAD =>
      change_note (fun n => mkNotepad (edit true (NOTE_SIZE - 1) character key (no_text n)) true false) ;;;
      mark_window
  | APP_TERMINAL =>
      (if bool_decide (key = KEY_ENTER) then terminal_execute
       else change_terminal (fun t => set_te_command (edit false (TERMINAL_COLUMNS - 1) character key (te_command t)) t)) ;;;
      mark_window
  | APP_CALCULATOR => change_calculator (calculator_key character key) ;;; mark_window
  | APP_COMPILER =>
      change_compiler (fun c => set_co_diagnostic (text "Source changed. Press Build + Run.")
        (set_co_source (edit true (SOURCE_SIZE - 1) character key (co_source c)) c)) ;;;
      mark_window
  | APP_AI =>
      (if bool_decide (key = KEY_ENTER) then ai_send_prompt
       else change_ai (fun a => set_ai_prompt (edit false 255 character key (ai_prompt a)) a)) ;;;
      mark_window
  | _ => ret tt
  end.

(** ** The wire *)

Definition store_if_ready (name contents : list Z) : U (K := K) unit :=
  ready <- ask os_fs_is_ready ;;
  if ready : bool then _ <- service (os_fs_write name contents) ;; ret tt else ret tt.

Definition page_fields (t : list Z) : option (list Z * list Z * list Z * list Z) :=
  match next_wire_field t with
  | Some (status, t) =>
      match next_wire_field t with
      | Some (title, t) => match next_wire_field t with Some (url, body) => Some (status, title, url, body) | None => None end
      | None => None
      end
  | None => None
  end.

Definition begin_page (fields : list Z * list Z * list Z * list Z) : Pending :=
  let '(status, title, url, body) := fields in
  mkPending (take 127 title) (take (URL_SIZE - 1) url)
    (if bool_decide (status = text "0") then text "Request failed" else text "HTTP " ++ take 58 status)
    (take (BROWSER_BODY_CAPACITY - 1) body) [] true.

Definition add_body (chunk : list Z) (p : Pending) : Pending :=
  set_pe_body (pe_body p ++ take (BROWSER_BODY_CAPACITY - 1 - length (pe_body p)) chunk) p.

Definition add_link (t : list Z) (p : Pending) : Pending :=
  match next_wire_field t with
  | Some (label, url) =>
      if (length (pe_links p) <? BROWSER_MAX_LINKS)%nat then set_pe_links (pe_links p ++ [(take 63 label, take 223 url)]) p else p
  | None => p
  end.

(** The staged page becomes the page on screen; the history entry gets the address it came from. *)
Definition show_page (p : Pending) (b : Browser) : Browser :=
  mkBrowser (pe_url p) (pe_title p) (pe_body p) (pe_status p) false false (pe_links p) 0 (br_max_scroll b) (br_rows b)
    (br_row_x b) (br_row_width b)
    (<[br_history_index b := take (URL_SIZE - 1) (pe_url p)]> (br_history b)) (br_history_index b) (br_navigating_history b).

Definition download_fields (t : list Z) : option (list Z * list Z * list Z * list Z) :=
  match page_fields t with
  | Some (state, percent, _, rest) =>
      match next_wire_field rest with Some (filename, detail) => Some (state, percent, filename, detail) | None => None end
  | None => None
  end.

(** The text of an active download: after the file name there must be room for the rest. *)
Definition active_status (filename percent : list Z) : option (list Z) :=
  let status := text "Downloading " ++ take (DOWNLOAD_STATUS_SIZE - 12 - 1) filename ++ text " - " in
  if (DOWNLOAD_STATUS_SIZE - 2 <? length status)%nat then None else
  Some (status ++ take (DOWNLOAD_STATUS_SIZE - length status - 2) percent ++ text "%").

Definition download_line (fields : list Z * list Z * list Z * list Z) : U (K := K) unit :=
  let '(state, percent, filename, detail) := fields in
  change_download (set_do_percent (parse_decimal percent)) ;;;
  if bool_decide (state = text "START") then
    change_download (set_do_status (text "Starting download: " ++ take (DOWNLOAD_STATUS_SIZE - 19 - 1) filename))
  else if bool_decide (state = text "ACTIVE") then
    match active_status filename percent with
    | Some status => change_download (set_do_status status)
    | None => change (set_ui_overflow true)
    end
  else if bool_decide (state = text "DONE") then
    change_download (fun _ => mkDownload (take (DOWNLOAD_STATUS_SIZE - 1) detail) 100 false) ;;;
    store_if_ready (text "browser-download.txt") (take (DOWNLOAD_STATUS_SIZE - 1) detail)
  else if bool_decide (state = text "ERROR") then
    change_download (fun d => set_do_active false (set_do_status (text "Download error: " ++ take (DOWNLOAD_STATUS_SIZE - 16 - 1) detail) d))
  else ret tt.

(** One line from the bridge. *)
Definition handle_line (line : list Z) : U (K := K) unit :=
  p <- the ui_pending ;;
  if bool_decide (line = text "NOVA/1 READY") then
    change_ai (set_ai_response (text "AI bridge connected. Type a question below and press Enter.")) ;;;
    change_browser (set_br_status (text "Internet bridge connected - ready to browse"))
  else if starts_with (text "ANSWER ") line then
    change_ai (fun a => set_ai_waiting false (set_ai_response (take 1023 (drop 7 line)) a)) ;;;
    store_if_ready (text "ai-last.txt") (take 1023 (drop 7 line))
  else if starts_with (text "PAGE ") line then
    match page_fields (drop 5 line) with
    | Some fields => change_pending (fun _ => begin_page fields)
    | None => ret tt
    end
  else if starts_with (text "BODY ") line && pe_active p then change_pending (add_body (drop 5 line))
  else if starts_with (text "LINK ") line && pe_active p then change_pending (add_link (drop 5 line))
  else if bool_decide (line = text "PAGEEND") && pe_active p then
    change_browser (show_page p) ;;;
    change_pending (set_pe_active false) ;;;
    store_if_ready (text "browser-last.txt") (pe_body p)
  else if starts_with (text "DOWNLOAD" ++ [9]) line then
    match download_fields (drop 9 line) with
    | Some fields => download_line fields
    | None => ret tt
    end
  else ret tt.

(** Handles the complete lines of the buffer; a line takes at least one character of it. *)
Fixpoint take_lines (fuel : nat) : U (K := K) unit :=
  match fuel with
  | O => ret tt
  | S fuel =>
      a <- the ui_ai ;;
      match split_at newline (ai_wire a) with
      | (line, Some rest) => handle_line (cstr line) ;;; change_ai (set_ai_wire rest) ;;; take_lines fuel
      | (_, None) => ret tt
      end
  end.

Definition finish_program : U (K := K) unit :=
  c <- the ui_compiler ;;
  running <- ask os_process_is_running ;;
  if co_waiting c && negb running then
    output <- ask os_process_output ;;
    code <- ask os_process_exit_code ;;
    change_compiler (fun c => mkCompilerApp (co_source c) (text "Program finished. Exit code: " ++ decimal (s32 code)) (take 511 (cstr output)) false) ;;;
    w <- the (fun u => dk_window (ui_desk u)) ;;
    if wn_visible w && bool_decide (wn_app w = APP_COMPILER) then mark_window else ret tt
  else ret tt.

(** The window shows what the bridge sends. *)
Definition shows_bridge (w : DesktopWindow) : bool :=
  wn_visible w && (bool_decide (wn_app w = APP_AI) || bool_decide (wn_app w = APP_BROWSER)).

(** What [ui_poll_services] does with bytes received: they go into the buffer as far as there is room. *)
Definition receive_bytes (incoming : list Z) : U (K := K) unit :=
  change_ai (fun a => set_ai_wire (ai_wire a ++ take (WIRE_SIZE - 1 - length (ai_wire a)) incoming) a) ;;;
  a <- the ui_ai ;;
  take_lines (S (length (ai_wire a))) ;;;
  w <- the (fun u => dk_window (ui_desk u)) ;;
  if shows_bridge w then mark_window else ret tt.

Definition ui_poll_services : U (K := K) unit :=
  finish_program ;;;
  incoming <- service (os_network_tcp_receive 256) ;;
  if bool_decide (incoming = []) then ret tt else receive_bytes incoming.

(** ** Time and drawing *)

Definition ui_set_time (hour minute second : Z) : U (K := K) unit :=
  d <- the ui_desk ;;
  change_desk (fun d => set_dk_clock_second second (set_dk_clock_minute minute (set_dk_clock_hour hour d))) ;;;
  if negb (hour =? dk_clock_hour d) || negb (minute =? dk_clock_minute d) then mark_dirty else ret tt.

Definition ui_needs_render (d : Desk) : bool := dk_dirty d || dk_window_dirty d || dk_cursor_dirty d.

(** The part of the screen a call of [ui_render] draws. *)
Inductive Frame := WindowFrame | CursorFrame | WholeFrame.

Definition rendered (d : Desk) : Desk := set_dk_rendered_mouse_y (dk_mouse_y d) (set_dk_rendered_mouse_x (dk_mouse_x d) d).

Definition ui_render : U (K := K) Frame :=
  d <- the ui_desk ;;
  if negb (dk_dirty d) && dk_window_dirty d then
    draw_window_content ;;;
    change_desk (fun d => set_dk_cursor_dirty false (set_dk_window_dirty false (rendered d))) ;;;
    ret WindowFrame
  else if negb (dk_dirty d) && dk_cursor_dirty d then
    change_desk (fun d => set_dk_cursor_dirty false (rendered d)) ;;;
    ret CursorFrame
  else
    (if negb (wn_visible (dk_window d)) || wn_minimized (dk_window d) then ret tt else draw_window_content) ;;;
    change_desk (fun d => set_dk_cursor_dirty false (set_dk_window_dirty false (set_dk_dirty false (rendered d)))) ;;;
    ret WholeFrame.

End windows.
