(* ===== verification/DesktopFacts.v ===== *)
(** * Facts about the desktop

    What retains the texts of the desktop inside their arrays, and the tactics for it. *)

From S2P Require Import Prelude Runtime Input CompilerFacts Ui.

#[global] Arguments NOTE_SIZE : simpl never.
#[global] Arguments TERMINAL_ROWS : simpl never.
#[global] Arguments TERMINAL_COLUMNS : simpl never.
#[global] Arguments SOURCE_SIZE : simpl never.
#[global] Arguments BROWSER_BODY_CAPACITY : simpl never.
#[global] Arguments BROWSER_MAX_LINKS : simpl never.
#[global] Arguments BROWSER_HISTORY_CAPACITY : simpl never.
#[global] Arguments URL_SIZE : simpl never.
#[global] Arguments DOWNLOAD_STATUS_SIZE : simpl never.
#[global] Arguments WIRE_SIZE : simpl never.

(** ** The arrays *)

Definition window_ok (d : Desk) : Prop := 0 <= dk_accent_index d < 5.

Definition note_ok (n : Notepad) : Prop := (length (no_text n) < NOTE_SIZE)%nat.

Definition terminal_ok (t : Terminal) : Prop :=
  (length (te_lines t) <= TERMINAL_ROWS)%nat /\ Forall (fun l => length l < TERMINAL_COLUMNS)%nat (te_lines t) /\
  (length (te_command t) < TERMINAL_COLUMNS)%nat.

Definition compiler_ok (c : CompilerApp) : Prop :=
  (length (co_source c) < SOURCE_SIZE)%nat /\ (length (co_diagnostic c) < 256)%nat /\ (length (co_output c) < 512)%nat.

Definition links_ok (l : list (list Z * list Z)) : Prop :=
  (length l <= BROWSER_MAX_LINKS)%nat /\ Forall (fun k => (length k.1 < 64 /\ length k.2 < 224)%nat) l.

Definition history_ok (b : Browser) : Prop :=
  (length (br_history b) <= BROWSER_HISTORY_CAPACITY)%nat /\ Forall (fun l => length l < URL_SIZE)%nat (br_history b) /\
  (br_history_index b < length (br_history b) \/ br_history b = [] /\ br_history_index b = 0)%nat.

Definition page_ok (b : Browser) : Prop :=
  (length (br_url b) < URL_SIZE)%nat /\ (length (br_title b) < 128)%nat /\
  (length (br_body b) < BROWSER_BODY_CAPACITY)%nat /\ (length (br_status b) < 64)%nat /\ links_ok (br_links b).

Definition scroll_ok (b : Browser) : Prop := 0 <= br_scroll b <= br_max_scroll b /\ br_max_scroll b < 2 ^ 30.

Definition rows_ok (b : Browser) : Prop :=
  (length (br_rows b) <= BROWSER_MAX_LINKS)%nat /\ Forall (fun r => 0 <= r.2) (br_rows b).

Definition browser_ok (b : Browser) : Prop := page_ok b /\ history_ok b /\ scroll_ok b /\ rows_ok b.

Definition pending_ok (p : Pending) : Prop :=
  (length (pe_url p) < URL_SIZE)%nat /\ (length (pe_title p) < 128)%nat /\
  (length (pe_body p) < BROWSER_BODY_CAPACITY)%nat /\ (length (pe_status p) < 64)%nat /\ links_ok (pe_links p).

Definition download_ok (d : Download) : Prop := (length (do_status d) < DOWNLOAD_STATUS_SIZE)%nat.

Definition ai_ok (a : Assistant) : Prop :=
  (length (ai_prompt a) < 256)%nat /\ (length (ai_last_prompt a) < 256)%nat /\ (length (ai_response a) < 1024)%nat /\
  (length (ai_wire a) < WIRE_SIZE)%nat.

(** Every text with its final 0 fits the array the source has for it, every index is in range. *)
Record ui_ok (u : Ui) : Prop := {
  ok_desk : window_ok (ui_desk u);
  ok_note : note_ok (ui_note u);
  ok_terminal : terminal_ok (ui_terminal u);
  ok_compiler : compiler_ok (ui_compiler u);
  ok_browser : browser_ok (ui_browser u);
  ok_pending : pending_ok (ui_pending u);
  ok_download : download_ok (ui_download u);
  ok_ai : ai_ok (ui_ai u);
  ok_overflow : ui_overflow u = false }.

(** A line the desktop has room for: a download in progress has a file name of less than 144 characters. *)
Definition line_ok (line : list Z) : bool :=
  match download_fields (drop 9 line) with
  | Some (state, _, filename, _) => negb (bool_decide (state = text "ACTIVE")) || (length filename <? 144)%nat
  | None => true
  end.

(** The complete lines of a text and what is left. *)
Fixpoint lines_of (t : list Z) : list (list Z) * list Z :=
  match t with
  | [] => ([], [])
  | c :: t =>
      let '(lines, rest) := lines_of t in
      if c =? newline then ([] :: lines, rest)
      else match lines with [] => ([], c :: rest) | line :: lines => ((c :: line) :: lines, rest) end
  end.

Create HintDb desktop.

Section desktop.
Context {K : Type} `{!Services K}.

(** ** Actions that keep a property of the variables *)

Definition retains {A} (P : Ui -> Prop) (m : U (K := K) A) : Prop := forall s, P s.2 -> P (m s).2.2.

Lemma retains_ret {A} P (a : A) : retains P (ret a).
Proof. by intros s H. Qed.

Lemma retains_bind {A B} P (m : U A) (k : A -> U B) : retains P m -> (forall a, retains P (k a)) -> retains P (bind m k).
Proof. intros Hm Hk s H. unfold bind. specialize (Hm s H). destruct (m s) as [a s']. by apply Hk. Qed.

Lemma retains_the {A B} P (f : Ui -> A) (k : A -> U B) : (forall u, P u -> retains P (k (f u))) -> retains P (bind (the f) k).
Proof. intros Hk [s u] H. by apply (Hk u H (s, u)). Qed.

Lemma retains_ask {A} P (f : K -> A) : retains P (ask f).
Proof. by intros [s u] H. Qed.

Lemma retains_service {A} P (op : st K A) : retains P (service op).
Proof. intros [s u] H. cbn. by destruct (op s). Qed.

Lemma retains_change P f : (forall u, P u -> P (f u)) -> retains P (change f).
Proof. intros Hf [s u] H. by apply Hf. Qed.

Lemma retains_if {A} P (b : bool) (m n : U A) : (b = true -> retains P m) -> (b = false -> retains P n) -> retains P (if b then m else n).
Proof. destruct b; auto. Qed.

(** The value an operation returns, with what is known of it. *)
Lemma retains_returns {A B} (P : Ui -> Prop) (Q : A -> Prop) (op : st K A) (k : A -> U B) :
  (forall s, Q (op s).1) -> (forall a, Q a -> retains P (k a)) -> retains P (bind (service op) k).
Proof.
  intros Hop Hk [s u] H. unfold bind. cbn. specialize (Hop s). destruct (op s) as [a s']. by apply Hk.
Qed.

End desktop.

Ltac retains_step :=
  match goal with
  | |- retains _ (ret _) => apply retains_ret
  | |- retains _ (ask _) => apply retains_ask
  | |- retains _ (service _) => apply retains_service
  | |- retains _ (bind (service (os_compiler_compile _ _)) _) => eapply (retains_returns _ (fun r => forall l, r.2 = Some l -> (length (cstr l) < 256)%nat)); [intros ? ?; apply os_diagnostic_length|intros ? ?]
  | |- retains _ (bind (service (os_fs_read _ _)) _) => eapply (retains_returns _ (fun r => forall l, r = Some l -> (length l <= _)%nat)); [intros ? ?; apply os_fs_read_length|intros ? ?]
  | |- retains _ (bind (service (os_network_tcp_receive _)) _) => eapply (retains_returns _ (fun r => (length r <= _)%nat)); [intros ?; apply os_receive_length|intros ? ?]
  | |- retains _ (bind (the _) _) => apply retains_the; intros ? ?
  | |- retains _ (bind _ _) => apply retains_bind; [|intros ?]
  | |- retains _ (if _ then _ else _) => apply retains_if; intros ?
  | |- retains _ (match ?x with _ => _ end) => destruct x eqn:?
  | |- retains _ _ => solve [eauto with desktop]
  end.

Ltac retains_steps := repeat retains_step.

(** ** Each part *)

(** Lengths of texts, constants unfolded. *)
Ltac lengths :=
  unfold NOTE_SIZE, TERMINAL_ROWS, TERMINAL_COLUMNS, SOURCE_SIZE, BROWSER_BODY_CAPACITY, BROWSER_MAX_LINKS,
    BROWSER_HISTORY_CAPACITY, URL_SIZE, DOWNLOAD_STATUS_SIZE, WIRE_SIZE in *;
  repeat rewrite ?length_app, ?length_take, ?length_drop, ?length_insert in *; cbn [length] in *;
  repeat match goal with |- context [length (text ?t)] => let n := eval vm_compute in (length (text t)) in change (length (text t)) with n end;
  lia.

Section parts.
Context {K : Type} `{!Services K}.

Notation retains_ok := (retains (K := K) ui_ok).

Lemma retains_desk f : (forall d, window_ok d -> window_ok (f d)) -> retains_ok (change_desk f).
Proof. intros Hf. apply retains_change. intros u []. split; cbn; auto. Qed.

Lemma retains_window f : retains_ok (change_window f).
Proof. by apply retains_desk. Qed.

Lemma retains_note f : (forall n, note_ok n -> note_ok (f n)) -> retains_ok (change_note f).
Proof. intros Hf. apply retains_change. intros u []. split; cbn; auto. Qed.

Lemma retains_terminal f : (forall n, terminal_ok n -> terminal_ok (f n)) -> retains_ok (change_terminal f).
Proof. intros Hf. apply retains_change. intros u []. split; cbn; auto. Qed.

Lemma retains_calculator f : retains_ok (change_calculator f).
Proof. apply retains_change. intros u []. split; cbn; auto. Qed.

Lemma retains_compiler f : (forall n, compiler_ok n -> compiler_ok (f n)) -> retains_ok (change_compiler f).
Proof. intros Hf. apply retains_change. intros u []. split; cbn; auto. Qed.

Lemma retains_browser f : (forall n, browser_ok n -> browser_ok (f n)) -> retains_ok (change_browser f).
Proof. intros Hf. apply retains_change. intros u []. split; cbn; auto. Qed.

Lemma retains_pending f : (forall n, pending_ok n -> pending_ok (f n)) -> retains_ok (change_pending f).
Proof. intros Hf. apply retains_change. intros u []. split; cbn; auto. Qed.

Lemma retains_download f : (forall n, download_ok n -> download_ok (f n)) -> retains_ok (change_download f).
Proof. intros Hf. apply retains_change. intros u []. split; cbn; auto. Qed.

Lemma retains_ai f : (forall n, ai_ok n -> ai_ok (f n)) -> retains_ok (change_ai f).
Proof. intros Hf. apply retains_change. intros u []. split; cbn; auto. Qed.

Lemma retains_mark_dirty : retains_ok mark_dirty.
Proof. by apply retains_desk. Qed.

Lemma retains_mark_window : retains_ok mark_window.
Proof. by apply retains_desk. Qed.

End parts.

#[export] Hint Resolve retains_window retains_calculator retains_mark_dirty retains_mark_window : desktop.

(** The browser with something else than its page, history or position changed. *)
Ltac parts := unfold browser_ok, page_ok, history_ok, scroll_ok, rows_ok, pending_ok, compiler_ok, terminal_ok, ai_ok, note_ok, download_ok, links_ok in *;
  cbn in *; intuition (first [lengths|apply Forall_nil_2|idtac]).

Section apps.
Context {K : Type} `{!Services K}.

Notation retains_ok := (retains (K := K) ui_ok).

Lemma length_decimal v : (length (decimal v) <= 12)%nat.
Proof.
  unfold decimal, cstr, int_to_string. cbv zeta. rewrite length_take.
  assert (Hd : forall fuel n, (length (digits_reversed fuel n) <= fuel)%nat).
  { induction fuel as [|fuel IH]; intros n; cbn [digits_reversed length]; [lia|]. specialize (IH (n / 10)). case_match; cbn; lia. }
  rewrite length_app, length_rev.
  destruct (v <? 0); rewrite ?length_app; pose proof (Hd 10%nat (u32 (0 - u32 v))); pose proof (Hd 10%nat (u32 v)); cbn [length]; lia.
Qed.

Lemma terminal_ok_add t x : terminal_ok x -> terminal_ok (add_line t x).
Proof.
  intros (Hn & Hl & Hc). unfold add_line, terminal_ok. cbn. split_and!; [| |done].
  - case_match; lengths || (rewrite length_app, length_drop; cbn; apply Nat.eqb_eq in H; lengths).
  - apply Forall_app. split; [case_match; [by apply Forall_drop|done]|]. constructor; [lengths|done].
Qed.

Lemma retains_terminal_add t : retains_ok (terminal_add t).
Proof. apply retains_terminal, terminal_ok_add. Qed.

Lemma retains_terminal_initialize : retains_ok terminal_initialize.
Proof. unfold terminal_initialize. retains_steps; auto using retains_terminal_add. apply retains_terminal. intros. parts. Qed.

#[local] Hint Resolve retains_terminal_add : desktop.

Lemma retains_rebuild_wallpaper : retains_ok rebuild_wallpaper.
Proof. unfold rebuild_wallpaper. retains_steps. Qed.

Lemma retains_notepad_save : retains_ok notepad_save.
Proof. unfold notepad_save. retains_steps; apply retains_note; auto. Qed.

Lemma retains_compiler_build_and_run : retains_ok compiler_build_and_run.
Proof.
  unfold compiler_build_and_run. retains_steps; apply retains_compiler; intros c Hc; try (parts; fail).
  case_match; [|done]. match goal with H : forall _, _ -> (_ < 256)%nat |- _ => pose proof (H _ eq_refl) end. parts.
Qed.

(** ** Browser *)

Lemma page_ok_navigated url scroll address b :
  browser_ok b -> 0 <= scroll <= br_max_scroll b -> (length url < URL_SIZE)%nat ->
  browser_ok (set_br_url url (set_br_scroll scroll (set_br_address_selected address b))).
Proof. intros. parts. Qed.

Lemma length_normalized_url url : (length url < URL_SIZE)%nat -> (length (normalized_url url) < URL_SIZE)%nat.
Proof. intros. unfold normalized_url. case_match; lengths. Qed.

Lemma history_ok_record b : history_ok b -> history_ok (record_history b).
Proof.
  intros (Hn & Hf & Hi). unfold record_history. case_match; [done|]. case_match; [done|].
  assert (Hu : (length (take (URL_SIZE - 1) (br_url b)) < URL_SIZE)%nat) by lengths.
  destruct (Nat.eqb_spec (length (br_history b)) 0) as [E|E]; unfold history_ok; cbn.
  - split_and!; [lengths|apply Forall_singleton, Hu|left; lengths].
  - destruct Hi as [Hi|[Hi _]]; [|by rewrite Hi in E].
    destruct (Nat.leb_spec BROWSER_HISTORY_CAPACITY (br_history_index b + 1)) as [Hfull|Hroom].
    + split_and!; [lengths| |left; lengths].
      apply Forall_app. split; [by apply Forall_take, Forall_drop|apply Forall_singleton, Hu].
    + split_and!; [lengths| |left; lengths].
      apply Forall_app. split; [by apply Forall_take|apply Forall_singleton, Hu].
Qed.

Lemma browser_ok_record b : browser_ok b -> browser_ok (record_history b).
Proof.
  intros (Hp & Hh & Hs & Hr). pose proof (history_ok_record b Hh). unfold browser_ok. split_and!; try done;
    unfold record_history; repeat case_match; done.
Qed.

Lemma retains_browser_navigate : retains_ok browser_navigate.
Proof.
  unfold browser_navigate. retains_steps; apply retains_browser; intros b Hb.
  - destruct H as [_ _ _ _ Hu]. apply page_ok_navigated; [done|parts|apply length_normalized_url; apply Hu].
  - apply browser_ok_record in Hb. revert Hb. generalize (record_history b). intros. parts.
  - parts.
  - parts.
Qed.

#[local] Hint Resolve retains_browser_navigate : desktop.

Lemma retains_browser_open_url url : retains_ok (browser_open_url url).
Proof. unfold browser_open_url. retains_steps. apply retains_browser. intros. parts. Qed.

#[local] Hint Resolve retains_browser_open_url : desktop.

(** The entry gone to is in the history. *)
Lemma go_to_ok index s u :
  ui_ok u -> (index < length (br_history (ui_browser u)))%nat -> ui_ok (go_to index (s, u)).2.2.
Proof.
  intros Hu Hi. unfold go_to. apply (retains_the ui_ok ui_browser (fun b => browser_open_url (default [] (br_history b !! index)))).
  - intros. apply retains_browser_open_url.
  - destruct Hu. split; cbn; try done. parts.
Qed.

Lemma retains_browser_go_back : retains_ok browser_go_back.
Proof.
  intros [s u] Hu. pose proof (ok_browser u Hu) as (_ & (_ & _ & Hi) & _). unfold browser_go_back, bind. cbn.
  case_match eqn:E; [done|]. apply orb_false_iff in E as [_ E]. apply Nat.leb_gt in E. apply go_to_ok; [done|]. cbn in *. lia.
Qed.

Lemma retains_browser_go_forward : retains_ok browser_go_forward.
Proof.
  intros [s u] Hu. unfold browser_go_forward, bind. cbn.
  case_match eqn:E; [done|]. apply orb_false_iff in E as [_ E]. apply Nat.leb_gt in E. apply go_to_ok; [done|]. cbn in *. lia.
Qed.

Lemma retains_browser_scroll_by lines : - 2 ^ 30 <= lines <= 2 ^ 30 -> retains_ok (browser_scroll_by lines).
Proof.
  intros Hl. unfold browser_scroll_by. retains_steps. apply retains_browser. intros b (Hp & Hh & [Hs Hm] & Hr). unfold browser_ok.
  split_and!; try done. unfold scroll_ok, scrolled. cbn. rewrite swrap_small by lia. repeat case_match; cbn in *; lia.
Qed.

Lemma retains_browser_link_click x y : retains_ok (browser_link_click x y).
Proof. unfold browser_link_click. retains_steps. Qed.

Lemma retains_browser_download url : retains_ok (browser_download url).
Proof. unfold browser_download. retains_steps; apply retains_download; intros; parts. Qed.

Lemma retains_ai_send_prompt : retains_ok ai_send_prompt.
Proof. unfold ai_send_prompt. retains_steps. apply retains_ai. intros. case_match; parts. Qed.

#[local] Hint Resolve retains_rebuild_wallpaper retains_notepad_save retains_compiler_build_and_run retains_browser_link_click
  retains_browser_download retains_ai_send_prompt retains_browser_go_back retains_browser_go_forward : desktop.

(** ** Terminal *)

Lemma retains_terminal_add_all l : retains_ok (terminal_add_all l).
Proof. induction l; cbn [terminal_add_all]; retains_steps. Qed.

Lemma retains_reply op good bad : retains_ok (reply op good bad).
Proof. unfold reply. retains_steps. Qed.

#[local] Hint Resolve retains_terminal_add_all retains_reply : desktop.

Lemma retains_system_command command m : system_command command = Some m -> retains_ok m.
Proof.
  unfold system_command. intros E.
  repeat match type of E with (if ?b then _ else _) = _ => destruct b end; simplify_eq; retains_steps.
Qed.

Lemma retains_terminal_command command : retains_ok (terminal_command command).
Proof.
  unfold terminal_command. destruct (system_command command) as [m|] eqn:E; [by eapply retains_system_command|].
  retains_steps; try (apply retains_desk; done).
  - apply retains_terminal. intros. parts.
  - apply retains_browser. intros. parts.
Qed.

Lemma retains_terminal_execute : retains_ok terminal_execute.
Proof.
  unfold terminal_execute. retains_steps; [apply retains_terminal_command|]. apply retains_terminal. intros. parts.
Qed.

(** ** Windows and clicks *)

#[local] Hint Resolve retains_terminal_execute : desktop.

Lemma retains_save_note_if_dirty : retains_ok save_note_if_dirty.
Proof. unfold save_note_if_dirty. retains_steps. Qed.

#[local] Hint Resolve retains_save_note_if_dirty : desktop.

Lemma retains_open_app app : retains_ok (open_app app).
Proof.
  unfold open_app. retains_steps; [|by apply retains_desk].
  apply retains_browser. intros. parts.
Qed.

#[local] Hint Resolve retains_open_app : desktop.

Lemma retains_click_taskbar x y : retains_ok (click_taskbar x y).
Proof. unfold click_taskbar. retains_steps; by apply retains_desk. Qed.

Lemma retains_click_start x y : retains_ok (click_start x y).
Proof. unfold click_start. retains_steps; by apply retains_desk. Qed.

Lemma retains_settings_click x y : retains_ok (settings_click x y).
Proof.
  unfold settings_click. retains_steps; apply retains_desk; [done|]. intros d _. unfold window_ok. cbn.
  match goal with E : find _ _ = Some _ |- _ => apply find_some in E as [E _]; cbn in E end. lia.
Qed.

Lemma retains_calculator_click x y : retains_ok (calculator_click x y).
Proof. unfold calculator_click. retains_steps. Qed.

#[local] Hint Resolve retains_settings_click retains_calculator_click : desktop.

Lemma retains_click_window x y : retains_ok (click_window x y).
Proof.
  unfold click_window, click_content. retains_steps; try (by apply retains_desk).
  apply retains_browser. intros. parts.
Qed.

Lemma retains_click_desktop x y : retains_ok (click_desktop x y).
Proof. unfold click_desktop. retains_steps. Qed.

#[local] Hint Resolve retains_click_taskbar retains_click_start retains_click_window retains_click_desktop : desktop.

Lemma retains_ui_mouse x y buttons : retains_ok (ui_mouse x y buttons).
Proof. unfold ui_mouse. retains_steps; by apply retains_desk. Qed.

(** ** Keys *)

Lemma length_removelast (l : list Z) : (length (removelast l) <= length l)%nat.
Proof. induction l as [|x [|y l] IH]; cbn in *; lia. Qed.

Lemma length_edit multiline capacity character key t :
  (length t <= capacity)%nat -> (length (edit multiline capacity character key t) <= capacity)%nat.
Proof.
  intros. unfold edit. pose proof (length_removelast t). repeat case_match; bool_hyps; rewrite ?length_app; cbn [length]; lia.
Qed.

Lemma browser_ok_url selected url b :
  browser_ok b -> (length url < URL_SIZE)%nat -> browser_ok (set_br_address_selected selected (set_br_url url b)).
Proof. intros. parts. Qed.

Lemma browser_ok_edit_address character key b : browser_ok b -> browser_ok (edit_address character key b).
Proof.
  intros H. pose proof (length_removelast (br_url b)). assert (Hu : (length (br_url b) < URL_SIZE)%nat) by apply H.
  unfold edit_address. case_match; [apply browser_ok_url; [done|case_match; lengths]|].
  case_match eqn:E; [|done]. bool_hyps. apply browser_ok_url; [done|].
  destruct (br_address_selected b); [lengths|]. cbn [orb] in *. apply Nat.ltb_lt in H3. lengths.
Qed.

Lemma retains_browser_key character key : retains_ok (browser_key character key).
Proof.
  unfold browser_key.
  assert (forall u, ui_ok u -> 0 <= br_max_scroll (ui_browser u) < 2 ^ 30) as Hm by (intros u [_ _ _ _ (_ & _ & [? ?] & _)]; lia).
  retains_steps; try (apply retains_browser_scroll_by; try match goal with H : ui_ok _ |- _ => apply Hm in H end; lia);
    by apply retains_browser, browser_ok_edit_address.
Qed.

#[local] Hint Resolve retains_browser_key : desktop.

Lemma retains_ui_key character key : retains_ok (ui_key character key).
Proof.
  unfold ui_key. retains_steps; try (by apply retains_desk).
  - apply retains_note. intros n Hn. unfold note_ok in *. cbn.
    pose proof (length_edit true (NOTE_SIZE - 1) character key (no_text n)). lengths.
  - apply retains_terminal. intros n Hn. pose proof (length_edit false (TERMINAL_COLUMNS - 1) character key (te_command n)). parts.
  - apply retains_compiler. intros n Hn. pose proof (length_edit true (SOURCE_SIZE - 1) character key (co_source n)). parts.
  - apply retains_ai. intros n Hn. pose proof (length_edit false 255 character key (ai_prompt n)). parts.
Qed.

(** ** The wire *)

Lemma retains_store_if_ready name contents : retains_ok (store_if_ready name contents).
Proof. unfold store_if_ready. retains_steps. Qed.

#[local] Hint Resolve retains_store_if_ready : desktop.

Lemma pending_ok_begin fields : pending_ok (begin_page fields).
Proof. destruct fields as [[[status title] url] body]. unfold begin_page. case_match; parts. Qed.

Lemma pending_ok_body chunk p : pending_ok p -> pending_ok (add_body chunk p).
Proof. intros. unfold add_body. parts. Qed.

Lemma pending_ok_link t p : pending_ok p -> pending_ok (add_link t p).
Proof.
  intros (Hu & Ht & Hb & Hs & Hn & Hl). unfold add_link. case_match; [|done]. destruct p0 as [label url].
  destruct (Nat.ltb_spec (length (pe_links p)) BROWSER_MAX_LINKS); [|done].
  unfold pending_ok, links_ok. cbn. split_and!; try done; [lengths|].
  apply Forall_app. split; [done|]. apply Forall_singleton. cbn [fst snd]. rewrite !length_take. lia.
Qed.

Lemma browser_ok_show p b : pending_ok p -> browser_ok b -> browser_ok (show_page p b).
Proof.
  intros Hp (Hb & (Hn & Hf & Hi) & [Hs Hm] & Hr). unfold browser_ok. split_and!; [done| |unfold scroll_ok; cbn; lia|done].
  unfold history_ok. cbn. rewrite length_insert. split_and!; [done| |].
  - apply Forall_insert; [done|]. lengths.
  - destruct Hi as [Hi|[-> Hi]]; [by left|by right].
Qed.

Lemma length_active_status filename percent status :
  active_status filename percent = Some status -> (length status < DOWNLOAD_STATUS_SIZE)%nat.
Proof.
  unfold active_status. generalize (text "Downloading " ++ take (DOWNLOAD_STATUS_SIZE - 12 - 1) filename ++ text " - "). intros base. case_match eqn:E; [done|]. intros [= <-].
  apply Nat.ltb_ge in E. lengths.
Qed.

Lemma active_status_room filename percent : (length filename < 144)%nat -> active_status filename percent <> None.
Proof.
  intros H. unfold active_status. case_match eqn:E; [|done]. apply Nat.ltb_lt in E. revert E.
  rewrite !length_app, length_take. change (length (text "Downloading ")) with 12%nat. change (length (text " - ")) with 3%nat.
  unfold DOWNLOAD_STATUS_SIZE. lia.
Qed.

Lemma retains_download_line line fields :
  line_ok line = true -> download_fields (drop 9 line) = Some fields -> retains_ok (download_line fields).
Proof.
  intros Hline E. destruct fields as [[[state percent] filename] detail]. unfold line_ok in Hline. rewrite E in Hline.
  unfold download_line. retains_steps; try (apply retains_download; intros n Hn; parts); [by eapply length_active_status|].
  exfalso. apply bool_decide_eq_true in H0 as ->. rewrite bool_decide_true in Hline by done. cbn [negb orb] in Hline. apply Nat.ltb_lt in Hline.
  by apply (active_status_room filename percent).
Qed.

Lemma retains_handle_line line : line_ok line = true -> retains_ok (handle_line line).
Proof.
  intros Hline. unfold handle_line. retains_steps.
  - apply retains_ai. intros. parts.
  - apply retains_browser. intros. parts.
  - apply retains_ai. intros. parts.
  - apply retains_pending. intros. apply pending_ok_begin.
  - apply retains_pending. intros. by apply pending_ok_body.
  - apply retains_pending. intros. by apply pending_ok_link.
  - apply retains_browser. intros. apply browser_ok_show; [|done]. by match goal with H : ui_ok _ |- _ => destruct H end.
  - apply retains_pending. done.
  - by eapply retains_download_line.
Qed.

Lemma retains_finish_program : retains_ok finish_program.
Proof.
  unfold finish_program. retains_steps. apply retains_compiler. intros n Hn.
  pose proof (length_decimal (s32 a1)). parts.
Qed.

(** ** Time and drawing *)

Lemma retains_ui_set_time hour minute second : retains_ok (ui_set_time hour minute second).
Proof. unfold ui_set_time. retains_steps; by apply retains_desk. Qed.

Lemma length_wrapped columns t line : 1 <= columns -> (length (wrapped columns t line) <= length t + length line)%nat.
Proof.
  intros Hc. revert line. induction t as [|c t IH]; intros line; cbn.
  - case_match; cbn; [lia|]. destruct line; [done|cbn; lia].
  - repeat case_match; cbn; [specialize (IH []); cbn in IH; lia| |specialize (IH (line ++ [c])); rewrite length_app in IH; cbn in IH; lia].
    specialize (IH [c]). cbn in IH. apply orb_true_iff in H0. lia.
Qed.

Lemma link_of_row_range total header count row l : link_of_row total header count row = Some l -> 0 <= l < count.
Proof. unfold link_of_row. repeat case_match; intros; simplify_eq; bool_hyps; lia. Qed.

Lemma browser_ok_draw x y width height b : browser_ok b -> browser_ok (draw_browser x y width height b).
Proof.
  intros (Hp & Hh & [Hs Hm] & Hr). unfold browser_ok. split_and!; try done.
  - unfold scroll_ok, draw_browser. cbn [br_scroll br_max_scroll set_br_row_width set_br_row_x set_br_rows set_br_scroll set_br_max_scroll].
    set (body := (draw_wrapped_text_scrolled _ _ 0 0).2).
    assert (Hbody : 0 <= body <= Z.of_nat (length (br_body b))).
    { unfold body, draw_wrapped_text_scrolled. case_match; cbn [snd]; [lia|].
      pose proof (length_wrapped (Z.quot (width - 44 - 74) 8) (br_body b) []). cbn in *. lia. }
    assert (Hl : (length (br_links b) <= 24)%nat) by apply Hp.
    assert (Hb : (length (br_body b) < 8 * 1024)%nat) by apply Hp. cbn [br_links br_body] in *. case_match; lia.
  - unfold rows_ok, draw_browser. cbn [br_rows set_br_row_width set_br_row_x set_br_rows]. split; [rewrite length_take; apply Nat.le_min_l|].
    apply Forall_take, Forall_forall. intros r Hin. apply list_elem_of_omap in Hin as (row & _ & E).
    apply fmap_Some in E as (l & E & ->). apply link_of_row_range in E. cbn. lia.
Qed.

Lemma retains_ui_render : retains_ok ui_render.
Proof.
  assert (retains_ok draw_window_content) by (unfold draw_window_content; retains_steps; by apply retains_browser, browser_ok_draw).
  unfold ui_render. retains_steps; by apply retains_desk.
Qed.

(** ** Start *)

Lemma retains_ui_init : retains_ok ui_init.
Proof.
  unfold ui_init. retains_steps; try (by apply retains_desk); try apply retains_terminal_initialize.
  - apply retains_note. intros n Hn. specialize (H l eq_refl). parts.
  - apply retains_note. intros n Hn. parts.
  - apply retains_browser. intros b Hb. assert (length default_page < 8 * 1024)%nat by (vm_compute; lia). parts.
  - apply retains_pending. intros. parts.
  - apply retains_download. intros. parts.
  - apply retains_compiler. intros c Hc. specialize (H0 l eq_refl). parts.
  - apply retains_compiler. intros c Hc. assert (length default_source < 1024)%nat by (vm_compute; lia). parts.
  - apply retains_compiler. intros. parts.
  - apply retains_ai. intros. parts.
Qed.

Lemma initial_ui_ok : ui_ok initial_ui.
Proof. split; cbn; unfold window_ok; parts. Qed.

End apps.

(** ** Calculator *)

(** A number typed is not negative and has at most nine digits; a number that is to be replaced is
    what the operation began with, less some of its last digits. *)
Record calculator_ok (c : Calculator) : Prop := {
  cok_value : - 2 ^ 31 <= ca_value c < 2 ^ 31;
  cok_accumulator : - 2 ^ 31 <= ca_accumulator c < 2 ^ 31;
  cok_typed : ca_new_value c = false -> 0 <= ca_value c < 10 ^ 9;
  cok_replaced : ca_operator c <> 0 -> ca_new_value c = true ->
    exists k, 0 <= k /\ ca_value c = Z.quot (ca_accumulator c) (10 ^ k) }.

(** The only division of two ints whose result is not an int. *)
Definition division_traps (c : Calculator) : Prop :=
  ca_operator c = 47 /\ ca_accumulator c = - 2 ^ 31 /\ ca_value c = -1.

Lemma s32_range x : - 2 ^ 31 <= s32 x < 2 ^ 31.
Proof. apply (swrap_bound 32). lia. Qed.

Lemma calculator_clear_ok : calculator_ok calculator_clear.
Proof. split; cbn; try lia; done. Qed.

Lemma calculator_digit_ok d c : 0 <= d <= 9 -> calculator_ok c -> calculator_ok (calculator_digit d c).
Proof.
  intros Hd [Hv Ha Ht Hr]. unfold calculator_digit. destruct (ca_error c); [done|].
  destruct (ca_new_value c) eqn:E; cbn.
  - split; cbn; try done; lia.
  - case_match; split; cbn; try done; rewrite ?E; try done; bool_hyps; specialize (Ht eq_refl); lia.
Qed.

Lemma calculator_apply_ok c : calculator_ok c -> calculator_ok (calculator_apply c).
Proof.
  intros [Hv Ha Ht Hr]. unfold calculator_apply. case_match; [done|]. cbv zeta.
  match goal with |- calculator_ok (mkCalculator ?r _ _ _ _) => assert (Hres : - 2 ^ 31 <= r < 2 ^ 31) end.
  { repeat case_match; try done; apply s32_range. }
  split; cbn; done.
Qed.

Lemma calculator_press_ok key c : calculator_ok c -> calculator_ok (calculator_press key c).
Proof.
  intros H. unfold calculator_press. case_match; [apply calculator_digit_ok; [bool_hyps; lia|done]|].
  case_match; [apply calculator_clear_ok|]. case_match; [by apply calculator_apply_ok|]. case_match; [|done].
  match goal with |- calculator_ok (set_ca_new_value _ (set_ca_operator _ (set_ca_accumulator _ ?x))) => assert (Hx : calculator_ok x) end.
  { case_match; [by apply calculator_apply_ok|done]. }
  destruct Hx. split; cbn; try done. intros _ _. exists 0. split; [done|]. by rewrite Z.quot_1_r.
Qed.

Lemma calculator_key_ok character key c : calculator_ok c -> calculator_ok (calculator_key character key c).
Proof.
  intros H. unfold calculator_key. repeat case_match; try (by apply calculator_press_ok); try done.
  destruct H as [Hv Ha Ht Hr]. split; cbn; try done.
  - clear - Hv. Z.to_euclidean_division_equations. lia.
  - intros E. specialize (Ht E). clear - Ht. Z.to_euclidean_division_equations. lia.
  - intros Ho E. destruct (Hr Ho E) as (k & Hk & ->). exists (k + 1). split; [lia|].
    by rewrite Z.pow_add_r, Z.quot_quot by lia.
Qed.

Lemma division_never_traps c : calculator_ok c -> ~ division_traps c.
Proof.
  intros [Hv Ha Ht Hr] (Ho & Hacc & Hval). destruct (ca_new_value c) eqn:E; [|specialize (Ht eq_refl); lia].
  destruct (Hr ltac:(lia) eq_refl) as (k & Hk & Hq). rewrite Hval, Hacc, Z.quot_opp_l in Hq by lia.
  destruct (decide (k <= 9)) as [Hk9|Hk9].
  - assert (k = 0 \/ k = 1 \/ k = 2 \/ k = 3 \/ k = 4 \/ k = 5 \/ k = 6 \/ k = 7 \/ k = 8 \/ k = 9) by lia.
    destruct_or!; subst; vm_compute in Hq; done.
  - assert (10 ^ 10 <= 10 ^ k) by (apply Z.pow_le_mono_r; lia). rewrite Z.quot_small in Hq by lia. done.
Qed.

(** The state after a sequence of keys. *)
Definition calculator_run (keys : list Z) (c : Calculator) : Calculator := fold_left (fun c key => calculator_press key c) keys c.

Lemma calculator_run_app k1 k2 c : calculator_run (k1 ++ k2) c = calculator_run k2 (calculator_run k1 c).
Proof. apply fold_left_app. Qed.

(** Typing the digits of a number enters it. *)
Lemma calculator_types fuel n c :
  ca_error c = false -> ca_new_value c = true -> 0 <= n < 10 ^ Z.of_nat fuel -> n < 10 ^ 9 ->
  calculator_run (rev (digits_reversed fuel n)) c =
  mkCalculator n (ca_accumulator c) (ca_operator c) false false \/ fuel = 0%nat.
Proof.
  intros He Hn. revert n. induction fuel as [|fuel IH]; intros n H1 H2; [by right|left].
  cbn [digits_reversed]. cbn [rev]. rewrite calculator_run_app.
  assert (Hd : 0 <= n mod 10 < 10) by (apply Z.mod_pos_bound; lia).
  assert (Hm : n = 10 * (n / 10) + n mod 10) by (apply Z.div_mod; lia).
  assert (Hc : (48 <=? 48 + n mod 10) && (48 + n mod 10 <=? 57) = true) by lia.
  destruct (n / 10 =? 0) eqn:E.
  - apply Z.eqb_eq in E. cbn. unfold calculator_press. rewrite Hc. unfold calculator_digit. rewrite He, Hn.
    replace (48 + n mod 10 - 48) with n by lia. destruct c; cbn in *. by subst.
  - apply Z.eqb_neq in E. rewrite Nat2Z.inj_succ, Z.pow_succ_r in H1 by lia.
    destruct (IH (n / 10)) as [-> | ->]; [lia|lia| |cbn in H1; lia].
    cbn. unfold calculator_press. rewrite Hc. unfold calculator_digit. cbn.
    replace ((n / 10 <? 100000000) && (-100000000 <? n / 10)) with true by lia.
    unfold set_ca_value. cbn. f_equal. lia.
Qed.

Lemma calculator_types_decimal n c :
  ca_error c = false -> ca_new_value c = true -> 0 <= n < 10 ^ 9 ->
  calculator_run (decimal n) c = mkCalculator n (ca_accumulator c) (ca_operator c) false false.
Proof.
  intros. unfold decimal. rewrite cstr_int_to_string by lia. rewrite (proj2 (Z.ltb_ge n 0)) by lia. cbn [app].
  rewrite Z.abs_eq by lia. destruct (calculator_types 10 n c) as [E|E]; try done; lia.
Qed.

(** ** History *)

(** The visits before and after the page shown. *)
Record Visits := mkVisits { vs_back : list (list Z); vs_current : option (list Z); vs_forward : list (list Z) }.

Definition visit (url : list Z) (v : Visits) : Visits :=
  match vs_current v with
  | None => mkVisits [] (Some url) []
  | Some c =>
      if bool_decide (c = url) then v else
      let back := vs_back v ++ [c] in
      mkVisits (if (BROWSER_HISTORY_CAPACITY <=? length back)%nat then drop 1 back else back) (Some url) []
  end.

Definition visit_back (v : Visits) : Visits :=
  match last (vs_back v), vs_current v with
  | Some b, Some c => mkVisits (removelast (vs_back v)) (Some b) (c :: vs_forward v)
  | _, _ => v
  end.

Definition visit_forward (v : Visits) : Visits :=
  match vs_forward v, vs_current v with
  | f :: forward, Some c => mkVisits (vs_back v ++ [c]) (Some f) forward
  | _, _ => v
  end.

Definition visits_at (h : list (list Z)) (i : nat) : Visits := mkVisits (take i h) (h !! i) (drop (S i) h).

Definition visits (b : Browser) : Visits := visits_at (br_history b) (br_history_index b).

Lemma visits_at_app h x l i : i = length h -> visits_at (h ++ x :: l) i = mkVisits h (Some x) l.
Proof.
  intros ->. unfold visits_at. rewrite take_app_length, lookup_app_r, Nat.sub_diag by lia. cbn. f_equal.
  rewrite drop_app_ge by lia. by replace (S (length h) - length h)%nat with 1%nat by lia.
Qed.

(** A list split_around one of its places. *)
Lemma split_around {A} (h : list A) i : (i < length h)%nat -> exists x, h = take i h ++ x :: drop (S i) h.
Proof. intros Hi. destruct (lookup_lt_is_Some_2 h i Hi) as [x Hx]. exists x. by rewrite take_drop_middle. Qed.

Lemma visits_record b :
  history_ok b -> (length (br_url b) < URL_SIZE)%nat -> br_navigating_history b = false ->
  visits (record_history b) = visit (br_url b) (visits b).
Proof.
  intros (Hn & _ & Hi) Hu Hv. unfold record_history. rewrite Hv, (take_ge (br_url b)) by lia.
  destruct Hi as [Hi|[Hh Hi]].
  - destruct (split_around _ _ Hi) as [x Hx]. set (i := br_history_index b) in *. set (h := br_history b) in *.
    assert (Hlen : length (take i h) = i) by (rewrite length_take; lia).
    unfold visits at 2. rewrite (proj2 (Nat.eqb_neq _ _)) by lia. fold h i.
    assert (Hxi : h !! i = Some x) by (rewrite Hx, lookup_app_r by lia; by rewrite Hlen, Nat.sub_diag).
    unfold visit, visits_at. cbn [vs_current vs_back]. rewrite Hxi. cbn [negb andb].
    destruct (decide (x = br_url b)) as [->|Hne].
    + rewrite !bool_decide_true by done. unfold visits, visits_at. fold h i. by rewrite Hxi.
    + rewrite !bool_decide_false by congruence. rewrite length_app, Hlen. cbn [length].
      destruct (Nat.leb_spec BROWSER_HISTORY_CAPACITY (i + 1)); unfold visits; cbn.
      * rewrite visits_at_app; [|rewrite length_take, length_drop; unfold BROWSER_HISTORY_CAPACITY in *; lia]. f_equal.
        replace (BROWSER_HISTORY_CAPACITY - 2 + 1)%nat with i by (unfold BROWSER_HISTORY_CAPACITY in *; lia).
        rewrite Hx at 1. rewrite (drop_ge h) by (unfold BROWSER_HISTORY_CAPACITY in *; lia).
        apply take_ge. rewrite length_drop, length_app, Hlen. cbn. lia.
      * rewrite visits_at_app; [|rewrite length_take; lia]. f_equal. rewrite Hx at 1.
        rewrite take_app, Hlen, (take_ge (take i h)) by lia. by replace (i + 1 - i)%nat with 1%nat by lia.
  - rewrite Hh. cbn. unfold visits, visits_at, visit. cbn. by rewrite Hh, Hi.
Qed.

Lemma visits_back h i : (0 < i < length h)%nat -> visits_at h (i - 1) = visit_back (visits_at h i).
Proof.
  intros Hi. destruct (split_around h (i - 1)) as [x Hx]; [lia|]. destruct (split_around h i) as [y Hy]; [lia|].
  unfold visit_back, visits_at. cbn [vs_back vs_current vs_forward].
  assert (Ht : take i h = take (i - 1) h ++ [x]).
  { replace i with (S (i - 1)) at 1 by lia. apply take_S_r. rewrite Hx, lookup_app_r; rewrite length_take; [|lia].
    by replace (i - 1 - (i - 1) `min` length h)%nat with 0%nat by lia. }
  rewrite Ht, last_snoc, removelast_last.
  assert (Hyi : h !! i = Some y) by (rewrite Hy, lookup_app_r; rewrite length_take; [by replace (i - i `min` length h)%nat with 0%nat by lia|lia]).
  rewrite Hyi. f_equal.
  - rewrite Hx at 1. rewrite lookup_app_r; rewrite length_take; [|lia]. by replace (i - 1 - (i - 1) `min` length h)%nat with 0%nat by lia.
  - replace (S (i - 1)) with i by lia. by apply drop_S.
Qed.

Lemma visits_forward h i : (S i < length h)%nat -> visits_at h (i + 1) = visit_forward (visits_at h i).
Proof.
  intros Hi. unfold visit_forward, visits_at. cbn [vs_back vs_current vs_forward].
  destruct (lookup_lt_is_Some_2 h i) as [y Hy]; [lia|]. destruct (lookup_lt_is_Some_2 h (S i)) as [x Hx]; [lia|].
  rewrite Hy, (drop_S _ _ _ Hx). replace (i + 1)%nat with (S i) by lia. by rewrite (take_S_r _ _ _ Hy), Hx.
Qed.

Section history.
Context {K : Type} `{!Services K}.

(** What the bridge is asked for. *)
Definition request (url : list Z) : list Z := text "GET " ++ take 266 url ++ [newline].

Lemma browser_navigate_history (s : K) u :
  let b := ui_browser u in
  let url := normalized_url (br_url b) in
  br_url b <> [] -> br_loading b = false ->
  let b' := ui_browser (browser_navigate (s, u)).2.2 in
  let after := if (os_network_tcp_send (request url) s).1 then record_history (set_br_url url b) else b in
  br_history b' = br_history after /\ br_history_index b' = br_history_index after /\ br_navigating_history b' = false.
Proof.
  intros b url Hne Hl. cbv zeta. remember (browser_navigate (s, u)) as r eqn:E.
  unfold browser_navigate in E. unfold bind at 1 in E. cbn [the gets] in E. fold b in E.
  rewrite bool_decide_false, Hl in E by done. cbn [orb] in E. fold url in E. unfold bind in E. cbn [change_browser change modify] in E.
  unfold service in E. fold (request url) in E. destruct (os_network_tcp_send (request url) s) as [[] s']; cbn [fst]; subst r; [|done].
  unfold record_history. cbn. fold b. by repeat case_match.
Qed.

Lemma normalized_not_empty url : url <> [] -> normalized_url url <> [].
Proof. intros H. unfold normalized_url. by case_match. Qed.

Lemma visits_eq b b' : br_history b = br_history b' -> br_history_index b = br_history_index b' -> visits b = visits b'.
Proof. unfold visits. by intros -> ->. Qed.

(** Going to a place of the history moves there, whether the bridge answers or not.  An empty
    address is not opened, and the mark that a move is under way stays. *)
Lemma go_to_history index (s : K) u :
  let b := ui_browser u in
  br_loading b = false -> (index < length (br_history b))%nat ->
  let b' := ui_browser (go_to index (s, u)).2.2 in
  br_history b' = br_history b /\ br_history_index b' = index /\ br_navigating_history b' = bool_decide (br_history b !! index = Some []).
Proof.
  intros b Hl Hi. cbv zeta. destruct (lookup_lt_is_Some_2 _ _ Hi) as [url Hu]. rewrite Hu. remember (go_to index (s, u)) as r eqn:E.
  unfold go_to in E. unfold bind at 1 in E. cbn [change_browser change modify] in E. unfold bind at 1 in E. cbn [the gets] in E.
  cbn [ui_browser set_ui_browser br_history set_br_history_index set_br_navigating_history] in E. fold b in E. rewrite Hu in E. cbn [default] in E.
  unfold browser_open_url in E. unfold bind at 1 in E.
  cbn [the gets ui_browser set_ui_browser br_loading set_br_history_index set_br_navigating_history] in E. rewrite Hl in E.
  destruct (decide (url = [])) as [->|Hne]; [rewrite bool_decide_true in E by done; by subst r|].
  rewrite bool_decide_false in E by done. rewrite bool_decide_false by congruence. cbn [orb] in E. unfold bind at 1 in E.
  cbn [change_browser change modify] in E. subst r.
  match goal with |- context [browser_navigate (s, ?x)] => pose proof (browser_navigate_history s x) as Hnav end.
  cbv zeta in Hnav. destruct Hnav as (H1 & H2 & H3); [cbn; unfold URL_SIZE; by destruct url|done|].
  rewrite H1, H2, H3. unfold record_history. by case_match.
Qed.

End history.
