(* ===== verification/DesktopWire.v ===== *)
(** * The wire of the desktop

    The lines from the internet bridge do not depend on how the bytes are divided; the lines of a
    page as tools/nova sends them, and what each of them does. *)

From S2P Require Import Prelude Runtime Input Ui DesktopFacts.

(** ** Lines *)

Lemma split_at_some c t line rest :
  split_at c t = (line, Some rest) -> t = line ++ c :: rest /\ c ∉ line.
Proof.
  revert line. induction t as [|x t IH]; cbn; intros line E; [done|]. case_match eqn:Ex.
  - apply Z.eqb_eq in Ex. simplify_eq. split; [done|apply not_elem_of_nil].
  - apply Z.eqb_neq in Ex. destruct (split_at c t) as [a [b|]]; simplify_eq. destruct (IH _ eq_refl) as [-> Hn].
    split; [done|]. by apply not_elem_of_cons.
Qed.

Lemma split_at_none c t line : split_at c t = (line, None) -> line = t /\ c ∉ t.
Proof.
  revert line. induction t as [|x t IH]; cbn; intros line E; simplify_eq; [split; [done|apply not_elem_of_nil]|].
  case_match eqn:Ex; [done|]. apply Z.eqb_neq in Ex. destruct (split_at c t) as [a [b|]]; simplify_eq.
  destruct (IH _ eq_refl) as [-> Hn]. split; [done|]. by apply not_elem_of_cons.
Qed.

Lemma lines_of_none t : newline ∉ t -> lines_of t = ([], t).
Proof.
  induction t as [|c t IH]; [done|]. intros [Hc Ht]%not_elem_of_cons. cbn. rewrite IH by done.
  by rewrite (proj2 (Z.eqb_neq c newline)).
Qed.

Lemma lines_of_line line rest :
  newline ∉ line -> lines_of (line ++ newline :: rest) = (line :: (lines_of rest).1, (lines_of rest).2).
Proof.
  induction line as [|c t IH]; cbn; [by destruct (lines_of rest)|]. intros [Hc Ht]%not_elem_of_cons.
  rewrite IH by done. by rewrite (proj2 (Z.eqb_neq c newline)).
Qed.

Lemma lines_of_rest t : newline ∉ (lines_of t).2.
Proof.
  induction t as [|c t IH]; cbn; [apply not_elem_of_nil|]. destruct (lines_of t) as [[|line lines] rest]; cbn in *;
    case_match eqn:E; cbn; try done. apply Z.eqb_neq in E. by apply not_elem_of_cons.
Qed.

Lemma lines_of_app a b :
  lines_of (a ++ b) = ((lines_of a).1 ++ (lines_of ((lines_of a).2 ++ b)).1, (lines_of ((lines_of a).2 ++ b)).2).
Proof.
  induction a as [|c a IH]; cbn; [by destruct (lines_of b)|]. rewrite IH. destruct (lines_of a) as [[|line lines] rest]; cbn.
  - case_match eqn:E; cbn; [done|]. rewrite E. by destruct (lines_of (rest ++ b)) as [[|??] ?].
  - by case_match.
Qed.

(** A text without newline begins the first line of a longer one. *)
Lemma lines_of_begun r b n :
  newline ∉ r -> Forall (fun l => length l <= n)%nat (lines_of (r ++ b)).1 -> (length (lines_of (r ++ b)).2 <= n)%nat ->
  (length r <= n)%nat.
Proof.
  intros Hr. destruct (split_at newline b) as [x [y|]] eqn:E.
  - apply split_at_some in E as [-> Hx]. rewrite app_assoc, lines_of_line by (rewrite not_elem_of_app; done). cbn.
    intros [H _]%Forall_cons _. rewrite length_app in H. lia.
  - apply split_at_none in E as [-> Hb]. rewrite lines_of_none by (rewrite not_elem_of_app; done). cbn.
    rewrite length_app. lia.
Qed.

(** ** Actions that do not look at the wire or the desk *)

Definition set_wire (d : Desk) (w : list Z) (u : Ui) : Ui := set_ui_desk d (set_ui_ai (set_ai_wire w (ui_ai u)) u).

Lemma set_wire_set_wire d w d' w' u : set_wire d w (set_wire d' w' u) = set_wire d w u.
Proof. by destruct u as [? ? ? ? ? ? ? ? [] ?]. Qed.

Lemma wire_set_wire d w u : ai_wire (ui_ai (set_wire d w u)) = w.
Proof. done. Qed.

Lemma desk_set_wire d w u : ui_desk (set_wire d w u) = d.
Proof. done. Qed.

#[global] Arguments set_wire : simpl never.

Section wire.
Context {K : Type} `{!Services K}.

Definition commutes {A} (m : U (K := K) A) : Prop :=
  forall s u d w, m (s, set_wire d w u) = ((m (s, u)).1, ((m (s, u)).2.1, set_wire d w (m (s, u)).2.2)).

Lemma commutes_ret {A} (a : A) : commutes (ret a).
Proof. done. Qed.

Lemma commutes_bind {A B} (m : U A) (k : A -> U B) : commutes m -> (forall a, commutes (k a)) -> commutes (bind m k).
Proof.
  intros Hm Hk s u d w. unfold bind. rewrite Hm. destruct (m (s, u)) as [a [s' u']]. cbn. by rewrite Hk.
Qed.

Lemma commutes_the {A B} (f : Ui -> A) (k : A -> U B) :
  (forall u d w, f (set_wire d w u) = f u) -> (forall u, commutes (k (f u))) -> commutes (bind (the f) k).
Proof.
  intros Hf Hk s u d w. change (bind (the f) k (s, set_wire d w u)) with (k (f (set_wire d w u)) (s, set_wire d w u)).
  rewrite Hf, (Hk u). done.
Qed.

Lemma commutes_ask {A} (f : K -> A) : commutes (ask f).
Proof. done. Qed.

Lemma commutes_service {A} (op : st K A) : commutes (service op).
Proof. intros s u d w. cbn. by destruct (op s). Qed.

Lemma commutes_change f : (forall u d w, f (set_wire d w u) = set_wire d w (f u)) -> commutes (change f).
Proof. intros Hf s u d w. change (change f (s, set_wire d w u)) with (tt, (s, f (set_wire d w u))). by rewrite Hf. Qed.

Lemma commutes_if {A} (b : bool) (m n : U A) : commutes m -> commutes n -> commutes (if b then m else n).
Proof. by destruct b. Qed.

Ltac commutes_step :=
  match goal with
  | |- commutes (bind (the _) _) => apply commutes_the; [by intros [] ? ?|intros ?]
  | |- commutes (bind _ _) => apply commutes_bind; [|intros ?]
  | |- commutes (ret _) => apply commutes_ret
  | |- commutes (ask _) => apply commutes_ask
  | |- commutes (service _) => apply commutes_service
  | |- commutes (if _ then _ else _) => apply commutes_if
  | |- commutes (match ?x with _ => _ end) => destruct x
  | |- commutes _ => apply commutes_change; by intros [? ? ? ? ? ? ? ? [] ?] ? ?
  end.

Lemma handle_line_commutes line : commutes (handle_line line).
Proof.
  assert (forall name contents, commutes (store_if_ready name contents)) by (intros; unfold store_if_ready; repeat commutes_step).
  unfold handle_line, download_line. repeat (apply H || commutes_step).
Qed.

(** Handles lines one after the other. *)
Fixpoint handle_lines (lines : list (list Z)) : U (K := K) unit :=
  match lines with
  | [] => ret tt
  | line :: lines => handle_line (cstr line) ;;; handle_lines lines
  end.

Lemma handle_lines_commutes lines : commutes (handle_lines lines).
Proof. induction lines; cbn [handle_lines]; [apply commutes_ret|apply commutes_bind; [apply handle_line_commutes|done]]. Qed.

Lemma handle_lines_app l1 l2 s : handle_lines (l1 ++ l2) s = handle_lines l2 (handle_lines l1 s).2.
Proof.
  revert s. induction l1 as [|line l1 IH]; intros s; [done|]. cbn [handle_lines app]. unfold bind.
  destruct (handle_line (cstr line) s). apply IH.
Qed.

Lemma handle_line_desk line s u : ui_desk (handle_line line (s, u)).2.2 = ui_desk u.
Proof.
  cut (retains (K := K) (fun u' => ui_desk u' = ui_desk u) (handle_line line)); [intros H; by apply (H (s, u))|].
  unfold handle_line, download_line, store_if_ready. retains_steps; by apply retains_change.
Qed.

Lemma set_wire_self u : set_wire (ui_desk u) (ai_wire (ui_ai u)) u = u.
Proof. by destruct u as [? ? ? ? ? ? ? ? [] ?]. Qed.

Lemma store_wire w (s : K) u : change_ai (set_ai_wire w) (s, u) = (tt, (s, set_wire (ui_desk u) w u)).
Proof. by destruct u. Qed.

(** The lines handled, the rest left in the buffer. *)
Definition handled (t : list Z) (d : Desk) (s : K) (u : Ui) : K * Ui :=
  let '(lines, rest) := lines_of t in
  let after := (handle_lines lines (s, u)).2 in
  (after.1, set_wire d rest after.2).

Lemma take_lines_spec fuel s u :
  (length (ai_wire (ui_ai u)) < fuel)%nat ->
  take_lines fuel (s, u) = (tt, handled (ai_wire (ui_ai u)) (ui_desk u) s u).
Proof.
  revert s u. induction fuel as [|fuel IH]; intros s u Hf; [lia|]. cbn [take_lines].
  destruct (split_at newline (ai_wire (ui_ai u))) as [line [rest|]] eqn:E; unfold bind at 1; cbn [the gets fst snd]; rewrite E.
  - apply split_at_some in E as [Ew Hl]. rewrite Ew in Hf |- *. rewrite length_app in Hf. cbn in Hf. unfold handled.
    rewrite lines_of_line by done. cbn [handle_lines]. pose proof (handle_line_desk (cstr line) s u) as Hd.
    unfold bind. destruct (handle_line (cstr line) (s, u)) as [[] [s1 u1]]. cbn [fst snd] in *.
    rewrite store_wire, IH by (rewrite wire_set_wire; lia). unfold handled. rewrite wire_set_wire, desk_set_wire, Hd. destruct (lines_of rest) as [lines rest'].
    rewrite handle_lines_commutes. cbn [fst snd]. by rewrite set_wire_set_wire.
  - apply split_at_none in E as [_ Hn]. unfold handled. rewrite lines_of_none by done. cbn. by rewrite set_wire_self.
Qed.

(** The content of the window is to be drawn again if it shows what the bridge sends. *)
Definition noted (d : Desk) : Desk := if shows_bridge (dk_window d) then set_dk_window_dirty true d else d.

Lemma noted_noted d : noted (noted d) = noted d.
Proof. unfold noted. destruct (shows_bridge (dk_window d)) eqn:E; cbn; by rewrite E. Qed.

(** The specification of the wire: the lines of the bytes before and the new ones. *)
Definition deliver (t : list Z) (s : K) (u : Ui) : K * Ui :=
  handled (ai_wire (ui_ai u) ++ t) (noted (ui_desk u)) s u.

Lemma receive_bytes_spec t s u :
  (length (ai_wire (ui_ai u)) + length t < WIRE_SIZE)%nat -> receive_bytes t (s, u) = (tt, deliver t s u).
Proof.
  intros Hlen. unfold receive_bytes. unfold bind at 1.
  replace (change_ai _ (s, u)) with (tt, (s, set_wire (ui_desk u) (ai_wire (ui_ai u) ++ t) u))
    by (rewrite <- store_wire; unfold change_ai, change, modify; cbn; by rewrite take_ge by (unfold WIRE_SIZE in *; lia)).
  cbn [fst snd]. unfold bind at 1. cbn [the gets]. unfold bind at 1. rewrite take_lines_spec by lia.
  unfold deliver, handled. rewrite wire_set_wire, desk_set_wire.
  destruct (lines_of (ai_wire (ui_ai u) ++ t)) as [lines rest]. rewrite handle_lines_commutes. cbn [fst snd].
  rewrite set_wire_set_wire. destruct (handle_lines lines (s, u)) as [a [s1 u1]]. unfold noted, bind. cbn.
  rewrite desk_set_wire. case_match; by destruct u1 as [? ? ? ? ? ? ? ? [] ?].
Qed.

(** Bytes that come in several pieces. *)
Fixpoint receive_all (chunks : list (list Z)) : U (K := K) unit :=
  match chunks with
  | [] => ret tt
  | chunk :: chunks => receive_bytes chunk ;;; receive_all chunks
  end.

Lemma deliver_deliver a b s u : deliver b (deliver a s u).1 (deliver a s u).2 = deliver (a ++ b) s u.
Proof.
  unfold deliver, handled. rewrite app_assoc, (lines_of_app (ai_wire (ui_ai u) ++ a)).
  destruct (lines_of (ai_wire (ui_ai u) ++ a)) as [l1 r1]. cbn [fst snd].
  rewrite wire_set_wire, desk_set_wire.
  destruct (lines_of (r1 ++ b)) as [l2 r2]. cbn [fst snd]. rewrite handle_lines_app, noted_noted.
  destruct (handle_lines l1 (s, u)) as [? [s1 u1]]. cbn [fst snd]. rewrite handle_lines_commutes. cbn [fst snd].
  by rewrite set_wire_set_wire.
Qed.

(** ** The arrays while lines come *)

Lemma length_lines_of_rest t : (length (lines_of t).2 <= length t)%nat.
Proof.
  induction t as [|c t IH]; cbn; [lia|]. destruct (lines_of t) as [[|??] ?]; cbn in *; case_match; cbn; lia.
Qed.

Lemma ui_ok_set_wire d w u : window_ok d -> (length w < WIRE_SIZE)%nat -> ui_ok u -> ui_ok (set_wire d w u).
Proof. intros Hd Hw []. split; try done. unfold set_wire. parts. Qed.

Lemma retains_handle_lines lines :
  Forall (fun l => line_ok (cstr l) = true) lines -> retains (K := K) ui_ok (handle_lines lines).
Proof.
  induction 1; cbn [handle_lines]; [apply retains_ret|]. apply retains_bind; [by apply retains_handle_line|done].
Qed.

(** The buffer with the bytes a poll receives. *)
Definition buffer_with (incoming : list Z) (u : Ui) : list Z :=
  ai_wire (ui_ai u) ++ take (WIRE_SIZE - 1 - length (ai_wire (ui_ai u))) incoming.

Lemma receive_bytes_ok incoming s u :
  ui_ok u -> Forall (fun l => line_ok (cstr l) = true) (lines_of (buffer_with incoming u)).1 ->
  ui_ok (receive_bytes incoming (s, u)).2.2.
Proof.
  intros Hu Hl. set (w := buffer_with incoming u) in *.
  assert (Hw : (length w < WIRE_SIZE)%nat).
  { destruct Hu as [_ _ _ _ _ _ _ (_ & _ & _ & Hw) _]. unfold w, buffer_with. rewrite length_app, length_take. unfold WIRE_SIZE in *. lia. }
  unfold receive_bytes. unfold bind at 1.
  replace (change_ai _ (s, u)) with (tt, (s, set_wire (ui_desk u) w u)) by by rewrite <- store_wire.
  cbn [fst snd]. unfold bind at 1. cbn [the gets]. unfold bind at 1. rewrite take_lines_spec by lia. rewrite wire_set_wire, desk_set_wire.
  assert (Hh : ui_ok (handled w (ui_desk u) s (set_wire (ui_desk u) w u)).2).
  { unfold handled. pose proof (length_lines_of_rest w). destruct (lines_of w) as [lines rest]. cbn [fst snd] in *.
    apply ui_ok_set_wire; [by destruct Hu|lia|]. apply (retains_handle_lines lines Hl (s, set_wire (ui_desk u) w u)).
    by apply ui_ok_set_wire; [destruct Hu|..]. }
  destruct (handled w (ui_desk u) s (set_wire (ui_desk u) w u)) as [s' u'].
  assert (Hk : retains (K := K) ui_ok (w0 <- the (fun u => dk_window (ui_desk u)) ;; if shows_bridge w0 then mark_window else ret tt))
    by retains_steps.
  by apply (Hk (s', u')).
Qed.

End wire.

(** ** Pages *)

(** ** The lines of a page *)

Definition tab : Z := 9.

Record Page := mkPage {
  pg_status : list Z; pg_title : list Z; pg_url : list Z; pg_body : list Z;
  pg_more : list (list Z); pg_links : list (list Z * list Z) }.

Definition page_line (p : Page) : list Z :=
  text "PAGE " ++ pg_status p ++ tab :: pg_title p ++ tab :: pg_url p ++ tab :: pg_body p.

Definition body_line (chunk : list Z) : list Z := text "BODY " ++ chunk.

Definition link_line (link : list Z * list Z) : list Z := text "LINK " ++ link.1 ++ tab :: link.2.

Definition page_lines (p : Page) : list (list Z) :=
  page_line p :: (body_line <$> pg_more p) ++ (link_line <$> pg_links p) ++ [text "PAGEEND"].

(** [Reply.encode] *)
Definition encode (lines : list (list Z)) : list Z := concat ((fun l => l ++ [newline]) <$> lines).

(** No tab, no newline and no final 0 within a field. *)
Definition clean (t : list Z) : Prop := Forall (fun c => c <> 0 /\ c <> tab /\ c <> newline) t.

(** The fields are clean, whatever their lengths and however many there are. *)
Record page_clean (p : Page) : Prop := {
  clean_status : clean (pg_status p);
  clean_title : clean (pg_title p);
  clean_url : clean (pg_url p);
  clean_body : clean (pg_body p) /\ Forall clean (pg_more p);
  clean_links : Forall (fun k => clean k.1 /\ clean k.2) (pg_links p) }.

Lemma clean_no_nul t : clean t -> Forall (fun c => c <> 0) t.
Proof. intros H. eapply Forall_impl; [exact H|]. cbn. tauto. Qed.

Lemma split_at_clean t rest : clean t -> split_at tab (t ++ tab :: rest) = (t, Some rest).
Proof.
  induction 1 as [|c t [_ [Hc _]] Ht IH]; [done|]. cbn [app split_at]. by rewrite (proj2 (Z.eqb_neq c tab)), IH.
Qed.

Lemma next_field_clean t rest : clean t -> next_wire_field (t ++ tab :: rest) = Some (t, rest).
Proof. intros. unfold next_wire_field. fold tab. by rewrite split_at_clean. Qed.

Lemma lines_of_encode lines :
  Forall (fun l => newline ∉ l) lines -> lines_of (encode lines) = (lines, []).
Proof.
  induction 1 as [|l lines Hl _ IH]; [done|]. unfold encode. cbn [fmap list_fmap concat]. rewrite <- app_assoc. cbn [app].
  rewrite lines_of_line by done. fold (encode lines). by rewrite IH.
Qed.

Lemma clean_no_newline t : clean t -> newline ∉ t.
Proof. intros H Hin. by apply (proj1 (Forall_forall _ _) H) in Hin as (_ & _ & []). Qed.

Definition line_clean (t : list Z) : Prop := Forall (fun c => c <> 0 /\ c <> newline) t.

Lemma clean_line t : clean t -> line_clean t.
Proof. intros H. eapply Forall_impl; [exact H|]. cbn. tauto. Qed.

Lemma text_line_clean t : forallb (fun c => negb (c =? 0) && negb (c =? newline)) (text t) = true -> line_clean (text t).
Proof.
  intros H. apply Forall_forall. intros c Hin. apply list_elem_of_In in Hin. rewrite forallb_forall in H. specialize (H c Hin).
  bool_hyps. lia.
Qed.

Ltac line_clean_solve :=
  unfold line_clean; repeat rewrite ?Forall_app, ?Forall_cons;
  repeat match goal with
  | |- _ /\ _ => split
  | |- Forall _ (text _) => by apply text_line_clean
  | H : clean ?t |- Forall _ ?t => by apply clean_line
  end; try done.

Lemma page_lines_clean p : page_clean p -> Forall line_clean (page_lines p).
Proof.
  intros [Hs Ht Hu [Hb Hm] Hl]. unfold page_lines. constructor; [|apply Forall_app; split; [|apply Forall_app; split]].
  - unfold page_line. line_clean_solve.
  - apply Forall_fmap. eapply Forall_impl; [done|]. intros c Hc. unfold compose, body_line. line_clean_solve.
  - apply Forall_fmap. eapply Forall_impl; [done|]. intros [a b] [Ha Hb']. cbn in *. unfold compose, link_line. cbn [fst snd]. line_clean_solve.
  - apply Forall_singleton. line_clean_solve.
Qed.

(** ** What the lines do *)

Section pages.
Context {K : Type} `{!Services K}.

(** What is shown of a status, a text and a link. *)
Definition shown_status (status : list Z) : list Z :=
  if bool_decide (status = text "0") then text "Request failed" else text "HTTP " ++ take 58 status.

Definition shown_link (link : list Z * list Z) : list Z * list Z := (take 63 link.1, take 223 link.2).

Definition staged (p : Page) : Pending :=
  mkPending (take 127 (pg_title p)) (take (URL_SIZE - 1) (pg_url p)) (shown_status (pg_status p))
    (take (BROWSER_BODY_CAPACITY - 1) (pg_body p)) [] true.

Lemma handle_page_line p (s : K) u :
  page_clean p -> handle_line (page_line p) (s, u) = (tt, (s, set_ui_pending (staged p) u)).
Proof.
  intros [Hs Ht Hu [Hb Hm] _].
  assert (E : page_fields (drop 5 (page_line p)) = Some (pg_status p, pg_title p, pg_url p, pg_body p)).
  { unfold page_line. change (drop 5 (text "PAGE " ++ ?x)) with x. unfold page_fields.
    by rewrite !next_field_clean by done. }
  transitivity ((match page_fields (drop 5 (page_line p)) with
    | Some fields => change_pending (fun _ => begin_page fields)
    | None => ret tt end) (s, u)).
  { reflexivity. }
  by rewrite E.
Qed.

Lemma handle_body_line chunk (s : K) u :
  pe_active (ui_pending u) = true ->
  handle_line (body_line chunk) (s, u) = (tt, (s, set_ui_pending (add_body chunk (ui_pending u)) u)).
Proof.
  intros E. transitivity ((if pe_active (ui_pending u) then change_pending (add_body chunk) else ret tt) (s, u)); [|by rewrite E].
  rewrite E. unfold handle_line, bind. cbn. by rewrite E.
Qed.

Lemma take_links (links more : list (list Z * list Z)) link : (length links <= BROWSER_MAX_LINKS)%nat ->
  take (BROWSER_MAX_LINKS - length links) (link :: more) =
  if (length links <? BROWSER_MAX_LINKS)%nat then link :: take (BROWSER_MAX_LINKS - length (links ++ [link])) more else [].
Proof.
  intros Hn. rewrite length_app. cbn [length]. destruct (Nat.ltb_spec (length links) BROWSER_MAX_LINKS).
  - by replace (BROWSER_MAX_LINKS - length links)%nat with (S (BROWSER_MAX_LINKS - (length links + 1)))%nat by lia.
  - by replace (BROWSER_MAX_LINKS - length links)%nat with 0%nat by lia.
Qed.

Lemma handle_link_line link (s : K) u :
  pe_active (ui_pending u) = true -> clean link.1 -> (length (pe_links (ui_pending u)) <= BROWSER_MAX_LINKS)%nat ->
  handle_line (link_line link) (s, u) = (tt, (s, set_ui_pending
    (set_pe_links (pe_links (ui_pending u) ++ take (BROWSER_MAX_LINKS - length (pe_links (ui_pending u))) [shown_link link]) (ui_pending u)) u)).
Proof.
  intros E Hc Hn. rewrite take_links by done. destruct link as [label url]. cbn [fst snd] in *.
  transitivity (change_pending (add_link (label ++ tab :: url)) (s, u)).
  { unfold handle_line, bind. cbn. by rewrite E. }
  change (change_pending ?f (s, u)) with (tt, (s, set_ui_pending (f (ui_pending u)) u)). unfold add_link. rewrite next_field_clean by done.
  destruct (_ <? _)%nat; [by rewrite take_nil|]. rewrite app_nil_r. by destruct (ui_pending u).
Qed.

Lemma handle_lines_cons line lines s (u u' : Ui) (s' : K) :
  Forall (fun c => c <> 0) line -> handle_line line (s, u) = (tt, (s', u')) ->
  handle_lines (line :: lines) (s, u) = handle_lines lines (s', u').
Proof. intros Hl E. cbn [handle_lines]. unfold bind. by rewrite cstr_id, E. Qed.

Lemma body_line_no_nul c : clean c -> Forall (fun c => c <> 0) (body_line c).
Proof. intros. apply Forall_app. split; [|by apply clean_no_nul]. by repeat constructor. Qed.

Lemma link_line_no_nul k : clean k.1 -> clean k.2 -> Forall (fun c => c <> 0) (link_line k).
Proof.
  intros. apply Forall_app. split; [by repeat constructor|]. apply Forall_app. split; [by apply clean_no_nul|].
  constructor; [done|by apply clean_no_nul].
Qed.

Lemma take_parts (n : nat) (body : list Z) c rest : (length body <= n)%nat ->
  (body ++ take (n - length body) c) ++ take (n - length (body ++ take (n - length body) c)) rest = body ++ take (n - length body) (c ++ rest).
Proof.
  intros Hn. rewrite <- app_assoc. f_equal. rewrite take_app, length_app, length_take. f_equal.
  f_equal. lia.
Qed.

Lemma handle_body_lines chunks lines (s : K) u :
  pe_active (ui_pending u) = true -> Forall clean chunks -> (length (pe_body (ui_pending u)) <= BROWSER_BODY_CAPACITY - 1)%nat ->
  handle_lines ((body_line <$> chunks) ++ lines) (s, u) =
  handle_lines lines (s, set_ui_pending (set_pe_body (pe_body (ui_pending u) ++
    take (BROWSER_BODY_CAPACITY - 1 - length (pe_body (ui_pending u))) (concat chunks)) (ui_pending u)) u).
Proof.
  intros Ha Hc. revert u Ha. induction Hc as [|c chunks Hc _ IH]; intros u Ha Hn; cbn [fmap list_fmap app concat] in *.
  - rewrite take_nil, app_nil_r. by destruct u as [? ? ? ? ? ? [] ? ? ?].
  - rewrite (handle_lines_cons _ _ _ _ _ _ (body_line_no_nul c Hc) (handle_body_line c s u Ha)). unfold add_body.
    rewrite IH; [|done|cbn; rewrite length_app, length_take; lia]. f_equal. f_equal. rewrite <- (take_parts _ _ c) by done. done.
Qed.

Lemma handle_link_lines links lines (s : K) u :
  pe_active (ui_pending u) = true -> Forall (fun k => clean k.1 /\ clean k.2) links ->
  (length (pe_links (ui_pending u)) <= BROWSER_MAX_LINKS)%nat ->
  handle_lines ((link_line <$> links) ++ lines) (s, u) =
  handle_lines lines (s, set_ui_pending (set_pe_links (pe_links (ui_pending u) ++
    take (BROWSER_MAX_LINKS - length (pe_links (ui_pending u))) (shown_link <$> links)) (ui_pending u)) u).
Proof.
  intros Ha Hc. revert u Ha. induction Hc as [|k links (Hk1 & Hk2) _ IH]; intros u Ha Hn; cbn [fmap list_fmap app] in *.
  - rewrite take_nil, app_nil_r. by destruct u as [? ? ? ? ? ? [] ? ? ?].
  - rewrite (handle_lines_cons _ _ _ _ _ _ (link_line_no_nul k Hk1 Hk2) (handle_link_line k s u Ha Hk1 Hn)).
    rewrite IH; [|done|cbn; rewrite length_app, length_take; cbn; lia]. f_equal. f_equal. cbn [pe_links set_pe_links ui_pending set_ui_pending].
    rewrite <- app_assoc. unfold fmap, list_fmap. rewrite !(take_links _ _ (shown_link k)) by done.
    destruct (_ <? _)%nat eqn:El; [by rewrite take_nil|]. rewrite app_nil_r. apply Nat.ltb_ge in El.
    replace (BROWSER_MAX_LINKS - length (pe_links (ui_pending u)))%nat with 0%nat by lia. cbn [app take]. by rewrite app_nil_r.
Qed.

(** The page as it is when its last line has come. *)
Definition complete (p : Page) : Pending :=
  mkPending (take 127 (pg_title p)) (take (URL_SIZE - 1) (pg_url p)) (shown_status (pg_status p))
    (take (BROWSER_BODY_CAPACITY - 1) (pg_body p ++ concat (pg_more p))) (take BROWSER_MAX_LINKS (shown_link <$> pg_links p)) true.

Lemma handle_page_end (s : K) u :
  pe_active (ui_pending u) = true ->
  exists s', handle_line (text "PAGEEND") (s, u) =
    (tt, (s', set_ui_pending (set_pe_active false (ui_pending u)) (set_ui_browser (show_page (ui_pending u) (ui_browser u)) u))).
Proof.
  intros E. set (u1 := set_ui_pending _ _).
  assert (H : handle_line (text "PAGEEND") (s, u) = store_if_ready (text "browser-last.txt") (pe_body (ui_pending u)) (s, u1)).
  { unfold handle_line. unfold bind at 1. cbn [the gets]. rewrite E. reflexivity. }
  rewrite H. unfold store_if_ready, bind. cbn [ask gets]. destruct (os_fs_is_ready s); [|by exists s].
  cbn [service]. destruct (os_fs_write (text "browser-last.txt") (pe_body (ui_pending u)) s) as [b s']. by exists s'.
Qed.

Lemma handle_page_lines p (s : K) u :
  page_clean p ->
  exists s', handle_lines (page_lines p) (s, u) =
    (tt, (s', set_ui_pending (set_pe_active false (complete p)) (set_ui_browser (show_page (complete p) (ui_browser u)) u))).
Proof.
  intros Hp. pose proof (Forall_inv (page_lines_clean p Hp)) as Hc.
  assert (Hc0 : Forall (fun c => c <> 0) (page_line p)) by (eapply Forall_impl; [exact Hc|]; cbn; tauto).
  unfold page_lines. rewrite (handle_lines_cons _ _ _ _ _ _ Hc0 (handle_page_line p s u Hp)).
  destruct Hp as [_ _ _ (_ & Hm) Hl]. rewrite handle_body_lines; [|done..|cbn; rewrite length_take; lia].
  rewrite handle_link_lines; [|done..|cbn; lia]. cbn [handle_lines].
  edestruct (handle_page_end s) as [s' E']; [|exists s'; unfold bind; rewrite cstr_id by (by repeat constructor); rewrite E']; [done|].
  unfold complete. cbn [pe_body staged]. pose proof (take_parts (BROWSER_BODY_CAPACITY - 1) [] (pg_body p) (concat (pg_more p)) ltac:(cbn; lia)) as Hb.
  cbn [app length] in Hb. rewrite Nat.sub_0_r in Hb. rewrite <- Hb. by destruct u.
Qed.

End pages.
