(* ===== verification/DesktopTheorems.v ===== *)
(** * Theorems about the desktop *)

From S2P Require Import Prelude Runtime Input Ui DesktopFacts DesktopWire.

(** ** Events *)

Section events.
Context {K : Type} `{!Services K}.

(** What the main loop of kernel.c calls. *)
Inductive UiEvent :=
| Mouse (x y buttons : Z) | Key (character : Z) (key : SpecialKey) | Clock (hour minute second : Z) | Poll | Render.

Definition handle_event (e : UiEvent) : U (K := K) unit :=
  match e with
  | Mouse x y buttons => ui_mouse x y buttons
  | Key character key => ui_key character key
  | Clock hour minute second => ui_set_time hour minute second
  | Poll => ui_poll_services
  | Render => _ <- ui_render ;; ret tt
  end.

(** The complete lines a poll finds in the buffer. *)
Definition poll_lines (s : K) (u : Ui) : list (list Z) := (lines_of (buffer_with (os_network_tcp_receive 256 s).1 u)).1.

Definition ui_event_ok (e : UiEvent) (s : K) (u : Ui) : Prop :=
  match e with Poll => Forall (fun l => line_ok (cstr l) = true) (poll_lines s u) | _ => True end.

(** The states of the desktop; between two events the rest of the system does what it likes. *)
Inductive desktop_reachable : K * Ui -> Prop :=
| reachable_start s : desktop_reachable (ui_init (s, initial_ui)).2
| reachable_event e s u : desktop_reachable (s, u) -> ui_event_ok e s u -> desktop_reachable (handle_event e (s, u)).2
| reachable_other s s' u : desktop_reachable (s, u) -> desktop_reachable (s', u).

Lemma ui_poll_services_ok s u :
  ui_ok u -> Forall (fun l => line_ok (cstr l) = true) (poll_lines s u) -> ui_ok (ui_poll_services (s, u)).2.2.
Proof.
  intros Hu Hl. unfold ui_poll_services. unfold bind at 1.
  assert (Hf : finish_program (s, u) = (tt, (s, (finish_program (s, u)).2.2)) /\ ui_ai (finish_program (s, u)).2.2 = ui_ai u).
  { unfold finish_program, bind. cbn. case_match; [|done]. cbn. case_match; done. }
  destruct Hf as [Hf Ha]. pose proof (retains_finish_program (s, u) Hu) as Hok. rewrite Hf. set (u1 := (finish_program (s, u)).2.2) in *.
  unfold bind, service. unfold poll_lines, buffer_with in Hl. rewrite <- Ha in Hl.
  destruct (os_network_tcp_receive 256 s) as [incoming s'] eqn:E. cbn [fst] in Hl. case_match; [done|]. by apply receive_bytes_ok.
Qed.

Lemma desktop_reachable_ok x : desktop_reachable x -> ui_ok x.2.
Proof.
  induction 1 as [s|e s u _ IH He|s s' u _ IH]; [apply (retains_ui_init (s, initial_ui)), initial_ui_ok| |done].
  destruct e; cbn [handle_event] in *.
  - by apply (retains_ui_mouse x y buttons (s, u)).
  - by apply (retains_ui_key character key (s, u)).
  - by apply (retains_ui_set_time hour minute second (s, u)).
  - by apply ui_poll_services_ok.
  - pose proof (retains_ui_render (s, u) IH) as H. unfold bind. by destruct (ui_render (s, u)) as [? [? ?]].
Qed.

Lemma reachable_next e x : desktop_reachable x -> ui_event_ok e x.1 x.2 -> desktop_reachable (handle_event e x).2.
Proof. destruct x. apply reachable_event. Qed.

End events.

(** ** An example of the rest of the system *)

(** The pieces of text that are still to come from the bridge; no disk and no processes. *)
#[export] Program Instance bridge_only : Services (list (list Z)) := {|
  os_gfx_width _ := 1024; os_gfx_height _ := 768; os_gfx_generate_wallpaper _ _ := ret tt;
  os_fs_is_ready _ := false; os_fs_write _ _ := ret false; os_fs_read _ _ := ret None; os_fs_chmod _ _ := ret false;
  os_fs_file_count _ := 0; os_fs_file_info _ _ := None; os_heap_free_bytes _ := 0; os_compiler_compile _ _ := ret (false, None);
  os_process_load _ := ret false; os_process_is_running _ := false; os_process_output _ := []; os_process_exit_code _ := 0;
  os_process_count _ := 0; os_process_foreground_pid _ := 0; os_process_name _ := [];
  os_process_audit_elf_dependencies _ := ret (-1); os_deb_install_file _ := ret false; os_network_tcp_send _ := ret true;
  os_network_tcp_receive n := fun chunks => match chunks with [] => ([], []) | c :: chunks => (take n c, chunks) end;
  os_network_send_udp _ := ret false; os_network_status _ := []; os_network_packets_sent _ := 0; os_network_packets_received _ := 0;
  os_account_current_name _ := text "guest"; os_account_current_uid _ := 1000; os_account_count _ := 0; os_account_info _ _ := None;
  os_account_login _ _ := ret false; os_account_create _ _ := ret false; os_outb _ _ := ret tt; os_outw _ _ := ret tt |}.
Next Obligation. done. Qed.
Next Obligation. intros n [|c chunks]; cbn; [lia|]. rewrite length_take. lia. Qed.
Next Obligation. done. Qed.

(** ** The desktop stays within its arrays *)

(** [C37] Whatever the user does and whatever the bridge sends, except a download in progress whose
    file name has 144 characters or more, every text of the desktop fits its array with its final 0
    and every index is in range: notes, terminal, program, page, links, history, staged page,
    answers and the bytes of an incomplete line. *)
Theorem desktop_bounded {K} `{!Services K} (x : K * Ui) : desktop_reachable x -> ui_ok x.2.
Proof. apply desktop_reachable_ok. Qed.

(** Notepad opened and a letter typed. *)
Lemma desktop_bounded_witness :
  ui_ok (handle_event (K := list (list Z)) (Key 65 KEY_NONE) (handle_event (Mouse 30 130 1) (ui_init ([], initial_ui)).2).2).2.2.
Proof.
  apply (desktop_bounded (K := list (list Z))).
  apply reachable_next; [|done]. apply reachable_next; [|done]. apply reachable_start.
Defined.

(** ** The wire *)

Lemma wire_deliver {K} `{!Services K} t (s : K) u : ai_wire (ui_ai (deliver t s u).2) = (lines_of (ai_wire (ui_ai u) ++ t)).2.
Proof. unfold deliver, handled. by destruct (lines_of _). Qed.

Lemma receive_all_deliver {K} `{!Services K} chunk chunks (s : K) u :
  Forall (fun c => length c <= 256)%nat (chunk :: chunks) -> newline ∉ ai_wire (ui_ai u) ->
  Forall (fun l => length l <= 1791)%nat (lines_of (ai_wire (ui_ai u) ++ concat (chunk :: chunks))).1 ->
  (length (lines_of (ai_wire (ui_ai u) ++ concat (chunk :: chunks))).2 <= 1791)%nat ->
  receive_all (chunk :: chunks) (s, u) = (tt, deliver (concat (chunk :: chunks)) s u).
Proof.
  revert chunk s u. induction chunks as [|next chunks IH]; intros chunk s u Hc Hw Hl Hr; apply Forall_cons in Hc as [Hc Hcs].
  - cbn [concat receive_all] in *. rewrite app_nil_r in *. pose proof (lines_of_begun _ _ _ Hw Hl Hr).
    unfold bind. rewrite receive_bytes_spec by (unfold WIRE_SIZE; lia). by destruct (deliver chunk s u).
  - pose proof (lines_of_begun _ _ _ Hw Hl Hr). change (concat (chunk :: next :: chunks)) with (chunk ++ concat (next :: chunks)) in *.
    change (receive_all (chunk :: next :: chunks)) with (receive_bytes chunk ;;; receive_all (next :: chunks)).
    unfold bind. rewrite receive_bytes_spec by (unfold WIRE_SIZE; lia). rewrite <- deliver_deliver.
    pose proof (wire_deliver chunk s u) as Hd. destruct (deliver chunk s u) as [s1 u1]. cbn [fst snd] in *.
    rewrite app_assoc, (lines_of_app (_ ++ chunk)) in Hl, Hr. cbn [fst snd] in Hl, Hr. apply Forall_app in Hl as [_ Hl].
    rewrite <- Hd in Hl, Hr. apply IH; try done. rewrite Hd. apply lines_of_rest.
Qed.

(** [C38] The bytes of the bridge may come in any pieces of up to 256: as long as no line is longer than
    1791 characters, the desktop ends up as if it had handled the lines of the whole text, one after
    the other, and retains what follows the last newline. *)
Theorem wire_framing {K} `{!Services K} (chunks : list (list Z)) (s : K) u :
  chunks <> [] -> Forall (fun c => length c <= 256)%nat chunks -> newline ∉ ai_wire (ui_ai u) ->
  let '(lines, rest) := lines_of (ai_wire (ui_ai u) ++ concat chunks) in
  Forall (fun l => length l <= 1791)%nat (rest :: lines) ->
  let after := (handle_lines lines (s, u)).2 in
  receive_all chunks (s, u) = (tt, (after.1, set_wire (noted (ui_desk u)) rest after.2)).
Proof.
  destruct chunks as [|chunk chunks]; [done|]. intros _ Hc Hw.
  pose proof (receive_all_deliver chunk chunks s u Hc Hw) as H. unfold deliver, handled in H.
  destruct (lines_of _) as [lines rest]. intros [Hr Hl]%Forall_cons. by apply H.
Qed.

(** An answer of the bridge in two pieces. *)
Lemma wire_framing_witness :
  let chunks := [text "ANSWER he"; text "llo" ++ [newline] ++ text "NOVA/1"] in
  ai_response (ui_ai (receive_all (K := list (list Z)) chunks ([], initial_ui)).2.2) = text "hello".
Proof.
  cbv zeta. pose proof (wire_framing (K := list (list Z)) [text "ANSWER he"; text "llo" ++ [newline] ++ text "NOVA/1"] [] initial_ui) as H.
  rewrite H; [by vm_compute|done| | |].
  - repeat constructor; vm_compute; lia.
  - apply not_elem_of_nil.
  - repeat constructor; vm_compute; lia.
Defined.

(** ** Pages *)

Lemma page_lines_no_newline p : page_clean p -> Forall (fun l => newline ∉ l) (page_lines p).
Proof.
  intros H. eapply Forall_impl; [exact (page_lines_clean p H)|]. intros l Hl Hin.
  by apply (proj1 (Forall_forall _ _) Hl) in Hin as [_ []].
Qed.

(** [C39] A page sent as PAGE, BODY, LINK and PAGEEND lines, with fields without tabs, newlines and zeros and with lines
    of at most 1791 characters, received in any pieces of up to 256 bytes while no other line is begun, is shown
    as it was sent, from the top, as far as the arrays reach: the first 127 characters of the title, 255 of the
    address, 8191 of the whole text and 58 of the status (the status 0 as Request failed), and the first 24
    links, of their labels 63 and of their addresses 223 characters; the place in the history gets the address of the page. *)
Theorem page_roundtrip {K} `{!Services K} (p : Page) (pieces : list (list Z)) (s : K) u :
  page_clean p -> Forall (fun l => length l <= 1791)%nat (page_lines p) ->
  Forall (fun c => length c <= 256)%nat pieces -> concat pieces = encode (page_lines p) -> ai_wire (ui_ai u) = [] ->
  let u' := (receive_all pieces (s, u)).2.2 in
  let b := ui_browser u' in
  br_title b = take 127 (pg_title p) /\ br_url b = take (URL_SIZE - 1) (pg_url p) /\
  br_status b = (if bool_decide (pg_status p = text "0") then text "Request failed" else text "HTTP " ++ take 58 (pg_status p)) /\
  br_body b = take (BROWSER_BODY_CAPACITY - 1) (pg_body p ++ concat (pg_more p)) /\
  br_links b = take BROWSER_MAX_LINKS ((fun link => (take 63 link.1, take 223 link.2)) <$> pg_links p) /\
  br_loading b = false /\ br_scroll b = 0 /\
  br_history b = <[br_history_index (ui_browser u) := br_url b]> (br_history (ui_browser u)) /\
  ai_wire (ui_ai u') = [] /\ pe_active (ui_pending u') = false.
Proof.
  intros Hp Hl Hpieces E Hw. cbv zeta.
  destruct pieces as [|chunk chunks]; [unfold page_lines, encode in E; cbn in E; by destruct (page_line p)|].
  rewrite receive_all_deliver; rewrite ?E, ?Hw; cbn [app]; rewrite ?lines_of_encode by (by apply page_lines_no_newline); cbn [fst snd];
    try done; [|apply not_elem_of_nil|cbn; lia].
  unfold deliver, handled. rewrite Hw. cbn [app]. rewrite lines_of_encode by (by apply page_lines_no_newline).
  destruct (handle_page_lines p s u Hp) as [s' ->].
  unfold show_page. cbn [pe_url complete]. rewrite (take_ge (take _ (pg_url p))) by (rewrite length_take; lia). by split_and!.
Qed.

(** A page of two parts with one link. *)
Definition sample_page : Page :=
  mkPage (text "200") (text "Nova") (text "https://nova.example/") (text "Hello, ") [text "world."]
    [(text "Home", text "https://nova.example/home")].

Lemma page_roundtrip_witness :
  let pieces := [take 30 (encode (page_lines sample_page)); drop 30 (encode (page_lines sample_page))] in
  br_body (ui_browser (receive_all (K := list (list Z)) pieces ([], initial_ui)).2.2) = text "Hello, world.".
Proof.
  destruct (page_roundtrip (K := list (list Z)) sample_page
    [take 30 (encode (page_lines sample_page)); drop 30 (encode (page_lines sample_page))] [] initial_ui) as (_ & _ & _ & H & _).
  - assert (Hc : forall t, forallb (fun c => negb (c =? 0) && negb (c =? tab) && negb (c =? newline)) t = true -> clean t).
    { intros t Ht. apply Forall_forall. intros c Hin. apply list_elem_of_In in Hin. rewrite forallb_forall in Ht. specialize (Ht c Hin). lia. }
    split; cbn [sample_page pg_status pg_title pg_url pg_body pg_more pg_links];
      repeat match goal with
      | |- _ /\ _ => split
      | |- clean _ => apply Hc; by vm_compute
      | |- Forall _ (_ :: _) => constructor
      | |- Forall _ [] => constructor
      end.
  - repeat constructor; vm_compute; lia.
  - repeat constructor; vm_compute; lia.
  - by vm_compute.
  - done.
  - exact H.
Defined.

(** ** Calculator *)

(** What happens to the calculator: a button or a key. *)
Definition calculator_event (e : Z + Z * SpecialKey) : Calculator -> Calculator :=
  match e with inl key => calculator_press key | inr (character, key) => calculator_key character key end.

(** The calculator never divides the least int by -1, the division that would stop the processor, and
    from a cleared state two numbers of up to nine digits with an operation between them give its
    result in 32 bits, or the error of a division by 0. *)
Theorem calculator_correct :
  (forall events, ~ division_traps (fold_left (fun c e => calculator_event e c) events calculator_clear)) /\
  (forall a b op, 0 <= a < 10 ^ 9 -> 0 <= b < 10 ^ 9 -> is_operator op = true ->
     let c := calculator_run (decimal a ++ [op] ++ decimal b ++ [61]) calculator_clear in
     ca_error c = (op =? 47) && (b =? 0) /\
     (ca_error c = false ->
      ca_value c = s32 (if op =? 43 then a + b else if op =? 45 then a - b else if op =? 42 then a * b else a / b))).
Proof.
  split.
  - intros events. apply division_never_traps.
    assert (H : forall c, calculator_ok c -> calculator_ok (fold_left (fun c e => calculator_event e c) events c)).
    { induction events as [|e events IH]; [done|]. intros c Hc. cbn. apply IH. destruct e as [key|[character key]]; cbn;
        [by apply calculator_press_ok|by apply calculator_key_ok]. }
    apply H, calculator_clear_ok.
  - intros a b op Ha Hb Hop. cbv zeta. rewrite calculator_run_app, calculator_types_decimal by done. cbn [ca_accumulator ca_operator calculator_clear].
    rewrite calculator_run_app.
    assert (E : calculator_run [op] (mkCalculator a 0 0 false false) = mkCalculator a a op true false).
    { unfold calculator_run, calculator_press. cbn [fold_left]. unfold is_operator in Hop.
      replace ((48 <=? op) && (op <=? 57)) with false by (unfold is_operator in Hop; lia). replace (op =? 67) with false by lia.
      replace (op =? 61) with false by lia. unfold is_operator. rewrite Hop. done. }
    rewrite E, calculator_run_app, calculator_types_decimal by done. cbn [ca_accumulator ca_operator].
    unfold is_operator in Hop. unfold calculator_run. cbn [fold_left]. unfold calculator_press. cbn [Z.leb Z.eqb andb].
    assert (Ho : op = 43 \/ op = 45 \/ op = 42 \/ op = 47) by lia.
    destruct Ho as [-> | [-> | [-> | ->]]]; cbn; (split; [|intros Herr]); try done; destruct (b =? 0) eqn:Eb; try done.
    by rewrite Z.quot_div_nonneg by lia.
Qed.

Lemma calculator_correct_witness :
  ca_value (calculator_run (decimal 12 ++ [42] ++ decimal 34 ++ [61]) calculator_clear) = 408.
Proof.
  destruct calculator_correct as [_ H]. destruct (H 12 34 42) as [_ E]; [lia|lia|done|]. rewrite E; [done|by vm_compute].
Defined.

(** ** History *)

Inductive Navigation := GoAddress | GoBack | GoForward.

Definition navigate {K} `{!Services K} (n : Navigation) : U (K := K) unit :=
  match n with GoAddress => browser_navigate | GoBack => browser_go_back | GoForward => browser_go_forward end.

(** The visits, and whether a move that has begun is not over: the next address is then not added. *)
Definition Journal : Type := Visits * bool.

(** [busy] while a page is being loaded, [sent] if the bridge takes the request. *)
Definition journal_step (n : Navigation) (busy sent : bool) (url : list Z) (j : Journal) : Journal :=
  let '(v, moving) := j in
  let arrive (v' : Visits) : Journal := (v', bool_decide (vs_current v' = Some [])) in
  if busy then j else
  match n with
  | GoAddress => if bool_decide (url = []) then j else (if sent && negb moving then visit (normalized_url url) v else v, false)
  | GoBack => if bool_decide (vs_back v = []) then j else arrive (visit_back v)
  | GoForward => if bool_decide (vs_forward v = []) then j else arrive (visit_forward v)
  end.

Definition journal (b : Browser) : Journal := (visits b, br_navigating_history b).

(** A move to another place. *)
Lemma go_to_journal {K} `{!Services K} index (s : K) u v' :
  let b := ui_browser u in
  br_loading b = false -> (index < length (br_history b))%nat -> visits_at (br_history b) index = v' ->
  journal (ui_browser (go_to index (s, u)).2.2) = (v', bool_decide (vs_current v' = Some [])).
Proof.
  intros b Hl Hi <-. destruct (go_to_history index s u Hl Hi) as (H1 & H2 & H3).
  unfold journal. rewrite (visits_eq _ (set_br_history_index index b)), H3 by done. done.
Qed.

Lemma go_back_journal {K} `{!Services K} (s : K) u : history_ok (ui_browser u) ->
  journal (ui_browser (browser_go_back (s, u)).2.2) = journal_step GoBack (br_loading (ui_browser u)) false [] (journal (ui_browser u)).
Proof.
  set (b := ui_browser u). intros (_ & _ & Hi). remember (browser_go_back (s, u)) as r eqn:Er. unfold browser_go_back, bind in Er.
  cbn [the gets] in Er. fold b in Er. unfold journal_step, journal at 2. destruct (br_loading b) eqn:Hl; [by subst r|]. cbn [orb] in Er.
  unfold visits at 1. cbn [visits_at vs_back]. destruct (Nat.leb_spec (br_history_index b) 0) as [H0|H0]; subst r.
  - by rewrite bool_decide_true by (by replace (br_history_index b) with 0%nat by lia).
  - rewrite bool_decide_false by (intros E%(f_equal length); rewrite length_take in E; cbn in E; lia).
    apply go_to_journal; [done|fold b; lia|]. unfold visits. apply visits_back. fold b. lia.
Qed.

Lemma go_forward_journal {K} `{!Services K} (s : K) u : history_ok (ui_browser u) ->
  journal (ui_browser (browser_go_forward (s, u)).2.2) = journal_step GoForward (br_loading (ui_browser u)) false [] (journal (ui_browser u)).
Proof.
  set (b := ui_browser u). intros (_ & _ & Hi). remember (browser_go_forward (s, u)) as r eqn:Er. unfold browser_go_forward, bind in Er.
  cbn [the gets] in Er. fold b in Er. unfold journal_step, journal at 2. destruct (br_loading b) eqn:Hl; [by subst r|]. cbn [orb] in Er.
  unfold visits at 1. cbn [visits_at vs_forward]. destruct (Nat.leb_spec (length (br_history b)) (br_history_index b + 1)) as [H0|H0]; subst r.
  - by rewrite bool_decide_true by (apply drop_ge; lia).
  - rewrite bool_decide_false by (intros E%(f_equal length); rewrite length_drop in E; cbn in E; lia).
    apply go_to_journal; [done|fold b; lia|]. unfold visits. apply visits_forward. fold b. lia.
Qed.

Lemma go_address_journal {K} `{!Services K} (s : K) u : history_ok (ui_browser u) -> (length (br_url (ui_browser u)) < URL_SIZE)%nat ->
  journal (ui_browser (browser_navigate (s, u)).2.2) =
  journal_step GoAddress (br_loading (ui_browser u)) (os_network_tcp_send (request (normalized_url (br_url (ui_browser u)))) s).1
    (br_url (ui_browser u)) (journal (ui_browser u)).
Proof.
  set (b := ui_browser u). intros Hh Hlen. unfold journal_step, journal at 2.
  destruct (br_loading b) eqn:Hl; [unfold browser_navigate, bind; cbn [the gets]; fold b; rewrite Hl, orb_true_r; done|].
  destruct (decide (br_url b = [])) as [Hu|Hu]; [rewrite bool_decide_true by done; unfold browser_navigate, bind; cbn [the gets]; fold b;
    by rewrite bool_decide_true by done|].
  rewrite bool_decide_false by done. destruct (browser_navigate_history s u Hu Hl) as (H1 & H2 & H3). fold b in H1, H2. unfold journal.
  rewrite H3, (visits_eq _ _ H1 H2). f_equal. destruct (os_network_tcp_send _ s) as [[] s']; cbn [fst andb]; [|done].
  destruct (br_navigating_history b) eqn:Hn; cbn [negb]; [unfold record_history; cbn; by rewrite Hn|].
  apply (visits_record (set_br_url (normalized_url (br_url b)) b)); [done|by apply length_normalized_url|done].
Qed.

(** [C40] The history of the browser is a place among visits, together with a mark that a move to another place is not over.
    While a page is being loaded nothing changes.  Opening an address the bridge accepts puts the page
    left behind the new one and forgets the pages ahead, keeping the last 31; the same address again
    changes nothing, an empty address is not opened, and the address is not added when the mark is set;
    after it the mark is gone.  Back and forward move by one place, whether the bridge answers or not, and
    stay where they are at the ends; the mark is left set exactly when the place moved to has an empty address (see
    [empty_entry_hides_visit]).  This holds for every history within its bounds, which [desktop_bounded] proves. *)
Theorem history_refines {K} `{!Services K} (n : Navigation) (s : K) u :
  let b := ui_browser u in
  history_ok b -> (length (br_url b) < URL_SIZE)%nat ->
  let sent := (os_network_tcp_send (request (normalized_url (br_url b))) s).1 in
  journal (ui_browser (navigate n (s, u)).2.2) = journal_step n (br_loading b) sent (br_url b) (journal b).
Proof.
  intros b Hh Hlen. destruct n; cbn [navigate].
  - by apply go_address_journal.
  - by rewrite (go_back_journal s u Hh).
  - by rewrite (go_forward_journal s u Hh).
Qed.

(** The first page opened after the start. *)
Lemma history_refines_witness :
  let u := (ui_init (K := list (list Z)) ([], initial_ui)).2.2 in
  journal (ui_browser (navigate (K := list (list Z)) GoAddress ([], u)).2.2) = (mkVisits [] (Some (text "https://example.com")) [], false).
Proof.
  cbv zeta. rewrite (history_refines (K := list (list Z)) GoAddress [] (ui_init (K := list (list Z)) ([], initial_ui)).2.2).
  - by vm_compute.
  - split_and!; [vm_compute; lia|constructor|right; done].
  - vm_compute; lia.
Defined.

(** Two pages, the first of which the bridge sends with an empty address.  Back goes to the empty entry and
    opens nothing; the address that is opened then replaces no place and is added nowhere. *)
Example empty_entry_hides_visit :
  let page (url : list Z) := encode (page_lines (mkPage (text "200") (text "Nova") url (text "Hello") [] [])) in
  let go (url : list Z) (u : Ui) := set_ui_browser (set_br_url url (ui_browser u)) u in
  let open (url : list Z) (x : list (list Z) * Ui) := (navigate (K := list (list Z)) GoAddress (x.1, go url x.2)).2 in
  let start := (ui_init (K := list (list Z)) ([], initial_ui)).2 in
  let x1 := (receive_all [page []] (open (text "https://one.example/") start)).2 in
  let x2 := (receive_all [page (text "https://two.example/")] (open (text "https://two.example/") x1)).2 in
  let x3 := (navigate GoBack x2).2 in
  journal (ui_browser x3.2) = (mkVisits [] (Some []) [text "https://two.example/"], true) /\
  journal (ui_browser (open (text "https://three.example/") x3).2) = (mkVisits [] (Some []) [text "https://two.example/"], false).
Proof. by vm_compute. Qed.

(** ** A minimised window is drawn *)

(** The bridge sends a line while the assistant's window is minimised: the next call of [ui_render]
    draws the content of the window. *)
Example minimised_window_drawn :
  let w := mkWindow APP_AI 100 50 820 600 true true in
  let u := set_ui_desk (mkDesk w true 0 false false false false 0 0 0 0 0 false 0 0 0 0 0) initial_ui in
  let x := (ui_poll_services (K := list (list Z)) ([text "NOVA/1 READY" ++ [newline]], u)).2 in
  wn_minimized (dk_window (ui_desk x.2)) = true /\ (ui_render (K := list (list Z)) x).1 = WindowFrame.
Proof. by vm_compute. Qed.

(** ** A file name that is too long *)

(** A download in progress with a file name of 144 characters: the text of the status does not fit. *)
Example long_file_name_overflows :
  let line := text "DOWNLOAD" ++ [9] ++ text "ACTIVE" ++ [9] ++ text "50" ++ [9] ++ text "1000" ++ [9] ++ replicate 144 97 ++ [9] ++ [newline] in
  ui_overflow (receive_all (K := list (list Z)) [line] ([], initial_ui)).2.2 = true.
Proof. by vm_compute. Qed.

(** ** A line that never ends *)

(** Once the buffer is full without a newline in it, nothing the bridge sends is kept: no line is
    handled any more. *)
Lemma wire_full_stuck {K} `{!Services K} t (s : K) u :
  length (ai_wire (ui_ai u)) = (WIRE_SIZE - 1)%nat -> newline ∉ ai_wire (ui_ai u) ->
  receive_bytes t (s, u) = (tt, (s, set_wire (noted (ui_desk u)) (ai_wire (ui_ai u)) u)).
Proof.
  intros Hlen Hn. transitivity (receive_bytes [] (s, u)).
  { unfold receive_bytes. unfold bind at 1 5. cbn [change_ai change modify]. rewrite Hlen, Nat.sub_diag. by rewrite !take_nil. }
  rewrite receive_bytes_spec by (unfold WIRE_SIZE in *; cbn [length]; lia). unfold deliver, handled. rewrite app_nil_r.
  by rewrite lines_of_none by done.
Qed.
