(* ===== verification/DesktopSystem.v ===== *)
(** * The system below the desktop, and the main loop

    The file system, the compiler, the processes, the installer, the network stack, the accounts, the
    graphics and the ports of this development give the desktop what it asks for; the loop of
    kernel/kernel.c runs them in turn. *)

From S2P Require Import Prelude Runtime Heap HeapFacts Interfaces Ports Filesystem Account Compiler Deb NicInterface Network.
From S2P Require Import Graphics Vm Process Descriptors FileCalls ElfLoader Tasks Syscalls Input Rtc Ui DesktopFacts DesktopWire DesktopTheorems.

Section system.
Context {D N B : Type} `{!BlockDevice D} `{!Nic N} `{!Bus B}.

Record NovaSystem := mkNovaSystem {
  ns_kernel : @Kernel D Heap; ns_database : AccountDatabase; ns_current : Z; ns_network : @Network N; ns_gfx : Gfx; ns_ports : Machine B }.

(** ** Each part within the whole *)

Definition on_kernel {A} (op : st (@Kernel D Heap) A) : st NovaSystem A := fun y =>
  let '(r, k) := op (ns_kernel y) in (r, mkNovaSystem k (ns_database y) (ns_current y) (ns_network y) (ns_gfx y) (ns_ports y)).

(** The accounts work on the volume of the kernel. *)
Definition on_accounts {A} (op : st (@Accounts D Heap) A) : st NovaSystem A := fun y =>
  let '((r, a), k) := on_fs (fun s => let '(r, a) := op (mkAccounts (ns_database y) (ns_current y) s) in ((r, a), volume a)) (ns_kernel y) in
  (r, mkNovaSystem k (database a) (current_index a) (ns_network y) (ns_gfx y) (ns_ports y)).

Definition accounts (y : NovaSystem) : @Accounts D Heap := mkAccounts (ns_database y) (ns_current y) (k_fs (ns_kernel y)).

(** The network stack reads the tick counter of the scheduler. *)
Definition with_ticks (v : Z) (n : @Network N) : @Network N :=
  mkNetwork (nic n) (wire n) v (local_mac n) (gateway_mac n) (adapter_ready n) (gateway_ready n)
    (sent_packets n) (received_packets n) (last_arp_tick n) (ip_identifier n) (udp_source_port n) (status_text n) (tcp n).

Definition on_network {A} (op : st (@Network N) A) : st NovaSystem A := fun y =>
  let '(r, n) := op (with_ticks (k_scheduler_ticks (ns_kernel y)) (ns_network y)) in (r, mkNovaSystem (ns_kernel y) (ns_database y) (ns_current y) n (ns_gfx y) (ns_ports y)).

Definition on_gfx (f : Gfx -> Gfx) : st NovaSystem unit :=
  modify (fun y => mkNovaSystem (ns_kernel y) (ns_database y) (ns_current y) (ns_network y) (f (ns_gfx y)) (ns_ports y)).

Definition on_io_ports {A} (op : st (Machine B) A) : st NovaSystem A := fun y =>
  let '(r, m) := op (ns_ports y) in (r, mkNovaSystem (ns_kernel y) (ns_database y) (ns_current y) (ns_network y) (ns_gfx y) m).

(** ** What the desktop relies on *)

Definition at_most (n : Z) (r : option (list Z)) : Prop := forall l, r = Some l -> Z.of_nat (length l) <= n.

Lemma read_loop_length fuel start offset capacity buffer (s : @FsState D Heap) :
  Z.of_nat (length buffer) <= capacity -> wp (read_loop fuel start offset capacity buffer) (fun r _ => at_most capacity r) s.
Proof.
  revert buffer s. induction fuel as [|fuel IH]; intros buffer s Hb; cbn [read_loop]; destruct (_ <? capacity) eqn:E;
    try (apply wp_ret; by intros l [= <-]).
  apply wp_bind. unfold wp at 1, ata_read_sector. destruct (bd_read _ _) as [[data|] d]; cbn; [|by apply wp_ret].
  apply IH. unfold slice. rewrite length_app, length_take, length_drop. lia.
Qed.

Lemma fs_read_at_most name n (s : @FsState D Heap) : wp (Filesystem.fs_read name (Z.of_nat n)) (fun r _ => at_most (Z.of_nat n) r) s.
Proof.
  unfold Filesystem.fs_read, fs_read_at. apply wp_bind, wp_gets. destruct (_ || _); [by apply wp_ret|].
  apply wp_bind. unfold wp at 1. destruct (resolve_entry name s) as [[index|] s1]; cbn [fst snd]; [|by apply wp_ret].
  apply wp_bind, wp_gets, wp_bind, wp_gets. destruct (_ || _); [by apply wp_ret|].
  unfold read_entry_data, read_raw_data. destruct (_ <=? 0) eqn:E0; [apply wp_ret; intros l [= <-]; cbn; lia|].
  apply wp_bind. unfold wp at 1. destruct (alloc _ _) as [sector s2]; cbn [fst snd]. destruct (sector =? 0); [by apply wp_ret|].
  apply wp_bind. eapply wp_mono; [apply read_loop_length; cbn; lia|]. intros r s3 Hr. apply wp_bind. unfold wp at 1.
  destruct (free _ _) as [u s4]; cbn [fst snd]. apply wp_ret. destruct r as [l|]; [|done]. destruct (_ <? _); [done|].
  intros l' [= <-]. specialize (Hr l eq_refl). lia.
Qed.

Lemma network_receive_at_most n (s : @Network N) : (length (Network.network_tcp_receive (Z.of_nat n) s).1 <= n)%nat.
Proof.
  unfold Network.network_tcp_receive, bind. cbn [gets]. destruct (_ || _); [cbn; lia|]. cbn [modify ret fst].
  rewrite length_take. case_match; lia.
Qed.

Lemma strlen_terminated l : (strlen (l ++ [0%Z]) <= length l)%nat.
Proof. induction l as [|c l IH]; cbn; [lia|]. case_match; lia. Qed.

Lemma length_bounded message size : 0 < size -> Z.of_nat (length (cstr (bounded message size))) < size.
Proof.
  intros Hs. rewrite length_cstr. unfold bounded. pose proof (strlen_terminated (strncpy message (Z.to_nat (size - 1)))).
  rewrite length_strncpy in H. lia.
Qed.

Lemma compiler_diagnostic_at_most source name (s : @FsState D Heap) l :
  (Compiler.compiler_compile source name 256 s).1.2 = Some l -> (length (cstr l) < 256)%nat.
Proof.
  assert (Hb : forall t, (length (cstr (bounded t 256)) < 256)%nat) by (intros t; pose proof (length_bounded t 256); lia).
  unfold Compiler.compiler_compile. unfold bind at 1. cbn [gets]. destruct (_ || _); [done|].
  destruct (find_text source (text "int main")), (find_text source (text "{")), (find_text source (text "}"));
    try (intros [= <-]; apply Hb).
  destruct (parse_return source) as [value|]; [|intros [= <-]; apply Hb].
  destruct (parse_print source 512) as [message|]; [|intros [= <-]; apply Hb].
  unfold bind at 1. destruct (alloc _ s) as [image s1]. destruct (image =? 0); [intros [= <-]; vm_compute; lia|].
  unfold bind at 1. destruct (Filesystem.fs_write _ _ s1) as [saved s2]. unfold bind. destruct (free _ s2).
  destruct saved; intros [= <-]; vm_compute; lia.
Qed.

Lemma on_fs_result {A} (op : st (@FsState D Heap) A) k : (on_fs op k).1 = (op (with_heap (vw_heap (k_world k)) (k_fs k))).1.
Proof. unfold on_fs. by destruct (op _). Qed.

(** ** The system behind the desktop *)

Definition installed (r : option (option DebInstallResult)) : bool := match r with Some (Some _) => true | _ => false end.

#[export] Program Instance nova_services : Services NovaSystem := {|
  os_gfx_width y := Graphics.gfx_width (ns_gfx y);
  os_gfx_height y := Graphics.gfx_height (ns_gfx y);
  os_gfx_generate_wallpaper accent dark := on_gfx (Graphics.gfx_generate_wallpaper accent dark);
  os_fs_is_ready y := Filesystem.fs_is_ready (k_fs (ns_kernel y));
  os_fs_write name data := on_kernel (on_fs (Filesystem.fs_write name data));
  os_fs_read name n := on_kernel (on_fs (Filesystem.fs_read name (Z.of_nat n)));
  os_fs_chmod name mode := on_kernel (on_fs (Filesystem.fs_chmod name mode));
  os_fs_file_count y := Filesystem.fs_file_count (k_fs (ns_kernel y));
  os_fs_file_info index y := fi_name <$> Filesystem.fs_file_info index (k_fs (ns_kernel y));
  os_heap_free_bytes y := Heap.heap_free_bytes (vw_heap (k_world (ns_kernel y)));
  os_compiler_compile source name := on_kernel (on_fs (Compiler.compiler_compile source name 256));
  os_process_load name := on_kernel (Syscalls.process_load name);
  os_process_is_running y := Tasks.process_is_running (ns_kernel y);
  os_process_output y := Tasks.process_output (ns_kernel y);
  os_process_exit_code y := Tasks.process_exit_code (ns_kernel y);
  os_process_count y := Tasks.process_count (ns_kernel y);
  os_process_foreground_pid y := Tasks.process_foreground_pid (ns_kernel y);
  os_process_name y := Tasks.process_name (ns_kernel y);
  os_process_audit_elf_dependencies name := on_kernel (ElfLoader.process_audit_elf_dependencies name);
  os_deb_install_file name := on_kernel (r <- on_fs (Deb.deb_install_file name) ;; ret (installed r));
  os_network_tcp_send data := on_network (Network.network_tcp_send data);
  os_network_tcp_receive n := on_network (Network.network_tcp_receive (Z.of_nat n));
  os_network_send_udp data := on_network (Network.network_send_udp 0x0A000202 7777 data);
  os_network_status y := Network.network_status (ns_network y);
  os_network_packets_sent y := Network.network_packets_sent (ns_network y);
  os_network_packets_received y := Network.network_packets_received (ns_network y);
  os_account_current_name y := Account.account_current_name (accounts y);
  os_account_current_uid y := Account.account_current_uid (accounts y);
  os_account_count y := Account.account_count (accounts y);
  os_account_info index y := (fun i => (ai_administrator i, Account.ai_name i, ai_uid i)) <$> Account.account_info index (accounts y);
  os_account_login name password := on_accounts (Account.account_login name password);
  os_account_create name password := on_accounts (Account.account_create name password false);
  os_outb port value := on_io_ports (Ports.outb port value);
  os_outw port value := on_io_ports (Ports.outw port value) |}.
Next Obligation.
  intros name n y l. unfold on_kernel. pose proof (on_fs_result (Filesystem.fs_read name (Z.of_nat n)) (ns_kernel y)) as E.
  destruct (on_fs _ _) as [r k]. cbn [fst] in *. intros ->.
  pose proof (fs_read_at_most name n (with_heap (vw_heap (k_world (ns_kernel y))) (k_fs (ns_kernel y))) l (eq_sym E)). lia.
Qed.
Next Obligation.
  intros n y. unfold on_network.
  pose proof (network_receive_at_most n (with_ticks (k_scheduler_ticks (ns_kernel y)) (ns_network y))). by destruct (Network.network_tcp_receive _ _).
Qed.
Next Obligation.
  intros source name y l. unfold on_kernel.
  pose proof (on_fs_result (Compiler.compiler_compile source name 256) (ns_kernel y)) as E.
  destruct (on_fs _ _) as [r k]. cbn [fst] in *. intros Hr. rewrite E in Hr. by apply compiler_diagnostic_at_most in Hr.
Qed.

(** ** The main loop *)

(** The system, the desktop, the input driver and the local variables of [kernel_main]. *)
Record Main := mkMain {
  mn_system : NovaSystem; mn_ui : Ui; mn_input : Input; mn_previous_time : RtcTime;
  mn_preemption_reported : bool; mn_network_reported : bool; mn_bridge_attempted : bool;
  mn_compiler_self_test : bool; mn_init_installed : bool }.

Definition with_main (y : NovaSystem) (u : Ui) (i : Input) (m : Main) : Main :=
  mkMain y u i (mn_previous_time m) (mn_preemption_reported m) (mn_network_reported m) (mn_bridge_attempted m)
    (mn_compiler_self_test m) (mn_init_installed m).

Definition on_system {A} (op : st NovaSystem A) : st Main A := fun m =>
  let '(r, y) := op (mn_system m) in (r, with_main y (mn_ui m) (mn_input m) m).

Definition on_ui {A} (op : st (NovaSystem * Ui) A) : st Main A := fun m =>
  let '(r, (y, u)) := op (mn_system m, mn_ui m) in (r, with_main y u (mn_input m) m).

Definition on_console {A} (op : st (Console B) A) : st Main A := fun m =>
  let y := mn_system m in
  let '(r, c) := op (mkConsole (ns_ports y) (mn_input m)) in
  (r, with_main (mkNovaSystem (ns_kernel y) (ns_database y) (ns_current y) (ns_network y) (ns_gfx y) (machine c)) (mn_ui m) (input c) m).

Definition report (t : list Z) : st Main unit := on_system (on_kernel (serial_write (t ++ [13; 10]))).

Definition flags (time : RtcTime) (preemption network bridge self_test : bool) (m : Main) : Main :=
  mkMain (mn_system m) (mn_ui m) (mn_input m) time preemption network bridge self_test (mn_init_installed m).

(** At most [n] events of the keyboard and the mouse. *)
Fixpoint input_events (n : nat) : st Main unit :=
  match n with
  | O => ret tt
  | S n =>
      polled <- on_console (input_poll (mkEvent INPUT_NONE 0 0 0 0 KEY_NONE)) ;;
      let '(found, event) := polled in
      if negb found then ret tt else
      (match ev_type event with
       | INPUT_MOUSE => on_ui (ui_mouse (ev_mouse_x event) (ev_mouse_y event) (ev_mouse_buttons event))
       | INPUT_KEY => on_ui (ui_key (ev_character event) (ev_key event))
       | INPUT_NONE => ret tt
       end) ;;;
      input_events n
  end.

(** What runs in user mode, and how long to wait for the clock, which the source does without limit. *)
Variables (run : Z -> st (@Kernel D Heap) unit) (fuel polls : nat).

(** A round up to the call of [ui_poll_services]; [false] if the clock has not answered. *)
Definition round_before_services : st Main bool :=
  input_events 128 ;;;
  time <- on_system (on_io_ports (rtc_time fuel polls)) ;;
  match time with
  | None => ret false
  | Some now =>
      m <- gets id ;;
      (if same_time now (mn_previous_time m) then ret tt
       else
         modify (flags now (mn_preemption_reported m) (mn_network_reported m) (mn_bridge_attempted m) (mn_compiler_self_test m)) ;;;
         on_ui (ui_set_time (hour now) (minute now) (second now))) ;;;
      m <- gets id ;;
      (if ui_needs_render (ui_desk (mn_ui m)) then frame <- on_ui ui_render ;; ret tt else ret tt) ;;;
      on_system (on_network network_poll) ;;;
      ret true
  end.

Definition gateway_resolved (m : Main) : bool := network_gateway_resolved (ns_network (mn_system m)).

Definition round_after_services : st Main unit :=
  m <- gets id ;;
  (if negb (mn_network_reported m) && gateway_resolved m then
     report (text "NovaOS: ARP gateway resolved, IPv4/UDP online") ;;;
     modify (fun m => flags (mn_previous_time m) (mn_preemption_reported m) true (mn_bridge_attempted m) (mn_compiler_self_test m) m)
   else ret tt) ;;;
  (if negb (mn_bridge_attempted m) && gateway_resolved m then
     connected <- on_system (on_network (network_tcp_connect 0x0A000202 7780)) ;;
     modify (fun m => flags (mn_previous_time m) (mn_preemption_reported m) (mn_network_reported m) true (mn_compiler_self_test m) m)
   else ret tt) ;;;
  on_system (on_kernel (process_schedule run)) ;;;
  m <- gets id ;;
  let k := ns_kernel (mn_system m) in
  (if mn_compiler_self_test m && negb (process_is_running k) then
     (if bool_decide (cstr (process_output k) = text "NovaCC Ring 3 self-test" ++ [10]) && (process_exit_code k =? 7)
      then report (text "NovaOS: NovaCC compile/load/run self-test passed")
      else report (text "NovaOS: NovaCC self-test failed")) ;;;
     modify (fun m => flags (mn_previous_time m) (mn_preemption_reported m) (mn_network_reported m) (mn_bridge_attempted m) false m) ;;;
     loaded <- (if mn_init_installed m then on_system (on_kernel (process_load (text "init.elf"))) else ret false) ;;
     if loaded : bool then report (text "NovaOS: init.elf loaded from NovaFS") else ret tt
   else ret tt) ;;;
  m <- gets id ;;
  if negb (mn_preemption_reported m) && (100 <=? k_scheduler_ticks (ns_kernel (mn_system m))) then
    report (text "NovaOS: Ring 3 preemption verified") ;;;
    modify (fun m => flags (mn_previous_time m) true (mn_network_reported m) (mn_bridge_attempted m) (mn_compiler_self_test m) m)
  else ret tt.

Definition main_round : st Main bool :=
  ticking <- round_before_services ;;
  if ticking : bool then on_ui ui_poll_services ;;; round_after_services ;;; ret true else ret false.

(** ** The desktop within the main loop *)

Definition main_retains {A} (m : st Main A) : Prop := forall x, ui_ok (mn_ui x) -> ui_ok (mn_ui (m x).2).

Lemma main_retains_ret {A} (a : A) : main_retains (ret a).
Proof. by intros x. Qed.

Lemma main_retains_bind {A C} (m : st Main A) (k : A -> st Main C) :
  main_retains m -> (forall a, main_retains (k a)) -> main_retains (bind m k).
Proof. intros Hm Hk x H. unfold bind. specialize (Hm x H). destruct (m x) as [a x']. by apply Hk. Qed.

Lemma main_retains_gets {A} (f : Main -> A) : main_retains (gets f).
Proof. by intros x. Qed.

Lemma main_retains_flags f : (forall x, mn_ui (f x) = mn_ui x) -> main_retains (modify f).
Proof. intros Hf x H. cbn. by rewrite Hf. Qed.

Lemma main_retains_system {A} (op : st NovaSystem A) : main_retains (on_system op).
Proof. intros x H. unfold on_system. by destruct (op (mn_system x)). Qed.

Lemma main_retains_console {A} (op : st (Console B) A) : main_retains (on_console op).
Proof. intros x H. unfold on_console. by destruct (op _). Qed.

Lemma main_retains_ui {A} (op : st (NovaSystem * Ui) A) : retains ui_ok op -> main_retains (on_ui op).
Proof.
  intros Hop x H. unfold on_ui. specialize (Hop (mn_system x, mn_ui x) H). by destruct (op _) as [r [y u]].
Qed.

Lemma main_retains_events n : main_retains (input_events n).
Proof.
  induction n as [|n IH]; cbn [input_events]; [apply main_retains_ret|].
  apply main_retains_bind; [apply main_retains_console|]. intros [found event]. destruct found; cbn [negb]; [|apply main_retains_ret].
  apply main_retains_bind; [|done]. destruct (ev_type event); [apply main_retains_ret| |];
    [apply main_retains_ui, retains_ui_mouse|apply main_retains_ui, retains_ui_key].
Qed.

Ltac main_retains_step :=
  match goal with
  | |- main_retains (bind _ _) => apply main_retains_bind; [|intros ?]
  | |- main_retains (ret _) => apply main_retains_ret
  | |- main_retains (gets _) => apply main_retains_gets
  | |- main_retains (modify _) => by apply main_retains_flags
  | |- main_retains (on_system _) => apply main_retains_system
  | |- main_retains (report _) => apply main_retains_system
  | |- main_retains (on_ui ui_render) => apply main_retains_ui, retains_ui_render
  | |- main_retains (on_ui (ui_set_time _ _ _)) => apply main_retains_ui, retains_ui_set_time
  | |- main_retains (input_events _) => apply main_retains_events
  | |- main_retains (match ?x with _ => _ end) => destruct x
  end.

Lemma main_retains_before : main_retains round_before_services.
Proof. unfold round_before_services. repeat main_retains_step. Qed.

Lemma main_retains_after : main_retains round_after_services.
Proof. unfold round_after_services. repeat main_retains_step. Qed.

(** The lines the desktop finds in a round have room. *)
Definition round_lines_ok (x : Main) : Prop :=
  let x' := (round_before_services x).2 in
  Forall (fun l => line_ok (cstr l) = true) (poll_lines (mn_system x') (mn_ui x')).

Inductive main_rounds (x : Main) : Main -> Prop :=
| main_rounds_start : main_rounds x x
| main_rounds_next x' : main_rounds x x' -> round_lines_ok x' -> main_rounds x (main_round x').2.

(** However long the main loop runs, the desktop stays within its arrays. *)
Theorem main_loop_bounded x x' : ui_ok (mn_ui x) -> main_rounds x x' -> ui_ok (mn_ui x').
Proof.
  intros H0. induction 1 as [|x1 _ IH Hl]; [done|]. unfold main_round, round_lines_ok in *. unfold bind at 1.
  pose proof (main_retains_before x1 IH) as Hb. destruct (round_before_services x1) as [[] x2]; [|done]. cbn [snd] in *.
  unfold bind at 1, on_ui. pose proof (ui_poll_services_ok (mn_system x2) (mn_ui x2) Hb Hl) as Hp.
  destruct (ui_poll_services (mn_system x2, mn_ui x2)) as [r [y u]]. unfold bind.
  pose proof (main_retains_after (with_main y u (mn_input x2) x2) Hp) as Ha. by destruct (round_after_services _).
Qed.

End system.
